(* ===== verification/_CoqProject ===== *)
-Q . S2P
Prelude.v
JsString.v
Currency.v
JsNumber.v
DateTime.v
JsBuffer.v
Paging.v
IntakePolicy.v
Db.v
OfferingPolicy.v
OfferingRepo.v
OfferingFacts.v
OfferingInv.v
OfferingLedger.v
OfferingDemo.v
OfferingProps.v
OfferingPacks.v
OfferingServices.v
OfferingServiceProps.v
OfferingMail.v
EscrowMint.v
EscrowWorld.v
Settlement.v
Wallet.v
EscrowCampaign.v
Rental.v
Idempotency.v
Cursor.v
RateLimit.v
KycPolicy.v
KycRepo.v
KycServices.v
KycMachine.v
KycProps.v
KycEvents.v
DiditWebhook.v
RequestLog.v
IntakeDb.v
IntakeRepo.v
IntakeReversal.v
IntakeLedger.v
IntakeMachine.v
IntakeInv.v
IntakeDemo.v
IntakeProps.v
IntakeOps.v
IntakeReads.v
IntakeServices.v
IntakeApi.v
IntakeSweep.v
IntakeServiceProps.v
CaseDocuments.v
Activity.v
OpsReadiness.v
OpsReadinessProps.v
IntakeWorkflow.v
KycGate.v
AuthDb.v
AuthRecovery.v
AuthDevice.v
AuthSessions.v
AuthCeremonies.v
AuthEnrol.v
AuthReplay.v
AuthMachine.v
AuthProps.v
AuthDemo.v
Attestation.v
Dpop.v
AuthPaths.v
Gateway.v
DpopReplay.v
GatewayProps.v
Staff.v
StaffServices.v
StaffProps.v
StaffLedger.v
StaffOffboard.v
AuthHooks.v
Routes.v
