(* ===== verification/Prelude.v ===== *)
(** * VistaBlox API: a verification development

    VistaBlox is an Express/Prisma service.  Applicants enter a property, staff and partners
    review the case, an approved case becomes an offering; verified investors reserve a share
    of it, reconfirm once final terms are known, and receive positions (off-chain) or tokens
    (from an on-chain escrow); rent is then distributed to position holders.  Customers sign
    in with a phone that holds a key, staff with passkeys.  The implementation lives in
    src/src/; the tables in src/prisma/schema/; the escrow contract in src/contracts/contracts/.

    ** The parts and the files that model them

    - Language and library.  [Prelude]: results, transactions and services as a small
      error/state monad, table queries, generic lemmas, the hint database [vista].
      [JsString]: the JavaScript string and BigInt functions used.  [JsNumber]: IEEE doubles.
      [JsBuffer]: bytes, hexadecimal and base64url.  [DateTime]: the UTC half of the
      JavaScript Date.  [Currency]: shared/domain/currency.ts and position.ts.  [Paging]:
      keyset pagination, an interface ([KeysetQuery]) between the repository reads and the
      services that page through them.  [Cursor]: the text of the cursors, over [JsJson]
      (JSON.parse and JSON.stringify) and [JsDate] (the ISO date texts).
    - [Db]: the rows of the Prisma schema the investment modules share, with the keys,
      foreign keys, CHECKs and column precision that make a write throw.
    - Offering module (modules/offering).  [OfferingPolicy] is domain/; [OfferingRepo] the
      transactions of repository/prisma-offering.repository.ts; [OfferingServices] the
      services of application/; [OfferingMail] the two e-mail jobs.  [OfferingFacts],
      [OfferingInv], [OfferingSteps] and [OfferingLedger] hold the lemmas, [OfferingSteps.step]
      being the interleaving of all transactions and the writes other modules make to shared
      tables.  [OfferingDemo] is one offering driven through its whole life.  The public list
      is in [Activity], the disclosure documents an investor may read in [Documents].
    - Settlement module (modules/settlement).  [EscrowMint] is the mint protocol of
      finalize-ipo-escrow-campaigns.service.ts for one contributor, as a program of atomic
      calls; [EscrowWorld] the world in which any number of its runs interleave, crash and
      lose answers; [EscrowCampaign] the campaign loop and the opening job over the state
      machine of VistaBloxIpoEscrow.sol; [Settlement] the repository reads and the
      wallet-registration watcher.
    - Wallet module (modules/wallet).  [Wallet]: registration, reconciliation from a receipt,
      balance and prepared transfers, as one machine with the watcher.
    - Investor activity and profile (modules/investor-activity, modules/profile): the modules
      [Activity], [Documents] and [Profile] of Activity.v.
    - Rental module (modules/rental).  In Rental.v, [RentalPolicy] is domain/; [Rental] the
      calculation service, the sweep and their repository.
    - Intake module (modules/intake).  [IntakePolicy] is the case policies of domain/;
      [IntakeDb] the tables and the case-event ledger every transaction appends to;
      [IntakeRepo] the case transactions, [DocumentTx], in the same file, those of documents and
      room photos, with their reads and writes apart; [IntakeReversal] the two-person corrections;
      [IntakeReads] the reads and the partner organizations; [IntakeServices] the services;
      [OpsReadiness] and [IntakeWorkflow] the two views the staff works from, with
      [IntakeLabels]; [CaseDocuments] the upload, the room photos and the download.
      [IntakeMachine] is the abstract machine of a case, which every transaction refines; [IntakeApi] the services as one interface whose runs are runs of
      that machine; [IntakeLedger], [IntakeInv], [IntakeDemo] hold lemmas and a concrete case.
    - Identity module (modules/identity).  [KycPolicy] is domain/; [KycRepo] the repository;
      [KycServices] sessions, webhooks, jobs and the display profile; [KycMachine] the machine
      of one account's row; [DiditWebhook] the signature and the schema of a webhook.
    - Auth module, customers (modules/auth).  [AuthDb]: tables, Better Auth's adapter as a
      class with laws.  [AuthDevice]: challenges, devices and the device JWS; [AuthEnrol]: the
      enrolment and login ceremonies; [AuthSessions]: session lifetime and supersession;
      [AuthReplace] (in AuthReplay.v): device replacement; [AuthRecovery], [AuthServices]:
      account recovery and closure; [Attestation]: the Android key attestation, its revocation
      list and Play Integrity.  [AuthReplay] and [AuthCeremonies] are the concurrent
      executions; [AuthMachine] the module's transactions as a state machine.  [AuthHooks]: what
      Better Auth's hooks do (accounts, session mirror, audit trail) and the customer's own
      sessions, with modules/account; [LoginMethods], in the same file: unlinking.
    - Auth module, requests.  [Dpop]: proofs of possession, their replay table, the binding of
      a new session.  [AuthPaths]: which /api/auth paths are served.  [Gateway]: the session
      resolver, the authentication middleware and the guards behind it.  [DpopReplay]: every
      use of a proof as one machine with the pruning of the replay table.
    - Auth module, staff.  [Staff]: invitations, bootstrap, role assignments and passkeys;
      [StaffServices]: the services, the Better Auth adapters and the session guard.
    - HTTP.  [Idempotency]: shared/http/idempotency.ts and its store.  [RateLimit]:
      shared/http/rate-limit.ts and its Redis store.  [RequestLog]: what the log keeps of a
      request; [ErrorResponses], in the same file: the answer to an error.  [Routes]: app.ts and
      the routers, that is every route with its guards, and a request on its way through them.

    A transaction is a function [db -> result (answer * db)] ([txn]); a conflict is part of the
    answer, a thrown error leaves the database as it was.  A service is an [io]: several
    transactions and outside calls in a row, where what was committed before a throw stays.

    ** What the theorems show

    - Offering ([OfferingProps], [OfferingTxProps], [OfferingPacks], [OfferingServiceProps]):
      over every interleaving live reservations never exceed the target raise; the lifecycle of
      reservations and offerings; money events are append-only; positions correspond one to one
      to finalized reservations; each transaction on every branch; the services change the
      database by transactions only, so that the invariants hold of them.  [Documents]: who reserved on a
      disclosure pack can go on reading it.  [Activity]: an investor's lists and the public one
      are complete, page by page, and [Cursor]: what a cursor encodes is what it decodes to.
    - Settlement ([EscrowWorld], [EscrowCampaign], [Settlement]): a contributor is minted at
      most once whatever crashes (as long as nobody empties the wallet meanwhile), and is
      recorded only when minted; the job sweeps funds only after it has minted every
      contributor, whatever transactions others send, while a sweep of somebody else may leave
      contributors unminted; the registration watcher skips no block.  [Wallet]: a
      wallet is registered only for the account whose commitment the chain recorded.
    - Rental: the entries of a distribution never exceed the net of its inputs (which the code
      does not compare with the recorded rent); a period is calculated once.
    - Intake ([IntakeProps], [IntakeOps], [IntakeServiceProps], [IntakeSweep],
      [OpsReadinessProps]): the transactions refine the case machine; closed cases stay closed;
      the ledger is complete and numbered; the columns match the stage; corrections need two
      people; the applicant's entry gate; the expiry sweep; the completeness of the paged lists;
      an action offered to the staff is accepted by its service.  [CaseDocuments]: a room never
      has more than five photos, however uploads, selections and deletions interleave, and an
      upload leaves both a row and its objects or neither, up to objects that cannot be deleted.
    - Identity ([KycProps], [KycEvents], [KycJobs], [KycGate]): an eligible account was approved
      by the provider, in the order of the provider's events whatever the order of delivery;
      the jobs to the row; and, composed with the offering and intake services, whoever reserves
      or enters a property was approved.  [DiditWebhook]: an accepted webhook is signed over its
      whole body and fresh.
    - Customers ([AuthProps], [AuthReplay], [AuthCeremonies], [AuthRecoveryProps]): login
      methods match devices, between requests that do not overlap; a challenge reported expired
      registers nothing afterwards; superseding leaves a phone its newest session and no other;
      a lockout ends by two reviewers; a failed completion can be retried.
      [Attestation]: an enrolled key was attested by hardware under a trusted root, and a revoked
      certificate stops being accepted within a bounded time.  [AuthHooks]: as long as the hooks'
      writes succeed, the list of sessions tells the truth and what it lists can be ended; the method an account was registered with
      stays linked.
    - Requests ([GatewayProps], [DpopProps], [AuthPaths]): an admitted request belongs to a live
      session of an active account and carries a fresh proof with the session's key; a device
      session is never admitted past its limits; no two requests go through on one proof; no
      switched-off endpoint is reached whatever the headers, and for ordinary headers the route
      guard judges the path that is then routed.  [Routes]: in every configuration, a handler only
      sees a request that has been through the guards its place in the API demands.
      [RequestLog]: no at sign, plain or escaped, and no private value of a query string
      reaches the log.
    - Staff ([StaffProps], [StaffLedger], [StaffOffboard]): an administrator remains, when
      requests run one after another; an
      invitation is accepted once and each role is one audited acceptance or grant; offboarding
      completes, and locks the account out of every gate.
    - [Idempotency], [RateLimit], [Currency]: replay of stored answers, the rate window, money
      round trips.

    Theorems that exhibit a behaviour worth knowing rather than a guarantee:
    [publish_cancels_after_late_purchase], [escrow_mint_race_without_margin],
    [key_not_scoped], [lost_expire_never_recovers], [returned_to_draft_is_stuck],
    [withdraw_correction_never_succeeds], [partner_history_drops_events],
    [full_funding_reported_short], [begun_session_is_stranded],
    [recovery_reopens_closed_account], [superseded_code_starts_cooldown],
    [default_window_admits_replay], [concurrent_grants_leave_two_assignments],
    [last_revocation_is_final], [unproven_claim_takes_the_position],
    [uploads_fail_for_ulid_cases], [unlinked_method_stays_recorded],
    [foreign_sweep_leaves_contributors_unminted], [net_is_not_bounded_by_recorded_rent],
    [representative_may_be_deleted].

    ** Conventions, bounds and fuel

    NUMERIC(15,2) amounts are whole cents and DECIMAL(20,6) amounts whole millionths, both
    in [Z]; the code's own arithmetic is on BigInt, so there is no overflow to model, and
    column overflow is a thrown error ([fits_numeric_15_2]).  Operations readiness alone sums
    money as doubles, and so does its model.  Times are milliseconds since the epoch; every
    reading of a clock is an argument.  A row lock makes a transaction's reads and writes one
    atomic step, so concurrency of a module is interleaving of transactions; code that spans
    chain and database, or that checks in one statement and writes in another, interleaves at
    those statements instead ([EscrowWorld], [EscrowCampaign], [AuthReplay], [AuthCeremonies],
    [DpopReplay], [CaseDocuments]).  Two transactions read devices without a lock and are still
    one step each, [revokeDevicesForRecovery] and [consumeAndReplace]; what is proved with them
    is what holds when such requests do not overlap.

    Three recursions take fuel: printing a BigInt ([digits_fuel], a bound on the number of
    digits, proved sufficient); [business_day_loop], which [addBusinessDays] starts with three
    days per requested business day (proved to suffice in IntakePolicy.v);
    and [JSON_parse], whose fuel is bounded by the length of the text ([JSON_parse_total]).
    Walking a paged list ends because each page moves the cursor ([walk_all]).

    Provisos of time.  In [EscrowWorld], [maxPending + maxRun < grace]: the in-flight grace
    covers how long a transaction can stay pending plus how long a run takes from reading the
    intent to checking its age.  In [AuthReplay], Prisma's transaction timeout of 10 seconds
    against the insert deadline of 60 and the replay window of 120 seconds.  In [DpopReplay], a
    replay window of 121 seconds plus the delay between verifying and recording a proof plus
    the skew of the pruning clock.

    Code outside the repository is a parameter: identifier generation ([ulid]), the payment
    provider's session token, URL and transaction list, what Didit answers, SMTP delivery,
    JSON-RPC failures, SHA-256 and HMAC, the JOSE, WebAuthn, X.509 and image libraries, Better
    Auth's adapter, session lookup and session endpoints (classes with laws), the path matching
    of Express, Node's [isIP] and URL parser, and PostgreSQL's reading of a decimal text
    ([numeric], with its documented behaviour as hypotheses).  Calls that can
    fail go through [attempt] or [external] with an arbitrary [fault].  Response headers, log
    lines, titles and texts of errors carry no behaviour and are left out: an error is its code,
    its status and its field codes.

    ** What is not modelled

    The object the factory passes to Better Auth and its passkey bootstrap and challenge plugins:
    configuration and option objects which the library reads.  The schemas of requests and
    answers, apart from the webhook's: they restate types.  The HTTP clients of Didit and
    Coinbase, the chain client, the object store, SMTP and e-mail templates: adapters around
    services, which are parameters here.  Environment parsing, command-line scripts, the server
    and the job runner's wiring; so the repair script that backfills case events is not a step
    of the intake machine.  Of the contracts only the campaign state machine is, without the
    ledger of contributions and refunds. *)

From stdpp Require Export base list strings option relations.
From Stdlib Require Export ZArith Lia.

#[global] Open Scope Z_scope.

(** ** Errors and results

    An [AppError] of shared/errors/app-error.ts is kept as its stable [code], its HTTP
    [status] and the codes of its [fieldErrors]; the human-readable title and detail
    carry no behaviour.  Any other thrown value is [Thrown] with a short tag. *)

Inductive error :=
  | AppError (code : string) (status : Z) (fieldErrors : list string)
  | Thrown (message : string).

#[global] Instance error_eq_dec : EqDecision error.
Proof. solve_decision. Defined.

Inductive result (A : Type) :=
  | Ok (a : A)
  | Err (e : error).
Arguments Ok {A} _.
Arguments Err {A} _.

Definition rbind {A B} (m : result A) (f : A → result B) : result B :=
  match m with Ok a => f a | Err e => Err e end.

Definition is_ok {A} (m : result A) : bool :=
  match m with Ok _ => true | Err _ => false end.

Declare Scope vista_scope.
Delimit Scope vista_scope with vista.
#[global] Open Scope vista_scope.

Notation "'let!' x ':=' m 'in' k" := (rbind m (fun x => k))
  (at level 10, x pattern, m at level 100, k at level 200) : vista_scope.

Lemma rbind_ok {A B} (m : result A) (f : A → result B) b :
  rbind m f = Ok b ↔ ∃ a, m = Ok a ∧ f a = Ok b.
Proof. destruct m; simpl; naive_solver. Qed.

(** ** Effects

    [txn S A] is the body of a [$transaction]: it either commits a value and a new
    state or throws, and a throw leaves no state behind.  [io S A] is the body of a
    service: it threads the state through several transactions, and a throw keeps what
    was committed before it. *)

Definition txn (S A : Type) : Type := S → result (A * S).
Definition io (S A : Type) : Type := S → result A * S.

Definition transaction {S A} (t : txn S A) : io S A := λ s,
  match t s with
  | Ok (a, s') => (Ok a, s')
  | Err e => (Err e, s)
  end.

Definition ret {S A} (a : A) : io S A := λ s, (Ok a, s).
Definition throw {S A} (e : error) : io S A := λ s, (Err e, s).
Definition lift {S A} (m : result A) : io S A := λ s, (m, s).

Definition iobind {S A B} (m : io S A) (f : A → io S B) : io S B := λ s,
  match m s with
  | (Ok a, s') => f a s'
  | (Err e, s') => (Err e, s')
  end.

(** [try m catch h]: the handler runs in the state the failing computation left. *)
Definition iocatch {S A} (m : io S A) (h : error → io S A) : io S A := λ s,
  match m s with
  | (Ok a, s') => (Ok a, s')
  | (Err e, s') => h e s'
  end.

Notation "'await' x ':=' m 'in' k" := (iobind m (fun x => k))
  (at level 10, x pattern, m at level 100, k at level 200) : vista_scope.

(** [for (const x of xs) ...] with an accumulator, stopping at the first throw. *)
Fixpoint iofold {S A B} (f : A → B → io S A) (acc : A) (xs : list B) : io S A :=
  match xs with
  | [] => ret acc
  | x :: xs => await acc' := f acc x in iofold f acc' xs
  end.

(** A state predicate is kept by every outcome of a computation, throws included. *)
Definition io_preserves {S A} (P : S → Prop) (m : io S A) : Prop :=
  ∀ s, P s → P (m s).2.

Create HintDb vista.

Lemma io_preserves_ret {S A} (P : S → Prop) (a : A) : io_preserves P (ret a).
Proof. by intros s. Qed.

Lemma io_preserves_throw {S A} (P : S → Prop) e : io_preserves P (@throw S A e).
Proof. by intros s. Qed.

Lemma io_preserves_lift {S A} (P : S → Prop) (m : result A) : io_preserves P (lift m).
Proof. by intros s. Qed.

Lemma io_preserves_bind {S A B} (P : S → Prop) (m : io S A) (f : A → io S B) :
  io_preserves P m → (∀ a, io_preserves P (f a)) → io_preserves P (iobind m f).
Proof.
  intros Hm Hf s Hs. unfold iobind. specialize (Hm s Hs).
  destruct (m s) as [[a|e] s']; simpl in *; [by apply Hf | done].
Qed.

Lemma io_preserves_catch {S A} (P : S → Prop) (m : io S A) (h : error → io S A) :
  io_preserves P m → (∀ e, io_preserves P (h e)) → io_preserves P (iocatch m h).
Proof.
  intros Hm Hh s Hs. unfold iocatch. specialize (Hm s Hs).
  destruct (m s) as [[a|e] s']; simpl in *; [done | by apply Hh].
Qed.

Lemma io_preserves_transaction {S A} (P : S → Prop) (t : txn S A) :
  (∀ s a s', P s → t s = Ok (a, s') → P s') → io_preserves P (transaction t).
Proof.
  intros Ht s Hs. unfold transaction.
  destruct (t s) as [[a s']|e] eqn:E; simpl; [by eapply Ht | done].
Qed.

Lemma io_preserves_fold {S A B} (P : S → Prop) (f : A → B → io S A) xs :
  (∀ acc x, io_preserves P (f acc x)) → ∀ acc, io_preserves P (iofold f acc xs).
Proof.
  intros Hf. induction xs as [|x xs IH]; intros acc; simpl.
  - apply io_preserves_ret.
  - apply io_preserves_bind; [apply Hf | intros; apply IH].
Qed.

#[export] Hint Resolve io_preserves_ret io_preserves_throw io_preserves_lift
  io_preserves_bind io_preserves_catch io_preserves_transaction io_preserves_fold : vista.

(** What a computation does to the state is a sequence of [R]-steps, throws included. *)
Definition io_rel {S A} (R : relation S) (m : io S A) : Prop := ∀ s, R s (m s).2.

Section io_rel.
Context {S : Type} (R : relation S) `{!PreOrder R}.

Lemma io_rel_ret {A} (a : A) : io_rel R (ret a).
Proof. by intros s. Qed.

Lemma io_rel_throw {A} e : io_rel R (@throw S A e).
Proof. by intros s. Qed.

Lemma io_rel_lift {A} (m : result A) : io_rel R (lift m).
Proof. by intros s. Qed.

Lemma io_rel_bind {A B} (m : io S A) (f : A → io S B) :
  io_rel R m → (∀ a, io_rel R (f a)) → io_rel R (iobind m f).
Proof.
  intros Hm Hf s. unfold iobind. specialize (Hm s).
  destruct (m s) as [[a|e] s']; simpl in *; [by etrans; [|apply Hf] | done].
Qed.

(** The continuation may use what its argument came from. *)
Lemma io_rel_bind_ok {A B} (m : io S A) (f : A → io S B) :
  io_rel R m → (∀ a s s', m s = (Ok a, s') → io_rel R (f a)) → io_rel R (iobind m f).
Proof.
  intros Hm Hf s. unfold iobind. specialize (Hm s).
  destruct (m s) as [[a|e] s'] eqn:E; simpl in *; [by etrans; [|by eapply Hf] | done].
Qed.

Lemma io_rel_catch {A} (m : io S A) (h : error → io S A) :
  io_rel R m → (∀ e, io_rel R (h e)) → io_rel R (iocatch m h).
Proof.
  intros Hm Hh s. unfold iocatch. specialize (Hm s).
  destruct (m s) as [[a|e] s']; simpl in *; [done | by etrans; [|apply Hh]].
Qed.

Lemma io_rel_transaction {A} (t : txn S A) :
  (∀ s a s', t s = Ok (a, s') → R s s') → io_rel R (transaction t).
Proof.
  intros Ht s. unfold transaction. destruct (t s) as [[a s']|e] eqn:E; simpl; [by eapply Ht | done].
Qed.

Lemma io_rel_fold {A B} (f : A → B → io S A) xs :
  (∀ acc x, io_rel R (f acc x)) → ∀ acc, io_rel R (iofold f acc xs).
Proof.
  intros Hf. induction xs as [|x xs IH]; intros acc; simpl.
  - apply io_rel_ret.
  - apply io_rel_bind; [apply Hf | intros; apply IH].
Qed.

Lemma io_rel_fold_in {A B} (f : A → B → io S A) xs :
  (∀ acc x, In x xs → io_rel R (f acc x)) → ∀ acc, io_rel R (iofold f acc xs).
Proof.
  induction xs as [|x xs IH]; intros Hf acc; simpl.
  - apply io_rel_ret.
  - apply io_rel_bind; [apply Hf; by left | intros; apply IH; intros; apply Hf; by right].
Qed.

End io_rel.

(** A read-only query. *)
Definition query {S A} (f : S → result A) : io S A := λ s, (f s, s).

Lemma io_rel_query {S A} (R : relation S) `{!PreOrder R} (f : S → result A) : io_rel R (query f).
Proof. by intros s. Qed.

#[export] Hint Resolve io_rel_ret io_rel_throw io_rel_lift io_rel_bind io_rel_catch
  io_rel_transaction io_rel_fold io_rel_query : vista.

(** Following a computation along its successful path. *)
Lemma iobind_ok {S A B} (m : io S A) (f : A → io S B) s b s' :
  iobind m f s = (Ok b, s') ↔ ∃ a s1, m s = (Ok a, s1) ∧ f a s1 = (Ok b, s').
Proof.
  unfold iobind. split.
  - destruct (m s) as [[a|e] s1]; intros H; [by exists a, s1 | discriminate H].
  - intros (a & s1 & -> & H). exact H.
Qed.

Lemma transaction_ok {S A} (t : txn S A) s a s' : transaction t s = (Ok a, s') ↔ t s = Ok (a, s').
Proof.
  unfold transaction. split; [|by intros ->].
  destruct (t s) as [[b s1]|e]; intros H; [by injection H as <- <- | discriminate H].
Qed.

Lemma lift_ok {S A} (m : result A) (s : S) a s' : lift m s = (Ok a, s') ↔ m = Ok a ∧ s' = s.
Proof. unfold lift. split; [by intros [= -> <-] | by intros [-> ->]]. Qed.

Lemma query_ok {S A} (f : S → result A) s a s' : query f s = (Ok a, s') ↔ f s = Ok a ∧ s' = s.
Proof. unfold query. split; [by intros [= -> <-] | by intros [-> ->]]. Qed.

Lemma ret_ok {S A} (x : A) (s : S) a s' : ret x s = (Ok a, s') ↔ a = x ∧ s' = s.
Proof. unfold ret. split; [by intros [= -> <-] | by intros [-> ->]]. Qed.

Lemma throw_ok {S A} e (s : S) (a : A) s' : throw e s = (Ok a, s') ↔ False.
Proof. by split. Qed.

(** [inv_io H] splits [H : m s = (Ok a, s')] into the results of the steps of [m]. *)
Ltac inv_io H :=
  repeat first
    [ apply iobind_ok in H; let a := fresh "a" in let s1 := fresh "s" in let H1 := fresh "Hio" in
      destruct H as (a & s1 & H1 & H); cbv beta in H;
      first [ apply ret_ok in H1 as [-> ->] | apply query_ok in H1 as [H1 ->] | apply lift_ok in H1 as [H1 ->]
            | apply transaction_ok in H1 | idtac ]
    | apply ret_ok in H as [-> ->] | apply throw_ok in H as []
    | apply query_ok in H as [H ->] | apply lift_ok in H as [H ->] ].

(** ** Tables

    A table is the list of its rows in insertion order.  An UPDATE is a [map] guarded by
    its WHERE clause, a SELECT is a [filter], an INSERT appends. *)

Definition update_where {A} (p : A → bool) (f : A → A) (rows : list A) : list A :=
  map (λ r, if p r then f r else r) rows.

Definition find_row {A} (p : A → bool) (rows : list A) : option A :=
  head (List.filter p rows).

Definition exists_row {A} (p : A → bool) (rows : list A) : bool := existsb p rows.

(** [ORDER BY]: a stable sort; [before a b] says [a] must come before [b]. *)
Fixpoint insert_by {A} (before : A → A → bool) (x : A) (l : list A) : list A :=
  match l with
  | [] => [x]
  | y :: l' => if before y x then y :: insert_by before x l' else x :: l
  end.
Definition order_by {A} (before : A → A → bool) (l : list A) : list A := foldr (insert_by before) [] l.

Lemma elem_order_by {A} (before : A → A → bool) (x : A) (l : list A) : In x (order_by before l) ↔ In x l.
Proof.
  assert (∀ y (l : list A), In x (insert_by before y l) ↔ x = y ∨ In x l) as Hi.
  { intros y l'. induction l' as [|z l' IH]; simpl; [naive_solver|]. destruct (before z y); simpl; [rewrite IH|]; naive_solver. }
  unfold order_by. induction l as [|y l IH]; simpl; [done|]. rewrite Hi, IH. naive_solver.
Qed.

Definition sumZ (l : list Z) : Z := foldr Z.add 0 l.

Lemma find_row_Some {A} (p : A → bool) rows r :
  find_row p rows = Some r → In r rows ∧ p r = true.
Proof.
  unfold find_row. destruct (List.filter p rows) as [|x l] eqn:E; simpl; [done|].
  intros [= ->]. apply filter_In. rewrite E. by left.
Qed.

Lemma find_row_None {A} (p : A → bool) rows :
  find_row p rows = None ↔ ∀ r, In r rows → p r = false.
Proof.
  unfold find_row. induction rows as [|x rows IH]; simpl; [naive_solver|].
  destruct (p x) eqn:E; simpl; [|naive_solver].
  split; [done|]. intros H. specialize (H x (or_introl eq_refl)). congruence.
Qed.

Lemma find_row_app {A} (p : A → bool) l1 l2 :
  find_row p (l1 ++ l2) = match find_row p l1 with Some r => Some r | None => find_row p l2 end.
Proof.
  unfold find_row. rewrite List.filter_app. by destruct (List.filter p l1).
Qed.

Lemma in_update_where {A} (p : A → bool) f rows r :
  In r (update_where p f rows) ↔
  ∃ r0, In r0 rows ∧ r = if p r0 then f r0 else r0.
Proof. unfold update_where. rewrite in_map_iff. naive_solver. Qed.

Lemma update_where_length {A} (p : A → bool) f (rows : list A) :
  length (update_where p f rows) = length rows.
Proof. apply length_map. Qed.

Lemma map_update_where {A B} (g : A → B) (p : A → bool) f rows :
  (∀ r, p r = true → g (f r) = g r) → map g (update_where p f rows) = map g rows.
Proof.
  intros H. unfold update_where. rewrite map_map. apply map_ext.
  intros r. destruct (p r) eqn:E; [by apply H | done].
Qed.

(** A row found by a predicate the update keeps is found again, updated. *)
Lemma find_row_update_where {A} (q p : A → bool) f rows :
  (∀ r, p r = true → q (f r) = q r) →
  find_row q (update_where p f rows) =
    (λ r, if p r then f r else r) <$> find_row q rows.
Proof.
  intros H. unfold find_row, update_where. induction rows as [|x rows IH]; simpl; [done|].
  destruct (p x) eqn:Ep.
  - rewrite H by done. destruct (q x); simpl; [by rewrite Ep | done].
  - destruct (q x); simpl; [by rewrite Ep | done].
Qed.

Lemma sumZ_app l1 l2 : sumZ (l1 ++ l2) = sumZ l1 + sumZ l2.
Proof. induction l1 as [|x l1 IH]; simpl; [done | rewrite IH; lia]. Qed.

Lemma sumZ_nonneg l : Forall (λ x, 0 ≤ x) l → 0 ≤ sumZ l.
Proof. induction 1; simpl; lia. Qed.

Lemma sumZ_map_le {A} (f g : A → Z) l :
  (∀ x, In x l → f x ≤ g x) → sumZ (map f l) ≤ sumZ (map g l).
Proof.
  induction l as [|x l IH]; simpl; intros H; [lia|].
  pose proof (H x (or_introl eq_refl)). assert (sumZ (map f l) ≤ sumZ (map g l)) by auto. lia.
Qed.

Lemma sumZ_map_lt {A} (f g : A → Z) l x0 :
  (∀ x, In x l → f x ≤ g x) → In x0 l → f x0 < g x0 → sumZ (map f l) < sumZ (map g l).
Proof.
  intros H Hx Hlt. apply in_split in Hx as (a & b & ->).
  rewrite !map_app, !sumZ_app. simpl.
  assert (sumZ (map f a) ≤ sumZ (map g a)) by (apply sumZ_map_le; intros; apply H, in_app_iff; auto).
  assert (sumZ (map f b) ≤ sumZ (map g b))
    by (apply sumZ_map_le; intros; apply H, in_app_iff; simpl; auto). lia.
Qed.

Lemma sumZ_filter {A} (p : A → bool) (f : A → Z) l :
  sumZ (map f (List.filter p l)) = sumZ (map (λ x, if p x then f x else 0) l).
Proof. induction l as [|x l IH]; simpl; [done|]. destruct (p x); simpl; lia. Qed.

Lemma sumZ_omap {A} (f : A → option Z) l :
  sumZ (omap f l) = sumZ (map (λ x, default 0 (f x)) l).
Proof. induction l as [|x l IH]; [done|]. simpl. destruct (f x); simpl; [f_equal|]; exact IH. Qed.

Lemma forallb_false_exists {A} (p : A → bool) l :
  forallb p l = false → ∃ x, In x l ∧ p x = false.
Proof.
  induction l as [|x l IH]; simpl; [done|]. destruct (p x) eqn:E; simpl; [|by eauto].
  intros (y & ? & ?)%IH. eauto.
Qed.

Lemma NoDup_map_inj_in {A B} (f : A → B) l x y :
  List.NoDup (map f l) → In x l → In y l → f x = f y → x = y.
Proof.
  induction l as [|z l IH]; simpl; [done|].
  rewrite List.NoDup_cons_iff, in_map_iff. intros [Hz Hl] [->|Hx] [->|Hy] E; try done.
  - exfalso. apply Hz. exists y. auto.
  - exfalso. apply Hz. exists x. auto.
  - by apply IH.
Qed.

(** ** Automation *)

(** Split every [&&], comparison and boolean equation of the context into facts. *)
Ltac boolify :=
  repeat match goal with
  | H : (_ && _)%bool = true |- _ => apply andb_true_iff in H as [? ?]
  | H : (_ || _)%bool = false |- _ => apply orb_false_iff in H as [? ?]
  | H : negb _ = true |- _ => apply negb_true_iff in H
  | H : negb _ = false |- _ => apply negb_false_iff in H
  | H : (_ <? _)%Z = true |- _ => apply Z.ltb_lt in H
  | H : (_ <? _)%Z = false |- _ => apply Z.ltb_ge in H
  | H : (_ <=? _)%Z = true |- _ => apply Z.leb_le in H
  | H : (_ <=? _)%Z = false |- _ => apply Z.leb_gt in H
  | H : (_ =? _)%Z = true |- _ => apply Z.eqb_eq in H
  | H : (_ =? _)%Z = false |- _ => apply Z.eqb_neq in H
  | H : bool_decide _ = true |- _ => apply bool_decide_eq_true_1 in H
  | H : bool_decide _ = false |- _ => apply bool_decide_eq_false_1 in H
  end.

(** Follow a [result]/[txn] computation in hypothesis [H] along the one path on which
    it is [Ok], naming nothing: every test becomes a fact of the context. *)
Ltac inv_ok H :=
  repeat match type of H with
  | rbind ?m _ = Ok _ => let E := fresh "E" in
      destruct m eqn:E; cbn [rbind] in H; [|discriminate H]
  | (if ?b then _ else _) = Ok _ => let E := fresh "E" in
      destruct b eqn:E; try discriminate H
  | match ?m with _ => _ end = Ok _ => let E := fresh "E" in
      destruct m eqn:E; try discriminate H
  | (let (_, _) := ?p in _) = Ok _ => destruct p
  end.

(** ** Row-by-row updates and bulk updates

    Code that SELECTs rows and then updates them one by one by primary key has the effect
    of one UPDATE over the selected rows. *)

Section bulk.
Context {A : Type} (id : A → string).

Definition by_id (k : string) (r : A) : bool := bool_decide (id r = k).

Lemma update_where_ext (p q : A → bool) (f g : A → A) l :
  (∀ r, In r l → (if p r then f r else r) = (if q r then g r else r)) →
  update_where p f l = update_where q g l.
Proof. intros H. apply map_ext_in. exact H. Qed.

Lemma update_where_id (p : A → bool) (f : A → A) l :
  (∀ r, In r l → p r = false) → update_where p f l = l.
Proof.
  intros H. unfold update_where. rewrite <- (map_id l) at 2. apply map_ext_in.
  intros r Hr. by rewrite H.
Qed.

Lemma update_where_cons (p : A → bool) (f : A → A) x l :
  update_where p f (x :: l) = (if p x then f x else x) :: update_where p f l.
Proof. done. Qed.

Lemma by_id_ne k r : id r ≠ k → by_id k r = false.
Proof. apply bool_decide_eq_false_2. Qed.

Lemma by_id_eq r : by_id (id r) r = true.
Proof. by apply bool_decide_eq_true_2. Qed.

Lemma seq_update_cons (f : A → A → A) (x : A) l rows :
  List.Forall (λ r0, id r0 ≠ id x) rows →
  foldl (λ acc r0, update_where (by_id (id r0)) (f r0) acc) (x :: l) rows =
  x :: foldl (λ acc r0, update_where (by_id (id r0)) (f r0) acc) l rows.
Proof.
  revert l. induction rows as [|r rows IH]; intros l Hne; cbn [foldl]; [done|].
  inversion Hne; subst. rewrite update_where_cons, by_id_ne by congruence. by apply IH.
Qed.

Lemma seq_update_bulk (sel : A → bool) (f : A → A → A) (g : A → A) l :
  List.NoDup (map id l) →
  (∀ r, id (g r) = id r) →
  (∀ r, f r r = g r) →
  foldl (λ acc r0, update_where (by_id (id r0)) (f r0) acc) l (List.filter sel l) =
  update_where sel g l.
Proof.
  intros Hnd Hg Hf. induction l as [|x l IH]; [done|].
  simpl in Hnd. apply List.NoDup_cons_iff in Hnd as [Hx Hnd]. specialize (IH Hnd).
  assert (List.Forall (λ r0, id r0 ≠ id x) (List.filter sel l)) as Hne.
  { apply List.Forall_forall. intros r Hr E. apply filter_In in Hr as [Hr _].
    apply Hx. rewrite <- E. by apply in_map. }
  rewrite update_where_cons. cbn [List.filter]. destruct (sel x) eqn:Es.
  - cbn [foldl]. rewrite update_where_cons, by_id_eq, Hf.
    rewrite (update_where_id (by_id (id x))).
    2:{ intros r Hr. apply by_id_ne. intros E. apply Hx. rewrite <- E. by apply in_map. }
    rewrite seq_update_cons; [by rewrite IH|].
    eapply List.Forall_impl; [|exact Hne]. intros r. simpl. by rewrite Hg.
  - rewrite seq_update_cons; [by rewrite IH | done].
Qed.

End bulk.

Lemma foldl_map {A B C} (f : A → B → A) (h : C → B) acc l :
  foldl f acc (map h l) = foldl (λ acc x, f acc (h x)) acc l.
Proof. revert acc. induction l as [|x l IH]; intros acc; simpl; [done | apply IH]. Qed.

(** A prefix does not confuse identifiers. *)
Lemma append_inj_l (p a b : string) : String.append p a = String.append p b → a = b.
Proof.
  induction p as [|c p IH]; [done|]. intros H. apply IH. by injection H.
Qed.

Lemma exists_row_false {A} (p : A → bool) rows :
  exists_row p rows = false ↔ ∀ r, In r rows → p r = false.
Proof.
  unfold exists_row. induction rows as [|x rows IH]; simpl; [naive_solver|].
  rewrite orb_false_iff, IH. naive_solver.
Qed.

Lemma exists_row_true {A} (p : A → bool) rows :
  exists_row p rows = true ↔ ∃ r, In r rows ∧ p r = true.
Proof. apply existsb_exists. Qed.

Lemma filter_nil {A} (p : A → bool) l : (∀ r, In r l → p r = false) → List.filter p l = [].
Proof.
  induction l as [|x l IH]; simpl; [done|]. intros H. rewrite (H x) by auto. apply IH. auto.
Qed.

Lemma NoDup_snoc {A} (l : list A) x : List.NoDup l → ¬ In x l → List.NoDup (l ++ [x]).
Proof.
  intros Hl Hx. apply List.NoDup_app; [done | constructor; [intros [] | constructor] | ].
  intros y Hy [->|[]]. done.
Qed.

(** Rows matched injectively by key to rows that dominate them sum to no more. *)
Lemma sumZ_matched {A B} (k : A → option string) (id : B → string) (f : A → Z) (g : B → Z) l1 l2 :
  List.NoDup (omap k l1) →
  (∀ y, In y l2 → 0 ≤ g y) →
  (∀ x, In x l1 → ∃ y, In y l2 ∧ k x = Some (id y) ∧ f x ≤ g y) →
  sumZ (map f l1) ≤ sumZ (map g l2).
Proof.
  revert l2. induction l1 as [|x l1 IH]; intros l2 Hnd Hg Hm; simpl.
  { apply sumZ_nonneg, List.Forall_forall. intros z. rewrite in_map_iff. intros (y & <- & Hy). auto. }
  destruct (Hm x (or_introl eq_refl)) as (y & Hy & Hk & Hle).
  cbn in Hnd. rewrite Hk in Hnd. apply List.NoDup_cons_iff in Hnd as [Hnot Hnd].
  apply in_split in Hy as (a & b & ->).
  assert (sumZ (map f l1) ≤ sumZ (map g (a ++ b))) as H.
  { apply IH; [done| |].
    - intros z Hz. apply Hg. rewrite in_app_iff in *. simpl. tauto.
    - intros z Hz. destruct (Hm z (or_intror Hz)) as (w & Hw & Hkw & Hlw).
      exists w. split; [|done]. rewrite in_app_iff in *. destruct Hw as [Hw|[<-|Hw]]; auto.
      destruct Hnot. apply list_elem_of_In, list_elem_of_omap. exists z. by rewrite list_elem_of_In. }
  rewrite map_app, sumZ_app in *. simpl. lia.
Qed.

Lemma NoDup_map_filter {A B} (f : A → B) p l : List.NoDup (map f l) → List.NoDup (map f (List.filter p l)).
Proof.
  induction l as [|x l IH]; simpl; [done|]. rewrite List.NoDup_cons_iff. intros [Hx Hl].
  destruct (p x); simpl; [|by apply IH]. constructor; [|by apply IH].
  intros Hin. apply Hx. apply in_map_iff in Hin as (y & <- & Hy). apply filter_In in Hy as [Hy _].
  by apply in_map.
Qed.

Lemma Forall2_same {A} (R : A → A → Prop) l : (∀ x, R x x) → Forall2 R l l.
Proof. intros H. induction l; constructor; auto. Qed.

Lemma Forall2_compose {A} (R : A → A → Prop) l1 l2 l3 :
  (∀ x y z, R x y → R y z → R x z) → Forall2 R l1 l2 → Forall2 R l2 l3 → Forall2 R l1 l3.
Proof.
  intros HR H. revert l3. induction H as [|x y l1 l2 Hxy _ IH]; intros l3 H3; inversion H3; subst;
    constructor; eauto.
Qed.

(** [xs.map(f)] with a callback that may throw: the first throw wins. *)
Fixpoint rmap {A B} (f : A → result B) (xs : list A) : result (list B) :=
  match xs with
  | [] => Ok []
  | x :: xs => let! y := f x in let! ys := rmap f xs in Ok (y :: ys)
  end.

Lemma rmap_ok {A B} (f : A → result B) (g : A → B) xs :
  (∀ x, In x xs → f x = Ok (g x)) → rmap f xs = Ok (map g xs).
Proof.
  induction xs as [|x xs IH]; intros H; simpl; [done|].
  rewrite (H x (or_introl eq_refl)), IH by (intros; apply H; by right). done.
Qed.

Lemma Forall2_In_r {A B} (R : A → B → Prop) l k y : Forall2 R l k → In y k → ∃ x, In x l ∧ R x y.
Proof. induction 1; simpl; [done|]. intros [<-|H']; [eauto|]. destruct (IHForall2 H') as (z & ? & ?). eauto. Qed.

(** ** Transactions as programs

    A long transaction is written with the state monad of [txn]: [tread] is a query, [twrite]
    an UPDATE that cannot fail, [tprim] a write that a constraint may refuse. *)

Definition tret {S A} (a : A) : txn S A := λ s, Ok (a, s).
Definition tthrow {S A} (e : error) : txn S A := λ s, Err e.
Definition tread {S A} (f : S → A) : txn S A := λ s, Ok (f s, s).
Definition twrite {S} (f : S → S) : txn S unit := λ s, Ok (tt, f s).
Definition tprim {S} (f : S → result S) : txn S unit := λ s, let! s' := f s in Ok (tt, s').
Definition tlift {S A} (m : result A) : txn S A := λ s, let! a := m in Ok (a, s).
Definition tbind {S A B} (m : txn S A) (f : A → txn S B) : txn S B := λ s,
  match m s with Ok (a, s') => f a s' | Err e => Err e end.

Notation "'do!' x ':=' m 'in' k" := (tbind m (fun x => k))
  (at level 10, x pattern, m at level 100, k at level 200) : vista_scope.

(** [for (const x of xs) await f(x)] inside a transaction. *)
Fixpoint teach {S B} (f : B → txn S unit) (xs : list B) : txn S unit :=
  match xs with
  | [] => tret tt
  | x :: xs => do! _ := f x in teach f xs
  end.

Lemma tbind_ok {S A B} (m : txn S A) (f : A → txn S B) s b s' :
  tbind m f s = Ok (b, s') ↔ ∃ a s1, m s = Ok (a, s1) ∧ f a s1 = Ok (b, s').
Proof.
  unfold tbind. split.
  - destruct (m s) as [[a s1]|e]; intros H; [by exists a, s1 | discriminate H].
  - intros (a & s1 & -> & H). exact H.
Qed.

Lemma tret_ok {S A} (x : A) (s : S) a s' : tret x s = Ok (a, s') ↔ a = x ∧ s' = s.
Proof. unfold tret. split; [by intros [= -> ->] | by intros [-> ->]]. Qed.

Lemma tthrow_ok {S A} e (s : S) (a : A) s' : tthrow e s = Ok (a, s') ↔ False.
Proof. by split. Qed.

Lemma tread_ok {S A} (f : S → A) s a s' : tread f s = Ok (a, s') ↔ a = f s ∧ s' = s.
Proof. unfold tread. split; [by intros [= -> ->] | by intros [-> ->]]. Qed.

Lemma twrite_ok {S} (f : S → S) s a s' : twrite f s = Ok (a, s') ↔ s' = f s.
Proof. unfold twrite. destruct a. split; [by intros [= ->] | by intros ->]. Qed.

Lemma tprim_ok {S} (f : S → result S) s a s' : tprim f s = Ok (a, s') ↔ f s = Ok s'.
Proof. unfold tprim. destruct a. destruct (f s); simpl; naive_solver. Qed.

Lemma tlift_ok {S A} (m : result A) (s : S) a s' : tlift m s = Ok (a, s') ↔ m = Ok a ∧ s' = s.
Proof. unfold tlift. destruct m; simpl; naive_solver. Qed.

(** [inv_tx H] follows [H : t s = Ok (a, s')] through the binds and tests of [t]. *)
Ltac inv_tx H :=
  repeat match type of H with
  | tbind _ _ _ = _ =>
      apply tbind_ok in H; let a := fresh "a" in let s1 := fresh "s" in let H1 := fresh "Htx" in
      destruct H as (a & s1 & H1 & H); cbv beta in H;
      lazymatch type of H1 with
      | tret _ _ = _ => apply tret_ok in H1 as [-> ->]
      | tread _ _ = _ => apply tread_ok in H1 as [-> ->]
      | tlift _ _ = _ => apply tlift_ok in H1 as [H1 ->]
      | twrite _ _ = _ => apply twrite_ok in H1; subst s1
      | tprim _ _ = _ => apply tprim_ok in H1
      | _ => idtac
      end
  | tret _ _ = _ => apply tret_ok in H as [-> ->]
  | tthrow _ _ = _ => apply tthrow_ok in H as []
  | tread _ _ = _ => apply tread_ok in H as [-> ->]
  | tlift _ _ = _ => apply tlift_ok in H as [H ->]
  | twrite _ _ = _ => apply twrite_ok in H as ->
  | (if ?b then _ else _) _ = Ok _ => let E := fresh "E" in destruct b eqn:E
  | (match ?m with _ => _ end) _ = Ok _ => let E := fresh "E" in destruct m eqn:E
  end.

(** A committed transaction relates the states by [R]. *)
Definition tx_rel {S A} (R : relation S) (t : txn S A) : Prop := ∀ s a s', t s = Ok (a, s') → R s s'.

Section tx_rel.
Context {S : Type} (R : relation S) `{!PreOrder R}.

Lemma tx_rel_ret {A} (a : A) : tx_rel R (tret a).
Proof. by intros s b s' [-> ->]%tret_ok. Qed.

Lemma tx_rel_throw {A} e : tx_rel R (@tthrow S A e).
Proof. by intros s b s' H. Qed.

Lemma tx_rel_read {A} (f : S → A) : tx_rel R (tread f).
Proof. by intros s b s' [-> ->]%tread_ok. Qed.

Lemma tx_rel_lift {A} (m : result A) : tx_rel R (tlift m).
Proof. by intros s b s' [_ ->]%tlift_ok. Qed.

Lemma tx_rel_write (f : S → S) : (∀ s, R s (f s)) → tx_rel R (twrite f).
Proof. by intros H s b s' ->%twrite_ok. Qed.

Lemma tx_rel_prim (f : S → result S) : (∀ s s', f s = Ok s' → R s s') → tx_rel R (tprim f).
Proof. by intros H s b s' E%tprim_ok; apply H. Qed.

Lemma tx_rel_bind {A B} (m : txn S A) (f : A → txn S B) :
  tx_rel R m → (∀ a, tx_rel R (f a)) → tx_rel R (tbind m f).
Proof. intros Hm Hf s b s' (a & s1 & H1 & H2)%tbind_ok. etrans; [by eapply Hm | by eapply Hf]. Qed.

Lemma tx_rel_each {B} (f : B → txn S unit) xs : (∀ x, tx_rel R (f x)) → tx_rel R (teach f xs).
Proof.
  intros Hf. induction xs as [|x xs IH]; simpl; [apply tx_rel_ret|]. by apply tx_rel_bind.
Qed.

End tx_rel.

#[export] Hint Resolve tx_rel_ret tx_rel_throw tx_rel_read tx_rel_lift tx_rel_bind tx_rel_each : vista.

(** [walk_tx] reduces [tx_rel R t] to its writes, splitting every test. *)
Ltac walk_tx :=
  repeat first
    [ match goal with
      | |- tx_rel _ (tret _) => apply tx_rel_ret; exact _
      | |- tx_rel _ (tthrow _) => apply tx_rel_throw
      | |- tx_rel _ (tread _) => apply tx_rel_read; exact _
      | |- tx_rel _ (tlift _) => apply tx_rel_lift; exact _
      | |- tx_rel _ (tbind _ _) => apply tx_rel_bind; [exact _ | | intros ?]
      | |- tx_rel _ (teach _ _) => apply tx_rel_each; [exact _ | intros ?]
      | |- tx_rel _ (if ?b then _ else _) => destruct b
      | |- tx_rel _ (match ?m with _ => _ end) => destruct m
      end
    | solve [auto with vista] ].

(** Every error a transaction throws satisfies [P]. *)
Definition tx_errs {S A} (P : error → Prop) (t : txn S A) : Prop := ∀ s e, t s = Err e → P e.

Section tx_errs.
Context {S : Type} (P : error → Prop).

Lemma tx_errs_ret {A} (a : A) : tx_errs P (@tret S A a).
Proof. by intros s e. Qed.

Lemma tx_errs_throw {A} e : P e → tx_errs P (@tthrow S A e).
Proof. by intros H s e' [= <-]. Qed.

Lemma tx_errs_read {A} (f : S → A) : tx_errs P (tread f).
Proof. by intros s e. Qed.

Lemma tx_errs_write (f : S → S) : tx_errs P (twrite f).
Proof. by intros s e. Qed.

Lemma tx_errs_lift {A} (m : result A) : (∀ e, m = Err e → P e) → tx_errs P (@tlift S A m).
Proof. intros H s e. unfold tlift. destruct m as [a|e']; [done|]. intros [= <-]. by apply H. Qed.

Lemma tx_errs_prim (f : S → result S) : (∀ s e, f s = Err e → P e) → tx_errs P (tprim f).
Proof. intros H s e. unfold tprim. destruct (f s) eqn:E; [done|]. intros [= <-]. by eapply H. Qed.

Lemma tx_errs_bind {A B} (m : txn S A) (f : A → txn S B) :
  tx_errs P m → (∀ a, tx_errs P (f a)) → tx_errs P (tbind m f).
Proof.
  intros Hm Hf s e. unfold tbind. destruct (m s) as [[a s1]|e'] eqn:E; [apply Hf|].
  intros [= <-]. by eapply Hm.
Qed.

End tx_errs.

(** [walk_errs] reduces [tx_errs P t] to what its throws, constraints and parses give. *)
Ltac walk_errs :=
  repeat first
    [ match goal with
      | |- tx_errs _ (tret _) => apply tx_errs_ret
      | |- tx_errs _ (tread _) => apply tx_errs_read
      | |- tx_errs _ (twrite _) => apply tx_errs_write
      | |- tx_errs _ (tbind _ _) => apply tx_errs_bind; [|intros ?]
      | |- tx_errs _ (if ?b then _ else _) => destruct b
      | |- tx_errs _ (match ?m with _ => _ end) => destruct m
      end
    | solve [auto with vista] ].
