(* ===== verification/JsString.v ===== *)
(** The parts of the JavaScript string and BigInt library the sources use: [split],
    [slice], [padStart], [padEnd], [BigInt(string)] and [BigInt.prototype.toString].
    Strings are byte strings; every text the modelled code parses is ASCII. *)

From S2P Require Import Prelude.
From Stdlib Require Import Ascii String.

Module JsString.

#[local] Arguments String.append !_ _ /.

(** ** Characters *)

Definition char_code (c : ascii) : Z := Z.of_N (N_of_ascii c).

Definition is_digit (c : ascii) : bool := (48 <=? char_code c) && (char_code c <=? 57).

(** The value of a digit in a radix of at most 16, as StringToBigInt reads it. *)
Definition digit_value (base : Z) (c : ascii) : option Z :=
  let k := char_code c in
  let v := if (48 <=? k) && (k <=? 57) then k - 48
           else if (97 <=? k) && (k <=? 102) then k - 87
           else if (65 <=? k) && (k <=? 70) then k - 55
           else 99 in
  if v <? base then Some v else None.

Definition digit_char (d : Z) : ascii := ascii_of_N (Z.to_N (48 + d)).

Definition is_space (c : ascii) : bool :=
  let k := char_code c in ((9 <=? k) && (k <=? 13)) || (k =? 32).

(** ** Strings *)

Fixpoint string_forallb (p : ascii → bool) (s : string) : bool :=
  match s with
  | EmptyString => true
  | String c s => p c && string_forallb p s
  end.

(** [s.split(c)] for a one-character separator. *)
Fixpoint split (c : ascii) (s : string) : list string :=
  match s with
  | EmptyString => [EmptyString]
  | String a s =>
      if bool_decide (a = c) then EmptyString :: split c s
      else match split c s with
           | p :: ps => String a p :: ps
           | [] => [String a EmptyString]
           end
  end.

(** [s.slice(0, n)]. *)
Fixpoint slice0 (n : nat) (s : string) : string :=
  match n, s with
  | S n, String a s => String a (slice0 n s)
  | _, _ => EmptyString
  end.

(** [toLowerCase], [toUpperCase] and [includes], on ASCII text. *)
Definition lower (c : ascii) : ascii :=
  let n := nat_of_ascii c in if ((65 <=? n) && (n <=? 90))%nat then ascii_of_nat (n + 32) else c.

Fixpoint toLowerCase (s : string) : string :=
  match s with EmptyString => EmptyString | String c s => String (lower c) (toLowerCase s) end.

Definition upper (c : ascii) : ascii :=
  let n := nat_of_ascii c in if ((97 <=? n) && (n <=? 122))%nat then ascii_of_nat (n - 32) else c.

Fixpoint toUpperCase (s : string) : string :=
  match s with EmptyString => EmptyString | String c s => String (upper c) (toUpperCase s) end.

Fixpoint includes (sub s : string) : bool :=
  String.prefix sub s || match s with EmptyString => false | String _ s => includes sub s end.

(** [s.slice(n)] *)
Fixpoint slice_from (n : nat) (s : string) : string :=
  match n, s with
  | S n, String _ s => slice_from n s
  | O, _ => s
  | _, EmptyString => EmptyString
  end.

Fixpoint repeat_char (n : nat) (c : ascii) : string :=
  match n with O => EmptyString | S n => String c (repeat_char n c) end.

Definition padStart (n : nat) (c : ascii) (s : string) : string :=
  String.append (repeat_char (n - String.length s) c) s.

Definition padEnd (n : nat) (c : ascii) (s : string) : string :=
  String.append s (repeat_char (n - String.length s) c).

Fixpoint trim_start (s : string) : string :=
  match s with
  | String c s' => if is_space c then trim_start s' else s
  | EmptyString => EmptyString
  end.

Fixpoint trim_end (s : string) : string :=
  match s with
  | EmptyString => EmptyString
  | String c s =>
      match trim_end s with
      | EmptyString => if is_space c then EmptyString else String c EmptyString
      | s' => String c s'
      end
  end.

Definition trim (s : string) : string := trim_end (trim_start s).

(** ** BigInt *)

Fixpoint parse_digits (base acc : Z) (s : string) : option Z :=
  match s with
  | EmptyString => Some acc
  | String c s =>
      match digit_value base c with
      | Some d => parse_digits base (acc * base + d) s
      | None => None
      end
  end.

Definition parse_nonempty (base : Z) (s : string) : option Z :=
  match s with EmptyString => None | _ => parse_digits base 0 s end.

(** [BigInt(s)]: surrounding white space is ignored, the empty text is zero, a decimal
    literal may carry a sign, the radix prefixes may not; anything else is a
    SyntaxError. *)
Definition BigInt (s : string) : result Z :=
  let t := trim s in
  let parsed :=
    if string_forallb is_digit t then parse_digits 10 0 t
    else match t with
         | String "-" r => Z.opp <$> parse_nonempty 10 r
         | String "+" r => parse_nonempty 10 r
         | String "0" (String "x" r) | String "0" (String "X" r) => parse_nonempty 16 r
         | String "0" (String "o" r) | String "0" (String "O" r) => parse_nonempty 8 r
         | String "0" (String "b" r) | String "0" (String "B" r) => parse_nonempty 2 r
         | _ => None
         end in
  match parsed with Some z => Ok z | None => Err (Thrown "SyntaxError") end.

(** Decimal digits of a non-negative integer in front of [acc]; [fuel] bounds their
    number. *)
Fixpoint digits (fuel : nat) (n : Z) (acc : string) : string :=
  match fuel with
  | O => acc
  | S fuel =>
      let acc' := String (digit_char (n mod 10)) acc in
      if n / 10 =? 0 then acc' else digits fuel (n / 10) acc'
  end.

Definition digits_fuel (n : Z) : nat := S (Z.to_nat (Z.log2 n)).

Definition BigInt_toString (n : Z) : string :=
  if n <? 0 then String "-" (digits (digits_fuel (- n)) (- n) EmptyString)
  else digits (digits_fuel n) n EmptyString.

(** ** Lemmas *)

Lemma string_forallb_app p s1 s2 :
  string_forallb p (String.append s1 s2) = string_forallb p s1 && string_forallb p s2.
Proof. induction s1; simpl; [done|]. by rewrite IHs1, andb_assoc. Qed.

Lemma length_append s1 s2 :
  String.length (String.append s1 s2) = (String.length s1 + String.length s2)%nat.
Proof. induction s1; simpl; [done|]. by rewrite IHs1. Qed.

Lemma append_empty_r s : String.append s "" = s.
Proof. induction s; simpl; [done|]. by rewrite IHs. Qed.

Lemma append_assoc s1 s2 s3 :
  String.append (String.append s1 s2) s3 = String.append s1 (String.append s2 s3).
Proof. induction s1; simpl; [done|]. by rewrite IHs1. Qed.

Lemma slice0_all n s : (String.length s <= n)%nat → slice0 n s = s.
Proof.
  revert n; induction s; intros [|n] H; simpl in *; try done; [lia|].
  by rewrite IHs by lia.
Qed.

Lemma padEnd_id n c s : (n <= String.length s)%nat → padEnd n c s = s.
Proof.
  intros H. unfold padEnd. replace (n - String.length s)%nat with 0%nat by lia.
  apply append_empty_r.
Qed.

Lemma length_repeat_char n c : String.length (repeat_char n c) = n.
Proof. induction n; simpl; auto. Qed.

Lemma length_padStart n c s :
  String.length (padStart n c s) = Nat.max n (String.length s).
Proof. unfold padStart. rewrite length_append, length_repeat_char. lia. Qed.

Lemma split_no_sep c s : string_forallb (λ a, negb (bool_decide (a = c))) s = true → split c s = [s].
Proof.
  induction s as [|a s IH]; simpl; [done|]. intros H. boolify.
  rewrite bool_decide_eq_false_2 by done. by rewrite IH.
Qed.

Lemma split_append c s1 s2 :
  string_forallb (λ a, negb (bool_decide (a = c))) s1 = true →
  split c (String.append s1 (String c s2)) = s1 :: split c s2.
Proof.
  induction s1 as [|a s1 IH]; simpl.
  - by rewrite bool_decide_eq_true_2.
  - intros H. boolify. rewrite bool_decide_eq_false_2 by done. by rewrite IH.
Qed.

Lemma split_cons c s : ∃ p ps, split c s = p :: ps.
Proof.
  destruct s as [|a s]; simpl; [eauto|]. case_bool_decide; [eauto|].
  destruct (split c s); eauto.
Qed.

Lemma string_forallb_impl (p q : ascii → bool) s :
  (∀ c, p c = true → q c = true) → string_forallb p s = true → string_forallb q s = true.
Proof.
  intros H. induction s as [|a s IH]; simpl; [done|]. intros E. boolify.
  apply andb_true_iff. auto.
Qed.

Lemma is_digit_not_dot c : is_digit c = true → negb (bool_decide (c = "."%char)) = true.
Proof.
  intros H. case_bool_decide as E; [|done]. subst. discriminate H.
Qed.

Lemma is_digit_not_space c : is_digit c = true → is_space c = false.
Proof.
  unfold is_digit, is_space. intros H. boolify.
  apply orb_false_iff. split; [apply andb_false_iff; right|]; lia.
Qed.

Lemma trim_digits s : string_forallb is_digit s = true → trim s = s.
Proof.
  unfold trim. intros H.
  assert (trim_start s = s) as ->.
  { destruct s as [|c s]; simpl in *; [done|]. boolify. by rewrite is_digit_not_space. }
  induction s as [|c s IH]; simpl in *; [done|]. boolify. rewrite IH by done.
  destruct s; [|done]. by rewrite is_digit_not_space.
Qed.

Lemma char_code_digit_char d : 0 ≤ d < 10 → char_code (digit_char d) = 48 + d.
Proof.
  intros H. unfold char_code, digit_char. rewrite N_ascii_embedding by lia. lia.
Qed.

Lemma is_digit_digit_char d : 0 ≤ d < 10 → is_digit (digit_char d) = true.
Proof.
  intros H. unfold is_digit. rewrite char_code_digit_char by done.
  apply andb_true_iff; split; lia.
Qed.

Lemma digit_value_digit_char d : 0 ≤ d < 10 → digit_value 10 (digit_char d) = Some d.
Proof.
  intros H. unfold digit_value. rewrite char_code_digit_char by done.
  replace (48 <=? 48 + d) with true by lia. replace (48 + d <=? 57) with true by lia. simpl.
  destruct (48 + d - 48 <? 10) eqn:E; [f_equal; lia | boolify; lia].
Qed.

Lemma digit_value_is_digit c : is_digit c = true →
  digit_value 10 c = Some (char_code c - 48) ∧ 0 ≤ char_code c - 48 < 10.
Proof.
  unfold is_digit, digit_value. intros H. boolify.
  replace (48 <=? char_code c) with true by lia.
  replace (char_code c <=? 57) with true by lia. simpl.
  replace (char_code c - 48 <? 10) with true by lia. split; [done | lia].
Qed.

Lemma digits_are_digits fuel n acc :
  0 ≤ n → string_forallb is_digit acc = true → string_forallb is_digit (digits fuel n acc) = true.
Proof.
  revert n acc; induction fuel as [|fuel IH]; intros n acc Hn Hacc; simpl; [done|].
  pose proof (Z.mod_pos_bound n 10 ltac:(lia)).
  assert (string_forallb is_digit (String (digit_char (n mod 10)) acc) = true).
  { simpl. by rewrite is_digit_digit_char. }
  case_match; [done|]. apply IH; [apply Z.div_pos; lia | done].
Qed.

Lemma parse_digits_digits fuel n acc :
  0 ≤ n < 10 ^ Z.of_nat fuel → (fuel ≠ 0)%nat →
  parse_digits 10 0 (digits fuel n acc) = parse_digits 10 n acc.
Proof.
  revert n acc; induction fuel as [|fuel IH]; intros n acc Hn Hf; [done|]. simpl.
  pose proof (Z.mod_pos_bound n 10 ltac:(lia)). pose proof (Z.div_mod n 10 ltac:(lia)).
  rewrite Nat2Z.inj_succ, Z.pow_succ_r in Hn by lia.
  destruct (n / 10 =? 0) eqn:E; boolify.
  - simpl. rewrite digit_value_digit_char by lia. f_equal. lia.
  - assert (0 ≤ n / 10 < 10 ^ Z.of_nat fuel).
    { split; [apply Z.div_pos; lia | apply Z.div_lt_upper_bound; lia]. }
    destruct fuel as [|fuel]; [simpl in *; lia|].
    rewrite IH by done. simpl. rewrite digit_value_digit_char by lia. f_equal. lia.
Qed.

Lemma digits_fuel_enough n : 0 ≤ n → 0 ≤ n < 10 ^ Z.of_nat (digits_fuel n).
Proof.
  intros Hn. split; [done|]. unfold digits_fuel.
  pose proof (Z.log2_nonneg n). rewrite Nat2Z.inj_succ, Z2Nat.id by done.
  destruct (Z.eq_dec n 0) as [->|Hne]; [done|].
  pose proof (Z.log2_spec n ltac:(lia)) as [_ Hlt].
  eapply Z.lt_le_trans; [exact Hlt|]. apply Z.pow_le_mono_l. lia.
Qed.

Lemma BigInt_digits s : string_forallb is_digit s = true →
  BigInt s = match parse_digits 10 0 s with Some z => Ok z | None => Err (Thrown "SyntaxError") end.
Proof. intros H. unfold BigInt. by rewrite trim_digits, H. Qed.

Lemma BigInt_toString_digits n : 0 ≤ n → string_forallb is_digit (BigInt_toString n) = true.
Proof.
  intros H. unfold BigInt_toString. replace (n <? 0) with false by lia.
  by apply digits_are_digits.
Qed.

Lemma parse_toString n : 0 ≤ n → parse_digits 10 0 (BigInt_toString n) = Some n.
Proof.
  intros H. unfold BigInt_toString. replace (n <? 0) with false by lia.
  rewrite parse_digits_digits; [done | by apply digits_fuel_enough | done].
Qed.

Lemma BigInt_BigInt_toString n : 0 ≤ n → BigInt (BigInt_toString n) = Ok n.
Proof.
  intros H. rewrite BigInt_digits by by apply BigInt_toString_digits. by rewrite parse_toString.
Qed.

Lemma repeat_zero_digits n : string_forallb is_digit (repeat_char n "0") = true.
Proof. induction n; simpl; auto. Qed.

Lemma parse_digits_zeros n s : parse_digits 10 0 (String.append (repeat_char n "0") s) = parse_digits 10 0 s.
Proof.
  induction n as [|n IHn]; [done|]. cbn [repeat_char String.append parse_digits].
  change (digit_value 10 "0") with (Some 0). exact IHn.
Qed.

Lemma parse_digits_append_zeros n acc s v :
  parse_digits 10 acc s = Some v →
  parse_digits 10 acc (String.append s (repeat_char n "0")) = Some (v * 10 ^ Z.of_nat n).
Proof.
  revert acc; induction s as [|c s IH]; intros acc; simpl.
  - intros [= ->]. revert v. induction n as [|n IHn]; intros v.
    + simpl. f_equal. lia.
    + change (parse_digits 10 (v * 10 + 0) (String.append "" (repeat_char n "0")) =
              Some (v * 10 ^ Z.of_nat (S n))).
      rewrite IHn, Nat2Z.inj_succ, Z.pow_succ_r by lia. f_equal. lia.
  - destruct (digit_value 10 c); [apply IH | done].
Qed.

Lemma BigInt_padStart n k : 0 ≤ k →
  BigInt (padStart n "0" (BigInt_toString k)) = Ok k ∧
  string_forallb is_digit (padStart n "0" (BigInt_toString k)) = true.
Proof.
  intros Hk. unfold padStart.
  assert (string_forallb is_digit (String.append (repeat_char (n - String.length (BigInt_toString k)) "0")
    (BigInt_toString k)) = true) as Hd.
  { rewrite string_forallb_app, repeat_zero_digits. simpl. by apply BigInt_toString_digits. }
  split; [|done]. rewrite BigInt_digits by done. by rewrite parse_digits_zeros, parse_toString.
Qed.

(** The number of digits is bounded by the magnitude. *)
Lemma length_digits fuel n k acc :
  0 ≤ n < 10 ^ Z.of_nat k → (0 < k)%nat →
  (String.length (digits fuel n acc) <= k + String.length acc)%nat.
Proof.
  revert n k acc; induction fuel as [|fuel IH]; intros n k acc Hn Hk; simpl; [lia|].
  destruct (n / 10 =? 0) eqn:E; boolify; simpl; [lia|].
  destruct k as [|[|k]]; [lia| |].
  - change (10 ^ Z.of_nat 1) with 10 in Hn. rewrite Z.div_small in E by lia. lia.
  - assert (String.length (digits fuel (n / 10) (String (digit_char (n mod 10)) acc))
      <= S k + String.length (String (digit_char (n mod 10)) acc))%nat.
    { apply IH; [|lia]. rewrite Nat2Z.inj_succ, Z.pow_succ_r in Hn by lia.
      split; [apply Z.div_pos; lia | apply Z.div_lt_upper_bound; lia]. }
    simpl in *. lia.
Qed.

Lemma length_BigInt_toString n k :
  0 ≤ n < 10 ^ Z.of_nat k → (0 < k)%nat → (String.length (BigInt_toString n) <= k)%nat.
Proof.
  intros H Hk. unfold BigInt_toString. replace (n <? 0) with false by lia.
  pose proof (length_digits (digits_fuel n) n k EmptyString H Hk). simpl in *. lia.
Qed.

(** Padding a fraction below [10 ^ k] to width [k] gives exactly [k] characters. *)
Lemma length_fraction n k :
  0 ≤ n < 10 ^ Z.of_nat k → (0 < k)%nat →
  String.length (padStart k "0" (BigInt_toString n)) = k.
Proof.
  intros H Hk. rewrite length_padStart. pose proof (length_BigInt_toString n k H Hk). lia.
Qed.

End JsString.
