(* ===== verification/Currency.v ===== *)
(** Money as text: src/src/shared/domain/currency.ts, the position convention of
    src/src/shared/domain/position.ts, the request schema's [currency] pattern and the
    text PostgreSQL gives for a NUMERIC(15,2) column. *)

From S2P Require Import Prelude JsString.
From Stdlib Require Import Ascii String.
Import JsString.

Module Currency.

#[local] Arguments String.append !_ _ /.

(** [const \[whole, fraction = fallback\] = value.split(".")] *)
Definition split_point (fallback value : string) : string * string :=
  match split "." value with
  | whole :: fraction :: _ => (whole, fraction)
  | [whole] => (whole, fallback)
  | [] => ("", fallback)
  end.

Definition toCents (value : string) : result Z :=
  let '(euros, fraction) := split_point "00" value in
  let! e := BigInt euros in
  let! f := BigInt (slice0 2 (padEnd 2 "0" fraction)) in
  Ok (e * 100 + f).

(** BigInt division truncates towards zero and the remainder has the dividend's sign. *)
Definition fromCents (cents : Z) : string :=
  String.append (BigInt_toString (Z.quot cents 100))
    (String "." (padStart 2 "0" (BigInt_toString (Z.rem cents 100)))).

Definition subtractCurrencyFloorZero (minuend subtrahend : string) : result string :=
  let! m := toCents minuend in
  let! s := toCents subtrahend in
  let remaining := m - s in
  Ok (fromCents (if 0 <? remaining then remaining else 0)).

Definition toEurcMicros (value : string) : result Z :=
  let '(euros, fraction) := split_point "000000" value in
  let! e := BigInt euros in
  let! f := BigInt (slice0 6 (padEnd 6 "0" fraction)) in
  Ok (e * 1000000 + f).

Definition fromEurcMicros (micros : Z) : string :=
  let negative := micros <? 0 in
  let absolute := if negative then - micros else micros in
  let euros := Z.quot absolute 1000000 in
  let fraction := padStart 6 "0" (BigInt_toString (Z.rem absolute 1000000)) in
  String.append (if negative then "-" else "")
    (String.append (BigInt_toString euros) (String "." fraction)).

(** src/src/modules/offering/repository/prisma-offering.repository.ts *)
Definition normalizeCurrency (value : string) : result string :=
  let '(euros, fraction) := split_point "00" value in
  let! e := BigInt euros in
  let! f := BigInt (slice0 2 (padEnd 2 "0" fraction)) in
  let cents := e * 100 + f in
  Ok (String.append (BigInt_toString (Z.quot cents 100))
        (String "." (padStart 2 "0" (BigInt_toString (Z.rem cents 100))))).

Definition costBasisToUnitCount (costBasisEur : string) : string := costBasisEur.

(** The request pattern [/^\d+\.\d{2}$/]. *)
Definition currency_format (value : string) : bool :=
  match split "." value with
  | [whole; fraction] =>
      negb (bool_decide (whole = EmptyString)) && string_forallb is_digit whole &&
      string_forallb is_digit fraction && (Nat.eqb (String.length fraction) 2)
  | _ => false
  end.

(** The text of a NUMERIC(15,2) value held as whole cents. *)
Definition numeric2_text (cents : Z) : string :=
  if cents <? 0 then String.append "-" (fromCents (- cents)) else fromCents cents.

(** [COALESCE(SUM(column), 0)::text]: the scale of the literal when no row is summed. *)
Definition coalesce_sum_text (rows : list Z) : string :=
  match rows with [] => "0" | _ => numeric2_text (sumZ rows) end.

(** ** Printing then parsing *)

(** The shape both printers share: an unsigned whole part and [k] fraction digits. *)
Definition point_text (k : nat) (whole fraction : Z) : string :=
  String.append (BigInt_toString whole) (String "." (padStart k "0" (BigInt_toString fraction))).

Lemma split_point_text fallback k w f :
  0 ≤ w → 0 ≤ f →
  split_point fallback (point_text k w f) =
    (BigInt_toString w, padStart k "0" (BigInt_toString f)).
Proof.
  intros Hw Hf. unfold split_point, point_text.
  rewrite split_append
    by (eapply string_forallb_impl; [apply is_digit_not_dot | by apply BigInt_toString_digits]).
  rewrite split_no_sep; [done|].
  eapply string_forallb_impl; [apply is_digit_not_dot | by apply BigInt_padStart].
Qed.

(** Reading [k] fraction digits back. *)
Lemma read_fraction k f :
  0 ≤ f < 10 ^ Z.of_nat k → (0 < k)%nat →
  BigInt (slice0 k (padEnd k "0" (padStart k "0" (BigInt_toString f)))) = Ok f.
Proof.
  intros Hf Hk. pose proof (length_fraction f k Hf Hk) as Hlen.
  rewrite padEnd_id, slice0_all by lia. apply BigInt_padStart. lia.
Qed.

Lemma fromCents_point c : 0 ≤ c → fromCents c = point_text 2 (c / 100) (c mod 100).
Proof.
  intros H. unfold fromCents, point_text.
  by rewrite Z.quot_div_nonneg, Z.rem_mod_nonneg by lia.
Qed.

Lemma fromEurcMicros_point m :
  0 ≤ m → fromEurcMicros m = point_text 6 (m / 1000000) (m mod 1000000).
Proof.
  intros H. unfold fromEurcMicros, point_text. replace (m <? 0) with false by lia.
  by rewrite Z.quot_div_nonneg, Z.rem_mod_nonneg by lia.
Qed.

Lemma toCents_fromCents_ok c : 0 ≤ c → toCents (fromCents c) = Ok c.
Proof.
  intros H. rewrite fromCents_point by done. unfold toCents.
  pose proof (Z.mod_pos_bound c 100 ltac:(lia)).
  assert (0 ≤ c / 100) by (apply Z.div_pos; lia).
  rewrite split_point_text by lia.
  rewrite BigInt_BigInt_toString by done. cbn [rbind].
  rewrite read_fraction by (simpl; lia). cbn [rbind]. f_equal.
  pose proof (Z.div_mod c 100 ltac:(lia)). lia.
Qed.

Lemma toEurcMicros_fromEurcMicros_ok m : 0 ≤ m → toEurcMicros (fromEurcMicros m) = Ok m.
Proof.
  intros H. rewrite fromEurcMicros_point by done. unfold toEurcMicros.
  pose proof (Z.mod_pos_bound m 1000000 ltac:(lia)).
  assert (0 ≤ m / 1000000) by (apply Z.div_pos; lia).
  rewrite split_point_text by lia.
  rewrite BigInt_BigInt_toString by done. cbn [rbind].
  rewrite read_fraction by (simpl; lia). cbn [rbind]. f_equal.
  pose proof (Z.div_mod m 1000000 ltac:(lia)). lia.
Qed.

Lemma toCents_numeric2_text c : 0 ≤ c → toCents (numeric2_text c) = Ok c.
Proof.
  intros H. unfold numeric2_text. replace (c <? 0) with false by lia.
  by apply toCents_fromCents_ok.
Qed.

Lemma toCents_coalesce_sum_text l :
  Forall (λ x, 0 ≤ x) l → toCents (coalesce_sum_text l) = Ok (sumZ l).
Proof.
  intros H. destruct l as [|x l]; [reflexivity|].
  unfold coalesce_sum_text. apply toCents_numeric2_text. by apply sumZ_nonneg.
Qed.

Lemma normalizeCurrency_toCents s :
  normalizeCurrency s = let! c := toCents s in Ok (fromCents c).
Proof.
  unfold normalizeCurrency, toCents. destruct (split_point "00" s) as [a b].
  destruct (BigInt a); simpl; [|done]. by destruct (BigInt _).
Qed.

(** ** Parsing what the request schema admits *)

Lemma parse_digits_nonneg acc s :
  0 ≤ acc → string_forallb is_digit s = true →
  ∃ v, parse_digits 10 acc s = Some v ∧ 0 ≤ v.
Proof.
  revert acc; induction s as [|c s IH]; intros acc Ha; simpl; [eauto|].
  intros H. boolify. destruct (digit_value_is_digit c) as [-> ?]; [done|].
  apply IH; [lia | done].
Qed.

Lemma BigInt_of_digits s :
  string_forallb is_digit s = true → ∃ v, BigInt s = Ok v ∧ 0 ≤ v.
Proof.
  intros H. rewrite BigInt_digits by done.
  destruct (parse_digits_nonneg 0 s) as (v & -> & Hv); [lia | done | eauto].
Qed.

Lemma currency_format_split s : currency_format s = true →
  ∃ a b, split "." s = [a; b] ∧ string_forallb is_digit a = true ∧
         string_forallb is_digit b = true ∧ String.length b = 2%nat.
Proof.
  unfold currency_format. destruct (split "." s) as [|a [|b [|]]]; try done.
  intros H. boolify. exists a, b. by apply Nat.eqb_eq in H0.
Qed.

Lemma toCents_currency s : currency_format s = true → ∃ c, toCents s = Ok c ∧ 0 ≤ c.
Proof.
  intros (a & b & E & Ha & Hb & Hl)%currency_format_split.
  unfold toCents, split_point. rewrite E.
  destruct (BigInt_of_digits a Ha) as (va & -> & ?). cbn [rbind].
  rewrite padEnd_id, slice0_all by lia.
  destruct (BigInt_of_digits b Hb) as (vb & -> & ?). cbn [rbind]. eexists. split; [done | lia].
Qed.

Lemma toEurcMicros_currency s c :
  currency_format s = true → toCents s = Ok c → toEurcMicros s = Ok (c * 10000).
Proof.
  intros (a & b & E & Ha & Hb & Hl)%currency_format_split.
  unfold toCents, toEurcMicros, split_point. rewrite E.
  destruct (BigInt_of_digits a Ha) as (va & -> & ?). cbn [rbind].
  rewrite padEnd_id, slice0_all by lia.
  destruct (parse_digits_nonneg 0 b) as (vb & Eb & ?); [lia | done |].
  rewrite BigInt_digits by done. rewrite Eb. cbn [rbind]. intros [= <-].
  rewrite slice0_all by (unfold padEnd; rewrite length_append, length_repeat_char; lia).
  unfold padEnd. rewrite Hl. change (6 - 2)%nat with 4%nat.
  rewrite BigInt_digits by (by rewrite string_forallb_app, Hb, repeat_zero_digits).
  rewrite (parse_digits_append_zeros 4 0 b vb) by done. cbn [rbind]. f_equal. lia.
Qed.

(** ** Properties *)

(** C38: Every non-negative amount of cents, and every non-negative amount of EURC
    micros, printed by the API's formatter is read back by the matching parser as exactly
    the same number: no cent or micro is lost or gained in a round trip through text. *)
Theorem currency_round_trip (c m : Z) :
  0 ≤ c → 0 ≤ m →
  toCents (fromCents c) = Ok c ∧ toEurcMicros (fromEurcMicros m) = Ok m.
Proof. intros. split; [by apply toCents_fromCents_ok | by apply toEurcMicros_fromEurcMicros_ok]. Qed.

Lemma currency_round_trip_witness :
  toCents (fromCents 123405) = Ok 123405 ∧ toEurcMicros (fromEurcMicros 7000042) = Ok 7000042.
Proof. apply (currency_round_trip 123405 7000042); lia. Defined.

(** On every amount the request schema admits, parsing never throws, yields a
    non-negative number of cents, agrees with the six-decimal EURC reading of the same
    text, and normalising is printing the parsed amount. *)
Theorem currency_format_total (s : string) :
  currency_format s = true →
  ∃ c, 0 ≤ c ∧ toCents s = Ok c ∧ toEurcMicros s = Ok (c * 10000) ∧
       normalizeCurrency s = Ok (fromCents c).
Proof.
  intros H. destruct (toCents_currency s H) as (c & Hc & ?). exists c.
  repeat split; [done | done | by apply toEurcMicros_currency |].
  by rewrite normalizeCurrency_toCents, Hc.
Qed.

Lemma currency_format_total_witness :
  currency_format "1500.07" = true ∧
  ∃ c, 0 ≤ c ∧ toCents "1500.07" = Ok c ∧ toEurcMicros "1500.07" = Ok (c * 10000) ∧
       normalizeCurrency "1500.07" = Ok (fromCents c).
Proof. split; [reflexivity | apply (currency_format_total "1500.07"); reflexivity]. Defined.

Lemma subtractCurrencyFloorZero_cents a b :
  0 ≤ a → 0 ≤ b →
  subtractCurrencyFloorZero (fromCents a) (fromCents b) = Ok (fromCents (Z.max 0 (a - b))).
Proof.
  intros. unfold subtractCurrencyFloorZero. rewrite !toCents_fromCents_ok by done.
  cbn [rbind]. do 2 f_equal. destruct (0 <? a - b) eqn:E; boolify; lia.
Qed.

End Currency.
