(* ===== verification/JsNumber.v ===== *)
(** The JavaScript Number type: IEEE binary64 with the operations of the Standard Library's
    SpecFloat, [Number(text)] on the texts of Decimal.toFixed(2), [toFixed(2)], [Math.min] and
    [Math.max]; and the fragment on which it is exact, the non-negative integers below 2^53. *)

From S2P Require Import Prelude JsString Currency.
From Stdlib Require Import SpecFloat Ascii.

Module JsNumber.
Import Currency.

Definition number := spec_float.
Definition prec : Z := 53.
Definition emax : Z := 1024.

Definition zero : number := S754_zero false.
Definition plus : number → number → number := SFadd prec emax.
Definition minus : number → number → number := SFsub prec emax.
Definition times : number → number → number := SFmul prec emax.
Definition divided : number → number → number := SFdiv prec emax.
Definition less : number → number → bool := SFltb.
Definition equal : number → number → bool := SFeqb.

Definition of_Z (z : Z) : number := binary_normalize prec emax z 0 false.

Definition is_nan (x : number) : bool := match x with S754_nan => true | _ => false end.

(** Math.max(0, x) and Math.min(100, x) have no pair of opposite zeros to order. *)
Definition Math_max (a b : number) : number :=
  if is_nan a || is_nan b then S754_nan else if less a b then b else a.
Definition Math_min (a b : number) : number :=
  if is_nan a || is_nan b then S754_nan else if less b a then b else a.

(** The double nearest to [cents / 100]: the quotient is rounded once. *)
Definition of_cents (cents : Z) : number :=
  match cents with
  | Z0 => zero
  | Zpos m => divided (S754_finite false m 0) (S754_finite false 100 0)
  | Zneg m => divided (S754_finite true m 0) (S754_finite false 100 0)
  end.

(** [Number(text)] for a text written by toFixed(2). *)
Definition Number (text : string) : number :=
  match text with
  | String "-"%char rest => match toCents rest with Ok c => SFopp (of_cents c) | Err _ => S754_nan end
  | _ => match toCents text with Ok c => of_cents c | Err _ => S754_nan end
  end.

(** The integer [n] for which [n / 100] is nearest to [m * 2^e], the larger of two. *)
Definition nearest_hundredth (m : positive) (e : Z) : Z :=
  if 0 <=? e then Zpos m * 2 ^ e * 100
  else (2 * (Zpos m * 100) + 2 ^ (- e)) / (2 * 2 ^ (- e)).

(** [x.toFixed(2)].  From 10^21 on the method prints ToString(x) instead: the columns are
    numeric(15,2), so a sum reaches it only past 10^8 rows. *)
Definition toFixed2 (x : number) : string :=
  match x with
  | S754_zero _ => "0.00"
  | S754_infinity false => "Infinity"
  | S754_infinity true => "-Infinity"
  | S754_nan => "NaN"
  | S754_finite s m e =>
      String.append (if s then "-" else "") (numeric2_text (nearest_hundredth m e))
  end.

(** ** Integers below 2^53 are exact *)

(** [p] followed by [k] zero bits *)
Definition shift (k : nat) (p : positive) : positive := Nat.iter k xO p.
Definition size (p : positive) : nat := Pos.to_nat (digits2_pos p).

(** The double of the integer [z] whose [size] is at most 53: a 53-bit mantissa. *)
Definition exactly (z : Z) : number :=
  match z with
  | Z0 => zero
  | Zpos p => S754_finite false (shift (53 - size p) p) (Z.of_nat (size p) - 53)
  | Zneg p => S754_nan
  end.

Definition small (z : Z) : Prop := 0 ≤ z < 2 ^ 53.

Lemma size_bounds p : 2 ^ (Z.of_nat (size p) - 1) ≤ Zpos p < 2 ^ Z.of_nat (size p).
Proof.
  unfold size. induction p as [p IH|p IH|]; cbn [digits2_pos]; [| |simpl; lia];
    rewrite Pos2Nat.inj_succ, Nat2Z.inj_succ; unfold Z.succ;
    replace (Z.of_nat (Pos.to_nat (digits2_pos p)) + 1 - 1) with (1 + (Z.of_nat (Pos.to_nat (digits2_pos p)) - 1)) by lia;
    rewrite (Z.pow_add_r 2 1), (Z.pow_add_r 2 _ 1) by lia; lia.
Qed.

Lemma size_pos p : (0 < size p)%nat.
Proof. unfold size. lia. Qed.

Lemma size_unique p k : (0 < k)%nat → 2 ^ (Z.of_nat k - 1) ≤ Zpos p < 2 ^ Z.of_nat k → size p = k.
Proof.
  intros Hk [H1 H2]. destruct (size_bounds p) as [L U]. pose proof (size_pos p).
  assert (Z.of_nat k - 1 < Z.of_nat (size p)) by (apply (Z.pow_lt_mono_r_iff 2); lia).
  assert (Z.of_nat (size p) - 1 < Z.of_nat k) by (apply (Z.pow_lt_mono_r_iff 2); lia). lia.
Qed.

Lemma size_small p : small (Zpos p) ↔ (size p ≤ 53)%nat.
Proof.
  destruct (size_bounds p) as [L U]. unfold small. split; intros H.
  - assert (Z.of_nat (size p) - 1 < 53) by (apply (Z.pow_lt_mono_r_iff 2); lia). lia.
  - split; [lia|]. eapply Z.lt_le_trans; [exact U|]. apply Z.pow_le_mono_r; lia.
Qed.

Lemma shift_value k p : Zpos (shift k p) = Zpos p * 2 ^ Z.of_nat k.
Proof.
  induction k as [|k IH]; [simpl; lia|]. change (shift (S k) p) with (xO (shift k p)).
  rewrite Pos2Z.inj_xO, IH, Nat2Z.inj_succ, Z.pow_succ_r by lia. lia.
Qed.

Lemma shift_size k p : size (shift k p) = (size p + k)%nat.
Proof.
  induction k as [|k IH]; [simpl; lia|]. change (shift (S k) p) with (xO (shift k p)).
  unfold size in *. cbn [digits2_pos]. rewrite Pos2Nat.inj_succ, IH. lia.
Qed.

Lemma shift_shift j k p : shift j (shift k p) = shift (j + k) p.
Proof. unfold shift. by rewrite Nat.iter_add. Qed.

Lemma shift_inj k p q : Zpos q = Zpos p * 2 ^ Z.of_nat k → q = shift k p.
Proof. intros H. rewrite <- shift_value in H. congruence. Qed.

Lemma iter_pos_nat {A} (f : A → A) n x : SpecFloat.iter_pos f n x = Nat.iter (Pos.to_nat n) f x.
Proof.
  revert x. induction n as [n IH|n IH|]; intros x; cbn [SpecFloat.iter_pos]; [| |done]; rewrite !IH, <- !Nat.iter_add.
  - rewrite <- Nat.iter_succ_r. f_equal. lia.
  - f_equal. lia.
Qed.

(** Dropping zero bits is exact. *)
Lemma shr_shift n p e :
  shr (Build_shr_record (Zpos (shift n p)) false false) e (Z.of_nat n) =
  (Build_shr_record (Zpos p) false false, e + Z.of_nat n).
Proof.
  destruct n as [|n]; [simpl; f_equal; lia|].
  change (Z.of_nat (S n)) with (Zpos (Pos.of_succ_nat n)). unfold shr.
  rewrite iter_pos_nat, SuccNat2Pos.id_succ. f_equal.
  generalize (S n) as k. clear. induction k as [|k IH]; [done|].
  change (shift (S k) p) with (xO (shift k p)). rewrite Nat.iter_succ_r. exact IH.
Qed.

Lemma fexp_size d : (0 < d ≤ 60)%nat → fexp prec emax (Z.of_nat d) = Z.of_nat d - 53.
Proof. unfold fexp, emin, prec, emax. lia. Qed.

Lemma Zdigits2_size p : Zdigits2 (Zpos p) = Z.of_nat (size p).
Proof. unfold size. simpl. lia. Qed.

(** A significand with only zeros to drop is not rounded. *)
Lemma round_aux_exact p k : (size p ≤ 53)%nat → (53 - size p ≤ k)%nat →
  binary_round_aux prec emax false (Zpos (shift k p)) (- Z.of_nat k) loc_Exact = exactly (Zpos p).
Proof.
  intros Hs Hk. pose proof (size_pos p).
  set (n := (k - (53 - size p))%nat).
  assert (shift k p = shift n (shift (53 - size p) p)) as -> by (rewrite shift_shift; f_equal; lia).
  unfold binary_round_aux, shr_fexp. cbn [shr_record_of_loc].
  rewrite Zdigits2_size, !shift_size.
  replace (Z.of_nat (size p + (53 - size p) + n) + - Z.of_nat k) with (Z.of_nat (size p)) by lia.
  rewrite fexp_size by lia.
  replace (Z.of_nat (size p) - 53 - - Z.of_nat k) with (Z.of_nat n) by lia.
  rewrite shr_shift. cbn [shr_m loc_of_shr_record round_nearest_even].
  rewrite Zdigits2_size, shift_size.
  replace (Z.of_nat (size p + (53 - size p)) + (- Z.of_nat k + Z.of_nat n)) with (Z.of_nat (size p)) by lia.
  rewrite fexp_size by lia.
  replace (Z.of_nat (size p) - 53 - (- Z.of_nat k + Z.of_nat n)) with 0 by lia.
  cbn [shr shr_m]. replace (- Z.of_nat k + Z.of_nat n) with (Z.of_nat (size p) - 53) by lia.
  unfold emax, prec. replace (Z.of_nat (size p) - 53 <=? 1024 - 53) with true by lia. done.
Qed.

Lemma shl_align_down k j p : (k ≤ j)%nat →
  shl_align (shift k p) (- Z.of_nat k) (- Z.of_nat j) = (shift j p, - Z.of_nat j).
Proof.
  intros H. unfold shl_align.
  destruct (- Z.of_nat j - - Z.of_nat k) as [|d|d] eqn:E; [|lia|].
  - assert (k = j) as -> by lia. done.
  - rewrite Pos2Nat.inj_iter. f_equal.
    transitivity (shift (Pos.to_nat d) (shift k p)).
    + generalize (Pos.to_nat d) as n. induction n as [|n IH]; [done|]. simpl. by rewrite IH.
    + rewrite shift_shift. f_equal. lia.
Qed.

Lemma shl_align_up m e e' : e ≤ e' → shl_align m e e' = (m, e).
Proof. intros H. unfold shl_align. destruct (e' - e) eqn:E; [done|done|lia]. Qed.

Lemma round_exact p k : (size p ≤ 53)%nat →
  binary_round prec emax false (shift k p) (- Z.of_nat k) = exactly (Zpos p).
Proof.
  intros Hs. pose proof (size_pos p). unfold binary_round.
  assert (Zpos (digits2_pos (shift k p)) = Z.of_nat (size p + k)) as ->
    by (rewrite <- shift_size; unfold size; lia).
  replace (Z.of_nat (size p + k) + - Z.of_nat k) with (Z.of_nat (size p)) by lia.
  rewrite fexp_size by lia.
  replace (Z.of_nat (size p) - 53) with (- Z.of_nat (53 - size p)) by lia.
  destruct (Nat.le_gt_cases k (53 - size p)) as [Hk|Hk].
  - rewrite shl_align_down by done. by apply round_aux_exact.
  - rewrite shl_align_up by lia. apply round_aux_exact; lia.
Qed.

Lemma of_Z_exact z : small z → of_Z z = exactly z.
Proof.
  intros Hz. destruct z as [|p|p]; [done| |unfold small in Hz; lia].
  apply (round_exact p 0). by apply size_small.
Qed.

Lemma of_cents_euros z : small z → of_cents (100 * z) = exactly z.
Proof.
  intros Hz. destruct z as [|p|p]; [done| |unfold small in Hz; lia].
  pose proof (size_bounds p) as [L U]. pose proof (size_pos p) as Hp. apply size_small in Hz.
  assert (size (100 * p)%positive = size p + 6 ∨ size (100 * p)%positive = size p + 7)%nat as Hd.
  { destruct (Z.lt_ge_cases (Zpos (100 * p)) (2 ^ Z.of_nat (size p + 6))) as [Hlt|Hge]; [left|right];
      apply size_unique; try lia; split; try exact Hlt.
    - replace (Z.of_nat (size p + 6) - 1) with (6 + (Z.of_nat (size p) - 1)) by lia.
      rewrite (Z.pow_add_r 2 6) by lia. lia.
    - replace (Z.of_nat (size p + 7) - 1) with (Z.of_nat (size p + 6)) by lia. done.
    - replace (Z.of_nat (size p + 7)) with (7 + Z.of_nat (size p)) by lia.
      rewrite (Z.pow_add_r 2 7) by lia. lia. }
  change (100 * Zpos p) with (Zpos (100 * p)). set (q := (100 * p)%positive) in *.
  unfold of_cents, divided, SFdiv, SFdiv_core_binary. rewrite Zdigits2_size.
  change (Zdigits2 100) with 7. rewrite !Z.add_0_r.
  replace (Z.of_nat (size q) - 7) with (Z.of_nat (size q - 7)) by lia.
  set (k := (60 - size q)%nat).
  assert (Z.min (fexp prec emax (Z.of_nat (size q - 7))) (0 - 0) = - Z.of_nat k) as ->.
  { unfold fexp, emin, prec, emax. lia. }
  replace (0 - 0 - - Z.of_nat k) with (Z.of_nat k) by lia.
  assert ((match Z.of_nat k with Z0 => Zpos q | Zpos _ => Z.shiftl (Zpos q) (Z.of_nat k) | Zneg _ => 0 end)
          = Zpos (shift k p) * 100) as ->.
  { rewrite shift_value. subst q. destruct (Z.of_nat k) eqn:E; [lia| |lia].
    rewrite Z.shiftl_mul_pow2 by lia. lia. }
  assert (Z.div_eucl (Zpos (shift k p) * 100) 100 = (Zpos (shift k p), 0)) as ->.
  { pose proof (Z.div_mul (Zpos (shift k p)) 100 ltac:(lia)) as D.
    pose proof (Z.mod_mul (Zpos (shift k p)) 100 ltac:(lia)) as M.
    unfold Z.div, Z.modulo in D, M. destruct (Z.div_eucl _ _). congruence. }
  apply round_aux_exact; lia.
Qed.

Lemma exactly_finite p : (size p ≤ 53)%nat →
  exactly (Zpos p) = S754_finite false (shift (53 - size p) p) (- Z.of_nat (53 - size p)).
Proof. intros H. simpl. f_equal. lia. Qed.

(** Both operands written over one exponent. *)
Lemma aligned p q : (size p ≤ 53)%nat → (size q ≤ 53)%nat → ∃ k,
  let e := Z.min (- Z.of_nat (53 - size p)) (- Z.of_nat (53 - size q)) in
  e = - Z.of_nat k ∧
  fst (shl_align (shift (53 - size p) p) (- Z.of_nat (53 - size p)) e) = shift k p ∧
  fst (shl_align (shift (53 - size q) q) (- Z.of_nat (53 - size q)) e) = shift k q.
Proof.
  intros Hp Hq. exists (Nat.max (53 - size p) (53 - size q)). cbv zeta.
  assert (Z.min (- Z.of_nat (53 - size p)) (- Z.of_nat (53 - size q)) =
          - Z.of_nat (Nat.max (53 - size p) (53 - size q))) as -> by lia.
  by rewrite !shl_align_down by lia.
Qed.

Lemma plus_exact a b : 0 ≤ a → 0 ≤ b → small (a + b) → plus (exactly a) (exactly b) = exactly (a + b).
Proof.
  intros Ha Hb Hs. destruct a as [|p|p]; [by destruct b| |lia]. destruct b as [|q|q]; [done| |lia].
  assert (size p ≤ 53 ∧ size q ≤ 53 ∧ size (p + q) ≤ 53)%nat as (Hp & Hq & Hpq)
    by (rewrite <- !size_small; unfold small in *; lia).
  rewrite !exactly_finite by done. unfold plus, SFadd. cbn [cond_Zopp].
  destruct (aligned p q Hp Hq) as (k & -> & -> & ->).
  change (Zpos p + Zpos q) with (Zpos (p + q)).
  assert (Zpos (shift k p) + Zpos (shift k q) = Zpos (shift k (p + q))) as ->
    by (rewrite !shift_value; lia).
  by apply round_exact.
Qed.

Lemma minus_exact a b : 0 ≤ b ≤ a → small a → minus (exactly a) (exactly b) = exactly (a - b).
Proof.
  intros Hb Hs. destruct b as [|q|q]; [by destruct a as [|p|p]; [..|lia]| |lia].
  destruct a as [|p|p]; [lia| |lia].
  assert (size p ≤ 53 ∧ size q ≤ 53)%nat as (Hp & Hq)
    by (rewrite <- !size_small; unfold small in *; lia).
  rewrite !exactly_finite by done. unfold minus, SFsub. cbn [cond_Zopp].
  destruct (aligned p q Hp Hq) as (k & -> & -> & ->).
  destruct (Zpos p - Zpos q) as [|r|r] eqn:E; [| |lia].
  - assert (Zpos (shift k p) - Zpos (shift k q) = 0) as -> by (rewrite !shift_value; nia). done.
  - assert (Zpos (shift k p) - Zpos (shift k q) = Zpos (shift k r)) as -> by (rewrite !shift_value; nia).
    apply round_exact, size_small. unfold small in *. lia.
Qed.

Lemma less_exact a b : small a → small b → less (exactly a) (exactly b) = (a <? b).
Proof.
  intros Ha Hb. destruct a as [|p|p], b as [|q|q]; try done; try (unfold small in *; lia).
  apply size_small in Ha, Hb. rewrite !exactly_finite by done.
  pose proof (size_bounds p) as [Lp Up]. pose proof (size_bounds q) as [Lq Uq].
  pose proof (size_pos p). pose proof (size_pos q).
  unfold less, SFltb, SFcompare.
  destruct (Z.compare_spec (- Z.of_nat (53 - size p)) (- Z.of_nat (53 - size q))) as [E|E|E].
  - assert (size p = size q) as Es by lia. rewrite Es. change (Pos.compare_cont Eq) with Pos.compare.
    assert ((shift (53 - size q) p ?= shift (53 - size q) q)%positive = (Zpos p ?= Zpos q)) as ->.
    { change ((shift (53 - size q) p ?= shift (53 - size q) q)%positive)
        with (Zpos (shift (53 - size q) p) ?= Zpos (shift (53 - size q) q)).
      rewrite !shift_value. symmetry. apply Zmult_compare_compat_r. lia. }
    done.
  - symmetry. apply Z.ltb_lt. eapply Z.lt_le_trans; [exact Up|]. etransitivity; [|exact Lq].
    apply Z.pow_le_mono_r; lia.
  - symmetry. apply Z.ltb_ge. apply Z.lt_le_incl. eapply Z.lt_le_trans; [exact Uq|]. etransitivity; [|exact Lp].
    apply Z.pow_le_mono_r; lia.
Qed.

Lemma nearest_hundredth_shift k p : nearest_hundredth (shift k p) (- Z.of_nat k) = 100 * Zpos p.
Proof.
  unfold nearest_hundredth. rewrite shift_value, Z.opp_involutive. destruct k as [|k]; [simpl; lia|].
  assert ((0 <=? - Z.of_nat (S k)) = false) as -> by (apply Z.leb_gt; lia).
  assert (0 < 2 ^ Z.of_nat (S k)) by (apply Z.pow_pos_nonneg; lia).
  symmetry. apply (Z.div_unique_pos _ _ _ (2 ^ Z.of_nat (S k))); lia.
Qed.

Lemma toFixed2_exact z : small z → toFixed2 (exactly z) = numeric2_text (100 * z).
Proof.
  intros Hz. destruct z as [|p|p]; [done| |unfold small in Hz; lia].
  apply size_small in Hz. rewrite exactly_finite by done. unfold toFixed2.
  by rewrite nearest_hundredth_shift.
Qed.

Lemma Number_numeric2 c : 0 ≤ c → Number (numeric2_text c) = of_cents c.
Proof.
  intros H. pose proof (toCents_numeric2_text c H) as T.
  assert (numeric2_text c = point_text 2 (c / 100) (c mod 100)) as E.
  { unfold numeric2_text. replace (c <? 0) with false by lia. by apply fromCents_point. }
  pose proof (JsString.BigInt_toString_digits (c / 100) ltac:(apply Z.div_pos; lia)) as D.
  rewrite E in *. unfold point_text in *. destruct (JsString.BigInt_toString (c / 100)) as [|a t].
  - unfold Number. cbn [String.append] in *. by rewrite T.
  - assert (a ≠ "-"%char) as Ha by (intros ->; done).
    unfold Number. cbn [String.append] in *. rewrite T.
    destruct a as [[] [] [] [] [] [] [] []]; try done.
Qed.

End JsNumber.
