(* ===== verification/DateTime.v ===== *)
(** The UTC half of the JavaScript [Date]: a date is its time value in milliseconds; the
    proleptic Gregorian calendar as ECMAScript defines it. *)

From Stdlib Require Import Ascii.
From S2P Require Import Prelude JsString.

Module DateTime.

Definition msPerDay : Z := 86400000.

(** ** The calendar *)

(** Days from 1970-01-01 to the given date; [m] counts from 1.  Years are taken from March so
    that the leap day is the last of the year. *)
Definition days_from_civil (y m d : Z) : Z :=
  let y := if m <=? 2 then y - 1 else y in
  let era := y / 400 in
  let yoe := y - era * 400 in
  let doy := (153 * (m + (if 2 <? m then -3 else 9)) + 2) / 5 + d - 1 in
  era * 146097 + (yoe * 365 + yoe / 4 - yoe / 100 + doy) - 719468.

Definition civil_of_era (doe : Z) : Z * Z * Z :=
  let yoe := (doe - doe / 1460 + doe / 36524 - doe / 146096) / 365 in
  let doy := doe - (365 * yoe + yoe / 4 - yoe / 100) in
  let mp := (5 * doy + 2) / 153 in
  let d := doy - (153 * mp + 2) / 5 + 1 in
  let m := if mp <? 10 then mp + 3 else mp - 9 in
  (yoe + (if m <=? 2 then 1 else 0), m, d).

Definition civil_from_days (z : Z) : Z * Z * Z :=
  let z := z + 719468 in
  let era := z / 146097 in
  let '(y, m, d) := civil_of_era (z - era * 146097) in
  (y + era * 400, m, d).

(** ** The Date methods *)

Definition Day (t : Z) : Z := t / msPerDay.
Definition TimeWithinDay (t : Z) : Z := t mod msPerDay.
Definition civil (t : Z) : Z * Z * Z := civil_from_days (Day t).

Definition getUTCFullYear (t : Z) : Z := (civil t).1.1.
Definition getUTCMonth (t : Z) : Z := (civil t).1.2 - 1.
Definition getUTCDate (t : Z) : Z := (civil t).2.
Definition getUTCDay (t : Z) : Z := (Day t + 4) mod 7.

(** A month outside 0..11 carries into the year, a day outside the month into the month. *)
Definition MakeDay (year month date : Z) : Z :=
  days_from_civil (year + month / 12) (month mod 12 + 1) 1 + date - 1.

Definition setUTCDate (date t : Z) : Z :=
  MakeDay (getUTCFullYear t) (getUTCMonth t) date * msPerDay + TimeWithinDay t.

Definition setUTCMonth (month t : Z) : Z :=
  MakeDay (getUTCFullYear t) month (getUTCDate t) * msPerDay + TimeWithinDay t.

(** [Date.UTC(year, month, date)]: a year from 0 to 99 means 1900 + year. *)
Definition Date_UTC (year month date : Z) : Z :=
  MakeDay (if (0 <=? year) && (year <=? 99) then 1900 + year else year) month date * msPerDay.

(** [toISOString]: four digits of year when it has at most four, a sign and six otherwise. *)
Definition digits_of (n : nat) (v : Z) : string := JsString.padStart n "0"%char (JsString.BigInt_toString v).

Definition iso_year (y : Z) : string :=
  if (0 <=? y) && (y <=? 9999) then digits_of 4 y
  else String.append (if y <? 0 then "-" else "+") (digits_of 6 (Z.abs y)).

Definition toISOString (t : Z) : string :=
  let ms := TimeWithinDay t in
  String.concat ""
    [iso_year (getUTCFullYear t); "-"; digits_of 2 (getUTCMonth t + 1); "-"; digits_of 2 (getUTCDate t); "T";
     digits_of 2 (ms / 3600000); ":"; digits_of 2 (ms / 60000 mod 60); ":"; digits_of 2 (ms / 1000 mod 60); ".";
     digits_of 3 (ms mod 1000); "Z"].

(** ** The calendar is consistent *)

(** The first day of year [yoe] of an era, and the year a day of the era falls in. *)
Definition year_start (yoe : Z) : Z := yoe * 365 + yoe / 4 - yoe / 100.
Definition year_of (doe : Z) : Z := (doe - doe / 1460 + doe / 36524 - doe / 146096) / 365.
Definition month_of (doy : Z) : Z * Z :=
  let mp := (5 * doy + 2) / 153 in
  (if mp <? 10 then mp + 3 else mp - 9, doy - (153 * mp + 2) / 5 + 1).

Lemma civil_of_era_parts doe :
  civil_of_era doe =
    (year_of doe + (if (month_of (doe - year_start (year_of doe))).1 <=? 2 then 1 else 0),
     (month_of (doe - year_start (year_of doe))).1, (month_of (doe - year_start (year_of doe))).2).
Proof.
  unfold civil_of_era, month_of. simpl. fold (year_of doe).
  replace (365 * year_of doe + year_of doe / 4 - year_of doe / 100) with (year_start (year_of doe))
    by (unfold year_start; lia). done.
Qed.

Fixpoint all_below (n : nat) (p : Z → bool) (i : Z) : bool :=
  match n with O => true | S n => p i && all_below n p (i + 1) end.

Lemma all_below_spec n p : ∀ i, all_below n p i = true → ∀ j, i ≤ j < i + Z.of_nat n → p j = true.
Proof.
  induction n as [|n IH]; intros i H j Hj; simpl in H; [lia|].
  apply andb_true_iff in H as [H1 H2]. destruct (Z.eq_dec j i) as [->|]; [done|]. apply (IH (i + 1)); [done | lia].
Qed.

(** The first and the last day of each year of the era fall in that year, which has at most
    366 days. *)
Definition year_ok (y : Z) : bool :=
  (year_of (year_start y) =? y) && (year_of (year_start (y + 1) - 1) =? y) &&
  (year_start (y + 1) - year_start y <=? 366) && (year_start y <? year_start (y + 1)).

Lemma years_ok : all_below 400 year_ok 0 = true.
Proof. vm_compute. reflexivity. Qed.

(** Months and days of a year that starts in March. *)
Definition doy_ok (doy : Z) : bool :=
  let '(m, d) := month_of doy in
  ((153 * (m + (if 2 <? m then -3 else 9)) + 2) / 5 + d - 1 =? doy) &&
  (1 <=? m) && (m <=? 12) && (1 <=? d) && (d <=? 31).

Lemma doys_ok : all_below 366 doy_ok 0 = true.
Proof. vm_compute. reflexivity. Qed.

Lemma year_of_mono a b : 0 ≤ a → a ≤ b → b < 146096 → year_of a ≤ year_of b.
Proof.
  intros Ha Hab Hb. unfold year_of. rewrite (Z.div_small a 146096), (Z.div_small b 146096) by lia.
  apply Z.div_le_mono; [lia|]. pose proof (Z.div_le_mono a b 36524 ltac:(lia) Hab).
  assert (b / 1460 - a / 1460 ≤ b - a); [|lia].
  pose proof (Z.div_mod a 1460 ltac:(lia)). pose proof (Z.mod_pos_bound a 1460 ltac:(lia)).
  pose proof (Z.div_mod b 1460 ltac:(lia)). pose proof (Z.mod_pos_bound b 1460 ltac:(lia)). lia.
Qed.

(** The year a day lies in. *)
Lemma year_exists n doe : 0 ≤ doe < year_start (Z.of_nat n) →
  ∃ y, 0 ≤ y < Z.of_nat n ∧ year_start y ≤ doe < year_start (y + 1).
Proof.
  induction n as [|n IH]; intros H; [change (year_start (Z.of_nat 0)) with 0 in H; lia|].
  destruct (Z_lt_le_dec doe (year_start (Z.of_nat n))) as [Hlt|Hge].
  - destruct IH as (y & Hy & ?); [lia|]. exists y. split; [lia | done].
  - exists (Z.of_nat n). split; [lia|]. replace (Z.of_nat n + 1) with (Z.of_nat (S n)) by lia. lia.
Qed.

Lemma era_year doe : 0 ≤ doe < 146097 →
  0 ≤ year_of doe < 400 ∧ 0 ≤ doe - year_start (year_of doe) < 366.
Proof.
  intros H. destruct (Z.eq_dec doe 146096) as [->|]; [by vm_compute|].
  destruct (year_exists 400 doe) as (y & Hy & Hs); [change (year_start (Z.of_nat 400)) with 146096; lia|].
  change (Z.of_nat 400) with 400 in Hy.
  pose proof (all_below_spec 400 year_ok 0 years_ok y ltac:(lia)) as Hok.
  unfold year_ok in Hok. apply andb_true_iff in Hok as [Hok _]. apply andb_true_iff in Hok as [Hok H366].
  apply andb_true_iff in Hok as [Hfirst Hlast]. boolify.
  assert (0 ≤ year_start y) by (unfold year_start; pose proof (Z.div_pos y 4); pose proof (Z.div_le_upper_bound y 100 y); lia).
  assert (year_start (y + 1) ≤ 146096).
  { pose proof (all_below_spec 400 (λ y, year_start (y + 1) <=? 146096) 0 ltac:(vm_compute; reflexivity) y ltac:(lia)) as Hle.
    simpl in Hle. by apply Z.leb_le in Hle. }
  pose proof (year_of_mono (year_start y) doe ltac:(lia) ltac:(lia) ltac:(lia)).
  pose proof (year_of_mono doe (year_start (y + 1) - 1) ltac:(lia) ltac:(lia) ltac:(lia)).
  assert (year_of doe = y) as -> by lia. lia.
Qed.

Lemma era_day doe : 0 ≤ doe < 146097 → let '(y, m, d) := civil_of_era doe in
  days_from_civil y m d + 719468 = doe ∧ 1 ≤ m ≤ 12 ∧ 1 ≤ d ≤ 31.
Proof.
  intros H. destruct (era_year doe H) as [Hy Hd]. rewrite civil_of_era_parts.
  pose proof (all_below_spec 366 doy_ok 0 doys_ok (doe - year_start (year_of doe)) ltac:(lia)) as Hok. unfold doy_ok in Hok.
  destruct (month_of (doe - year_start (year_of doe))) as [m d]. simpl.
  apply andb_true_iff in Hok as [Hok Hd31]. apply andb_true_iff in Hok as [Hok Hd1].
  apply andb_true_iff in Hok as [Hok Hm12]. apply andb_true_iff in Hok as [Hok Hm1]. boolify.
  split; [|lia]. unfold days_from_civil.
  replace (if m <=? 2 then year_of doe + (if m <=? 2 then 1 else 0) - 1 else year_of doe + (if m <=? 2 then 1 else 0))
    with (year_of doe) by (destruct (m <=? 2); lia).
  rewrite (Z.div_small (year_of doe) 400) by lia. rewrite Hok. unfold year_start. rewrite Z.mul_0_l, Z.sub_0_r. lia.
Qed.

Lemma days_from_civil_era y m d k : days_from_civil (y + k * 400) m d = days_from_civil y m d + k * 146097.
Proof.
  unfold days_from_civil. destruct (m <=? 2).
  - replace (y + k * 400 - 1) with (y - 1 + k * 400) by lia. rewrite Z.div_add by lia.
    replace (y - 1 + k * 400 - ((y - 1) / 400 + k) * 400) with (y - 1 - (y - 1) / 400 * 400) by lia. lia.
  - rewrite Z.div_add by lia. replace (y + k * 400 - (y / 400 + k) * 400) with (y - y / 400 * 400) by lia. lia.
Qed.

Lemma civil_from_days_ok z : let '(y, m, d) := civil_from_days z in
  days_from_civil y m d = z ∧ 1 ≤ m ≤ 12 ∧ 1 ≤ d ≤ 31.
Proof.
  unfold civil_from_days. set (era := (z + 719468) / 146097). set (doe := z + 719468 - era * 146097).
  assert (0 ≤ doe < 146097) as Hdoe.
  { unfold doe, era. pose proof (Z.div_mod (z + 719468) 146097 ltac:(lia)).
    pose proof (Z.mod_pos_bound (z + 719468) 146097 ltac:(lia)). lia. }
  pose proof (era_day doe Hdoe) as H. destruct (civil_of_era doe) as [[y m] d].
  rewrite days_from_civil_era. lia.
Qed.

Lemma days_from_civil_date y m d : days_from_civil y m d = days_from_civil y m 1 + d - 1.
Proof. unfold days_from_civil. lia. Qed.

Lemma MakeDay_parts t : MakeDay (getUTCFullYear t) (getUTCMonth t) (getUTCDate t) = Day t.
Proof.
  unfold MakeDay, getUTCFullYear, getUTCMonth, getUTCDate, civil. pose proof (civil_from_days_ok (Day t)) as H.
  destruct (civil_from_days (Day t)) as [[y m] d]. simpl. destruct H as (H & Hm & Hd).
  rewrite (Z.div_small (m - 1)), (Z.mod_small (m - 1)) by lia.
  rewrite days_from_civil_date in H. replace (m - 1 + 1) with m by lia. rewrite Z.add_0_r. done.
Qed.

Lemma day_time t : t = Day t * msPerDay + TimeWithinDay t.
Proof. unfold Day, TimeWithinDay. pose proof (Z.div_mod t msPerDay ltac:(done)). lia. Qed.

Lemma MakeDay_add y m d k : MakeDay y m (d + k) = MakeDay y m d + k.
Proof. unfold MakeDay. generalize (days_from_civil (y + m / 12) (m mod 12 + 1) 1). intros x. lia. Qed.

(** Moving the date by [k] moves the time by [k] days, across months and years. *)
Lemma setUTCDate_add k t : setUTCDate (getUTCDate t + k) t = t + k * msPerDay.
Proof.
  unfold setUTCDate. rewrite MakeDay_add, MakeDay_parts, Z.mul_add_distr_r.
  rewrite <- Z.add_assoc, (Z.add_comm (k * msPerDay)), Z.add_assoc. by rewrite <- day_time.
Qed.

(** Two times fall on the same calendar date exactly when they fall on the same day. *)
Lemma same_date a b :
  (getUTCFullYear a =? getUTCFullYear b) && (getUTCMonth a =? getUTCMonth b) && (getUTCDate a =? getUTCDate b) = true
  ↔ Day a = Day b.
Proof.
  split.
  - intros H. boolify. rewrite <- (MakeDay_parts a), <- (MakeDay_parts b). congruence.
  - intros E. unfold getUTCFullYear, getUTCMonth, getUTCDate, civil. by rewrite E, !Z.eqb_refl.
Qed.

Lemma Day_add t k : Day (t + k * msPerDay) = Day t + k.
Proof. unfold Day. by rewrite Z.div_add by done. Qed.

End DateTime.
