(* ===== verification/JsBuffer.v ===== *)
(** The encodings of Node's Buffer the sources use, on byte strings: ASCII, lower-case hexadecimal, base64url, and the
    hexadecimal text of a BigInt. *)

From Stdlib Require Import Ascii String.
From S2P Require Import Prelude JsString DateTime.

Module JsBuffer.
Import JsString.

#[local] Arguments String.append !_ _ /.

Definition byte_of (z : Z) : ascii := ascii_of_N (Z.to_N z).

Fixpoint bytes (s : string) : list Z :=
  match s with EmptyString => [] | String c s => char_code c :: bytes s end.

Fixpoint of_bytes (l : list Z) : string :=
  match l with [] => EmptyString | z :: l => String (byte_of z) (of_bytes l) end.

(** [buffer.toString("ascii")]: the highest bit of each byte is unset. *)
Definition to_ascii (s : string) : string := of_bytes (map (λ z, Z.land z 127) (bytes s)).

(** ** Hexadecimal *)

Definition hex_char (d : Z) : ascii := byte_of (if d <? 10 then 48 + d else 87 + d).

Fixpoint to_hex (s : string) : string :=
  match s with
  | EmptyString => EmptyString
  | String c s => String (hex_char (char_code c / 16)) (String (hex_char (char_code c mod 16)) (to_hex s))
  end.

(** Hexadecimal digits of a non-negative integer in front of [acc]; [fuel] bounds their number. *)
Fixpoint hex_digits (fuel : nat) (n : Z) (acc : string) : string :=
  match fuel with
  | O => acc
  | S fuel =>
      let acc' := String (hex_char (n mod 16)) acc in
      if n / 16 =? 0 then acc' else hex_digits fuel (n / 16) acc'
  end.

(** [n.toString(16)] *)
Definition toString16 (n : Z) : string :=
  if n <? 0 then String "-" (hex_digits (digits_fuel (- n)) (- n) EmptyString) else hex_digits (digits_fuel n) n EmptyString.

(** ** base64url *)

Definition b64_char (v : Z) : ascii :=
  byte_of (if v <? 26 then 65 + v else if v <? 52 then 71 + v else if v <? 62 then v - 4 else if v <? 63 then 45 else 95).

(** The value of a character; the decoder takes both alphabets and skips every other character. *)
Definition sextet (c : ascii) : option Z :=
  let k := char_code c in
  if (65 <=? k) && (k <=? 90) then Some (k - 65)
  else if (97 <=? k) && (k <=? 122) then Some (k - 71)
  else if (48 <=? k) && (k <=? 57) then Some (k + 4)
  else if (k =? 45) || (k =? 43) then Some 62
  else if (k =? 95) || (k =? 47) then Some 63
  else None.

(** [buffer.toString("base64url")], without padding *)
Fixpoint base64url (s : string) : string :=
  match s with
  | EmptyString => EmptyString
  | String a EmptyString =>
      let x := char_code a in
      String (b64_char (x / 4)) (String (b64_char (x mod 4 * 16)) EmptyString)
  | String a (String b EmptyString) =>
      let x := char_code a in let y := char_code b in
      String (b64_char (x / 4)) (String (b64_char (x mod 4 * 16 + y / 16)) (String (b64_char (y mod 16 * 4)) EmptyString))
  | String a (String b (String c s)) =>
      let x := char_code a in let y := char_code b in let z := char_code c in
      String (b64_char (x / 4)) (String (b64_char (x mod 4 * 16 + y / 16))
        (String (b64_char (y mod 16 * 4 + z / 64)) (String (b64_char (z mod 64)) (base64url s))))
  end.

Fixpoint sextets (s : string) : list Z :=
  match s with
  | EmptyString => []
  | String c s => match sextet c with Some v => v :: sextets s | None => sextets s end
  end.

Fixpoint of_sextets (l : list Z) : string :=
  match l with
  | a :: b :: c :: d :: l =>
      String (byte_of (a * 4 + b / 16)) (String (byte_of (b mod 16 * 16 + c / 4)) (String (byte_of (c mod 4 * 64 + d)) (of_sextets l)))
  | [a; b; c] => String (byte_of (a * 4 + b / 16)) (String (byte_of (b mod 16 * 16 + c / 4)) EmptyString)
  | [a; b] => String (byte_of (a * 4 + b / 16)) EmptyString
  | _ => EmptyString
  end.

(** [Buffer.from(s, "base64url")] *)
Definition from_base64 (s : string) : string := of_sextets (sextets s).

(** ** Lemmas *)

Lemma char_code_range c : 0 ≤ char_code c < 256.
Proof. unfold char_code. pose proof (N_ascii_bounded c). lia. Qed.

Lemma byte_of_char_code c : byte_of (char_code c) = c.
Proof. unfold byte_of, char_code. rewrite N2Z.id. apply ascii_N_embedding. Qed.

Lemma byte_of_eq z c : z = char_code c → byte_of z = c.
Proof. intros ->. apply byte_of_char_code. Qed.

Lemma char_code_byte_of z : 0 ≤ z < 256 → char_code (byte_of z) = z.
Proof. intros H. unfold byte_of, char_code. rewrite N_ascii_embedding by lia. lia. Qed.

Lemma sextet_b64_char v : 0 ≤ v < 64 → sextet (b64_char v) = Some v.
Proof.
  intros H. assert (DateTime.all_below 64 (λ v, bool_decide (sextet (b64_char v) = Some v)) 0 = true) as Hall by (vm_compute; reflexivity).
  eapply DateTime.all_below_spec in Hall; [|split; [apply H|exact (proj2 H)]]. by apply bool_decide_eq_true in Hall.
Qed.

(** Decoding what was encoded gives the bytes back. *)
Lemma from_base64_base64url s : from_base64 (base64url s) = s.
Proof.
  unfold from_base64. induction s as [s IH] using (induction_ltof1 _ String.length). unfold ltof in IH.
  destruct s as [|a [|b [|c s]]]; [done| | |];
    pose proof (char_code_range a); try pose proof (char_code_range b); try pose proof (char_code_range c); simpl;
    rewrite !sextet_b64_char by (Z.div_mod_to_equations; lia); simpl; [| |rewrite (IH s) by (simpl; lia)];
    repeat (apply f_equal2; [apply byte_of_eq; Z.div_mod_to_equations; lia|]); done.
Qed.

Lemma digit_value_hex_char d : 0 ≤ d < 16 → digit_value 16 (hex_char d) = Some d.
Proof.
  intros H. assert (DateTime.all_below 16 (λ d, bool_decide (digit_value 16 (hex_char d) = Some d)) 0 = true) as Hall by (vm_compute; reflexivity).
  eapply DateTime.all_below_spec in Hall; [|split; [apply H|exact (proj2 H)]]. by apply bool_decide_eq_true in Hall.
Qed.

Lemma parse_hex_digits fuel n acc :
  0 ≤ n < 16 ^ Z.of_nat fuel → (fuel ≠ 0)%nat → parse_digits 16 0 (hex_digits fuel n acc) = parse_digits 16 n acc.
Proof.
  revert n acc; induction fuel as [|fuel IH]; intros n acc Hn Hf; [done|]. simpl.
  pose proof (Z.mod_pos_bound n 16 ltac:(lia)). pose proof (Z.div_mod n 16 ltac:(lia)).
  rewrite Nat2Z.inj_succ, Z.pow_succ_r in Hn by lia.
  destruct (n / 16 =? 0) eqn:E; boolify.
  - simpl. rewrite digit_value_hex_char by lia. f_equal. lia.
  - assert (0 ≤ n / 16 < 16 ^ Z.of_nat fuel).
    { split; [apply Z.div_pos; lia | apply Z.div_lt_upper_bound; lia]. }
    destruct fuel as [|fuel]; [simpl in *; lia|].
    rewrite IH by done. simpl. rewrite digit_value_hex_char by lia. f_equal. lia.
Qed.

(** The text of a BigInt in hexadecimal reads back as the number. *)
Lemma parse_toString16 n : 0 ≤ n → parse_digits 16 0 (toString16 n) = Some n.
Proof.
  intros Hn. unfold toString16. replace (n <? 0) with false by lia. rewrite parse_hex_digits; [done| |done].
  pose proof (digits_fuel_enough n Hn) as [_ Hlt]. split; [done|]. eapply Z.lt_le_trans; [exact Hlt|].
  apply Z.pow_le_mono_l. lia.
Qed.

Lemma hex_digits_append fuel n acc : hex_digits fuel n acc = String.append (hex_digits fuel n "") acc.
Proof.
  revert n acc. induction fuel as [|fuel IH]; intros n acc; simpl; [done|]. destruct (n / 16 =? 0); [done|].
  rewrite IH, (IH _ (String _ "")), append_assoc. done.
Qed.

End JsBuffer.
