(* ===== verification/Paging.v ===== *)
(** Keyset pagination, as every list endpoint of the program does it: the rows that match, in
    a total order on (timestamp, id), after the cursor of the last page; one row more than the
    page is read to see whether there is a next page, and the cursor of the next page is the
    key of the last row shown.

    [KeyOrder] is the order of the keys, [KeysetQuery] what a repository read promises to the
    service that pages through it.  The client theorem [walk_all] is proved against that
    interface; each read discharges it with [findMany_keyset].  Cursors are taken decoded; [Cursor] has
    their base64url JSON text. *)

From stdpp Require Import sorting.
From S2P Require Import Prelude.

(** ** Keys *)

Class KeyOrder (K : Type) := {
  kbefore : K → K → bool;
  kbefore_irrefl : ∀ a, kbefore a a = false;
  kbefore_trans : ∀ a b c, kbefore a b = true → kbefore b c = true → kbefore a c = true;
  kbefore_total : ∀ a b, kbefore a b = false → kbefore b a = false → a = b }.

Lemma kbefore_asym `{!KeyOrder K} (a b : K) : kbefore a b = true → kbefore b a = false.
Proof.
  intros H. destruct (kbefore b a) eqn:E; [|done]. pose proof (kbefore_trans _ _ _ H E) as F.
  by rewrite kbefore_irrefl in F.
Qed.

Lemma string_compare_trans a b c : String.compare a b = Lt → String.compare b c = Lt → String.compare a c = Lt.
Proof.
  revert b c. induction a as [|x a IH]; intros [|y b] [|z c]; simpl; try done.
  destruct (Ascii.compare x y) eqn:E1, (Ascii.compare y z) eqn:E2; try done; intros H1 H2.
  - apply Ascii.compare_eq_iff in E1, E2. subst. unfold Ascii.compare. rewrite N.compare_refl. by apply (IH b).
  - apply Ascii.compare_eq_iff in E1. subst. by rewrite E2.
  - apply Ascii.compare_eq_iff in E2. subst. by rewrite E1.
  - replace (Ascii.compare x z) with Lt; [done|]. symmetry.
    unfold Ascii.compare in *. rewrite N.compare_lt_iff in *. lia.
Qed.

Lemma ltb_lt a b : String.ltb a b = true ↔ String.compare a b = Lt.
Proof. unfold String.ltb. by destruct (String.compare a b). Qed.

Lemma string_ltb_trans a b c : String.ltb a b = true → String.ltb b c = true → String.ltb a c = true.
Proof. rewrite !ltb_lt. apply string_compare_trans. Qed.

Lemma string_ltb_irrefl a : String.ltb a a = false.
Proof.
  unfold String.ltb. induction a as [|x a IH]; simpl; [done|]. unfold Ascii.compare. by rewrite N.compare_refl.
Qed.

Lemma string_ltb_total a b : String.ltb a b = false → String.ltb b a = false → a = b.
Proof.
  unfold String.ltb. rewrite (String.compare_antisym b a). destruct (String.compare a b) eqn:E; try done.
  intros _ _. by apply String.compare_eq_iff.
Qed.

(** [orderBy: [{ createdAt: "desc" }, { id: "desc" }]]; a row comes after the cursor [c] when
    [createdAt < c.createdAt], or they are equal and [id < c.id]. *)
Definition newest_first (a b : Z * string) : bool :=
  (b.1 <? a.1) || ((b.1 =? a.1) && String.ltb b.2 a.2).

Lemma newest_first_irrefl a : newest_first a a = false.
Proof. destruct a as [t i]. unfold newest_first. simpl. by rewrite Z.ltb_irrefl, string_ltb_irrefl, andb_false_r. Qed.
Lemma newest_first_trans a b c : newest_first a b = true → newest_first b c = true → newest_first a c = true.
Proof.
  destruct a as [t i], b as [u j], c as [v k]. unfold newest_first. simpl. rewrite !orb_true_iff, !andb_true_iff, !Z.ltb_lt, !Z.eqb_eq.
  intros [H1|[H1 S1]] [H2|[H2 S2]]; try (left; lia). right. split; [lia|]. by apply (string_ltb_trans _ j).
Qed.
Lemma newest_first_total a b : newest_first a b = false → newest_first b a = false → a = b.
Proof.
  destruct a as [t i], b as [u j]. unfold newest_first. simpl. intros H1 H2. boolify. assert (t = u) as -> by lia.
  rewrite Z.eqb_refl in *. simpl in *. f_equal. by apply string_ltb_total.
Qed.

#[export] Instance newest_first_order : KeyOrder (Z * string) :=
  {| kbefore := newest_first; kbefore_irrefl := newest_first_irrefl; kbefore_trans := newest_first_trans;
     kbefore_total := newest_first_total |}.

(** [orderBy: [{ activatedAt: { sort: "desc", nulls: "last" } }, { id: "desc" }]] *)
Definition nulls_last (a b : option Z * string) : bool :=
  match a.1, b.1 with
  | Some t, Some u => newest_first (t, a.2) (u, b.2)
  | Some _, None => true
  | None, Some _ => false
  | None, None => String.ltb b.2 a.2
  end.

Lemma nulls_last_irrefl a : nulls_last a a = false.
Proof. destruct a as [[t|] i]; [apply (newest_first_irrefl (t, i))|apply string_ltb_irrefl]. Qed.

Lemma nulls_last_trans a b c : nulls_last a b = true → nulls_last b c = true → nulls_last a c = true.
Proof.
  destruct a as [[t|] i], b as [[u|] j], c as [[v|] k]; unfold nulls_last; simpl; try done.
  - apply (newest_first_trans (t, i) (u, j) (v, k)).
  - intros H1 H2. by apply (string_ltb_trans _ j).
Qed.

Lemma nulls_last_total a b : nulls_last a b = false → nulls_last b a = false → a = b.
Proof.
  destruct a as [[t|] i], b as [[u|] j]; unfold nulls_last; simpl; try done; intros H1 H2.
  - by pose proof (newest_first_total (t, i) (u, j) H1 H2) as [= -> ->].
  - f_equal. by apply string_ltb_total.
Qed.

#[export] Instance nulls_last_order : KeyOrder (option Z * string) :=
  {| kbefore := nulls_last; kbefore_irrefl := nulls_last_irrefl; kbefore_trans := nulls_last_trans;
     kbefore_total := nulls_last_total |}.

(** ** Sorting by a key *)

Section Sorting.
Context {A K : Type} `{!KeyOrder K} (key : A → K).

Definition by_key (a b : A) : bool := kbefore (key a) (key b).
Definition ordered : list A → Prop := StronglySorted (λ a b, by_key a b = true).

Lemma in_insert_by x y l : In y (insert_by by_key x l) ↔ y = x ∨ In y l.
Proof. induction l as [|z l IH]; simpl; [naive_solver|]. destruct (by_key z x); simpl; rewrite ?IH; naive_solver. Qed.

Lemma in_order_by y l : In y (order_by by_key l) ↔ In y l.
Proof. induction l as [|x l IH]; simpl; [done|]. rewrite in_insert_by, IH. naive_solver. Qed.

Lemma ordered_insert x l : ordered l → ¬ In (key x) (map key l) → ordered (insert_by by_key x l).
Proof.
  induction 1 as [|y l Hl IH Hy]; simpl; intros Hx; [by repeat constructor|].
  destruct (by_key y x) eqn:E; constructor; [|rewrite List.Forall_forall in *|by constructor|].
  - apply IH. tauto.
  - intros z [->|Hz]%in_insert_by; auto.
  - assert (by_key x y = true) as Hxy.
    { destruct (by_key x y) eqn:F; [done|]. exfalso. apply Hx. left. by apply kbefore_total. }
    constructor; [done|]. eapply List.Forall_impl; [|exact Hy]. intros z Hz. by apply (kbefore_trans _ (key y)).
Qed.

Lemma ordered_order_by l : List.NoDup (map key l) → ordered (order_by by_key l).
Proof.
  induction l as [|x l IH]; simpl; [constructor|]. rewrite List.NoDup_cons_iff. intros [Hx Hl].
  apply ordered_insert; [by apply IH|]. rewrite in_map_iff in *. intros (y & Hy & Hin). apply Hx.
  exists y. by rewrite in_order_by in Hin.
Qed.

Lemma insert_by_first x l : (∀ y, In y l → by_key x y = true) → insert_by by_key x l = x :: l.
Proof. destruct l as [|y l]; [done|]. intros H. simpl. unfold by_key at 1. by rewrite (kbefore_asym _ _ (H y (or_introl eq_refl))). Qed.

Lemma filter_insert q x l : ordered l → ¬ In (key x) (map key l) →
  List.filter q (insert_by by_key x l) =
    if q x then insert_by by_key x (List.filter q l) else List.filter q l.
Proof.
  induction 1 as [|y l Hl IH Hy]; simpl; intros Hx; [by destruct (q x)|].
  destruct (by_key y x) eqn:E; simpl.
  - rewrite IH by tauto. destruct (q x), (q y); simpl; by rewrite ?E.
  - destruct (q x) eqn:Ex; [|done]. destruct (q y) eqn:Ey; simpl; [by rewrite E|].
    rewrite insert_by_first; [done|]. intros z [Hz _]%filter_In. rewrite List.Forall_forall in Hy.
    apply (kbefore_trans _ (key y)); [|by apply Hy].
    destruct (kbefore (key x) (key y)) eqn:F; [done|]. exfalso. apply Hx. left. by apply kbefore_total.
Qed.

Lemma filter_order_by q l : List.NoDup (map key l) →
  List.filter q (order_by by_key l) = order_by by_key (List.filter q l).
Proof.
  induction l as [|x l IH]; simpl; [done|]. rewrite List.NoDup_cons_iff. intros [Hx Hl].
  rewrite filter_insert; [|by apply ordered_order_by|].
  - rewrite IH by done. by destruct (q x).
  - rewrite in_map_iff in *. intros (y & Hy & Hin). apply Hx. exists y. by rewrite in_order_by in Hin.
Qed.

Lemma ordered_nodup l : ordered l → List.NoDup (map key l).
Proof.
  induction 1 as [|x l _ IH Hx]; simpl; constructor; [|done]. rewrite List.Forall_forall in Hx.
  intros (y & E & Hy)%in_map_iff. specialize (Hx y Hy). unfold by_key in Hx. by rewrite E, kbefore_irrefl in Hx.
Qed.

(** What the WHERE clause of a cursor leaves of the ordered rows. *)
Lemma filter_after l1 x l2 : ordered (l1 ++ x :: l2) →
  List.filter (λ r, kbefore (key x) (key r)) (l1 ++ x :: l2) = l2.
Proof.
  induction l1 as [|y l1 IH]; simpl; intros H; apply StronglySorted_inv in H as [H Hx].
  - rewrite kbefore_irrefl. clear H. induction Hx as [|z l Hz _ IH]; simpl; [done|].
    unfold by_key in Hz. by rewrite Hz, IH.
  - rewrite List.Forall_app in Hx. destruct Hx as [_ Hx]. apply List.Forall_cons_iff in Hx as [Hx _].
    unfold by_key in Hx. rewrite (kbefore_asym _ _ Hx). by apply IH.
Qed.

End Sorting.

Lemma insert_by_length {A} (before : A → A → bool) x l : length (insert_by before x l) = S (length l).
Proof. induction l as [|y l IH]; simpl; [done|]. destruct (before y x); simpl; [by rewrite IH | done]. Qed.

Lemma order_by_length {A} (before : A → A → bool) l : length (order_by before l) = length l.
Proof. induction l as [|x l IH]; simpl; [done|]. by rewrite insert_by_length, IH. Qed.

(** ** The interface *)

Definition after_cursor {K} `{!KeyOrder K} (after : option K) (k : K) : bool :=
  match after with None => true | Some c => kbefore c k end.

(** [fetch limit after] answers, of the rows [all] in the order of their keys, the first
    [limit] that come after the cursor. *)
Class KeysetQuery {B K} `{!KeyOrder K} (fetch : nat → option K → list B) (key : B → K) (all : list B) : Prop := {
  ks_ordered : ordered key all;
  ks_fetch : ∀ limit after, fetch limit after = take limit (List.filter (λ b, after_cursor after (key b)) all) }.

(** A findMany with a WHERE clause, a cursor, ORDER BY and [take]. *)
Definition findMany {A K} `{!KeyOrder K} (key : A → K) (where_ : A → bool) (rows : list A) (limit : nat)
    (after : option K) : list A :=
  take limit (order_by (by_key key) (List.filter (λ r, where_ r && after_cursor after (key r)) rows)).

Definition found {A K} `{!KeyOrder K} (key : A → K) (where_ : A → bool) (rows : list A) : list A :=
  order_by (by_key key) (List.filter where_ rows).

Lemma filter_filter {A} (p q : A → bool) l :
  List.filter p (List.filter q l) = List.filter (λ x, q x && p x) l.
Proof. induction l as [|x l IH]; simpl; [done|]. destruct (q x); simpl; [destruct (p x)|]; by rewrite ?IH. Qed.

Lemma filter_map {A B} (f : A → B) (q : B → bool) l :
  List.filter q (map f l) = map f (List.filter (λ x, q (f x)) l).
Proof. induction l as [|x l IH]; simpl; [done|]. destruct (q (f x)); simpl; by rewrite IH. Qed.

Lemma findMany_after {A K} `{!KeyOrder K} (key : A → K) where_ rows limit after :
  List.NoDup (map key rows) →
  findMany key where_ rows limit after =
    take limit (List.filter (λ r, after_cursor after (key r)) (found key where_ rows)).
Proof.
  intros Hnd. unfold findMany, found. rewrite filter_order_by by by apply NoDup_map_filter.
  by rewrite filter_filter.
Qed.

Lemma ordered_map {A B K} `{!KeyOrder K} (f : A → B) (kb : B → K) (ka : A → K) l :
  (∀ x, kb (f x) = ka x) → ordered ka l → ordered kb (map f l).
Proof.
  intros E. induction 1 as [|x l _ IH Hx]; simpl; constructor; [done|].
  rewrite List.Forall_forall in *. intros y (z & <- & Hz)%in_map_iff. unfold by_key in *. rewrite !E. by apply Hx.
Qed.

(** Every findMany over rows with distinct keys, followed by a projection that keeps the key,
    keeps the promise. *)
Lemma findMany_keyset {A B K} `{!KeyOrder K} (key : A → K) (project : A → B) (kb : B → K) where_ rows :
  List.NoDup (map key rows) → (∀ r, kb (project r) = key r) →
  KeysetQuery (λ limit after, map project (findMany key where_ rows limit after)) kb
    (map project (found key where_ rows)).
Proof.
  intros Hnd E. split.
  - apply (ordered_map _ _ key); [done|]. by apply ordered_order_by, NoDup_map_filter.
  - intros limit after. rewrite findMany_after, filter_map, <- firstn_map by done. f_equal. f_equal.
    apply filter_ext. intros r. by rewrite E.
Qed.

(** ** The services *)

Record Page (B K : Type) := mkPage { page_data : list B; next_cursor : option K }.
Arguments mkPage {B K}.
Arguments page_data {B K}.
Arguments next_cursor {B K}.

(** The lines every list service shares: [rows] holds one row more than [limit] when there is
    a next page. *)
Definition paginate {B C K} (key : B → K) (respond : B → C) (limit : nat) (rows : list B) : Page C K :=
  let hasNextPage := (limit <? length rows)%nat in
  let pageRows := if hasNextPage then take limit rows else rows in
  mkPage (map respond pageRows) (if hasNextPage then key <$> last pageRows else None).

(** A client that follows the cursors to the end: [None] when [fuel] pages were not enough. *)
Fixpoint walk {C K} (fuel : nat) (page : option K → Page C K) (after : option K) : option (list C) :=
  match fuel with
  | O => None
  | S fuel =>
      let p := page after in
      match next_cursor p with
      | None => Some (page_data p)
      | Some c => (λ rest, page_data p ++ rest) <$> walk fuel page (Some c)
      end
  end.

Section Walk.
Context {B C K : Type} `{!KeyOrder K} (fetch : nat → option K → list B) (key : B → K) (all : list B)
  `{!KeysetQuery fetch key all} (respond : B → C) (limit : nat) (Hlimit : (1 <= limit)%nat).

Definition service_page (after : option K) : Page C K := paginate key respond limit (fetch (limit + 1)%nat after).

Lemma service_page_rest after rest :
  List.filter (λ b, after_cursor after (key b)) all = rest →
  service_page after =
    if (length rest <=? limit)%nat then mkPage (map respond rest) None
    else mkPage (map respond (take limit rest)) (key <$> last (take limit rest)).
Proof.
  intros E. unfold service_page, paginate. rewrite ks_fetch, E, length_take.
  destruct (length rest <=? limit)%nat eqn:F.
  - apply Nat.leb_le in F. replace (limit <? (limit + 1) `min` length rest)%nat with false by (symmetry; apply Nat.ltb_ge; lia).
    by rewrite take_ge by lia.
  - apply Nat.leb_gt in F. replace (limit <? (limit + 1) `min` length rest)%nat with true by (symmetry; apply Nat.ltb_lt; lia).
    by rewrite take_take, Nat.min_l by lia.
Qed.

(** the last row of a full page splits the rest *)
Lemma page_split (rest : list B) : (limit < length rest)%nat →
  ∃ l x, take limit rest = l ++ [x] ∧ rest = l ++ x :: drop limit rest.
Proof.
  intros H. assert (∃ x, rest !! (limit - 1)%nat = Some x) as (x & Hx).
  { apply lookup_lt_is_Some. lia. }
  exists (take (limit - 1) rest), x. pose proof (take_S_r _ _ _ Hx) as E.
  replace (S (limit - 1)) with limit in E by lia. split; [done|].
  rewrite <- (take_drop limit rest) at 1. by rewrite E, <- app_assoc.
Qed.

Lemma walk_suffix n : ∀ rest fuel l after, length rest = n → all = l ++ rest →
  List.filter (λ b, after_cursor after (key b)) all = rest → (length rest < fuel)%nat →
  walk fuel service_page after = Some (map respond rest).
Proof.
  induction n as [n IH] using lt_wf_ind. intros rest [|fuel] l after Hn Hall Hrest Hfuel; [lia|].
  cbn [walk]. rewrite (service_page_rest after rest Hrest). destruct (length rest <=? limit)%nat eqn:F; [done|].
  apply Nat.leb_gt in F. destruct (page_split rest F) as (m & x & Ht & Hr). simpl. rewrite Ht, last_snoc. cbn [fmap option_fmap option_map].
  assert (length (drop limit rest) < length rest)%nat by (rewrite length_drop; lia).
  rewrite (IH (length (drop limit rest)) ltac:(lia) (drop limit rest) fuel (l ++ m ++ [x])); [..|lia].
  - simpl. f_equal. rewrite <- Ht, <- map_app. by rewrite take_drop.
  - done.
  - rewrite Hall, Hr at 1. by rewrite <- !app_assoc.
  - simpl. rewrite Hall, Hr at 1. rewrite app_assoc. apply filter_after. rewrite <- app_assoc, <- Hr, <- Hall.
    apply ks_ordered.
Qed.

(** Following the cursors shows every row once, in order, and ends. *)
Lemma walk_all fuel : (length all < fuel)%nat → walk fuel service_page None = Some (map respond all).
Proof.
  intros H. apply (walk_suffix (length all) all fuel []); [done..| |done].
  apply forallb_filter_id. clear. by induction all.
Qed.

End Walk.
