(* ===== verification/IntakePolicy.v ===== *)
(** Intake decisions: case-review.policy.ts, case-submission.policy.ts, intake-entry.policy.ts,
    intake-reversal.policy.ts and intake-workflow.catalog.ts of
    src/src/modules/intake/domain. *)

From S2P Require Import Prelude DateTime.

Module IntakePolicy.
Import DateTime.

(** ** Stages *)

Inductive Stage :=
  | draft | submitted | waiting_on_applicant | pre_offering_open | post_ipo_structuring
  | approved_for_final_offering | rejected | withdrawn | expired.
#[global] Instance Stage_eq_dec : EqDecision Stage.
Proof. solve_decision. Defined.

Inductive WorkflowType :=
  | draft_submission | operations_review | applicant_information | ipo | wf_post_ipo_structuring
  | final_offering | terminal.

Record Workflow := mkWorkflow { wf_type : WorkflowType; wf_label : string; wf_terminal : bool }.

Definition getIntakeWorkflowForStage (stage : Stage) : Workflow :=
  match stage with
  | draft => mkWorkflow draft_submission "Draft submission" false
  | submitted => mkWorkflow operations_review "Operations review" false
  | waiting_on_applicant => mkWorkflow applicant_information "Applicant information" false
  | pre_offering_open => mkWorkflow ipo "IPO" false
  | post_ipo_structuring => mkWorkflow wf_post_ipo_structuring "Post-IPO structuring" false
  | approved_for_final_offering => mkWorkflow final_offering "Final offering" false
  | rejected => mkWorkflow terminal "Rejected" true
  | withdrawn => mkWorkflow terminal "Withdrawn" true
  | expired => mkWorkflow terminal "Expired" true
  end.

(** ** Review *)

Inductive PublicationRefusal := invalid_stage | missing_revision | active_request_exists.

(** [None] is allowed. *)
Definition evaluateInformationRequestPublication (stage : Stage) (hasCurrentRevision hasActiveRequest : bool)
    : option PublicationRefusal :=
  if negb (bool_decide (stage = submitted)) then Some invalid_stage
  else if negb hasCurrentRevision then Some missing_revision
  else if hasActiveRequest then Some active_request_exists
  else None.

Inductive RequestStatus := proposed | published | answered | request_withdrawn | request_expired.
#[global] Instance RequestStatus_eq_dec : EqDecision RequestStatus.
Proof. solve_decision. Defined.

Definition canWithdrawInformationRequest (caseStage : Stage) (requestStatus : RequestStatus) : bool :=
  bool_decide (caseStage = waiting_on_applicant) && bool_decide (requestStatus = published).

Definition canRecordFounderDecision (stage : Stage) (hasCurrentRevision : bool) : bool :=
  bool_decide (stage = submitted) && hasCurrentRevision.

Inductive CaseClosureOutcome := close_withdrawn | close_rejected.

Definition closableFromStage (outcome : CaseClosureOutcome) : list Stage :=
  match outcome with
  | close_withdrawn => [draft; submitted; waiting_on_applicant; pre_offering_open]
  | close_rejected => [pre_offering_open]
  end.

Definition canCloseCase (stage : Stage) (outcome : CaseClosureOutcome) : bool :=
  existsb (λ s, bool_decide (s = stage)) (closableFromStage outcome).

Definition canAssignPartnerOrganization (stage : Stage) : bool :=
  existsb (λ s, bool_decide (s = stage)) [post_ipo_structuring; approved_for_final_offering].

Definition canRecordPartnerWriteback (stage : Stage) : bool := bool_decide (stage = post_ipo_structuring).

(** The body of [while (remaining > 0)]; every business day takes at most three turns. *)
Fixpoint business_day_loop (fuel : nat) (result remaining : Z) : option Z :=
  if remaining <=? 0 then Some result
  else
    match fuel with
    | O => None
    | S fuel =>
        let result := setUTCDate (getUTCDate result + 1) result in
        let day := getUTCDay result in
        business_day_loop fuel result
          (if negb (day =? 0) && negb (day =? 6) then remaining - 1 else remaining)
    end.

Definition addBusinessDays (start businessDays : Z) : result Z :=
  if businessDays <? 1 then Err (Thrown "Business-day duration must be a positive integer")
  else match business_day_loop (3 * Z.to_nat businessDays) start businessDays with
       | Some r => Ok r
       | None => Err (Thrown "out of fuel")
       end.

Definition isInformationRequestOverdue (dueAt now : Z) : bool := dueAt <? now.

Definition isSameUtcDate (a b : Z) : bool :=
  (getUTCFullYear a =? getUTCFullYear b) && (getUTCMonth a =? getUTCMonth b) && (getUTCDate a =? getUTCDate b).

(** [some] stops at the first hit, so a bad milestone after it is not reached. *)
Fixpoint isApplicantReminderDue (publishedAt today : Z) (reminderBusinessDays : list Z) : result bool :=
  match reminderBusinessDays with
  | [] => Ok false
  | days :: rest =>
      let! due := addBusinessDays publishedAt days in
      if isSameUtcDate due today then Ok true else isApplicantReminderDue publishedAt today rest
  end.

(** ** Submission *)

Definition requiredInitialEvidenceTypes : list string :=
  ["ownership_declaration"; "property_facts_sheet"; "encumbrance_declaration"; "photo_set"].

Definition submissionEvidenceTypes : list string :=
  requiredInitialEvidenceTypes ++
  ["registry_extract"; "title_instrument"; "cadastral_map"; "power_of_attorney"; "name_change_evidence";
   "occupancy_evidence"; "succession_evidence"].

Inductive SubmissionRefusal :=
  | sub_invalid_stage | already_has_revision | missing_evidence (missing : list string) | duplicate_evidence.

Definition evaluateRequiredEvidence (documentTypes : list string) : option SubmissionRefusal :=
  if negb (Nat.eqb (length (remove_dups documentTypes)) (length documentTypes)) then Some duplicate_evidence
  else
    let missing := List.filter (λ t, negb (bool_decide (t ∈ documentTypes))) requiredInitialEvidenceTypes in
    match missing with [] => None | _ => Some (missing_evidence missing) end.

Definition evaluateInitialCaseSubmission (stage : Stage) (hasCurrentRevision : bool) (documentTypes : list string)
    : option SubmissionRefusal :=
  if negb (bool_decide (stage = draft)) then Some sub_invalid_stage
  else if hasCurrentRevision then Some already_has_revision
  else evaluateRequiredEvidence documentTypes.

Definition evaluateCaseResubmission (stage : Stage) (hasCurrentRevision : bool) (requestStatus : RequestStatus)
    (documentTypes : list string) : option SubmissionRefusal :=
  if negb (bool_decide (stage = waiting_on_applicant)) || negb hasCurrentRevision then Some sub_invalid_stage
  else if negb (bool_decide (requestStatus = published)) then Some sub_invalid_stage
  else evaluateRequiredEvidence documentTypes.

(** ** Entry *)

Record IntakeEntryPolicyInput := mkEntry {
  eligibilityState : string; proofOfAddressCurrentUntil : option Z; now : Z; declaredValueCents : Z;
  minimumValueCents : Z; intakeTermsAccepted : bool; oneTitleConfirmed : bool; propertyType : string }.

Inductive EntryRefusal :=
  | kyc_not_eligible | proof_of_address_required | terms_not_accepted | one_title_required | residential_only
  | property_value_below_minimum.

Definition evaluateIntakeEntry (input : IntakeEntryPolicyInput) : option EntryRefusal :=
  if negb (bool_decide (eligibilityState input = "eligible")) then Some kyc_not_eligible
  else if match proofOfAddressCurrentUntil input with None => true | Some u => u <=? now input end
    then Some proof_of_address_required
  else if negb (intakeTermsAccepted input) then Some terms_not_accepted
  else if negb (oneTitleConfirmed input) then Some one_title_required
  else if negb (bool_decide (propertyType input = "residential")) then Some residential_only
  else if declaredValueCents input <? minimumValueCents input then Some property_value_below_minimum
  else None.

(** ** Reversal *)

Inductive ReversalCommand :=
  | return_to_draft | withdraw_information_request | reopen_pre_offering | reopen_structuring
  | reopen_final_offering_review.
#[global] Instance ReversalCommand_eq_dec : EqDecision ReversalCommand.
Proof. solve_decision. Defined.

Record Transition := mkTransition { eventId : string; fromStage : Stage; toStage : Stage }.

Record OfferingSnapshot := mkOfferingSnapshot {
  offeringId : string; status : string; finalOfferingPublishedAt : option Z; reservationCount : nat; fundedReservationCount : nat;
  disclosurePackPublished : bool; reconfirmationOpen : bool; finalizedReservationCount : nat }.

Record ReversalSnapshot := mkSnapshot {
  stage : Stage; workflowEventSequence : Z; latestTransition : option Transition; latestTransitionReversed : bool;
  activeInformationRequest : bool; offering : option OfferingSnapshot; legalExecutionCompleted : bool;
  appraisalCompleted : bool; correctionInProgress : bool }.

Inductive ExecutionMode := synchronous | asynchronous.

Record ReversalAction := mkAction {
  command : ReversalCommand; targetStage : Stage; label : string; requiresSecondApproval : bool;
  executionMode : ExecutionMode; impactSummary : string; blockers : list string }.

Definition blocker (b : bool) (name : string) : list string := if b then [name] else [].
Definition is_set {A} (o : option A) : bool := match o with Some _ => true | None => false end.
Definition some_of (n : nat) : bool := (0 <? n)%nat.

Definition terminal_stage (s : Stage) : bool :=
  existsb (λ t, bool_decide (t = s)) [rejected; withdrawn; expired].

Definition final_terms (o : option OfferingSnapshot) : bool :=
  match o with Some o => is_set (finalOfferingPublishedAt o) | None => false end.
Definition reconfirming (o : option OfferingSnapshot) : bool :=
  match o with Some o => reconfirmationOpen o | None => false end.
Definition finalized_some (o : option OfferingSnapshot) : bool :=
  match o with Some o => some_of (finalizedReservationCount o) | None => false end.

Definition pre_offering_blockers (o : option OfferingSnapshot) : list string :=
  match o with
  | None => ["offering_missing"]
  | Some f =>
      blocker (some_of (reservationCount f)) "reservations_exist" ++
      blocker (some_of (fundedReservationCount f)) "funding_exists" ++
      blocker (disclosurePackPublished f) "disclosure_pack_published" ++
      blocker (is_set (finalOfferingPublishedAt f)) "final_terms_published" ++
      blocker (reconfirmationOpen f) "reconfirmation_open" ++
      blocker (some_of (finalizedReservationCount f)) "offering_finalized"
  end.

Definition late_blockers (o : option OfferingSnapshot) : list string :=
  blocker (final_terms o) "final_terms_published" ++ blocker (reconfirming o) "reconfirmation_open" ++
  blocker (finalized_some o) "offering_finalized".

Definition evaluateReversalActions (s : ReversalSnapshot) : list ReversalAction :=
  if correctionInProgress s || latestTransitionReversed s || terminal_stage (stage s) then []
  else
    List.filter (λ a, match blockers a with [] => true | _ => false end)
      ((if bool_decide (stage s = submitted) && bool_decide (option_map toStage (latestTransition s) = Some submitted) &&
           negb (activeInformationRequest s) && negb (is_set (offering s))
        then [mkAction return_to_draft draft "Return to draft" false synchronous
              "The current submission is preserved and the case returns to draft for correction."
              []] else []) ++
       (if bool_decide (stage s = waiting_on_applicant) && activeInformationRequest s
        then [mkAction withdraw_information_request submitted "Withdraw information request" false synchronous
              "The active request will be withdrawn and the case returns to review."
              []] else []) ++
       (if bool_decide (stage s = pre_offering_open)
        then [mkAction reopen_pre_offering submitted "Reopen review" true asynchronous
              "The provisional offering will be suspended and the case returns to founder review."
              (pre_offering_blockers (offering s))] else []) ++
       (if bool_decide (stage s = post_ipo_structuring)
        then [mkAction reopen_structuring pre_offering_open "Reopen structuring" true asynchronous
              "Partner completion will be reopened and the case returns to the IPO workflow."
                (late_blockers (offering s) ++ blocker (legalExecutionCompleted s) "legal_execution_completed" ++
                 blocker (appraisalCompleted s) "appraisal_completed")] else []) ++
       (if bool_decide (stage s = approved_for_final_offering)
        then [mkAction reopen_final_offering_review post_ipo_structuring "Reopen final-offering review" true asynchronous
              "Structuring completion will be reopened before final terms publication."
              (late_blockers (offering s))]
        else [])).

Definition getReversalAction (s : ReversalSnapshot) (c : ReversalCommand) : option ReversalAction :=
  find_row (λ a, bool_decide (command a = c)) (evaluateReversalActions s).

(** ** Business days *)

Definition is_business_day (t : Z) : bool := negb (getUTCDay t =? 0) && negb (getUTCDay t =? 6).

(** The business days among the [k] days after [t]. *)
Fixpoint business_days (t : Z) (k : nat) : Z :=
  match k with
  | O => 0
  | S k => business_days t k + (if is_business_day (t + Z.of_nat (S k) * msPerDay) then 1 else 0)
  end.

Lemma loop_step fuel t r : 0 < r →
  business_day_loop (S fuel) t r =
    business_day_loop fuel (t + msPerDay) (if is_business_day (t + msPerDay) then r - 1 else r).
Proof.
  intros Hr. cbn [business_day_loop]. replace (r <=? 0) with false by lia.
  rewrite setUTCDate_add, Z.mul_1_l. done.
Qed.

Lemma loop_done fuel t r : r ≤ 0 → business_day_loop fuel t r = Some t.
Proof. intros Hr. destruct fuel; cbn [business_day_loop]; by replace (r <=? 0) with true by lia. Qed.

Lemma loop_mono fuel : ∀ t r x more, business_day_loop fuel t r = Some x → business_day_loop (fuel + more) t r = Some x.
Proof.
  induction fuel as [|fuel IH]; intros t r x more H; destruct (Z_le_gt_dec r 0) as [Hr|Hr].
  - by rewrite loop_done in * by done.
  - cbn [business_day_loop] in H. by replace (r <=? 0) with false in H by lia.
  - by rewrite loop_done in * by done.
  - rewrite Nat.add_succ_l, loop_step in * by lia. by apply IH.
Qed.

Lemma next_weekday t : getUTCDay (t + msPerDay) = (getUTCDay t + 1) mod 7.
Proof.
  unfold getUTCDay. pose proof (Day_add t 1) as H. rewrite Z.mul_1_l in H. rewrite H.
  rewrite Zplus_mod_idemp_l. f_equal. lia.
Qed.

Lemma weekday_range t : 0 ≤ getUTCDay t < 7.
Proof. apply Z.mod_pos_bound. lia. Qed.

(** A business day follows within three days, with only weekend days before it. *)
Lemma next_business_day t : ∃ j : nat, (1 <= j <= 3)%nat ∧ is_business_day (t + Z.of_nat j * msPerDay) = true ∧
  ∀ i : nat, (1 <= i < j)%nat → is_business_day (t + Z.of_nat i * msPerDay) = false.
Proof.
  pose proof (weekday_range t) as Hr. unfold is_business_day.
  assert (∀ i : nat, (i <= 3)%nat → getUTCDay (t + Z.of_nat i * msPerDay) = (getUTCDay t + Z.of_nat i) mod 7) as Hd.
  { intros i _. unfold getUTCDay. rewrite Day_add, Zplus_mod_idemp_l. f_equal. lia. }
  destruct (decide (getUTCDay t = 5)) as [E|]; [|destruct (decide (getUTCDay t = 6)) as [E|]].
  - exists 3%nat. split; [lia|]. split; [by rewrite Hd, E by lia|].
    intros i Hi. assert (i = 1%nat ∨ i = 2%nat) as [->| ->] by lia; by rewrite Hd, E by lia.
  - exists 2%nat. split; [lia|]. split; [by rewrite Hd, E by lia|].
    intros i Hi. assert (i = 1%nat) as -> by lia. by rewrite Hd, E by lia.
  - exists 1%nat. split; [lia|]. split; [|lia]. rewrite Hd by lia.
    assert (getUTCDay t = 0 ∨ getUTCDay t = 1 ∨ getUTCDay t = 2 ∨ getUTCDay t = 3 ∨ getUTCDay t = 4) as H by lia.
    by destruct H as [-> |[-> |[-> |[-> | ->]]]].
Qed.

Lemma loop_weekend t r : ∀ j fuel, (∀ i : nat, (1 <= i <= j)%nat → is_business_day (t + Z.of_nat i * msPerDay) = false) →
  0 < r → business_day_loop (j + fuel) t r = business_day_loop fuel (t + Z.of_nat j * msPerDay) r.
Proof.
  induction j as [|j IH]; intros fuel H Hr; [by rewrite Z.mul_0_l, Z.add_0_r|].
  replace (S j + fuel)%nat with (j + S fuel)%nat by lia.
  rewrite IH by (done || (intros i Hi; apply H; lia)). rewrite loop_step by done.
  replace (t + Z.of_nat j * msPerDay + msPerDay) with (t + Z.of_nat (S j) * msPerDay) by (unfold msPerDay; lia).
  by rewrite H by lia.
Qed.

Lemma business_days_add t a b :
  business_days t (a + b) = business_days t a + business_days (t + Z.of_nat a * msPerDay) b.
Proof.
  induction b as [|b IH]; [rewrite Nat.add_0_r; cbn [business_days]; lia|]. rewrite Nat.add_succ_r. cbn [business_days]. rewrite IH.
  replace (t + Z.of_nat a * msPerDay + Z.of_nat (S b) * msPerDay) with (t + Z.of_nat (S (a + b)) * msPerDay)
    by (unfold msPerDay; lia). lia.
Qed.

Lemma business_days_none t k :
  (∀ i : nat, (1 <= i <= k)%nat → is_business_day (t + Z.of_nat i * msPerDay) = false) → business_days t k = 0.
Proof.
  induction k as [|k IH]; intros H; [done|]. cbn [business_days]. rewrite IH by (intros; apply H; lia).
  by rewrite H by lia.
Qed.

Lemma loop_counts n : ∀ t, ∃ k : nat, (k <= 3 * n)%nat ∧
  business_day_loop (3 * n) t (Z.of_nat n) = Some (t + Z.of_nat k * msPerDay) ∧
  business_days t k = Z.of_nat n ∧ ((0 < n)%nat → is_business_day (t + Z.of_nat k * msPerDay) = true ∧ (0 < k)%nat).
Proof.
  induction n as [|n IH]; intros t.
  { exists 0%nat. rewrite loop_done by lia. split_and!; [lia| |done|lia]. by rewrite Z.mul_0_l, Z.add_0_r. }
  destruct (next_business_day t) as (j & Hj & Hb & Hw).
  destruct (IH (t + Z.of_nat j * msPerDay)) as (k & Hk & Hl & Hc & Hlast).
  assert (t + Z.of_nat j * msPerDay + Z.of_nat k * msPerDay = t + Z.of_nat (j + k) * msPerDay) as E
    by (unfold msPerDay; lia).
  exists (j + k)%nat. split; [lia|]. split_and!.
  - replace (3 * S n)%nat with ((j - 1) + S (3 * n + (3 - j)))%nat by lia.
    rewrite loop_weekend by (lia || (intros i Hi; apply Hw; lia)). rewrite loop_step by lia.
    replace (t + Z.of_nat (j - 1) * msPerDay + msPerDay) with (t + Z.of_nat j * msPerDay) by (unfold msPerDay; lia).
    rewrite Hb. replace (Z.of_nat (S n) - 1) with (Z.of_nat n) by lia. rewrite <- E. by apply loop_mono.
  - rewrite business_days_add, Hc. destruct j as [|j]; [lia|]. cbn [business_days].
    rewrite business_days_none by (intros i Hi; apply Hw; lia). rewrite Hb. lia.
  - intros _. rewrite <- E. split; [|lia]. destruct n as [|n]; [|by apply Hlast; lia].
    assert (k = 0%nat) as -> by lia. by rewrite Z.mul_0_l, Z.add_0_r.
Qed.

(** ** Claims *)

(** C22: Adding business days counts working days exactly.  For a positive count the loop
    terminates and moves the date by a whole number of days: to a working day, with exactly
    that many working days from the day after the start to the result, whatever weekday,
    month or year the start falls in. *)
Theorem addBusinessDays_counts start n : 1 ≤ n →
  ∃ k : nat, addBusinessDays start n = Ok (start + Z.of_nat k * msPerDay) ∧ (0 < k)%nat ∧ Z.of_nat k ≤ 3 * n ∧
    is_business_day (start + Z.of_nat k * msPerDay) = true ∧ business_days start k = n.
Proof.
  intros Hn. destruct (loop_counts (Z.to_nat n) start) as (k & Hk & Hl & Hc & Hlast).
  rewrite Z2Nat.id in Hl, Hc by lia. destruct Hlast as [Hb H0]; [lia|].
  exists k. unfold addBusinessDays. replace (n <? 1) with false by lia. rewrite Hl. split_and!; (done || lia).
Qed.

(** 2026-01-30 is a Friday; two business days later is Tuesday 2026-02-03. *)
Lemma addBusinessDays_counts_witness :
  addBusinessDays (Date_UTC 2026 0 30) 2 = Ok (Date_UTC 2026 1 3) ∧
  ∃ k : nat, business_days (Date_UTC 2026 0 30) k = 2.
Proof.
  split; [vm_compute; reflexivity|].
  destruct (addBusinessDays_counts (Date_UTC 2026 0 30) 2 ltac:(lia)) as (k & _ & _ & _ & _ & H). exists k. exact H.
Defined.

(** An offering no investor has touched. *)
Definition untouched (o : OfferingSnapshot) : Prop :=
  finalOfferingPublishedAt o = None ∧ reconfirmationOpen o = false ∧ finalizedReservationCount o = 0%nat.

(** When each correction may run. *)
Definition reversible (s : ReversalSnapshot) (c : ReversalCommand) : Prop :=
  correctionInProgress s = false ∧ latestTransitionReversed s = false ∧
  match c with
  | return_to_draft => stage s = submitted ∧ option_map toStage (latestTransition s) = Some submitted ∧
      activeInformationRequest s = false ∧ offering s = None
  | withdraw_information_request => stage s = waiting_on_applicant ∧ activeInformationRequest s = true
  | reopen_pre_offering => stage s = pre_offering_open ∧ ∃ o, offering s = Some o ∧ untouched o ∧
      reservationCount o = 0%nat ∧ fundedReservationCount o = 0%nat ∧ disclosurePackPublished o = false
  | reopen_structuring => stage s = post_ipo_structuring ∧ (∀ o, offering s = Some o → untouched o) ∧
      legalExecutionCompleted s = false ∧ appraisalCompleted s = false
  | reopen_final_offering_review =>
      stage s = approved_for_final_offering ∧ ∀ o, offering s = Some o → untouched o
  end.

(** The action a command stands for. *)
Definition action_of (c : ReversalCommand) : ReversalAction :=
  match c with
  | return_to_draft => mkAction c draft "Return to draft" false synchronous
      "The current submission is preserved and the case returns to draft for correction." []
  | withdraw_information_request => mkAction c submitted "Withdraw information request" false synchronous
      "The active request will be withdrawn and the case returns to review." []
  | reopen_pre_offering => mkAction c submitted "Reopen review" true asynchronous
      "The provisional offering will be suspended and the case returns to founder review." []
  | reopen_structuring => mkAction c pre_offering_open "Reopen structuring" true asynchronous
      "Partner completion will be reopened and the case returns to the IPO workflow." []
  | reopen_final_offering_review => mkAction c post_ipo_structuring "Reopen final-offering review" true asynchronous
      "Structuring completion will be reopened before final terms publication." []
  end.

Lemma pre_offering_clear o : pre_offering_blockers o = [] ↔
  ∃ f, o = Some f ∧ untouched f ∧ reservationCount f = 0%nat ∧ fundedReservationCount f = 0%nat ∧
    disclosurePackPublished f = false.
Proof.
  destruct o as [[oid ost [p|] r f [] [] z]|]; simpl; split; try (by intros (? & [= <-] & [? ?] & ?)); try done;
    destruct r, f, z; simpl; try done; try (by intros (? & [= <-] & (? & ? & ?) & ? & ? & ?)).
  intros _. eexists. split; [done|]. done.
Qed.

Lemma late_clear o : late_blockers o = [] ↔ ∀ f, o = Some f → untouched f.
Proof.
  destruct o as [[oid ost [p|] r f d [] z]|]; unfold late_blockers; simpl; try (destruct z; simpl); split; try done;
    try (intros H; by destruct (H _ eq_refl) as (? & ? & ?)); by intros _ f' [= <-].
Qed.

Lemma blocker_nil b name : blocker b name = [] ↔ b = false.
Proof. by destruct b. Qed.

Lemma structuring_clear s :
  late_blockers (offering s) ++ blocker (legalExecutionCompleted s) "legal_execution_completed" ++
    blocker (appraisalCompleted s) "appraisal_completed" = [] ↔
  (∀ o, offering s = Some o → untouched o) ∧ legalExecutionCompleted s = false ∧ appraisalCompleted s = false.
Proof. rewrite !app_nil, late_clear, !blocker_nil. tauto. Qed.

Lemma filter_clear a :
  List.filter (λ a, match blockers a with [] => true | _ => false end) [a] =
    match blockers a with [] => [a] | _ => [] end.
Proof. simpl. by destruct (blockers a). Qed.

(** Each command against the one action a stage can offer; [P] is what that action needs. *)
Ltac offered c :=
  destruct c; unfold find_row; simpl;
  first [ by split; [|intros [(_ & _ & E & _) _]]
        | by split; [intros [= <-]; split_and!|intros [_ ->]]
        | by split; [|intros [(_ & _ & _ & HP) _]; exfalso; intuition congruence] ].

(** Which corrections are offered.  At most one correction is ever offered for a case, and
    a command is offered exactly when the case is in its stage, no correction is running,
    the latest transition has not been reversed already, and nothing that investors or
    partners did would be undone: reopening a pre-offering needs an offering with no
    reservation, no funding and no published pack, and every later reopening needs final
    terms unpublished, no reconfirmation window and no finalized reservation. *)
Theorem reversal_offered_iff s c a :
  (length (evaluateReversalActions s) <= 1)%nat ∧
  (getReversalAction s c = Some a ↔ reversible s c ∧ a = action_of c).
Proof.
  unfold getReversalAction, evaluateReversalActions, reversible. destruct s as [st seq lt rev act o legal app corr]. simpl.
  pose proof (pre_offering_clear o) as Hp. pose proof (late_clear o) as Hl.
  pose proof (structuring_clear (mkSnapshot st seq lt rev act o legal app corr)) as Hs. simpl in Hs.
  destruct corr; [by split; [simpl; lia|]; split; [done | by intros [[? ?] ?]]|].
  destruct rev; [by split; [simpl; lia|]; split; [done | by intros [(? & ? & ?) ?]]|]. simpl.
  destruct st; simpl.
  - split; [lia|]. offered c.
  - destruct (bool_decide_reflect (option_map toStage lt = Some submitted)) as [Hlt|], act, o; simpl; (split; [lia|]); offered c.
  - destruct act; simpl; (split; [lia|]); offered c.
  - clear Hl Hs. destruct (pre_offering_blockers o) as [|x l]; simpl; (split; [lia|]);
      [pose proof (proj1 Hp eq_refl) as HP0 | assert (x :: l ≠ []) as HP0 by done; rewrite Hp in HP0]; offered c.
  - clear Hl Hp. destruct (late_blockers o ++ _) as [|x l]; simpl; (split; [lia|]);
      [pose proof (proj1 Hs eq_refl) as (? & ? & ?) | assert (x :: l ≠ []) as HP0 by done; rewrite Hs in HP0]; offered c.
  - clear Hs Hp. destruct (late_blockers o) as [|x l]; simpl; (split; [lia|]);
      [pose proof (proj1 Hl eq_refl) as HP0 | assert (x :: l ≠ []) as HP0 by done; rewrite Hl in HP0]; offered c.
  - split; [lia|]. offered c.
  - split; [lia|]. offered c.
  - split; [lia|]. offered c.
Qed.

End IntakePolicy.
