(* ===== verification/Db.v ===== *)
(** The database the investment modules share: the rows of src/prisma/schema/schema.prisma
    that the offering, settlement and rental code reads and writes, with the constraints
    of the migrations (keys, foreign keys, CHECKs, column precision) that make a write
    throw.  Amounts in NUMERIC(15,2) columns are whole cents, DECIMAL(20,6) columns are
    whole millionths, timestamps are milliseconds since the epoch. *)

From S2P Require Import Prelude JsString Currency DateTime IntakePolicy.

(** JSON written to audit_log.changes and to job payloads.  [JDate d] is the text
    [d.toISOString()]. *)
Inductive json :=
  | JNull
  | JBool (b : bool)
  | JNum (n : Z)
  | JStr (s : string)
  | JDate (ms : Z)
  | JArr (l : list json)
  | JObj (l : list (string * json)).

Inductive OfferingStatus := pre_offering | final_offering | closed.
#[global] Instance OfferingStatus_eq_dec : EqDecision OfferingStatus.
Proof. solve_decision. Defined.

Module ReservationStage.
Inductive t := initiated | awaiting_reconfirmation | reconfirmed | finalized | cancelled | lapsed.
#[global] Instance eq_dec : EqDecision t.
Proof. solve_decision. Defined.
End ReservationStage.

Module CapitalState.
Inductive t := initiated | eurc_purchase_pending | purchase_failed
  | eurc_reserved | reconfirmation_pending | eurc_finalized | provider_disputed.
#[global] Instance eq_dec : EqDecision t.
Proof. solve_decision. Defined.
End CapitalState.

Inductive PositionStatus := pending_internal_settlement | active | redeemed.
#[global] Instance PositionStatus_eq_dec : EqDecision PositionStatus.
Proof. solve_decision. Defined.

Inductive DisclosureDocumentType :=
  | ecsp_kiis | priips_kid | final_offer_summary | final_terms_sheet
  | issuer_offeror_structure_sheet | investor_rights_payout_waterfall_summary
  | risk_factors_summary | property_appraisal_summary | fees_costs_tax_liquidity_summary
  | withdrawal_cancellation_supplement_rights_notice | full_prospectus.
#[global] Instance DisclosureDocumentType_eq_dec : EqDecision DisclosureDocumentType.
Proof. solve_decision. Defined.

Inductive MaterialityClassification := per_se_material | reviewed_material | non_material.
#[global] Instance MaterialityClassification_eq_dec : EqDecision MaterialityClassification.
Proof. solve_decision. Defined.

Inductive LoginMethod := passkey | google | apple | device_key.
#[global] Instance LoginMethod_eq_dec : EqDecision LoginMethod.
Proof. solve_decision. Defined.

Inductive AccountStatus := acc_active | recovery_review | suspended_restricted.
#[global] Instance AccountStatus_eq_dec : EqDecision AccountStatus.
Proof. solve_decision. Defined.

(** ** Rows *)

Module Account.
Record t := mk {
  id : string; status : AccountStatus; loginMethods : list LoginMethod;
  contactEmail : option string;
  (** cooldownEndsAt of the account's recovery cases that carry one *)
  recoveryCooldowns : list Z }.
End Account.

Module KycEligibility.
Record t := mk {
  accountId : string; eligibilityState : string; renewalDueAt : option Z; proofOfAddressCurrentUntil : option Z }.
End KycEligibility.

(** A case: its identity and place in the workflow, and the columns written by the founder's
    review, by the approval of its offering terms and by the partners. *)
Module IntakeCase.
Record review_data := mkReview {
  canReopen : bool; rejectedAt : option Z; withdrawnAt : option Z; expiredAt : option Z;
  rejectionReasonCode : option string; rejectionNotes : option string;
  founderReviewNotes : option string; reviewedByAccountId : option string; approvedAt : option Z }.
Record ipo_data := mkIpo {
  ipoPeriodDays : option Z; ipo_endAt : option Z; ipoValueEur : option Z; exclusivityCommencedAt : option Z }.
Record partner_data := mkPartner {
  legalPracticeId : option string; legalDocumentRefs : list string; legalStructuringCompletedAt : option Z;
  legalExecutionEventRefs : list string;
  appraisalFirmId : option string; appraisalValueOpinionEur : option Z; appraisalDocumentRefs : list string;
  appraisalCompletedAt : option Z;
  postIpoStructuringCompletedAt : option Z; approvedForFinalOfferingAt : option Z }.
Record t := mk {
  id : string; propertyId : string; applicantAccountId : string; stage : IntakePolicy.Stage;
  currentSubmissionRevisionId : option string;
  review : review_data; ipo : ipo_data; partner : partner_data;
  createdAt : Z; updatedAt : Z; workflowEventSequence : Z }.

Definition no_review := mkReview false None None None None None None None None.
Definition no_ipo := mkIpo None None None None.
Definition no_partner := mkPartner None [] None [] None None [] None None None.

(** [intakeCase.create] with the column defaults. *)
Definition created (id propertyId applicantAccountId : string) (at_ : Z) : t :=
  mk id propertyId applicantAccountId IntakePolicy.draft None no_review no_ipo no_partner at_ at_ 0.

Definition ipoEndAt (c : t) : option Z := ipo_endAt c.(ipo).

Definition set_stage (st : IntakePolicy.Stage) (at_ : Z) (c : t) : t :=
  mk c.(id) c.(propertyId) c.(applicantAccountId) st c.(currentSubmissionRevisionId) c.(review) c.(ipo)
     c.(partner) c.(createdAt) at_ c.(workflowEventSequence).
Definition set_revision (r : option string) (c : t) : t :=
  mk c.(id) c.(propertyId) c.(applicantAccountId) c.(stage) r c.(review) c.(ipo)
     c.(partner) c.(createdAt) c.(updatedAt) c.(workflowEventSequence).
Definition set_review (r : review_data) (c : t) : t :=
  mk c.(id) c.(propertyId) c.(applicantAccountId) c.(stage) c.(currentSubmissionRevisionId) r c.(ipo)
     c.(partner) c.(createdAt) c.(updatedAt) c.(workflowEventSequence).
Definition set_ipo (i : ipo_data) (c : t) : t :=
  mk c.(id) c.(propertyId) c.(applicantAccountId) c.(stage) c.(currentSubmissionRevisionId) c.(review) i
     c.(partner) c.(createdAt) c.(updatedAt) c.(workflowEventSequence).
Definition set_partner (p : partner_data) (c : t) : t :=
  mk c.(id) c.(propertyId) c.(applicantAccountId) c.(stage) c.(currentSubmissionRevisionId) c.(review) c.(ipo)
     p c.(createdAt) c.(updatedAt) c.(workflowEventSequence).
Definition set_sequence (n : Z) (c : t) : t :=
  mk c.(id) c.(propertyId) c.(applicantAccountId) c.(stage) c.(currentSubmissionRevisionId) c.(review) c.(ipo)
     c.(partner) c.(createdAt) c.(updatedAt) n.
End IntakeCase.

Module Piv.
Record t := mk { id : string; propertyId : string; caseId : string; tokenId : option Z }.
End Piv.

Module Offering.
Record t := mk {
  id : string; pivId : string;
  minimumRaiseEur : Z; targetRaiseEur : Z;
  status : OfferingStatus;
  finalOfferingPublishedAt : option Z;
  platformRightsEndAt : option Z;
  effectiveRightsEndAt : option Z;
  createdAt : Z }.
Definition set_window (published platform effective : option Z) (o : t) : t :=
  mk o.(id) o.(pivId) o.(minimumRaiseEur) o.(targetRaiseEur) o.(status) published platform effective
     o.(createdAt).
Definition set_status (st : OfferingStatus) (o : t) : t :=
  mk o.(id) o.(pivId) o.(minimumRaiseEur) o.(targetRaiseEur) st
     o.(finalOfferingPublishedAt) o.(platformRightsEndAt) o.(effectiveRightsEndAt) o.(createdAt).
End Offering.

Module Reservation.
Record t := mk {
  id : string; offeringId : string; accountId : string;
  clientIdempotencyKey : option string;
  amountEur : Z;
  stage : ReservationStage.t;
  disclosurePackVersionAtReservation : option string;
  reconfirmedAt : option Z;
  finalizedAt : option Z;
  createdAt : Z }.
Definition set_stage (st : ReservationStage.t) (r : t) : t :=
  mk r.(id) r.(offeringId) r.(accountId) r.(clientIdempotencyKey) r.(amountEur) st
     r.(disclosurePackVersionAtReservation) r.(reconfirmedAt) r.(finalizedAt) r.(createdAt).
Definition set_reconfirmedAt (v : option Z) (r : t) : t :=
  mk r.(id) r.(offeringId) r.(accountId) r.(clientIdempotencyKey) r.(amountEur) r.(stage)
     r.(disclosurePackVersionAtReservation) v r.(finalizedAt) r.(createdAt).
Definition set_finalizedAt (v : option Z) (r : t) : t :=
  mk r.(id) r.(offeringId) r.(accountId) r.(clientIdempotencyKey) r.(amountEur) r.(stage)
     r.(disclosurePackVersionAtReservation) r.(reconfirmedAt) v r.(createdAt).
End Reservation.

Module MoneyEvent.
Record t := mk {
  id : string; reservationId : string; provider : string;
  providerReference : option string;
  capitalState : CapitalState.t;
  amountEur : Z; amountEurc : option Z;
  recordedAt : Z }.
End MoneyEvent.

Module DisclosurePack.
Record document := mkDocument {
  documentId : string; documentType : DisclosureDocumentType;
  documentRef : string; isCoreReading : bool }.
Record t := mk {
  id : string; offeringId : string; version : Z; publishedAt : Z;
  supersededAt : option Z; isCurrent : bool; documents : list document }.
Definition supersede (at_ : Z) (p : t) : t :=
  mk p.(id) p.(offeringId) p.(version) p.(publishedAt) (Some at_) false p.(documents).
End DisclosurePack.

Module MaterialityRecord.
Record t := mk {
  id : string; offeringId : string; changeDescription : string;
  classification : MaterialityClassification; thresholdType : option string;
  resetTriggered : bool; classifiedByAccountId : string; classifiedAt : Z }.
End MaterialityRecord.

Module Position.
Record t := mk {
  id : string; reservationId : option string; pivId : string; accountId : string;
  unitCount : Z; costBasisEur : Z; status : PositionStatus;
  holderWalletAddress : option string; activatedAt : option Z;
  escrowMintIntentId : option string }.
End Position.

Module WalletRegistration.
Record t := mk {
  accountId : string; walletAddress : string; registrationCommitment : string;
  requestedAt : Z; registeredAt : option Z;
  registrationTxHash : option string; registrationBlockNumber : option Z }.
End WalletRegistration.

Module AuditLog.
Record t := mk {
  id : string; actorAccountId : option string; action : string;
  resourceType : string; resourceId : string;
  changes : list (string * json); createdAt : Z }.
End AuditLog.

Module Job.
Record t := mk { queue : string; data : list (string * json) }.
End Job.

(** ** The database *)

Record db := mkDb {
  accounts : list Account.t;
  kycEligibility : list KycEligibility.t;
  cases : list IntakeCase.t;
  pivs : list Piv.t;
  offerings : list Offering.t;
  reservations : list Reservation.t;
  moneyEvents : list MoneyEvent.t;
  disclosurePacks : list DisclosurePack.t;
  materialityRecords : list MaterialityRecord.t;
  positions : list Position.t;
  walletRegistrations : list WalletRegistration.t;
  auditLog : list AuditLog.t;
  jobs : list Job.t;
  (** how many identifiers [ulid()] has produced *)
  ulids : nat;
  (** the next value of intake.piv_token_id_seq *)
  pivTokenIdSeq : Z }.

Definition set_cases v s := mkDb (accounts s) (kycEligibility s) v (pivs s) (offerings s)
  (reservations s) (moneyEvents s) (disclosurePacks s) (materialityRecords s) (positions s)
  (walletRegistrations s) (auditLog s) (jobs s) (ulids s) (pivTokenIdSeq s).
Definition set_pivs v s := mkDb (accounts s) (kycEligibility s) (cases s) v (offerings s)
  (reservations s) (moneyEvents s) (disclosurePacks s) (materialityRecords s) (positions s)
  (walletRegistrations s) (auditLog s) (jobs s) (ulids s) (pivTokenIdSeq s).
Definition set_offerings v s := mkDb (accounts s) (kycEligibility s) (cases s) (pivs s) v
  (reservations s) (moneyEvents s) (disclosurePacks s) (materialityRecords s) (positions s)
  (walletRegistrations s) (auditLog s) (jobs s) (ulids s) (pivTokenIdSeq s).
Definition set_reservations v s := mkDb (accounts s) (kycEligibility s) (cases s) (pivs s)
  (offerings s) v (moneyEvents s) (disclosurePacks s) (materialityRecords s) (positions s)
  (walletRegistrations s) (auditLog s) (jobs s) (ulids s) (pivTokenIdSeq s).
Definition set_moneyEvents v s := mkDb (accounts s) (kycEligibility s) (cases s) (pivs s)
  (offerings s) (reservations s) v (disclosurePacks s) (materialityRecords s) (positions s)
  (walletRegistrations s) (auditLog s) (jobs s) (ulids s) (pivTokenIdSeq s).
Definition set_disclosurePacks v s := mkDb (accounts s) (kycEligibility s) (cases s) (pivs s)
  (offerings s) (reservations s) (moneyEvents s) v (materialityRecords s) (positions s)
  (walletRegistrations s) (auditLog s) (jobs s) (ulids s) (pivTokenIdSeq s).
Definition set_materialityRecords v s := mkDb (accounts s) (kycEligibility s) (cases s) (pivs s)
  (offerings s) (reservations s) (moneyEvents s) (disclosurePacks s) v (positions s)
  (walletRegistrations s) (auditLog s) (jobs s) (ulids s) (pivTokenIdSeq s).
Definition set_positions v s := mkDb (accounts s) (kycEligibility s) (cases s) (pivs s)
  (offerings s) (reservations s) (moneyEvents s) (disclosurePacks s) (materialityRecords s) v
  (walletRegistrations s) (auditLog s) (jobs s) (ulids s) (pivTokenIdSeq s).
Definition set_walletRegistrations v s := mkDb (accounts s) (kycEligibility s) (cases s) (pivs s)
  (offerings s) (reservations s) (moneyEvents s) (disclosurePacks s) (materialityRecords s)
  (positions s) v (auditLog s) (jobs s) (ulids s) (pivTokenIdSeq s).
Definition set_auditLog v s := mkDb (accounts s) (kycEligibility s) (cases s) (pivs s)
  (offerings s) (reservations s) (moneyEvents s) (disclosurePacks s) (materialityRecords s)
  (positions s) (walletRegistrations s) v (jobs s) (ulids s) (pivTokenIdSeq s).
Definition set_jobs v s := mkDb (accounts s) (kycEligibility s) (cases s) (pivs s)
  (offerings s) (reservations s) (moneyEvents s) (disclosurePacks s) (materialityRecords s)
  (positions s) (walletRegistrations s) (auditLog s) v (ulids s) (pivTokenIdSeq s).
Definition set_ulids v s := mkDb (accounts s) (kycEligibility s) (cases s) (pivs s)
  (offerings s) (reservations s) (moneyEvents s) (disclosurePacks s) (materialityRecords s)
  (positions s) (walletRegistrations s) (auditLog s) (jobs s) v (pivTokenIdSeq s).
Definition set_pivTokenIdSeq v s := mkDb (accounts s) (kycEligibility s) (cases s) (pivs s)
  (offerings s) (reservations s) (moneyEvents s) (disclosurePacks s) (materialityRecords s)
  (positions s) (walletRegistrations s) (auditLog s) (jobs s) (ulids s) v.

(** ** Reads *)

Notation id_is := by_id (only parsing).

Definition find_offering k s := find_row (id_is Offering.id k) (offerings s).
Definition find_reservation k s := find_row (id_is Reservation.id k) (reservations s).
Definition find_account k s := find_row (id_is Account.id k) (accounts s).
Definition find_wallet k s := find_row (id_is WalletRegistration.accountId k) (walletRegistrations s).
Definition find_case k s := find_row (id_is IntakeCase.id k) (cases s).
Definition find_kyc k s := find_row (id_is KycEligibility.accountId k) (kycEligibility s).

(** [ORDER BY recorded_at DESC, money_event_id DESC LIMIT 1] *)
Definition event_before (a b : MoneyEvent.t) : bool :=
  (MoneyEvent.recordedAt a <? MoneyEvent.recordedAt b) ||
  ((MoneyEvent.recordedAt a =? MoneyEvent.recordedAt b) &&
   String.ltb (MoneyEvent.id a) (MoneyEvent.id b)).

Fixpoint latest_event (l : list MoneyEvent.t) : option MoneyEvent.t :=
  match l with
  | [] => None
  | e :: l =>
      match latest_event l with
      | None => Some e
      | Some e' => if event_before e' e then Some e else Some e'
      end
  end.

Definition events_of (reservationId : string) (s : db) : list MoneyEvent.t :=
  List.filter (id_is MoneyEvent.reservationId reservationId) (moneyEvents s).

Definition latest_money (reservationId : string) (s : db) : option MoneyEvent.t :=
  latest_event (events_of reservationId s).

Definition latest_capital_state (reservationId : string) (s : db) : option CapitalState.t :=
  MoneyEvent.capitalState <$> latest_money reservationId s.

(** The one pack reads treat as current: [is_current AND superseded_at IS NULL]. *)
Definition is_current_pack (offeringId : string) (p : DisclosurePack.t) : bool :=
  bool_decide (DisclosurePack.offeringId p = offeringId) && DisclosurePack.isCurrent p &&
  bool_decide (DisclosurePack.supersededAt p = None).

Definition current_pack (offeringId : string) (s : db) : option DisclosurePack.t :=
  find_row (is_current_pack offeringId) (disclosurePacks s).

(** ** Writes *)

Definition violation {A} (constraint : string) : result A := Err (Thrown constraint).

(** NUMERIC(15,2) holds thirteen digits before the point. *)
Definition fits_numeric_15_2 (cents : Z) : bool := Z.abs cents <? 10 ^ 15.

Definition offering_create (o : Offering.t) (s : db) : result db :=
  if exists_row (id_is Offering.id (Offering.id o)) (offerings s) then violation "offerings_pkey"
  else if negb (exists_row (id_is Piv.id (Offering.pivId o)) (pivs s)) then violation "offerings_piv_id_fkey"
  else if negb ((0 <? Offering.targetRaiseEur o) && (0 <? Offering.minimumRaiseEur o))
    then violation "offerings_raise_positive_check"
  else if negb (fits_numeric_15_2 (Offering.targetRaiseEur o)) then violation "numeric_overflow"
  else Ok (set_offerings (offerings s ++ [o]) s).

Definition piv_create (p : Piv.t) (s : db) : result db :=
  if exists_row (id_is Piv.id (Piv.id p)) (pivs s) then violation "pivs_pkey"
  else if exists_row (id_is Piv.propertyId (Piv.propertyId p)) (pivs s) then violation "pivs_property_id_key"
  else Ok (set_pivs (pivs s ++ [p]) s).

Definition same_client_key (accountId offeringId key : string) (r : Reservation.t) : bool :=
  bool_decide (Reservation.accountId r = accountId) &&
  bool_decide (Reservation.offeringId r = offeringId) &&
  bool_decide (Reservation.clientIdempotencyKey r = Some key).

(** uq_reservations_account_offering_client_key: NULL keys never collide. *)
Definition client_key_taken (r : Reservation.t) (s : db) : bool :=
  match Reservation.clientIdempotencyKey r with
  | None => false
  | Some key =>
      exists_row (same_client_key (Reservation.accountId r) (Reservation.offeringId r) key) (reservations s)
  end.

Definition reservation_create (r : Reservation.t) (s : db) : result db :=
  if exists_row (id_is Reservation.id (Reservation.id r)) (reservations s) then violation "reservations_pkey"
  else if client_key_taken r s then violation "uq_reservations_account_offering_client_key"
  else if negb (exists_row (id_is Offering.id (Reservation.offeringId r)) (offerings s))
    then violation "reservations_offering_id_fkey"
  else if negb (exists_row (id_is Account.id (Reservation.accountId r)) (accounts s))
    then violation "reservations_account_id_fkey"
  else if negb (0 <? Reservation.amountEur r) then violation "reservations_amount_eur_positive_check"
  else if negb (fits_numeric_15_2 (Reservation.amountEur r)) then violation "numeric_overflow"
  else Ok (set_reservations (reservations s ++ [r]) s).

(** money_events is append-only (trigger money_events_append_only): creating a row is the
    only write. *)
Definition money_event_create (e : MoneyEvent.t) (s : db) : result db :=
  if exists_row (id_is MoneyEvent.id (MoneyEvent.id e)) (moneyEvents s) then violation "money_events_pkey"
  else if negb (exists_row (id_is Reservation.id (MoneyEvent.reservationId e)) (reservations s))
    then violation "money_events_reservation_id_fkey"
  else if negb (0 <? MoneyEvent.amountEur e) then violation "money_events_amount_eur_positive_check"
  else if negb (fits_numeric_15_2 (MoneyEvent.amountEur e)) then violation "numeric_overflow"
  else if negb (match MoneyEvent.amountEurc e with Some m => 0 <? m | None => true end)
    then violation "money_events_amount_eurc_positive_check"
  else Ok (set_moneyEvents (moneyEvents s ++ [e]) s).

Definition position_create (p : Position.t) (s : db) : result db :=
  if exists_row (id_is Position.id (Position.id p)) (positions s) then violation "position_ledger_pkey"
  else if match Position.escrowMintIntentId p with
          | None => false
          | Some i => exists_row (λ q, bool_decide (Position.escrowMintIntentId q = Some i)) (positions s)
          end then violation "uq_position_ledger_escrow_mint_intent"
  else Ok (set_positions (positions s ++ [p]) s).

Definition disclosure_pack_create (p : DisclosurePack.t) (s : db) : result db :=
  if exists_row (id_is DisclosurePack.id (DisclosurePack.id p)) (disclosurePacks s)
    then violation "disclosure_packs_pkey"
  else if exists_row (λ q, bool_decide (DisclosurePack.offeringId q = DisclosurePack.offeringId p) &&
                           (DisclosurePack.version q =? DisclosurePack.version p)) (disclosurePacks s)
    then violation "disclosure_packs_offering_id_version_key"
  else Ok (set_disclosurePacks (disclosurePacks s ++ [p]) s).

Definition audit_create (a : AuditLog.t) (s : db) : db := set_auditLog (auditLog s ++ [a]) s.

(** [enqueueTransactionalJob]: the payload gains the caller's trace_id and the job row is
    part of the caller's transaction. *)
Definition enqueueTransactionalJob (queueName : string) (data : list (string * json))
    (traceId : string) (s : db) : db :=
  set_jobs (jobs s ++ [Job.mk queueName (data ++ [("trace_id", JStr traceId)])]) s.

Definition update_offering (k : string) (f : Offering.t → Offering.t) (s : db) : db :=
  set_offerings (update_where (id_is Offering.id k) f (offerings s)) s.

Definition update_reservation (k : string) (f : Reservation.t → Reservation.t) (s : db) : db :=
  set_reservations (update_where (id_is Reservation.id k) f (reservations s)) s.

(** A fresh prefixed identifier, [`prefix${ulid()}`]. *)
Section WithUlid.
Context (ulid : nat → string).

Definition fresh (prefix : string) (s : db) : string * db :=
  (String.append prefix (ulid (ulids s)), set_ulids (S (ulids s)) s).

End WithUlid.
