(* ===== verification/OfferingPolicy.v ===== *)
(** The pure rules of src/src/modules/offering/domain/: reservation eligibility,
    finalization and its reconfirmation window, materiality, disclosure-pack
    completeness, reminder cadence. *)

From S2P Require Import Prelude JsString Currency Db.

Module OfferingPolicy.
Import Currency.

(** ** disclosure-pack.policy.ts *)

Definition disclosureDocumentTypes : list DisclosureDocumentType :=
  [ ecsp_kiis; priips_kid; final_offer_summary; final_terms_sheet;
    issuer_offeror_structure_sheet; investor_rights_payout_waterfall_summary;
    risk_factors_summary; property_appraisal_summary; fees_costs_tax_liquidity_summary;
    withdrawal_cancellation_supplement_rights_notice; full_prospectus ].

Definition isCoreReadingDocumentType (documentType : DisclosureDocumentType) : bool :=
  negb (bool_decide (documentType = full_prospectus)).

Definition isCompleteDisclosurePack (documentTypes : list DisclosureDocumentType) : bool :=
  forallb (λ required, existsb (λ t, bool_decide (t = required)) documentTypes)
    disclosureDocumentTypes.

(** ** finalization.policy.ts *)

Definition canPublishFinalOfferingTerms (status : OfferingStatus)
    (finalOfferingPublishedAt : option Z) (targetRaiseEur fundedEur : string) : result bool :=
  if bool_decide (status = pre_offering) then
    if bool_decide (finalOfferingPublishedAt = None) then
      let! funded := toCents fundedEur in
      let! target := toCents targetRaiseEur in
      Ok (target <=? funded)
    else Ok false
  else Ok false.

Definition PLATFORM_RIGHTS_WINDOW_HOURS : Z := 168.

Definition computeEffectiveRightsEndAt (publishedAt : Z) : Z :=
  publishedAt + PLATFORM_RIGHTS_WINDOW_HOURS * 60 * 60 * 1000.

Definition isReconfirmationWindowOpen (effectiveRightsEndAt now : Z) : bool :=
  now <? effectiveRightsEndAt.

(** ** materiality.policy.ts *)

Definition materialityResetTriggered (classification : MaterialityClassification) : bool :=
  negb (bool_decide (classification = non_material)).

(** ** public-offering.policy.ts *)

Definition publicOfferingStatuses : list OfferingStatus := [pre_offering; final_offering].

Definition isPublicOfferingStatus (status : OfferingStatus) : bool :=
  existsb (λ publicStatus, bool_decide (publicStatus = status)) publicOfferingStatuses.

(** ** reconfirmation-reminder.policy.ts *)

Definition isReconfirmationReminderDue (intervalHours : Z) (lastReminderSentAt : option Z)
    (finalOfferingPublishedAt effectiveRightsEndAt now : Z) : bool :=
  if effectiveRightsEndAt <=? now then false
  else if intervalHours <=? 0 then false
  else
    let since := default finalOfferingPublishedAt lastReminderSentAt in
    let dueAt := since + intervalHours * 60 * 60 * 1000 in
    dueAt <=? now.

(** ** reservation-eligibility.policy.ts *)

Inductive ReservationBlocker :=
  | account_restricted | kyc_not_eligible | kyc_renewal_due | login_methods_incomplete
  | payment_account_not_ready | disclosure_pack_unavailable | offering_not_open
  | capacity_exhausted | funding_rail_unavailable | recovery_cooldown_active.

Definition blocker_code (b : ReservationBlocker) : string :=
  match b with
  | account_restricted => "account_restricted"
  | kyc_not_eligible => "kyc_not_eligible"
  | kyc_renewal_due => "kyc_renewal_due"
  | login_methods_incomplete => "login_methods_incomplete"
  | payment_account_not_ready => "payment_account_not_ready"
  | disclosure_pack_unavailable => "disclosure_pack_unavailable"
  | offering_not_open => "offering_not_open"
  | capacity_exhausted => "capacity_exhausted"
  | funding_rail_unavailable => "funding_rail_unavailable"
  | recovery_cooldown_active => "recovery_cooldown_active"
  end.

Definition FUNDED_CAPITAL_STATES : list CapitalState.t :=
  [CapitalState.eurc_reserved; CapitalState.reconfirmation_pending; CapitalState.eurc_finalized].

Definition isReservationFunded (latestCapitalState : option CapitalState.t) : bool :=
  match latestCapitalState with
  | None => false
  | Some c => existsb (λ f, bool_decide (f = c)) FUNDED_CAPITAL_STATES
  end.

Definition isKycCurrent (kycEligibilityState : option string) (kycRenewalDueAt : option Z)
    (now : Z) : bool :=
  bool_decide (kycEligibilityState = Some "eligible") &&
  match kycRenewalDueAt with Some due => now <? due | None => false end.

Definition isLoginMethodsComplete (loginMethods : list LoginMethod) : bool :=
  let has m := existsb (λ x, bool_decide (x = m)) loginMethods in
  has device_key && (has google || has apple).

Definition isInvestmentEligible (accountStatus : AccountStatus)
    (kycCurrent loginMethodsComplete : bool) : bool :=
  bool_decide (accountStatus = acc_active) && kycCurrent && loginMethodsComplete.

Record BlockerInput := mkBlockerInput {
  bi_now : Z;
  bi_fundingRailAvailable : bool;
  bi_offeringStatus : OfferingStatus;
  bi_finalTermsPublished : bool;
  bi_hasDisclosurePack : bool;
  bi_remainingCapacityEur : string;
  bi_accountStatus : AccountStatus;
  bi_kycEligibilityState : option string;
  bi_kycRenewalDueAt : option Z;
  bi_loginMethods : list LoginMethod;
  bi_walletProvisioned : bool;
  bi_recoveryCooldownEndsAt : option Z }.

Definition push_if {A} (b : bool) (x : A) : list A := if b then [x] else [].

Definition computeReservationBlockers (input : BlockerInput) : list ReservationBlocker :=
  let kycCurrent := isKycCurrent (bi_kycEligibilityState input) (bi_kycRenewalDueAt input) (bi_now input) in
  let loginMethodsComplete := isLoginMethodsComplete (bi_loginMethods input) in
  push_if (negb (bool_decide (bi_accountStatus input = acc_active))) account_restricted ++
  (if negb (bool_decide (bi_kycEligibilityState input = Some "eligible")) then [kyc_not_eligible]
   else if negb kycCurrent then [kyc_renewal_due] else []) ++
  push_if (negb loginMethodsComplete) login_methods_incomplete ++
  push_if (negb (bi_walletProvisioned input)) payment_account_not_ready ++
  push_if (negb (bi_hasDisclosurePack input)) disclosure_pack_unavailable ++
  push_if (negb (bool_decide (bi_offeringStatus input = pre_offering)) || bi_finalTermsPublished input)
    offering_not_open ++
  push_if (bool_decide (bi_remainingCapacityEur input = "0.00")) capacity_exhausted ++
  push_if (negb (bi_fundingRailAvailable input)) funding_rail_unavailable ++
  push_if (match bi_recoveryCooldownEndsAt input with Some e => bi_now input <? e | None => false end)
    recovery_cooldown_active.

Definition isReservationExpired (createdAt now expiryMinutes : Z) : bool :=
  createdAt + expiryMinutes * 60000 <? now.

(** ** Lemmas *)

Lemma push_if_nil {A} b (x : A) : push_if b x = [] ↔ b = false.
Proof. by destruct b. Qed.

Lemma isReservationFunded_states c :
  isReservationFunded (Some c) = true ↔
  c = CapitalState.eurc_reserved ∨ c = CapitalState.reconfirmation_pending ∨ c = CapitalState.eurc_finalized.
Proof. destruct c; simpl; naive_solver. Qed.

Lemma isCompleteDisclosurePack_spec l :
  isCompleteDisclosurePack l = true ↔ ∀ t, In t l.
Proof.
  unfold isCompleteDisclosurePack. rewrite forallb_forall. split.
  - intros H t. assert (In t disclosureDocumentTypes) as Ht by (destruct t; simpl; tauto).
    specialize (H t Ht). apply existsb_exists in H as (x & Hx & E). boolify. by subst.
  - intros H t _. apply existsb_exists. exists t. split; [apply H | by apply bool_decide_eq_true_2].
Qed.

Lemma isCompleteDisclosurePack_missing l :
  isCompleteDisclosurePack l = false → ∃ t, ¬ In t l.
Proof.
  intros (t & _ & Ht)%forallb_false_exists. exists t. intros Hin.
  apply not_true_iff_false in Ht. apply Ht, existsb_exists.
  exists t. split; [done | by apply bool_decide_eq_true_2].
Qed.

Lemma canPublish_cents st pub target funded :
  0 ≤ target → Forall (λ x, 0 ≤ x) funded →
  canPublishFinalOfferingTerms st pub (numeric2_text target) (coalesce_sum_text funded) =
  Ok (bool_decide (st = pre_offering) && bool_decide (pub = None) && (target <=? sumZ funded)).
Proof.
  intros Ht Hf. unfold canPublishFinalOfferingTerms.
  case_bool_decide; [|done]. case_bool_decide; [|done].
  by rewrite toCents_coalesce_sum_text, toCents_numeric2_text.
Qed.

(** An investor has no blocker exactly when every gate of the policy is open. *)
Lemma computeReservationBlockers_nil input :
  computeReservationBlockers input = [] ↔
  bi_accountStatus input = acc_active ∧
  isKycCurrent (bi_kycEligibilityState input) (bi_kycRenewalDueAt input) (bi_now input) = true ∧
  isLoginMethodsComplete (bi_loginMethods input) = true ∧
  bi_walletProvisioned input = true ∧
  bi_hasDisclosurePack input = true ∧
  bi_offeringStatus input = pre_offering ∧ bi_finalTermsPublished input = false ∧
  bi_remainingCapacityEur input ≠ "0.00" ∧
  bi_fundingRailAvailable input = true ∧
  (∀ e, bi_recoveryCooldownEndsAt input = Some e → e ≤ bi_now input).
Proof.
  unfold computeReservationBlockers.
  rewrite !app_nil, !push_if_nil, !negb_false_iff, !orb_false_iff, !negb_false_iff,
    !bool_decide_eq_true, bool_decide_eq_false.
  assert ((if negb (bool_decide (bi_kycEligibilityState input = Some "eligible"))
           then [kyc_not_eligible]
           else if negb (isKycCurrent (bi_kycEligibilityState input) (bi_kycRenewalDueAt input)
                  (bi_now input)) then [kyc_renewal_due] else []) = [] ↔
          isKycCurrent (bi_kycEligibilityState input) (bi_kycRenewalDueAt input) (bi_now input) = true)
    as ->.
  { destruct (isKycCurrent _ _ _) eqn:E.
    - unfold isKycCurrent in E. boolify. by rewrite bool_decide_eq_true_2.
    - by case_bool_decide. }
  assert (match bi_recoveryCooldownEndsAt input with
          | Some e => bi_now input <? e | None => false end = false ↔
          ∀ e, bi_recoveryCooldownEndsAt input = Some e → e ≤ bi_now input) as ->.
  { destruct (bi_recoveryCooldownEndsAt input) as [e|]; [rewrite Z.ltb_ge; naive_solver | naive_solver]. }
  tauto.
Qed.

Lemma window_length t : computeEffectiveRightsEndAt t = t + 7 * 24 * 3600000.
Proof. unfold computeEffectiveRightsEndAt, PLATFORM_RIGHTS_WINDOW_HOURS. lia. Qed.

End OfferingPolicy.
