(* ===== verification/OfferingRepo.v ===== *)
(** The transactions of src/src/modules/offering/repository/prisma-offering.repository.ts.
    Each is a [txn]: a row lock followed by reads, guards and writes that commit together
    or not at all.  A guard that fails is a value (the repository's [conflict]); a thrown
    constraint violation is [Err]. *)

From S2P Require Import Prelude JsString Currency Db OfferingPolicy.

Module OfferingRepo.
Import Currency OfferingPolicy.

(** ** Inputs and results (reservation.repository.ts, finalize-offering.repository.ts,
    materiality.repository.ts, disclosure-pack.repository.ts) *)

Record CreateReservationInput := mkCreateReservationInput {
  cr_reservationId : string; cr_offeringId : string; cr_accountId : string;
  cr_clientIdempotencyKey : option string; cr_amountEur : string;
  cr_disclosurePackVersionAtReservation : option string;
  cr_traceId : string; cr_createdAt : Z }.

Inductive CreateReservationConflict := cc_offering_not_open | cc_capacity_exceeded.

Record ReusedReservationState := mkReused {
  ru_amountEur : string; ru_reservationStage : ReservationStage.t;
  ru_latestCapitalState : option CapitalState.t }.

Record CreateReservationResult := mkCreated {
  cr_reservation : option (string * Z);
  cr_conflict : option CreateReservationConflict;
  cr_reused : bool;
  cr_replay : option ReusedReservationState }.

Record MoneyEventInput := mkMoneyEventInput {
  me_reservationId : string; me_provider : string; me_providerReference : option string;
  me_capitalState : CapitalState.t; me_amountEur : string; me_amountEurc : option string;
  me_recordedAt : Z }.

Record InitiatedReservationForTimer := mkInitiated {
  it_reservationId : string; it_offeringId : string; it_accountId : string;
  it_createdAt : Z; it_latestCapitalState : option CapitalState.t }.

Record PendingPurchaseReservationForTimer := mkPending {
  pp_reservationId : string; pp_accountId : string; pp_amountEur : string }.

Inductive PublishConflict := pc_offering_not_found | pc_not_open | pc_already_published
  | pc_target_not_reached | pc_disclosure_pack_incomplete.

Record PublishedTerms := mkPublished {
  pt_offeringId : string; pt_finalOfferingPublishedAt : Z; pt_platformRightsEndAt : Z;
  pt_effectiveRightsEndAt : Z; pt_reservationsAwaitingReconfirmation : nat;
  pt_reservationsCancelled : nat }.

Inductive ReconfirmConflict := rc_not_found | rc_not_awaiting_reconfirmation
  | rc_window_closed | rc_disclosure_pack_incomplete.

Inductive CommitConflict := co_offering_not_found | co_not_publishable_state | co_window_still_open.

Record CommittedFinalization := mkCommitted {
  cf_offeringId : string; cf_positionsCreated : nat; cf_reservationsLapsed : nat }.

Inductive ClassifyConflict := cl_offering_not_found | cl_no_active_reconfirmation_window.

Record ClassifyMaterialityInput := mkClassifyInput {
  ci_offeringId : string; ci_accountId : string; ci_changeDescription : string;
  ci_classification : MaterialityClassification; ci_thresholdType : option string;
  ci_traceId : string; ci_classifiedAt : Z }.

Record Classified := mkClassified {
  cd_materialityRecordId : string; cd_resetTriggered : bool;
  cd_effectiveRightsEndAt : option Z; cd_reservationsReset : nat }.

Inductive PackConflict := pk_offering_not_found | pk_not_open.

Record PublishedPack := mkPublishedPack {
  pd_disclosurePackId : string; pd_version : Z; pd_isComplete : bool;
  pd_supersededPackId : option string }.

(** Outcome of a guarded write: a value or the named conflict. *)
Definition outcome (A C : Type) : Type := (A + C)%type.

(** The stored text of the closed vocabularies. *)
Definition classification_text (c : MaterialityClassification) : string :=
  match c with
  | per_se_material => "per_se_material"
  | reviewed_material => "reviewed_material"
  | non_material => "non_material"
  end.

Definition documentType_text (t : DisclosureDocumentType) : string :=
  match t with
  | ecsp_kiis => "ecsp_kiis"
  | priips_kid => "priips_kid"
  | final_offer_summary => "final_offer_summary"
  | final_terms_sheet => "final_terms_sheet"
  | issuer_offeror_structure_sheet => "issuer_offeror_structure_sheet"
  | investor_rights_payout_waterfall_summary => "investor_rights_payout_waterfall_summary"
  | risk_factors_summary => "risk_factors_summary"
  | property_appraisal_summary => "property_appraisal_summary"
  | fees_costs_tax_liquidity_summary => "fees_costs_tax_liquidity_summary"
  | withdrawal_cancellation_supplement_rights_notice => "withdrawal_cancellation_supplement_rights_notice"
  | full_prospectus => "full_prospectus"
  end.

Definition json_of_option (o : option string) : json :=
  match o with Some v => JStr v | None => JNull end.

(** ** SELECTs *)

Definition of_offering (offeringId : string) (r : Reservation.t) : bool :=
  bool_decide (Reservation.offeringId r = offeringId).

(** [reservation_stage NOT IN ('cancelled', 'lapsed')] *)
Definition live (st : ReservationStage.t) : bool :=
  negb (bool_decide (st = ReservationStage.cancelled)) && negb (bool_decide (st = ReservationStage.lapsed)).

(** the rows summed into reserved_capacity_eur *)
Definition reserved_rows (offeringId : string) (s : db) : list Z :=
  map Reservation.amountEur
    (List.filter (λ r, of_offering offeringId r && live (Reservation.stage r)) (reservations s)).

(** the rows summed into publishFinalOfferingTerms' funded_eur: every reservation of the
    offering, whatever its stage, whose latest money event is in a funded state *)
Definition funded_rows (offeringId : string) (s : db) : list Z :=
  omap (λ r, match latest_money (Reservation.id r) s with
             | Some e => if isReservationFunded (Some (MoneyEvent.capitalState e))
                         then Some (MoneyEvent.amountEur e) else None
             | None => None
             end)
    (List.filter (of_offering offeringId) (reservations s)).

(** the rows summed into getInvestorDetail's funded_eur, which also require a live stage *)
Definition live_funded_rows (offeringId : string) (s : db) : list Z :=
  omap (λ r, match latest_money (Reservation.id r) s with
             | Some e => if isReservationFunded (Some (MoneyEvent.capitalState e))
                         then Some (MoneyEvent.amountEur e) else None
             | None => None
             end)
    (List.filter (λ r, of_offering offeringId r && live (Reservation.stage r)) (reservations s)).

Definition stage_is (st : ReservationStage.t) (r : Reservation.t) : bool :=
  bool_decide (Reservation.stage r = st).

Definition current_document_types (offeringId : string) (s : db) : list DisclosureDocumentType :=
  match current_pack offeringId s with
  | Some p => map DisclosurePack.documentType (DisclosurePack.documents p)
  | None => []
  end.

Definition listInitiatedReservationsForTimers (s : db) : list InitiatedReservationForTimer :=
  map (λ r, mkInitiated (Reservation.id r) (Reservation.offeringId r) (Reservation.accountId r)
              (Reservation.createdAt r) (latest_capital_state (Reservation.id r) s))
    (List.filter (stage_is ReservationStage.initiated) (reservations s)).

Definition listPendingPurchaseReservationsForTimers (s : db) : list PendingPurchaseReservationForTimer :=
  map (λ r, mkPending (Reservation.id r) (Reservation.accountId r) (numeric2_text (Reservation.amountEur r)))
    (List.filter
       (λ r, stage_is ReservationStage.initiated r &&
             match latest_capital_state (Reservation.id r) s with
             | Some c => bool_decide (c = CapitalState.eurc_purchase_pending) ||
                         bool_decide (c = CapitalState.purchase_failed)
             | None => false
             end) (reservations s)).

Definition listOfferingsPendingFinalizationCommit (s : db) : list (string * Z) :=
  omap (λ o, match Offering.effectiveRightsEndAt o with
             | Some e => Some (Offering.id o, e)
             | None => None
             end)
    (List.filter (λ o, bool_decide (Offering.status o = pre_offering) &&
                       negb (bool_decide (Offering.finalOfferingPublishedAt o = None))) (offerings s)).

Section WithUlid.
Context (ulid : nat → string).
Notation fresh := (fresh ulid).

(** ** openOfferingForApprovedCase *)

Record OpenOfferingInput := mkOpenOffering {
  oo_caseId : string; oo_propertyId : string; oo_ipoValueEur : string;
  oo_traceId : string; oo_openedAt : Z;
  (** the clock of the column default [created_at] *)
  oo_now : Z;
  oo_openEscrowCampaign : bool }.

(** The open-offering row: raise amounts from ipoValueEur, the column defaults otherwise. *)
Definition new_offering (id pivId : string) (cents createdAt : Z) : Offering.t :=
  Offering.mk id pivId cents cents pre_offering None None None createdAt.

Definition openOfferingForApprovedCase (input : OpenOfferingInput) : txn db (string * string) := λ s,
  match find_row (id_is Piv.propertyId (oo_propertyId input)) (pivs s) with
  | Some existingPiv =>
      match find_row (id_is Offering.pivId (Piv.id existingPiv)) (offerings s) with
      | Some existingOffering => Ok ((Piv.id existingPiv, Offering.id existingOffering), s)
      | None =>
          let! cents := toCents (oo_ipoValueEur input) in
          let '(offeringId, s) := fresh "offering_" s in
          let! s := offering_create (new_offering offeringId (Piv.id existingPiv) cents (oo_now input)) s in
          Ok ((Piv.id existingPiv, offeringId), s)
      end
  | None =>
      match find_row (id_is IntakeCase.id (oo_caseId input)) (cases s) with
      | None => Err (Thrown "NotFoundError")
      | Some intakeCase =>
          let ipoEndAt := IntakeCase.ipoEndAt intakeCase in
          if oo_openEscrowCampaign input && bool_decide (ipoEndAt = None)
          then Err (Thrown "ipo_end_at_missing")
          else
            let tokenId := pivTokenIdSeq s in
            let s := set_pivTokenIdSeq (tokenId + 1) s in
            let '(pivId, s) := fresh "piv_" s in
            let! s := piv_create (Piv.mk pivId (oo_propertyId input) (oo_caseId input) (Some tokenId)) s in
            let '(offeringId, s) := fresh "offering_" s in
            let! cents := toCents (oo_ipoValueEur input) in
            let! s := offering_create (new_offering offeringId pivId cents (oo_now input)) s in
            let '(auditId, s) := fresh "audit_" s in
            let s := audit_create
              (AuditLog.mk auditId None "offering.opened_for_approved_case" "offering" offeringId
                 [("trace_id", JStr (oo_traceId input)); ("case_id", JStr (oo_caseId input));
                  ("piv_id", JStr pivId); ("target_raise_eur", JStr (oo_ipoValueEur input));
                  ("token_id", JStr (JsString.BigInt_toString tokenId))] (oo_openedAt input)) s in
            match oo_openEscrowCampaign input, ipoEndAt with
            | true, Some endAt =>
                let! micros := toEurcMicros (oo_ipoValueEur input) in
                let s := enqueueTransactionalJob "settlement.open_ipo_escrow_campaign"
                  [("piv_id", JStr pivId); ("token_id", JStr (JsString.BigInt_toString tokenId));
                   ("target_amount_eurc", JStr (JsString.BigInt_toString micros));
                   ("deadline_unix", JNum (endAt / 1000))] (oo_traceId input) s in
                Ok ((pivId, offeringId), s)
            | _, _ => Ok ((pivId, offeringId), s)
            end
      end
  end.

(** ** createReservation

    The stored amount is the one [toCents] reads; the column, NUMERIC(15,2), would round further decimals, but the request
    schema lets no more than two through. *)

Definition createReservation (input : CreateReservationInput) : txn db CreateReservationResult := λ s,
  match find_offering (cr_offeringId input) s with
  | None => Ok (mkCreated None (Some cc_offering_not_open) false None, s)
  | Some offering =>
    if negb (bool_decide (Offering.status offering = pre_offering))
    then Ok (mkCreated None (Some cc_offering_not_open) false None, s)
    else
      let existing :=
        match cr_clientIdempotencyKey input with
        | None => None
        | Some key => find_row (same_client_key (cr_accountId input) (cr_offeringId input) key) (reservations s)
        end in
      match existing with
      | Some existing =>
          Ok (mkCreated (Some (Reservation.id existing, Reservation.createdAt existing)) None true
                (Some (mkReused (numeric2_text (Reservation.amountEur existing)) (Reservation.stage existing)
                         (latest_capital_state (Reservation.id existing) s))), s)
      | None =>
          let! target := toCents (numeric2_text (Offering.targetRaiseEur offering)) in
          let! reserved := toCents (coalesce_sum_text (reserved_rows (cr_offeringId input) s)) in
          let remainingCents := target - reserved in
          let! amount := toCents (cr_amountEur input) in
          if (if 0 <? remainingCents then remainingCents else 0) <? amount
          then Ok (mkCreated None (Some cc_capacity_exceeded) false None, s)
          else
            let! s := reservation_create
              (Reservation.mk (cr_reservationId input) (cr_offeringId input) (cr_accountId input)
                 (cr_clientIdempotencyKey input) amount ReservationStage.initiated
                 (cr_disclosurePackVersionAtReservation input) None None (cr_createdAt input)) s in
            let '(eventId, s) := fresh "money_event_" s in
            let! s := money_event_create
              (MoneyEvent.mk eventId (cr_reservationId input) "coinbase_cdp" None CapitalState.initiated
                 amount None (cr_createdAt input)) s in
            let '(auditId, s) := fresh "audit_" s in
            let s := audit_create
              (AuditLog.mk auditId (Some (cr_accountId input)) "offering.reservation_created"
                 "reservation" (cr_reservationId input)
                 [("trace_id", JStr (cr_traceId input)); ("offering_id", JStr (cr_offeringId input));
                  ("amount_eur", JStr (cr_amountEur input))] (cr_createdAt input)) s in
            Ok (mkCreated (Some (cr_reservationId input, cr_createdAt input)) None false None, s)
      end
  end.

(** ** recordMoneyEvent *)

Definition recordMoneyEvent (input : MoneyEventInput) : txn db unit := λ s,
  let '(eventId, s) := fresh "money_event_" s in
  let! amount := toCents (me_amountEur input) in
  let! eurc := match me_amountEurc input with
               | None => Ok None
               | Some v => let! m := toEurcMicros v in Ok (Some m)
               end in
  let! s := money_event_create
    (MoneyEvent.mk eventId (me_reservationId input) (me_provider input) (me_providerReference input)
       (me_capitalState input) amount eurc (me_recordedAt input)) s in
  Ok (tt, s).

(** ** expireReservation *)

Definition expireReservation (reservationId traceId : string) (expiredAt : Z) : txn db bool := λ s,
  match find_reservation reservationId s with
  | None => Ok (false, s)
  | Some current =>
      if negb (stage_is ReservationStage.initiated current) then Ok (false, s)
      else if isReservationFunded (latest_capital_state reservationId s) then Ok (false, s)
      else
        let s := update_reservation reservationId (Reservation.set_stage ReservationStage.lapsed) s in
        let '(auditId, s) := fresh "audit_" s in
        let s := audit_create
          (AuditLog.mk auditId None "offering.reservation_lapsed" "reservation" reservationId
             [("trace_id", JStr traceId); ("previous_stage", JStr "initiated"); ("new_stage", JStr "lapsed")]
             expiredAt) s in
        Ok (true, s)
  end.

(** ** publishFinalOfferingTerms *)

(** The loop over the locked 'initiated' rows, each with the capital state the SELECT
    read for it: ids moved to awaiting_reconfirmation, and how many were cancelled. *)
Fixpoint publish_loop (publishedAt : Z) (rows : list (Reservation.t * option CapitalState.t))
    (s : db) : result (list string * nat * db) :=
  match rows with
  | [] => Ok ([], 0%nat, s)
  | (reservation, latest) :: rows =>
      let rid := Reservation.id reservation in
      if isReservationFunded latest then
        let s := update_reservation rid
                   (Reservation.set_stage ReservationStage.awaiting_reconfirmation) s in
        let '(eventId, s) := fresh "money_event_" s in
        let! s := money_event_create
          (MoneyEvent.mk eventId rid "internal" None CapitalState.reconfirmation_pending
             (Reservation.amountEur reservation) None publishedAt) s in
        let! (ids, cancelled, s) := publish_loop publishedAt rows s in
        Ok (rid :: ids, cancelled, s)
      else
        let s := update_reservation rid (Reservation.set_stage ReservationStage.cancelled) s in
        let! (ids, cancelled, s) := publish_loop publishedAt rows s in
        Ok (ids, S cancelled, s)
  end.

Record PublishInput := mkPublishInput {
  pi_offeringId : string; pi_accountId : string; pi_founderReviewNotes : string;
  pi_traceId : string; pi_publishedAt : Z }.

(** [FROM offerings JOIN pivs ON piv.piv_id = offering.piv_id WHERE offering_id = ...] *)
Definition find_offering_with_piv (offeringId : string) (s : db) : option (Offering.t * Piv.t) :=
  match find_offering offeringId s with
  | None => None
  | Some offering =>
      match find_row (id_is Piv.id (Offering.pivId offering)) (pivs s) with
      | None => None
      | Some piv => Some (offering, piv)
      end
  end.

Definition initiated_of (offeringId : string) (r : Reservation.t) : bool :=
  of_offering offeringId r && stage_is ReservationStage.initiated r.

Definition publishFinalOfferingTerms (input : PublishInput)
    : txn db (outcome PublishedTerms PublishConflict) := λ s,
  match find_offering_with_piv (pi_offeringId input) s with
  | None => Ok (inr pc_offering_not_found, s)
  | Some (offering, piv) =>
    if negb (bool_decide (Offering.status offering = pre_offering)) then Ok (inr pc_not_open, s)
    else if negb (bool_decide (Offering.finalOfferingPublishedAt offering = None))
    then Ok (inr pc_already_published, s)
    else
      let fundedEur := coalesce_sum_text (funded_rows (pi_offeringId input) s) in
      let! allowed := canPublishFinalOfferingTerms (Offering.status offering)
                        (Offering.finalOfferingPublishedAt offering)
                        (numeric2_text (Offering.targetRaiseEur offering)) fundedEur in
      if negb allowed then Ok (inr pc_target_not_reached, s)
      else if negb (isCompleteDisclosurePack (current_document_types (pi_offeringId input) s))
      then Ok (inr pc_disclosure_pack_incomplete, s)
      else
        let rows := map (λ r, (r, latest_capital_state (Reservation.id r) s))
                      (List.filter (initiated_of (pi_offeringId input)) (reservations s)) in
        let! (ids, cancelled, s) := publish_loop (pi_publishedAt input) rows s in
        let platformRightsEndAt := computeEffectiveRightsEndAt (pi_publishedAt input) in
        let effectiveRightsEndAt := platformRightsEndAt in
        let s := update_offering (pi_offeringId input)
                   (Offering.set_window (Some (pi_publishedAt input)) (Some platformRightsEndAt)
                      (Some effectiveRightsEndAt)) s in
        let '(auditId, s) := fresh "audit_" s in
        let s := audit_create
          (AuditLog.mk auditId (Some (pi_accountId input)) "offering.final_terms_published"
             "offering" (pi_offeringId input)
             [("trace_id", JStr (pi_traceId input));
              ("founder_review_notes", JStr (pi_founderReviewNotes input));
              ("funded_eur", JStr fundedEur);
              ("target_raise_eur", JStr (numeric2_text (Offering.targetRaiseEur offering)));
              ("effective_rights_end_at", JDate effectiveRightsEndAt);
              ("reservations_awaiting_reconfirmation", JNum (Z.of_nat (length ids)));
              ("reservations_cancelled", JNum (Z.of_nat cancelled))] (pi_publishedAt input)) s in
        let s := if bool_decide (ids = []) then s
                 else enqueueTransactionalJob "case_timers.offering_reconfirmation_window_opened"
                        [("offering_id", JStr (pi_offeringId input)); ("reservation_ids", JArr (map JStr ids))]
                        (pi_traceId input) s in
        let s := enqueueTransactionalJob "case_timers.post_ipo_structuring_handoff"
                   [("case_id", JStr (Piv.caseId piv))] (pi_traceId input) s in
        Ok (inl (mkPublished (pi_offeringId input) (pi_publishedAt input) platformRightsEndAt
                   effectiveRightsEndAt (length ids) cancelled), s)
  end.

(** ** reconfirmReservation *)

Definition reconfirmReservation (reservationId accountId traceId : string) (reconfirmedAt : Z)
    : txn db (outcome Z ReconfirmConflict) := λ s,
  match find_reservation reservationId s with
  | None => Ok (inr rc_not_found, s)
  | Some reservation =>
    if negb (bool_decide (Reservation.accountId reservation = accountId)) then Ok (inr rc_not_found, s)
    else if negb (stage_is ReservationStage.awaiting_reconfirmation reservation)
    then Ok (inr rc_not_awaiting_reconfirmation, s)
    else
      match find_offering (Reservation.offeringId reservation) s with
      | None => Err (Thrown "NotFoundError")
      | Some offering =>
          if match Offering.effectiveRightsEndAt offering with
             | None => true
             | Some e => negb (isReconfirmationWindowOpen e reconfirmedAt)
             end then Ok (inr rc_window_closed, s)
          else if negb (isCompleteDisclosurePack (current_document_types (Offering.id offering) s))
          then Ok (inr rc_disclosure_pack_incomplete, s)
          else
            let version := match current_pack (Offering.id offering) s with
                           | Some p => JNum (DisclosurePack.version p) | None => JNull end in
            let s := update_reservation reservationId
                       (λ r, Reservation.set_reconfirmedAt (Some reconfirmedAt)
                               (Reservation.set_stage ReservationStage.reconfirmed r)) s in
            let '(auditId, s) := fresh "audit_" s in
            let s := audit_create
              (AuditLog.mk auditId (Some accountId) "offering.reservation_reconfirmed" "reservation"
                 reservationId [("trace_id", JStr traceId); ("disclosure_pack_version", version)]
                 reconfirmedAt) s in
            Ok (inl reconfirmedAt, s)
      end
  end.

(** ** commitOfferingFinalization *)

Fixpoint commit_loop (finalizedAt : Z) (pivId : string)
    (rows : list (Reservation.t * option string)) (s : db) : result (nat * nat * db) :=
  match rows with
  | [] => Ok (0%nat, 0%nat, s)
  | (reservation, wallet) :: rows =>
      let rid := Reservation.id reservation in
      if stage_is ReservationStage.reconfirmed reservation then
        let amountText := numeric2_text (Reservation.amountEur reservation) in
        let! units := toEurcMicros (costBasisToUnitCount amountText) in
        let! cost := toCents amountText in
        let '(positionId, s) := fresh "position_" s in
        let! s := position_create
          (Position.mk positionId (Some rid) pivId (Reservation.accountId reservation) units cost
             pending_internal_settlement wallet None None) s in
        let s := update_reservation rid
          (λ r, Reservation.set_finalizedAt (Some finalizedAt)
                  (Reservation.set_stage ReservationStage.finalized r)) s in
        let '(eventId, s) := fresh "money_event_" s in
        let! s := money_event_create
          (MoneyEvent.mk eventId rid "internal" None CapitalState.eurc_finalized
             (Reservation.amountEur reservation) None finalizedAt) s in
        let! (created, lapsed, s) := commit_loop finalizedAt pivId rows s in
        Ok (S created, lapsed, s)
      else
        let s := update_reservation rid (Reservation.set_stage ReservationStage.lapsed) s in
        let! (created, lapsed, s) := commit_loop finalizedAt pivId rows s in
        Ok (created, S lapsed, s)
  end.

(** [reservation_stage IN ('awaiting_reconfirmation', 'reconfirmed')] *)
Definition settling_of (offeringId : string) (r : Reservation.t) : bool :=
  of_offering offeringId r &&
  (stage_is ReservationStage.awaiting_reconfirmation r || stage_is ReservationStage.reconfirmed r).

Definition commitOfferingFinalization (offeringId traceId : string) (finalizedAt : Z)
    : txn db (outcome CommittedFinalization CommitConflict) := λ s,
  match find_offering offeringId s with
  | None => Ok (inr co_offering_not_found, s)
  | Some offering =>
    if negb (bool_decide (Offering.status offering = pre_offering)) ||
       bool_decide (Offering.finalOfferingPublishedAt offering = None)
    then Ok (inr co_not_publishable_state, s)
    else if match Offering.effectiveRightsEndAt offering with
            | None => true
            | Some e => isReconfirmationWindowOpen e finalizedAt
            end then Ok (inr co_window_still_open, s)
    else
      let rows := map (λ r, (r, WalletRegistration.walletAddress <$> find_wallet (Reservation.accountId r) s))
                    (List.filter (settling_of offeringId) (reservations s)) in
      let! (created, lapsed, s) := commit_loop finalizedAt (Offering.pivId offering) rows s in
      let s := update_offering offeringId (Offering.set_status final_offering) s in
      let '(auditId, s) := fresh "audit_" s in
      let s := audit_create
        (AuditLog.mk auditId None "offering.finalized" "offering" offeringId
           [("trace_id", JStr traceId); ("positions_created", JNum (Z.of_nat created));
            ("reservations_lapsed", JNum (Z.of_nat lapsed))] finalizedAt) s in
      Ok (inl (mkCommitted offeringId created lapsed), s)
  end.

(** ** classifyMateriality *)

Definition reset_row (r : Reservation.t) : Reservation.t :=
  Reservation.set_reconfirmedAt None
    (Reservation.set_stage ReservationStage.awaiting_reconfirmation r).

Fixpoint reset_loop (rows : list Reservation.t) (s : db) : db :=
  match rows with
  | [] => s
  | reservation :: rows => reset_loop rows (update_reservation (Reservation.id reservation) reset_row s)
  end.

Definition reconfirmed_of (offeringId : string) (r : Reservation.t) : bool :=
  of_offering offeringId r && stage_is ReservationStage.reconfirmed r.

Definition classifyMateriality (input : ClassifyMaterialityInput)
    : txn db (outcome Classified ClassifyConflict) := λ s,
  match find_offering (ci_offeringId input) s with
  | None => Ok (inr cl_offering_not_found, s)
  | Some offering =>
    if negb (bool_decide (Offering.status offering = pre_offering)) ||
       bool_decide (Offering.finalOfferingPublishedAt offering = None)
    then Ok (inr cl_no_active_reconfirmation_window, s)
    else
      let resetTriggered := materialityResetTriggered (ci_classification input) in
      let reconfirmed := List.filter (reconfirmed_of (ci_offeringId input)) (reservations s) in
      let '(effectiveRightsEndAt, reservationsReset, s) :=
        if resetTriggered then
          let s := reset_loop reconfirmed s in
          let endAt := computeEffectiveRightsEndAt (ci_classifiedAt input) in
          let s := update_offering (ci_offeringId input)
                     (λ o, Offering.set_window (Offering.finalOfferingPublishedAt o) (Some endAt) (Some endAt) o) s in
          (Some endAt, length reconfirmed, s)
        else (Offering.effectiveRightsEndAt offering, 0%nat, s) in
      let '(recordId, s) := fresh "materiality_" s in
      let s := set_materialityRecords (materialityRecords s ++
        [MaterialityRecord.mk recordId (ci_offeringId input) (ci_changeDescription input)
           (ci_classification input) (ci_thresholdType input) resetTriggered (ci_accountId input)
           (ci_classifiedAt input)]) s in
      let '(auditId, s) := fresh "audit_" s in
      let s := audit_create
        (AuditLog.mk auditId (Some (ci_accountId input)) "offering.materiality_classified" "offering"
           (ci_offeringId input)
           [("trace_id", JStr (ci_traceId input)); ("change_description", JStr (ci_changeDescription input));
            ("classification", JStr (classification_text (ci_classification input)));
            ("threshold_type", json_of_option (ci_thresholdType input));
            ("reset_triggered", JBool resetTriggered);
            ("reservations_reset", JNum (Z.of_nat reservationsReset))] (ci_classifiedAt input)) s in
      Ok (inl (mkClassified recordId resetTriggered effectiveRightsEndAt reservationsReset), s)
  end.

(** ** publishDisclosurePack *)

Record PublishPackInput := mkPublishPackInput {
  pb_offeringId : string; pb_accountId : string;
  pb_documents : list (DisclosureDocumentType * string);
  pb_traceId : string; pb_publishedAt : Z }.

Fixpoint new_documents (docs : list (DisclosureDocumentType * string)) (s : db)
    : list DisclosurePack.document * db :=
  match docs with
  | [] => ([], s)
  | (documentType, documentRef) :: docs =>
      let '(documentId, s) := fresh "document_" s in
      let '(rest, s) := new_documents docs s in
      (DisclosurePack.mkDocument documentId documentType documentRef
         (isCoreReadingDocumentType documentType) :: rest, s)
  end.

(** [findFirst ... orderBy version desc] over the current packs of the offering. *)
Fixpoint max_version (l : list DisclosurePack.t) : option DisclosurePack.t :=
  match l with
  | [] => None
  | p :: l =>
      match max_version l with
      | None => Some p
      | Some q => if DisclosurePack.version p <? DisclosurePack.version q then Some q else Some p
      end
  end.

Definition publishDisclosurePack (input : PublishPackInput)
    : txn db (outcome PublishedPack PackConflict) := λ s,
  match find_offering (pb_offeringId input) s with
  | None => Ok (inr pk_offering_not_found, s)
  | Some offering =>
    if negb (bool_decide (Offering.status offering = pre_offering)) then Ok (inr pk_not_open, s)
    else
      let current := max_version (List.filter (is_current_pack (pb_offeringId input)) (disclosurePacks s)) in
      let s := match current with
               | Some c => set_disclosurePacks
                   (update_where (id_is DisclosurePack.id (DisclosurePack.id c))
                      (DisclosurePack.supersede (pb_publishedAt input)) (disclosurePacks s)) s
               | None => s
               end in
      let version := match current with Some c => DisclosurePack.version c | None => 0 end + 1 in
      let '(packId, s) := fresh "pack_" s in
      let '(docs, s) := new_documents (pb_documents input) s in
      let! s := disclosure_pack_create
        (DisclosurePack.mk packId (pb_offeringId input) version (pb_publishedAt input) None true docs) s in
      let documentTypes := map fst (pb_documents input) in
      let isComplete := isCompleteDisclosurePack documentTypes in
      let superseded := DisclosurePack.id <$> current in
      let '(auditId, s) := fresh "audit_" s in
      let s := audit_create
        (AuditLog.mk auditId (Some (pb_accountId input)) "offering.disclosure_pack_published" "offering"
           (pb_offeringId input)
           [("trace_id", JStr (pb_traceId input)); ("disclosure_pack_id", JStr packId);
            ("version", JNum version);
            ("document_types", JArr (map (λ t, JStr (documentType_text t)) documentTypes));
            ("is_complete", JBool isComplete);
            ("superseded_pack_id", json_of_option superseded)]
           (pb_publishedAt input)) s in
      Ok (inl (mkPublishedPack packId version isComplete superseded), s)
  end.

End WithUlid.

(** The intake module's reversal of an approved case closes its offering
    (src/src/modules/intake/repository/prisma-intake.repository.ts). *)
Definition close_offering (offeringId : string) (s : db) : db :=
  update_offering offeringId (Offering.set_status closed) s.

End OfferingRepo.
