(* ===== verification/OfferingFacts.v ===== *)
(** What each transaction of OfferingRepo does to the tables, as equations: the loops of
    single-row updates are proved equal to one bulk UPDATE, and every committed write is
    characterised table by table. *)

From S2P Require Import Prelude JsString Currency Db OfferingPolicy OfferingRepo.

Module OfferingFacts.
Import Currency OfferingPolicy OfferingRepo.

(** ** Low-level writes *)

Lemma reservation_create_inv r s s' :
  reservation_create r s = Ok s' →
  s' = set_reservations (reservations s ++ [r]) s ∧
  ¬ In (Reservation.id r) (map Reservation.id (reservations s)) ∧
  client_key_taken r s = false ∧
  (∃ o, In o (offerings s) ∧ Offering.id o = Reservation.offeringId r) ∧
  0 < Reservation.amountEur r < 10 ^ 15.
Proof.
  unfold reservation_create. intros H. inv_ok H. injection H as <-. boolify.
  rewrite exists_row_false in E. apply exists_row_true in E1 as (o & Ho & Eo).
  split; [done|]. split.
  { intros Hin. apply in_map_iff in Hin as (x & Ex & Hx). specialize (E x Hx).
    unfold by_id in E. boolify. done. }
  split; [done|]. split.
  { exists o. unfold by_id in Eo. boolify. done. }
  unfold fits_numeric_15_2 in *. boolify. lia.
Qed.

Lemma money_event_create_inv e s s' :
  money_event_create e s = Ok s' →
  s' = set_moneyEvents (moneyEvents s ++ [e]) s ∧
  ¬ In (MoneyEvent.id e) (map MoneyEvent.id (moneyEvents s)) ∧
  In (MoneyEvent.reservationId e) (map Reservation.id (reservations s)) ∧
  0 < MoneyEvent.amountEur e.
Proof.
  unfold money_event_create. intros H. inv_ok H. injection H as <-. boolify.
  rewrite exists_row_false in E. apply exists_row_true in E0 as (r & Hr & Er).
  unfold by_id in *. boolify.
  repeat split; [|by rewrite <- Er; apply in_map|done].
  intros Hin. apply in_map_iff in Hin as (x & Ex & Hx). specialize (E x Hx). boolify. done.
Qed.

Lemma position_create_inv p s s' :
  position_create p s = Ok s' →
  s' = set_positions (positions s ++ [p]) s ∧
  ¬ In (Position.id p) (map Position.id (positions s)) ∧
  (∀ i, Position.escrowMintIntentId p = Some i →
        ∀ q, In q (positions s) → Position.escrowMintIntentId q ≠ Some i).
Proof.
  unfold position_create. intros H. inv_ok H. injection H as <-.
  rewrite exists_row_false in E. unfold by_id in E. split; [done|]. split.
  { intros Hin; apply in_map_iff in Hin as (x & Ex & Hx); specialize (E x Hx); boolify; done. }
  intros i Hi q Hq. rewrite Hi, exists_row_false in E0. specialize (E0 q Hq). by boolify.
Qed.

Lemma offering_create_inv o s s' :
  offering_create o s = Ok s' →
  s' = set_offerings (offerings s ++ [o]) s ∧
  ¬ In (Offering.id o) (map Offering.id (offerings s)) ∧
  In (Offering.pivId o) (map Piv.id (pivs s)) ∧
  0 < Offering.targetRaiseEur o.
Proof.
  unfold offering_create. intros H. inv_ok H. injection H as <-. boolify.
  rewrite exists_row_false in E. apply exists_row_true in E0 as (r & Hr & Er).
  unfold by_id in *. boolify.
  repeat split; [|by rewrite <- Er; apply in_map|done].
  intros Hin. apply in_map_iff in Hin as (x & Ex & Hx). specialize (E x Hx). boolify. done.
Qed.

Lemma piv_create_inv p s s' :
  piv_create p s = Ok s' → s' = set_pivs (pivs s ++ [p]) s.
Proof. unfold piv_create. intros H. inv_ok H. by injection H as <-. Qed.

Lemma disclosure_pack_create_inv p s s' :
  disclosure_pack_create p s = Ok s' →
  s' = set_disclosurePacks (disclosurePacks s ++ [p]) s ∧
  ¬ In (DisclosurePack.id p) (map DisclosurePack.id (disclosurePacks s)) ∧
  (∀ q, In q (disclosurePacks s) → DisclosurePack.offeringId q = DisclosurePack.offeringId p →
        DisclosurePack.version q ≠ DisclosurePack.version p).
Proof.
  unfold disclosure_pack_create. intros H. inv_ok H. injection H as <-.
  rewrite exists_row_false in E, E0. unfold by_id in *.
  split; [done|]. split.
  { intros Hin; apply in_map_iff in Hin as (x & Ex & Hx); specialize (E x Hx); boolify; done. }
  intros q Hq Eo Ev. specialize (E0 q Hq). rewrite bool_decide_eq_true_2 in E0 by done.
  rewrite Ev, Z.eqb_refl in E0. done.
Qed.

(** Replace every successful insert of the context by the table it leaves. *)
Ltac inv_creates :=
  repeat match goal with
  | H : reservation_create _ _ = Ok _ |- _ => apply reservation_create_inv in H as (-> & ? & ? & ? & ?)
  | H : money_event_create _ _ = Ok _ |- _ => apply money_event_create_inv in H as (-> & ? & ? & ?)
  | H : position_create _ _ = Ok _ |- _ => apply position_create_inv in H as (-> & ? & ?)
  | H : offering_create _ _ = Ok _ |- _ => apply offering_create_inv in H as (-> & ? & ? & ?)
  | H : piv_create _ _ = Ok _ |- _ => apply piv_create_inv in H as ->
  | H : disclosure_pack_create _ _ = Ok _ |- _ => apply disclosure_pack_create_inv in H as (-> & ? & ?)
  end.

(** ** The three loops *)

Section WithUlid.
Context (ulid : nat → string).

(** What a loop of updates and inserts leaves alone. *)
Definition same_but_reservations_and_ledgers (s s' : db) : Prop :=
  accounts s' = accounts s ∧ kycEligibility s' = kycEligibility s ∧ cases s' = cases s ∧
  pivs s' = pivs s ∧ offerings s' = offerings s ∧ disclosurePacks s' = disclosurePacks s ∧
  materialityRecords s' = materialityRecords s ∧ walletRegistrations s' = walletRegistrations s ∧
  auditLog s' = auditLog s ∧ jobs s' = jobs s ∧ (ulids s <= ulids s')%nat.

#[local] Ltac frame := unfold same_but_reservations_and_ledgers in *; simpl in *; intuition (congruence || lia).

(** the stage publishFinalOfferingTerms gives a row whose capital state was [latest] *)
Definition published_stage (latest : option CapitalState.t) : ReservationStage.t :=
  if isReservationFunded latest then ReservationStage.awaiting_reconfirmation
  else ReservationStage.cancelled.

Definition is_funded_row (row : Reservation.t * option CapitalState.t) : bool := isReservationFunded row.2.

Lemma publish_loop_ok publishedAt rows s ids cancelled s' :
  publish_loop ulid publishedAt rows s = Ok (ids, cancelled, s') →
  same_but_reservations_and_ledgers s s' ∧ positions s' = positions s ∧
  reservations s' =
    foldl (λ acc row, update_where (by_id Reservation.id (Reservation.id row.1))
             (Reservation.set_stage (published_stage row.2)) acc) (reservations s) rows ∧
  ids = map (λ row, Reservation.id row.1) (List.filter is_funded_row rows) ∧
  cancelled = length (List.filter (λ row, negb (is_funded_row row)) rows) ∧
  ∃ new, moneyEvents s' = moneyEvents s ++ new ∧
    Forall2 (λ row e, MoneyEvent.reservationId e = Reservation.id row.1 ∧
               MoneyEvent.capitalState e = CapitalState.reconfirmation_pending ∧
               MoneyEvent.amountEur e = Reservation.amountEur row.1 ∧
               MoneyEvent.recordedAt e = publishedAt)
      (List.filter is_funded_row rows) new.
Proof.
  revert s ids cancelled s'. induction rows as [|[r latest] rows IH]; intros s ids cancelled s' H.
  { simpl in H. injection H as <- <- <-. repeat split; try done.
    exists []. rewrite app_nil_r. by split. }
  cbn [publish_loop fresh] in H. cbn [foldl List.filter fst snd].
  assert (published_stage latest = if isReservationFunded latest
    then ReservationStage.awaiting_reconfirmation else ReservationStage.cancelled) as Hst by done.
  rewrite Hst. change (is_funded_row (r, latest)) with (isReservationFunded latest).
  destruct (isReservationFunded latest) eqn:Ef; cbn [negb map fst].
  - inv_ok H. destruct p as [ids' n']. injection H as <- <- <-.
    apply money_event_create_inv in E as (-> & _ & _ & _).
    apply IH in E0 as (Hf & Hp & Hr & -> & -> & new & Hm & Hnew). simpl in *.
    repeat split; try (by frame); try done.
    eexists (_ :: new). rewrite Hm, <- app_assoc. split; [done|]. by constructor.
  - inv_ok H. destruct p as [ids' n']. injection H as <- <- <-.
    apply IH in E as (Hf & Hp & Hr & -> & -> & new & Hm & Hnew). simpl in *.
    repeat split; try (by frame); try done. exists new. by rewrite Hm.
Qed.

(** the row commitOfferingFinalization leaves in place of a locked one *)
Definition committed_row (finalizedAt : Z) (r : Reservation.t) : Reservation.t :=
  if stage_is ReservationStage.reconfirmed r
  then Reservation.set_finalizedAt (Some finalizedAt) (Reservation.set_stage ReservationStage.finalized r)
  else Reservation.set_stage ReservationStage.lapsed r.

Definition commit_update (finalizedAt : Z) (row r : Reservation.t) : Reservation.t :=
  if stage_is ReservationStage.reconfirmed row
  then Reservation.set_finalizedAt (Some finalizedAt) (Reservation.set_stage ReservationStage.finalized r)
  else Reservation.set_stage ReservationStage.lapsed r.

(** the position a reconfirmed row is settled with *)
Definition position_for (pivId : string) (r : Reservation.t) (wallet : option string) (p : Position.t) : Prop :=
  Position.reservationId p = Some (Reservation.id r) ∧ Position.pivId p = pivId ∧
  Position.accountId p = Reservation.accountId r ∧
  Position.costBasisEur p = Reservation.amountEur r ∧
  Position.unitCount p = Reservation.amountEur r * 10000 ∧
  Position.status p = pending_internal_settlement ∧ Position.holderWalletAddress p = wallet ∧
  Position.escrowMintIntentId p = None.

Lemma fromCents_format c : 0 ≤ c → currency_format (fromCents c) = true.
Proof.
  intros Hc. rewrite fromCents_point by done. unfold currency_format, point_text.
  pose proof (Z.mod_pos_bound c 100 ltac:(lia)).
  assert (0 ≤ c / 100) by (apply Z.div_pos; lia).
  rewrite JsString.split_append
    by (eapply JsString.string_forallb_impl; [apply JsString.is_digit_not_dot | by apply JsString.BigInt_toString_digits]).
  rewrite JsString.split_no_sep
    by (eapply JsString.string_forallb_impl; [apply JsString.is_digit_not_dot | by apply JsString.BigInt_padStart; lia]).
  rewrite JsString.BigInt_toString_digits by done.
  rewrite (proj2 (JsString.BigInt_padStart 2 (c mod 100) ltac:(lia))).
  rewrite JsString.length_fraction by (simpl; lia). simpl. rewrite !andb_true_r.
  apply negb_true_iff, bool_decide_eq_false_2. intros E.
  pose proof (JsString.BigInt_BigInt_toString (c / 100) ltac:(lia)).
  unfold JsString.BigInt_toString, JsString.digits_fuel in E.
  replace (c / 100 <? 0) with false in E by lia. simpl in E.
  destruct (c / 100 / 10 =? 0); [done|].
  assert (∀ fuel n acc, acc ≠ "" → JsString.digits fuel n acc ≠ "") as Hne.
  { clear. induction fuel as [|fuel IH]; simpl; intros n acc Ha; [done|].
    destruct (n / 10 =? 0); [done | by apply IH]. }
  by eapply Hne in E.
Qed.

Lemma amount_text c : 0 ≤ c →
  toCents (numeric2_text c) = Ok c ∧ toEurcMicros (numeric2_text c) = Ok (c * 10000).
Proof.
  intros H. split; [by apply toCents_numeric2_text|]. unfold numeric2_text.
  replace (c <? 0) with false by lia.
  apply toEurcMicros_currency; [by apply fromCents_format | by apply toCents_fromCents_ok].
Qed.

Definition is_reconfirmed_row (row : Reservation.t * option string) : bool :=
  stage_is ReservationStage.reconfirmed row.1.

Lemma commit_loop_ok finalizedAt pivId rows s created lapsed s' :
  Forall (λ row, 0 < Reservation.amountEur row.1) rows →
  commit_loop ulid finalizedAt pivId rows s = Ok (created, lapsed, s') →
  same_but_reservations_and_ledgers s s' ∧
  reservations s' =
    foldl (λ acc row, update_where (by_id Reservation.id (Reservation.id row.1))
             (commit_update finalizedAt row.1) acc) (reservations s) rows ∧
  created = length (List.filter is_reconfirmed_row rows) ∧
  lapsed = length (List.filter (λ row, negb (is_reconfirmed_row row)) rows) ∧
  (∃ new, positions s' = positions s ++ new ∧
    Forall2 (λ row p, position_for pivId row.1 row.2 p) (List.filter is_reconfirmed_row rows) new) ∧
  (∃ new, moneyEvents s' = moneyEvents s ++ new ∧
    Forall2 (λ row e, MoneyEvent.reservationId e = Reservation.id row.1 ∧
               MoneyEvent.capitalState e = CapitalState.eurc_finalized ∧
               MoneyEvent.amountEur e = Reservation.amountEur row.1 ∧
               MoneyEvent.recordedAt e = finalizedAt)
      (List.filter is_reconfirmed_row rows) new).
Proof.
  intros Hpos. revert s created lapsed s'.
  induction Hpos as [|[r wallet] rows Hr0 Hpos IH]; intros s created lapsed s' H.
  { simpl in H. injection H as <- <- <-. repeat split; try done; exists []; rewrite app_nil_r; by split. }
  cbn [fst snd] in Hr0. destruct (amount_text (Reservation.amountEur r)) as [Hc Hu]; [lia|].
  cbn [commit_loop] in H. cbn [foldl List.filter fst snd].
  assert (commit_update finalizedAt r = λ r', if stage_is ReservationStage.reconfirmed r
    then Reservation.set_finalizedAt (Some finalizedAt) (Reservation.set_stage ReservationStage.finalized r')
    else Reservation.set_stage ReservationStage.lapsed r') as Hst by done.
  rewrite Hst. change (is_reconfirmed_row (r, wallet)) with (stage_is ReservationStage.reconfirmed r).
  destruct (stage_is ReservationStage.reconfirmed r) eqn:Ef; cbn [negb].
  - unfold costBasisToUnitCount in H. rewrite Hu, Hc in H. cbn [rbind fresh] in H.
    inv_ok H. destruct p as [n1 n2]. injection H as <- <- <-.
    apply position_create_inv in E as (-> & _ & _).
    apply money_event_create_inv in E0 as (-> & _ & _ & _).
    apply IH in E1 as (Hf & Hr & -> & -> & (np & Hp & Hnp) & (ne & Hm & Hne)). simpl in *.
    repeat split; try (by frame); try done.
    + eexists (_ :: np). rewrite Hp, <- app_assoc. split; [done|]. constructor; [by repeat split | done].
    + eexists (_ :: ne). rewrite Hm, <- app_assoc. split; [done|]. by constructor.
  - inv_ok H. destruct p as [n1 n2]. injection H as <- <- <-.
    apply IH in E as (Hf & Hr & -> & -> & (np & Hp & Hnp) & (ne & Hm & Hne)). simpl in *.
    repeat split; try (by frame); try done; [by exists np | by exists ne].
Qed.

Lemma reset_loop_eq rows s :
  reset_loop rows s = set_reservations
    (foldl (λ acc row, update_where (by_id Reservation.id (Reservation.id row)) reset_row acc)
       (reservations s) rows) s.
Proof.
  revert s. induction rows as [|r rows IH]; intros s; simpl; [by destruct s|]. by rewrite IH.
Qed.

End WithUlid.
End OfferingFacts.
