(* ===== verification/OfferingInv.v ===== *)
(** The offering tables as a state machine: any interleaving of the repository
    transactions, and the invariants every reachable database satisfies. *)

From S2P Require Import Prelude JsString Currency Db OfferingPolicy OfferingRepo OfferingFacts.

Module OfferingInv.
Import Currency OfferingPolicy OfferingRepo OfferingFacts.

(** ** The reservation lifecycle *)

Inductive stage_step : ReservationStage.t → ReservationStage.t → Prop :=
  | ss_publish : stage_step ReservationStage.initiated ReservationStage.awaiting_reconfirmation
  | ss_cancel : stage_step ReservationStage.initiated ReservationStage.cancelled
  | ss_expire : stage_step ReservationStage.initiated ReservationStage.lapsed
  | ss_reconfirm : stage_step ReservationStage.awaiting_reconfirmation ReservationStage.reconfirmed
  | ss_reset : stage_step ReservationStage.reconfirmed ReservationStage.awaiting_reconfirmation
  | ss_finalize : stage_step ReservationStage.reconfirmed ReservationStage.finalized
  | ss_silence : stage_step ReservationStage.awaiting_reconfirmation ReservationStage.lapsed.

Definition terminal (st : ReservationStage.t) : Prop :=
  st = ReservationStage.finalized ∨ st = ReservationStage.cancelled ∨ st = ReservationStage.lapsed.

Lemma terminal_stuck a b : rtc stage_step a b → terminal a → b = a.
Proof.
  intros H Ha. destruct H as [|a' b' c' H _]; [done|].
  destruct Ha as [->|[->| ->]]; inversion H.
Qed.

Lemma live_backwards a b : rtc stage_step a b → live b = true → live a = true.
Proof.
  intros H. induction H as [|a b c H _ IH]; [done|].
  intros Hc. specialize (IH Hc). by destruct H.
Qed.

(** ** How rows evolve *)

Definition row_evolves (r r' : Reservation.t) : Prop :=
  Reservation.id r' = Reservation.id r ∧ Reservation.offeringId r' = Reservation.offeringId r ∧
  Reservation.accountId r' = Reservation.accountId r ∧
  Reservation.clientIdempotencyKey r' = Reservation.clientIdempotencyKey r ∧
  Reservation.amountEur r' = Reservation.amountEur r ∧
  Reservation.disclosurePackVersionAtReservation r' = Reservation.disclosurePackVersionAtReservation r ∧
  Reservation.createdAt r' = Reservation.createdAt r ∧
  rtc stage_step (Reservation.stage r) (Reservation.stage r').

Inductive status_step : OfferingStatus → OfferingStatus → Prop :=
  | os_finalize : status_step pre_offering final_offering
  | os_close st : status_step st closed.

Definition off_evolves (o o' : Offering.t) : Prop :=
  Offering.id o' = Offering.id o ∧ Offering.pivId o' = Offering.pivId o ∧
  Offering.minimumRaiseEur o' = Offering.minimumRaiseEur o ∧
  Offering.targetRaiseEur o' = Offering.targetRaiseEur o ∧
  (∀ t, Offering.finalOfferingPublishedAt o = Some t → Offering.finalOfferingPublishedAt o' = Some t) ∧
  rtc status_step (Offering.status o) (Offering.status o').

#[export] Instance row_evolves_preorder : PreOrder row_evolves.
Proof.
  split; unfold row_evolves; [by intros r|].
  intros a b c Hab Hbc. destruct_and!. repeat split; try congruence. by etrans.
Qed.

#[export] Instance off_evolves_preorder : PreOrder off_evolves.
Proof.
  split; unfold off_evolves; [by intros r|].
  intros a b c Hab Hbc. destruct_and!. repeat split; try congruence; [naive_solver | by etrans].
Qed.

Lemma update_where_Forall2 {A} (R : relation A) `{!Reflexive R} (p : A → bool) f l :
  (∀ r, In r l → p r = true → R r (f r)) → Forall2 R l (update_where p f l).
Proof.
  induction l as [|x l IH]; intros H; [constructor|].
  rewrite update_where_cons. constructor; [|apply IH; intros; apply H; simpl; auto].
  destruct (p x) eqn:E; [apply H; simpl; auto | done].
Qed.

(** ** Well-formed databases *)

(** Two reservations made with one client operation key. *)
Definition same_key (r1 r2 : Reservation.t) : Prop :=
  Reservation.accountId r1 = Reservation.accountId r2 ∧
  Reservation.offeringId r1 = Reservation.offeringId r2 ∧
  Reservation.clientIdempotencyKey r1 = Reservation.clientIdempotencyKey r2 ∧
  Reservation.clientIdempotencyKey r1 ≠ None.

Record wf (s : db) : Prop := {
  wf_reservation_ids : List.NoDup (map Reservation.id (reservations s));
  wf_offering_ids : List.NoDup (map Offering.id (offerings s));
  wf_targets : ∀ o, In o (offerings s) → 0 < Offering.targetRaiseEur o;
  wf_amounts : ∀ r, In r (reservations s) → 0 < Reservation.amountEur r;
  wf_money : ∀ e, In e (moneyEvents s) → 0 < MoneyEvent.amountEur e;
  wf_offering_fk : ∀ r, In r (reservations s) →
    In (Reservation.offeringId r) (map Offering.id (offerings s));
  wf_keys : ∀ r1 r2, In r1 (reservations s) → In r2 (reservations s) →
    same_key r1 r2 → Reservation.id r1 = Reservation.id r2;
  wf_capacity : ∀ o, In o (offerings s) →
    sumZ (reserved_rows (Offering.id o) s) ≤ Offering.targetRaiseEur o }.

Definition empty_db (accs : list Account.t) (kyc : list KycEligibility.t) (cs : list IntakeCase.t)
    (ws : list WalletRegistration.t) : db :=
  mkDb accs kyc cs [] [] [] [] [] [] [] ws [] [] 0 1.

Lemma wf_empty a k c w : wf (empty_db a k c w).
Proof. split; simpl; try done; constructor. Qed.

(** A reservation the tables gained: every guard of the insert held. *)
Definition admitted (s : db) (r : Reservation.t) : Prop :=
  ¬ In (Reservation.id r) (map Reservation.id (reservations s)) ∧
  client_key_taken r s = false ∧
  0 < Reservation.amountEur r ∧
  Reservation.stage r = ReservationStage.initiated ∧
  ∃ o, In o (offerings s) ∧ Offering.id o = Reservation.offeringId r ∧
       Offering.status o = pre_offering ∧
       Reservation.amountEur r + sumZ (reserved_rows (Offering.id o) s) ≤ Offering.targetRaiseEur o.

Definition new_offering_ok (s : db) (o : Offering.t) : Prop :=
  ¬ In (Offering.id o) (map Offering.id (offerings s)) ∧ 0 < Offering.targetRaiseEur o ∧
  Offering.status o = pre_offering ∧ Offering.finalOfferingPublishedAt o = None.

(** What one transaction may do to the reservation, offering and money tables. *)
Record effect (s s' : db) : Prop := {
  eff_reservations : ∃ l new, reservations s' = l ++ new ∧
    Forall2 row_evolves (reservations s) l ∧
    (new = [] ∨ ∃ r, new = [r] ∧ l = reservations s ∧ admitted s r);
  eff_offerings : ∃ l new, offerings s' = l ++ new ∧
    Forall2 off_evolves (offerings s) l ∧ (new = [] ∨ ∃ o, new = [o] ∧ new_offering_ok s o);
  eff_money : ∃ new, moneyEvents s' = moneyEvents s ++ new ∧
    ∀ e, In e new → 0 < MoneyEvent.amountEur e }.

Lemma Forall2_refl {A} (R : relation A) `{!Reflexive R} l : Forall2 R l l.
Proof. induction l; by constructor. Qed.

Lemma effect_refl s : effect s s.
Proof.
  split.
  - exists (reservations s), []. rewrite app_nil_r. split_and!; [done | by apply Forall2_refl | by left].
  - exists (offerings s), []. rewrite app_nil_r. split_and!; [done | by apply Forall2_refl | by left].
  - exists []. by rewrite app_nil_r.
Qed.

(** ** One transaction keeps the database well formed *)

Lemma Forall2_map_eq {A B} (R : relation A) (g : A → B) l l' :
  (∀ x y, R x y → g y = g x) → Forall2 R l l' → map g l' = map g l.
Proof. intros H. induction 1; simpl; f_equal; eauto. Qed.

Lemma Forall2_in_r {A B} (R : A → B → Prop) l l' y :
  Forall2 R l l' → In y l' → ∃ x, In x l ∧ R x y.
Proof. induction 1; simpl; naive_solver. Qed.

Definition reserved_sum (offeringId : string) (rows : list Reservation.t) : Z :=
  sumZ (map Reservation.amountEur
    (List.filter (λ r, of_offering offeringId r && live (Reservation.stage r)) rows)).

Lemma reserved_sum_cons off r rows :
  reserved_sum off (r :: rows) =
  (if of_offering off r && live (Reservation.stage r) then Reservation.amountEur r else 0) +
  reserved_sum off rows.
Proof. unfold reserved_sum. simpl. by destruct (_ && _). Qed.

Lemma reserved_sum_app off l1 l2 :
  reserved_sum off (l1 ++ l2) = reserved_sum off l1 + reserved_sum off l2.
Proof. unfold reserved_sum. by rewrite List.filter_app, map_app, sumZ_app. Qed.

Lemma reserved_rows_sum off s : sumZ (reserved_rows off s) = reserved_sum off (reservations s).
Proof. done. Qed.

(** No transition gives back capacity that was released. *)
Lemma reserved_sum_evolves off l l' :
  Forall2 row_evolves l l' → (∀ r, In r l → 0 < Reservation.amountEur r) →
  reserved_sum off l' ≤ reserved_sum off l.
Proof.
  induction 1 as [|r r' l l' Hr Hl IH]; intros Hpos; [done|].
  rewrite !reserved_sum_cons.
  assert (reserved_sum off l' ≤ reserved_sum off l) by (apply IH; simpl in *; auto).
  pose proof (Hpos r (or_introl eq_refl)).
  destruct Hr as (_ & Ho & _ & _ & Ha & _ & _ & Hst).
  unfold of_offering. rewrite Ho, Ha. case_bool_decide; simpl; [|lia].
  destruct (live (Reservation.stage r')) eqn:El; [|destruct (live (Reservation.stage r)); lia].
  rewrite (live_backwards _ _ Hst El). lia.
Qed.

Definition row_ok (s : db) (r : Reservation.t) : Prop :=
  0 < Reservation.amountEur r ∧ In (Reservation.offeringId r) (map Offering.id (offerings s)).

Lemma effect_rows_ok s s' : wf s → effect s s' → ∀ r, In r (reservations s') → row_ok s r.
Proof.
  intros W [(lr & nr & Er & Hlr & Hnr) _ _] r. rewrite Er, in_app_iff. intros [Hr|Hr].
  - destruct (Forall2_in_r _ _ _ _ Hlr Hr) as (r0 & Hr0 & Hev).
    destruct Hev as (_ & Eoff & _ & _ & Ea & _). unfold row_ok. rewrite Ea, Eoff.
    split; [by apply (wf_amounts s W) | by apply (wf_offering_fk s W)].
  - destruct Hnr as [->|(r' & -> & _ & _ & _ & Hpos & _ & o & Ho & Eid & _)]; [done|].
    destruct Hr as [<-|[]]. split; [done|]. rewrite <- Eid. by apply in_map.
Qed.

Lemma admitted_not_same_key s r r0 : admitted s r → In r0 (reservations s) → ¬ same_key r0 r.
Proof.
  intros (_ & Hkey & _) Hr0 (Ea & Eo & Ek & Hne). unfold client_key_taken in Hkey.
  rewrite Ek in Hne. destruct (Reservation.clientIdempotencyKey r) as [k|] eqn:E; [|done].
  rewrite exists_row_false in Hkey. specialize (Hkey r0 Hr0). unfold same_client_key in Hkey.
  by rewrite !bool_decide_eq_true_2 in Hkey.
Qed.

Lemma effect_keys s s' r1 r2 : wf s → effect s s' →
  In r1 (reservations s') → In r2 (reservations s') → same_key r1 r2 →
  Reservation.id r1 = Reservation.id r2.
Proof.
  intros W [(lr & nr & Er & Hlr & Hnr) _ _]. rewrite Er, !in_app_iff. intros H1 H2 Hk.
  destruct Hnr as [->|(r & -> & -> & Hadm)].
  - destruct H1 as [H1|[]], H2 as [H2|[]].
    destruct (Forall2_in_r _ _ _ _ Hlr H1) as (x1 & Hx1 & E1 & E2 & E3 & E4 & _).
    destruct (Forall2_in_r _ _ _ _ Hlr H2) as (x2 & Hx2 & F1 & F2 & F3 & F4 & _).
    rewrite E1, F1. apply (wf_keys s W); [done..|]. unfold same_key in *. intuition congruence.
  - destruct H1 as [H1|[<-|[]]], H2 as [H2|[<-|[]]]; [by apply (wf_keys s W)| | |done].
    + by destruct (admitted_not_same_key s r r1).
    + destruct (admitted_not_same_key s r r2); [done..|]. unfold same_key in *. intuition congruence.
Qed.

Lemma effect_capacity s s' o0 : wf s → effect s s' → In o0 (offerings s) →
  reserved_sum (Offering.id o0) (reservations s') ≤ Offering.targetRaiseEur o0.
Proof.
  intros W [(lr & nr & Er & Hlr & Hnr) _ _] Ho0.
  pose proof (wf_capacity s W o0 Ho0) as Hcap. rewrite reserved_rows_sum in Hcap.
  pose proof (reserved_sum_evolves (Offering.id o0) _ _ Hlr (wf_amounts s W)).
  rewrite Er, reserved_sum_app.
  destruct Hnr as [->|(r & -> & -> & _ & _ & Hpos & _ & o1 & Ho1 & Eid1 & _ & Hcap1)].
  { change (reserved_sum (Offering.id o0) []) with 0. lia. }
  rewrite reserved_sum_cons. change (reserved_sum (Offering.id o0) []) with 0.
  unfold of_offering. case_bool_decide as Eoff; simpl; [|lia].
  assert (o1 = o0) as -> by (eapply NoDup_map_inj_in; [apply W| | |]; congruence).
  rewrite reserved_rows_sum in Hcap1. destruct (live _); lia.
Qed.

Lemma effect_wf s s' : wf s → effect s s' → wf s'.
Proof.
  intros W E. pose proof (effect_rows_ok s s' W E) as Hrok.
  pose proof (λ r1 r2, effect_keys s s' r1 r2 W E) as Hkeys.
  pose proof (λ o, effect_capacity s s' o W E) as Hcap.
  destruct E as [(lr & nr & Er & Hlr & Hnr) (lo & no & Eo & Hlo & Hno) (nm & Em & Hnm)].
  assert (map Reservation.id lr = map Reservation.id (reservations s)) as Hrid
    by (eapply Forall2_map_eq; [|done]; by intros ?? (? & ?)).
  assert (map Offering.id lo = map Offering.id (offerings s)) as Hoid
    by (eapply Forall2_map_eq; [|done]; by intros ?? (? & ?)).
  split; [| | | | | |done|].
  - rewrite Er, map_app, Hrid. destruct Hnr as [->|(r & -> & _ & Hid & _)]; simpl.
    + rewrite app_nil_r. apply W.
    + apply NoDup_snoc; [apply W | done].
  - rewrite Eo, map_app, Hoid. destruct Hno as [->|(o & -> & Hid & _)]; simpl.
    + rewrite app_nil_r. apply W.
    + apply NoDup_snoc; [apply W | done].
  - intros o. rewrite Eo, in_app_iff. intros [Ho|Ho].
    + destruct (Forall2_in_r _ _ _ _ Hlo Ho) as (o0 & Ho0 & _ & _ & _ & -> & _).
      by apply (wf_targets s W).
    + destruct Hno as [->|(o' & -> & _ & Ht & _)]; [done|]. by destruct Ho as [<-|[]].
  - intros r Hr. by apply Hrok.
  - intros e. rewrite Em, in_app_iff. intros [He|He]; [by apply (wf_money s W) | by apply Hnm].
  - intros r Hr. rewrite Eo, map_app, in_app_iff, Hoid. left. by apply Hrok.
  - intros o. rewrite reserved_rows_sum, Eo, in_app_iff. intros [Ho|Ho].
    + destruct (Forall2_in_r _ _ _ _ Hlo Ho) as (o0 & Ho0 & Eid & _ & _ & Et & _).
      rewrite Eid, Et. by apply Hcap.
    + destruct Hno as [->|(o' & -> & Hid & Ht & _)]; [done|]. destruct Ho as [<-|[]].
      unfold reserved_sum. rewrite filter_nil; [simpl; lia|].
      intros r Hr. unfold of_offering. rewrite bool_decide_eq_false_2; [done|].
      intros E. apply Hid. rewrite <- E. by apply Hrok.
Qed.

End OfferingInv.

(** The offering tables as a state machine: any interleaving of the repository
    transactions, and what holds of every database they can reach. *)

Module OfferingSteps.
Import Currency OfferingPolicy OfferingRepo OfferingFacts OfferingInv.

(** Read a reconfirmation-window test of the context as a comparison. *)
Ltac open_window :=
  match goal with
  | E : match Offering.effectiveRightsEndAt ?o with _ => _ end = false |- _ =>
      destruct (Offering.effectiveRightsEndAt o) eqn:?; [|discriminate E];
      unfold isReconfirmationWindowOpen in E
  end.

Section WithUlid.
Context (ulid : nat → string).

(** ** The effect of each transaction *)

Lemma effect_intro s s' :
  Forall2 row_evolves (reservations s) (reservations s') →
  Forall2 off_evolves (offerings s) (offerings s') →
  (∃ new, moneyEvents s' = moneyEvents s ++ new ∧ ∀ e, In e new → 0 < MoneyEvent.amountEur e) →
  effect s s'.
Proof.
  intros Hr Ho Hm. split; [| |done].
  - exists (reservations s'), []. rewrite app_nil_r. auto.
  - exists (offerings s'), []. rewrite app_nil_r. auto.
Qed.

Lemma nothing_appended {A} (P : A → Prop) (l : list A) :
  ∃ new, l = l ++ new ∧ ∀ e, In e new → P e.
Proof. exists []. by rewrite app_nil_r. Qed.

Lemma one_appended {A} (P : A → Prop) (l : list A) x :
  P x → ∃ new, l ++ [x] = l ++ new ∧ ∀ e, In e new → P e.
Proof. intros Hx. exists [x]. split; [done|]. by intros e [<-|[]]. Qed.

#[local] Hint Resolve nothing_appended one_appended : core.
#[local] Hint Extern 1 (Forall2 _ ?l ?l) => apply Forall2_refl; apply _ : core.

Lemma stage_set_evolves st r :
  stage_step (Reservation.stage r) st → row_evolves r (Reservation.set_stage st r).
Proof. intros H. repeat split. simpl. by apply rtc_once. Qed.

Lemma find_reservation_Some k s r :
  find_reservation k s = Some r → In r (reservations s) ∧ Reservation.id r = k.
Proof. unfold find_reservation. intros [Hr H]%find_row_Some. unfold by_id in H. by boolify. Qed.

Lemma find_offering_Some k s o :
  find_offering k s = Some o → In o (offerings s) ∧ Offering.id o = k.
Proof. unfold find_offering. intros [Hr H]%find_row_Some. unfold by_id in H. by boolify. Qed.

(** A single row updated by primary key. *)
Lemma update_reservation_evolves k f s r0 :
  wf s → find_reservation k s = Some r0 → row_evolves r0 (f r0) →
  Forall2 row_evolves (reservations s) (reservations (update_reservation k f s)).
Proof.
  intros W [Hr0 Hk]%find_reservation_Some Hf. apply update_where_Forall2; [apply _|].
  intros r Hr E. unfold by_id in E. boolify.
  assert (r = r0) as -> by (eapply NoDup_map_inj_in; [apply W|done..|congruence]). done.
Qed.

Lemma update_offering_evolves k f s o0 :
  wf s → find_offering k s = Some o0 → off_evolves o0 (f o0) →
  Forall2 off_evolves (offerings s) (offerings (update_offering k f s)).
Proof.
  intros W [Hr0 Hk]%find_offering_Some Hf. apply update_where_Forall2; [apply _|].
  intros r Hr E. unfold by_id in E. boolify.
  assert (r = o0) as -> by (eapply NoDup_map_inj_in; [apply W|done..|congruence]). done.
Qed.

Lemma effect_new_offering s s' o :
  reservations s' = reservations s → offerings s' = offerings s ++ [o] →
  moneyEvents s' = moneyEvents s → new_offering_ok s o → effect s s'.
Proof.
  intros Er Eo Em Hnew. split.
  - exists (reservations s), []. rewrite app_nil_r, Er. auto.
  - exists (offerings s), [o]. rewrite Eo. split_and!; [done | auto | right; by exists o].
  - rewrite Em. auto.
Qed.

Lemma openOffering_effect input s a s' :
  openOfferingForApprovedCase ulid input s = Ok (a, s') → effect s s'.
Proof.
  intros H. unfold openOfferingForApprovedCase in H. cbn [fresh] in H.
  inv_ok H; injection H as <- <-; try apply effect_refl; inv_creates; simpl in *;
    (eapply effect_new_offering; [done..|by repeat split]).
Qed.

Lemma recordMoneyEvent_effect input s s' :
  recordMoneyEvent ulid input s = Ok (tt, s') → effect s s'.
Proof.
  unfold recordMoneyEvent. cbn [fresh]. intros H. inv_ok H; injection H as <-;
    inv_creates; apply effect_intro; simpl; eauto.
Qed.

Lemma expireReservation_effect rid tr at_ s b s' :
  wf s → expireReservation ulid rid tr at_ s = Ok (b, s') → effect s s'.
Proof.
  intros W. unfold expireReservation. cbn [fresh]. intros H.
  inv_ok H; injection H as <- <-; try apply effect_refl.
  boolify. unfold stage_is in E0. boolify.
  apply effect_intro; simpl; auto.
  eapply update_reservation_evolves; [done..|]. apply stage_set_evolves. rewrite E0. constructor.
Qed.

Lemma reserved_rows_nonneg off s : wf s → Forall (λ x, 0 ≤ x) (reserved_rows off s).
Proof.
  intros W. apply List.Forall_forall. intros x Hx. apply in_map_iff in Hx as (r & <- & Hr).
  apply filter_In in Hr as [Hr _]. pose proof (wf_amounts s W r Hr). lia.
Qed.

Definition existing_for (input : CreateReservationInput) (s : db) : option Reservation.t :=
  match cr_clientIdempotencyKey input with
  | None => None
  | Some key => find_row (same_client_key (cr_accountId input) (cr_offeringId input) key) (reservations s)
  end.

Definition new_reservation (input : CreateReservationInput) (amount : Z) : Reservation.t :=
  Reservation.mk (cr_reservationId input) (cr_offeringId input) (cr_accountId input)
    (cr_clientIdempotencyKey input) amount ReservationStage.initiated
    (cr_disclosurePackVersionAtReservation input) None None (cr_createdAt input).

(** Every committed outcome of createReservation. *)
Inductive create_outcome (input : CreateReservationInput) (s : db) : CreateReservationResult → db → Prop :=
  | co_not_open :
      (∀ o, find_offering (cr_offeringId input) s = Some o → Offering.status o ≠ pre_offering) →
      create_outcome input s (mkCreated None (Some cc_offering_not_open) false None) s
  | co_reused o r :
      find_offering (cr_offeringId input) s = Some o → Offering.status o = pre_offering →
      existing_for input s = Some r →
      create_outcome input s
        (mkCreated (Some (Reservation.id r, Reservation.createdAt r)) None true
           (Some (mkReused (numeric2_text (Reservation.amountEur r)) (Reservation.stage r)
                    (latest_capital_state (Reservation.id r) s)))) s
  | co_no_capacity o amount :
      find_offering (cr_offeringId input) s = Some o → Offering.status o = pre_offering →
      existing_for input s = None → toCents (cr_amountEur input) = Ok amount →
      Offering.targetRaiseEur o < amount + sumZ (reserved_rows (cr_offeringId input) s) →
      create_outcome input s (mkCreated None (Some cc_capacity_exceeded) false None) s
  | co_created o amount s' e :
      find_offering (cr_offeringId input) s = Some o → Offering.status o = pre_offering →
      existing_for input s = None → toCents (cr_amountEur input) = Ok amount →
      0 < amount → amount + sumZ (reserved_rows (cr_offeringId input) s) ≤ Offering.targetRaiseEur o →
      admitted s (new_reservation input amount) →
      reservations s' = reservations s ++ [new_reservation input amount] →
      moneyEvents s' = moneyEvents s ++ [e] →
      MoneyEvent.reservationId e = cr_reservationId input →
      MoneyEvent.capitalState e = CapitalState.initiated → MoneyEvent.amountEur e = amount →
      offerings s' = offerings s → positions s' = positions s →
      disclosurePacks s' = disclosurePacks s → accounts s' = accounts s →
      create_outcome input s
        (mkCreated (Some (cr_reservationId input, cr_createdAt input)) None false None) s'.

Lemma createReservation_outcome input s res s' :
  wf s → createReservation ulid input s = Ok (res, s') → create_outcome input s res s'.
Proof.
  intros W H. unfold createReservation in H. cbn [fresh] in H.
  destruct (find_offering (cr_offeringId input) s) as [o|] eqn:Eo.
  2:{ injection H as <- <-. apply co_not_open. congruence. }
  destruct (find_offering_Some _ _ _ Eo) as [Ho Hoid].
  pose proof (wf_targets s W o Ho) as Ht.
  rewrite toCents_numeric2_text, toCents_coalesce_sum_text in H
    by (first [lia | by apply reserved_rows_nonneg]).
  cbn [rbind] in H. fold (existing_for input s) in H.
  pose proof (wf_capacity s W o Ho) as Hcap. rewrite Hoid in Hcap.
  destruct (bool_decide (Offering.status o = pre_offering)) eqn:Est; simpl in H; boolify.
  2:{ injection H as <- <-. apply co_not_open. congruence. }
  destruct (existing_for input s) as [r|] eqn:Eex.
  { injection H as <- <-. by eapply co_reused. }
  destruct (toCents (cr_amountEur input)) as [amount|] eqn:Ea; [cbn [rbind] in H|done].
  destruct (_ <? amount) eqn:Ec in H; boolify.
  { injection H as <- <-. eapply co_no_capacity; [done..|].
    destruct (0 <? _) eqn:E0 in Ec; boolify; lia. }
  inv_ok H. injection H as <- <-. inv_creates. simpl in *.
  assert (amount + sumZ (reserved_rows (cr_offeringId input) s) ≤ Offering.targetRaiseEur o).
  { destruct (0 <? _) eqn:E0 in Ec; boolify; lia. }
  eapply co_created; try done.
  - repeat split; simpl; try done. exists o. rewrite Hoid. by repeat split.
Qed.

Lemma createReservation_effect input s res s' :
  wf s → createReservation ulid input s = Ok (res, s') → effect s s'.
Proof.
  intros W H%createReservation_outcome; [|done]. destruct H; try apply effect_refl.
  split.
  - exists (reservations s), [new_reservation input amount].
    split_and!; [done | auto | right; by eexists].
  - exists (offerings s), []. rewrite app_nil_r. auto.
  - match goal with Hm : moneyEvents _ = _ |- _ => rewrite Hm end. apply one_appended. lia.
Qed.

(** publishFinalOfferingTerms: the gate, and the loop as one bulk update. *)

Definition published_row (s : db) (r : Reservation.t) : Reservation.t :=
  Reservation.set_stage (published_stage (latest_capital_state (Reservation.id r) s)) r.

Lemma latest_event_in l e : latest_event l = Some e → In e l.
Proof.
  revert e. induction l as [|x l IH]; simpl; [done|]. intros e.
  destruct (latest_event l); [destruct (event_before _ _)|]; naive_solver.
Qed.

Lemma latest_money_in k s e :
  latest_money k s = Some e → In e (moneyEvents s) ∧ MoneyEvent.reservationId e = k.
Proof.
  intros E%latest_event_in. apply filter_In in E as [? E]. unfold by_id in E. by boolify.
Qed.

Lemma omap_nonneg {A} (f : A → option Z) l :
  (∀ x y, f x = Some y → 0 ≤ y) → Forall (λ y, 0 ≤ y) (omap f l).
Proof.
  intros H. induction l as [|x l IH]; simpl; [constructor|].
  destruct (f x) eqn:E; [constructor; eauto | done].
Qed.

Lemma funded_rows_nonneg off s : wf s → Forall (λ x, 0 ≤ x) (funded_rows off s).
Proof.
  intros W. apply omap_nonneg. intros r x.
  destruct (latest_money _ _) as [e|] eqn:E; [|done].
  destruct (isReservationFunded _); [|done]. intros [= <-].
  apply latest_money_in in E as [E _]. pose proof (wf_money s W e E). lia.
Qed.

Record published (input : PublishInput) (s : db) (terms : PublishedTerms) (s' : db) : Prop := {
  pub_gate : ∃ o piv, find_offering_with_piv (pi_offeringId input) s = Some (o, piv) ∧
    Offering.status o = pre_offering ∧ Offering.finalOfferingPublishedAt o = None ∧
    Offering.targetRaiseEur o ≤ sumZ (funded_rows (pi_offeringId input) s) ∧
    isCompleteDisclosurePack (current_document_types (pi_offeringId input) s) = true;
  pub_reservations : reservations s' =
    update_where (initiated_of (pi_offeringId input)) (published_row s) (reservations s);
  pub_offerings : offerings s' =
    update_where (by_id Offering.id (pi_offeringId input))
      (Offering.set_window (Some (pi_publishedAt input))
         (Some (computeEffectiveRightsEndAt (pi_publishedAt input)))
         (Some (computeEffectiveRightsEndAt (pi_publishedAt input)))) (offerings s);
  pub_cancelled : pt_reservationsCancelled terms =
    length (List.filter
      (λ r, initiated_of (pi_offeringId input) r &&
            negb (isReservationFunded (latest_capital_state (Reservation.id r) s))) (reservations s));
  pub_money : ∃ new, moneyEvents s' = moneyEvents s ++ new ∧
    Forall2 (λ r e, MoneyEvent.reservationId e = Reservation.id r ∧
               MoneyEvent.capitalState e = CapitalState.reconfirmation_pending ∧
               MoneyEvent.amountEur e = Reservation.amountEur r ∧
               MoneyEvent.recordedAt e = pi_publishedAt input)
      (List.filter (λ r, initiated_of (pi_offeringId input) r &&
            isReservationFunded (latest_capital_state (Reservation.id r) s)) (reservations s)) new;
  pub_positions : positions s' = positions s;
  pub_packs : disclosurePacks s' = disclosurePacks s }.

Lemma filter_map_pair {A B} (h : A → B) (q : A * B → bool) (p : A → bool) l :
  List.filter q (map (λ x, (x, h x)) (List.filter p l)) =
  map (λ x, (x, h x)) (List.filter (λ x, p x && q (x, h x)) l).
Proof.
  induction l as [|x l IH]; simpl; [done|]. destruct (p x); simpl; [|done].
  destruct (q (x, h x)); simpl; by rewrite IH.
Qed.

Lemma publish_published input s terms s' :
  wf s → publishFinalOfferingTerms ulid input s = Ok (inl terms, s') → published input s terms s'.
Proof.
  intros W H. unfold publishFinalOfferingTerms in H. cbn [fresh] in H.
  destruct (find_offering_with_piv _ s) as [[o piv]|] eqn:Eo; [|done].
  assert (In o (offerings s)) as Ho.
  { unfold find_offering_with_piv in Eo. destruct (find_offering _ s) eqn:Ef; [|done].
    destruct (find_row _ (pivs s)); [|done]. injection Eo as <- <-. by eapply find_offering_Some. }
  pose proof (wf_targets s W o Ho).
  rewrite canPublish_cents in H by (first [lia | by apply funded_rows_nonneg]).
  inv_ok H; try discriminate. injection H as <- <-. injection E1 as <-. subst.
  apply publish_loop_ok in E4 as (Hf & Hp & Hr & Hids & Hn & new & Hm & Hnew).
  destruct Hf as (_ & _ & _ & _ & Hoff & Hpk & _). boolify.
  rewrite foldl_map in Hr; simpl in Hr.
  rewrite (seq_update_bulk Reservation.id _
    (λ r0, Reservation.set_stage (published_stage (latest_capital_state (Reservation.id r0) s)))
    (published_row s)) in Hr by (try done; apply W).
  rewrite filter_map_pair in Hn, Hnew. rewrite length_map in Hn. rewrite Forall2_fmap_l in Hnew.
  clear Hids. destruct (bool_decide (l = [])); (split; [by exists o, piv|..]; simpl; rewrite ?Hoff; eauto).
Qed.

Lemma initiated_of_spec off r :
  initiated_of off r = true ↔
  Reservation.offeringId r = off ∧ Reservation.stage r = ReservationStage.initiated.
Proof.
  unfold initiated_of, of_offering, stage_is.
  by rewrite andb_true_iff, !bool_decide_eq_true.
Qed.

Lemma find_offering_with_piv_Some k s o piv :
  find_offering_with_piv k s = Some (o, piv) → find_offering k s = Some o.
Proof.
  unfold find_offering_with_piv. destruct (find_offering k s); [|done].
  destruct (find_row _ _); [|done]. by intros [= -> ->].
Qed.

Lemma Forall2_amounts_pos (P : Reservation.t → MoneyEvent.t → Prop) s rows new :
  wf s → (∀ r, In r rows → In r (reservations s)) →
  (∀ r e, P r e → MoneyEvent.amountEur e = Reservation.amountEur r) →
  Forall2 P rows new → ∀ e, In e new → 0 < MoneyEvent.amountEur e.
Proof.
  intros W Hin HP. induction 1 as [|r e rows new H _ IH]; [done|].
  intros e' [<-|He]; [|apply IH; [intros; apply Hin; simpl; auto | done]].
  rewrite (HP _ _ H). apply (wf_amounts s W), Hin. by left.
Qed.

Lemma published_effect input s terms s' :
  wf s → published input s terms s' → effect s s'.
Proof.
  intros W [(o & piv & Ho & Hst & Hpub & _) Hr Hoff _ (new & Hm & Hnew) _ _].
  apply find_offering_with_piv_Some in Ho. apply effect_intro.
  - rewrite Hr. apply update_where_Forall2; [apply _|].
    intros r _ [_ E]%initiated_of_spec. apply stage_set_evolves. rewrite E.
    unfold published_stage. destruct (isReservationFunded _); constructor.
  - rewrite Hoff. eapply (update_offering_evolves _ _ s); [done..|].
    repeat split; try done. simpl. congruence.
  - exists new. split; [done|]. eapply Forall2_amounts_pos; [done| | |exact Hnew].
    + intros r Hin. apply filter_In in Hin. tauto.
    + by intros r e (? & ? & ? & ?).
Qed.

(** reconfirmReservation *)

Record reconfirmed (rid accountId : string) (at_ : Z) (s s' : db) : Prop := {
  rec_gate : ∃ r o e, find_reservation rid s = Some r ∧ Reservation.accountId r = accountId ∧
    Reservation.stage r = ReservationStage.awaiting_reconfirmation ∧
    find_offering (Reservation.offeringId r) s = Some o ∧
    Offering.effectiveRightsEndAt o = Some e ∧ at_ < e ∧
    isCompleteDisclosurePack (current_document_types (Offering.id o) s) = true;
  rec_reservations : reservations s' =
    update_where (by_id Reservation.id rid)
      (λ r, Reservation.set_reconfirmedAt (Some at_)
              (Reservation.set_stage ReservationStage.reconfirmed r)) (reservations s);
  rec_frame : offerings s' = offerings s ∧ moneyEvents s' = moneyEvents s ∧
    positions s' = positions s ∧ disclosurePacks s' = disclosurePacks s }.

Lemma reconfirm_reconfirmed rid acc tr at_ s t s' :
  reconfirmReservation ulid rid acc tr at_ s = Ok (inl t, s') →
  t = at_ ∧ reconfirmed rid acc at_ s s'.
Proof.
  unfold reconfirmReservation. cbn [fresh]. intros H. inv_ok H; try discriminate.
  injection H as <- <-. split; [done|]. split; [|done|done].
  open_window. unfold stage_is in *. boolify.
  eexists _, _, _. by repeat split.
Qed.

Lemma reconfirmed_effect rid acc at_ s s' : wf s → reconfirmed rid acc at_ s s' → effect s s'.
Proof.
  intros W [(r & o & e & Hr & _ & Hst & _) Hrs (Ho & Hm & _)]. apply effect_intro.
  - rewrite Hrs. eapply (update_reservation_evolves _ _ s); [done..|].
    repeat split. simpl. rewrite Hst. apply rtc_once. constructor.
  - rewrite Ho. auto.
  - rewrite Hm. auto.
Qed.

(** commitOfferingFinalization *)

Definition reconfirmed_in (offeringId : string) (r : Reservation.t) : bool :=
  settling_of offeringId r && stage_is ReservationStage.reconfirmed r.

Definition wallet_of (s : db) (r : Reservation.t) : option string :=
  WalletRegistration.walletAddress <$> find_wallet (Reservation.accountId r) s.

Record committed (offeringId : string) (at_ : Z) (s : db) (c : CommittedFinalization) (s' : db)
    : Prop := {
  com_gate : ∃ o e, find_offering offeringId s = Some o ∧ Offering.status o = pre_offering ∧
    Offering.finalOfferingPublishedAt o ≠ None ∧ Offering.effectiveRightsEndAt o = Some e ∧ e ≤ at_ ∧
    ∃ new, positions s' = positions s ++ new ∧
      Forall2 (λ r p, position_for (Offering.pivId o) r (wallet_of s r) p)
        (List.filter (reconfirmed_in offeringId) (reservations s)) new;
  com_reservations : reservations s' =
    update_where (settling_of offeringId) (committed_row at_) (reservations s);
  com_offerings : offerings s' =
    update_where (by_id Offering.id offeringId) (Offering.set_status final_offering) (offerings s);
  com_counts : cf_positionsCreated c =
      length (List.filter (reconfirmed_in offeringId) (reservations s)) ∧
    cf_reservationsLapsed c = length (List.filter
      (λ r, settling_of offeringId r && negb (stage_is ReservationStage.reconfirmed r)) (reservations s));
  com_money : ∃ new, moneyEvents s' = moneyEvents s ++ new ∧
    Forall2 (λ r e, MoneyEvent.reservationId e = Reservation.id r ∧
               MoneyEvent.capitalState e = CapitalState.eurc_finalized ∧
               MoneyEvent.amountEur e = Reservation.amountEur r ∧ MoneyEvent.recordedAt e = at_)
      (List.filter (reconfirmed_in offeringId) (reservations s)) new;
  com_packs : disclosurePacks s' = disclosurePacks s }.

Lemma commit_committed off tr at_ s c s' :
  wf s → commitOfferingFinalization ulid off tr at_ s = Ok (inl c, s') → committed off at_ s c s'.
Proof.
  intros W H. unfold commitOfferingFinalization in H. cbn [fresh] in H.
  inv_ok H; try discriminate. subst. injection H as <- <-.
  match goal with E : commit_loop _ _ _ _ _ = _ |- _ => rename E into EL end.
  apply commit_loop_ok in EL as (Hf & Hr & -> & -> & (np & Hp & Hnp) & (nm & Hm & Hnm)).
  2:{ apply List.Forall_forall. intros x Hx. apply in_map_iff in Hx as (r & <- & Hr).
      apply filter_In in Hr as [Hr _]. by apply (wf_amounts s W). }
  destruct Hf as (_ & _ & _ & _ & Hoff & Hpk & _).
  open_window. boolify.
  rewrite foldl_map in Hr. simpl in Hr.
  rewrite (seq_update_bulk Reservation.id _ (commit_update at_) (committed_row at_)) in Hr
    by (try apply W; unfold committed_row, commit_update; intros r; by destruct (stage_is _ r)).
  rewrite filter_map_pair, Forall2_fmap_l in Hnp, Hnm. rewrite !filter_map_pair, !length_map.
  split; simpl; rewrite ?Hoff; eauto.
  eexists _, _. split_and!; [done..|by exists np].
Qed.

Lemma settling_of_spec off r :
  settling_of off r = true ↔ Reservation.offeringId r = off ∧
  (Reservation.stage r = ReservationStage.awaiting_reconfirmation ∨
   Reservation.stage r = ReservationStage.reconfirmed).
Proof.
  unfold settling_of, of_offering, stage_is.
  by rewrite andb_true_iff, orb_true_iff, !bool_decide_eq_true.
Qed.

Lemma committed_row_evolves off at_ r :
  settling_of off r = true → row_evolves r (committed_row at_ r).
Proof.
  intros [_ H]%settling_of_spec. unfold committed_row, stage_is.
  destruct H as [E|E]; rewrite E; simpl.
  - apply stage_set_evolves. rewrite E. constructor.
  - repeat split. simpl. rewrite E. apply rtc_once. constructor.
Qed.

Lemma committed_effect off at_ s c s' : wf s → committed off at_ s c s' → effect s s'.
Proof.
  intros W [(o & e & Ho & Hst & _) Hr Hoff _ (nm & Hm & Hnm) _]. apply effect_intro.
  - rewrite Hr. apply update_where_Forall2; [apply _|]. intros. by eapply committed_row_evolves.
  - rewrite Hoff. eapply (update_offering_evolves _ _ s); [done..|].
    repeat split; try done. simpl. rewrite Hst. apply rtc_once. constructor.
  - exists nm. split; [done|]. eapply Forall2_amounts_pos; [done| | |exact Hnm].
    + intros r Hin. apply filter_In in Hin. tauto.
    + by intros r e' (? & ? & ? & ?).
Qed.

(** classifyMateriality *)

Record classified (input : ClassifyMaterialityInput) (s : db) (c : Classified) (s' : db) : Prop := {
  cla_gate : ∃ o, find_offering (ci_offeringId input) s = Some o ∧
    Offering.status o = pre_offering ∧ Offering.finalOfferingPublishedAt o ≠ None ∧
    (materialityResetTriggered (ci_classification input) = false →
       cd_effectiveRightsEndAt c = Offering.effectiveRightsEndAt o);
  cla_flag : cd_resetTriggered c = materialityResetTriggered (ci_classification input);
  cla_reset : materialityResetTriggered (ci_classification input) = true →
    reservations s' = update_where (reconfirmed_of (ci_offeringId input)) reset_row (reservations s) ∧
    offerings s' = update_where (by_id Offering.id (ci_offeringId input))
      (λ o, Offering.set_window (Offering.finalOfferingPublishedAt o)
              (Some (computeEffectiveRightsEndAt (ci_classifiedAt input)))
              (Some (computeEffectiveRightsEndAt (ci_classifiedAt input))) o) (offerings s) ∧
    cd_effectiveRightsEndAt c = Some (computeEffectiveRightsEndAt (ci_classifiedAt input)) ∧
    cd_reservationsReset c =
      length (List.filter (reconfirmed_of (ci_offeringId input)) (reservations s));
  cla_noreset : materialityResetTriggered (ci_classification input) = false →
    reservations s' = reservations s ∧ offerings s' = offerings s ∧ cd_reservationsReset c = 0%nat;
  cla_record : ∃ rec, materialityRecords s' = materialityRecords s ++ [rec] ∧
    MaterialityRecord.offeringId rec = ci_offeringId input ∧
    MaterialityRecord.classification rec = ci_classification input ∧
    MaterialityRecord.resetTriggered rec = materialityResetTriggered (ci_classification input);
  cla_frame : moneyEvents s' = moneyEvents s ∧ positions s' = positions s ∧
    disclosurePacks s' = disclosurePacks s }.

Lemma classify_classified input s c s' :
  wf s → classifyMateriality ulid input s = Ok (inl c, s') → classified input s c s'.
Proof.
  intros W H. unfold classifyMateriality in H. cbn [fresh] in H.
  destruct (find_offering _ s) as [o|] eqn:Eo; [|done].
  destruct (_ || _) eqn:Eg in H; [done|]. boolify.
  destruct (materialityResetTriggered (ci_classification input)) eqn:Er;
    injection H as <- <-; (split; simpl; rewrite ?reset_loop_eq; try done); simpl; try (by eexists).
  - exists o. repeat split; congruence.
  - intros _. split_and!; try done.
    by apply (seq_update_bulk Reservation.id _ (λ _, reset_row) reset_row); [apply W|..].
  - congruence.
  - congruence.
Qed.

Lemma reconfirmed_of_spec off r :
  reconfirmed_of off r = true ↔
  Reservation.offeringId r = off ∧ Reservation.stage r = ReservationStage.reconfirmed.
Proof.
  unfold reconfirmed_of, of_offering, stage_is. by rewrite andb_true_iff, !bool_decide_eq_true.
Qed.

Lemma classified_effect input s c s' : wf s → classified input s c s' → effect s s'.
Proof.
  intros W [(o & Ho & _) _ Hreset Hno _ (Hm & _)].
  destruct (materialityResetTriggered (ci_classification input)).
  - destruct (Hreset eq_refl) as (Hr & Hoff & _). apply effect_intro; [| |rewrite Hm; auto].
    + rewrite Hr. apply update_where_Forall2; [apply _|]. intros r _ [_ E]%reconfirmed_of_spec.
      repeat split. simpl. rewrite E. apply rtc_once. constructor.
    + rewrite Hoff. eapply (update_offering_evolves _ _ s); [done..|]. by repeat split.
  - destruct (Hno eq_refl) as (Hr & Hoff & _). apply effect_intro; [rewrite Hr|rewrite Hoff|rewrite Hm]; auto.
Qed.

(** publishDisclosurePack touches no reservation, offering or money event. *)

Definition pack_frame (s s' : db) : Prop :=
  offerings s' = offerings s ∧ reservations s' = reservations s ∧
  moneyEvents s' = moneyEvents s ∧ positions s' = positions s.

Lemma new_documents_frame docs s :
  pack_frame s (new_documents ulid docs s).2 ∧
  disclosurePacks (new_documents ulid docs s).2 = disclosurePacks s.
Proof.
  revert s. induction docs as [|[ty ref] docs IH]; intros s; simpl; [done|].
  specialize (IH (set_ulids (S (ulids s)) s)).
  destruct (new_documents ulid docs _) as [rest s1]. simpl in *. exact IH.
Qed.

Lemma publishDisclosurePack_frame input s res s' :
  publishDisclosurePack ulid input s = Ok (res, s') → pack_frame s s'.
Proof.
  intros H. unfold publishDisclosurePack in H. cbn [fresh] in H.
  inv_ok H; try (by injection H as <- <-).
  all: match goal with E : new_documents _ ?docs ?s0 = _ |- _ =>
         pose proof (new_documents_frame docs s0) as [Hf _]; rewrite E in Hf end.
  all: injection H as <- <-; inv_creates; unfold pack_frame in *; simpl in *.
  all: destruct (max_version _); simpl in *; tauto.
Qed.

Lemma pack_frame_effect s s' : pack_frame s s' → effect s s'.
Proof. intros (Ho & Hr & Hm & _). apply effect_intro; [rewrite Hr|rewrite Ho|rewrite Hm]; auto. Qed.

Lemma close_offering_effect k s : effect s (close_offering k s).
Proof.
  apply effect_intro; simpl; auto. apply update_where_Forall2; [apply _|].
  intros o _ _. repeat split; try done. simpl. apply rtc_once. constructor.
Qed.

(** ** Any interleaving of transactions *)

(** How the other modules may change a position: settlement activates it. *)
Definition position_evolves (p p' : Position.t) : Prop :=
  Position.id p' = Position.id p ∧ Position.reservationId p' = Position.reservationId p ∧
  Position.pivId p' = Position.pivId p ∧ Position.accountId p' = Position.accountId p ∧
  Position.unitCount p' = Position.unitCount p ∧ Position.costBasisEur p' = Position.costBasisEur p.

(** The rest of the system: anything that leaves the offering tables alone, adds escrow
    positions (which carry no reservation) and activates positions. *)
Record outside (s s' : db) : Prop := {
  out_offerings : offerings s' = offerings s;
  out_reservations : reservations s' = reservations s;
  out_money : moneyEvents s' = moneyEvents s;
  out_packs : disclosurePacks s' = disclosurePacks s;
  out_positions : ∃ l new, positions s' = l ++ new ∧ Forall2 position_evolves (positions s) l ∧
    ∀ p, In p new → Position.reservationId p = None }.

Inductive step (s s' : db) : Prop :=
  | st_open input a : openOfferingForApprovedCase ulid input s = Ok (a, s') → step s s'
  | st_create input a : createReservation ulid input s = Ok (a, s') → step s s'
  | st_money input : recordMoneyEvent ulid input s = Ok (tt, s') → step s s'
  | st_expire rid tr at_ b : expireReservation ulid rid tr at_ s = Ok (b, s') → step s s'
  | st_publish input a : publishFinalOfferingTerms ulid input s = Ok (a, s') → step s s'
  | st_reconfirm rid acc tr at_ a : reconfirmReservation ulid rid acc tr at_ s = Ok (a, s') → step s s'
  | st_commit off tr at_ a : commitOfferingFinalization ulid off tr at_ s = Ok (a, s') → step s s'
  | st_classify input a : classifyMateriality ulid input s = Ok (a, s') → step s s'
  | st_pack input a : publishDisclosurePack ulid input s = Ok (a, s') → step s s'
  | st_close off : s' = close_offering off s → step s s'
  | st_outside : outside s s' → step s s'.

(** A conflict is reported without writing. *)
Lemma publish_conflict input s c s' :
  publishFinalOfferingTerms ulid input s = Ok (inr c, s') → s' = s.
Proof. unfold publishFinalOfferingTerms. cbn [fresh]. intros H. inv_ok H; by injection H as _ <-. Qed.

Lemma reconfirm_conflict rid acc tr at_ s c s' :
  reconfirmReservation ulid rid acc tr at_ s = Ok (inr c, s') → s' = s.
Proof. unfold reconfirmReservation. cbn [fresh]. intros H. inv_ok H; by injection H as _ <-. Qed.

Lemma commit_conflict off tr at_ s c s' :
  commitOfferingFinalization ulid off tr at_ s = Ok (inr c, s') → s' = s.
Proof. unfold commitOfferingFinalization. cbn [fresh]. intros H. inv_ok H; by injection H as _ <-. Qed.

Lemma classify_conflict input s c s' :
  classifyMateriality ulid input s = Ok (inr c, s') → s' = s.
Proof.
  unfold classifyMateriality. cbn [fresh]. intros H.
  inv_ok H; first [discriminate | by injection H as _ <-].
Qed.

#[local] Hint Resolve openOffering_effect createReservation_effect recordMoneyEvent_effect
  expireReservation_effect published_effect publish_published reconfirmed_effect
  committed_effect commit_committed classified_effect classify_classified
  publishDisclosurePack_frame pack_frame_effect effect_refl : vista.

Lemma step_effect s s' : wf s → step s s' → effect s s'.
Proof.
  intros W [| | | |input [t|c] H|rid acc tr at_ [t|c] H|off tr at_ [c|c] H|input [c|c] H| |off ->|H];
    eauto with vista.
  - apply publish_conflict in H as ->. auto with vista.
  - apply reconfirm_reconfirmed in H as [_ H]. eauto with vista.
  - apply reconfirm_conflict in H as ->. auto with vista.
  - apply commit_conflict in H as ->. auto with vista.
  - apply classify_conflict in H as ->. auto with vista.
  - apply close_offering_effect.
  - destruct H as [Ho Hr Hm _ _]. apply effect_intro; [rewrite Hr|rewrite Ho|rewrite Hm]; auto.
Qed.

(** Databases reachable from one whose offering tables are empty. *)
Definition reachable (s : db) : Prop :=
  ∃ a k c w, rtc step (empty_db a k c w) s.

Lemma steps_wf s s' : wf s → rtc step s s' → wf s'.
Proof.
  intros W H. induction H as [|s s1 s2 H1 _ IH]; [done|].
  apply IH. eapply effect_wf; [done|]. by apply step_effect.
Qed.

(** Rows are never deleted, only evolved. *)
Lemma Forall2_in_l {A B} (R : A → B → Prop) l l' x :
  Forall2 R l l' → In x l → ∃ y, In y l' ∧ R x y.
Proof. induction 1; simpl; naive_solver. Qed.

Lemma effect_offering s s' o :
  effect s s' → In o (offerings s) → ∃ o', In o' (offerings s') ∧ off_evolves o o'.
Proof.
  intros [_ (l & new & -> & Hl & _) _] Ho. setoid_rewrite in_app_iff.
  destruct (Forall2_in_l _ _ _ _ Hl Ho) as (o' & ? & ?). eauto.
Qed.

Lemma steps_row s s' r :
  wf s → rtc step s s' → In r (reservations s) →
  ∃ r', In r' (reservations s') ∧ row_evolves r r'.
Proof.
  intros W H. revert r. induction H as [s|s s1 s2 H1 _ IH]; intros r Hr; [by exists r|].
  pose proof (step_effect _ _ W H1) as E.
  destruct (eff_reservations _ _ E) as (l & new & El & Hl & _).
  destruct (Forall2_in_l _ _ _ _ Hl Hr) as (r1 & Hr1 & Ev1).
  destruct (IH (effect_wf _ _ W E) r1) as (r2 & Hr2 & Ev2); [rewrite El, in_app_iff; auto|].
  exists r2. split; [done | by etrans].
Qed.

Lemma reachable_wf s : reachable s → wf s.
Proof. intros (a & k & c & w & H). eapply steps_wf; [apply wf_empty | done]. Qed.

End WithUlid.
End OfferingSteps.
