(* ===== verification/OfferingLedger.v ===== *)
(** The position ledger against the reservations that pay for it: over every interleaving
    of transactions, reservation-backed positions and finalized reservations are in
    one-to-one correspondence. *)

From S2P Require Import Prelude JsString Currency Db OfferingPolicy OfferingRepo OfferingFacts OfferingInv.

Module OfferingLedger.
Import Currency OfferingPolicy OfferingRepo OfferingFacts OfferingInv OfferingSteps.

(** [p] is what the settlement of [r] owes its holder: the euros paid in as cost basis,
    and one unit per euro (whole millionths of a unit). *)
Definition settles (r : Reservation.t) (p : Position.t) : Prop :=
  Position.reservationId p = Some (Reservation.id r) ∧
  Position.accountId p = Reservation.accountId r ∧
  Position.costBasisEur p = Reservation.amountEur r ∧
  Position.unitCount p = Reservation.amountEur r * 10000.

Definition is_final (r : Reservation.t) : bool := stage_is ReservationStage.finalized r.
Definition final_rows (s : db) : list Reservation.t := List.filter is_final (reservations s).
Definition backed_ids (s : db) : list string := omap Position.reservationId (positions s).

Record backed (s : db) : Prop := {
  bk_position : ∀ p k, In p (positions s) → Position.reservationId p = Some k →
    ∃ r, In r (final_rows s) ∧ settles r p;
  bk_once : List.NoDup (backed_ids s);
  bk_final : ∀ r, In r (final_rows s) → In (Reservation.id r) (backed_ids s) }.

Lemma in_omap {A B} (f : A → option B) l y : In y (omap f l) ↔ ∃ x, In x l ∧ f x = Some y.
Proof. rewrite <- !list_elem_of_In, list_elem_of_omap. setoid_rewrite list_elem_of_In. done. Qed.

(** Transactions that settle nothing. *)
Record quiet (s s' : db) : Prop := {
  qt_final : final_rows s' = final_rows s;
  qt_positions : ∃ l new, positions s' = l ++ new ∧ Forall2 position_evolves (positions s) l ∧
    ∀ p, In p new → Position.reservationId p = None }.

Lemma position_evolves_refl l : Forall2 position_evolves l l.
Proof. induction l; by repeat constructor. Qed.

Lemma quiet_intro s s' :
  final_rows s' = final_rows s → positions s' = positions s → quiet s s'.
Proof.
  intros Hf Hp. split; [done|]. exists (positions s), []. rewrite app_nil_r.
  split_and!; [done | apply position_evolves_refl | done].
Qed.

Lemma quiet_backed s s' : backed s → quiet s s' → backed s'.
Proof.
  intros B [Hf (l & new & Hp & Hl & Hnew)].
  assert (backed_ids s' = backed_ids s) as Hids.
  { unfold backed_ids. rewrite Hp, omap_app.
    assert (omap Position.reservationId new = []) as ->.
    { clear -Hnew. induction new as [|p new IH]; simpl in *; [done|]. rewrite Hnew by auto. auto. }
    rewrite app_nil_r. clear -Hl. induction Hl as [|p p' ps ps' H _ IH]; simpl; [done|].
    destruct H as (_ & -> & _). destruct (Position.reservationId p); [f_equal|]; exact IH. }
  split; rewrite ?Hf, ?Hids; try apply B.
  intros p k Hin Hk. rewrite Hp, in_app_iff in Hin. destruct Hin as [Hin|Hin].
  2:{ rewrite Hnew in Hk; done. }
  destruct (Forall2_in_r _ _ _ _ Hl Hin) as (p0 & Hp0 & Hev).
  destruct Hev as (_ & E1 & _ & E2 & E3 & E4). rewrite E1 in Hk.
  destruct (bk_position s B p0 k Hp0 Hk) as (r & Hr & Hs). exists r. split; [done|].
  unfold settles in *. rewrite E1, E2, E3, E4. done.
Qed.

(** Updates that neither leave nor enter [finalized] keep the finalized rows. *)
Lemma update_where_final p f l :
  (∀ r, In r l → p r = true → is_final r = false ∧ is_final (f r) = false) →
  List.filter is_final (update_where p f l) = List.filter is_final l.
Proof.
  induction l as [|r l IH]; intros H; [done|]. rewrite update_where_cons. simpl.
  rewrite IH by (intros; apply H; simpl; auto).
  destruct (p r) eqn:E; [|done]. by destruct (H r (or_introl eq_refl) E) as [-> ->].
Qed.

Section WithUlid.
Context (ulid : nat → string).

Lemma not_final st r : Reservation.stage r = st → st ≠ ReservationStage.finalized → is_final r = false.
Proof. intros <- H. by apply bool_decide_eq_false_2. Qed.

#[local] Ltac not_final := eapply not_final; [done || eassumption|done].

Lemma single_row_final k f s r0 :
  wf s → find_reservation k s = Some r0 → is_final r0 = false → is_final (f r0) = false →
  final_rows (update_reservation k f s) = final_rows s.
Proof.
  intros W [Hr0 Hk]%find_reservation_Some H0 Hf. apply update_where_final.
  intros r Hr E. unfold by_id in E. boolify.
  by assert (r = r0) as -> by (eapply NoDup_map_inj_in; [apply W|done..|congruence]).
Qed.

Lemma open_quiet input s a s' :
  openOfferingForApprovedCase ulid input s = Ok (a, s') → quiet s s'.
Proof.
  intros H. unfold openOfferingForApprovedCase in H. cbn [fresh] in H.
  inv_ok H; injection H as <- <-; inv_creates; by apply quiet_intro.
Qed.

Lemma create_quiet input s a s' :
  wf s → createReservation ulid input s = Ok (a, s') → quiet s s'.
Proof.
  intros W H%createReservation_outcome; [|done]. destruct H; try by apply quiet_intro.
  apply quiet_intro; [|done]. unfold final_rows.
  match goal with Hr : reservations _ = _ |- _ => rewrite Hr end.
  rewrite List.filter_app. simpl. by rewrite app_nil_r.
Qed.

Lemma money_quiet input s s' : recordMoneyEvent ulid input s = Ok (tt, s') → quiet s s'.
Proof.
  unfold recordMoneyEvent. cbn [fresh]. intros H.
  inv_ok H; injection H as <-; inv_creates; by apply quiet_intro.
Qed.

Lemma expire_quiet rid tr at_ s b s' :
  wf s → expireReservation ulid rid tr at_ s = Ok (b, s') → quiet s s'.
Proof.
  intros W. unfold expireReservation. cbn [fresh]. intros H.
  inv_ok H; injection H as <- <-; try by apply quiet_intro.
  unfold stage_is in *. boolify. apply quiet_intro; [|done].
  eapply (single_row_final _ _ s); [done..| |]; not_final.
Qed.

Lemma published_quiet input s t s' : published input s t s' → quiet s s'.
Proof.
  intros [_ Hr _ _ _ Hp _]. apply quiet_intro; [|done]. unfold final_rows. rewrite Hr.
  apply update_where_final. intros r _ [_ E]%initiated_of_spec. split; [not_final|].
  eapply not_final; [done|]. simpl. unfold published_stage. by destruct (isReservationFunded _).
Qed.

Lemma reconfirmed_quiet rid acc at_ s s' : wf s → reconfirmed rid acc at_ s s' → quiet s s'.
Proof.
  intros W [(r & o & e & Hr & _ & Hst & _) Hrs (_ & _ & Hp & _)]. apply quiet_intro; [|done].
  unfold final_rows. rewrite Hrs. eapply (single_row_final _ _ s); [done..| |]; not_final.
Qed.

Lemma classified_quiet input s c s' : classified input s c s' → quiet s s'.
Proof.
  intros [_ _ Hreset Hno _ (_ & Hp & _)]. apply quiet_intro; [|done]. unfold final_rows.
  destruct (materialityResetTriggered (ci_classification input)).
  - destruct (Hreset eq_refl) as (-> & _). apply update_where_final.
    intros r _ [_ E]%reconfirmed_of_spec. split; not_final.
  - by destruct (Hno eq_refl) as (-> & _).
Qed.

(** ** Settlement *)

Lemma in_final_rows s r :
  In r (final_rows s) ↔ In r (reservations s) ∧ Reservation.stage r = ReservationStage.finalized.
Proof.
  unfold final_rows, is_final, stage_is. by rewrite filter_In, bool_decide_eq_true.
Qed.

Lemma reconfirmed_in_spec off r :
  reconfirmed_in off r = true ↔
  Reservation.offeringId r = off ∧ Reservation.stage r = ReservationStage.reconfirmed.
Proof.
  unfold reconfirmed_in, stage_is. rewrite andb_true_iff, settling_of_spec, bool_decide_eq_true.
  tauto.
Qed.

Lemma committed_row_reconfirmed at_ r :
  Reservation.stage r = ReservationStage.reconfirmed →
  committed_row at_ r =
    Reservation.set_finalizedAt (Some at_) (Reservation.set_stage ReservationStage.finalized r).
Proof. intros E. unfold committed_row, stage_is. by rewrite E. Qed.

(** The finalized rows after a commit: the old ones, and the settled form of each row
    that was reconfirmed. *)
Lemma committed_final off at_ s c s' r' :
  committed off at_ s c s' →
  In r' (final_rows s') ↔ In r' (final_rows s) ∨
    ∃ r, In r (List.filter (reconfirmed_in off) (reservations s)) ∧ r' = committed_row at_ r.
Proof.
  intros C. rewrite !in_final_rows, (com_reservations _ _ _ _ _ C), in_update_where.
  setoid_rewrite filter_In. setoid_rewrite reconfirmed_in_spec. split.
  - intros [(r & Hr & ->) Hst]. destruct (settling_of off r) eqn:E; [|by left].
    right. apply settling_of_spec in E as [Eo [E|E]]; exists r; [|done].
    exfalso. unfold committed_row, stage_is in Hst. by rewrite E in Hst.
  - intros [[Hr Hst]|(r & (Hr & Eo & Est) & ->)].
    + split; [|done]. exists r'. split; [done|]. destruct (settling_of off r') eqn:E; [|done].
      apply settling_of_spec in E as [_ [E|E]]; congruence.
    + split; [|by rewrite committed_row_reconfirmed]. exists r. split; [done|].
      by rewrite (proj2 (settling_of_spec off r)) by auto.
Qed.

Lemma position_for_settles piv w at_ r p :
  Reservation.stage r = ReservationStage.reconfirmed → position_for piv r w p →
  settles (committed_row at_ r) p.
Proof.
  intros Hst (H1 & _ & H2 & H3 & H4 & _). unfold settles.
  rewrite committed_row_reconfirmed by done. done.
Qed.

Lemma new_backed_ids (P : Reservation.t → Position.t → Prop) rows new :
  (∀ r p, P r p → Position.reservationId p = Some (Reservation.id r)) →
  Forall2 P rows new → omap Position.reservationId new = map Reservation.id rows.
Proof.
  intros HP. induction 1 as [|r p rows new H _ IH]; [done|]. cbn. rewrite (HP _ _ H). cbn. by f_equal.
Qed.

Lemma commit_backed off at_ s c s' : wf s → backed s → committed off at_ s c s' → backed s'.
Proof.
  intros W B C. destruct (com_gate _ _ _ _ _ C) as (o & e & _ & _ & _ & _ & _ & new & Hp & Hnew).
  assert (omap Position.reservationId new =
    map Reservation.id (List.filter (reconfirmed_in off) (reservations s))) as Hids.
  { eapply new_backed_ids; [|exact Hnew]. by intros r p (? & _). }
  assert (backed_ids s' = backed_ids s ++
    map Reservation.id (List.filter (reconfirmed_in off) (reservations s))) as Hall.
  { unfold backed_ids. by rewrite Hp, omap_app, Hids. }
  split.
  - intros p k Hin Hk. rewrite Hp, in_app_iff in Hin. destruct Hin as [Hin|Hin].
    + destruct (bk_position s B p k Hin Hk) as (r & Hr & Hs). exists r. split; [|done].
      apply (committed_final _ _ _ _ _ _ C). by left.
    + destruct (Forall2_in_r _ _ _ _ Hnew Hin) as (r & Hr & Hpos).
      exists (committed_row at_ r). split; [apply (committed_final _ _ _ _ _ _ C); right; by exists r|].
      apply filter_In in Hr as [_ [_ Hst]%reconfirmed_in_spec]. by eapply position_for_settles.
  - rewrite Hall. apply List.NoDup_app; [apply B | apply NoDup_map_filter, W |].
    intros k Hk Hin. apply in_omap in Hk as (p & Hp0 & Hk).
    destruct (bk_position s B p k Hp0 Hk) as (r & Hr & Hs & _). apply in_final_rows in Hr as [Hr Hst].
    apply in_map_iff in Hin as (r' & E & Hr'). apply filter_In in Hr' as [Hr' [_ Hst']%reconfirmed_in_spec].
    assert (r' = r) as -> by (eapply NoDup_map_inj_in; [apply W|done..|congruence]). congruence.
  - intros r Hr. rewrite Hall, in_app_iff.
    apply (committed_final _ _ _ _ _ _ C) in Hr as [Hr|(r0 & Hr0 & ->)]; [left; by apply B|right].
    apply filter_In in Hr0 as Hr1. destruct Hr1 as [_ [_ Hst]%reconfirmed_in_spec].
    rewrite committed_row_reconfirmed by done. simpl. by apply in_map.
Qed.

Lemma backed_empty a k c w : backed (empty_db a k c w).
Proof. split; simpl; try done. constructor. Qed.

Lemma step_backed s s' : wf s → backed s → step ulid s s' → backed s'.
Proof.
  intros W B [input a H|input a H|input H|rid tr at_ b H|input [t|c] H|rid acc tr at_ [t|c] H
    |off tr at_ [c|c] H|input [c|c] H|input a H|off ->|H].
  - eauto using quiet_backed, open_quiet.
  - eauto using quiet_backed, create_quiet.
  - eauto using quiet_backed, money_quiet.
  - eauto using quiet_backed, expire_quiet.
  - eauto using quiet_backed, published_quiet, publish_published.
  - by apply publish_conflict in H as ->.
  - apply reconfirm_reconfirmed in H as [_ H]. eauto using quiet_backed, reconfirmed_quiet.
  - by apply reconfirm_conflict in H as ->.
  - eauto using commit_backed, commit_committed.
  - by apply commit_conflict in H as ->.
  - eauto using quiet_backed, classified_quiet, classify_classified.
  - by apply classify_conflict in H as ->.
  - apply publishDisclosurePack_frame in H as (_ & Hr & _ & Hp).
    eapply quiet_backed; [done|]. apply quiet_intro; [|done]. unfold final_rows. by rewrite Hr.
  - eapply quiet_backed; [done|]. by apply quiet_intro.
  - eapply quiet_backed; [done|]. destruct H as [_ Hr _ _ Hp]. split; [|done].
    unfold final_rows. by rewrite Hr.
Qed.

Lemma reachable_backed s : reachable ulid s → backed s.
Proof.
  intros (a & k & c & w & H). pose proof (wf_empty a k c w) as W. pose proof (backed_empty a k c w) as B.
  induction H as [|s s1 s2 H1 _ IH]; [done|]. apply IH; [|by eapply step_backed].
  eapply effect_wf; [done|]. by eapply step_effect.
Qed.

End WithUlid.
End OfferingLedger.
