(* ===== verification/OfferingDemo.v ===== *)
(** A concrete offering driven through its whole life by the repository transactions:
    the inputs on which the properties are instantiated. *)

From S2P Require Import Prelude JsString Currency IntakePolicy Db OfferingPolicy OfferingRepo OfferingFacts OfferingInv.

Module OfferingDemo.
Import Currency OfferingPolicy OfferingRepo OfferingFacts OfferingInv OfferingSteps.

(** Sequential identifiers. *)
Definition demo_ulid (n : nat) : string := JsString.BigInt_toString (Z.of_nat n).

Lemma demo_ulid_injective a b : demo_ulid a = demo_ulid b → a = b.
Proof.
  intros H. unfold demo_ulid in H.
  pose proof (JsString.parse_toString (Z.of_nat a)) as Ha. pose proof (JsString.parse_toString (Z.of_nat b)) as Hb.
  rewrite H, Hb in Ha by lia. assert (Z.of_nat b = Z.of_nat a) by (assert (Some (Z.of_nat b) = Some (Z.of_nat a)) by (apply Ha; lia); congruence).
  lia.
Qed.

Definition run {A} (t : txn db A) (s : db) : db :=
  match t s with Ok (_, s') => s' | Err _ => s end.

Lemma run_ok {A} (t : txn db A) s : is_ok (t s) = true → ∃ a, t s = Ok (a, run t s).
Proof. unfold run. destruct (t s) as [[a s']|]; simpl; [eauto | done]. Qed.

Definition person (k : string) : Account.t :=
  Account.mk k acc_active [device_key; google] (Some "investor@example.com") [].

Definition d0 : db :=
  empty_db [person "alice"; person "bob"; person "founder"]
    [KycEligibility.mk "alice" "eligible" (Some 10000000000) (Some 10000000000)]
    [IntakeCase.set_ipo (IntakeCase.mkIpo (Some 30) (Some 2000000000) (Some 10000000) (Some 0))
       (IntakeCase.set_stage IntakePolicy.pre_offering_open 0
          (IntakeCase.created "case_1" "property_1" "founder" 0))]
    [WalletRegistration.mk "alice" "0xa11ce" "commitment" 0 (Some 1) None None].

Definition open_input := mkOpenOffering "case_1" "property_1" "100.00" "trace" 1000 1000 true.
Definition reserve (rid account amount : string) (key : option string) (t : Z) :=
  mkCreateReservationInput rid "offering_1" account key amount (Some "1") "trace" t.
Definition paid (rid amount : string) (t : Z) :=
  mkMoneyEventInput rid "coinbase_cdp" (Some "order") CapitalState.eurc_reserved amount (Some amount) t.
Definition pack_input (t : Z) :=
  mkPublishPackInput "offering_1" "founder" (map (λ d, (d, "ref")) disclosureDocumentTypes) "trace" t.
Definition publish_input (t : Z) := mkPublishInput "offering_1" "founder" "reviewed" "trace" t.
Definition classify_input (c : MaterialityClassification) (t : Z) :=
  mkClassifyInput "offering_1" "founder" "rent forecast corrected" c None "trace" t.

Definition d1 : db := run (openOfferingForApprovedCase demo_ulid open_input) d0.
Definition d2 : db := run (createReservation demo_ulid (reserve "r_alice" "alice" "60.00" (Some "k1") 2000)) d1.
Definition d3 : db := run (createReservation demo_ulid (reserve "r_bob" "bob" "40.00" None 3000)) d2.
Definition d4 : db := run (recordMoneyEvent demo_ulid (paid "r_alice" "60.00" 4000)) d3.
Definition d5 : db := run (recordMoneyEvent demo_ulid (paid "r_bob" "40.00" 5000)) d4.
Definition d6 : db := run (publishDisclosurePack demo_ulid (pack_input 6000)) d5.
Definition d7 : db := run (publishFinalOfferingTerms demo_ulid (publish_input 7000)) d6.
Definition d8 : db := run (reconfirmReservation demo_ulid "r_alice" "alice" "trace" 8000) d7.
Definition d9 : db := run (commitOfferingFinalization demo_ulid "offering_1" "trace" 604807000) d8.

(** The same offering, with one reservation that lapsed before its purchase landed. *)
Definition e3 : db := run (createReservation demo_ulid (reserve "r_late" "alice" "100.00" None 2000)) d1.
Definition e4 : db := run (expireReservation demo_ulid "r_late" "trace" 3000) e3.
Definition e5 : db := run (recordMoneyEvent demo_ulid (paid "r_late" "100.00" 4000)) e4.
Definition e6 : db := run (createReservation demo_ulid (reserve "r_bob" "bob" "40.00" None 5000)) e5.
Definition e7 : db := run (publishDisclosurePack demo_ulid (pack_input 6000)) e6.
Definition e8 : db := run (publishFinalOfferingTerms demo_ulid (publish_input 7000)) e7.

(** [demo_step c] closes [step s (run t s)] for the constructor [c] of transaction [t]. *)
Ltac demo_step c :=
  lazymatch goal with
  | |- step _ ?s ?s' =>
      let H := fresh in let a := fresh in
      lazymatch eval red in s' with
      | run ?t ?s0 => destruct (run_ok t s0 ltac:(vm_compute; reflexivity)) as [a H];
          first [eapply c; exact H | destruct a; eapply c; exact H]
      end
  end.

Lemma step_d1 : step demo_ulid d0 d1.
Proof. demo_step st_open. Qed.

Lemma step_d2 : step demo_ulid d1 d2.
Proof. demo_step st_create. Qed.

Lemma step_d3 : step demo_ulid d2 d3.
Proof. demo_step st_create. Qed.

Lemma step_d4 : step demo_ulid d3 d4.
Proof. demo_step st_money. Qed.

Lemma step_d5 : step demo_ulid d4 d5.
Proof. demo_step st_money. Qed.

Lemma step_d6 : step demo_ulid d5 d6.
Proof. demo_step st_pack. Qed.

Lemma step_d7 : step demo_ulid d6 d7.
Proof. demo_step st_publish. Qed.

Lemma step_d8 : step demo_ulid d7 d8.
Proof. demo_step st_reconfirm. Qed.

Lemma step_d9 : step demo_ulid d8 d9.
Proof. demo_step st_commit. Qed.

Lemma step_e3 : step demo_ulid d1 e3.
Proof. demo_step st_create. Qed.

Lemma step_e4 : step demo_ulid e3 e4.
Proof. demo_step st_expire. Qed.

Lemma step_e5 : step demo_ulid e4 e5.
Proof. demo_step st_money. Qed.

Lemma step_e6 : step demo_ulid e5 e6.
Proof. demo_step st_create. Qed.

Lemma step_e7 : step demo_ulid e6 e7.
Proof. demo_step st_pack. Qed.

Lemma step_e8 : step demo_ulid e7 e8.
Proof. demo_step st_publish. Qed.

#[export] Hint Resolve step_d1 step_d2 step_d3 step_d4 step_d5 step_d6 step_d7 step_d8 step_d9
  step_e3 step_e4 step_e5 step_e6 step_e7 step_e8 : vista.

Lemma reachable_d0 : reachable demo_ulid d0.
Proof. repeat eexists. apply rtc_refl. Qed.

Lemma reachable_step s s' : reachable demo_ulid s → step demo_ulid s s' → reachable demo_ulid s'.
Proof. intros (a & k & c & w & H) Hs. exists a, k, c, w. eapply rtc_r; eauto. Qed.

Lemma reachable_d1 : reachable demo_ulid d1.
Proof. eapply reachable_step; [apply reachable_d0 | auto with vista]. Qed.

Lemma reachable_d2 : reachable demo_ulid d2.
Proof. eapply reachable_step; [apply reachable_d1 | auto with vista]. Qed.

Lemma reachable_d3 : reachable demo_ulid d3.
Proof. eapply reachable_step; [apply reachable_d2 | auto with vista]. Qed.

Lemma reachable_d4 : reachable demo_ulid d4.
Proof. eapply reachable_step; [apply reachable_d3 | auto with vista]. Qed.

Lemma reachable_d5 : reachable demo_ulid d5.
Proof. eapply reachable_step; [apply reachable_d4 | auto with vista]. Qed.

Lemma reachable_d6 : reachable demo_ulid d6.
Proof. eapply reachable_step; [apply reachable_d5 | auto with vista]. Qed.

Lemma reachable_d7 : reachable demo_ulid d7.
Proof. eapply reachable_step; [apply reachable_d6 | auto with vista]. Qed.

Lemma reachable_d8 : reachable demo_ulid d8.
Proof. eapply reachable_step; [apply reachable_d7 | auto with vista]. Qed.

Lemma reachable_d9 : reachable demo_ulid d9.
Proof. eapply reachable_step; [apply reachable_d8 | auto with vista]. Qed.

Lemma reachable_e3 : reachable demo_ulid e3.
Proof. eapply reachable_step; [apply reachable_d1 | auto with vista]. Qed.

Lemma reachable_e4 : reachable demo_ulid e4.
Proof. eapply reachable_step; [apply reachable_e3 | auto with vista]. Qed.

Lemma reachable_e5 : reachable demo_ulid e5.
Proof. eapply reachable_step; [apply reachable_e4 | auto with vista]. Qed.

Lemma reachable_e6 : reachable demo_ulid e6.
Proof. eapply reachable_step; [apply reachable_e5 | auto with vista]. Qed.

Lemma reachable_e7 : reachable demo_ulid e7.
Proof. eapply reachable_step; [apply reachable_e6 | auto with vista]. Qed.

Lemma reachable_e8 : reachable demo_ulid e8.
Proof. eapply reachable_step; [apply reachable_e7 | auto with vista]. Qed.

End OfferingDemo.
