(* ===== verification/OfferingProps.v ===== *)
(** The correctness properties of the offering module: capacity, lifecycle, append-only
    money, the reservation and finalization transactions on every branch, and the
    correspondence between finalized reservations and positions. *)

From S2P Require Import Prelude JsString Currency Db OfferingPolicy OfferingRepo OfferingFacts OfferingInv OfferingLedger OfferingDemo.

Module OfferingProps.
Import Currency OfferingPolicy OfferingRepo OfferingFacts OfferingInv OfferingSteps
  OfferingLedger OfferingDemo.

(** ** Invariants of every reachable database *)

(** C1: whatever transactions ran and in whatever order, the amounts of an offering's live
    reservations (those not cancelled and not lapsed) never add up to more than its
    target raise: no offering is ever oversubscribed. *)
Theorem capacity_never_exceeded ulid s o :
  reachable ulid s → In o (offerings s) →
  sumZ (reserved_rows (Offering.id o) s) ≤ Offering.targetRaiseEur o.
Proof. intros R. apply (wf_capacity s (reachable_wf ulid s R)). Qed.

Lemma capacity_never_exceeded_witness :
  reachable demo_ulid d5 ∧ sumZ (reserved_rows "offering_1" d5) ≤ 10000.
Proof.
  split; [apply reachable_d5|].
  apply (capacity_never_exceeded demo_ulid d5
    (Offering.mk "offering_1" "piv_0" 10000 10000 pre_offering None None None 1000) reachable_d5).
  vm_compute. by left.
Defined.

(** C20: A reservation is never deleted and never changes owner, offering, key, amount or
    disclosure version; its stage only moves along the edges of the lifecycle, and once
    finalized, cancelled or lapsed it never moves again. *)
Theorem reservation_lifecycle ulid s s' r :
  reachable ulid s → rtc (step ulid) s s' → In r (reservations s) →
  ∃ r', In r' (reservations s') ∧ row_evolves r r' ∧
        (terminal (Reservation.stage r) → Reservation.stage r' = Reservation.stage r).
Proof.
  intros R%reachable_wf H Hr. destruct (steps_row _ _ _ _ R H Hr) as (r' & Hr' & Ev).
  exists r'. split_and!; [done..|]. intros Ht. eapply terminal_stuck; [apply Ev | done].
Qed.

Lemma reservation_lifecycle_witness :
  ∃ r', In r' (reservations d9) ∧ Reservation.id r' = "r_bob" ∧ Reservation.amountEur r' = 4000.
Proof.
  destruct (reservation_lifecycle demo_ulid d8 d9
    (Reservation.mk "r_bob" "offering_1" "bob" None 4000 ReservationStage.awaiting_reconfirmation
       (Some "1") None None 3000) reachable_d8) as (r' & Hr' & Ev & _).
  - apply rtc_once, step_d9.
  - vm_compute. tauto.
  - exists r'. split; [exact Hr' | split; apply Ev].
Defined.

(** An offering keeps its issuer, minimum and target for ever; publication of its final
    terms is never undone and its timestamp never changes; its status only moves
    pre_offering → final_offering → closed (or is closed by a reversal). *)
Theorem offering_evolution ulid s s' o :
  reachable ulid s → rtc (step ulid) s s' → In o (offerings s) →
  ∃ o', In o' (offerings s') ∧ off_evolves o o'.
Proof.
  intros R%reachable_wf H. revert o. induction H as [s|s s1 s2 H1 _ IH]; intros o Ho.
  { by exists o. }
  pose proof (step_effect _ _ _ R H1) as E. destruct (effect_offering _ _ _ E Ho) as (o1 & Ho1 & Ev1).
  destruct (IH (effect_wf _ _ R E) o1 Ho1) as (o2 & Ho2 & Ev2). exists o2. split; [done | by etrans].
Qed.

Lemma offering_evolution_witness :
  ∃ o', In o' (offerings d9) ∧ Offering.finalOfferingPublishedAt o' = Some 7000.
Proof.
  destruct (offering_evolution demo_ulid d7 d9
    (Offering.mk "offering_1" "piv_0" 10000 10000 pre_offering (Some 7000) (Some 604807000) (Some 604807000) 1000)
    reachable_d7) as (o' & Ho' & Ev).
  - eapply rtc_l; [apply step_d8 | apply rtc_once, step_d9].
  - vm_compute. by left.
  - exists o'. split; [exact Ho' | by apply Ev].
Defined.

(** The record of money movements only grows: every later state has the earlier
    events, unchanged and in order, followed by new ones, each for a positive amount. *)
Theorem money_events_append_only ulid s s' :
  reachable ulid s → rtc (step ulid) s s' →
  ∃ new, moneyEvents s' = moneyEvents s ++ new ∧ ∀ e, In e new → 0 < MoneyEvent.amountEur e.
Proof.
  intros R%reachable_wf H. induction H as [s|s s1 s2 H1 _ IH].
  { exists []. by rewrite app_nil_r. }
  pose proof (step_effect _ _ _ R H1) as E. destruct (eff_money _ _ E) as (n1 & E1 & P1).
  destruct (IH (effect_wf _ _ R E)) as (n2 & -> & P2). exists (n1 ++ n2).
  rewrite E1, app_assoc. split; [done|]. intros e. rewrite in_app_iff. naive_solver.
Qed.

Lemma money_events_append_only_witness :
  ∃ new, moneyEvents d9 = moneyEvents d8 ++ new ∧ ∀ e, In e new → 0 < MoneyEvent.amountEur e.
Proof. apply (money_events_append_only demo_ulid d8 d9 reachable_d8). apply rtc_once, step_d9. Defined.

(** C3: in every reachable database each reservation-backed position belongs to a finalized
    reservation of the same account, with that reservation's amount as its cost basis and
    exactly one unit per euro; no reservation is settled twice; and every finalized
    reservation has been settled. *)
Theorem positions_match_finalized_reservations ulid s :
  reachable ulid s → backed s.
Proof. apply reachable_backed. Qed.

Lemma positions_match_finalized_reservations_witness : backed d9 ∧ length (positions d9) = 1%nat.
Proof.
  split; [apply (positions_match_finalized_reservations demo_ulid d9 reachable_d9) | vm_compute; reflexivity].
Defined.

(** the positions settled from reservations of one offering *)
Definition positions_of (offeringId : string) (s : db) : list Position.t :=
  List.filter (λ p, match Position.reservationId p with
                    | Some k => exists_row (λ r, by_id Reservation.id k r && of_offering offeringId r)
                                  (reservations s)
                    | None => false
                    end) (positions s).

Lemma omap_filter_NoDup {A B} (f : A → option B) p l :
  List.NoDup (omap f l) → List.NoDup (omap f (List.filter p l)).
Proof.
  induction l as [|x l IH]; [done|]. cbn. destruct (f x) as [y|] eqn:E.
  - rewrite List.NoDup_cons_iff. intros [Hy Hl]. destruct (p x); [cbn; rewrite E|by apply IH].
    constructor; [|by apply IH]. intros Hin. apply Hy. apply in_omap in Hin as (z & Hz & Ez).
    apply in_omap. exists z. apply filter_In in Hz. tauto.
  - intros Hl. destruct (p x); [cbn; rewrite E|]; by apply IH.
Qed.

(** The units issued for an offering's reservations never exceed its target raise at one
    unit per euro (unit counts are millionths of a unit, targets are cents). *)
Theorem issued_units_bounded ulid s o :
  reachable ulid s → In o (offerings s) →
  sumZ (map Position.unitCount (positions_of (Offering.id o) s)) ≤ Offering.targetRaiseEur o * 10000.
Proof.
  intros R Ho. pose proof (reachable_wf _ _ R) as W. pose proof (reachable_backed _ _ R) as B.
  pose (rows := List.filter (λ r, of_offering (Offering.id o) r && live (Reservation.stage r)) (reservations s)).
  trans (sumZ (map (λ r, Reservation.amountEur r * 10000) rows)).
  - apply (sumZ_matched Position.reservationId Reservation.id).
    + apply omap_filter_NoDup, B.
    + intros r Hr. apply filter_In in Hr as [Hr _]. pose proof (wf_amounts s W r Hr). lia.
    + intros p Hp. apply filter_In in Hp as [Hp Hof].
      destruct (Position.reservationId p) as [k|] eqn:Ek; [|done].
      destruct (bk_position s B p k Hp Ek) as (r & Hr & Hs & _ & _ & Hu).
      apply in_final_rows in Hr as [Hr Hst]. exists r. split; [|split; [congruence | lia]].
      apply exists_row_true in Hof as (r' & Hr' & Hof). unfold by_id in Hof. boolify.
      assert (r' = r) as -> by (eapply NoDup_map_inj_in; [apply W|done..|congruence]).
      apply filter_In. split; [done|]. unfold of_offering in *. rewrite Hst. by apply andb_true_iff.
  - pose proof (wf_capacity s W o Ho) as Hc. unfold reserved_rows in Hc. fold rows in Hc.
    assert (∀ l, sumZ (map (λ r, Reservation.amountEur r * 10000) l) =
                 sumZ (map Reservation.amountEur l) * 10000) as ->
      by (induction l as [|r l IH]; simpl; lia). lia.
Qed.

Lemma issued_units_bounded_witness :
  sumZ (map Position.unitCount (positions_of "offering_1" d9)) ≤ 100000000.
Proof.
  apply (issued_units_bounded demo_ulid d9
    (Offering.mk "offering_1" "piv_0" 10000 10000 final_offering (Some 7000) (Some 604807000) (Some 604807000) 1000)
    reachable_d9).
  vm_compute. by left.
Defined.

End OfferingProps.

(** What each offering transaction does on every branch: reservation, expiry,
    publication, reconfirmation, commitment and materiality. *)

Module OfferingTxProps.
Import Currency OfferingPolicy OfferingRepo OfferingFacts OfferingInv OfferingSteps
  OfferingLedger OfferingDemo.

Lemma exists_row_not_in {A} (id : A → string) k l :
  ¬ In k (map id l) → exists_row (by_id id k) l = false.
Proof.
  intros H. apply exists_row_false. intros r Hr. apply by_id_ne. intros <-. by apply H, in_map.
Qed.

Lemma exists_row_in {A} (id : A → string) k l :
  In k (map id l) → exists_row (by_id id k) l = true.
Proof.
  intros (r & <- & Hr)%in_map_iff. apply exists_row_true. exists r. split; [done | apply by_id_eq].
Qed.

(** Nothing of an earlier request is in the way of a new reservation: its key is unused,
    the identifiers are new and the account exists. *)
Definition fresh_request (ulid : nat → string) (input : CreateReservationInput) (s : db) : Prop :=
  existing_for input s = None ∧
  ¬ In (cr_reservationId input) (map Reservation.id (reservations s)) ∧
  ¬ In (String.append "money_event_" (ulid (ulids s))) (map MoneyEvent.id (moneyEvents s)) ∧
  In (cr_accountId input) (map Account.id (accounts s)).

(** Such a request never throws. *)
Lemma createReservation_total ulid input s o amount :
  wf s → find_offering (cr_offeringId input) s = Some o → Offering.status o = pre_offering →
  fresh_request ulid input s → toCents (cr_amountEur input) = Ok amount → 0 < amount < 10 ^ 15 →
  is_ok (createReservation ulid input s) = true.
Proof.
  intros W Ho Hst (Hex & Hid & Hmid & Hacc) Ha [Hpos Hlt].
  destruct (find_offering_Some _ _ _ Ho) as [Hin Hoid].
  unfold createReservation. cbn [fresh]. rewrite Ho, Hst. cbn [negb bool_decide].
  fold (existing_for input s). rewrite Hex.
  pose proof (wf_targets s W o Hin).
  rewrite toCents_numeric2_text, toCents_coalesce_sum_text, Ha
    by (first [lia | by apply reserved_rows_nonneg]). simpl.
  destruct (_ <? amount) eqn:E; [done|].
  unfold reservation_create. simpl. rewrite exists_row_not_in by done.
  assert (client_key_taken (new_reservation input amount) s = false) as Hk.
  { unfold client_key_taken, existing_for in *. simpl.
    destruct (cr_clientIdempotencyKey input) as [k|]; [|done].
    apply exists_row_false. by apply find_row_None. }
  unfold new_reservation in Hk. rewrite Hk, exists_row_in by (rewrite <- Hoid; by apply in_map).
  rewrite exists_row_in by done. unfold fits_numeric_15_2.
  replace (0 <? amount) with true by lia. replace (Z.abs amount <? 10 ^ 15) with true by lia. simpl.
  unfold money_event_create. simpl. rewrite exists_row_not_in by done.
  rewrite exists_row_in by (rewrite map_app, in_app_iff; right; by left).
  unfold fits_numeric_15_2. replace (0 <? amount) with true by lia.
  by replace (Z.abs amount <? 10 ^ 15) with true by lia.
Qed.

(** C2: for an open offering, a new request for a positive amount is admitted exactly when
    it fits in the remaining capacity; then the reserved total grows by exactly that
    amount, and otherwise the answer is capacity_exceeded and nothing is written. *)
Theorem createReservation_decides ulid input s o amount :
  reachable ulid s →
  find_offering (cr_offeringId input) s = Some o → Offering.status o = pre_offering →
  fresh_request ulid input s →
  toCents (cr_amountEur input) = Ok amount → 0 < amount < 10 ^ 15 →
  let reserved := sumZ (reserved_rows (cr_offeringId input) s) in
  ∃ res s', createReservation ulid input s = Ok (res, s') ∧
    if amount <=? Offering.targetRaiseEur o - reserved
    then res = mkCreated (Some (cr_reservationId input, cr_createdAt input)) None false None ∧
         sumZ (reserved_rows (cr_offeringId input) s') = reserved + amount ∧
         reservations s' = reservations s ++ [new_reservation input amount]
    else res = mkCreated None (Some cc_capacity_exceeded) false None ∧ s' = s.
Proof.
  intros R Ho Hst (Hex & Hid & Hmid & Hacc) Ha [Hpos Hlt] reserved.
  pose proof (reachable_wf _ _ R) as W. destruct (find_offering_Some _ _ _ Ho) as [Hin Hoid].
  pose proof (wf_capacity s W o Hin) as Hcap. rewrite Hoid in Hcap. fold reserved in Hcap.
  pose proof (createReservation_total ulid input s o amount W Ho Hst
    (conj Hex (conj Hid (conj Hmid Hacc))) Ha (conj Hpos Hlt)) as Hok.
  destruct (createReservation ulid input s) as [[res s']|] eqn:E; [|done].
  exists res, s'. split; [done|]. apply createReservation_outcome in E; [|done].
  destruct E as [Hno|? ? ? ? Hc|o' a' Ho' ? ? Ea Hfull|o' a' ? ? Ho' ? ? Ea ? Hfit ? Hr];
    [| |replace o' with o in * by congruence; replace a' with amount in * by congruence..].
  - by destruct (Hno _ Ho).
  - congruence.
  - replace (_ <=? _) with false by lia. done.
  - replace (_ <=? _) with true by lia. split_and!; [done| |done].
    rewrite reserved_rows_sum, Hr, reserved_sum_app, <- reserved_rows_sum. fold reserved.
    rewrite reserved_sum_cons. unfold of_offering. simpl. rewrite bool_decide_eq_true_2 by done.
    simpl. change (reserved_sum _ []) with 0. lia.
Qed.

Lemma createReservation_decides_witness :
  let input := reserve "r_bob" "bob" "40.00" None 3000 in
  ∃ res s', createReservation demo_ulid input d2 = Ok (res, s') ∧ cr_conflict res = None.
Proof.
  destruct (createReservation_decides demo_ulid (reserve "r_bob" "bob" "40.00" None 3000) d2
    (Offering.mk "offering_1" "piv_0" 10000 10000 pre_offering None None None 1000) 4000)
    as (res & s' & E & H).
  - apply reachable_d2.
  - vm_compute. reflexivity.
  - reflexivity.
  - split_and!; [vm_compute; reflexivity | vm_compute; intuition discriminate
      | vm_compute; intuition discriminate | vm_compute; tauto].
  - vm_compute. reflexivity.
  - lia.
  - exists res, s'. split; [exact E|]. vm_compute in H. destruct H as [-> _]. reflexivity.
Defined.

(** ** Retries under one client key *)

Lemma create_outcome_key input s res s' k rid t :
  wf s' → create_outcome input s res s' → cr_clientIdempotencyKey input = Some k →
  cr_reservation res = Some (rid, t) →
  ∃ r, In r (reservations s') ∧ Reservation.id r = rid ∧ Reservation.createdAt r = t ∧
       same_client_key (cr_accountId input) (cr_offeringId input) k r = true.
Proof.
  intros W H Hk Hres. destruct H as [|o r Ho Hst Hex| |o amount s' e _ _ _ _ _ _ _ Hr]; simpl in Hres; try done.
  - unfold existing_for in Hex. rewrite Hk in Hex. apply find_row_Some in Hex as [Hin Hsame].
    injection Hres as <- <-. by exists r.
  - injection Hres as <- <-. exists (new_reservation input amount). rewrite Hr, in_app_iff.
    split; [right; by left|]. split_and!; try done. unfold same_client_key. simpl.
    by rewrite Hk, !bool_decide_eq_true_2.
Qed.

Lemma same_client_key_row a o k r :
  same_client_key a o k r = true ↔ Reservation.accountId r = a ∧ Reservation.offeringId r = o ∧
  Reservation.clientIdempotencyKey r = Some k.
Proof. unfold same_client_key. rewrite !andb_true_iff, !bool_decide_eq_true. tauto. Qed.

(** A retry with the same account, offering and client key never creates a second
    reservation: while the offering is open it returns the reservation and the creation
    time of the first successful call, marked reused, and writes nothing, whatever the
    rest of the system did in between and whatever amount the retry carries. *)
Theorem createReservation_replay ulid input input' s res s1 s2 k rid t o :
  reachable ulid s → createReservation ulid input s = Ok (res, s1) →
  cr_reservation res = Some (rid, t) → cr_clientIdempotencyKey input = Some k →
  rtc (step ulid) s1 s2 →
  find_offering (cr_offeringId input) s2 = Some o → Offering.status o = pre_offering →
  cr_accountId input' = cr_accountId input → cr_offeringId input' = cr_offeringId input →
  cr_clientIdempotencyKey input' = Some k →
  ∃ replay, createReservation ulid input' s2 = Ok (mkCreated (Some (rid, t)) None true (Some replay), s2).
Proof.
  intros R Hc Hres Hk Hsteps Ho Hst Ea Eo Ek. pose proof (reachable_wf _ _ R) as W.
  pose proof (effect_wf _ _ W (createReservation_effect _ _ _ _ _ W Hc)) as W1.
  apply createReservation_outcome in Hc; [|done].
  destruct (create_outcome_key _ _ _ _ k rid t W1 Hc Hk Hres) as (r & Hr & Eid & Et & Hsame).
  apply same_client_key_row in Hsame as (Sa & So & Sk).
  destruct (steps_row _ _ _ r W1 Hsteps Hr) as (r2 & Hr2 & Ev & Eoff & Eacc & Ekey & Eam & _ & Ecr & _).
  pose proof (steps_wf _ _ _ W1 Hsteps) as W2.
  assert (same_client_key (cr_accountId input) (cr_offeringId input) k r2 = true) as Hsame2
    by (apply same_client_key_row; split_and!; congruence).
  unfold createReservation. rewrite Eo, Ho, Hst, Ek, Ea. cbn [negb bool_decide decide].
  destruct (find_row _ (reservations s2)) as [x|] eqn:Ex.
  2:{ rewrite find_row_None in Ex. by rewrite Ex in Hsame2. }
  apply find_row_Some in Ex as [Hx Hsx]. apply same_client_key_row in Hsx as (Xa & Xo & Xk).
  assert (x = r2) as ->.
  { eapply NoDup_map_inj_in; [apply W2|done..|]. apply (wf_keys s2 W2); [done..|].
    unfold same_key. rewrite Xa, Xo, Xk. split_and!; congruence. }
  cbn. eexists. rewrite Ecr, Ev, Et, Eid. done.
Qed.

Lemma createReservation_replay_witness :
  ∃ replay, createReservation demo_ulid (reserve "r_other" "alice" "1.00" (Some "k1") 9000) d5 =
    Ok (mkCreated (Some ("r_alice", 2000)) None true (Some replay), d5).
Proof.
  apply (createReservation_replay demo_ulid (reserve "r_alice" "alice" "60.00" (Some "k1") 2000)
    (reserve "r_other" "alice" "1.00" (Some "k1") 9000) d1
    (mkCreated (Some ("r_alice", 2000)) None false None) d2 d5 "k1" "r_alice" 2000
    (Offering.mk "offering_1" "piv_0" 10000 10000 pre_offering None None None 1000) reachable_d1);
    try reflexivity.
  eapply rtc_l; [apply step_d3|]. eapply rtc_l; [apply step_d4|]. apply rtc_once, step_d5.
Defined.

(** ** Expiry *)

(** ExpireReservation answers on every database; it lapses the row exactly when the
    reservation exists, is still 'initiated' and its latest money event is not in a funded
    state as read under the row lock, so a reservation whose purchase has landed is never
    lapsed; otherwise nothing is written. *)
Theorem expireReservation_decides ulid rid tr at_ s :
  let due := match find_reservation rid s with
             | Some r => stage_is ReservationStage.initiated r &&
                         negb (isReservationFunded (latest_capital_state rid s))
             | None => false
             end in
  ∃ s', expireReservation ulid rid tr at_ s = Ok (due, s') ∧
    reservations s' = (if due
      then update_where (by_id Reservation.id rid) (Reservation.set_stage ReservationStage.lapsed)
             (reservations s)
      else reservations s) ∧
    (due = false → s' = s) ∧ moneyEvents s' = moneyEvents s ∧ offerings s' = offerings s.
Proof.
  unfold expireReservation. cbn [fresh]. destruct (find_reservation rid s) as [r|]; [|by exists s].
  destruct (stage_is _ r); simpl; [|by exists s].
  destruct (isReservationFunded _); simpl; [by exists s|]. by eexists.
Qed.

(** ** Publication of the final terms *)

(** Final terms are published only for an open, unpublished offering whose recorded
    funding reaches its target and whose current disclosure pack holds every document;
    then every initiated reservation of the offering, and no other row, moves to
    awaiting_reconfirmation when funded and to cancelled when not, with one money event
    per funded reservation and a window of seven days. *)
Theorem publishFinalOfferingTerms_effect ulid input s terms s' :
  reachable ulid s → publishFinalOfferingTerms ulid input s = Ok (inl terms, s') →
  published input s terms s' ∧
  pt_effectiveRightsEndAt terms = pi_publishedAt input + 7 * 24 * 3600000.
Proof.
  intros R%reachable_wf H. split; [by eapply publish_published|].
  rewrite <- window_length. unfold publishFinalOfferingTerms in H. cbn [fresh] in H.
  inv_ok H; try discriminate; by injection H as <- <-.
Qed.

Lemma publishFinalOfferingTerms_effect_witness :
  published (publish_input 7000) d6 (mkPublished "offering_1" 7000 604807000 604807000 2 0) d7.
Proof.
  apply (publishFinalOfferingTerms_effect demo_ulid (publish_input 7000) d6
    (mkPublished "offering_1" 7000 604807000 604807000 2 0) d7 reachable_d6).
  vm_compute. reflexivity.
Defined.

(** Each refusal of publishFinalOfferingTerms names the first gate that is shut, and
    writes nothing. *)
Theorem publishFinalOfferingTerms_refusal ulid input s c s' :
  reachable ulid s → publishFinalOfferingTerms ulid input s = Ok (inr c, s') →
  s' = s ∧
  match find_offering_with_piv (pi_offeringId input) s with
  | None => c = pc_offering_not_found
  | Some (o, _) =>
      match c with
      | pc_offering_not_found => False
      | pc_not_open => Offering.status o ≠ pre_offering
      | pc_already_published =>
          Offering.status o = pre_offering ∧ Offering.finalOfferingPublishedAt o ≠ None
      | pc_target_not_reached =>
          Offering.status o = pre_offering ∧ Offering.finalOfferingPublishedAt o = None ∧
          sumZ (funded_rows (pi_offeringId input) s) < Offering.targetRaiseEur o
      | pc_disclosure_pack_incomplete =>
          Offering.targetRaiseEur o ≤ sumZ (funded_rows (pi_offeringId input) s) ∧
          ∃ t, ¬ In t (current_document_types (pi_offeringId input) s)
      end
  end.
Proof.
  intros R%reachable_wf H. split; [by eapply publish_conflict|].
  unfold publishFinalOfferingTerms in H. cbn [fresh] in H.
  destruct (find_offering_with_piv _ s) as [[o piv]|] eqn:Eo; [|by injection H as <- <-].
  destruct (find_offering_Some _ _ _ (find_offering_with_piv_Some _ _ _ _ Eo)) as [Hin _].
  pose proof (wf_targets s R o Hin).
  rewrite canPublish_cents in H by (first [lia | by apply funded_rows_nonneg]). cbn [rbind] in H.
  destruct (bool_decide (Offering.status o = pre_offering)) eqn:E1; simpl in H; boolify;
    [|by injection H as <- <-].
  destruct (bool_decide (Offering.finalOfferingPublishedAt o = None)) eqn:E2; simpl in H; boolify;
    [|by injection H as <- <-].
  destruct (_ <=? _) eqn:E3 in H; simpl in H; boolify; [|by injection H as <- <-].
  destruct (isCompleteDisclosurePack _) eqn:E4 in H; simpl in H.
  { inv_ok H; discriminate. }
  injection H as <- <-. split; [done|]. by apply isCompleteDisclosurePack_missing.
Qed.

Lemma publishFinalOfferingTerms_refusal_witness :
  ∃ o piv, find_offering_with_piv "offering_1" d4 = Some (o, piv) ∧
    sumZ (funded_rows "offering_1" d4) < Offering.targetRaiseEur o.
Proof.
  assert (publishFinalOfferingTerms demo_ulid (publish_input 7000) d4 = Ok (inr pc_target_not_reached, d4))
    as E by (vm_compute; reflexivity).
  destruct (publishFinalOfferingTerms_refusal demo_ulid (publish_input 7000) d4 pc_target_not_reached d4
    reachable_d4 E) as [_ H].
  change (pi_offeringId (publish_input 7000)) with "offering_1" in H.
  destruct (find_offering_with_piv "offering_1" d4) as [[o piv]|]; [|discriminate H].
  exists o, piv. split; [reflexivity | apply H].
Defined.

(** When no purchase is recorded on a dead reservation, and purchases are recorded at no
    more than the reserved amount, publication cancels nothing. *)
Record funding_regular (offeringId : string) (s : db) : Prop := {
  fr_dead : ∀ r, In r (reservations s) → Reservation.offeringId r = offeringId →
    live (Reservation.stage r) = false →
    isReservationFunded (latest_capital_state (Reservation.id r) s) = false;
  fr_amount : ∀ r e, In r (reservations s) → latest_money (Reservation.id r) s = Some e →
    MoneyEvent.amountEur e ≤ Reservation.amountEur r }.

#[local] Arguments isReservationFunded : simpl never.

Definition funding_regularb (offeringId : string) (s : db) : bool :=
  forallb (λ r, (negb (of_offering offeringId r) || live (Reservation.stage r) ||
                 negb (isReservationFunded (latest_capital_state (Reservation.id r) s))) &&
                match latest_money (Reservation.id r) s with
                | Some e => MoneyEvent.amountEur e <=? Reservation.amountEur r
                | None => true
                end) (reservations s).

Lemma funding_regularb_sound off s : funding_regularb off s = true → funding_regular off s.
Proof.
  unfold funding_regularb. rewrite forallb_forall. intros H. split.
  - intros r Hr Eo El. specialize (H r Hr). apply andb_true_iff in H as [H _].
    unfold of_offering in H. rewrite bool_decide_eq_true_2, El in H by done.
    by apply negb_true_iff in H.
  - intros r e Hr E. specialize (H r Hr). rewrite E in H. boolify. done.
Qed.

Lemma funded_lt_reserved off s r0 :
  wf s → funding_regular off s → In r0 (reservations s) → initiated_of off r0 = true →
  isReservationFunded (latest_capital_state (Reservation.id r0) s) = false →
  sumZ (funded_rows off s) < sumZ (reserved_rows off s).
Proof.
  intros W [Hdead Ham] Hr0 [Eo Est]%initiated_of_spec Hunf.
  unfold funded_rows, reserved_rows. rewrite sumZ_omap, !sumZ_filter.
  apply (sumZ_map_lt _ _ _ r0); [|done|].
  - intros r Hr. unfold of_offering. case_bool_decide as E; simpl; [|lia].
    pose proof (wf_amounts s W r Hr). specialize (Hdead r Hr E). specialize (Ham r).
    unfold latest_capital_state in Hdead. destruct (latest_money _ s) as [e|]; cbn in Hdead |- *.
    + specialize (Ham e Hr eq_refl). destruct (live _); [destruct (isReservationFunded _); cbn; lia|].
      by rewrite Hdead.
    + destruct (live _); lia.
  - unfold of_offering. rewrite bool_decide_eq_true_2 by done. rewrite Est. cbn [andb live].
    pose proof (wf_amounts s W r0 Hr0). unfold latest_capital_state in Hunf.
    destruct (latest_money _ s) as [e|]; [|done].
    change (MoneyEvent.capitalState <$> Some e) with (Some (MoneyEvent.capitalState e)) in Hunf.
    rewrite Hunf. done.
Qed.

(** A fully funded offering cancels no reservation: if no cancelled or lapsed
    reservation carries a landed purchase and purchases are recorded at no more than the
    reserved amount, the publication that passes the funding gate finds every initiated
    reservation funded. *)
Theorem publish_cancels_nothing ulid input s terms s' :
  reachable ulid s → funding_regular (pi_offeringId input) s →
  publishFinalOfferingTerms ulid input s = Ok (inl terms, s') →
  pt_reservationsCancelled terms = 0%nat.
Proof.
  intros R F H. pose proof (reachable_wf _ _ R) as W. apply publish_published in H; [|done].
  rewrite (pub_cancelled _ _ _ _ H). destruct (List.filter _ _) as [|r0 l] eqn:E; [done|].
  assert (In r0 (r0 :: l)) as Hin by (by left). rewrite <- E in Hin.
  apply filter_In in Hin as [Hr0 Hi]. boolify.
  pose proof (funded_lt_reserved _ _ r0 W F Hr0 ltac:(done) ltac:(done)).
  destruct (pub_gate _ _ _ _ H) as (o & piv & Ho & _ & _ & Ht & _).
  destruct (find_offering_Some _ _ _ (find_offering_with_piv_Some _ _ _ _ Ho)) as [Hin Hoid].
  pose proof (wf_capacity s W o Hin) as Hc. rewrite Hoid in Hc. lia.
Qed.

Lemma publish_cancels_nothing_witness :
  pt_reservationsCancelled (mkPublished "offering_1" 7000 604807000 604807000 2 0) = 0%nat.
Proof.
  apply (publish_cancels_nothing demo_ulid (publish_input 7000) d6
    (mkPublished "offering_1" 7000 604807000 604807000 2 0) d7 reachable_d6).
  - apply funding_regularb_sound. vm_compute. reflexivity.
  - vm_compute. reflexivity.
Defined.

(** The cancel branch is reachable: when a purchase is recorded on a reservation that
    has already lapsed, its amount still counts as funding, and publication cancels an
    open, unfunded reservation of another investor. *)
Theorem publish_cancels_after_late_purchase :
  ∃ s s' terms, reachable demo_ulid s ∧
    publishFinalOfferingTerms demo_ulid (publish_input 7000) s = Ok (inl terms, s') ∧
    pt_reservationsCancelled terms = 1%nat ∧ pt_reservationsAwaitingReconfirmation terms = 0%nat ∧
    sumZ (live_funded_rows "offering_1" s) = 0.
Proof.
  exists e7, e8, (mkPublished "offering_1" 7000 604807000 604807000 0 1).
  split; [apply reachable_e7|]. vm_compute. split_and!; reflexivity.
Qed.

(** ** Reconfirmation *)

(** An investor's reconfirmation is accepted exactly when the reservation is theirs and
    awaiting reconfirmation, the offering's window is still open and its current disclosure
    pack is complete; it then changes that one row and no other. *)
Theorem reconfirmReservation_iff ulid rid acc tr at_ s :
  (∃ s', reconfirmReservation ulid rid acc tr at_ s = Ok (inl at_, s') ∧
         reconfirmed rid acc at_ s s') ↔
  ∃ r o e, find_reservation rid s = Some r ∧ Reservation.accountId r = acc ∧
    Reservation.stage r = ReservationStage.awaiting_reconfirmation ∧
    find_offering (Reservation.offeringId r) s = Some o ∧
    Offering.effectiveRightsEndAt o = Some e ∧ at_ < e ∧
    isCompleteDisclosurePack (current_document_types (Offering.id o) s) = true.
Proof.
  split; [by intros (s' & _ & H); apply H|].
  intros (r & o & e & Hr & Ha & Hst & Ho & He & Hlt & Hc).
  assert (∃ s', reconfirmReservation ulid rid acc tr at_ s = Ok (inl at_, s')) as [s' H].
  { unfold reconfirmReservation, stage_is. cbn [fresh]. rewrite Hr, Ha, Hst, Ho, He, Hc.
    rewrite !bool_decide_eq_true_2 by done. cbn [negb]. unfold isReconfirmationWindowOpen.
    replace (at_ <? e) with true by lia. cbn [negb]. by eexists. }
  exists s'. split; [done|]. by apply reconfirm_reconfirmed in H as [_ H].
Qed.

(** ** Commitment *)

(** The commit of a published offering runs only once its window has closed; it settles
    exactly its reconfirmed reservations (finalized, one position and one money event
    each) and lapses exactly those still awaiting reconfirmation (silence is a no); every
    other reservation is left as it was, and none of the offering's is left undecided. *)
Theorem commitOfferingFinalization_effect ulid off tr at_ s c s' :
  reachable ulid s → commitOfferingFinalization ulid off tr at_ s = Ok (inl c, s') →
  committed off at_ s c s' ∧
  (∀ r, In r (reservations s') → Reservation.offeringId r = off →
        Reservation.stage r ≠ ReservationStage.awaiting_reconfirmation ∧
        Reservation.stage r ≠ ReservationStage.reconfirmed) ∧
  cf_positionsCreated c = length (List.filter (reconfirmed_of off) (reservations s)).
Proof.
  intros R%reachable_wf H. apply commit_committed in H; [|done]. split; [done|]. split.
  - intros r Hr Eo. rewrite (com_reservations _ _ _ _ _ H) in Hr.
    apply in_update_where in Hr as (r0 & Hr0 & ->). destruct (settling_of off r0) eqn:E.
    + unfold committed_row. by destruct (stage_is _ r0).
    + split; intros Est; apply not_true_iff_false in E; apply E, settling_of_spec; auto.
  - rewrite (proj1 (com_counts _ _ _ _ _ H)). f_equal. apply List.filter_ext. intros r.
    apply eq_iff_eq_true. by rewrite reconfirmed_in_spec, reconfirmed_of_spec.
Qed.

Lemma commitOfferingFinalization_effect_witness :
  committed "offering_1" 604807000 d8 (mkCommitted "offering_1" 1 1) d9.
Proof.
  apply (commitOfferingFinalization_effect demo_ulid "offering_1" "trace" 604807000 d8
    (mkCommitted "offering_1" 1 1) d9 reachable_d8).
  vm_compute. reflexivity.
Defined.

(** ** Materiality *)

Lemma find_offering_update k f s o :
  (∀ o, Offering.id (f o) = Offering.id o) →
  find_offering k s = Some o → find_offering k (update_offering k f s) = Some (f o).
Proof.
  intros Hf Ho. unfold find_offering in *. simpl. rewrite find_row_update_where.
  - rewrite Ho. simpl. apply find_row_Some in Ho as [_ ->]. done.
  - intros r _. unfold by_id. by rewrite Hf.
Qed.

(** A material change to a published offering withdraws every reconfirmation given so
    far and restarts the seven-day window, so that no commit can settle the offering before
    that window has passed; a non-material change touches no reservation and no window. *)
Theorem materiality_restarts_window ulid input s c s' :
  reachable ulid s → classifyMateriality ulid input s = Ok (inl c, s') →
  let endAt := ci_classifiedAt input + 7 * 24 * 3600000 in
  if materialityResetTriggered (ci_classification input)
  then (∀ r, In r (reservations s') → Reservation.offeringId r = ci_offeringId input →
             Reservation.stage r ≠ ReservationStage.reconfirmed) ∧
       cd_effectiveRightsEndAt c = Some endAt ∧
       ∀ tr at_, at_ < endAt →
         commitOfferingFinalization ulid (ci_offeringId input) tr at_ s' =
         Ok (inr co_window_still_open, s')
  else reservations s' = reservations s ∧ offerings s' = offerings s.
Proof.
  intros R%reachable_wf H endAt. apply classify_classified in H; [|done].
  destruct H as [(o & Ho & Hst & Hpub & _) _ Hreset Hno _ _].
  destruct (materialityResetTriggered _); [|by destruct (Hno eq_refl) as (? & ? & _)].
  destruct (Hreset eq_refl) as (Hr & Hoff & Hend & _). rewrite window_length in Hoff, Hend. fold endAt in Hoff, Hend.
  split_and!; [|done|].
  - intros r Hin Eo. rewrite Hr in Hin. apply in_update_where in Hin as (r0 & Hr0 & ->).
    destruct (reconfirmed_of _ r0) eqn:E; [done|]. intros Est.
    apply not_true_iff_false in E. by apply E, reconfirmed_of_spec.
  - intros tr at_ Hlt. pose proof (find_offering_update (ci_offeringId input)
      (λ o, Offering.set_window (Offering.finalOfferingPublishedAt o) (Some endAt) (Some endAt) o) s o
      ltac:(done) Ho) as Hf.
    unfold commitOfferingFinalization. unfold find_offering in *. rewrite Hoff. simpl in Hf. rewrite Hf.
    simpl. rewrite Hst, (bool_decide_eq_false_2 _ Hpub). simpl. unfold isReconfirmationWindowOpen.
    by replace (at_ <? endAt) with true by lia.
Qed.

Lemma materiality_restarts_window_witness :
  ∃ c s', classifyMateriality demo_ulid (classify_input per_se_material 600000000) d8 = Ok (inl c, s') ∧
    commitOfferingFinalization demo_ulid "offering_1" "trace" 604807000 s' =
    Ok (inr co_window_still_open, s').
Proof.
  destruct (classifyMateriality demo_ulid (classify_input per_se_material 600000000) d8)
    as [[[c|c] s']|e] eqn:E.
  2,3: exfalso; vm_compute in E; discriminate E.
  exists c, s'. split; [reflexivity|].
  apply (materiality_restarts_window demo_ulid (classify_input per_se_material 600000000) d8 c s'
    reachable_d8 E).
  reflexivity.
Defined.

End OfferingTxProps.
