(* ===== verification/OfferingPacks.v ===== *)
(** Disclosure-pack versions: numbered from one without gaps, the newest current and every
    older one superseded, whatever transactions interleave. *)

From S2P Require Import Prelude JsString Currency Db OfferingPolicy OfferingRepo OfferingFacts OfferingInv OfferingDemo.

Module OfferingPacks.
Import OfferingPolicy OfferingRepo OfferingFacts OfferingInv OfferingSteps OfferingDemo.

Definition of_pack (offeringId : string) (p : DisclosurePack.t) : bool :=
  bool_decide (DisclosurePack.offeringId p = offeringId).

Definition packs_of (offeringId : string) (s : db) : list DisclosurePack.t :=
  List.filter (of_pack offeringId) (disclosurePacks s).

Definition is_open (p : DisclosurePack.t) : Prop :=
  DisclosurePack.isCurrent p = true ∧ DisclosurePack.supersededAt p = None.

Definition is_superseded (p : DisclosurePack.t) : Prop :=
  DisclosurePack.isCurrent p = false ∧ DisclosurePack.supersededAt p ≠ None.

(** [history n l]: versions n+1, n+2, ... in order, all superseded but the last. *)
Inductive history : nat → list DisclosurePack.t → Prop :=
  | h_nil n : history n []
  | h_last n p : DisclosurePack.version p = Z.of_nat (S n) → is_open p → history n [p]
  | h_old n p l : DisclosurePack.version p = Z.of_nat (S n) → is_superseded p → l ≠ [] →
      history (S n) l → history n (p :: l).

Record packs_ok (s : db) : Prop := {
  pk_ids : List.NoDup (map DisclosurePack.id (disclosurePacks s));
  pk_history : ∀ off, history 0 (packs_of off s) }.

Lemma current_of_offering off p :
  is_current_pack off p = true ↔ of_pack off p = true ∧ is_open p.
Proof.
  unfold is_current_pack, of_pack, is_open.
  rewrite !andb_true_iff, !bool_decide_eq_true. tauto.
Qed.

(** the last element of a history is its only open pack *)
Lemma history_current off n l :
  history n l → (∀ p, In p l → of_pack off p = true) →
  l = [] ∧ List.filter (is_current_pack off) l = [] ∨
  ∃ l0 c, l = l0 ++ [c] ∧ List.filter (is_current_pack off) l = [c] ∧
    DisclosurePack.version c = Z.of_nat (n + length l) ∧
    ∀ p, In p l0 → is_superseded p ∧ DisclosurePack.version p < DisclosurePack.version c.
Proof.
  intros H. induction H as [n|n p Hv Ho|n p l Hv Hs Hne H IH]; intros Hof.
  - by left.
  - right. exists [], p. simpl. rewrite (proj2 (current_of_offering off p)) by (split; [apply Hof; by left|done]).
    split_and!; try done. rewrite Hv. lia.
  - destruct IH as [[? _]|(l0 & c & -> & Hf & Hc & Hl0)]; [intros; apply Hof; by right | done |].
    right. exists (p :: l0), c. cbn [List.filter].
    destruct (is_current_pack off p) eqn:E.
    { apply current_of_offering in E as [_ [E _]]. destruct Hs. congruence. }
    split_and!; [done | done | rewrite Hc; simpl; lia |].
    intros q [<-|Hq]; [|by apply Hl0]. split; [done|]. rewrite Hv, Hc, length_app. simpl. lia.
Qed.

Lemma history_snoc n l0 c q :
  history n (l0 ++ [c]) → is_superseded q → DisclosurePack.version q = DisclosurePack.version c →
  ∀ p, is_open p → DisclosurePack.version p = DisclosurePack.version c + 1 →
  history n (l0 ++ [q; p]).
Proof.
  revert n. induction l0 as [|x l0 IH]; intros n H Hq Eq p Hp Ep; simpl in *.
  - inversion H; subst; [|done]. constructor; [congruence | done | done |].
    constructor; [lia | done].
  - inversion H as [|? ? ? ? Hnil|]; subst; [by destruct l0|].
    constructor; [done | done | by destruct l0 | by eapply IH].
Qed.

Lemma filter_update_where {A} (q p : A → bool) f l :
  (∀ r, q (f r) = q r) →
  List.filter q (update_where p f l) = update_where p f (List.filter q l).
Proof.
  intros H. unfold update_where. induction l as [|x l IH]; simpl; [done|].
  destruct (p x) eqn:Ep; rewrite ?H; destruct (q x); simpl; rewrite ?Ep; by rewrite IH.
Qed.

Definition superseded_list (at_ : Z) (c : DisclosurePack.t) (l : list DisclosurePack.t) :=
  update_where (by_id DisclosurePack.id (DisclosurePack.id c)) (DisclosurePack.supersede at_) l.

Lemma superseded_list_last at_ l0 c :
  List.NoDup (map DisclosurePack.id (l0 ++ [c])) →
  superseded_list at_ c (l0 ++ [c]) = l0 ++ [DisclosurePack.supersede at_ c].
Proof.
  intros Hnd. unfold superseded_list, update_where. rewrite map_app. simpl. rewrite by_id_eq. f_equal.
  rewrite <- (map_id l0) at 2. apply map_ext_in. intros p Hp. rewrite by_id_ne; [done|].
  intros E. rewrite map_app in Hnd. simpl in Hnd. apply NoDup_remove_2 in Hnd.
  apply Hnd. rewrite app_nil_r, <- E. by apply in_map.
Qed.

(** ** Publishing a pack *)

Section WithUlid.
Context (ulid : nat → string).

Definition current_of (off : string) (s : db) : option DisclosurePack.t :=
  max_version (List.filter (is_current_pack off) (disclosurePacks s)).

Lemma filter_current off s :
  List.filter (is_current_pack off) (disclosurePacks s) = List.filter (is_current_pack off) (packs_of off s).
Proof.
  unfold packs_of. induction (disclosurePacks s) as [|p l IH]; simpl; [done|].
  destruct (is_current_pack off p) eqn:E.
  - apply current_of_offering in E as E'. destruct E' as [E' _]. rewrite E'. simpl. by rewrite E, IH.
  - destruct (of_pack off p); simpl; by rewrite ?E.
Qed.

(** What the locked read finds: nothing for the first pack, else the newest version. *)
Lemma current_of_ok off s :
  packs_ok s →
  packs_of off s = [] ∧ current_of off s = None ∨
  ∃ l0 c, packs_of off s = l0 ++ [c] ∧ current_of off s = Some c ∧ is_open c ∧
    DisclosurePack.offeringId c = off ∧ In c (disclosurePacks s) ∧
    DisclosurePack.version c = Z.of_nat (length (packs_of off s)).
Proof.
  intros P. unfold current_of. rewrite filter_current.
  destruct (history_current off 0 (packs_of off s)) as [[-> ->]|(l0 & c & El & Ef & Hv & _)].
  - apply P.
  - intros p Hp. apply filter_In in Hp. tauto.
  - by left.
  - right. exists l0, c. rewrite Ef.
    assert (In c (List.filter (is_current_pack off) (packs_of off s))) as Hin by (rewrite Ef; by left).
    apply filter_In in Hin as [Hin Hc]. apply current_of_offering in Hc as [Hof Ho].
    unfold of_pack in Hof. boolify. apply filter_In in Hin as [Hin _]. by split_and!.
Qed.

(** The tables after a publication. *)
Definition superseded_packs (input : PublishPackInput) (s : db) : list DisclosurePack.t :=
  match current_of (pb_offeringId input) s with
  | Some c => superseded_list (pb_publishedAt input) c (disclosurePacks s)
  | None => disclosurePacks s
  end.

Record pack_published (input : PublishPackInput) (s : db) (res : PublishedPack) (s' : db) : Prop := {
  pp_gate : ∃ o, find_offering (pb_offeringId input) s = Some o ∧ Offering.status o = pre_offering;
  pp_packs : ∃ p, disclosurePacks s' = superseded_packs input s ++ [p] ∧
    ¬ In (DisclosurePack.id p) (map DisclosurePack.id (disclosurePacks s)) ∧
    DisclosurePack.id p = pd_disclosurePackId res ∧
    DisclosurePack.offeringId p = pb_offeringId input ∧ is_open p ∧
    DisclosurePack.version p = pd_version res ∧
    map DisclosurePack.documentType (DisclosurePack.documents p) = map fst (pb_documents input);
  pp_version : pd_version res =
    match current_of (pb_offeringId input) s with Some c => DisclosurePack.version c | None => 0 end + 1;
  pp_complete : pd_isComplete res = isCompleteDisclosurePack (map fst (pb_documents input));
  pp_superseded : pd_supersededPackId res = DisclosurePack.id <$> current_of (pb_offeringId input) s }.

Lemma new_documents_types docs s :
  map DisclosurePack.documentType (new_documents ulid docs s).1 = map fst docs.
Proof.
  revert s. induction docs as [|[ty ref] docs IH]; intros s; simpl; [done|].
  specialize (IH (set_ulids (S (ulids s)) s)).
  destruct (new_documents ulid docs _) as [rest s1]. simpl in *. by rewrite IH.
Qed.

Lemma superseded_ids at_ c l :
  map DisclosurePack.id (superseded_list at_ c l) = map DisclosurePack.id l.
Proof. by apply map_update_where. Qed.

Lemma publish_pack_published input s res s' :
  publishDisclosurePack ulid input s = Ok (inl res, s') → pack_published input s res s'.
Proof.
  intros H. unfold publishDisclosurePack in H. cbn [fresh] in H.
  destruct (find_offering _ s) as [o|] eqn:Eo; [|done].
  destruct (bool_decide _) eqn:Est in H; simpl in H; [|done]. boolify.
  fold (current_of (pb_offeringId input) s) in H.
  inv_ok H. injection H as <- <-.
  match goal with E : new_documents _ ?docs ?s0 = _ |- _ =>
    pose proof (new_documents_frame ulid docs s0) as [_ Hpk];
    pose proof (new_documents_types docs s0) as Hty; rewrite E in Hpk, Hty end.
  inv_creates. simpl in *.
  assert (disclosurePacks d = superseded_packs input s) as Hpk'.
  { rewrite Hpk. unfold superseded_packs. by destruct (current_of _ s). }
  split; simpl; [by exists o| |done..].
  eexists. split_and!; [by rewrite Hpk' | |done..]. simpl.
  intros Hin. apply H. rewrite Hpk'. unfold superseded_packs.
  destruct (current_of _ s); [by rewrite superseded_ids | done].
Qed.

(** One offering's packs after a publication. *)
Lemma packs_of_published input s res s' off :
  pack_published input s res s' →
  ∃ p, is_open p ∧ DisclosurePack.offeringId p = pb_offeringId input ∧
    DisclosurePack.version p = pd_version res ∧
    packs_of off s' =
      match current_of (pb_offeringId input) s with
      | Some c => superseded_list (pb_publishedAt input) c (packs_of off s)
      | None => packs_of off s
      end ++ (if of_pack off p then [p] else []).
Proof.
  intros [_ (p & Hp & _ & _ & Hoff & Hopen & Hver & _) _ _ _]. exists p. split_and!; [done..|].
  unfold packs_of. rewrite Hp, List.filter_app. simpl. f_equal. unfold superseded_packs.
  destruct (current_of _ s); [by apply filter_update_where | done].
Qed.

Lemma packs_of_other input s res s' off :
  packs_ok s → pack_published input s res s' → off ≠ pb_offeringId input →
  packs_of off s' = packs_of off s.
Proof.
  intros P H Hne. destruct (packs_of_published input s res s' off H) as (p & _ & Hoff & _ & ->).
  unfold of_pack at 1. rewrite bool_decide_eq_false_2, app_nil_r by congruence.
  destruct (current_of_ok (pb_offeringId input) s P) as [[_ ->]|(l0 & c & _ & -> & _ & Ec & Hc & _)]; [done|].
  apply update_where_id. intros q Hq. apply by_id_ne. intros E. apply filter_In in Hq as [Hq Hoq].
  unfold of_pack in Hoq. boolify. apply Hne.
  assert (q = c) as -> by (eapply NoDup_map_inj_in; [apply P|done..]). congruence.
Qed.

Lemma packs_of_target input s res s' :
  packs_ok s → pack_published input s res s' →
  history 0 (packs_of (pb_offeringId input) s') ∧
  length (packs_of (pb_offeringId input) s') = S (length (packs_of (pb_offeringId input) s)) ∧
  pd_version res = Z.of_nat (length (packs_of (pb_offeringId input) s')).
Proof.
  intros P H. pose proof (pk_history s P (pb_offeringId input)) as Hh.
  destruct (packs_of_published input s res s' (pb_offeringId input) H) as (p & Hopen & Hoff & Hver & ->).
  rewrite (pp_version _ _ _ _ H) in *. unfold of_pack. rewrite bool_decide_eq_true_2 by done.
  destruct (current_of_ok (pb_offeringId input) s P) as [[El Ec]|(l0 & c & El & Ec & Ho & _ & _ & Hvc)];
    rewrite Ec in *.
  - rewrite El. split_and!; [constructor; [lia|done] | done | done].
  - rewrite El, superseded_list_last by (rewrite <- El; by apply NoDup_map_filter, P).
    rewrite <- app_assoc. rewrite El in Hh, Hvc. rewrite !length_app in *. simpl in *.
    split_and!; [|lia|lia]. eapply history_snoc; [exact Hh | done | done | done | lia].
Qed.

Lemma pack_published_ok input s res s' :
  packs_ok s → pack_published input s res s' → packs_ok s'.
Proof.
  intros P H. split.
  - destruct (pp_packs _ _ _ _ H) as (p & Hp & Hid & _). rewrite Hp, map_app.
    unfold superseded_packs. apply NoDup_snoc.
    + destruct (current_of _ s); rewrite ?superseded_ids; apply P.
    + destruct (current_of _ s); by rewrite ?superseded_ids.
  - intros off. destruct (decide (off = pb_offeringId input)) as [->|Hne].
    + by eapply packs_of_target.
    + erewrite packs_of_other by done. apply P.
Qed.

(** ** Every interleaving *)

Lemma pack_conflict input s c s' :
  publishDisclosurePack ulid input s = Ok (inr c, s') → s' = s.
Proof. unfold publishDisclosurePack. cbn [fresh]. intros H. inv_ok H; first [discriminate H | by injection H as _ <-]. Qed.

(** A step leaves the packs alone or publishes one. *)
Lemma step_packs_change s s' : wf s → step ulid s s' →
  disclosurePacks s' = disclosurePacks s ∨ ∃ input res, pack_published input s res s'.
Proof.
  intros W H.
  destruct H as [input a H|input a H|input H|rid tr at_ b H|input [t|c] H|rid acc tr at_ [t|c] H
    |off tr at_ [c|c] H|input [c|c] H|input [r|c] H|off ->|H]; try (left; done).
  - left. unfold openOfferingForApprovedCase in H. cbn [fresh] in H.
    inv_ok H; injection H as <- <-; by inv_creates.
  - left. apply createReservation_outcome in H; [|done]. by destruct H.
  - left. unfold recordMoneyEvent in H. cbn [fresh] in H. inv_ok H; injection H as <-; by inv_creates.
  - left. unfold expireReservation in H. cbn [fresh] in H. by inv_ok H; injection H as <- <-.
  - left. apply publish_published in H; [|done]. apply H.
  - left. by apply publish_conflict in H as ->.
  - left. apply reconfirm_reconfirmed in H as [_ H]. apply H.
  - left. by apply reconfirm_conflict in H as ->.
  - left. apply commit_committed in H; [|done]. apply H.
  - left. by apply commit_conflict in H as ->.
  - left. apply classify_classified in H; [|done]. apply H.
  - left. by apply classify_conflict in H as ->.
  - right. exists input, r. by apply publish_pack_published.
  - left. by apply pack_conflict in H as ->.
  - left. apply H.
Qed.

Lemma step_packs s s' : wf s → packs_ok s → step ulid s s' → packs_ok s'.
Proof.
  intros W P H. destruct (step_packs_change s s' W H) as [E|(input & res & Hp)]; [|by eapply pack_published_ok].
  split; [rewrite E; apply P|]. intros off. unfold packs_of. rewrite E. apply P.
Qed.

(** A published pack is never withdrawn: it can only be superseded. *)
Definition pack_kept (p p' : DisclosurePack.t) : Prop :=
  DisclosurePack.id p' = DisclosurePack.id p ∧ DisclosurePack.offeringId p' = DisclosurePack.offeringId p ∧
  DisclosurePack.version p' = DisclosurePack.version p ∧ DisclosurePack.documents p' = DisclosurePack.documents p.

Lemma step_pack_kept s s' p : wf s → step ulid s s' → In p (disclosurePacks s) → ∃ p', In p' (disclosurePacks s') ∧ pack_kept p p'.
Proof.
  intros W H Hp. destruct (step_packs_change s s' W H) as [E|(input & res & [_ (q & E & _) _ _ _])]; [exists p; by rewrite E|].
  assert (∃ p', In p' (superseded_packs input s) ∧ pack_kept p p') as (p' & Hp' & Hk).
  { unfold superseded_packs. destruct (current_of _ s) as [c|]; [|by exists p]. unfold superseded_list, update_where.
    eexists. split; [by apply in_map_iff; exists p|]. by destruct (by_id _ _ p). }
  exists p'. split; [rewrite E, in_app_iff; by left | done].
Qed.

Lemma steps_pack_kept s s' p : wf s → rtc (step ulid) s s' → In p (disclosurePacks s) →
  ∃ p', In p' (disclosurePacks s') ∧ pack_kept p p'.
Proof.
  intros W H. revert p. induction H as [s|s s1 s2 H1 _ IH]; intros p Hp; [by exists p|].
  destruct (step_pack_kept s s1 p W H1 Hp) as (p1 & Hp1 & K1).
  destruct (IH (effect_wf _ _ W (step_effect _ _ _ W H1)) p1 Hp1) as (p2 & Hp2 & K2).
  exists p2. split; [done|]. unfold pack_kept in *. destruct_and!. split_and!; congruence.
Qed.

(** The current pack is the only one the readers' condition admits. *)
Lemma current_is_only off s q : packs_ok s → In q (disclosurePacks s) → is_current_pack off q = true → current_pack off s = Some q.
Proof.
  intros P Hq Hc. unfold current_pack, find_row. rewrite filter_current.
  assert (In q (List.filter (is_current_pack off) (packs_of off s))) as Hin.
  { apply filter_In. split; [|done]. apply filter_In. split; [done|]. by apply current_of_offering in Hc as [? _]. }
  destruct (history_current off 0 (packs_of off s)) as [[_ Ef]|(l0 & c & _ & Ef & _)];
    [apply P | intros p Hp; apply filter_In in Hp; tauto | |]; rewrite Ef in *; [done|]. by destruct Hin as [->|[]].
Qed.

Lemma reachable_packs s : reachable ulid s → packs_ok s.
Proof.
  intros (a & k & c & w & H). pose proof (wf_empty a k c w) as W.
  assert (packs_ok (empty_db a k c w)) as P by (split; constructor).
  induction H as [|s s1 s2 H1 _ IH]; [done|]. apply IH; [|by eapply step_packs].
  eapply effect_wf; [done|]. by eapply step_effect.
Qed.

End WithUlid.

(** The disclosure packs of every offering are numbered 1, 2, 3, ... without gaps in
    order of publication; the newest is current and every older one is superseded, so each
    offering has at most one current pack and a reader always sees the latest version. *)
Theorem disclosure_pack_history ulid s off :
  reachable ulid s →
  history 0 (packs_of off s) ∧
  (current_pack off s = None ↔ packs_of off s = []) ∧
  ∀ p, current_pack off s = Some p →
    DisclosurePack.version p = Z.of_nat (length (packs_of off s)) ∧
    ∀ q, In q (packs_of off s) → is_open q → q = p.
Proof.
  intros P%reachable_packs. split; [apply P|]. unfold current_pack, find_row. rewrite filter_current.
  destruct (history_current off 0 (packs_of off s)) as [[-> Ef]|(l0 & c & El & Ef & Hv & _)];
    [apply P | intros p Hp; apply filter_In in Hp; tauto | by rewrite Ef |].
  rewrite Ef. split; [split; [done | by rewrite El; destruct l0]|]. intros p [= <-].
  split; [done|]. intros q [Hq Hof]%filter_In Ho. pose proof (proj2 (current_of_offering off q) (conj Hof Ho)) as Hc.
  pose proof (current_is_only off s q P Hq Hc) as E. unfold current_pack, find_row in E. rewrite filter_current, Ef in E. by injection E.
Qed.

Lemma disclosure_pack_history_witness :
  history 0 (packs_of "offering_1" d6) ∧ length (packs_of "offering_1" d6) = 1%nat.
Proof.
  split; [apply (disclosure_pack_history demo_ulid d6 "offering_1" reachable_d6) | vm_compute; reflexivity].
Defined.

End OfferingPacks.
