(* ===== verification/OfferingServices.v ===== *)
(** The application services of src/src/modules/offering/application/: the investor's
    view, CreateReservationService, the three sweeps, the founder and investor decisions,
    the reminder and notification jobs. *)

From S2P Require Import Prelude JsString Currency Db OfferingPolicy OfferingRepo.

Module OfferingServices.
Import Currency OfferingPolicy OfferingRepo.

(** ** getInvestorDetail (prisma-offering.repository.ts)

    The offering, its current pack, its change log, its progress and the account's readiness.
    The descriptive columns of the issuer and of the property (names, address, valuations)
    are passed through unread and left out; a property's type is always residential, by a
    CHECK of the schema. *)

(** [orderBy isCoreReading desc, documentType asc, id asc] *)
Definition document_before (a b : DisclosurePack.document) : bool :=
  let core := DisclosurePack.isCoreReading in
  let type_ := λ d, documentType_text (DisclosurePack.documentType d) in
  (core a && negb (core b)) ||
  (eqb (core a) (core b) &&
   (String.ltb (type_ a) (type_ b) ||
    (String.eqb (type_ a) (type_ b) &&
     String.ltb (DisclosurePack.documentId a) (DisclosurePack.documentId b)))).

(** [orderBy classifiedAt desc, id desc] *)
Definition change_before (a b : MaterialityRecord.t) : bool :=
  (MaterialityRecord.classifiedAt b <? MaterialityRecord.classifiedAt a) ||
  ((MaterialityRecord.classifiedAt b =? MaterialityRecord.classifiedAt a) &&
   String.ltb (MaterialityRecord.id b) (MaterialityRecord.id a)).

Record DetailPack := mkDetailPack {
  dp_id : string; dp_version : Z; dp_publishedAt : Z; dp_documents : list DisclosurePack.document }.

Definition detail_pack (p : DisclosurePack.t) : DetailPack :=
  mkDetailPack (DisclosurePack.id p) (DisclosurePack.version p) (DisclosurePack.publishedAt p)
    (order_by document_before (DisclosurePack.documents p)).

Record InvestorDetail := mkDetail {
  dt_id : string;
  dt_status : OfferingStatus;
  dt_minimumRaiseEur : string;
  dt_targetRaiseEur : string;
  dt_finalOfferingPublishedAt : option Z;
  dt_platformRightsEndAt : option Z;
  dt_effectiveRightsEndAt : option Z;
  dt_ipoEndAt : option Z;
  dt_pivId : string;
  dt_currentDisclosurePack : option DetailPack;
  dt_materialityRecords : list MaterialityRecord.t;
  dt_reservedCapacityEur : string;
  dt_fundedEur : string;
  dt_accountStatus : AccountStatus;
  dt_loginMethods : list LoginMethod;
  dt_kycEligibilityState : option string;
  dt_kycRenewalDueAt : option Z;
  dt_walletAddress : option string;
  dt_payoutWalletRegistered : bool;
  dt_recoveryCooldownEndsAt : option Z }.

(** [orderBy cooldownEndsAt desc, take 1] *)
Definition latest_cooldown (l : list Z) : option Z :=
  foldr (λ e acc, Some (match acc with Some m => Z.max e m | None => e end)) None l.

Definition getInvestorDetail (offeringId accountId : string) (s : db) : result (option InvestorDetail) :=
  match find_offering offeringId s, find_account accountId s with
  | Some offering, Some account =>
      let wallet := find_wallet accountId s in
      let kyc := find_kyc accountId s in
      let! reserved := normalizeCurrency (coalesce_sum_text (reserved_rows offeringId s)) in
      let! funded := normalizeCurrency (coalesce_sum_text (live_funded_rows offeringId s)) in
      let piv := find_row (by_id Piv.id (Offering.pivId offering)) (pivs s) in
      Ok (Some (mkDetail (Offering.id offering) (Offering.status offering)
        (numeric2_text (Offering.minimumRaiseEur offering)) (numeric2_text (Offering.targetRaiseEur offering))
        (Offering.finalOfferingPublishedAt offering) (Offering.platformRightsEndAt offering)
        (Offering.effectiveRightsEndAt offering)
        (piv ≫= λ p, find_row (by_id IntakeCase.id (Piv.caseId p)) (cases s) ≫= IntakeCase.ipoEndAt)
        (Offering.pivId offering)
        (detail_pack <$> max_version (List.filter (is_current_pack offeringId) (disclosurePacks s)))
        (order_by change_before
           (List.filter (λ m, bool_decide (MaterialityRecord.offeringId m = offeringId)) (materialityRecords s)))
        reserved funded (Account.status account) (Account.loginMethods account)
        (KycEligibility.eligibilityState <$> kyc) (kyc ≫= KycEligibility.renewalDueAt)
        (WalletRegistration.walletAddress <$> wallet)
        (match wallet with Some w => negb (bool_decide (WalletRegistration.registeredAt w = None)) | None => false end)
        (latest_cooldown (Account.recoveryCooldowns account))))
  | _, _ => Ok None
  end.

Definition has_documents (pack : option DetailPack) : bool :=
  match pack with
  | Some p => (0 <? length (dp_documents p))%nat
  | None => false
  end.

(** ** Errors *)

Definition offering_not_found : error := AppError "offering.not_found" 404 [].
Definition idempotencyKeyReusedError : error := AppError "offering.idempotency_key_reused" 409 [].
Definition reservationReplayUnavailableError : error :=
  AppError "offering.reservation_replay_unavailable" 409 [].
Definition reservationNotAvailableError (blockers : list ReservationBlocker) : error :=
  AppError "offering.reservation_not_available" 409 (map blocker_code blockers).
Definition amountExceedsCapacityError : error :=
  AppError "offering.reservation_amount_exceeds_capacity" 422 ["exceeds_remaining_capacity"].
Definition internal_unexpected : error := AppError "internal.unexpected" 500 [].

(** The blocker input both services build from the detail record. *)
Definition blocker_input (d : InvestorDetail) (now : Z) (fundingRailAvailable : bool)
    (remainingCapacityEur : string) : BlockerInput :=
  mkBlockerInput now fundingRailAvailable (dt_status d)
    (negb (bool_decide (dt_finalOfferingPublishedAt d = None)))
    (has_documents (dt_currentDisclosurePack d)) remainingCapacityEur (dt_accountStatus d)
    (dt_kycEligibilityState d) (dt_kycRenewalDueAt d) (dt_loginMethods d)
    (negb (bool_decide (dt_walletAddress d = None))) (dt_recoveryCooldownEndsAt d).

(** ** GetInvestorOfferingService *)

Record OfferingView := mkView {
  vw_id : string; vw_status : OfferingStatus; vw_minimumRaise : string; vw_targetRaise : string;
  vw_ipoEndAt : option Z; vw_finalOfferingPublishedAt : option Z; vw_platformRightsEndAt : option Z;
  vw_effectiveRightsEndAt : option Z; vw_pivId : string; vw_currentDisclosurePack : option DetailPack;
  vw_changeLog : list MaterialityRecord.t; vw_reserved : string; vw_funded : string; vw_remaining : string;
  vw_investmentEligible : bool; vw_paymentAccountReady : bool; vw_payoutAccountVerified : bool;
  vw_available : bool; vw_blockers : list ReservationBlocker }.

Definition GetInvestorOffering_execute (now : Z) (fundingRailAvailable : bool)
    (offeringId accountId : string) : io db OfferingView :=
  await record := query (getInvestorDetail offeringId accountId) in
  match record with
  | None => throw offering_not_found
  | Some record =>
      let kycCurrent := isKycCurrent (dt_kycEligibilityState record) (dt_kycRenewalDueAt record) now in
      let loginMethodsComplete := isLoginMethodsComplete (dt_loginMethods record) in
      let investmentEligible :=
        isInvestmentEligible (dt_accountStatus record) kycCurrent loginMethodsComplete in
      await remaining := lift (subtractCurrencyFloorZero (dt_targetRaiseEur record)
                                 (dt_reservedCapacityEur record)) in
      let blockers := computeReservationBlockers (blocker_input record now fundingRailAvailable remaining) in
      ret (mkView (dt_id record) (dt_status record) (dt_minimumRaiseEur record) (dt_targetRaiseEur record)
             (dt_ipoEndAt record) (dt_finalOfferingPublishedAt record) (dt_platformRightsEndAt record)
             (dt_effectiveRightsEndAt record) (dt_pivId record) (dt_currentDisclosurePack record)
             (dt_materialityRecords record) (dt_reservedCapacityEur record) (dt_fundedEur record) remaining
             investmentEligible (negb (bool_decide (dt_walletAddress record = None)))
             (dt_payoutWalletRegistered record) (Nat.eqb (length blockers) 0) blockers)
  end.

Section Coinbase.
(** The Coinbase CDP client: [createOnrampSessionToken wallet blockchain] answers a token
    and a channel or throws; [buildOnrampUrl] is a pure string builder;
    [listBuyTransactions partnerUserRef] answers the recorded purchases or throws. *)

Inductive OnrampStatus := ot_created | ot_in_progress | ot_success | ot_failed.
#[global] Instance OnrampStatus_eq_dec : EqDecision OnrampStatus.
Proof. solve_decision. Defined.

Record OnrampTransactionSummary := mkOnramp {
  on_transactionId : string; on_status : OnrampStatus;
  on_purchaseCurrency : string; on_purchaseAmountValue : string }.

Context (ulid : nat → string).
Context (createOnrampSessionToken : string → string → result (string * string)).
Context (buildOnrampUrl : string → string → string → string).
Context (listBuyTransactions : string → result (list OnrampTransactionSummary)).

(** ** CreateReservationService *)

Record CreateOptions := mkOptions {
  op_fundingRailAvailable : bool; op_blockchain : string;
  op_buildRedirectUrl : string → string; op_expiryMinutes : Z }.

Record ReservationResponse := mkResponse {
  rs_reservationId : string; rs_offeringId : string; rs_amountEur : string;
  rs_expiresAt : Z; rs_url : string; rs_channelId : string }.

Definition assertReplayable (expiryMinutes : Z) (replay : option ReusedReservationState)
    (reservationCreatedAt : Z) (requestedAmountEur : string) (now : Z) : result unit :=
  match replay with
  | None => Err reservationReplayUnavailableError
  | Some replay =>
      let! stored := toCents (ru_amountEur replay) in
      let! requested := toCents requestedAmountEur in
      if negb (stored =? requested) then Err idempotencyKeyReusedError
      else if negb (bool_decide (ru_reservationStage replay = ReservationStage.initiated)) ||
              isReservationFunded (ru_latestCapitalState replay) ||
              isReservationExpired reservationCreatedAt now expiryMinutes
      then Err reservationReplayUnavailableError
      else Ok tt
  end.

(** [now] is the clock at the start of the request, [recordedAt] the clock when the
    onramp call has returned. *)
Definition CreateReservation_execute (opts : CreateOptions) (now recordedAt : Z)
    (offeringId accountId amountEur : string) (clientIdempotencyKey : option string)
    (traceId : string) : io db ReservationResponse :=
  await detail := query (getInvestorDetail offeringId accountId) in
  match detail with
  | None => throw offering_not_found
  | Some detail =>
    await remaining := lift (subtractCurrencyFloorZero (dt_targetRaiseEur detail)
                               (dt_reservedCapacityEur detail)) in
    let blockers := computeReservationBlockers
                      (blocker_input detail now (op_fundingRailAvailable opts) remaining) in
    if (0 <? Z.of_nat (length blockers)) then throw (reservationNotAvailableError blockers)
    else
    await requestedCents := lift (toCents amountEur) in
    await remainingCents := lift (toCents remaining) in
    if remainingCents <? requestedCents then throw amountExceedsCapacityError
    else
    match dt_walletAddress detail with
    | None => throw (reservationNotAvailableError [payment_account_not_ready])
    | Some walletAddress =>
      await candidateReservationId := transaction (λ s, Ok (fresh ulid "reservation_" s)) in
      await created := transaction (createReservation ulid
        (mkCreateReservationInput candidateReservationId offeringId accountId clientIdempotencyKey
           amountEur
           ((λ p, JsString.BigInt_toString (dp_version p)) <$> dt_currentDisclosurePack detail)
           traceId now)) in
      match cr_conflict created, cr_reservation created with
      | Some cc_offering_not_open, _ => throw (reservationNotAvailableError [offering_not_open])
      | Some cc_capacity_exceeded, _ => throw amountExceedsCapacityError
      | None, None => throw internal_unexpected
      | None, Some (reservationId, createdAt) =>
        await _ := (if cr_reused created
                    then lift (assertReplayable (op_expiryMinutes opts) (cr_replay created) createdAt
                                 amountEur now)
                    else ret tt) in
        await session := iocatch (lift (createOnrampSessionToken walletAddress (op_blockchain opts)))
          (λ error,
             await _ := (if cr_reused created then ret tt
                         else transaction (recordMoneyEvent ulid
                           (mkMoneyEventInput reservationId "coinbase_cdp" None
                              CapitalState.purchase_failed amountEur None recordedAt))) in
             throw error) in
        let '(token, channelId) := session in
        await _ := transaction (recordMoneyEvent ulid
          (mkMoneyEventInput reservationId "coinbase_cdp" (Some channelId)
             CapitalState.eurc_purchase_pending amountEur None recordedAt)) in
        let onrampUrl := buildOnrampUrl token reservationId (op_buildRedirectUrl opts reservationId) in
        ret (mkResponse reservationId offeringId amountEur (createdAt + op_expiryMinutes opts * 60000)
               onrampUrl channelId)
      end
    end
  end.

(** ** ExpireUnfundedReservationsService *)

Record JobRunSummary := mkSummary { js_checked : nat; js_acted : nat }.

Definition expire_one (now expiryMinutes : Z) (traceId : string) (acted : nat)
    (reservation : InitiatedReservationForTimer) : io db nat :=
  if negb (isReservationExpired (it_createdAt reservation) now expiryMinutes) then ret acted
  else if isReservationFunded (it_latestCapitalState reservation) then ret acted
  else
    await expired := transaction (expireReservation ulid (it_reservationId reservation) traceId now) in
    ret (if expired : bool then S acted else acted).

Definition ExpireUnfundedReservations_execute (now expiryMinutes : Z) (traceId : string) : io db JobRunSummary :=
  await reservations := query (λ s, Ok (listInitiatedReservationsForTimers s)) in
  await acted := iofold (expire_one now expiryMinutes traceId) 0%nat reservations in
  ret (mkSummary (length reservations) acted).

(** ** PollOnrampTransactionsService *)

Inductive TransactionOutcome :=
  | to_success (transaction : OnrampTransactionSummary)
  | to_failed (transaction : OnrampTransactionSummary)
  | to_pending.

Definition resolveOutcome (transactions : list OnrampTransactionSummary) : TransactionOutcome :=
  match List.find (λ t, bool_decide (on_status t = ot_success)) transactions with
  | Some success => to_success success
  | None =>
      if existsb (λ t, bool_decide (on_status t = ot_created) || bool_decide (on_status t = ot_in_progress))
           transactions
      then to_pending
      else match List.find (λ t, bool_decide (on_status t = ot_failed)) transactions with
           | Some failed => to_failed failed
           | None => to_pending
           end
  end.

Definition isPurchaseCovering (transaction : OnrampTransactionSummary) (reservedAmountEur : string) : result bool :=
  if negb (bool_decide (on_purchaseCurrency transaction = "EURC")) then Ok false
  else
    let! creditedMicros := toEurcMicros (on_purchaseAmountValue transaction) in
    let! reservedMicros := toEurcMicros reservedAmountEur in
    let minimumMicros := Z.quot (reservedMicros * 9) 10 in
    Ok ((0 <? creditedMicros) && (minimumMicros <=? creditedMicros)).

(** [clock k] is the clock when the event of reservation [k] is recorded. *)
Definition poll_one (clock : string → Z) (acted : nat) (reservation : PendingPurchaseReservationForTimer)
    : io db nat :=
  await transactions := lift (listBuyTransactions (pp_reservationId reservation)) in
  match resolveOutcome transactions with
  | to_pending => ret acted
  | to_success transaction =>
      await funded := lift (isPurchaseCovering transaction (pp_amountEur reservation)) in
      await _ := Prelude.transaction (recordMoneyEvent ulid
        (mkMoneyEventInput (pp_reservationId reservation) "coinbase_cdp" (Some (on_transactionId transaction))
           (if funded : bool then CapitalState.eurc_reserved else CapitalState.purchase_failed)
           (pp_amountEur reservation)
           (if funded then Some (on_purchaseAmountValue transaction) else None) (clock (pp_reservationId reservation)))) in
      ret (S acted)
  | to_failed transaction =>
      await _ := Prelude.transaction (recordMoneyEvent ulid
        (mkMoneyEventInput (pp_reservationId reservation) "coinbase_cdp" (Some (on_transactionId transaction))
           CapitalState.purchase_failed (pp_amountEur reservation) None (clock (pp_reservationId reservation)))) in
      ret (S acted)
  end.

Definition PollOnrampTransactions_execute (clock : string → Z) : io db JobRunSummary :=
  await pending := query (λ s, Ok (listPendingPurchaseReservationsForTimers s)) in
  await acted := iofold (poll_one clock) 0%nat pending in
  ret (mkSummary (length pending) acted).

(** ** CommitOfferingFinalizationService *)

Definition commit_one (now : Z) (traceId : string) (acted : nat) (offering : string * Z) : io db nat :=
  let '(offeringId, effectiveRightsEndAt) := offering in
  if isReconfirmationWindowOpen effectiveRightsEndAt now then ret acted
  else
    await result := transaction (commitOfferingFinalization ulid offeringId traceId now) in
    ret (match result with inl _ => S acted | inr _ => acted end).

Definition CommitOfferingFinalization_execute (now : Z) (traceId : string) : io db JobRunSummary :=
  await pending := query (λ s, Ok (listOfferingsPendingFinalizationCommit s)) in
  await acted := iofold (commit_one now traceId) 0%nat pending in
  ret (mkSummary (length pending) acted).

(** ** The founder's and the investor's decisions: each conflict has its own error *)

Definition reconfirm_error (c : ReconfirmConflict) : error :=
  match c with
  | rc_not_found => AppError "offering.reservation_not_found" 404 []
  | rc_not_awaiting_reconfirmation => AppError "offering.reservation_not_awaiting_reconfirmation" 409 []
  | rc_window_closed => AppError "offering.reconfirmation_window_closed" 409 []
  | rc_disclosure_pack_incomplete => AppError "offering.reconfirmation_disclosure_pack_incomplete" 409 []
  end.

Definition ReconfirmReservation_execute (now : Z) (accountId reservationId traceId : string) : io db Z :=
  await result := transaction (reconfirmReservation ulid reservationId accountId traceId now) in
  match result with
  | inr conflict => throw (reconfirm_error conflict)
  | inl reconfirmedAt => ret reconfirmedAt
  end.

Definition finalize_error (c : PublishConflict) : error :=
  match c with
  | pc_offering_not_found => offering_not_found
  | pc_not_open | pc_already_published => AppError "offering.finalization_not_available" 409 []
  | pc_target_not_reached => AppError "offering.finalization_target_not_reached" 409 []
  | pc_disclosure_pack_incomplete => AppError "offering.finalization_disclosure_pack_incomplete" 409 []
  end.

Definition FinalizeOffering_execute (now : Z) (accountId offeringId traceId founderReviewNotes : string)
    : io db PublishedTerms :=
  await result := transaction (publishFinalOfferingTerms ulid
    (mkPublishInput offeringId accountId founderReviewNotes traceId now)) in
  match result with
  | inr conflict => throw (finalize_error conflict)
  | inl published => ret published
  end.

Definition classify_error (c : ClassifyConflict) : error :=
  match c with
  | cl_offering_not_found => offering_not_found
  | cl_no_active_reconfirmation_window =>
      AppError "offering.materiality_classification_not_available" 409 []
  end.

Definition ClassifyMateriality_execute (now : Z) (accountId offeringId traceId changeDescription : string)
    (classification : MaterialityClassification) (thresholdType : option string) : io db Classified :=
  await result := transaction (classifyMateriality ulid
    (mkClassifyInput offeringId accountId changeDescription classification thresholdType traceId now)) in
  match result with
  | inr conflict => throw (classify_error conflict)
  | inl classified => ret classified
  end.

Definition pack_error (c : PackConflict) : error :=
  match c with
  | pk_offering_not_found => offering_not_found
  | pk_not_open => AppError "offering.disclosure_pack_not_available" 409 []
  end.

Definition PublishDisclosurePack_execute (now : Z) (accountId offeringId traceId : string)
    (documents : list (DisclosureDocumentType * string)) : io db PublishedPack :=
  await result := transaction (publishDisclosurePack ulid
    (mkPublishPackInput offeringId accountId documents traceId now)) in
  match result with
  | inr conflict => throw (pack_error conflict)
  | inl published => ret published
  end.

End Coinbase.
End OfferingServices.
