(* ===== verification/OfferingServiceProps.v ===== *)
(** The offering services: every run is a sequence of repository steps, so all the
    reachability invariants apply to it, and the services' own guarantees hold. *)

From S2P Require Import Prelude JsString Currency Db OfferingPolicy OfferingRepo OfferingFacts OfferingInv OfferingLedger OfferingDemo OfferingPacks OfferingProps OfferingServices.

Module OfferingServiceProps.
Import Currency OfferingPolicy OfferingRepo OfferingFacts OfferingInv OfferingSteps
  OfferingLedger OfferingDemo OfferingPacks OfferingTxProps OfferingServices.

(** ** Refinement *)

Section refinement.
Context (ulid : nat → string).
Context (createOnrampSessionToken : string → string → result (string * string)).
Context (buildOnrampUrl : string → string → string → string).
Context (listBuyTransactions : string → result (list OnrampTransactionSummary)).

Notation steps := (rtc (step ulid)).

Lemma outside_same s s' :
  offerings s' = offerings s → reservations s' = reservations s → moneyEvents s' = moneyEvents s →
  disclosurePacks s' = disclosurePacks s → positions s' = positions s → outside s s'.
Proof.
  intros E1 E2 E3 E4 E5. split; try done. exists (positions s), []. rewrite app_nil_r.
  split_and!; [done | apply position_evolves_refl | done].
Qed.

#[local] Hint Extern 3 (io_rel _ (transaction _)) =>
  apply io_rel_transaction; [apply _|]; intros; apply rtc_once : vista.
#[local] Hint Extern 2 (step _ _ _) =>
  first [ eapply st_create; eassumption | eapply st_expire; eassumption
        | eapply st_publish; eassumption | eapply st_reconfirm; eassumption
        | eapply st_commit; eassumption | eapply st_classify; eassumption
        | eapply st_pack; eassumption ] : vista.

Lemma recordMoneyEvent_steps input : io_rel steps (transaction (recordMoneyEvent ulid input)).
Proof. apply io_rel_transaction; [apply _|]. intros s [] s' H. apply rtc_once. by eapply st_money. Qed.

Lemma candidate_steps : io_rel steps (transaction (λ s, Ok (fresh ulid "reservation_" s))).
Proof.
  apply io_rel_transaction; [apply _|]. intros s a s' [= <- <-].
  apply rtc_once, st_outside. by apply outside_same.
Qed.

#[local] Hint Resolve recordMoneyEvent_steps candidate_steps : vista.

(** Walk a service body: binds, branches and transactions. *)
#[local] Ltac walk :=
  repeat first
    [ apply io_rel_ret; apply _ | apply io_rel_throw; apply _ | apply io_rel_lift; apply _
    | apply io_rel_query; apply _
    | apply recordMoneyEvent_steps | apply candidate_steps
    | apply io_rel_catch; [apply _| |intros ?]
    | apply io_rel_bind; [apply _| |intros ?]
    | apply io_rel_fold; [apply _|intros ? ?]
    | progress (solve [auto with vista])
    | match goal with |- io_rel _ (match ?x with _ => _ end) => destruct x end
    | match goal with |- io_rel _ (if ?x then _ else _) => destruct x end ].

Lemma create_steps opts now at_ off acc amount key tr :
  io_rel steps (CreateReservation_execute ulid createOnrampSessionToken buildOnrampUrl
                  opts now at_ off acc amount key tr).
Proof. unfold CreateReservation_execute. walk. Qed.

Lemma expire_steps now m tr : io_rel steps (ExpireUnfundedReservations_execute ulid now m tr).
Proof. unfold ExpireUnfundedReservations_execute, expire_one. walk. Qed.

Lemma poll_steps clock : io_rel steps (PollOnrampTransactions_execute ulid listBuyTransactions clock).
Proof. unfold PollOnrampTransactions_execute, poll_one. walk. Qed.

Lemma commit_steps now tr : io_rel steps (CommitOfferingFinalization_execute ulid now tr).
Proof. unfold CommitOfferingFinalization_execute, commit_one. walk. Qed.

Lemma decision_steps {A B} (t : txn db (A + B)) (f : B → error) :
  (∀ s a s', t s = Ok (a, s') → step ulid s s') →
  io_rel steps (iobind (transaction t) (λ r, match r with inr c => throw (f c) | inl a => ret a end)).
Proof.
  intros Ht. apply io_rel_bind; [apply _| |intros []; walk].
  apply io_rel_transaction; [apply _|]. intros. apply rtc_once. eauto.
Qed.

(** Everything a client or the scheduler can ask of the module. *)
Inductive request :=
  | rq_view (now : Z) (rail : bool) (offeringId accountId : string)
  | rq_create (opts : CreateOptions) (now recordedAt : Z) (offeringId accountId amountEur : string)
      (key : option string) (traceId : string)
  | rq_expire (now expiryMinutes : Z) (traceId : string)
  | rq_poll (clock : string → Z)
  | rq_commit (now : Z) (traceId : string)
  | rq_reconfirm (now : Z) (accountId reservationId traceId : string)
  | rq_finalize (now : Z) (accountId offeringId traceId notes : string)
  | rq_classify (now : Z) (accountId offeringId traceId description : string)
      (classification : MaterialityClassification) (thresholdType : option string)
  | rq_pack (now : Z) (accountId offeringId traceId : string)
      (documents : list (DisclosureDocumentType * string)).

(** The database a request leaves, whether it answered or threw. *)
Definition serve (r : request) (s : db) : db :=
  match r with
  | rq_view now rail o a => (GetInvestorOffering_execute now rail o a s).2
  | rq_create opts now at_ o a amount key tr =>
      (CreateReservation_execute ulid createOnrampSessionToken buildOnrampUrl opts now at_ o a amount key tr s).2
  | rq_expire now m tr => (ExpireUnfundedReservations_execute ulid now m tr s).2
  | rq_poll clock => (PollOnrampTransactions_execute ulid listBuyTransactions clock s).2
  | rq_commit now tr => (CommitOfferingFinalization_execute ulid now tr s).2
  | rq_reconfirm now a r tr => (ReconfirmReservation_execute ulid now a r tr s).2
  | rq_finalize now a o tr notes => (FinalizeOffering_execute ulid now a o tr notes s).2
  | rq_classify now a o tr d c t => (ClassifyMateriality_execute ulid now a o tr d c t s).2
  | rq_pack now a o tr docs => (PublishDisclosurePack_execute ulid now a o tr docs s).2
  end.

Lemma serve_steps r s : steps s (serve r s).
Proof.
  destruct r; simpl.
  - unfold GetInvestorOffering_execute. apply (io_rel_bind _); [apply io_rel_query; apply _|].
    intros []; walk.
  - apply create_steps.
  - apply expire_steps.
  - apply poll_steps.
  - apply commit_steps.
  - apply decision_steps. intros. by eapply st_reconfirm.
  - apply decision_steps. intros. by eapply st_publish.
  - apply decision_steps. intros. by eapply st_classify.
  - apply decision_steps. intros. by eapply st_pack.
Qed.

End refinement.

(** The offering services refine the transaction machine: whatever requests and sweeps
    run in sequence, and whether each answers or throws midway, the resulting database is
    reachable by repository transactions alone, so every invariant of reachable databases
    holds after it. *)
Theorem services_refine_transactions ulid session url transactions requests s :
  reachable ulid s →
  reachable ulid (foldl (λ s r, serve ulid session url transactions r s) s requests).
Proof.
  intros (a & k & c & w & H). exists a, k, c, w. revert s H.
  induction requests as [|r requests IH]; intros s H; simpl; [done|].
  apply IH. etrans; [exact H | apply serve_steps].
Qed.

Definition demo_session (wallet blockchain : string) : result (string * string) := Ok ("token", "channel").
Definition demo_url (token ref redirect : string) : string := ref.
Definition demo_transactions (ref : string) : result (list OnrampTransactionSummary) :=
  Ok [mkOnramp "tx" ot_success "EURC" "95.00"].
Definition demo_options : CreateOptions := mkOptions true "base" (λ r, r) 15.

Lemma services_refine_transactions_witness :
  reachable demo_ulid (foldl (λ s r, serve demo_ulid demo_session demo_url demo_transactions r s) d1
    [rq_pack 1500 "founder" "offering_1" "trace" (pb_documents (pack_input 1500));
     rq_create demo_options 2000 2001 "offering_1" "alice" "100.00" (Some "k1") "trace";
     rq_poll (λ _, 3000); rq_expire 5000000 15 "trace"]).
Proof. apply (services_refine_transactions demo_ulid demo_session demo_url demo_transactions), reachable_d1. Defined.

(** ** CreateReservationService *)

Lemma assertReplayable_ok m replay createdAt amountEur now :
  assertReplayable m replay createdAt amountEur now = Ok tt →
  ∃ rep c, replay = Some rep ∧ toCents (ru_amountEur rep) = Ok c ∧ toCents amountEur = Ok c ∧
    ru_reservationStage rep = ReservationStage.initiated ∧
    isReservationFunded (ru_latestCapitalState rep) = false ∧
    isReservationExpired createdAt now m = false.
Proof.
  intros H. destruct replay as [rep|]; [|done]. unfold assertReplayable in H. inv_ok H. boolify.
  subst. eexists rep, _. by split_and!.
Qed.

(** The reservation a create transaction answers with. *)
Lemma create_outcome_row input s res s' rid t :
  create_outcome input s res s' → cr_conflict res = None → cr_reservation res = Some (rid, t) →
  ∃ r, In r (reservations s') ∧ Reservation.id r = rid ∧ Reservation.createdAt r = t ∧
    Reservation.accountId r = cr_accountId input ∧ Reservation.offeringId r = cr_offeringId input ∧
    if cr_reused res
    then s' = s ∧ cr_replay res = Some (mkReused (numeric2_text (Reservation.amountEur r))
           (Reservation.stage r) (latest_capital_state rid s))
    else t = cr_createdAt input ∧ toCents (cr_amountEur input) = Ok (Reservation.amountEur r) ∧
         Reservation.stage r = ReservationStage.initiated ∧ ¬ In rid (map Reservation.id (reservations s)).
Proof.
  intros H _ Hres. destruct H as [|o r Ho Hst Hex| |o amount s' e _ _ _ Ha _ _ Hadm Hr]; simpl in Hres; try done.
  - injection Hres as <- <-. unfold existing_for in Hex.
    destruct (cr_clientIdempotencyKey input) as [k|]; [|done].
    apply find_row_Some in Hex as [Hin (Ea & Eo & _)%same_client_key_row].
    exists r. by split_and!.
  - injection Hres as <- <-. exists (new_reservation input amount). rewrite Hr, in_app_iff.
    cbn [cr_reused]. split_and!; try done; [right; by left | apply Hadm].
Qed.

Section create.
Context (ulid : nat → string).
Context (createOnrampSessionToken : string → string → result (string * string)).
Context (buildOnrampUrl : string → string → string → string).
Notation execute := (CreateReservation_execute ulid createOnrampSessionToken buildOnrampUrl).

(** What a successful create request has established. *)
Record create_granted (opts : CreateOptions) (now : Z) (off acc amount : string)
    (s : db) (resp : ReservationResponse) (s' : db) : Prop := {
  cg_eligible : ∃ detail remaining, getInvestorDetail off acc s = Ok (Some detail) ∧
    computeReservationBlockers (blocker_input detail now (op_fundingRailAvailable opts) remaining) = [];
  cg_row : ∃ r c e, In r (reservations s') ∧ Reservation.id r = rs_reservationId resp ∧
    Reservation.accountId r = acc ∧ Reservation.offeringId r = off ∧
    Reservation.stage r = ReservationStage.initiated ∧
    toCents amount = Ok c ∧ Reservation.amountEur r = c ∧
    rs_expiresAt resp = Reservation.createdAt r + op_expiryMinutes opts * 60000 ∧
    isReservationExpired (Reservation.createdAt r) now (op_expiryMinutes opts) = false ∧
    In e (moneyEvents s') ∧ MoneyEvent.reservationId e = rs_reservationId resp ∧
    MoneyEvent.capitalState e = CapitalState.eurc_purchase_pending ∧ MoneyEvent.amountEur e = c ∧
    MoneyEvent.providerReference e = Some (rs_channelId resp);
  cg_unfunded : In (rs_reservationId resp) (map Reservation.id (reservations s)) →
    isReservationFunded (latest_capital_state (rs_reservationId resp) s) = false }.

Lemma recordMoneyEvent_inv input s u s' :
  recordMoneyEvent ulid input s = Ok (u, s') →
  reservations s' = reservations s ∧
  ∃ e c, moneyEvents s' = moneyEvents s ++ [e] ∧ toCents (me_amountEur input) = Ok c ∧
    MoneyEvent.reservationId e = me_reservationId input ∧
    MoneyEvent.capitalState e = me_capitalState input ∧ MoneyEvent.amountEur e = c ∧
    MoneyEvent.providerReference e = me_providerReference input.
Proof.
  unfold recordMoneyEvent. cbn [fresh]. intros H. inv_ok H; injection H as <- <-; inv_creates;
    (split; [done|]; eexists _, _; by split_and!).
Qed.

Lemma catch_throw_ok {A} (m : io db A) (h : io db unit) e0 s a s' :
  iocatch m (λ e, iobind h (λ _, throw (e0 e))) s = (Ok a, s') → m s = (Ok a, s').
Proof.
  unfold iocatch. destruct (m s) as [[x|e] s1]; [done|].
  intros H. apply iobind_ok in H as (? & ? & _ & H). by apply throw_ok in H.
Qed.

Lemma create_service_granted opts now at_ off acc amount key tr s resp s' :
  wf s → 0 ≤ op_expiryMinutes opts →
  execute opts now at_ off acc amount key tr s = (Ok resp, s') →
  create_granted opts now off acc amount s resp s'.
Proof.
  intros W Hm H. unfold CreateReservation_execute in H. inv_io H.
  destruct a as [detail|]; [|by apply throw_ok in H].
  inv_io H. destruct (0 <? _) eqn:Eb in H; [by apply throw_ok in H|].
  inv_io H. destruct (_ <? _) eqn:Ec in H; [by apply throw_ok in H|].
  destruct (dt_walletAddress detail) as [w|]; [|by apply throw_ok in H].
  inv_io H.
  assert (wf (set_ulids (S (ulids s)) s)) as W0 by (by destruct W; split).
  apply createReservation_outcome in Hio3; [|done]. rename Hio3 into Hcre.
  destruct (cr_conflict a2) as [[]|] eqn:Econf; [by apply throw_ok in H..|].
  destruct (cr_reservation a2) as [[rid t]|] eqn:Eres; [|by apply throw_ok in H].
  destruct (create_outcome_row _ _ _ _ rid t Hcre Econf Eres) as (r & Hr & Hid & Ht & Ha & Ho & Hcase).
  simpl in Ha, Ho.
  apply iobind_ok in H as ([] & s1 & Hre & H). cbv beta in H.
  apply iobind_ok in H as ([token channel] & s2 & Hs & H). cbv beta iota in H.
  apply catch_throw_ok in Hs. apply lift_ok in Hs as [_ ->].
  inv_io H. apply recordMoneyEvent_inv in Hio3 as (Hrs & e & c & Hm' & Hc & Ee).
  simpl in Hc, Ee. destruct Ee as (Ee1 & Ee2 & Ee3 & Ee4).
  assert (s1 = s0 ∧ Reservation.stage r = ReservationStage.initiated ∧ Reservation.amountEur r = c ∧
    isReservationExpired t now (op_expiryMinutes opts) = false ∧
    (In rid (map Reservation.id (reservations s)) → isReservationFunded (latest_capital_state rid s) = false))
    as (-> & Hst & Hamt & Hexp & Hunf).
  { destruct (cr_reused a2).
    - destruct Hcase as [-> Hrep]. apply lift_ok in Hre as [Hre ->].
      apply assertReplayable_ok in Hre as (rep & c' & Erep & Ec1 & Ec2 & Est & Ef & Ex).
      rewrite Hrep in Erep. injection Erep as <-. simpl in *.
      pose proof (wf_amounts _ W0 r Hr) as Hpos.
      rewrite toCents_numeric2_text in Ec1 by lia. by split_and!; [..|congruence| |].
    - destruct Hcase as (-> & Hc' & Hst & Hnew). apply ret_ok in Hre as [_ ->]. simpl in *.
      split_and!; [done | done | congruence | | done].
      unfold isReservationExpired. apply Z.ltb_ge. lia. }
  split; simpl.
  - exists detail, a. split; [done|]. boolify. by destruct (computeReservationBlockers _).
  - exists r, c, e. rewrite Hrs, Hm', in_app_iff, Ht.
    split_and!; try done; right; by left.
  - done.
Qed.

(** the tables a request may not touch when it fails on a replay *)
Definition same_tables (s s' : db) : Prop :=
  reservations s' = reservations s ∧ moneyEvents s' = moneyEvents s ∧ offerings s' = offerings s.

(** A request whose onramp call throws. *)
Inductive create_failed (s : db) : db → Prop :=
  | cf_nothing s' : same_tables s s' → create_failed s s'
  | cf_hold s' r e1 rest : reservations s' = reservations s ++ [r] →
      Reservation.stage r = ReservationStage.initiated →
      ¬ In (Reservation.id r) (map Reservation.id (reservations s)) →
      moneyEvents s' = moneyEvents s ++ e1 :: rest →
      MoneyEvent.reservationId e1 = Reservation.id r →
      (rest = [] ∨ ∃ e2, rest = [e2] ∧ MoneyEvent.reservationId e2 = Reservation.id r ∧
                         MoneyEvent.capitalState e2 = CapitalState.purchase_failed) →
      create_failed s s'.

#[local] Arguments assertReplayable : simpl never.

Lemma create_service_failure opts now at_ off acc amount key tr s e0 :
  wf s → (∀ w b, createOnrampSessionToken w b = Err e0) →
  is_ok (execute opts now at_ off acc amount key tr s).1 = false ∧
  create_failed s (execute opts now at_ off acc amount key tr s).2.
Proof.
  intros W Hfail. assert (create_failed s s) as Hsame by (by apply cf_nothing).
  assert (wf (set_ulids (S (ulids s)) s)) as W0 by (by destruct W; split).
  unfold CreateReservation_execute, iobind, query, lift, throw.
  destruct (getInvestorDetail off acc s) as [[detail|]|]; [|done..].
  destruct (subtractCurrencyFloorZero _ _) as [a|]; [|done].
  destruct (0 <? _); [done|]. destruct (toCents amount) as [c|] eqn:Eamt; [|done].
  destruct (toCents a) as [c'|]; [|done]. destruct (c' <? c); [done|].
  destruct (dt_walletAddress detail) as [w|]; [|done].
  change (transaction (λ s1, Ok (fresh ulid "reservation_" s1)) s)
    with (@Ok string (String.append "reservation_" (ulid (ulids s))), set_ulids (S (ulids s)) s).
  cbv iota beta.
  match goal with |- context [transaction (createReservation ulid ?i)] =>
    destruct (transaction (createReservation ulid i) (set_ulids (S (ulids s)) s)) as [[a2|e] s0] eqn:E end.
  2:{ split; [done|]. unfold transaction in E. destruct (createReservation _ _ _) as [[]|]; [done|].
      injection E as _ <-. by apply cf_nothing. }
  apply transaction_ok in E. apply createReservation_outcome in E; [|done].
  destruct E as [|o r Ho Hst Hex| |o amount' s0 e1 _ _ _ _ _ _ Hadm Hr Hm Hid _ _ Hoff]; simpl;
    try (by split; [|apply cf_nothing]).
  - destruct (assertReplayable _ _ _ _ _) as [[]|]; [|by split; [|apply cf_nothing]].
    unfold iocatch. rewrite Hfail. by split; [|apply cf_nothing].
  - unfold iocatch. rewrite Hfail.
    match goal with |- context [transaction (recordMoneyEvent ulid ?i) s0] =>
      destruct (transaction (recordMoneyEvent ulid i) s0) as [[u|e] s1] eqn:E end.
    + apply transaction_ok, recordMoneyEvent_inv in E as (Hrs & e2 & c2 & Hm' & _ & E1 & E2 & _).
      split; [done|]. eapply (cf_hold _ _ _ e1 [e2]); simpl.
      * by rewrite Hrs.
      * done.
      * apply Hadm.
      * by rewrite Hm', Hm, <- app_assoc.
      * done.
      * right. by exists e2.
    + unfold transaction in E. destruct (recordMoneyEvent _ _ _) as [[]|]; [done|].
      injection E as _ <-. split; [done|].
      eapply (cf_hold _ _ _ e1 []); [done | done | apply Hadm | done | done | by left].
Qed.

End create.

(** A create request that answers has checked every eligibility gate at the time of the
    request, and hands back an initiated reservation of that account and offering for
    exactly the requested amount, inside its payment window, with a pending-purchase event
    recorded for it; if the reservation existed before (a retry) it was not yet funded. *)
Theorem create_request_grants ulid session url opts now at_ off acc amount key tr s resp s' :
  reachable ulid s → 0 ≤ op_expiryMinutes opts →
  CreateReservation_execute ulid session url opts now at_ off acc amount key tr s = (Ok resp, s') →
  create_granted opts now off acc amount s resp s'.
Proof. intros R%reachable_wf. by apply create_service_granted. Qed.

Definition d1p : db := run (publishDisclosurePack demo_ulid (pack_input 1500)) d1.

Lemma reachable_d1p : reachable demo_ulid d1p.
Proof. eapply reachable_step; [apply reachable_d1 | demo_step st_pack]. Qed.

Lemma create_request_grants_witness :
  let out := CreateReservation_execute demo_ulid demo_session demo_url demo_options 2000 2001
               "offering_1" "alice" "60.00" (Some "k1") "trace" d1p in
  ∃ resp, out.1 = Ok resp ∧
    create_granted demo_options 2000 "offering_1" "alice" "60.00" d1p resp out.2.
Proof.
  intros out. destruct out as [[resp|e] s'] eqn:E.
  2:{ exfalso. vm_compute in E. discriminate E. }
  exists resp. split; [reflexivity|].
  apply (create_request_grants demo_ulid demo_session demo_url demo_options 2000 2001 "offering_1" "alice"
    "60.00" (Some "k1") "trace" d1p resp s' reachable_d1p); [simpl; lia | exact E].
Defined.

(** When the payment provider throws, the request throws too; either nothing was
    written (also on every retry of an existing reservation, which is never marked failed)
    or exactly the new reservation was created and its failure recorded after its initial
    event. *)
Theorem create_request_provider_failure ulid session url opts now at_ off acc amount key tr s e0 :
  reachable ulid s → (∀ w b, session w b = Err e0) →
  let out := CreateReservation_execute ulid session url opts now at_ off acc amount key tr s in
  is_ok out.1 = false ∧ create_failed s out.2.
Proof. intros R%reachable_wf H. by apply (create_service_failure _ _ _ _ _ _ _ _ _ _ _ _ e0). Qed.

Lemma create_request_provider_failure_witness :
  let out := CreateReservation_execute demo_ulid (λ _ _, Err (Thrown "timeout")) demo_url demo_options
               2000 2001 "offering_1" "alice" "60.00" (Some "k1") "trace" d1p in
  length (moneyEvents out.2) = 2%nat ∧ create_failed d1p out.2.
Proof.
  intros out. split; [vm_compute; reflexivity|].
  apply (create_request_provider_failure demo_ulid (λ _ _, Err (Thrown "timeout")) demo_url demo_options
    2000 2001 "offering_1" "alice" "60.00" (Some "k1") "trace" d1p (Thrown "timeout") reachable_d1p).
  reflexivity.
Defined.

(** ** The investor's view and the request agree *)

(** The view shown to an investor and the create request apply the same gates to the
    same data: if the view computed at the same moment says reservations are available,
    the request is not refused by an eligibility blocker before its transaction; if the
    view lists blockers, the request is refused with exactly those blockers, in order, and
    writes nothing. *)
Theorem view_agrees_with_create ulid session url opts now at_ off acc amount key tr s view s1 :
  GetInvestorOffering_execute now (op_fundingRailAvailable opts) off acc s = (Ok view, s1) →
  s1 = s ∧
  (vw_available view = true ↔ vw_blockers view = []) ∧
  (vw_available view = false →
     CreateReservation_execute ulid session url opts now at_ off acc amount key tr s =
     (Err (reservationNotAvailableError (vw_blockers view)), s)) ∧
  (vw_available view = true → vw_investmentEligible view = true ∧ vw_paymentAccountReady view = true).
Proof.
  intros H. unfold GetInvestorOffering_execute in H. inv_io H. destruct a as [d|]; [|by apply throw_ok in H].
  inv_io H. set (bs := computeReservationBlockers _).
  assert (Nat.eqb (length bs) 0 = true ↔ bs = []) as Hbs by (destruct bs; split; done).
  split; [done|]. simpl. split; [done|]. split.
  - intros Hne. unfold CreateReservation_execute, iobind, query, lift. rewrite Hio, Hio0.
    fold bs. destruct bs as [|b bs']; [done|]. done.
  - intros Hav. apply Hbs in Hav. subst bs.
    apply computeReservationBlockers_nil in Hav as (Hacc & Hk & Hl & Hw & _). simpl in *.
    split; [|done]. unfold isInvestmentEligible. by rewrite Hacc, Hk, Hl.
Qed.

Lemma view_agrees_with_create_witness :
  CreateReservation_execute demo_ulid demo_session demo_url demo_options 2000 2001
    "offering_1" "bob" "60.00" None "trace" d1p =
  (Err (reservationNotAvailableError [kyc_not_eligible; payment_account_not_ready]), d1p).
Proof.
  destruct (GetInvestorOffering_execute 2000 true "offering_1" "bob" d1p) as [[view|e] s1] eqn:E.
  2:{ exfalso. vm_compute in E. discriminate E. }
  destruct (view_agrees_with_create demo_ulid demo_session demo_url demo_options 2000 2001 "offering_1" "bob"
    "60.00" None "trace" d1p view s1 E) as (_ & _ & H & _).
  vm_compute in E. injection E as <- <-. apply H. reflexivity.
Defined.

(** ** The expiry sweep *)

Definition sweep_due (now m : Z) (s : db) (r : Reservation.t) : bool :=
  stage_is ReservationStage.initiated r && isReservationExpired (Reservation.createdAt r) now m &&
  negb (isReservationFunded (latest_capital_state (Reservation.id r) s)).

Section sweep.
Context (ulid : nat → string) (now m : Z) (tr : string).

Definition timer_due (t : InitiatedReservationForTimer) : bool :=
  isReservationExpired (it_createdAt t) now m && negb (isReservationFunded (it_latestCapitalState t)).

Definition timer_of (s : db) (t : InitiatedReservationForTimer) : Prop :=
  ∃ r, find_reservation (it_reservationId t) s = Some r ∧
    stage_is ReservationStage.initiated r = true ∧
    it_latestCapitalState t = latest_capital_state (it_reservationId t) s.

Lemma sweep_fold ts s acted :
  List.NoDup (map it_reservationId ts) → List.Forall (timer_of s) ts →
  ∃ s', iofold (expire_one ulid now m tr) acted ts s =
          (Ok (acted + length (List.filter timer_due ts))%nat, s') ∧
    reservations s' = foldl (λ acc t, update_where (by_id Reservation.id (it_reservationId t))
                               (Reservation.set_stage ReservationStage.lapsed) acc)
                        (reservations s) (List.filter timer_due ts) ∧
    moneyEvents s' = moneyEvents s ∧ offerings s' = offerings s ∧ positions s' = positions s.
Proof.
  revert s acted. induction ts as [|t ts IH]; intros s acted Hnd Hts; simpl.
  { exists s. rewrite Nat.add_0_r. by split_and!. }
  apply List.NoDup_cons_iff in Hnd as [Ht Hnd]. inversion Hts as [|? ? (r & Hr & Hst & Hl) Hts']; subst.
  assert (timer_due t = isReservationExpired (it_createdAt t) now m &&
    negb (isReservationFunded (it_latestCapitalState t))) as -> by done.
  unfold expire_one at 1, iobind at 1.
  destruct (isReservationExpired _ _ _); simpl; [|by apply IH].
  rewrite Hl. destruct (isReservationFunded _) eqn:Ef; simpl; [by apply IH|].
  unfold iobind, transaction, expireReservation. cbn [fresh]. rewrite Hr, Hst, Ef. simpl.
  match goal with |- context [iofold _ (S acted) ts ?s1] => destruct (IH s1 (S acted)) as (s' & E & Hs) end.
  - done.
  - apply List.Forall_forall. intros t' Hin. rewrite List.Forall_forall in Hts'.
    destruct (Hts' t' Hin) as (r' & Hr' & Hst' & Hl'). exists r'. split_and!; [|done|done].
    unfold find_reservation in *. simpl. rewrite find_row_update_where by done. rewrite Hr'. simpl.
    apply find_row_Some in Hr' as [_ E']. unfold by_id in *. boolify.
    rewrite bool_decide_eq_false_2; [done|]. intros E. apply Ht. rewrite <- E, E'. by apply in_map.
  - exists s'. rewrite E. split; [f_equal; f_equal; lia | exact Hs].
Qed.

Lemma sweep_timers s :
  wf s → List.NoDup (map it_reservationId (listInitiatedReservationsForTimers s)) ∧
  List.Forall (timer_of s) (listInitiatedReservationsForTimers s).
Proof.
  intros W. unfold listInitiatedReservationsForTimers. rewrite map_map. split.
  - apply (NoDup_map_filter Reservation.id), W.
  - apply List.Forall_forall. intros t Hin. apply in_map_iff in Hin as (r & <- & Hr).
    apply filter_In in Hr as [Hr Hst]. exists r. simpl. split_and!; [|done|done].
    destruct (find_reservation (Reservation.id r) s) as [r'|] eqn:E.
    + apply find_reservation_Some in E as [Hr' E]. f_equal. by eapply NoDup_map_inj_in; [apply W|..].
    + unfold find_reservation in E. rewrite find_row_None in E. specialize (E r Hr).
      by rewrite by_id_eq in E.
Qed.

End sweep.

(** One run of the expiry sweep always completes; it lapses exactly the initiated
    reservations that are past their payment window and have no landed purchase, touches
    no other row and no money, and its summary counts them. *)
Theorem expiry_sweep_exact ulid now m tr s :
  reachable ulid s →
  ∃ s', ExpireUnfundedReservations_execute ulid now m tr s =
      (Ok (mkSummary (length (List.filter (stage_is ReservationStage.initiated) (reservations s)))
             (length (List.filter (sweep_due now m s) (reservations s)))), s') ∧
    reservations s' = update_where (sweep_due now m s) (Reservation.set_stage ReservationStage.lapsed)
                        (reservations s) ∧
    moneyEvents s' = moneyEvents s ∧ offerings s' = offerings s ∧ positions s' = positions s.
Proof.
  intros W%reachable_wf. destruct (sweep_timers s W) as [Hnd Hts].
  destruct (sweep_fold ulid now m tr _ s 0%nat Hnd Hts) as (s' & E & Hr & Hrest).
  exists s'. unfold ExpireUnfundedReservations_execute, iobind at 1, query. simpl.
  unfold iobind. rewrite E. unfold ret.
  assert (List.filter (timer_due now m) (listInitiatedReservationsForTimers s) =
    map (λ r, mkInitiated (Reservation.id r) (Reservation.offeringId r) (Reservation.accountId r)
              (Reservation.createdAt r) (latest_capital_state (Reservation.id r) s))
      (List.filter (sweep_due now m s) (reservations s))) as Ef.
  { unfold listInitiatedReservationsForTimers, sweep_due. clear.
    induction (reservations s) as [|r l IH]; simpl; [done|].
    destruct (stage_is _ r); simpl; [|done]. rewrite IH. unfold timer_due. simpl.
    by destruct (_ && _). }
  rewrite Ef, foldl_map in Hr. simpl in Hr.
  rewrite (seq_update_bulk Reservation.id _ (λ _, Reservation.set_stage ReservationStage.lapsed)
    (Reservation.set_stage ReservationStage.lapsed)) in Hr by (try done; apply W).
  rewrite Ef, length_map. split; [|done]. f_equal. f_equal. f_equal.
  unfold listInitiatedReservationsForTimers. by rewrite length_map.
Qed.

Lemma expiry_sweep_exact_witness :
  ∃ s', ExpireUnfundedReservations_execute demo_ulid 1000000 15 "trace" d4 = (Ok (mkSummary 2 1), s').
Proof.
  destruct (expiry_sweep_exact demo_ulid 1000000 15 "trace" d4 reachable_d4) as (s' & E & _).
  exists s'. rewrite E. vm_compute. reflexivity.
Defined.

(** ** The onramp poll *)

Section poll.
Context (ulid : nat → string) (listBuyTransactions : string → result (list OnrampTransactionSummary)).
Context (s0 : db).

(** Why a money event of the poll may say the euros have landed. *)
Definition covered (r : Reservation.t) (e : MoneyEvent.t) : Prop :=
  ∃ txs t credited, listBuyTransactions (Reservation.id r) = Ok txs ∧ In t txs ∧
    on_status t = ot_success ∧ on_purchaseCurrency t = "EURC" ∧
    toEurcMicros (on_purchaseAmountValue t) = Ok credited ∧ MoneyEvent.amountEurc e = Some credited ∧
    0 < credited ∧ Reservation.amountEur r * 9000 ≤ credited.

Definition poll_event (e : MoneyEvent.t) : Prop :=
  ∃ r, In r (reservations s0) ∧ Reservation.stage r = ReservationStage.initiated ∧
    isReservationFunded (latest_capital_state (Reservation.id r) s0) = false ∧
    MoneyEvent.reservationId e = Reservation.id r ∧ MoneyEvent.amountEur e = Reservation.amountEur r ∧
    (MoneyEvent.capitalState e = CapitalState.purchase_failed ∧ MoneyEvent.amountEurc e = None ∨
     MoneyEvent.capitalState e = CapitalState.eurc_reserved ∧ covered r e).

Definition poll_rel (s s' : db) : Prop :=
  reservations s' = reservations s ∧ offerings s' = offerings s ∧ positions s' = positions s ∧
  ∃ new, moneyEvents s' = moneyEvents s ++ new ∧ List.Forall poll_event new.

#[local] Instance poll_rel_preorder : PreOrder poll_rel.
Proof.
  split.
  - intros s. split_and!; [done..|]. exists []. rewrite app_nil_r. by split.
  - intros a b c (E1 & E2 & E3 & n1 & E4 & P1) (F1 & F2 & F3 & n2 & F4 & P2).
    split_and!; [congruence..|]. exists (n1 ++ n2). rewrite F4, E4, app_assoc. split; [done|].
    by apply List.Forall_app.
Qed.

Lemma poll_record input s u s' :
  recordMoneyEvent ulid input s = Ok (u, s') →
  (∀ e c, toCents (me_amountEur input) = Ok c → MoneyEvent.reservationId e = me_reservationId input →
     MoneyEvent.capitalState e = me_capitalState input → MoneyEvent.amountEur e = c →
     match me_amountEurc input with
     | None => MoneyEvent.amountEurc e = None
     | Some v => ∃ m, toEurcMicros v = Ok m ∧ MoneyEvent.amountEurc e = Some m
     end → poll_event e) →
  poll_rel s s'.
Proof.
  unfold recordMoneyEvent. cbn [fresh]. intros H He.
  destruct (me_amountEurc input) as [v|] eqn:Ev; inv_ok H; injection H as <- <-; inv_creates;
    (split_and!; [done..|]; eexists [_]; split; [done|]; constructor; [|constructor];
     eapply He; [done|done|done|done|]).
  - inv_ok E0. injection E0 as <-. by eexists.
  - done.
Qed.

Lemma resolveOutcome_success txs t :
  resolveOutcome txs = to_success t → In t txs ∧ on_status t = ot_success.
Proof.
  unfold resolveOutcome. destruct (List.find _ txs) as [x|] eqn:E.
  - intros [= ->]. apply List.find_some in E as [? E]. by boolify.
  - intros H. repeat case_match; discriminate H.
Qed.

Lemma isPurchaseCovering_true t amount :
  0 < amount → isPurchaseCovering t (numeric2_text amount) = Ok true →
  on_purchaseCurrency t = "EURC" ∧
  ∃ credited, toEurcMicros (on_purchaseAmountValue t) = Ok credited ∧ 0 < credited ∧ amount * 9000 ≤ credited.
Proof.
  intros Hpos H. unfold isPurchaseCovering in H. destruct (bool_decide _) eqn:E; [|done]. simpl in H. boolify.
  split; [done|]. destruct (amount_text amount) as [_ Hm]; [lia|]. rewrite Hm in H.
  inv_ok H. cbn [rbind] in H. injection H as H. boolify. eexists. split_and!; [done..|].
  replace (amount * 10000 * 9) with (amount * 9000 * 10) in H0 by lia.
  by rewrite Z.quot_mul in H0.
Qed.

Lemma poll_one_rel clock acted x :
  wf s0 → In x (listPendingPurchaseReservationsForTimers s0) →
  io_rel poll_rel (poll_one ulid listBuyTransactions clock acted x).
Proof.
  intros W Hx. apply in_map_iff in Hx as (r & <- & Hr). apply filter_In in Hr as [Hr Hst].
  assert (Reservation.stage r = ReservationStage.initiated ∧
    isReservationFunded (latest_capital_state (Reservation.id r) s0) = false) as [Hini Hunf].
  { apply andb_true_iff in Hst as [Hst Hcap]. unfold stage_is in Hst. boolify. split; [done|].
    destruct (latest_capital_state _ s0) as [[]|]; done. }
  pose proof (wf_amounts s0 W r Hr) as Hpos. destruct (amount_text (Reservation.amountEur r)) as [Hc _]; [lia|].
  intros s. unfold poll_one, iobind at 1, lift. simpl.
  destruct (listBuyTransactions (Reservation.id r)) as [txs|] eqn:Etx; [|reflexivity].
  destruct (resolveOutcome txs) as [t|t|] eqn:Eo; [| |reflexivity].
  - apply resolveOutcome_success in Eo as [Ht Hts]. unfold iobind.
    destruct (isPurchaseCovering t _) as [funded|] eqn:Ef; [|reflexivity].
    unfold transaction. destruct (recordMoneyEvent _ _ s) as [[u s']|] eqn:E; [simpl|reflexivity].
    eapply poll_record; [exact E|]. simpl. intros e c Hc' E1 E2 E3 E4. exists r.
    split_and!; try done; [congruence|]. destruct funded; [right|by left].
    apply isPurchaseCovering_true in Ef as (Hcur & credited & Em & Hcp & Hle); [|done].
    destruct E4 as (m & Em' & E4). split; [done|]. exists txs, t, credited.
    split_and!; try done. congruence.
  - unfold iobind, transaction. destruct (recordMoneyEvent _ _ s) as [[u s']|] eqn:E; [simpl|reflexivity].
    eapply poll_record; [exact E|]. simpl. intros e c Hc' E1 E2 E3 E4. exists r.
    split_and!; try done; [congruence | by left].
Qed.

Lemma poll_execute_rel clock :
  wf s0 → poll_rel s0 (PollOnrampTransactions_execute ulid listBuyTransactions clock s0).2.
Proof.
  intros W. unfold PollOnrampTransactions_execute, query, iobind at 1. simpl.
  apply (io_rel_bind poll_rel); [|intros; apply (io_rel_ret poll_rel)].
  apply (io_rel_fold_in poll_rel). intros acc x Hx. by apply poll_one_rel.
Qed.

End poll.

(** The onramp poll only appends money events, for reservations that were initiated and
    unfunded when it listed them, at the reserved amount; it says the money has landed
    only when the provider reports a successful purchase of EURC that covers at least
    nine tenths of the reservation, and records the credited amount. *)
Theorem poll_funds_only_covering_purchases ulid transactions clock s :
  reachable ulid s →
  poll_rel transactions s s (PollOnrampTransactions_execute ulid transactions clock s).2.
Proof. intros W%reachable_wf. by apply poll_execute_rel. Qed.

Definition d2p : db := run (recordMoneyEvent demo_ulid
  (mkMoneyEventInput "r_alice" "coinbase_cdp" (Some "channel") CapitalState.eurc_purchase_pending
     "60.00" None 2500)) d2.

Lemma reachable_d2p : reachable demo_ulid d2p.
Proof. eapply reachable_step; [apply reachable_d2 | demo_step st_money]. Qed.

Lemma poll_funds_only_covering_purchases_witness :
  let s' := (PollOnrampTransactions_execute demo_ulid demo_transactions (λ _, 9000) d2p).2 in
  latest_capital_state "r_alice" s' = Some CapitalState.eurc_reserved ∧ poll_rel demo_transactions d2p d2p s'.
Proof.
  split; [vm_compute; reflexivity|].
  apply (poll_funds_only_covering_purchases demo_ulid demo_transactions (λ _, 9000) d2p reachable_d2p).
Defined.

End OfferingServiceProps.
