(* ===== verification/OfferingMail.v ===== *)
(** The reconfirmation e-mails: NotifyReconfirmationWindowOpenedService and
    SendReconfirmationRemindersService with the repository queries they use.  The audit log
    is the record of what was sent, read back before every send. *)

From S2P Require Import Prelude JsString Currency Db OfferingPolicy OfferingRepo OfferingServices OfferingDemo.

Module OfferingMail.
Import OfferingPolicy OfferingRepo OfferingServices OfferingDemo.

(** The database and the e-mails accepted for delivery, oldest first. *)
Record mail_state := mkMail { ms_db : db; ms_sent : list (string * string) }.

Section Mail.
Context (ulid : nat → string).
(** The SMTP sender accepts a message for an address or throws. *)
Context (deliver : string → result unit).

Definition send (reservationId to : string) : io mail_state unit := λ s,
  match deliver to with
  | Ok _ => (Ok tt, mkMail (ms_db s) (ms_sent s ++ [(reservationId, to)]))
  | Err e => (Err e, s)
  end.

(** An audit row written outside a transaction of its own. *)
Definition record_sent (action reservationId traceId : string) (sentAt : Z) : io mail_state unit := λ s,
  let '(auditId, d) := fresh ulid "audit_" (ms_db s) in
  (Ok tt, mkMail (audit_create (AuditLog.mk auditId None action "reservation" reservationId
                                  [("trace_id", JStr traceId)] sentAt) d) (ms_sent s)).

Definition audit_for (action reservationId : string) (a : AuditLog.t) : bool :=
  bool_decide (AuditLog.resourceType a = "reservation") &&
  bool_decide (AuditLog.resourceId a = reservationId) && bool_decide (AuditLog.action a = action).

(** ** Window opened *)

Definition window_opened_action : string := "offering.reconfirmation_window_opened_notification_sent".

Record WindowOpenedRow := mkOpenedRow {
  wo_reservationId : string; wo_contactEmail : option string; wo_effectiveRightsEndAt : option Z;
  wo_notificationAlreadySent : bool }.

Definition getReservationsForReconfirmationWindowOpenedNotification
    (reservationIds : list string) (s : db) : list WindowOpenedRow :=
  omap (λ r, match find_offering (Reservation.offeringId r) s, find_account (Reservation.accountId r) s with
             | Some o, Some a => Some (mkOpenedRow (Reservation.id r) (Account.contactEmail a)
                 (Offering.effectiveRightsEndAt o)
                 (exists_row (audit_for window_opened_action (Reservation.id r)) (auditLog s)))
             | _, _ => None
             end)
    (List.filter (λ r, existsb (λ k, bool_decide (k = Reservation.id r)) reservationIds) (reservations s)).

Definition notify_one (traceId : string) (now : Z) (acted : nat) (row : WindowOpenedRow) : io mail_state nat :=
  if wo_notificationAlreadySent row then ret acted
  else match wo_contactEmail row with
       | None => ret acted
       | Some to =>
           await _ := send (wo_reservationId row) to in
           await _ := record_sent window_opened_action (wo_reservationId row) traceId now in
           ret (S acted)
       end.

Definition NotifyReconfirmationWindowOpened_execute (reservationIds : list string) (traceId : string)
    (now : Z) : io mail_state JobRunSummary :=
  await rows := query (λ s, Ok (getReservationsForReconfirmationWindowOpenedNotification reservationIds (ms_db s))) in
  await acted := iofold (notify_one traceId now) 0%nat rows in
  ret (mkSummary (length rows) acted).

(** ** Reminders *)

Definition reminder_action : string := "offering.reconfirmation_reminder_sent".

Record ReminderRow := mkReminderRow {
  rr_reservationId : string; rr_contactEmail : option string;
  rr_finalOfferingPublishedAt : Z; rr_effectiveRightsEndAt : Z; rr_lastReminderSentAt : option Z }.

(** [ORDER BY audit_log.created_at DESC LIMIT 1] *)
Definition last_reminder (reservationId : string) (s : db) : option Z :=
  latest_cooldown (map AuditLog.createdAt (List.filter (audit_for reminder_action reservationId) (auditLog s))).

Definition listReservationsAwaitingReconfirmationForReminders (s : db) : list ReminderRow :=
  omap (λ r, match find_offering (Reservation.offeringId r) s, find_account (Reservation.accountId r) s with
             | Some o, Some a =>
                 match Offering.finalOfferingPublishedAt o, Offering.effectiveRightsEndAt o with
                 | Some published, Some endAt =>
                     Some (mkReminderRow (Reservation.id r) (Account.contactEmail a) published endAt
                             (last_reminder (Reservation.id r) s))
                 | _, _ => None
                 end
             | _, _ => None
             end)
    (List.filter (stage_is ReservationStage.awaiting_reconfirmation) (reservations s)).

Definition remind_one (intervalHours : Z) (traceId : string) (now : Z) (acted : nat) (row : ReminderRow)
    : io mail_state nat :=
  if negb (isReconfirmationReminderDue intervalHours (rr_lastReminderSentAt row)
             (rr_finalOfferingPublishedAt row) (rr_effectiveRightsEndAt row) now)
  then ret acted
  else match rr_contactEmail row with
       | None => ret acted
       | Some to =>
           await _ := send (rr_reservationId row) to in
           await _ := record_sent reminder_action (rr_reservationId row) traceId now in
           ret (S acted)
       end.

(** [intervalHours] is the platform setting offering.reconfirmation_reminder_interval_hours. *)
Definition SendReconfirmationReminders_execute (intervalHours : result Z) (traceId : string) (now : Z)
    : io mail_state JobRunSummary :=
  await rows := query (λ s, Ok (listReservationsAwaitingReconfirmationForReminders (ms_db s))) in
  await interval := lift intervalHours in
  await acted := iofold (remind_one interval traceId now) 0%nat rows in
  ret (mkSummary (length rows) acted).

(** ** Properties *)

(** What a mail job may do: the audit log grows, the other tables stay. *)
Definition mail_rel (s s' : mail_state) : Prop :=
  reservations (ms_db s') = reservations (ms_db s) ∧ offerings (ms_db s') = offerings (ms_db s) ∧
  accounts (ms_db s') = accounts (ms_db s) ∧
  (∃ new, auditLog (ms_db s') = auditLog (ms_db s) ++ new) ∧ (∃ new, ms_sent s' = ms_sent s ++ new).

#[local] Instance mail_rel_preorder : PreOrder mail_rel.
Proof.
  split.
  - intros s. split_and!; try done; exists []; by rewrite app_nil_r.
  - intros a b c (E1 & E2 & E3 & [n1 E4] & [m1 E5]) (F1 & F2 & F3 & [n2 F4] & [m2 F5]).
    split_and!; [congruence..| |].
    + exists (n1 ++ n2). by rewrite F4, E4, app_assoc.
    + exists (m1 ++ m2). by rewrite F5, E5, app_assoc.
Qed.

Lemma send_record_rel action k to tr now acted :
  io_rel mail_rel (iobind (send k to) (λ _, iobind (record_sent action k tr now) (λ _, ret (S acted)))).
Proof.
  intros s. unfold iobind, send. destruct (deliver to) as [[]|]; [|reflexivity]. simpl.
  split_and!; try done; by eexists.
Qed.

(** An e-mail that was sent is on record. *)
Definition on_record (action k : string) (s : mail_state) : Prop :=
  exists_row (audit_for action k) (auditLog (ms_db s)) = true.

Lemma on_record_mono action k s s' : mail_rel s s' → on_record action k s → on_record action k s'.
Proof.
  intros (_ & _ & _ & [new E] & _). unfold on_record. rewrite E, !exists_row_true.
  intros (a & Ha & Hp). exists a. rewrite in_app_iff. auto.
Qed.

Lemma send_record_on_record action k to tr now acted s n s' :
  iobind (send k to) (λ _, iobind (record_sent action k tr now) (λ _, ret (S acted))) s = (Ok n, s') →
  n = S acted ∧ on_record action k s'.
Proof.
  unfold iobind, send. destruct (deliver to) as [[]|]; [|done]. simpl. intros [= <- <-].
  split; [done|]. unfold on_record. apply exists_row_true. eexists. simpl. rewrite in_app_iff.
  split; [right; by left|]. unfold audit_for. simpl. by rewrite !bool_decide_eq_true_2.
Qed.

Lemma notify_fold tr now rows acted s n s' :
  iofold (notify_one tr now) acted rows s = (Ok n, s') →
  mail_rel s s' ∧ ∀ row, In row rows → wo_notificationAlreadySent row = false →
    wo_contactEmail row ≠ None → on_record window_opened_action (wo_reservationId row) s'.
Proof.
  revert acted s. induction rows as [|row rows IH]; intros acted s H; simpl in H.
  { apply ret_ok in H as [_ ->]. done. }
  apply iobind_ok in H as (a1 & s1 & H1 & H). destruct (IH _ _ H) as [Hrel Hrec].
  assert (mail_rel s s1 ∧ (wo_notificationAlreadySent row = false → wo_contactEmail row ≠ None →
    on_record window_opened_action (wo_reservationId row) s1)) as [Hrel1 Hrec1].
  { unfold notify_one in H1. destruct (wo_notificationAlreadySent row).
    { apply ret_ok in H1 as [_ ->]. done. }
    destruct (wo_contactEmail row) as [to|]; [|by apply ret_ok in H1 as [_ ->]].
    split.
    - pose proof (send_record_rel window_opened_action (wo_reservationId row) to tr now acted s) as Hr.
      by rewrite H1 in Hr.
    - intros _ _. by eapply send_record_on_record. }
  split; [by etrans|]. intros row' [<-|Hin] Hf He; [|by apply Hrec].
  eapply on_record_mono; [exact Hrel | by apply Hrec1].
Qed.

Lemma notify_rows_done ids s s' row :
  mail_rel s s' →
  In row (getReservationsForReconfirmationWindowOpenedNotification ids (ms_db s')) →
  ∃ row0, In row0 (getReservationsForReconfirmationWindowOpenedNotification ids (ms_db s)) ∧
    wo_reservationId row0 = wo_reservationId row ∧ wo_contactEmail row0 = wo_contactEmail row ∧
    wo_notificationAlreadySent row0 =
      exists_row (audit_for window_opened_action (wo_reservationId row)) (auditLog (ms_db s)) ∧
    (on_record window_opened_action (wo_reservationId row) s' → wo_notificationAlreadySent row = true).
Proof.
  intros (Er & Eo & Ea & _). unfold getReservationsForReconfirmationWindowOpenedNotification.
  rewrite <- !list_elem_of_In. rewrite list_elem_of_omap. intros (r & Hr & E). rewrite Er in Hr.
  unfold find_offering, find_account in E. rewrite Eo, Ea in E.
  destruct (find_row _ (offerings _)) as [o|] eqn:E1; [|done].
  destruct (find_row _ (accounts _)) as [a|] eqn:E2; [|done]. injection E as <-. simpl.
  exists (mkOpenedRow (Reservation.id r) (Account.contactEmail a) (Offering.effectiveRightsEndAt o)
    (exists_row (audit_for window_opened_action (Reservation.id r)) (auditLog (ms_db s)))).
  split_and!; try done. rewrite <- list_elem_of_In, list_elem_of_omap. exists r. split; [done|].
  unfold find_offering, find_account. by rewrite E1, E2.
Qed.

Lemma notify_fold_nothing tr now rows acted s :
  (∀ row, In row rows → wo_notificationAlreadySent row = true ∨ wo_contactEmail row = None) →
  iofold (notify_one tr now) acted rows s = (Ok acted, s).
Proof.
  induction rows as [|row rows IH]; intros H; simpl; [done|].
  unfold iobind, notify_one. destruct (H row (or_introl eq_refl)) as [->| ->].
  - apply IH. intros. apply H. by right.
  - destruct (wo_notificationAlreadySent row); apply IH; intros; apply H; by right.
Qed.

End Mail.

(** A redelivered window-opened job e-mails nobody twice: once a run has completed, any
    later run over the same reservations, at any time, sends nothing and writes nothing. *)
Theorem notify_redelivery_sends_nothing ulid deliver ids tr now tr' now' s sum s1 :
  NotifyReconfirmationWindowOpened_execute ulid deliver ids tr now s = (Ok sum, s1) →
  ∃ checked, NotifyReconfirmationWindowOpened_execute ulid deliver ids tr' now' s1 =
    (Ok (mkSummary checked 0), s1).
Proof.
  intros H. unfold NotifyReconfirmationWindowOpened_execute in H. inv_io H.
  apply notify_fold in Hio as [Hrel Hrec].
  eexists. unfold NotifyReconfirmationWindowOpened_execute, iobind, query.
  rewrite notify_fold_nothing; [done|]. intros row Hin.
  destruct (notify_rows_done _ _ _ _ Hrel Hin) as (row0 & Hin0 & Ek & Ee & Ef & Hdone).
  destruct (wo_contactEmail row) as [to|] eqn:Et; [left|by right]. apply Hdone.
  destruct (wo_notificationAlreadySent row0) eqn:E0.
  - eapply on_record_mono; [exact Hrel|]. unfold on_record. by rewrite <- Ef.
  - rewrite <- Ek. apply Hrec; [done..|]. by rewrite Ee.
Qed.

Definition mail_demo : mail_state :=
  mkMail (d7) [].

Lemma notify_redelivery_sends_nothing_witness :
  let first := NotifyReconfirmationWindowOpened_execute demo_ulid (λ _, Ok tt)
                 ["r_alice"; "r_bob"] "trace" 7001 mail_demo in
  length (ms_sent first.2) = 2%nat ∧
  ∃ checked, NotifyReconfirmationWindowOpened_execute demo_ulid (λ _, Ok tt)
    ["r_alice"; "r_bob"] "trace2" 8000 first.2 = (Ok (mkSummary checked 0), first.2).
Proof.
  intros first. split; [vm_compute; reflexivity|].
  destruct first as [[sum|e] s1] eqn:E.
  2:{ exfalso. vm_compute in E. discriminate E. }
  apply (notify_redelivery_sends_nothing demo_ulid (λ _, Ok tt)
    ["r_alice"; "r_bob"] "trace" 7001 "trace2" 8000 mail_demo sum s1 E).
Defined.

(** A reminder is due exactly when the window is still open, reminders are switched on,
    and at least one whole interval has passed since the last reminder, or since
    publication when none was sent; so reminders to one investor are never closer than the
    interval and never sent after the window has closed. *)
Theorem reminder_spacing interval last published endAt now :
  isReconfirmationReminderDue interval last published endAt now = true ↔
  now < endAt ∧ 0 < interval ∧ default published last + interval * 3600000 ≤ now.
Proof.
  unfold isReconfirmationReminderDue.
  destruct (endAt <=? now) eqn:E1; boolify; [split; [done | lia]|].
  destruct (interval <=? 0) eqn:E2; boolify; [split; [done | lia]|].
  rewrite Z.leb_le. lia.
Qed.

End OfferingMail.
