(* ===== verification/EscrowMint.v ===== *)
(** Minting one escrow contributor's tokens exactly once:
    src/src/modules/settlement/application/finalize-ipo-escrow-campaigns.service.ts
    (mintForContributor and everything it calls) over the escrow_mint_intents half of
    src/src/modules/settlement/repository/prisma-settlement.repository.ts.

    The service is a chain write followed by database writes that cannot be one
    transaction.  It is modelled as a program of atomic calls ([prog]); any number of runs
    of it execute interleaved call by call, each may crash at any call with or without the
    call having taken effect, and transactions are mined, reverted or dropped at will. *)

From S2P Require Import Prelude JsString.
From Stdlib Require Import Ascii String.

Module EscrowMint.

(** ** Data *)

Inductive EscrowMintIntentStatus := sending | mint_sent | recorded.
#[global] Instance EscrowMintIntentStatus_eq_dec : EqDecision EscrowMintIntentStatus.
Proof. solve_decision. Defined.

(** A transaction hash, up to letter case: the index of the transaction. *)
Notation hash := nat (only parsing).

(** The row of one PIV and account; the unique key uq_escrow_mint_intents_piv_account makes
    it the only one of its account, so the account stands for its identifier. *)
Record EscrowMintIntent := mkIntent {
  accountId : string; walletAddress : string; tokenContractAddress : string; tokenId : Z; mintAmount : Z;
  status : EscrowMintIntentStatus; mintTxHash : option hash;
  attempt : nat; attemptedAt : Z; searchFromBlock : option Z }.

Record MintTarget := mkTarget {
  tg_accountId : string; tg_walletAddress : string; tg_tokenContractAddress : string; tg_tokenId : Z; tg_mintAmount : Z }.

Definition SEARCH_FROM_BLOCK_MARGIN : Z := 32.
Definition ESCROW_MINT_IN_FLIGHT_GRACE_MS : Z := 30 * 60 * 1000.

(** ** The settlement repository's intent operations *)

(** The rows the protocol owns for one PIV and account: the account's intent, and the hashes
    its recorded positions carry. *)
Record store := mkStore { st_intent : option EscrowMintIntent; st_positions : list hash }.

Definition hasPosition (s : store) : bool := negb (bool_decide (st_positions s = [])).

Definition findEscrowMintIntent (s : store) : option EscrowMintIntent := st_intent s.

Definition new_intent (t : MintTarget) (at_ : Z) (from : option Z) : EscrowMintIntent :=
  mkIntent (tg_accountId t) (tg_walletAddress t) (tg_tokenContractAddress t) (tg_tokenId t) (tg_mintAmount t)
    sending None 1 at_ from.

(** [ON CONFLICT DO NOTHING]: the row as it is afterwards, and whether this call wrote it. *)
Definition createEscrowMintIntent (t : MintTarget) (at_ : Z) (from : option Z) (s : store)
    : EscrowMintIntent * bool * store :=
  match st_intent s with
  | Some existing => (existing, false, s)
  | None => (new_intent t at_ from, true, mkStore (Some (new_intent t at_ from)) (st_positions s))
  end.

Definition restarted_intent (i : EscrowMintIntent) (at_ : Z) : EscrowMintIntent :=
  mkIntent (accountId i) (walletAddress i) (tokenContractAddress i) (tokenId i) (mintAmount i)
    sending None (S (attempt i)) at_ (searchFromBlock i).

Definition restartEscrowMintAttempt (expectedAttempt : nat) (at_ : Z) (s : store) : bool * store :=
  match st_intent s with
  | Some i =>
      if Nat.eqb (attempt i) expectedAttempt &&
         (bool_decide (status i = sending) || bool_decide (status i = mint_sent))
      then (true, mkStore (Some (restarted_intent i at_)) (st_positions s))
      else (false, s)
  | None => (false, s)
  end.

Definition sent_intent (i : EscrowMintIntent) (h : hash) : EscrowMintIntent :=
  mkIntent (accountId i) (walletAddress i) (tokenContractAddress i) (tokenId i) (mintAmount i)
    mint_sent (Some h) (attempt i) (attemptedAt i) (searchFromBlock i).

(** [None] is the thrown refusal. *)
Definition recordEscrowMintSent (att : nat) (h : hash) (s : store) : option store :=
  match st_intent s with
  | Some i =>
      if Nat.eqb (attempt i) att && bool_decide (status i = sending)
      then Some (mkStore (Some (sent_intent i h)) (st_positions s))
      else if Nat.eqb (attempt i) att && bool_decide (mintTxHash i = Some h) then Some s
      else None
  | None => None
  end.

Definition recorded_intent (i : EscrowMintIntent) : EscrowMintIntent :=
  mkIntent (accountId i) (walletAddress i) (tokenContractAddress i) (tokenId i) (mintAmount i)
    recorded (mintTxHash i) (attempt i) (attemptedAt i) (searchFromBlock i).

(** The intent flips to [recorded] in the transaction that writes the position. *)
Definition recordEscrowMintedPosition (h : hash) (s : store) : option store :=
  match st_intent s with
  | Some i =>
      if bool_decide (status i = mint_sent) && bool_decide (mintTxHash i = Some h)
      then Some (mkStore (Some (recorded_intent i)) (st_positions s ++ [h]))
      else if hasPosition s then Some s else None
  | None => if hasPosition s then Some s else None
  end.

(** ** Programs of atomic calls *)

Inductive call : Type → Type :=
  | ResolveAccountIdForWallet : call (option string)
  | HasPosition (accountId : string) : call bool
  | ContributionOf : call Z
  | FindIntent (accountId : string) : call (option EscrowMintIntent)
  | BalanceOf : call Z
  | IsHolderAuthorized : call bool
  | AuthorizeHolder : call bool
  | GetBlockNumber : call Z
  | Clock : call Z
  | CreateIntent (t : MintTarget) (at_ : Z) (from : option Z) : call (EscrowMintIntent * bool)
  | RestartAttempt (intentOf : string) (expected : nat) (at_ : Z) : call bool
  | Mint (t : MintTarget) : call hash
  | RecordSent (intentOf : string) (att : nat) (h : hash) : call unit
  | WaitForReceipt (h : hash) : call (hash * bool)
  | GetReceipt (h : hash) : call (option bool)
  | FindMintLogs (t : MintTarget) (from : Z) : call (list hash)
  | RecordPosition (intentOf : string) (h : hash) : call unit.

Inductive prog (A : Type) : Type :=
  | Done (a : A)
  | Throw (message : string)
  | Do {R : Type} (c : call R) (k : R → prog A).
Arguments Done {A} _.
Arguments Throw {A} _.
Arguments Do {A R} _ _.

Fixpoint pbind {A B} (p : prog A) (f : A → prog B) : prog B :=
  match p with
  | Done a => f a
  | Throw m => Throw m
  | Do c k => Do c (λ r, pbind (k r) f)
  end.

#[local] Notation "x <- c ; k" := (Do c (λ x, k)) (at level 60, right associativity, c at level 50).
#[local] Notation "'run' x ':=' p 'in' k" := (pbind p (λ x, k))
  (at level 10, x pattern, p at level 100, k at level 200).

Record ConfirmedMint := mkConfirmed { intentOf : string; txHash : hash; sentThisRun : bool }.

(** ** The service, method by method *)

Definition ensureHolderAuthorized : prog unit :=
  authorized <- IsHolderAuthorized;
  if authorized : bool then Done tt
  else success <- AuthorizeHolder;
       if success : bool then Done tt else Throw "authorizeHolder transaction reverted".

Definition sendMint (target : MintTarget) (intentId : string) (att : nat) : prog ConfirmedMint :=
  h <- Mint target;
  _ <- RecordSent intentId att h;
  receipt <- WaitForReceipt h;
  let '(transactionHash, success) := (receipt : hash * bool) in
  if negb (Nat.eqb transactionHash h) then Throw "mint transaction was replaced"
  else if success : bool then Done (mkConfirmed intentId h true)
  else Throw "mint transaction reverted".

Definition sendFirstMint (target : MintTarget) : prog ConfirmedMint :=
  run _ := ensureHolderAuthorized in
  head <- GetBlockNumber;
  now <- Clock;
  created <- CreateIntent target now
    (Some (if SEARCH_FROM_BLOCK_MARGIN <? head then head - SEARCH_FROM_BLOCK_MARGIN else 0));
  let '(intent, wasCreated) := (created : EscrowMintIntent * bool) in
  if wasCreated : bool then sendMint target (accountId intent) (attempt intent)
  else Throw "another run already claimed the mint".

Definition restartMint (target : MintTarget) (intent : EscrowMintIntent) : prog ConfirmedMint :=
  run _ := ensureHolderAuthorized in
  now <- Clock;
  restarted <- RestartAttempt (accountId intent) (attempt intent) now;
  if restarted : bool then sendMint target (accountId intent) (S (attempt intent))
  else Throw "another run already claimed the mint".

Definition findMintTransactionHash (target : MintTarget) (fromBlock : option Z) : prog (option hash) :=
  matches <- FindMintLogs target (default 0 fromBlock);
  match (matches : list hash) with [h] => Done (Some h) | _ => Done None end.

Definition adoptMintAlreadyOnChain (target : MintTarget) (balance : Z)
    (intent : option EscrowMintIntent) : prog ConfirmedMint :=
  if negb (balance =? tg_mintAmount target) then Throw "unexpected balance"
  else
    run found := findMintTransactionHash target
                   (match intent with Some i => searchFromBlock i | None => None end) in
    match found with
    | None => Throw "the mint transaction could not be found in the chain logs"
    | Some h =>
        run current := match intent with
          | Some i => Done i
          | None =>
              now <- Clock;
              created <- CreateIntent target now None;
              let '(i, wasCreated) := (created : EscrowMintIntent * bool) in
              if wasCreated : bool then Done i else Throw "another run already claimed the mint"
          end in
        _ <- RecordSent (accountId current) (attempt current) h;
        Done (mkConfirmed (accountId current) h false)
    end.

Definition resolveSentMint (target : MintTarget) (intent : EscrowMintIntent) (balance : Z)
    : prog ConfirmedMint :=
  match mintTxHash intent with
  | None => Throw "escrow mint intent is mint_sent without a transaction hash"
  | Some h =>
      receipt <- GetReceipt h;
      match (receipt : option bool) with
      | None => Throw "mint transaction has no receipt yet"
      | Some true => Done (mkConfirmed (accountId intent) h false)
      | Some false =>
          if negb (balance =? 0) then Throw "unexpected balance" else restartMint target intent
      end
  end.

Section Grace.
Context (inFlightGraceMs : Z).

Definition resolveInterruptedAttempt (target : MintTarget) (intent : EscrowMintIntent) (balance : Z)
    : prog ConfirmedMint :=
  if negb (balance =? 0) then adoptMintAlreadyOnChain target balance (Some intent)
  else
    let retryAt := attemptedAt intent + inFlightGraceMs in
    now <- Clock;
    if now <? retryAt then Throw "a mint attempt may still be in flight"
    else restartMint target intent.

Definition assertIntentMatchesTarget (intent : EscrowMintIntent) (target : MintTarget) : bool :=
  bool_decide (JsString.toLowerCase (walletAddress intent) = JsString.toLowerCase (tg_walletAddress target)) &&
  bool_decide (JsString.toLowerCase (tokenContractAddress intent) = JsString.toLowerCase (tg_tokenContractAddress target)) &&
  (tokenId intent =? tg_tokenId target) && (mintAmount intent =? tg_mintAmount target).

Definition obtainConfirmedMint (target : MintTarget) : prog (option ConfirmedMint) :=
  intent <- FindIntent (tg_accountId target);
  balance <- BalanceOf;
  match (intent : option EscrowMintIntent) with
  | None =>
      run m := (if balance =? 0 then sendFirstMint target
                else adoptMintAlreadyOnChain target balance None) in
      Done (Some m)
  | Some intent =>
      if negb (assertIntentMatchesTarget intent target)
      then Throw "escrow mint intent does not match the contribution now on-chain"
      else
        match status intent with
        | recorded =>
            found <- HasPosition (tg_accountId target);
            if found : bool then Done None
            else Throw "escrow mint intent is recorded but no position exists"
        | mint_sent => run m := resolveSentMint target intent balance in Done (Some m)
        | sending => run m := resolveInterruptedAttempt target intent balance in Done (Some m)
        end
  end.

Inductive MintOutcome := skipped | minted | reconciled.

Definition mintForContributor (wallet contract : string) (token : Z) : prog MintOutcome :=
  accountId <- ResolveAccountIdForWallet;
  match (accountId : option string) with
  | None => Throw "No registered account found for contributor wallet"
  | Some accountId =>
      already <- HasPosition accountId;
      if already : bool then Done skipped
      else
        amount <- ContributionOf;
        if amount <=? 0 then Throw "Contributor wallet has no contribution to mint"
        else
          let target := mkTarget accountId wallet contract token amount in
          run mint := obtainConfirmedMint target in
          match mint with
          | None => Done skipped
          | Some mint =>
              _ <- RecordPosition (intentOf mint) (txHash mint);
              Done (if sentThisRun mint then minted else reconciled)
          end
  end.

End Grace.
End EscrowMint.
