(* ===== verification/EscrowWorld.v ===== *)
(** The world in which mint runs execute: the intent store, the chain's transactions and any
    number of interleaved runs; and the proof that a contributor is never minted twice. *)

From S2P Require Import Prelude EscrowMint.

Module EscrowWorld.
Import EscrowMint.

(** ** The world *)

Inductive tx_status := pending | succeeded | reverted | dropped.
#[global] Instance tx_status_eq_dec : EqDecision tx_status.
Proof. solve_decision. Defined.

(** A mint transaction to the contributor's wallet, and the attempt that sent it: attempt 0
    is a mint that predates the intents. *)
Record tx := mkTx { tx_state : tx_status; tx_attempt : nat }.

Record world := mkWorld {
  w_now : Z;
  w_store : store;
  w_txs : list tx;
  (** [attemptedAt] of each attempt so far, oldest first *)
  w_attempts : list Z;
  (** what the contributor's wallet holds of the token *)
  w_balance : Z }.

Definition failed (t : tx) : Prop := tx_state t = reverted ∨ tx_state t = dropped.
Definition succ (w : world) (h : hash) : Prop := tx_state <$> w_txs w !! h = Some succeeded.
Definition rev (w : world) (h : hash) : Prop := tx_state <$> w_txs w !! h = Some reverted.
Definition att (w : world) (h : hash) (a : nat) : Prop := tx_attempt <$> w_txs w !! h = Some a.
Definition started (w : world) (a : nat) : option Z := w_attempts w !! (a - 1)%nat.
Definition is_recorded_hash (w : world) (h : hash) : bool :=
  match st_intent (w_store w) with Some i => bool_decide (mintTxHash i = Some h) | None => false end.

Definition minted_count (w : world) : nat :=
  length (List.filter (λ t, bool_decide (tx_state t = succeeded)) (w_txs w)).

Definition set_store (w : world) (s : store) : world := mkWorld (w_now w) s (w_txs w) (w_attempts w) (w_balance w).
Definition set_balance (w : world) (b : Z) : world := mkWorld (w_now w) (w_store w) (w_txs w) (w_attempts w) b.

(** A position of the account is on record. *)
Definition on_record (w : world) : Prop := st_positions (w_store w) ≠ [].

(** What a run carries beside its program: the attempt it has claimed and not yet sent, and
    when it read the intent it is about to judge by age. *)
Record ghost := mkGhost { g_own : option nat; g_read : option Z }.

Record thread := mkThread { th_prog : prog MintOutcome; th_ghost : ghost }.

Section World.
(** [maxPending] bounds how long after an attempt began its mint can still be sent, and its
    transaction stay pending while no hash is recorded for it; [maxRun] bounds how long a
    run takes from reading the intent to checking the attempt's age.  The code's grace
    period must cover both. *)
Context (grace maxPending maxRun : Z).
Context (amount : Z) (account wallet contract : string) (token : Z).

(** ** One call, executed atomically *)

(** The runs resolve the contributor's wallet to [account] or to nobody.  The store holds
    the rows of that account; what a call about another account would find is unknown. *)
Definition exec {R} (c : call R) : ghost → world → R → ghost → world → Prop :=
  match c in call R return ghost → world → R → ghost → world → Prop with
  | ResolveAccountIdForWallet => λ g w r g' w', (r = None ∨ r = Some account) ∧ g' = g ∧ w' = w
  | HasPosition a => λ g w r g' w', (a = account → r = hasPosition (w_store w)) ∧ g' = g ∧ w' = w
  | ContributionOf => λ g w r g' w', r = amount ∧ g' = g ∧ w' = w
  | FindIntent a => λ g w r g' w',
      (a = account → r = findEscrowMintIntent (w_store w)) ∧ g' = mkGhost (g_own g) (Some (w_now w)) ∧ w' = w
  | BalanceOf => λ g w r g' w', r = w_balance w ∧ g' = g ∧ w' = w
  | IsHolderAuthorized => λ g w r g' w', g' = mkGhost (g_own g) None ∧ w' = w
  | AuthorizeHolder => λ g w r g' w', g' = g ∧ w' = w
  | GetBlockNumber => λ g w r g' w', g' = g ∧ w' = w
  | Clock => λ g w r g' w',
      r = w_now w ∧ match g_read g with Some t => w_now w ≤ t + maxRun | None => True end ∧
      g' = g ∧ w' = w
  | CreateIntent t at_ from => λ g w r g' w',
      if String.eqb (tg_accountId t) account
      then
        let '(i, created, s') := createEscrowMintIntent t at_ from (w_store w) in
        r = (i, created) ∧
        g' = mkGhost (if created then Some 1%nat else g_own g) (g_read g) ∧
        w' = mkWorld (w_now w) s' (w_txs w) (if created then [at_] else w_attempts w) (w_balance w)
      else g' = g ∧ w' = w
  | RestartAttempt a expected at_ => λ g w r g' w',
      if String.eqb a account
      then
        let '(ok, s') := restartEscrowMintAttempt expected at_ (w_store w) in
        r = ok ∧ g' = mkGhost (if ok then Some (S expected) else g_own g) (g_read g) ∧
        w' = mkWorld (w_now w) s' (w_txs w) (if ok then w_attempts w ++ [at_] else w_attempts w) (w_balance w)
      else g' = g ∧ w' = w
  | Mint t => λ g w r g' w',
      r = length (w_txs w) ∧ g' = mkGhost None (g_read g) ∧
      match g_own g with
      | Some a =>
          match started w a with Some at_ => w_now w ≤ at_ + maxPending | None => True end ∧
          w' = mkWorld (w_now w) (w_store w) (w_txs w ++ [mkTx pending a]) (w_attempts w) (w_balance w)
      | None => w' = mkWorld (w_now w) (w_store w) (w_txs w ++ [mkTx pending 0]) (w_attempts w) (w_balance w)
      end
  | RecordSent a att h => λ g w r g' w',
      if String.eqb a account
      then ∃ s', recordEscrowMintSent att h (w_store w) = Some s' ∧ g' = g ∧ w' = set_store w s'
      else g' = g ∧ w' = w
  | WaitForReceipt h => λ g w r g' w', g' = g ∧ w' = w ∧
      match tx_state <$> w_txs w !! h with
      | Some succeeded => r = (h, true)
      | Some reverted => r = (h, false)
      | Some dropped => r.1 ≠ h
      | Some pending | None => False
      end
  | GetReceipt h => λ g w r g' w', g' = g ∧ w' = w ∧
      r = match tx_state <$> w_txs w !! h with
          | Some succeeded => Some true
          | Some reverted => Some false
          | _ => None
          end
  | FindMintLogs t from => λ g w r g' w',
      g' = mkGhost (g_own g) None ∧ w' = w ∧ ∀ h, In h r → succ w h
  | RecordPosition a h => λ g w r g' w',
      if String.eqb a account
      then ∃ s', recordEscrowMintedPosition h (w_store w) = Some s' ∧ g' = g ∧ w' = set_store w s'
      else g' = g ∧ w' = w
  end.

(** ** Steps of the world *)

(** A pending mint is settled by the chain; a successful one credits the wallet. *)
Definition mined (w : world) (h : hash) (t : tx) (st : tx_status) : world :=
  mkWorld (w_now w) (w_store w) (<[h := mkTx st (tx_attempt t)]> (w_txs w)) (w_attempts w)
    (if bool_decide (st = succeeded) then w_balance w + amount else w_balance w).

Notation body := (mintForContributor grace wallet contract token).

Inductive wstep : world * list thread → world * list thread → Prop :=
  (** the job (or a second worker) starts on this contributor *)
  | ws_start w ths :
      wstep (w, ths) (w, ths ++ [mkThread body (mkGhost None None)])
  (** a run makes its next call and continues with the answer *)
  | ws_call w l R (c : call R) k g r ths r' g' w' :
      l = mkThread (Do c k) g → exec c g w r' g' w' →
      wstep (w, ths ++ l :: r) (w', ths ++ mkThread (k r') g' :: r)
  (** a run dies, or its call throws, before or after the call took effect *)
  | ws_crash w ths th r : wstep (w, ths ++ th :: r) (w, ths ++ r)
  | ws_lost_answer w R (c : call R) k g ths r r' g' w' :
      exec c g w r' g' w' →
      wstep (w, ths ++ mkThread (Do c k) g :: r) (w', ths ++ r)
  (** a pending transaction is mined or dropped *)
  | ws_mine w ths h t st :
      w_txs w !! h = Some t → tx_state t = pending → st ≠ pending →
      wstep (w, ths) (mined w h t st, ths)
  (** tokens move without a mint of this protocol: the holder's transfers, burn and
      forceTransfer of the token's privileged roles, but none of them empties the wallet
      while it holds a mint that no position records *)
  | ws_move w ths b :
      0 ≤ b → (on_record w ∨ minted_count w = 0%nat ∨ b ≠ 0) →
      wstep (w, ths) (set_balance w b, ths)
  (** time passes, within the assumption on pending transactions *)
  | ws_tick w ths now' :
      w_now w ≤ now' →
      (∀ h t at_, w_txs w !! h = Some t → tx_state t = pending → is_recorded_hash w h = false →
         started w (tx_attempt t) = Some at_ → now' ≤ at_ + maxPending) →
      wstep (w, ths) (mkWorld now' (w_store w) (w_txs w) (w_attempts w) (w_balance w), ths).

(** Nothing recorded yet; the wallet may hold one mint that predates the intents, and tokens
    from elsewhere. *)
Definition initial (w : world) : Prop :=
  w_store w = mkStore None [] ∧ w_attempts w = [] ∧
  (∀ h t, w_txs w !! h = Some t → tx_attempt t = 0%nat ∧ tx_state t ≠ pending) ∧
  (minted_count w ≤ 1)%nat ∧ 0 ≤ w_balance w ∧ (w_balance w = 0 → minted_count w = 0%nat).

(** ** Attempts that can no longer mint *)

Definition dead (a : nat) (w : world) : Prop :=
  (∀ h t, w_txs w !! h = Some t → tx_attempt t = a → failed t) ∧
  ((∃ h, att w h a) ∨ ∃ at_, started w a = Some at_ ∧ at_ + maxPending < w_now w).

Definition legacy_clean (w : world) : Prop :=
  ∀ h t, w_txs w !! h = Some t → tx_attempt t = 0%nat → failed t.

(** An attempt too old to send, with nothing of its own still pending. *)
Definition settled (a : nat) (w : world) : Prop :=
  (∀ h t, w_txs w !! h = Some t → tx_attempt t = a → tx_state t ≠ pending) ∧
  ∃ at_, started w a = Some at_ ∧ at_ + maxPending < w_now w.

(** What other runs, the chain and the clock can do to what a run has observed. *)
Record evolve (w w' : world) : Prop := {
  ev_now : w_now w ≤ w_now w';
  ev_attempts : ∀ a at_, w_attempts w !! a = Some at_ → w_attempts w' !! a = Some at_;
  ev_succ : ∀ h, succ w h → succ w' h;
  ev_rev : ∀ h, rev w h → rev w' h;
  ev_att : ∀ h a, att w h a → att w' h a;
  ev_dead : ∀ a, dead a w → dead a w';
  ev_settled : ∀ a, settled a w → settled a w';
  ev_legacy : legacy_clean w → legacy_clean w';
  ev_record : on_record w → on_record w' }.

#[export] Instance evolve_preorder : PreOrder evolve.
Proof.
  split.
  - intros w. by split.
  - intros a b c [] []. split; eauto. lia.
Qed.

(** ** The invariant *)

Definition current (w : world) : nat := length (w_attempts w).

Record Inv (w : world) : Prop := {
  inv_intent : match st_intent (w_store w) with
    | None => w_attempts w = [] ∧ st_positions (w_store w) = []
    | Some i => accountId i = account ∧ attempt i = current w ∧ (1 <= current w)%nat ∧
        started w (attempt i) = Some (attemptedAt i) ∧
        (status i = sending → mintTxHash i = None) ∧
        (status i = recorded ↔ st_positions (w_store w) ≠ []) ∧
        ∀ h, mintTxHash i = Some h → succ w h ∨ att w h (attempt i)
    end;
  inv_positions : st_positions (w_store w) = [] ∨ ∃ h, st_positions (w_store w) = [h] ∧ succ w h;
  inv_bound : ∀ h a, att w h a → (a <= current w)%nat;
  inv_unique : ∀ h h' a, att w h a → att w h' a → (1 <= a)%nat → h = h';
  inv_dead : ∀ a, (1 <= a < current w)%nat → dead a w;
  inv_legacy : (∃ h a, att w h a ∧ (1 <= a)%nat) → legacy_clean w;
  inv_legacy_done : ∀ h t, w_txs w !! h = Some t → tx_attempt t = 0%nat → tx_state t ≠ pending;
  inv_legacy_one : ∀ h h', att w h 0 → att w h' 0 → succ w h → succ w h' → h = h';
  inv_timely : ∀ h t at_, w_txs w !! h = Some t → tx_state t = pending → is_recorded_hash w h = false →
    started w (tx_attempt t) = Some at_ → w_now w ≤ at_ + maxPending;
  inv_balance : 0 < amount → 0 ≤ w_balance w;
  inv_holds : 0 < amount → w_balance w = 0 → on_record w ∨ minted_count w = 0%nat }.

(** ** At most one mint *)

Lemma at_most_one w h h' : Inv w → succ w h → succ w h' → h = h'.
Proof.
  intros I Hs Hs'. unfold succ in *.
  destruct (w_txs w !! h) as [t|] eqn:E; [|done]. destruct (w_txs w !! h') as [t'|] eqn:E'; [|done].
  simpl in *. injection Hs as Hs. injection Hs' as Hs'.
  assert (att w h (tx_attempt t)) as Ha by (unfold att; by rewrite E).
  assert (att w h' (tx_attempt t')) as Ha' by (unfold att; by rewrite E').
  assert (∀ h0 t0, w_txs w !! h0 = Some t0 → tx_state t0 = succeeded →
    tx_attempt t0 = 0%nat ∨ tx_attempt t0 = current w) as Hcur.
  { intros h0 t0 E0 Hs0. assert (att w h0 (tx_attempt t0)) as Ha0 by (unfold att; by rewrite E0).
    pose proof (inv_bound w I _ _ Ha0). destruct (decide (tx_attempt t0 = 0%nat)); [by left|right].
    destruct (decide (tx_attempt t0 = current w)); [done|].
    destruct (inv_dead w I (tx_attempt t0)) as [Hd _]; [lia|].
    destruct (Hd h0 t0 E0 eq_refl); congruence. }
  assert (∀ h0 t0 h1 t1, w_txs w !! h0 = Some t0 → w_txs w !! h1 = Some t1 → tx_state t0 = succeeded →
    tx_attempt t0 = 0%nat → (1 <= tx_attempt t1)%nat → False) as Hmix.
  { intros h0 t0 h1 t1 E0 E1 Hs0 Hz Hp. assert (att w h1 (tx_attempt t1)) as Ha1 by (unfold att; by rewrite E1).
    destruct (inv_legacy w I) with (h := h0) (t := t0) as [F|F]; [by exists h1, (tx_attempt t1)|done|done|..];
      congruence. }
  destruct (decide (tx_attempt t = 0%nat)) as [Z0|Z0], (decide (tx_attempt t' = 0%nat)) as [Z1|Z1].
  - apply (inv_legacy_one w I); [congruence|congruence|unfold succ; by rewrite E; simpl; congruence|unfold succ; by rewrite E'; simpl; congruence].
  - destruct (Hmix h t h' t'); try done. lia.
  - destruct (Hmix h' t' h t); try done. lia.
  - apply (inv_unique w I _ _ (current w)).
    + destruct (Hcur h t E Hs) as [?|<-]; [done|done].
    + destruct (Hcur h' t' E' Hs') as [?|<-]; [done|done].
    + destruct (Hcur h t E Hs) as [?|<-]; [done|lia].
Qed.

(** ** How the world evolves *)

Lemma lookup_att w h t : w_txs w !! h = Some t → att w h (tx_attempt t).
Proof. intros E. unfold att. by rewrite E. Qed.

Lemma att_lookup w h a : att w h a → ∃ t, w_txs w !! h = Some t ∧ tx_attempt t = a.
Proof. unfold att. destruct (w_txs w !! h) as [t|]; [|done]. intros [= <-]. eauto. Qed.

Lemma succ_lookup w h : succ w h → ∃ t, w_txs w !! h = Some t ∧ tx_state t = succeeded.
Proof. unfold succ. destruct (w_txs w !! h) as [t|]; [|done]. intros [= E]. eauto. Qed.

Lemma minted_zero w : minted_count w = 0%nat ↔ ∀ h, ¬ succ w h.
Proof.
  unfold minted_count. split.
  - intros Hc%nil_length_inv h (t & E & Es)%succ_lookup.
    assert (In t (List.filter (λ t, bool_decide (tx_state t = succeeded)) (w_txs w))) as Hin.
    { apply filter_In. split; [by eapply list_elem_of_In, list_elem_of_lookup_2 | by apply bool_decide_eq_true_2]. }
    by rewrite Hc in Hin.
  - intros Hno. destruct (List.filter _ _) as [|t l] eqn:E; [done|exfalso].
    assert (In t (List.filter (λ t, bool_decide (tx_state t = succeeded)) (w_txs w))) as Hin by (rewrite E; by left).
    apply filter_In in Hin as [Hin Hs]. apply list_elem_of_In, list_elem_of_lookup in Hin as [h Hh]. boolify.
    apply (Hno h). unfold succ. rewrite Hh. simpl. by rewrite Hs.
Qed.

(** Steps that leave the chain alone. *)
Lemma evolve_same_txs w w' :
  w_txs w' = w_txs w → w_now w ≤ w_now w' →
  (∀ a at_, w_attempts w !! a = Some at_ → w_attempts w' !! a = Some at_) →
  (on_record w → on_record w') → evolve w w'.
Proof.
  intros Et En Ea Er. split; unfold succ, rev, att, legacy_clean; rewrite ?Et; try done.
  - intros a [Hd Hs]. split; [by rewrite Et|]. destruct Hs as [[h Hh]|(at_ & Hat & Hlt)].
    + left. exists h. unfold att. by rewrite Et.
    + right. exists at_. split; [by apply Ea | lia].
  - intros a [Hd (at_ & Hat & Hlt)]. split; [by rewrite Et|]. exists at_. split; [by apply Ea | lia].
Qed.

(** A new transaction of an attempt that is not dead. *)
Lemma evolve_mint w a :
  a ≠ 0%nat → ¬ dead a w → ¬ settled a w →
  evolve w (mkWorld (w_now w) (w_store w) (w_txs w ++ [mkTx pending a]) (w_attempts w) (w_balance w)).
Proof.
  intros Ha Hd Hset. set (w' := mkWorld _ _ _ _ _).
  assert (∀ h t, w_txs w !! h = Some t → w_txs w' !! h = Some t) as Hold.
  { intros h t E. simpl. by apply lookup_app_l_Some. }
  assert (∀ h t, w_txs w' !! h = Some t → w_txs w !! h = Some t ∨ t = mkTx pending a) as Hnew.
  { intros h t. simpl. rewrite lookup_app_Some. intros [E|[_ E]]; [by left|right].
    by apply list_lookup_singleton_Some in E as [_ <-]. }
  assert (∀ h b, att w h b → att w' h b) as Hatt.
  { intros h b (t & E & <-)%att_lookup. by apply lookup_att, Hold. }
  split; try done.
  - intros h (t & E & Et)%succ_lookup. unfold succ. rewrite (Hold _ _ E). simpl. by rewrite Et.
  - intros h. unfold rev. destruct (w_txs w !! h) as [t|] eqn:E; [|done]. by rewrite (Hold _ _ E).
  - intros b [Hf Hs]. split.
    + intros h t E Eb. destruct (Hnew _ _ E) as [E'| ->]; [by eapply Hf|]. simpl in Eb. subst b. by destruct Hd.
    + destruct Hs as [[h Hh]|Hs]; [left; exists h; by apply Hatt | by right].
  - intros b [Hf Hs]. split; [|done]. intros h t E Eb.
    destruct (Hnew _ _ E) as [E'| ->]; [by eapply Hf|]. simpl in Eb. subst b. by destruct Hset.
  - intros Hl h t E Ez. destruct (Hnew _ _ E) as [E'| ->]; [by eapply Hl | done].
Qed.

(** A pending transaction is resolved. *)
Lemma evolve_mine w h t st :
  w_txs w !! h = Some t → tx_state t = pending →
  evolve w (mined w h t st).
Proof.
  intros E Ep. set (w' := mined w h t st). pose proof (lookup_lt_Some _ _ _ E) as Hlt.
  assert (∀ h', h' ≠ h → w_txs w' !! h' = w_txs w !! h') as Hne.
  { intros h' Hn. simpl. by apply list_lookup_insert_ne. }
  assert (w_txs w' !! h = Some (mkTx st (tx_attempt t))) as Heq by (simpl; by apply list_lookup_insert_eq).
  assert (∀ h' b, att w h' b → att w' h' b) as Hatt.
  { intros h' b. unfold att. destruct (decide (h' = h)) as [->|Hn]; [by rewrite Heq, E | by rewrite Hne]. }
  assert (∀ h' t', w_txs w' !! h' = Some t' → h' ≠ h ∨ t' = mkTx st (tx_attempt t)) as Hcase.
  { intros h' t' E'. destruct (decide (h' = h)) as [->|]; [right; congruence | by left]. }
  split; try done.
  - intros h' (t' & E' & Es)%succ_lookup. unfold succ. rewrite Hne by congruence.
    rewrite E'. simpl. by rewrite Es.
  - intros h'. unfold rev. destruct (decide (h' = h)) as [->|Hn]; [|by rewrite Hne].
    rewrite E. simpl. rewrite Ep. done.
  - intros b [Hf Hs]. split.
    + intros h' t' E' Eb. destruct (Hcase _ _ E') as [Hn| ->]; [rewrite Hne in E' by done; by eapply Hf|].
      simpl in Eb. destruct (Hf h t E Eb) as [F|F]; congruence.
    + destruct Hs as [[h' Hh]|Hs]; [left; exists h'; by apply Hatt | by right].
  - intros b [Hf Hs]. split; [|done]. intros h' t' E' Eb.
    destruct (Hcase _ _ E') as [Hn| ->]; [rewrite Hne in E' by done; by eapply Hf|].
    simpl in Eb. by destruct (Hf h t E Eb).
  - intros Hl h' t' E' Ez. destruct (Hcase _ _ E') as [Hn| ->]; [rewrite Hne in E' by done; by eapply Hl|].
    simpl in Ez. destruct (Hl h t E Ez) as [F|F]; congruence.
Qed.

(** ** The invariant is kept *)

(** What a call relies on when it is made. *)
Definition pre {R} (c : call R) (g : ghost) (w : world) : Prop :=
  match c with
  | HasPosition a | FindIntent a => a = account
  | CreateIntent t _ _ => tg_accountId t = account
  | RestartAttempt a e _ => a = account ∧ (on_record w ∨ dead e w ∧ legacy_clean w)
  | Mint _ => g_own g ≠ None ∧ legacy_clean w
  | RecordSent a n h => a = account ∧ (succ w h ∨ att w h n)
  | RecordPosition a h => a = account ∧ succ w h
  | _ => True
  end.

(** A claimed attempt exists and nothing has been sent for it. *)
Definition own_ok (g : ghost) (w : world) : Prop :=
  match g_own g with Some a => (1 <= a <= current w)%nat ∧ ∀ h, ¬ att w h a | None => True end.

(** The intent row of a well-formed world. *)
Definition intent_ok (w : world) (s : store) (cur : nat) : Prop :=
  match st_intent s with
  | None => cur = 0%nat ∧ st_positions s = []
  | Some i => accountId i = account ∧ attempt i = cur ∧ (1 <= cur)%nat ∧ started w (attempt i) = Some (attemptedAt i) ∧
      (status i = sending → mintTxHash i = None) ∧ (status i = recorded ↔ st_positions s ≠ []) ∧
      ∀ h, mintTxHash i = Some h → succ w h ∨ att w h (attempt i)
  end.

Lemma inv_intent_ok w : Inv w → intent_ok w (w_store w) (current w).
Proof.
  intros I. pose proof (inv_intent w I) as H. unfold intent_ok.
  destruct (st_intent (w_store w)); [done|]. destruct H as [H ->]. split; [|done].
  unfold current. by rewrite H.
Qed.

(** Writing the store alone. *)
Lemma inv_store w s' :
  Inv w → intent_ok w s' (current w) →
  (st_positions s' = [] ∨ ∃ h, st_positions s' = [h] ∧ succ w h) →
  (∀ h, is_recorded_hash w h = true → is_recorded_hash (set_store w s') h = true) →
  (on_record w → on_record (set_store w s')) →
  Inv (set_store w s').
Proof.
  intros I Hi Hp Hr Ho. destruct I as [_ _ I3 I4 I5 I6 I7 I8 I9 I10 I11]. split; try done.
  - simpl. unfold intent_ok in Hi. destruct (st_intent s'); [done|]. destruct Hi as [Hc ->].
    split; [by apply nil_length_inv|done].
  - intros h t at_ E Ep Hn. apply (I9 h t at_ E Ep). apply not_true_iff_false. intros Hy.
    apply Hr in Hy. congruence.
  - intros Ha Hb. destruct (I11 Ha Hb); [left; by apply Ho | by right].
Qed.

Lemma inv_create w t at_ from :
  Inv w → tg_accountId t = account → st_intent (w_store w) = None →
  Inv (mkWorld (w_now w) (mkStore (Some (new_intent t at_ from)) (st_positions (w_store w))) (w_txs w) [at_] (w_balance w)).
Proof.
  intros I Ht Hn. pose proof (inv_intent w I) as Hi. rewrite Hn in Hi. destruct Hi as [Ha Hp].
  destruct I as [_ I2 I3 I4 I5 I6 I7 I8 I9 I10 I11]. split; [|done| |done| |done|done|done| |done|done].
  - simpl. rewrite Hp. unfold current, started. simpl.
    split; [done|]. split; [done|]. split; [lia|]. split; [done|]. split; [done|]. split; [by split|done].
  - intros h a Hh. specialize (I3 h a Hh). unfold current in *. rewrite Ha in I3. simpl in *. lia.
  - intros a. unfold current. simpl. lia.
  - intros h tx at' E Ep _ Hs. simpl in E.
    assert (tx_attempt tx = 0%nat) as Hz.
    { assert (att w h (tx_attempt tx)) as Hh by (by apply lookup_att). specialize (I3 _ _ Hh).
      unfold current in I3. rewrite Ha in I3. simpl in I3. lia. }
    by destruct (I7 h tx E Hz).
Qed.

Lemma no_pending_when_dead w e h t :
  Inv w → dead e w → current w = e → w_txs w !! h = Some t → tx_state t ≠ pending.
Proof.
  intros I D Hc E Ep. pose proof (inv_bound w I _ _ (lookup_att _ _ _ E)) as Hb.
  destruct (decide (tx_attempt t = 0%nat)) as [Hz|Hz]; [by apply (inv_legacy_done w I h t E Hz)|].
  assert (dead (tx_attempt t) w) as [Hf _].
  { destruct (decide (tx_attempt t = e)) as [->|]; [done|]. apply (inv_dead w I). lia. }
  destruct (Hf h t E eq_refl); congruence.
Qed.

Lemma started_app w at_ now s txs a v b :
  started w a = Some v → started (mkWorld now s txs (w_attempts w ++ [at_]) b) a = Some v.
Proof. unfold started. simpl. intros H. by apply lookup_app_l_Some. Qed.

Lemma inv_restart w i e at_ :
  Inv w → st_intent (w_store w) = Some i → attempt i = e → status i ≠ recorded →
  dead e w → legacy_clean w →
  Inv (mkWorld (w_now w) (mkStore (Some (restarted_intent i at_)) (st_positions (w_store w)))
         (w_txs w) (w_attempts w ++ [at_]) (w_balance w)).
Proof.
  intros I Hi He Hs D L. pose proof (inv_intent w I) as Hint. rewrite Hi in Hint.
  destruct Hint as (Hacc & Hatt & Hpos & Hst & _ & Hrec & _).
  set (w' := mkWorld _ _ _ _ _).
  assert (evolve w w') as V.
  { apply evolve_same_txs; [done | done | intros a v; simpl; by apply lookup_app_l_Some | done]. }
  assert (st_positions (w_store w) = []) as Hp.
  { destruct (st_positions (w_store w)) eqn:E; [done|]. destruct Hs. by apply Hrec. }
  assert (current w' = S (current w)) as Hcur by (unfold current; simpl; rewrite length_app; simpl; lia).
  pose proof (no_pending_when_dead w e) as Hnp.
  pose proof I as [J1 I2 I3 I4 I5 I6 I7 I8 I9 I10 I11]. split; [|by left| |done| |done|done|done| |done|done].
  - simpl. rewrite Hp. unfold current, started. simpl. rewrite length_app. simpl.
    split; [done|]. split; [fold (current w); lia|]. split; [lia|]. split; [|split; [done|split; [by split|done]]].
    replace (attempt i - 0)%nat with (length (w_attempts w)) by (fold (current w); lia).
    by rewrite list_lookup_middle.
  - intros h a Hh. specialize (I3 h a Hh). lia.
  - intros a Ha. apply (ev_dead _ _ V). destruct (decide (a = e)) as [->|]; [done|]. apply I5. lia.
  - intros h t v E Ep _ _. exfalso. eapply (Hnp h t I D); [lia|exact E|done].
Qed.

Lemma mint_not_dead w g a :
  own_ok g w → g_own g = Some a →
  match started w a with Some at_ => w_now w ≤ at_ + maxPending | None => True end →
  ¬ dead a w ∧ ¬ settled a w.
Proof.
  intros Ho Ha Hg. unfold own_ok in Ho. rewrite Ha in Ho. destruct Ho as [_ Hno]. split.
  - intros [_ [[h Hh]|(at_ & Hs & Hlt)]]; [by eapply Hno|]. rewrite Hs in Hg. lia.
  - intros [_ (at_ & Hs & Hlt)]. rewrite Hs in Hg. lia.
Qed.

Lemma inv_mint w g a :
  Inv w → own_ok g w → g_own g = Some a → legacy_clean w →
  match started w a with Some at_ => w_now w ≤ at_ + maxPending | None => True end →
  let w' := mkWorld (w_now w) (w_store w) (w_txs w ++ [mkTx pending a]) (w_attempts w) (w_balance w) in
  evolve w w' ∧ Inv w' ∧ att w' (length (w_txs w)) a.
Proof.
  intros I Ho Ha L Hg w'. pose proof (mint_not_dead w g a Ho Ha Hg) as [Hnd Hns].
  unfold own_ok in Ho. rewrite Ha in Ho. destruct Ho as [Hb Hno].
  assert (evolve w w') as V by (apply evolve_mint; [lia | done | done]).
  assert (att w' (length (w_txs w)) a) as Hnew by (unfold att; simpl; by rewrite list_lookup_middle).
  assert (∀ h t, w_txs w' !! h = Some t → w_txs w !! h = Some t ∨ h = length (w_txs w) ∧ t = mkTx pending a) as Hcase.
  { intros h t. simpl. rewrite lookup_app_Some. intros [E|[Hle E]]; [by left|right].
    apply list_lookup_singleton_Some in E as [E <-]. split; [lia|done]. }
  assert (∀ h b, att w' h b → att w h b ∨ h = length (w_txs w) ∧ b = a) as Hatt.
  { intros h b (t & E & <-)%att_lookup. destruct (Hcase h t E) as [E'|[-> ->]]; [left; by apply lookup_att|by right]. }
  assert (∀ h, succ w' h → succ w h) as Hsucc.
  { intros h (t & E & Es)%succ_lookup. destruct (Hcase h t E) as [E'|[_ ->]]; [|done].
    unfold succ. rewrite E'. simpl. congruence. }
  split_and!; [done| |done]. destruct I as [I1 I2 I3 I4 I5 I6 I7 I8 I9 I10 I11]. split.
  - simpl. destruct (st_intent (w_store w)) as [i|]; [|done].
    destruct I1 as (? & ? & ? & ? & ? & ? & Hh). split_and!; try done.
    intros h Eh. destruct (Hh h Eh); [left; by apply (ev_succ _ _ V) | right; by apply (ev_att _ _ V)].
  - destruct I2 as [?|(h & ? & ?)]; [by left|right]. exists h. split; [done | by apply (ev_succ _ _ V)].
  - intros h b Hh. destruct (Hatt h b Hh) as [?|[_ ->]]; [by eapply I3 | apply Hb].
  - intros h h' b Hh Hh' Hb1. destruct (Hatt h b Hh) as [O|[-> ->]], (Hatt h' _ Hh') as [O'|[-> ?]];
      subst; try done; [by eapply I4 | by apply Hno in O | by apply Hno in O'].
  - intros b Hb1. apply (ev_dead _ _ V), I5. apply Hb1.
  - intros _. by apply (ev_legacy _ _ V).
  - intros h t E Ez. destruct (Hcase h t E) as [E'|[_ ->]]; [by eapply I7|]. simpl in Ez. lia.
  - intros h h' Hh Hh' Hs Hs'. destruct (Hatt h _ Hh) as [O|[_ ?]]; [|lia].
    destruct (Hatt h' _ Hh') as [O'|[_ ?]]; [|lia]. apply I8; auto.
  - intros h t v E Ep Hr Hs. destruct (Hcase h t E) as [E'|[_ ->]]; [by eapply I9|].
    simpl in Hs. unfold started in *. simpl in Hs. rewrite Hs in Hg. done.
  - done.
  - intros Hp Hz. destruct (I11 Hp Hz) as [?|Hm]; [by left|right].
    rewrite minted_zero in *. intros h Hh. by apply (Hm h), Hsucc.
Qed.

Lemma inv_mine w h t st :
  Inv w → w_txs w !! h = Some t → tx_state t = pending → st ≠ pending → Inv (mined w h t st).
Proof.
  intros I E Ep Hst. pose proof (evolve_mine w h t st E Ep) as V. revert V.
  set (w' := mined w h t st). intros V. pose proof (lookup_lt_Some _ _ _ E) as Hlt.
  assert (∀ h', h' ≠ h → w_txs w' !! h' = w_txs w !! h') as Hne.
  { intros h' Hn. simpl. by apply list_lookup_insert_ne. }
  assert (w_txs w' !! h = Some (mkTx st (tx_attempt t))) as Heq by (simpl; by apply list_lookup_insert_eq).
  assert (∀ h' b, att w' h' b → att w h' b) as Hatt.
  { intros h' b. unfold att. destruct (decide (h' = h)) as [->|Hn]; [by rewrite Heq, E | by rewrite Hne]. }
  destruct I as [I1 I2 I3 I4 I5 I6 I7 I8 I9 I10 I11]. split.
  - simpl. destruct (st_intent (w_store w)) as [i|]; [|done].
    destruct I1 as (? & ? & ? & ? & ? & ? & Hh). split_and!; try done.
    intros h0 Eh. destruct (Hh h0 Eh); [left; by apply (ev_succ _ _ V) | right; by apply (ev_att _ _ V)].
  - destruct I2 as [?|(h0 & ? & ?)]; [by left|right]. exists h0. split; [done | by apply (ev_succ _ _ V)].
  - intros h0 b Hh. by eapply I3, Hatt.
  - intros h0 h1 b Hh0 Hh1. apply I4; by apply Hatt.
  - intros b Hb. apply (ev_dead _ _ V), I5, Hb.
  - intros (h0 & b & Hh & Hb). apply (ev_legacy _ _ V), I6. exists h0, b. split; [by apply Hatt | done].
  - intros h0 t0 E0 Ez. destruct (decide (h0 = h)) as [->|Hn].
    + rewrite Heq in E0. injection E0 as <-. done.
    + rewrite Hne in E0 by done. by eapply I7.
  - intros h0 h1 Hh0 Hh1 Hs0 Hs1.
    assert (∀ h2, att w' h2 0 → succ w' h2 → succ w h2) as Hs.
    { intros h2 Ha2 Hs2. destruct (decide (h2 = h)) as [->|Hn].
      - apply Hatt, att_lookup in Ha2 as (t2 & E2 & Ez). rewrite E in E2. injection E2 as <-.
        by destruct (I7 h t E Ez).
      - unfold succ in *. by rewrite Hne in Hs2. }
    apply I8; auto.
  - intros h0 t0 v E0 Ep0 Hr Hs. destruct (decide (h0 = h)) as [->|Hn].
    + rewrite Heq in E0. injection E0 as <-. done.
    + rewrite Hne in E0 by done. by eapply I9.
  - simpl. intros Hamt. specialize (I10 Hamt). destruct (bool_decide _); lia.
  - simpl. intros Hamt Hz. specialize (I10 Hamt). destruct (bool_decide (st = succeeded)) eqn:Es; boolify; [lia|].
    destruct (I11 Hamt Hz) as [?|Hm]; [by left|right]. rewrite minted_zero in *. intros h0 Hh0.
    destruct (decide (h0 = h)) as [->|Hn]; [|apply (Hm h0); unfold succ in *; by rewrite Hne in Hh0].
    unfold succ in Hh0. rewrite Heq in Hh0. simpl in Hh0. congruence.
Qed.

Lemma inv_tick w now' :
  Inv w → w_now w ≤ now' →
  (∀ h t at_, w_txs w !! h = Some t → tx_state t = pending → is_recorded_hash w h = false →
     started w (tx_attempt t) = Some at_ → now' ≤ at_ + maxPending) →
  Inv (mkWorld now' (w_store w) (w_txs w) (w_attempts w) (w_balance w)).
Proof.
  intros I Hle Hg. pose proof (evolve_same_txs w (mkWorld now' (w_store w) (w_txs w) (w_attempts w) (w_balance w))
    eq_refl Hle (λ a v H, H) (λ H, H)) as V.
  destruct I as [I1 I2 I3 I4 I5 I6 I7 I8 I9 I10 I11]. split; try done.
  intros b Hb. apply (ev_dead _ _ V), I5, Hb.
Qed.

Lemma inv_move w b :
  Inv w → 0 ≤ b → (on_record w ∨ minted_count w = 0%nat ∨ b ≠ 0) → Inv (set_balance w b).
Proof.
  intros [I1 I2 I3 I4 I5 I6 I7 I8 I9 I10 I11] Hb Hc. split; try done.
  intros _ Hz. destruct Hc as [?|[?|?]]; [by left|by right|done].
Qed.

(** ** Every call keeps the invariant *)

Lemma restart_cases e at_ s ok s' :
  restartEscrowMintAttempt e at_ s = (ok, s') →
  ok = false ∧ s' = s ∨
  ∃ i, ok = true ∧ st_intent s = Some i ∧ attempt i = e ∧ status i ≠ recorded ∧
    s' = mkStore (Some (restarted_intent i at_)) (st_positions s).
Proof.
  unfold restartEscrowMintAttempt. destruct (st_intent s) as [i|]; [|by intros [= <- <-]; left].
  destruct (_ && _) eqn:E; intros [= <- <-]; [right|by left].
  apply andb_true_iff in E as [E1 E2]. apply Nat.eqb_eq in E1. apply orb_true_iff in E2.
  exists i. split_and!; try done. intros Hr. rewrite Hr in E2. by destruct E2.
Qed.

Lemma inv_record_sent w a h s' :
  Inv w → succ w h ∨ att w h a → recordEscrowMintSent a h (w_store w) = Some s' → Inv (set_store w s').
Proof.
  intros I Hpre H. pose proof (inv_intent_ok w I) as Hok. unfold recordEscrowMintSent in H.
  unfold intent_ok in Hok. destruct (st_intent (w_store w)) as [i|] eqn:Ei; [|done].
  destruct Hok as (H0 & H1 & H2 & H3 & H4 & H5 & H6).
  destruct (Nat.eqb _ _ && bool_decide (status i = sending)) eqn:Eg in H.
  - injection H as <-. apply andb_true_iff in Eg as [Ea Es]. apply Nat.eqb_eq in Ea. boolify.
    assert (st_positions (w_store w) = []) as Hp.
    { destruct (st_positions (w_store w)) eqn:E; [done|]. assert (status i = recorded) by (by apply H5). congruence. }
    apply inv_store; [done| |by left| |done].
    + unfold intent_ok. simpl. rewrite Hp. split_and!; try done. intros h' [= <-]. by rewrite Ea.
    + intros h'. unfold is_recorded_hash. rewrite Ei, (H4 Es). by rewrite bool_decide_eq_false_2.
  - destruct (_ && _) eqn:Eg' in H; [|done]. injection H as <-. by destruct w.
Qed.

Lemma inv_record_position w h s' :
  Inv w → succ w h → recordEscrowMintedPosition h (w_store w) = Some s' → Inv (set_store w s').
Proof.
  intros I Hpre H. pose proof (inv_intent_ok w I) as Hok. unfold recordEscrowMintedPosition in H.
  assert (hasPosition (w_store w) = true → Some (w_store w) = Some s' → Inv (set_store w s')) as Hsame.
  { intros _ [= <-]. by destruct w. }
  unfold intent_ok in Hok. destruct (st_intent (w_store w)) as [i|] eqn:Ei.
  2:{ destruct (hasPosition _); [by apply Hsame | done]. }
  destruct Hok as (H0 & H1 & H2 & H3 & H4 & H5 & H6).
  destruct (bool_decide _ && _) eqn:Eg in H; [|destruct (hasPosition _); [by apply Hsame | done]].
  injection H as <-. boolify.
  assert (st_positions (w_store w) = []) as Hp.
  { destruct (st_positions (w_store w)) eqn:E; [done|]. assert (status i = recorded) by (by apply H5). congruence. }
  apply inv_store; [done| |rewrite Hp; right; by exists h| |unfold on_record; simpl; by rewrite Hp].
  - unfold intent_ok. simpl. rewrite Hp. split_and!; try done.
  - intros h'. unfold is_recorded_hash. by rewrite Ei.
Qed.

(** What one call does, beside its answer: the world evolves within the invariant, and a
    claim is kept, given up, or newly made on a fresh attempt. *)
Record call_ok (g : ghost) (w : world) (g' : ghost) (w' : world) : Prop := {
  co_evolve : evolve w w';
  co_inv : Inv w';
  co_own : own_ok g' w';
  co_current : (current w <= current w')%nat;
  co_claim : g_own g' = g_own g ∨ g_own g' = None ∨ ∃ a, g_own g' = Some a ∧ (current w < a)%nat;
  co_others : ∀ a, g_own g ≠ Some a → (a <= current w)%nat → (∀ h, ¬ att w h a) → ∀ h, ¬ att w' h a }.

Lemma call_ok_read g w g' : Inv w → own_ok g w → g_own g' = g_own g → call_ok g w g' w.
Proof.
  intros I O E. split; [done|done| |lia|by left|done]. unfold own_ok in *. by rewrite E.
Qed.

Lemma call_ok_store g w s' : own_ok g w → Inv (set_store w s') → (on_record w → on_record (set_store w s')) → call_ok g w g (set_store w s').
Proof.
  intros O I Hr. split; [by apply evolve_same_txs|done|done|done|by left|done].
Qed.

Lemma record_sent_positions w a h s' :
  recordEscrowMintSent a h (w_store w) = Some s' → on_record w → on_record (set_store w s').
Proof.
  unfold recordEscrowMintSent, on_record. destruct (st_intent _); [|done]. repeat case_match; naive_solver.
Qed.

Lemma record_position_positions w h s' :
  recordEscrowMintedPosition h (w_store w) = Some s' → on_record w → on_record (set_store w s').
Proof.
  unfold recordEscrowMintedPosition, on_record. destruct (st_intent _); repeat case_match; try naive_solver.
  intros [= <-] _. simpl. by destruct (st_positions _).
Qed.

Lemma create_call_ok g w t at_ from r g' w' :
  Inv w → own_ok g w → tg_accountId t = account → exec (CreateIntent t at_ from) g w r g' w' → call_ok g w g' w'.
Proof.
  intros I O Ht H. simpl in H. rewrite Ht, String.eqb_refl in H. unfold createEscrowMintIntent in H.
  destruct (st_intent (w_store w)) as [i|] eqn:Ei; destruct H as (_ & -> & ->).
  - destruct w. by apply call_ok_read.
  - pose proof (inv_intent w I) as Hi. rewrite Ei in Hi. destruct Hi as [Ha _].
    assert (current w = 0%nat) as Hc by (unfold current; by rewrite Ha).
    split.
    + apply evolve_same_txs; [done | done | |done]. rewrite Ha. intros a v. by rewrite lookup_nil.
    + by apply inv_create.
    + unfold own_ok. simpl. split; [unfold current; simpl; lia|]. intros h Hh.
      pose proof (inv_bound w I h 1%nat Hh). lia.
    + lia.
    + right. right. exists 1%nat. simpl. split; [done|lia].
    + done.
Qed.

Lemma restart_call_ok g w e at_ r g' w' :
  Inv w → own_ok g w → on_record w ∨ dead e w ∧ legacy_clean w →
  exec (RestartAttempt account e at_) g w r g' w' → call_ok g w g' w'.
Proof.
  intros I O D H. cbn [exec] in H. rewrite String.eqb_refl in H.
  destruct (restartEscrowMintAttempt e at_ (w_store w)) as [ok s'] eqn:E. destruct H as (_ & -> & ->).
  destruct (restart_cases _ _ _ _ _ E) as [[-> ->]|(i & -> & Ei & Ea & Es & ->)].
  - destruct w. by apply call_ok_read.
  - pose proof (inv_intent w I) as Hi. rewrite Ei in Hi. destruct Hi as (_ & Hc & _ & _ & _ & Hr & _).
    assert (current w = e) as Hce by congruence.
    destruct D as [D|[D L]]; [by apply Hr in D|].
    split.
    + apply evolve_same_txs; [done | done | |done]. intros a v. simpl. by apply lookup_app_l_Some.
    + by apply (inv_restart w i e).
    + unfold own_ok, current. simpl. rewrite length_app. simpl. fold (current w). split; [lia|].
      intros h Hh. pose proof (inv_bound w I h _ Hh). lia.
    + unfold current. simpl. rewrite length_app. lia.
    + right. right. exists (S e). simpl. split; [done|lia].
    + done.
Qed.

Lemma mint_call_ok g w t r g' w' :
  Inv w → own_ok g w → g_own g ≠ None → legacy_clean w → exec (Mint t) g w r g' w' →
  call_ok g w g' w' ∧ ∃ a, g_own g = Some a ∧ att w' r a.
Proof.
  intros I O Hn L H. cbn [exec] in H. destruct (g_own g) as [a|] eqn:Ea; [|done].
  destruct H as (-> & -> & Hg & ->).
  destruct (inv_mint w g a I O Ea L Hg) as (V & I' & Hnew).
  split; [|by exists a]. split; try done; [by right; left|].
  intros b Hb Hle Hno h Hh. apply att_lookup in Hh as (tx & E & Et). simpl in E.
  apply lookup_app_Some in E as [E|[_ E]].
  - apply (Hno h). rewrite <- Et. by apply lookup_att.
  - apply list_lookup_singleton_Some in E as [_ <-]. simpl in Et. congruence.
Qed.

Lemma exec_ok {R} (c : call R) g w r g' w' :
  Inv w → own_ok g w → pre c g w → exec c g w r g' w' → call_ok g w g' w'.
Proof.
  intros I O P H. destruct c; simpl in P;
    try (by cbn [exec] in H; destruct_and?; subst; apply call_ok_read).
  - by eapply create_call_ok.
  - destruct P as [-> P]. by eapply restart_call_ok.
  - destruct P. by eapply mint_call_ok.
  - destruct P as [-> P]. cbn [exec] in H. rewrite String.eqb_refl in H. destruct H as (s' & Hs & -> & ->).
    apply call_ok_store; [done|by eapply inv_record_sent|by eapply record_sent_positions].
  - destruct P as [-> P]. cbn [exec] in H. rewrite String.eqb_refl in H. destruct H as (s' & Hs & -> & ->).
    apply call_ok_store; [done|by eapply inv_record_position|by eapply record_position_positions].
Qed.

(** ** What a run may assume of the next call *)

(** [wp p g w Q]: whenever [p] makes its next call, in any world its observations have
    evolved to, the call's reliance holds, and so on until [p] answers within [Q]. *)
Fixpoint wp {A} (p : prog A) (g : ghost) (w : world) (Q : A → ghost → world → Prop) : Prop :=
  match p with
  | Done a => Q a g w
  | Throw _ => True
  | Do c k => ∀ w1, evolve w w1 → Inv w1 → own_ok g w1 →
      pre c g w1 ∧ ∀ r g' w2, exec c g w1 r g' w2 → wp (k r) g' w2 Q
  end.

Lemma wp_bind {A B} (p : prog A) (f : A → prog B) g w Q :
  wp p g w (λ a g' w', wp (f a) g' w' Q) → wp (pbind p f) g w Q.
Proof.
  revert g w. induction p as [a|m|R c k IH]; intros g w H; simpl in *; [done|done|].
  intros w1 V I O. destruct (H w1 V I O) as [Hp Hk]. split; [done|]. intros. by apply IH, Hk.
Qed.

Lemma wp_mono {A} (p : prog A) g w (Q Q' : A → ghost → world → Prop) :
  (∀ a g' w', Q a g' w' → Q' a g' w') → wp p g w Q → wp p g w Q'.
Proof.
  intros HQ. revert g w. induction p as [a|m|R c k IH]; intros g w H; simpl in *; [auto|done|].
  intros w1 V I O. destruct (H w1 V I O) as [Hp Hk]. split; [done|]. intros. by apply IH, Hk.
Qed.

Definition any {A} : A → ghost → world → Prop := λ _ _ _, True.

Lemma wp_evolve {A} (p : prog A) g w w' : evolve w w' → wp p g w any → wp p g w' any.
Proof.
  intros V. destruct p; simpl; [done|done|]. intros H w1 V1. apply H. by etrans.
Qed.

(** ** The methods *)

Lemma wp_ensure g w Q :
  (∀ w', evolve w w' → Inv w' → Q tt (mkGhost (g_own g) None) w') → wp ensureHolderAuthorized g w Q.
Proof.
  intros HQ. simpl. intros w1 V I O. split; [done|]. intros r g' w2 [-> ->].
  destruct r; simpl; [by apply HQ|]. intros w3 V3 I3 O3. split; [done|]. intros r g' w4 [-> ->].
  destruct r; simpl; [|done]. apply HQ; [by etrans | done].
Qed.

Definition confirmed (m : ConfirmedMint) (_ : ghost) (w : world) : Prop :=
  intentOf m = account ∧ succ w (txHash m).

Lemma wp_sendMint t a g w :
  g_own g = Some a → legacy_clean w → wp (sendMint t account a) g w confirmed.
Proof.
  intros Ha L w1 V I O. assert (legacy_clean w1) as L1 by (by apply (ev_legacy _ _ V)).
  split; [simpl; by rewrite Ha|]. intros h g1 w2 H.
  destruct (mint_call_ok g w1 t h g1 w2 I O) as [_ (a' & Ea' & Hatt)]; [by rewrite Ha|done|done|].
  rewrite Ha in Ea'. injection Ea' as <-.
  intros w3 V3 I3 O3. split; [simpl; split; [done|right; by apply (ev_att _ _ V3)]|].
  intros [] g2 w4 H4. cbn [exec] in H4. rewrite String.eqb_refl in H4. destruct H4 as (s' & _ & -> & ->). intros w5 V5 I5 O5. split; [done|].
  intros [h' ok] g3 w6 (-> & -> & H6).
  destruct (tx_state <$> w_txs w5 !! h) as [[]|] eqn:Es; try done.
  - injection H6 as -> ->. by rewrite Nat.eqb_refl.
  - injection H6 as -> ->. by rewrite Nat.eqb_refl.
  - simpl in H6. apply Nat.eqb_neq in H6. by rewrite H6.
Qed.

(** No attempt can be sent any more because a position is on record, or the condition a new
    attempt relies on. *)
Definition unless_recorded (P : world → Prop) (w : world) : Prop := on_record w ∨ P w.

Lemma unless_recorded_evolve (P : world → Prop) w w' :
  evolve w w' → (P w → P w') → unless_recorded P w → unless_recorded P w'.
Proof. intros V HP [H|H]; [left; by apply (ev_record _ _ V) | right; auto]. Qed.

Lemma wp_sendFirstMint t g w :
  tg_accountId t = account → unless_recorded legacy_clean w → wp (sendFirstMint t) g w confirmed.
Proof.
  intros Ht L. apply wp_bind, wp_ensure. intros w1 V1 _.
  intros w2 V2 I2 O2. split; [done|]. intros head g2 ? [-> ->].
  intros w3 V3 I3 O3. split; [done|]. intros now g3 ? (-> & _ & -> & ->).
  intros w4 V4 I4 O4. split; [done|]. intros [i created] g4 w5 H. cbn [exec] in H.
  assert (unless_recorded legacy_clean w4) as L4.
  { assert (evolve w w4) as V by (do 3 (etrans; [eassumption|]); done).
    eapply unless_recorded_evolve; [exact V|apply (ev_legacy _ _ V)|exact L]. }
  pose proof (inv_intent w4 I4) as Hi.
  rewrite Ht, String.eqb_refl in H. unfold createEscrowMintIntent in H.
  destruct (st_intent (w_store w4)); destruct H as (E & -> & ->); injection E as -> ->; [done|].
  destruct Hi as [_ Hp]. destruct L4 as [L4|L4]; [by destruct L4|].
  cbn [new_intent accountId attempt]. rewrite Ht. by apply wp_sendMint.
Qed.

Lemma wp_restartMint t i g w :
  accountId i = account → unless_recorded (λ w, dead (attempt i) w ∧ legacy_clean w) w →
  wp (restartMint t i) g w confirmed.
Proof.
  intros Hi D. apply wp_bind, wp_ensure. intros w1 V1 _.
  intros w2 V2 I2 O2. split; [done|]. intros now g2 ? (-> & _ & -> & ->).
  intros w3 V3 I3 O3. assert (on_record w3 ∨ dead (attempt i) w3 ∧ legacy_clean w3) as D3.
  { assert (evolve w w3) as V by (do 2 (etrans; [eassumption|]); done).
    apply (unless_recorded_evolve (λ w, dead (attempt i) w ∧ legacy_clean w) w); [exact V| |exact D].
    intros [? ?]. split; [by apply (ev_dead _ _ V) | by apply (ev_legacy _ _ V)]. }
  split; [done|]. intros ok g3 w4 H. cbn [exec] in H. rewrite Hi, String.eqb_refl in H.
  pose proof (inv_intent w3 I3) as Hint.
  destruct (restartEscrowMintAttempt _ _ _) as [ok' s'] eqn:E. destruct H as (-> & -> & ->).
  destruct ok'; [|done]. rewrite Hi.
  destruct (restart_cases _ _ _ _ _ E) as [[? _]|(j & _ & Ej & _ & Es & _)]; [done|].
  rewrite Ej in Hint. destruct Hint as (_ & _ & _ & _ & _ & Hr & _).
  destruct D3 as [D3|[_ L3]]; [by apply Hr in D3|]. by apply wp_sendMint.
Qed.

Lemma wp_record_found (i : EscrowMintIntent) h g w :
  accountId i = account → succ w h →
  wp (Do (RecordSent (accountId i) (attempt i) h) (λ _, Done (mkConfirmed (accountId i) h false))) g w confirmed.
Proof.
  intros Hi S w1 V1 I1 O1. assert (succ w1 h) as S1 by (by apply (ev_succ _ _ V1)).
  split; [by split; [|left]|]. intros [] g1 w2 H. cbn [exec] in H. rewrite Hi, String.eqb_refl in H.
  destruct H as (s' & _ & -> & ->). by split.
Qed.

Lemma wp_adopt t b oi g w :
  tg_accountId t = account → (∀ i, oi = Some i → accountId i = account) →
  wp (adoptMintAlreadyOnChain t b oi) g w confirmed.
Proof.
  intros Ht Hoi.
  unfold adoptMintAlreadyOnChain. destruct (negb _); [done|]. apply wp_bind.
  intros w1 V1 I1 O1. split; [done|]. intros hs g1 ? (-> & -> & Hs).
  destruct hs as [|h [|]]; simpl; try done.
  assert (succ w1 h) as S by (apply Hs; by left). apply wp_bind.
  destruct oi as [i|]; [by apply wp_record_found; [apply Hoi|]|].
  intros w2 V2 I2 O2. split; [done|]. intros now g2 ? (-> & _ & -> & ->).
  intros w3 V3 I3 O3. split; [done|]. intros [i created] g3 w4 H. cbn [exec] in H.
  assert (succ w3 h) as S3 by (by apply (ev_succ _ _ V3), (ev_succ _ _ V2)).
  rewrite Ht, String.eqb_refl in H. unfold createEscrowMintIntent in H.
  destruct (st_intent (w_store w3)); destruct H as (E & -> & ->); injection E as -> ->; [done|].
  by apply (wp_record_found (new_intent t (w_now w2) None)).
Qed.

(** A wallet that holds nothing has no successful mint, unless a position is on record. *)
Lemma balance_zero_legacy w : Inv w → 0 < amount → w_balance w = 0 → unless_recorded legacy_clean w.
Proof.
  intros I Hpos Hz. destruct (inv_holds w I Hpos Hz) as [?|Hm]; [by left|right].
  rewrite minted_zero in Hm. intros h t E Ez. pose proof (inv_legacy_done w I h t E Ez).
  specialize (Hm h). unfold succ in Hm. rewrite E in Hm. simpl in Hm.
  unfold failed. destruct (tx_state t); auto; done.
Qed.

(** A reverted recorded transaction was the only one its attempt could send. *)
Lemma reverted_dead w h a :
  Inv w → (1 <= a)%nat → rev w h → succ w h ∨ att w h a → dead a w.
Proof.
  intros I Ha Hr [Hs|Hatt].
  { unfold rev, succ in *. congruence. }
  split; [|left; by exists h]. intros h' t E Et.
  assert (h' = h) as ->.
  { apply (inv_unique w I h' h a); [rewrite <- Et; by apply lookup_att | done | done]. }
  unfold rev in Hr. rewrite E in Hr. simpl in Hr. left. by injection Hr.
Qed.

Lemma wp_resolveSentMint t i b g w :
  accountId i = account → (1 <= attempt i)%nat → (∀ h, mintTxHash i = Some h → succ w h ∨ att w h (attempt i)) →
  (b = 0 → unless_recorded legacy_clean w) → wp (resolveSentMint t i b) g w confirmed.
Proof.
  intros Hi Ha Hh Hb. unfold resolveSentMint. destruct (mintTxHash i) as [h|]; [|done].
  specialize (Hh h eq_refl). intros w1 V I O. split; [done|]. intros r g1 ? (-> & -> & ->).
  destruct (tx_state <$> w_txs w1 !! h) as [[]|] eqn:E; simpl; try done.
  destruct (b =? 0) eqn:Eb; [|done]. boolify. apply wp_restartMint; [done|].
  destruct (Hb Eb) as [Hr|L]; [left; by apply (ev_record _ _ V)|right].
  split; [|by apply (ev_legacy _ _ V)]. apply (reverted_dead w1 h); [done|done|done|].
  destruct Hh; [left; by apply (ev_succ _ _ V) | right; by apply (ev_att _ _ V)].
Qed.

(** The time assumption: the grace period outlasts the in-flight bound and the run. *)
Hypothesis grace_covers : maxPending + maxRun < grace.

Lemma wp_resolveInterruptedAttempt t i b g w tr :
  tg_accountId t = account → accountId i = account → g_read g = Some tr →
  (b = 0 → attemptedAt i + maxPending < tr → unless_recorded (λ w, dead (attempt i) w ∧ legacy_clean w) w) →
  wp (resolveInterruptedAttempt grace t i b) g w confirmed.
Proof.
  intros Ht Hi Hg Hd. unfold resolveInterruptedAttempt.
  destruct (b =? 0) eqn:Eb; simpl; [|apply wp_adopt; [done|by intros ? [= <-]]].
  boolify. intros w1 V I O. split; [done|]. intros now g1 ? (-> & Hrun & -> & ->). rewrite Hg in Hrun.
  destruct (_ <? _) eqn:Et; [done|]. boolify. apply wp_restartMint; [done|].
  apply (unless_recorded_evolve (λ w, dead (attempt i) w ∧ legacy_clean w) w); [exact V| |apply Hd; [done|lia]].
  intros [? ?]. split; [by apply (ev_dead _ _ V) | by apply (ev_legacy _ _ V)].
Qed.

(** What reading the intent establishes. *)
Lemma sending_settled w i :
  Inv w → st_intent (w_store w) = Some i → status i = sending →
  attemptedAt i + maxPending < w_now w → settled (attempt i) w.
Proof.
  intros I Hi Hs Hlt. pose proof (inv_intent w I) as H. rewrite Hi in H.
  destruct H as (_ & _ & _ & Hst & Hh & _). split; [|by eexists].
  intros h t E Et Ep. rewrite <- Et in Hst.
  assert (w_now w ≤ attemptedAt i + maxPending); [|lia].
  apply (inv_timely w I h t); [done|done| |done].
  unfold is_recorded_hash. rewrite Hi, (Hh Hs). by apply bool_decide_eq_false_2.
Qed.

Lemma settled_dead w a :
  Inv w → 0 < amount → w_balance w = 0 → settled a w → unless_recorded (dead a) w.
Proof.
  intros I Hpos Hz [Hp Ht]. destruct (inv_holds w I Hpos Hz) as [?|Hm]; [by left|right].
  rewrite minted_zero in Hm. split; [|by right]. intros h t E Et.
  specialize (Hm h). unfold succ in Hm. rewrite E in Hm. simpl in Hm. specialize (Hp h t E Et).
  unfold failed. destruct (tx_state t); auto; done.
Qed.

Definition confirmed_opt (m : option ConfirmedMint) (g : ghost) (w : world) : Prop :=
  match m with Some m => confirmed m g w | None => True end.

Lemma wp_obtainConfirmedMint t g w :
  tg_accountId t = account → 0 < amount → wp (obtainConfirmedMint grace t) g w confirmed_opt.
Proof.
  intros Ht Hpos w1 V1 I1 O1. split; [done|]. intros oi g1 ? (-> & -> & ->); [|done].
  intros w2 V2 I2 O2. split; [done|]. intros b g2 ? (-> & -> & ->).
  assert (w_balance w2 = 0 → unless_recorded legacy_clean w2) as Hl by (intros; by apply balance_zero_legacy).
  unfold findEscrowMintIntent. destruct (st_intent (w_store w1)) as [i|] eqn:Ei.
  2:{ apply wp_bind. destruct (_ =? 0) eqn:Eb; boolify.
      - eapply wp_mono; [|by apply wp_sendFirstMint; [|apply Hl]]. done.
      - eapply wp_mono; [|by apply wp_adopt]. done. }
  destruct (negb _); [done|].
  pose proof (inv_intent w1 I1) as Hi. rewrite Ei in Hi. destruct Hi as (Hacc & Ha & H1 & Hst & Hsend & _ & Hh).
  destruct (status i) eqn:Es.
  - apply wp_bind. eapply wp_mono; [|eapply wp_resolveInterruptedAttempt; [done|done|done|]]; [done|].
    intros Hz Hlt. destruct (Hl Hz) as [?|L]; [by left|].
    destruct (settled_dead w2 (attempt i)) as [?|D]; [done|done|done| |by left|by right].
    apply (ev_settled _ _ V2). by apply sending_settled.
  - apply wp_bind. eapply wp_mono; [|apply wp_resolveSentMint; [done|lia| |done]]; [done|].
    intros h Eh. destruct (Hh h Eh); [left; by apply (ev_succ _ _ V2) | right; by apply (ev_att _ _ V2)].
  - intros w3 V3 I3 O3. split; [done|]. intros found g3 ? (_ & -> & ->). by destruct found.
Qed.

Lemma wp_mintForContributor g w : wp body g w any.
Proof.
  intros w1 V1 I1 O1. split; [done|]. intros acc g1 ? ([->| ->] & -> & ->); [done|].
  intros w2 V2 I2 O2. split; [done|]. intros has g2 ? (_ & -> & ->). destruct has; [done|].
  intros w3 V3 I3 O3. split; [done|]. intros a g3 ? (-> & -> & ->).
  destruct (amount <=? 0) eqn:Ea; [done|]. boolify. apply wp_bind.
  eapply wp_mono; [|by apply wp_obtainConfirmedMint]. intros [m|] g4 w4 Hm; [|done].
  destruct Hm as [Hm S]. intros w5 V5 I5 O5. split; [by split; [|apply (ev_succ _ _ V5)]|]. done.
Qed.

(** ** Every interleaving *)

Record good (s : world * list thread) : Prop := {
  gd_inv : Inv s.1;
  gd_own : List.Forall (λ th, own_ok (th_ghost th) s.1) s.2;
  gd_claims : List.NoDup (omap (λ th, g_own (th_ghost th)) s.2);
  gd_wp : List.Forall (λ th, wp (th_prog th) (th_ghost th) s.1 any) s.2 }.

Definition claims (ths : list thread) : list nat := omap (λ th, g_own (th_ghost th)) ths.

Lemma claims_middle ths th r :
  claims (ths ++ th :: r) =
  claims ths ++ match g_own (th_ghost th) with Some a => [a] | None => [] end ++ claims r.
Proof.
  unfold claims. rewrite omap_app. f_equal. cbn. by destruct (g_own (th_ghost th)).
Qed.

Lemma claims_in ths a : In a (claims ths) → ∃ th, In th ths ∧ g_own (th_ghost th) = Some a.
Proof. intros H. apply list_elem_of_In, list_elem_of_omap in H as (th & Hth & E). exists th. by rewrite <- list_elem_of_In. Qed.

Lemma in_claims ths th a : In th ths → g_own (th_ghost th) = Some a → In a (claims ths).
Proof. intros H E. apply list_elem_of_In, list_elem_of_omap. exists th. by rewrite list_elem_of_In. Qed.

Lemma NoDup_drop_middle {A} (l m r : list A) : List.NoDup (l ++ m ++ r) → List.NoDup (l ++ r).
Proof.
  intros H. induction m as [|x m IH]; [done|]. apply IH. by apply NoDup_remove_1 in H.
Qed.

Lemma NoDup_put_middle {A} (l r : list A) x : List.NoDup (l ++ r) → ¬ In x (l ++ r) → List.NoDup (l ++ x :: r).
Proof.
  intros H Hx. eapply Permutation_NoDup; [apply Permutation_middle|]. by constructor.
Qed.

(** The other runs survive one run's call. *)
Lemma others_ok w w' g g' ths (th : thread) :
  call_ok g w g' w' → In th ths → own_ok (th_ghost th) w →
  (∀ a, g_own (th_ghost th) = Some a → g_own g ≠ Some a) → own_ok (th_ghost th) w'.
Proof.
  intros C Hin Ho Hne. unfold own_ok in *. destruct (g_own (th_ghost th)) as [a|] eqn:E; [|done].
  destruct Ho as [Hb Hno]. pose proof (co_current _ _ _ _ C). split; [lia|].
  apply (co_others _ _ _ _ C); [by apply Hne | lia | done].
Qed.

Lemma good_drop w ths th r : good (w, ths ++ th :: r) → good (w, ths ++ r).
Proof.
  intros [I O N W]. split; simpl in *; [done| | |].
  - apply List.Forall_app in O as [? O]. inversion O. by apply List.Forall_app.
  - fold (claims (ths ++ th :: r)) in N. rewrite claims_middle in N.
    apply NoDup_drop_middle in N. fold (claims (ths ++ r)). unfold claims. by rewrite omap_app.
  - apply List.Forall_app in W as [? W]. inversion W. by apply List.Forall_app.
Qed.

(** A call of one run, whatever then becomes of the run. *)
Lemma good_call w ths g r R (c : call R) k x g' w' :
  good (w, ths ++ mkThread (Do c k) g :: r) → exec c g w x g' w' →
  good (w', ths ++ mkThread (k x) g' :: r).
Proof.
  intros [I O N W] H. simpl in *. rewrite !List.Forall_app, !List.Forall_cons_iff in *.
  destruct O as (O1 & O0 & O2), W as (W1 & W0 & W2). simpl in O0, W0.
  destruct (W0 w ltac:(done) I O0) as [Hpre Hk]. pose proof (exec_ok c g w x g' w' I O0 Hpre H) as C.
  fold (claims (ths ++ mkThread (Do c k) g :: r)) in N. rewrite claims_middle in N. simpl in N.
  assert (∀ th, In th ths ∨ In th r → own_ok (th_ghost th) w) as Hown.
  { rewrite List.Forall_forall in O1, O2. naive_solver. }
  assert (∀ th a, In th ths ∨ In th r → g_own (th_ghost th) = Some a → g_own g ≠ Some a) as Hdist.
  { intros th a Hin Ea Eg. rewrite Eg in N. apply NoDup_remove_2 in N. apply N. rewrite in_app_iff.
    destruct Hin as [Hin|Hin]; [left|right]; by eapply in_claims. }
  assert (∀ th, In th ths ∨ In th r → own_ok (th_ghost th) w') as Hown'.
  { intros th Hin. eapply (others_ok _ _ _ _ [th] th C); [by left|by apply Hown|]. intros a Ea. by eapply Hdist. }
  split; simpl.
  - apply C.
  - rewrite List.Forall_app, List.Forall_cons_iff, !List.Forall_forall. split_and!; auto. apply C.
  - fold (claims (ths ++ mkThread (k x) g' :: r)). rewrite claims_middle. simpl.
    destruct (co_claim _ _ _ _ C) as [->|[->|(a & -> & Ha)]]; [done|by eapply NoDup_drop_middle|].
    apply NoDup_put_middle; [by eapply NoDup_drop_middle|]. rewrite in_app_iff.
    intros [Hin|Hin]; apply claims_in in Hin as (th & Hth & Ea).
    + specialize (Hown th (or_introl Hth)). unfold own_ok in Hown. rewrite Ea in Hown. lia.
    + specialize (Hown th (or_intror Hth)). unfold own_ok in Hown. rewrite Ea in Hown. lia.
  - rewrite List.Forall_app, List.Forall_cons_iff, !List.Forall_forall in *.
    split_and!; [|by apply Hk|]; intros th Hth; (eapply wp_evolve; [apply C|auto]).
Qed.

(** The chain and the clock. *)
Lemma good_env w w' ths :
  good (w, ths) → evolve w w' → Inv w' → current w' = current w → (∀ h a, att w' h a → att w h a) →
  good (w', ths).
Proof.
  intros [I O N W] V I' Hc Ha. split; simpl in *; [done| |done|].
  - eapply List.Forall_impl; [|exact O]. intros th. simpl. unfold own_ok.
    destruct (g_own _) as [a|]; [|done]. rewrite Hc. intros [? Hno]. split; [done|].
    intros h Hh. by apply (Hno h), Ha.
  - eapply List.Forall_impl; [|exact W]. intros th. by apply wp_evolve.
Qed.

Lemma good_step s s' : good s → wstep s s' → good s'.
Proof.
  intros G H. destruct H as [w ths|w l R c k g r ths x g' w' -> H|w ths th r|w R c k g ths r x g' w' H
    |w ths h t st E Ep Hst|w ths b Hb Hc|w ths now' Hle Hg].
  - destruct G as [I O N W]. split; simpl in *; [done| | |].
    + apply List.Forall_app. split; [done|]. by repeat constructor.
    + rewrite omap_app. cbn. by rewrite app_nil_r.
    + apply List.Forall_app. split; [done|]. constructor; [|constructor]. apply wp_mintForContributor.
  - by eapply good_call.
  - by eapply good_drop.
  - eapply (good_drop w' ths (mkThread (k x) g') r). by eapply good_call.
  - eapply good_env; [done|by apply evolve_mine|apply inv_mine; try done; apply G|done|].
    intros h' a. pose proof (lookup_lt_Some _ _ _ E). unfold att. simpl.
    destruct (decide (h' = h)) as [->|Hn]; [by rewrite list_lookup_insert_eq, E | by rewrite list_lookup_insert_ne].
  - eapply good_env; [done|by apply evolve_same_txs|by apply inv_move; [apply G| |]|done|done].
  - eapply good_env; [done|by apply evolve_same_txs|apply inv_tick; try done; apply G|done|done].
Qed.

(** ** From an empty record *)

Lemma filter_at_most_one {A} (p : A → bool) l :
  (∀ i j x y, l !! i = Some x → l !! j = Some y → p x = true → p y = true → i = j) ↔
  (length (List.filter p l) <= 1)%nat.
Proof.
  induction l as [|x l IH]; simpl; [split; [lia|done]|]. destruct (p x) eqn:Ep; simpl.
  - split.
    + intros H. assert (List.filter p l = []) as ->; [|done]. apply filter_nil. intros y Hy.
      apply list_elem_of_In, list_elem_of_lookup in Hy as [i Hi]. apply not_true_iff_false. intros Hp.
      specialize (H 0%nat (S i) x y eq_refl Hi Ep Hp). done.
    + intros Hlen. assert (List.filter p l = []) as Hnil by (apply nil_length_inv; lia).
      assert (∀ i y, l !! i = Some y → p y = false) as Hno.
      { intros i y Hi. apply not_true_iff_false. intros Hp.
        assert (In y (List.filter p l)) as Hin
          by (apply filter_In; split; [by eapply list_elem_of_In, list_elem_of_lookup_2 | done]).
        by rewrite Hnil in Hin. }
      intros [|i] [|j] y z Hi Hj Hy Hz; simpl in *; [done| | |]; exfalso;
        (by rewrite (Hno _ _ Hj) in Hz) || (by rewrite (Hno _ _ Hi) in Hy).
  - rewrite <- IH. split; intros H.
    + intros i j y z Hi Hj Hy Hz. specialize (H (S i) (S j) y z Hi Hj Hy Hz). lia.
    + intros [|i] [|j] y z Hi Hj Hy Hz; simpl in *; [done|congruence|congruence|].
      f_equal. by eapply H.
Qed.

Lemma succ_state w h t : w_txs w !! h = Some t → bool_decide (tx_state t = succeeded) = true → succ w h.
Proof. intros E Hs. boolify. unfold succ. rewrite E. simpl. by rewrite Hs. Qed.

Lemma initial_good w : initial w → good (w, []).
Proof.
  intros (Hs & Ha & Ht & Hone & Hb & Hz0).
  assert (∀ h a, att w h a → a = 0%nat) as Hz.
  { intros h a (t & E & <-)%att_lookup. by apply (Ht h t E). }
  split; simpl; try by constructor.
  split.
  - rewrite Hs. done.
  - rewrite Hs. by left.
  - intros h a Hh. apply Hz in Hh. lia.
  - intros h h' a Hh _ Hp. apply Hz in Hh. lia.
  - intros a. unfold current. rewrite Ha. simpl. lia.
  - intros (h & a & Hh & Hp). apply Hz in Hh. lia.
  - intros h t E _. by apply (Ht h t E).
  - intros h h' _ _ Hh Hh'. unfold minted_count in Hone. rewrite <- filter_at_most_one in Hone.
    apply succ_lookup in Hh as (t & E & Es), Hh' as (t' & E' & Es').
    eapply Hone; [done|done|by apply bool_decide_eq_true_2..].
  - intros h t at_ E Ep. by destruct (Ht h t E).
  - done.
  - intros _ Hz'. right. by apply Hz0.
Qed.

Lemma steps_good s s' : good s → rtc wstep s s' → good s'.
Proof. intros G H. induction H; [done|]. eauto using good_step. Qed.

Lemma inv_minted_once w : Inv w → (minted_count w <= 1)%nat.
Proof.
  intros I. apply filter_at_most_one. intros i j x y Hx Hy Px Py.
  apply (at_most_one w); [done|by eapply succ_state..].
Qed.

End World.

(** C4: exactly-once minting.  Whatever runs start, overlap, crash or lose an answer at any
    call, and however the chain treats each transaction, a contributor's tokens are never
    successfully minted twice, at most one position is recorded, and it records a mint that
    did succeed; under three provisos.  The grace period is longer than the time a mint can
    stay in flight unrecorded plus the time a run takes from reading the intent to checking
    its age.  Every run that finds an account for the wallet finds the same one (the lookup
    takes the first registration of the address in any letter case).  Tokens may move in and
    out of the wallet at any time, but no burn or transfer leaves it empty while it holds a
    mint that no position records: that wallet would be minted again, as the service's own
    comment on burn and forceTransfer says. *)
Theorem escrow_mint_exactly_once grace maxPending maxRun amount account wallet contract token w0 w ths :
  maxPending + maxRun < grace → initial w0 →
  rtc (wstep grace maxPending maxRun amount account wallet contract token) (w0, []) (w, ths) →
  (minted_count w <= 1)%nat ∧ (length (st_positions (w_store w)) <= 1)%nat ∧
  ∀ h, In h (st_positions (w_store w)) → succ w h.
Proof.
  intros Hg H0 H. pose proof (steps_good _ _ _ _ _ _ _ _ Hg _ _ (initial_good _ _ _ _ _ H0) H) as [I _ _ _].
  simpl in I. split; [by eapply inv_minted_once|].
  destruct (inv_positions _ _ _ _ I) as [->|(h & -> & Hs)]; simpl; [by split; [lia|]|].
  split; [lia|]. by intros h' [<-|[]].
Qed.

(** Driving the world by hand: [the_call x] lets the only run make its call and be answered
    [x]. *)
Ltac the_call x :=
  eapply rtc_l;
  [ lazymatch goal with
    | |- wstep ?gr ?mp ?mr ?am ?ac ?wa ?co ?to (?w, [mkThread ?p ?g]) _ =>
        lazymatch eval hnf in p with
        | @Do _ ?R ?c ?k =>
            eapply (ws_call gr mp mr am ac wa co to w (mkThread (Do c k) g) R c k g [] [] x);
            [reflexivity | cbn; first [eexists; split_and!; reflexivity | repeat split; try reflexivity; try (intros _; reflexivity); try lia; try (right; reflexivity)]]
        end
    end
  | cbn ].
Ltac a_run_starts := eapply rtc_l; [apply ws_start | cbn].
Ltac time_is t := eapply rtc_l; [apply (ws_tick _ _ _ _ _ _ _ _ _ _ t); simpl; [lia|] | cbn].

Definition fresh_world : world := mkWorld 0 (mkStore None []) [] [] 0.

Lemma fresh_world_initial : initial fresh_world.
Proof. split_and!; try done. unfold minted_count. simpl. lia. Qed.

Ltac is_mined h a :=
  eapply rtc_l; [eapply (ws_mine _ _ _ _ _ _ _ _ _ _ h (mkTx pending a) succeeded); [reflexivity|reflexivity|done] | cbn].
Ltac tokens_move b := eapply rtc_l; [apply (ws_move _ _ _ _ _ _ _ _ _ _ b) | cbn].
Ltac the_run_dies := eapply rtc_l; [apply (ws_crash _ _ _ _ _ _ _ _ _ [] _ []) | cbn].

Definition demo_target : MintTarget := mkTarget "alice" "0xa" "0xc" 7 100.

(** A run that dies after its mint was accepted but before the hash was recorded, and a later
    one that finds the tokens on chain and records them; then the holder sells them all. *)
Lemma crash_and_reconcile :
  ∃ w ths, rtc (wstep ESCROW_MINT_IN_FLIGHT_GRACE_MS 1000000 5000 100 "alice" "0xa" "0xc" 7)
      (fresh_world, []) (w, ths) ∧
    minted_count w = 1%nat ∧ st_positions (w_store w) = [0%nat].
Proof.
  eexists _, _. split.
  { a_run_starts. the_call (Some "alice"). the_call false. the_call 100.
    the_call (@None EscrowMintIntent). the_call 0. the_call true. the_call 50. the_call 0.
    the_call (new_intent demo_target 0 (Some 18), true). the_call 0%nat. the_run_dies.
    is_mined 0%nat 1%nat.
    a_run_starts. the_call (Some "alice"). the_call false. the_call 100.
    the_call (Some (new_intent demo_target 0 (Some 18))). the_call 100. the_call [0%nat].
    { intros h [<-|[]]. reflexivity. }
    the_call tt. the_call tt. tokens_move 0. { lia. } { by left. } apply rtc_refl. }
  split; reflexivity.
Qed.

Lemma escrow_mint_exactly_once_witness :
  ∃ w, (minted_count w <= 1)%nat ∧ st_positions (w_store w) = [0%nat] ∧ succ w 0.
Proof.
  destruct crash_and_reconcile as (w & ths & H & _ & Hp). exists w.
  destruct (escrow_mint_exactly_once ESCROW_MINT_IN_FLIGHT_GRACE_MS 1000000 5000 100 "alice" "0xa" "0xc" 7
    fresh_world w ths ltac:(unfold ESCROW_MINT_IN_FLIGHT_GRACE_MS; lia) fresh_world_initial H) as (H1 & _ & H3).
  split; [exact H1|]. split; [exact Hp|]. apply H3. rewrite Hp. left. reflexivity.
Defined.

(** The margin in that proviso is needed: the service reads the balance before it reads
    the clock that decides whether an attempt is old enough, so when a mint lands between
    the two reads, even within the grace period, the run starts a second attempt and the
    contributor is minted twice. *)
Theorem escrow_mint_race_without_margin :
  ∃ w ths, rtc (wstep ESCROW_MINT_IN_FLIGHT_GRACE_MS 1799000 5000 100 "alice" "0xa" "0xc" 7)
      (fresh_world, []) (w, ths) ∧ minted_count w = 2%nat.
Proof.
  eexists _, _. split.
  { a_run_starts. the_call (Some "alice"). the_call false. the_call 100.
    the_call (@None EscrowMintIntent). the_call 0. the_call true. the_call 50. the_call 0.
    the_call (new_intent demo_target 0 (Some 18), true). the_call 0%nat. the_run_dies.
    time_is 1799000.
    { intros [|h] t at_ E; [injection E as <-|by destruct h]. intros _ _ [= <-]. lia. }
    a_run_starts. the_call (Some "alice"). the_call false. the_call 100.
    the_call (Some (new_intent demo_target 0 (Some 18))). the_call 0.
    is_mined 0%nat 1%nat.
    time_is 1800000.
    { intros [|h] t at_ E; [injection E as <-|by destruct h]. done. }
    the_call 1800000. the_call true. the_call 1800000. the_call true. the_call 1%nat.
    is_mined 1%nat 2%nat. apply rtc_refl. }
  reflexivity.
Qed.

End EscrowWorld.
