(* ===== verification/Settlement.v ===== *)
(** The settlement module around the mint protocol: the confirmation of wallet
    registrations (confirm-wallet-registrations.service.ts) and the reads of
    prisma-settlement.repository.ts the campaign job starts from.  Campaigns themselves are
    in EscrowCampaign, the minting of one contributor in EscrowMint. *)

From S2P Require Import Prelude JsString Currency Db EscrowMint.

Module Settlement.
Import EscrowMint.

(** ** Repository reads *)

Definition equals_insensitive (a b : string) : bool := bool_decide (JsString.toLowerCase a = JsString.toLowerCase b).

Definition findPivsWithPassedIpoDeadline (now : Z) (s : db) : list (string * string) :=
  omap (λ p, match Piv.tokenId p, find_row (by_id IntakeCase.id (Piv.caseId p)) (cases s) with
             | Some token, Some c =>
                 match IntakeCase.ipoEndAt c with
                 | Some e => if e <=? now then Some (Piv.id p, JsString.BigInt_toString token) else None
                 | None => None
                 end
             | _, _ => None
             end) (pivs s).

Definition resolveAccountIdForWallet (wallet : string) (s : db) : option string :=
  WalletRegistration.accountId <$>
    find_row (λ r, equals_insensitive (WalletRegistration.walletAddress r) wallet) (walletRegistrations s).

Definition hasPosition (pivId accountId : string) (s : db) : bool :=
  exists_row (λ p, bool_decide (Position.pivId p = pivId) && bool_decide (Position.accountId p = accountId))
    (positions s).

(** ** Wallet registrations *)

Record registry := mkRegistry { rg_db : db; rg_cursor : option Z }.

Definition MAX_BLOCK_RANGE_PER_RUN : Z := 2000.
Definition WALLET_REGISTRY_RESCAN_OVERLAP_BLOCKS : Z := 32.
Definition WALLET_REGISTRY_CONFIRMATION_DEPTH : Z := 3.

Definition findPendingWalletRegistrationByCommitment (commitment : string) (s : db)
    : option WalletRegistration.t :=
  find_row (λ r, equals_insensitive (WalletRegistration.registrationCommitment r) commitment &&
                 bool_decide (WalletRegistration.registeredAt r = None)) (walletRegistrations s).

Definition countPendingWalletRegistrationsBefore (cutoff : Z) (s : db) : nat :=
  length (List.filter (λ r, bool_decide (WalletRegistration.registeredAt r = None) &&
                            (WalletRegistration.requestedAt r <? cutoff)) (walletRegistrations s)).

Definition register (at_ : Z) (r : WalletRegistration.t) : WalletRegistration.t :=
  WalletRegistration.mk (WalletRegistration.accountId r) (WalletRegistration.walletAddress r)
    (WalletRegistration.registrationCommitment r) (WalletRegistration.requestedAt r) (Some at_)
    (WalletRegistration.registrationTxHash r) (WalletRegistration.registrationBlockNumber r).

Definition confirmWalletRegistration (accountId : string) (at_ : Z) (s : db) : db :=
  set_walletRegistrations
    (update_where (by_id WalletRegistration.accountId accountId) (register at_) (walletRegistrations s)) s.

Section Watch.
Context (ulid : nat → string).

Definition recordWalletRegistrationAddressMismatch (accountId commitment stored onchain : string)
    (at_ : Z) (s : db) : db :=
  let '(auditId, s) := fresh ulid "audit_" s in
  audit_create (AuditLog.mk auditId None "settlement.wallet_registration_address_mismatch"
    "wallet_registration" accountId
    [("commitment", JStr commitment); ("stored_wallet_address", JStr stored); ("onchain_sender", JStr onchain)]
    at_) s.

(** A WalletRegistered log: its two arguments, each of which may be missing. *)
Record RegisteredEvent := mkEvent { ev_wallet : option string; ev_commitment : option string }.

Record WatchSummary := mkWatchSummary {
  ws_fromBlock : Z; ws_toBlock : Z; ws_eventsFound : nat; ws_confirmed : nat; ws_unmatched : nat;
  ws_mismatches : nat; ws_overdue : nat }.

(** the range one run may scan *)
Definition scan_from (cursor : option Z) (safeLatestBlock : Z) : Z :=
  match cursor with
  | None => safeLatestBlock
  | Some c => if WALLET_REGISTRY_RESCAN_OVERLAP_BLOCKS <? c
              then c - WALLET_REGISTRY_RESCAN_OVERLAP_BLOCKS + 1 else 0
  end.

Definition scan_to (fromBlock safeLatestBlock : Z) : Z :=
  if MAX_BLOCK_RANGE_PER_RUN <? safeLatestBlock - fromBlock
  then fromBlock + MAX_BLOCK_RANGE_PER_RUN else safeLatestBlock.

Definition watch_event (now : Z) (counts : nat * nat * nat) (event : RegisteredEvent) (s : db)
    : (nat * nat * nat) * db :=
  let '(confirmed, unmatched, mismatches) := counts in
  match ev_wallet event, ev_commitment event with
  | Some wallet, Some commitment =>
      match findPendingWalletRegistrationByCommitment commitment s with
      | None => ((confirmed, S unmatched, mismatches), s)
      | Some pending =>
          if negb (equals_insensitive (WalletRegistration.walletAddress pending) wallet)
          then ((confirmed, unmatched, S mismatches),
                recordWalletRegistrationAddressMismatch (WalletRegistration.accountId pending) commitment
                  (WalletRegistration.walletAddress pending) wallet now s)
          else ((S confirmed, unmatched, mismatches),
                confirmWalletRegistration (WalletRegistration.accountId pending) now s)
      end
  | _, _ => (counts, s)
  end.

Fixpoint watch_events (now : Z) (counts : nat * nat * nat) (events : list RegisteredEvent) (s : db)
    : (nat * nat * nat) * db :=
  match events with
  | [] => (counts, s)
  | e :: events => let '(counts, s) := watch_event now counts e s in watch_events now counts events s
  end.

(** [latest] and [getEvents] are the chain's head and log query; either may throw. *)
Definition ConfirmWalletRegistrations_execute (latest : result Z)
    (getEvents : Z → Z → result (list RegisteredEvent)) (now pendingWarnAfterMs : Z)
    : io registry WatchSummary :=
  await latestBlock := lift latest in
  await cursor := query (λ s, Ok (rg_cursor s)) in
  await overdue := query (λ s, Ok (countPendingWalletRegistrationsBefore (now - pendingWarnAfterMs) (rg_db s))) in
  let safeLatestBlock := latestBlock - WALLET_REGISTRY_CONFIRMATION_DEPTH in
  let fromBlock := scan_from cursor safeLatestBlock in
  if (safeLatestBlock <? 0) || (safeLatestBlock <? fromBlock)
  then ret (mkWatchSummary fromBlock safeLatestBlock 0 0 0 0 overdue)
  else
    let toBlock := scan_to fromBlock safeLatestBlock in
    await events := lift (getEvents fromBlock toBlock) in
    await counts := (λ s, let '(counts, d) := watch_events now (0, 0, 0)%nat events (rg_db s) in
                          (Ok counts, mkRegistry d (rg_cursor s))) in
    let '(confirmed, unmatched, mismatches) := counts in
    await _ := (λ s, (Ok tt, mkRegistry (rg_db s) (Some toBlock))) in
    ret (mkWatchSummary fromBlock toBlock (length events) confirmed unmatched mismatches overdue).

(** *** No block is skipped *)

Lemma scan_range cursor head :
  let from := scan_from cursor head in let to := scan_to from head in
  0 ≤ head → from ≤ head →
  from ≤ to ∧ to ≤ head ∧ to - from ≤ MAX_BLOCK_RANGE_PER_RUN ∧
  match cursor with
  | None => from = head
  | Some c => 0 ≤ c → 0 ≤ from ∧ from ≤ c + 1 ∧ (c < head → c < to)
  end.
Proof.
  intros from to H0 Hle. unfold to, scan_to.
  assert (match cursor with None => from = head | Some c => 0 ≤ c → 0 ≤ from ∧ from ≤ c + 1 ∧ c - from ≤ 32 end)
    as Hf.
  { unfold from, scan_from, WALLET_REGISTRY_RESCAN_OVERLAP_BLOCKS. destruct cursor as [c|]; [|done].
    destruct (32 <? c) eqn:E; boolify; lia. }
  unfold MAX_BLOCK_RANGE_PER_RUN in *. destruct (2000 <? head - from) eqn:E; boolify;
    (split; [lia|]; split; [lia|]; split; [lia|]; destruct cursor as [c|]; [|lia]; lia).
Qed.

(** *** Only a matching sender confirms *)

(** how one run may change the registrations *)
Definition reg_evolves (events : list RegisteredEvent) (r r' : WalletRegistration.t) : Prop :=
  r' = r ∨ ∃ at_ e wallet commitment, r' = register at_ r ∧ WalletRegistration.registeredAt r = None ∧
    In e events ∧ ev_wallet e = Some wallet ∧ ev_commitment e = Some commitment ∧
    equals_insensitive (WalletRegistration.walletAddress r) wallet = true ∧
    equals_insensitive (WalletRegistration.registrationCommitment r) commitment = true.

Lemma watch_event_evolves now counts e s all :
  List.NoDup (map WalletRegistration.accountId (walletRegistrations s)) → In e all →
  Forall2 (reg_evolves all) (walletRegistrations s) (walletRegistrations (watch_event now counts e s).2).
Proof.
  intros Hnd Hin. unfold watch_event. destruct counts as [[c u] m].
  assert (Forall2 (reg_evolves all) (walletRegistrations s) (walletRegistrations s)) as Hsame
    by (apply Forall2_same; by left).
  destruct (ev_wallet e) as [wallet|] eqn:Ew; [|done]. destruct (ev_commitment e) as [cm|] eqn:Ec; [|done].
  destruct (findPendingWalletRegistrationByCommitment cm s) as [p|] eqn:Ep; [|done].
  destruct (equals_insensitive _ wallet) eqn:Eq; simpl; [|done].
  apply find_row_Some in Ep as [Hp Hm]. boolify.
  assert (∀ l, (∀ r, In r l → In r (walletRegistrations s)) → Forall2 (reg_evolves all) l
    (update_where (by_id WalletRegistration.accountId (WalletRegistration.accountId p)) (register now) l)) as Hupd.
  { induction l as [|r l IH]; intros Hl; [constructor|]. rewrite update_where_cons.
    constructor; [|apply IH; intros; apply Hl; by right].
    unfold by_id. case_bool_decide as E; [|by left].
    assert (r = p) as -> by (eapply NoDup_map_inj_in; [exact Hnd|apply Hl; by left|done|done]).
    right. exists now, e, wallet, cm. by split_and!. }
  by apply Hupd.
Qed.

Lemma reg_evolves_trans all r r' r'' : reg_evolves all r r' → reg_evolves all r' r'' → reg_evolves all r r''.
Proof.
  intros [->|(a & e & w & c & -> & H)] [->|(a' & e' & w' & c' & -> & H')]; [by left| | |].
  - right. by eexists _, _, _, _.
  - right. by eexists _, _, _, _.
  - simpl in H'. destruct H' as [H' _]. done.
Qed.

Lemma watch_events_evolves now events all : (∀ e, In e events → In e all) → ∀ counts s,
  List.NoDup (map WalletRegistration.accountId (walletRegistrations s)) →
  Forall2 (reg_evolves all) (walletRegistrations s) (walletRegistrations (watch_events now counts events s).2).
Proof.
  induction events as [|e events IH]; intros Hin counts s Hnd; simpl.
  { apply Forall2_same. by left. }
  pose proof (watch_event_evolves now counts e s all Hnd (Hin e (or_introl eq_refl))) as H1.
  destruct (watch_event now counts e s) as [counts' s'] eqn:E. simpl in H1.
  assert (map WalletRegistration.accountId (walletRegistrations s') =
          map WalletRegistration.accountId (walletRegistrations s)) as Hids.
  { clear -H1. induction H1 as [|r r' l l' H _ IH]; simpl; [done|]. rewrite IH. f_equal.
    destruct H as [->|(? & ? & ? & ? & -> & _)]; done. }
  assert (Forall2 (reg_evolves all) (walletRegistrations s')
    (walletRegistrations (watch_events now counts' events s').2)) as H2.
  { apply IH; [intros; apply Hin; by right | by rewrite Hids]. }
  eapply Forall2_compose; [apply reg_evolves_trans | exact H1 | exact H2].
Qed.

End Watch.

(** The wallet watcher skips no block: whenever a run scans, its range is non-empty, at
    most two thousand blocks long, at least three confirmations behind the head, starts no
    later than the block after the stored cursor, and moves the cursor forward whenever
    there is a confirmed block beyond it; the cursor it leaves is the end of its range. *)
Theorem watcher_skips_no_block ulid latest getEvents now warn s c sum s' :
  rg_cursor s = Some c → 0 ≤ c →
  ConfirmWalletRegistrations_execute ulid (Ok latest) getEvents now warn s = (Ok sum, s') →
  let safe := latest - 3 in
  (rg_cursor s' = Some c ∧ (safe < 0 ∨ safe < ws_fromBlock sum)) ∨
  (rg_cursor s' = Some (ws_toBlock sum) ∧ 0 ≤ ws_fromBlock sum ≤ c + 1 ∧
   ws_fromBlock sum ≤ ws_toBlock sum ≤ safe ∧ ws_toBlock sum - ws_fromBlock sum ≤ 2000 ∧
   (c < safe → c < ws_toBlock sum)).
Proof.
  intros Hc Hpos H safe. unfold ConfirmWalletRegistrations_execute in H. inv_io H.
  rewrite Hc in H. change (latest - WALLET_REGISTRY_CONFIRMATION_DEPTH) with safe in H.
  destruct (_ || _) eqn:E in H.
  - apply ret_ok in H as [-> ->]. left. simpl. split; [done|]. apply orb_true_iff in E as [E|E]; boolify; auto.
  - boolify. destruct (scan_range (Some c) safe) as (R1 & R2 & R3 & R4); [lia|lia|].
    destruct (R4 Hpos) as (R5 & R6 & R7).
    unfold iobind, lift in H. destruct (getEvents _ _) as [events|]; [|done].
    destruct (watch_events _ _ _ _ _) as [[[n1 n2] n3] d]. injection H as <- <-. right. simpl.
    unfold MAX_BLOCK_RANGE_PER_RUN in R3. by split_and!.
Qed.

Lemma watcher_skips_no_block_witness :
  ∃ sum s', ConfirmWalletRegistrations_execute (λ _, "u") (Ok 5000) (λ _ _, Ok []) 0 300000
      (mkRegistry (mkDb [] [] [] [] [] [] [] [] [] [] [] [] [] 0 1) (Some 100)) = (Ok sum, s') ∧
    ws_fromBlock sum ≤ 101 ∧ 100 < ws_toBlock sum.
Proof.
  destruct (ConfirmWalletRegistrations_execute (λ _, "u") (Ok 5000) (λ _ _, Ok []) 0 300000
      (mkRegistry (mkDb [] [] [] [] [] [] [] [] [] [] [] [] [] 0 1) (Some 100))) as [[sum|e] s'] eqn:E.
  2:{ exfalso. vm_compute in E. discriminate E. }
  exists sum, s'. split; [reflexivity|].
  destruct (watcher_skips_no_block (λ _, "u") 5000 (λ _ _, Ok []) 0 300000
    (mkRegistry (mkDb [] [] [] [] [] [] [] [] [] [] [] [] [] 0 1) (Some 100)) 100 sum s'
    eq_refl ltac:(lia) E) as [[_ H]|(_ & H & _ & _ & H')].
  - vm_compute in E. injection E as <- <-. simpl in H. lia.
  - split; [lia|]. apply H'. lia.
Defined.

(** A wallet registration is confirmed only by an on-chain event that carries its own
    commitment and was sent from its own stored address; a confirmed registration never
    changes again, so rescanning the overlap confirms nothing twice, and an event from
    another address leaves the registration pending. *)
Theorem watcher_confirms_only_matching ulid latest events now warn s :
  List.NoDup (map WalletRegistration.accountId (walletRegistrations (rg_db s))) →
  let s' := (ConfirmWalletRegistrations_execute ulid latest (λ _ _, Ok events) now warn s).2 in
  Forall2 (reg_evolves events) (walletRegistrations (rg_db s)) (walletRegistrations (rg_db s')) ∧
  Forall2 (λ r r', WalletRegistration.registeredAt r ≠ None → r' = r)
    (walletRegistrations (rg_db s)) (walletRegistrations (rg_db s')).
Proof.
  intros Hnd s'.
  assert (Forall2 (reg_evolves events) (walletRegistrations (rg_db s)) (walletRegistrations (rg_db s'))) as H.
  { unfold s', ConfirmWalletRegistrations_execute, iobind, lift, query.
    assert (Forall2 (reg_evolves events) (walletRegistrations (rg_db s)) (walletRegistrations (rg_db s))) as Hsame
      by (apply Forall2_same; by left).
    destruct latest as [b|]; [|done]. destruct (_ || _); [done|].
    pose proof (watch_events_evolves ulid now events events (λ e H, H) (0, 0, 0)%nat (rg_db s) Hnd) as H.
    destruct (watch_events _ _ _ _ _) as [[[n1 n2] n3] d]. exact H. }
  split; [done|]. eapply Forall2_impl; [exact H|].
  intros r r' [->|(at_ & e & w & c & -> & Hn & _)] Hr; [done|by destruct Hr].
Qed.

Definition demo_registry : registry :=
  mkRegistry (mkDb [] [] [] [] [] [] [] [] [] []
    [WalletRegistration.mk "alice" "0xAb" "0xC1" 0 None None None; WalletRegistration.mk "bob" "0xb0" "0xC2" 0 None None None] [] [] 0 1)
    (Some 100).

Lemma watcher_confirms_only_matching_witness :
  let events := [mkEvent (Some "0xab") (Some "0xc1"); mkEvent (Some "0xEE") (Some "0xc2")] in
  let s' := (ConfirmWalletRegistrations_execute (λ _, "u") (Ok 500) (λ _ _, Ok events) 7 300000 demo_registry).2 in
  map WalletRegistration.registeredAt (walletRegistrations (rg_db s')) = [Some 7; None] ∧
  Forall2 (reg_evolves events) (walletRegistrations (rg_db demo_registry)) (walletRegistrations (rg_db s')).
Proof.
  intros events s'. split; [vm_compute; reflexivity|].
  apply (watcher_confirms_only_matching (λ _, "u") (Ok 500) events 7 300000 demo_registry).
  vm_compute. repeat constructor; simpl; intuition discriminate.
Defined.

End Settlement.
