(* ===== verification/Wallet.v ===== *)
(** The wallet module (src/src/modules/wallet): registering an investor's address, its confirmation from the chain by the
    watcher of [Settlement] or by staff, the readers of balances, and the preparation of a transfer; with the verifier of
    src/src/infrastructure/blockchain/wallet-registration-verifier.ts.

    What the chain answers is an argument.  A row of wallet_registrations is the RegisteredWallet the repository returns. *)

From Stdlib Require Import Ascii String.
From S2P Require Import Prelude JsString Currency DateTime IntakePolicy Db OfferingPolicy OfferingInv OfferingDemo EscrowMint Settlement.

Module Wallet.
Import Settlement.

(** ** Errors *)

Definition on_chain_registration_unavailable : error := AppError "wallet.on_chain_registration_unavailable" 503 [].
Definition kyc_required : error := AppError "identity.kyc_required" 403 [].
Definition registration_address_mismatch : error := AppError "wallet.registration_address_mismatch" 409 [].
Definition address_already_claimed : error := AppError "wallet.address_already_claimed" 409 [].
Definition wallet_not_registered : error := AppError "wallet.not_registered" 404 [].
Definition walletAccountNotFoundError : error := AppError "wallet.account_not_found" 404 [].
Definition piv_not_held : error := AppError "wallet.piv_not_held" 404 [].
Definition token_paused : error := AppError "wallet.token_paused" 422 [].
Definition recipient_not_authorized : error := AppError "wallet.recipient_not_authorized" 422 [].
Definition insufficient_balance : error := AppError "wallet.insufficient_balance" 422 [].

(** WalletAddressConflictError, by its reason *)
Inductive AddressConflict := address_mismatch | address_claimed.

Definition walletConflictError (reason : AddressConflict) : error :=
  match reason with address_mismatch => registration_address_mismatch | address_claimed => address_already_claimed end.

(** ** The repository (prisma-wallet.repository.ts) *)

Section Repository.
Context (ulid : nat → string).

Definition audited (actor : option string) (action resourceType resourceId : string) (changes : list (string * json)) (at_ : Z) :
    txn db unit := λ s,
  let '(k, s) := fresh ulid "audit_" s in Ok (tt, audit_create (AuditLog.mk k actor action resourceType resourceId changes at_) s).

(** [walletRegistration.create]: one row per account, one account per address *)
Definition wallet_create (r : WalletRegistration.t) : txn db unit := λ s,
  if exists_row (by_id WalletRegistration.accountId (WalletRegistration.accountId r)) (walletRegistrations s) ||
     exists_row (by_id WalletRegistration.walletAddress (WalletRegistration.walletAddress r)) (walletRegistrations s)
  then Err (Thrown "P2002")
  else if negb (exists_row (by_id Account.id (WalletRegistration.accountId r)) (accounts s)) then Err (Thrown "P2003")
  else Ok (tt, set_walletRegistrations (walletRegistrations s ++ [r]) s).

Definition findByAccountId (accountId : string) (s : db) : option WalletRegistration.t :=
  find_row (by_id WalletRegistration.accountId accountId) (walletRegistrations s).

(** The conflict is thrown out of the transaction, which has written nothing by then. *)
Definition registerWallet (accountId walletAddress commitment : string) (requestedAt : Z) :
    txn db (AddressConflict + WalletRegistration.t) :=
  do! existing := tread (findByAccountId accountId) in
  match existing with
  | Some r =>
      if bool_decide (WalletRegistration.walletAddress r = walletAddress) then tret (inr r)
      else
      do! claimedByOther := tread (λ s, find_row (by_id WalletRegistration.walletAddress walletAddress) (walletRegistrations s)) in
      match claimedByOther with
      | Some c => if negb (bool_decide (WalletRegistration.accountId c = accountId)) then tret (inl address_claimed)
                  else tret (inl address_mismatch)
      | None => tret (inl address_mismatch)
      end
  | None =>
      do! claimedByOther := tread (λ s, find_row (by_id WalletRegistration.walletAddress walletAddress) (walletRegistrations s)) in
      match claimedByOther with
      | Some c =>
          if negb (bool_decide (WalletRegistration.accountId c = accountId)) then tret (inl address_claimed) else tthrow (Thrown "P2002")
      | None =>
          let created := WalletRegistration.mk accountId walletAddress commitment requestedAt None None None in
          do! _ := wallet_create created in
          do! _ := audited (Some accountId) "settlement.wallet_registration_requested" "account" accountId
                     [("wallet_address", JStr walletAddress)] requestedAt in
          tret (inr created)
      end
  end.

Definition getStatus (accountId : string) (s : db) : option (Z * option Z) :=
  (λ r, (WalletRegistration.requestedAt r, WalletRegistration.registeredAt r)) <$> findByAccountId accountId s.

Definition with_evidence (txHash : string) (blockNumber registeredAt : Z) (r : WalletRegistration.t) : WalletRegistration.t :=
  WalletRegistration.mk (WalletRegistration.accountId r) (WalletRegistration.walletAddress r)
    (WalletRegistration.registrationCommitment r) (WalletRegistration.requestedAt r) (Some registeredAt) (Some txHash) (Some blockNumber).

Definition reconcileWalletRegistration (accountId txHash : string) (blockNumber registeredAt : Z) (actor : string) :
    txn db WalletRegistration.t := λ s,
  match findByAccountId accountId s with
  | None => Err (Thrown "P2025")
  | Some r =>
      if exists_row (λ q, negb (bool_decide (WalletRegistration.accountId q = accountId)) &&
                          bool_decide (WalletRegistration.registrationTxHash q = Some txHash)) (walletRegistrations s)
      then Err (Thrown "P2002")
      else
      (do! _ := twrite (λ s, set_walletRegistrations (update_where (by_id WalletRegistration.accountId accountId)
                  (with_evidence txHash blockNumber registeredAt) (walletRegistrations s)) s) in
       do! _ := audited (Some actor) "settlement.wallet_registration_reconciled" "wallet_registration" accountId
                  [("tx_hash", JStr txHash); ("block_number", JStr (JsString.BigInt_toString blockNumber)); ("registered_at", JDate registeredAt)]
                  registeredAt in
       tret (with_evidence txHash blockNumber registeredAt r)) s
  end.

End Repository.

(** [listTokenHoldings]: the PIVs with a token the account has a position in, each once *)
Fixpoint distinct_piv (l : list (string * string)) (seen : list string) : list (string * string) :=
  match l with
  | [] => []
  | h :: l => if bool_decide (h.1 ∈ seen) then distinct_piv l seen else h :: distinct_piv l (h.1 :: seen)
  end.

Definition holding (s : db) (p : Position.t) : option (string * string) :=
  match find_row (by_id Piv.id (Position.pivId p)) (pivs s) with
  | Some v => match Piv.tokenId v with Some t => Some (Piv.id v, JsString.BigInt_toString t) | None => None end
  | None => None
  end.

Definition listTokenHoldings (accountId : string) (s : db) : list (string * string) :=
  distinct_piv (omap (holding s) (List.filter (λ p, bool_decide (Position.accountId p = accountId)) (positions s))) [].

(** ** The chain verifier (wallet-registration-verifier.ts) *)

(** A log: its emitter, and the WalletRegistered arguments it decodes to, if it does. *)
Record Log := mkLog { lg_address : string; lg_registered : option (string * string * Z) }.
Record Receipt := mkReceipt { rc_success : bool; rc_blockNumber : Z; rc_logs : list Log }.

Definition log_matches (registry walletAddress commitment : string) (l : Log) : option Z :=
  if negb (equals_insensitive (lg_address l) registry) then None
  else match lg_registered l with
       | Some (wallet, c, timestamp) =>
           if negb (equals_insensitive wallet walletAddress) || negb (equals_insensitive c commitment) then None else Some timestamp
       | None => None
       end.

Definition verify (registry : string) (receipt : result Receipt) (latest : result Z) (walletAddress commitment : string) : result (Z * Z) :=
  let! r := receipt in
  if negb (rc_success r) then Err (Thrown "reverted")
  else
  let! head_ := latest in
  if head_ <? rc_blockNumber r + 3 then Err (Thrown "not sufficiently confirmed")
  else match head (omap (log_matches registry walletAddress commitment) (rc_logs r)) with
       | Some timestamp => Ok (rc_blockNumber r, timestamp * 1000)
       | None => Err (Thrown "no matching event")
       end.

(** ** The services *)

Section Services.
Context (ulid : nat → string).

Definition kyc_eligible (kyc : option KycEligibility.t) (now : Z) : bool :=
  match kyc with
  | Some k => bool_decide (KycEligibility.eligibilityState k = "eligible") &&
              match KycEligibility.renewalDueAt k with Some due => now <? due | None => false end
  | None => false
  end.

(** [commitment] is the random value of generateCommitment *)
Definition RegisterWallet_execute (registry : option string) (commitment accountId walletAddress : string) (now : Z) :
    io db WalletRegistration.t :=
  match registry with
  | None => throw on_chain_registration_unavailable
  | Some _ =>
      await kyc := query (λ s, Ok (find_kyc accountId s)) in
      if negb (kyc_eligible kyc now) then throw kyc_required
      else
      await r := transaction (registerWallet ulid accountId walletAddress commitment now) in
      match r with inl reason => throw (walletConflictError reason) | inr wallet => ret wallet end
  end.

(** [evidence] is what the verifier answers for the stored address and commitment *)
Definition ReconcileWalletRegistration_execute (evidence : string → string → result (Z * Z)) (accountId txHash actor : string) :
    io db WalletRegistration.t :=
  await wallet := query (λ s, Ok (findByAccountId accountId s)) in
  match wallet with
  | None => throw walletAccountNotFoundError
  | Some w =>
      if negb (bool_decide (WalletRegistration.registeredAt w = None)) &&
         bool_decide (WalletRegistration.registrationTxHash w = Some txHash) then ret w
      else
      await e := lift (evidence (WalletRegistration.walletAddress w) (WalletRegistration.registrationCommitment w)) in
      transaction (reconcileWalletRegistration ulid accountId txHash e.1 e.2 actor)
  end.

End Services.

Definition GetWalletStatus_execute (accountId : string) (s : db) : result WalletRegistration.t :=
  match findByAccountId accountId s with Some w => Ok w | None => Err wallet_not_registered end.

Definition GetWalletAccountForOperations_execute (accountId : string) (s : db) : result WalletRegistration.t :=
  match findByAccountId accountId s with Some w => Ok w | None => Err walletAccountNotFoundError end.

Record WalletBalance := mkBalance { wb_address : string; wb_capitalEurc : string; wb_tokens : list (string * string * string) }.

(** [tokenBalances[index]!.toString()] throws where the reader answered fewer balances than it was asked for *)
Definition token_row (hb : (string * string) * option Z) : result (string * string * string) :=
  match hb.2 with Some b => Ok (hb.1, JsString.BigInt_toString b) | None => Err (Thrown "TypeError") end.

Definition GetWalletBalance_execute (getCapitalBalance : string → result Z) (getTokenBalances : string → list string → result (list Z))
    (accountId : string) (s : db) : result WalletBalance :=
  match findByAccountId accountId s with
  | None => Err wallet_not_registered
  | Some w =>
      let holdings := listTokenHoldings accountId s in
      let! capitalMicros := getCapitalBalance (WalletRegistration.walletAddress w) in
      let! balances := if bool_decide (holdings = []) then Ok []
                       else getTokenBalances (WalletRegistration.walletAddress w) (map snd holdings) in
      let! tokens := rmap token_row (imap (λ i h, (h, balances !! i)) holdings) in
      Ok (mkBalance (WalletRegistration.walletAddress w) (Currency.fromEurcMicros capitalMicros) tokens)
  end.

Record TransferChain := mkTransferChain {
  getTokenBalance : string → string → result Z; isHolderAuthorized : string → string → result bool; isTokenPaused : string → result bool }.

(** The transaction that is prepared: buildTransferRequest only encodes these *)
Record PreparedTransfer := mkTransfer { tr_pivId : string; tr_tokenId : string; tr_amount : string; tr_from : string; tr_to : string }.

Definition RequestWalletTransfer_execute (chain : TransferChain) (accountId pivId toWalletAddress amountText : string) (s : db) :
    result PreparedTransfer :=
  match findByAccountId accountId s with
  | None => Err wallet_not_registered
  | Some w =>
      match find_row (λ h, bool_decide (h.1 = pivId)) (listTokenHoldings accountId s) with
      | None => Err piv_not_held
      | Some h =>
          let! balance := getTokenBalance chain (WalletRegistration.walletAddress w) h.2 in
          let! recipientAuthorized := isHolderAuthorized chain toWalletAddress h.2 in
          let! tokenPaused := isTokenPaused chain h.2 in
          if tokenPaused then Err token_paused
          else if negb recipientAuthorized then Err recipient_not_authorized
          else
          let! amount := JsString.BigInt amountText in
          if balance <? amount then Err insufficient_balance
          else Ok (mkTransfer h.1 h.2 amountText (WalletRegistration.walletAddress w) toWalletAddress)
      end
  end.

(** ** Registrations over time

    [onchain wallet commitment]: the registry contract emitted WalletRegistered with these arguments, which only
    [wallet] itself can make it do. *)

Definition same_claim (r r' : WalletRegistration.t) : Prop :=
  WalletRegistration.accountId r' = WalletRegistration.accountId r ∧ WalletRegistration.walletAddress r' = WalletRegistration.walletAddress r ∧
  WalletRegistration.registrationCommitment r' = WalletRegistration.registrationCommitment r ∧
  WalletRegistration.requestedAt r' = WalletRegistration.requestedAt r.

Section Machine.
Context (ulid : nat → string) (onchain : string → string → Prop).

Definition proven (r : WalletRegistration.t) : Prop :=
  ∃ wallet commitment, onchain wallet commitment ∧ equals_insensitive (WalletRegistration.walletAddress r) wallet = true ∧
    equals_insensitive (WalletRegistration.registrationCommitment r) commitment = true.

(** A row of the table after a step: the same claim, confirmed only by a proof. *)
Definition row_step (r r' : WalletRegistration.t) : Prop :=
  same_claim r r' ∧ (r' = r ∨ (is_Some (WalletRegistration.registeredAt r') ∧ proven r)).

Definition truthful_receipt (registry : string) (receipt : result Receipt) : Prop :=
  ∀ r l w c t, receipt = Ok r → In l (rc_logs r) → equals_insensitive (lg_address l) registry = true →
    lg_registered l = Some (w, c, t) → onchain w c.

Inductive wallet_step : db → db → Prop :=
  | ws_register registry commitment acc addr now s :
      wallet_step s (RegisterWallet_execute ulid registry commitment acc addr now s).2
  | ws_watch now counts events s :
      (∀ e w c, In e events → ev_wallet e = Some w → ev_commitment e = Some c → onchain w c) →
      wallet_step s (watch_events ulid now counts events s).2
  | ws_reconcile registry receipt latest acc tx actor s : truthful_receipt registry receipt →
      wallet_step s (ReconcileWalletRegistration_execute ulid (verify registry receipt latest) acc tx actor s).2
  | ws_other s s' : walletRegistrations s' = walletRegistrations s → wallet_step s s'.

Record table_ok (l : list WalletRegistration.t) : Prop := {
  one_per_account : List.NoDup (map WalletRegistration.accountId l);
  one_per_address : List.NoDup (map WalletRegistration.walletAddress l);
  registered_proven : ∀ r, In r l → is_Some (WalletRegistration.registeredAt r) → proven r }.

Lemma row_step_same l : Forall2 row_step l l.
Proof. apply Forall2_same. intros r. by split; [|left]. Qed.

Lemma rows_step_ok l l' : table_ok l → Forall2 row_step l l' → table_ok l'.
Proof.
  intros [H1 H2 H3] H.
  assert (map WalletRegistration.accountId l' = map WalletRegistration.accountId l ∧
          map WalletRegistration.walletAddress l' = map WalletRegistration.walletAddress l) as [E1 E2].
  { clear -H. induction H as [|r r' l l' [(Ea & Eb & _) _] _ [IH1 IH2]]; [done|]. simpl. by rewrite Ea, Eb, IH1, IH2. }
  constructor; [by rewrite E1 | by rewrite E2|]. intros r' Hr' Hreg.
  destruct (Forall2_In_r _ _ _ _ H Hr') as (r & Hr & (_ & Ea & Ec & _) & [->|[_ Hp]]); [by apply H3|].
  destruct Hp as (w & c & ? & ? & ?). exists w, c. by rewrite Ea, Ec.
Qed.

(** What a step does to the table: it moves rows, or appends one unconfirmed row for an account whose verification is current. *)
Definition table_step (s : db) (l' : list WalletRegistration.t) : Prop :=
  Forall2 row_step (walletRegistrations s) l' ∨
  ∃ r, l' = walletRegistrations s ++ [r] ∧ WalletRegistration.registeredAt r = None ∧
    kyc_eligible (find_kyc (WalletRegistration.accountId r) s) (WalletRegistration.requestedAt r) = true ∧
    (∀ q, In q (walletRegistrations s) → WalletRegistration.accountId q ≠ WalletRegistration.accountId r ∧
       WalletRegistration.walletAddress q ≠ WalletRegistration.walletAddress r).

Lemma registerWallet_table acc addr cm now s x s' : registerWallet ulid acc addr cm now s = Ok (x, s') →
  walletRegistrations s' = walletRegistrations s ∨
  (walletRegistrations s' = walletRegistrations s ++ [WalletRegistration.mk acc addr cm now None None None] ∧
   ∀ q, In q (walletRegistrations s) → WalletRegistration.accountId q ≠ acc ∧ WalletRegistration.walletAddress q ≠ addr).
Proof.
  unfold registerWallet. intros H. apply tbind_ok in H as (ex & s1 & H1 & H). apply tread_ok in H1 as [-> ->].
  destruct (findByAccountId acc s) as [r|] eqn:Er.
  { left. case_bool_decide; inv_tx H; done. }
  apply tbind_ok in H as (c & s1 & H1 & H). apply tread_ok in H1 as [-> ->].
  destruct (find_row _ _) as [c|] eqn:Ec in H; [left; inv_tx H; done|]. inv_tx H. unfold wallet_create in Htx.
  destruct (_ || _) in Htx; [done|]. destruct (negb _) in Htx; [done|]. injection Htx as <- <-. unfold audited in Htx0.
  injection Htx0 as _ <-. right. split; [done|]. intros q Hq.
  pose proof (proj1 (find_row_None _ _) Er q Hq) as E1. pose proof (proj1 (find_row_None _ _) Ec q Hq) as E2.
  unfold by_id in E1, E2. by boolify.
Qed.

Lemma verify_proves registry receipt latest addr cm e : truthful_receipt registry receipt →
  verify registry receipt latest addr cm = Ok e →
  ∃ w c, onchain w c ∧ equals_insensitive addr w = true ∧ equals_insensitive cm c = true.
Proof.
  unfold verify. intros Ht H. apply rbind_ok in H as (r & -> & H). destruct (negb _); [done|]. apply rbind_ok in H as (h & _ & H).
  destruct (_ <? _); [done|]. destruct (head _) as [t|] eqn:Eh in H; [|done].
  assert (In t (omap (log_matches registry addr cm) (rc_logs r))) as Hin by (destruct (omap _ _); simplify_eq/=; by left).
  apply list_elem_of_In, list_elem_of_omap in Hin as (l & Hl & Hm). apply list_elem_of_In in Hl. unfold log_matches in Hm.
  destruct (equals_insensitive (lg_address l) registry) eqn:Ea; simpl in Hm; [|done].
  destruct (lg_registered l) as [[[w c] t']|] eqn:El; [|done]. destruct (_ || _) eqn:Eo in Hm; [done|]. boolify.
  exists w, c. split; [by eapply Ht|]. unfold equals_insensitive in *. boolify. by split; apply bool_decide_eq_true_2.
Qed.

Lemma reg_evolves_row events r r' :
  (∀ e w c, In e events → ev_wallet e = Some w → ev_commitment e = Some c → onchain w c) →
  reg_evolves events r r' → row_step r r'.
Proof.
  intros Hev [->|(at_ & e & w & c & -> & _ & Hin & Hw & Hc & Ea & Ec)]; [by split; [|left]|].
  split; [done|]. right. split; [by eexists|]. exists w, c. split; [by eapply Hev|]. done.
Qed.

Lemma wallet_step_table s s' : wallet_step s s' → table_ok (walletRegistrations s) → table_step s (walletRegistrations s').
Proof.
  intros H Hok. destruct H as [registry cm acc addr now s | now counts events s Hev | registry receipt latest acc tx actor s Ht | s s' E].
  - unfold RegisterWallet_execute. destruct registry; [|left; apply row_step_same]. simpl.
    unfold iobind, query. destruct (kyc_eligible (find_kyc acc s) now) eqn:Ek; simpl; [|left; apply row_step_same]. unfold transaction.
    destruct (registerWallet _ _ _ _ _ s) as [[x s1]|e] eqn:E; [|left; apply row_step_same].
    replace (walletRegistrations _) with (walletRegistrations s1) by (by destruct x).
    destruct (registerWallet_table _ _ _ _ _ _ _ E) as [->|[-> Hq]]; [left; apply row_step_same|]. right.
    eexists. split; [done|]. by split; [|split].
  - left. pose proof (watch_events_evolves ulid now events events (λ e H, H) counts s (one_per_account _ Hok)) as H.
    eapply Forall2_impl; [exact H|]. intros r r'. by apply reg_evolves_row.
  - left. unfold ReconcileWalletRegistration_execute, iobind, query, lift, transaction. simpl.
    destruct (findByAccountId acc s) as [w|] eqn:Ew; [|apply row_step_same]. destruct (_ && _); [apply row_step_same|].
    destruct (verify _ _ _ _ _) as [e|] eqn:Ee; [|apply row_step_same]. unfold reconcileWalletRegistration. rewrite Ew.
    destruct (exists_row _ _); [apply row_step_same|]. cbn [tbind twrite audited fresh tret snd walletRegistrations].
    apply find_row_Some in Ew as [Hw Ha]. unfold by_id in Ha. boolify.
    destruct (verify_proves _ _ _ _ _ _ Ht Ee) as (ww & c & Hon & E1 & E2).
    assert (∀ l, (∀ r, In r l → In r (walletRegistrations s)) → Forall2 row_step l
      (update_where (by_id WalletRegistration.accountId acc) (with_evidence tx e.1 e.2) l)) as Hu.
    { induction l as [|r l IH]; intros Hl; [constructor|]. rewrite update_where_cons. constructor; [|apply IH; intros; apply Hl; by right].
      unfold by_id. case_bool_decide as E; [|by split; [|left]].
      assert (r = w) as -> by (eapply NoDup_map_inj_in; [exact (one_per_account _ Hok)|apply Hl; by left|done|congruence]).
      split; [done|]. right. split; [by eexists|]. by exists ww, c. }
    by apply Hu.
  - left. rewrite E. apply row_step_same.
Qed.

Lemma wallet_table_step_ok s l' : table_ok (walletRegistrations s) → table_step s l' → table_ok l'.
Proof.
  intros Hok [H|(r & -> & Hn & _ & Hq)]; [by eapply rows_step_ok|]. destruct Hok as [H1 H2 H3].
  constructor; rewrite ?map_app; simpl.
  - apply NoDup_snoc; [done|]. intros (q & E & Hin)%in_map_iff. by destruct (Hq q Hin).
  - apply NoDup_snoc; [done|]. intros (q & E & Hin)%in_map_iff. by destruct (Hq q Hin).
  - intros x [Hx|[<-|[]]]%in_app_iff [t Ht]; [by eapply H3; [|eexists] | congruence].
Qed.

(** Claims survive: each row is found again with its address, and confirmed if it was. *)
Definition claims_kept (l l' : list WalletRegistration.t) : Prop :=
  ∀ r, In r l → ∃ r', In r' l' ∧ same_claim r r' ∧
    (is_Some (WalletRegistration.registeredAt r) → is_Some (WalletRegistration.registeredAt r')).

Lemma table_step_kept s l' : table_step s l' → claims_kept (walletRegistrations s) l'.
Proof.
  intros [H|(x & -> & _)] r Hr; [|exists r; split; [apply in_app_iff; by left | done]].
  induction H as [|a b l l' [Hc Hs] _ IH]; [done|]. destruct Hr as [->|Hr].
  - exists b. split; [by left|]. split; [done|]. destruct Hs as [->|[? _]]; auto.
  - destruct (IH Hr) as (r' & ? & ?). exists r'. split; [by right | done].
Qed.

Lemma table_step_origin s l' r : table_step s l' → In r l' →
  (∃ q, In q (walletRegistrations s) ∧ same_claim q r) ∨
  kyc_eligible (find_kyc (WalletRegistration.accountId r) s) (WalletRegistration.requestedAt r) = true.
Proof.
  intros [H|(x & -> & _ & Hk & _)] Hr.
  - destruct (Forall2_In_r _ _ _ _ H Hr) as (q & Hq & Hc & _). left. by exists q.
  - apply in_app_iff in Hr as [Hr|[<-|[]]]; [left; by exists r | by right].
Qed.

Lemma claims_kept_trans l1 l2 l3 : claims_kept l1 l2 → claims_kept l2 l3 → claims_kept l1 l3.
Proof.
  intros H1 H2 r Hr. destruct (H1 r Hr) as (r' & Hr' & (Ea & Eb & Ec & Ed) & E1). destruct (H2 r' Hr') as (r'' & Hr'' & (Fa & Fb & Fc & Fd) & E2).
  exists r''. split; [done|]. split; [|auto]. unfold same_claim. by rewrite Fa, Fb, Fc, Fd.
Qed.

(** C27: whatever interleaving of registration requests, watcher runs and staff reconciliations happens, an account has one
    wallet and a wallet address, letter for letter, one account; a wallet counts as registered only if the registry contract
    emitted that wallet's own event for the commitment handed to that account; a claim never disappears, its
    account, address and commitment never change, and once confirmed it stays confirmed (a staff reconciliation may replace the
    time, transaction and block of a confirmation); and a step adds a claim only for an account whose identity verification is
    current at that time, a request being one step (the service reads the verification just before its transaction). *)
Theorem registered_wallets_are_proven s0 s s' :
  walletRegistrations s0 = [] → rtc wallet_step s0 s → rtc wallet_step s s' →
  table_ok (walletRegistrations s) ∧ claims_kept (walletRegistrations s) (walletRegistrations s') ∧
  (∀ s1 r, wallet_step s s1 → In r (walletRegistrations s1) →
     (∃ q, In q (walletRegistrations s) ∧ same_claim q r) ∨
     kyc_eligible (find_kyc (WalletRegistration.accountId r) s) (WalletRegistration.requestedAt r) = true).
Proof.
  intros H0 Hr Hr'.
  assert (∀ a b, rtc wallet_step a b → table_ok (walletRegistrations a) →
    table_ok (walletRegistrations b) ∧ claims_kept (walletRegistrations a) (walletRegistrations b)) as Hrun.
  { induction 1 as [a|a b c Hab _ IH]; intros Ha; [split; [done|]; intros r Hrr; by exists r|].
    pose proof (wallet_step_table _ _ Hab Ha) as Ht. pose proof (wallet_table_step_ok _ _ Ha Ht) as Hb. destruct (IH Hb) as [Hc Hk].
    split; [done|]. eapply claims_kept_trans; [by apply table_step_kept | exact Hk]. }
  destruct (Hrun _ _ Hr) as [Hok _]; [rewrite H0; by constructor; [constructor..|]|].
  split; [done|]. split; [by apply Hrun|]. intros s1 r H1 Hin. eapply table_step_origin; [by apply wallet_step_table | done].
Qed.

End Machine.

End Wallet.

Module WalletDemo.
Import Settlement Wallet OfferingInv OfferingSteps OfferingDemo.

Definition verified (account : string) : KycEligibility.t := KycEligibility.mk account "eligible" (Some 1000) (Some 1000).

Definition address_lower : string := "0xa11ceaaaaaaaaaaaaaaaaaaaaaaaaaaaaaaaaaaa".
Definition address_upper : string := "0xA11CEAAAAAAAAAAAAAAAAAAAAAAAAAAAAAAAAAAA".

Definition w0 : db := empty_db [person "alice"; person "mallory"] [verified "alice"; verified "mallory"] [] [].
Definition w1 : db := (RegisterWallet_execute demo_ulid (Some "0xRe6") "0xC1" "alice" address_upper 10 w0).2.
Definition w2 : db := (watch_events demo_ulid 20 (0, 0, 0)%nat [mkEvent (Some address_lower) (Some "0xc1")] w1).2.

Definition demo_chain (wallet commitment : string) : Prop := wallet = address_lower ∧ commitment = "0xc1".

Lemma w_register : wallet_step demo_ulid demo_chain w0 w1.
Proof. apply ws_register. Qed.

Lemma w_watch : wallet_step demo_ulid demo_chain w1 w2.
Proof. apply ws_watch. by intros e w c [<-|[]] [= <-] [= <-]. Qed.

Lemma registered_wallets_are_proven_witness :
  map WalletRegistration.registeredAt (walletRegistrations w2) = [Some 20] ∧
  table_ok demo_chain (walletRegistrations w1) ∧ claims_kept (walletRegistrations w1) (walletRegistrations w2).
Proof.
  split; [vm_compute; reflexivity|].
  destruct (registered_wallets_are_proven demo_ulid demo_chain w0 w1 w2 eq_refl (rtc_once _ _ w_register) (rtc_once _ _ w_watch))
    as (H1 & H2 & _).
  exact (conj H1 H2).
Defined.

(** The same address in another letter case, claimed first and never confirmed. *)
Definition m1 : db := (RegisterWallet_execute demo_ulid (Some "0xRe6") "0xC9" "mallory" address_lower 5 w0).2.
Definition m2 : db := (RegisterWallet_execute demo_ulid (Some "0xRe6") "0xC1" "alice" address_upper 10 m1).2.
Definition m3 : db := (watch_events demo_ulid 20 (0, 0, 0)%nat [mkEvent (Some address_upper) (Some "0xC1")] m2).2.

(** The uniqueness of a wallet address is letter for letter while the reconciliation of positions looks the address up
    in any letter case and without asking that the claim is confirmed: after mallory claims alice's address in lower case,
    alice still registers it in her own case and proves it on the chain, mallory's claim stays unproven, and yet the
    position bought from that wallet resolves to mallory's account. *)
Theorem unproven_claim_takes_the_position :
  map (λ r, (WalletRegistration.accountId r, WalletRegistration.registeredAt r)) (walletRegistrations m3) =
    [("mallory", None); ("alice", Some 20)] ∧
  resolveAccountIdForWallet address_upper m3 = Some "mallory".
Proof. split; vm_compute; reflexivity. Qed.

End WalletDemo.
