(* ===== verification/EscrowCampaign.v ===== *)
(** Escrow campaigns: processCampaign and execute of finalize-ipo-escrow-campaigns.service.ts
    and open-ipo-escrow-campaign.service.ts, over the campaign state machine of
    src/contracts/contracts/VistaBloxIpoEscrow.sol.  Finalizing and sweeping a campaign are
    permissionless, so anybody may act on it between two chain calls of the job.  Minting one
    contributor is the protocol of EscrowMint; here it is any computation on its own state. *)

From S2P Require Import Prelude JsString Db EscrowMint Settlement.

Module EscrowCampaign.
Import EscrowMint.

(** ** The contract *)

(** CampaignState, in the contract's order. *)
Definition CAMPAIGN_STATE_NOT_OPENED : Z := 0.
Definition CAMPAIGN_STATE_OPEN : Z := 1.
Definition CAMPAIGN_STATE_SUCCESSFUL : Z := 2.
Definition CAMPAIGN_STATE_FAILED : Z := 3.

Record Campaign := mkCampaign {
  targetAmount : Z; totalRaised : Z; deadline : Z; treasury : string; state : Z; swept : bool }.

Definition ZERO_ADDRESS : string := "0x0000000000000000000000000000000000000000".
Definition no_campaign : Campaign := mkCampaign 0 0 0 ZERO_ADDRESS 0 false.

(** [None] is a revert. *)
Definition openCampaign (timestamp target dl : Z) (tr : string) (c : Campaign) : option Campaign :=
  if negb (state c =? CAMPAIGN_STATE_NOT_OPENED) then None
  else if target =? 0 then None
  else if bool_decide (tr = ZERO_ADDRESS) then None
  else if dl <=? timestamp then None
  else Some (mkCampaign target 0 dl tr CAMPAIGN_STATE_OPEN false).

Definition set_state (st : Z) (c : Campaign) : Campaign :=
  mkCampaign (targetAmount c) (totalRaised c) (deadline c) (treasury c) st (swept c).

(** [paused] is the contract's pause switch. *)
Definition finalize (paused : bool) (timestamp : Z) (c : Campaign) : option Campaign :=
  if paused then None
  else if negb (state c =? CAMPAIGN_STATE_OPEN) then None
  else if timestamp <? deadline c then None
  else Some (set_state (if targetAmount c <=? totalRaised c
                        then CAMPAIGN_STATE_SUCCESSFUL else CAMPAIGN_STATE_FAILED) c).

(** [transferred] says whether the EURC transfer to the treasury goes through. *)
Definition withdrawRaised (paused transferred : bool) (c : Campaign) : option Campaign :=
  if paused then None
  else if negb (state c =? CAMPAIGN_STATE_SUCCESSFUL) then None
  else if swept c then None
  else if negb transferred then None
  else Some (mkCampaign (targetAmount c) (totalRaised c) (deadline c) (treasury c) (state c) true).

Definition extendDeadline (timestamp newDeadline : Z) (c : Campaign) : option Campaign :=
  if negb (state c =? CAMPAIGN_STATE_OPEN) then None
  else if newDeadline <=? timestamp then None
  else Some (mkCampaign (targetAmount c) (totalRaised c) newDeadline (treasury c) (state c) (swept c)).

Definition contribute (paused transferred : bool) (timestamp amount : Z) (c : Campaign) : option Campaign :=
  if paused then None
  else if negb (state c =? CAMPAIGN_STATE_OPEN) then None
  else if deadline c <=? timestamp then None
  else if amount =? 0 then None
  else if targetAmount c - totalRaised c <? amount then None
  else if negb transferred then None
  else Some (mkCampaign (targetAmount c) (totalRaised c + amount) (deadline c) (treasury c) (state c) (swept c)).

(** A transaction of anybody on one campaign. *)
Inductive transaction (c c' : Campaign) : Prop :=
  | tx_open now target dl tr : openCampaign now target dl tr c = Some c' → transaction c c'
  | tx_extend now dl : extendDeadline now dl c = Some c' → transaction c c'
  | tx_contribute p t now amount : contribute p t now amount c = Some c' → transaction c c'
  | tx_finalize p now : finalize p now c = Some c' → transaction c c'
  | tx_sweep p t : withdrawRaised p t c = Some c' → transaction c c'.

(** What no transaction undoes. *)
Record advances (c c' : Campaign) : Prop := {
  adv_swept : state c ≠ CAMPAIGN_STATE_NOT_OPENED → swept c = true → swept c' = true;
  adv_successful : state c = CAMPAIGN_STATE_SUCCESSFUL → state c' = CAMPAIGN_STATE_SUCCESSFUL;
  adv_failed : state c = CAMPAIGN_STATE_FAILED → state c' = CAMPAIGN_STATE_FAILED;
  adv_opened : state c ≠ CAMPAIGN_STATE_NOT_OPENED → state c' ≠ CAMPAIGN_STATE_NOT_OPENED }.

#[export] Instance advances_preorder : PreOrder advances.
Proof. split; [by intros c; split | intros a b c [] []; split; auto]. Qed.

Lemma transaction_advances c c' : transaction c c' → advances c c'.
Proof.
  intros [now target dl tr H|now dl H|p t now amount H|p now H|p t H]; revert H;
    unfold openCampaign, extendDeadline, contribute, finalize, withdrawRaised;
    repeat (case_match; try done); intros [= <-]; boolify;
    split; simpl; intros; try done;
    unfold CAMPAIGN_STATE_OPEN, CAMPAIGN_STATE_SUCCESSFUL, CAMPAIGN_STATE_FAILED, CAMPAIGN_STATE_NOT_OPENED in *; lia.
Qed.

Lemma transactions_advance c c' : rtc transaction c c' → advances c c'.
Proof. induction 1; [done|]. etrans; [by apply transaction_advances|done]. Qed.

(** ** The service *)

(** [errors] holds, for each campaign that threw, its piv_id, its token_id and the message
    the entry is built from. *)
Record Summary := mkSummary {
  campaignsFinalized : nat; campaignsSuccessful : nat; campaignsFailed : nat;
  positionsMinted : nat; mintsReconciled : nat; errors : list (string * string * string) }.

Section Service.
(** [X] is the state of the mint protocol, [db_of] the rows of it the service queries.
    [mintForContributor] is one run of the protocol; [contributorsOf] reads the contract.
    Of the [n]th chain call: [rpc n name token] says whether it throws (a node failure),
    [timestamp n] is its block time, [paused n] and [transferred n] the pause switch and
    whether an EURC transfer succeeds, and [others n] what anybody else has done to each
    campaign since the call before. *)
Context {X : Type} (db_of : X → db) (mintForContributor : string → Z → string → io X MintOutcome).
Context (contributorsOf : Z → list string) (timestamp : nat → Z) (rpc : nat → string → Z → option error).
Context (paused transferred : nat → bool) (others : nat → Z → Campaign → Campaign).

(** The chain's campaigns, the mint protocol's state, the job's summary object, which keeps
    its counts when a campaign throws, and the transactions the job has asked to send. *)
Record cworld := mkCWorld {
  cw_campaigns : Z → Campaign; cw_mint : X; cw_summary : Summary; cw_calls : nat; cw_sent : list (string * Z) }.

Definition modify (f : Summary → Summary) : io cworld unit := λ w,
  (Ok tt, mkCWorld (cw_campaigns w) (cw_mint w) (f (cw_summary w)) (cw_calls w) (cw_sent w)).

Definition call_rpc (name : string) (token : Z) : io cworld unit := λ w,
  let w' := mkCWorld (λ t, others (cw_calls w) t (cw_campaigns w t)) (cw_mint w) (cw_summary w)
              (S (cw_calls w)) (cw_sent w) in
  match rpc (cw_calls w) name token with Some e => (Err e, w') | None => (Ok tt, w') end.

Definition readCampaign (token : Z) : io cworld Campaign :=
  await _ := call_rpc "campaignOf" token in query (λ w, Ok (cw_campaigns w token)).

Definition note_sent (name : string) (token : Z) : io cworld unit := λ w,
  (Ok tt, mkCWorld (cw_campaigns w) (cw_mint w) (cw_summary w) (cw_calls w) (cw_sent w ++ [(name, token)])).

Definition is_mined (f : nat → Campaign → option Campaign) (token : Z) : io cworld bool := λ w,
  match f (cw_calls w) (cw_campaigns w token) with
  | Some c => (Ok true, mkCWorld (λ t, if t =? token then c else cw_campaigns w t) (cw_mint w) (cw_summary w)
                          (cw_calls w) (cw_sent w))
  | None => (Ok false, w)
  end.

(** A write, its effect on the chain and the wait for its receipt: [false] when it reverted. *)
Definition send_tx (name : string) (f : nat → Campaign → option Campaign) (token : Z) : io cworld bool :=
  await _ := note_sent name token in
  await _ := call_rpc name token in
  await ok := is_mined f token in
  await _ := call_rpc "waitForTransactionReceipt" token in
  ret ok.

Definition on_mint {A} (m : io X A) : io cworld A := λ w,
  let '(r, x) := m (cw_mint w) in (r, mkCWorld (cw_campaigns w) x (cw_summary w) (cw_calls w) (cw_sent w)).

Definition count_finalized (s : Summary) := mkSummary (S (campaignsFinalized s)) (campaignsSuccessful s)
  (campaignsFailed s) (positionsMinted s) (mintsReconciled s) (errors s).
Definition count_successful (s : Summary) := mkSummary (campaignsFinalized s) (S (campaignsSuccessful s))
  (campaignsFailed s) (positionsMinted s) (mintsReconciled s) (errors s).
Definition count_failed (s : Summary) := mkSummary (campaignsFinalized s) (campaignsSuccessful s)
  (S (campaignsFailed s)) (positionsMinted s) (mintsReconciled s) (errors s).
Definition count_outcome (o : MintOutcome) (s : Summary) :=
  mkSummary (campaignsFinalized s) (campaignsSuccessful s) (campaignsFailed s)
    (match o with skipped => positionsMinted s | _ => S (positionsMinted s) end)
    (match o with reconciled => S (mintsReconciled s) | _ => mintsReconciled s end) (errors s).
Definition push_error (candidate : string * string) (message : string) (s : Summary) :=
  mkSummary (campaignsFinalized s) (campaignsSuccessful s) (campaignsFailed s) (positionsMinted s)
    (mintsReconciled s) (errors s ++ [(candidate, message)]).

Definition mint_one (pivId : string) (token : Z) (_ : unit) (wallet : string) : io cworld unit :=
  await outcome := on_mint (mintForContributor pivId token wallet) in
  modify (count_outcome outcome).

(** What processCampaign does with a successful campaign. *)
Definition settle (pivId : string) (token : Z) : io cworld unit :=
  await _ := modify count_successful in
  await _ := call_rpc "contributorsOf" token in
  await _ := iofold (mint_one pivId token) tt (contributorsOf token) in
  await ok := send_tx "withdrawRaised" (λ n, withdrawRaised (paused n) (transferred n)) token in
  if negb ok then throw (Thrown "withdrawRaised transaction reverted") else ret tt.

Definition processCampaign (candidate : string * string) : io cworld unit :=
  let '(pivId, tokenText) := candidate in
  await token := lift (JsString.BigInt tokenText) in
  await campaign := readCampaign token in
  if swept campaign then ret tt
  else
    await campaign := (if state campaign =? CAMPAIGN_STATE_OPEN then
                         await ok := send_tx "finalize" (λ n, finalize (paused n) (timestamp n)) token in
                         if negb ok then throw (Thrown "finalize transaction reverted")
                         else await _ := modify count_finalized in readCampaign token
                       else ret campaign) in
    if state campaign =? CAMPAIGN_STATE_FAILED then modify count_failed
    else if negb (state campaign =? CAMPAIGN_STATE_SUCCESSFUL) then ret tt
    else settle pivId token.

Definition error_message (e : error) : string :=
  match e with AppError code _ _ => code | Thrown m => m end.

Definition process_one (_ : unit) (candidate : string * string) : io cworld unit :=
  iocatch (processCampaign candidate) (λ e, modify (push_error candidate (error_message e))).

Definition candidates_at (now : Z) (w : cworld) : list (string * string) :=
  Settlement.findPivsWithPassedIpoDeadline now (db_of (cw_mint w)).

Definition no_summary : Summary := mkSummary 0 0 0 0 0 [].

(** The summary returned, with [pivsChecked] beside it. *)
Definition FinalizeIpoEscrowCampaigns_execute (now : Z) : io cworld (nat * Summary) :=
  await candidates := query (λ w, Ok (candidates_at now w)) in
  await _ := modify (λ _, no_summary) in
  await _ := iofold process_one tt candidates in
  query (λ w, Ok (length candidates, cw_summary w)).

(** *** Opening *)

(** A job payload whose fields have the schema's types. *)
Record OpenJob := mkOpenJob {
  piv_id : string; token_id : string; target_amount_eurc : string; deadline_unix : Z; trace_id : string }.

Definition openIpoEscrowCampaignJobSchema (p : OpenJob) : result OpenJob :=
  let q := mkOpenJob (JsString.trim (piv_id p)) (JsString.trim (token_id p))
             (JsString.trim (target_amount_eurc p)) (deadline_unix p) (JsString.trim (trace_id p)) in
  if negb (bool_decide (piv_id q = "")) && negb (bool_decide (token_id q = "")) &&
     negb (bool_decide (target_amount_eurc q = "")) && (0 <? deadline_unix q) &&
     negb (bool_decide (trace_id q = ""))
  then Ok q else Err (Thrown "ZodError").

(** Whether this run opened the campaign ([transactionHash] is not null). *)
Definition OpenIpoEscrowCampaign_execute (pivTreasuryAddress : string) (payload : OpenJob) : io cworld bool :=
  await parsed := lift (openIpoEscrowCampaignJobSchema payload) in
  await token := lift (JsString.BigInt (token_id parsed)) in
  await existing := readCampaign token in
  if negb (state existing =? CAMPAIGN_STATE_NOT_OPENED) then ret false
  else
    await target := lift (JsString.BigInt (target_amount_eurc parsed)) in
    await ok := send_tx "openCampaign"
                  (λ n, openCampaign (timestamp n) target (deadline_unix parsed) pivTreasuryAddress) token in
    if negb ok then throw (Thrown "openCampaign transaction reverted") else ret true.

(** The others act by transactions. *)
Hypothesis others_act : ∀ n t c, rtc transaction c (others n t c).

(** ** What the job sends *)

Lemma iobind_cases {A B} (m : io cworld A) (g : A → io cworld B) w :
  (∃ e w1, m w = (Err e, w1) ∧ iobind m g w = (Err e, w1)) ∨
  ∃ a w1, m w = (Ok a, w1) ∧ iobind m g w = g a w1.
Proof. unfold iobind. destruct (m w) as [[a|e] w1]; [right|left]; eauto. Qed.

(** Neither the mints, the transactions sent nor the errors noted have changed. *)
Definition silent (w w' : cworld) : Prop :=
  cw_mint w' = cw_mint w ∧ cw_sent w' = cw_sent w ∧ errors (cw_summary w') = errors (cw_summary w).

#[local] Instance silent_preorder : PreOrder silent.
Proof. split; [by intros w|]. intros a b c (? & ? & ?) (? & ? & ?). repeat split; congruence. Qed.

Lemma silent_call_rpc name t : io_rel silent (call_rpc name t).
Proof. intros w. unfold call_rpc. by destruct (rpc _ name t). Qed.

Lemma silent_modify f : (∀ s, errors (f s) = errors s) → io_rel silent (modify f).
Proof. intros H w. split; [done|]. split; [done|apply H]. Qed.

Lemma silent_readCampaign t : io_rel silent (readCampaign t).
Proof. apply io_rel_bind; [apply _ | apply silent_call_rpc | by intros _ w]. Qed.

Lemma silent_is_mined f t : io_rel silent (is_mined f t).
Proof. intros w. unfold is_mined. by destruct (f _ _). Qed.

Lemma silent_ret {A} (a : A) : io_rel silent (ret a).
Proof. by intros w. Qed.

Hint Resolve silent_call_rpc silent_modify silent_readCampaign silent_is_mined silent_ret : vista.

(** Sending one transaction notes it, and nothing else. *)
Definition sends (xs : list (string * Z)) (w w' : cworld) : Prop :=
  cw_mint w' = cw_mint w ∧ cw_sent w' = cw_sent w ++ xs ∧ errors (cw_summary w') = errors (cw_summary w).

Lemma silent_after_note name f token :
  io_rel silent (await _ := call_rpc name token in
    await ok := is_mined f token in await _ := call_rpc "waitForTransactionReceipt" token in ret ok).
Proof.
  apply io_rel_bind; [apply _|auto with vista|]. intros _.
  apply io_rel_bind; [apply _|auto with vista|]. intros ok.
  apply io_rel_bind; [apply _|auto with vista|auto with vista].
Qed.

Lemma sends_send_tx name f token w : sends [(name, token)] w (send_tx name f token w).2.
Proof.
  unfold send_tx, iobind at 1, note_sent.
  by destruct (silent_after_note name f token (note_sent name token w).2) as (H1 & H2 & H3).
Qed.

(** The sequence of mints a completed fold ran, contributor by contributor. *)
Fixpoint all_minted (pivId : string) (token : Z) (wallets : list string) (x x' : X) : Prop :=
  match wallets with
  | [] => x' = x
  | a :: wallets => ∃ o x1, mintForContributor pivId token a x = (Ok o, x1) ∧ all_minted pivId token wallets x1 x'
  end.

Lemma mint_fold_all pivId token wallets w w' :
  iofold (mint_one pivId token) tt wallets w = (Ok tt, w') →
  all_minted pivId token wallets (cw_mint w) (cw_mint w').
Proof.
  revert w. induction wallets as [|a wallets IH]; intros w H; simpl in *.
  { by apply ret_ok in H as [_ ->]. }
  apply iobind_ok in H as ([] & w1 & H1 & H). unfold mint_one, iobind, on_mint, modify in H1.
  destruct (mintForContributor pivId token a (cw_mint w)) as [[o|e] x] eqn:E; [|done].
  injection H1 as <-. eexists o, x. split; [done|]. exact (IH _ H).
Qed.

(** Minting sends no transaction on the campaign. *)
Definition sends_nothing (w w' : cworld) : Prop :=
  cw_sent w' = cw_sent w ∧ errors (cw_summary w') = errors (cw_summary w).

#[local] Instance sends_nothing_preorder : PreOrder sends_nothing.
Proof. split; [by intros w|]. intros a b c (? & ?) (? & ?). split; congruence. Qed.

Lemma mint_fold_sent pivId token wallets : io_rel sends_nothing (iofold (mint_one pivId token) tt wallets).
Proof.
  apply io_rel_fold; [apply _|]. intros [] wallet. apply io_rel_bind; [apply _| |by intros o w].
  intros w. unfold on_mint. by destruct (mintForContributor _ _ _ _).
Qed.

Definition sweep_tx (token : Z) (b : bool) : list (string * Z) := if b then [("withdrawRaised", token)] else [].
Definition finalize_tx (token : Z) (b : bool) : list (string * Z) := if b then [("finalize", token)] else [].

(** From [w] to [w'] the job sent at most one finalize and then at most one sweep, the
    latter only once every contributor was minted. *)
Definition job_run (pivId : string) (token : Z) (w w' : cworld) (finalizes sweeps : bool) : Prop :=
  cw_sent w' = cw_sent w ++ finalize_tx token finalizes ++ sweep_tx token sweeps ∧
  errors (cw_summary w') = errors (cw_summary w) ∧
  (sweeps = true → all_minted pivId token (contributorsOf token) (cw_mint w) (cw_mint w')).

Lemma call_rpc_ok name t token w w' :
  call_rpc name t w = (Ok tt, w') → advances (cw_campaigns w token) (cw_campaigns w' token).
Proof.
  unfold call_rpc. destruct (rpc _ name t); [done|]. intros [= <-]. apply transactions_advance, others_act.
Qed.

Lemma send_tx_ok name f token w w' :
  send_tx name f token w = (Ok true, w') →
  ∃ n c0 c, f n c0 = Some c ∧ advances c (cw_campaigns w' token).
Proof.
  intros ([] & w1 & _ & ([] & w2 & _ & (ok & w3 & H3 & ([] & w4 & H4 & H5)%iobind_ok)%iobind_ok)%iobind_ok)%iobind_ok.
  apply ret_ok in H5 as [<- ->]. unfold is_mined in H3.
  destruct (f _ _) as [c|] eqn:Ef; [|done]. injection H3 as <-. eexists _, _, c. split; [exact Ef|].
  apply (call_rpc_ok _ _ token) in H4. simpl in H4. by rewrite Z.eqb_refl in H4.
Qed.

Lemma sweep_ok n c c' : withdrawRaised (paused n) (transferred n) c = Some c' →
  state c' = CAMPAIGN_STATE_SUCCESSFUL ∧ swept c' = true.
Proof. unfold withdrawRaised. repeat (case_match; try done); intros [= <-]; by boolify. Qed.

Lemma settle_sends pivId token w : ∃ sweeps,
  job_run pivId token w (settle pivId token w).2 false sweeps ∧
  ((settle pivId token w).1 = Ok tt → sweeps = true ∧ swept (cw_campaigns (settle pivId token w).2 token) = true).
Proof.
  unfold settle. destruct (iobind_cases (modify count_successful)
    (λ _, await _ := call_rpc "contributorsOf" token in
          await _ := iofold (mint_one pivId token) tt (contributorsOf token) in
          await ok := send_tx "withdrawRaised" (λ n, withdrawRaised (paused n) (transferred n)) token in
          if negb ok then throw (Thrown "withdrawRaised transaction reverted") else ret tt) w)
    as [(e & w1 & H1 & _)|([] & w1 & H1 & ->)]; [done|].
  pose proof (silent_modify count_successful (λ _, eq_refl) w) as (M1 & S1 & E1). rewrite H1 in *. simpl in M1, S1, E1.
  pose proof (silent_call_rpc "contributorsOf" token w1) as (M2 & S2 & E2).
  match goal with |- context [iobind (call_rpc _ _) ?g w1] =>
    destruct (iobind_cases (call_rpc "contributorsOf" token) g w1) as [(e & w2 & H2 & ->)|([] & w2 & H2 & ->)] end;
    rewrite H2 in *; simpl in M2, S2, E2.
  { exists false. split; [|done]. split_and!; [simpl; rewrite app_nil_r; congruence|simpl; congruence|done]. }
  pose proof (mint_fold_sent pivId token (contributorsOf token) w2) as [S3 E3].
  match goal with |- context [iobind ?m ?g w2] =>
    destruct (iobind_cases m g w2) as [(e & w3 & H3 & ->)|([] & w3 & H3 & ->)] end;
    rewrite H3 in *; simpl in S3, E3.
  { exists false. split; [|done]. split_and!; [simpl; rewrite app_nil_r; congruence|simpl; congruence|done]. }
  apply mint_fold_all in H3. exists true. unfold iobind.
  pose proof (sends_send_tx "withdrawRaised" (λ n, withdrawRaised (paused n) (transferred n)) token w3) as (M4 & S4 & E4).
  destruct (send_tx _ _ _ w3) as [[ok|e] w4] eqn:Et; simpl in M4, S4, E4; [destruct ok|];
    (split; [split_and!; simpl; [congruence|congruence|intros _; congruence]|]; simpl; try done).
  intros _. split; [done|]. apply send_tx_ok in Et as (n & c0 & c & [Hc Hw]%sweep_ok & Ha).
  apply (adv_swept _ _ Ha); [by rewrite Hc|done].
Qed.

Lemma silent_job_run pivId token w w' : silent w w' → job_run pivId token w w' false false.
Proof. intros (? & ? & ?). split_and!; [by rewrite app_nil_r|done|done]. Qed.

Lemma job_run_after pivId token w w1 w2 fin sw :
  sends (finalize_tx token fin) w w1 → job_run pivId token w1 w2 false sw → job_run pivId token w w2 fin sw.
Proof.
  intros (M & S & E) (S' & E' & H'). split_and!; [by rewrite S', S, <- app_assoc|congruence|].
  intros Hs. rewrite <- M. by apply H'.
Qed.

(** From the state check on: failed and unopened campaigns are left alone. *)
Definition resolve (pivId : string) (token : Z) (c : Campaign) : io cworld unit :=
  if state c =? CAMPAIGN_STATE_FAILED then modify count_failed
  else if negb (state c =? CAMPAIGN_STATE_SUCCESSFUL) then ret tt
  else settle pivId token.

(** A campaign that needs nothing more from this job. *)
Definition closed (c : Campaign) : Prop := state c ≠ CAMPAIGN_STATE_OPEN ∧ state c ≠ CAMPAIGN_STATE_SUCCESSFUL.

Lemma resolve_sends pivId token c w : ∃ sweeps,
  job_run pivId token w (resolve pivId token c w).2 false sweeps ∧
  ((resolve pivId token c w).1 = Ok tt → cw_campaigns w token = c → state c ≠ CAMPAIGN_STATE_OPEN →
   sweeps = true ∧ swept (cw_campaigns (resolve pivId token c w).2 token) = true ∨
   closed (cw_campaigns (resolve pivId token c w).2 token)).
Proof.
  unfold resolve. destruct (_ =? CAMPAIGN_STATE_FAILED) eqn:Ef; boolify.
  { exists false. split; [by apply silent_job_run|]. intros _ Hc Ho. right. simpl. by rewrite Hc; split; [|rewrite Ef]. }
  destruct (_ =? CAMPAIGN_STATE_SUCCESSFUL) eqn:Es; simpl; boolify.
  - destruct (settle_sends pivId token w) as (sw & H1 & H2). exists sw. split; [done|]. intros H _ _. left. auto.
  - exists false. split; [by apply silent_job_run|]. intros _ Hc Ho. right. by rewrite Hc.
Qed.

(** Finalizing an open campaign and reading it again. *)
Definition finalize_open (token : Z) (c : Campaign) : io cworld Campaign :=
  if state c =? CAMPAIGN_STATE_OPEN then
    await ok := send_tx "finalize" (λ n, finalize (paused n) (timestamp n)) token in
    if negb ok then throw (Thrown "finalize transaction reverted")
    else await _ := modify count_finalized in readCampaign token
  else ret c.

Lemma finalize_open_sends token c w : ∃ finalizes, sends (finalize_tx token finalizes) w (finalize_open token c w).2.
Proof.
  unfold finalize_open. destruct (_ =? CAMPAIGN_STATE_OPEN); [|exists false; by repeat split; rewrite ?app_nil_r].
  exists true. unfold iobind at 1.
  pose proof (sends_send_tx "finalize" (λ n, finalize (paused n) (timestamp n)) token w) as (M & S & E).
  destruct (send_tx _ _ _ w) as [[ok|e] w1]; simpl in M, S, E; [|done]. destruct ok; simpl; [|done].
  destruct (silent_readCampaign token (modify count_finalized w1).2) as (M' & S' & E'). simpl in M', S', E'.
  split_and!; simpl; unfold iobind, modify; congruence.
Qed.

Lemma processCampaign_unfold pivId tokenText token w :
  JsString.BigInt tokenText = Ok token →
  processCampaign (pivId, tokenText) w =
  match readCampaign token w with
  | (Err e, w1) => (Err e, w1)
  | (Ok c, w1) => if swept c then (Ok tt, w1)
                  else (await c' := finalize_open token c in resolve pivId token c') w1
  end.
Proof.
  intros Ht. unfold processCampaign. rewrite Ht. unfold iobind at 1 2, lift.
  destruct (readCampaign token w) as [[c|e] w1]; [|done]. by destruct (swept c).
Qed.

Lemma readCampaign_ok token w c w' :
  readCampaign token w = (Ok c, w') →
  c = others (cw_calls w) token (cw_campaigns w token) ∧ cw_campaigns w' token = c.
Proof. unfold readCampaign, iobind, call_rpc, query. destruct (rpc _ _ _); [done|]. by intros [= <- <-]. Qed.

Lemma finalize_settles p now c c' :
  finalize p now c = Some c' → state c' = CAMPAIGN_STATE_SUCCESSFUL ∨ state c' = CAMPAIGN_STATE_FAILED.
Proof.
  unfold finalize. repeat (case_match; try done); intros [= <-]; simpl; auto.
Qed.

Lemma finalize_open_ok token c w c' w' :
  finalize_open token c w = (Ok c', w') → cw_campaigns w token = c →
  cw_campaigns w' token = c' ∧ state c' ≠ CAMPAIGN_STATE_OPEN.
Proof.
  unfold finalize_open. destruct (_ =? CAMPAIGN_STATE_OPEN) eqn:Eo; boolify.
  2:{ intros [-> ->]%ret_ok. done. }
  intros (ok & w1 & Hs & H)%iobind_ok _. destruct ok; simpl in H; [|done].
  apply send_tx_ok in Hs as (n & c0 & c1 & Hf%finalize_settles & Ha).
  apply iobind_ok in H as ([] & w2 & [= <-] & H). apply readCampaign_ok in H as [-> H]. simpl in *.
  split; [done|]. set (c2 := others _ _ _).
  assert (advances c1 c2) as Hadv by (etrans; [exact Ha | apply transactions_advance, others_act]).
  destruct Hf as [Hf|Hf]; [rewrite (adv_successful _ _ Hadv Hf) | rewrite (adv_failed _ _ Hadv Hf)]; done.
Qed.

Lemma processCampaign_sends pivId tokenText token w :
  JsString.BigInt tokenText = Ok token →
  let first := others (cw_calls w) token (cw_campaigns w token) in
  let '(r, w') := processCampaign (pivId, tokenText) w in
  ∃ finalizes sweeps, job_run pivId token w w' finalizes sweeps ∧
    (swept first = true → finalizes = false ∧ sweeps = false ∧ cw_mint w' = cw_mint w) ∧
    (r = Ok tt → swept first = true ∨ sweeps = true ∧ swept (cw_campaigns w' token) = true ∨
                 closed (cw_campaigns w' token)).
Proof.
  intros Ht first. rewrite (processCampaign_unfold _ _ _ _ Ht).
  pose proof (silent_readCampaign token w) as R. pose proof (readCampaign_ok token w) as Hc.
  destruct (readCampaign token w) as [[c|e] w1]; simpl in R.
  2:{ exists false, false. split; [by apply silent_job_run|]. by destruct R as (? & _). }
  destruct (Hc c w1 eq_refl) as [Hfirst Hw1]. fold first in Hfirst. rewrite <- Hfirst. clear Hfirst first Hc.
  destruct (swept c).
  { exists false, false. split; [by apply silent_job_run|]. destruct R as (? & _). split; [done|by left]. }
  pose proof (finalize_open_sends token c w1) as [fin F]. unfold iobind.
  destruct (finalize_open token c w1) as [[c'|e] w2] eqn:Ef; simpl in F.
  - destruct (finalize_open_ok _ _ _ _ _ Ef Hw1) as [Hw2 Hno].
    destruct (resolve_sends pivId token c' w2) as (sw & Hsw & Hres).
    destruct (resolve pivId token c' w2) as [r w3]. exists fin, sw. split; [|split; [done|]].
    + apply (job_run_after _ _ _ w2); [|done]. destruct R as (? & ? & ?), F as (? & ? & ?). repeat split; congruence.
    + intros ->. right. by apply Hres.
  - exists fin, false. split; [|done]. apply (job_run_after _ _ _ w2); [|by apply silent_job_run].
    destruct R as (? & ? & ?), F as (? & ? & ?). repeat split; congruence.
Qed.

(** ** The whole job *)

(** The campaigns are processed in order; one that throws is recorded and the next ones
    still run, from what it left behind. *)
Inductive processed : list (string * string) → cworld → cworld → list (string * string * string) → Prop :=
  | processed_nil w : processed [] w w []
  | processed_ok c cs w w1 w' es :
      processCampaign c w = (Ok tt, w1) → processed cs w1 w' es → processed (c :: cs) w w' es
  | processed_failed c cs w e w1 w' es :
      processCampaign c w = (Err e, w1) →
      processed cs (modify (push_error c (error_message e)) w1).2 w' es →
      processed (c :: cs) w w' ((c, error_message e) :: es).

Lemma processCampaign_errors c w : errors (cw_summary (processCampaign c w).2) = errors (cw_summary w).
Proof.
  destruct c as [pivId tokenText]. destruct (JsString.BigInt tokenText) as [token|e] eqn:E.
  - pose proof (processCampaign_sends pivId tokenText token w E) as H.
    destruct (processCampaign _ w) as [r w']. by destruct H as (fin & sw & (_ & H & _) & _).
  - unfold processCampaign, iobind, lift. by rewrite E.
Qed.

Lemma process_all cs : ∀ w, ∃ w' es,
  iofold process_one tt cs w = (Ok tt, w') ∧ processed cs w w' es ∧
  errors (cw_summary w') = errors (cw_summary w) ++ es.
Proof.
  induction cs as [|c cs IH]; intros w; simpl.
  { eexists _, _. split_and!; [done|constructor|]. by rewrite app_nil_r. }
  unfold iobind, process_one at 1, iocatch. pose proof (processCampaign_errors c w) as He.
  destruct (processCampaign c w) as [[[]|e] w1] eqn:E; simpl in *.
  - destruct (IH w1) as (w' & es & H1 & H2 & H3). eexists _, _.
    split_and!; [done|by eapply processed_ok|]. by rewrite H3, He.
  - edestruct IH as (w' & es & H1 & H2 & H3). eexists _, _.
    split_and!; [exact H1|by eapply processed_failed|]. rewrite H3. simpl. by rewrite He, <- app_assoc.
Qed.

(** ** Claims *)

(** C17: the job sweeps a campaign only after it has minted every contributor.  Whatever
    anybody else does on the chain between its calls, and whichever calls fail, processing a
    campaign asks for at most one finalize and then at most one withdrawRaised, of this
    campaign only, and the latter only once the mint of every contributor, in turn, has
    returned.  A campaign that somebody else has swept is left alone, its contributors
    included; otherwise a run that returns has swept the campaign itself, or left it failed or
    unopened. *)
Theorem sweep_only_after_every_mint pivId tokenText token w :
  JsString.BigInt tokenText = Ok token →
  let first := others (cw_calls w) token (cw_campaigns w token) in
  let '(r, w') := processCampaign (pivId, tokenText) w in
  ∃ finalizes sweeps : bool,
    cw_sent w' = cw_sent w ++ (if finalizes then [("finalize", token)] else [])
                           ++ (if sweeps then [("withdrawRaised", token)] else []) ∧
    (sweeps = true → all_minted pivId token (contributorsOf token) (cw_mint w) (cw_mint w')) ∧
    (swept first = true → finalizes = false ∧ sweeps = false ∧ cw_mint w' = cw_mint w) ∧
    (r = Ok tt → swept first = true ∨ sweeps = true ∧ swept (cw_campaigns w' token) = true ∨
                 closed (cw_campaigns w' token)).
Proof.
  intros Ht first. pose proof (processCampaign_sends pivId tokenText token w Ht) as H.
  destruct (processCampaign _ w) as [r w']. destruct H as (fin & sw & (H1 & _ & H2) & H3 & H4).
  exists fin, sw. by split_and!.
Qed.

(** One campaign's failure does not stop the others.  The job always returns; it has
    processed every PIV whose IPO deadline had passed when it started, in order, and its
    summary lists exactly those whose processing threw. *)
Theorem finalize_job_isolates_failures now w :
  ∃ w' es, FinalizeIpoEscrowCampaigns_execute now w = (Ok (length (candidates_at now w), cw_summary w'), w') ∧
    processed (candidates_at now w) (modify (λ _, no_summary) w).2 w' es ∧
    errors (cw_summary w') = es.
Proof.
  destruct (process_all (candidates_at now w) (modify (λ _, no_summary) w).2) as (w' & es & H1 & H2 & H3).
  exists w', es. split_and!; [|done..].
  unfold FinalizeIpoEscrowCampaigns_execute, iobind, query, modify in *. simpl in *. by rewrite H1.
Qed.

(** Opening a campaign is idempotent.  A run that returns leaves the campaign opened, and
    when it found it so already it sent nothing; a redelivered job then never opens it
    again. *)
Theorem open_campaign_idempotent tr payload opened w w' :
  OpenIpoEscrowCampaign_execute tr payload w = (Ok opened, w') →
  ∃ token, state (cw_campaigns w' token) ≠ CAMPAIGN_STATE_NOT_OPENED ∧
    (opened = false → cw_sent w' = cw_sent w) ∧
    ∀ w2, advances (cw_campaigns w' token) (cw_campaigns w2 token) →
      let '(r, w3) := OpenIpoEscrowCampaign_execute tr payload w2 in
      r ≠ Ok true ∧ cw_sent w3 = cw_sent w2.
Proof.
  intros (p & w1 & [Hp ->]%lift_ok & (t & w2 & [Ht ->]%lift_ok & (c & w3 & Hr & H)%iobind_ok)%iobind_ok)%iobind_ok.
  pose proof (silent_readCampaign t w) as (_ & Hs & _). rewrite Hr in Hs. simpl in Hs.
  apply readCampaign_ok in Hr as [_ Hc].
  exists t. assert (state (cw_campaigns w' t) ≠ CAMPAIGN_STATE_NOT_OPENED ∧
    (opened = false → cw_sent w' = cw_sent w)) as [H1 H2].
  { destruct (state c =? CAMPAIGN_STATE_NOT_OPENED) eqn:Es; simpl in H; boolify.
    - inv_io H. destruct a0; simpl in H; [|done]. apply ret_ok in H as [-> ->].
      apply send_tx_ok in Hio0 as (n & c0 & c1 & Hc1 & Ha). split; [|done]. apply (adv_opened _ _ Ha).
      unfold openCampaign in Hc1. repeat (case_match; try done). by injection Hc1 as <-.
    - apply ret_ok in H as [-> ->]. by rewrite Hc. }
  split_and!; [done..|]. intros v Hv. unfold OpenIpoEscrowCampaign_execute, iobind, lift. rewrite Hp, Ht.
  unfold readCampaign, iobind, call_rpc, query. destruct (rpc _ "campaignOf" t); simpl; [done|].
  assert (state (others (cw_calls v) t (cw_campaigns v t)) ≠ CAMPAIGN_STATE_NOT_OPENED) as ->%Z.eqb_neq; [|done].
  apply (adv_opened (cw_campaigns w' t)); [|done]. etrans; [exact Hv|apply transactions_advance, others_act].
Qed.
End Service.

(** ** A campaign of two contributors *)

Definition demo_mint (_ : string) (_ : Z) (wallet : string) : io (list string) MintOutcome := λ x,
  (Ok minted, x ++ [wallet]).
Definition demo_contributors (_ : Z) : list string := ["0xa"; "0xb"].
Definition no_failure (_ : nat) (_ : string) (_ : Z) : option error := None.

Definition at_60 (_ : nat) : Z := 60.
Definition never (_ : nat) : bool := false.
Definition always (_ : nat) : bool := true.

(** Campaign 7 raised its target of 100 and is past its deadline; no other is open. *)
Definition demo_world : cworld :=
  mkCWorld (λ t, if t =? 7 then mkCampaign 100 100 50 "0xtreasury" CAMPAIGN_STATE_OPEN false else no_campaign)
    ([] : list string) no_summary 0 [].

(** Somebody extends the deadline of another campaign before the second call. *)
Definition passer_by (n : nat) (t : Z) (c : Campaign) : Campaign :=
  if Nat.eqb n 1 && (t =? 8) then default c (extendDeadline 60 90 c) else c.

Lemma passer_by_acts n t c : rtc transaction c (passer_by n t c).
Proof.
  unfold passer_by. destruct (_ && _); [|done]. destruct (extendDeadline 60 90 c) as [c'|] eqn:E; [|done].
  eapply rtc_once, tx_extend. exact E.
Qed.

Lemma sweep_only_after_every_mint_witness :
  let w' := (processCampaign demo_mint demo_contributors at_60 no_failure never always passer_by ("piv", "7") demo_world).2 in
  swept (cw_campaigns w' 7) = true ∧ cw_mint w' = ["0xa"; "0xb"] ∧
  cw_sent w' = [("finalize", 7); ("withdrawRaised", 7)] ∧
  all_minted demo_mint "piv" 7 (demo_contributors 7) [] (cw_mint w').
Proof.
  pose proof (sweep_only_after_every_mint demo_mint demo_contributors at_60 no_failure never always passer_by
    passer_by_acts "piv" "7" 7 demo_world eq_refl) as H.
  assert (cw_sent (processCampaign demo_mint demo_contributors at_60 no_failure never always passer_by
    ("piv", "7") demo_world).2 = [("finalize", 7); ("withdrawRaised", 7)]) as Hsent by reflexivity.
  split; [reflexivity|]. split; [reflexivity|]. split; [exact Hsent|].
  destruct (processCampaign demo_mint demo_contributors at_60 no_failure never always passer_by
    ("piv", "7") demo_world) as [r w'].
  destruct H as (fin & sw & Hs & Hm & _). cbn [snd] in Hsent. rewrite Hsent in Hs.
  destruct fin, sw; try discriminate Hs. exact (Hm eq_refl).
Defined.

(** Somebody finalizes and sweeps campaign 7 before the job's first call. *)
Definition sweeper (n : nat) (t : Z) (c : Campaign) : Campaign :=
  if Nat.eqb n 0 && (t =? 7)
  then match finalize false 60 c with Some c' => default c (withdrawRaised false true c') | None => c end
  else c.

(** The gap the service's comment names: withdrawRaised is permissionless, and a campaign
    that somebody else sweeps before the job reads it is never minted. *)
Theorem foreign_sweep_leaves_contributors_unminted :
  (∀ n t c, rtc transaction c (sweeper n t c)) ∧
  ∃ w', processCampaign demo_mint demo_contributors at_60 no_failure never always sweeper ("piv", "7") demo_world =
    (Ok tt, w') ∧ swept (cw_campaigns w' 7) = true ∧ cw_mint w' = [].
Proof.
  split; [|eexists; split; [reflexivity|split; reflexivity]].
  intros n t c. unfold sweeper. destruct (_ && _); [|done].
  destruct (finalize false 60 c) as [c1|] eqn:E1; [|done].
  destruct (withdrawRaised false true c1) as [c2|] eqn:E2; [|done].
  eapply rtc_l; [eapply tx_finalize; exact E1|]. eapply rtc_once, tx_sweep; exact E2.
Qed.

Definition demo_job : OpenJob := mkOpenJob "piv" "9" "1000" 70 "trace".

Lemma open_campaign_idempotent_witness :
  (OpenIpoEscrowCampaign_execute at_60 no_failure passer_by "0xtreasury" demo_job demo_world).1 = Ok true ∧
  ∃ token, state (cw_campaigns (OpenIpoEscrowCampaign_execute at_60 no_failure passer_by "0xtreasury" demo_job demo_world).2
                    token) ≠ CAMPAIGN_STATE_NOT_OPENED.
Proof.
  split; [reflexivity|].
  destruct (open_campaign_idempotent at_60 no_failure passer_by passer_by_acts "0xtreasury" demo_job true demo_world _ eq_refl)
    as (token & H & _).
  exists token. exact H.
Defined.

End EscrowCampaign.
