(* ===== verification/Rental.v ===== *)
(** Operating distributions: calculate-operating-distribution.service.ts and
    run-operating-distribution-sweep.service.ts over
    prisma-operating-distribution.repository.ts. *)

From Stdlib Require Import Ascii String.
From S2P Require Import Prelude JsString Currency Db.

(** Operating-distribution arithmetic: src/src/modules/rental/domain/operating-distribution.policy.ts,
    and the micro-unit helpers of calculate-operating-distribution.service.ts. *)

Import JsString.

Module RentalPolicy.
Import Currency.

#[local] Arguments String.append !_ _ /.

Definition MICROS_PER_UNIT : Z := 1000000.
Definition MICROS_PER_CENT : Z := 10000.

(** ** The policy *)

Definition toMicros (value : string) : result Z :=
  let '(negative, unsigned) := match value with String "-" r => (true, r) | _ => (false, value) end in
  let '(whole, fraction) := split_point "" unsigned in
  if (6 <? String.length fraction)%nat then Err (Thrown "toMicros: more than 6 fractional digits")
  else
    let! w := BigInt whole in
    let! f := BigInt (padEnd 6 "0" fraction) in
    let micros := w * MICROS_PER_UNIT + f in
    Ok (if negative : bool then - micros else micros).

Definition fromMicros (value : Z) : string :=
  let negative := value <? 0 in
  let absValue := if negative then - value else value in
  let whole := Z.quot absValue MICROS_PER_UNIT in
  let fraction := padStart 6 "0" (BigInt_toString (Z.rem absValue MICROS_PER_UNIT)) in
  String.append (if negative then "-" else "") (String.append (BigInt_toString whole) (String "." fraction)).

Record DistributionDeductions := mkDeductions {
  grossRentEur : string; managementFeeEur : string; otherExpensesEur : string; reserveHoldbackEur : string }.

Definition computeDistributableNet (input : DistributionDeductions) : result string :=
  let! g := toMicros (grossRentEur input) in
  let! f := toMicros (managementFeeEur input) in
  let! o := toMicros (otherExpensesEur input) in
  let! h := toMicros (reserveHoldbackEur input) in
  let net := g - f - o - h in
  let floored := if 0 <? net then net else 0 in
  let wholeCents := Z.quot floored MICROS_PER_CENT in
  Ok (String.append (BigInt_toString (Z.quot wholeCents 100))
        (String "." (padStart 2 "0" (BigInt_toString (Z.rem wholeCents 100))))).

Definition computeAmountPerUnit (distributableNetEur totalUnits : string) : result string :=
  let! totalUnitsMicros := toMicros totalUnits in
  if totalUnitsMicros <=? 0 then Err (Thrown "computeAmountPerUnit: totalUnits must be positive")
  else
    let! n := toMicros distributableNetEur in
    let scaledNet := n * MICROS_PER_UNIT in
    Ok (fromMicros (Z.quot scaledNet totalUnitsMicros)).

Definition computeEntryAmount (unitCount amountPerUnitEur : string) : result string :=
  let! u := toMicros unitCount in
  let! a := toMicros amountPerUnitEur in
  Ok (fromMicros (Z.quot (u * a) MICROS_PER_UNIT)).

Definition toMicroUnits (value : string) : result Z :=
  let '(whole, fraction) := split_point "" value in
  let! w := BigInt whole in
  let! f := BigInt (slice0 6 (padEnd 6 "0" fraction)) in
  Ok (w * MICROS_PER_UNIT + f).

Definition fromMicroUnits (value : Z) : string :=
  String.append (BigInt_toString (Z.quot value MICROS_PER_UNIT))
    (String "." (padStart 6 "0" (BigInt_toString (Z.rem value MICROS_PER_UNIT)))).

(** [Decimal.prototype.toString] of a non-negative column value with [k] decimals held as a
    whole number of its last place: no trailing zeros, no point when the fraction is zero. *)
Fixpoint strip_zeros (s : string) : string :=
  match s with
  | EmptyString => EmptyString
  | String c s =>
      match strip_zeros s with
      | EmptyString => if bool_decide (c = "0"%char) then EmptyString else String c EmptyString
      | s' => String c s'
      end
  end.

Definition decimal_toString (k : nat) (n : Z) : string :=
  let whole := BigInt_toString (n / 10 ^ Z.of_nat k) in
  match strip_zeros (padStart k "0" (BigInt_toString (n mod 10 ^ Z.of_nat k))) with
  | EmptyString => whole
  | fraction => String.append whole (String "." fraction)
  end.

(** ** Texts read back *)

Lemma strip_zeros_padded s :
  ∃ z, s = String.append (strip_zeros s) (repeat_char z "0") ∧ (String.length (strip_zeros s) + z = String.length s)%nat.
Proof.
  induction s as [|c s (z & E & L)]; simpl; [by exists 0%nat|].
  destruct (strip_zeros s) as [|c' s'] eqn:Es; simpl in *.
  - destruct (bool_decide_reflect (c = "0"%char)) as [->|]; simpl.
    + exists (S z). simpl. split; [by f_equal | lia].
    + exists z. split; [by f_equal | simpl in *; lia].
  - exists z. split; [by f_equal | simpl in *; lia].
Qed.

Lemma repeat_char_add a b c :
  String.append (repeat_char a c) (repeat_char b c) = repeat_char (a + b) c.
Proof. induction a; simpl; congruence. Qed.

(** Padding a stripped fraction to [n] characters is the unstripped fraction followed by
    zeros. *)
Lemma padEnd_strip n s :
  (String.length s <= n)%nat →
  padEnd n "0" (strip_zeros s) = String.append s (repeat_char (n - String.length s) "0").
Proof.
  intros Hn. destruct (strip_zeros_padded s) as (z & E & L). unfold padEnd.
  rewrite E at 3. rewrite append_assoc, repeat_char_add. do 2 f_equal. lia.
Qed.

Lemma digits_head_not_minus s : string_forallb is_digit s = true → ∀ r, s ≠ String "-" r.
Proof. intros H r ->. discriminate H. Qed.

Lemma unsigned_text {A} (value : string) (f : bool * string → A) :
  (∀ r, value ≠ String "-" r) →
  f (match value with String "-" r => (true, r) | _ => (false, value) end) = f (false, value).
Proof.
  intros H. destruct value as [|c r]; [done|].
  destruct (decide (c = "-"%char)) as [->|Hc]; [by destruct (H r)|].
  destruct c as [[] [] [] [] [] [] [] []]; try reflexivity; by contradict Hc.
Qed.

Lemma BigInt_zeros s v n :
  string_forallb is_digit s = true → parse_digits 10 0 s = Some v →
  BigInt (String.append s (repeat_char n "0")) = Ok (v * 10 ^ Z.of_nat n).
Proof.
  intros Hd Hv. rewrite BigInt_digits by (rewrite string_forallb_app, Hd; apply repeat_zero_digits).
  by rewrite (parse_digits_append_zeros n 0 s v Hv).
Qed.

Lemma fraction_digits k f : 0 ≤ f →
  string_forallb is_digit (padStart k "0" (BigInt_toString f)) = true ∧
  parse_digits 10 0 (padStart k "0" (BigInt_toString f)) = Some f.
Proof.
  intros Hf. destruct (BigInt_padStart k f Hf) as [_ Hd]. split; [done|].
  unfold padStart. by rewrite parse_digits_zeros, parse_toString.
Qed.

(** The fraction digits of a [k]-decimal text, read as millionths. *)
Lemma read_micros k f :
  (0 < k <= 6)%nat → 0 ≤ f < 10 ^ Z.of_nat k →
  let s := padStart k "0" (BigInt_toString f) in
  BigInt (padEnd 6 "0" (strip_zeros s)) = Ok (f * 10 ^ Z.of_nat (6 - k)) ∧
  BigInt (padEnd 6 "0" s) = Ok (f * 10 ^ Z.of_nat (6 - k)) ∧
  (String.length (strip_zeros s) <= 6)%nat ∧ (String.length s <= 6)%nat.
Proof.
  intros Hk Hf s. destruct (fraction_digits k f ltac:(lia)) as [Hd Hp].
  pose proof (length_fraction f k Hf ltac:(lia)) as Hl. fold s in Hd, Hp, Hl.
  destruct (strip_zeros_padded s) as (z & _ & L).
  split_and!; [|unfold padEnd| |]; try lia.
  - rewrite padEnd_strip, Hl by lia. by apply BigInt_zeros.
  - rewrite Hl. by apply BigInt_zeros.
Qed.

Lemma not_minus_append s t : s ≠ EmptyString → string_forallb is_digit s = true →
  ∀ r, String.append s t ≠ String "-" r.
Proof. destruct s as [|c s]; [done|]. intros _ Hd r [= -> _]. discriminate Hd. Qed.

Lemma digits_nonempty fuel n acc : (0 < fuel)%nat → digits fuel n acc ≠ EmptyString.
Proof.
  assert (∀ fuel n acc, acc ≠ EmptyString → digits fuel n acc ≠ EmptyString) as H.
  { clear. intros fuel. induction fuel as [|fuel IH]; intros n acc Ha; simpl; [done|].
    destruct (_ =? 0); [done | by apply IH]. }
  destruct fuel as [|fuel]; [lia|]. intros _. simpl. destruct (_ =? 0); [done | by apply H].
Qed.

Lemma toString_nonempty n : BigInt_toString n ≠ EmptyString.
Proof. unfold BigInt_toString. destruct (n <? 0); [done|]. apply digits_nonempty. unfold digits_fuel. lia. Qed.

Lemma split_point_strip fallback w fraction :
  0 ≤ w → string_forallb is_digit fraction = true →
  split_point fallback (String.append (BigInt_toString w) (String "." fraction)) = (BigInt_toString w, fraction).
Proof.
  intros Hw Hf. unfold split_point. rewrite split_append
    by (eapply string_forallb_impl; [apply is_digit_not_dot | by apply BigInt_toString_digits]).
  rewrite split_no_sep; [done|]. eapply string_forallb_impl; [apply is_digit_not_dot | done].
Qed.

Lemma split_point_whole w : 0 ≤ w → split_point "" (BigInt_toString w) = (BigInt_toString w, EmptyString).
Proof.
  intros Hw. unfold split_point. rewrite split_no_sep; [done|].
  eapply string_forallb_impl; [apply is_digit_not_dot | by apply BigInt_toString_digits].
Qed.

Lemma strip_digits s : string_forallb is_digit s = true → string_forallb is_digit (strip_zeros s) = true.
Proof.
  destruct (strip_zeros_padded s) as (z & E & _). rewrite E at 1. rewrite string_forallb_app.
  by intros [H _]%andb_true_iff.
Qed.

(** Reading an unsigned text, given its two parts. *)
Lemma toMicros_parts value whole fraction w f :
  (∀ r, value ≠ String "-" r) → split_point "" value = (whole, fraction) →
  (String.length fraction <= 6)%nat → BigInt whole = Ok w → BigInt (padEnd 6 "0" fraction) = Ok f →
  toMicros value = Ok (w * MICROS_PER_UNIT + f).
Proof.
  intros Hm Hs Hl Hw Hf. unfold toMicros.
  rewrite (unsigned_text value (λ '(negative, unsigned), _) Hm). rewrite Hs.
  replace (6 <? String.length fraction)%nat with false by (symmetry; apply Nat.ltb_ge; lia).
  by rewrite Hw, Hf.
Qed.

Lemma toMicros_point k w f :
  (0 < k <= 6)%nat → 0 ≤ w → 0 ≤ f < 10 ^ Z.of_nat k →
  toMicros (point_text k w f) = Ok (w * MICROS_PER_UNIT + f * 10 ^ Z.of_nat (6 - k)).
Proof.
  intros Hk Hw Hf. destruct (read_micros k f Hk Hf) as (_ & Hr & _ & Hl).
  eapply toMicros_parts; [|by apply split_point_text; lia|done|by apply BigInt_BigInt_toString|done].
  apply not_minus_append; [apply toString_nonempty | by apply BigInt_toString_digits].
Qed.

(** The two parts of a column value's text. *)
Lemma decimal_parts k n :
  (0 < k <= 6)%nat → 0 ≤ n →
  split_point "" (decimal_toString k n) =
    (BigInt_toString (n / 10 ^ Z.of_nat k), strip_zeros (padStart k "0" (BigInt_toString (n mod 10 ^ Z.of_nat k)))).
Proof.
  intros Hk Hn. assert (0 ≤ n / 10 ^ Z.of_nat k) by (apply Z.div_pos; lia).
  pose proof (Z.mod_pos_bound n (10 ^ Z.of_nat k) ltac:(lia)).
  destruct (fraction_digits k (n mod 10 ^ Z.of_nat k) ltac:(lia)) as [Hd _].
  apply strip_digits in Hd. unfold decimal_toString.
  destruct (strip_zeros _) as [|c s] eqn:E; [by apply split_point_whole|]. by apply split_point_strip.
Qed.

Lemma toMicros_decimal k n :
  (0 < k <= 6)%nat → 0 ≤ n → toMicros (decimal_toString k n) = Ok (n * 10 ^ Z.of_nat (6 - k)).
Proof.
  intros Hk Hn. pose proof (Z.mod_pos_bound n (10 ^ Z.of_nat k) ltac:(lia)) as Hf.
  destruct (read_micros k _ Hk Hf) as (Hr & _ & Hl & _).
  assert (0 ≤ n / 10 ^ Z.of_nat k) as Hw by (apply Z.div_pos; lia).
  rewrite (toMicros_parts _ _ _ (n / 10 ^ Z.of_nat k) _) with (2 := decimal_parts k n Hk Hn) (5 := Hr); [| |done|].
  - f_equal. pose proof (Z.div_mod n (10 ^ Z.of_nat k) ltac:(lia)) as Hdm.
    replace MICROS_PER_UNIT with (10 ^ Z.of_nat k * 10 ^ Z.of_nat (6 - k)).
    { rewrite Z.mul_assoc, <- Z.mul_add_distr_r. f_equal. lia. }
    rewrite <- Z.pow_add_r by lia. by replace (Z.of_nat k + Z.of_nat (6 - k)) with 6 by lia.
  - unfold decimal_toString. destruct (strip_zeros _) as [|c s].
    + by apply digits_head_not_minus, BigInt_toString_digits.
    + apply not_minus_append; [apply toString_nonempty | by apply BigInt_toString_digits].
  - by apply BigInt_BigInt_toString.
Qed.

Lemma toMicroUnits_decimal n : 0 ≤ n → toMicroUnits (decimal_toString 6 n) = Ok n.
Proof.
  intros Hn. pose proof (Z.mod_pos_bound n (10 ^ Z.of_nat 6) ltac:(lia)) as Hf.
  destruct (read_micros 6 _ ltac:(lia) Hf) as (Hr & _ & Hl & _).
  unfold toMicroUnits. rewrite decimal_parts by lia. rewrite BigInt_BigInt_toString by (apply Z.div_pos; lia).
  cbn [rbind]. rewrite slice0_all.
  - rewrite Hr. cbn [rbind]. f_equal. unfold MICROS_PER_UNIT. change (10 ^ Z.of_nat 6) with 1000000.
    change (10 ^ Z.of_nat (6 - 6)) with 1. pose proof (Z.div_mod n 1000000 ltac:(lia)). lia.
  - unfold padEnd. rewrite length_append, length_repeat_char. lia.
Qed.

Lemma fromMicros_point m : 0 ≤ m → fromMicros m = point_text 6 (m / 1000000) (m mod 1000000).
Proof. exact (fromEurcMicros_point m). Qed.

Lemma fromMicroUnits_point m : 0 ≤ m → fromMicroUnits m = point_text 6 (m / 1000000) (m mod 1000000).
Proof.
  intros H. unfold fromMicroUnits, point_text, MICROS_PER_UNIT.
  by rewrite Z.quot_div_nonneg, Z.rem_mod_nonneg by lia.
Qed.

Lemma toMicros_point6 m :
  0 ≤ m → toMicros (point_text 6 (m / 1000000) (m mod 1000000)) = Ok m.
Proof.
  intros H. rewrite toMicros_point; [|lia|by apply Z.div_pos; lia|by apply Z.mod_pos_bound; lia].
  f_equal. unfold MICROS_PER_UNIT. change (10 ^ Z.of_nat (6 - 6)) with 1.
  pose proof (Z.div_mod m 1000000 ltac:(lia)). lia.
Qed.

Lemma toMicros_fromMicros m : 0 ≤ m → toMicros (fromMicros m) = Ok m.
Proof. intros H. rewrite fromMicros_point by done. by apply toMicros_point6. Qed.

Lemma toMicros_fromMicroUnits m : 0 ≤ m → toMicros (fromMicroUnits m) = Ok m.
Proof. intros H. rewrite fromMicroUnits_point by done. by apply toMicros_point6. Qed.

(** The distributable net in whole cents. *)
Definition net_cents (g f o h : Z) : Z := Z.max 0 (g - f - o - h) / MICROS_PER_CENT.

Lemma net_cents_bounds g f o h :
  0 ≤ net_cents g f o h ∧ net_cents g f o h * MICROS_PER_CENT ≤ Z.max 0 (g - f - o - h).
Proof.
  unfold net_cents, MICROS_PER_CENT. pose proof (Z.div_mod (Z.max 0 (g - f - o - h)) 10000 ltac:(lia)).
  pose proof (Z.mod_pos_bound (Z.max 0 (g - f - o - h)) 10000 ltac:(lia)).
  split; [apply Z.div_pos; lia | lia].
Qed.

Lemma computeDistributableNet_ok input g f o h :
  toMicros (grossRentEur input) = Ok g → toMicros (managementFeeEur input) = Ok f →
  toMicros (otherExpensesEur input) = Ok o → toMicros (reserveHoldbackEur input) = Ok h →
  computeDistributableNet input = Ok (fromCents (net_cents g f o h)).
Proof.
  intros Hg Hf Ho Hh. unfold computeDistributableNet. rewrite Hg, Hf, Ho, Hh. cbn [rbind].
  unfold fromCents, net_cents. replace (if 0 <? _ then _ else _) with (Z.max 0 (g - f - o - h)).
  - rewrite (Z.quot_div_nonneg (Z.max _ _)) by (unfold MICROS_PER_CENT; lia). done.
  - destruct (0 <? g - f - o - h) eqn:E; boolify; lia.
Qed.

Lemma toMicros_fromCents c : 0 ≤ c → toMicros (fromCents c) = Ok (c * MICROS_PER_CENT).
Proof.
  intros H. rewrite fromCents_point by done.
  rewrite toMicros_point; [|lia|by apply Z.div_pos; lia|by apply Z.mod_pos_bound; lia].
  f_equal. unfold MICROS_PER_UNIT, MICROS_PER_CENT. change (10 ^ Z.of_nat (6 - 2)) with 10000.
  pose proof (Z.div_mod c 100 ltac:(lia)). lia.
Qed.

(** ** Shares *)

Lemma computeAmountPerUnit_ok c total : 0 ≤ c → 0 < total →
  computeAmountPerUnit (fromCents c) (fromMicroUnits total) =
    Ok (fromMicros (c * MICROS_PER_CENT * MICROS_PER_UNIT / total)).
Proof.
  intros Hc Ht. unfold computeAmountPerUnit. rewrite toMicros_fromMicroUnits by lia. cbn [rbind].
  replace (total <=? 0) with false by lia. rewrite toMicros_fromCents by done. cbn [rbind].
  rewrite Z.quot_div_nonneg by (unfold MICROS_PER_CENT, MICROS_PER_UNIT; lia). done.
Qed.

Lemma computeEntryAmount_ok u p : 0 ≤ u → 0 ≤ p →
  computeEntryAmount (decimal_toString 6 u) (fromMicros p) = Ok (fromMicros (u * p / MICROS_PER_UNIT)).
Proof.
  intros Hu Hp. unfold computeEntryAmount. rewrite toMicros_decimal, toMicros_fromMicros by lia. cbn [rbind].
  change (10 ^ Z.of_nat (6 - 6)) with 1. rewrite Z.mul_1_r.
  rewrite Z.quot_div_nonneg by (unfold MICROS_PER_UNIT; nia). done.
Qed.

(** Each share is rounded down, so together they never exceed the whole and fall short by
    less than one last place each. *)
Lemma shares_bounds (us : list Z) p d : 0 < d →
  d * sumZ (map (λ u, u * p / d) us) ≤ sumZ us * p ∧
  sumZ us * p ≤ d * sumZ (map (λ u, u * p / d) us) + Z.of_nat (List.length us) * (d - 1).
Proof.
  intros Hd. induction us as [|u us [IH1 IH2]]; simpl; [lia|].
  pose proof (Z.div_mod (u * p) d ltac:(lia)). pose proof (Z.mod_pos_bound (u * p) d Hd).
  rewrite Nat2Z.inj_succ. nia.
Qed.

(** The per-unit amount times the units, against the net. *)
Lemma per_unit_bounds net total : 0 ≤ net → 0 < total →
  let p := net * MICROS_PER_UNIT / total in
  0 ≤ p ∧ total * p ≤ net * MICROS_PER_UNIT ∧ net * MICROS_PER_UNIT ≤ total * p + (total - 1).
Proof.
  intros Hn Ht p. assert (0 ≤ net * MICROS_PER_UNIT) by (unfold MICROS_PER_UNIT; lia).
  pose proof (Z.div_mod (net * MICROS_PER_UNIT) total ltac:(lia)).
  pose proof (Z.mod_pos_bound (net * MICROS_PER_UNIT) total Ht).
  split; [by apply Z.div_pos | unfold p; lia].
Qed.

End RentalPolicy.

Module RentCollection.
Record t := mk {
  id : string; pivId : string; periodStart : Z; periodEnd : Z;
  grossRentCollectedEur : Z; recordedBy : string; notes : option string }.
End RentCollection.

Module OperatingDistribution.
Record t := mk {
  id : string; pivId : string; rentCollectionId : string; periodStart : Z; periodEnd : Z; recordDate : Z;
  grossRentEur : Z; managementFeeEur : Z; otherExpensesEur : Z; reserveHoldbackEur : Z;
  distributableNetEur : Z; totalUnitsAtRecordDate : Z; amountPerUnitEur : Z }.
End OperatingDistribution.

Module DistributionEntry.
Record t := mk {
  id : string; operatingDistributionId : string; positionId : string;
  unitCountAtRecordDate : Z; amountEurc : Z; destinationWalletAddress : string }.
End DistributionEntry.

Module Rental.
Import Currency RentalPolicy.

Record rental := mkRental {
  rn_db : db;
  rentCollections : list RentCollection.t;
  distributions : list OperatingDistribution.t;
  entries : list DistributionEntry.t }.

Record RentCollectionRecord := mkRentRecord {
  rc_id : string; rc_pivId : string; rc_periodStart : Z; rc_periodEnd : Z;
  rc_grossRentCollectedEur : string; rc_recordedBy : string }.

Record ActivePositionHolder := mkHolder {
  h_positionId : string; h_unitCount : string; h_walletAddress : option string }.

Record ExistingOperatingDistribution := mkExisting {
  ex_id : string; ex_distributableNetEur : string; ex_amountPerUnitEur : string; ex_entryCount : nat }.

Record NewEntry := mkNewEntry {
  ne_positionId : string; ne_unitCountAtRecordDate : string; ne_amountEurc : string;
  ne_destinationWalletAddress : string }.

Record CalculateInput := mkCalculate {
  in_pivId : string; in_periodStart : Z; in_periodEnd : Z; in_grossRentCollectedEur : string;
  in_managementFeeEur : string; in_otherExpensesEur : string; in_reserveHoldbackEur : string;
  in_recordedBy : string; in_notes : option string }.

Record CalculateResult := mkResult {
  r_operatingDistributionId : string; r_distributableNetEur : string; r_amountPerUnitEur : string;
  r_entriesCreated : nat; r_skippedNoWalletPositionIds : list string; r_alreadyCalculated : bool }.

Section Service.
(** [numeric k text] is what a NUMERIC column with [k] decimals stores for [text], in units of
    its last place; the ORM and the database may refuse it. *)
Context (ulid : nat → string) (numeric : nat → string → result Z).

(** ** The repository *)

Definition rent_for (pivId : string) (periodStart periodEnd : Z) (c : RentCollection.t) : bool :=
  bool_decide (RentCollection.pivId c = pivId) && (RentCollection.periodStart c =? periodStart) &&
  (RentCollection.periodEnd c =? periodEnd).

Definition distribution_for (pivId : string) (periodStart periodEnd : Z) (d : OperatingDistribution.t) : bool :=
  bool_decide (OperatingDistribution.pivId d = pivId) && (OperatingDistribution.periodStart d =? periodStart) &&
  (OperatingDistribution.periodEnd d =? periodEnd).

Definition toRentCollectionRecord (c : RentCollection.t) : RentCollectionRecord :=
  mkRentRecord (RentCollection.id c) (RentCollection.pivId c) (RentCollection.periodStart c)
    (RentCollection.periodEnd c) (decimal_toString 2 (RentCollection.grossRentCollectedEur c))
    (RentCollection.recordedBy c).

Definition awaiting (s : rental) (c : RentCollection.t) : bool :=
  negb (exists_row (by_id OperatingDistribution.rentCollectionId (RentCollection.id c)) (distributions s)).

Definition listRentCollectionsAwaitingDistribution (s : rental) : list RentCollectionRecord :=
  map toRentCollectionRecord (List.filter (awaiting s) (rentCollections s)).

Definition findRentCollection (pivId : string) (periodStart periodEnd : Z) (s : rental)
    : option RentCollectionRecord :=
  toRentCollectionRecord <$> find_row (rent_for pivId periodStart periodEnd) (rentCollections s).

Definition recordRentCollection (input : CalculateInput) : txn rental RentCollectionRecord := λ s,
  let '(id, d) := fresh ulid "rntcol_" (rn_db s) in
  let! gross := numeric 2 (in_grossRentCollectedEur input) in
  let c := RentCollection.mk id (in_pivId input) (in_periodStart input) (in_periodEnd input) gross
             (in_recordedBy input) (in_notes input) in
  if exists_row (by_id RentCollection.id id) (rentCollections s) then violation "rent_collections_pkey"
  else if exists_row (rent_for (in_pivId input) (in_periodStart input) (in_periodEnd input)) (rentCollections s)
    then violation "uq_rent_collections_piv_period"
  else if negb (exists_row (by_id Piv.id (in_pivId input)) (pivs (rn_db s))) then violation "rent_collections_piv_id_fkey"
  else if negb (exists_row (by_id Account.id (in_recordedBy input)) (accounts (rn_db s)))
    then violation "rent_collections_recorded_by_fkey"
  else Ok (toRentCollectionRecord c,
           mkRental d (rentCollections s ++ [c]) (distributions s) (entries s)).

Definition active_position (pivId : string) (p : Position.t) : bool :=
  bool_decide (Position.pivId p = pivId) && bool_decide (Position.status p = active).

Definition holder_of (p : Position.t) : ActivePositionHolder :=
  mkHolder (Position.id p) (decimal_toString 6 (Position.unitCount p)) (Position.holderWalletAddress p).

Definition listActivePositionHolders (pivId : string) (s : rental) : list ActivePositionHolder :=
  map holder_of (List.filter (active_position pivId) (positions (rn_db s))).

Definition entries_of (distributionId : string) (s : rental) : list DistributionEntry.t :=
  List.filter (by_id DistributionEntry.operatingDistributionId distributionId) (entries s).

Definition existing_of (s : rental) (d : OperatingDistribution.t) : ExistingOperatingDistribution :=
  mkExisting (OperatingDistribution.id d) (decimal_toString 2 (OperatingDistribution.distributableNetEur d))
    (decimal_toString 6 (OperatingDistribution.amountPerUnitEur d))
    (length (entries_of (OperatingDistribution.id d) s)).

Definition findDistribution (pivId : string) (periodStart periodEnd : Z) (s : rental)
    : option ExistingOperatingDistribution :=
  existing_of s <$> find_row (distribution_for pivId periodStart periodEnd) (distributions s).

Fixpoint create_entries (distributionId : string) (news : list NewEntry) (d : db)
    : result (list DistributionEntry.t * db) :=
  match news with
  | [] => Ok ([], d)
  | e :: news =>
      let '(id, d) := fresh ulid "opdistentry_" d in
      let! units := numeric 6 (ne_unitCountAtRecordDate e) in
      let! amount := numeric 6 (ne_amountEurc e) in
      let! (rows, d) := create_entries distributionId news d in
      Ok (DistributionEntry.mk id distributionId (ne_positionId e) units amount
            (ne_destinationWalletAddress e) :: rows, d)
  end.

Definition createOperatingDistribution (input : CalculateInput) (rentCollectionId : string) (recordDate : Z)
    (distributableNetEur totalUnits amountPerUnitEur : string) (news : list NewEntry) : txn rental string := λ s,
  let '(id, d) := fresh ulid "opdist_" (rn_db s) in
  let! gross := numeric 2 (in_grossRentCollectedEur input) in
  let! fee := numeric 2 (in_managementFeeEur input) in
  let! other := numeric 2 (in_otherExpensesEur input) in
  let! reserve := numeric 2 (in_reserveHoldbackEur input) in
  let! net := numeric 2 distributableNetEur in
  let! units := numeric 6 totalUnits in
  let! perUnit := numeric 6 amountPerUnitEur in
  if exists_row (by_id OperatingDistribution.id id) (distributions s) then violation "operating_distributions_pkey"
  else if exists_row (by_id OperatingDistribution.rentCollectionId rentCollectionId) (distributions s)
    then violation "operating_distributions_rent_collection_id_key"
  else if exists_row (distribution_for (in_pivId input) (in_periodStart input) (in_periodEnd input)) (distributions s)
    then violation "uq_operating_distributions_piv_period"
  else if negb (exists_row (by_id RentCollection.id rentCollectionId) (rentCollections s))
    then violation "operating_distributions_rent_collection_id_fkey"
  else if negb (exists_row (by_id Piv.id (in_pivId input)) (pivs d)) then violation "operating_distributions_piv_id_fkey"
  else if negb (forallb (λ e, exists_row (by_id Position.id (ne_positionId e)) (positions d)) news)
    then violation "operating_distribution_entries_position_id_fkey"
  else if negb (bool_decide (NoDup (map ne_positionId news))) then violation "uq_distribution_entries_dist_position"
  else
    let! (rows, d) := create_entries id news d in
    Ok (id, mkRental d (rentCollections s)
              (distributions s ++ [OperatingDistribution.mk id (in_pivId input) rentCollectionId
                 (in_periodStart input) (in_periodEnd input) recordDate gross fee other reserve net units perUnit])
              (entries s ++ rows)).

(** ** The service *)

Definition has_wallet (h : ActivePositionHolder) : bool := negb (bool_decide (h_walletAddress h = None)).

(** [totalUnits > 0n ? ... : "0.000000"], and the entries of the holders with a wallet. *)
Definition computeEntries (distributableNetEur : string) (holders : list ActivePositionHolder) (totalUnits : Z)
    : result (string * list NewEntry * list string) :=
  if 0 <? totalUnits then
    let! amountPerUnitEur := computeAmountPerUnit distributableNetEur (fromMicroUnits totalUnits) in
    let! news := rmap (λ h, let! amount := computeEntryAmount (h_unitCount h) amountPerUnitEur in
                            Ok (mkNewEntry (h_positionId h) (h_unitCount h) amount (default "" (h_walletAddress h))))
                   (List.filter has_wallet holders) in
    Ok (amountPerUnitEur, news, map h_positionId (List.filter (λ h, negb (has_wallet h)) holders))
  else Ok ("0.000000", [], []).

Definition CalculateOperatingDistribution_execute (input : CalculateInput) : io rental CalculateResult :=
  await existing := query (λ s, Ok (findDistribution (in_pivId input) (in_periodStart input) (in_periodEnd input) s)) in
  match existing with
  | Some ex =>
      ret (mkResult (ex_id ex) (ex_distributableNetEur ex) (ex_amountPerUnitEur ex) (ex_entryCount ex) [] true)
  | None =>
      await found := query (λ s, Ok (findRentCollection (in_pivId input) (in_periodStart input) (in_periodEnd input) s)) in
      await rent := match found with
                    | Some c => ret c
                    | None => transaction (recordRentCollection input)
                    end in
      await net := lift (computeDistributableNet (mkDeductions (in_grossRentCollectedEur input)
                     (in_managementFeeEur input) (in_otherExpensesEur input) (in_reserveHoldbackEur input))) in
      await holders := query (λ s, Ok (listActivePositionHolders (in_pivId input) s)) in
      await units := lift (rmap (λ h, toMicroUnits (h_unitCount h)) holders) in
      let totalUnits := sumZ units in
      await computed := lift (computeEntries net holders totalUnits) in
      let '(amountPerUnitEur, news, skipped) := computed in
      await id := transaction (createOperatingDistribution input (rc_id rent) (in_periodEnd input) net
                    (fromMicroUnits totalUnits) amountPerUnitEur news) in
      ret (mkResult id net amountPerUnitEur (length news) skipped false)
  end.

(** ** The sweep *)

Definition PLACEHOLDER_ZERO_EUR : string := "0.00".

Definition sweep_input (c : RentCollectionRecord) : CalculateInput :=
  mkCalculate (rc_pivId c) (rc_periodStart c) (rc_periodEnd c) (rc_grossRentCollectedEur c)
    PLACEHOLDER_ZERO_EUR PLACEHOLDER_ZERO_EUR PLACEHOLDER_ZERO_EUR (rc_recordedBy c) None.

Definition sweep_one (acted : nat) (c : RentCollectionRecord) : io rental nat :=
  await result := CalculateOperatingDistribution_execute (sweep_input c) in
  ret (if r_alreadyCalculated result then acted else S acted).

Definition RunOperatingDistributionSweep_execute : io rental (nat * nat) :=
  await pending := query (λ s, Ok (listRentCollectionsAwaitingDistribution s)) in
  await acted := iofold sweep_one 0%nat pending in
  ret (length pending, acted).

(** ** What a calculation writes *)

(** A column stores a text exactly when the text has the column's own number of decimals. *)
Context (numeric_point : ∀ k w f v, (0 < k <= 6)%nat → 0 ≤ w → 0 ≤ f < 10 ^ Z.of_nat k →
  numeric k (point_text k w f) = Ok v → v = w * 10 ^ Z.of_nat k + f).
Context (numeric_decimal : ∀ k n v, (0 < k <= 6)%nat → 0 ≤ n → numeric k (decimal_toString k n) = Ok v → v = n).

Lemma numeric_fromCents c v : 0 ≤ c → numeric 2 (fromCents c) = Ok v → v = c.
Proof.
  intros Hc. rewrite fromCents_point by done. intros H. apply numeric_point in H; [|lia|by apply Z.div_pos; lia|
    by apply Z.mod_pos_bound; lia]. change (10 ^ Z.of_nat 2) with 100 in H.
  pose proof (Z.div_mod c 100 ltac:(lia)). lia.
Qed.

Lemma numeric_micros m v :
  0 ≤ m → numeric 6 (point_text 6 (m / 1000000) (m mod 1000000)) = Ok v → v = m.
Proof.
  intros Hm H. apply numeric_point in H; [|lia|by apply Z.div_pos; lia|by apply Z.mod_pos_bound; lia].
  change (10 ^ Z.of_nat 6) with 1000000 in H. pose proof (Z.div_mod m 1000000 ltac:(lia)). lia.
Qed.

Lemma numeric_fromMicros m v : 0 ≤ m → numeric 6 (fromMicros m) = Ok v → v = m.
Proof. intros Hm. rewrite fromMicros_point by done. by apply numeric_micros. Qed.

(** The unit counts the database allows (position_ledger_unit_count_non_negative_check). *)
Definition units_ok (s : rental) : Prop := ∀ p, In p (positions (rn_db s)) → 0 ≤ Position.unitCount p.

Definition holders (pivId : string) (s : rental) : list Position.t :=
  List.filter (active_position pivId) (positions (rn_db s)).
Definition total_units (pivId : string) (s : rental) : Z := sumZ (map Position.unitCount (holders pivId s)).
Definition payable (p : Position.t) : bool := has_wallet (holder_of p).

(** The entry a payable holder gets at [perUnit] millionths per unit. *)
Definition share (perUnit : Z) (p : Position.t) : Z := Position.unitCount p * perUnit / MICROS_PER_UNIT.
Definition new_entry (perUnit : Z) (p : Position.t) : NewEntry :=
  mkNewEntry (Position.id p) (decimal_toString 6 (Position.unitCount p)) (fromMicros (share perUnit p))
    (default "" (Position.holderWalletAddress p)).

Definition per_unit (net total : Z) : Z := net * MICROS_PER_UNIT / total.

Lemma holders_units pivId s p : units_ok s → In p (holders pivId s) → 0 ≤ Position.unitCount p.
Proof. intros H Hp. apply H. by apply filter_In in Hp as [Hp _]. Qed.

Lemma units_read pivId s : units_ok s →
  rmap (λ h, toMicroUnits (h_unitCount h)) (listActivePositionHolders pivId s) =
    Ok (map Position.unitCount (holders pivId s)).
Proof.
  intros H. unfold listActivePositionHolders. fold (holders pivId s).
  assert (∀ p, In p (holders pivId s) → 0 ≤ Position.unitCount p) as Hu by eauto using holders_units.
  induction (holders pivId s) as [|p l IH]; simpl; [done|].
  rewrite toMicroUnits_decimal by (apply Hu; by left). simpl. rewrite IH by (intros; apply Hu; by right). done.
Qed.

Lemma filter_holder_of (q : ActivePositionHolder → bool) l :
  List.filter q (map holder_of l) = map holder_of (List.filter (λ p, q (holder_of p)) l).
Proof. induction l as [|p l IH]; simpl; [done|]. destruct (q (holder_of p)); simpl; by rewrite IH. Qed.

Lemma computeEntries_ok c pivId s : 0 ≤ c → units_ok s → 0 < total_units pivId s →
  let perUnit := per_unit (c * MICROS_PER_CENT) (total_units pivId s) in
  computeEntries (fromCents c) (listActivePositionHolders pivId s) (total_units pivId s) =
    Ok (fromMicros perUnit, map (new_entry perUnit) (List.filter payable (holders pivId s)),
        map Position.id (List.filter (λ p, negb (payable p)) (holders pivId s))).
Proof.
  intros Hc Hu Ht perUnit. unfold computeEntries. replace (0 <? _) with true by lia.
  rewrite computeAmountPerUnit_ok by done. cbn [rbind]. fold (per_unit (c * MICROS_PER_CENT) (total_units pivId s)).
  fold perUnit. unfold listActivePositionHolders. fold (holders pivId s).
  rewrite !filter_holder_of, map_map. change (λ p, has_wallet (holder_of p)) with payable.
  assert (0 ≤ perUnit) as Hp.
  { apply Z.div_pos; [unfold MICROS_PER_CENT, MICROS_PER_UNIT; lia | done]. }
  assert (∀ p, In p (List.filter payable (holders pivId s)) → 0 ≤ Position.unitCount p) as Hn.
  { intros p Hin. apply filter_In in Hin as [Hin _]. by eapply holders_units. }
  assert (rmap (λ h, let! amount := computeEntryAmount (h_unitCount h) (fromMicros perUnit) in
            Ok (mkNewEntry (h_positionId h) (h_unitCount h) amount (default "" (h_walletAddress h))))
            (map holder_of (List.filter payable (holders pivId s))) =
          Ok (map (new_entry perUnit) (List.filter payable (holders pivId s)))) as ->; [|done].
  induction (List.filter payable (holders pivId s)) as [|p l IH]; simpl; [done|].
  rewrite computeEntryAmount_ok by (done || (apply Hn; by left)). cbn [rbind].
  rewrite IH by (intros; apply Hn; by right). done.
Qed.

(** The row written for a holder. *)
Record entry_for (id : string) (perUnit : Z) (p : Position.t) (e : DistributionEntry.t) : Prop := {
  ef_distribution : DistributionEntry.operatingDistributionId e = id;
  ef_position : DistributionEntry.positionId e = Position.id p;
  ef_units : DistributionEntry.unitCountAtRecordDate e = Position.unitCount p;
  ef_amount : DistributionEntry.amountEurc e = share perUnit p;
  ef_wallet : Position.holderWalletAddress p = Some (DistributionEntry.destinationWalletAddress e) }.

Lemma payable_wallet p : payable p = true → Position.holderWalletAddress p = Some (default "" (Position.holderWalletAddress p)).
Proof. unfold payable, has_wallet. simpl. by destruct (Position.holderWalletAddress p). Qed.

Lemma create_entries_ok id perUnit l : ∀ d rows d',
  0 ≤ perUnit → (∀ p, In p l → payable p = true ∧ 0 ≤ Position.unitCount p) →
  create_entries id (map (new_entry perUnit) l) d = Ok (rows, d') →
  Forall2 (entry_for id perUnit) l rows ∧ ∃ n, d' = set_ulids n d.
Proof.
  induction l as [|p l IH]; intros d rows d' Hp Hl H; cbn -[fresh] in H.
  { injection H as <- <-. split; [constructor|]. exists (ulids d). by destruct d. }
  unfold fresh in H. apply rbind_ok in H as (u & Hu & H). apply rbind_ok in H as (a & Ha & H).
  apply rbind_ok in H as ([rows1 d1] & Hr & H). injection H as <- <-.
  destruct (Hl p (or_introl eq_refl)) as [Hw Hup].
  apply IH in Hr as [Hf (n & ->)]; [|done|by intros; apply Hl; right].
  split; [|by exists n]. constructor; [|done]. apply payable_wallet in Hw.
  apply numeric_decimal in Hu; [|lia|done].
  apply numeric_fromMicros in Ha; [|by apply Z.div_pos; [unfold share; nia | done]].
  by split.
Qed.

(** A calculation that was not already there. *)
Record calculated (input : CalculateInput) (s : rental) (r : CalculateResult) (cents : Z)
    (news : list DistributionEntry.t) (s' : rental) : Prop := {
  ca_absent : findDistribution (in_pivId input) (in_periodStart input) (in_periodEnd input) s = None;
  ca_net : ∃ g f o h,
    toMicros (in_grossRentCollectedEur input) = Ok g ∧ toMicros (in_managementFeeEur input) = Ok f ∧
    toMicros (in_otherExpensesEur input) = Ok o ∧ toMicros (in_reserveHoldbackEur input) = Ok h ∧
    cents = net_cents g f o h ∧ r_distributableNetEur r = fromCents cents;
  ca_row : ∃ d, distributions s' = distributions s ++ [d] ∧
    OperatingDistribution.id d = r_operatingDistributionId r ∧
    distribution_for (in_pivId input) (in_periodStart input) (in_periodEnd input) d = true ∧
    OperatingDistribution.distributableNetEur d = cents ∧
    toMicros (r_amountPerUnitEur r) = Ok (OperatingDistribution.amountPerUnitEur d) ∧
    0 ≤ OperatingDistribution.amountPerUnitEur d ∧
    (∃ c, In c (rentCollections s') ∧ RentCollection.id c = OperatingDistribution.rentCollectionId d ∧
       rent_for (in_pivId input) (in_periodStart input) (in_periodEnd input) c = true) ∧
    exists_row (by_id OperatingDistribution.id (OperatingDistribution.id d)) (distributions s) = false ∧
    exists_row (by_id OperatingDistribution.rentCollectionId (OperatingDistribution.rentCollectionId d))
      (distributions s) = false;
  ca_entries : entries s' = entries s ++ news;
  ca_count : r_entriesCreated r = length news;
  ca_shares :
    if 0 <? total_units (in_pivId input) s then
      Forall2 (entry_for (r_operatingDistributionId r)
                 (per_unit (cents * MICROS_PER_CENT) (total_units (in_pivId input) s)))
        (List.filter payable (holders (in_pivId input) s)) news ∧
      r_skippedNoWalletPositionIds r =
        map Position.id (List.filter (λ p, negb (payable p)) (holders (in_pivId input) s))
    else news = [] ∧ r_skippedNoWalletPositionIds r = [];
  ca_rents : rentCollections s' = rentCollections s ∨
    (find_row (rent_for (in_pivId input) (in_periodStart input) (in_periodEnd input)) (rentCollections s) = None ∧
     ∃ c, rentCollections s' = rentCollections s ++ [c] ∧
       exists_row (by_id RentCollection.id (RentCollection.id c)) (rentCollections s) = false ∧
       rent_for (in_pivId input) (in_periodStart input) (in_periodEnd input) c = true);
  ca_positions : positions (rn_db s') = positions (rn_db s) }.

(** The rent collection the distribution hangs off: the recorded one, or a new row. *)
Lemma rent_step input s rent s1 :
  (match findRentCollection (in_pivId input) (in_periodStart input) (in_periodEnd input) s with
   | Some c => ret c
   | None => transaction (recordRentCollection input)
   end) s = (Ok rent, s1) →
  distributions s1 = distributions s ∧ entries s1 = entries s ∧
  positions (rn_db s1) = positions (rn_db s) ∧
  (∃ c, In c (rentCollections s1) ∧ RentCollection.id c = rc_id rent ∧
     rent_for (in_pivId input) (in_periodStart input) (in_periodEnd input) c = true) ∧
  (rentCollections s1 = rentCollections s ∨
    (find_row (rent_for (in_pivId input) (in_periodStart input) (in_periodEnd input)) (rentCollections s) = None ∧
     ∃ c, rentCollections s1 = rentCollections s ++ [c] ∧
       exists_row (by_id RentCollection.id (RentCollection.id c)) (rentCollections s) = false ∧
       rent_for (in_pivId input) (in_periodStart input) (in_periodEnd input) c = true)).
Proof.
  unfold findRentCollection. destruct (find_row _ (rentCollections s)) as [c|] eqn:E; simpl.
  - intros [-> ->]%ret_ok. apply find_row_Some in E as [Hin Hf]. split_and!; try done; [by exists c|by left].
  - rewrite transaction_ok. unfold recordRentCollection, fresh. intros H.
    apply rbind_ok in H as (gross & _ & H). repeat (case_match; try done).
    injection H as <- <-. simpl. split_and!; try done.
    + eexists. rewrite in_app_iff. split; [right; by left|]. split; [done|].
      unfold rent_for. simpl. rewrite bool_decide_eq_true_2, !Z.eqb_refl by done. done.
    + right. split; [done|]. eexists. split_and!; [done|done|].
      unfold rent_for. simpl. rewrite bool_decide_eq_true_2, !Z.eqb_refl by done. done.
Qed.

Lemma net_texts input net :
  computeDistributableNet (mkDeductions (in_grossRentCollectedEur input) (in_managementFeeEur input)
    (in_otherExpensesEur input) (in_reserveHoldbackEur input)) = Ok net →
  ∃ g f o h,
    toMicros (in_grossRentCollectedEur input) = Ok g ∧ toMicros (in_managementFeeEur input) = Ok f ∧
    toMicros (in_otherExpensesEur input) = Ok o ∧ toMicros (in_reserveHoldbackEur input) = Ok h ∧
    net = fromCents (net_cents g f o h).
Proof.
  intros H. pose proof H as H0. unfold computeDistributableNet in H0. simpl in H0.
  apply rbind_ok in H0 as (g & Hg & H0). apply rbind_ok in H0 as (f & Hf & H0).
  apply rbind_ok in H0 as (o & Ho & H0). apply rbind_ok in H0 as (h & Hh & _).
  rewrite (computeDistributableNet_ok _ g f o h) in H by done. injection H as <-.
  by exists g, f, o, h.
Qed.

(** The rows [createOperatingDistribution] adds. *)
Lemma create_ok input rentId recordDate cents total perUnit l s id s' :
  0 ≤ cents → 0 ≤ perUnit → (∀ p, In p l → payable p = true ∧ 0 ≤ Position.unitCount p) →
  createOperatingDistribution input rentId recordDate (fromCents cents) total (fromMicros perUnit)
    (map (new_entry perUnit) l) s = Ok (id, s') →
  ∃ d rows, distributions s' = distributions s ++ [d] ∧ entries s' = entries s ++ rows ∧
    rentCollections s' = rentCollections s ∧ positions (rn_db s') = positions (rn_db s) ∧
    Forall2 (entry_for id perUnit) l rows ∧
    OperatingDistribution.id d = id ∧ OperatingDistribution.rentCollectionId d = rentId ∧
    distribution_for (in_pivId input) (in_periodStart input) (in_periodEnd input) d = true ∧
    OperatingDistribution.distributableNetEur d = cents ∧ OperatingDistribution.amountPerUnitEur d = perUnit ∧
    exists_row (by_id OperatingDistribution.id id) (distributions s) = false ∧
    exists_row (by_id OperatingDistribution.rentCollectionId rentId) (distributions s) = false.
Proof.
  intros Hc Hp Hl H. unfold createOperatingDistribution, fresh in H.
  apply rbind_ok in H as (gross & _ & H). apply rbind_ok in H as (fee & _ & H).
  apply rbind_ok in H as (other & _ & H). apply rbind_ok in H as (reserve & _ & H).
  apply rbind_ok in H as (net & Hnet & H). apply rbind_ok in H as (units & _ & H).
  apply rbind_ok in H as (pu & Hpu & H). repeat (case_match; try done).
  apply rbind_ok in H as ([rows d1] & Hr & H). injection H as <- <-.
  apply create_entries_ok in Hr as [Hf (n & ->)]; [|done..].
  apply numeric_fromCents in Hnet; [|done]. apply numeric_fromMicros in Hpu; [|done]. subst net pu.
  eexists _, rows. split_and!; try reflexivity; try done.
  unfold distribution_for. simpl. rewrite bool_decide_eq_true_2, !Z.eqb_refl by done. done.
Qed.

Lemma execute_new input s r s' :
  units_ok s → CalculateOperatingDistribution_execute input s = (Ok r, s') → r_alreadyCalculated r = false →
  ∃ cents news, calculated input s r cents news s'.
Proof.
  intros Hu H Hn. unfold CalculateOperatingDistribution_execute in H.
  apply iobind_ok in H as (ex & s0 & [[= <-] ->]%query_ok & H).
  destruct (findDistribution _ _ _ s) as [ex|] eqn:Eex.
  { apply ret_ok in H as [-> ->]. done. }
  apply iobind_ok in H as (found & s0 & [[= <-] ->]%query_ok & H).
  apply iobind_ok in H as (rent & s1 & Hrent & H).
  apply rent_step in Hrent as (Hd1 & He1 & Hp1 & Hc1 & Hrc).
  apply iobind_ok in H as (net & s0 & [Hnet ->]%lift_ok & H).
  apply net_texts in Hnet as (g & f & o & h & Hg & Hf & Ho & Hh & ->).
  destruct (net_cents_bounds g f o h) as [Hc0 _]. set (cents := net_cents g f o h) in *.
  assert (units_ok s1) as Hu1 by (intros p Hin; rewrite Hp1 in Hin; by apply Hu).
  apply iobind_ok in H as (hs & s0 & [[= <-] ->]%query_ok & H).
  rewrite units_read in H by done. apply iobind_ok in H as (us & s0 & [[= <-] ->]%lift_ok & H).
  cbv zeta in H. fold (total_units (in_pivId input) s1) in H.
  assert (holders (in_pivId input) s1 = holders (in_pivId input) s) as Hh1 by (unfold holders; by rewrite Hp1).
  assert (total_units (in_pivId input) s1 = total_units (in_pivId input) s) as Ht1
    by (unfold total_units; by rewrite Hh1).
  apply iobind_ok in H as ([[pu news] skipped] & s0 & [Hce ->]%lift_ok & H).
  apply iobind_ok in H as (id & s2 & Hcr%transaction_ok & [-> ->]%ret_ok).
  assert (∃ perUnit l, 0 ≤ perUnit ∧ pu = fromMicros perUnit ∧ news = map (new_entry perUnit) l ∧
    (∀ p, In p l → payable p = true ∧ 0 ≤ Position.unitCount p) ∧
    if 0 <? total_units (in_pivId input) s
    then perUnit = per_unit (cents * MICROS_PER_CENT) (total_units (in_pivId input) s) ∧
         l = List.filter payable (holders (in_pivId input) s) ∧
         skipped = map Position.id (List.filter (λ p, negb (payable p)) (holders (in_pivId input) s))
    else l = [] ∧ skipped = []) as (perUnit & l & Hpu & -> & -> & Hl & Hcase).
  { destruct (0 <? total_units (in_pivId input) s) eqn:Et; boolify.
    - rewrite computeEntries_ok in Hce by (done || lia). injection Hce as <- <- <-.
      rewrite Hh1, Ht1. eexists _, _. split_and!; [|done..| |done|done|done].
      + apply Z.div_pos; [unfold MICROS_PER_CENT, MICROS_PER_UNIT; lia | lia].
      + intros p [Hin Hpay]%filter_In. split; [done|]. exact (holders_units _ s p Hu Hin).
    - unfold computeEntries in Hce. replace (0 <? _) with false in Hce by lia. injection Hce as <- <- <-.
      exists 0, []. by split_and!. }
  apply create_ok in Hcr as (d & rows & Hd & He & Hr & Hp & Hf2 & Hid & Hrid & Hdf & Hdn & Hda & Hx1 & Hx2); [|done..].
  exists cents, rows. pose proof (Forall2_length _ _ _ Hf2) as Hlen.
  split; simpl; try congruence.
  - by exists g, f, o, h.
  - exists d. rewrite Hd, Hd1, Hr, Hda. split_and!; try done; try congruence.
    + by rewrite toMicros_fromMicros.
    + destruct Hc1 as (c & Hin & Hcid & Hcf). exists c. split_and!; [done|congruence|done].
  - rewrite length_map. congruence.
  - destruct (0 <? _) eqn:Et.
    + destruct Hcase as (-> & -> & ->). done.
    + destruct Hcase as (-> & ->). by inversion Hf2.
  - rewrite Hr. done.
Qed.

Lemma execute_known input s r s' :
  CalculateOperatingDistribution_execute input s = (Ok r, s') → r_alreadyCalculated r = true →
  s' = s ∧ ∃ ex, findDistribution (in_pivId input) (in_periodStart input) (in_periodEnd input) s = Some ex ∧
    r = mkResult (ex_id ex) (ex_distributableNetEur ex) (ex_amountPerUnitEur ex) (ex_entryCount ex) [] true.
Proof.
  intros H Hn. unfold CalculateOperatingDistribution_execute in H.
  apply iobind_ok in H as (ex & s0 & [[= <-] ->]%query_ok & H).
  destruct (findDistribution _ _ _ s) as [ex|]; [apply ret_ok in H as [-> ->]; eauto|].
  do 6 (apply iobind_ok in H as (? & ? & _ & H)). case_match. case_match.
  apply iobind_ok in H as (? & ? & _ & [-> ->]%ret_ok). done.
Qed.

(** ** The invariant *)

Record rental_wf (s : rental) : Prop := {
  wf_units : units_ok s;
  wf_entries : ∀ e, In e (entries s) →
    exists_row (by_id OperatingDistribution.id (DistributionEntry.operatingDistributionId e)) (distributions s) = true;
  wf_rent_ids : List.NoDup (map RentCollection.id (rentCollections s));
  wf_rent_periods : ∀ c c', In c (rentCollections s) → In c' (rentCollections s) →
    rent_for (RentCollection.pivId c) (RentCollection.periodStart c) (RentCollection.periodEnd c) c' = true → c = c';
  wf_rents : ∀ d, In d (distributions s) → ∃ c, In c (rentCollections s) ∧
    RentCollection.id c = OperatingDistribution.rentCollectionId d ∧
    rent_for (OperatingDistribution.pivId d) (OperatingDistribution.periodStart d)
      (OperatingDistribution.periodEnd d) c = true }.

Lemma rent_for_true piv a b c : rent_for piv a b c = true ↔
  RentCollection.pivId c = piv ∧ RentCollection.periodStart c = a ∧ RentCollection.periodEnd c = b.
Proof. unfold rent_for. rewrite !andb_true_iff, bool_decide_eq_true, !Z.eqb_eq. tauto. Qed.

Lemma distribution_for_true piv a b d : distribution_for piv a b d = true ↔
  OperatingDistribution.pivId d = piv ∧ OperatingDistribution.periodStart d = a ∧ OperatingDistribution.periodEnd d = b.
Proof. unfold distribution_for. rewrite !andb_true_iff, bool_decide_eq_true, !Z.eqb_eq. tauto. Qed.

Lemma exists_row_app {A} (q : A → bool) l1 l2 : exists_row q (l1 ++ l2) = exists_row q l1 || exists_row q l2.
Proof. apply existsb_app. Qed.

(** Every entry of a calculation belongs to the distribution it created. *)
Lemma calculated_entry_ids input s r cents news s' : calculated input s r cents news s' →
  ∀ e, In e news → DistributionEntry.operatingDistributionId e = r_operatingDistributionId r.
Proof.
  intros [] e He. destruct (0 <? _).
  - destruct ca_shares0 as [Hf _]. by destruct (Forall2_In_r _ _ _ _ Hf He) as (p & _ & []).
  - destruct ca_shares0 as [-> _]. done.
Qed.

Lemma wf_rents_preserved input s r cents news s' : rental_wf s → calculated input s r cents news s' →
  List.NoDup (map RentCollection.id (rentCollections s')) ∧
  (∀ c c', In c (rentCollections s') → In c' (rentCollections s') →
    rent_for (RentCollection.pivId c) (RentCollection.periodStart c) (RentCollection.periodEnd c) c' = true → c = c') ∧
  (∀ c, In c (rentCollections s) → In c (rentCollections s')).
Proof.
  intros W C. destruct (ca_rents _ _ _ _ _ _ C) as [->|(Hn & c0 & -> & Hid & Hf0)].
  { destruct W. by split_and!. }
  rewrite find_row_None in Hn. apply rent_for_true in Hf0 as (E1 & E2 & E3). split_and!.
  - rewrite map_app. apply NoDup_snoc; [apply W|]. intros Hin. apply in_map_iff in Hin as (c & Hc & Hin).
    eapply Bool.not_true_iff_false; [exact Hid|]. apply existsb_exists. exists c.
    split; [done|]. by apply bool_decide_eq_true_2.
  - intros c c' Hc Hc' (F1 & F2 & F3)%rent_for_true. rewrite in_app_iff in Hc, Hc'.
    destruct Hc as [Hc|[<-|[]]], Hc' as [Hc'|[<-|[]]]; try done.
    + eapply W; [done..|]. by apply rent_for_true.
    + specialize (Hn c Hc). apply Bool.not_true_iff_false in Hn as []. apply rent_for_true. split_and!; congruence.
    + specialize (Hn c' Hc'). apply Bool.not_true_iff_false in Hn as []. apply rent_for_true. split_and!; congruence.
  - intros c Hc. rewrite in_app_iff. by left.
Qed.

Lemma calculated_wf input s r cents news s' : rental_wf s → calculated input s r cents news s' → rental_wf s'.
Proof.
  intros W C. destruct (wf_rents_preserved _ _ _ _ _ _ W C) as (H1 & H2 & H3).
  pose proof (calculated_entry_ids _ _ _ _ _ _ C) as Hids.
  destruct (ca_row _ _ _ _ _ _ C) as (d & Hd & Hid & Hdf & _ & _ & _ & (c & Hc & Hcid & Hcf) & _).
  split; [| |done|done|].
  - intros p. rewrite (ca_positions _ _ _ _ _ _ C). apply W.
  - intros e. rewrite (ca_entries _ _ _ _ _ _ C), Hd, in_app_iff, exists_row_app. intros [He|He].
    + by rewrite (wf_entries _ W e He).
    + simpl. rewrite (Hids e He), <- Hid. unfold by_id. rewrite (bool_decide_eq_true_2 (_ = _)) by done.
      by rewrite orb_true_r.
  - intros d'. rewrite Hd, in_app_iff. intros [Hd'|[<-|[]]].
    + destruct (wf_rents _ W d' Hd') as (c' & Hc' & ?). eauto.
    + apply distribution_for_true in Hdf as (-> & -> & ->). eauto.
Qed.

Lemma execute_wf input s r s' :
  rental_wf s → CalculateOperatingDistribution_execute input s = (Ok r, s') → rental_wf s'.
Proof.
  intros W H. destruct (r_alreadyCalculated r) eqn:E.
  - by apply execute_known in H as [-> _].
  - apply execute_new in H as (cents & news & C); [|apply W|done]. by eapply calculated_wf.
Qed.

(** ** The amounts *)

Lemma entries_amounts id perUnit l rows : Forall2 (entry_for id perUnit) l rows →
  map DistributionEntry.amountEurc rows = map (λ u, u * perUnit / MICROS_PER_UNIT) (map Position.unitCount l).
Proof. induction 1 as [|p e l rows []]; simpl; [done|]. by f_equal. Qed.

Lemma sumZ_filter_le {A} (f : A → Z) q l : (∀ x, In x l → 0 ≤ f x) → sumZ (map f (List.filter q l)) ≤ sumZ (map f l).
Proof.
  intros H. rewrite sumZ_filter. apply sumZ_map_le. intros x Hx. specialize (H x Hx). destruct (q x); lia.
Qed.

Lemma filter_all {A} (q : A → bool) l : List.filter (λ x, negb (q x)) l = [] → List.filter q l = l.
Proof.
  induction l as [|x l IH]; simpl; [done|]. destruct (q x); simpl; [|done]. intros H. by rewrite IH.
Qed.

(** Paid out against the net, and how far it may fall short when nobody was skipped. *)
Lemma calculated_amounts input s r cents news s' :
  units_ok s → 0 ≤ cents → calculated input s r cents news s' →
  sumZ (map DistributionEntry.amountEurc news) ≤ cents * MICROS_PER_CENT ∧
  (0 < total_units (in_pivId input) s → r_skippedNoWalletPositionIds r = [] →
   MICROS_PER_UNIT * (cents * MICROS_PER_CENT - sumZ (map DistributionEntry.amountEurc news)) ≤
     (total_units (in_pivId input) s - 1) + Z.of_nat (length news) * (MICROS_PER_UNIT - 1)).
Proof.
  intros Hu Hc C. pose proof (ca_shares _ _ _ _ _ _ C) as Hs.
  assert (0 ≤ cents * MICROS_PER_CENT) as Hn by (unfold MICROS_PER_CENT; lia).
  destruct (0 <? total_units (in_pivId input) s) eqn:Et; boolify.
  2:{ destruct Hs as [-> _]. simpl. split; [done | lia]. }
  destruct Hs as [Hf Hsk]. set (total := total_units (in_pivId input) s) in *.
  destruct (per_unit_bounds (cents * MICROS_PER_CENT) total Hn Et) as (Hp0 & Hp1 & Hp2).
  fold (per_unit (cents * MICROS_PER_CENT) total) in *. set (pu := per_unit _ total) in *.
  rewrite (entries_amounts _ _ _ _ Hf). rewrite <- (Forall2_length _ _ _ Hf).
  set (us := map Position.unitCount (List.filter payable (holders (in_pivId input) s))).
  destruct (shares_bounds us pu MICROS_PER_UNIT ltac:(done)) as [Hs1 Hs2].
  assert (sumZ us ≤ total) as Hle by (apply sumZ_filter_le; intros p Hp; exact (holders_units _ s p Hu Hp)).
  split; [unfold MICROS_PER_UNIT in *; nia|].
  intros _ Hnil. rewrite Hnil in Hsk. symmetry in Hsk. apply map_eq_nil, filter_all in Hsk.
  assert (sumZ us = total) as Heq by (unfold us, total, total_units; by rewrite Hsk).
  rewrite Heq in Hs2. unfold us in Hs2. rewrite !length_map in Hs2. fold us in Hs2. lia.
Qed.

(** ** Claims *)

(** C24: a distribution pays out no more than the net of the sums it is given.  When a
    calculation creates a distribution, the entries' EURC amounts sum to at most the
    distributable net, which is the gross of the request less its three deductions, floored at
    zero and cut to whole cents; when no holder is skipped for want of a wallet, what is left
    undistributed is less than one millionth of a euro per unit and per entry.  The sums are
    those of the request: nothing compares them with the rent on record, and a deduction may be
    negative (net_is_not_bounded_by_recorded_rent). *)
Theorem distribution_within_net input s r s' :
  units_ok s → CalculateOperatingDistribution_execute input s = (Ok r, s') → r_alreadyCalculated r = false →
  ∃ g f o h news,
    toMicros (in_grossRentCollectedEur input) = Ok g ∧ toMicros (in_managementFeeEur input) = Ok f ∧
    toMicros (in_otherExpensesEur input) = Ok o ∧ toMicros (in_reserveHoldbackEur input) = Ok h ∧
    let net := net_cents g f o h * MICROS_PER_CENT in
    let total := total_units (in_pivId input) s in
    let paid := sumZ (map DistributionEntry.amountEurc news) in
    toMicros (r_distributableNetEur r) = Ok net ∧
    entries s' = entries s ++ news ∧ length news = r_entriesCreated r ∧
    paid ≤ net ∧ net ≤ Z.max 0 (g - f - o - h) ∧
    (0 < total → r_skippedNoWalletPositionIds r = [] →
     MICROS_PER_UNIT * (net - paid) ≤ (total - 1) + Z.of_nat (length news) * (MICROS_PER_UNIT - 1)).
Proof.
  intros Hu H Hn. apply execute_new in H as (cents & news & C); [|done..].
  destruct (ca_net _ _ _ _ _ _ C) as (g & f & o & h & Hg & Hf & Ho & Hh & -> & Ht).
  destruct (net_cents_bounds g f o h) as [Hc0 Hc1].
  destruct (calculated_amounts _ _ _ _ _ _ Hu Hc0 C) as [H1 H2].
  exists g, f, o, h, news. cbv zeta. split_and!; try done.
  - rewrite Ht. by apply toMicros_fromCents.
  - apply C.
  - symmetry. apply C.
Qed.

Lemma filter_none {A} (q : A → bool) l : (∀ x, In x l → q x = false) → List.filter q l = [].
Proof. induction l as [|x l IH]; intros H; simpl; [done|]. rewrite (H x (or_introl eq_refl)). auto using in_cons. Qed.

Lemma filter_every {A} (q : A → bool) l : (∀ x, In x l → q x = true) → List.filter q l = l.
Proof.
  induction l as [|x l IH]; intros H; simpl; [done|]. rewrite (H x (or_introl eq_refl)).
  f_equal. auto using in_cons.
Qed.

Lemma find_distribution_new input s r cents news s' :
  rental_wf s → calculated input s r cents news s' → 0 ≤ cents →
  ∃ ex, findDistribution (in_pivId input) (in_periodStart input) (in_periodEnd input) s' = Some ex ∧
    ex_id ex = r_operatingDistributionId r ∧ ex_entryCount ex = r_entriesCreated r ∧
    toMicros (ex_distributableNetEur ex) = toMicros (r_distributableNetEur r) ∧
    toMicros (ex_amountPerUnitEur ex) = toMicros (r_amountPerUnitEur r).
Proof.
  intros W C Hc. destruct (ca_row _ _ _ _ _ _ C) as (d & Hd & Hid & Hdf & Hdn & Hda & Hd0 & _ & Hx & _).
  pose proof (ca_absent _ _ _ _ _ _ C) as Hab. unfold findDistribution in *.
  destruct (find_row _ (distributions s)) eqn:E; [done|]. rewrite Hd, find_row_app, E.
  unfold find_row. simpl. rewrite Hdf. simpl. eexists. split; [done|]. simpl. split_and!; [done| | |].
  - rewrite (ca_count _ _ _ _ _ _ C). unfold entries_of. rewrite (ca_entries _ _ _ _ _ _ C), List.filter_app.
    rewrite (filter_none _ (entries s)), (filter_every _ news); [done|..]; intros e He; unfold by_id.
    + apply bool_decide_eq_true_2. rewrite Hid. by apply (calculated_entry_ids _ _ _ _ _ _ C).
    + apply bool_decide_eq_false_2. intros Ee.
      apply (Bool.eq_true_false_abs _ (wf_entries _ W e He)). rewrite Ee. exact Hx.
  - destruct (ca_net _ _ _ _ _ _ C) as (g & f & o & h & _ & _ & _ & _ & _ & ->).
    rewrite toMicros_fromCents, toMicros_decimal, Hdn by lia. done.
  - rewrite Hda, toMicros_decimal by lia. change (10 ^ Z.of_nat (6 - 6)) with 1. f_equal. lia.
Qed.

(** Two inputs for the same PIV and period. *)
Definition same_period (input input' : CalculateInput) : Prop :=
  in_pivId input' = in_pivId input ∧ in_periodStart input' = in_periodStart input ∧
  in_periodEnd input' = in_periodEnd input.

Lemma execute_existing input s ex :
  findDistribution (in_pivId input) (in_periodStart input) (in_periodEnd input) s = Some ex →
  CalculateOperatingDistribution_execute input s =
    (Ok (mkResult (ex_id ex) (ex_distributableNetEur ex) (ex_amountPerUnitEur ex) (ex_entryCount ex) [] true), s).
Proof. intros H. unfold CalculateOperatingDistribution_execute, iobind, query. by rewrite H. Qed.

(** A period is calculated once.  After a calculation that returned, any calculation for
    the same PIV and period, whatever its other figures, changes nothing and answers with
    the recorded distribution: the same identifier and entry count, and the same net and
    per-unit amounts. *)
Theorem distribution_replay input input' s r s' :
  rental_wf s → CalculateOperatingDistribution_execute input s = (Ok r, s') → same_period input input' →
  ∃ r', CalculateOperatingDistribution_execute input' s' = (Ok r', s') ∧
    r_alreadyCalculated r' = true ∧ r_operatingDistributionId r' = r_operatingDistributionId r ∧
    r_entriesCreated r' = r_entriesCreated r ∧
    toMicros (r_distributableNetEur r') = toMicros (r_distributableNetEur r) ∧
    toMicros (r_amountPerUnitEur r') = toMicros (r_amountPerUnitEur r).
Proof.
  intros W H (E1 & E2 & E3). assert (∃ ex,
    findDistribution (in_pivId input) (in_periodStart input) (in_periodEnd input) s' = Some ex ∧
    ex_id ex = r_operatingDistributionId r ∧ ex_entryCount ex = r_entriesCreated r ∧
    toMicros (ex_distributableNetEur ex) = toMicros (r_distributableNetEur r) ∧
    toMicros (ex_amountPerUnitEur ex) = toMicros (r_amountPerUnitEur r)) as (ex & Hf & ? & ? & ? & ?).
  { destruct (r_alreadyCalculated r) eqn:E.
    - apply execute_known in H as (-> & ex & Hf & ->); [|done]. by exists ex.
    - apply execute_new in H as (cents & news & C); [|apply W|done]. eapply find_distribution_new; [done..|].
      destruct (ca_net _ _ _ _ _ _ C) as (g & f & o & h & _ & _ & _ & _ & -> & _). apply net_cents_bounds. }
  rewrite <- E1, <- E2, <- E3 in Hf. eexists. split; [by apply execute_existing|]. done.
Qed.

(** *** The sweep *)

Lemma awaiting_app s s' d c : distributions s' = distributions s ++ [d] →
  awaiting s' c = awaiting s c && negb (bool_decide (OperatingDistribution.rentCollectionId d = RentCollection.id c)).
Proof.
  intros H. unfold awaiting. rewrite H, exists_row_app, negb_orb. simpl. by rewrite orb_false_r.
Qed.

(** A rent collection that awaits distribution gets one, and no other does. *)
Lemma sweep_one_ok acted s c acted' s' :
  rental_wf s → In c (rentCollections s) → awaiting s c = true →
  sweep_one acted (toRentCollectionRecord c) s = (Ok acted', s') →
  acted' = S acted ∧ rental_wf s' ∧ rentCollections s' = rentCollections s ∧
  ∀ c', In c' (rentCollections s) →
    awaiting s' c' = awaiting s c' && negb (bool_decide (RentCollection.id c = RentCollection.id c')).
Proof.
  intros W Hc Ha H. unfold sweep_one in H. apply iobind_ok in H as (r & s1 & H & [-> ->]%ret_ok).
  pose proof (execute_wf _ _ _ _ W H) as W'. destruct (r_alreadyCalculated r) eqn:E.
  - apply execute_known in H as (_ & ex & Hf & _); [|done]. exfalso. unfold findDistribution in Hf.
    destruct (find_row _ (distributions s)) as [d|] eqn:Ed; [|done].
    apply find_row_Some in Ed as [Hin (F1 & F2 & F3)%distribution_for_true]. simpl in *.
    destruct (wf_rents _ W d Hin) as (c0 & Hc0 & Hid & Hf0). rewrite F1, F2, F3 in Hf0.
    pose proof (wf_rent_periods _ W c c0 Hc Hc0 Hf0) as <-.
    unfold awaiting in Ha. apply negb_true_iff in Ha.
    apply Bool.not_true_iff_false in Ha as []. apply existsb_exists. exists d. split; [done|].
    by apply bool_decide_eq_true_2.
  - apply execute_new in H as (cents & news & C); [|apply W|done].
    destruct (ca_row _ _ _ _ _ _ C) as (d & Hd & _ & Hdf & _ & _ & _ & (c0 & Hc0 & Hid & Hf0) & _). simpl in *.
    assert (rentCollections s1 = rentCollections s) as Hr.
    { destruct (ca_rents _ _ _ _ _ _ C) as [->|(Hn & _)]; [done|]. rewrite find_row_None in Hn.
      specialize (Hn c Hc). apply Bool.not_true_iff_false in Hn as []. by apply rent_for_true. }
    rewrite Hr in Hc0. pose proof (wf_rent_periods _ W c c0 Hc Hc0 Hf0) as <-.
    split_and!; [done..|]. intros c' Hc'. rewrite (awaiting_app _ _ _ _ Hd). by rewrite Hid.
Qed.

Lemma distribution_sweep_fold l : ∀ acted s n s',
  rental_wf s → List.NoDup (map RentCollection.id l) →
  (∀ c, In c l → In c (rentCollections s) ∧ awaiting s c = true) →
  iofold sweep_one acted (map toRentCollectionRecord l) s = (Ok n, s') →
  n = (acted + length l)%nat ∧ rental_wf s' ∧ rentCollections s' = rentCollections s ∧
  ∀ c', In c' (rentCollections s) → awaiting s' c' = true → awaiting s c' = true ∧ ¬ In c' l.
Proof.
  induction l as [|c l IH]; intros acted s n s' W Hnd Hl H; simpl in H.
  { apply ret_ok in H as [-> ->]. simpl. split_and!; [lia|done..|]. intros c' _ Ha. split; [done | tauto]. }
  apply List.NoDup_cons_iff in Hnd as [Hnot Hnd]. destruct (Hl c (or_introl eq_refl)) as [Hc Ha].
  apply iobind_ok in H as (acted1 & s1 & H1 & H).
  apply sweep_one_ok in H1 as (-> & W1 & Hr1 & Haw); [|done..].
  apply IH in H as (-> & W' & Hr & Hrest); [|done|done|].
  - simpl. split_and!; [lia|done|congruence|]. intros c' Hc' Ha'. rewrite Hr1 in Hrest.
    destruct (Hrest c' Hc' Ha') as [Ha1 Hnl]. rewrite Haw in Ha1 by done.
    apply andb_true_iff in Ha1 as [Ha1 Hne]. split; [done|]. intros [->|Hin]; [|done].
    by rewrite bool_decide_eq_true_2 in Hne.
  - intros c' Hin. destruct (Hl c' (or_intror Hin)) as [Hc' Ha']. rewrite Hr1. split; [done|].
    rewrite Haw by done. rewrite Ha'. simpl. apply negb_true_iff, bool_decide_eq_false_2.
    intros E. apply Hnot. rewrite E. by apply in_map.
Qed.

(** The sweep leaves nothing behind.  A sweep that returns has created a distribution for
    every rent collection that awaited one, and none awaits one afterwards. *)
Theorem sweep_distributes_everything s checked acted s' :
  rental_wf s → RunOperatingDistributionSweep_execute s = (Ok (checked, acted), s') →
  checked = length (listRentCollectionsAwaitingDistribution s) ∧ acted = checked ∧
  listRentCollectionsAwaitingDistribution s' = [] ∧ rentCollections s' = rentCollections s.
Proof.
  intros W H. apply iobind_ok in H as (pending & s0 & [[= <-] ->]%query_ok & H).
  apply iobind_ok in H as (n & s1 & H & Hret). apply ret_ok in Hret as [[= -> ->] ->].
  unfold listRentCollectionsAwaitingDistribution at 1 in H. apply distribution_sweep_fold in H as (-> & W' & Hr & Hrest).
  - split_and!; [done|by unfold listRentCollectionsAwaitingDistribution; rewrite length_map| |done].
    unfold listRentCollectionsAwaitingDistribution. rewrite filter_none; [done|]. intros c Hc. rewrite Hr in Hc.
    destruct (awaiting s1 c) eqn:E; [|done]. destruct (Hrest c Hc E) as [Ha []]. by apply filter_In.
  - done.
  - apply NoDup_map_filter, W.
  - intros c [Hc Ha]%filter_In. done.
Qed.

End Service.

(** ** A PIV with two holders *)

(** A NUMERIC column: the decimal value, refused when it has more decimals than the column. *)
Definition column (k : nat) (text : string) : result Z :=
  let! m := toMicros text in
  let unit := 10 ^ Z.of_nat (6 - k) in
  if m mod unit =? 0 then Ok (m / unit) else Err (Thrown "numeric").

Lemma column_unit k m v : (0 < k <= 6)%nat →
  (if m * 10 ^ Z.of_nat (6 - k) mod 10 ^ Z.of_nat (6 - k) =? 0
   then Ok (m * 10 ^ Z.of_nat (6 - k) / 10 ^ Z.of_nat (6 - k)) else Err (Thrown "numeric")) = Ok v → v = m.
Proof.
  intros Hk. rewrite Z.mod_mul, Z.div_mul by (apply Z.pow_nonzero; lia). simpl. by intros [= <-].
Qed.

Lemma column_decimal : ∀ k n v, (0 < k <= 6)%nat → 0 ≤ n → column k (decimal_toString k n) = Ok v → v = n.
Proof. intros k n v Hk Hn H. unfold column in H. rewrite toMicros_decimal in H by done. by eapply column_unit. Qed.

Lemma column_point : ∀ k w f v, (0 < k <= 6)%nat → 0 ≤ w → 0 ≤ f < 10 ^ Z.of_nat k →
  column k (point_text k w f) = Ok v → v = w * 10 ^ Z.of_nat k + f.
Proof.
  intros k w f v Hk Hw Hf H. unfold column in H. rewrite toMicros_point in H by done. cbn [rbind] in H.
  replace (w * MICROS_PER_UNIT + f * 10 ^ Z.of_nat (6 - k)) with
    ((w * 10 ^ Z.of_nat k + f) * 10 ^ Z.of_nat (6 - k)) in H; [by eapply column_unit|].
  rewrite Z.mul_add_distr_r, <- Z.mul_assoc, <- Z.pow_add_r by lia.
  by replace (Z.of_nat k + Z.of_nat (6 - k)) with 6 by lia.
Qed.

Definition demo_ulid (n : nat) : string := JsString.BigInt_toString (Z.of_nat n).
Definition demo_position (id wallet : string) (units : Z) : Position.t :=
  Position.mk id None "piv" id units units active (Some wallet) None None.
Definition demo_db : db :=
  mkDb [Account.mk "staff" acc_active [] None []] [] [] [Piv.mk "piv" "property" "case" None] [] [] [] [] []
    [demo_position "p1" "0xa" 1500000; demo_position "p2" "0xb" 1500000] [] [] [] 0 0.
Definition demo_rental : rental :=
  mkRental demo_db [RentCollection.mk "rc" "piv" 0 30 10001 "staff" None] [] [].
Definition demo_input : CalculateInput :=
  mkCalculate "piv" 0 30 "100.01" "10.00" "0.00" "0.00" "staff" None.

Lemma demo_rental_wf : rental_wf demo_rental.
Proof.
  split; simpl; try done.
  - intros p [<-|[<-|[]]]; simpl; lia.
  - repeat constructor; tauto.
  - by intros c c' [<-|[]] [<-|[]].
Qed.

Lemma distribution_within_net_witness :
  ∃ r s', CalculateOperatingDistribution_execute demo_ulid column demo_input demo_rental = (Ok r, s') ∧
    r_alreadyCalculated r = false ∧
    ∃ news, entries s' = entries demo_rental ++ news ∧ length news = r_entriesCreated r.
Proof.
  destruct (CalculateOperatingDistribution_execute demo_ulid column demo_input demo_rental) as [[r|e] s'] eqn:E;
    [|vm_compute in E; discriminate E].
  exists r, s'. assert (r_alreadyCalculated r = false) as Hn by (vm_compute in E; injection E as <- _; reflexivity).
  split; [reflexivity|]. split; [exact Hn|].
  destruct (distribution_within_net demo_ulid column column_point column_decimal demo_input demo_rental r s'
    (wf_units _ demo_rental_wf) E Hn) as (g & f & o & h & news & _ & _ & _ & _ & _ & H1 & H2 & _).
  exists news. split; [exact H1 | exact H2].
Defined.

(** A rent of 100.01 EUR is on record; a calculation given a gross of 500.00 EUR and a fee of -10.00 EUR distributes
    510.00 EUR. *)
Theorem net_is_not_bounded_by_recorded_rent :
  ∃ r s', CalculateOperatingDistribution_execute demo_ulid column
      (mkCalculate "piv" 0 30 "500.00" "-10.00" "0.00" "0.00" "staff" None) demo_rental = (Ok r, s') ∧
    map RentCollection.grossRentCollectedEur (rentCollections demo_rental) = [10001] ∧
    sumZ (map DistributionEntry.amountEurc (entries s')) = 510000000.
Proof. eexists _, _. split; [vm_compute; reflexivity|]. split; vm_compute; reflexivity. Qed.

Lemma distribution_replay_witness :
  ∃ r s' r', CalculateOperatingDistribution_execute demo_ulid column demo_input demo_rental = (Ok r, s') ∧
    CalculateOperatingDistribution_execute demo_ulid column
      (mkCalculate "piv" 0 30 "999.00" "0.00" "0.00" "0.00" "staff" None) s' = (Ok r', s') ∧
    r_operatingDistributionId r' = r_operatingDistributionId r.
Proof.
  destruct (CalculateOperatingDistribution_execute demo_ulid column demo_input demo_rental) as [[r|e] s'] eqn:E;
    [|vm_compute in E; discriminate E].
  destruct (distribution_replay demo_ulid column column_point column_decimal demo_input
    (mkCalculate "piv" 0 30 "999.00" "0.00" "0.00" "0.00" "staff" None) demo_rental r s' demo_rental_wf E
    (conj eq_refl (conj eq_refl eq_refl))) as (r' & H1 & _ & H2 & _).
  exists r, s', r'. split; [reflexivity|]. split; [exact H1 | exact H2].
Defined.

Lemma sweep_distributes_everything_witness :
  ∃ s', RunOperatingDistributionSweep_execute demo_ulid column demo_rental = (Ok (1%nat, 1%nat), s') ∧
    listRentCollectionsAwaitingDistribution s' = [].
Proof.
  destruct (RunOperatingDistributionSweep_execute demo_ulid column demo_rental) as [[[c a]|e] s'] eqn:E;
    [|vm_compute in E; discriminate E].
  destruct (sweep_distributes_everything demo_ulid column column_point column_decimal demo_rental c a s'
    demo_rental_wf E) as (Hc & Ha & Hl & _).
  exists s'. split; [|exact Hl]. subst a c. reflexivity.
Defined.

End Rental.
