(* ===== verification/Idempotency.v ===== *)
(** The Idempotency-Key guard of the high-risk writes: src/src/shared/http/idempotency.ts and
    src/src/infrastructure/idempotency/prisma-idempotency-store.ts. *)

From S2P Require Import Prelude JsString.
From stdpp Require Import sorting.
From Stdlib Require Import Ascii String.

Module Idempotency.

(** ** Request bodies *)

(** A parsed JSON body; a number is its JavaScript text, an object its keys in insertion
    order (JSON.parse never leaves two equal keys). *)
Inductive value :=
  | VUndefined
  | VNull
  | VBool (b : bool)
  | VNum (text : string)
  | VStr (s : string)
  | VArr (l : list value)
  | VObj (l : list (string * value)).

#[local] Arguments String.append !_ _ /.

Definition hex_digit (n : nat) : ascii :=
  ascii_of_nat (if (n <? 10)%nat then 48 + n else 87 + n).

(** JSON.stringify of a string: quotes, backslashes and control characters are escaped. *)
Definition escape_char (c : ascii) : string :=
  let n := nat_of_ascii c in
  let bs := ascii_of_nat 92 in
  if (Nat.eqb n 34 || Nat.eqb n 92)%bool then String bs (String c EmptyString)
  else if Nat.eqb n 8 then String bs "b"
  else if Nat.eqb n 12 then String bs "f"
  else if Nat.eqb n 10 then String bs "n"
  else if Nat.eqb n 13 then String bs "r"
  else if Nat.eqb n 9 then String bs "t"
  else if (n <? 32)%nat
    then String bs (String.append "u00" (String (hex_digit (n / 16)) (String (hex_digit (n mod 16)) EmptyString)))
  else String c EmptyString.

Fixpoint escape (s : string) : string :=
  match s with EmptyString => EmptyString | String c s => String.append (escape_char c) (escape s) end.

Definition quote (s : string) : string :=
  let q := String (ascii_of_nat 34) EmptyString in String.append q (String.append (escape s) q).

(** [parts.join(",")] *)
Fixpoint join (parts : list string) : string :=
  match parts with
  | [] => EmptyString
  | [p] => p
  | p :: parts => String.append p (String "," (join parts))
  end.

(** [Array.prototype.sort] on the keys, by code unit. *)
Definition key_le {A} (x y : string * A) : Prop := String.leb x.1 y.1 = true.
#[global] Instance key_le_dec {A} : ∀ x y : string * A, Decision (key_le x y).
Proof. intros x y. unfold key_le. apply _. Defined.

Fixpoint stableStringify (v : value) : string :=
  match v with
  | VArr l => String "[" (String.append (join (map stableStringify l)) "]")
  | VObj l =>
      let entries := map (λ kv, (kv.1, String.append (quote kv.1) (String ":" (stableStringify kv.2)))) l in
      String "{" (String.append (join (map snd (merge_sort key_le entries))) "}")
  | VUndefined => "undefined"
  | VNull => "null"
  | VBool true => "true"
  | VBool false => "false"
  | VNum text => text
  | VStr s => quote s
  end.

(** *** Key order does not matter *)

Lemma ascii_compare_trans a b c :
  Ascii.compare a b ≠ Gt → Ascii.compare b c ≠ Gt → Ascii.compare a c ≠ Gt.
Proof. unfold Ascii.compare. rewrite !N.compare_le_iff. lia. Qed.

Lemma ascii_compare_eq a b : Ascii.compare a b = Eq → a = b.
Proof.
  unfold Ascii.compare. rewrite N.compare_eq_iff. intros H.
  by rewrite <- (ascii_N_embedding a), <- (ascii_N_embedding b), H.
Qed.

Lemma ascii_compare_refl a : Ascii.compare a a = Eq.
Proof. unfold Ascii.compare. apply N.compare_refl. Qed.

Lemma leb_trans s t u : String.leb s t = true → String.leb t u = true → String.leb s u = true.
Proof.
  unfold String.leb. revert t u. induction s as [|a s IH]; intros [|b t] [|c u]; simpl; try done.
  destruct (Ascii.compare a b) eqn:E1, (Ascii.compare b c) eqn:E2; try done; intros H1 H2.
  - apply ascii_compare_eq in E1, E2. subst. rewrite ascii_compare_refl. by apply (IH t u).
  - apply ascii_compare_eq in E1. subst. by rewrite E2.
  - apply ascii_compare_eq in E2. subst. by rewrite E1.
  - destruct (Ascii.compare a c) eqn:E3; [|done|].
    + apply ascii_compare_eq in E3. subst. rewrite Ascii.compare_antisym, E2 in E1. done.
    + exfalso. apply (ascii_compare_trans a b c); congruence.
Qed.

#[local] Instance key_le_trans {A} : Transitive (@key_le A).
Proof. intros x y z. apply leb_trans. Qed.

#[local] Instance key_le_total {A} : Total (@key_le A).
Proof. intros x y. apply String.leb_total. Qed.

Lemma sort_by_key_unique {A} (l l' : list (string * A)) :
  NoDup (map fst l) → l ≡ₚ l' → merge_sort key_le l = merge_sort key_le l'.
Proof.
  intros Hnd Hp. apply (StronglySorted_unique_strong key_le).
  - intros x y Hx Hy H1 H2. rewrite merge_sort_Permutation in Hx. rewrite merge_sort_Permutation, <- Hp in Hy.
    pose proof (String.leb_antisym _ _ H1 H2) as Hk. apply list_elem_of_lookup in Hx as (i & Hi), Hy as (j & Hj).
    assert (i = j) as <-; [|congruence].
    eapply (NoDup_lookup (map fst l)); [done|..]; rewrite list_lookup_fmap; [by rewrite Hi|by rewrite Hj, Hk].
  - apply StronglySorted_merge_sort; apply _.
  - apply StronglySorted_merge_sort; apply _.
  - by rewrite !merge_sort_Permutation.
Qed.

(** The same JSON, up to the order of object keys at any depth. *)
Inductive same_json : value → value → Prop :=
  | sj_refl v : same_json v v
  | sj_arr l l' : Forall2 same_json l l' → same_json (VArr l) (VArr l')
  | sj_obj l l' l'' : NoDup (map fst l) → Forall2 (λ x y, x.1 = y.1 ∧ same_json x.2 y.2) l l' → l' ≡ₚ l'' →
      same_json (VObj l) (VObj l'').

Lemma stableStringify_same : ∀ v v', same_json v v' → stableStringify v = stableStringify v'.
Proof.
  fix IH 3. intros v v' [v0|l l' H|l l' l'' Hnd H Hp]; [done|simpl; do 3 f_equal|].
  - induction H as [|x y l l' Hxy _ IHl]; simpl; [done|]. f_equal; [exact (IH _ _ Hxy) | exact IHl].
  - simpl. set (f := λ kv : string * value, _). assert (map f l = map f l') as E.
    { clear Hnd Hp. induction H as [|x y l l' [Hk Hxy] _ IHl]; simpl; [done|]. f_equal; [|exact IHl].
      unfold f. rewrite Hk. by rewrite (IH _ _ Hxy). }
    rewrite E. rewrite (sort_by_key_unique (map f l') (map f l'')); [done| |by apply Permutation_map].
    rewrite <- E, map_map. simpl. exact Hnd.
Qed.

(** ** The store *)

Record StoredIdempotentResponse := mkStored {
  requestBodyHash : string; responseStatus : Z; responseBody : value }.

(** A row of audit.idempotency_keys; the table's key is (idempotency_key, endpoint). *)
Record IdempotencyRow := mkRow {
  row_key : string; row_endpoint : string; row_response : StoredIdempotentResponse;
  row_accountId : option string; row_createdAt : Z; row_expiresAt : Z }.

Definition is_row (key endpoint : string) (r : IdempotencyRow) : bool :=
  bool_decide (row_key r = key) && bool_decide (row_endpoint r = endpoint).

Definition find (key endpoint : string) (rows : list IdempotencyRow) : option StoredIdempotentResponse :=
  row_response <$> find_row (is_row key endpoint) rows.

(** [create], and on a unique violation the row that won. *)
Definition save (r : IdempotencyRow) (rows : list IdempotencyRow) : StoredIdempotentResponse * list IdempotencyRow :=
  match find (row_key r) (row_endpoint r) rows with
  | Some existing => (existing, rows)
  | None => (row_response r, rows ++ [r])
  end.

(** ** The middleware *)

Definition RETENTION_HOURS : Z := 48.

(** What the middleware reads of a request; [path] stands for everything else the handler
    sees, the URL and its parameters among it. *)
Record request := mkRequest {
  rq_header : option string; rq_body : value; rq_accountId : option string; rq_path : string }.

(** Whether the store's two calls fail, and the time of the save. *)
Record store_health := mkHealth { find_fails : bool; save_fails : bool; clock : Z }.

Record world (S : Type) := mkWorld { w_rows : list IdempotencyRow; w_app : S }.
Arguments mkWorld {S} _ _.
Arguments w_rows {S} _.
Arguments w_app {S} _.

Inductive reply := Replied (status : Z) (body : value) | Refused (e : error).

Section Middleware.
(** [sha256] is node:crypto's; [handler] is the guarded route with its error handler, which
    answers through the same [response.json]. *)
Context (sha256 : string → string) {S : Type} (handler : request → S → (Z * value) * S).

Definition hashRequestBody (body : value) : string := sha256 (stableStringify body).

Definition key_required : error := AppError "idempotency.key_required" 400 [].
Definition store_unavailable : error := AppError "idempotency.store_unavailable" 503 [].
Definition body_mismatch : error := AppError "idempotency.body_mismatch" 409 [].

(** [interceptResponse]: a save that fails is logged and the answer still goes out. *)
Definition interceptResponse (health : store_health) (row : IdempotencyRow) (rows : list IdempotencyRow)
    : list IdempotencyRow :=
  if save_fails health then rows else (save row rows).2.

Definition createIdempotencyMiddleware (endpoint : string) (health : store_health) (rq : request) (w : world S)
    : reply * world S :=
  match rq_header rq with
  | None => (Refused key_required, w)
  | Some key =>
      if bool_decide (JsString.trim key = EmptyString) then (Refused key_required, w)
      else if find_fails health then (Refused store_unavailable, w)
      else
        let hash := hashRequestBody (rq_body rq) in
        match find key endpoint (w_rows w) with
        | None =>
            let '((status, body), app) := handler rq (w_app w) in
            let row := mkRow key endpoint (mkStored hash status body) (rq_accountId rq) (clock health)
                         (clock health + RETENTION_HOURS * 60 * 60 * 1000) in
            (Replied status body, mkWorld (interceptResponse health row (w_rows w)) app)
        | Some existing =>
            if negb (bool_decide (requestBodyHash existing = hash)) then (Refused body_mismatch, w)
            else (Replied (responseStatus existing) (responseBody existing), w)
        end
  end.

(** Requests served one after another, at whatever endpoints. *)
Definition serve_all (l : list (string * store_health * request)) (w : world S) : world S :=
  foldl (λ w c, (createIdempotencyMiddleware c.1.1 c.1.2 c.2 w).2) w l.

(** *** A stored response is final *)

Lemma find_app key endpoint rows more r :
  find key endpoint rows = Some r → find key endpoint (rows ++ more) = Some r.
Proof.
  unfold find. rewrite find_row_app. by destruct (find_row (is_row key endpoint) rows).
Qed.

Lemma find_save key endpoint row rows r :
  find key endpoint rows = Some r → find key endpoint (save row rows).2 = Some r.
Proof. intros H. unfold save. destruct (find (row_key row) _ rows); simpl; [done|]. by apply find_app. Qed.

Lemma find_saved row rows :
  find (row_key row) (row_endpoint row) rows = None →
  find (row_key row) (row_endpoint row) (save row rows).2 = Some (row_response row).
Proof.
  intros H. unfold save. rewrite H. simpl. unfold find in *. rewrite find_row_app.
  destruct (find_row _ rows); [done|]. unfold find_row. simpl. unfold is_row.
  by rewrite !bool_decide_eq_true_2.
Qed.

Lemma serve_find key endpoint endpoint' health rq w r :
  find key endpoint (w_rows w) = Some r →
  find key endpoint (w_rows (createIdempotencyMiddleware endpoint' health rq w).2) = Some r.
Proof.
  intros H. unfold createIdempotencyMiddleware. destruct (rq_header rq) as [k|]; [|done].
  destruct (bool_decide _); [done|]. destruct (find_fails health); [done|].
  destruct (find k endpoint' (w_rows w)); [by destruct (negb _)|].
  destruct (handler rq (w_app w)) as [[status body] app]. simpl. unfold interceptResponse.
  destruct (save_fails health); [done|]. by apply find_save.
Qed.

Lemma serve_all_find key endpoint l : ∀ w r,
  find key endpoint (w_rows w) = Some r → find key endpoint (w_rows (serve_all l w)) = Some r.
Proof.
  induction l as [|c l IH]; intros w r H; [done|]. simpl. apply IH. by apply serve_find.
Qed.

(** The guarded route runs, and what it answers is on record. *)
Lemma first_request endpoint health rq key w :
  rq_header rq = Some key → JsString.trim key ≠ EmptyString → find_fails health = false →
  save_fails health = false → find key endpoint (w_rows w) = None →
  let '((status, body), app) := handler rq (w_app w) in
  let '(rep, w') := createIdempotencyMiddleware endpoint health rq w in
  rep = Replied status body ∧ w_app w' = app ∧
  find key endpoint (w_rows w') = Some (mkStored (hashRequestBody (rq_body rq)) status body).
Proof.
  intros Hk Hne Hf Hs Hn. destruct (handler rq (w_app w)) as [[status body] app] eqn:Eh.
  unfold createIdempotencyMiddleware. rewrite Hk, bool_decide_eq_false_2, Hf, Hn, Eh by done.
  split_and!; [done..|]. simpl. unfold interceptResponse. rewrite Hs.
  match goal with |- context [save ?row _] => exact (find_saved row (w_rows w) Hn) end.
Qed.

Lemma replay_found endpoint health rq key w st :
  rq_header rq = Some key → JsString.trim key ≠ EmptyString → find_fails health = false →
  find key endpoint (w_rows w) = Some st →
  createIdempotencyMiddleware endpoint health rq w =
    (if bool_decide (requestBodyHash st = hashRequestBody (rq_body rq))
     then Replied (responseStatus st) (responseBody st) else Refused body_mismatch, w).
Proof.
  intros Hk Hne Hf Hs. unfold createIdempotencyMiddleware.
  rewrite Hk, bool_decide_eq_false_2, Hf, Hs by done. by destruct (bool_decide _).
Qed.

(** ** Claims *)

(** A retry never runs the write again.  Once a request with a key has been answered and
    its answer stored, then whatever other requests are served in between, a request at the
    same endpoint with that key changes nothing: it gets the stored answer when its body is
    the same JSON up to the order of object keys, and a 409 when its body hashes
    differently. *)
Theorem retry_replays endpoint health rq key w l health2 rq2 :
  rq_header rq = Some key → JsString.trim key ≠ EmptyString → find_fails health = false →
  save_fails health = false → find key endpoint (w_rows w) = None →
  rq_header rq2 = Some key → find_fails health2 = false →
  let '((status, body), app) := handler rq (w_app w) in
  let '(rep, w1) := createIdempotencyMiddleware endpoint health rq w in
  let w2 := serve_all l w1 in
  rep = Replied status body ∧ w_app w1 = app ∧
  (same_json (rq_body rq) (rq_body rq2) →
     createIdempotencyMiddleware endpoint health2 rq2 w2 = (Replied status body, w2)) ∧
  (hashRequestBody (rq_body rq2) ≠ hashRequestBody (rq_body rq) →
     createIdempotencyMiddleware endpoint health2 rq2 w2 = (Refused body_mismatch, w2)).
Proof.
  intros Hk Hne Hf Hs Hn Hk2 Hf2. pose proof (first_request endpoint health rq key w Hk Hne Hf Hs Hn) as H.
  destruct (handler rq (w_app w)) as [[status body] app].
  destruct (createIdempotencyMiddleware endpoint health rq w) as [rep w1]. destruct H as (-> & <- & Hfind).
  apply (serve_all_find key endpoint l) in Hfind.
  pose proof (replay_found endpoint health2 rq2 key _ _ Hk2 Hne Hf2 Hfind) as R. simpl in R.
  split_and!; [done..| |]; intros Hb; rewrite R.
  - rewrite bool_decide_eq_true_2; [done|]. unfold hashRequestBody. by rewrite (stableStringify_same _ _ Hb).
  - by rewrite bool_decide_eq_false_2 by congruence.
Qed.

(** The key is not scoped to the account or to the resource.  A request from another
    account, or on another offering or reservation, with a key already used at the same
    endpoint and the same body, is answered with the first request's stored response and its
    own write is not performed. *)
Theorem key_not_scoped endpoint health rq key w health2 account path :
  rq_header rq = Some key → JsString.trim key ≠ EmptyString → find_fails health = false →
  save_fails health = false → find key endpoint (w_rows w) = None → find_fails health2 = false →
  let '(rep, w1) := createIdempotencyMiddleware endpoint health rq w in
  createIdempotencyMiddleware endpoint health2 (mkRequest (Some key) (rq_body rq) account path) w1 = (rep, w1).
Proof.
  intros Hk Hne Hf Hs Hn Hf2. pose proof (first_request endpoint health rq key w Hk Hne Hf Hs Hn) as H.
  destruct (handler rq (w_app w)) as [[status body] app].
  destruct (createIdempotencyMiddleware endpoint health rq w) as [rep w1]. destruct H as (-> & _ & Hfind).
  rewrite (replay_found endpoint health2 (mkRequest (Some key) (rq_body rq) account path) key w1 _ eq_refl Hne Hf2 Hfind).
  simpl. by rewrite bool_decide_eq_true_2.
Qed.

End Middleware.
(** ** Reconfirming two reservations with one key *)

(** A handler that reconfirms the reservation named by the path. *)
Definition demo_handler (rq : request) (reconfirmed : list string) : (Z * value) * list string :=
  ((200%Z, VObj [("reservation_id", VStr (rq_path rq))]), reconfirmed ++ [rq_path rq]).
Definition healthy : store_health := mkHealth false false 1000%Z.
Definition demo_request (account path : string) : request :=
  mkRequest (Some "key-1") VUndefined (Some account) path.
Definition demo_first : reply * world (list string) :=
  createIdempotencyMiddleware (λ text, text) demo_handler "offering.reservation.reconfirm" healthy
    (demo_request "alice" "reservation_1") (mkWorld [] []).

Lemma retry_replays_witness :
  demo_first.1 = Replied 200%Z (VObj [("reservation_id", VStr "reservation_1")]) ∧
  createIdempotencyMiddleware (λ text, text) demo_handler "offering.reservation.reconfirm" healthy
    (demo_request "alice" "reservation_1") demo_first.2 = demo_first.
Proof.
  pose proof (retry_replays (λ text, text) demo_handler "offering.reservation.reconfirm" healthy
    (demo_request "alice" "reservation_1") "key-1" (mkWorld [] []) [] healthy (demo_request "alice" "reservation_1")
    eq_refl ltac:(discriminate) eq_refl eq_refl eq_refl eq_refl eq_refl) as H.
  destruct H as (H1 & _ & H2 & _). split; [exact H1|]. exact (H2 (sj_refl _)).
Defined.

Lemma key_not_scoped_witness :
  createIdempotencyMiddleware (λ text, text) demo_handler "offering.reservation.reconfirm" healthy
    (demo_request "bob" "reservation_2") demo_first.2 = demo_first ∧
  w_app demo_first.2 = ["reservation_1"].
Proof.
  split; [|reflexivity].
  exact (key_not_scoped (λ text, text) demo_handler "offering.reservation.reconfirm" healthy
    (demo_request "alice" "reservation_1") "key-1" (mkWorld [] []) healthy (Some "bob") "reservation_2"
    eq_refl ltac:(discriminate) eq_refl eq_refl eq_refl eq_refl).
Defined.

End Idempotency.
