(* ===== verification/Cursor.v ===== *)
(** The text of the pagination cursors: base64url of the JSON of a timestamp and an identifier, in the five forms the list
    services write (read-own-cases.service.ts, get-intake-workflow.service.ts, list-public-offerings.service.ts and the two
    of list-investor-activity.service.ts).

    Module [JsJson] is the part of the language they use: JSON.parse, JSON.stringify and the UTF-8 decoding of a Buffer;
    Module [JsDate] reads an ISO date back.  Text is kept as its UTF-8 bytes. *)

From Stdlib Require Import Ascii String.
From S2P Require Import Prelude JsString DateTime JsBuffer Idempotency Paging.

Module JsJson.
Import JsString JsBuffer Idempotency.

#[local] Arguments String.append !_ _ /.

Definition is_char (k : Z) (c : ascii) : bool := char_code c =? k.

(** ** Buffer.toString("utf8") *)

Definition replacement : string := of_bytes [239; 191; 189].

(** How many bytes follow a lead byte, and the bounds of the first of them. *)
Definition lead_byte (k : Z) : option (nat * Z * Z) :=
  if (194 <=? k) && (k <=? 223) then Some (1%nat, 128, 191)
  else if k =? 224 then Some (2%nat, 160, 191)
  else if k =? 237 then Some (2%nat, 128, 159)
  else if (225 <=? k) && (k <=? 239) then Some (2%nat, 128, 191)
  else if k =? 240 then Some (3%nat, 144, 191)
  else if (241 <=? k) && (k <=? 243) then Some (3%nat, 128, 191)
  else if k =? 244 then Some (3%nat, 128, 143)
  else None.

(** [pending] is a sequence begun: its bytes, how many are missing, and the bounds of the next.  A malformed sequence
    becomes one replacement character and the byte that broke it is read again. *)
Fixpoint utf8_go (pending : option (string * nat * Z * Z)) (s : string) : string :=
  match s with
  | EmptyString => match pending with None => EmptyString | Some _ => replacement end
  | String c s =>
      let k := char_code c in
      let start :=
        if k <? 128 then String c (utf8_go None s)
        else match lead_byte k with
             | Some (n, lo, hi) => utf8_go (Some (String c EmptyString, n, lo, hi)) s
             | None => String.append replacement (utf8_go None s)
             end in
      match pending with
      | None => start
      | Some (acc, n, lo, hi) =>
          if (lo <=? k) && (k <=? hi) then
            let acc := String.append acc (String c EmptyString) in
            match n with
            | S (S n) => utf8_go (Some (acc, S n, 128, 191)) s
            | _ => String.append acc (utf8_go None s)
            end
          else String.append replacement start
      end
  end.

Definition utf8_text (s : string) : string := utf8_go None s.

(** ** JSON.parse *)

Definition is_ws (c : ascii) : bool := let k := char_code c in (k =? 32) || (k =? 9) || (k =? 10) || (k =? 13).

Fixpoint skip (s : string) : string :=
  match s with String c r => if is_ws c then skip r else s | EmptyString => EmptyString end.

Definition hex4 (a b c d : ascii) : option Z := parse_digits 16 0 (String a (String b (String c (String d EmptyString)))).

(** The bytes of a code point; an unpaired surrogate is kept as the three bytes of its number. *)
Definition utf8_bytes (u : Z) : string :=
  of_bytes (if u <? 128 then [u]
            else if u <? 2048 then [192 + u / 64; 128 + u mod 64]
            else if u <? 65536 then [224 + u / 4096; 128 + u / 64 mod 64; 128 + u mod 64]
            else [240 + u / 262144; 128 + u / 4096 mod 64; 128 + u / 64 mod 64; 128 + u mod 64]).

Definition is_high (u : Z) : bool := (55296 <=? u) && (u <=? 56319).
Definition is_low (u : Z) : bool := (56320 <=? u) && (u <=? 57343).
Definition code_point (high low : Z) : Z := 65536 + (high - 55296) * 1024 + (low - 56320).

Definition unescape (e : ascii) : option ascii :=
  if is_char 34 e || is_char 92 e || is_char 47 e then Some e
  else if is_char 98 e then Some (byte_of 8)
  else if is_char 102 e then Some (byte_of 12)
  else if is_char 110 e then Some (byte_of 10)
  else if is_char 114 e then Some (byte_of 13)
  else if is_char 116 e then Some (byte_of 9)
  else None.

Definition prepend (p : string) (r : option (string * string)) : option (string * string) :=
  match r with Some (s, rest) => Some (String.append p s, rest) | None => None end.

(** The characters of a string after its opening quote, and the text after its closing quote. *)
Fixpoint parse_chars (s : string) : option (string * string) :=
  match s with
  | EmptyString => None
  | String c s =>
      if is_char 34 c then Some (EmptyString, s)
      else if is_char 92 c then
        match s with
        | EmptyString => None
        | String e s1 =>
            if is_char 117 e then
              match s1 with
              | String h1 (String h2 (String h3 (String h4 s2))) =>
                  match hex4 h1 h2 h3 h4 with
                  | None => None
                  | Some u =>
                      match s2 with
                      | String b (String v (String l1 (String l2 (String l3 (String l4 s3))))) =>
                          match hex4 l1 l2 l3 l4 with
                          | Some w =>
                              if is_high u && is_char 92 b && is_char 117 v && is_low w
                              then prepend (utf8_bytes (code_point u w)) (parse_chars s3)
                              else prepend (utf8_bytes u) (parse_chars s2)
                          | None => prepend (utf8_bytes u) (parse_chars s2)
                          end
                      | _ => prepend (utf8_bytes u) (parse_chars s2)
                      end
                  end
              | _ => None
              end
            else match unescape e with Some x => prepend (String x EmptyString) (parse_chars s1) | None => None end
        end
      else if char_code c <? 32 then None
      else prepend (String c EmptyString) (parse_chars s)
  end.

(** A number is kept as its text. *)
Fixpoint digit_run (s : string) : string * string :=
  match s with
  | String c r => if is_digit c then let '(d, rest) := digit_run r in (String c d, rest) else (EmptyString, s)
  | EmptyString => (EmptyString, EmptyString)
  end.

Definition some_digits (s : string) : option (string * string) :=
  match digit_run s with (EmptyString, _) => None | r => Some r end.

Definition parse_sign (s : string) : string * string :=
  match s with String c r => if is_char 45 c then (String c EmptyString, r) else (EmptyString, s) | EmptyString => (EmptyString, s) end.

Definition parse_integer (s : string) : option (string * string) :=
  match s with
  | String c r => if is_char 48 c then Some (String c EmptyString, r) else some_digits s
  | EmptyString => None
  end.

Definition parse_fraction (s : string) : option (string * string) :=
  match s with
  | String c r => if is_char 46 c then prepend (String c EmptyString) (some_digits r) else Some (EmptyString, s)
  | EmptyString => Some (EmptyString, s)
  end.

Definition parse_exponent (s : string) : option (string * string) :=
  match s with
  | String c r =>
      if is_char 101 c || is_char 69 c then
        match r with
        | String g r' => if is_char 43 g || is_char 45 g then prepend (String c (String g EmptyString)) (some_digits r')
                         else prepend (String c EmptyString) (some_digits r)
        | EmptyString => None
        end
      else Some (EmptyString, s)
  | EmptyString => Some (EmptyString, s)
  end.

Definition parse_number (s : string) : option (value * string) :=
  let '(sign, s) := parse_sign s in
  match parse_integer s with
  | None => None
  | Some (whole, s) =>
      match parse_fraction s with
      | None => None
      | Some (fraction, s) =>
          match parse_exponent s with
          | None => None
          | Some (exponent, s) => Some (VNum (String.append sign (String.append whole (String.append fraction exponent))), s)
          end
      end
  end.

Definition parse_literal (text : string) (v : value) (s : string) : option (value * string) :=
  if String.prefix text s then Some (v, slice_from (String.length text) s) else None.

(** A key that is repeated keeps its place and takes the last value. *)
Fixpoint set_key (k : string) (v : value) (l : list (string * value)) : list (string * value) :=
  match l with
  | [] => [(k, v)]
  | (k', v') :: l => if bool_decide (k' = k) then (k, v) :: l else (k', v') :: set_key k v l
  end.

(** [fuel] bounds the nesting of the calls; one more than twice the length of the text is enough ([JSON_parse_total]). *)
Fixpoint parse_value (fuel : nat) (s : string) {struct fuel} : option (value * string) :=
  match fuel with
  | O => None
  | S fuel =>
      match skip s with
      | EmptyString => None
      | String c r =>
          if is_char 123 c then
            match skip r with
            | EmptyString => None
            | String d r' => if is_char 125 d then Some (VObj [], r') else parse_members fuel r []
            end
          else if is_char 91 c then
            match skip r with
            | EmptyString => None
            | String d r' => if is_char 93 d then Some (VArr [], r') else parse_elements fuel r []
            end
          else if is_char 34 c then
            match parse_chars r with Some (x, r) => Some (VStr x, r) | None => None end
          else if is_char 116 c then parse_literal "true" (VBool true) (String c r)
          else if is_char 102 c then parse_literal "false" (VBool false) (String c r)
          else if is_char 110 c then parse_literal "null" VNull (String c r)
          else parse_number (String c r)
      end
  end
with parse_members (fuel : nat) (s : string) (acc : list (string * value)) {struct fuel} : option (value * string) :=
  match fuel with
  | O => None
  | S fuel =>
      match skip s with
      | EmptyString => None
      | String c r =>
          if is_char 34 c then
            match parse_chars r with
            | None => None
            | Some (k, r) =>
                match skip r with
                | EmptyString => None
                | String d r =>
                    if is_char 58 d then
                      match parse_value fuel r with
                      | None => None
                      | Some (v, r) =>
                          match skip r with
                          | EmptyString => None
                          | String e r => if is_char 44 e then parse_members fuel r (set_key k v acc)
                                          else if is_char 125 e then Some (VObj (set_key k v acc), r) else None
                          end
                      end
                    else None
                end
            end
          else None
      end
  end
with parse_elements (fuel : nat) (s : string) (acc : list value) {struct fuel} : option (value * string) :=
  match fuel with
  | O => None
  | S fuel =>
      match parse_value fuel s with
      | None => None
      | Some (v, r) =>
          match skip r with
          | EmptyString => None
          | String e r => if is_char 44 e then parse_elements fuel r (acc ++ [v])
                          else if is_char 93 e then Some (VArr (acc ++ [v]), r) else None
          end
      end
  end.

(** [None] is the SyntaxError *)
Definition JSON_parse (s : string) : option value :=
  match parse_value (S (String.length s + String.length s)) s with
  | Some (v, rest) => match skip rest with EmptyString => Some v | _ => None end
  | None => None
  end.

(** ** JSON.stringify *)

Definition is_undefined (v : value) : bool := match v with VUndefined => true | _ => false end.

(** A member that is undefined is left out, an undefined element is written null. *)
Fixpoint JSON_stringify (v : value) : string :=
  match v with
  | VArr l => String "[" (String.append (join (map JSON_stringify l)) "]")
  | VObj l =>
      let members := map (λ kv, (is_undefined kv.2, String.append (quote kv.1) (String ":" (JSON_stringify kv.2)))) l in
      String "{" (String.append (join (map snd (List.filter (λ m, negb m.1) members))) "}")
  | VUndefined => "null"
  | VNull => "null"
  | VBool true => "true"
  | VBool false => "false"
  | VNum text => text
  | VStr s => quote s
  end.

(** ** The fuel is enough *)

Notation len := String.length.

Lemma skip_length s : (len (skip s) <= len s)%nat.
Proof. induction s as [|c s IH]; simpl; [done|]. destruct (is_ws c); simpl; lia. Qed.

Lemma prepend_Some p r x rest : prepend p r = Some (x, rest) → ∃ y, r = Some (y, rest) ∧ x = String.append p y.
Proof. destruct r as [[y t]|]; simpl; [|done]. intros [= <- <-]. by exists y. Qed.

Lemma parse_chars_length s : ∀ x r, parse_chars s = Some (x, r) → (len r < len s)%nat.
Proof.
  induction s as [s IH] using (induction_ltof1 _ len). unfold ltof in IH. intros x r H. destruct s as [|c s]; [done|].
  assert (∀ p s', (len s' < len (String c s))%nat → prepend p (parse_chars s') = Some (x, r) → (len r < len (String c s))%nat) as Hp.
  { intros p s' Hl Hs. apply prepend_Some in Hs as (y & Hs & _). apply IH in Hs; [lia | done]. }
  revert H. cbn [parse_chars]. destruct (is_char 34 c); [intros [= _ <-]; simpl; lia|]. destruct (is_char 92 c).
  - destruct s as [|e s1]; [done|]. destruct (is_char 117 e).
    + destruct s1 as [|h1 [|h2 [|h3 [|h4 s2]]]]; try done. destruct (hex4 h1 h2 h3 h4) as [u|]; [|done].
      destruct s2 as [|b [|v [|l1 [|l2 [|l3 [|l4 s3]]]]]]; try (apply Hp; simpl; lia).
      destruct (hex4 l1 l2 l3 l4); [|apply Hp; simpl; lia]. destruct (_ && _); apply Hp; simpl; lia.
    + destruct (unescape e); [|done]. apply Hp. simpl. lia.
  - destruct (_ <? _); [done|]. apply Hp. simpl. lia.
Qed.

Lemma digit_run_length s : (len (digit_run s).2 <= len s)%nat.
Proof. induction s as [|c s IH]; simpl; [done|]. destruct (is_digit c); [|done]. destruct (digit_run s). simpl in *. lia. Qed.

Lemma some_digits_length s d r : some_digits s = Some (d, r) → (len r < len s)%nat.
Proof.
  unfold some_digits. destruct s as [|c s]; [done|]. simpl. destruct (is_digit c); [|done]. pose proof (digit_run_length s).
  destruct (digit_run s) as [d' r']. intros [= <- <-]. simpl in *. lia.
Qed.

Lemma parse_sign_length s : (len (parse_sign s).2 <= len s)%nat.
Proof. destruct s as [|c s]; [done|]. simpl. destruct (is_char 45 c); simpl; lia. Qed.

Lemma parse_integer_length s d r : parse_integer s = Some (d, r) → (len r < len s)%nat.
Proof.
  destruct s as [|c s]; [done|]. cbn [parse_integer]. destruct (is_char 48 c); [intros [= <- <-]; simpl; lia|].
  apply some_digits_length.
Qed.

Lemma parse_fraction_length s d r : parse_fraction s = Some (d, r) → (len r <= len s)%nat.
Proof.
  destruct s as [|c s]; [by intros [= <- <-]|]. cbn [parse_fraction]. destruct (is_char 46 c); [|by intros [= <- <-]].
  intros (y & H%some_digits_length & _)%prepend_Some. simpl. lia.
Qed.

Lemma parse_exponent_length s d r : parse_exponent s = Some (d, r) → (len r <= len s)%nat.
Proof.
  destruct s as [|c s]; [by intros [= <- <-]|]. cbn [parse_exponent]. destruct (_ || _); [|by intros [= <- <-]].
  destruct s as [|g s]; [done|].
  destruct (_ || _); intros (y & H%some_digits_length & _)%prepend_Some; simpl in *; lia.
Qed.

Lemma parse_number_length s v r : parse_number s = Some (v, r) → (len r < len s)%nat.
Proof.
  unfold parse_number. pose proof (parse_sign_length s) as H0. destruct (parse_sign s) as [g s0]. simpl in H0.
  destruct (parse_integer s0) as [[w s1]|] eqn:E1; [|done]. destruct (parse_fraction s1) as [[f s2]|] eqn:E2; [|done].
  destruct (parse_exponent s2) as [[e s3]|] eqn:E3; [|done]. intros [= _ <-].
  apply parse_integer_length in E1. apply parse_fraction_length in E2. apply parse_exponent_length in E3. lia.
Qed.

Lemma slice_from_length n s : (len (slice_from n s) <= len s)%nat.
Proof. revert s. induction n as [|n IH]; intros [|c s]; simpl; try done. specialize (IH s). lia. Qed.

Lemma parse_literal_length c text v s w r : parse_literal (String c text) v s = Some (w, r) → (len r < len s)%nat.
Proof.
  unfold parse_literal. destruct (String.prefix _ _) eqn:E; [|done]. intros [= _ <-]. destruct s as [|d s]; [done|].
  simpl. pose proof (slice_from_length (len text) s). lia.
Qed.

(** What a parser leaves is shorter than what it was given. *)
Lemma parse_shrinks f :
  (∀ s v r, parse_value f s = Some (v, r) → (len r < len s)%nat) ∧
  (∀ s acc v r, parse_members f s acc = Some (v, r) → (len r < len s)%nat) ∧
  (∀ s acc v r, parse_elements f s acc = Some (v, r) → (len r < len s)%nat).
Proof.
  induction f as [|f (IHv & IHm & IHe)]; [done|]. split_and!.
  - intros s v r. cbn [parse_value]. pose proof (skip_length s) as H0. destruct (skip s) as [|c t]; [done|]. simpl in H0.
    pose proof (skip_length t) as H1.
    destruct (is_char 123 c); [destruct (skip t) as [|d t']; [done|]; destruct (is_char 125 d);
      [intros [= _ <-]; simpl in *; lia | intros H%IHm; lia]|].
    destruct (is_char 91 c); [destruct (skip t) as [|d t']; [done|]; destruct (is_char 93 d);
      [intros [= _ <-]; simpl in *; lia | intros H%IHe; lia]|].
    destruct (is_char 34 c); [destruct (parse_chars t) as [[x t']|] eqn:E; [|done]; intros [= _ <-]; apply parse_chars_length in E; lia|].
    destruct (is_char 116 c); [intros H%parse_literal_length; simpl in *; lia|].
    destruct (is_char 102 c); [intros H%parse_literal_length; simpl in *; lia|].
    destruct (is_char 110 c); [intros H%parse_literal_length; simpl in *; lia|]. intros H%parse_number_length. simpl in *. lia.
  - intros s acc v r. cbn [parse_members]. pose proof (skip_length s) as H0. destruct (skip s) as [|c t]; [done|]. simpl in H0.
    destruct (is_char 34 c); [|done]. destruct (parse_chars t) as [[k t1]|] eqn:E1; [|done]. apply parse_chars_length in E1.
    pose proof (skip_length t1) as H1. destruct (skip t1) as [|d t2]; [done|]. destruct (is_char 58 d); [|done].
    destruct (parse_value f t2) as [[x t3]|] eqn:E2; [|done]. apply IHv in E2. pose proof (skip_length t3) as H3.
    destruct (skip t3) as [|e t4]; [done|]. simpl in *.
    destruct (is_char 44 e); [intros H%IHm; lia|]. destruct (is_char 125 e); [|done]. intros [= _ <-]. lia.
  - intros s acc v r. cbn [parse_elements]. destruct (parse_value f s) as [[x t]|] eqn:E; [|done]. apply IHv in E.
    pose proof (skip_length t) as H1. destruct (skip t) as [|e t']; [done|]. simpl in *.
    destruct (is_char 44 e); [intros H%IHe; lia|]. destruct (is_char 93 e); [|done]. intros [= _ <-]. lia.
Qed.

(** More fuel than twice the length of the text changes nothing. *)
Lemma parse_fuel f : ∀ g,
  (∀ s, (2 * len s < f)%nat → (2 * len s < g)%nat → parse_value f s = parse_value g s) ∧
  (∀ s acc, (2 * len s < f)%nat → (2 * len s < g)%nat → parse_members f s acc = parse_members g s acc) ∧
  (∀ s acc, (2 * len s + 1 < f)%nat → (2 * len s + 1 < g)%nat → parse_elements f s acc = parse_elements g s acc).
Proof.
  induction f as [|f IH]; [intros g; split_and!; intros; lia|]. intros [|g]; [split_and!; intros; lia|].
  destruct (IH g) as (IHv & IHm & IHe). split_and!.
  - intros s Hf Hg. cbn [parse_value]. pose proof (skip_length s) as H0. destruct (skip s) as [|c t]; [done|]. simpl in H0.
    destruct (is_char 123 c); [destruct (skip t) as [|d t']; [done|]; destruct (is_char 125 d); [done | apply IHm; lia]|].
    destruct (is_char 91 c); [destruct (skip t) as [|d t']; [done|]; destruct (is_char 93 d); [done | apply IHe; lia]|]. done.
  - intros s acc Hf Hg. cbn [parse_members]. pose proof (skip_length s) as H0. destruct (skip s) as [|c t]; [done|]. simpl in H0.
    destruct (is_char 34 c); [|done]. destruct (parse_chars t) as [[k t1]|] eqn:E1; [|done]. apply parse_chars_length in E1.
    pose proof (skip_length t1) as H1. destruct (skip t1) as [|d t2]; [done|]. simpl in H1. destruct (is_char 58 d); [|done].
    rewrite IHv by lia. destruct (parse_value g t2) as [[x t3]|] eqn:E2; [|done]. apply parse_shrinks in E2. pose proof (skip_length t3) as H3.
    destruct (skip t3) as [|e t4]; [done|]. simpl in *. destruct (is_char 44 e); [apply IHm; lia | done].
  - intros s acc Hf Hg. cbn [parse_elements]. rewrite IHv by lia. destruct (parse_value g s) as [[x t]|] eqn:E; [|done].
    apply parse_shrinks in E. pose proof (skip_length t) as H1. destruct (skip t) as [|e t']; [done|]. simpl in *.
    destruct (is_char 44 e); [apply IHe; lia | done].
Qed.

(** The answer of [JSON_parse] is the one of every larger fuel. *)
Lemma JSON_parse_total s f : (2 * len s < f)%nat →
  JSON_parse s = match parse_value f s with
                 | Some (v, rest) => match skip rest with EmptyString => Some v | _ => None end
                 | None => None
                 end.
Proof. intros H. unfold JSON_parse. destruct (parse_fuel (S (len s + len s)) f) as [E _]. by rewrite E by lia. Qed.

(** ** JSON.parse reads back what JSON.stringify wrote *)

Lemma parse_unicode h1 h2 h3 h4 u s : hex4 h1 h2 h3 h4 = Some u → is_high u = false →
  parse_chars (String "\" (String "u" (String h1 (String h2 (String h3 (String h4 s)))))) = prepend (utf8_bytes u) (parse_chars s).
Proof.
  intros E Hh. cbn [parse_chars]. change (is_char 34 "\") with false. change (is_char 92 "\") with true. change (is_char 117 "u") with true.
  cbv iota. rewrite E. destruct s as [|b [|v [|l1 [|l2 [|l3 [|l4 s3]]]]]]; try done. rewrite Hh. by destruct (hex4 l1 l2 l3 l4).
Qed.

Lemma parse_escape_char c s : parse_chars (String.append (escape_char c) s) = prepend (String c EmptyString) (parse_chars s).
Proof.
  destruct c as [[] [] [] [] [] [] [] []]; try reflexivity; by (etransitivity; [by apply parse_unicode|]).
Qed.

Lemma parse_escape s rest : parse_chars (String.append (escape s) (String (ascii_of_nat 34) rest)) = Some (s, rest).
Proof.
  induction s as [|c s IH]; [done|]. cbn [escape]. by rewrite append_assoc, parse_escape_char, IH.
Qed.

(** A value without undefined and numbers, whose objects have distinct keys. *)
Fixpoint plain (v : value) : bool :=
  match v with
  | VUndefined | VNum _ => false
  | VNull | VBool _ | VStr _ => true
  | VArr l => forallb plain l
  | VObj l => forallb (λ kv, plain kv.2) l && bool_decide (NoDup (map fst l))
  end.

Section ValueInd.
Context (P : value → Prop) (Hu : P VUndefined) (Hn : P VNull) (Hb : ∀ b, P (VBool b)) (Hm : ∀ t, P (VNum t)) (Hs : ∀ s, P (VStr s))
  (Ha : ∀ l, Forall P l → P (VArr l)) (Ho : ∀ l, Forall (λ kv, P kv.2) l → P (VObj l)).

Fixpoint value_induction (v : value) : P v :=
  match v with
  | VUndefined => Hu | VNull => Hn | VBool b => Hb b | VNum t => Hm t | VStr s => Hs s
  | VArr l => Ha l ((fix go l := match l return Forall P l with [] => Forall_nil_2 _ | v :: l => Forall_cons_2 _ _ _ (value_induction v) (go l) end) l)
  | VObj l => Ho l ((fix go l := match l return Forall (λ kv, P kv.2) l with
                                 | [] => Forall_nil_2 _ | kv :: l => Forall_cons_2 _ _ _ (value_induction kv.2) (go l) end) l)
  end.
End ValueInd.

(** [text] is read as [v] whatever follows, with enough fuel. *)
Definition reads (v : value) : Prop :=
  ∃ n, ∀ f rest, (n <= f)%nat → parse_value f (String.append (JSON_stringify v) rest) = Some (v, rest).

Lemma set_key_new k v l : k ∉ map fst l → set_key k v l = l ++ [(k, v)].
Proof.
  induction l as [|[k' v'] l IH]; simpl; [done|]. intros [H1 H2]%not_elem_of_cons. rewrite bool_decide_eq_false_2 by congruence.
  by rewrite IH.
Qed.

Definition entry (kv : string * value) : string := String.append (quote kv.1) (String ":" (JSON_stringify kv.2)).

Lemma parse_members_entry kv f rest acc : (∀ rest, parse_value f (String.append (JSON_stringify kv.2) rest) = Some (kv.2, rest)) →
  parse_members (S f) (String.append (entry kv) rest) acc =
    match skip rest with
    | EmptyString => None
    | String e r => if is_char 44 e then parse_members f r (set_key kv.1 kv.2 acc)
                    else if is_char 125 e then Some (VObj (set_key kv.1 kv.2 acc), r) else None
    end.
Proof.
  intros H. unfold entry, quote. rewrite !append_assoc. cbn [parse_members String.append skip].
  change (is_ws (ascii_of_nat 34)) with false. change (is_char 34 (ascii_of_nat 34)) with true. cbv iota.
  rewrite parse_escape. cbn [skip]. change (is_ws ":") with false. change (is_char 58 ":") with true. cbv iota. by rewrite H.
Qed.

Lemma reads_members l : Forall (λ kv, reads kv.2) l → ∀ kv acc, reads kv.2 → NoDup (map fst (acc ++ kv :: l)) →
  ∃ n, ∀ f rest, (n <= f)%nat →
    parse_members f (String.append (join (map entry (kv :: l))) (String "}" rest)) acc = Some (VObj (acc ++ kv :: l), rest).
Proof.
  induction 1 as [|kv' l Hkv' Hl IH]; intros kv acc [n Hn] Hnd.
  - exists (S n). intros [|f] rest Hf; [lia|]. cbn [map join]. rewrite parse_members_entry by (intros; apply Hn; lia). cbn [skip].
    change (is_ws "}") with false. change (is_char 44 "}") with false. change (is_char 125 "}") with true. cbv iota.
    rewrite set_key_new; [by destruct kv|]. rewrite map_app in Hnd. apply NoDup_app in Hnd as (_ & Hd & _). intros Hin. apply (Hd _ Hin).
    by left.
  - rewrite map_app in Hnd. pose proof Hnd as Hnd'. apply NoDup_app in Hnd' as (_ & Hd & _).
    destruct (IH kv' (acc ++ [kv]) Hkv') as [m Hm]; [by rewrite <- app_assoc, map_app|].
    exists (S (n + m)). intros [|f] rest Hf; [lia|]. cbn [map]. change (join (entry kv :: entry kv' :: map entry l))
      with (String.append (entry kv) (String "," (join (map entry (kv' :: l))))). rewrite append_assoc.
    rewrite parse_members_entry by (intros; apply Hn; lia). cbn [skip String.append].
    change (is_ws ",") with false. change (is_char 44 ",") with true. cbv iota.
    rewrite set_key_new by (intros Hin; apply (Hd _ Hin); by left). rewrite <- surjective_pairing, Hm by lia. by rewrite <- app_assoc.
Qed.

Lemma reads_elements l : Forall reads l → ∀ v acc, reads v → ∃ n, ∀ f rest, (n <= f)%nat →
  parse_elements f (String.append (join (map JSON_stringify (v :: l))) (String "]" rest)) acc = Some (VArr (acc ++ v :: l), rest).
Proof.
  induction 1 as [|v' l Hv' Hl IH]; intros v acc [n Hn].
  - exists (S n). intros [|f] rest Hf; [lia|]. cbn [map join parse_elements]. by rewrite Hn by lia.
  - destruct (IH v' (acc ++ [v]) Hv') as [m Hm]. exists (S (n + m)). intros [|f] rest Hf; [lia|]. cbn [map].
    change (join (JSON_stringify v :: JSON_stringify v' :: map JSON_stringify l))
      with (String.append (JSON_stringify v) (String "," (join (map JSON_stringify (v' :: l))))). rewrite append_assoc.
    cbn [parse_elements]. rewrite Hn by lia. cbn [skip String.append]. change (is_ws ",") with false. change (is_char 44 ",") with true.
    cbv iota. rewrite Hm by lia. by rewrite <- app_assoc.
Qed.

(** The first character of a text is not white space, nor the end of an array. *)
Definition starts (t : string) : Prop := ∃ c r, t = String c r ∧ is_ws c = false ∧ is_char 93 c = false.

Lemma stringify_starts v : plain v = true → starts (JSON_stringify v).
Proof. unfold starts. destruct v as [| |[]| | | |]; try done; intros _; simpl; repeat eexists. Qed.

Lemma object_text l : forallb (λ kv, plain kv.2) l = true →
  JSON_stringify (VObj l) = String "{" (String.append (join (map entry l)) "}").
Proof.
  intros H. cbn [JSON_stringify]. do 3 f_equal. induction l as [|[k v] l IH]; [done|]. cbn [forallb map snd] in *.
  apply andb_true_iff in H as [H1 H2]. assert (is_undefined v = false) as E by (by destruct v). cbn [List.filter fst]. rewrite E. simpl.
  f_equal. by apply IH.
Qed.

Lemma plain_reads v : plain v = true → reads v.
Proof.
  induction v as [ | |b|t|s|l IH|l IH] using value_induction; intros Hp; try done.
  - exists 1%nat. intros [|f] rest Hf; [lia|]. by destruct rest.
  - exists 1%nat. intros [|f] rest Hf; [lia|]. by destruct b, rest.
  - exists 1%nat. intros [|f] rest Hf; [lia|]. cbn [JSON_stringify]. unfold quote. cbn [String.append parse_value skip].
    change (is_ws (ascii_of_nat 34)) with false. cbv iota. change (parse_value (S f) (String (ascii_of_nat 34) (String.append (String.append (escape s) (String (ascii_of_nat 34) "")) rest)))
      with (match parse_chars (String.append (String.append (escape s) (String (ascii_of_nat 34) "")) rest) with Some (x, r) => Some (VStr x, r) | None => None end).
    rewrite append_assoc. cbn [String.append]. by rewrite parse_escape.
  - destruct l as [|v l]; [exists 1%nat; intros [|f] rest Hf; [lia | reflexivity]|].
    cbn [plain forallb] in Hp. apply andb_true_iff in Hp as [Hv Hl]. apply Forall_cons in IH as [IHv IHl].
    assert (Forall reads l) as Hall.
    { apply List.Forall_forall. intros x Hx. rewrite forallb_forall in Hl. rewrite Forall_forall in IHl. apply IHl; [by apply list_elem_of_In | by apply Hl]. }
    destruct (reads_elements l Hall v [] (IHv Hv)) as [n Hn]. exists (S n). intros [|f] rest Hf; [lia|].
    cbn [JSON_stringify String.append]. rewrite append_assoc. cbn [String.append parse_value skip].
    destruct (stringify_starts v Hv) as (c & r & Es & Hw & Hc).
    assert (∃ r', String.append (join (map JSON_stringify (v :: l))) (String "]" rest) = String c r') as [r' Er].
    { cbn [map]. destruct (map JSON_stringify l); cbn [join]; rewrite Es; by eexists. }
    etransitivity; [|apply (Hn f rest); lia]. rewrite Er. change (is_ws "[") with false. cbv iota.
    change (is_char 123 "[") with false. change (is_char 91 "[") with true. cbv iota. cbn [skip]. by rewrite Hw, Hc.
  - cbn [plain] in Hp. apply andb_true_iff in Hp as [Hp Hnd]. apply bool_decide_eq_true in Hnd.
    unfold reads. rewrite object_text by done.
    destruct l as [|kv l]; [exists 1%nat; intros [|f] rest Hf; [lia | reflexivity]|].
    cbn [forallb] in Hp. apply andb_true_iff in Hp as [Hv Hl]. apply Forall_cons in IH as [IHv IHl].
    assert (Forall (λ kv, reads kv.2) l) as Hall.
    { apply List.Forall_forall. intros x Hx. rewrite forallb_forall in Hl. rewrite Forall_forall in IHl. apply IHl; [by apply list_elem_of_In | by apply Hl]. }
    destruct (reads_members l Hall kv [] (IHv Hv) Hnd) as [n Hn]. exists (S n). intros [|f] rest Hf; [lia|].
    cbn [String.append]. rewrite append_assoc. cbn [String.append parse_value skip].
    etransitivity; [|apply (Hn f rest); lia].
    assert (∃ r', String.append (join (map entry (kv :: l))) (String "}" rest) = String (ascii_of_nat 34) r') as [r' ->].
    { cbn [map]. destruct (map entry l); cbn [join]; by eexists. }
    reflexivity.
Qed.

Lemma JSON_parse_stringify v : plain v = true → JSON_parse (JSON_stringify v) = Some v.
Proof.
  intros [n Hn]%plain_reads. rewrite (JSON_parse_total _ (n + S (2 * len (JSON_stringify v)))) by lia.
  rewrite <- (append_empty_r (JSON_stringify v)) at 2. by rewrite Hn by lia.
Qed.

End JsJson.

(** ** new Date(text) *)

Module JsDate.
Import JsString DateTime JsJson.

#[local] Arguments String.append !_ _ /.

Fixpoint take_digits (n : nat) (acc : Z) (s : string) : option (Z * string) :=
  match n with
  | O => Some (acc, s)
  | S n =>
      match s with
      | String c s => match digit_value 10 c with Some d => take_digits n (acc * 10 + d) s | None => None end
      | EmptyString => None
      end
  end.

Definition expect (k : Z) (s : string) : option string :=
  match s with String c r => if is_char k c then Some r else None | EmptyString => None end.

(** The digits after the point, of which the first three count. *)
Fixpoint fraction (weight : Z) (s : string) : Z * string :=
  match s with
  | String c r =>
      match digit_value 10 c with
      | Some d => let '(v, rest) := fraction (weight / 10) r in (d * weight + v, rest)
      | None => (0, s)
      end
  | EmptyString => (0, s)
  end.

(** The optional [:ss] and, after it, the optional [.sss] *)
Definition iso_seconds (s : string) : option (Z * string) :=
  match expect 58 s with
  | None => Some (0, s)
  | Some s =>
      match take_digits 2 0 s with
      | None => None
      | Some (seconds, s) =>
          if 59 <? seconds then None
          else match expect 46 s with
               | None => Some (seconds * 1000, s)
               | Some s =>
                   match take_digits 1 0 s with
                   | None => None
                   | Some _ => let '(ms, s) := fraction 100 s in Some (seconds * 1000 + ms, s)
                   end
               end
      end
  end.

(** [YYYY-MM-DDTHH:mm[:ss[.sss]]Z], of a date that exists *)
Definition iso_utc (s : string) : option Z :=
  '(y, s) ← take_digits 4 0 s; s ← expect 45 s;
  '(m, s) ← take_digits 2 0 s; s ← expect 45 s;
  '(d, s) ← take_digits 2 0 s; s ← expect 84 s;
  '(h, s) ← take_digits 2 0 s; s ← expect 58 s;
  '(mi, s) ← take_digits 2 0 s;
  '(ms, s) ← iso_seconds s; s ← expect 90 s;
  if bool_decide (s = EmptyString) && (h <=? 23) && (mi <=? 59) &&
     bool_decide (civil_from_days (days_from_civil y m d) = (y, m, d))
  then Some (days_from_civil y m d * msPerDay + h * 3600000 + mi * 60000 + ms) else None.

(** [fallback] is what the engine makes of every other text; [None] is an Invalid Date. *)
Definition Date_parse (fallback : string → option Z) (s : string) : option Z :=
  match iso_utc s with Some t => Some t | None => fallback s end.

(** *** toISOString is read back *)

Definition pair_text (v : Z) : string := String (digit_char (v / 10)) (String (digit_char (v mod 10)) EmptyString).

Lemma digits_of_2 v : 0 ≤ v < 100 → digits_of 2 v = pair_text v.
Proof.
  intros H. assert (all_below 100 (λ v, bool_decide (digits_of 2 v = pair_text v)) 0 = true) as Hall by (vm_compute; reflexivity).
  eapply all_below_spec in Hall; [|split; [apply H|exact (proj2 H)]]. by apply bool_decide_eq_true in Hall.
Qed.

Lemma digits_of_3 v : 0 ≤ v < 1000 → digits_of 3 v = String (digit_char (v / 100)) (pair_text (v mod 100)).
Proof.
  intros H. assert (all_below 1000 (λ v, bool_decide (digits_of 3 v = String (digit_char (v / 100)) (pair_text (v mod 100)))) 0 = true)
    as Hall by (vm_compute; reflexivity).
  eapply all_below_spec in Hall; [|split; [apply H|exact (proj2 H)]]. by apply bool_decide_eq_true in Hall.
Qed.

Lemma digits_of_4 v : 0 ≤ v < 10000 → digits_of 4 v = String.append (pair_text (v / 100)) (pair_text (v mod 100)).
Proof.
  intros H. assert (all_below 10000 (λ v, bool_decide (digits_of 4 v = String.append (pair_text (v / 100)) (pair_text (v mod 100)))) 0 = true)
    as Hall by (vm_compute; reflexivity).
  eapply all_below_spec in Hall; [|split; [apply H|exact (proj2 H)]]. by apply bool_decide_eq_true in Hall.
Qed.

Lemma take_pair n acc v rest : 0 ≤ v < 100 →
  take_digits (S (S n)) acc (String.append (pair_text v) rest) = take_digits n (acc * 100 + v) rest.
Proof.
  intros H. unfold pair_text. cbn [String.append take_digits].
  rewrite !digit_value_digit_char by (Z.div_mod_to_equations; lia). f_equal. Z.div_mod_to_equations. lia.
Qed.

Lemma take_two v rest : 0 ≤ v < 100 → take_digits 2 0 (String.append (digits_of 2 v) rest) = Some (v, rest).
Proof. intros H. by rewrite digits_of_2, take_pair by done. Qed.

Lemma take_four v rest : 0 ≤ v < 10000 → take_digits 4 0 (String.append (digits_of 4 v) rest) = Some (v, rest).
Proof.
  intros H. rewrite digits_of_4, append_assoc, !take_pair by (Z.div_mod_to_equations; lia). simpl. do 2 f_equal. Z.div_mod_to_equations. lia.
Qed.

Lemma fraction_3 v rest : 0 ≤ v < 1000 → expect 90 rest ≠ None → fraction 100 (String.append (digits_of 3 v) rest) = (v, rest).
Proof.
  intros H Hz. rewrite digits_of_3 by done. unfold pair_text. cbn [String.append fraction].
  rewrite !digit_value_digit_char by (Z.div_mod_to_equations; lia). change (100 / 10) with 10. change (10 / 10) with 1.
  destruct rest as [|c rest]; [done|]. cbn [fraction]. simpl in Hz. destruct (is_char 90 c) eqn:E; [|done].
  unfold is_char in E. apply Z.eqb_eq in E. unfold digit_value. rewrite E. simpl. f_equal. Z.div_mod_to_equations. lia.
Qed.

Definition four_digit_year (t : Z) : Prop := 0 ≤ getUTCFullYear t ≤ 9999.

Lemma iso_utc_toISOString t : four_digit_year t → iso_utc (toISOString t) = Some t.
Proof.
  intros Hy. unfold four_digit_year, getUTCFullYear in Hy. unfold toISOString, iso_year, getUTCMonth, getUTCDate, getUTCFullYear.
  pose proof (civil_from_days_ok (Day t)) as Hc. fold (civil t) in Hc. destruct (civil t) as [[y m] d] eqn:Ec. simpl in Hy |- *.
  destruct Hc as (Hd & Hm & Hd').
  replace ((0 <=? y) && (y <=? 9999)) with true by (symmetry; apply andb_true_iff; lia).
  replace (m - 1 + 1) with m by lia. set (w := TimeWithinDay t).
  assert (0 ≤ w < msPerDay) as Hw by (apply Z.mod_pos_bound; done). unfold msPerDay in Hw.
  unfold iso_utc. cbn [String.concat]. rewrite take_four by lia. cbn [mbind option_bind].
  do 4 (cbn [String.append expect]; change (is_char _ _) with true; cbv iota; cbn [mbind option_bind];
    rewrite take_two by (Z.div_mod_to_equations; lia); cbn [mbind option_bind]).
  unfold iso_seconds. cbn [String.append expect]. change (is_char 58 ":") with true. cbv iota.
  rewrite take_two by (Z.div_mod_to_equations; lia).
  replace (59 <? w / 1000 mod 60) with false by (symmetry; apply Z.ltb_ge; Z.div_mod_to_equations; lia).
  cbn [String.append expect]. change (is_char 46 ".") with true. cbv iota.
  rewrite fraction_3 by (done || (Z.div_mod_to_equations; lia)).
  replace (take_digits 1 0 _) with (Some (w mod 1000 / 100, String.append (pair_text (w mod 1000 mod 100)) "Z")).
  2:{ rewrite digits_of_3 by (Z.div_mod_to_equations; lia). cbn [String.append take_digits].
      by rewrite digit_value_digit_char by (Z.div_mod_to_equations; lia). }
  cbn [mbind option_bind expect]. change (is_char 90 "Z") with true. cbv iota. cbn [mbind option_bind].
  rewrite bool_decide_eq_true_2 by done. replace (w / 3600000 <=? 23) with true by (symmetry; apply Z.leb_le; Z.div_mod_to_equations; lia).
  replace (w / 60000 mod 60 <=? 59) with true by (symmetry; apply Z.leb_le; Z.div_mod_to_equations; lia).
  rewrite Hd. fold (civil t). rewrite bool_decide_eq_true_2 by done. cbn [andb]. f_equal.
  rewrite (day_time t) at 2. fold w. unfold msPerDay. Z.div_mod_to_equations. lia.
Qed.

Lemma Date_parse_toISOString fallback t : four_digit_year t → Date_parse fallback (toISOString t) = Some t.
Proof. intros H. unfold Date_parse. by rewrite iso_utc_toISOString. Qed.

End JsDate.

Module Cursor.
Import JsString DateTime JsBuffer Idempotency JsJson JsDate.

#[local] Arguments String.append !_ _ /.

Definition invalid_cursor : error := AppError "pagination.invalid_cursor" 422 ["after"].
Definition invalid_history_cursor : error := AppError "intake.invalid_history_cursor" 400 [].

(** [Buffer.from(JSON.stringify(value), "utf8").toString("base64url")] *)
Definition encode (v : value) : string := base64url (JSON_stringify v).

(** [JSON.parse(Buffer.from(value, "base64url").toString("utf8"))]; [None] is the SyntaxError *)
Definition decode_json (text : string) : option value := JSON_parse (utf8_text (from_base64 text)).

(** ** The schemas *)

(** [v.k] of an object *)
Definition field (k : string) (v : value) : option value :=
  match v with VObj l => snd <$> find_row (λ kv, bool_decide (kv.1 = k)) l | _ => None end.

Definition string_field (k : string) (v : value) : option string :=
  match field k v with Some (VStr s) => Some s | _ => None end.

(** [z.string().min(1)] *)
Definition id_field (v : value) : option string :=
  match string_field "id" v with Some EmptyString => None | r => r end.

(** [z.literal(kind)] *)
Definition kind_is (kind : string) (v : value) : bool := bool_decide (string_field "kind" v = Some kind).

Section Decoders.
(** [iso_datetime] is the check of zod's [z.iso.datetime()], [fallback] what [new Date] makes of a text outside the ISO
    format.  A Date is its time value, [None] when it is invalid. *)
Context (iso_datetime : string → bool) (fallback : string → option Z).

Definition datetime_field (k : string) (v : value) : option string :=
  match string_field k v with Some s => if iso_datetime s then Some s else None | None => None end.

(** [z.object({ created_at: z.iso.datetime(), id: z.string().min(1) })] *)
Definition created_schema (v : value) : option (string * string) :=
  at_ ← datetime_field "created_at" v; id ← id_field v; Some (at_, id).

Definition or_invalid {A} (r : option A) : result A := match r with Some a => Ok a | None => Err invalid_cursor end.

(** encodeCaseCursor, and the encodeCursor of the public offerings *)
Definition encodeCaseCursor (c : Z * string) : string :=
  encode (VObj [("created_at", VStr (toISOString c.1)); ("id", VStr c.2)]).

Definition decodeCaseCursor (text : string) : result (option Z * string) :=
  or_invalid (v ← decode_json text; '(at_, id) ← created_schema v; Some (Date_parse fallback at_, id)).

Definition encodeReservationCursor (c : Z * string) : string :=
  encode (VObj [("kind", VStr "investor_reservations"); ("created_at", VStr (toISOString c.1)); ("id", VStr c.2)]).

Definition decodeReservationCursor (text : string) : result (option Z * string) :=
  or_invalid (v ← decode_json text; if kind_is "investor_reservations" v then '(at_, id) ← created_schema v; Some (Date_parse fallback at_, id) else None).

Definition iso_or_null (t : option Z) : value := match t with Some t => VStr (toISOString t) | None => VNull end.

Definition encodePositionCursor (c : option Z * string) : string :=
  encode (VObj [("kind", VStr "investor_positions"); ("activated_at", iso_or_null c.1); ("id", VStr c.2)]).

(** [z.iso.datetime().nullable()]; then null stays null and a text becomes a Date *)
Definition nullable_datetime (k : string) (v : value) : option (option string) :=
  match field k v with Some VNull => Some None | _ => Some <$> datetime_field k v end.

Definition decodePositionCursor (text : string) : result (option (option Z) * string) :=
  or_invalid (v ← decode_json text;
    if kind_is "investor_positions" v then at_ ← nullable_datetime "activated_at" v; id ← id_field v; Some (option_map (Date_parse fallback) at_, id)
    else None).

Definition encodeHistoryCursor (c : Z * string) : string :=
  encode (VObj [("occurred_at", VStr (toISOString c.1)); ("event_id", VStr c.2)]).

Definition decodeHistoryCursor (text : string) : result (Z * string) :=
  match (v ← decode_json text; occurred ← string_field "occurred_at" v; event ← string_field "event_id" v;
         occurredAt ← Date_parse fallback occurred; Some (occurredAt, event)) with
  | Some c => Ok c
  | None => Err invalid_history_cursor
  end.

(** ** Round trips *)

Definition is_ascii (s : string) : bool := string_forallb (λ c, char_code c <? 128) s.

Lemma utf8_text_ascii s : is_ascii s = true → utf8_text s = s.
Proof.
  unfold utf8_text. induction s as [|c s IH]; simpl; [done|]. intros [Hc Hs]%andb_true_iff. rewrite Hc. f_equal. by apply IH.
Qed.

Lemma is_ascii_append a b : is_ascii (String.append a b) = is_ascii a && is_ascii b.
Proof. apply string_forallb_app. Qed.

Lemma is_ascii_cons c s : is_ascii (String c s) = (char_code c <? 128) && is_ascii s.
Proof. done. Qed.

Lemma is_ascii_escape s : is_ascii s = true → is_ascii (escape s) = true.
Proof.
  induction s as [|c s IH]; [done|]. simpl. intros [Hc Hs]%andb_true_iff. rewrite is_ascii_append, IH by done.
  rewrite andb_true_r. clear -Hc. by destruct c as [[] [] [] [] [] [] [] []].
Qed.

Lemma is_ascii_quote s : is_ascii s = true → is_ascii (quote s) = true.
Proof. intros H. unfold quote. cbn [String.append]. by rewrite is_ascii_cons, is_ascii_append, is_ascii_escape. Qed.

Lemma is_ascii_digits fuel n acc : is_ascii acc = true → is_ascii (digits fuel n acc) = true.
Proof.
  revert n acc. induction fuel as [|fuel IH]; intros n acc H; [done|]. simpl.
  assert (is_ascii (String (digit_char (n mod 10)) acc) = true) as H'.
  { rewrite is_ascii_cons, H, andb_true_r. apply Z.ltb_lt. pose proof (Z.mod_pos_bound n 10 ltac:(lia)). unfold digit_char, char_code.
    rewrite N_ascii_embedding; lia. }
  destruct (_ =? 0); [done|]. by apply IH.
Qed.

Lemma is_ascii_digits_of n v : is_ascii (digits_of n v) = true.
Proof.
  unfold digits_of, padStart. rewrite is_ascii_append. apply andb_true_iff. split.
  - generalize (n - String.length (BigInt_toString v))%nat as k. induction k; [done | by simpl].
  - unfold BigInt_toString. destruct (_ <? 0); [rewrite is_ascii_cons; apply andb_true_iff; split; [done|]|]; by apply is_ascii_digits.
Qed.

Lemma is_ascii_toISOString t : is_ascii (toISOString t) = true.
Proof.
  unfold toISOString, iso_year. cbn [String.concat String.append].
  destruct (_ && _); [|rewrite is_ascii_append]; repeat rewrite ?is_ascii_append, ?is_ascii_digits_of, ?is_ascii_cons; [done|].
  by destruct (_ <? _).
Qed.

Lemma decode_encode v : plain v = true → is_ascii (JSON_stringify v) = true → decode_json (encode v) = Some v.
Proof.
  intros Hp Ha. unfold decode_json, encode. by rewrite from_base64_base64url, utf8_text_ascii, JSON_parse_stringify.
Qed.

(** *** The five cursors *)

Context (iso_datetime_documented : ∀ t, four_digit_year t → iso_datetime (toISOString t) = true).

(** A cursor the services write: a row's timestamp and its identifier. *)
Definition well_formed (t : Z) (id : string) : Prop := four_digit_year t ∧ is_ascii id = true ∧ id ≠ EmptyString.

Lemma decode_pairs l : forallb (λ kv, plain kv.2) l = true → bool_decide (NoDup (map fst l)) = true →
  forallb (λ kv, is_ascii (entry kv)) l = true → decode_json (encode (VObj l)) = Some (VObj l).
Proof.
  intros Hp Hn Ha. apply decode_encode; [simpl; by rewrite Hp, Hn|]. rewrite object_text by done. rewrite is_ascii_cons, is_ascii_append, andb_true_r. cbn [andb].
  change (is_ascii (join (map entry l)) = true). clear Hp Hn.
  induction l as [|kv l IH]; [done|]. cbn [forallb] in Ha. apply andb_true_iff in Ha as [H1 H2]. cbn [map join].
  destruct (map entry l) eqn:E; [done|]. rewrite is_ascii_append, H1, is_ascii_cons. by apply IH.
Qed.

Lemma entry_ascii k s : is_ascii k = true → is_ascii s = true → is_ascii (entry (k, VStr s)) = true.
Proof.
  intros Hk Hs. unfold entry. cbn [fst snd JSON_stringify]. rewrite is_ascii_append, is_ascii_quote by done. rewrite is_ascii_cons.
  by apply is_ascii_quote.
Qed.

Lemma decodes_case t id : well_formed t id → decodeCaseCursor (encodeCaseCursor (t, id)) = Ok (Some t, id).
Proof.
  intros (Ht & Ha & Hn). unfold decodeCaseCursor, encodeCaseCursor. rewrite decode_pairs; [|done..|].
  - unfold created_schema, datetime_field, id_field, string_field. simpl. rewrite iso_datetime_documented by done. simpl.
    destruct id; [done|]. simpl. by rewrite Date_parse_toISOString.
  - cbn [forallb]. by rewrite !entry_ascii by (done || apply is_ascii_toISOString).
Qed.

Lemma decodes_reservation t id : well_formed t id → decodeReservationCursor (encodeReservationCursor (t, id)) = Ok (Some t, id).
Proof.
  intros (Ht & Ha & Hn). unfold decodeReservationCursor, encodeReservationCursor. rewrite decode_pairs; [|done..|].
  - unfold created_schema, datetime_field, id_field, string_field. simpl. rewrite iso_datetime_documented by done. simpl.
    destruct id; [done|]. simpl. by rewrite Date_parse_toISOString.
  - cbn [forallb]. by rewrite !entry_ascii by (done || apply is_ascii_toISOString).
Qed.

Lemma position_json t id : (∀ u, t = Some u → four_digit_year u) → is_ascii id = true →
  decode_json (encodePositionCursor (t, id)) =
    Some (VObj [("kind", VStr "investor_positions"); ("activated_at", iso_or_null t); ("id", VStr id)]).
Proof.
  intros Ht Ha. apply decode_pairs; [by destruct t | done |]. cbn [forallb fst snd].
  assert (is_ascii (entry ("activated_at", iso_or_null t)) = true) as -> by (destruct t; [by apply entry_ascii, is_ascii_toISOString | done]).
  by rewrite !entry_ascii.
Qed.

Lemma decodes_position t id : (∀ u, t = Some u → four_digit_year u) → is_ascii id = true → id ≠ EmptyString →
  decodePositionCursor (encodePositionCursor (t, id)) = Ok (Some <$> t, id).
Proof.
  intros Ht Ha Hn. unfold decodePositionCursor. rewrite position_json by done. simpl.
  unfold nullable_datetime, datetime_field, id_field, string_field. destruct t as [t|]; simpl.
  - rewrite iso_datetime_documented by auto. simpl. destruct id; [done|]. simpl. rewrite Date_parse_toISOString by auto. done.
  - by destruct id.
Qed.

Lemma decodes_history t id : four_digit_year t → is_ascii id = true → decodeHistoryCursor (encodeHistoryCursor (t, id)) = Ok (t, id).
Proof.
  intros Ht Ha. unfold decodeHistoryCursor, encodeHistoryCursor. rewrite decode_pairs; [|done..|].
  - unfold string_field. simpl. by rewrite Date_parse_toISOString.
  - cbn [forallb]. by rewrite !entry_ascii by (done || apply is_ascii_toISOString).
Qed.

(** C35: every cursor a list service hands out is read back as the row it was made from: base64url, UTF-8, JSON and the ISO
    timestamp lose nothing, for the case and offering lists, the case history, an investor's reservations and positions,
    activated or not; and a cursor of the reservations is refused by the list of positions and the other way round, as an
    invalid cursor. *)
Theorem cursors_round_trip t id : well_formed t id →
  decodeCaseCursor (encodeCaseCursor (t, id)) = Ok (Some t, id) ∧
  decodeHistoryCursor (encodeHistoryCursor (t, id)) = Ok (t, id) ∧
  decodeReservationCursor (encodeReservationCursor (t, id)) = Ok (Some t, id) ∧
  decodePositionCursor (encodePositionCursor (Some t, id)) = Ok (Some (Some t), id) ∧
  decodePositionCursor (encodePositionCursor (None, id)) = Ok (None, id) ∧
  decodePositionCursor (encodeReservationCursor (t, id)) = Err invalid_cursor ∧
  decodeReservationCursor (encodePositionCursor (Some t, id)) = Err invalid_cursor.
Proof.
  intros H. pose proof H as (Ht & Ha & Hn). split_and!.
  - by apply decodes_case.
  - by apply decodes_history.
  - by apply decodes_reservation.
  - apply (decodes_position (Some t)); [by intros u [= <-] | done..].
  - by apply (decodes_position None).
  - unfold decodePositionCursor, encodeReservationCursor. rewrite decode_pairs; [done..|].
    cbn [forallb]. by rewrite !entry_ascii by (done || apply is_ascii_toISOString).
  - unfold decodeReservationCursor. rewrite position_json; [done | by intros u [= <-] | done].
Qed.

(** ** Following text cursors *)

(** A client that follows [next_cursor] without looking into it. *)
Fixpoint walk_text {C} (fuel : nat) (page : option string → result (Page C string)) (after : option string) : option (list C) :=
  match fuel with
  | O => None
  | S fuel =>
      match page after with
      | Err _ => None
      | Ok p =>
          match next_cursor p with
          | None => Some (page_data p)
          | Some c => app (page_data p) <$> walk_text fuel page (Some c)
          end
      end
  end.

End Decoders.

(** A service that reads and writes the cursors of its list as text shows the same pages. *)
Lemma walk_text_walk {C K} (enc : K → string) (page : option K → Page C K) (text_page : option string → result (Page C string)) fuel :
  (∀ after, (∀ k, after = Some k → ∃ a, next_cursor (page a) = Some k) →
     text_page (enc <$> after) = Ok (mkPage (page_data (page after)) (enc <$> next_cursor (page after)))) →
  ∀ after, (∀ k, after = Some k → ∃ a, next_cursor (page a) = Some k) →
    walk_text fuel text_page (enc <$> after) = walk fuel page after.
Proof.
  intros H. induction fuel as [|fuel IH]; intros after Ha; [done|]. cbn [walk_text walk]. rewrite (H _ Ha). simpl.
  destruct (next_cursor (page after)) as [k|] eqn:E; simpl; [|done].
  rewrite <- (IH (Some k)); [done|]. intros k' [= <-]. by exists after.
Qed.

(** The documented format as a check. *)
Definition documented_iso_datetime (s : string) : bool := bool_decide (is_Some (iso_utc s)).

Lemma cursors_round_trip_witness :
  well_formed 1767225600123 "reservation_01J" ∧
  decodeReservationCursor documented_iso_datetime (λ _, None) (encodeReservationCursor (1767225600123, "reservation_01J")) =
    Ok (Some 1767225600123, "reservation_01J").
Proof.
  assert (well_formed 1767225600123 "reservation_01J") as H.
  { split; [|split; [vm_compute; reflexivity | discriminate]]. unfold four_digit_year. vm_compute. split; discriminate. }
  assert (∀ t, four_digit_year t → documented_iso_datetime (toISOString t) = true) as Hiso.
  { intros t Ht. unfold documented_iso_datetime. rewrite iso_utc_toISOString by exact Ht. reflexivity. }
  split; [exact H|]. apply (cursors_round_trip documented_iso_datetime (λ _, None) Hiso 1767225600123 "reservation_01J" H).
Defined.

End Cursor.
