(* ===== verification/RateLimit.v ===== *)
(** Rate limiting: src/src/shared/http/rate-limit.ts over
    src/src/infrastructure/rate-limit/redis-rate-limit-store.ts. *)

From stdpp Require Import gmap.
From Stdlib Require Import Ascii.
From S2P Require Import Prelude JsString.

Module RateLimit.

(** ** Redis counters *)

(** A counter and the time, in milliseconds, its key expires at, if it does. *)
Record counter := mkCounter { count : Z; expires : option Z }.

Notation redis := (gmap string counter).

Definition expired (t : Z) (c : counter) : bool :=
  match expires c with Some e => e <=? t | None => false end.

Definition incr (t : Z) (key : string) (st : redis) : Z * redis :=
  match st !! key with
  | Some c => if expired t c then (1, <[key := mkCounter 1 None]> st)
              else (count c + 1, <[key := mkCounter (count c + 1) (expires c)]> st)
  | None => (1, <[key := mkCounter 1 None]> st)
  end.

Definition expire (t : Z) (key : string) (seconds : Z) (st : redis) : redis :=
  match st !! key with
  | Some c => <[key := mkCounter (count c) (Some (t + seconds * 1000))]> st
  | None => st
  end.

(** Whether the connection is up and each of the two commands goes through. *)
Record connection := mkConnection { isReady : bool; incr_ok : bool; expire_ok : bool }.

Definition increment (conn : connection) (t : Z) (key : string) (windowSeconds : Z) : io redis Z :=
  if negb (isReady conn) then throw (Thrown "Rate limit store unavailable")
  else λ st,
    if negb (incr_ok conn) then (Err (Thrown "incr"), st)
    else
      let '(n, st) := incr t key st in
      if n =? 1 then
        if expire_ok conn then (Ok n, expire t key windowSeconds st) else (Err (Thrown "expire"), st)
      else (Ok n, st).

(** ** The middleware *)

Record RateLimitTier := mkTier { name : string; limit : Z; windowSeconds : Z }.

Definition BASELINE_RATE_LIMIT : RateLimitTier := mkTier "baseline" 300 60.
Definition TIGHTENED_RATE_LIMIT : RateLimitTier := mkTier "tightened" 10 60.

Definition limit_exceeded : error := AppError "rate_limit.exceeded" 429 [].

Definition bucket_key (tier : RateLimitTier) (subject : string) : string :=
  String.append "rate_limit_hint:" (String.append (name tier) (String ":" subject)).

(** [Ok] is [next()]; a store failure lets the request through. *)
Definition createRateLimiter (tier : RateLimitTier) (conn : connection) (t : Z) (subject : string) : io redis unit :=
  λ st,
    match increment conn t (bucket_key tier subject) (windowSeconds tier) st with
    | (Ok n, st) => if limit tier <? n then (Err limit_exceeded, st) else (Ok tt, st)
    | (Err _, st) => (Ok tt, st)
    end.

(** *** Subjects *)

(** What the subject functions read: the authenticated account, the verified DPoP key, and
    the two client addresses. *)
Record client := mkClient {
  accountId : option string; dpopJkt : option string; ip : option string; remoteAddress : option string }.

(** [part.split(":").map((hextet) => Number.parseInt(hextet, 16))], of a part in the
    serializer's alphabet. *)
Definition hextet (s : string) : option Z := JsString.parse_nonempty 16 s.

Definition parse (part : string) : list (option Z) :=
  if bool_decide (part = EmptyString) then [] else map hextet (JsString.split ":" part).

(** [canonical.split("::")] *)
Fixpoint split2 (s : string) : list string :=
  match s with
  | EmptyString => [EmptyString]
  | String ":" (String ":" s) => EmptyString :: split2 s
  | String c s => match split2 s with p :: ps => String c p :: ps | [] => [] end
  end.

Definition group_ok (g : option Z) : bool :=
  match g with Some v => (0 <=? v) && (v <=? 65535) | None => false end.

Definition expandIpv6 (canonical : string) : option (list Z) :=
  let build (left right : list (option Z)) (missing : nat) :=
    let groups := left ++ repeat (Some 0) missing ++ right in
    if forallb group_ok groups then Some (map (default 0) groups) else None in
  match split2 canonical with
  | [head] => let left := parse head in
      if Nat.eqb (length left) 8 then build left [] 0%nat else None
  | [head; tail] => let left := parse head in let right := parse tail in
      if (8 <? length left + length right)%nat then None
      else build left right (8 - length left - length right)%nat
  | _ => None
  end.

Definition hex_text (n : Z) : string :=
  let d (k : Z) := let v := Z.land (Z.shiftr n k) 15 in
    ascii_of_N (Z.to_N (if v <? 10 then 48 + v else 87 + v)) in
  if n <? 16 then String (d 0) EmptyString
  else if n <? 256 then String (d 4) (String (d 0) EmptyString)
  else if n <? 4096 then String (d 8) (String (d 4) (String (d 0) EmptyString))
  else String (d 12) (String (d 8) (String (d 4) (String (d 0) EmptyString))).

Section Subjects.
(** [isIP] is node:net's; [urlHostname] the host of [new URL("http://[...]")] without its
    brackets, [None] when the constructor throws. *)
Context (isIP : string → Z) (urlHostname : string → option string).

Definition normalizeClientIp (raw : option string) : option string :=
  match raw with
  | None => None
  | Some raw =>
      let address := match JsString.split "%" raw with a :: _ => a | [] => EmptyString end in
      let family := isIP address in
      if family =? 4 then Some address
      else if negb (family =? 6) then None
      else
        match urlHostname address with
        | None => None
        | Some canonical =>
            match expandIpv6 canonical with
            | Some [h0; h1; h2; h3; h4; h5; h6; h7] =>
                if (h0 =? 0) && (h1 =? 0) && (h2 =? 0) && (h3 =? 0) && (h4 =? 0) && (h5 =? 65535)
                then
                  let b (n : Z) := JsString.BigInt_toString n in
                  let dot := String "." EmptyString in
                  Some (String.append (b (Z.shiftr h6 8)) (String.append dot
                       (String.append (b (Z.land h6 255)) (String.append dot
                       (String.append (b (Z.shiftr h7 8)) (String.append dot (b (Z.land h7 255))))))))
                else
                  Some (String.append (hex_text h0) (String ":" (String.append (hex_text h1) (String ":"
                       (String.append (hex_text h2) (String ":" (String.append (hex_text h3) "::/64")))))))
            | _ => None
            end
        end
  end.

Definition rateLimitSubject (c : client) : string :=
  match accountId c with
  | Some a => String.append "account:" a
  | None =>
      let found := match normalizeClientIp (ip c) with
                   | Some x => Some x
                   | None => normalizeClientIp (remoteAddress c)
                   end in
      String.append "ip:" (default "unknown" found)
  end.

Definition dpopKeyRateLimitSubject (c : client) : string :=
  match dpopJkt c with Some jkt => String.append "dpop_jkt:" jkt | None => rateLimitSubject c end.

(** The caller's two addresses decide its bucket only through their /64. *)
Lemma same_network_same_subject a b ca cb h0 h1 h2 h3 ta tb :
  isIP a = 6 → isIP b = 6 → JsString.split "%" a = [a] → JsString.split "%" b = [b] →
  urlHostname a = Some ca → urlHostname b = Some cb →
  expandIpv6 ca = Some ([h0; h1; h2; h3] ++ ta) → expandIpv6 cb = Some ([h0; h1; h2; h3] ++ tb) →
  length ta = 4%nat → length tb = 4%nat → h0 ≠ 0 →
  normalizeClientIp (Some a) = normalizeClientIp (Some b) ∧ normalizeClientIp (Some a) ≠ None.
Proof.
  intros Ia Ib Sa Sb Ua Ub Ea Eb La Lb Hh. unfold normalizeClientIp. rewrite Sa, Sb, Ia, Ib. simpl.
  rewrite Ua, Ub, Ea, Eb.
  destruct ta as [|? [|? [|? [|? [|]]]]], tb as [|? [|? [|? [|? [|]]]]]; try discriminate.
  simpl. apply Z.eqb_neq in Hh as ->. simpl. done.
Qed.

End Subjects.

(** ** Serving requests *)

(** Requests in the order they reach the limiter: the connection, the time, the subject. *)
Definition requests := list (connection * Z * string).

(** The outcomes of the requests of one subject. *)
Fixpoint outcomes (tier : RateLimitTier) (subject : string) (l : requests) (st : redis) : list (result unit) :=
  match l with
  | [] => []
  | (conn, t, other) :: l =>
      let '(r, st) := createRateLimiter tier conn t other st in
      if bool_decide (other = subject) then r :: outcomes tier subject l st else outcomes tier subject l st
  end.

Definition healthy : connection := mkConnection true true true.

(** The requests of [subject], all served by a working store while [ok t] holds. *)
Definition steady (subject : string) (ok : Z → Prop) (l : requests) : Prop :=
  ∀ conn t other, In (conn, t, other) l → other = subject → conn = healthy ∧ ok t.

Definition number (subject : string) (l : requests) : nat :=
  length (List.filter (λ r, bool_decide (r.2 = subject)) l).

Lemma append_inj s a b : String.append s a = String.append s b → a = b.
Proof. induction s as [|c s IH]; simpl; [done|]. intros [= H]. auto. Qed.

Lemma bucket_key_inj tier a b : bucket_key tier a = bucket_key tier b → a = b.
Proof. unfold bucket_key. intros H. apply append_inj, append_inj in H. by injection H. Qed.

Lemma other_subject tier conn t a b st : a ≠ b →
  (createRateLimiter tier conn t a st).2 !! bucket_key tier b = st !! bucket_key tier b.
Proof.
  intros Hne. assert (bucket_key tier a ≠ bucket_key tier b) as Hk by (intros E; by apply bucket_key_inj in E).
  unfold createRateLimiter, increment. destruct (negb _); [done|]. destruct (negb _); [done|].
  unfold incr, expire. repeat case_match; simplify_eq; simpl; by rewrite ?lookup_insert_ne.
Qed.

Definition answer (tier : RateLimitTier) (n : Z) : result unit :=
  if limit tier <? n then Err limit_exceeded else Ok tt.

(** A bucket already holding [n] requests that stays live. *)
Lemma outcomes_live tier subject l : ∀ st n e,
  st !! bucket_key tier subject = Some (mkCounter n e) → 0 < n →
  steady subject (λ t, expired t (mkCounter n e) = false) l →
  outcomes tier subject l st = map (λ i, answer tier (n + 1 + Z.of_nat i)) (seq 0 (number subject l)).
Proof.
  induction l as [|[[conn t] other] l IH]; intros st n e Hst Hn Hl; [done|]. simpl.
  assert (steady subject (λ t, expired t (mkCounter n e) = false) l) as Hl'
    by (intros c' t' o' Hin; apply Hl; by right).
  destruct (decide (other = subject)) as [->|Hne].
  - destruct (Hl conn t subject (or_introl eq_refl) eq_refl) as [-> Ht].
    unfold createRateLimiter, increment, incr. simpl. rewrite Hst, Ht. simpl.
    replace (n + 1 =? 1) with false by lia. unfold number. simpl. rewrite bool_decide_eq_true_2 by done. simpl.
    rewrite <- seq_shift, map_map.
    assert (∀ st', st' !! bucket_key tier subject = Some (mkCounter (n + 1) e) →
      outcomes tier subject l st' = map (λ i, answer tier (n + 1 + Z.of_nat (S i))) (seq 0 (number subject l))) as Hrest.
    { intros st' Hst'. rewrite (IH st' (n + 1) e) by (done || lia). apply map_ext. intros i. f_equal. lia. }
    replace (n + 1 + Z.of_nat 0) with (n + 1) by lia. unfold answer at 1.
    destruct (limit tier <? n + 1); f_equal; apply Hrest, lookup_insert_eq.
  - pose proof (other_subject tier conn t other subject st Hne) as Ho.
    destruct (createRateLimiter tier conn t other st) as [r st']. simpl in Ho.
    rewrite bool_decide_eq_false_2 by done. unfold number. simpl. rewrite bool_decide_eq_false_2 by done.
    apply (IH st' n e); [by rewrite Ho|done..].
Qed.

(** Nothing of [subject] is live. *)
Definition idle (tier : RateLimitTier) (subject : string) (t : Z) (st : redis) : Prop :=
  match st !! bucket_key tier subject with Some c => expired t c = true | None => True end.

Lemma open_bucket tier conn t subject st :
  idle tier subject t st → isReady conn = true → incr_ok conn = true →
  (createRateLimiter tier conn t subject st).2 !! bucket_key tier subject =
    Some (mkCounter 1 (if expire_ok conn then Some (t + windowSeconds tier * 1000) else None)) ∧
  (1 ≤ limit tier → (createRateLimiter tier conn t subject st).1 = Ok tt).
Proof.
  unfold idle, createRateLimiter, increment. intros Hi -> ->. simpl.
  assert (incr t (bucket_key tier subject) st = (1, <[bucket_key tier subject := mkCounter 1 None]> st)) as ->.
  { unfold incr. destruct (st !! _) as [c|]; [by rewrite Hi | done]. }
  simpl. destruct (expire_ok conn); simpl; [|split; [apply lookup_insert_eq | done]].
  unfold expire. rewrite lookup_insert_eq. simpl.
  split; [destruct (limit tier <? 1); apply lookup_insert_eq|].
  intros Hl. by replace (limit tier <? 1) with false by lia.
Qed.

(** ** Claims *)

(** A window admits exactly its limit.  Starting from an idle subject, its requests that
    reach a working store within one window, interleaved with any others, are admitted up
    to the tier's limit and refused with 429 after it. *)
Theorem window_admits_limit tier subject t0 l st :
  1 ≤ limit tier → 0 < windowSeconds tier → idle tier subject t0 st →
  steady subject (λ t, t < t0 + windowSeconds tier * 1000) l →
  outcomes tier subject ((healthy, t0, subject) :: l) st =
    map (λ i, if Z.of_nat i <? limit tier then Ok tt else Err limit_exceeded) (seq 0 (S (number subject l))).
Proof.
  intros Hlim Hw Hi Hl. destruct (open_bucket tier healthy t0 subject st Hi eq_refl eq_refl) as [Hb Ha].
  specialize (Ha Hlim). cbn [outcomes].
  destruct (createRateLimiter tier healthy t0 subject st) as [r st']. simpl in Hb, Ha. subst r.
  rewrite bool_decide_eq_true_2 by done.
  rewrite (outcomes_live tier subject l st' 1 (Some (t0 + windowSeconds tier * 1000)) Hb); [|lia|].
  - cbn [seq map]. change (Z.of_nat 0) with 0. replace (0 <? limit tier) with true by lia. f_equal.
    rewrite <- seq_shift, map_map. apply map_ext. intros i. unfold answer.
    destruct (limit tier <? 1 + 1 + Z.of_nat i) eqn:E1, (Z.of_nat (S i) <? limit tier) eqn:E2; boolify; (done || lia).
  - intros conn t other Hin ->. destruct (Hl conn t subject Hin eq_refl) as [-> Ht]. split; [done|].
    unfold expired. simpl. lia.
Qed.

(** A lost EXPIRE blocks a subject for good.  When the EXPIRE that follows a bucket's
    first INCR fails, the counter has no expiry: the subject's later requests, however
    late, are all counted against the same bucket, and once the limit is reached every one
    of them is refused. *)
Theorem lost_expire_never_recovers tier subject t0 l st :
  1 ≤ limit tier → idle tier subject t0 st → steady subject (λ _, True) l →
  outcomes tier subject ((mkConnection true true false, t0, subject) :: l) st =
    map (λ i, if Z.of_nat i <? limit tier then Ok tt else Err limit_exceeded) (seq 0 (S (number subject l))).
Proof.
  intros Hlim Hi Hl.
  destruct (open_bucket tier (mkConnection true true false) t0 subject st Hi eq_refl eq_refl) as [Hb Ha].
  specialize (Ha Hlim). cbn [outcomes].
  destruct (createRateLimiter tier _ t0 subject st) as [r st']. simpl in Hb, Ha. subst r.
  rewrite bool_decide_eq_true_2 by done.
  rewrite (outcomes_live tier subject l st' 1 None Hb); [|lia|].
  - cbn [seq map]. change (Z.of_nat 0) with 0. replace (0 <? limit tier) with true by lia. f_equal.
    rewrite <- seq_shift, map_map. apply map_ext. intros i. unfold answer.
    destruct (limit tier <? 1 + 1 + Z.of_nat i) eqn:E1, (Z.of_nat (S i) <? limit tier) eqn:E2; boolify; (done || lia).
  - intros conn t other Hin ->. destruct (Hl conn t subject Hin eq_refl) as [-> _]. done.
Qed.

Definition demo_tier : RateLimitTier := mkTier "demo" 2 60.

Lemma window_admits_limit_witness :
  outcomes demo_tier "ip:a" [(healthy, 0, "ip:a"); (healthy, 1, "ip:b"); (healthy, 2, "ip:a"); (healthy, 3, "ip:a")] ∅
    = [Ok tt; Ok tt; Err limit_exceeded].
Proof.
  apply (window_admits_limit demo_tier "ip:a" 0 [(healthy, 1, "ip:b"); (healthy, 2, "ip:a"); (healthy, 3, "ip:a")] ∅);
    [simpl; lia|simpl; lia|exact I|].
  intros conn t other Hin E. simpl in *. destruct Hin as [Hin|[Hin|[Hin|[]]]]; injection Hin as <- <- <-;
    (split; [reflexivity | lia]).
Defined.

Lemma lost_expire_never_recovers_witness :
  outcomes demo_tier "ip:a" [(mkConnection true true false, 0, "ip:a"); (healthy, 1, "ip:a"); (healthy, 10 ^ 12, "ip:a")] ∅
    = [Ok tt; Ok tt; Err limit_exceeded].
Proof.
  apply (lost_expire_never_recovers demo_tier "ip:a" 0 [(healthy, 1, "ip:a"); (healthy, 10 ^ 12, "ip:a")] ∅);
    [simpl; lia|exact I|].
  intros conn t other Hin E. simpl in *. destruct Hin as [Hin|[Hin|[]]]; injection Hin as <- <- <-;
    (split; [reflexivity | exact I]).
Defined.

End RateLimit.
