(* ===== verification/KycPolicy.v ===== *)
(** Identity decisions: src/src/modules/identity/domain/kyc-policy.ts and
    proof-of-address-policy.ts. *)

From Stdlib Require Import Ascii String.
From S2P Require Import Prelude JsString DateTime.

Module KycPolicy.
Import DateTime.

(** ** Data *)

Inductive DiditStatus :=
  | NotStarted | InProgress | InReview | Approved | Declined | Resubmitted | Expired | Abandoned
  | KycExpired | AwaitingUser.
#[global] Instance DiditStatus_eq_dec : EqDecision DiditStatus.
Proof. solve_decision. Defined.

Inductive KycEligibilityState :=
  | not_started | in_progress | pending_manual_review | eligible | unsupported_jurisdiction
  | not_eligible | requires_renewal | suspended_restricted.
#[global] Instance KycEligibilityState_eq_dec : EqDecision KycEligibilityState.
Proof. solve_decision. Defined.

Inductive KycOperationalSubstatus :=
  | kyc_not_started | kyc_session_creating | kyc_session_creation_failed | kyc_session_open | kyc_pending
  | kyc_resubmission_pending | kyc_manual_review | kyc_verified_pending_policy_eval | kyc_verified
  | kyc_verified_owner_poa_missing | kyc_jurisdiction_blocked | kyc_failed | kyc_restart_required
  | kyc_reverification_required | kyc_restricted | kyc_integration_anomaly.
#[global] Instance KycOperationalSubstatus_eq_dec : EqDecision KycOperationalSubstatus.
Proof. solve_decision. Defined.

(** A feature's status text and the risk of each of its warnings; the other fields are those
    of the feature kinds that carry them. *)
Record DiditFeatureSummary := mkFeature { f_status : string; f_warnings : list (option string) }.
Record DiditIdentitySummary := mkIdentity { i_feature : DiditFeatureSummary; i_dateOfBirth : option string }.
Record DiditAmlSummary := mkAml { a_feature : DiditFeatureSummary; a_totalHits : option Z }.
Record DiditProofOfAddressSummary := mkPoa {
  p_feature : DiditFeatureSummary; p_issueDate : option string; p_countryCode : option string }.

Record DiditVerifiedDisplayProfile := mkVerifiedProfile {
  vp_givenName : string; vp_familyName : string; vp_fullDisplayName : string; vp_idDocumentCountryCode : option string }.

Inductive SessionKind := user_session | business_session.
#[global] Instance SessionKind_eq_dec : EqDecision SessionKind.
Proof. solve_decision. Defined.

(** [verificationUrl] and [expiresAt] are optional and nullable: both readings are [None]. *)
Record DiditDecisionSummary := mkDecision {
  d_sessionId : string; d_sessionKind : option SessionKind; d_workflowId : option string;
  d_vendorData : option string; d_status : option DiditStatus;
  d_verificationUrl : option string; d_expiresAt : option Z;
  d_verifiedDisplayProfile : option DiditVerifiedDisplayProfile;
  idVerifications : list DiditIdentitySummary; livenessChecks : list DiditFeatureSummary;
  faceMatches : list DiditFeatureSummary; amlScreenings : list DiditAmlSummary;
  proofOfAddressVerifications : list DiditProofOfAddressSummary }.

Record StatusOutcome := mkOutcome {
  eligibilityState : KycEligibilityState; operationalSubstatus : KycOperationalSubstatus;
  reasonCode : string; lastVerifiedAt : option Z; renewalDueAt : option Z }.

Record KycPolicyOutcome := mkPolicyOutcome {
  po_outcome : StatusOutcome; po_everRequiredManualReview : bool }.

Record PolicyInput := mkInput {
  in_status : option DiditStatus; in_decision : option DiditDecisionSummary;
  in_residenceCountryCode : option string; in_taxResidenceCountryCode : option string;
  in_occurredAt : Z; in_everRequiredManualReview : bool }.

(** ** Text *)

(** [/^\d{4}-\d{2}-\d{2}$/], and the three numbers. *)
Definition parse_ymd (value : string) : option (Z * Z * Z) :=
  let number (s : string) := JsString.parse_digits 10 0 s in
  match JsString.split "-" value with
  | [y; m; d] =>
      if (Nat.eqb (String.length y) 4 && Nat.eqb (String.length m) 2 && Nat.eqb (String.length d) 2 &&
          JsString.string_forallb JsString.is_digit y && JsString.string_forallb JsString.is_digit m &&
          JsString.string_forallb JsString.is_digit d)%bool
      then match number y, number m, number d with Some y, Some m, Some d => Some (y, m, d) | _, _, _ => None end
      else None
  | _ => None
  end.

(** [Date.UTC(year, month - 1, day)] names that very calendar date. *)
Definition parse_date (value : string) : option (Z * Z * Z * Z) :=
  match parse_ymd value with
  | Some (y, m, d) =>
      let parsed := Date_UTC y (m - 1) d in
      if (getUTCFullYear parsed =? y) && (getUTCMonth parsed =? m - 1) && (getUTCDate parsed =? d)
      then Some (y, m, d, parsed) else None
  | None => None
  end.

(** ** The baseline policy *)

Definition supportedCountries : list string :=
  ["AT"; "BE"; "BG"; "HR"; "CY"; "CZ"; "DK"; "EE"; "FI"; "FR"; "DE";
   "GR"; "HU"; "IE"; "IT"; "LV"; "LT"; "LU"; "MT"; "NL"; "PL"; "PT";
   "RO"; "SK"; "SI"; "ES"; "SE"; "IS"; "LI"; "NO"].

Definition manualReviewReasons : list string :=
  ["ID_DOCUMENT_TAMPER_SUSPECTED"; "BIOMETRIC_FACE_MISMATCH"; "IDENTITY_DATA_MISMATCH";
   "AML_SANCTIONS_HIT"; "AML_PEP_REVIEW"; "AML_ADVERSE_MEDIA_REVIEW"].

Definition has (x : string) (l : list string) : bool := existsb (λ y, bool_decide (y = x)) l.
Definition supported (code : option string) : bool :=
  match code with Some c => has c supportedCountries | None => false end.
Definition isManualReviewReason (reason : string) : bool := has reason manualReviewReasons.

Definition outcome (st : KycEligibilityState) (sub : KycOperationalSubstatus) (reason : string) : StatusOutcome :=
  mkOutcome st sub reason None None.

Definition warningReasonFromFeatures (features : list DiditFeatureSummary) (fallback : string) : string :=
  let risks := List.concat (map (λ f, map (λ r, match r with Some r => JsString.toUpperCase r | None => EmptyString end)
                                        (f_warnings f)) features) in
  let some p := existsb p risks in
  if some (JsString.includes "SANCTION") then "AML_SANCTIONS_HIT"
  else if some (JsString.includes "ADVERSE") then "AML_ADVERSE_MEDIA_REVIEW"
  else if some (JsString.includes "PEP") then "AML_PEP_REVIEW"
  else if some (JsString.includes "TAMPER") then "ID_DOCUMENT_TAMPER_SUSPECTED"
  else if some (λ r, JsString.includes "FACE" r || JsString.includes "MATCH" r) then "BIOMETRIC_FACE_MISMATCH"
  else if some (JsString.includes "LIVENESS") then "BIOMETRIC_LIVENESS_FAIL"
  else if some (JsString.includes "EXPIRED") then "ID_DOCUMENT_EXPIRED"
  else fallback.

Definition warningReason (decision : option DiditDecisionSummary) (fallback : string) : string :=
  match decision with
  | None => fallback
  | Some d => warningReasonFromFeatures
      (map i_feature (idVerifications d) ++ livenessChecks d ++ faceMatches d ++ map a_feature (amlScreenings d))
      fallback
  end.

Definition isAdult (dateOfBirth : string) (at_ : Z) : bool :=
  match parse_date dateOfBirth with
  | Some (y, m, d, _) => Date_UTC (y + 18) (m - 1) d <=? at_
  | None => false
  end.

Definition not_approved (f : DiditFeatureSummary) : bool := negb (bool_decide (f_status f = "Approved")).
Definition is_empty {A} (l : list A) : bool := match l with [] => true | _ => false end.

Definition reviewed_or_failed (reason : string) : StatusOutcome :=
  outcome (if isManualReviewReason reason then pending_manual_review else not_eligible)
    (if isManualReviewReason reason then kyc_manual_review else kyc_failed) reason.

Definition evaluateApproved (input : PolicyInput) : StatusOutcome :=
  if negb (supported (in_residenceCountryCode input)) || negb (supported (in_taxResidenceCountryCode input))
  then outcome unsupported_jurisdiction kyc_jurisdiction_blocked "JURISDICTION_UNSUPPORTED"
  else
    match in_decision input with
    | None => outcome pending_manual_review kyc_integration_anomaly "PROVIDER_STATUS_ANOMALY"
    | Some d =>
        if is_empty (idVerifications d) || is_empty (livenessChecks d) || is_empty (faceMatches d) ||
           is_empty (amlScreenings d)
        then outcome pending_manual_review kyc_integration_anomaly "PROVIDER_STATUS_ANOMALY"
        else
          match find_row (λ i, not_approved (i_feature i)) (idVerifications d) with
          | Some i => reviewed_or_failed (warningReasonFromFeatures [i_feature i] "ID_DOCUMENT_INVALID")
          | None =>
              if existsb not_approved (livenessChecks d)
              then outcome not_eligible kyc_failed "BIOMETRIC_LIVENESS_FAIL"
              else if existsb not_approved (faceMatches d)
              then outcome pending_manual_review kyc_manual_review "BIOMETRIC_FACE_MISMATCH"
              else if existsb (λ a, not_approved (a_feature a) || (0 <? default 0 (a_totalHits a))) (amlScreenings d)
              then outcome pending_manual_review kyc_manual_review
                     (warningReasonFromFeatures (map a_feature (amlScreenings d)) "AML_PEP_REVIEW")
              else
                let datesOfBirth := omap i_dateOfBirth (idVerifications d) in
                if is_empty datesOfBirth
                then outcome pending_manual_review kyc_integration_anomaly "PROVIDER_STATUS_ANOMALY"
                else if existsb (λ v, negb (isAdult v (in_occurredAt input))) datesOfBirth
                then outcome not_eligible kyc_failed "AGE_UNDER_18"
                else mkOutcome eligible kyc_verified_owner_poa_missing "KYC_BASELINE_APPROVED"
                       (Some (in_occurredAt input)) None
          end
    end.

Definition evaluateStatusOutcome (input : PolicyInput) : StatusOutcome :=
  match in_status input with
  | Some NotStarted => outcome not_started kyc_session_open "KYC_SESSION_OPEN"
  | Some InProgress => outcome in_progress kyc_pending "KYC_SESSION_PENDING"
  | Some Resubmitted => outcome in_progress kyc_resubmission_pending "KYC_RESUBMISSION_REQUIRED"
  | Some InReview => outcome pending_manual_review kyc_manual_review
                       (warningReason (in_decision input) "KYC_MANUAL_REVIEW")
  | Some Expired => outcome not_started kyc_restart_required "KYC_SESSION_EXPIRED"
  | Some Abandoned => outcome not_started kyc_restart_required "KYC_SESSION_ABANDONED"
  | Some KycExpired => outcome requires_renewal kyc_reverification_required "KYC_REVERIFICATION_REQUIRED"
  | Some AwaitingUser | None => outcome pending_manual_review kyc_integration_anomaly "PROVIDER_STATUS_ANOMALY"
  | Some Declined => reviewed_or_failed (warningReason (in_decision input) "ID_DOCUMENT_INVALID")
  | Some Approved => evaluateApproved input
  end.

Definition with_renewal (due : Z) (o : StatusOutcome) : StatusOutcome :=
  mkOutcome (eligibilityState o) (operationalSubstatus o) (reasonCode o) (lastVerifiedAt o) (Some due).

Definition evaluateDiditOutcome (input : PolicyInput) : KycPolicyOutcome :=
  let base := evaluateStatusOutcome input in
  let ever := in_everRequiredManualReview input || bool_decide (operationalSubstatus base = kyc_manual_review) in
  if negb (bool_decide (eligibilityState base = eligible)) then mkPolicyOutcome base ever
  else
    let due := setUTCMonth (getUTCMonth (in_occurredAt input) + (if ever then 12 else 24)) (in_occurredAt input) in
    mkPolicyOutcome (with_renewal due base) ever.

Definition isRenewalReminderDue (renewalDueAt today leadDays : Z) : bool :=
  let reminderDate := setUTCDate (getUTCDate renewalDueAt - leadDays) renewalDueAt in
  (getUTCFullYear reminderDate =? getUTCFullYear today) && (getUTCMonth reminderDate =? getUTCMonth today) &&
  (getUTCDate reminderDate =? getUTCDate today).

Definition isRenewalOverdue (renewalDueAt now : Z) : bool := renewalDueAt <? now.

Definition isSessionStuck (updatedAt now timeoutMs : Z) : bool := timeoutMs <=? now - updatedAt.

(** ** Proof of address *)

Module ProofOfAddress.
Inductive status :=
  | not_started | creating | creation_failed
  | in_progress | pending_manual_review | current | insufficient | expired | restart_required | integration_anomaly.
#[global] Instance status_eq_dec : EqDecision status.
Proof. solve_decision. Defined.
End ProofOfAddress.

Record ProofOfAddressOutcome := mkPoaOutcome {
  poa_status : ProofOfAddress.status; poa_reasonCode : string; poa_currentUntil : option Z }.

Definition supportedCountryCodes : list (string * string) :=
  [("AT", "AT"); ("AUT", "AT"); ("BE", "BE"); ("BEL", "BE"); ("BG", "BG"); ("BGR", "BG"); ("HR", "HR"); ("HRV", "HR");
   ("CY", "CY"); ("CYP", "CY"); ("CZ", "CZ"); ("CZE", "CZ"); ("DK", "DK"); ("DNK", "DK"); ("EE", "EE"); ("EST", "EE");
   ("FI", "FI"); ("FIN", "FI"); ("FR", "FR"); ("FRA", "FR"); ("DE", "DE"); ("DEU", "DE"); ("GR", "GR"); ("GRC", "GR");
   ("HU", "HU"); ("HUN", "HU"); ("IE", "IE"); ("IRL", "IE"); ("IT", "IT"); ("ITA", "IT"); ("LV", "LV"); ("LVA", "LV");
   ("LT", "LT"); ("LTU", "LT"); ("LU", "LU"); ("LUX", "LU"); ("MT", "MT"); ("MLT", "MT"); ("NL", "NL"); ("NLD", "NL");
   ("PL", "PL"); ("POL", "PL"); ("PT", "PT"); ("PRT", "PT"); ("RO", "RO"); ("ROU", "RO"); ("SK", "SK"); ("SVK", "SK");
   ("SI", "SI"); ("SVN", "SI"); ("ES", "ES"); ("ESP", "ES"); ("SE", "SE"); ("SWE", "SE"); ("IS", "IS"); ("ISL", "IS");
   ("LI", "LI"); ("LIE", "LI"); ("NO", "NO"); ("NOR", "NO")].

Definition normalizeCountryCode (value : option string) : option string :=
  match value with
  | None => None
  | Some v => snd <$> find_row (λ kv, bool_decide (kv.1 = JsString.toUpperCase v)) supportedCountryCodes
  end.

Definition parseIsoDate (value : option string) : option Z :=
  match value with None => None | Some v => snd <$> parse_date v end.

Definition addUtcMonthsClamped (date months : Z) : Z :=
  let targetMonth := getUTCMonth date + months in
  let targetYear := getUTCFullYear date + targetMonth / 12 in
  let normalizedMonth := Z.rem (Z.rem targetMonth 12 + 12) 12 in
  let finalDay := getUTCDate (Date_UTC targetYear (normalizedMonth + 1) 0) in
  Date_UTC targetYear normalizedMonth (Z.min (getUTCDate date) finalDay).

Definition poa_outcome (st : ProofOfAddress.status) (reason : string) : ProofOfAddressOutcome :=
  mkPoaOutcome st reason None.

(** The freshness date of one verification, [None] when it needs a person. *)
Definition freshness (occurredAt : Z) (residence : string) (v : DiditProofOfAddressSummary) : option Z :=
  match parseIsoDate (p_issueDate v), normalizeCountryCode (p_countryCode v) with
  | Some issueDate, Some countryCode =>
      if (occurredAt <? issueDate) || negb (bool_decide (countryCode = residence)) then None
      else Some (addUtcMonthsClamped issueDate 3)
  | _, _ => None
  end.

(** The loop over the verifications: [None] at the first that needs a person. *)
Fixpoint freshness_dates (occurredAt : Z) (residence : string) (l : list DiditProofOfAddressSummary)
    : option (list Z) :=
  match l with
  | [] => Some []
  | v :: l =>
      match freshness occurredAt residence v with
      | None => None
      | Some x => match freshness_dates occurredAt residence l with Some xs => Some (x :: xs) | None => None end
      end
  end.

(** [dates.reduce((earliest, date) => date < earliest ? date : earliest)] *)
Definition earliest (dates : list Z) : Z :=
  match dates with [] => 0 | x :: xs => foldl (λ e d, if d <? e then d else e) x xs end.

Definition evaluateApprovedProofOfAddress (decision : option DiditDecisionSummary) (residence : option string)
    (occurredAt : Z) : ProofOfAddressOutcome :=
  let verifications := match decision with Some d => proofOfAddressVerifications d | None => [] end in
  match residence with
  | None => poa_outcome ProofOfAddress.integration_anomaly "PROVIDER_STATUS_ANOMALY"
  | Some residence =>
      if is_empty verifications then poa_outcome ProofOfAddress.integration_anomaly "PROVIDER_STATUS_ANOMALY"
      else if existsb (λ v, not_approved (p_feature v) || negb (is_empty (f_warnings (p_feature v)))) verifications
      then poa_outcome ProofOfAddress.pending_manual_review "OWNER_PROOF_OF_ADDRESS_INSUFFICIENT"
      else
        match freshness_dates occurredAt residence verifications with
        | None => poa_outcome ProofOfAddress.pending_manual_review "OWNER_PROOF_OF_ADDRESS_INSUFFICIENT"
        | Some dates =>
            let currentUntil := earliest dates in
            if currentUntil <=? occurredAt
            then poa_outcome ProofOfAddress.expired "OWNER_PROOF_OF_ADDRESS_MISSING"
            else mkPoaOutcome ProofOfAddress.current "OWNER_PROOF_OF_ADDRESS_APPROVED" (Some currentUntil)
        end
  end.

Definition evaluateProofOfAddressOutcome (status : option DiditStatus) (decision : option DiditDecisionSummary)
    (residence : option string) (occurredAt : Z) : ProofOfAddressOutcome :=
  match status with
  | Some NotStarted | Some InProgress | Some Resubmitted =>
      poa_outcome ProofOfAddress.in_progress "OWNER_PROOF_OF_ADDRESS_PENDING"
  | Some InReview => poa_outcome ProofOfAddress.pending_manual_review "OWNER_PROOF_OF_ADDRESS_INSUFFICIENT"
  | Some Declined => poa_outcome ProofOfAddress.insufficient "OWNER_PROOF_OF_ADDRESS_INSUFFICIENT"
  | Some Expired | Some Abandoned | Some KycExpired =>
      poa_outcome ProofOfAddress.restart_required "OWNER_PROOF_OF_ADDRESS_MISSING"
  | Some AwaitingUser | None => poa_outcome ProofOfAddress.integration_anomaly "PROVIDER_STATUS_ANOMALY"
  | Some Approved => evaluateApprovedProofOfAddress decision residence occurredAt
  end.

(** ** Lemmas *)

Definition approved (f : DiditFeatureSummary) : Prop := f_status f = "Approved".

Lemma not_approved_false f : not_approved f = false ↔ approved f.
Proof. unfold not_approved. rewrite negb_false_iff, bool_decide_eq_true. done. Qed.

Lemma existsb_false {A} (p : A → bool) l : existsb p l = false ↔ ∀ x, In x l → p x = false.
Proof.
  rewrite <- Bool.not_true_iff_false, existsb_exists. split.
  - intros H x Hx. apply Bool.not_true_iff_false. intros E. apply H. eauto.
  - intros H (x & Hx & E). by rewrite (H x Hx) in E.
Qed.

Lemma is_empty_false {A} (l : list A) : is_empty l = false ↔ l ≠ [].
Proof. by destruct l. Qed.

Lemma reviewed_or_failed_not_eligible reason : eligibilityState (reviewed_or_failed reason) ≠ eligible.
Proof. unfold reviewed_or_failed. by destruct (isManualReviewReason reason). Qed.

(** What a decision must show. *)
Record clean_decision (d : DiditDecisionSummary) (at_ : Z) : Prop := {
  cd_identity : idVerifications d ≠ [] ∧ ∀ i, In i (idVerifications d) → approved (i_feature i);
  cd_liveness : livenessChecks d ≠ [] ∧ ∀ f, In f (livenessChecks d) → approved f;
  cd_faces : faceMatches d ≠ [] ∧ ∀ f, In f (faceMatches d) → approved f;
  cd_aml : amlScreenings d ≠ [] ∧
    ∀ a, In a (amlScreenings d) → approved (a_feature a) ∧ default 0 (a_totalHits a) ≤ 0;
  cd_age : (∃ i v, In i (idVerifications d) ∧ i_dateOfBirth i = Some v) ∧
    ∀ i v, In i (idVerifications d) → i_dateOfBirth i = Some v → isAdult v at_ = true }.

Lemma births_none (l : list DiditIdentitySummary) :
  is_empty (omap i_dateOfBirth l) = false ↔ ∃ i v, In i l ∧ i_dateOfBirth i = Some v.
Proof.
  rewrite is_empty_false. split.
  - destruct (omap i_dateOfBirth l) as [|v vs] eqn:E; [done|]. intros _.
    assert (v ∈ omap i_dateOfBirth l) as Hv by (rewrite E; by left).
    apply list_elem_of_omap in Hv as (i & Hi & Hv). exists i, v. by rewrite <- list_elem_of_In.
  - intros (i & v & Hi & Hv) E. assert (v ∈ omap i_dateOfBirth l) as Hin.
    { apply list_elem_of_omap. exists i. by rewrite list_elem_of_In. }
    rewrite E in Hin. by apply not_elem_of_nil in Hin.
Qed.

Lemma births_adult (l : list DiditIdentitySummary) at_ :
  existsb (λ v, negb (isAdult v at_)) (omap i_dateOfBirth l) = false ↔
  ∀ i v, In i l → i_dateOfBirth i = Some v → isAdult v at_ = true.
Proof.
  rewrite existsb_false. split.
  - intros H i v Hi Hv. apply negb_false_iff, H, list_elem_of_In, list_elem_of_omap.
    exists i. by rewrite list_elem_of_In.
  - intros H v Hv. apply list_elem_of_In, list_elem_of_omap in Hv as (i & Hi & Hv).
    apply negb_false_iff. eapply H; [by apply list_elem_of_In | done].
Qed.

Lemma aml_clean (l : list DiditAmlSummary) :
  existsb (λ a, not_approved (a_feature a) || (0 <? default 0 (a_totalHits a))) l = false ↔
  ∀ a, In a l → approved (a_feature a) ∧ default 0 (a_totalHits a) ≤ 0.
Proof.
  rewrite existsb_false. split; intros H a Ha; specialize (H a Ha).
  - apply orb_false_iff in H as [H1%not_approved_false H2]. split; [done|]. boolify. lia.
  - apply orb_false_iff. by rewrite (proj2 (not_approved_false _) (proj1 H)), (proj2 (Z.ltb_ge _ _) (proj2 H)).
Qed.

Lemma checks_clean (l : list DiditFeatureSummary) :
  existsb not_approved l = false ↔ ∀ f, In f l → approved f.
Proof. rewrite existsb_false. split; intros H f Hf; specialize (H f Hf); by apply not_approved_false. Qed.

Lemma identities_clean (l : list DiditIdentitySummary) :
  find_row (λ i, not_approved (i_feature i)) l = None ↔ ∀ i, In i l → approved (i_feature i).
Proof. rewrite find_row_None. split; intros H f Hf; specialize (H f Hf); by apply not_approved_false. Qed.

Lemma evaluateApproved_eligible input :
  eligibilityState (evaluateApproved input) = eligible ↔
  supported (in_residenceCountryCode input) = true ∧ supported (in_taxResidenceCountryCode input) = true ∧
  ∃ d, in_decision input = Some d ∧ clean_decision d (in_occurredAt input).
Proof.
  unfold evaluateApproved. split.
  - destruct (supported (in_residenceCountryCode input)), (supported (in_taxResidenceCountryCode input)); try done.
    destruct (in_decision input) as [d|]; [|done]. simpl.
    destruct (is_empty (idVerifications d)) eqn:E1; [done|]. destruct (is_empty (livenessChecks d)) eqn:E2; [done|].
    destruct (is_empty (faceMatches d)) eqn:E3; [done|]. destruct (is_empty (amlScreenings d)) eqn:E4; [done|]. simpl.
    destruct (find_row _ _) eqn:F1; [by intros H%reviewed_or_failed_not_eligible|].
    destruct (existsb not_approved (livenessChecks d)) eqn:F2; [done|].
    destruct (existsb not_approved (faceMatches d)) eqn:F3; [done|].
    destruct (existsb _ (amlScreenings d)) eqn:F4; [done|].
    destruct (is_empty (omap _ _)) eqn:F5; [done|]. destruct (existsb _ (omap _ _)) eqn:F6; [done|]. intros _.
    split_and!; [done..|]. exists d. split; [done|].
    apply is_empty_false in E1, E2, E3, E4.
    pose proof (proj1 (identities_clean _) F1). pose proof (proj1 (checks_clean _) F2).
    pose proof (proj1 (checks_clean _) F3). pose proof (proj1 (aml_clean _) F4).
    pose proof (proj1 (births_none _) F5). pose proof (proj1 (births_adult _ _) F6). by split.
  - intros (-> & -> & d & -> & [[H1 H1'] [H2 H2'] [H3 H3'] [H4 H4'] [H5 H5']]). simpl.
    rewrite (proj2 (is_empty_false _) H1), (proj2 (is_empty_false _) H2), (proj2 (is_empty_false _) H3),
      (proj2 (is_empty_false _) H4), (proj2 (identities_clean _) H1'), (proj2 (checks_clean _) H2'),
      (proj2 (checks_clean _) H3'), (proj2 (aml_clean _) H4'), (proj2 (births_none _) H5),
      (proj2 (births_adult _ _) H5'). done.
Qed.

Lemma evaluateApproved_dates input :
  eligibilityState (evaluateApproved input) ≠ eligible →
  lastVerifiedAt (evaluateApproved input) = None ∧ renewalDueAt (evaluateApproved input) = None.
Proof.
  unfold evaluateApproved, reviewed_or_failed. intros H. repeat (case_match; simpl in *; try done).
Qed.

Lemma status_eligible input :
  eligibilityState (evaluateStatusOutcome input) = eligible ↔
  in_status input = Some Approved ∧ eligibilityState (evaluateApproved input) = eligible.
Proof.
  unfold evaluateStatusOutcome. destruct (in_status input) as [[]|]; simpl; try (split; [done | by intros [? _]]);
    [tauto|]. split; [by intros H%reviewed_or_failed_not_eligible | by intros [? _]].
Qed.

Lemma status_dates input : eligibilityState (evaluateStatusOutcome input) ≠ eligible →
  lastVerifiedAt (evaluateStatusOutcome input) = None ∧ renewalDueAt (evaluateStatusOutcome input) = None.
Proof.
  unfold evaluateStatusOutcome. destruct (in_status input) as [[]|]; simpl; try done; apply evaluateApproved_dates.
Qed.

Lemma eligible_last_verified input : eligibilityState (evaluateApproved input) = eligible →
  lastVerifiedAt (evaluateApproved input) = Some (in_occurredAt input) ∧
  operationalSubstatus (evaluateApproved input) = kyc_verified_owner_poa_missing.
Proof.
  unfold evaluateApproved, reviewed_or_failed. intros H. repeat (case_match; simpl in *; try done).
Qed.

(** Who becomes eligible, and with which dates. *)
Lemma kyc_eligible_decision input : eligibilityState (po_outcome (evaluateDiditOutcome input)) = eligible ↔
  in_status input = Some Approved ∧ supported (in_residenceCountryCode input) = true ∧
  supported (in_taxResidenceCountryCode input) = true ∧
  ∃ d, in_decision input = Some d ∧ clean_decision d (in_occurredAt input).
Proof.
  rewrite <- evaluateApproved_eligible, <- status_eligible. unfold evaluateDiditOutcome. by case_bool_decide.
Qed.

Lemma kyc_eligible_dates input : let o := evaluateDiditOutcome input in
  eligibilityState (po_outcome o) = eligible →
  lastVerifiedAt (po_outcome o) = Some (in_occurredAt input) ∧
  po_everRequiredManualReview o = in_everRequiredManualReview input ∧
  renewalDueAt (po_outcome o) = Some (setUTCMonth (getUTCMonth (in_occurredAt input) +
    (if in_everRequiredManualReview input then 12 else 24)) (in_occurredAt input)).
Proof.
  unfold evaluateDiditOutcome. case_bool_decide as He; simpl; [|done]. intros _.
  pose proof He as [Hs He']%status_eligible. destruct (eligible_last_verified input He') as [Hl Ho].
  assert (evaluateStatusOutcome input = evaluateApproved input) as -> by (unfold evaluateStatusOutcome; by rewrite Hs).
  rewrite Hl, Ho. simpl. by rewrite orb_false_r.
Qed.

(** ** Claims *)

(** Who becomes eligible.  A provider outcome makes an account eligible exactly when the
    provider approved it, both declared countries are supported, and the decision carries
    at least one identity, liveness, face and AML check with every one approved, no AML hit,
    and at least one date of birth with every one eighteen years old or more; the account
    then gets a renewal date 24 months out, 12 if it ever needed manual review, and no other
    outcome carries a verification or renewal date. *)
Theorem kyc_eligible_iff input :
  let o := po_outcome (evaluateDiditOutcome input) in
  (eligibilityState o = eligible ↔
     in_status input = Some Approved ∧ supported (in_residenceCountryCode input) = true ∧
     supported (in_taxResidenceCountryCode input) = true ∧
     ∃ d, in_decision input = Some d ∧ clean_decision d (in_occurredAt input)) ∧
  (eligibilityState o = eligible →
     lastVerifiedAt o = Some (in_occurredAt input) ∧
     renewalDueAt o = Some (setUTCMonth (getUTCMonth (in_occurredAt input) +
       (if in_everRequiredManualReview input then 12 else 24)) (in_occurredAt input))) ∧
  (eligibilityState o ≠ eligible → lastVerifiedAt o = None ∧ renewalDueAt o = None).
Proof.
  simpl. split_and!; [apply kyc_eligible_decision| |].
  - intros H. by destruct (kyc_eligible_dates input H) as (? & _ & ?).
  - unfold evaluateDiditOutcome. case_bool_decide as He; simpl; [done|]. intros _. by apply status_dates.
Qed.

(** *** Proof of address *)

Lemma freshness_dates_some at_ residence l dates :
  freshness_dates at_ residence l = Some dates ↔ Forall2 (λ v x, freshness at_ residence v = Some x) l dates.
Proof.
  revert dates. induction l as [|v l IH]; intros dates; simpl.
  { split; [intros [= <-]; constructor | by inversion 1]. }
  split.
  - destruct (freshness at_ residence v) as [x|] eqn:E; [|done].
    destruct (freshness_dates at_ residence l) as [xs|]; [|done]. intros [= <-]. constructor; [done|]. by apply IH.
  - inversion 1 as [|? x ? xs Hx Hxs]; subst. rewrite Hx. apply IH in Hxs as ->. done.
Qed.

Lemma earliest_fold xs : ∀ x, let e := foldl (λ e d, if d <? e then d else e) x xs in
  e ≤ x ∧ (∀ y, In y xs → e ≤ y) ∧ (e = x ∨ In e xs).
Proof.
  induction xs as [|y xs IH]; intros x; simpl; [split_and!; [lia|done|by left]|].
  destruct (IH (if y <? x then y else x)) as (H1 & H2 & H3). split_and!.
  - destruct (y <? x) eqn:E; boolify; lia.
  - intros z [<-|Hz]; [|by apply H2]. destruct (y <? x) eqn:E; boolify; lia.
  - destruct H3 as [->|H3]; [|auto]. destruct (y <? x); auto.
Qed.

Lemma earliest_spec dates : dates ≠ [] → In (earliest dates) dates ∧ ∀ x, In x dates → earliest dates ≤ x.
Proof.
  destruct dates as [|x xs]; [done|]. intros _. simpl. destruct (earliest_fold xs x) as (H1 & H2 & H3).
  split; [destruct H3; auto|]. intros y [<-|Hy]; auto.
Qed.

(** A proof of address counts until its oldest document is three months old.  An outcome
    is current exactly when the provider approved the session and every document, none with
    a warning, each with a real issue date not in the future and from the account's country
    of residence; and it then stays current until the earliest of the documents' issue
    dates plus three calendar months, which is still ahead. *)
Theorem poa_current_iff status decision residence at_ until :
  evaluateProofOfAddressOutcome status decision residence at_ =
    mkPoaOutcome ProofOfAddress.current "OWNER_PROOF_OF_ADDRESS_APPROVED" (Some until) ↔
  ∃ d r dates, status = Some Approved ∧ decision = Some d ∧ residence = Some r ∧
    proofOfAddressVerifications d ≠ [] ∧
    (∀ v, In v (proofOfAddressVerifications d) → approved (p_feature v) ∧ f_warnings (p_feature v) = []) ∧
    Forall2 (λ v x, freshness at_ r v = Some x) (proofOfAddressVerifications d) dates ∧
    In until dates ∧ (∀ x, In x dates → until ≤ x) ∧ at_ < until.
Proof.
  split.
  - destruct status as [[]|]; try done. simpl. unfold evaluateApprovedProofOfAddress.
    destruct residence as [r|]; [|done]. destruct decision as [d|]; [|done].
    destruct (is_empty (proofOfAddressVerifications d)) eqn:E1; [done|].
    destruct (existsb _ _) eqn:E2; [done|]. destruct (freshness_dates _ _ _) as [dates|] eqn:E3; [|done].
    destruct (earliest dates <=? at_) eqn:E4; [done|]. intros [= <-]. boolify.
    rewrite is_empty_false in E1. rewrite existsb_false in E2. rewrite freshness_dates_some in E3.
    assert (dates ≠ []) as Hd by (intros ->; by inversion E3; subst).
    destruct (earliest_spec dates Hd) as [Hin Hmin]. exists d, r, dates. split_and!; try done.
    intros v Hv. specialize (E2 v Hv). apply orb_false_iff in E2 as [H1%not_approved_false H2].
    split; [done|]. by destruct (f_warnings (p_feature v)).
  - intros (d & r & dates & -> & -> & -> & H1 & H2 & H3 & H4 & H5 & H6). simpl.
    unfold evaluateApprovedProofOfAddress. rewrite (proj2 (is_empty_false _) H1).
    rewrite (proj2 (existsb_false _ _)).
    2:{ intros v Hv. destruct (H2 v Hv) as [Ha ->]. apply orb_false_iff. split; [by apply not_approved_false | done]. }
    rewrite (proj2 (freshness_dates_some _ _ _ _) H3).
    assert (dates ≠ []) as Hd by (by intros ->).
    destruct (earliest_spec dates Hd) as [Hin Hmin].
    assert (earliest dates = until) as -> by (specialize (Hmin until H4); specialize (H5 _ Hin); lia).
    by replace (until <=? at_) with false by lia.
Qed.

(** The renewal reminder goes out on exactly one day. *)
Lemma reminder_day renewalDueAt today leadDays :
  isRenewalReminderDue renewalDueAt today leadDays = true ↔ Day today = Day renewalDueAt - leadDays.
Proof.
  unfold isRenewalReminderDue. rewrite same_date. replace (getUTCDate renewalDueAt - leadDays)
    with (getUTCDate renewalDueAt + - leadDays) by lia.
  rewrite setUTCDate_add, Day_add. lia.
Qed.

End KycPolicy.
