(* ===== verification/KycRepo.v ===== *)
(** The identity module's tables and repository: rows of identity.kyc_eligibility and its
    history, the audit rows that carry an event key, and every method of
    src/src/modules/identity/repository/prisma-kyc.repository.ts.

    The columns of a row are grouped: those of the baseline session, those of the
    proof-of-address session, and the rest.  [session_start_id]s and event keys are made by
    randomUUID() in the services and are arguments here.  Audit rows without an event key go to
    the shared [auditLog]. *)

From Stdlib Require Import Ascii String.
From stdpp Require Import gmap.
From S2P Require Import Prelude JsString DateTime IntakePolicy Db KycPolicy.

Module KycRepo.
Import KycPolicy.

(** ** Rows *)

Module Kyc.
Record baseline := mkBaseline {
  diditReference : option string; eligibilityState : KycEligibilityState; providerStatus : option DiditStatus;
  operationalSubstatus : KycOperationalSubstatus; providerUpdatedAt : option Z; sessionStartId : option string;
  lastVerifiedAt : option Z; renewalDueAt : option Z; everRequiredManualReview : bool }.
Record address := mkAddress {
  poaDiditReference : option string; poaProviderStatus : option DiditStatus; poaProviderUpdatedAt : option Z;
  poaSessionStartId : option string; poaStatus : ProofOfAddress.status; poaCurrentUntil : option Z }.
Record t := mk {
  accountId : string; base : baseline; poa : address;
  residenceCountryCode : option string; taxResidenceCountryCode : option string; updatedAt : Z }.

Definition state (r : t) : KycEligibilityState := eligibilityState (base r).
Definition substatus (r : t) : KycOperationalSubstatus := operationalSubstatus (base r).
Definition set_base (b : baseline) (at_ : Z) (r : t) : t :=
  mk r.(accountId) b r.(poa) r.(residenceCountryCode) r.(taxResidenceCountryCode) at_.
Definition set_poa (p : address) (at_ : Z) (r : t) : t :=
  mk r.(accountId) r.(base) p r.(residenceCountryCode) r.(taxResidenceCountryCode) at_.
Definition set_substatus (st : KycOperationalSubstatus) (b : baseline) : baseline :=
  mkBaseline b.(diditReference) b.(eligibilityState) b.(providerStatus) st b.(providerUpdatedAt) b.(sessionStartId)
    b.(lastVerifiedAt) b.(renewalDueAt) b.(everRequiredManualReview).
Definition set_poaStatus (st : ProofOfAddress.status) (p : address) : address :=
  mkAddress p.(poaDiditReference) p.(poaProviderStatus) p.(poaProviderUpdatedAt) p.(poaSessionStartId) st
    p.(poaCurrentUntil).
Definition no_address := mkAddress None None None None ProofOfAddress.not_started None.
End Kyc.

Module KycHistory.
Record t := mk {
  id : string; accountId : string; previousState : KycEligibilityState; newState : KycEligibilityState;
  reasonCode : string; changedAt : Z }.
End KycHistory.

(** An audit row with its unique event key. *)
Module Receipt.
Record t := mk { eventKey : string; row : AuditLog.t }.
Definition set_changes (changes : list (string * json)) (r : t) : t :=
  let a := row r in
  mk (eventKey r) (AuditLog.mk (AuditLog.id a) (AuditLog.actorAccountId a) (AuditLog.action a) (AuditLog.resourceType a)
    (AuditLog.resourceId a) changes (AuditLog.createdAt a)).
End Receipt.

(** protected-profile-cache.ts: what the cache holds for an account. *)
Record ProtectedDisplayProfile := mkProfile {
  dp_givenName : string; dp_familyName : string; dp_fullDisplayName : string;
  dp_idDocumentCountryCode : option string; dp_syncedAt : Z }.

(** [outbox] is the renewal reminders handed to the e-mail sender, [profiles] the cache of
    display profiles. *)
Record identity := mkIdentity {
  kbase : db; rows : list Kyc.t; history : list KycHistory.t; receipts : list Receipt.t;
  settings : list (string * json); outbox : list (string * Z); profiles : gmap string ProtectedDisplayProfile }.

Definition set_kbase v s := mkIdentity v (rows s) (history s) (receipts s) (settings s) (outbox s) (profiles s).
Definition set_rows v s := mkIdentity (kbase s) v (history s) (receipts s) (settings s) (outbox s) (profiles s).
Definition set_history v s := mkIdentity (kbase s) (rows s) v (receipts s) (settings s) (outbox s) (profiles s).
Definition set_receipts v s := mkIdentity (kbase s) (rows s) (history s) v (settings s) (outbox s) (profiles s).
Definition set_outbox v s := mkIdentity (kbase s) (rows s) (history s) (receipts s) (settings s) v (profiles s).
Definition set_profiles v s := mkIdentity (kbase s) (rows s) (history s) (receipts s) (settings s) (outbox s) v.

(** ** Texts *)

Definition status_text (st : DiditStatus) : string :=
  match st with
  | NotStarted => "Not Started" | InProgress => "In Progress" | InReview => "In Review" | Approved => "Approved"
  | Declined => "Declined" | Resubmitted => "Resubmitted" | Expired => "Expired" | Abandoned => "Abandoned"
  | KycExpired => "Kyc Expired" | AwaitingUser => "Awaiting User"
  end.

Definition state_text (st : KycEligibilityState) : string :=
  match st with
  | not_started => "not_started" | in_progress => "in_progress" | pending_manual_review => "pending_manual_review"
  | eligible => "eligible" | unsupported_jurisdiction => "unsupported_jurisdiction" | not_eligible => "not_eligible"
  | requires_renewal => "requires_renewal" | KycPolicy.suspended_restricted => "suspended_restricted"
  end.

Definition substatus_text (st : KycOperationalSubstatus) : string :=
  match st with
  | kyc_not_started => "kyc_not_started" | kyc_session_creating => "kyc_session_creating"
  | kyc_session_creation_failed => "kyc_session_creation_failed" | kyc_session_open => "kyc_session_open"
  | kyc_pending => "kyc_pending" | kyc_resubmission_pending => "kyc_resubmission_pending"
  | kyc_manual_review => "kyc_manual_review" | kyc_verified_pending_policy_eval => "kyc_verified_pending_policy_eval"
  | kyc_verified => "kyc_verified" | kyc_verified_owner_poa_missing => "kyc_verified_owner_poa_missing"
  | kyc_jurisdiction_blocked => "kyc_jurisdiction_blocked" | kyc_failed => "kyc_failed"
  | kyc_restart_required => "kyc_restart_required" | kyc_reverification_required => "kyc_reverification_required"
  | kyc_restricted => "kyc_restricted" | kyc_integration_anomaly => "kyc_integration_anomaly"
  end.

Definition poa_text (st : ProofOfAddress.status) : string :=
  match st with
  | ProofOfAddress.not_started => "not_started" | ProofOfAddress.creating => "creating"
  | ProofOfAddress.creation_failed => "creation_failed" | ProofOfAddress.in_progress => "in_progress"
  | ProofOfAddress.pending_manual_review => "pending_manual_review" | ProofOfAddress.current => "current"
  | ProofOfAddress.insufficient => "insufficient" | ProofOfAddress.expired => "expired"
  | ProofOfAddress.restart_required => "restart_required" | ProofOfAddress.integration_anomaly => "integration_anomaly"
  end.

Definition json_status (st : option DiditStatus) : json :=
  match st with Some st => JStr (status_text st) | None => JNull end.

(** [`${v}`] of a nullable value *)
Definition template (v : option string) : string := match v with Some v => v | None => "null" end.

(** ** Constraints *)

Definition of_account (accountId : string) (r : Kyc.t) : bool := bool_decide (Kyc.accountId r = accountId).

Definition column_is (f : Kyc.t → option string) (v : string) (r : Kyc.t) : bool := bool_decide (f r = Some v).

(** A unique nullable column: another row already holds the value. *)
Definition taken (f : Kyc.t → option string) (r : Kyc.t) (l : list Kyc.t) : bool :=
  match f r with
  | None => false
  | Some v => exists_row (λ q, negb (of_account (Kyc.accountId r) q) && column_is f v q) l
  end.

Definition didit_ref (r : Kyc.t) := Kyc.diditReference (Kyc.base r).
Definition start_ref (r : Kyc.t) := Kyc.sessionStartId (Kyc.base r).
Definition poa_ref (r : Kyc.t) := Kyc.poaDiditReference (Kyc.poa r).
Definition poa_start_ref (r : Kyc.t) := Kyc.poaSessionStartId (Kyc.poa r).

Definition is_upper (c : ascii) : bool := let n := nat_of_ascii c in ((65 <=? n) && (n <=? 90))%nat.
(** [~ '^[A-Z]{2}$'], or NULL *)
Definition country_ok (c : option string) : bool :=
  match c with
  | None => true
  | Some (String a (String b EmptyString)) => is_upper a && is_upper b
  | Some _ => false
  end.

Definition kyc_check (r : Kyc.t) (l : list Kyc.t) : result unit :=
  if taken didit_ref r l then violation "kyc_eligibility_didit_reference_key"
  else if taken start_ref r l then violation "kyc_eligibility_session_start_id_key"
  else if taken poa_ref r l then violation "kyc_eligibility_poa_didit_reference_key"
  else if taken poa_start_ref r l then violation "kyc_eligibility_poa_session_start_id_key"
  else if negb (country_ok (Kyc.residenceCountryCode r)) then violation "kyc_residence_country_code_check"
  else if negb (country_ok (Kyc.taxResidenceCountryCode r)) then violation "kyc_tax_residence_country_code_check"
  else if bool_decide (Kyc.poaStatus (Kyc.poa r) = ProofOfAddress.current) &&
          bool_decide (Kyc.poaCurrentUntil (Kyc.poa r) = None)
       then violation "kyc_proof_of_address_current_until_check"
  else Ok tt.

(** [kycEligibility.updateMany], whose WHERE names the account: no row or one. *)
Definition updateMany (p : Kyc.t → bool) (f : Kyc.t → Kyc.t) : txn identity nat := λ s,
  match find_row p (rows s) with
  | None => Ok (0%nat, s)
  | Some r => let! _ := kyc_check (f r) (rows s) in Ok (1%nat, set_rows (update_where p f (rows s)) s)
  end.

(** [kycEligibility.update] of a row just read in the same transaction. *)
Definition update_row (accountId : string) (f : Kyc.t → Kyc.t) : txn identity unit :=
  do! _ := updateMany (of_account accountId) f in tret tt.

Definition insert_row (r : Kyc.t) : txn identity unit := tprim (λ s,
  let! _ := kyc_check r (rows s) in Ok (set_rows (rows s ++ [r]) s)).

Definition key_is (k : string) (r : Receipt.t) : bool := bool_decide (Receipt.eventKey r = k).

(** ** The repository *)

Section WithUlid.
Context (ulid : nat → string).

Definition fresh_id (prefix : string) : txn identity string := λ s,
  let '(k, b) := fresh ulid prefix (kbase s) in Ok (k, set_kbase b s).

Definition history_create (accountId : string) (previous new : KycEligibilityState) (reason : string) (at_ : Z)
    : txn identity unit :=
  do! k := fresh_id "kych_" in
  twrite (λ s, set_history (history s ++ [KycHistory.mk k accountId previous new reason at_]) s).

(** [auditLog.create] with an event key, refused when the key is taken. *)
Definition audit_keyed (key : string) (actor : option string) (action resourceType resourceId : string)
    (changes : list (string * json)) (at_ : Z) : txn identity unit :=
  do! k := fresh_id "audit_" in
  tprim (λ s,
    if exists_row (key_is key) (receipts s) then violation "audit_log_event_key_key"
    else Ok (set_receipts (receipts s ++ [Receipt.mk key (AuditLog.mk k actor action resourceType resourceId changes at_)]) s)).

(** [auditLog.createMany] of one row with [skipDuplicates]: how many were written. *)
Definition claim (key action resourceId : string) (changes : list (string * json)) (at_ : Z) : txn identity nat :=
  do! k := fresh_id "audit_" in λ s,
    if exists_row (key_is key) (receipts s) then Ok (0%nat, s)
    else Ok (1%nat, set_receipts
      (receipts s ++ [Receipt.mk key (AuditLog.mk k None action "kyc_session" resourceId changes at_)]) s).

Definition audit_plain (actor : option string) (action resourceType resourceId : string)
    (changes : list (string * json)) (at_ : Z) : txn identity unit :=
  do! k := fresh_id "audit_" in
  twrite (λ s, set_kbase (audit_create (AuditLog.mk k actor action resourceType resourceId changes at_) (kbase s)) s).

Definition updateReceipt (key : string) (changes : list (string * json)) : txn identity unit :=
  twrite (λ s, set_receipts (update_where (key_is key) (Receipt.set_changes changes) (receipts s)) s).

(** *** Reads *)

Definition getForAccount (accountId : string) (s : identity) : option Kyc.t := find_row (of_account accountId) (rows s).
Definition findByDiditReference (ref : string) (s : identity) : option Kyc.t := find_row (column_is didit_ref ref) (rows s).
Definition findByProofOfAddressDiditReference (ref : string) (s : identity) : option Kyc.t :=
  find_row (column_is poa_ref ref) (rows s).
Definition hasProcessedProviderEvent (key : string) (s : identity) : bool := exists_row (key_is key) (receipts s).

Record KycEligibilitySnapshot := mkSnapshot {
  sn_accountId : string; sn_diditReference : option string; sn_providerStatus : option DiditStatus;
  sn_eligibilityState : KycEligibilityState; sn_residenceCountryCode : option string;
  sn_taxResidenceCountryCode : option string; sn_proofOfAddressStatus : ProofOfAddress.status;
  sn_proofOfAddressCurrentUntil : option Z; sn_lastVerifiedAt : option Z; sn_renewalDueAt : option Z }.

Definition snapshot (r : Kyc.t) : KycEligibilitySnapshot :=
  mkSnapshot (Kyc.accountId r) (didit_ref r) (Kyc.providerStatus (Kyc.base r)) (Kyc.state r)
    (Kyc.residenceCountryCode r) (Kyc.taxResidenceCountryCode r) (Kyc.poaStatus (Kyc.poa r))
    (Kyc.poaCurrentUntil (Kyc.poa r)) (Kyc.lastVerifiedAt (Kyc.base r)) (Kyc.renewalDueAt (Kyc.base r)).

Definition getEligibilitySnapshot (accountId : string) (s : identity) : option KycEligibilitySnapshot :=
  snapshot <$> getForAccount accountId s.

(** renewalLeadDaysSettingSchema *)
Definition parse_lead_days (j : json) : result Z :=
  match j with
  | JObj l =>
      match find_row (λ kv, bool_decide (kv.1 = "days")) l with
      | Some (_, JNum n) => if (1 <=? n) && (n <=? 365) then Ok n else Err (Thrown "ZodError")
      | _ => Err (Thrown "ZodError")
      end
  | _ => Err (Thrown "ZodError")
  end.

Definition getRenewalReminderLeadDays (s : identity) : result Z :=
  match find_row (λ kv, bool_decide (kv.1 = "identity.kyc_renewal_reminder_lead_days")) (settings s) with
  | None => Err (Thrown "Missing identity.kyc_renewal_reminder_lead_days setting")
  | Some kv => parse_lead_days kv.2
  end.

Record RenewalAccount := mkRenewalAccount { ra_accountId : string; ra_contactEmail : option string; ra_renewalDueAt : Z }.

Definition renewal_account (s : identity) (r : Kyc.t) : option RenewalAccount :=
  match Kyc.state r, Kyc.renewalDueAt (Kyc.base r) with
  | eligible, Some due =>
      Some (mkRenewalAccount (Kyc.accountId r) (find_account (Kyc.accountId r) (kbase s) ≫= Account.contactEmail) due)
  | _, _ => None
  end.

Definition listEligibleAccountsForRenewalTimer (s : identity) : list RenewalAccount :=
  omap (renewal_account s) (rows s).

Inductive SessionPurpose := baseline_session | proof_of_address_session.
#[global] Instance SessionPurpose_eq_dec : EqDecision SessionPurpose.
Proof. solve_decision. Defined.

Record StuckCreation := mkStuckCreation {
  sc_accountId : string; sc_kind : SessionPurpose; sc_sessionStartId : option string; sc_updatedAt : Z }.

Definition listStuckSessionCreationsForTimer (s : identity) : list StuckCreation :=
  map (λ r, mkStuckCreation (Kyc.accountId r) baseline_session (start_ref r) (Kyc.updatedAt r))
    (List.filter (λ r, bool_decide (Kyc.substatus r = kyc_session_creating)) (rows s)) ++
  map (λ r, mkStuckCreation (Kyc.accountId r) proof_of_address_session (poa_start_ref r) (Kyc.updatedAt r))
    (List.filter (λ r, bool_decide (Kyc.poaStatus (Kyc.poa r) = ProofOfAddress.creating)) (rows s)).

Record StuckOpen := mkStuckOpen {
  so_accountId : string; so_kind : SessionPurpose; so_diditReference : option string;
  so_residenceCountryCode : option string; so_taxResidenceCountryCode : option string;
  so_everRequiredManualReview : bool; so_updatedAt : Z }.

Definition listStuckOpenSessionsForTimer (s : identity) : list StuckOpen :=
  map (λ r, mkStuckOpen (Kyc.accountId r) baseline_session (didit_ref r) (Kyc.residenceCountryCode r)
              (Kyc.taxResidenceCountryCode r) (Kyc.everRequiredManualReview (Kyc.base r)) (Kyc.updatedAt r))
    (List.filter (λ r, bool_decide (Kyc.substatus r = kyc_session_open)) (rows s)) ++
  map (λ r, mkStuckOpen (Kyc.accountId r) proof_of_address_session (poa_ref r) (Kyc.residenceCountryCode r)
              None (Kyc.everRequiredManualReview (Kyc.base r)) (Kyc.updatedAt r))
    (List.filter (λ r, bool_decide (Kyc.poaStatus (Kyc.poa r) = ProofOfAddress.in_progress)) (rows s)).

(** *** Session starts *)

Definition canStartSession (st : KycOperationalSubstatus) : bool :=
  bool_decide (st ∈ [kyc_not_started; kyc_session_creation_failed; kyc_restart_required; kyc_reverification_required]).

Definition canStartProofOfAddress (st : ProofOfAddress.status) (currentUntil : option Z) (startedAt : Z) : bool :=
  if bool_decide (st = ProofOfAddress.current) &&
     match currentUntil with Some u => startedAt <? u | None => false end then false
  else bool_decide (st ∈ [ProofOfAddress.not_started; ProofOfAddress.creation_failed; ProofOfAddress.insufficient;
                          ProofOfAddress.expired; ProofOfAddress.restart_required; ProofOfAddress.integration_anomaly;
                          ProofOfAddress.current]).

Definition new_row (accountId sessionStartId residence tax : string) (at_ : Z) : Kyc.t :=
  Kyc.mk accountId (Kyc.mkBaseline None not_started None kyc_session_creating None (Some sessionStartId) None None false)
    Kyc.no_address (Some residence) (Some tax) at_.

Definition restart_row (sessionStartId residence tax : string) (at_ : Z) (r : Kyc.t) : Kyc.t :=
  let b := Kyc.base r in
  Kyc.mk (Kyc.accountId r)
    (Kyc.mkBaseline (Kyc.diditReference b) (Kyc.eligibilityState b) (Kyc.providerStatus b) kyc_session_creating
       (Kyc.providerUpdatedAt b) (Some sessionStartId) (Kyc.lastVerifiedAt b) (Kyc.renewalDueAt b)
       (Kyc.everRequiredManualReview b))
    (Kyc.poa r) (Some residence) (Some tax) at_.

Definition reserveSessionStart (accountId sessionStartId residence tax : string) (startedAt : Z) : txn identity bool :=
  do! locked := tread (λ s, find_account accountId (kbase s)) in
  match locked with
  | None => tret false
  | Some _ =>
      do! current := tread (getForAccount accountId) in
      match current with
      | None => do! _ := insert_row (new_row accountId sessionStartId residence tax startedAt) in tret true
      | Some r =>
          if negb (canStartSession (Kyc.substatus r)) then tret false
          else do! _ := update_row accountId (restart_row sessionStartId residence tax startedAt) in tret true
      end
  end.

(** The WHERE of the two updates below; Prisma reads a null id as IS NULL. *)
Definition creating_row (accountId : string) (sessionStartId : option string) (r : Kyc.t) : bool :=
  of_account accountId r && bool_decide (start_ref r = sessionStartId) &&
  bool_decide (Kyc.substatus r = kyc_session_creating).

Definition open_row (diditReference : string) (providerStatus : DiditStatus) (at_ : Z) (r : Kyc.t) : Kyc.t :=
  let b := Kyc.base r in
  Kyc.set_base (Kyc.mkBaseline (Some diditReference) not_started (Some providerStatus) kyc_session_open (Some at_)
    (Kyc.sessionStartId b) (Kyc.lastVerifiedAt b) (Kyc.renewalDueAt b) (Kyc.everRequiredManualReview b)) at_ r.

Definition completeSessionStart (accountId sessionStartId diditReference : string) (providerStatus : DiditStatus)
    (traceId : string) (completedAt : Z) : txn identity bool :=
  do! count := updateMany (creating_row accountId (Some sessionStartId)) (open_row diditReference providerStatus completedAt) in
  if negb (Nat.eqb count 1) then tret false
  else
    do! _ := history_create accountId not_started not_started "KYC_SESSION_STARTED" completedAt in
    do! _ := audit_keyed (String.append "didit:session_started:" diditReference) (Some accountId)
      "identity.kyc_session_started" "kyc_session" diditReference
      [("trace_id", JStr traceId); ("provider", JStr "didit"); ("provider_status", JStr (status_text providerStatus));
       ("eligibility_state", JStr "not_started")] completedAt in
    tret true.

Definition failSessionStart (accountId : string) (sessionStartId : option string) (traceId : string) (failedAt : Z) : txn identity unit :=
  do! count := updateMany (creating_row accountId sessionStartId)
    (λ r, Kyc.set_base (Kyc.set_substatus kyc_session_creation_failed (Kyc.base r)) failedAt r) in
  if negb (Nat.eqb count 1) then tret tt
  else
    audit_keyed (String.append "didit:session_start_failed:" (template sessionStartId)) (Some accountId)
      "identity.kyc_session_start_failed" "account" accountId
      [("trace_id", JStr traceId); ("provider", JStr "didit")] failedAt.

(** *** Proof-of-address session starts *)

Definition poa_start_row (sessionStartId : string) (at_ : Z) (r : Kyc.t) : Kyc.t :=
  let p := Kyc.poa r in
  Kyc.set_poa (Kyc.mkAddress (Kyc.poaDiditReference p) (Kyc.poaProviderStatus p) (Kyc.poaProviderUpdatedAt p)
    (Some sessionStartId) ProofOfAddress.creating (Kyc.poaCurrentUntil p)) at_ r.

Definition reserveProofOfAddressSessionStart (accountId sessionStartId : string) (startedAt : Z) : txn identity bool :=
  do! locked := tread (λ s, find_account accountId (kbase s)) in
  match locked with
  | None => tret false
  | Some _ =>
      do! current := tread (getForAccount accountId) in
      match current with
      | None => tret false
      | Some r =>
          if negb (bool_decide (Kyc.state r = eligible)) ||
             negb (canStartProofOfAddress (Kyc.poaStatus (Kyc.poa r)) (Kyc.poaCurrentUntil (Kyc.poa r)) startedAt)
          then tret false
          else do! _ := update_row accountId (poa_start_row sessionStartId startedAt) in tret true
      end
  end.

Definition poa_creating_row (accountId : string) (sessionStartId : option string) (r : Kyc.t) : bool :=
  of_account accountId r && bool_decide (poa_start_ref r = sessionStartId) &&
  bool_decide (Kyc.poaStatus (Kyc.poa r) = ProofOfAddress.creating).

Definition poa_open_row (diditReference : string) (providerStatus : DiditStatus) (at_ : Z) (r : Kyc.t) : Kyc.t :=
  let p := Kyc.poa r in
  Kyc.set_poa (Kyc.mkAddress (Some diditReference) (Some providerStatus) (Some at_) (Kyc.poaSessionStartId p)
    ProofOfAddress.in_progress (Kyc.poaCurrentUntil p)) at_ r.

Definition completeProofOfAddressSessionStart (accountId sessionStartId diditReference : string)
    (providerStatus : DiditStatus) (traceId : string) (completedAt : Z) : txn identity bool :=
  do! count := updateMany (poa_creating_row accountId (Some sessionStartId)) (poa_open_row diditReference providerStatus completedAt) in
  if negb (Nat.eqb count 1) then tret false
  else
    do! _ := history_create accountId eligible eligible "OWNER_PROOF_OF_ADDRESS_SESSION_STARTED" completedAt in
    do! _ := audit_keyed (String.append "didit:poa_session_started:" diditReference) (Some accountId)
      "identity.proof_of_address_session_started" "kyc_session" diditReference
      [("trace_id", JStr traceId); ("provider", JStr "didit"); ("provider_status", JStr (status_text providerStatus));
       ("proof_of_address_status", JStr "in_progress")] completedAt in
    tret true.

Definition failProofOfAddressSessionStart (accountId : string) (sessionStartId : option string) (traceId : string)
    (failedAt : Z) : txn identity unit :=
  do! count := updateMany (poa_creating_row accountId sessionStartId)
    (λ r, Kyc.set_poa (Kyc.set_poaStatus ProofOfAddress.creation_failed (Kyc.poa r)) failedAt r) in
  if negb (Nat.eqb count 1) then tret tt
  else
    audit_keyed (String.append "didit:poa_session_start_failed:" (template sessionStartId)) (Some accountId)
      "identity.proof_of_address_session_start_failed" "account" accountId
      [("trace_id", JStr traceId); ("provider", JStr "didit")] failedAt.

(** *** Provider outcomes *)

Inductive Applied := applied | duplicate | stale | unmatched.
#[global] Instance Applied_eq_dec : EqDecision Applied.
Proof. solve_decision. Defined.

Record ProviderEvent := mkEvent {
  pe_eventKey : string; pe_eventId : string; pe_diditReference : string; pe_providerStatus : option DiditStatus;
  pe_webhookType : string; pe_traceId : string; pe_providerUpdatedAt : Z }.

(** [a !== null && a > at] *)
Definition later_than (at_ : Z) (a : option Z) : bool := match a with Some a => at_ <? a | None => false end.

Definition receipt_changes (e : ProviderEvent) : list (string * json) :=
  [("provider_status", json_status (pe_providerStatus e)); ("webhook_type", JStr (pe_webhookType e))].

Definition claim_event (e : ProviderEvent) : txn identity nat :=
  claim (pe_eventKey e) "identity.didit_webhook_received" (pe_diditReference e) [("trace_id", JStr (pe_traceId e))]
    (pe_providerUpdatedAt e).

Definition poa_is_current (at_ : Z) (r : Kyc.t) : bool :=
  bool_decide (Kyc.poaStatus (Kyc.poa r) = ProofOfAddress.current) && later_than at_ (Kyc.poaCurrentUntil (Kyc.poa r)).

Definition applied_substatus (o : KycPolicyOutcome) (at_ : Z) (r : Kyc.t) : KycOperationalSubstatus :=
  if bool_decide (KycPolicy.eligibilityState (po_outcome o) = eligible) && poa_is_current at_ r then kyc_verified
  else KycPolicy.operationalSubstatus (po_outcome o).

(** [a ?? b] of a column that is only written when the outcome carries a value *)
Definition or_keep (a b : option Z) : option Z := match a with Some _ => a | None => b end.

Definition applied_row (e : ProviderEvent) (o : KycPolicyOutcome) (r : Kyc.t) : Kyc.t :=
  let at_ := pe_providerUpdatedAt e in
  let b := Kyc.base r in
  Kyc.set_base
    (Kyc.mkBaseline (Kyc.diditReference b) (KycPolicy.eligibilityState (po_outcome o)) (pe_providerStatus e)
       (applied_substatus o at_ r) (Some at_) (Kyc.sessionStartId b)
       (or_keep (KycPolicy.lastVerifiedAt (po_outcome o)) (Kyc.lastVerifiedAt b))
       (or_keep (KycPolicy.renewalDueAt (po_outcome o)) (Kyc.renewalDueAt b)) (po_everRequiredManualReview o))
    (if Kyc.updatedAt r <? at_ then at_ else Kyc.updatedAt r) r.

Definition applyProviderOutcome (e : ProviderEvent) (o : KycPolicyOutcome) : txn identity Applied :=
  do! claimed := claim_event e in
  if Nat.eqb claimed 0 then tret duplicate
  else
    do! locked := tread (findByDiditReference (pe_diditReference e)) in
    match locked with
    | None =>
        do! _ := updateReceipt (pe_eventKey e)
          ([("matched", JBool false); ("reason", JStr "session_not_found")] ++ receipt_changes e) in
        tret unmatched
    | Some current =>
        if later_than (pe_providerUpdatedAt e) (Kyc.providerUpdatedAt (Kyc.base current)) then
          do! _ := updateReceipt (pe_eventKey e) ([("matched", JBool true); ("stale", JBool true)] ++ receipt_changes e) in
          tret stale
        else
          do! _ := update_row (Kyc.accountId current) (applied_row e o) in
          do! _ := history_create (Kyc.accountId current) (Kyc.state current) (KycPolicy.eligibilityState (po_outcome o))
            (reasonCode (po_outcome o)) (pe_providerUpdatedAt e) in
          do! _ := updateReceipt (pe_eventKey e)
            ([("matched", JBool true); ("provider_event_id", JStr (pe_eventId e))] ++ receipt_changes e ++
             [("previous_state", JStr (state_text (Kyc.state current)));
              ("new_state", JStr (state_text (KycPolicy.eligibilityState (po_outcome o))));
              ("operational_substatus", JStr (substatus_text (applied_substatus o (pe_providerUpdatedAt e) current)));
              ("reason_code", JStr (reasonCode (po_outcome o)))]) in
          tret applied
    end.

Definition poa_purpose : string * json := ("verification_purpose", JStr "owner_proof_of_address").

Definition poa_substatus (o : ProofOfAddressOutcome) (r : Kyc.t) : KycOperationalSubstatus :=
  if negb (bool_decide (Kyc.state r = eligible)) then Kyc.substatus r
  else if bool_decide (poa_status o = ProofOfAddress.current) then kyc_verified else kyc_verified_owner_poa_missing.

Definition poa_applied_row (e : ProviderEvent) (o : ProofOfAddressOutcome) (r : Kyc.t) : Kyc.t :=
  let at_ := pe_providerUpdatedAt e in
  let p := Kyc.poa r in
  Kyc.mk (Kyc.accountId r) (Kyc.set_substatus (poa_substatus o r) (Kyc.base r))
    (Kyc.mkAddress (Kyc.poaDiditReference p) (pe_providerStatus e) (Some at_) (Kyc.poaSessionStartId p) (poa_status o)
       (poa_currentUntil o))
    (Kyc.residenceCountryCode r) (Kyc.taxResidenceCountryCode r)
    (if Kyc.updatedAt r <? at_ then at_ else Kyc.updatedAt r).

Definition applyProofOfAddressOutcome (e : ProviderEvent) (o : ProofOfAddressOutcome) : txn identity Applied :=
  do! claimed := claim_event e in
  if Nat.eqb claimed 0 then tret duplicate
  else
    do! locked := tread (findByProofOfAddressDiditReference (pe_diditReference e)) in
    match locked with
    | None =>
        do! _ := updateReceipt (pe_eventKey e)
          ([("matched", JBool false); ("reason", JStr "session_not_found")] ++ receipt_changes e ++ [poa_purpose]) in
        tret unmatched
    | Some current =>
        if later_than (pe_providerUpdatedAt e) (Kyc.poaProviderUpdatedAt (Kyc.poa current)) then
          do! _ := updateReceipt (pe_eventKey e)
            ([("matched", JBool true); ("stale", JBool true)] ++ receipt_changes e ++ [poa_purpose]) in
          tret stale
        else
          do! _ := update_row (Kyc.accountId current) (poa_applied_row e o) in
          do! _ := history_create (Kyc.accountId current) (Kyc.state current) (Kyc.state current) (poa_reasonCode o)
            (pe_providerUpdatedAt e) in
          do! _ := updateReceipt (pe_eventKey e)
            ([("matched", JBool true); ("provider_event_id", JStr (pe_eventId e))] ++ receipt_changes e ++
             [poa_purpose; ("proof_of_address_status", JStr (poa_text (poa_status o)));
              ("operational_substatus", JStr (substatus_text (poa_substatus o current)));
              ("reason_code", JStr (poa_reasonCode o))]) in
          tret applied
    end.

Definition recordUnmatchedProviderEvent (key eventId diditReference providerStatus webhookType traceId reason : string)
    (receivedAt : Z) : txn identity unit :=
  do! _ := claim key "identity.didit_webhook_unmatched" diditReference
    [("trace_id", JStr traceId); ("provider_event_id", JStr eventId); ("provider_status", JStr providerStatus);
     ("webhook_type", JStr webhookType); ("reason", JStr reason)] receivedAt in
  tret tt.

(** *** Renewal *)

Definition eligible_row (accountId : string) (r : Kyc.t) : bool :=
  of_account accountId r && bool_decide (Kyc.state r = eligible).

Definition renewal_row (at_ : Z) (r : Kyc.t) : Kyc.t :=
  let b := Kyc.base r in
  Kyc.set_base (Kyc.mkBaseline (Kyc.diditReference b) requires_renewal (Kyc.providerStatus b) kyc_reverification_required
    (Kyc.providerUpdatedAt b) (Kyc.sessionStartId b) (Kyc.lastVerifiedAt b) (Kyc.renewalDueAt b)
    (Kyc.everRequiredManualReview b)) at_ r.

Definition transitionToRequiresRenewal (accountId traceId : string) (at_ : Z) : txn identity bool :=
  do! count := updateMany (eligible_row accountId) (renewal_row at_) in
  if negb (Nat.eqb count 1) then tret false
  else
    do! _ := history_create accountId eligible requires_renewal "KYC_RENEWAL_DUE" at_ in
    do! _ := audit_plain None "identity.kyc_renewal_due" "kyc_eligibility" accountId
      [("trace_id", JStr traceId); ("previous_state", JStr "eligible"); ("new_state", JStr "requires_renewal");
       ("new_operational_substatus", JStr "kyc_reverification_required")] at_ in
    tret true.

(** *** The webhook queue *)

Record WebhookBody := mkWebhook {
  wh_eventId : string; wh_webhookType : string; wh_applicationId : string; wh_environment : string;
  wh_sessionId : string; wh_sessionKind : option string; wh_workflowId : option string; wh_vendorData : option string;
  wh_status : string; wh_createdAt : Z; wh_traceId : string }.

Definition json_of (v : option string) : json := match v with Some v => JStr v | None => JNull end.

Definition webhook_payload (w : WebhookBody) : list (string * json) :=
  [("eventId", JStr (wh_eventId w)); ("webhookType", JStr (wh_webhookType w)); ("applicationId", JStr (wh_applicationId w));
   ("environment", JStr (wh_environment w)); ("sessionId", JStr (wh_sessionId w)); ("sessionKind", json_of (wh_sessionKind w));
   ("workflowId", json_of (wh_workflowId w)); ("vendorData", json_of (wh_vendorData w)); ("status", JStr (wh_status w));
   ("createdAt", JNum (wh_createdAt w)); ("traceId", JStr (wh_traceId w))].

(** [pgBoss.send]: one more durable job. *)
Definition enqueueDiditWebhookProcessing (w : WebhookBody) : txn identity unit :=
  twrite (λ s, set_kbase (set_jobs (jobs (kbase s) ++ [Job.mk "provider_events.didit_webhook" (webhook_payload w)])
    (kbase s)) s).

End WithUlid.
End KycRepo.
