(* ===== verification/KycServices.v ===== *)
(** The identity module's services: src/src/modules/identity/application/kyc.service.ts,
    kyc-renewal.service.ts, kyc-stuck-session.service.ts and kyc-display-profile.service.ts.

    What Didit answers is an argument of each service ([createSession] of the one call, [getDecision] by
    session), as are the clock readings, the identifiers made by randomUUID() and which calls of the e-mail
    sender and of the profile cache fail. *)

From Stdlib Require Import String.
From stdpp Require Import gmap.
From S2P Require Import Prelude JsString DateTime IntakePolicy Db KycPolicy KycRepo OfferingServices.

Module KycServices.
Import KycPolicy KycRepo.
Notation JobRunSummary := OfferingServices.JobRunSummary.
Notation mkSummary := OfferingServices.mkSummary.

Definition read {A} (f : identity → A) : io identity A := query (λ s, Ok (f s)).

(** What [createSession] answers. *)
Record DiditSession := mkSession {
  ds_sessionId : string; ds_verificationUrl : string; ds_status : DiditStatus; ds_workflowId : string;
  ds_vendorData : string }.

(** [invalidateDisplayProfile(accountId).catch(() => undefined)] *)
Definition invalidate (delete_fails : bool) (accountId : string) : io identity unit := λ s,
  (Ok tt, if delete_fails then s else set_profiles (delete accountId (profiles s)) s).

Definition sessionUnavailableError : error := AppError "identity.kyc_session_unavailable" 409 [].
Definition proofOfAddressSessionUnavailableError : error := AppError "identity.proof_of_address_session_unavailable" 409 [].
Definition invalidProviderResponseError : error := AppError "identity.kyc_provider_response_invalid" 502 [].
Definition kycAccountNotFoundError : error := AppError "identity.kyc_account_not_found" 404 [].
Definition session_persistence_failed : error := AppError "identity.kyc_session_persistence_failed" 500 [].
Definition poa_persistence_failed : error := AppError "identity.proof_of_address_session_persistence_failed" 500 [].

(** The checks both services make on a created session. *)
Definition session_matches (accountId workflowId : string) (session : DiditSession) : bool :=
  bool_decide (ds_vendorData session = accountId) && bool_decide (ds_workflowId session = workflowId) &&
  bool_decide (ds_status session = NotStarted).

Section WithUlid.
Context (ulid : nat → string).

(** ** StartKycSessionService *)

Record StartedSession := mkStarted { ss_verificationSessionId : string; ss_verificationUrl : string }.

Definition StartKycSession_execute (accountId traceId residence tax workflowId sessionStartId : string)
    (createSession : result DiditSession) (delete_fails : bool) (startedAt failedAt completedAt : Z)
    : io identity StartedSession :=
  await reserved := transaction (reserveSessionStart accountId sessionStartId residence tax startedAt) in
  if negb reserved then throw sessionUnavailableError
  else
    let fail := transaction (failSessionStart ulid accountId (Some sessionStartId) traceId failedAt) in
    await session := iocatch (lift createSession) (λ error, await _ := fail in throw error) in
    if negb (session_matches accountId workflowId session) then
      await _ := fail in throw invalidProviderResponseError
    else
      await completed := transaction (completeSessionStart ulid accountId sessionStartId (ds_sessionId session)
        (ds_status session) traceId completedAt) in
      if negb completed then await _ := fail in throw session_persistence_failed
      else
        await _ := invalidate delete_fails accountId in
        ret (mkStarted (ds_sessionId session) (ds_verificationUrl session)).

(** ** StartProofOfAddressSessionService *)

Definition StartProofOfAddressSession_execute (accountId traceId workflowId sessionStartId : string)
    (createSession : result DiditSession) (startedAt failedAt completedAt : Z) : io identity StartedSession :=
  await reserved := transaction (reserveProofOfAddressSessionStart accountId sessionStartId startedAt) in
  if negb reserved then throw proofOfAddressSessionUnavailableError
  else
    let fail := transaction (failProofOfAddressSessionStart ulid accountId (Some sessionStartId) traceId failedAt) in
    await session := iocatch (lift createSession) (λ error, await _ := fail in throw error) in
    if negb (session_matches accountId workflowId session) then
      await _ := fail in throw invalidProviderResponseError
    else
      await completed := transaction (completeProofOfAddressSessionStart ulid accountId sessionStartId
        (ds_sessionId session) (ds_status session) traceId completedAt) in
      if negb completed then throw poa_persistence_failed
      else ret (mkStarted (ds_sessionId session) (ds_verificationUrl session)).

(** ** ProcessDiditWebhookService *)

Definition diditStatuses : list DiditStatus :=
  [NotStarted; InProgress; InReview; Approved; Declined; Resubmitted; Expired; Abandoned; KycExpired; AwaitingUser].

Definition asDiditStatus (value : string) : option DiditStatus :=
  find_row (λ st, bool_decide (status_text st = value)) diditStatuses.

Definition shouldFetchDecision (st : option DiditStatus) : bool :=
  bool_decide (st ∈ [Some Approved; Some Declined; Some InReview; Some Abandoned]).

Record WebhookConfiguration := mkWebhookConfiguration {
  wc_workflowId : string; wc_applicationId : string; wc_environment : string;
  wc_proofOfAddressWorkflowId : option string }.

Definition webhook_purpose (c : WebhookConfiguration) (workflowId : option string) : option SessionPurpose :=
  if bool_decide (workflowId = Some (wc_workflowId c)) then Some baseline_session
  else match wc_proofOfAddressWorkflowId c with
       | Some w => if bool_decide (workflowId = Some w) then Some proof_of_address_session else None
       | None => None
       end.

Inductive WebhookAnswer := answer_received | answer_duplicate | answer_stale | answer_ignored.

Definition answer (r : Applied) : WebhookAnswer :=
  match r with
  | applied => answer_received | duplicate => answer_duplicate | stale => answer_stale | unmatched => answer_ignored
  end.

(** The decision answers for another session, account, workflow or status. *)
Definition decision_mismatch (sessionId accountId : string) (workflowId : option string) (st : option DiditStatus)
    (d : DiditDecisionSummary) : bool :=
  negb (bool_decide (d_sessionId d = sessionId)) || bool_decide (d_sessionKind d = Some business_session) ||
  negb (bool_decide (d_vendorData d = Some accountId)) ||
  (match d_workflowId d with Some w => negb (bool_decide (Some w = workflowId)) | None => false end) ||
  negb (bool_decide (d_status d = st)).

Definition webhook_event (w : WebhookBody) (st : option DiditStatus) : ProviderEvent :=
  mkEvent (String.append "didit:webhook:" (wh_eventId w)) (wh_eventId w) (wh_sessionId w) st (wh_webhookType w)
    (wh_traceId w) (wh_createdAt w * 1000).

Definition unmatched_event (w : WebhookBody) (reason : string) : txn identity unit :=
  recordUnmatchedProviderEvent ulid (String.append "didit:webhook:" (wh_eventId w)) (wh_eventId w) (wh_sessionId w)
    (wh_status w) (wh_webhookType w) (wh_traceId w) reason (wh_createdAt w * 1000).

Definition foreign_webhook (c : WebhookConfiguration) (w : WebhookBody) : bool :=
  negb (bool_decide (wh_applicationId w = wc_applicationId c)) || negb (bool_decide (wh_environment w = wc_environment c)) ||
  bool_decide (webhook_purpose c (wh_workflowId w) = None) || bool_decide (wh_sessionKind w = Some "business") ||
  negb (bool_decide (wh_webhookType w ∈ ["status.updated"; "data.updated"])).

Definition webhook_target (purpose : SessionPurpose) (sessionId : string) (s : identity) : option Kyc.t :=
  match purpose with
  | baseline_session => findByDiditReference sessionId s
  | proof_of_address_session => findByProofOfAddressDiditReference sessionId s
  end.

(** The outcome is computed from the row read before the decision was fetched. *)
Definition policy_input (st : option DiditStatus) (decision : option DiditDecisionSummary) (target : Kyc.t) (at_ : Z)
    : PolicyInput :=
  mkInput st decision (Kyc.residenceCountryCode target) (Kyc.taxResidenceCountryCode target) at_
    (Kyc.everRequiredManualReview (Kyc.base target)).

Definition apply_webhook (purpose : SessionPurpose) (w : WebhookBody) (target : Kyc.t) (st : option DiditStatus)
    (decision : option DiditDecisionSummary) : txn identity Applied :=
  let at_ := wh_createdAt w * 1000 in
  match purpose with
  | baseline_session =>
      applyProviderOutcome ulid (webhook_event w st) (evaluateDiditOutcome (policy_input st decision target at_))
  | proof_of_address_session =>
      applyProofOfAddressOutcome ulid (webhook_event w st)
        (evaluateProofOfAddressOutcome st decision (Kyc.residenceCountryCode target) at_)
  end.

Definition ProcessDiditWebhook_execute (c : WebhookConfiguration) (getDecision : string → result DiditDecisionSummary)
    (delete_fails : bool) (w : WebhookBody) : io identity WebhookAnswer :=
  let ignore reason := await _ := transaction (unmatched_event w reason) in ret answer_ignored in
  await seen := read (hasProcessedProviderEvent (String.append "didit:webhook:" (wh_eventId w))) in
  if seen : bool then ret answer_duplicate
  else if foreign_webhook c w then ignore "configuration_mismatch"
  else
    match webhook_purpose c (wh_workflowId w) with
    | None => ignore "configuration_mismatch"
    | Some purpose =>
        await target := read (webhook_target purpose (wh_sessionId w)) in
        match target with
        | None => ignore "session_not_found"
        | Some target =>
            if negb (bool_decide (wh_vendorData w = Some (Kyc.accountId target))) then ignore "correlation_mismatch"
            else
              await _ := (match purpose with
                          | baseline_session => invalidate delete_fails (Kyc.accountId target)
                          | proof_of_address_session => ret tt
                          end) in
              let st := asDiditStatus (wh_status w) in
              await decision := (if shouldFetchDecision st
                                 then await d := lift (getDecision (wh_sessionId w)) in ret (Some d) else ret None) in
              if match decision with
                 | Some d => decision_mismatch (wh_sessionId w) (Kyc.accountId target) (wh_workflowId w) st d
                 | None => false
                 end
              then ignore "correlation_mismatch"
              else
                await result := transaction (apply_webhook purpose w target st decision) in
                ret (answer result)
        end
    end.

(** ReceiveDiditWebhookService *)
Definition ReceiveDiditWebhook_execute (w : WebhookBody) : io identity unit :=
  transaction (enqueueDiditWebhookProcessing w).

(** ** RunKycRenewalTimerService *)

Section WithMail.
Context (deliver : string → result unit).

Definition sendKycRenewalReminderEmail (to : string) (renewalDueAt : Z) : io identity unit := λ s,
  match deliver to with
  | Ok _ => (Ok tt, set_outbox (outbox s ++ [(to, renewalDueAt)]) s)
  | Err e => (Err e, s)
  end.

Definition renew_one (traceId : string) (now leadDays : Z) (acted : nat) (account : RenewalAccount) : io identity nat :=
  if isRenewalOverdue (ra_renewalDueAt account) now then
    await transitioned := transaction (transitionToRequiresRenewal ulid (ra_accountId account) traceId now) in
    ret (if transitioned : bool then S acted else acted)
  else
    match ra_contactEmail account with
    | None => ret acted
    | Some to =>
        if negb (isRenewalReminderDue (ra_renewalDueAt account) now leadDays) then ret acted
        else await _ := sendKycRenewalReminderEmail to (ra_renewalDueAt account) in ret (S acted)
    end.

Definition RunKycRenewalTimer_execute (traceId : string) (now : Z) : io identity JobRunSummary :=
  await accounts := read listEligibleAccountsForRenewalTimer in
  await leadDays := query getRenewalReminderLeadDays in
  await acted := iofold (renew_one traceId now leadDays) 0%nat accounts in
  ret (mkSummary (length accounts) acted).

End WithMail.

(** ** kyc-stuck-session.service.ts *)

Record StuckSessionJobSummary := mkStuckSummary { st_checked : nat; st_acted : nat; st_overdue : nat }.

Definition KYC_CREATING_STUCK_TIMEOUT_MS : Z := 15 * 60 * 1000.
Definition KYC_OPEN_RECONCILIATION_THRESHOLD_MS : Z := 60 * 60 * 1000.

Definition expire_creation (traceId : string) (now timeoutMs : Z) (acted : nat) (session : StuckCreation)
    : io identity nat :=
  if negb (isSessionStuck (sc_updatedAt session) now timeoutMs) then ret acted
  else
    await _ := (match sc_kind session with
                | baseline_session =>
                    transaction (failSessionStart ulid (sc_accountId session) (sc_sessionStartId session) traceId now)
                | proof_of_address_session =>
                    transaction (failProofOfAddressSessionStart ulid (sc_accountId session) (sc_sessionStartId session)
                      traceId now)
                end) in
    ret (S acted).

Definition ExpireStuckSessionCreations_execute (traceId : string) (now timeoutMs : Z) : io identity StuckSessionJobSummary :=
  await stuck := read listStuckSessionCreationsForTimer in
  await acted := iofold (expire_creation traceId now timeoutMs) 0%nat stuck in
  ret (mkStuckSummary (length stuck) acted
         (length (List.filter (λ x, isSessionStuck (sc_updatedAt x) now timeoutMs) stuck))).

Definition STILL_PENDING_STATUSES : list DiditStatus := [NotStarted; InProgress; AwaitingUser].

(** [randomUUID k] is the [k]th identifier the run makes: two per session, the key's and the event's. *)
Definition reconcile_one (getDecision : string → result DiditDecisionSummary) (randomUUID : nat → string)
    (traceId : string) (now timeoutMs : Z) (acted : nat) (session : StuckOpen) : io identity nat :=
  if negb (isSessionStuck (so_updatedAt session) now timeoutMs) then ret acted
  else
    let ref := template (so_diditReference session) in
    await decision := lift (getDecision ref) in
    match d_status decision with
    | None => ret acted
    | Some st =>
        if bool_decide (st ∈ STILL_PENDING_STATUSES) then ret acted
        else
          let event := mkEvent (String.append "didit:reconciliation:" (randomUUID (2 * acted)%nat))
            (randomUUID (2 * acted + 1)%nat) ref (Some st) "reconciliation_poll" traceId now in
          await _ := (match so_kind session with
                      | baseline_session =>
                          transaction (applyProviderOutcome ulid event (evaluateDiditOutcome
                            (mkInput (Some st) (Some decision) (so_residenceCountryCode session)
                               (so_taxResidenceCountryCode session) now (so_everRequiredManualReview session))))
                      | proof_of_address_session =>
                          transaction (applyProofOfAddressOutcome ulid event
                            (evaluateProofOfAddressOutcome (Some st) (Some decision) (so_residenceCountryCode session) now))
                      end) in
          ret (S acted)
    end.

Definition ReconcileStuckOpenSessions_execute (getDecision : string → result DiditDecisionSummary)
    (randomUUID : nat → string) (traceId : string) (now timeoutMs : Z) : io identity StuckSessionJobSummary :=
  await stuck := read listStuckOpenSessionsForTimer in
  await acted := iofold (reconcile_one getDecision randomUUID traceId now timeoutMs) 0%nat stuck in
  ret (mkStuckSummary (length stuck) acted
         (length (List.filter (λ x, isSessionStuck (so_updatedAt x) now timeoutMs) stuck))).

End WithUlid.

(** ** Reads *)

Definition RESUMABLE_DIDIT_STATUSES : list DiditStatus := [NotStarted; InProgress; Resubmitted].

Definition hasOpenSession (st : KycOperationalSubstatus) : bool :=
  bool_decide (st ∈ [kyc_session_open; kyc_pending; kyc_resubmission_pending]).

Definition resolveProofOfAddressStatus (record : option Kyc.t) (now : Z) : ProofOfAddress.status :=
  match record with
  | None => ProofOfAddress.not_started
  | Some r =>
      let p := Kyc.poa r in
      if bool_decide (Kyc.poaStatus p = ProofOfAddress.current) &&
         match Kyc.poaCurrentUntil p with Some u => u <=? now | None => false end
      then ProofOfAddress.expired else Kyc.poaStatus p
  end.

Record ActiveSession := mkActive { as_sessionId : string; as_url : string; as_expiresAt : option Z }.

Definition resolveActiveSession (getDecision : string → result DiditDecisionSummary) (record : option Kyc.t)
    : option ActiveSession :=
  match record with
  | None => None
  | Some r =>
      match didit_ref r with
      | None => None
      | Some ref =>
          if negb (hasOpenSession (Kyc.substatus r)) then None
          else
            match getDecision ref with
            | Err _ => None
            | Ok decision =>
                match d_verificationUrl decision, d_status decision with
                | Some url, Some st =>
                    if bool_decide (st ∈ RESUMABLE_DIDIT_STATUSES) then Some (mkActive ref url (d_expiresAt decision))
                    else None
                | _, _ => None
                end
            end
      end
  end.

Record KycStatus := mkKycStatus {
  ks_eligibilityState : KycEligibilityState; ks_proofOfAddressStatus : ProofOfAddress.status;
  ks_proofOfAddressCurrentUntil : option Z; ks_lastVerifiedAt : option Z; ks_renewalDueAt : option Z;
  ks_activeSession : option ActiveSession }.

Definition GetKycStatus_execute (getDecision : string → result DiditDecisionSummary) (accountId : string) (now : Z)
    : io identity KycStatus :=
  await record := read (getForAccount accountId) in
  ret (mkKycStatus (match record with Some r => Kyc.state r | None => not_started end)
         (resolveProofOfAddressStatus record now)
         (record ≫= λ r, Kyc.poaCurrentUntil (Kyc.poa r)) (record ≫= λ r, Kyc.lastVerifiedAt (Kyc.base r))
         (record ≫= λ r, Kyc.renewalDueAt (Kyc.base r)) (resolveActiveSession getDecision record)).

(** The answer is the row with its proof-of-address status resolved. *)
Definition GetKycAccountForOperations_execute (accountId : string) (now : Z)
    : io identity (Kyc.t * ProofOfAddress.status) :=
  await record := read (getForAccount accountId) in
  match record with
  | None => throw kycAccountNotFoundError
  | Some r => ret (r, resolveProofOfAddressStatus (Some r) now)
  end.

(** ** GetKycDisplayProfileService *)

(** The cache the process has, and which of its operations fail. *)
Record ProfileCache := mkCache { ca_get_fails : bool; ca_set_fails : bool; ca_delete_fails : bool }.

Definition tryDelete (cache : option ProfileCache) (accountId : string) : io identity unit :=
  match cache with None => ret tt | Some c => invalidate (ca_delete_fails c) accountId end.

(** [None]: the read failed. *)
Definition tryGet (c : ProfileCache) (accountId : string) : io identity (option (option ProtectedDisplayProfile)) :=
  read (λ s, if ca_get_fails c then None else Some (profiles s !! accountId)).

Definition trySet (c : ProfileCache) (accountId : string) (p : ProtectedDisplayProfile) : io identity bool := λ s,
  if ca_set_fails c then (Ok false, s) else (Ok true, set_profiles (<[accountId := p]> (profiles s)) s).

Definition PROFILE_FRESH_MS : Z := 6 * 60 * 60 * 1000.

(** [syncedAt] of the refreshed profile is the second clock reading. *)
Definition GetKycDisplayProfile_execute (getDecision : string → result DiditDecisionSummary) (cache : option ProfileCache)
    (accountId : string) (now syncedAt : Z) : io identity (option ProtectedDisplayProfile) :=
  await snapshot := read (getEligibilitySnapshot accountId) in
  match snapshot ≫= (λ sn, if bool_decide (sn_providerStatus sn = Some Approved) then sn_diditReference sn else None) with
  | None => await _ := tryDelete cache accountId in ret None
  | Some diditReference =>
      match cache with
      | None => ret None
      | Some c =>
          await cacheRead := tryGet c accountId in
          match cacheRead with
          | None => ret None
          | Some cached =>
              if match cached with Some p => now - dp_syncedAt p <? PROFILE_FRESH_MS | None => false end then ret cached
              else
                match getDecision diditReference with
                | Err _ => ret cached
                | Ok decision =>
                    match (if negb (bool_decide (d_sessionId decision = diditReference)) ||
                              bool_decide (d_sessionKind decision = Some business_session) ||
                              negb (bool_decide (d_vendorData decision = Some accountId)) ||
                              negb (bool_decide (d_status decision = Some Approved))
                           then None else d_verifiedDisplayProfile decision) with
                    | None => await _ := tryDelete cache accountId in ret None
                    | Some v =>
                        let refreshed := mkProfile (vp_givenName v) (vp_familyName v) (vp_fullDisplayName v)
                          (vp_idDocumentCountryCode v) syncedAt in
                        await stored := trySet c accountId refreshed in
                        ret (if stored : bool then Some refreshed else cached)
                    end
                end
          end
      end
  end.

End KycServices.
