(* ===== verification/KycMachine.v ===== *)
(** The per-account machine behind the identity repository, and its invariant.

    [change] is the abstract machine of one account's row; [table_step] is one transaction's effect on
    the table: at most one row, moved by at most one [change].  Every repository method refines it
    ([kyc_refines]), so what holds of rows along [change] holds of every interleaving of the services'
    transactions.  [answers ref d] is what Didit has answered for session [ref]. *)

From Stdlib Require Import String.
From stdpp Require Import gmap.
From S2P Require Import Prelude JsString DateTime IntakePolicy Db KycPolicy KycRepo KycServices.

Module KycMachine.
Import DateTime KycPolicy KycRepo KycServices.

(** ** Reading the table *)

Lemma of_account_refl r : of_account (Kyc.accountId r) r = true.
Proof. by apply bool_decide_eq_true_2. Qed.

Lemma kyc_check_ok r l : kyc_check r l = Ok tt →
  taken didit_ref r l = false ∧ taken start_ref r l = false ∧ taken poa_ref r l = false ∧
  taken poa_start_ref r l = false ∧
  (Kyc.poaStatus (Kyc.poa r) = ProofOfAddress.current → Kyc.poaCurrentUntil (Kyc.poa r) ≠ None).
Proof.
  unfold kyc_check, violation. repeat case_match; try done. intros _. split_and!; try done.
  intros Hc Hn. rewrite (bool_decide_eq_true_2 _ Hc), (bool_decide_eq_true_2 _ Hn) in *. done.
Qed.

Lemma taken_false f r l v : taken f r l = false → f r = Some v →
  ∀ q, In q l → Kyc.accountId q ≠ Kyc.accountId r → f q ≠ Some v.
Proof.
  unfold taken. intros H E q Hq Hne Hv. rewrite E in H.
  eapply exists_row_false in H; [|exact Hq]. unfold of_account, column_is in H.
  rewrite bool_decide_eq_false_2, bool_decide_eq_true_2 in H by done. done.
Qed.

Lemma updateMany_ok p f s n s' : updateMany p f s = Ok (n, s') →
  (n = 0%nat ∧ s' = s ∧ find_row p (rows s) = None) ∨
  (n = 1%nat ∧ ∃ r, find_row p (rows s) = Some r ∧ kyc_check (f r) (rows s) = Ok tt ∧
     s' = set_rows (update_where p f (rows s)) s).
Proof.
  unfold updateMany. destruct (find_row p (rows s)) as [r|] eqn:E; [|intros [= <- <-]; by left].
  destruct (kyc_check (f r) (rows s)) as [[]|e] eqn:Ec; simpl; [|done].
  intros [= <- <-]. right. split; [done|]. by exists r.
Qed.

(** ** Helpers that leave the rows alone *)

Definition same_rows : relation identity := λ s s', rows s' = rows s.
#[global] Instance same_rows_preorder : PreOrder same_rows.
Proof. split; [done|]. intros a b c. unfold same_rows. congruence. Qed.

Section frame.
Context (ulid : nat → string).

Lemma fresh_id_rows prefix : tx_rel same_rows (fresh_id ulid prefix).
Proof. intros s a s'. unfold fresh_id. destruct (fresh _ _ _). by intros [= <- <-]. Qed.

Hint Resolve fresh_id_rows : vista.

Lemma history_create_rows a p n r t : tx_rel same_rows (history_create ulid a p n r t).
Proof. unfold history_create. walk_tx. by apply tx_rel_write. Qed.

Lemma audit_keyed_rows k a b c d e t : tx_rel same_rows (audit_keyed ulid k a b c d e t).
Proof.
  unfold audit_keyed. walk_tx. apply tx_rel_prim. intros s s'. case_match; [done|]. by intros [= <-].
Qed.

Lemma claim_rows k a b c t : tx_rel same_rows (claim ulid k a b c t).
Proof.
  unfold claim. walk_tx. intros s n s'. case_match; by intros [= <- <-].
Qed.

Lemma audit_plain_rows a b c d e t : tx_rel same_rows (audit_plain ulid a b c d e t).
Proof. unfold audit_plain. walk_tx. by apply tx_rel_write. Qed.

Lemma updateReceipt_rows k c : tx_rel same_rows (updateReceipt k c).
Proof. by apply tx_rel_write. Qed.

End frame.

#[export] Hint Resolve fresh_id_rows history_create_rows audit_keyed_rows claim_rows audit_plain_rows
  updateReceipt_rows : vista.

(** ** The machine of one account *)

Section Machine.
Context (answers : string → DiditDecisionSummary → Prop).

(** The outcome was computed from a decision Didit gave for that session, or from a status that carries none. *)
Definition fetched (ref : string) (st : option DiditStatus) (decision : option DiditDecisionSummary) : Prop :=
  match decision with
  | Some d => answers ref d ∧ d_status d = st
  | None => shouldFetchDecision st = false
  end.

Inductive change (r : Kyc.t) : Kyc.t → Prop :=
  | c_restart i residence tax at_ :
      canStartSession (Kyc.substatus r) = true → change r (restart_row i residence tax at_ r)
  | c_open ref st at_ : Kyc.substatus r = kyc_session_creating → change r (open_row ref st at_ r)
  | c_fail at_ : Kyc.substatus r = kyc_session_creating →
      change r (Kyc.set_base (Kyc.set_substatus kyc_session_creation_failed (Kyc.base r)) at_ r)
  | c_poa_start i at_ : Kyc.state r = eligible →
      canStartProofOfAddress (Kyc.poaStatus (Kyc.poa r)) (Kyc.poaCurrentUntil (Kyc.poa r)) at_ = true →
      change r (poa_start_row i at_ r)
  | c_poa_open ref st at_ : Kyc.poaStatus (Kyc.poa r) = ProofOfAddress.creating → change r (poa_open_row ref st at_ r)
  | c_poa_fail at_ : Kyc.poaStatus (Kyc.poa r) = ProofOfAddress.creating →
      change r (Kyc.set_poa (Kyc.set_poaStatus ProofOfAddress.creation_failed (Kyc.poa r)) at_ r)
  | c_apply e input :
      didit_ref r = Some (pe_diditReference e) →
      in_status input = pe_providerStatus e → in_occurredAt input = pe_providerUpdatedAt e →
      fetched (pe_diditReference e) (in_status input) (in_decision input) →
      later_than (pe_providerUpdatedAt e) (Kyc.providerUpdatedAt (Kyc.base r)) = false →
      change r (applied_row e (evaluateDiditOutcome input) r)
  | c_poa_apply e decision residence :
      poa_ref r = Some (pe_diditReference e) →
      fetched (pe_diditReference e) (pe_providerStatus e) decision →
      later_than (pe_providerUpdatedAt e) (Kyc.poaProviderUpdatedAt (Kyc.poa r)) = false →
      change r (poa_applied_row e
        (evaluateProofOfAddressOutcome (pe_providerStatus e) decision residence (pe_providerUpdatedAt e)) r)
  | c_renewal at_ : Kyc.state r = eligible → change r (renewal_row at_ r).

Lemma change_account r r' : change r r' → Kyc.accountId r' = Kyc.accountId r.
Proof. by destruct 1. Qed.

(** What one transaction does to the table. *)
Inductive table_step (l : list Kyc.t) : list Kyc.t → Prop :=
  | t_same : table_step l l
  | t_new a i residence tax at_ :
      find_row (of_account a) l = None → kyc_check (new_row a i residence tax at_) l = Ok tt →
      table_step l (l ++ [new_row a i residence tax at_])
  | t_change p f r :
      find_row p l = Some r → (∀ q, p q = true → Kyc.accountId q = Kyc.accountId r) →
      change r (f r) → kyc_check (f r) l = Ok tt →
      table_step l (update_where p f l).

Definition kyc_step : relation identity := λ s s', table_step (rows s) (rows s').

Lemma same_rows_step s s' : same_rows s s' → kyc_step s s'.
Proof. unfold same_rows, kyc_step. intros ->. apply t_same. Qed.

(** *** The transactions refine the machine *)

Context (ulid : nat → string).

(** One guarded update of a row, then writes elsewhere. *)
Lemma guarded_update {A} p f s n (k : txn identity A) b s1 s' r0 :
  updateMany p f s = Ok (n, s1) → tx_rel same_rows k → k s1 = Ok (b, s') →
  (∀ q, p q = true → Kyc.accountId q = r0) →
  (∀ r, find_row p (rows s) = Some r → change r (f r)) → kyc_step s s'.
Proof.
  intros H Hk Hrun Hp Hc. apply Hk in Hrun. unfold same_rows in Hrun.
  apply updateMany_ok in H as [(_ & -> & _)|(_ & r & Hr & Hok & ->)]; [by apply same_rows_step|].
  unfold kyc_step. rewrite Hrun. simpl. eapply t_change; [done| |by apply Hc|done].
  intros q Hq. rewrite (Hp q Hq). symmetry. apply Hp. by apply find_row_Some in Hr as [_ ?].
Qed.

Lemma reserve_refines a i residence tax at_ : tx_rel kyc_step (reserveSessionStart a i residence tax at_).
Proof.
  intros s b s' H. unfold reserveSessionStart in H. inv_tx H; try by apply same_rows_step.
  - unfold update_row in Htx. inv_tx Htx.
    eapply (guarded_update _ _ _ _ (tret tt)); [exact Htx0 | | done | | ].
    + apply tx_rel_ret; exact _.
    + intros q Hq. by apply bool_decide_eq_true_1 in Hq.
    + intros r Hr. unfold getForAccount in E0. rewrite E0 in Hr. injection Hr as <-. apply c_restart. by boolify.
  - unfold insert_row in Htx. apply tprim_ok in Htx. simpl in Htx.
    destruct (kyc_check _ _) as [[]|] eqn:Ec; [|done]. injection Htx as <-.
    unfold kyc_step. simpl. by apply t_new.
Qed.

(** [refine_update Hcount Hrest r0]: the step is the guarded update [Hcount], then frame writes. *)
Ltac pins := intros q Hq; unfold creating_row, poa_creating_row, eligible_row, of_account in Hq; by boolify.

Lemma complete_refines a i ref st t at_ : tx_rel kyc_step (completeSessionStart ulid a i ref st t at_).
Proof.
  intros s b s' H. unfold completeSessionStart in H. apply tbind_ok in H as (n & s1 & H1 & H2).
  eapply guarded_update; [exact H1 | | exact H2 | pins | ].
  - walk_tx.
  - intros r [_ Hr]%find_row_Some. unfold creating_row in Hr. boolify. by apply c_open.
Qed.

Lemma fail_refines a i t at_ : tx_rel kyc_step (failSessionStart ulid a i t at_).
Proof.
  intros s b s' H. unfold failSessionStart in H. apply tbind_ok in H as (n & s1 & H1 & H2).
  eapply guarded_update; [exact H1 | | exact H2 | pins | ].
  - walk_tx.
  - intros r [_ Hr]%find_row_Some. unfold creating_row in Hr. boolify. by apply c_fail.
Qed.

Lemma poa_reserve_refines a i at_ : tx_rel kyc_step (reserveProofOfAddressSessionStart a i at_).
Proof.
  intros s b s' H. unfold reserveProofOfAddressSessionStart in H. inv_tx H; try by apply same_rows_step.
  unfold update_row in Htx. inv_tx Htx.
  eapply (guarded_update _ _ _ _ (tret tt)); [exact Htx0 | | done | | ].
  - apply tx_rel_ret; exact _.
  - intros q Hq. by apply bool_decide_eq_true_1 in Hq.
  - intros r Hr. unfold getForAccount in E0. rewrite E0 in Hr. injection Hr as <-. boolify. by apply c_poa_start.
Qed.

Lemma poa_complete_refines a i ref st t at_ :
  tx_rel kyc_step (completeProofOfAddressSessionStart ulid a i ref st t at_).
Proof.
  intros s b s' H. unfold completeProofOfAddressSessionStart in H. apply tbind_ok in H as (n & s1 & H1 & H2).
  eapply guarded_update; [exact H1 | | exact H2 | pins | ].
  - walk_tx.
  - intros r [_ Hr]%find_row_Some. unfold poa_creating_row in Hr. boolify. by apply c_poa_open.
Qed.

Lemma poa_fail_refines a i t at_ : tx_rel kyc_step (failProofOfAddressSessionStart ulid a i t at_).
Proof.
  intros s b s' H. unfold failProofOfAddressSessionStart in H. apply tbind_ok in H as (n & s1 & H1 & H2).
  eapply guarded_update; [exact H1 | | exact H2 | pins | ].
  - walk_tx.
  - intros r [_ Hr]%find_row_Some. unfold poa_creating_row in Hr. boolify. by apply c_poa_fail.
Qed.

Lemma renewal_refines a t at_ : tx_rel kyc_step (transitionToRequiresRenewal ulid a t at_).
Proof.
  intros s b s' H. unfold transitionToRequiresRenewal in H. apply tbind_ok in H as (n & s1 & H1 & H2).
  eapply guarded_update; [exact H1 | | exact H2 | pins | ].
  - walk_tx.
  - intros r [_ Hr]%find_row_Some. unfold eligible_row in Hr. boolify. by apply c_renewal.
Qed.

(** *** Keys *)

Definition keyed (l : list Kyc.t) : Prop := List.NoDup (map Kyc.accountId l).

Lemma find_own l r : keyed l → In r l → find_row (of_account (Kyc.accountId r)) l = Some r.
Proof.
  intros Hnd Hr. destruct (find_row (of_account (Kyc.accountId r)) l) as [q|] eqn:E.
  - apply find_row_Some in E as [Hq Ha]. apply bool_decide_eq_true_1 in Ha. f_equal.
    by eapply (NoDup_map_inj_in Kyc.accountId).
  - eapply find_row_None in E; [|exact Hr]. by rewrite of_account_refl in E.
Qed.

Lemma map_accounts p f l r : find_row p l = Some r → keyed l →
  (∀ q, p q = true → Kyc.accountId q = Kyc.accountId r) → Kyc.accountId (f r) = Kyc.accountId r →
  map Kyc.accountId (update_where p f l) = map Kyc.accountId l.
Proof.
  intros Hr Hnd Hp Hf. unfold update_where. rewrite map_map. apply map_ext_in. intros q Hq.
  destruct (p q) eqn:E; [|done]. apply find_row_Some in Hr as [Hin _].
  by rewrite (NoDup_map_inj_in Kyc.accountId l q r Hnd Hq Hin (Hp q E)).
Qed.

Lemma table_step_keyed l l' : table_step l l' → keyed l → keyed l'.
Proof.
  unfold keyed. destruct 1 as [|a i re ta at_ Hn _|p f r Hr Hp Hc _]; intros Hnd; [done| |].
  - rewrite map_app. apply NoDup_snoc; [done|]. rewrite in_map_iff. intros (q & Hq & Hin).
    eapply find_row_None in Hn; [|exact Hin]. apply bool_decide_eq_false_1 in Hn. done.
  - by rewrite (map_accounts p f l r) by (done || by apply change_account).
Qed.

(** Runs of the machine: from a table with unique accounts, a sequence of steps to another. *)
Definition kyc_run : relation identity := λ s s', keyed (rows s) → keyed (rows s') ∧ rtc kyc_step s s'.
#[global] Instance kyc_run_preorder : PreOrder kyc_run.
Proof.
  split.
  - by intros s Hs.
  - intros a b c Hab Hbc Ha. destruct (Hab Ha) as [Hb Hab']. destruct (Hbc Hb) as [Hc Hbc'].
    split; [done | by etrans].
Qed.

Lemma kyc_step_run s s' : kyc_step s s' → kyc_run s s'.
Proof. intros H Hs. split; [by eapply table_step_keyed | by apply rtc_once]. Qed.

Lemma tx_step_run {A} (t : txn identity A) : tx_rel kyc_step t → io_rel kyc_run (transaction t).
Proof. intros H. apply io_rel_transaction; [exact _|]. intros s a s' E. by eapply kyc_step_run, H. Qed.

Lemma same_rows_run s s' : same_rows s s' → kyc_run s s'.
Proof. intros H. by apply kyc_step_run, same_rows_step. Qed.

Definition sourced (e : ProviderEvent) (input : PolicyInput) : Prop :=
  in_status input = pe_providerStatus e ∧ in_occurredAt input = pe_providerUpdatedAt e ∧
  fetched (pe_diditReference e) (in_status input) (in_decision input).

(** The shape both provider transactions have: claim the event, find the session's row, drop what is
    stale, otherwise update that row. *)
Lemma provider_shape (e : ProviderEvent) (find : list Kyc.t → option Kyc.t) (is_stale : Kyc.t → bool)
    (f : Kyc.t → Kyc.t) (k0 : txn identity Applied) (k1 k2 : Kyc.t → txn identity Applied) :
  tx_rel same_rows k0 → (∀ r, tx_rel same_rows (k1 r)) → (∀ r, tx_rel same_rows (k2 r)) →
  (∀ l r, find l = Some r → In r l ∧ (is_stale r = false → change r (f r))) →
  io_rel kyc_run (transaction
    (do! claimed := claim_event ulid e in
     if Nat.eqb claimed 0 then tret duplicate
     else
       do! locked := tread (λ s, find (rows s)) in
       match locked with
       | None => k0
       | Some current => if is_stale current then k1 current
                         else do! _ := update_row (Kyc.accountId current) f in k2 current
       end)).
Proof.
  intros H0 H1 H2 Hfind. apply io_rel_transaction; [exact _|]. intros s b s' H Hk.
  apply kyc_step_run; [|done]. apply tbind_ok in H as (n & s1 & Hc & H).
  apply claim_rows in Hc. unfold same_rows in Hc. rewrite <- Hc in Hk.
  assert (kyc_step s1 s') as Hstep; [|unfold kyc_step in *; by rewrite <- Hc].
  destruct (Nat.eqb n 0); [inv_tx H; by apply same_rows_step|].
  apply tbind_ok in H as (locked & s2 & [-> ->]%tread_ok & H).
  destruct (find (rows s1)) as [cur|] eqn:Ef; [|by eapply same_rows_step, H0].
  destruct (is_stale cur) eqn:Es; [by eapply same_rows_step, H1|].
  apply Hfind in Ef as [Hin Hch]. unfold update_row in H. apply tbind_ok in H as (u & s3 & Hu & H).
  apply tbind_ok in Hu as (n' & s4 & Hu & [-> ->]%tret_ok).
  eapply guarded_update; [exact Hu | apply H2 | exact H | | ].
  - intros q Hq. by apply bool_decide_eq_true_1 in Hq.
  - intros r Hr. rewrite find_own in Hr by done. injection Hr as <-. by apply Hch.
Qed.

Lemma apply_refines e input : sourced e input →
  io_rel kyc_run (transaction (applyProviderOutcome ulid e (evaluateDiditOutcome input))).
Proof.
  intros (Hst & Hat & Hf). apply (provider_shape e (find_row (column_is didit_ref (pe_diditReference e)))
    (λ r, later_than (pe_providerUpdatedAt e) (Kyc.providerUpdatedAt (Kyc.base r)))); [walk_tx | intros ?; walk_tx | intros ?; walk_tx |].
  intros l r [Hin Href%bool_decide_eq_true_1]%find_row_Some. split; [done|]. intros El. by apply c_apply.
Qed.

Lemma poa_apply_refines e decision residence : fetched (pe_diditReference e) (pe_providerStatus e) decision →
  io_rel kyc_run (transaction (applyProofOfAddressOutcome ulid e
    (evaluateProofOfAddressOutcome (pe_providerStatus e) decision residence (pe_providerUpdatedAt e)))).
Proof.
  intros Hf. apply (provider_shape e (find_row (column_is poa_ref (pe_diditReference e)))
    (λ r, later_than (pe_providerUpdatedAt e) (Kyc.poaProviderUpdatedAt (Kyc.poa r)))); [walk_tx | intros ?; walk_tx | intros ?; walk_tx |].
  intros l r [Hin Href%bool_decide_eq_true_1]%find_row_Some. split; [done|]. intros El. by apply c_poa_apply.
Qed.

(** ** What the module commits *)

(** The transactions the services run, with the provenance the services give their arguments. *)
Inductive transaction_of : ∀ A, txn identity A → Prop :=
  | x_reserve a i residence tax at_ : transaction_of bool (reserveSessionStart a i residence tax at_)
  | x_complete a i ref st t at_ : transaction_of bool (completeSessionStart ulid a i ref st t at_)
  | x_fail a i t at_ : transaction_of unit (failSessionStart ulid a i t at_)
  | x_poa_reserve a i at_ : transaction_of bool (reserveProofOfAddressSessionStart a i at_)
  | x_poa_complete a i ref st t at_ : transaction_of bool (completeProofOfAddressSessionStart ulid a i ref st t at_)
  | x_poa_fail a i t at_ : transaction_of unit (failProofOfAddressSessionStart ulid a i t at_)
  | x_apply e input : sourced e input → transaction_of Applied (applyProviderOutcome ulid e (evaluateDiditOutcome input))
  | x_poa_apply e decision residence : fetched (pe_diditReference e) (pe_providerStatus e) decision →
      transaction_of Applied (applyProofOfAddressOutcome ulid e
        (evaluateProofOfAddressOutcome (pe_providerStatus e) decision residence (pe_providerUpdatedAt e)))
  | x_unmatched key id_ ref st type t reason at_ :
      transaction_of unit (recordUnmatchedProviderEvent ulid key id_ ref st type t reason at_)
  | x_renewal a t at_ : transaction_of bool (transitionToRequiresRenewal ulid a t at_)
  | x_enqueue w : transaction_of unit (enqueueDiditWebhookProcessing w).

(** One commit of the module, or a change outside its tables: other modules' rows, e-mails, the profile cache. *)
Inductive commits (s s' : identity) : Prop :=
  | commit A (t : txn identity A) a : transaction_of A t → t s = Ok (a, s') → commits s s'
  | outside : rows s' = rows s → history s' = history s → receipts s' = receipts s → commits s s'.

Lemma tx_io_run {A} (t : txn identity A) s a s' : io_rel kyc_run (transaction t) → t s = Ok (a, s') → kyc_run s s'.
Proof. intros H E. specialize (H s). unfold transaction in H. by rewrite E in H. Qed.

Lemma unmatched_rows key id_ ref st type t reason at_ :
  tx_rel same_rows (recordUnmatchedProviderEvent ulid key id_ ref st type t reason at_).
Proof. unfold recordUnmatchedProviderEvent. walk_tx. Qed.

Lemma commits_run s s' : commits s s' → kyc_run s s'.
Proof.
  destruct 1 as [A t a Ht E|Hr _ _]; [|by apply same_rows_run].
  destruct Ht.
  - by eapply kyc_step_run, reserve_refines.
  - by eapply kyc_step_run, complete_refines.
  - by eapply kyc_step_run, fail_refines.
  - by eapply kyc_step_run, poa_reserve_refines.
  - by eapply kyc_step_run, poa_complete_refines.
  - by eapply kyc_step_run, poa_fail_refines.
  - eapply tx_io_run; [by apply apply_refines | done].
  - eapply tx_io_run; [by apply poa_apply_refines | done].
  - eapply same_rows_run, unmatched_rows, E.
  - by eapply kyc_step_run, renewal_refines.
  - apply same_rows_run. by apply twrite_ok in E as ->.
Qed.

Lemma commits_runs s s' : rtc commits s s' → kyc_run s s'.
Proof. induction 1 as [|a b c Hab _ IH]; [done|]. etrans; [by apply commits_run | done]. Qed.

Lemma commit_io {A} (t : txn identity A) : transaction_of A t → io_rel (rtc commits) (transaction t).
Proof. intros H. apply io_rel_transaction; [exact _|]. intros s a s' E. by eapply rtc_once, commit. Qed.

Lemma outside_io {A} (m : io identity A) :
  (∀ s, rows (m s).2 = rows s ∧ history (m s).2 = history s ∧ receipts (m s).2 = receipts s) → io_rel (rtc commits) m.
Proof. intros H s. destruct (H s) as (? & ? & ?). by apply rtc_once, outside. Qed.

Lemma invalidate_io b a : io_rel (rtc commits) (invalidate b a).
Proof. apply outside_io. intros s. unfold invalidate. by destruct b. Qed.

Lemma mail_io deliver to due : io_rel (rtc commits) (sendKycRenewalReminderEmail deliver to due).
Proof. apply outside_io. intros s. unfold sendKycRenewalReminderEmail. by destruct (deliver to). Qed.

End Machine.

(** [walk_io] reduces [io_rel R m] to its transactions, splitting every test. *)
Ltac walk_io :=
  repeat match goal with
  | |- io_rel _ (ret _) => apply io_rel_ret; exact _
  | |- io_rel _ (throw _) => apply io_rel_throw; exact _
  | |- io_rel _ (lift _) => apply io_rel_lift; exact _
  | |- io_rel _ (query _) => apply io_rel_query; exact _
  | |- io_rel _ (read _) => apply io_rel_query; exact _
  | |- io_rel _ (iobind _ _) => apply io_rel_bind; [exact _ | | intros ?]
  | |- io_rel _ (iocatch _ _) => apply io_rel_catch; [exact _ | | intros ?]
  | |- io_rel _ (iofold _ _ _) => apply io_rel_fold; [exact _ | intros ? ?]
  | |- io_rel _ (if ?b then _ else _) => destruct b eqn:?
  | |- io_rel _ (match ?m with _ => _ end) => destruct m eqn:?
  | |- io_rel _ (transaction _) => apply commit_io; constructor; fail
  | |- io_rel _ (invalidate _ _) => apply invalidate_io
  | |- io_rel _ (sendKycRenewalReminderEmail _ _ _) => apply mail_io
  end.

End KycMachine.
