(* ===== verification/KycProps.v ===== *)
(** What the identity module guarantees: who is eligible and on what evidence, whatever the
    interleaving of sessions, webhooks and jobs. *)

From Stdlib Require Import String.
From stdpp Require Import gmap.
From S2P Require Import Prelude JsString DateTime IntakePolicy Db KycPolicy KycRepo KycServices KycMachine.

Module KycProps.
Import DateTime KycPolicy KycRepo KycServices KycMachine.

Section Props.
Context (answers : string → DiditDecisionSummary → Prop) (ulid : nat → string).

(** The client answers what Didit answers. *)
Definition honest (getDecision : string → result DiditDecisionSummary) : Prop :=
  ∀ ref d, getDecision ref = Ok d → answers ref d.

(** ** The services are sequences of these transactions *)

Lemma start_runs a t re ta w i session df t0 t1 t2 :
  io_rel (rtc (commits answers ulid)) (StartKycSession_execute ulid a t re ta w i session df t0 t1 t2).
Proof. unfold StartKycSession_execute. walk_io. Qed.

Lemma poa_start_runs a t w i session t0 t1 t2 :
  io_rel (rtc (commits answers ulid)) (StartProofOfAddressSession_execute ulid a t w i session t0 t1 t2).
Proof. unfold StartProofOfAddressSession_execute. walk_io. Qed.

Lemma renewal_timer_runs deliver t now : io_rel (rtc (commits answers ulid)) (RunKycRenewalTimer_execute ulid deliver t now).
Proof. unfold RunKycRenewalTimer_execute, renew_one. walk_io. Qed.

Lemma expire_stuck_runs t now timeout : io_rel (rtc (commits answers ulid)) (ExpireStuckSessionCreations_execute ulid t now timeout).
Proof. unfold ExpireStuckSessionCreations_execute, expire_creation. walk_io. Qed.

Lemma reconcile_runs getDecision uuid t now timeout : honest getDecision →
  io_rel (rtc (commits answers ulid)) (ReconcileStuckOpenSessions_execute ulid getDecision uuid t now timeout).
Proof.
  intros Hh. unfold ReconcileStuckOpenSessions_execute, reconcile_one.
  apply io_rel_bind; [exact _ | walk_io | intros stuck]. apply io_rel_bind; [exact _ | | intros; walk_io].
  apply io_rel_fold; [exact _|]. intros acted x. case_match; [walk_io|].
  apply io_rel_bind_ok; [exact _ | walk_io | intros d s s' [Hd ->]%lift_ok].
  destruct (d_status d) as [st|] eqn:Est; [|walk_io]. case_match; [walk_io|].
  apply io_rel_bind; [exact _ | | intros; walk_io].
  destruct (so_kind x).
  - apply commit_io, x_apply. split; [done|]. split; [done|]. simpl. split; [by apply Hh | done].
  - apply commit_io. apply (x_poa_apply _ _ (mkEvent _ _ _ (Some st) _ _ now)). simpl. split; [by apply Hh | done].
Qed.

Lemma process_webhook_runs c getDecision df w : honest getDecision →
  io_rel (rtc (commits answers ulid)) (ProcessDiditWebhook_execute ulid c getDecision df w).
Proof.
  intros Hh. unfold ProcessDiditWebhook_execute.
  apply io_rel_bind; [exact _ | walk_io | intros seen]. case_match; [walk_io|]. case_match; [walk_io|].
  destruct (webhook_purpose _ _) as [purpose|]; [|walk_io].
  apply io_rel_bind; [exact _ | walk_io | intros [target|]]; [|walk_io]. case_match; [walk_io|].
  apply io_rel_bind; [exact _ | walk_io | intros _].
  apply io_rel_bind_ok; [exact _ | walk_io | intros decision s s' Hd].
  destruct (match decision with Some _ => _ | None => _ end) eqn:Em; [walk_io|].
  apply io_rel_bind; [exact _ | | intros; walk_io].
  assert (fetched answers (wh_sessionId w) (asDiditStatus (wh_status w)) decision) as Hf.
  { destruct (shouldFetchDecision _) eqn:Es; inv_io Hd; simpl; [|done].
    split; [by apply Hh|]. unfold decision_mismatch in Em. by boolify. }
  unfold apply_webhook. apply commit_io. destruct purpose.
  - by apply x_apply.
  - by apply (x_poa_apply _ _ (webhook_event w _)).
Qed.

Lemma receive_runs w : io_rel (rtc (commits answers ulid)) (ReceiveDiditWebhook_execute w).
Proof. unfold ReceiveDiditWebhook_execute. walk_io. Qed.

Lemma display_runs getDecision cache a now at_ :
  io_rel (rtc (commits answers ulid)) (GetKycDisplayProfile_execute getDecision cache a now at_).
Proof.
  unfold GetKycDisplayProfile_execute, tryDelete, tryGet, trySet. walk_io.
  apply outside_io. intros s0. by destruct (ca_set_fails _).
Qed.

(** ** The invariant of a row *)

Definition months_after (m t : Z) : Z := setUTCMonth (getUTCMonth t + m) t.

(** The account was approved by Didit, on clean checks, for the session the row names. *)
Definition approved_by_didit (r : Kyc.t) : Prop :=
  let b := Kyc.base r in
  ∃ ref d t, didit_ref r = Some ref ∧ answers ref d ∧ d_status d = Some Approved ∧ clean_decision d t ∧
    Kyc.providerStatus b = Some Approved ∧ Kyc.providerUpdatedAt b = Some t ∧ Kyc.lastVerifiedAt b = Some t ∧
    Kyc.renewalDueAt b = Some (months_after (if Kyc.everRequiredManualReview b then 12 else 24) t).

(** The date was computed from an approved proof-of-address decision. *)
Definition address_proved (u : Z) : Prop :=
  ∃ ref d residence t, answers ref d ∧ d_status d = Some Approved ∧ t < u ∧
    evaluateProofOfAddressOutcome (Some Approved) (Some d) residence t =
      mkPoaOutcome ProofOfAddress.current "OWNER_PROOF_OF_ADDRESS_APPROVED" (Some u).

Definition verified (st : KycOperationalSubstatus) : bool :=
  match st with kyc_verified | kyc_verified_owner_poa_missing => true | _ => false end.

Record row_ok (r : Kyc.t) : Prop := {
  ro_eligible : Kyc.state r = eligible ↔ verified (Kyc.substatus r) = true;
  ro_approved : Kyc.state r = eligible → approved_by_didit r;
  ro_creating : Kyc.substatus r = kyc_session_creating → is_Some (start_ref r);
  ro_address : ∀ u, Kyc.poaCurrentUntil (Kyc.poa r) = Some u → address_proved u;
  ro_poa_creating : Kyc.poaStatus (Kyc.poa r) = ProofOfAddress.creating → is_Some (poa_start_ref r) }.

(** The substatus of an outcome says whether it makes the account eligible. *)
Lemma outcome_substatus input : let o := po_outcome (evaluateDiditOutcome input) in
  KycPolicy.eligibilityState o = eligible ↔ verified (KycPolicy.operationalSubstatus o) = true.
Proof.
  unfold evaluateDiditOutcome, evaluateStatusOutcome, evaluateApproved, reviewed_or_failed.
  repeat (case_match; simpl); split; intros ?; done.
Qed.

Lemma applied_not_creating input at_ r : applied_substatus (evaluateDiditOutcome input) at_ r ≠ kyc_session_creating.
Proof.
  unfold applied_substatus. case_match; [done|].
  unfold evaluateDiditOutcome, evaluateStatusOutcome, evaluateApproved, reviewed_or_failed.
  repeat (case_match; simpl; try done).
Qed.

Lemma poa_not_creating st d re at_ : poa_status (evaluateProofOfAddressOutcome st d re at_) ≠ ProofOfAddress.creating.
Proof.
  unfold evaluateProofOfAddressOutcome, evaluateApprovedProofOfAddress. repeat (case_match; simpl; try done).
Qed.

Lemma not_fetched : shouldFetchDecision (Some Approved) = false → False.
Proof. by vm_compute. Qed.

(** An outcome that makes the account eligible carries its evidence. *)
Lemma eligible_evidence e input : sourced answers e input →
  KycPolicy.eligibilityState (po_outcome (evaluateDiditOutcome input)) = eligible →
  ∃ d, answers (pe_diditReference e) d ∧ d_status d = Some Approved ∧ clean_decision d (pe_providerUpdatedAt e) ∧
    pe_providerStatus e = Some Approved.
Proof.
  intros (Hst & Hat & Hf) He. apply (proj1 (kyc_eligible_decision input)) in He as (Hs & _ & _ & d & Hd & Hc).
  rewrite Hs in *. rewrite Hd in Hf. destruct Hf as [Ha Hds]. exists d. by rewrite <- Hat.
Qed.

Lemma poa_evidence ref st decision residence at_ u : fetched answers ref st decision →
  poa_currentUntil (evaluateProofOfAddressOutcome st decision residence at_) = Some u → address_proved u.
Proof.
  intros Hf Hu. destruct st as [[]|]; try done.
  destruct decision as [d|]; [|by apply not_fetched in Hf]. destruct Hf as [Ha Hd].
  exists ref, d, residence, at_. split; [done|]. split; [done|].
  simpl in Hu. unfold evaluateProofOfAddressOutcome. revert Hu. unfold evaluateApprovedProofOfAddress.
  repeat (case_match; simpl; try done). intros [= <-]. boolify. done.
Qed.

Lemma new_row_ok a i re ta at_ : row_ok (new_row a i re ta at_).
Proof. by split. Qed.

Lemma can_start_not_verified st : canStartSession st = true → verified st = false.
Proof. by destruct st. Qed.

Lemma applied_substatus_eligible o at_ r :
  (KycPolicy.eligibilityState (po_outcome o) = eligible ↔
   verified (KycPolicy.operationalSubstatus (po_outcome o)) = true) →
  KycPolicy.eligibilityState (po_outcome o) = eligible ↔ verified (applied_substatus o at_ r) = true.
Proof.
  intros H. unfold applied_substatus. case_bool_decide as E; simpl; [|done].
  by destruct (poa_is_current at_ r).
Qed.

Lemma change_row_ok r r' : change answers r r' → row_ok r → row_ok r'.
Proof.
  intros Hc [He Ha Hs Hp Hq].
  destruct Hc as [i re ta at_ Hcan|ref st at_ Hsub|at_ Hsub|i at_ Hel Hcan|ref st at_ Hst|at_ Hst|e input Href H1 H2 H3 Hl
    |e decision residence Href Hf Hl|at_ Hel].
  - apply can_start_not_verified in Hcan.
    assert (Kyc.state r ≠ eligible) as Hne by (intros E%He; congruence). by split.
  - by split.
  - assert (Kyc.state r ≠ eligible) as Hne by (intros E%He; by rewrite Hsub in E). by split.
  - by split.
  - by split.
  - by split.
  - split; simpl; try done.
    + apply applied_substatus_eligible, outcome_substatus.
    + intros Hel. destruct (eligible_evidence e input) as (d & Hans & Hds & Hcl & Hs'); [done..|].
      exists (pe_diditReference e), d, (pe_providerUpdatedAt e). simpl.
      destruct (kyc_eligible_dates input Hel) as (Hlast & -> & Hdue). rewrite Hlast, Hdue, H2.
      exact (conj Href (conj Hans (conj Hds (conj Hcl (conj Hs' (conj eq_refl (conj eq_refl eq_refl))))))).
    + intros Hsub. exfalso. unfold Kyc.substatus in Hsub. simpl in Hsub. revert Hsub. apply applied_not_creating.
  - split; simpl; try done.
    + unfold Kyc.substatus. simpl. unfold poa_substatus. destruct (bool_decide_reflect (Kyc.state r = eligible)) as [E|E];
        simpl; [|exact He]. split; [|done]. intros _. by destruct (bool_decide _).
    + unfold Kyc.substatus. simpl. unfold poa_substatus. destruct (bool_decide (Kyc.state r = eligible)); simpl; [|exact Hs].
      by destruct (bool_decide _).
    + intros u Hu. by eapply poa_evidence.
    + intros E. exfalso. revert E. apply poa_not_creating.
  - by split.
Qed.

(** ** The invariant of the table *)

(** Every row is stored under its constraints. *)
Definition checked (l : list Kyc.t) : Prop := ∀ r, In r l → kyc_check r l = Ok tt.

Record table_ok (l : list Kyc.t) : Prop := {
  tk_keyed : keyed l; tk_checked : checked l; tk_rows : ∀ r, In r l → row_ok r }.

Lemma taken_ext f r l l' :
  (∀ q v, In q l' → Kyc.accountId q ≠ Kyc.accountId r → f q = Some v → ∃ q', In q' l ∧ Kyc.accountId q' ≠ Kyc.accountId r ∧ f q' = Some v) →
  taken f r l = false → taken f r l' = false.
Proof.
  intros H Ht. unfold taken in *. destruct (f r) as [v|]; [|done].
  apply exists_row_false. intros q Hq. unfold of_account, column_is.
  destruct (bool_decide_reflect (Kyc.accountId q = Kyc.accountId r)) as [|Hne]; [done|]. simpl.
  apply bool_decide_eq_false_2. intros Hv. destruct (H q v Hq Hne Hv) as (q' & Hin & Hne' & Hv').
  eapply exists_row_false in Ht; [|exact Hin]. unfold of_account, column_is in Ht.
  by rewrite bool_decide_eq_false_2, bool_decide_eq_true_2 in Ht.
Qed.

(** The columns the checks read. *)
Definition unique_columns : list (Kyc.t → option string) := [didit_ref; start_ref; poa_ref; poa_start_ref].

Lemma kyc_check_iff r l : kyc_check r l = Ok tt ↔
  (∀ f, In f unique_columns → taken f r l = false) ∧
  country_ok (Kyc.residenceCountryCode r) = true ∧ country_ok (Kyc.taxResidenceCountryCode r) = true ∧
  (Kyc.poaStatus (Kyc.poa r) = ProofOfAddress.current → Kyc.poaCurrentUntil (Kyc.poa r) ≠ None).
Proof.
  split.
  - intros H. pose proof (kyc_check_ok _ _ H) as (? & ? & ? & ? & ?). split.
    { intros f [<-|[<-|[<-|[<-|[]]]]]; done. }
    revert H. unfold kyc_check, violation. repeat case_match; try done. intros _. boolify. done.
  - intros (Hf & H1 & H2 & H3). unfold kyc_check.
    rewrite !Hf by (unfold unique_columns; simpl; tauto). rewrite H1, H2. simpl.
    destruct (bool_decide_reflect (Kyc.poaStatus (Kyc.poa r) = ProofOfAddress.current)) as [E|]; [|done]. simpl.
    by rewrite bool_decide_eq_false_2 by auto.
Qed.

(** A stored row stays within its constraints when another row changes within its own. *)
Lemma checked_update p f l r : keyed l → checked l → find_row p l = Some r →
  (∀ q, p q = true → Kyc.accountId q = Kyc.accountId r) → Kyc.accountId (f r) = Kyc.accountId r →
  kyc_check (f r) l = Ok tt → checked (update_where p f l).
Proof.
  intros Hnd Hall Hr Hp Ha Hc x. pose proof (find_row_Some _ _ _ Hr) as [Hin Hpr].
  assert (∀ q, In q l → p q = true → q = r) as Honly.
  { intros q Hq E. by eapply (NoDup_map_inj_in Kyc.accountId), Hp. }
  rewrite in_update_where. intros (q & Hq & ->). destruct (p q) eqn:E.
  - rewrite (Honly q Hq E). apply kyc_check_iff. apply kyc_check_iff in Hc as [Hc1 Hc2]. split; [|done].
    intros g Hg. eapply taken_ext; [|by apply Hc1]. intros y v. rewrite in_update_where. intros (z & Hz & ->).
    destruct (p z) eqn:Ez; [rewrite (Honly z Hz Ez); done|]. by eauto.
  - assert (Kyc.accountId q ≠ Kyc.accountId r) as Hqr.
    { intros Eq. assert (q = r) as -> by (by eapply (NoDup_map_inj_in Kyc.accountId)). congruence. }
    specialize (Hall q Hq). apply kyc_check_iff. apply kyc_check_iff in Hall as [Hq1 Hq2]. split; [|done].
    intros g Hg. destruct (g q) as [v|] eqn:Eg; [|by unfold taken; rewrite Eg].
    pose proof (Hq1 g Hg) as Ht. unfold taken in *. rewrite Eg in *.
    apply exists_row_false. intros y. rewrite in_update_where. intros (z & Hz & ->).
    destruct (p z) eqn:Ez; [|by eapply exists_row_false in Ht].
    rewrite (Honly z Hz Ez). unfold of_account, column_is. rewrite Ha, bool_decide_eq_false_2 by done. simpl.
    apply bool_decide_eq_false_2. intros Hv. apply kyc_check_iff in Hc as [Hc1 _].
    by eapply (taken_false _ _ _ _ (Hc1 g Hg) Hv q Hq); rewrite ?Ha.
Qed.

Lemma checked_insert l r : checked l → (∀ q, In q l → Kyc.accountId q ≠ Kyc.accountId r) →
  kyc_check r l = Ok tt → checked (l ++ [r]).
Proof.
  intros Hall Hnew Hc x. rewrite in_app_iff. intros [Hx|[<-|[]]].
  - specialize (Hall x Hx). apply kyc_check_iff. apply kyc_check_iff in Hall as [H1 H2]. split; [|done].
    intros g Hg. specialize (H1 g Hg). unfold taken in *. destruct (g x) as [v|] eqn:Eg; [|done].
    unfold exists_row in *. rewrite existsb_app, H1. simpl. rewrite orb_false_r.
    unfold of_account, column_is. rewrite bool_decide_eq_false_2 by (intros E; exact (Hnew x Hx (eq_sym E))). simpl.
    apply bool_decide_eq_false_2. intros Hv. apply kyc_check_iff in Hc as [Hc1 _].
    by eapply (taken_false _ _ _ _ (Hc1 g Hg) Hv x Hx), Eg; apply Hnew.
  - apply kyc_check_iff. apply kyc_check_iff in Hc as [H1 H2]. split; [|done].
    intros g Hg. eapply taken_ext; [|by apply H1]. intros y v [Hy|[<-|[]]]%in_app_iff Hne Hv; [by eauto | done].
Qed.

Lemma table_step_ok l l' : table_step answers l l' → table_ok l → table_ok l'.
Proof.
  intros Hs [Hk Hc Hr]. pose proof (table_step_keyed _ _ _ Hs Hk) as Hk'.
  destruct Hs as [|a i re ta at_ Hn Hck|p f r Hf Hp Hch Hck]; [done| |].
  - split; [done| |].
    + apply checked_insert; [done| |done]. intros q Hq E. eapply find_row_None in Hn; [|exact Hq].
      by apply bool_decide_eq_false_1 in Hn.
    + intros x [Hx|[<-|[]]]%in_app_iff; [by apply Hr | apply new_row_ok].
  - pose proof (find_row_Some _ _ _ Hf) as [Hin _]. split; [done| |].
    + eapply checked_update; try done. by eapply change_account.
    + intros x. rewrite in_update_where. intros (q & Hq & ->). destruct (p q) eqn:E; [|by apply Hr].
      rewrite (NoDup_map_inj_in Kyc.accountId l q r Hk Hq Hin (Hp q E)). by eapply change_row_ok, Hr.
Qed.

Lemma table_empty : table_ok [].
Proof. split; [constructor | by intros r | by intros r]. Qed.

(** The states reached from an empty table by any interleaving of the module's transactions. *)
Definition reachable (s : identity) : Prop := ∃ s0, rows s0 = [] ∧ rtc (commits answers ulid) s0 s.

Lemma reachable_ok s : reachable s → table_ok (rows s).
Proof.
  intros (s0 & E & H). destruct (commits_runs _ _ _ _ H) as [_ H']; [rewrite E; constructor|]. clear H. rename H' into H.
  assert (table_ok (rows s0)) as H0 by (rewrite E; apply table_empty). clear E.
  induction H as [|a b c Hab _ IH]; [done|]. apply IH. by eapply table_step_ok.
Qed.

(** ** Claims *)

(** C7: Eligibility is earned.  In every state reached by any interleaving of session starts,
    webhooks, reconciliation, renewal and recovery, an account is eligible exactly while its substatus
    says verified; an eligible account was approved by Didit, with clean checks, in the session its row
    names, on the day it was last verified, and its renewal is due 12 months from then if its row is flagged
    for manual review and 24 otherwise (the flag is set by the review events that are applied; a review event
    older than an applied approval is dropped and leaves no flag); a proof-of-address date comes from an approved proof that was still current; and no two
    accounts share a session. *)
Theorem eligible_accounts_were_approved s : reachable s →
  (∀ r, In r (rows s) →
     (Kyc.state r = eligible ↔ Kyc.substatus r = kyc_verified ∨ Kyc.substatus r = kyc_verified_owner_poa_missing) ∧
     (Kyc.state r = eligible → approved_by_didit r) ∧
     (∀ u, Kyc.poaCurrentUntil (Kyc.poa r) = Some u → address_proved u)) ∧
  (∀ r q ref, In r (rows s) → In q (rows s) → didit_ref r = Some ref → didit_ref q = Some ref → r = q).
Proof.
  intros R%reachable_ok. destruct R as [Hk Hc Hr]. split.
  - intros r Hin. destruct (Hr r Hin) as [He Ha _ Hp _]. split_and!; [|done..].
    rewrite He. destruct (Kyc.substatus r); simpl; naive_solver.
  - intros r q ref Hin Hq Er Eq. destruct (decide (Kyc.accountId q = Kyc.accountId r)) as [E|Hne].
    + by eapply (NoDup_map_inj_in Kyc.accountId).
    + exfalso. destruct (kyc_check_ok r _ (Hc r Hin)) as (Ht & _). by apply (taken_false _ _ _ _ Ht Er q Hq Hne).
Qed.

End Props.
End KycProps.
