(* ===== verification/KycEvents.v ===== *)
(** Provider events in any order and number, and the jobs that look after sessions and renewals. *)

From stdpp Require Import gmap.
From Stdlib Require Import Ascii String.
From S2P Require Import Prelude JsString DateTime IntakePolicy Db KycPolicy KycRepo KycServices KycMachine KycProps OfferingServices OfferingInv OfferingDemo.

Module KycEvents.
Import DateTime KycPolicy KycRepo KycServices KycMachine KycProps.

Section Events.
Context (ulid : nat → string).

(** ** One event *)

Notation processed := hasProcessedProviderEvent.

Lemma processed_snoc k key row s b :
  processed k (set_receipts (receipts s ++ [Receipt.mk key row]) (set_kbase b s)) = processed k s || bool_decide (key = k).
Proof.
  unfold hasProcessedProviderEvent, exists_row. simpl. rewrite existsb_app. simpl. by rewrite orb_false_r.
Qed.

Lemma claim_effect key action ref changes at_ s : ∃ s',
  claim ulid key action ref changes at_ s = Ok (if processed key s then 0%nat else 1%nat, s') ∧
  rows s' = rows s ∧ history s' = history s ∧ ∀ k, processed k s' = processed k s || bool_decide (key = k).
Proof.
  unfold claim, fresh_id, tbind. simpl. destruct (exists_row (key_is key) (receipts s)) eqn:E; simpl.
  - eexists. unfold hasProcessedProviderEvent at 1. rewrite E. split; [done|]. split; [done|]. split; [done|].
    intros k. unfold hasProcessedProviderEvent. simpl. case_bool_decide as Ek; [subst k|]; by rewrite ?E, ?orb_false_r.
  - eexists. unfold hasProcessedProviderEvent at 1. rewrite E. split; [done|]. split; [done|]. split; [done|].
    intros k. apply processed_snoc.
Qed.

Lemma processed_keys k s s' : map Receipt.eventKey (receipts s') = map Receipt.eventKey (receipts s) →
  processed k s' = processed k s.
Proof.
  intros H. unfold hasProcessedProviderEvent, exists_row.
  assert (∀ l, existsb (key_is k) l = existsb (λ x, bool_decide (x = k)) (map Receipt.eventKey l)) as E.
  { intros l. by induction l as [|x l IH]; simpl; [|rewrite IH]. }
  by rewrite !E, H.
Qed.

Lemma keys_update key c l : map Receipt.eventKey (update_where (key_is key) (Receipt.set_changes c) l) = map Receipt.eventKey l.
Proof. by apply map_update_where. Qed.

Definition stale_for (e : ProviderEvent) (r : Kyc.t) : bool :=
  later_than (pe_providerUpdatedAt e) (Kyc.providerUpdatedAt (Kyc.base r)).

(** A change that keeps the constrained columns of a stored row stays storable. *)
Lemma check_kept l r r' : kyc_check r l = Ok tt → Kyc.accountId r' = Kyc.accountId r →
  didit_ref r' = didit_ref r → start_ref r' = start_ref r → Kyc.poa r' = Kyc.poa r →
  Kyc.residenceCountryCode r' = Kyc.residenceCountryCode r → Kyc.taxResidenceCountryCode r' = Kyc.taxResidenceCountryCode r →
  kyc_check r' l = Ok tt.
Proof.
  intros H Ha H1 H2 H3 H4 H5. apply kyc_check_iff in H as (Hf & Hr & Ht & Hp). apply kyc_check_iff.
  rewrite H3, H4, H5. split; [|done]. intros f Hin. specialize (Hf f Hin).
  assert (f r' = f r) as E.
  { unfold unique_columns in Hin. simpl in Hin. unfold poa_ref, poa_start_ref in *.
    destruct Hin as [<-|[<-|[<-|[<-|[]]]]]; [done | done | by rewrite H3..]. }
  unfold taken in *. by rewrite E, Ha.
Qed.

Definition answer_to (e : ProviderEvent) (r : Kyc.t) (s : identity) : Applied :=
  if processed (pe_eventKey e) s then duplicate else if stale_for e r then stale else applied.

Lemma apply_effect e o s r : keyed (rows s) → checked (rows s) →
  findByDiditReference (pe_diditReference e) s = Some r →
  ∃ s', applyProviderOutcome ulid e o s = Ok (answer_to e r s, s') ∧
    rows s' = (if decide (answer_to e r s = applied)
               then update_where (of_account (Kyc.accountId r)) (applied_row e o) (rows s) else rows s) ∧
    (∀ k, processed k s' = processed k s || bool_decide (pe_eventKey e = k)).
Proof.
  intros Hk Hc Hr. unfold applyProviderOutcome, claim_event.
  destruct (claim_effect (pe_eventKey e) "identity.didit_webhook_received" (pe_diditReference e)
    [("trace_id", JStr (pe_traceId e))] (pe_providerUpdatedAt e) s) as (s1 & E1 & Hrows & _ & Hp).
  unfold tbind at 1. rewrite E1. unfold answer_to. destruct (processed (pe_eventKey e) s) eqn:Ep; simpl.
  { exists s1. by split_and!. }
  assert (findByDiditReference (pe_diditReference e) s1 = Some r) as Hr1 by (unfold findByDiditReference; by rewrite Hrows).
  unfold tbind at 1, tread. rewrite Hr1. fold (stale_for e r).
  destruct (stale_for e r); simpl.
  { eexists. split; [done|]. split; [done|]. intros k. rewrite <- Hp. apply processed_keys, keys_update. }
  pose proof (find_row_Some _ _ _ Hr) as [Hin _].
  unfold update_row, updateMany, tbind. rewrite Hrows, find_own by done.
  rewrite (check_kept _ r) by (done || by apply Hc). simpl.
  eexists. split; [done|]. split; [done|]. intros k. rewrite <- Hp. apply processed_keys, keys_update.
Qed.

(** ** Webhooks of one session *)

Section Session.
Context (c : WebhookConfiguration) (delete_fails : bool).

(** A webhook and what Didit answers when it is processed. *)
Notation delivery := (WebhookBody * (string → result DiditDecisionSummary))%type.

Definition handle (x : delivery) : io identity WebhookAnswer := ProcessDiditWebhook_execute ulid c x.2 delete_fails x.1.

Fixpoint handle_all (l : list delivery) : io identity unit :=
  match l with [] => ret tt | x :: l => await _ := handle x in handle_all l end.

Definition key_of (x : delivery) : string := String.append "didit:webhook:" (wh_eventId x.1).
Definition time_of (x : delivery) : Z := wh_createdAt x.1 * 1000.
Definition status_of (x : delivery) : option DiditStatus := asDiditStatus (wh_status x.1).
Definition decision_of (x : delivery) : option DiditDecisionSummary :=
  if shouldFetchDecision (status_of x) then match x.2 (wh_sessionId x.1) with Ok d => Some d | Err _ => None end else None.

(** The webhook is about the session of row [r] and Didit confirms its status. *)
Record accepted (r : Kyc.t) (x : delivery) : Prop := {
  ac_ours : foreign_webhook c x.1 = false;
  ac_purpose : webhook_purpose c (wh_workflowId x.1) = Some baseline_session;
  ac_session : didit_ref r = Some (wh_sessionId x.1);
  ac_vendor : wh_vendorData x.1 = Some (Kyc.accountId r);
  ac_decision : shouldFetchDecision (status_of x) = true → ∃ d, x.2 (wh_sessionId x.1) = Ok d ∧
    decision_mismatch (wh_sessionId x.1) (Kyc.accountId r) (wh_workflowId x.1) (status_of x) d = false }.

(** What a webhook decides of the session: state, provider status, substatus, provider time. *)
Definition view (r : Kyc.t) := (Kyc.state r, Kyc.providerStatus (Kyc.base r), Kyc.substatus r, Kyc.providerUpdatedAt (Kyc.base r)).
Definition written (r : Kyc.t) (x : delivery) : Kyc.t :=
  applied_row (webhook_event x.1 (status_of x))
    (evaluateDiditOutcome (policy_input (status_of x) (decision_of x) r (time_of x))) r.
Definition verdict (r : Kyc.t) (x : delivery) := view (written r x).

(** What webhooks of the baseline session leave alone. *)
Definition side (r : Kyc.t) := (Kyc.accountId r, didit_ref r, Kyc.poa r, Kyc.residenceCountryCode r, Kyc.taxResidenceCountryCode r).

Lemma outcome_view input input' : in_status input = in_status input' → in_decision input = in_decision input' →
  in_residenceCountryCode input = in_residenceCountryCode input' →
  in_taxResidenceCountryCode input = in_taxResidenceCountryCode input' → in_occurredAt input = in_occurredAt input' →
  let o := po_outcome (evaluateDiditOutcome input) in let o' := po_outcome (evaluateDiditOutcome input') in
  KycPolicy.eligibilityState o = KycPolicy.eligibilityState o' ∧ KycPolicy.operationalSubstatus o = KycPolicy.operationalSubstatus o'.
Proof.
  intros H1 H2 H3 H4 H5. assert (evaluateStatusOutcome input = evaluateStatusOutcome input') as E.
  { destruct input, input'. simpl in *. by subst. }
  simpl. unfold evaluateDiditOutcome. rewrite E. by case_match.
Qed.

(** The verdict does not depend on what earlier webhooks wrote. *)
Lemma verdict_side r r' x : side r = side r' → verdict r x = verdict r' x.
Proof.
  intros [= Ha Hd Hp Hr Ht]. unfold verdict, view, written, Kyc.state, Kyc.substatus. simpl.
  destruct (outcome_view (policy_input (status_of x) (decision_of x) r (time_of x))
    (policy_input (status_of x) (decision_of x) r' (time_of x))) as [E1 E2]; [done..|].
  unfold applied_substatus, poa_is_current. by rewrite E1, E2, Hp.
Qed.

Lemma accepted_side r r' x : side r = side r' → accepted r x → accepted r' x.
Proof. intros [= Ha Hd _ _ _] [H1 H2 H3 H4 H5]. split; rewrite <- ?Ha, <- ?Hd; done. Qed.

Definition stale_at (t : Z) (r : Kyc.t) : bool := later_than t (Kyc.providerUpdatedAt (Kyc.base r)).

Definition sound (s : identity) : Prop := keyed (rows s) ∧ checked (rows s).

Lemma sound_update s f r : sound s → In r (rows s) → Kyc.accountId (f r) = Kyc.accountId r →
  kyc_check (f r) (rows s) = Ok tt → ∀ s', rows s' = update_where (of_account (Kyc.accountId r)) f (rows s) → sound s'.
Proof.
  intros [Hk Hc] Hin Ha Hok s' E. unfold sound. rewrite E.
  assert (find_row (of_account (Kyc.accountId r)) (rows s) = Some r) as Hf by (by apply find_own).
  assert (∀ q, of_account (Kyc.accountId r) q = true → Kyc.accountId q = Kyc.accountId r) as Hp
    by (intros q Hq; by apply bool_decide_eq_true_1 in Hq).
  split; [unfold keyed; by rewrite (map_accounts _ _ _ r) | by eapply checked_update].
Qed.

(** One webhook of the session: what it answers and what it leaves. *)
Lemma handle_effect x s r : sound s → findByDiditReference (wh_sessionId x.1) s = Some r → accepted r x →
  ∃ ans s' r', handle x s = (Ok ans, s') ∧ sound s' ∧
    findByDiditReference (wh_sessionId x.1) s' = Some r' ∧ side r' = side r ∧
    view r' = (if processed (key_of x) s || stale_at (time_of x) r then view r else verdict r x) ∧
    (∀ k, processed k s' = processed k s || bool_decide (key_of x = k)).
Proof.
  intros Hs Hr [H1 H2 H3 H4 H5]. unfold handle, ProcessDiditWebhook_execute, iobind at 1, read, query.
  fold (key_of x). destruct (processed (key_of x) s) eqn:Ep.
  { exists answer_duplicate, s, r. split_and!; try done. intros k. case_bool_decide as E; [subst k|];
      by rewrite ?Ep, ?orb_false_r. }
  rewrite H1, H2. unfold iobind at 1, webhook_target. simpl. rewrite Hr, H4, bool_decide_eq_true_2 by done. simpl.
  unfold iobind at 1, invalidate. set (s1 := if delete_fails then s else _).
  assert (rows s1 = rows s ∧ receipts s1 = receipts s) as [R1 R2] by (unfold s1; by destruct delete_fails).
  fold (status_of x). assert (∃ decision, decision = decision_of x ∧
    (if shouldFetchDecision (status_of x) then await d := lift (x.2 (wh_sessionId x.1)) in ret (Some d) else ret None) s1
      = (Ok decision, s1) ∧
    match decision with
    | Some d => decision_mismatch (wh_sessionId x.1) (Kyc.accountId r) (wh_workflowId x.1) (status_of x) d
    | None => false end = false) as (decision & Ed & Er & Em).
  { unfold decision_of. destruct (shouldFetchDecision (status_of x)); [|by exists None].
    destruct H5 as (d & Hd & Hm); [done|]. exists (Some d). unfold iobind, lift. by rewrite Hd. }
  unfold iobind at 1. rewrite Er. simpl. rewrite Em. unfold iobind at 1, transaction.
  destruct (apply_effect (webhook_event x.1 (status_of x))
    (evaluateDiditOutcome (policy_input (status_of x) (decision_of x) r (time_of x))) s1 r) as (s' & Ea & Hrows & Hp).
  { rewrite R1. apply Hs. }
  { rewrite R1. apply Hs. }
  { unfold findByDiditReference. rewrite R1. exact Hr. }
  subst decision. unfold apply_webhook. fold (time_of x). rewrite Ea.
  assert (∀ k, processed k s1 = processed k s) as Hp1 by (intros k; apply processed_keys; by rewrite R2).
  pose proof (find_row_Some _ _ _ Hr) as [Hin Hcol].
  assert (answer_to (webhook_event x.1 (status_of x)) r s1 = if stale_at (time_of x) r then stale else applied) as Eans.
  { unfold answer_to. simpl. fold (key_of x). by rewrite Hp1, Ep. }
  rewrite Eans in Hrows. rewrite R1 in Hrows.
  assert (∀ k, processed k s' = processed k s || bool_decide (key_of x = k)) as Hp'
    by (intros k; rewrite Hp, Hp1; done).
  destruct (stale_at (time_of x) r) eqn:Est; simpl in Hrows.
  - eexists _, s', r. split; [done|]. split; [unfold sound; by rewrite Hrows|].
    split; [unfold findByDiditReference; by rewrite Hrows|]. by split_and!.
  - eexists _, s', (written r x). split; [done|]. split.
    { eapply (sound_update s); [done | exact Hin | | | exact Hrows]; [done|].
      apply (check_kept _ r); [by apply Hs | done..]. }
    split; [|by split_and!]. unfold findByDiditReference. rewrite Hrows, find_row_update_where by done.
    fold (findByDiditReference (wh_sessionId x.1) s). rewrite Hr. simpl. by rewrite of_account_refl.
Qed.

(** *** In any order *)

(** What has been processed of [all] explains the row: nothing newer than it was, or the newest. *)
Definition explained (all : list delivery) (r0 : Kyc.t) (s : identity) (r : Kyc.t) : Prop :=
  (view r = view r0 ∧ ∀ y, In y all → processed (key_of y) s = true → stale_at (time_of y) r0 = true) ∨
  (∃ x, In x all ∧ processed (key_of x) s = true ∧ stale_at (time_of x) r0 = false ∧ view r = verdict r0 x ∧
     ∀ y, In y all → processed (key_of y) s = true → time_of y ≤ time_of x).

Lemma view_time r t : view r = t → Kyc.providerUpdatedAt (Kyc.base r) = t.2.
Proof. by intros <-. Qed.

Lemma explained_step all r0 s r x s' r' :
  (∀ y, In y all → key_of y = key_of x → y = x) → In x all → side r = side r0 →
  view r' = (if processed (key_of x) s || stale_at (time_of x) r then view r else verdict r x) →
  (∀ k, processed k s' = processed k s || bool_decide (key_of x = k)) →
  explained all r0 s r → explained all r0 s' r'.
Proof.
  intros Hkey Hx Hside Hv Hp Hex. rewrite (verdict_side r r0 x Hside) in Hv.
  assert (∀ y, In y all → processed (key_of y) s' = true → processed (key_of y) s = true ∨ y = x) as Hinv.
  { intros y Hy. rewrite Hp. intros [Hy'|E]%orb_true_iff; [by left|]. right. apply Hkey; [done|].
    by apply bool_decide_eq_true_1 in E. }
  assert (∀ y, processed (key_of y) s = true → processed (key_of y) s' = true) as Hmono
    by (intros y E; by rewrite Hp, E).
  assert (processed (key_of x) s' = true) as Hxp by (rewrite Hp, bool_decide_eq_true_2 by done; apply orb_true_r).
  destruct (processed (key_of x) s) eqn:Ep.
  { simpl in Hv. destruct Hex as [[E H]|(z & Hz & Hzp & Hzs & E & H)].
    - left. split; [congruence|]. intros y Hy Hyp. destruct (Hinv y Hy Hyp) as [Hy' | ->]; by apply H.
    - right. exists z. split_and!; try done; [by apply Hmono | congruence |].
      intros y Hy Hyp. destruct (Hinv y Hy Hyp) as [Hy' | ->]; by apply H. }
  simpl in Hv. destruct Hex as [[E H]|(z & Hz & Hzp & Hzs & E & H)].
  - assert (stale_at (time_of x) r = stale_at (time_of x) r0) as Est
      by (unfold stale_at; by rewrite (view_time _ _ E)).
    rewrite Est in Hv. destruct (stale_at (time_of x) r0) eqn:Ex.
    + left. split; [congruence|]. intros y Hy Hyp. destruct (Hinv y Hy Hyp) as [Hy' | ->]; [by apply H | done].
    + right. exists x. split_and!; try done. intros y Hy Hyp. destruct (Hinv y Hy Hyp) as [Hy' | ->]; [|lia].
      specialize (H y Hy Hy'). unfold stale_at, later_than in *.
      destruct (Kyc.providerUpdatedAt (Kyc.base r0)); [|done]. lia.
  - assert (stale_at (time_of x) r = (time_of x <? time_of z)) as Est
      by (unfold stale_at; by rewrite (view_time _ _ E)).
    rewrite Est in Hv. destruct (time_of x <? time_of z) eqn:Ex.
    + right. exists z. split_and!; try done; [by apply Hmono | congruence |].
      intros y Hy Hyp. destruct (Hinv y Hy Hyp) as [Hy' | ->]; [by apply H | lia].
    + right. exists x. split_and!; try done.
      * unfold stale_at, later_than in *. destruct (Kyc.providerUpdatedAt (Kyc.base r0)); [|done]. lia.
      * intros y Hy Hyp. destruct (Hinv y Hy Hyp) as [Hy' | ->]; [|lia]. specialize (H y Hy Hy'). lia.
Qed.

Lemma handle_all_effect ref r0 all l : ∀ s r,
  sound s → findByDiditReference ref s = Some r → side r = side r0 → explained all r0 s r →
  (∀ x, In x l → In x all ∧ wh_sessionId x.1 = ref ∧ accepted r0 x) →
  (∀ x y, In x all → In y all → key_of x = key_of y → x = y) →
  ∃ s' r', handle_all l s = (Ok tt, s') ∧ findByDiditReference ref s' = Some r' ∧ explained all r0 s' r' ∧
    (∀ x, In x l → processed (key_of x) s' = true) ∧ (∀ k, processed k s = true → processed k s' = true).
Proof.
  induction l as [|x l IH]; intros s r Hs Hr Hside Hex Hl Hkey.
  { exists s, r. by split_and!. }
  destruct (Hl x (or_introl eq_refl)) as (Hx & Href & Hacc).
  destruct (handle_effect x s r) as (ans & s1 & r1 & Eh & Hs1 & Hr1 & Hside1 & Hv1 & Hp1).
  { done. } { by rewrite Href. } { by eapply accepted_side, Hacc. }
  rewrite Href in Hr1.
  destruct (IH s1 r1) as (s' & r' & El & Hr' & Hex' & Hall & Hmono).
  { done. } { done. } { congruence. }
  { eapply explained_step; [|exact Hx | exact Hside | exact Hv1 | exact Hp1 | exact Hex]. intros y Hy E. by apply Hkey. }
  { intros y Hy. apply Hl. by right. } { done. }
  exists s', r'. simpl. unfold iobind. rewrite Eh. split_and!; try done.
  - intros y [<-|Hy]; [|by apply Hall]. apply Hmono. rewrite Hp1, bool_decide_eq_true_2 by done. apply orb_true_r.
  - intros k Hk. apply Hmono. by rewrite Hp1, Hk.
Qed.

End Session.

(** C18: However the webhooks of a session arrive, and however often each, the session ends in
    the state the newest of them says. *)
Theorem webhook_order_irrelevant answers c delete_fails s ref r l :
  reachable answers ulid s → findByDiditReference ref s = Some r →
  (∀ x, In x l → wh_sessionId x.1 = ref ∧ accepted c r x ∧ processed (key_of x) s = false) →
  (∀ x y, In x l → In y l → key_of x = key_of y ∨ time_of x = time_of y → x = y) →
  ∃ s' r', handle_all c delete_fails l s = (Ok tt, s') ∧ findByDiditReference ref s' = Some r' ∧
    (∀ x, In x l → (∀ y, In y l → time_of y ≤ time_of x) → stale_at (time_of x) r = false → view r' = verdict r x) ∧
    ((∀ x, In x l → stale_at (time_of x) r = true) → view r' = view r).
Proof.
  intros R%reachable_ok Hr Hl Hsame. destruct R as [Hk Hc _].
  destruct (handle_all_effect c delete_fails ref r l l s r) as (s' & r' & E & Hr' & Hex & Hall & _).
  { done. } { done. } { done. }
  { left. split; [done|]. intros y Hy. destruct (Hl y Hy) as (_ & _ & ->). done. }
  { intros x Hx. by destruct (Hl x Hx) as (? & ? & _). }
  { intros x y Hx Hy Ek. apply Hsame; auto. }
  exists s', r'. split_and!; try done.
  - intros x Hx Hmax Hst. destruct Hex as [[_ H]|(z & Hz & _ & _ & -> & H)].
    + specialize (H x Hx (Hall x Hx)). congruence.
    + assert (z = x) as ->; [|done]. apply Hsame; [done..|]. right. specialize (H x Hx (Hall x Hx)).
      specialize (Hmax z Hz). lia.
  - intros Hst. destruct Hex as [[H _]|(z & Hz & _ & H & _)]; [done|]. rewrite Hst in H; done.
Qed.

(** ** Webhooks delivered again *)

(** Receipts are never lost. *)
Definition grows : relation identity := λ s s', ∀ k, processed k s = true → processed k s' = true.
#[local] Instance grows_preorder : PreOrder grows.
Proof. split; [by intros s k|]. intros a b c Hab Hbc k Hk. by apply Hbc, Hab. Qed.

Lemma grows_keys s s' : map Receipt.eventKey (receipts s') = map Receipt.eventKey (receipts s) → grows s s'.
Proof. intros H k. by rewrite (processed_keys k s s' H). Qed.

Lemma fresh_id_grows p : tx_rel grows (fresh_id ulid p).
Proof. intros s a s'. unfold fresh_id. destruct (fresh _ _ _). intros [= <- <-]. by apply grows_keys. Qed.

Hint Resolve fresh_id_grows : vista.

Lemma history_grows a p n r t : tx_rel grows (history_create ulid a p n r t).
Proof. unfold history_create. walk_tx. apply tx_rel_write. intros s. by apply grows_keys. Qed.

Lemma receipt_grows k c : tx_rel grows (updateReceipt k c).
Proof. apply tx_rel_write. intros s. apply grows_keys, keys_update. Qed.

Lemma update_grows a f : tx_rel grows (update_row a f).
Proof.
  unfold update_row. walk_tx. intros s n s' [(_ & -> & _)|(_ & r & _ & _ & ->)]%updateMany_ok; by apply grows_keys.
Qed.

Hint Resolve history_grows receipt_grows update_grows : vista.

(** What follows a claim keeps it. *)
Lemma claim_kept {A} key action ref changes at_ (k : nat → txn identity A) s b s' :
  (∀ n, tx_rel grows (k n)) → tbind (claim ulid key action ref changes at_) k s = Ok (b, s') → processed key s' = true.
Proof.
  intros Hk H. destruct (claim_effect key action ref changes at_ s) as (s1 & E & _ & _ & Hp).
  unfold tbind in H. rewrite E in H. apply Hk in H. apply H. rewrite Hp, bool_decide_eq_true_2 by done. apply orb_true_r.
Qed.

Lemma unmatched_claims w reason s b s' : unmatched_event ulid w reason s = Ok (b, s') →
  processed (String.append "didit:webhook:" (wh_eventId w)) s' = true.
Proof. apply claim_kept. intros n. walk_tx. Qed.

Lemma apply_claims purpose w target st d s b s' : apply_webhook ulid purpose w target st d s = Ok (b, s') →
  processed (String.append "didit:webhook:" (wh_eventId w)) s' = true.
Proof. destruct purpose; (apply claim_kept; intros n; walk_tx). Qed.

Lemma webhook_receipt c g df w s ans s' : ProcessDiditWebhook_execute ulid c g df w s = (Ok ans, s') →
  processed (String.append "didit:webhook:" (wh_eventId w)) s' = true.
Proof.
  intros H. unfold ProcessDiditWebhook_execute, read in H.
  apply iobind_ok in H as (seen & s0 & [E ->]%query_ok & H). injection E as <-.
  destruct (processed _ s) eqn:Ep; [by apply ret_ok in H as [_ ->]|].
  assert (∀ reason s1, (await _ := transaction (unmatched_event ulid w reason) in ret answer_ignored) s1 = (Ok ans, s') →
    processed (String.append "didit:webhook:" (wh_eventId w)) s' = true) as Hig.
  { intros reason s1 Hi. apply iobind_ok in Hi as (u & s2 & Ht%transaction_ok & [_ ->]%ret_ok). by eapply unmatched_claims. }
  destruct (foreign_webhook c w); [by eapply Hig|]. destruct (webhook_purpose c (wh_workflowId w)) as [p|]; [|by eapply Hig].
  apply iobind_ok in H as (target & s1 & _ & H). destruct target as [target|]; [|by eapply Hig].
  destruct (negb _); [by eapply Hig|]. apply iobind_ok in H as (u & s2 & _ & H).
  apply iobind_ok in H as (decision & s3 & _ & H). destruct (match decision with Some _ => _ | None => _ end); [by eapply Hig|].
  apply iobind_ok in H as (r & s4 & Ht%transaction_ok & [_ ->]%ret_ok). by eapply apply_claims.
Qed.

(** A webhook that has been answered is not acted on again: redelivered, under whatever
    configuration and whatever Didit then answers, it is a duplicate and nothing changes. *)
Theorem answered_webhook_is_final c g df w s ans s' c' g' df' w' :
  ProcessDiditWebhook_execute ulid c g df w s = (Ok ans, s') → wh_eventId w' = wh_eventId w →
  ProcessDiditWebhook_execute ulid c' g' df' w' s' = (Ok answer_duplicate, s').
Proof.
  intros H%webhook_receipt E. unfold ProcessDiditWebhook_execute, iobind, read, query. by rewrite E, H.
Qed.

End Events.
End KycEvents.

(** The jobs of the identity module, to the row: the renewal timer and the recovery of session
    starts that were never finished; and webhooks delivered again. *)

Module KycJobs.
Import DateTime KycPolicy KycRepo KycServices KycMachine KycProps KycEvents.

Notation processed := hasProcessedProviderEvent.

(** ** Folds over the rows of a table *)

Lemma iofold_map {S A B C} (f : A → B → io S A) (g : C → B) l acc s :
  iofold f acc (map g l) s = iofold (λ a x, f a (g x)) acc l s.
Proof.
  revert acc s. induction l as [|x l IH]; intros acc s; [done|]. simpl. unfold iobind.
  destruct (f acc (g x) s) as [[]]; [apply IH | done].
Qed.

Lemma iofold_filter {S A B} (f : A → B → io S A) p l acc s :
  iofold f acc (List.filter p l) s = iofold (λ a x, if p x then f a x else ret a) acc l s.
Proof.
  revert acc s. induction l as [|x l IH]; intros acc s; [done|]. simpl. unfold iobind at 1.
  destruct (p x); simpl; [|apply IH]. unfold iobind. destruct (f acc x s) as [[]]; [apply IH | done].
Qed.

Lemma iofold_omap {S A B C} (f : A → B → io S A) (g : C → option B) l acc s :
  iofold f acc (omap g l) s = iofold (λ a x, match g x with Some y => f a y | None => ret a end) acc l s.
Proof.
  revert acc s. induction l as [|x l IH]; intros acc s; [done|]. simpl. unfold iobind at 1.
  destruct (g x) as [y|]; simpl; [|apply IH]. unfold iobind. destruct (f acc y s) as [[]]; [apply IH | done].
Qed.

Lemma iofold_app {S A B} (f : A → B → io S A) l1 l2 acc s :
  iofold f acc (l1 ++ l2) s = (await a := iofold f acc l1 in iofold f a l2) s.
Proof.
  revert acc s. induction l1 as [|x l1 IH]; intros acc s; [done|]. simpl. unfold iobind in *.
  destruct (f acc x s) as [[a|e] s1]; [apply IH | done].
Qed.

(** A fold whose step rewrites the row it stands on, whatever it does besides. *)
Lemma sweep {A} (body : A → Kyc.t → io identity A) (h : Kyc.t → Kyc.t → Kyc.t) (rel : Kyc.t → Kyc.t → Prop)
    (Inv : list Kyc.t → A → identity → Prop) :
  (∀ n o os s pre c post, Inv (o :: os) n s → rows s = pre ++ c :: post → rel o c →
     ∃ n' s', body n o s = (Ok n', s') ∧ rows s' = pre ++ h o c :: post ∧ Inv os n' s') →
  ∀ os cs, Forall2 rel os cs → ∀ n s pre, Inv os n s → rows s = pre ++ cs →
  ∃ n' s', iofold body n os s = (Ok n', s') ∧ rows s' = pre ++ zip_with h os cs ∧ Inv [] n' s'.
Proof.
  intros Hstep os cs Hrel. induction Hrel as [|o c os cs Hoc _ IH]; intros n s pre Hinv Hrows.
  { exists n, s. by split_and!. }
  destruct (Hstep n o os s pre c cs Hinv Hrows Hoc) as (n1 & s1 & E1 & Hr1 & Hi1).
  destruct (IH n1 s1 (pre ++ [h o c]) Hi1) as (n2 & s2 & E2 & Hr2 & Hi2).
  { by rewrite Hr1, <- app_assoc. }
  exists n2, s2. simpl. unfold iobind. rewrite E1. split_and!; try done. by rewrite Hr2, <- app_assoc.
Qed.

(** An update that names one account changes that account's row. *)
Lemma update_one p f pre c post : keyed (pre ++ c :: post) → p c = true →
  (∀ q, p q = true → Kyc.accountId q = Kyc.accountId c) →
  find_row p (pre ++ c :: post) = Some c ∧ update_where p f (pre ++ c :: post) = pre ++ f c :: post.
Proof.
  intros Hk Hc Hp.
  assert (∀ q, In q (pre ++ c :: post) → p q = true → q = c) as Honly.
  { intros q Hq E. eapply (NoDup_map_inj_in Kyc.accountId); [exact Hk | done | | by apply Hp].
    apply in_app_iff. simpl. tauto. }
  unfold keyed in Hk. rewrite map_app in Hk. simpl in Hk. apply NoDup_remove_2 in Hk.
  assert (∀ q, In q (pre ++ post) → p q = false) as Hno.
  { intros q Hq. destruct (p q) eqn:E; [|done]. exfalso. apply Hk. rewrite <- map_app.
    apply in_map_iff. exists q. split; [by apply Hp | done]. }
  split.
  - rewrite find_row_app. rewrite (proj2 (find_row_None p pre)).
    + unfold find_row. simpl. by rewrite Hc.
    + intros q Hq. apply Hno, in_app_iff. by left.
  - unfold update_where. rewrite map_app. simpl. rewrite Hc. f_equal; [|f_equal].
    + rewrite <- (map_id pre) at 2. apply map_ext_in. intros q Hq. rewrite Hno; [done|]. apply in_app_iff. by left.
    + rewrite <- (map_id post) at 2. apply map_ext_in. intros q Hq. rewrite Hno; [done|]. apply in_app_iff. by right.
Qed.

Lemma sound_replace s s' pre c c' post : sound s → rows s = pre ++ c :: post → rows s' = pre ++ c' :: post →
  Kyc.accountId c' = Kyc.accountId c → kyc_check c' (rows s) = Ok tt → sound s'.
Proof.
  intros Hs E E' Ha Hc. destruct (update_one (of_account (Kyc.accountId c)) (λ _, c') pre c post) as [_ Hu].
  { rewrite <- E. apply Hs. } { apply of_account_refl. } { intros q Hq. by apply bool_decide_eq_true_1 in Hq. }
  eapply (sound_update s (λ _, c') c); [done | | done | done | by rewrite E', E, Hu].
  rewrite E. apply in_app_iff. simpl. tauto.
Qed.

Section Jobs.
Context (ulid : nat → string).

(** ** The renewal timer *)

(** What is due of a row: nothing, the transition, or a reminder. *)
Inductive Duty := idle | transition | remind (to : string) (due : Z).

Definition duty (now leadDays : Z) (b : db) (r : Kyc.t) : Duty :=
  match Kyc.state r, Kyc.renewalDueAt (Kyc.base r) with
  | eligible, Some due =>
      if due <? now then transition
      else match find_account (Kyc.accountId r) b ≫= Account.contactEmail with
           | Some to => if Day now =? Day due - leadDays then remind to due else idle
           | None => idle
           end
  | _, _ => idle
  end.

Definition is_due (d : Duty) : bool := match d with transition => true | _ => false end.
Definition is_idle (d : Duty) : bool := match d with idle => true | _ => false end.
Definition reminder (d : Duty) : option (string * Z) := match d with remind to due => Some (to, due) | _ => None end.

Lemma transition_effect a t at_ s pre c post : sound s → rows s = pre ++ c :: post → Kyc.accountId c = a →
  Kyc.state c = eligible →
  ∃ s', transitionToRequiresRenewal ulid a t at_ s = Ok (true, s') ∧ rows s' = pre ++ renewal_row at_ c :: post ∧
    outbox s' = outbox s ∧ accounts (kbase s') = accounts (kbase s).
Proof.
  intros [Hk Hc] E Ha He. subst a. destruct (update_one (eligible_row (Kyc.accountId c)) (renewal_row at_) pre c post) as [Hf Hu].
  { by rewrite <- E. }
  { unfold eligible_row. rewrite of_account_refl, bool_decide_eq_true_2; done. }
  { intros q Hq. unfold eligible_row, of_account in Hq. by boolify. }
  unfold transitionToRequiresRenewal, updateMany, tbind. rewrite E, Hf.
  rewrite (check_kept _ c) by first [done | rewrite <- E; apply Hc; rewrite E; apply in_app_iff; simpl; tauto].
  simpl. eexists. split; [done|]. simpl. by rewrite Hu.
Qed.

Definition count (p : Kyc.t → bool) (l : list Kyc.t) : nat := length (List.filter p l).

Section Renewal.
Context (deliver : string → result unit) (traceId : string) (now leadDays : Z) (b : db) (out : list (string * Z)) (total : nat).
Context (delivers : ∀ to, deliver to = Ok tt).

Definition renew_row (n : nat) (r : Kyc.t) : io identity nat :=
  match duty now leadDays b r with
  | idle => ret n
  | transition => await t := Prelude.transaction (transitionToRequiresRenewal ulid (Kyc.accountId r) traceId now) in
      ret (if t : bool then S n else n)
  | remind to due => await _ := sendKycRenewalReminderEmail deliver to due in ret (S n)
  end.

(** [renew_row] is the body of the loop at that row. *)
Lemma renew_row_one n r s : b = kbase s → ∀ s1,
  match renewal_account s r with Some y => renew_one ulid deliver traceId now leadDays n y | None => ret n end s1 = renew_row n r s1.
Proof.
  intros Eb s1. unfold renewal_account, renew_row, duty. rewrite Eb. destruct (Kyc.state r); try done.
  destruct (Kyc.renewalDueAt (Kyc.base r)) as [due|]; [|done]. unfold renew_one, isRenewalOverdue. cbn [ra_renewalDueAt ra_contactEmail ra_accountId].
  destruct (due <? now); [done|]. destruct (find_account _ _ ≫= _) as [to|]; [|done].
  destruct (isRenewalReminderDue due now leadDays) eqn:E; cbn [negb].
  - apply reminder_day in E. by rewrite (proj2 (Z.eqb_eq _ _) E).
  - destruct (Day now =? Day due - leadDays) eqn:E'; [|done]. apply Z.eqb_eq, reminder_day in E'. congruence.
Qed.

Definition renewing (os : list Kyc.t) (n : nat) (s : identity) : Prop :=
  sound s ∧ outbox s ++ omap (λ r, reminder (duty now leadDays b r)) os = out ∧
  (n + count (λ r, negb (is_idle (duty now leadDays b r))) os = total)%nat.

Definition renewed (r : Kyc.t) : Kyc.t := if is_due (duty now leadDays b r) then renewal_row now r else r.

Lemma renew_step n o os s pre c post : renewing (o :: os) n s → rows s = pre ++ c :: post → o = c →
  ∃ n' s', renew_row n o s = (Ok n', s') ∧ rows s' = pre ++ renewed o :: post ∧ renewing os n' s'.
Proof.
  intros (Hs & Hout & Hn) E <-. unfold count in Hn. simpl in Hout, Hn. unfold renew_row, renewed.
  destruct (duty now leadDays b o) as [| |to due] eqn:Ed; simpl in *.
  - by exists n, s.
  - assert (Kyc.state o = eligible) as He by (unfold duty in Ed; by destruct (Kyc.state o)).
    destruct (transition_effect (Kyc.accountId o) traceId now s pre o post) as (s' & Et & Hr & Ho & _); [done..|].
    exists (S n), s'. unfold iobind, Prelude.transaction. rewrite Et. split; [done|]. split; [done|].
    split_and!; [|by rewrite Ho|unfold count; lia].
    eapply sound_replace; [exact Hs | exact E | exact Hr | done |].
    apply (check_kept _ o); [|done..]. apply Hs. rewrite E. apply in_app_iff. simpl. tauto.
  - eexists (S n), _. unfold iobind, sendKycRenewalReminderEmail. rewrite delivers. split; [done|].
    split; [done|]. split_and!; [done | simpl; by rewrite <- app_assoc | unfold count; lia].
Qed.

End Renewal.

Lemma zip_same {A} (h : A → A) (l : list A) : zip_with (λ o _, h o) l l = map h l.
Proof. induction l as [|x l IH]; [done|]. simpl. by rewrite IH. Qed.

Lemma iofold_ext {S A B} (f g : A → B → io S A) l : (∀ a x s, f a x s = g a x s) → ∀ a s, iofold f a l s = iofold g a l s.
Proof.
  intros H. induction l as [|x l IH]; intros a s; [done|]. simpl. unfold iobind. rewrite H.
  by destruct (g a x s) as [[]].
Qed.

(** The renewal timer does exactly its job: it finishes, every eligible account whose renewal date
    has passed now needs renewal and may start a session, no other row changes, and the reminders sent
    are those due that day. *)
Theorem renewal_timer_exact answers deliver traceId now leadDays s :
  reachable answers ulid s → getRenewalReminderLeadDays s = Ok leadDays → (∀ to, deliver to = Ok tt) →
  let due r := duty now leadDays (kbase s) r in
  ∃ s', RunKycRenewalTimer_execute ulid deliver traceId now s =
      (Ok (mkSummary (length (listEligibleAccountsForRenewalTimer s)) (count (λ r, negb (is_idle (due r))) (rows s))), s') ∧
    rows s' = update_where (λ r, is_due (due r)) (renewal_row now) (rows s) ∧
    outbox s' = outbox s ++ omap (λ r, reminder (due r)) (rows s) ∧
    ∀ r, In r (rows s) → is_due (due r) = true → canStartSession (Kyc.substatus (renewal_row now r)) = true.
Proof.
  intros R%reachable_ok Hlead Hd due. destruct R as [Hk Hc _].
  destruct (sweep (renew_row deliver traceId now leadDays (kbase s)) (λ o c, renewed now leadDays (kbase s) o) eq
    (renewing now leadDays (kbase s) (outbox s ++ omap (λ r, reminder (due r)) (rows s))
       (count (λ r, negb (is_idle (due r))) (rows s)))) with (os := rows s) (cs := rows s) (n := 0%nat) (s := s)
       (pre := @nil Kyc.t) as (n' & s' & E & Hr & Hs & Ho & Hn).
  { intros n o os s1 pre c post Hi E Eo. by apply (renew_step _ _ _ _ _ _ _ Hd n o os s1 pre c post). }
  { by apply Forall2_same. } { by split_and!. } { done. }
  exists s'. split_and!.
  - unfold RunKycRenewalTimer_execute, iobind, read, query. rewrite Hlead.
    unfold listEligibleAccountsForRenewalTimer at 1. rewrite iofold_omap.
    rewrite (iofold_ext _ (renew_row deliver traceId now leadDays (kbase s))), E by (intros; by apply renew_row_one).
    unfold ret. simpl in Hn. by replace n' with (count (λ r, negb (is_idle (due r))) (rows s)) by (unfold count in *; simpl in *; lia).
  - rewrite Hr. simpl. apply zip_same.
  - simpl in Ho. by rewrite app_nil_r in Ho.
  - done.
Qed.

(** ** Session starts that were never finished *)

Lemma fail_effect a t now s pre c post : sound s → rows s = pre ++ c :: post → Kyc.accountId c = a →
  Kyc.substatus c = kyc_session_creating →
  processed (String.append "didit:session_start_failed:" (template (start_ref c))) s = false →
  let c' := Kyc.set_base (Kyc.set_substatus kyc_session_creation_failed (Kyc.base c)) now c in
  ∃ s', failSessionStart ulid a (start_ref c) t now s = Ok (tt, s') ∧ rows s' = pre ++ c' :: post ∧
    (∀ k, processed k s' = processed k s || bool_decide (String.append "didit:session_start_failed:" (template (start_ref c)) = k)).
Proof.
  intros [Hk Hc] E Ha Hst Hp c'. subst a.
  destruct (update_one (creating_row (Kyc.accountId c) (start_ref c))
    (λ r, Kyc.set_base (Kyc.set_substatus kyc_session_creation_failed (Kyc.base r)) now r) pre c post) as [Hf Hu].
  { by rewrite <- E. }
  { unfold creating_row. rewrite of_account_refl, !bool_decide_eq_true_2; done. }
  { intros q Hq. unfold creating_row, of_account in Hq. by boolify. }
  unfold failSessionStart, updateMany, tbind. rewrite E, Hf.
  rewrite (check_kept _ c) by first [done | rewrite <- E; apply Hc; rewrite E; apply in_app_iff; simpl; tauto].
  unfold hasProcessedProviderEvent in Hp. simpl. unfold audit_keyed, tbind, tprim. simpl. rewrite Hp. simpl.
  eexists. split; [done|]. simpl. split; [by rewrite Hu|]. intros k. unfold hasProcessedProviderEvent, exists_row. simpl.
  rewrite existsb_app. simpl. by rewrite orb_false_r.
Qed.

Lemma poa_failed_check now c l : kyc_check c l = Ok tt →
  kyc_check (Kyc.set_poa (Kyc.set_poaStatus ProofOfAddress.creation_failed (Kyc.poa c)) now c) l = Ok tt.
Proof.
  intros (Hf & ? & ? & ?)%kyc_check_iff. apply kyc_check_iff. split; [|done]. intros f Hin. specialize (Hf f Hin).
  unfold unique_columns in Hin. simpl in Hin. destruct Hin as [<-|[<-|[<-|[<-|[]]]]]; exact Hf.
Qed.

Lemma poa_fail_effect a t now s pre c post : sound s → rows s = pre ++ c :: post → Kyc.accountId c = a →
  Kyc.poaStatus (Kyc.poa c) = ProofOfAddress.creating →
  processed (String.append "didit:poa_session_start_failed:" (template (poa_start_ref c))) s = false →
  let c' := Kyc.set_poa (Kyc.set_poaStatus ProofOfAddress.creation_failed (Kyc.poa c)) now c in
  ∃ s', failProofOfAddressSessionStart ulid a (poa_start_ref c) t now s = Ok (tt, s') ∧ rows s' = pre ++ c' :: post ∧
    (∀ k, processed k s' = processed k s || bool_decide (String.append "didit:poa_session_start_failed:" (template (poa_start_ref c)) = k)).
Proof.
  intros [Hk Hc] E Ha Hst Hp c'. subst a.
  destruct (update_one (poa_creating_row (Kyc.accountId c) (poa_start_ref c))
    (λ r, Kyc.set_poa (Kyc.set_poaStatus ProofOfAddress.creation_failed (Kyc.poa r)) now r) pre c post) as [Hf Hu].
  { by rewrite <- E. }
  { unfold poa_creating_row. rewrite of_account_refl, !bool_decide_eq_true_2; done. }
  { intros q Hq. unfold poa_creating_row, of_account in Hq. by boolify. }
  unfold failProofOfAddressSessionStart, updateMany, tbind. rewrite E, Hf.
  rewrite (poa_failed_check now c) by (rewrite <- E; apply Hc; rewrite E; apply in_app_iff; simpl; tauto).
  unfold hasProcessedProviderEvent in Hp. simpl. unfold audit_keyed, tbind, tprim. simpl. rewrite Hp. simpl.
  eexists. split; [done|]. simpl. split; [by rewrite Hu|]. intros k. unfold hasProcessedProviderEvent, exists_row. simpl.
  rewrite existsb_app. simpl. by rewrite orb_false_r.
Qed.

(** One pass of the job, for either kind of session. *)
Section Pass.
Context (creating : Kyc.t → bool) (ref : Kyc.t → option string) (prefix : string) (failed : Kyc.t → Kyc.t)
  (fail : string → option string → txn identity unit) (now timeoutMs : Z).
Context (storable : ∀ c l, kyc_check c l = Ok tt → kyc_check (failed c) l = Ok tt)
  (same_account : ∀ c, Kyc.accountId (failed c) = Kyc.accountId c).

Definition failure_key (r : Kyc.t) : string := String.append prefix (template (ref r)).

Context (fails : ∀ a s pre c post, sound s → rows s = pre ++ c :: post → Kyc.accountId c = a → creating c = true →
  processed (failure_key c) s = false →
  ∃ s', fail a (ref c) s = Ok (tt, s') ∧ rows s' = pre ++ failed c :: post ∧
    (∀ k, processed k s' = processed k s || bool_decide (failure_key c = k))).

Definition stuck (r : Kyc.t) : bool := creating r && isSessionStuck (Kyc.updatedAt r) now timeoutMs.

Definition pass (n : nat) (o : Kyc.t) : io identity nat :=
  if stuck o then await _ := Prelude.transaction (fail (Kyc.accountId o) (ref o)) in ret (S n) else ret n.

(** The current row still has what the listed row said of this kind of session. *)
Definition listed (o c : Kyc.t) : Prop := Kyc.accountId c = Kyc.accountId o ∧ creating c = creating o ∧ ref c = ref o.

Definition passing (known : string → bool) (total : nat) (os : list Kyc.t) (n : nat) (s : identity) : Prop :=
  sound s ∧ (∀ o, In o os → creating o = true → processed (failure_key o) s = false) ∧
  List.NoDup (map failure_key (List.filter creating os)) ∧ (n + count stuck os = total)%nat ∧
  (∀ k, processed k s = true → known k = true ∨ String.prefix prefix k = true).

Lemma prefix_append p x : String.prefix p (String.append p x) = true.
Proof. induction p as [|c p IH]; [by destruct x|]. simpl. by destruct (ascii_dec c c). Qed.

Lemma pass_step known total n o os s pre c post :
  passing known total (o :: os) n s → rows s = pre ++ c :: post → listed o c →
  ∃ n' s', pass n o s = (Ok n', s') ∧ rows s' = pre ++ (if stuck o then failed c else c) :: post ∧
    passing known total os n' s'.
Proof.
  intros (Hs & Hp & Hnd & Hn & Hk) E (Ha & Hcr & Href). unfold pass, count in *. simpl in Hn, Hnd.
  assert (List.NoDup (map failure_key (List.filter creating os))) as Hnd'
    by (destruct (creating o); [by apply List.NoDup_cons_iff in Hnd as [_ ?] | done]).
  destruct (stuck o) eqn:Es.
  - unfold stuck in Es. apply andb_true_iff in Es as [Ec _]. rewrite Ec in *.
    assert (failure_key c = failure_key o) as Hfk by (unfold failure_key; by rewrite Href).
    destruct (fails (Kyc.accountId o) s pre c post) as (s' & Ef & Hr & Hp'); [done..| |].
    { rewrite Hfk. apply Hp; [by left | done]. }
    rewrite Href in Ef. exists (S n), s'. unfold iobind, Prelude.transaction. rewrite Ef. split; [done|]. split; [done|].
    split_and!; [ | | done | unfold count; simpl in Hn; lia | ].
    + eapply sound_replace; [exact Hs | exact E | exact Hr | apply same_account |].
      apply storable, Hs. rewrite E. apply in_app_iff. simpl. tauto.
    + intros q Hq Ecq. rewrite Hp', (Hp q) by (done || by right). apply bool_decide_eq_false_2. rewrite Hfk. intros Eq.
      simpl in Hnd. apply List.NoDup_cons_iff in Hnd as [Hnot _]. apply Hnot. rewrite Eq. apply in_map, filter_In. done.
    + intros k. rewrite Hp'. intros [H|H]%orb_true_iff; [by apply Hk|]. right. apply bool_decide_eq_true_1 in H as <-.
      apply prefix_append.
  - exists n, s. split; [done|]. split; [done|]. split_and!; try done. intros q Hq. apply Hp. by right.
Qed.

Lemma pass_all known os cs n s : Forall2 listed os cs → rows s = cs → sound s →
  (∀ o, In o os → creating o = true → processed (failure_key o) s = false) →
  List.NoDup (map failure_key (List.filter creating os)) → (∀ k, processed k s = true → known k = true) →
  ∃ s', iofold pass n os s = (Ok (n + count stuck os)%nat, s') ∧
    rows s' = zip_with (λ o c, if stuck o then failed c else c) os cs ∧ sound s' ∧
    (∀ k, processed k s' = true → known k = true ∨ String.prefix prefix k = true).
Proof.
  intros Hl Hr Hs Hp Hnd Hk.
  destruct (sweep pass (λ o c, if stuck o then failed c else c) listed (passing known (n + count stuck os))
    (pass_step known _) os cs Hl n s []) as (n' & s' & E & Hr' & Hs' & _ & _ & Hn & Hk').
  { split_and!; try done. intros k H. left. by apply Hk. } { done. }
  exists s'. split_and!; try done. rewrite E. unfold count in *. simpl in Hn. by rewrite Nat.add_0_r in Hn; subst n'.
Qed.

End Pass.

Lemma failure_keys_distinct creating ref prefix l : In ref unique_columns → keyed l → checked l →
  (∀ r, In r l → creating r = true → is_Some (ref r)) →
  List.NoDup (map (failure_key ref prefix) (List.filter creating l)).
Proof.
  intros Hcol Hk Hc Hsome. apply NoDup_map_NoDup_ForallPairs.
  - intros x y [Hx Cx]%filter_In [Hy Cy]%filter_In E. apply append_inj_l in E.
    destruct (Hsome x Hx Cx) as [i Ex]. destruct (Hsome y Hy Cy) as [j Ey]. rewrite Ex, Ey in E. simpl in E. subst j.
    eapply (NoDup_map_inj_in Kyc.accountId); [exact Hk | done | done |].
    destruct (decide (Kyc.accountId x = Kyc.accountId y)) as [|Hne]; [done|]. exfalso.
    pose proof (proj1 (proj1 (kyc_check_iff _ _) (Hc x Hx)) ref Hcol) as Ht.
    by apply (taken_false _ _ _ _ Ht Ex y Hy (not_eq_sym Hne)).
  - apply List.NoDup_filter. by eapply NoDup_map_inv.
Qed.

Definition creating_kyc (r : Kyc.t) : bool := bool_decide (Kyc.substatus r = kyc_session_creating).
Definition creating_poa (r : Kyc.t) : bool := bool_decide (Kyc.poaStatus (Kyc.poa r) = ProofOfAddress.creating).
Definition failed_kyc (now : Z) (r : Kyc.t) : Kyc.t :=
  Kyc.set_base (Kyc.set_substatus kyc_session_creation_failed (Kyc.base r)) now r.
Definition failed_poa (now : Z) (r : Kyc.t) : Kyc.t :=
  Kyc.set_poa (Kyc.set_poaStatus ProofOfAddress.creation_failed (Kyc.poa r)) now r.

(** What the job leaves of a row: either start that has been pending for too long has failed. *)
Definition recovered (now timeoutMs : Z) (r : Kyc.t) : Kyc.t :=
  let r1 := if stuck creating_kyc now timeoutMs r then failed_kyc now r else r in
  if stuck creating_poa now timeoutMs r then failed_poa now r1 else r1.

(** No start that is still pending has been recorded as failed: start ids are not used twice. *)
Definition unfailed (s : identity) : Prop := ∀ r, In r (rows s) →
  (creating_kyc r = true → processed (failure_key start_ref "didit:session_start_failed:" r) s = false) ∧
  (creating_poa r = true → processed (failure_key poa_start_ref "didit:poa_session_start_failed:" r) s = false).

Lemma stuck_count creating (g : Kyc.t → StuckCreation) now timeoutMs l : (∀ r, sc_updatedAt (g r) = Kyc.updatedAt r) →
  length (List.filter (λ x, isSessionStuck (sc_updatedAt x) now timeoutMs) (map g (List.filter creating l))) =
  count (stuck creating now timeoutMs) l.
Proof.
  intros Hg. unfold count, stuck. induction l as [|x l IH]; [done|]. simpl. destruct (creating x); simpl; [|done].
  rewrite Hg. destruct (isSessionStuck _ _ _); simpl; by rewrite IH.
Qed.

(** The recovery of stuck session starts does exactly its job: it finishes, every start that has been
    pending for the timeout has failed, whichever its kind, the account can start again, and no other row
    changes. *)
Theorem stuck_starts_recovered answers traceId now timeoutMs s : reachable answers ulid s → unfailed s →
  let late := stuck creating_kyc now timeoutMs in let late_poa := stuck creating_poa now timeoutMs in
  let acted := (count late (rows s) + count late_poa (rows s))%nat in
  ∃ s', ExpireStuckSessionCreations_execute ulid traceId now timeoutMs s =
      (Ok (mkStuckSummary (count creating_kyc (rows s) + count creating_poa (rows s))%nat acted acted), s') ∧
    rows s' = map (recovered now timeoutMs) (rows s) ∧
    ∀ r, In r (rows s) →
      (late r = true → canStartSession (Kyc.substatus (recovered now timeoutMs r)) = true) ∧
      (late_poa r = true → Kyc.poaStatus (Kyc.poa (recovered now timeoutMs r)) = ProofOfAddress.creation_failed) ∧
      (late r = false → late_poa r = false → recovered now timeoutMs r = r).
Proof.
  intros R%reachable_ok Hun late late_poa acted. destruct R as [Hk Hc Hrow].
  destruct (pass_all creating_kyc start_ref "didit:session_start_failed:" (failed_kyc now)
    (λ a i, failSessionStart ulid a i traceId now) now timeoutMs) with
    (known := λ k, processed k s) (os := rows s) (cs := rows s) (n := 0%nat) (s := s)
    as (s1 & E1 & Hr1 & Hs1 & Hk1).
  { intros c l H. by apply (check_kept _ c). }
  { done. }
  { intros a s0 pre c post H1 H2 H3 H4%bool_decide_eq_true_1 H5. by apply fail_effect. }
  { apply Forall2_same. by intros x. } { done. } { done. }
  { intros o Ho. by apply (Hun o Ho). }
  { apply failure_keys_distinct; [simpl; tauto | done | done |]. intros r Hr E%bool_decide_eq_true_1. by apply Hrow. }
  { done. }
  destruct (pass_all creating_poa poa_start_ref "didit:poa_session_start_failed:" (failed_poa now)
    (λ a i, failProofOfAddressSessionStart ulid a i traceId now) now timeoutMs) with
    (known := λ k, processed k s1) (os := rows s) (cs := rows s1) (n := count late (rows s)) (s := s1)
    as (s2 & E2 & Hr2 & Hs2 & Hk2).
  { intros c l H. by apply poa_failed_check. }
  { done. }
  { intros a s0 pre c post H1 H2 H3 H4%bool_decide_eq_true_1 H5. by apply poa_fail_effect. }
  { rewrite Hr1. clear. induction (rows s) as [|x l IH]; simpl; constructor; [|exact IH]. by case_match. }
  { done. } { done. }
  { intros o Ho Hco. destruct (processed _ s1) eqn:Ep; [|done]. destruct (Hk1 _ Ep) as [H|H]; [|done].
    by rewrite (proj2 (Hun o Ho) Hco) in H. }
  { apply failure_keys_distinct; [simpl; tauto | done | done |]. intros r Hr E%bool_decide_eq_true_1. by apply Hrow. }
  { done. }
  cbn [Nat.add] in E1. fold late in E1.
  exists s2. split_and!.
  - unfold ExpireStuckSessionCreations_execute, iobind, read, query.
    unfold listStuckSessionCreationsForTimer at 1. rewrite iofold_app. unfold iobind.
    rewrite iofold_map, iofold_filter.
    rewrite (iofold_ext _ (pass creating_kyc start_ref (λ a i, failSessionStart ulid a i traceId now) now timeoutMs)), E1
      by (intros a x st; unfold pass, stuck, creating_kyc, expire_creation; cbn [sc_updatedAt sc_kind sc_accountId sc_sessionStartId];
          destruct (bool_decide _); [|done]; by destruct (isSessionStuck _ _ _)).
    rewrite iofold_map, iofold_filter.
    rewrite (iofold_ext _ (pass creating_poa poa_start_ref (λ a i, failProofOfAddressSessionStart ulid a i traceId now) now timeoutMs)), E2
      by (intros a x st; unfold pass, stuck, creating_poa, expire_creation; cbn [sc_updatedAt sc_kind sc_accountId sc_sessionStartId];
          destruct (bool_decide _); [|done]; by destruct (isSessionStuck _ _ _)).
    unfold ret, listStuckSessionCreationsForTimer. rewrite List.filter_app, !length_app, !length_map, !stuck_count by done. done.
  - rewrite Hr2, Hr1. clear. unfold recovered. induction (rows s) as [|x l IH]; [done|]. simpl. by rewrite IH.
  - intros r Hr. unfold recovered. split_and!.
    + intros E. fold (late r). rewrite E. by destruct (stuck creating_poa _ _ r).
    + intros E. fold (late_poa r). by rewrite E.
    + intros E1' E2'. fold (late r) (late_poa r). by rewrite E1', E2'.
Qed.

End Jobs.
End KycJobs.

(** A customer who verifies, is renewed and restarts: concrete runs of the identity services on
    which the claims of [KycProps], [KycEvents] and [KycJobs] apply, and the runs behind the findings. *)

Module KycDemo.
Import KycPolicy KycRepo KycServices KycMachine KycProps KycEvents KycJobs.

Notation ulid := OfferingDemo.demo_ulid.

Definition k0 : identity := mkIdentity
  (OfferingInv.empty_db [Account.mk "alice" acc_active [passkey] (Some "alice@example.com") []; Account.mk "bob" acc_active [passkey] (Some "bob@example.com") []] [] [] [])
  [] [] [] [("identity.kyc_renewal_reminder_lead_days", JObj [("days", JNum 30)])] [] ∅.

Definition ok_feature := mkFeature "Approved" [].

(** Didit's answer for a session of [who], at some status. *)
Definition decision (ref who : string) (st : DiditStatus) : DiditDecisionSummary :=
  mkDecision ref (Some user_session) (Some "wf") (Some who) (Some st) None None
    (Some (mkVerifiedProfile "Alice" "Archer" "Alice Archer" None))
    [KycPolicy.mkIdentity ok_feature (Some "1950-01-01")] [ok_feature] [ok_feature] [mkAml ok_feature (Some 0)] [].

Definition answers (ref : string) (d : DiditDecisionSummary) : Prop := ∃ who st, d = decision ref who st.

Definition config := mkWebhookConfiguration "wf" "app" "live" None.

Definition session (ref who : string) := mkSession ref "https://verify" NotStarted "wf" who.

Definition start (who i ref : string) (at_ : Z) : io identity StartedSession :=
  StartKycSession_execute ulid who "trace" "FR" "FR" "wf" i (Ok (session ref who)) false at_ at_ at_.

(** A webhook: event id, account, session, status and second. *)
Definition webhook (id_ who ref status : string) (second : Z) : WebhookBody :=
  mkWebhook id_ "status.updated" "app" "live" ref (Some "user") (Some "wf") (Some who) status second "trace".

Definition at_status (who : string) (st : DiditStatus) : string → result DiditDecisionSummary :=
  λ ref, Ok (decision ref who st).

Lemma at_status_honest who st : honest answers (at_status who st).
Proof. intros ref d [= <-]. by exists who, st. Qed.

Definition process (w : WebhookBody) (st : DiditStatus) : io identity WebhookAnswer :=
  ProcessDiditWebhook_execute ulid config (at_status "alice" st) false w.

Definition k1 : identity := (start "alice" "start_1" "sess_1" 1000 k0).2.
Definition k2 : identity := (process (webhook "e1" "alice" "sess_1" "Approved" 2) Approved k1).2.

Lemma reach_k0 : reachable answers ulid k0.
Proof. by exists k0. Qed.

Lemma reach_io {A} (m : io identity A) s : reachable answers ulid s → io_rel (rtc (commits answers ulid)) m → reachable answers ulid (m s).2.
Proof. intros (s0 & E & H) Hm. exists s0. split; [done|]. etrans; [done | apply Hm]. Qed.

Lemma reach_k1 : reachable answers ulid k1.
Proof. exact (reach_io _ k0 reach_k0 (start_runs answers ulid _ _ _ _ _ _ _ _ _ _ _)). Qed.

Lemma reach_k2 : reachable answers ulid k2.
Proof. exact (reach_io _ k1 reach_k1 (process_webhook_runs answers ulid _ _ _ _ (at_status_honest _ _))). Qed.

Lemma eligible_accounts_were_approved_witness :
  ∃ r, In r (rows k2) ∧ Kyc.state r = eligible ∧ approved_by_didit answers r.
Proof.
  destruct (rows k2) as [|r l] eqn:E; [by vm_compute in E|].
  assert (In r (rows k2)) as Hr by (rewrite E; by left).
  assert (Kyc.state r = eligible) as He by (vm_compute in E; injection E as <- _; reflexivity).
  exists r. split; [rewrite <- E; exact Hr|]. split; [exact He|].
  exact (proj1 (proj2 (proj1 (eligible_accounts_were_approved answers ulid k2 reach_k2) r Hr)) He).
Defined.

(** Redelivered after it was applied. *)
Lemma answered_webhook_is_final_witness :
  process (webhook "e1" "alice" "sess_1" "Approved" 2) Declined k2 = (Ok answer_duplicate, k2).
Proof.
  apply (answered_webhook_is_final ulid config (at_status "alice" Approved) false (webhook "e1" "alice" "sess_1" "Approved" 2)
    k1 answer_received k2); [vm_compute; reflexivity | reflexivity].
Defined.

(** Three webhooks of alice's session, delivered newest first and one of them twice. *)
Definition deliveries : list (WebhookBody * (string → result DiditDecisionSummary)) :=
  [(webhook "e3" "alice" "sess_1" "Approved" 5, at_status "alice" Approved);
   (webhook "e2" "alice" "sess_1" "In Progress" 3, at_status "alice" InProgress);
   (webhook "e3" "alice" "sess_1" "Approved" 5, at_status "alice" Approved)].

Lemma webhook_order_irrelevant_witness :
  ∃ r s' r', findByDiditReference "sess_1" k1 = Some r ∧ handle_all ulid config false deliveries k1 = (Ok tt, s') ∧
    findByDiditReference "sess_1" s' = Some r' ∧
    view r' = verdict r (webhook "e3" "alice" "sess_1" "Approved" 5, at_status "alice" Approved).
Proof.
  destruct (findByDiditReference "sess_1" k1) as [r|] eqn:E; [|vm_compute in E; discriminate E].
  destruct (webhook_order_irrelevant ulid answers config false k1 "sess_1" r deliveries reach_k1 E) as (s' & r' & H1 & H2 & H3 & _).
  - vm_compute in E. injection E as <-. intros x [<-|[<-|[<-|[]]]];
      (split; [reflexivity|]; split; [|vm_compute; reflexivity]; constructor; [vm_compute; reflexivity..|]; intros Hf;
       first [vm_compute in Hf; discriminate Hf | eexists; split; [reflexivity | vm_compute; reflexivity]]).
  - intros x y [<-|[<-|[<-|[]]]] [<-|[<-|[<-|[]]]]; intros [H|H]; solve [reflexivity | vm_compute in H; discriminate H].
  - exists r, s', r'. split; [reflexivity|]. split; [exact H1|]. split; [exact H2|].
    apply H3; [by left | intros y [<-|[<-|[<-|[]]]]; vm_compute; discriminate | vm_compute in E; injection E as <-; vm_compute; reflexivity].
Defined.

(** Two years after. *)
Definition year : Z := 366 * 86400000.

Lemma renewal_timer_exact_witness :
  ∃ s', RunKycRenewalTimer_execute ulid (λ _, Ok tt) "trace" (2 * year + 10000) k2 = (Ok (OfferingServices.mkSummary 1 1), s') ∧
    map Kyc.state (rows s') = [requires_renewal].
Proof.
  destruct (renewal_timer_exact ulid answers (λ _, Ok tt) "trace" (2 * year + 10000) 30 k2 reach_k2) as (s' & H1 & H2 & _);
    [vm_compute; reflexivity | intros; reflexivity |].
  exists s'. split; [rewrite H1; vm_compute; reflexivity | rewrite H2; vm_compute; reflexivity].
Defined.

(** Bob's request died between the reservation of his start and its completion. *)
Definition k_stuck : identity :=
  (transaction (reserveSessionStart "bob" "start_9" "FR" "FR" 3000) k2).2.

Lemma reach_stuck : reachable answers ulid k_stuck.
Proof. apply reach_io; [exact reach_k2|]. apply commit_io. constructor. Qed.

Lemma stuck_starts_recovered_witness :
  ∃ s', ExpireStuckSessionCreations_execute ulid "trace" 1000000 KYC_CREATING_STUCK_TIMEOUT_MS k_stuck = (Ok (mkStuckSummary 1 1 1), s') ∧
    map Kyc.substatus (rows s') = [kyc_verified_owner_poa_missing; kyc_session_creation_failed].
Proof.
  destruct (stuck_starts_recovered ulid answers "trace" 1000000 KYC_CREATING_STUCK_TIMEOUT_MS k_stuck reach_stuck) as (s' & H1 & H2 & _).
  - intros r Hr. vm_compute in Hr. destruct Hr as [<-|[<-|[]]]; split; intros H; try (vm_compute in H; discriminate H);
      vm_compute; reflexivity.
  - exists s'. split; [rewrite H1; vm_compute; reflexivity | rewrite H2; vm_compute; reflexivity].
Defined.

(** ** Findings *)

(** The same two webhooks, in order and out of order: out of order, the manual review is forgotten
    and the account is renewed after 24 months instead of 12. *)
Theorem late_review_is_forgotten :
  let review := process (webhook "e1" "alice" "sess_1" "In Review" 2) InReview in
  let approval := process (webhook "e2" "alice" "sess_1" "Approved" 3) Approved in
  let flags s := map (λ r, (Kyc.state r, Kyc.everRequiredManualReview (Kyc.base r), Kyc.renewalDueAt (Kyc.base r))) (rows s) in
  flags (approval (review k1).2).2 = [(eligible, true, Some (months_after 12 3000))] ∧
  flags (review (approval k1).2).2 = [(eligible, false, Some (months_after 24 3000))].
Proof. split; vm_compute; reflexivity. Qed.

(** A session the customer began whose last webhook was lost: a year later the reconciliation does not
    list it, though Didit would answer that it was approved, neither job changes anything, and a new session
    is refused. *)
Theorem begun_session_is_stranded :
  let s := (process (webhook "e1" "alice" "sess_1" "In Progress" 2) InProgress k1).2 in
  map Kyc.substatus (rows s) = [kyc_pending] ∧
  ReconcileStuckOpenSessions_execute ulid (at_status "alice" Approved) ulid "trace" year KYC_OPEN_RECONCILIATION_THRESHOLD_MS s
    = (Ok (mkStuckSummary 0 0 0), s) ∧
  ExpireStuckSessionCreations_execute ulid "trace" year KYC_CREATING_STUCK_TIMEOUT_MS s = (Ok (mkStuckSummary 0 0 0), s) ∧
  start "alice" "start_2" "sess_2" year s = (Err sessionUnavailableError, s).
Proof. split; [|split; [|split]]; vm_compute; reflexivity. Qed.

(** Restarting after renewal writes a history row that does not follow from the one before it. *)
Theorem history_does_not_chain :
  let s := (RunKycRenewalTimer_execute ulid (λ _, Ok tt) "trace" (2 * year + 10000) k2).2 in
  let s' := (start "alice" "start_2" "sess_2" (2 * year + 20000) s).2 in
  map Kyc.state (rows s) = [requires_renewal] ∧
  map (λ h, (KycHistory.previousState h, KycHistory.newState h)) (history s') =
    [(not_started, not_started); (not_started, eligible); (eligible, requires_renewal); (not_started, not_started)].
Proof. split; vm_compute; reflexivity. Qed.

(** A reminder that cannot be sent stops the run before the accounts after it: bob's renewal is overdue and he
    stays eligible. *)
Theorem failed_reminder_stops_renewals :
  let s1 := (start "bob" "start_9" "sess_9" 1500 k1).2 in
  let s2 := (ProcessDiditWebhook_execute ulid config (at_status "bob" Approved) false (webhook "e8" "bob" "sess_9" "Approved" 2) s1).2 in
  let s3 := (process (webhook "e9" "alice" "sess_1" "Approved" (60 * 86400)) Approved s2).2 in
  let now := months_after 24 (60 * 86400000) - 30 * 86400000 in
  let out := RunKycRenewalTimer_execute ulid (λ to, if String.eqb to "alice@example.com" then Err (Thrown "smtp") else Ok tt)
               "trace" now s3 in
  map (duty now 30 (kbase s3)) (rows s3) = [remind "alice@example.com" (months_after 24 (60 * 86400000)); KycJobs.transition] ∧
  out.1 = Err (Thrown "smtp") ∧ map Kyc.state (rows out.2) = [eligible; eligible].
Proof. split; [|split]; vm_compute; reflexivity. Qed.

End KycDemo.
