(* ===== verification/DiditWebhook.v ===== *)
(** The webhook endpoint of the identity provider: the signature check of
    src/src/modules/identity/infrastructure/didit-webhook-verifier.ts and the route of src/src/modules/identity/api/kyc.router.ts
    that enqueues what passed it.

    HMAC-SHA256 under the shared secret is an argument, as is zod's check of a UUID.  A parsed body is a [value]; keys compare
    as ASCII text. *)

From Stdlib Require Import Ascii String.
From stdpp Require Import sorting.
From S2P Require Import Prelude JsString Db Idempotency Cursor KycPolicy KycRepo KycServices KycEvents.

Module DiditWebhook.
Import JsString Idempotency JsJson KycRepo KycServices.

#[local] Arguments String.append !_ _ /.

Definition invalidWebhookError : error := AppError "identity.didit_webhook_invalid" 401 [].

(** ** canonicalize *)

(** A key that is an array index: those come first in an object, in ascending order. *)
Definition array_index (k : string) : option Z :=
  match parse_nonempty 10 k with
  | Some n => if bool_decide (BigInt_toString n = k) && (n <? 2 ^ 32 - 1) then Some n else None
  | None => None
  end.

Definition index_before {A} (a b : string * A) : bool :=
  match array_index a.1, array_index b.1 with Some m, Some n => m <? n | _, _ => false end.

(** [Object.fromEntries(entries)], in the order its keys are listed *)
Definition fromEntries {A} (entries : list (string * A)) : list (string * A) :=
  order_by index_before (List.filter (λ e, bool_decide (is_Some (array_index e.1))) entries) ++
  List.filter (λ e, negb (bool_decide (is_Some (array_index e.1)))) entries.

Fixpoint canonicalize (v : value) : value :=
  match v with
  | VArr l => VArr (map canonicalize l)
  | VObj l => VObj (fromEntries (merge_sort key_le (map (λ kv, (kv.1, canonicalize kv.2)) l)))
  | _ => v
  end.

(** ** The verifier *)

(** [/^\d{10}$/], then [Number] *)
Definition parseTimestamp (value : option string) : option Z :=
  match value with
  | Some t => if Nat.eqb (String.length t) 10 && string_forallb is_digit t then parse_digits 10 0 t else None
  | None => None
  end.

(** The number a JavaScript number text stands for, if it is a safe integer. *)
Definition safe_integer (text : string) : option Z :=
  match BigInt text with
  | Ok n => if bool_decide (BigInt_toString n = text) && (Z.abs n <=? 2 ^ 53 - 1) then Some n else None
  | Err _ => None
  end.

Definition readBodyTimestamp (body : value) : option Z :=
  match body with
  | VObj l => match snd <$> find_row (λ kv, bool_decide (kv.1 = "timestamp")) l with Some (VNum t) => safe_integer t | _ => None end
  | _ => None
  end.

Definition is_hex (c : ascii) : bool := bool_decide (is_Some (digit_value 16 c)).

Section Verifier.
Context (hmac : string → string).

Definition signed_text (body : value) : string := JSON_stringify (canonicalize body).

Definition TOLERANCE_S : Z := 300.

Definition verify (now : Z) (body : value) (signature timestamp : option string) : result unit :=
  match parseTimestamp timestamp with
  | None => Err invalidWebhookError
  | Some t =>
      if (TOLERANCE_S <? Z.abs (now / 1000 - t)) || negb (bool_decide (readBodyTimestamp body = Some t)) then Err invalidWebhookError
      else match signature with
           | None => Err invalidWebhookError
           | Some sig =>
               if negb (Nat.eqb (String.length sig) 64 && string_forallb is_hex sig) then Err invalidWebhookError
               else if negb (bool_decide (toLowerCase sig = hmac (signed_text body))) then Err invalidWebhookError
               else Ok tt
           end
  end.

(** ** The route *)

Context (is_uuid : string → bool).

Definition lookup_key (k : string) (body : value) : option value :=
  match body with VObj l => snd <$> find_row (λ kv, bool_decide (kv.1 = k)) l | _ => None end.

(** [z.string().uuid()], [z.string().min(1)], [z.number().int().nonnegative()] and [z.string().nullable().optional()] *)
Definition uuid_field (k : string) (body : value) : option string :=
  match lookup_key k body with Some (VStr s) => if is_uuid s then Some s else None | _ => None end.
Definition text_field (k : string) (body : value) : option string :=
  match lookup_key k body with Some (VStr s) => if bool_decide (s = EmptyString) then None else Some s | _ => None end.
Definition count_field (k : string) (body : value) : option Z :=
  match lookup_key k body with Some (VNum t) => match safe_integer t with Some n => if 0 <=? n then Some n else None | None => None end | _ => None end.
Definition optional_field (k : string) (body : value) : option (option string) :=
  match lookup_key k body with None | Some VUndefined | Some VNull => Some None | Some (VStr s) => Some (Some s) | _ => None end.

Definition or_bad {A} (r : option A) : result A := match r with Some a => Ok a | None => Err (Thrown "ZodError") end.

Definition diditWebhookBodySchema (traceId : string) (body : value) : result WebhookBody :=
  let! eventId := or_bad (uuid_field "event_id" body) in
  let! webhookType := or_bad (text_field "webhook_type" body) in
  let! _ := or_bad (count_field "timestamp" body) in
  let! createdAt := or_bad (count_field "created_at" body) in
  let! applicationId := or_bad (uuid_field "application_id" body) in
  let! environment := or_bad (text_field "environment" body) in
  let! sessionId := or_bad (uuid_field "session_id" body) in
  let! sessionKind := or_bad (optional_field "session_kind" body) in
  let! workflowId := or_bad (optional_field "workflow_id" body) in
  let! vendorData := or_bad (optional_field "vendor_data" body) in
  let! status := or_bad (text_field "status" body) in
  Ok (mkWebhook eventId webhookType applicationId environment sessionId sessionKind workflowId vendorData status createdAt traceId).

Definition postDiditWebhook (now : Z) (traceId : string) (body : value) (signature timestamp : option string) : io identity unit :=
  await _ := lift (verify now body signature timestamp) in
  await w := lift (diditWebhookBodySchema traceId body) in
  ReceiveDiditWebhook_execute w.

(** ** Key order does not matter *)

Lemma canonicalize_same : ∀ v v', same_json v v' → canonicalize v = canonicalize v'.
Proof.
  fix IH 3. intros v v' [v0|l l' H|l l' l'' Hnd H Hp]; [done|simpl; f_equal|].
  - induction H as [|x y l l' Hxy _ IHl]; simpl; [done|]. f_equal; [exact (IH _ _ Hxy) | exact IHl].
  - simpl. set (f := λ kv : string * value, _). assert (map f l = map f l') as E.
    { clear Hnd Hp. induction H as [|x y l l' [Hk Hxy] _ IHl]; simpl; [done|]. f_equal; [|exact IHl].
      unfold f. rewrite Hk. by rewrite (IH _ _ Hxy). }
    rewrite E. rewrite (sort_by_key_unique (map f l') (map f l'')); [done| |by apply Permutation_map].
    rewrite <- E, map_map. simpl. exact Hnd.
Qed.

(** An object's field under a permutation of its members *)
Lemma find_key_perm (l l' : list (string * value)) k : NoDup (map fst l) → l ≡ₚ l' →
  find_row (λ kv, bool_decide (kv.1 = k)) l = find_row (λ kv, bool_decide (kv.1 = k)) l'.
Proof.
  intros Hnd Hp. destruct (find_row _ l) as [x|] eqn:E, (find_row _ l') as [y|] eqn:E'; try done.
  - apply find_row_Some in E as [Hx Ex], E' as [Hy Ey]. boolify. f_equal. apply list_elem_of_In in Hx, Hy. rewrite <- Hp in Hy.
    apply NoDup_ListNoDup in Hnd. eapply NoDup_map_inj_in; [exact Hnd|by apply list_elem_of_In..|congruence].
  - apply find_row_Some in E as [Hx Ex]. exfalso. apply list_elem_of_In in Hx. rewrite Hp in Hx. apply list_elem_of_In in Hx.
    pose proof (proj1 (find_row_None _ _) E' x Hx) as Hn. simpl in Hn. congruence.
  - apply find_row_Some in E' as [Hy Ey]. exfalso. apply list_elem_of_In in Hy. rewrite <- Hp in Hy. apply list_elem_of_In in Hy.
    pose proof (proj1 (find_row_None _ _) E y Hy) as Hn. simpl in Hn. congruence.
Qed.

Lemma find_key_same l l' k : Forall2 (λ x y : string * value, x.1 = y.1 ∧ same_json x.2 y.2) l l' →
  match find_row (λ kv, bool_decide (kv.1 = k)) l, find_row (λ kv, bool_decide (kv.1 = k)) l' with
  | Some x, Some y => same_json x.2 y.2 | None, None => True | _, _ => False end.
Proof.
  unfold find_row. induction 1 as [|x y l l' [Hk Hxy] _ IH]; simpl; [done|]. rewrite Hk. by case_bool_decide.
Qed.

Lemma body_timestamp_same v v' : same_json v v' → readBodyTimestamp v = readBodyTimestamp v'.
Proof.
  intros [v0|l l' H|l l' l'' Hnd H Hp]; [done..|]. simpl.
  assert (NoDup (map fst l')) as Hnd'.
  { replace (map fst l') with (map fst l); [done|]. clear -H. induction H as [|x y l l' [Hk _] _ IH]; simpl; [done|]. by rewrite Hk, IH. }
  rewrite <- (find_key_perm l' l'' _ Hnd' Hp). pose proof (find_key_same l l' "timestamp" H) as Hs.
  destruct (find_row _ l) as [[k1 x]|], (find_row _ l') as [[k2 y]|]; simpl in *; try done.
  by destruct Hs.
Qed.

Lemma verify_iff now body signature timestamp :
  verify now body signature timestamp = Ok tt ↔
  ∃ t sig, parseTimestamp timestamp = Some t ∧ Z.abs (now / 1000 - t) ≤ TOLERANCE_S ∧ readBodyTimestamp body = Some t ∧
    signature = Some sig ∧ String.length sig = 64%nat ∧ string_forallb is_hex sig = true ∧ toLowerCase sig = hmac (signed_text body).
Proof.
  unfold verify. split.
  - destruct (parseTimestamp timestamp) as [t|]; [|done]. destruct (_ || _) eqn:E1; [done|]. destruct signature as [sig|]; [|done].
    destruct (Nat.eqb (String.length sig) 64 && string_forallb is_hex sig) eqn:E2; cbn [negb]; [|done].
    apply andb_true_iff in E2 as [E2 E3]. apply Nat.eqb_eq in E2. apply orb_false_iff in E1 as [E1 E4].
    destruct (bool_decide (toLowerCase sig = _)) eqn:E5; [|done]. intros _. exists t, sig. boolify. by split_and!.
  - intros (t & sig & -> & Ht & Hb & -> & Hl & Hh & He). rewrite Hb, He, Hl, Hh, !bool_decide_eq_true_2 by done.
    replace (TOLERANCE_S <? Z.abs (now / 1000 - t)) with false by (symmetry; by apply Z.ltb_ge). done.
Qed.

(** ** The signed text covers the whole body *)

#[local] Notation "a ++s b" := (String.append a b) (at level 60, right associativity).

(** A value read from JSON text: no undefined, numbers by their JavaScript text, distinct keys. *)
Definition number_char (c : ascii) : bool := is_digit c || existsb (Ascii.eqb c) ["-"%char; "+"%char; "."%char; "e"%char].
Definition number_text (t : string) : bool :=
  match t with String c _ => (is_digit c || Ascii.eqb c "-") && string_forallb number_char t | EmptyString => false end.
Fixpoint parsed (v : value) : bool :=
  match v with
  | VUndefined => false
  | VNull | VBool _ | VStr _ => true
  | VNum t => number_text t
  | VArr l => forallb parsed l
  | VObj l => forallb (λ kv, parsed kv.2) l && bool_decide (NoDup (map fst l))
  end.

(** The first character of a text tells the kind of the value. *)
Definition char_kind (c : ascii) : nat :=
  if Ascii.eqb c (ascii_of_nat 34) then 1 else if Ascii.eqb c "[" then 2 else if Ascii.eqb c "{" then 3 else
  if Ascii.eqb c "n" then 4 else if Ascii.eqb c "t" then 5 else if Ascii.eqb c "f" then 6 else
  if is_digit c || Ascii.eqb c "-" then 7 else 0.
Definition kind (v : value) : nat :=
  match v with
  | VUndefined => 4 | VNull => 4 | VBool true => 5 | VBool false => 6 | VNum _ => 7 | VStr _ => 1 | VArr _ => 2 | VObj _ => 3
  end.

Lemma text_kind v : parsed v = true → ∃ c t, JSON_stringify v = String c t ∧ char_kind c = kind v.
Proof.
  destruct v as [| |[]|[|c t]| | |]; try done; intros H; try (by repeat eexists).
  exists c, t. split; [done|]. cbn [parsed number_text] in H. apply andb_true_iff in H as [H _].
  destruct c as [[] [] [] [] [] [] [] []]; try reflexivity; vm_compute in H; discriminate H.
Qed.

(** What follows a value in a text does not continue a number. *)
Definition stops (r : string) : Prop := match r with String c _ => number_char c = false | EmptyString => True end.

Lemma number_cut t t' r r' : string_forallb number_char t = true → string_forallb number_char t' = true → stops r → stops r' →
  t ++s r = t' ++s r' → t = t' ∧ r = r'.
Proof.
  revert t'. induction t as [|c t IH]; intros [|c' t'] Ht Ht' Hr Hr' E; cbn [String.append string_forallb] in *.
  - done.
  - subst r. apply andb_true_iff in Ht' as [Ht' _]. cbn in Hr. congruence.
  - subst r'. apply andb_true_iff in Ht as [Ht _]. cbn in Hr'. congruence.
  - apply andb_true_iff in Ht as [_ Ht], Ht' as [_ Ht']. injection E as <- E. by destruct (IH t' Ht Ht' Hr Hr' E) as [-> ->].
Qed.

Section Lists.
Context {A : Type} (print : A → string) (good : A → bool) (closing : ascii).
Context (closing_stops : number_char closing = false) (closing_comma : closing ≠ ","%char).
Context (begins : ∀ x, good x = true → ∃ c t, print x = String c t ∧ c ≠ closing).

(** A printed item is recovered from what starts with it. *)
Definition cuts (x : A) : Prop := ∀ x' r r', good x' = true → stops r → stops r' → print x ++s r = print x' ++s r' → x = x' ∧ r = r'.

Definition tail_text (l : list A) (r : string) : string :=
  match l with [] => String closing r | _ => String "," (join (map print l) ++s String closing r) end.

Lemma join_text x l r : join (map print (x :: l)) ++s String closing r = print x ++s tail_text l r.
Proof. destruct l as [|y l]; [done|]. cbn [map join tail_text]. by rewrite append_assoc. Qed.

Lemma tail_stops l r : stops (tail_text l r).
Proof. by destruct l. Qed.

Lemma items_cut l : Forall cuts l → forallb good l = true → ∀ l' r r', forallb good l' = true →
  join (map print l) ++s String closing r = join (map print l') ++s String closing r' → l = l' ∧ r = r'.
Proof.
  induction 1 as [|x l Hx _ IH]; intros Hg [|x' l'] r r' Hg' E.
  - by injection E.
  - exfalso. rewrite join_text in E. cbn [forallb] in Hg'. apply andb_true_iff in Hg' as [Hg' _].
    destruct (begins x' Hg') as (c & t & Ec & Hc). rewrite Ec in E. cbn in E. by injection E as <- _.
  - exfalso. rewrite join_text in E. cbn [forallb] in Hg. apply andb_true_iff in Hg as [Hg _].
    destruct (begins x Hg) as (c & t & Ec & Hc). rewrite Ec in E. cbn in E. by injection E as -> _.
  - rewrite !join_text in E. cbn [forallb] in Hg, Hg'. apply andb_true_iff in Hg as [_ Hg], Hg' as [Hx' Hg'].
    destruct (Hx x' _ _ Hx' (tail_stops l r) (tail_stops l' r') E) as [<- Et].
    destruct l as [|y l], l' as [|y' l']; cbn [tail_text] in Et; [by injection Et as -> | by injection Et as ? | by injection Et as ? |].
    injection Et as Et. by destruct (IH Hg (y' :: l') r r' Hg' Et) as [-> ->].
Qed.
End Lists.

Lemma parsed_object_text l : forallb (λ kv, parsed kv.2) l = true →
  JSON_stringify (VObj l) = String "{" (join (map entry l) ++s "}").
Proof.
  intros H. cbn [JSON_stringify]. do 3 f_equal. induction l as [|[k v] l IH]; [done|]. cbn [forallb map snd] in *.
  apply andb_true_iff in H as [H1 H2]. assert (is_undefined v = false) as E by (by destruct v). cbn [List.filter fst]. rewrite E. simpl.
  f_equal. by apply IH.
Qed.

Lemma quote_cut a a' r r' : quote a ++s r = quote a' ++s r' → a = a' ∧ r = r'.
Proof.
  unfold quote. cbn [String.append]. rewrite !append_assoc. intros [= E]. apply (f_equal parse_chars) in E.
  cbn [String.append] in E. rewrite !parse_escape in E. by injection E.
Qed.

Lemma entry_cut (kv : string * value) : cuts JSON_stringify parsed kv.2 → cuts entry (λ kv, parsed kv.2) kv.
Proof.
  intros H [k' v'] r r' Hg Hr Hr' E. destruct kv as [k v]. unfold entry in E. cbn [fst snd] in *. rewrite !append_assoc in E.
  apply quote_cut in E as [-> E]. injection E as E. by destruct (H v' r r' Hg Hr Hr' E) as [-> ->].
Qed.

Lemma value_cut v : parsed v = true → cuts JSON_stringify parsed v.
Proof.
  induction v as [| |b|t|x|l IH|l IH] using value_induction; intros Hv v' r r' Hv' Hr Hr' E;
    destruct (text_kind _ Hv) as (c & u & Ec & Kc), (text_kind _ Hv') as (c' & u' & Ec' & Kc');
    assert (kind v' = kind _) as Hk by (rewrite <- Kc, <- Kc'; rewrite Ec, Ec' in E; by injection E as ->); clear Ec Kc Ec' Kc'.
  - done.
  - destruct v' as [| |[]|t'| | |]; try done. cbn in E. by injection E.
  - destruct b, v' as [| |[]|t'| | |]; try done; cbn in E; by injection E.
  - destruct v' as [| |[]|t'| | |]; try done. cbn [parsed number_text JSON_stringify] in *. unfold number_text in Hv, Hv'.
    destruct t as [|a t], t' as [|a' t']; try done. apply andb_true_iff in Hv as [_ Hv], Hv' as [_ Hv'].
    by destruct (number_cut _ _ r r' Hv Hv' Hr Hr' E) as [-> ->].
  - destruct v' as [| |[]|t'|x'| |]; try done. by apply quote_cut in E as [-> ->].
  - destruct v' as [| |[]|t'|x'|l'|]; try done. cbn [JSON_stringify String.append] in E. injection E as E. rewrite !append_assoc in E.
    cbn [parsed] in Hv, Hv'. apply (items_cut JSON_stringify parsed "]") in E as [-> ->]; try done.
    + intros y Hy. destruct (text_kind y Hy) as (d & w & -> & K). exists d, w. split; [done|]. intros ->. by destruct y as [| |[]| | | |].
    + apply Forall_forall. intros y Hy. rewrite Forall_forall in IH. apply IH; [done|]. rewrite forallb_forall in Hv.
      by apply Hv, list_elem_of_In.
  - destruct v' as [| |[]|t'|x'|l'|l']; try done. cbn [parsed] in Hv, Hv'. apply andb_true_iff in Hv as [Hv _], Hv' as [Hv' _].
    rewrite !parsed_object_text in E by done. cbn [String.append] in E. injection E as E. rewrite !append_assoc in E.
    apply (items_cut entry (λ kv, parsed kv.2) "}") in E as [-> ->]; try done.
    + intros kv _. unfold entry, quote. by repeat eexists.
    + apply Forall_forall. intros kv Hkv. rewrite Forall_forall in IH. apply entry_cut, IH; [done|]. rewrite forallb_forall in Hv.
      by apply Hv, list_elem_of_In.
Qed.

Lemma stringify_inj v v' : parsed v = true → parsed v' = true → JSON_stringify v = JSON_stringify v' → v = v'.
Proof.
  intros Hv Hv' E. apply (value_cut v Hv v' EmptyString EmptyString Hv' I I). by rewrite E.
Qed.

(** ** canonicalize loses only the order *)

Lemma order_by_perm {A} (before : A → A → bool) (l : list A) : order_by before l ≡ₚ l.
Proof.
  assert (∀ x m, insert_by before x m ≡ₚ x :: m) as Hins.
  { intros x m. induction m as [|y m IH]; simpl; [done|]. destruct (before y x); [|done]. rewrite IH. apply perm_swap. }
  induction l as [|x l IH]; simpl; [done|]. by rewrite Hins, IH.
Qed.

Lemma filter_split_perm {A} (p : A → bool) (l : list A) : List.filter p l ++ List.filter (λ x, negb (p x)) l ≡ₚ l.
Proof.
  induction l as [|x l IH]; simpl; [done|]. destruct (p x); simpl; [by rewrite IH|]. by rewrite <- Permutation_middle, IH.
Qed.

Definition canonical_member (kv : string * value) : string * value := (kv.1, canonicalize kv.2).

Lemma canonical_members (l : list (string * value)) :
  fromEntries (merge_sort key_le (map canonical_member l)) ≡ₚ map canonical_member l.
Proof. unfold fromEntries. by rewrite order_by_perm, filter_split_perm, merge_sort_Permutation. Qed.

Lemma canonicalize_obj l : canonicalize (VObj l) = VObj (fromEntries (merge_sort key_le (map canonical_member l))).
Proof. done. Qed.

Lemma canonicalize_parsed v : parsed v = true → parsed (canonicalize v) = true.
Proof.
  induction v as [| |b|t|x|l IH|l IH] using value_induction; try done; intros Hv.
  - cbn [parsed canonicalize] in *. rewrite forallb_forall in *. intros y (z & <- & Hz)%in_map_iff. rewrite Forall_forall in IH.
    apply IH; [by apply list_elem_of_In | by apply Hv].
  - rewrite canonicalize_obj. cbn [parsed] in *. apply andb_true_iff in Hv as [Hv Hnd]. apply bool_decide_eq_true in Hnd.
    apply andb_true_iff. split.
    + apply forallb_forall. intros kv Hkv. apply list_elem_of_In in Hkv. rewrite canonical_members in Hkv.
      apply list_elem_of_In, in_map_iff in Hkv as (kv0 & <- & H0). rewrite forallb_forall in Hv. rewrite Forall_forall in IH.
      apply IH; [by apply list_elem_of_In | by apply Hv].
    + apply bool_decide_eq_true. rewrite canonical_members, map_map. done.
Qed.

Lemma canonicalize_inj v : ∀ v', parsed v = true → parsed v' = true → canonicalize v = canonicalize v' → same_json v v'.
Proof.
  induction v as [| |b|t|x|l IH|l IH] using value_induction; intros v' Hv Hv' E;
    destruct v' as [| |b'|t'|x'|l'|l']; try done; try (injection E as ->; constructor); try constructor.
  - cbn [canonicalize parsed] in *. injection E as E. revert l' Hv' E. induction IH as [|y l Hy _ IHl]; intros [|y' l'] Hv' E; try done.
    cbn [map forallb] in *. apply andb_true_iff in Hv as [Hv1 Hv2], Hv' as [Hv1' Hv2']. injection E as E1 E2. constructor; [by apply Hy | by apply IHl].
  - rewrite !canonicalize_obj in E. injection E as E. cbn [parsed] in *. apply andb_true_iff in Hv as [Hv Hnd], Hv' as [Hv' Hnd'].
    apply bool_decide_eq_true in Hnd. assert (map canonical_member l ≡ₚ map canonical_member l') as Hp by (rewrite <- (canonical_members l), E; apply canonical_members).
    apply Permutation_map_inv in Hp as (l1 & E1 & Hp). apply (sj_obj l l1 l'); [done| |by apply Permutation_sym].
    assert (forallb (λ kv, parsed kv.2) l1 = true) as Hv1.
    { apply forallb_forall. intros kv Hkv. rewrite forallb_forall in Hv'. apply Hv', list_elem_of_In. rewrite Hp. by apply list_elem_of_In. }
    clear Hp Hnd E Hv'. revert l1 E1 Hv1. induction IH as [|[k y] l Hy _ IHl]; intros [|[k' y'] l1] E1 Hv1; try done.
    cbn [map forallb snd] in *. apply andb_true_iff in Hv as [Ha Hb], Hv1 as [Ha' Hb']. injection E1 as -> E2 E3.
    constructor; [split; [done | by apply Hy] | by apply IHl].
Qed.

(** Two bodies have the same signed text exactly when they are the same JSON up to the order of keys. *)
Lemma signed_text_iff v v' : parsed v = true → parsed v' = true → signed_text v = signed_text v' ↔ same_json v v'.
Proof.
  intros Hv Hv'. unfold signed_text. split.
  - intros E%stringify_inj; [by apply canonicalize_inj | by apply canonicalize_parsed..].
  - intros H. by rewrite (canonicalize_same _ _ H).
Qed.

Lemma fromEntries_plain {A} (l : list (string * A)) : Forall (λ kv, array_index kv.1 = None) l → fromEntries l = l.
Proof.
  intros H. unfold fromEntries.
  assert (∀ kv, In kv l → bool_decide (is_Some (array_index kv.1)) = false) as Hf.
  { intros kv Hkv. rewrite Forall_forall in H. rewrite (H kv) by (by apply list_elem_of_In). by apply bool_decide_eq_false_2; intros []. }
  clear H. induction l as [|kv l IH]; [done|]. cbn [List.filter]. rewrite (Hf kv (or_introl eq_refl)). cbn [negb].
  assert (List.filter (λ e, bool_decide (is_Some (array_index e.1))) l = []) as E.
  { clear IH. induction l as [|y l IH]; [done|]. cbn [List.filter]. rewrite (Hf y) by (right; by left). apply IH.
    intros z [<-|Hz]; apply Hf; [by left | right; by right]. }
  specialize (IH (λ z Hz, Hf z (or_intror Hz))). rewrite E in *. cbn in *. by rewrite IH.
Qed.

(** The members of an object without array indices as keys are signed in ascending order of their keys. *)
Lemma signed_in_order l : Forall (λ kv, array_index kv.1 = None) l →
  ∃ l', canonicalize (VObj l) = VObj l' ∧ l' ≡ₚ map (λ kv, (kv.1, canonicalize kv.2)) l ∧ StronglySorted key_le l'.
Proof.
  intros H. exists (merge_sort key_le (map canonical_member l)). rewrite canonicalize_obj.
  assert (Forall (λ kv, array_index kv.1 = None) (merge_sort key_le (map canonical_member l))) as H'.
  { rewrite merge_sort_Permutation. by apply Forall_fmap. }
  split_and!.
  - f_equal. by apply fromEntries_plain.
  - by rewrite merge_sort_Permutation.
  - apply StronglySorted_merge_sort; [intros a b c; apply leb_trans | intros a b; apply String.leb_total].
Qed.


End Verifier.

End DiditWebhook.

Module DiditWebhookDemo.
Import Idempotency DiditWebhook.

(** A keyed hash stands for HMAC-SHA256: 64 hexadecimal digits that depend on every character. *)
Fixpoint rolling (h : Z) (t : string) : Z :=
  match t with EmptyString => h | String c r => rolling ((h * 131 + Z.of_N (N_of_ascii c)) mod 2 ^ 256) r end.
Fixpoint hex_digits (n : nat) (h : Z) : string :=
  match n with O => EmptyString | S n => String (hex_digit (Z.to_nat (h mod 16))) (hex_digits n (h / 16)) end.
Definition demo_hmac (t : string) : string := hex_digits 64 (rolling 20250615 t).

Definition body : value :=
  VObj [("status", VStr "Approved"); ("event_id", VStr "e"); ("webhook_type", VStr "status.updated"); ("timestamp", VNum "1750000000");
        ("created_at", VNum "1750000000"); ("application_id", VStr "a"); ("environment", VStr "live"); ("session_id", VStr "s")].

(** The same body with its keys in another order *)
Definition reordered : value :=
  VObj [("timestamp", VNum "1750000000"); ("session_id", VStr "s"); ("status", VStr "Approved"); ("event_id", VStr "e");
        ("webhook_type", VStr "status.updated"); ("created_at", VNum "1750000000"); ("application_id", VStr "a"); ("environment", VStr "live")].

Definition signature : string := JsString.toUpperCase (demo_hmac (signed_text body)).


End DiditWebhookDemo.
