(* ===== verification/RequestLog.v ===== *)
(** What a request leaves in the log: the redaction of query strings
    (src/src/infrastructure/logging/request-log-redaction.ts), and the answer to an error that reaches the end of
    the middleware chain (src/src/shared/http/error-handler.ts, body-parser-error.ts, not-found.ts,
    request-context.ts).

    Text is its UTF-8 bytes; case folding acts on ASCII letters. *)

From Stdlib Require Import Ascii String.
From S2P Require Import Prelude JsString JsBuffer Idempotency Cursor DiditWebhook.

Module RequestLog.
Import JsString JsBuffer Idempotency JsJson DiditWebhook.
#[local] Arguments String.append !_ _ /.

(** ** decodeURIComponent

    A percent sign and two hexadecimal digits are a byte; the bytes from 128 on must be whole UTF-8 sequences, each
    byte escaped.  Anything else throws. *)

Inductive place := in_text | after_percent | after_digit (d : Z).

(** [pending]: how many bytes of a sequence are missing, and the bounds of the next *)
Fixpoint decode_go (pending : option (nat * Z * Z)) (p : place) (s : string) : option string :=
  match s with
  | EmptyString => match pending, p with None, in_text => Some EmptyString | _, _ => None end
  | String c s =>
      match p with
      | in_text =>
          if is_char 37 c then decode_go pending after_percent s
          else match pending with None => String c <$> decode_go None in_text s | Some _ => None end
      | after_percent => match digit_value 16 c with Some d => decode_go pending (after_digit d) s | None => None end
      | after_digit d =>
          match digit_value 16 c with
          | None => None
          | Some e =>
              let b := 16 * d + e in
              match pending with
              | None =>
                  if b <? 128 then String (byte_of b) <$> decode_go None in_text s
                  else match lead_byte b with Some next => String (byte_of b) <$> decode_go (Some next) in_text s | None => None end
              | Some (n, lo, hi) =>
                  if (lo <=? b) && (b <=? hi)
                  then String (byte_of b) <$> decode_go (match n with S (S n) => Some (S n, 128, 191) | _ => None end) in_text s
                  else None
              end
          end
      end
  end.

Definition decodeURIComponent (s : string) : option string := decode_go None in_text s.

Definition decodeComponent (raw : string) : string := default raw (decodeURIComponent raw).

(** ** The redaction *)

Definition CENSOR : string := "[REDACTED]".

Definition SENSITIVE_NAME_STEMS : list string :=
  ["email"; "phone"; "token"; "password"; "passwd"; "secret"; "signature"; "apikey"; "authorization"; "assertion"; "challenge"; "dpop"].

Definition SENSITIVE_WHOLE_NAMES : list string :=
  ["code"; "state"; "otp"; "key"; "name"; "givenname"; "familyname"; "fullname"; "fulldisplayname"].

(** [.replace(/[_.-]/g, "")] *)
Fixpoint without_marks (s : string) : string :=
  match s with
  | EmptyString => EmptyString
  | String c s => if is_char 95 c || is_char 46 c || is_char 45 c then without_marks s else String c (without_marks s)
  end.

Definition isSensitiveName (name : string) : bool :=
  let normalized := without_marks (toLowerCase name) in
  bool_decide (normalized ∈ SENSITIVE_WHOLE_NAMES) || existsb (λ stem, includes stem normalized) SENSITIVE_NAME_STEMS.

Definition containsAtSign (raw : string) : bool := includes "@" (decodeComponent raw) || includes "%40" raw.

(** the text before and after the first [c] *)
Fixpoint cut (c : ascii) (s : string) : option (string * string) :=
  match s with
  | EmptyString => None
  | String a s => if bool_decide (a = c) then Some (EmptyString, s) else (λ p, (String a p.1, p.2)) <$> cut c s
  end.

Definition redactPair (pair : string) : string :=
  match cut "=" pair with
  | None => if containsAtSign pair then CENSOR else pair
  | Some (rawName, rawValue) =>
      if containsAtSign rawName then CENSOR
      else if isSensitiveName (decodeComponent rawName) || containsAtSign rawValue
      then String.append rawName (String "=" CENSOR) else pair
  end.

Fixpoint join (c : ascii) (l : list string) : string :=
  match l with
  | [] => EmptyString
  | [p] => p
  | p :: l => String.append p (String c (join c l))
  end.

Definition redactQueryString (query : string) : string := join "&" (map redactPair (split "&" query)).

Definition redactUrl (url : string) : string :=
  match cut "?" url with
  | None => url
  | Some (path, query) => String.append path (String "?" (redactQueryString query))
  end.

(** [Object.fromEntries]: a later entry replaces the value of an earlier one of the same name *)
Definition from_entries (entries : list (string * value)) : list (string * value) :=
  fromEntries (foldl (λ l kv, set_key kv.1 kv.2 l) [] entries).

Fixpoint redactQueryValue (name : string) (v : value) : value :=
  match v with
  | VArr l => VArr (map (redactQueryValue name) l)
  | VObj l =>
      if isSensitiveName name then VStr CENSOR
      else VObj (from_entries (map (λ kv, if includes "@" kv.1 then (CENSOR, VStr CENSOR) else (kv.1, redactQueryValue kv.1 kv.2)) l))
  | VStr s => if isSensitiveName name || includes "@" s then VStr CENSOR else v
  | _ => if isSensitiveName name then VStr CENSOR else v
  end.

Definition redactQueryObject (query : value) : value :=
  match query with
  | VObj l => VObj (from_entries (map (λ kv, if includes "@" kv.1 then (CENSOR, VStr CENSOR) else (kv.1, redactQueryValue kv.1 kv.2)) l))
  | VArr l => VObj (from_entries (imap (λ i v, (BigInt_toString (Z.of_nat i), redactQueryValue (BigInt_toString (Z.of_nat i)) v)) l))
  | _ => query
  end.

(** The fields of the serialized request the serializer changes; [rq_query] is there when the request had one. *)
Record SerializedRequest := mkRequest { rq_url : string; rq_query : option value; rq_referer : option string }.

Definition requestLogSerializer (r : SerializedRequest) : SerializedRequest :=
  mkRequest (redactUrl (rq_url r)) (redactQueryObject <$> rq_query r) (redactUrl <$> rq_referer r).

(** ** What a logged query may not show *)

(** A pair that carries an address, or a value of a sensitive name that is not masked. *)
Definition exposes (pair : string) : bool :=
  match cut "=" pair with
  | None => containsAtSign pair
  | Some (n, v) => containsAtSign n || containsAtSign v || (isSensitiveName (decodeComponent n) && negb (bool_decide (v = CENSOR)))
  end.

(** The same for a parsed query. *)
Fixpoint shows (name : string) (v : value) : bool :=
  match v with
  | VArr l => existsb (shows name) l
  | VObj l => isSensitiveName name || existsb (λ kv, includes "@" kv.1 || shows kv.1 kv.2) l
  | VStr s => isSensitiveName name && negb (bool_decide (s = CENSOR)) || includes "@" s
  | _ => isSensitiveName name
  end.

Definition query_shows (v : value) : bool :=
  match v with VObj l => existsb (λ kv, includes "@" kv.1 || shows kv.1 kv.2) l | _ => false end.

(** [s] has no [c] in it *)
Notation free c s := (string_forallb (λ a, negb (bool_decide (a = c))) s = true).

Lemma cut_spec c s n v : cut c s = Some (n, v) → free c n ∧ s = String.append n (String c v).
Proof.
  revert n. induction s as [|a s IH]; intros n; simpl; [done|]. case_bool_decide as E; [intros; by simplify_eq/=|].
  destruct (cut c s) as [[n' v']|]; [|done]. intros [= <- ->]. destruct (IH n' eq_refl) as [H ->]. simpl.
  by rewrite bool_decide_eq_false_2, H.
Qed.

Lemma cut_append c n v : free c n → cut c (String.append n (String c v)) = Some (n, v).
Proof.
  induction n as [|a n IH]; simpl; intros H; [by rewrite bool_decide_eq_true_2|]. boolify.
  rewrite bool_decide_eq_false_2 by done. by rewrite IH.
Qed.

Lemma free_append c s1 s2 : free c (String.append s1 s2) ↔ free c s1 ∧ free c s2.
Proof.
  induction s1 as [|a s1 IH]; simpl; [tauto|]. rewrite !andb_true_iff, IH. tauto.
Qed.

Lemma split_free c s : Forall (λ p, free c p) (split c s).
Proof.
  induction s as [|a s IH]; simpl; [by constructor|]. case_bool_decide as E; [by constructor|].
  destruct (split c s) as [|p ps]; inversion IH; subst; constructor; simpl; rewrite ?bool_decide_eq_false_2 by done; done.
Qed.

Lemma split_join c l : l ≠ [] → Forall (λ p, free c p) l → split c (join c l) = l.
Proof.
  induction l as [|p l IH]; [done|]. intros _ [Hp Hl]%Forall_cons. destruct l as [|q l]; [by apply split_no_sep|].
  change (join c (p :: q :: l)) with (String.append p (String c (join c (q :: l)))). by rewrite split_append, IH.
Qed.

Lemma join_split_text c s : join c (split c s) = s.
Proof.
  induction s as [|a s IH]; simpl; [done|]. destruct (split_cons c s) as (p & ps & E). rewrite E in IH |- *.
  case_bool_decide as Ea; [subst; by destruct ps; simpl in *; rewrite <- ?IH|]. destruct ps; simpl in *; by rewrite <- IH.
Qed.

Lemma redactPair_free pair : free "&"%char pair → free "&"%char (redactPair pair).
Proof.
  unfold redactPair. intros H. destruct (cut "=" pair) as [[n v]|] eqn:E; [|by destruct (containsAtSign pair)].
  destruct (cut_spec _ _ _ _ E) as [_ ->]. apply free_append in H as [H1 H2].
  destruct (containsAtSign n); [done|]. destruct (_ || _); apply free_append; split; done.
Qed.

(** The pairs of the logged query are the redacted pairs. *)
Lemma redacted_pairs q : split "&" (redactQueryString q) = map redactPair (split "&" q).
Proof.
  unfold redactQueryString. apply split_join.
  - destruct (split_cons "&" q) as (p & ps & ->). done.
  - rewrite Forall_fmap. eapply Forall_impl; [apply split_free|]. apply redactPair_free.
Qed.

Lemma redactPair_hides pair : exposes (redactPair pair) = false.
Proof.
  unfold redactPair, exposes. destruct (cut "=" pair) as [[n v]|] eqn:E.
  - destruct (cut_spec _ _ _ _ E) as [Hn Hp]. destruct (containsAtSign n) eqn:Ea; [done|].
    destruct (_ || _) eqn:Es.
    + rewrite cut_append, Ea by done. by rewrite ?bool_decide_eq_true_2, ?andb_false_r.
    + boolify. rewrite E, Ea. rewrite H, H0. done.
  - destruct (containsAtSign pair) eqn:Ea; [done|]. by rewrite E.
Qed.

(** A pair that exposes nothing is logged byte for byte. *)
Lemma redactPair_id pair : exposes pair = false → redactPair pair = pair.
Proof.
  unfold redactPair, exposes. destruct (cut "=" pair) as [[n v]|] eqn:E; [|by intros ->].
  intros [[-> ->]%orb_false_iff Hs]%orb_false_iff. destruct (cut_spec _ _ _ _ E) as [_ ->]. rewrite orb_false_r.
  destruct (isSensitiveName _); [|done]. simpl in Hs. by apply negb_false_iff, bool_decide_eq_true in Hs as ->.
Qed.

Lemma includes_at s : includes "@" s = negb (string_forallb (λ a, negb (bool_decide (a = "@"%char))) s).
Proof.
  induction s as [|a s IH]; [done|]. cbn [includes string_forallb]. rewrite IH, negb_andb, negb_involutive. f_equal.
  cbn [String.prefix]. destruct (ascii_dec _ a) as [<-|N]; [by destruct s; rewrite bool_decide_eq_true_2|].
  by rewrite bool_decide_eq_false_2 by congruence.
Qed.

(** Decoding keeps a literal "@". *)
Lemma decode_keeps_at pending p s t : decode_go pending p s = Some t → free "@"%char t → free "@"%char s.
Proof.
  revert pending p t. induction s as [|c s IH]; intros pending p t; cbn [decode_go string_forallb]; [done|].
  intros H Ht. apply andb_true_iff.
  assert (Hex : ∀ d, digit_value 16 c = Some d → negb (bool_decide (c = "@"%char)) = true).
  { intros d Hd. case_bool_decide; [by subst|done]. }
  destruct p as [| |d].
  - destruct (is_char 37 c) eqn:Ec.
    + split; [|by eapply IH]. case_bool_decide; [by subst|done].
    + destruct pending; [done|]. destruct (decode_go None in_text s) as [t'|] eqn:Ed; [|done]. injection H as <-.
      apply andb_true_iff in Ht as [? ?]. split; [done|]. by eapply IH.
  - destruct (digit_value 16 c) eqn:Ec; [|done]. split; [by eapply Hex|by eapply IH].
  - destruct (digit_value 16 c) eqn:Ec; [|done]. split; [by eapply Hex|].
    assert (Hk : ∀ pend b, String b <$> decode_go pend in_text s = Some t → free "@"%char s).
    { intros pend b Hk. destruct (decode_go pend in_text s) as [t'|] eqn:Ed; [|done]. injection Hk as <-.
      apply andb_true_iff in Ht as [_ Ht]. by eapply IH. }
    cbv zeta in H. destruct pending as [[[n lo] hi]|]; repeat case_match; simplify_eq; eauto.
Qed.

Lemma containsAtSign_free s : containsAtSign s = false → free "@"%char s.
Proof.
  unfold containsAtSign, decodeComponent, decodeURIComponent. intros [H _]%orb_false_iff. rewrite includes_at in H.
  apply negb_false_iff in H. destruct (decode_go None in_text s) eqn:E; simpl in H; [by eapply decode_keeps_at|done].
Qed.

Lemma exposes_free pair : exposes pair = false → free "@"%char pair.
Proof.
  unfold exposes. destruct (cut "=" pair) as [[n v]|] eqn:E; [|by intros ?%containsAtSign_free].
  intros [[H1 H2]%orb_false_iff _]%orb_false_iff. destruct (cut_spec _ _ _ _ E) as [_ ->]. apply free_append.
  simpl. split; by apply containsAtSign_free.
Qed.

Lemma free_split c d s : c ≠ d → Forall (λ p, free c p) (split d s) → free c s.
Proof.
  intros N. induction s as [|a s IH]; simpl; [done|]. destruct (split_cons d s) as (p & ps & E). rewrite E in *. clear E.
  case_bool_decide as Ea; intros H; inversion H; subst; apply andb_true_iff.
  - split; [by rewrite bool_decide_eq_false_2|auto].
  - simpl in *. boolify. split; [by rewrite bool_decide_eq_false_2|]. apply IH. by constructor.
Qed.

(** *** The parsed query *)

Lemma existsb_all_false {A} (f : A → bool) l : existsb f l = false ↔ Forall (λ x, f x = false) l.
Proof.
  induction l as [|x l IH]; simpl; [split; by constructor|]. rewrite orb_false_iff, Forall_cons, IH. done.
Qed.

Lemma set_key_members k v l kv : kv ∈ set_key k v l → kv = (k, v) ∨ kv ∈ l.
Proof.
  induction l as [|[k' v'] l IH]; simpl; [set_solver|]. case_bool_decide; set_solver.
Qed.

Lemma fromEntries_members {A} (l : list (string * A)) kv : kv ∈ fromEntries l → kv ∈ l.
Proof.
  unfold fromEntries. rewrite !list_elem_of_In, in_app_iff, elem_order_by, !filter_In. tauto.
Qed.

Lemma from_entries_members l kv : kv ∈ from_entries l → kv ∈ l.
Proof.
  unfold from_entries. intros H%fromEntries_members. revert H.
  cut (kv ∈ foldl (λ l kv, set_key kv.1 kv.2 l) [] l → kv ∈ [] ∨ kv ∈ l); [set_solver|].
  generalize (@nil (string * value)). induction l as [|[k v] l IH]; intros acc; simpl; [auto|].
  intros [H|H]%IH; [|set_solver]. apply set_key_members in H as [->|H]; set_solver.
Qed.

Lemma redacted_entries_hide l :
  Forall (λ kv, ∀ name, shows name (redactQueryValue name kv.2) = false) l →
  existsb (λ kv, includes "@" kv.1 || shows kv.1 kv.2)
    (from_entries (map (λ kv, if includes "@" kv.1 then (CENSOR, VStr CENSOR) else (kv.1, redactQueryValue kv.1 kv.2)) l)) = false.
Proof.
  intros H. apply existsb_all_false, Forall_forall. intros kv (kv' & -> & Hin)%from_entries_members%list_elem_of_fmap.
  rewrite Forall_forall in H. destruct (includes "@" kv'.1) eqn:E; [done|]. simpl. by rewrite E, H.
Qed.

Lemma redactQueryValue_hides v : ∀ name, shows name (redactQueryValue name v) = false.
Proof.
  induction v as [ | |b|t|s|l IH|l IH] using value_induction; intros name; cbn [redactQueryValue];
    try (destruct (isSensitiveName name) eqn:E; simpl; rewrite ?E; by rewrite ?bool_decide_eq_true_2).
  - destruct (isSensitiveName name || includes "@" s) eqn:E.
    + simpl. by rewrite ?bool_decide_eq_true_2, ?andb_false_r.
    + boolify. simpl. by rewrite H, H0.
  - cbn [shows]. apply existsb_all_false, Forall_fmap. eapply Forall_impl; [exact IH|]. intros v Hv. apply Hv.
  - destruct (isSensitiveName name) eqn:E; [simpl; by rewrite ?bool_decide_eq_true_2, ?andb_false_r|].
    cbn [shows]. rewrite E. by apply redacted_entries_hide.
Qed.

Lemma redactQueryObject_hides v : query_shows (redactQueryObject v) = false.
Proof.
  destruct v as [ | |b|t|s|l|l]; try done; unfold redactQueryObject, query_shows.
  - apply existsb_all_false, Forall_forall. intros kv (i & v & -> & Hi)%from_entries_members%elem_of_lookup_imap. cbn [fst snd].
    rewrite redactQueryValue_hides, orb_false_r, includes_at. apply negb_false_iff.
    eapply string_forallb_impl; [|apply BigInt_toString_digits; lia]. intros c Hc. case_bool_decide; [by subst|done].
  - apply redacted_entries_hide, Forall_forall. intros kv _. apply redactQueryValue_hides.
Qed.

(** *** The request *)

Definition url_exposes (url : string) : bool :=
  match cut "?" url with Some (_, query) => existsb exposes (split "&" query) | None => false end.

Lemma cut_redactUrl url : cut "?" (redactUrl url) = (λ pq, (pq.1, redactQueryString pq.2)) <$> cut "?" url.
Proof.
  unfold redactUrl. destruct (cut "?" url) as [[path q]|] eqn:E; [|by rewrite E]. apply cut_append. by apply cut_spec in E as [? _].
Qed.

Lemma redactUrl_hides url : url_exposes (redactUrl url) = false.
Proof.
  unfold url_exposes. rewrite cut_redactUrl. destruct (cut "?" url) as [[path q]|]; [|done]. simpl. rewrite redacted_pairs.
  apply existsb_all_false, Forall_fmap, Forall_true. apply redactPair_hides.
Qed.

Lemma redactUrl_id url : url_exposes url = false ↔ redactUrl url = url.
Proof.
  split; [|intros <-; apply redactUrl_hides]. unfold url_exposes, redactUrl, redactQueryString.
  destruct (cut "?" url) as [[path q]|] eqn:E; [|done]. intros H%existsb_all_false. apply cut_spec in E as [_ ->].
  do 2 f_equal. rewrite <- (join_split_text "&" q) at 2. f_equal. rewrite <- (map_id (split "&" q)) at 2.
  apply map_ext_in. intros p Hp%list_elem_of_In. rewrite Forall_forall in H. by apply redactPair_id, H.
Qed.

(** *** What the log may not show, without reference to the code

    [occurs w s]: the text [w] is somewhere in [s]. *)
Definition occurs (w s : string) : Prop := ∃ a b, s = String.append a (String.append w b).

(** A name in lower case and without [_], [-] and [.]. *)
Definition bare (n : string) : string :=
  string_of_list_ascii (List.filter (λ c, negb (existsb (Ascii.eqb c) ["_"%char; "-"%char; "."%char]))
    (map lower (list_ascii_of_string n))).

(** The names whose value is private. *)
Definition private (n : string) : Prop :=
  bare n ∈ ["code"; "state"; "otp"; "key"; "name"; "givenname"; "familyname"; "fullname"; "fulldisplayname"] ∨
  ∃ w, w ∈ ["email"; "phone"; "token"; "password"; "passwd"; "secret"; "signature"; "apikey"; "authorization"; "assertion";
            "challenge"; "dpop"] ∧ occurs w (bare n).

(** A name as the server reads it: percent-decoded, or as it is when that fails. *)
Definition reading (raw n : string) : Prop := match decodeURIComponent raw with Some t => n = t | None => n = raw end.

(** A query string with no at sign, plain or percent-encoded, and with every private value masked. *)
Definition clean_query (q : string) : Prop :=
  ¬ occurs "@" q ∧ ¬ occurs "%40" q ∧
  ∀ raw v n, In (String.append raw (String "=" v)) (split "&" q) → ¬ occurs "=" raw → reading raw n → private n → v = "[REDACTED]".

Definition clean_url (url : string) : Prop :=
  ∀ path q, url = String.append path (String "?" q) → ¬ occurs "?" path → clean_query q.

(** The same for a parsed query. *)
Fixpoint clean_value (name : string) (v : value) : Prop :=
  match v with
  | VArr l => foldr and True (map (clean_value name) l)
  | VObj l => ¬ private name ∧ foldr and True (map (λ kv, ¬ occurs "@" kv.1 ∧ clean_value kv.1 kv.2) l)
  | VStr s => (private name → s = "[REDACTED]") ∧ ¬ occurs "@" s
  | _ => ¬ private name
  end.

Definition clean_object (v : value) : Prop :=
  match v with VObj l => ∀ name w, In (name, w) l → ¬ occurs "@" name ∧ clean_value name w | _ => True end.

Lemma prefix_iff w s : String.prefix w s = true ↔ ∃ b, s = String.append w b.
Proof.
  revert s. induction w as [|c w IH]; intros s; [split; [by exists s | by destruct s]|]. destruct s as [|a s]; cbn [String.prefix String.append].
  - split; [done | by intros []].
  - destruct (ascii_dec c a) as [<-|N]; [|split; [done | intros [b [= ? _]]; congruence]]. rewrite IH. split; intros [b E]; exists b; congruence.
Qed.

Lemma includes_iff w s : includes w s = true ↔ occurs w s.
Proof.
  unfold occurs. induction s as [|c s IH]; cbn [includes]; rewrite orb_true_iff, prefix_iff.
  - split; [intros [[b E]|H]; [by exists EmptyString, b | done] | intros (a & b & E)]. destruct a; [left; by exists b | done].
  - rewrite IH. split.
    + intros [[b E]|(a & b & E)]; [by exists EmptyString, b | exists (String c a), b; by rewrite E].
    + intros ([|x a] & b & E); [left; by exists b | right; injection E as _ E; by exists a, b].
Qed.

Lemma includes_not w s : includes w s = false ↔ ¬ occurs w s.
Proof. rewrite <- includes_iff. by destruct (includes w s). Qed.

Lemma free_not_occurs c s : free c s ↔ ¬ occurs (String c EmptyString) s.
Proof.
  rewrite <- includes_not. induction s as [|a s IH]; [done|]. cbn [includes string_forallb]. rewrite andb_true_iff, orb_false_iff, IH.
  cbn [String.prefix]. destruct (ascii_dec c a) as [<-|N].
  - rewrite bool_decide_eq_true_2 by done. by destruct s; split; intros [].
  - rewrite bool_decide_eq_false_2 by congruence. naive_solver.
Qed.

Lemma occurs_cons w c s : occurs w s → occurs w (String c s).
Proof. intros (a & b & ->). by exists (String c a), b. Qed.

(** Where a text without the separator occurs. *)
Lemma occurs_around c w n v : free c w → w ≠ EmptyString →
  occurs w (String.append n (String c v)) ↔ occurs w n ∨ occurs w v.
Proof.
  intros Hf Hw. split.
  - assert (∀ w b n, free c w → String.append n (String c v) = String.append w b → ∃ b', n = String.append w b') as Hpre.
    { clear. induction w as [|x w IH]; intros b n Hf E; [by exists n|]. simpl in Hf. apply andb_true_iff in Hf as [H1 H2].
      destruct n as [|y n]; cbn [String.append] in E; injection E as -> E.
      - by rewrite bool_decide_eq_true_2 in H1.
      - destruct (IH b n H2 E) as [b' ->]. by exists b'. }
    intros (a & b & E). revert a E. induction n as [|x n IH]; intros [|y a] E; cbn [String.append] in E.
    + destruct (Hpre w b EmptyString Hf E) as [[|? ?] E']; by destruct w.
    + injection E as _ ->. right. by exists a, b.
    + destruct (Hpre w b (String x n) Hf E) as [b' ->]. left. by exists EmptyString, b'.
    + injection E as -> E. destruct (IH a E) as [H|H]; [left; by apply occurs_cons | by right].
  - intros [(a & b & ->)|(a & b & ->)].
    + exists a, (String.append b (String c v)). by rewrite !append_assoc.
    + exists (String.append n (String c a)), b. by rewrite append_assoc.
Qed.

Lemma occurs_split c w s : free c w → w ≠ EmptyString → occurs w s ↔ ∃ p, In p (split c s) ∧ occurs w p.
Proof.
  intros Hf Hw. rewrite <- (join_split_text c s) at 1. generalize (split c s). intros l.
  induction l as [|p l IH].
  - split; [intros ([|] & b & E); by destruct w | by intros (? & [] & _)].
  - destruct l as [|q l]; [split; [intros H; exists p; split; [by left | done] | by intros (? & [<-|[]] & H)]|].
    change (join c (p :: q :: l)) with (String.append p (String c (join c (q :: l)))). rewrite occurs_around, IH by done. split.
    + intros [H|(p' & Hin & H)]; [exists p; split; [by left | done] | exists p'; split; [by right | done]].
    + intros (p' & [<-|Hin] & H); [by left | right; by exists p'].
Qed.

Lemma bare_eq n : without_marks (toLowerCase n) = bare n.
Proof.
  induction n as [|c n IH]; [done|]. unfold bare in *. cbn [toLowerCase without_marks list_ascii_of_string map List.filter].
  rewrite IH. destruct (lower c) as [[] [] [] [] [] [] [] []]; reflexivity.
Qed.

Lemma private_iff n : isSensitiveName n = true ↔ private n.
Proof.
  unfold isSensitiveName, private. cbv zeta. rewrite bare_eq, orb_true_iff, bool_decide_eq_true, existsb_exists.
  split; (intros [H|(w & Hw & H)]; [by left | right; exists w; split; [by apply list_elem_of_In | by apply includes_iff]]).
Qed.

Lemma private_not n : isSensitiveName n = false ↔ ¬ private n.
Proof. rewrite <- private_iff. by destruct (isSensitiveName n). Qed.

(** *** Decoding produces an at sign only from an at sign or from %40 *)

(** What has been read of an escape *)
Definition before (p : place) (u : string) : Prop :=
  match p with
  | in_text => u = EmptyString
  | after_percent => u = "%"
  | after_digit d => ∃ h, digit_value 16 h = Some d ∧ u = String "%" (String h EmptyString)
  end.

Lemma digit_value_range c d : digit_value 16 c = Some d → 0 ≤ d < 16.
Proof.
  unfold digit_value. cbv zeta. destruct (_ <? 16) eqn:E; [|done]. intros [= <-]. boolify. split; [|lia].
  repeat case_match; boolify; lia.
Qed.

Lemma digit_four c : digit_value 16 c = Some 4 → c = "4"%char.
Proof. by destruct c as [[] [] [] [] [] [] [] []]. Qed.
Lemma digit_zero c : digit_value 16 c = Some 0 → c = "0"%char.
Proof. by destruct c as [[] [] [] [] [] [] [] []]. Qed.

Lemma escaped_at h c d e : digit_value 16 h = Some d → digit_value 16 c = Some e → byte_of (16 * d + e) = "@"%char →
  h = "4"%char ∧ c = "0"%char.
Proof.
  intros Hd He Hb. pose proof (digit_value_range _ _ Hd). pose proof (digit_value_range _ _ He).
  assert (16 * d + e = 64) as Eb.
  { apply (f_equal N_of_ascii) in Hb. unfold byte_of in Hb. rewrite N_ascii_embedding in Hb by lia.
    change (N_of_ascii "@") with 64%N in Hb. lia. }
  assert (d = 4 ∧ e = 0) as [-> ->] by lia. split; [by apply digit_four | by apply digit_zero].
Qed.

Lemma decode_at pending p u s t : decode_go pending p s = Some t → before p u → free "@"%char s →
  ¬ occurs "%40" (String.append u s) → free "@"%char t.
Proof.
  revert pending p u t. induction s as [|c s IH]; intros pending p u t Hd Hu Hf Ho; cbn [decode_go] in Hd.
  - destruct pending, p; try done. by injection Hd as <-.
  - cbn [string_forallb] in Hf. apply andb_true_iff in Hf as [Hc Hf].
    assert (∀ x y, ¬ occurs "%40" (String.append x (String y s)) → ¬ occurs "%40" s) as Hs.
    { intros x y H1 (a & b & ->). apply H1. exists (String.append x (String y a)), b. by rewrite !append_assoc. }
    destruct p as [| |d]; cbn [before] in Hu.
    + subst u. destruct (is_char 37 c) eqn:Ec.
      * eapply IH; [exact Hd|reflexivity|done|]. assert (c = "%"%char) as -> by (by destruct c as [[] [] [] [] [] [] [] []]). done.
      * destruct pending; [done|]. destruct (decode_go None in_text s) as [t'|] eqn:Et; [|done]. injection Hd as <-. simpl. rewrite Hc.
        eapply IH; [exact Et|reflexivity|done|]. by apply (Hs EmptyString c).
    + subst u. destruct (digit_value 16 c) as [d|] eqn:Ed; [|done]. eapply IH; [exact Hd|by exists c|done|done].
    + destruct Hu as (h & Hh & ->). destruct (digit_value 16 c) as [e|] eqn:Ed; [|done]. cbv zeta in Hd.
      assert (∀ pend, String (byte_of (16 * d + e)) <$> decode_go pend in_text s = Some t → free "@"%char t) as Hk.
      { intros pend Hk. destruct (decode_go pend in_text s) as [t'|] eqn:Et; [|done]. injection Hk as <-. cbn [string_forallb]. apply andb_true_iff. split.
        - destruct (decide (byte_of (16 * d + e) = "@"%char)) as [Eb|Eb]; [|by rewrite bool_decide_eq_false_2]. exfalso. destruct (escaped_at h c d e Hh Ed Eb) as [-> ->]. apply Ho. by exists EmptyString, s.
        - eapply IH; [exact Et|reflexivity|done|]. by eapply Hs. }
      destruct pending as [[[m lo] hi]|]; repeat case_match; simplify_eq; eauto.
Qed.

Lemma containsAtSign_iff s : containsAtSign s = false ↔ ¬ occurs "@" s ∧ ¬ occurs "%40" s.
Proof.
  split.
  - intros H. split; [by apply free_not_occurs, containsAtSign_free|]. apply orb_false_iff in H as [_ H]. by apply includes_not.
  - intros [H1%free_not_occurs H2]. unfold containsAtSign. apply orb_false_iff. split; [|by apply includes_not].
    rewrite includes_at. apply negb_false_iff. unfold decodeComponent, decodeURIComponent.
    destruct (decode_go None in_text s) as [t|] eqn:E; [|done]. by eapply (decode_at None in_text EmptyString s t).
Qed.

Lemma reading_decode raw n : reading raw n ↔ n = decodeComponent raw.
Proof. unfold reading, decodeComponent. by destruct (decodeURIComponent raw). Qed.

Lemma cut_none c s : cut c s = None → ¬ occurs (String c EmptyString) s.
Proof.
  induction s as [|a s IH]; simpl; [intros _ ([|] & b & E); done|]. case_bool_decide as E; [done|]. destruct (cut c s); [done|].
  intros _ ([|x y] & b & E'); cbn [String.append] in E'; injection E' as E1 E2; [congruence|]. apply IH; [done|]. by exists y, b.
Qed.

Lemma exposes_iff pair : exposes pair = false ↔ ¬ occurs "@" pair ∧ ¬ occurs "%40" pair ∧
  ∀ raw v n, pair = String.append raw (String "=" v) → ¬ occurs "=" raw → reading raw n → private n → v = "[REDACTED]".
Proof.
  unfold exposes. destruct (cut "=" pair) as [[raw v]|] eqn:E.
  - apply cut_spec in E as [Hraw ->]. rewrite !orb_false_iff, !containsAtSign_iff, !occurs_around by done.
    assert ((isSensitiveName (decodeComponent raw) && negb (bool_decide (v = CENSOR)) = false) ↔
      (private (decodeComponent raw) → v = "[REDACTED]")) as ->.
    { rewrite andb_false_iff, negb_false_iff, bool_decide_eq_true, <- private_iff. destruct (isSensitiveName _); naive_solver. }
    split.
    + intros [[[H1 H2] [H3 H4]] H5]. split_and!; [tauto..|]. intros raw' v' n Ep Hr Hn Hp. apply free_not_occurs in Hr.
      apply (f_equal (cut "=")) in Ep. rewrite !cut_append in Ep by done. injection Ep as <- <-. apply reading_decode in Hn as ->. auto.
    + intros (H1 & H2 & H3). split; [tauto|]. intros Hp. eapply (H3 raw v); [done|by apply free_not_occurs|by apply reading_decode|done].
  - rewrite containsAtSign_iff. split; [|tauto]. intros [H1 H2]. split_and!; [done..|]. intros raw v n -> Hr.
    apply free_not_occurs in Hr. by rewrite cut_append in E.
Qed.

Lemma clean_query_iff q : existsb exposes (split "&" q) = false ↔ clean_query q.
Proof.
  rewrite existsb_all_false, Forall_forall. unfold clean_query. split.
  - intros H. split_and!.
    + intros (p & Hp & Ho)%(occurs_split "&"); [|done..]. apply list_elem_of_In, H, exposes_iff in Hp as [Hp _]. done.
    + intros (p & Hp & Ho)%(occurs_split "&"); [|done..]. apply list_elem_of_In, H, exposes_iff in Hp as (_ & Hp & _). done.
    + intros raw v n Hp. apply list_elem_of_In, H, exposes_iff in Hp as (_ & _ & Hp). by apply (Hp raw v n).
  - intros (H1 & H2 & H3) p Hp%list_elem_of_In. apply exposes_iff. split_and!.
    + intros Ho. apply H1, (occurs_split "&"); [done..|]. by exists p.
    + intros Ho. apply H2, (occurs_split "&"); [done..|]. by exists p.
    + intros raw v n ->. by apply H3.
Qed.

Lemma clean_url_iff url : url_exposes url = false ↔ clean_url url.
Proof.
  unfold url_exposes, clean_url. destruct (cut "?" url) as [[path q]|] eqn:E.
  - rewrite clean_query_iff. apply cut_spec in E as [Hp ->]. split.
    + intros H path' q' E Hp'. apply free_not_occurs in Hp'. apply (f_equal (cut "?")) in E. rewrite !cut_append in E by done.
      by injection E as <- <-.
    + intros H. by apply (H path q), free_not_occurs.
  - split; [|done]. intros _ path q -> Hp%free_not_occurs. by rewrite cut_append in E.
Qed.

Lemma shows_clean v : ∀ name, shows name v = false → clean_value name v.
Proof.
  induction v as [ | |b|t|s|l IH|l IH] using value_induction; intros name; cbn [shows clean_value]; try by intros ?%private_not.
  - intros [H1 H2]%orb_false_iff. split; [|by apply includes_not]. intros Hp%private_iff. rewrite Hp in H1. by apply negb_false_iff, bool_decide_eq_true in H1.
  - induction IH as [|v l Hv _ IHl]; cbn; [done|]. intros [H1 H2]%orb_false_iff. split; [by apply Hv | by apply IHl].
  - intros [Hn H]%orb_false_iff. split; [by apply private_not|]. induction IH as [|[k v] l Hv _ IHl]; cbn in *; [done|].
    apply orb_false_iff in H as [[H1 H2]%orb_false_iff H3]. split; [|by apply IHl]. split; [by apply includes_not | by apply Hv].
Qed.

Lemma query_shows_clean v : query_shows v = false → clean_object v.
Proof.
  destruct v as [| | | | | |l]; try done. cbn [query_shows clean_object]. rewrite existsb_all_false, Forall_forall.
  intros H name w Hin. apply list_elem_of_In, H, orb_false_iff in Hin as [H1 H2]. split; [by apply includes_not | by apply shows_clean].
Qed.


(** The staff account search, a half-typed address, a sensitive name, and a pair that is kept. *)
Example redaction_examples :
  map redactUrl ["/v1/staff/accounts?email=jane%40example.com&limit=20"; "/x?q=jane@&access_Token=s3cr3t&country_code=NL"; "/x?%E0%A4=%zz%40&a"; "/x"] =
    ["/v1/staff/accounts?email=[REDACTED]&limit=20"; "/x?q=[REDACTED]&access_Token=[REDACTED]&country_code=NL"; "/x?%E0%A4=[REDACTED]&a"; "/x"].
Proof. vm_compute. reflexivity. Qed.

End RequestLog.

(** ** Module ErrorResponses: the answer to an error

    What a handler throws is an [AppError], a [ZodError], another object (an error of a library, of which the code reads
    the fields below; [ob_message] and [ob_body] stand for the rest, which may quote the request), or a value that is no
    object.  A status is a whole number, as [errorResponseSchema] demands. *)
Module ErrorResponses.
Import JsString RequestLog.

Record FieldError := mkFieldError { fe_field : string; fe_code : string; fe_message : string }.

Record AppErr := mkAppErr {
  ae_code : string; ae_title : string; ae_status : Z; ae_message : string; ae_type : string; ae_fieldErrors : option (list FieldError)
}.

(** [new AppError(options)]; the cause is not read again *)
Definition new_AppError (code title : string) (status : Z) (detail : string) (type : option string) (fieldErrors : option (list FieldError)) : AppErr :=
  mkAppErr code title status detail (default (String.append "https://api.vistablox.io/errors/" code) type) fieldErrors.

Record ZodIssue := mkIssue { is_path : list string; is_code : string; is_message : string }.

(** The fields of another object, as the [typeof] tests read them: [None] for a value of another type. *)
Record ErrorObject := mkObject {
  ob_type : option string; ob_code : option string; ob_status : option Z; ob_expose : bool; ob_message : string; ob_body : string
}.

Inductive thrown := TApp (e : AppErr) | TZod (issues : list ZodIssue) | TObject (o : ErrorObject) | TValue (text : string).

Record RejectedBody := mkRejected { rb_code : string; rb_title : string; rb_status : Z; rb_detail : string }.

Definition rejectedBodies : list (string * RejectedBody) :=
  [ ("entity.parse.failed", mkRejected "request.invalid_json" "Request body is not valid JSON" 400
      "The request body could not be parsed as a JSON object or array.");
    ("entity.too.large", mkRejected "request.payload_too_large" "Request body too large" 413
      "The request body is larger than the API accepts.");
    ("charset.unsupported", mkRejected "request.unsupported_charset" "Unsupported request charset" 415
      "The charset of the request body is not supported. Send it as UTF-8.");
    ("encoding.unsupported", mkRejected "request.unsupported_encoding" "Unsupported request content encoding" 415
      "The Content-Encoding of the request body is not supported.");
    ("request.aborted", mkRejected "request.aborted" "Request aborted" 400
      "The request was aborted before its body was fully received.");
    ("request.size.invalid", mkRejected "request.size_mismatch" "Request size mismatch" 400
      "The size of the request body did not match its Content-Length.") ].

Definition known_body (type : string) : option RejectedBody :=
  snd <$> List.find (λ kv, bool_decide (kv.1 = type)) rejectedBodies.

(** [type], [code], [status] and [expose === true] of what was thrown.  An [AppError] has the first three; a
    [ZodError] has none of them. *)
Definition fields (e : thrown) : option (option string * option string * option Z * bool) :=
  match e with
  | TApp a => Some (Some (ae_type a), Some (ae_code a), Some (ae_status a), false)
  | TZod _ => Some (None, None, None, false)
  | TObject o => Some (ob_type o, ob_code o, ob_status o, ob_expose o)
  | TValue _ => None
  end.

Definition translateBodyParserError (e : thrown) : option (AppErr * string) :=
  match fields e with
  | None => None
  | Some (type, code, status, expose) =>
      match type ≫= λ t, pair t <$> known_body t with
      | Some (t, known) => Some (new_AppError (rb_code known) (rb_title known) (rb_status known) (rb_detail known) None None, t)
      | None =>
          match status with
          | Some status =>
              if expose && (400 <=? status) && (status <? 500)
              then Some (new_AppError "request.body_rejected" "Request body rejected" status "The request body could not be read." None None,
                         default "unknown" code)
              else None
          | None => None
          end
      end
  end.

Definition or_text (s alternative : string) : string := match s with EmptyString => alternative | _ => s end.

Definition normalizeError (e : thrown) : AppErr :=
  match e with
  | TApp a => a
  | TZod issues =>
      new_AppError "validation.invalid_field" "Request validation failed" 422 "One or more fields did not pass validation." None
        (Some (map (λ i, mkFieldError (or_text (join "." (is_path i)) "request") (is_code i) (is_message i)) issues))
  | _ => new_AppError "internal.unexpected" "Internal server error" 500 "An unexpected error occurred." None None
  end.

Record ErrorResponse := mkResponse {
  er_type : string; er_code : string; er_title : string; er_status : Z; er_detail : string; er_trace_id : string; er_field_errors : option (list FieldError)
}.

Inductive log_line :=
  | Warn (trace_id : string) (status : Z) (code parser_error : string)
  | Error (err : thrown) (trace_id : string).

(** [None]: the headers are out, and the error is handed to Express. *)
Definition errorHandler (headersSent : bool) (locals_traceId : option string) (e : thrown) : option (ErrorResponse * list log_line) :=
  if headersSent then None else
  let rejectedBody := translateBodyParserError e in
  let normalized := default (normalizeError e) (fst <$> rejectedBody) in
  let traceId := default "unknown" locals_traceId in
  let payload := mkResponse (ae_type normalized) (ae_code normalized) (ae_title normalized) (ae_status normalized) (ae_message normalized)
                   traceId (ae_fieldErrors normalized) in
  Some (payload,
    match rejectedBody with
    | Some (_, parserError) => [Warn traceId (ae_status normalized) (ae_code normalized) parserError]
    | None => if 500 <=? ae_status normalized then [Error e traceId] else []
    end).

Definition notFoundHandler (method path : string) : thrown :=
  TApp (new_AppError "resource.not_found" "Resource not found" 404
    (String.append "No route exists for " (String.append method (String.append " " (String.append path ".")))) None None).

(** [requestContext]: the trace of the request, and the id of its authentication event; [ulid1] and [ulid2] are the
    values of the two calls (the first is not made when the client sent a trace). *)
Definition requestContext (inbound : option string) (ulid1 ulid2 : string) : string * string :=
  (match trim <$> inbound with Some (String c t) => String c t | _ => String.append "req_" ulid1 end,
   String.append "auth_evt_" ulid2).

(** ** What an answer discloses *)

(** Two throws the answer may not tell apart: library errors with the same fields, whatever their message and body. *)
Definition alike (e1 e2 : thrown) : Prop :=
  match e1, e2 with
  | TObject o1, TObject o2 => (ob_type o1, ob_code o1, ob_status o1, ob_expose o1) = (ob_type o2, ob_code o2, ob_status o2, ob_expose o2)
  | TValue _, TValue _ => True
  | _, _ => e1 = e2
  end.

Lemma alike_fields e1 e2 : alike e1 e2 → fields e1 = fields e2.
Proof. destruct e1, e2; simpl; intros; simplify_eq; try done; congruence. Qed.

Lemma alike_normalized e1 e2 : alike e1 e2 → normalizeError e1 = normalizeError e2.
Proof. destruct e1, e2; simpl; intros; simplify_eq; done. Qed.

Lemma known_body_4xx t known : known_body t = Some known → 400 ≤ rb_status known < 500.
Proof.
  unfold known_body, rejectedBodies. cbn [List.find fst]. repeat case_bool_decide; simpl; intros; simplify_eq; simpl; lia.
Qed.

Lemma rejected_4xx e a t : translateBodyParserError e = Some (a, t) → 400 ≤ ae_status a < 500.
Proof.
  unfold translateBodyParserError. destruct (fields e) as [[[[type code] status] expose]|]; [|done].
  destruct (type ≫= _) as [[t' known]|] eqn:E.
  - intros [= <- <-]. destruct type as [ty|]; simpl in E; [|done]. destruct (known_body ty) eqn:Ek; simplify_eq/=. by apply known_body_4xx in Ek.
  - destruct status as [st|]; [|done]. destruct (_ && _ && _) eqn:Eb; [|done]. intros [= <- <-]. boolify. simpl. lia.
Qed.

(** The answer does not depend on the message or the body of a library error.  A rejected body answers a 4xx, and
    its one log line leaves the error object out; a line that does carry the error is written only for a status of 500
    or more, and only when the body parser had not rejected the request. *)
Theorem error_answers_disclose_nothing headersSent trace e1 e2 :
  alike e1 e2 →
  (fst <$> errorHandler headersSent trace e1 = fst <$> errorHandler headersSent trace e2) ∧
  (is_Some (translateBodyParserError e1) →
     errorHandler headersSent trace e1 = errorHandler headersSent trace e2 ∧
     (∀ r logs, errorHandler headersSent trace e1 = Some (r, logs) → 400 ≤ er_status r < 500 ∧ length logs = 1%nat)) ∧
  (∀ r logs t, errorHandler headersSent trace e1 = Some (r, logs) → Error e1 t ∈ logs → 500 ≤ er_status r ∧ translateBodyParserError e1 = None).
Proof.
  intros H. unfold errorHandler. destruct headersSent; [split_and!; [done|done|done]|]. cbv zeta.
  assert (E : translateBodyParserError e1 = translateBodyParserError e2)
    by (unfold translateBodyParserError; by rewrite (alike_fields _ _ H)).
  rewrite <- E, (alike_normalized _ _ H). destruct (translateBodyParserError e1) as [[a t]|] eqn:Et; simpl; split_and!; try done.
  - intros _. split; [done|]. intros r logs [= <- <-]. simpl. split; [by eapply rejected_4xx|done].
  - intros r logs u [= <- <-] Hin. set_solver.
  - intros r logs u [= <- <-] Hin. destruct (500 <=? _) eqn:Es; [|set_solver]. simpl. by boolify.
Qed.

End ErrorResponses.
