(* ===== verification/IntakeDb.v ===== *)
(** The tables of the intake module beside the shared ones of [Db]: properties and rooms, the
    case-event ledger, submission revisions and their evidence, information requests, reversal
    operations and message threads, with the constraints of the migrations that make a write
    throw; and intake-case-event.repository.ts, which every transaction appends through.

    The timestamps [recorded_at] of events and [created_at] of properties and rooms are
    filled by the database clock and read by nothing; they are left out. *)

From S2P Require Import Prelude JsString Currency DateTime IntakePolicy Db.

(** The stored text of the stages and workflows. *)
Definition stage_text (st : IntakePolicy.Stage) : string :=
  match st with
  | IntakePolicy.draft => "draft"
  | IntakePolicy.submitted => "submitted"
  | IntakePolicy.waiting_on_applicant => "waiting_on_applicant"
  | IntakePolicy.pre_offering_open => "pre_offering_open"
  | IntakePolicy.post_ipo_structuring => "post_ipo_structuring"
  | IntakePolicy.approved_for_final_offering => "approved_for_final_offering"
  | IntakePolicy.rejected => "rejected"
  | IntakePolicy.withdrawn => "withdrawn"
  | IntakePolicy.expired => "expired"
  end.

Inductive IntakeCaseEventActor := staff | applicant | partner | system.
#[global] Instance IntakeCaseEventActor_eq_dec : EqDecision IntakeCaseEventActor.
Proof. solve_decision. Defined.

Inductive EvidenceStatus := evidence_pending | mandatory_missing | evidence_accepted | evidence_rejected.
#[global] Instance EvidenceStatus_eq_dec : EqDecision EvidenceStatus.
Proof. solve_decision. Defined.

Inductive ResolutionType := resubmitted | resolution_withdrawn | resolution_expired.
#[global] Instance ResolutionType_eq_dec : EqDecision ResolutionType.
Proof. solve_decision. Defined.

Inductive OperationStatus :=
  | requested | pending_approval | approved | executing | completed | failed | cancelled.
#[global] Instance OperationStatus_eq_dec : EqDecision OperationStatus.
Proof. solve_decision. Defined.

Inductive ThreadLane := internal_case | applicant_lane.
#[global] Instance ThreadLane_eq_dec : EqDecision ThreadLane.
Proof. solve_decision. Defined.

(** ** Rows *)

(** StructuredPropertyDetails: NUMERIC(6,2) areas are whole hundredths. *)
Record PropertyDetails := mkDetails {
  residentialSubtype : option string; livingAreaSqM : option Z; bedrooms : option Z; bathrooms : option Z;
  floor : option Z; totalFloors : option Z; yearBuilt : option Z; condition : option string;
  energyRating : option string }.

Module Property.
(** [property_type] is always "residential"; coordinates are kept as their decimal text. *)
Record t := mk {
  id : string; countryCode : string; city : option string; addressLine : option string;
  landRegistryReference : option string; latitude : option string; longitude : option string;
  ownerDeclaredValueEur : Z; hasExistingEncumbrance : bool; details : PropertyDetails }.
End Property.

Module PropertyRoom.
Record t := mk { id : string; propertyId : string; roomType : string; sizeSqM : Z; preferredPhotoId : option string }.
End PropertyRoom.

Module CaseEvent.
Record t := mk {
  id : string; caseId : string; eventSequence : Z; eventKey : string; eventType : string;
  workflowType : IntakePolicy.WorkflowType; workflowVersion : Z;
  fromStage : option IntakePolicy.Stage; toStage : option IntakePolicy.Stage;
  actorType : IntakeCaseEventActor; actorAccountId : option string; traceId : option string;
  causationEventId : option string; relatedResourceType : option string; relatedResourceId : option string;
  metadata : list (string * json); occurredAt : Z; eventSource : string;
  sourceAuditLogId : option string; sourceJobId : option string; reversalOfEventId : option string }.
End CaseEvent.

Module Revision.
Record t := mk {
  id : string; caseId : string; revisionNumber : Z; submittedAt : Z; submittedByAccountId : string;
  submissionData : list (string * json); reason : string }.
End Revision.

Module Evidence.
Record t := mk {
  id : string; caseId : string; submissionRevisionId : string; documentType : string; status : EvidenceStatus;
  documentRef : string; extractDated : option Z; uploadedAt : Z;
  reviewedByAccountId : option string; reviewedAt : option Z; reviewNotes : option string }.
Definition reviewed (st : EvidenceStatus) (by_ : string) (at_ : Z) (notes : option string) (e : t) : t :=
  mk e.(id) e.(caseId) e.(submissionRevisionId) e.(documentType) st e.(documentRef) e.(extractDated)
     e.(uploadedAt) (Some by_) (Some at_) notes.
End Evidence.

Module InformationRequest.
Record t := mk {
  id : string; caseId : string; requestingWorkstream : string; proposedByAccountId : string; proposedAt : Z;
  status : IntakePolicy.RequestStatus; publishedByAccountId : option string; publishedAt : option Z;
  dueAt : option Z; requestBody : string; resolvedAt : option Z; resolutionType : option ResolutionType;
  resolvingRevisionId : option string }.
Definition resolve (st : IntakePolicy.RequestStatus) (at_ : Z) (how : ResolutionType) (revision : option string)
    (r : t) : t :=
  mk r.(id) r.(caseId) r.(requestingWorkstream) r.(proposedByAccountId) r.(proposedAt) st
     r.(publishedByAccountId) r.(publishedAt) r.(dueAt) r.(requestBody) (Some at_) (Some how)
     (match revision with Some v => Some v | None => r.(resolvingRevisionId) end).
End InformationRequest.

Module Operation.
Record t := mk {
  id : string; caseId : string; command : string; fromStage : IntakePolicy.Stage; toStage : IntakePolicy.Stage;
  status : OperationStatus; reasonCode : string; reason : string; requestedByAccountId : string;
  approvedByAccountId : option string; expectedStage : IntakePolicy.Stage; expectedWorkflowEventSequence : Z;
  reversalOfEventId : option string; idempotencyKey : string; traceId : string;
  failureCode : option string; failureDetail : option string; createdAt : Z;
  approvedAt : option Z; startedAt : option Z; completedAt : option Z; failedAt : option Z }.
Definition approve (by_ : string) (at_ : Z) (o : t) : t :=
  mk o.(id) o.(caseId) o.(command) o.(fromStage) o.(toStage) approved o.(reasonCode) o.(reason)
     o.(requestedByAccountId) (Some by_) o.(expectedStage) o.(expectedWorkflowEventSequence)
     o.(reversalOfEventId) o.(idempotencyKey) o.(traceId) o.(failureCode) o.(failureDetail) o.(createdAt)
     (Some at_) o.(startedAt) o.(completedAt) o.(failedAt).
Definition start (at_ : Z) (o : t) : t :=
  mk o.(id) o.(caseId) o.(command) o.(fromStage) o.(toStage) executing o.(reasonCode) o.(reason)
     o.(requestedByAccountId) o.(approvedByAccountId) o.(expectedStage) o.(expectedWorkflowEventSequence)
     o.(reversalOfEventId) o.(idempotencyKey) o.(traceId) o.(failureCode) o.(failureDetail) o.(createdAt)
     o.(approvedAt) (Some at_) o.(completedAt) o.(failedAt).
Definition complete (at_ : Z) (o : t) : t :=
  mk o.(id) o.(caseId) o.(command) o.(fromStage) o.(toStage) completed o.(reasonCode) o.(reason)
     o.(requestedByAccountId) o.(approvedByAccountId) o.(expectedStage) o.(expectedWorkflowEventSequence)
     o.(reversalOfEventId) o.(idempotencyKey) o.(traceId) o.(failureCode) o.(failureDetail) o.(createdAt)
     o.(approvedAt) o.(startedAt) (Some at_) o.(failedAt).
Definition fail (code detail : string) (at_ : Z) (o : t) : t :=
  mk o.(id) o.(caseId) o.(command) o.(fromStage) o.(toStage) failed o.(reasonCode) o.(reason)
     o.(requestedByAccountId) o.(approvedByAccountId) o.(expectedStage) o.(expectedWorkflowEventSequence)
     o.(reversalOfEventId) o.(idempotencyKey) o.(traceId) (Some code) (Some detail) o.(createdAt)
     o.(approvedAt) o.(startedAt) o.(completedAt) (Some at_).
End Operation.

Module CaseThread.
Record t := mk { id : string; caseId : string; lane : ThreadLane }.
End CaseThread.

Module CaseMessage.
Record t := mk { id : string; threadId : string; authorAccountId : option string; body : string; createdAt : Z }.
End CaseMessage.

(** legal_practices and appraisal_firms have the same columns. *)
Module Organization.
Inductive Status := active | suspended.
#[global] Instance Status_eq_dec : EqDecision Status.
Proof. solve_decision. Defined.
Record t := mk { id : string; name : string; countryCode : string; status : Status }.
Definition set_status (st : Status) (o : t) : t := mk o.(id) o.(name) o.(countryCode) st.
End Organization.

(** A stored document: a room's photo, or a rendered variant of another document.  The upload
    code that writes the table is not part of the model. *)
Module StoredDocument.
Record deletion := mkDeletion { deleted_at : Z; deletedByAccountId : string; deletionReason : string; retentionUntil : Z }.
Record t := mk {
  id : string; bucket : string; caseId : option string; roomId : option string; sourceDocumentId : option string;
  variantType : option string; documentType : string; uploadStatus : string; deleted : option deletion;
  objectKey : string; contentType : string; sizeBytes : Z; sha256Checksum : string; createdAt : Z }.
Definition deletedAt (d : t) : option Z := deleted_at <$> d.(deleted).
Definition set_deleted (v : deletion) (d : t) : t :=
  mk d.(id) d.(bucket) d.(caseId) d.(roomId) d.(sourceDocumentId) d.(variantType) d.(documentType) d.(uploadStatus) (Some v)
     d.(objectKey) d.(contentType) d.(sizeBytes) d.(sha256Checksum) d.(createdAt).
Definition without_room (d : t) : t :=
  mk d.(id) d.(bucket) d.(caseId) None d.(sourceDocumentId) d.(variantType) d.(documentType) d.(uploadStatus) d.(deleted)
     d.(objectKey) d.(contentType) d.(sizeBytes) d.(sha256Checksum) d.(createdAt).
End StoredDocument.

(** ** The state *)

Record intake := mkIntake {
  (** the tables of [Db], the case rows among them *)
  base : db;
  properties : list Property.t;
  rooms : list PropertyRoom.t;
  caseEvents : list CaseEvent.t;
  revisions : list Revision.t;
  evidence : list Evidence.t;
  requests : list InformationRequest.t;
  operations : list Operation.t;
  threads : list CaseThread.t;
  messages : list CaseMessage.t;
  (** the legal practices and the appraisal firms *)
  practices : list Organization.t;
  firms : list Organization.t;
  (** platform.settings *)
  settings : list (string * json);
  documents : list StoredDocument.t }.

Definition set_base v s := mkIntake v (properties s) (rooms s) (caseEvents s) (revisions s) (evidence s)
  (requests s) (operations s) (threads s) (messages s) (practices s) (firms s) (settings s) (documents s).
Definition set_properties v s := mkIntake (base s) v (rooms s) (caseEvents s) (revisions s) (evidence s)
  (requests s) (operations s) (threads s) (messages s) (practices s) (firms s) (settings s) (documents s).
Definition set_rooms v s := mkIntake (base s) (properties s) v (caseEvents s) (revisions s) (evidence s)
  (requests s) (operations s) (threads s) (messages s) (practices s) (firms s) (settings s) (documents s).
Definition set_caseEvents v s := mkIntake (base s) (properties s) (rooms s) v (revisions s) (evidence s)
  (requests s) (operations s) (threads s) (messages s) (practices s) (firms s) (settings s) (documents s).
Definition set_revisions v s := mkIntake (base s) (properties s) (rooms s) (caseEvents s) v (evidence s)
  (requests s) (operations s) (threads s) (messages s) (practices s) (firms s) (settings s) (documents s).
Definition set_evidence v s := mkIntake (base s) (properties s) (rooms s) (caseEvents s) (revisions s) v
  (requests s) (operations s) (threads s) (messages s) (practices s) (firms s) (settings s) (documents s).
Definition set_requests v s := mkIntake (base s) (properties s) (rooms s) (caseEvents s) (revisions s) (evidence s)
  v (operations s) (threads s) (messages s) (practices s) (firms s) (settings s) (documents s).
Definition set_operations v s := mkIntake (base s) (properties s) (rooms s) (caseEvents s) (revisions s) (evidence s)
  (requests s) v (threads s) (messages s) (practices s) (firms s) (settings s) (documents s).
Definition set_threads v s := mkIntake (base s) (properties s) (rooms s) (caseEvents s) (revisions s) (evidence s)
  (requests s) (operations s) v (messages s) (practices s) (firms s) (settings s) (documents s).
Definition set_messages v s := mkIntake (base s) (properties s) (rooms s) (caseEvents s) (revisions s) (evidence s)
  (requests s) (operations s) (threads s) v (practices s) (firms s) (settings s) (documents s).
Definition set_practices v s := mkIntake (base s) (properties s) (rooms s) (caseEvents s) (revisions s) (evidence s)
  (requests s) (operations s) (threads s) (messages s) v (firms s) (settings s) (documents s).
Definition set_firms v s := mkIntake (base s) (properties s) (rooms s) (caseEvents s) (revisions s) (evidence s)
  (requests s) (operations s) (threads s) (messages s) (practices s) v (settings s) (documents s).

Definition set_documents v s := mkIntake (base s) (properties s) (rooms s) (caseEvents s) (revisions s) (evidence s)
  (requests s) (operations s) (threads s) (messages s) (practices s) (firms s) (settings s) v.

Module IntakeDb.
Import IntakePolicy.

(** ** Reads *)

Definition get_case (k : string) (s : intake) : option IntakeCase.t := find_case k (base s).

(** the locked row [WHERE case_id = k AND applicant_account_id = a] *)
Definition owned_case (k accountId : string) (s : intake) : option IntakeCase.t :=
  find_row (λ c, bool_decide (IntakeCase.id c = k) && bool_decide (IntakeCase.applicantAccountId c = accountId))
    (cases (base s)).

Definition request_of_case (caseId requestId : string) (r : InformationRequest.t) : bool :=
  bool_decide (InformationRequest.caseId r = caseId) && bool_decide (InformationRequest.id r = requestId).

(** [informationRequests: where: { id }] of one case, [take: 1]. *)
Definition case_request (caseId requestId : string) (s : intake) : option InformationRequest.t :=
  find_row (request_of_case caseId requestId) (requests s).

Definition is_published (r : InformationRequest.t) : bool :=
  bool_decide (InformationRequest.status r = published).

Definition published_of_case (caseId : string) (r : InformationRequest.t) : bool :=
  bool_decide (InformationRequest.caseId r = caseId) && is_published r.

(** [informationRequests: where: { status: "published" }, take: 1] of one case. *)
Definition published_request (caseId : string) (s : intake) : option InformationRequest.t :=
  find_row (published_of_case caseId) (requests s).

Definition find_revision (k : string) (s : intake) : option Revision.t :=
  find_row (by_id Revision.id k) (revisions s).

Definition find_operation (caseId operationId : string) (s : intake) : option Operation.t :=
  find_row (λ o, bool_decide (Operation.id o = operationId) && bool_decide (Operation.caseId o = caseId))
    (operations s).

Definition account_exists (k : string) (s : intake) : bool := exists_row (by_id Account.id k) (accounts (base s)).
Definition opt_ok {A} (p : A → bool) (o : option A) : bool := match o with Some x => p x | None => true end.

(** ** Constrained writes *)

Definition P2025 {A} : result A := Err (Thrown "P2025").

Definition property_create (p : Property.t) (s : intake) : result intake :=
  if exists_row (by_id Property.id (Property.id p)) (properties s) then violation "properties_pkey"
  else if negb (fits_numeric_15_2 (Property.ownerDeclaredValueEur p)) then violation "numeric_overflow"
  else Ok (set_properties (properties s ++ [p]) s).

Definition room_create (r : PropertyRoom.t) (s : intake) : result intake :=
  if exists_row (by_id PropertyRoom.id (PropertyRoom.id r)) (rooms s) then violation "property_rooms_pkey"
  else if negb (exists_row (by_id Property.id (PropertyRoom.propertyId r)) (properties s))
    then violation "property_rooms_property_id_fkey"
  else Ok (set_rooms (rooms s ++ [r]) s).

Definition case_create (c : IntakeCase.t) (s : intake) : result intake :=
  if exists_row (by_id IntakeCase.id (IntakeCase.id c)) (cases (base s)) then violation "intake_cases_pkey"
  else if negb (exists_row (by_id Property.id (IntakeCase.propertyId c)) (properties s))
    then violation "intake_cases_property_id_fkey"
  else if negb (account_exists (IntakeCase.applicantAccountId c) s)
    then violation "intake_cases_applicant_account_id_fkey"
  else Ok (set_base (set_cases (cases (base s) ++ [c]) (base s)) s).

(** The CHECK on the IPO terms, the column precision and the foreign keys of a case row. *)
Definition case_row_ok (s : intake) (c : IntakeCase.t) : bool :=
  opt_ok (λ d, 0 <? d) (IntakeCase.ipoPeriodDays (IntakeCase.ipo c)) &&
  opt_ok (λ v, (0 <? v) && fits_numeric_15_2 v) (IntakeCase.ipoValueEur (IntakeCase.ipo c)) &&
  opt_ok fits_numeric_15_2 (IntakeCase.appraisalValueOpinionEur (IntakeCase.partner c)) &&
  opt_ok (λ a, account_exists a s) (IntakeCase.reviewedByAccountId (IntakeCase.review c)) &&
  opt_ok (λ p, exists_row (by_id Organization.id p) (practices s)) (IntakeCase.legalPracticeId (IntakeCase.partner c)) &&
  opt_ok (λ f, exists_row (by_id Organization.id f) (firms s)) (IntakeCase.appraisalFirmId (IntakeCase.partner c)) &&
  opt_ok (λ r, exists_row (by_id Revision.id r) (revisions s)) (IntakeCase.currentSubmissionRevisionId c).

Definition update_case (k : string) (f : IntakeCase.t → IntakeCase.t) (s : intake) : intake :=
  set_base (set_cases (update_where (by_id IntakeCase.id k) f (cases (base s))) (base s)) s.

Definition case_update (k : string) (f : IntakeCase.t → IntakeCase.t) (s : intake) : result intake :=
  match get_case k s with
  | None => P2025
  | Some c => if case_row_ok s (f c) then Ok (update_case k f s) else violation "intake_cases_check"
  end.

(** submission_revisions is append-only: creating a row is the only write. *)
Definition revision_create (r : Revision.t) (s : intake) : result intake :=
  if exists_row (by_id Revision.id (Revision.id r)) (revisions s) then violation "submission_revisions_pkey"
  else if exists_row (λ q, bool_decide (Revision.caseId q = Revision.caseId r) &&
                           (Revision.revisionNumber q =? Revision.revisionNumber r)) (revisions s)
    then violation "submission_revisions_case_id_revision_number_key"
  else if negb (0 <? Revision.revisionNumber r) then violation "submission_revisions_number_check"
  else if negb (exists_row (by_id IntakeCase.id (Revision.caseId r)) (cases (base s)))
    then violation "submission_revisions_case_id_fkey"
  else if negb (account_exists (Revision.submittedByAccountId r) s)
    then violation "submission_revisions_submitted_by_account_id_fkey"
  else Ok (set_revisions (revisions s ++ [r]) s).

Definition evidence_create (e : Evidence.t) (s : intake) : result intake :=
  if exists_row (by_id Evidence.id (Evidence.id e)) (evidence s)
    then violation "documentary_screening_evidence_pkey"
  else if negb (exists_row (by_id IntakeCase.id (Evidence.caseId e)) (cases (base s)))
    then violation "documentary_screening_evidence_case_id_fkey"
  else if negb (exists_row (by_id Revision.id (Evidence.submissionRevisionId e)) (revisions s))
    then violation "documentary_screening_evidence_submission_revision_id_fkey"
  else Ok (set_evidence (evidence s ++ [e]) s).

(** documentary_screening_evidence_review_consistency_check *)
Definition evidence_row_ok (e : Evidence.t) : bool :=
  if bool_decide (Evidence.status e = evidence_pending)
  then negb (is_set (Evidence.reviewedByAccountId e)) && negb (is_set (Evidence.reviewedAt e))
  else is_set (Evidence.reviewedByAccountId e) && is_set (Evidence.reviewedAt e).

Definition evidence_update (k : string) (f : Evidence.t → Evidence.t) (s : intake) : result intake :=
  match find_row (by_id Evidence.id k) (evidence s) with
  | None => P2025
  | Some e =>
      if negb (evidence_row_ok (f e)) then violation "documentary_screening_evidence_review_consistency_check"
      else if negb (opt_ok (λ a, account_exists a s) (Evidence.reviewedByAccountId (f e)))
        then violation "documentary_screening_evidence_reviewed_by_account_id_fkey"
      else Ok (set_evidence (update_where (by_id Evidence.id k) f (evidence s)) s)
  end.

(** information_requests_resolution_check and information_requests_publication_check *)
Definition request_row_ok (r : InformationRequest.t) : bool :=
  match InformationRequest.status r with
  | proposed | published =>
      negb (is_set (InformationRequest.resolutionType r)) && negb (is_set (InformationRequest.resolvedAt r)) &&
      negb (is_set (InformationRequest.resolvingRevisionId r))
  | answered =>
      bool_decide (InformationRequest.resolutionType r = Some resubmitted) &&
      is_set (InformationRequest.resolvedAt r) && is_set (InformationRequest.resolvingRevisionId r)
  | request_withdrawn =>
      bool_decide (InformationRequest.resolutionType r = Some resolution_withdrawn) &&
      is_set (InformationRequest.resolvedAt r) && negb (is_set (InformationRequest.resolvingRevisionId r))
  | request_expired =>
      bool_decide (InformationRequest.resolutionType r = Some resolution_expired) &&
      is_set (InformationRequest.resolvedAt r) && negb (is_set (InformationRequest.resolvingRevisionId r))
  end &&
  (bool_decide (InformationRequest.status r = proposed) ||
   is_set (InformationRequest.publishedByAccountId r) && is_set (InformationRequest.publishedAt r) &&
   is_set (InformationRequest.dueAt r)).

Definition request_create (r : InformationRequest.t) (s : intake) : result intake :=
  if exists_row (by_id InformationRequest.id (InformationRequest.id r)) (requests s)
    then violation "information_requests_pkey"
  else if negb (exists_row (by_id IntakeCase.id (InformationRequest.caseId r)) (cases (base s)))
    then violation "information_requests_case_id_fkey"
  else if negb (account_exists (InformationRequest.proposedByAccountId r) s)
    then violation "information_requests_proposed_by_account_id_fkey"
  else if negb (opt_ok (λ a, account_exists a s) (InformationRequest.publishedByAccountId r))
    then violation "information_requests_published_by_account_id_fkey"
  else if negb (request_row_ok r) then violation "information_requests_check"
  else Ok (set_requests (requests s ++ [r]) s).

Definition request_update (k : string) (f : InformationRequest.t → InformationRequest.t) (s : intake) : result intake :=
  match find_row (by_id InformationRequest.id k) (requests s) with
  | None => P2025
  | Some r =>
      if negb (request_row_ok (f r)) then violation "information_requests_check"
      else if negb (opt_ok (λ v, exists_row (by_id Revision.id v) (revisions s)) (InformationRequest.resolvingRevisionId (f r)))
        then violation "information_requests_resolving_revision_id_fkey"
      else Ok (set_requests (update_where (by_id InformationRequest.id k) f (requests s)) s)
  end.

Definition same_operation_key (caseId key : string) (o : Operation.t) : bool :=
  bool_decide (Operation.caseId o = caseId) && bool_decide (Operation.idempotencyKey o = key).

Definition event_exists (k : string) (s : intake) : bool := exists_row (by_id CaseEvent.id k) (caseEvents s).

Definition operation_create (o : Operation.t) (s : intake) : result intake :=
  if exists_row (by_id Operation.id (Operation.id o)) (operations s)
    then violation "intake_case_reversal_operations_pkey"
  else if exists_row (same_operation_key (Operation.caseId o) (Operation.idempotencyKey o)) (operations s)
    then violation "intake_case_reversal_operations_case_id_idempotency_key_key"
  else if negb ((1 <=? String.length (Operation.reason o))%nat && (String.length (Operation.reason o) <=? 500)%nat)
    then violation "intake_case_reversal_operations_reason_check"
  else if negb (exists_row (by_id IntakeCase.id (Operation.caseId o)) (cases (base s)))
    then violation "intake_case_reversal_operations_case_id_fkey"
  else if negb (account_exists (Operation.requestedByAccountId o) s)
    then violation "intake_case_reversal_operations_requested_by_fkey"
  else if negb (opt_ok (λ e, event_exists e s) (Operation.reversalOfEventId o))
    then violation "intake_case_reversal_operations_reversal_event_fkey"
  else Ok (set_operations (operations s ++ [o]) s).

(** [updateMany] over the operations. *)
Definition update_operations (p : Operation.t → bool) (f : Operation.t → Operation.t) (s : intake) : intake :=
  set_operations (update_where p f (operations s)) s.

Definition thread_create (t : CaseThread.t) (s : intake) : result intake :=
  if exists_row (by_id CaseThread.id (CaseThread.id t)) (threads s) then violation "case_threads_pkey"
  else if exists_row (λ q, bool_decide (CaseThread.caseId q = CaseThread.caseId t) &&
                           bool_decide (CaseThread.lane q = CaseThread.lane t)) (threads s)
    then violation "case_threads_case_id_lane_key"
  else if negb (exists_row (by_id IntakeCase.id (CaseThread.caseId t)) (cases (base s)))
    then violation "case_threads_case_id_fkey"
  else Ok (set_threads (threads s ++ [t]) s).

Definition message_create (m : CaseMessage.t) (s : intake) : result intake :=
  if exists_row (by_id CaseMessage.id (CaseMessage.id m)) (messages s) then violation "case_messages_pkey"
  else if negb (exists_row (by_id CaseThread.id (CaseMessage.threadId m)) (threads s))
    then violation "case_messages_thread_id_fkey"
  else if negb (opt_ok (λ a, account_exists a s) (CaseMessage.authorAccountId m))
    then violation "case_messages_author_account_id_fkey"
  else Ok (set_messages (messages s ++ [m]) s).

(** intake_case_events: the keys, the CHECKs and the trigger
    validate_intake_case_reversal_event; the table is append-only. *)
Definition is_transition (e : CaseEvent.t) : bool :=
  match CaseEvent.fromStage e, CaseEvent.toStage e with
  | Some a, Some b => negb (bool_decide (a = b))
  | _, _ => false
  end.

Definition transition_ok (e : CaseEvent.t) : bool :=
  (negb (is_set (CaseEvent.fromStage e)) && negb (is_set (CaseEvent.toStage e))) || is_transition e.

Definition reverses (k : string) (e : CaseEvent.t) : bool := bool_decide (CaseEvent.reversalOfEventId e = Some k).

Definition reversal_ok (e : CaseEvent.t) (s : intake) : bool :=
  match CaseEvent.reversalOfEventId e with
  | None => true
  | Some k =>
      event_exists k s && negb (exists_row (reverses k) (caseEvents s)) && is_transition e &&
      negb (exists_row (λ q, by_id CaseEvent.id k q && is_set (CaseEvent.reversalOfEventId q)) (caseEvents s))
  end.

Definition event_create (e : CaseEvent.t) (s : intake) : result intake :=
  if exists_row (by_id CaseEvent.id (CaseEvent.id e)) (caseEvents s) then violation "intake_case_events_pkey"
  else if exists_row (by_id CaseEvent.eventKey (CaseEvent.eventKey e)) (caseEvents s)
    then violation "intake_case_events_event_key_key"
  else if exists_row (λ q, bool_decide (CaseEvent.caseId q = CaseEvent.caseId e) &&
                           (CaseEvent.eventSequence q =? CaseEvent.eventSequence e)) (caseEvents s)
    then violation "intake_case_events_case_id_event_sequence_key"
  else if match CaseEvent.sourceAuditLogId e with
          | None => false
          | Some a => exists_row (λ q, bool_decide (CaseEvent.sourceAuditLogId q = Some a)) (caseEvents s)
          end then violation "intake_case_events_source_audit_log_id_key"
  else if negb (0 <? CaseEvent.eventSequence e) then violation "intake_case_events_event_sequence_check"
  else if negb (0 <=? CaseEvent.workflowVersion e) then violation "intake_case_events_workflow_version_check"
  else if bool_decide (CaseEvent.actorType e = system) && is_set (CaseEvent.actorAccountId e)
    then violation "intake_case_events_system_actor_check"
  else if negb (bool_decide (CaseEvent.eventSource e ∈ ["live"; "legacy_audit"]))
    then violation "intake_case_events_event_source_check"
  else if negb (transition_ok e) then violation "intake_case_events_transition_check"
  else if negb (exists_row (by_id IntakeCase.id (CaseEvent.caseId e)) (cases (base s)))
    then violation "intake_case_events_case_id_fkey"
  else if negb (opt_ok (λ a, account_exists a s) (CaseEvent.actorAccountId e))
    then violation "intake_case_events_actor_account_id_fkey"
  else if negb (reversal_ok e s) then violation "intake_case_events_reversal"
  else Ok (set_caseEvents (caseEvents s ++ [e]) s).

(** ** intake-case-event.repository.ts *)

Record AppendIntakeCaseEventInput := mkAppend {
  ev_caseId : string; ev_eventKey : string; ev_eventType : string; ev_actorType : IntakeCaseEventActor;
  ev_actorAccountId : option string; ev_traceId : option string; ev_causationEventId : option string;
  ev_fromStage : option Stage; ev_toStage : option Stage;
  ev_relatedResourceType : option string; ev_relatedResourceId : option string;
  ev_metadata : list (string * json); ev_occurredAt : Z; ev_eventSource : option string;
  ev_sourceAuditLogId : option string; ev_sourceJobId : option string; ev_reversalOfEventId : option string;
  ev_workflowVersion : option Z }.

(** An input with the optional fields left out. *)
Definition event_input (caseId key type_ : string) (actor : IntakeCaseEventActor) (account : option string)
    (traceId : string) (meta : list (string * json)) (at_ : Z) : AppendIntakeCaseEventInput :=
  mkAppend caseId key type_ actor account (Some traceId) None None None None None meta at_ None None None None None.
Definition with_stages (from_ to_ : Stage) (i : AppendIntakeCaseEventInput) : AppendIntakeCaseEventInput :=
  mkAppend (ev_caseId i) (ev_eventKey i) (ev_eventType i) (ev_actorType i) (ev_actorAccountId i) (ev_traceId i)
    (ev_causationEventId i) (Some from_) (Some to_) (ev_relatedResourceType i) (ev_relatedResourceId i) (ev_metadata i)
    (ev_occurredAt i) (ev_eventSource i) (ev_sourceAuditLogId i) (ev_sourceJobId i) (ev_reversalOfEventId i)
    (ev_workflowVersion i).
Definition with_resource (type_ id_ : string) (i : AppendIntakeCaseEventInput) : AppendIntakeCaseEventInput :=
  mkAppend (ev_caseId i) (ev_eventKey i) (ev_eventType i) (ev_actorType i) (ev_actorAccountId i) (ev_traceId i)
    (ev_causationEventId i) (ev_fromStage i) (ev_toStage i) (Some type_) (Some id_) (ev_metadata i)
    (ev_occurredAt i) (ev_eventSource i) (ev_sourceAuditLogId i) (ev_sourceJobId i) (ev_reversalOfEventId i)
    (ev_workflowVersion i).
Definition with_job (job : string) (i : AppendIntakeCaseEventInput) : AppendIntakeCaseEventInput :=
  mkAppend (ev_caseId i) (ev_eventKey i) (ev_eventType i) (ev_actorType i) (ev_actorAccountId i) (ev_traceId i)
    (ev_causationEventId i) (ev_fromStage i) (ev_toStage i) (ev_relatedResourceType i) (ev_relatedResourceId i)
    (ev_metadata i) (ev_occurredAt i) (ev_eventSource i) (ev_sourceAuditLogId i) (Some job) (ev_reversalOfEventId i)
    (ev_workflowVersion i).
Definition with_reversal (event : option string) (i : AppendIntakeCaseEventInput) : AppendIntakeCaseEventInput :=
  mkAppend (ev_caseId i) (ev_eventKey i) (ev_eventType i) (ev_actorType i) (ev_actorAccountId i) (ev_traceId i)
    (ev_causationEventId i) (ev_fromStage i) (ev_toStage i) (ev_relatedResourceType i) (ev_relatedResourceId i)
    (ev_metadata i) (ev_occurredAt i) (ev_eventSource i) (ev_sourceAuditLogId i) (ev_sourceJobId i) event
    (ev_workflowVersion i).

Definition workflowVersion (i : AppendIntakeCaseEventInput) : Z :=
  match ev_workflowVersion i with
  | Some v => v
  | None => if bool_decide (ev_eventSource i = Some "legacy_audit") then 0 else 1
  end.

Section WithUlid.
Context (ulid : nat → string).

(** [`${prefix}${ulid()}`] *)
Definition fresh_id (prefix : string) : txn intake string := λ s,
  let '(k, b) := fresh ulid prefix (base s) in Ok (k, set_base b s).

(** [auditLog.create] *)
Definition audit (actor : option string) (action resourceId : string) (changes : list (string * json)) (at_ : Z)
    : txn intake unit :=
  do! auditId := fresh_id "audit_" in
  twrite (λ s, set_base (audit_create (AuditLog.mk auditId actor action "intake_case" resourceId changes at_) (base s)) s).

(** [{ workflowEventSequence: { increment: 1 } }], selecting the new value *)
Definition next_sequence (k : string) : txn intake Z :=
  do! c := tread (get_case k) in
  match c with
  | None => tthrow (Thrown "P2025")
  | Some c =>
      let n := IntakeCase.workflowEventSequence c + 1 in
      do! _ := twrite (update_case k (IntakeCase.set_sequence n)) in tret n
  end.

Definition event_row (id_ : string) (n : Z) (w : WorkflowType) (version : Z) (i : AppendIntakeCaseEventInput)
    : CaseEvent.t :=
  CaseEvent.mk id_ (ev_caseId i) n (ev_eventKey i) (ev_eventType i) w version (ev_fromStage i) (ev_toStage i)
    (ev_actorType i) (ev_actorAccountId i) (ev_traceId i) (ev_causationEventId i) (ev_relatedResourceType i)
    (ev_relatedResourceId i) (ev_metadata i) (ev_occurredAt i) (default "live" (ev_eventSource i))
    (ev_sourceAuditLogId i) (ev_sourceJobId i) (ev_reversalOfEventId i).

Definition appendWithWorkflow (i : AppendIntakeCaseEventInput) (w : WorkflowType) (version : Z) : txn intake string :=
  do! n := next_sequence (ev_caseId i) in
  do! eventId := fresh_id "evt_" in
  do! _ := tprim (event_create (event_row eventId n w version i)) in
  tret eventId.

Definition appendIntakeCaseEvent (i : AppendIntakeCaseEventInput) : txn intake string :=
  do! existing := tread (λ s, find_row (by_id CaseEvent.eventKey (ev_eventKey i)) (caseEvents s)) in
  match existing with
  | Some e => tret (CaseEvent.id e)
  | None =>
      match (match ev_toStage i with Some st => Some st | None => ev_fromStage i end) with
      | Some target => appendWithWorkflow i (wf_type (getIntakeWorkflowForStage target)) (workflowVersion i)
      | None =>
          do! current := tread (get_case (ev_caseId i)) in
          match current with
          | None => tthrow (Thrown "P2025")
          | Some c =>
              appendWithWorkflow i (wf_type (getIntakeWorkflowForStage (IntakeCase.stage c))) (workflowVersion i)
          end
      end
  end.

End WithUlid.
End IntakeDb.
