(* ===== verification/IntakeRepo.v ===== *)
(** The case transactions of src/src/modules/intake/repository/prisma-intake.repository.ts:
    creation, submission, information requests, the founder's decision, evidence review,
    closing, partner assignment and writeback, and messages.  Each locks the case row, checks
    it again under the lock, writes, audits and appends to the case's event ledger, all in one
    transaction; a guard that fails throws the repository's error class, named by its tag.
    [now] is the clock read by [new Date()] and by the columns that default to it. *)

From Stdlib Require Import Ascii.
From S2P Require Import Prelude JsString Currency DateTime IntakePolicy Db OfferingRepo IntakeDb.

Module IntakeRepo.
Import Currency DateTime IntakePolicy IntakeDb.
Import OfferingRepo (json_of_option).

(** ** Errors the services tell apart *)

Definition CaseReviewConflictError : error := Thrown "CaseReviewConflictError".
Definition CaseSubmissionConflictError : error := Thrown "CaseSubmissionConflictError".
Definition ApplicantAccountNotFoundError : error := Thrown "ApplicantAccountNotFoundError".
Definition EvidenceNotFoundError : error := Thrown "EvidenceNotFoundError".
Definition EvidenceCaseMismatchError : error := Thrown "EvidenceCaseMismatchError".

(** ** Inputs and results (intake.repository.ts) *)

Record PropertyRoomInput := mkRoomInput { ri_roomType : string; ri_sizeSqM : Z }.

Record PropertyInput := mkPropertyInput {
  pi_countryCode : string; pi_city : option string; pi_addressLine : option string;
  pi_landRegistryReference : option string; pi_latitude : option string; pi_longitude : option string;
  pi_ownerDeclaredValueEur : string; pi_hasExistingEncumbrance : bool; pi_details : PropertyDetails;
  pi_rooms : list PropertyRoomInput }.

Record CreateDraftIntakeInput := mkCreateDraft {
  cd_accountId : string; cd_traceId : string; cd_property : PropertyInput }.

Record CreatedDraftIntake := mkCreatedDraft { cdr_caseId : string; cdr_propertyId : string; cdr_stage : Stage }.

Record SubmissionDocumentInput := mkDocument { sd_documentType : string; sd_documentRef : string; sd_extractDated : option Z }.

Record CreateStaffCaseInput := mkCreateStaff {
  cs_applicantAccountId : string; cs_staffAccountId : string; cs_traceId : string; cs_property : PropertyInput;
  cs_submissionData : list (string * json); cs_documents : list SubmissionDocumentInput }.

Record SubmitInitialCaseInput := mkSubmit {
  si_accountId : string; si_caseId : string; si_traceId : string;
  si_submissionData : list (string * json); si_documents : list SubmissionDocumentInput }.

Record SubmittedCase := mkSubmitted {
  sc_caseId : string; sc_revisionId : string; sc_revisionNumber : Z; sc_stage : Stage; sc_submittedAt : Z }.

Record CreatedStaffCase := mkCreatedStaff { cst_case : SubmittedCase; cst_applicantAccountId : string }.

Record InformationRequestRecord := mkRequestRecord {
  rr_requestId : string; rr_caseId : string; rr_status : RequestStatus; rr_requestBody : string;
  rr_publishedAt : option Z; rr_dueAt : option Z; rr_resolvedAt : option Z;
  rr_resolutionType : option ResolutionType; rr_resolvingRevisionId : option string }.

Record WithdrawnInformationRequest := mkWithdrawnRequest {
  wr_requestId : string; wr_caseId : string; wr_resolvedAt : Z; wr_stage : Stage }.

Inductive Decision :=
  | approve (ipoPeriodDays ipoEndAt : Z) (ipoValueEur : string)
  | reject (rejectionReasonCode rejectionNotes : string).

Record FounderDecisionInput := mkFounderDecision {
  fd_decision : Decision; fd_accountId : string; fd_caseId : string; fd_traceId : string;
  fd_founderReviewNotes : string; fd_decidedAt : Z }.

Record RecordedFounderDecision := mkRecordedDecision {
  rd_caseId : string; rd_stage : Stage; rd_decidedAt : Z; rd_ipoEndAt : option Z }.

Inductive Closure :=
  | outcome_withdrawn
  | outcome_rejected (rejectionReasonCode rejectionNotes : string).

Record CloseCaseInput := mkCloseCase {
  cc_outcome : Closure; cc_accountId : string; cc_caseId : string; cc_traceId : string;
  cc_founderReviewNotes : string; cc_closedAt : Z }.

Record ClosedCase := mkClosed { cl_caseId : string; cl_stage : Stage; cl_closedAt : Z }.

Record ReviewEvidenceInput := mkReviewEvidence {
  re_accountId : string; re_caseId : string; re_evidenceId : string; re_traceId : string;
  re_status : EvidenceStatus; re_reviewNotes : option string; re_reviewedAt : Z }.

Record ReviewedEvidence := mkReviewedEvidence {
  rv_evidenceId : string; rv_caseId : string; rv_status : EvidenceStatus; rv_reviewedByAccountId : string;
  rv_reviewedAt : Z; rv_reviewNotes : option string }.

Record AssignPartnerOrganizationInput := mkAssignPartner {
  ap_caseId : string; ap_legalPracticeId : option string; ap_appraisalFirmId : option string;
  ap_actorAccountId : string; ap_traceId : string; ap_assignedAt : Z }.

Record AssignedPartnerOrganization := mkAssigned {
  as_caseId : string; as_legalPracticeId : option string; as_appraisalFirmId : option string }.

Record RecordLegalStructuringInput := mkRecordLegal {
  rl_caseId : string; rl_legalDocumentRefs : option (list string); rl_markCompleted : option bool;
  rl_actorAccountId : string; rl_traceId : string; rl_recordedAt : Z }.

Record RecordAppraisalInput := mkRecordAppraisal {
  ra_caseId : string; ra_appraisalValueOpinionEur : option string; ra_appraisalDocumentRefs : option (list string);
  ra_markCompleted : option bool; ra_actorAccountId : string; ra_traceId : string; ra_recordedAt : Z }.

Record CaseMessageRecord := mkMessageRecord {
  mr_messageId : string; mr_authorAccountId : option string; mr_body : string; mr_createdAt : Z }.

Record PublishedInformationRequestForTimer := mkForTimer {
  ft_requestId : string; ft_caseId : string; ft_applicantAccountId : string;
  ft_applicantContactEmail : option string; ft_publishedAt : Z; ft_dueAt : Z }.

(** ** Projections *)

Record PhotoDetail := mkPhoto {
  ph_documentId : string; ph_documentRef : string; ph_thumbnailRef : option string; ph_contentType : string;
  ph_uploadedAt : Z }.

Record RoomDetail := mkRoom {
  rm_roomId : string; rm_roomType : string; rm_sizeSqM : Z; rm_preferredPhotoId : option string;
  rm_photos : list PhotoDetail }.

Record OwnedProperty := mkOwnedProperty {
  op_property : Property.t; op_ownerDeclaredValueEur : string; op_rooms : list RoomDetail }.

Record OwnedIntakeCase := mkOwned {
  oc_caseId : string; oc_stage : Stage; oc_createdAt : Z; oc_updatedAt : Z;
  oc_currentRevision : option (Z * Z); oc_property : option OwnedProperty }.

Record PartnerCaseDetail := mkPartnerCase {
  pc_owned : OwnedIntakeCase; pc_legalDocumentRefs : list string; pc_legalStructuringCompletedAt : option Z;
  pc_appraisalValueOpinionEur : option string; pc_appraisalDocumentRefs : list string;
  pc_appraisalCompletedAt : option Z; pc_postIpoStructuringCompletedAt : option Z }.

Definition accepted_document (d : StoredDocument.t) : bool :=
  bool_decide (StoredDocument.uploadStatus d = "accepted") && negb (is_set (StoredDocument.deletedAt d)).

Definition document_before (a b : StoredDocument.t) : bool :=
  (StoredDocument.createdAt a <? StoredDocument.createdAt b) ||
  ((StoredDocument.createdAt a =? StoredDocument.createdAt b) &&
   String.ltb (StoredDocument.id a) (StoredDocument.id b)).

(** the thumbnail of a photo, [take: 1] *)
Definition thumbnail_of (photoId : string) (s : intake) : option string :=
  StoredDocument.objectKey <$>
    find_row (λ d, bool_decide (StoredDocument.sourceDocumentId d = Some photoId) &&
                   bool_decide (StoredDocument.variantType d = Some "thumbnail") && accepted_document d) (documents s).

Definition photos_of (roomId : string) (s : intake) : list PhotoDetail :=
  map (λ d, mkPhoto (StoredDocument.id d) (StoredDocument.objectKey d) (thumbnail_of (StoredDocument.id d) s)
              (StoredDocument.contentType d) (StoredDocument.createdAt d))
    (order_by document_before
       (List.filter (λ d, bool_decide (StoredDocument.roomId d = Some roomId) &&
                          bool_decide (StoredDocument.documentType d = "room_photo") && accepted_document d)
          (documents s))).

Definition room_before (a b : PropertyRoom.t) : bool := String.ltb (PropertyRoom.id a) (PropertyRoom.id b).

Definition property_detail (s : intake) (p : Property.t) : OwnedProperty :=
  mkOwnedProperty p (numeric2_text (Property.ownerDeclaredValueEur p))
    (map (λ r, mkRoom (PropertyRoom.id r) (PropertyRoom.roomType r) (PropertyRoom.sizeSqM r)
                 (PropertyRoom.preferredPhotoId r) (photos_of (PropertyRoom.id r) s))
       (order_by room_before (List.filter (by_id PropertyRoom.propertyId (Property.id p)) (rooms s)))).

Definition current_revision (s : intake) (c : IntakeCase.t) : option Revision.t :=
  match IntakeCase.currentSubmissionRevisionId c with Some r => find_revision r s | None => None end.

Definition toOwnedCase (s : intake) (c : IntakeCase.t) : OwnedIntakeCase :=
  mkOwned (IntakeCase.id c) (IntakeCase.stage c) (IntakeCase.createdAt c) (IntakeCase.updatedAt c)
    ((λ r, (Revision.revisionNumber r, Revision.submittedAt r)) <$> current_revision s c)
    (property_detail s <$> find_row (by_id Property.id (IntakeCase.propertyId c)) (properties s)).

Definition toPartnerCaseDetail (s : intake) (c : IntakeCase.t) : PartnerCaseDetail :=
  let p := IntakeCase.partner c in
  mkPartnerCase (toOwnedCase s c) (IntakeCase.legalDocumentRefs p) (IntakeCase.legalStructuringCompletedAt p)
    (numeric2_text <$> IntakeCase.appraisalValueOpinionEur p) (IntakeCase.appraisalDocumentRefs p)
    (IntakeCase.appraisalCompletedAt p) (IntakeCase.postIpoStructuringCompletedAt p).

Definition toInformationRequest (r : InformationRequest.t) : InformationRequestRecord :=
  mkRequestRecord (InformationRequest.id r) (InformationRequest.caseId r) (InformationRequest.status r)
    (InformationRequest.requestBody r) (InformationRequest.publishedAt r) (InformationRequest.dueAt r)
    (InformationRequest.resolvedAt r) (InformationRequest.resolutionType r) (InformationRequest.resolvingRevisionId r).

Definition toCaseMessageRecord (m : CaseMessage.t) : CaseMessageRecord :=
  mkMessageRecord (CaseMessage.id m) (CaseMessage.authorAccountId m) (CaseMessage.body m) (CaseMessage.createdAt m).

(** ** Row updates *)

Definition json_of_date (o : option Z) : json := match o with Some d => JDate d | None => JNull end.

Definition set_expired (at_ : Z) (c : IntakeCase.t) : IntakeCase.t :=
  let r := IntakeCase.review c in
  IntakeCase.set_review
    (IntakeCase.mkReview (IntakeCase.canReopen r) (IntakeCase.rejectedAt r) (IntakeCase.withdrawnAt r) (Some at_)
       (IntakeCase.rejectionReasonCode r) (IntakeCase.rejectionNotes r) (IntakeCase.founderReviewNotes r)
       (IntakeCase.reviewedByAccountId r) (IntakeCase.approvedAt r))
    (IntakeCase.set_stage expired at_ c).

Definition set_submitted (revisionId : string) (at_ : Z) (c : IntakeCase.t) : IntakeCase.t :=
  IntakeCase.set_revision (Some revisionId) (IntakeCase.set_stage submitted at_ c).

Definition set_approved (days endAt cents : Z) (notes by_ : string) (at_ : Z) (c : IntakeCase.t) : IntakeCase.t :=
  let r := IntakeCase.review c in
  IntakeCase.set_ipo (IntakeCase.mkIpo (Some days) (Some endAt) (Some cents) (Some at_))
    (IntakeCase.set_review
       (IntakeCase.mkReview (IntakeCase.canReopen r) (IntakeCase.rejectedAt r) (IntakeCase.withdrawnAt r)
          (IntakeCase.expiredAt r) (IntakeCase.rejectionReasonCode r) (IntakeCase.rejectionNotes r) (Some notes)
          (Some by_) (Some at_))
       (IntakeCase.set_stage pre_offering_open at_ c)).

Definition set_rejected (code notes reviewNotes by_ : string) (at_ : Z) (c : IntakeCase.t) : IntakeCase.t :=
  let r := IntakeCase.review c in
  IntakeCase.set_review
    (IntakeCase.mkReview false (Some at_) (IntakeCase.withdrawnAt r) (IntakeCase.expiredAt r) (Some code) (Some notes)
       (Some reviewNotes) (Some by_) (IntakeCase.approvedAt r))
    (IntakeCase.set_stage rejected at_ c).

Definition set_withdrawn (reviewNotes by_ : string) (at_ : Z) (c : IntakeCase.t) : IntakeCase.t :=
  let r := IntakeCase.review c in
  IntakeCase.set_review
    (IntakeCase.mkReview false (IntakeCase.rejectedAt r) (Some at_) (IntakeCase.expiredAt r)
       (IntakeCase.rejectionReasonCode r) (IntakeCase.rejectionNotes r) (Some reviewNotes) (Some by_)
       (IntakeCase.approvedAt r))
    (IntakeCase.set_stage withdrawn at_ c).

Definition set_organizations (practice firm : option string) (at_ : Z) (c : IntakeCase.t) : IntakeCase.t :=
  let p := IntakeCase.partner c in
  IntakeCase.set_partner
    (IntakeCase.mkPartner (match practice with Some _ => practice | None => IntakeCase.legalPracticeId p end)
       (IntakeCase.legalDocumentRefs p) (IntakeCase.legalStructuringCompletedAt p) (IntakeCase.legalExecutionEventRefs p)
       (match firm with Some _ => firm | None => IntakeCase.appraisalFirmId p end)
       (IntakeCase.appraisalValueOpinionEur p) (IntakeCase.appraisalDocumentRefs p) (IntakeCase.appraisalCompletedAt p)
       (IntakeCase.postIpoStructuringCompletedAt p) (IntakeCase.approvedForFinalOfferingAt p))
    (IntakeCase.set_stage (IntakeCase.stage c) at_ c).

(** The last part of both partners' writebacks: the stage moves when both sides are complete. *)
Definition set_completion (both : bool) (at_ : Z) (p : IntakeCase.partner_data) (c : IntakeCase.t) : IntakeCase.t :=
  if both
  then IntakeCase.set_partner
         (IntakeCase.mkPartner (IntakeCase.legalPracticeId p) (IntakeCase.legalDocumentRefs p)
            (IntakeCase.legalStructuringCompletedAt p) (IntakeCase.legalExecutionEventRefs p)
            (IntakeCase.appraisalFirmId p) (IntakeCase.appraisalValueOpinionEur p) (IntakeCase.appraisalDocumentRefs p)
            (IntakeCase.appraisalCompletedAt p) (Some at_) (Some at_))
         (IntakeCase.set_stage approved_for_final_offering at_ c)
  else IntakeCase.set_partner p (IntakeCase.set_stage (IntakeCase.stage c) at_ c).

Definition legal_partner_data (refs : option (list string)) (completedAt : option Z) (p : IntakeCase.partner_data)
    : IntakeCase.partner_data :=
  IntakeCase.mkPartner (IntakeCase.legalPracticeId p) (default (IntakeCase.legalDocumentRefs p) refs) completedAt
    (IntakeCase.legalExecutionEventRefs p) (IntakeCase.appraisalFirmId p) (IntakeCase.appraisalValueOpinionEur p)
    (IntakeCase.appraisalDocumentRefs p) (IntakeCase.appraisalCompletedAt p)
    (IntakeCase.postIpoStructuringCompletedAt p) (IntakeCase.approvedForFinalOfferingAt p).

Definition appraisal_partner_data (cents : option Z) (refs : option (list string)) (completedAt : option Z)
    (p : IntakeCase.partner_data) : IntakeCase.partner_data :=
  IntakeCase.mkPartner (IntakeCase.legalPracticeId p) (IntakeCase.legalDocumentRefs p)
    (IntakeCase.legalStructuringCompletedAt p) (IntakeCase.legalExecutionEventRefs p) (IntakeCase.appraisalFirmId p)
    (match cents with Some _ => cents | None => IntakeCase.appraisalValueOpinionEur p end)
    (default (IntakeCase.appraisalDocumentRefs p) refs) completedAt
    (IntakeCase.postIpoStructuringCompletedAt p) (IntakeCase.approvedForFinalOfferingAt p).

(** [a.b.c] event keys *)
Definition key_of (parts : list string) : string := String.concat ":" parts.

Section WithUlid.
Context (ulid : nat → string).
(** [boss.send]: the identifier of the job queued after [n] others, or null *)
Context (jobId : nat → option string).
Notation fresh_id := (fresh_id ulid).
Notation audit := (audit ulid).
Notation appendIntakeCaseEvent := (appendIntakeCaseEvent ulid).

Definition event (i : AppendIntakeCaseEventInput) : txn intake unit := do! _ := appendIntakeCaseEvent i in tret tt.

Definition enqueue (queueName : string) (data : list (string * json)) (traceId : string) : txn intake (option string) :=
  do! n := tread (λ s, length (jobs (base s))) in
  do! _ := twrite (λ s, set_base (enqueueTransactionalJob queueName data traceId (base s)) s) in
  tret (jobId n).

(** ** Creation *)

Definition create_property (propertyId : string) (p : PropertyInput) (latitude longitude : option string)
    : txn intake unit :=
  do! cents := tlift (toCents (pi_ownerDeclaredValueEur p)) in
  do! _ := tprim (property_create
    (Property.mk propertyId (pi_countryCode p) (pi_city p) (pi_addressLine p) (pi_landRegistryReference p)
       latitude longitude cents (pi_hasExistingEncumbrance p) (pi_details p))) in
  teach (λ room,
    do! roomId := fresh_id "room_" in
    tprim (room_create (PropertyRoom.mk roomId propertyId (ri_roomType room) (ri_sizeSqM room) None)))
    (pi_rooms p).

Definition createDraftIntake (input : CreateDraftIntakeInput) (now : Z) : txn intake CreatedDraftIntake :=
  do! propertyId := fresh_id "prop_" in
  do! caseId := fresh_id "case_" in
  do! _ := create_property propertyId (cd_property input) (pi_latitude (cd_property input)) (pi_longitude (cd_property input)) in
  do! _ := tprim (case_create (IntakeCase.created caseId propertyId (cd_accountId input) now)) in
  do! _ := audit (Some (cd_accountId input)) "intake.case_draft_created" caseId
    [("trace_id", JStr (cd_traceId input)); ("stage", JStr "draft"); ("property_id", JStr propertyId)] now in
  do! _ := event (event_input caseId (key_of ["case"; caseId; "created"; "draft"]) "case_created" applicant
    (Some (cd_accountId input)) (cd_traceId input) [("property_id", JStr propertyId); ("stage", JStr "draft")] now) in
  tret (mkCreatedDraft caseId propertyId draft).

(** [documentaryScreeningEvidence.createMany] *)
Definition create_evidence (caseId revisionId : string) (docs : list SubmissionDocumentInput) (now : Z) : txn intake unit :=
  teach (λ d,
    do! evidenceId := fresh_id "evidence_" in
    tprim (evidence_create (Evidence.mk evidenceId caseId revisionId (sd_documentType d) evidence_pending
      (sd_documentRef d) (sd_extractDated d) now None None None))) docs.

Definition createStaffCase (input : CreateStaffCaseInput) (now : Z) : txn intake CreatedStaffCase :=
  do! propertyId := fresh_id "prop_" in
  do! caseId := fresh_id "case_" in
  do! revisionId := fresh_id "rev_" in
  do! account := tread (λ s, find_account (cs_applicantAccountId input) (base s)) in
  match account with
  | None => tthrow ApplicantAccountNotFoundError
  | Some _ =>
      do! _ := create_property propertyId (cs_property input) None None in
      do! _ := tprim (case_create (IntakeCase.created caseId propertyId (cs_applicantAccountId input) now)) in
      do! _ := tprim (revision_create (Revision.mk revisionId caseId 1 now (cs_staffAccountId input)
        (cs_submissionData input) "initial_staff_created")) in
      do! _ := create_evidence caseId revisionId (cs_documents input) now in
      do! _ := tprim (case_update caseId (set_submitted revisionId now)) in
      do! _ := audit (Some (cs_staffAccountId input)) "intake.case_created_by_staff" caseId
        [("trace_id", JStr (cs_traceId input)); ("applicant_account_id", JStr (cs_applicantAccountId input));
         ("staff_actor_account_id", JStr (cs_staffAccountId input)); ("property_id", JStr propertyId);
         ("revision_id", JStr revisionId); ("stage", JStr "submitted")] now in
      do! _ := event (event_input caseId (key_of ["case"; caseId; "created"; "staff"]) "case_created" staff
        (Some (cs_staffAccountId input)) (cs_traceId input)
        [("property_id", JStr propertyId); ("revision_id", JStr revisionId); ("stage", JStr "submitted")] now) in
      do! _ := event (with_stages draft submitted
        (event_input caseId (key_of ["case"; caseId; "submitted"; revisionId]) "case_submitted" staff
           (Some (cs_staffAccountId input)) (cs_traceId input)
           [("revision_id", JStr revisionId); ("revision_number", JNum 1)] now)) in
      tret (mkCreatedStaff (mkSubmitted caseId revisionId 1 submitted now) (cs_applicantAccountId input))
  end.

(** ** Submission *)

Definition submitInitialCase (input : SubmitInitialCaseInput) (now : Z) : txn intake (option SubmittedCase) :=
  do! locked := tread (owned_case (si_caseId input) (si_accountId input)) in
  match locked with
  | None => tret None
  | Some current =>
      if negb (bool_decide (IntakeCase.stage current = draft)) || is_set (IntakeCase.currentSubmissionRevisionId current)
      then tthrow CaseSubmissionConflictError
      else
        do! revisionId := fresh_id "rev_" in
        do! _ := tprim (revision_create (Revision.mk revisionId (si_caseId input) 1 now (si_accountId input)
          (si_submissionData input) "initial")) in
        do! _ := create_evidence (si_caseId input) revisionId (si_documents input) now in
        do! _ := tprim (case_update (si_caseId input) (set_submitted revisionId now)) in
        do! _ := audit (Some (si_accountId input)) "intake.case_submitted" (si_caseId input)
          [("trace_id", JStr (si_traceId input)); ("previous_stage", JStr "draft"); ("new_stage", JStr "submitted");
           ("revision_id", JStr revisionId); ("revision_number", JNum 1)] now in
        do! _ := event (with_stages draft submitted
          (event_input (si_caseId input) (key_of ["case"; si_caseId input; "submitted"; revisionId]) "case_submitted"
             applicant (Some (si_accountId input)) (si_traceId input)
             [("revision_id", JStr revisionId); ("revision_number", JNum 1)] now)) in
        tret (Some (mkSubmitted (si_caseId input) revisionId 1 submitted now))
  end.

(** ** Information requests *)

Record PublishInformationRequestInput := mkPublishRequest {
  pr_accountId : string; pr_caseId : string; pr_traceId : string; pr_requestBody : string;
  pr_publishedAt : Z; pr_dueAt : Z }.

Definition publishInformationRequest (input : PublishInformationRequestInput) (now : Z)
    : txn intake (option InformationRequestRecord) :=
  do! locked := tread (get_case (pr_caseId input)) in
  match locked with
  | None => tret None
  | Some current =>
      do! openRequest := tread (published_request (pr_caseId input)) in
      if negb (bool_decide (IntakeCase.stage current = submitted)) ||
         negb (is_set (IntakeCase.currentSubmissionRevisionId current)) || is_set openRequest
      then tthrow CaseReviewConflictError
      else
        do! requestId := fresh_id "rfi_" in
        let request := InformationRequest.mk requestId (pr_caseId input) "intake" (pr_accountId input)
          (pr_publishedAt input) published (Some (pr_accountId input)) (Some (pr_publishedAt input))
          (Some (pr_dueAt input)) (pr_requestBody input) None None None in
        do! _ := tprim (request_create request) in
        do! _ := tprim (case_update (pr_caseId input) (IntakeCase.set_stage waiting_on_applicant (pr_publishedAt input))) in
        do! _ := audit (Some (pr_accountId input)) "intake.information_request_published" (pr_caseId input)
          [("trace_id", JStr (pr_traceId input)); ("request_id", JStr requestId); ("previous_stage", JStr "submitted");
           ("new_stage", JStr "waiting_on_applicant"); ("due_at", JDate (pr_dueAt input))] now in
        do! _ := event (with_resource "information_request" requestId (with_stages submitted waiting_on_applicant
          (event_input (pr_caseId input)
             (key_of ["case"; pr_caseId input; "information-request"; requestId; "published"])
             "case_information_requested" staff (Some (pr_accountId input)) (pr_traceId input)
             [("due_at", JDate (pr_dueAt input))] (pr_publishedAt input)))) in
        tret (Some (toInformationRequest request))
  end.

Record ExpireInformationRequestInput := mkExpireRequest {
  er_requestId : string; er_caseId : string; er_traceId : string; er_expiredAt : Z;
  (** the reason and the acting account of a manual expiry *)
  er_manualOverride : option (string * string) }.

(** [current.stage !== "waiting_on_applicant" || request?.status !== "published"], negated *)
Definition awaiting_answer (current : IntakeCase.t) (request : option InformationRequest.t) : bool :=
  bool_decide (IntakeCase.stage current = waiting_on_applicant) &&
  match request with Some r => is_published r | None => false end.

Definition expireInformationRequest (input : ExpireInformationRequestInput) : txn intake bool :=
  do! locked := tread (get_case (er_caseId input)) in
  match locked with
  | None => tret false
  | Some current =>
      do! request := tread (case_request (er_caseId input) (er_requestId input)) in
      if negb (awaiting_answer current request) then tret false
      else
        let actor := snd <$> er_manualOverride input in
        do! _ := tprim (request_update (er_requestId input)
          (InformationRequest.resolve request_expired (er_expiredAt input) resolution_expired None)) in
        do! _ := tprim (case_update (er_caseId input) (set_expired (er_expiredAt input))) in
        do! _ := audit actor "intake.information_request_expired" (er_caseId input)
          ([("trace_id", JStr (er_traceId input)); ("request_id", JStr (er_requestId input));
            ("previous_stage", JStr "waiting_on_applicant"); ("new_stage", JStr "expired")] ++
           match er_manualOverride input with
           | None => []
           | Some (reason, _) => [("manual_override", JBool true); ("reason", JStr reason)]
           end) (er_expiredAt input) in
        do! _ := event (with_resource "information_request" (er_requestId input) (with_stages waiting_on_applicant expired
          (event_input (er_caseId input)
             (key_of ["case"; er_caseId input; "information-request"; er_requestId input; "expired"]) "case_expired"
             (if is_set actor then staff else system) actor (er_traceId input)
             [("manual_override", JBool (is_set (er_manualOverride input)))] (er_expiredAt input)))) in
        tret true
  end.

Record WithdrawInformationRequestInput := mkWithdrawRequest {
  wi_accountId : string; wi_caseId : string; wi_requestId : string; wi_traceId : string;
  wi_founderReviewNotes : option string; wi_withdrawnAt : Z }.

Definition withdrawInformationRequest (input : WithdrawInformationRequestInput)
    : txn intake (option WithdrawnInformationRequest) :=
  do! locked := tread (get_case (wi_caseId input)) in
  match locked with
  | None => tret None
  | Some current =>
      do! request := tread (case_request (wi_caseId input) (wi_requestId input)) in
      if negb (awaiting_answer current request) then tthrow CaseReviewConflictError
      else
        do! _ := tprim (request_update (wi_requestId input)
          (InformationRequest.resolve request_withdrawn (wi_withdrawnAt input) resolution_withdrawn None)) in
        do! _ := tprim (case_update (wi_caseId input) (IntakeCase.set_stage submitted (wi_withdrawnAt input))) in
        do! _ := audit (Some (wi_accountId input)) "intake.information_request_withdrawn" (wi_caseId input)
          [("trace_id", JStr (wi_traceId input)); ("request_id", JStr (wi_requestId input));
           ("previous_stage", JStr "waiting_on_applicant"); ("new_stage", JStr "submitted");
           ("founder_review_notes", json_of_option (wi_founderReviewNotes input))] (wi_withdrawnAt input) in
        do! _ := event (with_resource "information_request" (wi_requestId input) (with_stages waiting_on_applicant submitted
          (event_input (wi_caseId input)
             (key_of ["case"; wi_caseId input; "information-request"; wi_requestId input; "withdrawn"])
             "case_information_request_withdrawn" staff (Some (wi_accountId input)) (wi_traceId input) []
             (wi_withdrawnAt input)))) in
        tret (Some (mkWithdrawnRequest (wi_requestId input) (wi_caseId input) (wi_withdrawnAt input) submitted))
  end.

Definition resubmitAfterInformationRequest (input : SubmitInitialCaseInput) (requestId : string) (submittedAt now : Z)
    : txn intake (option SubmittedCase) :=
  do! locked := tread (owned_case (si_caseId input) (si_accountId input)) in
  match locked with
  | None => tret None
  | Some current =>
      do! request := tread (case_request (si_caseId input) requestId) in
      do! revision := tread (λ s, current_revision s current) in
      match awaiting_answer current request, revision with
      | true, Some revision =>
          let revisionNumber := Revision.revisionNumber revision + 1 in
          do! revisionId := fresh_id "rev_" in
          do! _ := tprim (revision_create (Revision.mk revisionId (si_caseId input) revisionNumber submittedAt
            (si_accountId input) (si_submissionData input) "resubmission_after_rfi")) in
          do! _ := create_evidence (si_caseId input) revisionId (si_documents input) now in
          do! _ := tprim (request_update requestId
            (InformationRequest.resolve answered submittedAt resubmitted (Some revisionId))) in
          do! _ := tprim (case_update (si_caseId input) (set_submitted revisionId submittedAt)) in
          do! _ := audit (Some (si_accountId input)) "intake.case_resubmitted" (si_caseId input)
            [("trace_id", JStr (si_traceId input)); ("request_id", JStr requestId);
             ("previous_stage", JStr "waiting_on_applicant"); ("new_stage", JStr "submitted");
             ("revision_id", JStr revisionId); ("revision_number", JNum revisionNumber)] now in
          do! _ := event (with_resource "submission_revision" revisionId (with_stages waiting_on_applicant submitted
            (event_input (si_caseId input)
               (key_of ["case"; si_caseId input; "information-request"; requestId; "resubmitted"; revisionId])
               "case_resubmitted" applicant (Some (si_accountId input)) (si_traceId input)
               [("revision_number", JNum revisionNumber)] submittedAt))) in
          tret (Some (mkSubmitted (si_caseId input) revisionId revisionNumber submitted submittedAt))
      | _, _ => tthrow CaseReviewConflictError
      end
  end.

(** ** The founder's decision *)

Definition decided_stage (d : Decision) : Stage :=
  match d with approve _ _ _ => pre_offering_open | reject _ _ => rejected end.

Definition decision_terms (d : Decision) : list (string * json) :=
  match d with
  | approve days endAt value =>
      [("ipo_period_days", JNum days); ("ipo_end_at", JDate endAt); ("ipo_value_eur", JStr value)]
  | reject code _ => [("rejection_reason_code", JStr code)]
  end.

Definition decide_row (input : FounderDecisionInput) : result (IntakeCase.t → IntakeCase.t) :=
  match fd_decision input with
  | approve days endAt value =>
      let! cents := toCents value in
      Ok (set_approved days endAt cents (fd_founderReviewNotes input) (fd_accountId input) (fd_decidedAt input))
  | reject code notes =>
      Ok (set_rejected code notes (fd_founderReviewNotes input) (fd_accountId input) (fd_decidedAt input))
  end.

Definition recordFounderDecision (input : FounderDecisionInput) (now : Z) : txn intake (option RecordedFounderDecision) :=
  do! locked := tread (get_case (fd_caseId input)) in
  match locked with
  | None => tret None
  | Some current =>
      match bool_decide (IntakeCase.stage current = submitted), IntakeCase.currentSubmissionRevisionId current with
      | true, Some reviewed =>
          let stage := decided_stage (fd_decision input) in
          do! update := tlift (decide_row input) in
          do! _ := tprim (case_update (fd_caseId input) update) in
          do! handoffJobId :=
            match fd_decision input with
            | approve _ _ value =>
                enqueue "case_timers.pre_offering_open_handoff"
                  [("case_id", JStr (fd_caseId input)); ("property_id", JStr (IntakeCase.propertyId current));
                   ("ipo_value_eur", JStr value)] (fd_traceId input)
            | reject _ _ => tret None
            end in
          do! _ := audit (Some (fd_accountId input))
            (match fd_decision input with approve _ _ _ => "intake.case_approved" | reject _ _ => "intake.case_rejected" end)
            (fd_caseId input)
            ([("trace_id", JStr (fd_traceId input)); ("previous_stage", JStr "submitted");
              ("new_stage", JStr (stage_text stage)); ("reviewed_revision_id", JStr reviewed)] ++
             decision_terms (fd_decision input)) now in
          do! _ := event (with_stages submitted stage
            (event_input (fd_caseId input)
               (key_of ["case"; fd_caseId input; "founder-decision"; toISOString (fd_decidedAt input)])
               "founder_decision_recorded" staff (Some (fd_accountId input)) (fd_traceId input)
               (decision_terms (fd_decision input)) (fd_decidedAt input))) in
          do! _ :=
            match handoffJobId with
            | None => tret tt
            | Some job =>
                event (with_job job
                  (event_input (fd_caseId input) (key_of ["case"; fd_caseId input; "handoff-queued"; job])
                     "handoff_queued" system None (fd_traceId input)
                     [("queue", JStr "case_timers.pre_offering_open_handoff")] (fd_decidedAt input)))
            end in
          tret (Some (mkRecordedDecision (fd_caseId input) stage (fd_decidedAt input)
            (match fd_decision input with approve _ endAt _ => Some endAt | reject _ _ => None end)))
      | _, _ => tthrow CaseReviewConflictError
      end
  end.

(** ** Evidence review *)

Definition evidence_status_text (st : EvidenceStatus) : string :=
  match st with
  | evidence_pending => "pending"
  | mandatory_missing => "mandatory_missing"
  | evidence_accepted => "accepted"
  | evidence_rejected => "rejected"
  end.

Definition reviewEvidence (input : ReviewEvidenceInput) (now : Z) : txn intake ReviewedEvidence :=
  do! row := tread (λ s, find_row (by_id Evidence.id (re_evidenceId input)) (evidence s)) in
  match row with
  | None => tthrow EvidenceNotFoundError
  | Some row =>
      if negb (bool_decide (Evidence.caseId row = re_caseId input)) then tthrow EvidenceCaseMismatchError
      else
        do! _ := tprim (evidence_update (re_evidenceId input)
          (Evidence.reviewed (re_status input) (re_accountId input) (re_reviewedAt input) (re_reviewNotes input))) in
        do! _ := audit (Some (re_accountId input)) "intake.evidence_reviewed" (re_caseId input)
          [("trace_id", JStr (re_traceId input)); ("evidence_id", JStr (re_evidenceId input));
           ("status", JStr (evidence_status_text (re_status input)));
           ("review_notes", json_of_option (re_reviewNotes input))] now in
        do! _ := event (with_resource "evidence" (re_evidenceId input)
          (event_input (re_caseId input)
             (key_of ["case"; re_caseId input; "evidence"; re_evidenceId input; toISOString (re_reviewedAt input)])
             "case_evidence_reviewed" staff (Some (re_accountId input)) (re_traceId input)
             [("status", JStr (evidence_status_text (re_status input)))] (re_reviewedAt input))) in
        tret (mkReviewedEvidence (re_evidenceId input) (re_caseId input) (re_status input) (re_accountId input)
          (re_reviewedAt input) (re_reviewNotes input))
  end.

(** ** Closing *)

Definition closure_stage (o : Closure) : Stage :=
  match o with outcome_withdrawn => withdrawn | outcome_rejected _ _ => rejected end.

Definition closable_from (o : Closure) : list Stage :=
  match o with
  | outcome_withdrawn => [draft; submitted; waiting_on_applicant; pre_offering_open]
  | outcome_rejected _ _ => [pre_offering_open]
  end.

Definition close_row (input : CloseCaseInput) : IntakeCase.t → IntakeCase.t :=
  match cc_outcome input with
  | outcome_withdrawn => set_withdrawn (cc_founderReviewNotes input) (cc_accountId input) (cc_closedAt input)
  | outcome_rejected code notes =>
      set_rejected code notes (cc_founderReviewNotes input) (cc_accountId input) (cc_closedAt input)
  end.

Definition closure_reason (o : Closure) : list (string * json) :=
  match o with outcome_withdrawn => [] | outcome_rejected code _ => [("rejection_reason_code", JStr code)] end.

Definition closeCase (input : CloseCaseInput) : txn intake (option ClosedCase) :=
  do! locked := tread (get_case (cc_caseId input)) in
  match locked with
  | None => tret None
  | Some current =>
      let stage := closure_stage (cc_outcome input) in
      if negb (bool_decide (IntakeCase.stage current ∈ closable_from (cc_outcome input)))
      then tthrow CaseReviewConflictError
      else
        do! _ := tprim (case_update (cc_caseId input) (close_row input)) in
        do! _ := audit (Some (cc_accountId input)) (String.append "intake.case_" (stage_text stage)) (cc_caseId input)
          ([("trace_id", JStr (cc_traceId input)); ("previous_stage", JStr (stage_text (IntakeCase.stage current)));
            ("new_stage", JStr (stage_text stage))] ++ closure_reason (cc_outcome input)) (cc_closedAt input) in
        do! _ := event (with_stages (IntakeCase.stage current) stage
          (event_input (cc_caseId input)
             (key_of ["case"; cc_caseId input; "closed"; toISOString (cc_closedAt input); stage_text stage])
             (String.append "case_" (stage_text stage)) staff (Some (cc_accountId input)) (cc_traceId input)
             (closure_reason (cc_outcome input)) (cc_closedAt input))) in
        tret (Some (mkClosed (cc_caseId input) stage (cc_closedAt input)))
  end.

(** ** Partners *)

Definition assignPartnerOrganization (input : AssignPartnerOrganizationInput)
    : txn intake (option AssignedPartnerOrganization) :=
  do! locked := tread (get_case (ap_caseId input)) in
  match locked with
  | None => tret None
  | Some current =>
      if negb (bool_decide (IntakeCase.stage current = post_ipo_structuring)) &&
         negb (bool_decide (IntakeCase.stage current = approved_for_final_offering))
      then tthrow CaseReviewConflictError
      else
        let update := set_organizations (ap_legalPracticeId input) (ap_appraisalFirmId input) (ap_assignedAt input) in
        do! _ := tprim (case_update (ap_caseId input) update) in
        let p := IntakeCase.partner (update current) in
        let changes := [("legal_practice_id", json_of_option (IntakeCase.legalPracticeId p));
                        ("appraisal_firm_id", json_of_option (IntakeCase.appraisalFirmId p))] in
        do! _ := audit (Some (ap_actorAccountId input)) "intake.case_partner_organization_assigned" (ap_caseId input)
          (("trace_id", JStr (ap_traceId input)) :: changes) (ap_assignedAt input) in
        do! _ := event (event_input (ap_caseId input)
          (key_of ["case"; ap_caseId input; "partner-assignment"; toISOString (ap_assignedAt input);
             default "none" (IntakeCase.legalPracticeId p); default "none" (IntakeCase.appraisalFirmId p)])
          "partner_assignment_changed" staff (Some (ap_actorAccountId input)) (ap_traceId input) changes
          (ap_assignedAt input)) in
        tret (Some (mkAssigned (ap_caseId input) (IntakeCase.legalPracticeId p) (IntakeCase.appraisalFirmId p)))
  end.

Definition transitionToPostIpoStructuring (caseId traceId : string) (transitionedAt : Z) : txn intake (string * Stage) :=
  do! locked := tread (get_case caseId) in
  match locked with
  | None => tthrow (Thrown "Intake case not found")
  | Some current =>
      match IntakeCase.stage current with
      | post_ipo_structuring | approved_for_final_offering => tret (caseId, IntakeCase.stage current)
      | pre_offering_open =>
          do! _ := tprim (case_update caseId (IntakeCase.set_stage post_ipo_structuring transitionedAt)) in
          do! _ := audit None "intake.case_post_ipo_structuring_started" caseId
            [("trace_id", JStr traceId); ("previous_stage", JStr "pre_offering_open");
             ("new_stage", JStr "post_ipo_structuring")] transitionedAt in
          do! _ := event (with_stages pre_offering_open post_ipo_structuring
            (event_input caseId (key_of ["case"; caseId; "post-ipo-structuring"; traceId])
               "case_post_ipo_structuring_started" system None traceId [] transitionedAt)) in
          tret (caseId, post_ipo_structuring)
      | _ => tthrow (Thrown "Intake case not pre_offering_open")
      end
  end.

(** [completedAt ?? (markCompleted === true ? recordedAt : null)] *)
Definition completed_at (current : option Z) (mark : option bool) (at_ : Z) : option Z :=
  match current with
  | Some _ => current
  | None => if bool_decide (mark = Some true) then Some at_ else None
  end.

Definition approval_stages (both : bool) (i : AppendIntakeCaseEventInput) : AppendIntakeCaseEventInput :=
  if both then with_stages post_ipo_structuring approved_for_final_offering i else i.

(** postIpoStructuringCompleteAuditData *)
Definition audit_both_complete (both : bool) (caseId traceId : string) (recordedAt : Z) : txn intake unit :=
  if both
  then audit None "intake.case_approved_for_final_offering" caseId
         [("trace_id", JStr traceId); ("previous_stage", JStr "post_ipo_structuring");
          ("new_stage", JStr "approved_for_final_offering")] recordedAt
  else tret tt.

(** The row both writebacks leave: the completion of the one side, and the stage when the
    other side is complete too. *)
Definition legal_row (input : RecordLegalStructuringInput) (current : IntakeCase.t) : bool * (IntakeCase.t → IntakeCase.t) :=
  let p := IntakeCase.partner current in
  let done := completed_at (IntakeCase.legalStructuringCompletedAt p) (rl_markCompleted input) (rl_recordedAt input) in
  let both := is_set done && is_set (IntakeCase.appraisalCompletedAt p) in
  (both, λ c, set_completion both (rl_recordedAt input)
                (legal_partner_data (rl_legalDocumentRefs input) done (IntakeCase.partner c)) c).

Definition appraisal_row (input : RecordAppraisalInput) (cents : option Z) (current : IntakeCase.t)
    : bool * (IntakeCase.t → IntakeCase.t) :=
  let p := IntakeCase.partner current in
  let done := completed_at (IntakeCase.appraisalCompletedAt p) (ra_markCompleted input) (ra_recordedAt input) in
  let both := is_set (IntakeCase.legalStructuringCompletedAt p) && is_set done in
  (both, λ c, set_completion both (ra_recordedAt input)
                (appraisal_partner_data cents (ra_appraisalDocumentRefs input) done (IntakeCase.partner c)) c).

Definition recordLegalStructuring (input : RecordLegalStructuringInput) : txn intake (option PartnerCaseDetail) :=
  do! locked := tread (get_case (rl_caseId input)) in
  match locked with
  | None => tret None
  | Some current =>
      if negb (bool_decide (IntakeCase.stage current = post_ipo_structuring)) then tthrow CaseReviewConflictError
      else
        let '(both, update) := legal_row input current in
        do! _ := tprim (case_update (rl_caseId input) update) in
        do! detail := tread (λ s, toPartnerCaseDetail s (update current)) in
        do! _ := audit (Some (rl_actorAccountId input)) "intake.case_legal_structuring_recorded" (rl_caseId input)
          [("trace_id", JStr (rl_traceId input)); ("legal_document_refs", JArr (map JStr (pc_legalDocumentRefs detail)));
           ("legal_structuring_completed_at", json_of_date (pc_legalStructuringCompletedAt detail))] (rl_recordedAt input) in
        do! _ := event (approval_stages both
          (event_input (rl_caseId input)
             (key_of ["case"; rl_caseId input; "legal-structuring"; toISOString (rl_recordedAt input); rl_traceId input])
             (if both then "case_approved_for_final_offering" else "legal_structuring_updated")
             partner (Some (rl_actorAccountId input)) (rl_traceId input)
             [("legal_structuring_completed_at", json_of_date (pc_legalStructuringCompletedAt detail))]
             (rl_recordedAt input))) in
        do! _ := audit_both_complete both (rl_caseId input) (rl_traceId input) (rl_recordedAt input) in
        tret (Some detail)
  end.

Definition recordAppraisal (input : RecordAppraisalInput) : txn intake (option PartnerCaseDetail) :=
  do! locked := tread (get_case (ra_caseId input)) in
  match locked with
  | None => tret None
  | Some current =>
      if negb (bool_decide (IntakeCase.stage current = post_ipo_structuring)) then tthrow CaseReviewConflictError
      else
        do! cents := match ra_appraisalValueOpinionEur input with
                     | None => tret None
                     | Some v => do! c := tlift (toCents v) in tret (Some c)
                     end in
        let '(both, update) := appraisal_row input cents current in
        do! _ := tprim (case_update (ra_caseId input) update) in
        do! detail := tread (λ s, toPartnerCaseDetail s (update current)) in
        do! _ := audit (Some (ra_actorAccountId input)) "intake.case_appraisal_recorded" (ra_caseId input)
          [("trace_id", JStr (ra_traceId input));
           ("appraisal_value_opinion_eur", json_of_option (pc_appraisalValueOpinionEur detail));
           ("appraisal_document_refs", JArr (map JStr (pc_appraisalDocumentRefs detail)));
           ("appraisal_completed_at", json_of_date (pc_appraisalCompletedAt detail))] (ra_recordedAt input) in
        do! _ := event (approval_stages both
          (event_input (ra_caseId input)
             (key_of ["case"; ra_caseId input; "appraisal"; toISOString (ra_recordedAt input); ra_traceId input])
             (if both then "case_approved_for_final_offering" else "appraisal_updated")
             partner (Some (ra_actorAccountId input)) (ra_traceId input)
             [("appraisal_completed_at", json_of_date (pc_appraisalCompletedAt detail))] (ra_recordedAt input))) in
        do! _ := audit_both_complete both (ra_caseId input) (ra_traceId input) (ra_recordedAt input) in
        tret (Some detail)
  end.

(** ** Messages *)

Definition thread_of (caseId : string) (lane : ThreadLane) (s : intake) : option CaseThread.t :=
  find_row (λ t, bool_decide (CaseThread.caseId t = caseId) && bool_decide (CaseThread.lane t = lane)) (threads s).

Definition message_before (a b : CaseMessage.t) : bool := CaseMessage.createdAt a <? CaseMessage.createdAt b.

Definition listCaseMessages (caseId : string) (lane : ThreadLane) (s : intake) : list CaseMessageRecord :=
  match thread_of caseId lane s with
  | None => []
  | Some t =>
      map toCaseMessageRecord
        (order_by message_before (List.filter (by_id CaseMessage.threadId (CaseThread.id t)) (messages s)))
  end.

Definition postCaseMessage (caseId : string) (lane : ThreadLane) (authorAccountId body : string) (postedAt : Z)
    : txn intake (option CaseMessageRecord) :=
  do! exists_ := tread (get_case caseId) in
  match exists_ with
  | None => tret None
  | Some _ =>
      do! newThreadId := fresh_id "thread_" in
      do! thread := tread (thread_of caseId lane) in
      do! threadId :=
        match thread with
        | Some t => tret (CaseThread.id t)
        | None => do! _ := tprim (thread_create (CaseThread.mk newThreadId caseId lane)) in tret newThreadId
        end in
      do! messageId := fresh_id "msg_" in
      let message := CaseMessage.mk messageId threadId (Some authorAccountId) body postedAt in
      do! _ := tprim (message_create message) in
      tret (Some (toCaseMessageRecord message))
  end.

End WithUlid.
End IntakeRepo.

(** The transactions on the documents of a case: those of
    src/src/modules/intake/application/upload-case-document.service.ts, which append to the case's ledger of events.
    CaseDocuments models the services around them. *)
Module DocumentTx.
Import JsString IntakePolicy IntakeDb IntakeRepo.

Definition DELETED_DOCUMENT_RETENTION_DAYS : Z := 30.
Definition MAX_ROOM_PHOTOS : nat := 5.

Definition room_photo_not_found : error := AppError "intake.room_photo_not_found" 404 [].
Definition room_not_found : error := AppError "intake.room_not_found" 404 [].
Definition room_photo_limit_reached : error := AppError "intake.room_photo_limit_reached" 409 [].

(** ** Rows *)

Definition active_photo (caseId roomId : string) (d : StoredDocument.t) : bool :=
  bool_decide (StoredDocument.caseId d = Some caseId) && bool_decide (StoredDocument.roomId d = Some roomId) &&
  bool_decide (StoredDocument.documentType d = "room_photo") && accepted_document d.

Definition photo_count (caseId roomId : string) (s : intake) : nat :=
  length (List.filter (active_photo caseId roomId) (documents s)).

(** [storedDocument.findFirst] of a photo by its id *)
Definition find_photo (caseId roomId documentId : string) (s : intake) : option StoredDocument.t :=
  find_row (λ d, bool_decide (StoredDocument.id d = documentId) && active_photo caseId roomId d) (documents s).

(** [where: { id: roomId, property: { cases: { some: { id: caseId } } } }] *)
Definition find_room (caseId roomId : string) (s : intake) : option PropertyRoom.t :=
  find_row (λ r, bool_decide (PropertyRoom.id r = roomId) &&
                 exists_row (λ c, bool_decide (IntakeCase.id c = caseId) &&
                                  bool_decide (IntakeCase.propertyId c = PropertyRoom.propertyId r)) (cases (base s))) (rooms s).

(** [storedDocument.create] *)
Definition document_create (d : StoredDocument.t) (s : intake) : result intake :=
  if exists_row (by_id StoredDocument.id (StoredDocument.id d)) (documents s) then violation "stored_documents_pkey"
  else if negb (opt_ok (λ k, exists_row (by_id PropertyRoom.id k) (rooms s)) (StoredDocument.roomId d)) then violation "stored_documents_room_id_fkey"
  else if negb (opt_ok (λ k, exists_row (by_id StoredDocument.id k) (documents s)) (StoredDocument.sourceDocumentId d))
    then violation "stored_documents_source_document_id_fkey"
  else if match StoredDocument.sourceDocumentId d, StoredDocument.variantType d with
          | Some k, Some v => exists_row (λ q, bool_decide (StoredDocument.sourceDocumentId q = Some k) &&
                                               bool_decide (StoredDocument.variantType q = Some v)) (documents s)
          | _, _ => false
          end then violation "stored_documents_source_variant_key"
  else Ok (set_documents (documents s ++ [d]) s).

Definition set_preferred (photo : option string) (r : PropertyRoom.t) : PropertyRoom.t :=
  PropertyRoom.mk (PropertyRoom.id r) (PropertyRoom.propertyId r) (PropertyRoom.roomType r) (PropertyRoom.sizeSqM r) photo.

(** [Decimal.toString()] of a DECIMAL(6,2) *)
Definition decimal_text (hundredths : Z) : string :=
  let whole := BigInt_toString (hundredths / 100) in
  if hundredths mod 100 =? 0 then whole
  else if hundredths mod 10 =? 0 then String.append whole (String "." (BigInt_toString (hundredths mod 100 / 10)))
  else String.append whole (String "." (padStart 2 "0"%char (BigInt_toString (hundredths mod 100)))).

(** ** The transactions *)

Section WithUlid.
Context (ulid : nat → string).
Notation audit := (audit ulid).
Notation event := (IntakeRepo.event ulid).

Definition document_event (caseId key type_ actor : string) (traceId : option string) (resourceType resourceId : string)
    (meta : list (string * json)) (at_ : Z) : AppendIntakeCaseEventInput :=
  mkAppend caseId key type_ staff (Some actor) traceId None None None (Some resourceType) (Some resourceId) meta at_
    None None None None None.

(** Only the upload locks the room it writes to.  The other transactions read their rows without a lock and write
    afterwards: their checks and their writes are separate definitions, because another transaction can commit in
    between. *)
Definition represent_check (caseId roomId documentId : string) : txn intake unit :=
  do! photo := tread (find_photo caseId roomId documentId) in
  match photo with
  | None => tthrow room_photo_not_found
  | Some _ =>
      do! room := tread (find_room caseId roomId) in
      match room with None => tthrow room_not_found | Some _ => tret tt end
  end.

Definition represent_write (caseId roomId documentId actor : string) (traceId : option string) (now : Z) : txn intake unit :=
  do! _ := twrite (λ s, set_rooms (update_where (by_id PropertyRoom.id roomId) (set_preferred (Some documentId)) (rooms s)) s) in
  do! _ := audit (Some actor) "intake.room_photo_representative_selected" caseId
             [("room_id", JStr roomId); ("document_id", JStr documentId)] now in
  event (document_event caseId (key_of ["case"; caseId; "room-photo-representative"; documentId; default "unknown" traceId])
           "room_photo_representative_selected" actor traceId "stored_document" documentId [("room_id", JStr roomId)] now).

Definition setRepresentative (caseId roomId documentId actor : string) (traceId : option string) (now : Z) : txn intake unit :=
  do! _ := represent_check caseId roomId documentId in
  represent_write caseId roomId documentId actor traceId now.

Definition deletion_of (actor reason : string) (now : Z) : StoredDocument.deletion :=
  StoredDocument.mkDeletion now actor reason (now + DELETED_DOCUMENT_RETENTION_DAYS * 24 * 60 * 60 * 1000).

Definition is_deleted (d : StoredDocument.t) : bool := is_set (StoredDocument.deletedAt d).

Definition variants (documentId : string) (s : intake) : list StoredDocument.t :=
  List.filter (λ d, bool_decide (StoredDocument.sourceDocumentId d = Some documentId)) (documents s).

(** the photo or a variant of it, not deleted *)
Definition photo_or_variant (documentId : string) (d : StoredDocument.t) : bool :=
  (bool_decide (StoredDocument.id d = documentId) || bool_decide (StoredDocument.sourceDocumentId d = Some documentId)) &&
  negb (is_deleted d).

(** The keys of the objects to delete afterwards, if there was such a photo. *)
(** The keys of the photo's objects, when it is there. *)
Definition delete_check (caseId roomId documentId : string) : txn intake (option (list string)) :=
  do! photo := tread (find_photo caseId roomId documentId) in
  match photo with
  | None => tret None
  | Some photo => tread (λ s, Some (StoredDocument.objectKey photo :: map StoredDocument.objectKey (variants documentId s)))
  end.

Definition delete_write (caseId roomId documentId actor : string) (traceId reason : option string) (now : Z) : txn intake unit :=
  do! _ := twrite (λ s, set_documents (update_where (photo_or_variant documentId)
             (StoredDocument.set_deleted (deletion_of actor (default "staff_deleted" reason) now)) (documents s)) s) in
  do! _ := twrite (λ s, set_rooms (update_where (λ r, bool_decide (PropertyRoom.id r = roomId) &&
             bool_decide (PropertyRoom.preferredPhotoId r = Some documentId)) (set_preferred None) (rooms s)) s) in
  do! _ := audit (Some actor) "intake.room_photo_deleted" caseId
             [("room_id", JStr roomId); ("document_id", JStr documentId); ("reason", JStr (default "staff_deleted" reason))] now in
  event (document_event caseId (key_of ["case"; caseId; "room-photo-deleted"; documentId; default "unknown" traceId])
           "room_photo_deleted" actor traceId "stored_document" documentId [("room_id", JStr roomId)] now).

Definition deletePhoto_tx (caseId roomId documentId actor : string) (traceId reason : option string) (now : Z) :
    txn intake (option (list string)) :=
  do! keys := delete_check caseId roomId documentId in
  match keys with
  | None => tret None
  | Some keys => do! _ := delete_write caseId roomId documentId actor traceId reason now in tret (Some keys)
  end.

Definition in_room (roomId : string) (d : StoredDocument.t) : bool := bool_decide (StoredDocument.roomId d = Some roomId).

(** The keys of the objects to delete: of the documents of the room and of their variants, those not deleted before. *)
Definition room_keys (roomId : string) (s : intake) : list string :=
  flat_map (λ d, (if is_deleted d then [] else [StoredDocument.objectKey d]) ++
                 map StoredDocument.objectKey (List.filter (λ v, negb (is_deleted v)) (variants (StoredDocument.id d) s)))
    (List.filter (in_room roomId) (documents s)).

(** The room, the keys of its objects and how many photos are on it. *)
Definition room_check (caseId roomId : string) : txn intake (PropertyRoom.t * list string * Z) :=
  do! room := tread (find_room caseId roomId) in
  match room with
  | None => tthrow room_not_found
  | Some room =>
      tread (λ s, (room, room_keys roomId s,
        Z.of_nat (length (List.filter (λ d, in_room roomId d && negb (is_deleted d)) (documents s)))))
  end.

Definition room_write (caseId roomId actor : string) (traceId reason : option string) (room : PropertyRoom.t) (count now : Z) : txn intake unit :=
  do! _ := twrite (λ s, set_documents (update_where (λ d, in_room roomId d && negb (is_deleted d))
             (StoredDocument.set_deleted (deletion_of actor (default "room_deleted" reason) now)) (documents s)) s) in
  do! _ := twrite (λ s, set_documents (update_where (in_room roomId) StoredDocument.without_room (documents s)) s) in
  do! _ := twrite (λ s, set_rooms (List.filter (λ r, negb (bool_decide (PropertyRoom.id r = roomId))) (rooms s)) s) in
  let size := decimal_text (PropertyRoom.sizeSqM room) in
  do! _ := audit (Some actor) "intake.room_deleted" caseId
             [("room_id", JStr roomId); ("room_type", JStr (PropertyRoom.roomType room)); ("size_sq_m", JStr size);
              ("photo_count", JNum count); ("reason", JStr (default "room_deleted" reason))] now in
  event (document_event caseId (key_of ["case"; caseId; "room-deleted"; roomId; default "unknown" traceId])
           "room_deleted" actor traceId "property_room" roomId
           [("room_id", JStr roomId); ("room_type", JStr (PropertyRoom.roomType room)); ("size_sq_m", JStr size);
            ("photo_count", JNum count)] now).

Definition deleteRoom_tx (caseId roomId actor : string) (traceId reason : option string) (now : Z) : txn intake (list string) :=
  do! found := room_check caseId roomId in
  let '(room, keys, count) := found in
  do! _ := room_write caseId roomId actor traceId reason room count now in
  tret keys.

Record UploadInput := mkUpload {
  up_caseId : string; up_documentType : string; up_revisionNumber : Z; up_roomId : option string; up_body : list string;
  up_contentType : string; up_originalFilename : string; up_actorAccountId : option string; up_traceId : option string }.

Definition text_or_null (t : option string) : json := match t with Some t => JStr t | None => JNull end.

Definition upload_row (bucket : string) (i : UploadInput) (documentId key checksum : string) (size now : Z) : StoredDocument.t :=
  StoredDocument.mk documentId bucket (Some (up_caseId i)) (up_roomId i) None None (up_documentType i) "accepted" None key
    (up_contentType i) size checksum now.

Definition thumbnail_row (bucket : string) (i : UploadInput) (documentId key checksum : string) (size now : Z) : StoredDocument.t :=
  StoredDocument.mk (String.append documentId "_thumbnail") bucket (Some (up_caseId i)) (up_roomId i) (Some documentId) (Some "thumbnail")
    "room_photo_thumbnail" "accepted" None key "image/jpeg" size checksum now.

(** The transaction of the upload: with the room's row locked, the limit is checked again. *)
Definition accept_tx (i : UploadInput) (document : StoredDocument.t) (thumbnail : option StoredDocument.t) (now : Z) : txn intake unit :=
  do! full := tread (λ s, match up_roomId i with Some r => (MAX_ROOM_PHOTOS <=? photo_count (up_caseId i) r s)%nat | None => false end) in
  if full then tthrow room_photo_limit_reached
  else
  do! _ := tprim (document_create document) in
  do! _ := match up_actorAccountId i with
           | None => tret tt
           | Some actor =>
               event (document_event (up_caseId i) (key_of ["case"; up_caseId i; "document-uploaded"; StoredDocument.id document])
                 (if bool_decide (up_documentType i = "room_photo") then "room_photo_uploaded" else "property_document_uploaded")
                 actor (up_traceId i) "stored_document" (StoredDocument.id document)
                 [("document_type", JStr (up_documentType i)); ("revision_number", JNum (up_revisionNumber i));
                  ("room_id", text_or_null (up_roomId i))] now)
           end in
  match thumbnail with Some t => tprim (document_create t) | None => tret tt end.

End WithUlid.
End DocumentTx.
