(* ===== verification/IntakeReversal.v ===== *)
(** Corrections of a case: the reversal half of prisma-intake.repository.ts and the services of
    application/intake-reversal.service.ts.

    A correction is requested against a snapshot of the case, kept as an operation row, approved
    by a second person when its action asks for it, and executed in a transaction that evaluates
    the policy again.  Everything the repository does in one statement or one [$transaction] is
    a [txn]; the methods that make several are [io]. *)

From S2P Require Import Prelude JsString Currency DateTime IntakePolicy Db OfferingPolicy OfferingRepo IntakeDb IntakeRepo.

Module IntakeReversal.
Import IntakePolicy IntakeDb IntakeRepo.

(** ** The snapshot *)

Definition piv_after (a b : Piv.t) : bool := String.ltb (Piv.id b) (Piv.id a).

(** [pivs: orderBy: { id: "desc" }, take: 1] *)
Definition latest_piv (caseId : string) (b : db) : option Piv.t :=
  head (order_by piv_after (List.filter (by_id Piv.caseId caseId) (pivs b))).

(** [offerings: orderBy: { createdAt: "desc" }, take: 1] *)
Definition offering_after (a b : Offering.t) : bool := Offering.createdAt b <? Offering.createdAt a.

Definition latest_offering (caseId : string) (b : db) : option Offering.t :=
  match latest_piv caseId b with
  | None => None
  | Some p => head (order_by offering_after (List.filter (by_id Offering.pivId (Piv.id p)) (offerings b)))
  end.

Definition offering_status_text (st : OfferingStatus) : string :=
  match st with Db.pre_offering => "pre_offering" | Db.final_offering => "final_offering" | Db.closed => "closed" end.

Definition funded_state (st : option CapitalState.t) : bool :=
  match st with
  | Some CapitalState.eurc_reserved | Some CapitalState.reconfirmation_pending | Some CapitalState.eurc_finalized => true
  | _ => false
  end.

Definition count {A} (p : A → bool) (l : list A) : nat := length (List.filter p l).

Definition snapshot_offering (b : db) (o : Offering.t) : OfferingSnapshot :=
  let rs := List.filter (OfferingRepo.of_offering (Offering.id o)) (reservations b) in
  mkOfferingSnapshot (Offering.id o) (offering_status_text (Offering.status o)) (Offering.finalOfferingPublishedAt o)
    (count (λ r, OfferingRepo.live (Reservation.stage r)) rs)
    (count (λ r, funded_state (latest_capital_state (Reservation.id r) b)) rs)
    (exists_row (by_id DisclosurePack.offeringId (Offering.id o)) (disclosurePacks b))
    (existsb (λ r, bool_decide (Reservation.stage r = ReservationStage.awaiting_reconfirmation)) rs)
    (count (λ r, bool_decide (Reservation.stage r = ReservationStage.finalized)) rs).

Definition later_event (a b : CaseEvent.t) : bool := CaseEvent.eventSequence b <? CaseEvent.eventSequence a.

(** the last transition of the case that is not itself a reversal *)
Definition latest_forward (caseId : string) (s : intake) : option CaseEvent.t :=
  head (order_by later_event
    (List.filter (λ e, bool_decide (CaseEvent.caseId e = caseId) && is_set (CaseEvent.fromStage e) &&
                       is_set (CaseEvent.toStage e) && negb (is_set (CaseEvent.reversalOfEventId e))) (caseEvents s))).

Definition transition_of (e : CaseEvent.t) : option Transition :=
  match CaseEvent.fromStage e, CaseEvent.toStage e with
  | Some a, Some b => Some (mkTransition (CaseEvent.id e) a b)
  | _, _ => None
  end.

Definition in_flight (st : OperationStatus) : bool :=
  bool_decide (st ∈ [requested; pending_approval; approved; executing]).

Definition loadReversalSnapshot (caseId : string) (excludeOperationId : option string) (s : intake) : option ReversalSnapshot :=
  match get_case caseId s with
  | None => None
  | Some row =>
      let latest := latest_forward caseId s in
      Some (mkSnapshot (IntakeCase.stage row) (IntakeCase.workflowEventSequence row)
        (match latest with Some e => transition_of e | None => None end)
        (match latest with
         | Some e => exists_row (λ q, bool_decide (CaseEvent.caseId q = caseId) && reverses (CaseEvent.id e) q) (caseEvents s)
         | None => false
         end)
        (is_set (published_request caseId s))
        (snapshot_offering (base s) <$> latest_offering caseId (base s))
        (negb (bool_decide (IntakeCase.legalExecutionEventRefs (IntakeCase.partner row) = [])))
        (is_set (IntakeCase.appraisalCompletedAt (IntakeCase.partner row)))
        (exists_row (λ o, bool_decide (Operation.caseId o = caseId) && in_flight (Operation.status o) &&
                          negb (bool_decide (Some (Operation.id o) = excludeOperationId))) (operations s)))
  end.

Definition getIntakeReversalSnapshot (caseId : string) (s : intake) : option ReversalSnapshot :=
  loadReversalSnapshot caseId None s.

(** ** Commands and reasons *)

Definition command_text (c : ReversalCommand) : string :=
  match c with
  | return_to_draft => "return_to_draft"
  | withdraw_information_request => "withdraw_information_request"
  | reopen_pre_offering => "reopen_pre_offering"
  | reopen_structuring => "reopen_structuring"
  | reopen_final_offering_review => "reopen_final_offering_review"
  end.

Definition all_commands : list ReversalCommand :=
  [return_to_draft; withdraw_information_request; reopen_pre_offering; reopen_structuring; reopen_final_offering_review].

(** [reversalCommandSchema.safeParse] *)
Definition parse_command (t : string) : option ReversalCommand :=
  find_row (λ c, bool_decide (command_text c = t)) all_commands.

Definition reversalReasonCodes : list string :=
  ["operator_input_error"; "wrong_case_selected"; "duplicate_case"; "missing_evidence_correction";
   "partner_assignment_correction"; "founder_decision_correction"; "offering_setup_correction";
   "compliance_directed_correction"; "system_recovery"].

Definition case_changed : string := "case_changed".
Definition not_allowed : string := "not_allowed".
Definition execution_error : string := "execution_error".

(** ** The repository *)

Record CreateReversalInput := mkCreateReversal {
  cv_caseId : string; cv_command : string; cv_fromStage : Stage; cv_toStage : Stage; cv_status : OperationStatus;
  cv_reasonCode : string; cv_reason : string; cv_requestedByAccountId : string; cv_expectedStage : Stage;
  cv_expectedWorkflowEventSequence : Z; cv_reversalOfEventId : option string; cv_idempotencyKey : string;
  cv_traceId : string }.

Section WithUlid.
Context (ulid : nat → string).
Notation fresh_id := (fresh_id ulid).
Notation audit := (audit ulid).
Notation event := (event ulid).

Definition operation_row (id_ : string) (i : CreateReversalInput) (now : Z) : Operation.t :=
  Operation.mk id_ (cv_caseId i) (cv_command i) (cv_fromStage i) (cv_toStage i) (cv_status i) (cv_reasonCode i)
    (cv_reason i) (cv_requestedByAccountId i) None (cv_expectedStage i) (cv_expectedWorkflowEventSequence i + 1)
    (cv_reversalOfEventId i) (cv_idempotencyKey i) (cv_traceId i) None None now None None None None.

(** The transaction of createReversalOperation. *)
Definition insertReversalOperation (i : CreateReversalInput) (now : Z) : txn intake Operation.t :=
  do! current := tread (get_case (cv_caseId i)) in
  match current with
  | None => tthrow (Thrown "P2025")
  | Some current =>
      if negb (bool_decide (IntakeCase.stage current = cv_expectedStage i)) ||
         negb (IntakeCase.workflowEventSequence current =? cv_expectedWorkflowEventSequence i)
      then tthrow CaseReviewConflictError
      else
        do! operationId := fresh_id "rev_" in
        let created := operation_row operationId i now in
        let about := [("operation_id", JStr operationId); ("command", JStr (cv_command i));
                      ("reason_code", JStr (cv_reasonCode i)); ("reason", JStr (cv_reason i))] in
        do! _ := tprim (operation_create created) in
        do! _ := audit (Some (cv_requestedByAccountId i)) "intake.correction_requested" (cv_caseId i) about now in
        do! _ := event (with_resource "intake_case_reversal_operation" operationId
          (event_input (cv_caseId i) (key_of ["case"; cv_caseId i; "correction-requested"; operationId])
             "correction_requested" staff (Some (cv_requestedByAccountId i)) (cv_traceId i) about now)) in
        tret created
  end.

Definition createReversalOperation (i : CreateReversalInput) (now : Z) : io intake Operation.t :=
  await existing := query (λ s, Ok (find_row (same_operation_key (cv_caseId i) (cv_idempotencyKey i)) (operations s))) in
  match existing with
  | Some o => ret o
  | None => transaction (insertReversalOperation i now)
  end.

(** The conditional UPDATE of approveReversalOperation; [false] when it matched no row. *)
Definition approvable (operationId approver : string) (o : Operation.t) : bool :=
  bool_decide (Operation.id o = operationId) && bool_decide (Operation.status o = pending_approval) &&
  negb (bool_decide (Operation.requestedByAccountId o = approver)).

Definition claimApproval (operationId approver : string) (approvedAt : Z) : txn intake bool :=
  do! found := tread (λ s, exists_row (approvable operationId approver) (operations s)) in
  if negb found then tret false
  else
    do! known := tread (account_exists approver) in
    if negb known then tthrow (Thrown "intake_case_reversal_operations_approved_by_fkey")
    else
      do! _ := twrite (update_operations (approvable operationId approver) (Operation.approve approver approvedAt)) in
      tret true.

Definition approveReversalOperation (caseId operationId approver : string) (approvedAt : Z) : io intake (option Operation.t) :=
  await operation := query (λ s, Ok (find_operation caseId operationId s)) in
  match operation with
  | None => ret None
  | Some o =>
      if bool_decide (Operation.status o = approved) && bool_decide (Operation.approvedByAccountId o = Some approver)
      then ret (Some o)
      else
        await claimed := transaction (claimApproval (Operation.id o) approver approvedAt) in
        if negb claimed then throw CaseReviewConflictError
        else query (λ s, match find_row (by_id Operation.id (Operation.id o)) (operations s) with
                         | Some o => Ok (Some o)
                         | None => P2025
                         end)
  end.

(** [where: { id, status: { in: ["requested", "approved", "executing"] } }] *)
Definition failable (operationId : string) (o : Operation.t) : bool :=
  bool_decide (Operation.id o = operationId) && bool_decide (Operation.status o ∈ [requested; approved; executing]).

Definition failReversalOperation (operation : Operation.t) (actor : string) (failedAt : Z) (code detail : string)
    : txn intake (option Operation.t) :=
  do! marked := tread (λ s, exists_row (failable (Operation.id operation)) (operations s)) in
  if negb marked then tret None
  else
    do! _ := twrite (update_operations (failable (Operation.id operation)) (Operation.fail code detail failedAt)) in
    do! _ := audit (Some actor) "intake.correction_failed" (Operation.caseId operation)
      [("operation_id", JStr (Operation.id operation)); ("command", JStr (Operation.command operation));
       ("failure_code", JStr code); ("failure_detail", JStr detail)] failedAt in
    do! o := tread (λ s, find_row (by_id Operation.id (Operation.id operation)) (operations s)) in
    match o with Some o => tret (Some o) | None => tthrow (Thrown "P2025") end.

(** The row a command leaves; [None]: no executor exists for it. *)
Definition executor (command : string) (at_ : Z) : option (IntakeCase.t → IntakeCase.t) :=
  if bool_decide (command = "return_to_draft") then Some (IntakeCase.set_stage draft at_)
  else if bool_decide (command = "reopen_pre_offering") then
    Some (λ c,
      let r := IntakeCase.review c in
      let i := IntakeCase.ipo c in
      IntakeCase.set_ipo (IntakeCase.mkIpo (IntakeCase.ipoPeriodDays i) None None (IntakeCase.exclusivityCommencedAt i))
        (IntakeCase.set_review
           (IntakeCase.mkReview (IntakeCase.canReopen r) (IntakeCase.rejectedAt r) (IntakeCase.withdrawnAt r)
              (IntakeCase.expiredAt r) (IntakeCase.rejectionReasonCode r) (IntakeCase.rejectionNotes r)
              (IntakeCase.founderReviewNotes r) (IntakeCase.reviewedByAccountId r) None)
           (IntakeCase.set_stage submitted at_ c)))
  else if bool_decide (command = "reopen_structuring") then
    Some (λ c,
      let p := IntakeCase.partner c in
      IntakeCase.set_partner
        (IntakeCase.mkPartner (IntakeCase.legalPracticeId p) (IntakeCase.legalDocumentRefs p)
           (IntakeCase.legalStructuringCompletedAt p) (IntakeCase.legalExecutionEventRefs p)
           (IntakeCase.appraisalFirmId p) (IntakeCase.appraisalValueOpinionEur p) (IntakeCase.appraisalDocumentRefs p)
           (IntakeCase.appraisalCompletedAt p) None (IntakeCase.approvedForFinalOfferingAt p))
        (IntakeCase.set_stage pre_offering_open at_ c))
  else if bool_decide (command = "reopen_final_offering_review") then
    Some (λ c,
      let p := IntakeCase.partner c in
      IntakeCase.set_partner
        (IntakeCase.mkPartner (IntakeCase.legalPracticeId p) (IntakeCase.legalDocumentRefs p)
           (IntakeCase.legalStructuringCompletedAt p) (IntakeCase.legalExecutionEventRefs p)
           (IntakeCase.appraisalFirmId p) (IntakeCase.appraisalValueOpinionEur p) (IntakeCase.appraisalDocumentRefs p)
           (IntakeCase.appraisalCompletedAt p) None None)
        (IntakeCase.set_stage post_ipo_structuring at_ c))
  else None.

(** [offering.update({ status: "closed" })], which only reopen_pre_offering does *)
Definition suspend_offering (command : string) (offeringId : option string) : txn intake unit :=
  match bool_decide (command = "reopen_pre_offering"), offeringId with
  | true, Some k => twrite (λ s, set_base (update_offering k (Offering.set_status closed) (base s)) s)
  | _, _ => tret tt
  end.

Record ExecuteReversalInput := mkExecute {
  ex_caseId : string; ex_operationId : string; ex_actorAccountId : string; ex_traceId : string; ex_completedAt : Z }.

(** [snapshot === null || !command.success || getReversalAction(...) === null], negated *)
Definition still_allowed (o : Operation.t) (s : intake) : bool :=
  match loadReversalSnapshot (Operation.caseId o) (Some (Operation.id o)) s, parse_command (Operation.command o) with
  | Some snapshot, Some command => is_set (getReversalAction snapshot command)
  | _, _ => false
  end.

Definition runReversalExecution (i : ExecuteReversalInput) : txn intake (option Operation.t) :=
  do! operation := tread (find_operation (ex_caseId i) (ex_operationId i)) in
  do! row := tread (get_case (ex_caseId i)) in
  match operation, row with
  | Some o, Some row =>
      let fail := failReversalOperation o (ex_actorAccountId i) (ex_completedAt i) in
      if negb (bool_decide (Operation.status o ∈ [requested; approved])) then tret (Some o)
      else if negb (bool_decide (IntakeCase.stage row = Operation.expectedStage o)) ||
              negb (IntakeCase.workflowEventSequence row =? Operation.expectedWorkflowEventSequence o)
      then fail case_changed "The case changed after this correction was requested."
      else
        do! offeringId := tread (λ s, Offering.id <$> latest_offering (ex_caseId i) (base s)) in
        do! allowed := tread (still_allowed o) in
        if negb allowed
        then fail not_allowed "The case no longer meets the conditions for this correction."
        else
          do! _ := twrite (update_operations (by_id Operation.id (Operation.id o)) (Operation.start (ex_completedAt i))) in
          match executor (Operation.command o) (ex_completedAt i) with
          | None =>
              fail not_allowed (String.append "No executor exists for " (String.append (Operation.command o) "."))
          | Some update =>
              do! _ := suspend_offering (Operation.command o) offeringId in
              do! _ := tprim (case_update (ex_caseId i) update) in
              do! _ := audit (Some (ex_actorAccountId i)) (String.append "intake." (Operation.command o)) (ex_caseId i)
                [("operation_id", JStr (Operation.id o)); ("from_stage", JStr (stage_text (Operation.fromStage o)));
                 ("to_stage", JStr (stage_text (Operation.toStage o))); ("reason_code", JStr (Operation.reasonCode o));
                 ("reason", JStr (Operation.reason o))] (ex_completedAt i) in
              do! _ := event (with_reversal (Operation.reversalOfEventId o)
                (with_resource "intake_case_reversal_operation" (Operation.id o)
                   (with_stages (Operation.fromStage o) (Operation.toStage o)
                      (event_input (ex_caseId i) (key_of ["case"; ex_caseId i; "reversal"; Operation.id o; "completed"])
                         "case_stage_reverted" staff (Some (ex_actorAccountId i)) (ex_traceId i)
                         [("operation_id", JStr (Operation.id o)); ("command", JStr (Operation.command o));
                          ("reason_code", JStr (Operation.reasonCode o)); ("reason", JStr (Operation.reason o))]
                         (ex_completedAt i))))) in
              do! _ := twrite (update_operations (by_id Operation.id (Operation.id o)) (Operation.complete (ex_completedAt i))) in
              tread (λ s, find_row (by_id Operation.id (Operation.id o)) (operations s))
          end
  | _, _ => tret None
  end.

(** The transaction that records an unexpected error. *)
Definition recordExecutionError (i : ExecuteReversalInput) : txn intake unit :=
  do! operation := tread (find_operation (ex_caseId i) (ex_operationId i)) in
  match operation with
  | None => tret tt
  | Some o =>
      do! _ := failReversalOperation o (ex_actorAccountId i) (ex_completedAt i) execution_error
        "The correction failed unexpectedly and was not applied." in
      tret tt
  end.

Definition executeReversalOperation (i : ExecuteReversalInput) : io intake (option Operation.t) :=
  iocatch (transaction (runReversalExecution i)) (λ e,
    await recorded := iocatch (await _ := transaction (recordExecutionError i) in ret true) (λ _, ret false) in
    throw (if recorded : bool then e else Thrown "AggregateError")).

(** ** The services *)

Definition case_not_found : error := AppError "intake.case_not_found" 404 [].
Definition reversal_operation_not_found : error := AppError "intake.reversal_operation_not_found" 404 [].
Definition reversalConflictError : error := AppError "intake.reversal_conflict" 409 [].
Definition reversalNotAllowedError : error := AppError "intake.reversal_not_allowed" 409 [].
Definition ZodError : error := Thrown "ZodError".

Definition mapRepositoryConflict {A} (m : io intake A) : io intake A :=
  iocatch m (λ e, throw (if bool_decide (e = CaseReviewConflictError) then reversalConflictError else e)).

Definition requireNotFailed (o : Operation.t) : result Operation.t :=
  if bool_decide (Operation.status o = failed)
  then Err (if bool_decide (Operation.failureCode o = Some not_allowed) then reversalNotAllowedError else reversalConflictError)
  else Ok o.

Definition getReversalActions (snapshot : ReversalSnapshot) : list ReversalAction :=
  omap (getReversalAction snapshot) all_commands.

(** GetIntakeReversalPreviewService: the actions offered, in the order of the commands. *)
Definition getIntakeReversalPreview (caseId : string) : io intake (ReversalSnapshot * list ReversalAction) :=
  await snapshot := query (λ s, Ok (getIntakeReversalSnapshot caseId s)) in
  match snapshot with
  | None => throw case_not_found
  | Some snap => ret (snap, getReversalActions snap)
  end.

Record RequestReversalInput := mkRequestReversal {
  rq_caseId : string; rq_command : string; rq_accountId : string; rq_traceId : string; rq_idempotencyKey : string;
  rq_expectedStage : Stage; rq_expectedWorkflowEventSequence : Z; rq_reasonCode : string; rq_reason : string }.

(** What RequestIntakeReversalService passes to createReversalOperation. *)
Definition reversal_request (i : RequestReversalInput) (snapshot : ReversalSnapshot) (command : ReversalCommand)
    (action : ReversalAction) : CreateReversalInput :=
  mkCreateReversal (rq_caseId i) (command_text command) (stage snapshot) (targetStage action)
    (if requiresSecondApproval action then pending_approval else requested) (rq_reasonCode i) (rq_reason i)
    (rq_accountId i) (rq_expectedStage i) (rq_expectedWorkflowEventSequence i)
    (eventId <$> latestTransition snapshot) (rq_idempotencyKey i) (rq_traceId i).

Definition requestIntakeReversal (i : RequestReversalInput) (now : Z) : io intake Operation.t :=
  match parse_command (rq_command i), bool_decide (rq_reasonCode i ∈ reversalReasonCodes) with
  | Some command, true =>
      await snapshot := query (λ s, Ok (getIntakeReversalSnapshot (rq_caseId i) s)) in
      match snapshot with
      | None => throw case_not_found
      | Some snap =>
          if negb (bool_decide (stage snap = rq_expectedStage i)) ||
             negb (workflowEventSequence snap =? rq_expectedWorkflowEventSequence i)
          then throw reversalConflictError
          else
            match getReversalAction snap command with
            | None => throw reversalNotAllowedError
            | Some action =>
                await operation := mapRepositoryConflict (createReversalOperation (reversal_request i snap command action) now) in
                if bool_decide (Operation.status operation = pending_approval) then ret operation
                else
                  await executed := mapRepositoryConflict (executeReversalOperation
                    (mkExecute (rq_caseId i) (Operation.id operation) (rq_accountId i) (rq_traceId i) now)) in
                  lift (requireNotFailed (default operation executed))
            end
      end
  | _, _ => throw ZodError
  end.

Definition approveIntakeReversal (caseId operationId accountId traceId : string) (now : Z) : io intake Operation.t :=
  await operation := mapRepositoryConflict (approveReversalOperation caseId operationId accountId now) in
  match operation with
  | None => throw reversal_operation_not_found
  | Some operation =>
      await executed := mapRepositoryConflict (executeReversalOperation
        (mkExecute caseId operationId accountId traceId now)) in
      lift (requireNotFailed (default operation executed))
  end.

Definition getIntakeReversalOperation (caseId operationId : string) : io intake Operation.t :=
  await operation := query (λ s, Ok (find_operation caseId operationId s)) in
  match operation with None => throw reversal_operation_not_found | Some o => ret o end.

End WithUlid.
End IntakeReversal.
