(* ===== verification/IntakeLedger.v ===== *)
(** What every intake transaction does whatever it is asked: keys stay unique, the event ledger
    only grows and stays numbered, and the shared tables change only in ways the offering
    module expects ([OfferingSteps.step]).  Each write is checked once; transactions follow by
    composition. *)

From S2P Require Import Prelude JsString Currency DateTime IntakePolicy Db OfferingRepo OfferingInv OfferingLedger IntakeDb IntakeRepo IntakeReversal.

Module IntakeLedger.
Import IntakePolicy IntakeDb IntakeRepo IntakeReversal.

(** ** Keys and numbering *)

(** The columns keys and numbering depend on. *)
Record skel := mkSkel {
  sk_cases : list (string * Z); sk_requests : list (string * string); sk_revisions : list (string * string);
  sk_operations : list string; sk_events : list CaseEvent.t }.

Definition case_key (c : IntakeCase.t) : string * Z := (IntakeCase.id c, IntakeCase.workflowEventSequence c).
Definition request_key (r : InformationRequest.t) : string * string := (InformationRequest.id r, InformationRequest.caseId r).
Definition revision_key (r : Revision.t) : string * string := (Revision.id r, Revision.caseId r).

Definition skeleton (s : intake) : skel :=
  mkSkel (map case_key (cases (base s))) (map request_key (requests s)) (map revision_key (revisions s))
    (map Operation.id (operations s)) (caseEvents s).

Definition events_of_case (k : string) (l : list CaseEvent.t) : list CaseEvent.t :=
  List.filter (by_id CaseEvent.caseId k) l.

(** [1; 2; ...; n] *)
Definition upto (n : Z) : list Z := map Z.of_nat (seq 1 (Z.to_nat n)).

Record skel_ok (k : skel) : Prop := {
  ok_cases : List.NoDup (map fst (sk_cases k));
  ok_requests : List.NoDup (map fst (sk_requests k));
  ok_revisions : List.NoDup (map fst (sk_revisions k));
  ok_operations : List.NoDup (sk_operations k);
  ok_events : List.NoDup (map CaseEvent.id (sk_events k));
  ok_event_keys : List.NoDup (map CaseEvent.eventKey (sk_events k));
  ok_reversals : List.NoDup (omap CaseEvent.reversalOfEventId (sk_events k));
  ok_request_case : ∀ x, In x (sk_requests k) → In x.2 (map fst (sk_cases k));
  ok_revision_case : ∀ x, In x (sk_revisions k) → In x.2 (map fst (sk_cases k));
  ok_event_case : ∀ e, In e (sk_events k) → In (CaseEvent.caseId e) (map fst (sk_cases k));
  ok_numbers : ∀ c n, In (c, n) (sk_cases k) →
    0 ≤ n ∧ map CaseEvent.eventSequence (events_of_case c (sk_events k)) = upto n }.

Definition wf (s : intake) : Prop := skel_ok (skeleton s).

Lemma upto_succ n : 0 ≤ n → upto (n + 1) = upto n ++ [n + 1].
Proof.
  intros Hn. unfold upto. replace (Z.to_nat (n + 1)) with (Z.to_nat n + 1)%nat by lia.
  rewrite seq_app, map_app. simpl. f_equal. f_equal. lia.
Qed.

Lemma get_case_in k s c : get_case k s = Some c → In c (cases (base s)) ∧ IntakeCase.id c = k.
Proof. intros [H1 H2]%find_row_Some. unfold by_id in H2. by boolify. Qed.

Lemma get_case_key k s c :
  get_case k s = Some c → In (k, IntakeCase.workflowEventSequence c) (sk_cases (skeleton s)).
Proof. intros [H <-]%get_case_in. by apply (in_map case_key) in H. Qed.

Lemma exists_row_map {A B} (h : A → B) (p : A → bool) (q : B → bool) l :
  (∀ x, p x = q (h x)) → exists_row p l = exists_row q (map h l).
Proof. intros H. unfold exists_row. induction l as [|x l IH]; simpl; [done|]. by rewrite H, IH. Qed.

(** A key a constraint has checked is new. *)
Lemma fresh_key {A} (id : A → string) k l : exists_row (by_id id k) l = false → ¬ In k (map id l).
Proof.
  rewrite exists_row_false. intros H (x & <- & Hx)%in_map_iff. specialize (H x Hx).
  by rewrite by_id_eq in H.
Qed.

Lemma known_key {A} (id : A → string) k l : exists_row (by_id id k) l = true → In k (map id l).
Proof. rewrite exists_row_true. intros (x & Hx & E). unfold by_id in E. boolify. subst. by apply in_map. Qed.

(** Appending to the skeleton. *)
Lemma skel_add_case k x ks : skel_ok k → ¬ In x (map fst (sk_cases k)) → ks = sk_cases k ++ [(x, 0)] →
  skel_ok (mkSkel ks (sk_requests k) (sk_revisions k) (sk_operations k) (sk_events k)).
Proof.
  intros [] Hx ->. split; simpl; auto; rewrite ?map_app.
  - by apply NoDup_snoc.
  - intros y Hy. rewrite in_app_iff. auto.
  - intros y Hy. rewrite in_app_iff. auto.
  - intros y Hy. rewrite in_app_iff. auto.
  - intros c n [H|[[= <- <-]|[]]]%in_app_iff; [by apply ok_numbers0|]. split; [lia|].
    unfold events_of_case. rewrite filter_nil; [done|]. intros e He. apply by_id_ne. intros E. apply Hx.
    rewrite <- E. by apply ok_event_case0.
Qed.

Lemma skel_add_request k x c rs : skel_ok k → ¬ In x (map fst (sk_requests k)) → In c (map fst (sk_cases k)) →
  rs = sk_requests k ++ [(x, c)] →
  skel_ok (mkSkel (sk_cases k) rs (sk_revisions k) (sk_operations k) (sk_events k)).
Proof.
  intros [] Hx Hc ->. split; simpl; auto; [rewrite map_app; by apply NoDup_snoc|].
  intros y [H|[<-|[]]]%in_app_iff; auto.
Qed.

Lemma skel_add_revision k x c rs : skel_ok k → ¬ In x (map fst (sk_revisions k)) → In c (map fst (sk_cases k)) →
  rs = sk_revisions k ++ [(x, c)] →
  skel_ok (mkSkel (sk_cases k) (sk_requests k) rs (sk_operations k) (sk_events k)).
Proof.
  intros [] Hx Hc ->. split; simpl; auto; [rewrite map_app; by apply NoDup_snoc|].
  intros y [H|[<-|[]]]%in_app_iff; auto.
Qed.

Lemma skel_add_operation k x os : skel_ok k → ¬ In x (sk_operations k) → os = sk_operations k ++ [x] →
  skel_ok (mkSkel (sk_cases k) (sk_requests k) (sk_revisions k) os (sk_events k)).
Proof. intros [] Hx ->. split; simpl; try done. by apply NoDup_snoc. Qed.

(** An appended event takes the next number of its case. *)
Definition bump (c : string) (n : Z) (x : string * Z) : string * Z := if bool_decide (x.1 = c) then (c, n) else x.

Lemma bump_fst c n l : map fst (map (bump c n) l) = map fst l.
Proof.
  rewrite map_map. apply map_ext. intros [x m]. unfold bump. simpl. case_bool_decide; by subst.
Qed.

Lemma omap_snoc {A B} (f : A → option B) l x :
  omap f (l ++ [x]) = omap f l ++ match f x with Some y => [y] | None => [] end.
Proof. rewrite omap_app. cbn. by destruct (f x). Qed.

Lemma skel_add_event k e n : skel_ok k →
  ¬ In (CaseEvent.id e) (map CaseEvent.id (sk_events k)) →
  ¬ In (CaseEvent.eventKey e) (map CaseEvent.eventKey (sk_events k)) →
  (∀ r, CaseEvent.reversalOfEventId e = Some r → ¬ In r (omap CaseEvent.reversalOfEventId (sk_events k))) →
  In (CaseEvent.caseId e, n) (sk_cases k) → CaseEvent.eventSequence e = n + 1 →
  skel_ok (mkSkel (map (bump (CaseEvent.caseId e) (n + 1)) (sk_cases k)) (sk_requests k) (sk_revisions k)
             (sk_operations k) (sk_events k ++ [e])).
Proof.
  intros [] Hid Hkey Hrev Hc Hn. split; simpl; rewrite ?bump_fst; try done; rewrite ?map_app.
  - by apply NoDup_snoc.
  - by apply NoDup_snoc.
  - rewrite omap_snoc. destruct (CaseEvent.reversalOfEventId e) as [r|]; [|by rewrite app_nil_r].
    apply NoDup_snoc; auto.
  - intros y [H|[<-|[]]]%in_app_iff; [auto|]. by apply (in_map fst) in Hc.
  - intros c m (x & E & Hx)%in_map_iff. destruct x as [c0 m0]. unfold bump in E. simpl in E.
    unfold events_of_case. rewrite List.filter_app, map_app. simpl.
    destruct (ok_numbers0 _ _ Hx) as [Hm Hl].
    case_bool_decide as Ec; injection E as <- <-.
    + subst c0. assert (m0 = n) as ->.
      { by pose proof (NoDup_map_inj_in fst _ _ _ ok_cases0 Hx Hc eq_refl) as [= ->]. }
      rewrite by_id_eq. simpl. rewrite Hn. split; [lia|]. rewrite upto_succ by done. f_equal. exact Hl.
    + rewrite by_id_ne by congruence. simpl. by rewrite app_nil_r.
Qed.

(** ** The effect of a transaction *)

Section WithUlid.
Context (ulid : nat → string) (jobId : nat → option string).

Record advance (s s' : intake) : Prop := {
  adv_wf : wf s → wf s';
  adv_events : ∃ new, caseEvents s' = caseEvents s ++ new;
  adv_base : rtc (OfferingSteps.step ulid) (base s) (base s') }.

#[global] Instance advance_pre : PreOrder advance.
Proof.
  split.
  - intros s. split; [done | exists []; by rewrite app_nil_r | done].
  - intros s1 s2 s3 [A1 (n1 & B1) C1] [A2 (n2 & B2) C2]. split; [auto| |by etrans].
    exists (n1 ++ n2). by rewrite B2, B1, app_assoc.
Qed.

(** Writes that leave the offering tables alone. *)
Definition quiet (b b' : db) : Prop :=
  offerings b' = offerings b ∧ reservations b' = reservations b ∧ moneyEvents b' = moneyEvents b ∧
  disclosurePacks b' = disclosurePacks b ∧ positions b' = positions b.

Lemma quiet_steps b b' : quiet b b' → rtc (OfferingSteps.step ulid) b b'.
Proof.
  intros (A & B & C & D & E). apply rtc_once, OfferingSteps.st_outside. split; try done.
  exists (positions b), []. rewrite app_nil_r. split_and!; [done| |done].
  apply OfferingLedger.position_evolves_refl.
Qed.

Lemma advance_intro s s' :
  (wf s → wf s') → (∃ new, caseEvents s' = caseEvents s ++ new) → quiet (base s) (base s') → advance s s'.
Proof. intros A B C. split; [done..|]. by apply quiet_steps. Qed.

(** A write that changes neither keys nor events. *)
Lemma advance_frame s s' : skeleton s' = skeleton s → quiet (base s) (base s') → advance s s'.
Proof.
  intros E Q. apply advance_intro; [|exists []; rewrite app_nil_r; by injection E|done].
  unfold wf. by rewrite E.
Qed.

Lemma quiet_refl b : quiet b b.
Proof. by repeat split. Qed.

Ltac frame := apply advance_frame; [reflexivity | repeat split].

Lemma fresh_id_ok p s a s' : fresh_id ulid p s = Ok (a, s') ↔
  a = String.append p (ulid (ulids (base s))) ∧ s' = set_base (set_ulids (S (ulids (base s))) (base s)) s.
Proof. unfold fresh_id, fresh. split; [by intros [= -> ->] | by intros [-> ->]]. Qed.

Lemma fresh_id_advance p : tx_rel advance (fresh_id ulid p).
Proof. intros s a s' [= _ <-]. frame. Qed.

Lemma audit_advance a act k ch t : tx_rel advance (audit ulid a act k ch t).
Proof. unfold audit. walk_tx; [apply fresh_id_advance|]. apply tx_rel_write. intros s. frame. Qed.

Lemma enqueue_advance q d tr : tx_rel advance (enqueue jobId q d tr).
Proof. unfold enqueue. walk_tx. apply tx_rel_write. intros s. frame. Qed.

Ltac by_prim := apply tx_rel_prim; intros s s' H; unfold property_create, room_create, evidence_create,
  evidence_update, thread_create, message_create in H; inv_ok H; injection H as <-; frame.

Lemma property_create_advance p : tx_rel advance (tprim (property_create p)).
Proof. by_prim. Qed.
Lemma room_create_advance r : tx_rel advance (tprim (room_create r)).
Proof. by_prim. Qed.
Lemma evidence_create_advance e : tx_rel advance (tprim (evidence_create e)).
Proof. by_prim. Qed.
Lemma evidence_update_advance k f : tx_rel advance (tprim (evidence_update k f)).
Proof. by_prim. Qed.
Lemma thread_create_advance t : tx_rel advance (tprim (thread_create t)).
Proof. by_prim. Qed.
Lemma message_create_advance m : tx_rel advance (tprim (message_create m)).
Proof. by_prim. Qed.

Lemma update_operations_advance p f : (∀ o, Operation.id (f o) = Operation.id o) →
  tx_rel advance (twrite (update_operations p f)).
Proof.
  intros Hf. apply tx_rel_write. intros s. apply advance_frame; [|by repeat split].
  unfold skeleton, update_operations. simpl. by rewrite map_update_where.
Qed.

Lemma request_update_advance k f : (∀ r, request_key (f r) = request_key r) →
  tx_rel advance (tprim (request_update k f)).
Proof.
  intros Hf. apply tx_rel_prim. intros s s' H. unfold request_update in H. inv_ok H. injection H as <-.
  apply advance_frame; [|by repeat split]. unfold skeleton. simpl. by rewrite map_update_where.
Qed.

Lemma case_update_advance k f : (∀ c, case_key (f c) = case_key c) → tx_rel advance (tprim (case_update k f)).
Proof.
  intros Hf. apply tx_rel_prim. intros s s' H. unfold case_update in H. inv_ok H. injection H as <-.
  apply advance_frame; [|by repeat split]. unfold skeleton, update_case. simpl. by rewrite map_update_where.
Qed.

Lemma suspend_advance c o : tx_rel advance (suspend_offering c o).
Proof.
  unfold suspend_offering. walk_tx. apply tx_rel_write. intros st.
  split; [done | exists []; by rewrite app_nil_r |]. apply rtc_once. by eapply OfferingSteps.st_close.
Qed.

Lemma case_keys s : map fst (sk_cases (skeleton s)) = map IntakeCase.id (cases (base s)).
Proof. unfold skeleton. simpl. by rewrite map_map. Qed.

Lemma case_create_advance c : IntakeCase.workflowEventSequence c = 0 → tx_rel advance (tprim (case_create c)).
Proof.
  intros H0. apply tx_rel_prim. intros s s' H. unfold case_create in H. inv_ok H. injection H as <-.
  apply advance_intro; [|exists []; by rewrite app_nil_r|by repeat split].
  intros W. eapply (skel_add_case (skeleton s) (IntakeCase.id c)); [exact W| |].
  - rewrite case_keys. by apply fresh_key.
  - unfold skeleton. simpl. rewrite map_app. simpl. unfold case_key at 2. by rewrite H0.
Qed.

Lemma request_create_advance r : tx_rel advance (tprim (request_create r)).
Proof.
  apply tx_rel_prim. intros s s' H. unfold request_create in H. inv_ok H. injection H as <-. boolify.
  apply advance_intro; [|exists []; by rewrite app_nil_r|by repeat split].
  intros W. eapply (skel_add_request (skeleton s) (InformationRequest.id r) (InformationRequest.caseId r)); [exact W| | |].
  - unfold skeleton. simpl. rewrite map_map. by apply fresh_key.
  - rewrite case_keys. by apply known_key.
  - unfold skeleton. simpl. by rewrite map_app.
Qed.

Lemma revision_create_advance r : tx_rel advance (tprim (revision_create r)).
Proof.
  apply tx_rel_prim. intros s s' H. unfold revision_create in H. inv_ok H. injection H as <-. boolify.
  apply advance_intro; [|exists []; by rewrite app_nil_r|by repeat split].
  intros W. eapply (skel_add_revision (skeleton s) (Revision.id r) (Revision.caseId r)); [exact W| | |].
  - unfold skeleton. simpl. rewrite map_map. by apply fresh_key.
  - rewrite case_keys. by apply known_key.
  - unfold skeleton. simpl. by rewrite map_app.
Qed.

Lemma operation_create_advance o : tx_rel advance (tprim (operation_create o)).
Proof.
  apply tx_rel_prim. intros s s' H. unfold operation_create in H. inv_ok H. injection H as <-. boolify.
  apply advance_intro; [|exists []; by rewrite app_nil_r|by repeat split].
  intros W. eapply (skel_add_operation (skeleton s) (Operation.id o)); [exact W| |].
  - by apply fresh_key.
  - unfold skeleton. simpl. by rewrite map_app.
Qed.

(** ** Appending an event *)

Lemma bump_cases k n l :
  map case_key (update_where (by_id IntakeCase.id k) (IntakeCase.set_sequence n) l) = map (bump k n) (map case_key l).
Proof.
  unfold update_where. rewrite !map_map. apply map_ext. intros c. unfold bump, case_key, by_id. simpl.
  case_bool_decide as E; [by subst | done].
Qed.

(** What an append writes: the next number of the case and one event. *)
Lemma append_wf i w v s eid s' : appendWithWorkflow ulid i w v s = Ok (eid, s') →
  ∃ c, get_case (ev_caseId i) s = Some c ∧
    let n := IntakeCase.workflowEventSequence c + 1 in
    caseEvents s' = caseEvents s ++ [event_row eid n w v i] ∧
    base s' = set_ulids (S (ulids (base s)))
      (set_cases (update_where (by_id IntakeCase.id (ev_caseId i)) (IntakeCase.set_sequence n) (cases (base s))) (base s)) ∧
    requests s' = requests s ∧ revisions s' = revisions s ∧ operations s' = operations s ∧
    ∃ s0, caseEvents s0 = caseEvents s ∧ event_create (event_row eid n w v i) s0 = Ok s'.
Proof.
  unfold appendWithWorkflow, next_sequence. intros H. inv_tx H. inv_tx Htx.
  match goal with Hc : get_case _ s = Some ?c |- _ => exists c; split; [done|] end.
  apply fresh_id_ok in Htx0 as [-> ->]. pose proof Htx1 as He. unfold event_create in Htx1.
  inv_ok Htx1. injection Htx1 as <-. simpl. split_and!; try done. eexists. by split; [|exact He].
Qed.

Lemma event_create_fresh e s s' : event_create e s = Ok s' →
  ¬ In (CaseEvent.id e) (map CaseEvent.id (caseEvents s)) ∧
  ¬ In (CaseEvent.eventKey e) (map CaseEvent.eventKey (caseEvents s)) ∧
  (∀ r, CaseEvent.reversalOfEventId e = Some r → ¬ In r (omap CaseEvent.reversalOfEventId (caseEvents s))) ∧
  transition_ok e = true.
Proof.
  unfold event_create. intros H. inv_ok H. boolify. split_and!; [by apply fresh_key..| |done].
  intros r Er Hin. apply list_elem_of_In, list_elem_of_omap in Hin as (q & Hq%list_elem_of_In & E').
  match goal with Hr : reversal_ok e s = true |- _ => unfold reversal_ok in Hr; rewrite Er in Hr end. boolify.
  match goal with Hf : exists_row (reverses r) _ = false |- _ => rewrite exists_row_false in Hf; specialize (Hf q Hq) end.
  unfold reverses in *. by boolify.
Qed.

Lemma append_advance i w v : tx_rel advance (appendWithWorkflow ulid i w v).
Proof.
  intros s eid s' (c & Hc & Hev & Hb & Hrq & Hrv & Hop & s0 & E0 & He)%append_wf.
  apply event_create_fresh in He as (Hid & Hkey & Hrev & _). rewrite E0 in *.
  apply advance_intro; [|by eexists|rewrite Hb; by repeat split].
  intros W. unfold wf, skeleton. rewrite Hb, Hrq, Hrv, Hop, Hev. simpl. rewrite bump_cases.
  apply (skel_add_event (skeleton s) (event_row eid _ w v i) (IntakeCase.workflowEventSequence c)); try done.
  by apply get_case_key.
Qed.

Lemma event_advance i : tx_rel advance (event ulid i).
Proof. unfold event, appendIntakeCaseEvent. walk_tx; apply append_advance. Qed.

#[local] Hint Resolve fresh_id_advance audit_advance enqueue_advance property_create_advance room_create_advance
  evidence_create_advance evidence_update_advance thread_create_advance message_create_advance suspend_advance
  request_create_advance revision_create_advance operation_create_advance event_advance : vista.
#[local] Hint Extern 2 (tx_rel advance (tprim (case_update _ _))) => apply case_update_advance; intros ? : vista.
#[local] Hint Extern 2 (tx_rel advance (tprim (request_update _ _))) => by apply request_update_advance : vista.
#[local] Hint Extern 2 (tx_rel advance (tprim (case_create _))) => by apply case_create_advance : vista.
#[local] Hint Extern 2 (tx_rel advance (twrite (update_operations _ _))) => by apply update_operations_advance : vista.
#[local] Hint Extern 3 (case_key _ = case_key _) => reflexivity : vista.

(** ** Every transaction advances *)

Lemma create_evidence_advance k r d t : tx_rel advance (create_evidence ulid k r d t).
Proof. unfold create_evidence. walk_tx. Qed.
Lemma create_property_advance k p la lo : tx_rel advance (create_property ulid k p la lo).
Proof. unfold create_property. walk_tx. Qed.
#[local] Hint Resolve create_evidence_advance create_property_advance : vista.

Lemma createDraftIntake_advance i t : tx_rel advance (createDraftIntake ulid i t).
Proof. unfold createDraftIntake. walk_tx. Qed.
Lemma createStaffCase_advance i t : tx_rel advance (createStaffCase ulid i t).
Proof. unfold createStaffCase. walk_tx. Qed.
Lemma submitInitialCase_advance i t : tx_rel advance (submitInitialCase ulid i t).
Proof. unfold submitInitialCase. walk_tx. Qed.
Lemma publishInformationRequest_advance i t : tx_rel advance (publishInformationRequest ulid i t).
Proof. unfold publishInformationRequest. walk_tx. Qed.
Lemma expireInformationRequest_advance i : tx_rel advance (expireInformationRequest ulid i).
Proof. unfold expireInformationRequest. walk_tx. Qed.
Lemma withdrawInformationRequest_advance i : tx_rel advance (withdrawInformationRequest ulid i).
Proof. unfold withdrawInformationRequest. walk_tx. Qed.
Lemma resubmit_advance i q t n : tx_rel advance (resubmitAfterInformationRequest ulid i q t n).
Proof. unfold resubmitAfterInformationRequest. walk_tx. Qed.
Lemma reviewEvidence_advance i t : tx_rel advance (reviewEvidence ulid i t).
Proof. unfold reviewEvidence. walk_tx. Qed.
Lemma closeCase_advance i : tx_rel advance (closeCase ulid i).
Proof.
  unfold closeCase. walk_tx. apply case_update_advance. intros c0. unfold close_row. by destruct (cc_outcome i).
Qed.
Lemma assignPartner_advance i : tx_rel advance (assignPartnerOrganization ulid i).
Proof. unfold assignPartnerOrganization. walk_tx. Qed.
Lemma transitionToPostIpo_advance k tr t : tx_rel advance (transitionToPostIpoStructuring ulid k tr t).
Proof. unfold transitionToPostIpoStructuring. walk_tx. Qed.
Lemma postCaseMessage_advance k l a b t : tx_rel advance (postCaseMessage ulid k l a b t).
Proof. unfold postCaseMessage. walk_tx. Qed.

(** The documents of a case, and the writes of rooms and documents they consist of. *)
Lemma document_create_advance d : tx_rel advance (tprim (DocumentTx.document_create d)).
Proof. apply tx_rel_prim. intros s s' H. unfold DocumentTx.document_create in H. inv_ok H; injection H as <-; frame. Qed.
Lemma set_rooms_advance f : tx_rel advance (twrite (λ s, set_rooms (f s) s)).
Proof. apply tx_rel_write. intros s. frame. Qed.
Lemma set_documents_advance f : tx_rel advance (twrite (λ s, set_documents (f s) s)).
Proof. apply tx_rel_write. intros s. frame. Qed.
#[local] Hint Resolve document_create_advance : vista.
#[local] Hint Extern 2 (tx_rel advance (twrite (λ s, set_rooms _ s))) => apply set_rooms_advance : vista.
#[local] Hint Extern 2 (tx_rel advance (twrite (λ s, set_documents _ s))) => apply set_documents_advance : vista.

Lemma accept_advance i d th t : tx_rel advance (DocumentTx.accept_tx ulid i d th t).
Proof. unfold DocumentTx.accept_tx. walk_tx. Qed.
Lemma represent_write_advance k r d a tr t : tx_rel advance (DocumentTx.represent_write ulid k r d a tr t).
Proof. unfold DocumentTx.represent_write. walk_tx. Qed.
Lemma delete_write_advance k r d a tr rs t : tx_rel advance (DocumentTx.delete_write ulid k r d a tr rs t).
Proof. unfold DocumentTx.delete_write. walk_tx. Qed.
Lemma room_write_advance k r a tr rs room n t : tx_rel advance (DocumentTx.room_write ulid k r a tr rs room n t).
Proof. unfold DocumentTx.room_write. walk_tx. Qed.

(** A value computed outside the database, with the fact that it was computed. *)
Lemma lift_bind_advance {A B} (m : result A) (f : A → txn intake B) :
  (∀ a, m = Ok a → tx_rel advance (f a)) → tx_rel advance (do! a := tlift m in f a).
Proof. intros H s b s' (a & s1 & [E ->]%tlift_ok & H')%tbind_ok. by eapply H. Qed.

Lemma decide_row_key i f : decide_row i = Ok f → ∀ c, case_key (f c) = case_key c.
Proof. unfold decide_row. intros H. inv_ok H; by injection H as <-. Qed.

Lemma recordFounderDecision_advance i t : tx_rel advance (recordFounderDecision ulid jobId i t).
Proof.
  unfold recordFounderDecision. apply tx_rel_bind; [exact _ | walk_tx | intros [c|]]; [|walk_tx].
  destruct (bool_decide _); [|walk_tx]. destruct (IntakeCase.currentSubmissionRevisionId c); [|walk_tx].
  apply lift_bind_advance. intros f Hf. pose proof (decide_row_key _ _ Hf). walk_tx.
Qed.

Lemma set_completion_key b t p c : case_key (set_completion b t p c) = case_key c.
Proof. by destruct b. Qed.
#[local] Hint Extern 2 (case_key (set_completion _ _ _ _) = case_key _) => apply set_completion_key : vista.

Lemma audit_both_advance b k tr t : tx_rel advance (audit_both_complete ulid b k tr t).
Proof. unfold audit_both_complete. walk_tx. Qed.
#[local] Hint Resolve audit_both_advance : vista.

Lemma recordLegalStructuring_advance i : tx_rel advance (recordLegalStructuring ulid i).
Proof. unfold recordLegalStructuring, legal_row. cbv beta iota zeta. walk_tx. Qed.
Lemma recordAppraisal_advance i : tx_rel advance (recordAppraisal ulid i).
Proof. unfold recordAppraisal, appraisal_row. cbv beta iota zeta. walk_tx. Qed.

Lemma insertReversal_advance i t : tx_rel advance (insertReversalOperation ulid i t).
Proof. unfold insertReversalOperation. walk_tx. Qed.
Lemma claimApproval_advance k a t : tx_rel advance (claimApproval k a t).
Proof. unfold claimApproval. walk_tx. Qed.
Lemma failReversal_advance o a t c d : tx_rel advance (failReversalOperation ulid o a t c d).
Proof. unfold failReversalOperation. walk_tx. Qed.
#[local] Hint Resolve failReversal_advance : vista.
Lemma recordExecutionError_advance i : tx_rel advance (recordExecutionError ulid i).
Proof. unfold recordExecutionError. walk_tx. Qed.

Lemma executor_key cmd t f : executor cmd t = Some f → ∀ c, case_key (f c) = case_key c.
Proof. unfold executor. intros H c. repeat case_bool_decide; by simplify_eq. Qed.

Lemma runReversalExecution_advance i : tx_rel advance (runReversalExecution ulid i).
Proof.
  unfold runReversalExecution. do 2 (apply tx_rel_bind; [exact _ | walk_tx | intros ?]).
  destruct a as [o|]; [|walk_tx]. destruct a0 as [c|]; [|walk_tx].
  destruct (negb _); [walk_tx|]. destruct (negb _ || _); [walk_tx|].
  do 2 (apply tx_rel_bind; [exact _ | walk_tx | intros ?]). destruct (negb _); [walk_tx|].
  apply tx_rel_bind; [exact _ | walk_tx | intros ?].
  destruct (executor _ _) as [f|] eqn:Ef; [|walk_tx]. pose proof (executor_key _ _ _ Ef).
  walk_tx.
Qed.

End WithUlid.

#[export] Hint Resolve fresh_id_advance audit_advance enqueue_advance event_advance create_evidence_advance
  create_property_advance suspend_advance request_create_advance revision_create_advance : vista.

(** [wf_after H]: well-formedness at the state the step [H] leaves. *)
Ltac wf_after H :=
  match type of H with
  | ?t ?a = Ok (_, ?b) =>
      match goal with W : wf a |- _ =>
        let W' := fresh "W" in
        assert (wf b) as W' by (refine (adv_wf _ _ _ ((_ : tx_rel (advance _) t) _ _ _ H) W); auto with vista)
      end
  end.

End IntakeLedger.
