(* ===== verification/IntakeMachine.v ===== *)
(** One intake case as an abstract machine, and the refinement of the intake transactions to it.

    The view of a case is its row without the ledger counter, the identifiers and states of its
    information requests, and its submission revisions.  [cstep] is what may happen to a view;
    [istep] is what may happen to the whole database: every intake transaction, every step of
    the offering module, and writes of other modules to tables intake only reads. *)

From S2P Require Import Prelude JsString Currency DateTime IntakePolicy Db OfferingRepo OfferingInv IntakeDb IntakeRepo IntakeReversal IntakeLedger.

Module IntakeMachine.
Import IntakePolicy IntakeDb IntakeRepo IntakeReversal IntakeLedger.

(** ** Views *)

Record cview := mkView {
  v_case : option IntakeCase.t; v_requests : list (string * RequestStatus); v_revisions : list (string * Z) }.

Definition request_view (r : InformationRequest.t) : string * RequestStatus :=
  (InformationRequest.id r, InformationRequest.status r).
Definition revision_view (r : Revision.t) : string * Z := (Revision.id r, Revision.revisionNumber r).

Definition case_view (k : string) (s : intake) : cview :=
  mkView (IntakeCase.set_sequence 0 <$> get_case k s)
    (map request_view (List.filter (by_id InformationRequest.caseId k) (requests s)))
    (map revision_view (List.filter (by_id Revision.caseId k) (revisions s))).

Definition resolve_view (rid : string) (st : RequestStatus) (l : list (string * RequestStatus)) :=
  update_where (λ p, bool_decide (p.1 = rid)) (λ p, (p.1, st)) l.

(** A change of the partner columns that keeps what was completed. *)
Record partner_step (p p' : IntakeCase.partner_data) : Prop := {
  ps_legal : is_set (IntakeCase.legalStructuringCompletedAt p) = true →
    IntakeCase.legalStructuringCompletedAt p' = IntakeCase.legalStructuringCompletedAt p;
  ps_appraisal : is_set (IntakeCase.appraisalCompletedAt p) = true →
    IntakeCase.appraisalCompletedAt p' = IntakeCase.appraisalCompletedAt p }.

(** ** The abstract machine *)

Inductive cstep : cview → cview → Prop :=
  | cs_create k p a at_ :
      cstep (mkView None [] []) (mkView (Some (IntakeCase.created k p a at_)) [] [])
  | cs_create_submitted k p a at_ rid :
      cstep (mkView None [] []) (mkView (Some (set_submitted rid at_ (IntakeCase.created k p a at_))) [] [(rid, 1)])
  | cs_submit c rid at_ rq rv :
      IntakeCase.stage c = draft → IntakeCase.currentSubmissionRevisionId c = None →
      cstep (mkView (Some c) rq rv) (mkView (Some (set_submitted rid at_ c)) rq (rv ++ [(rid, 1)]))
  | cs_publish c rid at_ rq rv :
      IntakeCase.stage c = submitted → IntakeCase.currentSubmissionRevisionId c ≠ None →
      existsb (λ q, bool_decide (q.2 = published)) rq = false →
      cstep (mkView (Some c) rq rv)
            (mkView (Some (IntakeCase.set_stage waiting_on_applicant at_ c)) (rq ++ [(rid, published)]) rv)
  | cs_answer c q n rid r at_ rq rv :
      IntakeCase.stage c = waiting_on_applicant → In (q, published) rq →
      IntakeCase.currentSubmissionRevisionId c = Some r → In (r, n) rv → ¬ In rid (map fst rv) →
      cstep (mkView (Some c) rq rv)
            (mkView (Some (set_submitted rid at_ c)) (resolve_view q answered rq) (rv ++ [(rid, n + 1)]))
  | cs_withdraw_request c q at_ rq rv :
      IntakeCase.stage c = waiting_on_applicant → In (q, published) rq →
      cstep (mkView (Some c) rq rv)
            (mkView (Some (IntakeCase.set_stage submitted at_ c)) (resolve_view q request_withdrawn rq) rv)
  | cs_expire c q at_ rq rv :
      IntakeCase.stage c = waiting_on_applicant → In (q, published) rq →
      cstep (mkView (Some c) rq rv)
            (mkView (Some (set_expired at_ c)) (resolve_view q request_expired rq) rv)
  | cs_approve c days endAt cents notes by_ at_ rq rv :
      IntakeCase.stage c = submitted → IntakeCase.currentSubmissionRevisionId c ≠ None →
      0 < days → 0 < cents →
      cstep (mkView (Some c) rq rv) (mkView (Some (set_approved days endAt cents notes by_ at_ c)) rq rv)
  | cs_reject c code notes rn by_ at_ rq rv :
      (IntakeCase.stage c = submitted ∧ IntakeCase.currentSubmissionRevisionId c ≠ None) ∨
        IntakeCase.stage c = pre_offering_open →
      cstep (mkView (Some c) rq rv) (mkView (Some (set_rejected code notes rn by_ at_ c)) rq rv)
  | cs_withdraw c rn by_ at_ rq rv :
      IntakeCase.stage c ∈ [draft; submitted; waiting_on_applicant; pre_offering_open] →
      cstep (mkView (Some c) rq rv) (mkView (Some (set_withdrawn rn by_ at_ c)) rq rv)
  | cs_structure c at_ rq rv :
      IntakeCase.stage c = pre_offering_open →
      cstep (mkView (Some c) rq rv) (mkView (Some (IntakeCase.set_stage post_ipo_structuring at_ c)) rq rv)
  | cs_partner c p at_ rq rv :
      IntakeCase.stage c = post_ipo_structuring ∨ IntakeCase.stage c = approved_for_final_offering →
      partner_step (IntakeCase.partner c) p →
      cstep (mkView (Some c) rq rv)
            (mkView (Some (IntakeCase.set_partner p (IntakeCase.set_stage (IntakeCase.stage c) at_ c))) rq rv)
  | cs_complete c p at_ rq rv :
      IntakeCase.stage c = post_ipo_structuring → partner_step (IntakeCase.partner c) p →
      is_set (IntakeCase.legalStructuringCompletedAt p) = true → is_set (IntakeCase.appraisalCompletedAt p) = true →
      cstep (mkView (Some c) rq rv)
            (mkView (Some (IntakeCase.set_partner p (IntakeCase.set_stage approved_for_final_offering at_ c))) rq rv)
  | cs_revert c cmd at_ f rq rv :
      (cmd, IntakeCase.stage c) ∈ [(return_to_draft, submitted); (reopen_pre_offering, pre_offering_open);
        (reopen_structuring, post_ipo_structuring); (reopen_final_offering_review, approved_for_final_offering)] →
      executor (command_text cmd) at_ = Some f →
      cstep (mkView (Some c) rq rv) (mkView (Some (f c)) rq rv).

(** The case rows without the counter of the event ledger. *)
Definition erased (s : intake) : list IntakeCase.t := map (IntakeCase.set_sequence 0) (cases (base s)).

Lemma find_row_map {A B} (h : A → B) (q : B → bool) (p : A → bool) l :
  (∀ x, q (h x) = p x) → find_row q (map h l) = h <$> find_row p l.
Proof.
  intros H. unfold find_row. induction l as [|x l IH]; simpl; [done|].
  rewrite H. by destruct (p x).
Qed.

Lemma erased_case k s : find_row (by_id IntakeCase.id k) (erased s) = IntakeCase.set_sequence 0 <$> get_case k s.
Proof. by apply find_row_map. Qed.

(** Writes to other tables, and the counter, do not change any view. *)
Definition same_view (s s' : intake) : Prop :=
  erased s' = erased s ∧ requests s' = requests s ∧ revisions s' = revisions s.
#[global] Instance same_view_pre : PreOrder same_view.
Proof.
  split; [by intros s | intros s1 s2 s3 (A & B & C) (D & E & F)].
  unfold same_view. split_and!; congruence.
Qed.

Lemma same_view_eq k s s' : same_view s s' → case_view k s' = case_view k s.
Proof. intros (A & B & C). unfold case_view. rewrite <- !erased_case. by rewrite A, B, C. Qed.

(** ** Writes that no view sees *)

Section WithUlid.
Context (ulid : nat → string) (jobId : nat → option string).

Lemma fresh_id_same p : tx_rel same_view (fresh_id ulid p).
Proof. intros s a s' [_ ->]%fresh_id_ok. done. Qed.
#[local] Hint Resolve fresh_id_same : vista.

Lemma audit_same a act k ch t : tx_rel same_view (audit ulid a act k ch t).
Proof. unfold audit. walk_tx. by apply tx_rel_write. Qed.

Lemma enqueue_same q d tr : tx_rel same_view (enqueue jobId q d tr).
Proof. unfold enqueue. walk_tx. by apply tx_rel_write. Qed.

Lemma append_same i w v : tx_rel same_view (appendWithWorkflow ulid i w v).
Proof.
  intros s eid s' (c & _ & _ & Hb & Hrq & Hrv & _)%append_wf. split_and!; [|done..].
  unfold erased. rewrite Hb. simpl. by apply map_update_where.
Qed.
#[local] Hint Resolve append_same : vista.

Lemma event_same i : tx_rel same_view (event ulid i).
Proof. unfold event, appendIntakeCaseEvent. walk_tx. Qed.

Ltac same_prim := apply tx_rel_prim; intros s s' H; unfold property_create, room_create, evidence_create,
  evidence_update, thread_create, message_create, operation_create in H; inv_ok H; by injection H as <-.

Lemma property_create_same p : tx_rel same_view (tprim (property_create p)).
Proof. same_prim. Qed.
Lemma room_create_same r : tx_rel same_view (tprim (room_create r)).
Proof. same_prim. Qed.
Lemma evidence_create_same e : tx_rel same_view (tprim (evidence_create e)).
Proof. same_prim. Qed.
Lemma evidence_update_same k f : tx_rel same_view (tprim (evidence_update k f)).
Proof. same_prim. Qed.
Lemma thread_create_same t : tx_rel same_view (tprim (thread_create t)).
Proof. same_prim. Qed.
Lemma message_create_same m : tx_rel same_view (tprim (message_create m)).
Proof. same_prim. Qed.
Lemma operation_create_same o : tx_rel same_view (tprim (operation_create o)).
Proof. same_prim. Qed.
Lemma update_operations_same p f : tx_rel same_view (twrite (update_operations p f)).
Proof. by apply tx_rel_write. Qed.
Lemma suspend_same c o : tx_rel same_view (suspend_offering c o).
Proof. unfold suspend_offering. walk_tx. by apply tx_rel_write. Qed.

#[local] Hint Resolve audit_same enqueue_same event_same property_create_same room_create_same evidence_create_same
  evidence_update_same thread_create_same message_create_same operation_create_same update_operations_same
  suspend_same : vista.

Lemma create_evidence_same k r d t : tx_rel same_view (create_evidence ulid k r d t).
Proof. unfold create_evidence. walk_tx. Qed.
Lemma create_property_same k p la lo : tx_rel same_view (create_property ulid k p la lo).
Proof. unfold create_property. walk_tx. Qed.
Lemma audit_both_same b k tr t : tx_rel same_view (audit_both_complete ulid b k tr t).
Proof. unfold audit_both_complete. walk_tx. Qed.

(** Transactions no view sees at all. *)
Lemma reviewEvidence_same i t : tx_rel same_view (reviewEvidence ulid i t).
Proof. unfold reviewEvidence. walk_tx. Qed.
Lemma postCaseMessage_same k l a b t : tx_rel same_view (postCaseMessage ulid k l a b t).
Proof. unfold postCaseMessage. walk_tx. Qed.
Lemma document_create_same d : tx_rel same_view (tprim (DocumentTx.document_create d)).
Proof. apply tx_rel_prim. intros s s' H. unfold DocumentTx.document_create in H. inv_ok H; by injection H as <-. Qed.
#[local] Hint Resolve document_create_same : vista.
Lemma accept_same i d th t : tx_rel same_view (DocumentTx.accept_tx ulid i d th t).
Proof. unfold DocumentTx.accept_tx. walk_tx. Qed.
Lemma represent_write_same k r d a tr t : tx_rel same_view (DocumentTx.represent_write ulid k r d a tr t).
Proof. unfold DocumentTx.represent_write. walk_tx; by apply tx_rel_write. Qed.
Lemma delete_write_same k r d a tr rs t : tx_rel same_view (DocumentTx.delete_write ulid k r d a tr rs t).
Proof. unfold DocumentTx.delete_write. walk_tx; by apply tx_rel_write. Qed.
Lemma room_write_same k r a tr rs room n t : tx_rel same_view (DocumentTx.room_write ulid k r a tr rs room n t).
Proof. unfold DocumentTx.room_write. walk_tx; by apply tx_rel_write. Qed.
Lemma insertReversal_same i t : tx_rel same_view (insertReversalOperation ulid i t).
Proof. unfold insertReversalOperation. walk_tx. Qed.
Lemma claimApproval_same k a t : tx_rel same_view (claimApproval k a t).
Proof. unfold claimApproval. walk_tx. Qed.
Lemma failReversal_same o a t c d : tx_rel same_view (failReversalOperation ulid o a t c d).
Proof. unfold failReversalOperation. walk_tx. Qed.
#[local] Hint Resolve failReversal_same : vista.
Lemma recordExecutionError_same i : tx_rel same_view (recordExecutionError ulid i).
Proof. unfold recordExecutionError. walk_tx. Qed.

(** ** Writes a view sees *)

Definition on_case (f : IntakeCase.t → IntakeCase.t) (v : cview) : cview :=
  mkView (f <$> v_case v) (v_requests v) (v_revisions v).
Definition on_requests f (v : cview) : cview := mkView (v_case v) (f (v_requests v)) (v_revisions v).
Definition on_revisions f (v : cview) : cview := mkView (v_case v) (v_requests v) (f (v_revisions v)).

(** The write touches the view of [k0] only. *)
Definition only (k0 k : string) (f : cview → cview) (v : cview) : cview := if decide (k = k0) then f v else v.

Lemma case_update_row k f s s' : case_update k f s = Ok s' → ∃ c, get_case k s = Some c ∧ case_row_ok s (f c) = true.
Proof. unfold case_update. intros H. inv_ok H. eauto. Qed.

Lemma case_update_view k f s s' : case_update k f s = Ok s' →
  (∀ c, f (IntakeCase.set_sequence 0 c) = IntakeCase.set_sequence 0 (f c)) →
  (∀ c, IntakeCase.id (f c) = IntakeCase.id c) →
  ∀ k', case_view k' s' = only k k' (on_case f) (case_view k' s).
Proof.
  unfold case_update. intros H Hf Hid k'. inv_ok H. injection H as <-.
  unfold only, on_case, case_view, get_case, find_case, update_case. simpl.
  rewrite find_row_update_where by (intros r _; unfold by_id; by rewrite Hid).
  fold (find_case k' (base s)). change (find_case k' (base s)) with (get_case k' s).
  destruct (get_case k' s) as [c|] eqn:Ec; [|by destruct (decide _)].
  apply get_case_in in Ec as [_ <-]. simpl.
  destruct (decide (IntakeCase.id c = k)) as [<-|Hne]; [by rewrite by_id_eq, Hf | by rewrite by_id_ne].
Qed.

Lemma request_create_view r s s' : request_create r s = Ok s' → ∀ k, case_view k s' =
  only (InformationRequest.caseId r) k (on_requests (λ l, l ++ [request_view r])) (case_view k s).
Proof.
  unfold request_create, only. intros H k. inv_ok H. injection H as <-.
  unfold case_view at 1. simpl. rewrite List.filter_app, map_app. simpl.
  destruct (decide (k = InformationRequest.caseId r)) as [->|Hne]; [by rewrite by_id_eq|].
  rewrite by_id_ne by congruence. by rewrite app_nil_r.
Qed.

Lemma revision_create_view r s s' : revision_create r s = Ok s' → ∀ k, case_view k s' =
  only (Revision.caseId r) k (on_revisions (λ l, l ++ [revision_view r])) (case_view k s).
Proof.
  unfold revision_create, only. intros H k. inv_ok H. injection H as <-.
  unfold case_view at 1. simpl. rewrite List.filter_app, map_app. simpl.
  destruct (decide (k = Revision.caseId r)) as [->|Hne]; [by rewrite by_id_eq|].
  rewrite by_id_ne by congruence. by rewrite app_nil_r.
Qed.

Lemma filter_update_where_stable {A} (q p : A → bool) f l : (∀ r, q (f r) = q r) →
  List.filter q (update_where p f l) = update_where p f (List.filter q l).
Proof.
  intros H. unfold update_where. induction l as [|x l IH]; [done|]. cbn [map List.filter].
  assert (q (if p x then f x else x) = q x) as -> by (destruct (p x); by rewrite ?H).
  rewrite IH. by destruct (q x).
Qed.

Lemma request_update_view k0 rid r0 st at_ how rev s s' : wf s →
  request_update rid (InformationRequest.resolve st at_ how rev) s = Ok s' → case_request k0 rid s = Some r0 →
  ∀ k, case_view k s' = only k0 k (on_requests (resolve_view rid st)) (case_view k s).
Proof.
  unfold request_update, only. intros W H [Hr [Hk Hid]%andb_true_iff]%find_row_Some k. inv_ok H. injection H as <-.
  boolify. unfold case_view at 1. simpl. rewrite filter_update_where_stable by done.
  destruct (decide (k = k0)) as [->|Hne].
  - unfold on_requests, resolve_view, case_view, update_where. simpl. f_equal. rewrite !map_map. apply map_ext.
    intros r. unfold by_id, request_view. simpl. by case_bool_decide.
  - rewrite (update_where_id _ _ (List.filter _ _)); [done|]. intros r [Hin Hc]%filter_In. apply by_id_ne. intros E'.
    unfold by_id in Hc. boolify. apply Hne. rewrite <- Hk, <- Hc.
    pose proof (ok_requests _ W) as N. unfold skeleton in N. simpl in N. rewrite map_map in N. simpl in N.
    by rewrite (NoDup_map_inj_in InformationRequest.id _ r r0 N Hin Hr) by congruence.
Qed.

Lemma case_create_absent c s s' : wf s → case_create c s = Ok s' →
  case_view (IntakeCase.id c) s = mkView None [] [].
Proof.
  intros W H. unfold case_create in H. inv_ok H. pose proof (fresh_key _ _ _ E) as Hnew. rewrite <- case_keys in Hnew.
  unfold case_view, get_case, find_case.
  assert (find_row (by_id IntakeCase.id (IntakeCase.id c)) (cases (base s)) = None) as ->.
  { apply find_row_None. intros r Hr. rewrite exists_row_false in E. by apply E. }
  simpl. rewrite !filter_nil; [done|..].
  - intros r Hr. apply by_id_ne. intros Ec. apply Hnew. rewrite <- Ec.
    apply (ok_revision_case _ W (revision_key r)). by apply in_map.
  - intros r Hr. apply by_id_ne. intros Ec. apply Hnew. rewrite <- Ec.
    apply (ok_request_case _ W (request_key r)). by apply in_map.
Qed.

Lemma case_create_view c s s' : wf s → case_create c s = Ok s' → ∀ k, case_view k s' =
  only (IntakeCase.id c) k (λ _, mkView (Some (IntakeCase.set_sequence 0 c)) [] []) (case_view k s).
Proof.
  intros W H k. pose proof (case_create_absent _ _ _ W H) as Ha. unfold case_create in H. inv_ok H.
  injection H as <-. unfold only, case_view, get_case, find_case in *. injection Ha as Hn Hq Hr. simpl.
  rewrite find_row_app. destruct (decide (k = IntakeCase.id c)) as [->|Hne].
  - rewrite Hq, Hr. destruct (find_row _ (cases (base s))); [done|]. unfold find_row. cbn [List.filter]. by rewrite by_id_eq.
  - f_equal. destruct (find_row (by_id IntakeCase.id k) (cases (base s))); [done|]. unfold find_row. cbn [List.filter].
    by rewrite by_id_ne by congruence.
Qed.

(** ** Each transaction makes at most one abstract step, of one case *)

Definition rc {A} (R : relation A) (x y : A) : Prop := y = x ∨ R x y.
Lemma rc_once {A} (R : relation A) x y : R x y → rc R x y.
Proof. by right. Qed.

Definition refines (s s' : intake) : Prop := ∀ k, rc cstep (case_view k s) (case_view k s').

Lemma same_refines s s' : same_view s s' → refines s s'.
Proof. intros H k. left. by rewrite (same_view_eq _ _ _ H). Qed.

(** At most one abstract step of one case. *)
Lemma only_refines k0 f s s' :
  (∀ k, case_view k s' = only k0 k f (case_view k s)) → rc cstep (case_view k0 s) (f (case_view k0 s)) → refines s s'.
Proof. intros H Hc k. rewrite H. unfold only. destruct (decide (k = k0)) as [->|]; [done | by left]. Qed.

Lemma only_only k0 k f g v : only k0 k f (only k0 k g v) = only k0 k (λ v, f (g v)) v.
Proof. unfold only. by destruct (decide (k = k0)). Qed.

Ltac same_in :=
  repeat match goal with
  | H : audit _ _ _ _ _ _ _ = Ok _ |- _ => apply audit_same in H
  | H : event _ _ _ = Ok _ |- _ => apply event_same in H
  | H : fresh_id _ _ _ = Ok _ |- _ => apply fresh_id_same in H
  | H : create_evidence _ _ _ _ _ _ = Ok _ |- _ => apply create_evidence_same in H
  | H : create_property _ _ _ _ _ _ = Ok _ |- _ => apply create_property_same in H
  | H : enqueue _ _ _ _ _ = Ok _ |- _ => apply enqueue_same in H
  | H : suspend_offering _ _ _ = Ok _ |- _ => apply suspend_same in H
  | H : audit_both_complete _ _ _ _ _ _ = Ok _ |- _ => apply audit_both_same in H
  end.

Ltac views :=
  let k := fresh "k" in intros k;
  repeat match goal with
  | H : same_view ?a ?b |- context [case_view ?k ?b] => rewrite (same_view_eq k _ _ H)
  | |- context [case_view ?k (update_operations ?p ?f ?x)] =>
      change (case_view k (update_operations p f x)) with (case_view k x)
  | H : ∀ k, case_view k ?b = _ |- context [case_view _ ?b] => rewrite H
  | H : case_update _ _ _ = Ok ?b |- context [case_view ?k ?b] => rewrite (case_update_view _ _ _ _ H) by done
  | H : request_create _ _ = Ok ?b |- context [case_view ?k ?b] => rewrite (request_create_view _ _ _ H)
  | H : revision_create _ _ = Ok ?b |- context [case_view ?k ?b] => rewrite (revision_create_view _ _ _ H)
  end; cbn [Revision.caseId InformationRequest.caseId IntakeCase.id IntakeCase.created]; rewrite ?only_only; reflexivity.

(** The view at the time of the guards. *)
Lemma guarded_view k s c : get_case k s = Some c →
  ∃ rq rv, case_view k s = mkView (Some (IntakeCase.set_sequence 0 c)) rq rv.
Proof. intros E. unfold case_view. rewrite E. by eexists _, _. Qed.

Lemma owned_get k a s c : wf s → owned_case k a s = Some c → get_case k s = Some c.
Proof.
  intros W [H1 H2]%find_row_Some. boolify. unfold get_case, find_case.
  destruct (find_row (by_id IntakeCase.id k) (cases (base s))) as [c'|] eqn:E.
  - apply find_row_Some in E as [H3 H4]. unfold by_id in H4. boolify.
    pose proof (ok_cases _ W) as N. rewrite case_keys in N. f_equal.
    apply (NoDup_map_inj_in IntakeCase.id _ c' c N); congruence.
  - rewrite find_row_None in E. specialize (E c H1). unfold by_id in E. by boolify.
Qed.

Lemma closeCase_refines i s a s' : closeCase ulid i s = Ok (a, s') → refines s s'.
Proof.
  unfold closeCase. intros H. inv_tx H; try (by apply same_refines). same_in. boolify.
  apply (only_refines (cc_caseId i) (on_case (close_row i))).
  - unfold close_row in *. destruct (cc_outcome i); views.
  - destruct (guarded_view _ _ _ E) as (rq & rv & ->). apply rc_once. unfold close_row, closable_from in *.
    destruct (cc_outcome i); [by apply cs_withdraw | apply cs_reject; right]. by apply list_elem_of_singleton.
Qed.

Lemma createDraftIntake_refines i t s a s' : wf s → createDraftIntake ulid i t s = Ok (a, s') → refines s s'.
Proof.
  intros W H. unfold createDraftIntake in H. inv_tx H. wf_after Htx. wf_after Htx0. wf_after Htx1.
  pose proof (case_create_view _ _ _ W2 Htx2) as Hv. pose proof (case_create_absent _ _ _ W2 Htx2) as Ha. same_in.
  eapply only_refines; [views|]. simpl in *.
  rewrite !(same_view_eq _ _ _ Htx1), !(same_view_eq _ _ _ Htx0), !(same_view_eq _ _ _ Htx) in Ha. rewrite Ha.
  apply rc_once. constructor.
Qed.

Lemma createStaffCase_refines i t s a s' : wf s → createStaffCase ulid i t s = Ok (a, s') → refines s s'.
Proof.
  intros W H. unfold createStaffCase in H. inv_tx H. wf_after Htx. wf_after Htx0. wf_after Htx1. wf_after Htx2.
  pose proof (case_create_view _ _ _ W3 Htx3) as Hv. pose proof (case_create_absent _ _ _ W3 Htx3) as Ha. same_in.
  eapply only_refines; [views|]. simpl in *.
  rewrite !(same_view_eq _ _ _ Htx2), !(same_view_eq _ _ _ Htx1), !(same_view_eq _ _ _ Htx0),
    !(same_view_eq _ _ _ Htx) in Ha. rewrite Ha.
  apply rc_once. constructor.
Qed.

Lemma submitInitialCase_refines i t s a s' : wf s → submitInitialCase ulid i t s = Ok (a, s') → refines s s'.
Proof.
  intros W H. unfold submitInitialCase in H. inv_tx H; try (by apply same_refines). same_in. boolify.
  eapply only_refines; [views|]. apply owned_get in E; [|done].
  destruct (guarded_view _ _ _ E) as (rq & rv & ->). apply rc_once. apply cs_submit; [done|].
  simpl. by destruct (IntakeCase.currentSubmissionRevisionId _).
Qed.

Lemma publish_none k s : published_request k s = None →
  existsb (λ q, bool_decide (q.2 = published)) (v_requests (case_view k s)) = false.
Proof.
  unfold published_request. rewrite find_row_None. intros H. unfold case_view. simpl.
  apply not_true_iff_false. rewrite existsb_exists. intros (q & (r & <- & [Hr Hk]%filter_In)%in_map_iff & Hq).
  specialize (H r Hr). unfold published_of_case, is_published, by_id in *. simpl in Hq.
  rewrite Hk, Hq in H. done.
Qed.

Lemma is_set_false {A} (o : option A) : is_set o = false → o = None.
Proof. by destruct o. Qed.
Lemma is_set_true {A} (o : option A) : is_set o = true → o ≠ None.
Proof. by destruct o. Qed.

Lemma publishInformationRequest_refines i t s a s' :
  publishInformationRequest ulid i t s = Ok (a, s') → refines s s'.
Proof.
  intros H. unfold publishInformationRequest in H. inv_tx H; try (by apply same_refines). same_in. boolify.
  eapply only_refines; [views|]. pose proof (publish_none _ _ (is_set_false _ H0)) as Hn.
  destruct (guarded_view _ _ _ E) as (rq & rv & Ev). rewrite Ev in *. apply rc_once. apply cs_publish; [done| |done].
  by apply is_set_true.
Qed.

Lemma awaiting_view k rid s c r : get_case k s = Some c → awaiting_answer c r = true → case_request k rid s = r →
  ∃ rq rv, case_view k s = mkView (Some (IntakeCase.set_sequence 0 c)) rq rv ∧
    IntakeCase.stage c = waiting_on_applicant ∧ In (rid, published) rq ∧ ∃ r0, r = Some r0.
Proof.
  unfold awaiting_answer. intros E H Hr. boolify. destruct r as [r|]; [|done].
  apply find_row_Some in Hr as [Hin Hc]. unfold request_of_case in Hc. unfold is_published in *. boolify.
  unfold case_view. rewrite E. eexists _, _. split_and!; [done..| |by eexists].
  apply in_map_iff. exists r. unfold request_view. split; [congruence|]. apply filter_In. split; [done|].
  unfold by_id. by apply bool_decide_eq_true_2.
Qed.

Lemma expireInformationRequest_refines i s a s' : wf s → expireInformationRequest ulid i s = Ok (a, s') → refines s s'.
Proof.
  intros W H. unfold expireInformationRequest in H. inv_tx H; try (by apply same_refines). boolify.
  destruct (awaiting_view _ _ _ _ _ E E0 eq_refl) as (rq & rv & Ev & Hst & Hin & r0 & Hr).
  pose proof (request_update_view _ _ _ _ _ _ _ _ _ W Htx Hr) as Hv. same_in.
  eapply only_refines; [views|]. rewrite Ev. apply rc_once. by apply cs_expire.
Qed.

Lemma withdrawInformationRequest_refines i s a s' :
  wf s → withdrawInformationRequest ulid i s = Ok (a, s') → refines s s'.
Proof.
  intros W H. unfold withdrawInformationRequest in H. inv_tx H; try (by apply same_refines). boolify.
  destruct (awaiting_view _ _ _ _ _ E E0 eq_refl) as (rq & rv & Ev & Hst & Hin & r0 & Hr).
  pose proof (request_update_view _ _ _ _ _ _ _ _ _ W Htx Hr) as Hv. same_in.
  eapply only_refines; [views|]. rewrite Ev. apply rc_once. by apply cs_withdraw_request.
Qed.

(** A revision a case points to, seen in its view. *)
Lemma current_revision_in s c r : current_revision s c = Some r →
  In r (revisions s) ∧ IntakeCase.currentSubmissionRevisionId c = Some (Revision.id r).
Proof.
  unfold current_revision. destruct (IntakeCase.currentSubmissionRevisionId c) as [k|]; [|done].
  intros [H1 H2]%find_row_Some. unfold by_id in H2. boolify. by subst.
Qed.

Lemma revision_fresh r k s s' : revision_create r s = Ok s' → ¬ In (Revision.id r) (map fst (v_revisions (case_view k s))).
Proof.
  unfold revision_create. intros H. inv_ok H. pose proof (fresh_key _ _ _ E) as Hf. unfold case_view. simpl.
  rewrite map_map. intros (q & Eq & [Hq _]%filter_In)%in_map_iff. apply Hf. rewrite <- Eq. by apply (in_map Revision.id).
Qed.

(** The current revision is the case's own: [cinv] below keeps it so. *)
Definition own_revision (s : intake) : Prop := ∀ c r, In c (cases (base s)) → current_revision s c = Some r →
  Revision.caseId r = IntakeCase.id c.

Lemma resubmit_refines i q t n s a s' : wf s → own_revision s →
  resubmitAfterInformationRequest ulid i q t n s = Ok (a, s') → refines s s'.
Proof.
  intros W Hown H. unfold resubmitAfterInformationRequest in H. inv_tx H; try (by apply same_refines).
  apply owned_get in E; [|done].
  destruct (awaiting_view _ _ _ _ _ E E0 eq_refl) as (rq & rv & Ev & Hst & Hin & r0 & Hr).
  wf_after Htx. assert (wf s1) as W1.
  { eapply (adv_wf ulid), W0. eapply revision_create_advance. by apply (tprim_ok _ _ tt). }
  wf_after Htx1.
  assert (case_request (si_caseId i) q s2 = Some r0) as Hr2.
  { unfold case_request in *. pose proof Htx as (_ & Hq & _)%fresh_id_same.
    pose proof Htx1 as (_ & Hq2 & _)%create_evidence_same. rewrite Hq2.
    unfold revision_create in Htx0. inv_ok Htx0. injection Htx0 as <-. simpl. by rewrite Hq. }
  pose proof (request_update_view _ _ _ _ _ _ _ _ _ W2 Htx2 Hr2) as Hv. same_in.
  eapply only_refines; [views|]. rewrite Ev. apply rc_once.
  destruct (current_revision_in _ _ _ E1) as [Hrin Hcur].
  replace rv with (v_revisions (case_view (si_caseId i) s)) by (by rewrite Ev).
  eapply (cs_answer (IntakeCase.set_sequence 0 t0) q); [done..| |].
  - apply in_map_iff. exists t1. split; [done|]. apply filter_In. split; [done|].
    apply get_case_in in E as [Hc <-]. unfold by_id. apply bool_decide_eq_true_2. by apply Hown.
  - rewrite <- (same_view_eq _ _ _ Htx). by eapply revision_fresh.
Qed.

Lemma decide_row_view i f : decide_row i = Ok f →
  (∀ c, f (IntakeCase.set_sequence 0 c) = IntakeCase.set_sequence 0 (f c)) ∧ (∀ c, IntakeCase.id (f c) = IntakeCase.id c).
Proof. unfold decide_row. intros H. inv_ok H; by injection H as <-. Qed.

Lemma case_row_ok_ipo s c d v : case_row_ok s c = true →
  IntakeCase.ipoPeriodDays (IntakeCase.ipo c) = Some d → IntakeCase.ipoValueEur (IntakeCase.ipo c) = Some v → 0 < d ∧ 0 < v.
Proof. unfold case_row_ok. intros H E1 E2. rewrite E1, E2 in H. unfold opt_ok in H. boolify. lia. Qed.

Lemma decide_cstep i f s k c rq rv : decide_row i = Ok f → get_case k s = Some c → case_row_ok s (f c) = true →
  IntakeCase.stage c = submitted → IntakeCase.currentSubmissionRevisionId c ≠ None →
  cstep (mkView (Some (IntakeCase.set_sequence 0 c)) rq rv) (mkView (Some (f (IntakeCase.set_sequence 0 c))) rq rv).
Proof.
  unfold decide_row. intros H Ec Hok Hst Hrev. destruct (fd_decision i).
  - inv_ok H. injection H as <-. destruct (case_row_ok_ipo _ _ _ _ Hok eq_refl eq_refl). by apply cs_approve.
  - injection H as <-. apply cs_reject. by left.
Qed.

Lemma handoff_same d k p tr s a s' :
  (match d with
   | approve _ _ value => enqueue jobId "case_timers.pre_offering_open_handoff"
       [("case_id", JStr k); ("property_id", JStr p); ("ipo_value_eur", JStr value)] tr
   | reject _ _ => tret None
   end) s = Ok (a, s') → same_view s s'.
Proof. destruct d; [apply enqueue_same | by intros [_ ->]%tret_ok]. Qed.

Lemma job_event_same (o : option string) f s a s' :
  (match o with None => tret tt | Some job => event ulid (f job) end) s = Ok (a, s') → same_view s s'.
Proof. destruct o; [apply event_same | by intros [_ ->]%tret_ok]. Qed.

Lemma recordFounderDecision_refines i t s a s' : recordFounderDecision ulid jobId i t s = Ok (a, s') → refines s s'.
Proof.
  intros H. unfold recordFounderDecision in H. inv_tx H; try (by apply same_refines). boolify.
  apply handoff_same in Htx1. apply (job_event_same _ (λ job, _)) in Htx4. same_in.
  destruct (decide_row_view _ _ Htx) as [Hf1 Hf2]. pose proof (case_update_view _ _ _ _ Htx0 Hf1 Hf2) as Hv.
  destruct (case_update_row _ _ _ _ Htx0) as (c & Hc & Hok). rewrite E in Hc. injection Hc as <-.
  clear Htx0. eapply only_refines; [views|]. destruct (guarded_view _ _ _ E) as (rq & rv & ->).
  apply rc_once. eapply decide_cstep; try done. congruence.
Qed.

Lemma transitionToPostIpo_refines k tr t s a s' : transitionToPostIpoStructuring ulid k tr t s = Ok (a, s') → refines s s'.
Proof.
  intros H. unfold transitionToPostIpoStructuring in H. inv_tx H; try (by apply same_refines). same_in.
  eapply only_refines; [views|]. destruct (guarded_view _ _ _ E) as (rq & rv & ->). apply rc_once. by apply cs_structure.
Qed.

Lemma assignPartner_refines i s a s' : assignPartnerOrganization ulid i s = Ok (a, s') → refines s s'.
Proof.
  intros H. unfold assignPartnerOrganization in H. inv_tx H; try (by apply same_refines). same_in.
  eapply only_refines; [views|]. destruct (guarded_view _ _ _ E) as (rq & rv & ->). apply rc_once.
  apply (cs_partner (IntakeCase.set_sequence 0 _)); [|by split].
  apply andb_false_iff in E0 as [E0|E0]; boolify; auto.
Qed.

(** The two writebacks leave the row [set_completion] describes. *)
Lemma completion_cstep c both p at_ rq rv : IntakeCase.stage c = post_ipo_structuring →
  partner_step (IntakeCase.partner c) p →
  both = is_set (IntakeCase.legalStructuringCompletedAt p) && is_set (IntakeCase.appraisalCompletedAt p) →
  cstep (mkView (Some c) rq rv) (mkView (Some (set_completion both at_ p c)) rq rv).
Proof.
  intros Hst [H1 H2] ->. unfold set_completion. destruct (_ && _) eqn:E.
  - boolify. apply cs_complete; try done.
  - apply cs_partner; [by left | by split].
Qed.

Lemma completed_at_keeps o m t : is_set o = true → completed_at o m t = o.
Proof. by destruct o. Qed.

Lemma recordLegalStructuring_refines i s a s' : recordLegalStructuring ulid i s = Ok (a, s') → refines s s'.
Proof.
  intros H. unfold recordLegalStructuring, legal_row in H. cbv beta iota zeta in H. inv_tx H; try (by apply same_refines).
  same_in. boolify. eapply only_refines.
  - intros k. repeat match goal with
      | H : same_view ?a ?b |- context [case_view ?k ?b] => rewrite (same_view_eq k _ _ H) end.
    rewrite (case_update_view _ _ _ _ Htx); [reflexivity|..]; intros c; unfold set_completion; by destruct (_ && _).
  - destruct (guarded_view _ _ _ E) as (rq & rv & ->). apply rc_once. apply completion_cstep; [done| |done].
    split; [apply completed_at_keeps | done].
Qed.

Lemma recordAppraisal_refines i s a s' : recordAppraisal ulid i s = Ok (a, s') → refines s s'.
Proof.
  intros H. unfold recordAppraisal, appraisal_row in H. cbv beta iota zeta in H. inv_tx H; try (by apply same_refines).
  assert (s0 = s) as -> by (destruct (ra_appraisalValueOpinionEur i); by inv_tx Htx).
  same_in. boolify. eapply only_refines.
  - intros k. repeat match goal with
      | H : same_view ?a ?b |- context [case_view ?k ?b] => rewrite (same_view_eq k _ _ H) end.
    rewrite (case_update_view _ _ _ _ Htx0); [reflexivity|..]; intros c; unfold set_completion; by destruct (_ && _).
  - destruct (guarded_view _ _ _ E) as (rq & rv & ->). apply rc_once. apply completion_cstep; [done| |done].
    split; [done | apply completed_at_keeps].
Qed.

(** ** Corrections *)

(** The only moves back the policy offers, and whether they need a second person. *)
Definition moves_back : list (ReversalCommand * Stage * Stage * bool) :=
  [(return_to_draft, submitted, draft, false); (withdraw_information_request, waiting_on_applicant, submitted, false);
   (reopen_pre_offering, pre_offering_open, submitted, true);
   (reopen_structuring, post_ipo_structuring, pre_offering_open, true);
   (reopen_final_offering_review, approved_for_final_offering, post_ipo_structuring, true)].

Lemma reversal_action_move snap cmd a : getReversalAction snap cmd = Some a →
  In (cmd, stage snap, targetStage a, requiresSecondApproval a) moves_back.
Proof.
  intros [H Hc]%find_row_Some. boolify. subst cmd. unfold evaluateReversalActions in H.
  destruct (_ || _); [done|]. apply filter_In in H as [H _]. rewrite !in_app_iff in H. unfold moves_back. simpl.
  destruct H as [H|[H|[H|[H|H]]]]; 
    match type of H with In _ (if ?b then _ else _) => destruct b eqn:E; [|done] end;
    destruct H as [<-|[]]; boolify;
    match goal with Hs : stage snap = _ |- _ => rewrite Hs end; simpl; tauto.
Qed.

Lemma parse_command_text t c : parse_command t = Some c → command_text c = t.
Proof. intros [_ H]%find_row_Some. by boolify. Qed.

Lemma still_allowed_move o s c : still_allowed o s = true → get_case (Operation.caseId o) s = Some c →
  ∃ cmd to_ b, command_text cmd = Operation.command o ∧ In (cmd, IntakeCase.stage c, to_, b) moves_back.
Proof.
  unfold still_allowed, loadReversalSnapshot. intros H Ec. rewrite Ec in H.
  destruct (parse_command _) as [cmd|] eqn:Ep; [|done].
  destruct (getReversalAction _ cmd) as [a|] eqn:Ea; [|done].
  apply reversal_action_move in Ea. apply parse_command_text in Ep. eexists cmd, _, _. by split.
Qed.

Lemma executor_view cmd t f : executor cmd t = Some f →
  (∀ c, f (IntakeCase.set_sequence 0 c) = IntakeCase.set_sequence 0 (f c)) ∧ (∀ c, IntakeCase.id (f c) = IntakeCase.id c).
Proof. unfold executor. intros H. repeat case_bool_decide; by simplify_eq. Qed.

Lemma find_operation_in k oid s o : find_operation k oid s = Some o →
  In o (operations s) ∧ Operation.id o = oid ∧ Operation.caseId o = k.
Proof. intros [H1 H2]%find_row_Some. by boolify. Qed.

Lemma revert_cstep cmd c to_ b at_ f rq rv : In (cmd, IntakeCase.stage c, to_, b) moves_back →
  executor (command_text cmd) at_ = Some f → cstep (mkView (Some c) rq rv) (mkView (Some (f c)) rq rv).
Proof.
  intros H Hf. eapply cs_revert; [|exact Hf]. simpl in H.
  destruct H as [[= <- <-]|[[= <- <-]|[[= <- <-]|[[= <- <-]|[[= <- <-]|[]]]]]]; try (rewrite list_elem_of_In; simpl; tauto).
  discriminate Hf.
Qed.

Lemma runReversalExecution_refines i s a s' : runReversalExecution ulid i s = Ok (a, s') → refines s s'.
Proof.
  intros H. unfold runReversalExecution in H. inv_tx H; try (by apply same_refines);
    try (by apply failReversal_same in H; apply same_refines). boolify.
  apply find_operation_in in E as (Hin & Hid & Hk). rewrite <- Hk in *.
  match goal with Ha : still_allowed _ _ = true |- _ => 
    destruct (still_allowed_move _ _ _ Ha E0) as (cmd & to_ & b & Hc & Hm) end.
  match goal with He : executor _ _ = Some _ |- _ => pose proof He as Hf; apply executor_view in He as [Hf1 Hf2] end.
  rewrite <- Hc in Hf. same_in.
  match goal with Hu : case_update _ _ _ = Ok _ |- _ => pose proof (case_update_view _ _ _ _ Hu Hf1 Hf2) as Hv; clear Hu end.
  eapply (only_refines (Operation.caseId t)); [views|].
  destruct (guarded_view _ _ _ E0) as (rq & rv & ->). apply rc_once.
  by eapply (revert_cstep cmd (IntakeCase.set_sequence 0 t0)).
Qed.

(** ** The whole system *)

(** Writes to tables no case depends on: those of other modules, and of the partner
    organizations. *)
Record elsewhere (s s' : intake) : Prop := {
  el_base : quiet (base s) (base s'); el_cases : cases (base s') = cases (base s); el_properties : properties s' = properties s; el_rooms : rooms s' = rooms s;
  el_events : caseEvents s' = caseEvents s; el_revisions : revisions s' = revisions s;
  el_evidence : evidence s' = evidence s; el_requests : requests s' = requests s;
  el_operations : operations s' = operations s; el_threads : threads s' = threads s;
  el_messages : messages s' = messages s }.

Inductive istep (s s' : intake) : Prop :=
  | is_draft i t a : createDraftIntake ulid i t s = Ok (a, s') → istep s s'
  | is_staff i t a : createStaffCase ulid i t s = Ok (a, s') → istep s s'
  | is_submit i t a : submitInitialCase ulid i t s = Ok (a, s') → istep s s'
  | is_publish i t a : publishInformationRequest ulid i t s = Ok (a, s') → istep s s'
  | is_expire i a : expireInformationRequest ulid i s = Ok (a, s') → istep s s'
  | is_withdraw_request i a : withdrawInformationRequest ulid i s = Ok (a, s') → istep s s'
  | is_resubmit i q t n a : resubmitAfterInformationRequest ulid i q t n s = Ok (a, s') → istep s s'
  | is_decide i t a : recordFounderDecision ulid jobId i t s = Ok (a, s') → istep s s'
  | is_review i t a : reviewEvidence ulid i t s = Ok (a, s') → istep s s'
  | is_close i a : closeCase ulid i s = Ok (a, s') → istep s s'
  | is_assign i a : assignPartnerOrganization ulid i s = Ok (a, s') → istep s s'
  | is_structure k tr t a : transitionToPostIpoStructuring ulid k tr t s = Ok (a, s') → istep s s'
  | is_legal i a : recordLegalStructuring ulid i s = Ok (a, s') → istep s s'
  | is_appraisal i a : recordAppraisal ulid i s = Ok (a, s') → istep s s'
  | is_message k l a b t m : postCaseMessage ulid k l a b t s = Ok (m, s') → istep s s'
  (** a correction requested through the service, whose snapshot may be out of date by now *)
  | is_request r snap cmd action t o :
      getReversalAction snap cmd = Some action → stage snap = rq_expectedStage r →
      workflowEventSequence snap = rq_expectedWorkflowEventSequence r →
      insertReversalOperation ulid (reversal_request r snap cmd action) t s = Ok (o, s') → istep s s'
  | is_claim k a t b : claimApproval k a t s = Ok (b, s') → istep s s'
  | is_run i o : runReversalExecution ulid i s = Ok (o, s') → istep s s'
  | is_record_error i u : recordExecutionError ulid i s = Ok (u, s') → istep s s'
  (** the documents of a case: an upload, and the write halves of the transactions that read without a lock, whatever
      their reads found *)
  | is_upload i d th t a : DocumentTx.accept_tx ulid i d th t s = Ok (a, s') → istep s s'
  | is_represent k r d ac tr t a : DocumentTx.represent_write ulid k r d ac tr t s = Ok (a, s') → istep s s'
  | is_delete_photo k r d ac tr rs t a : DocumentTx.delete_write ulid k r d ac tr rs t s = Ok (a, s') → istep s s'
  | is_delete_room k r ac tr rs room n t a : DocumentTx.room_write ulid k r ac tr rs room n t s = Ok (a, s') → istep s s'
  (** the offering module and the others that write the shared tables: none writes a case *)
  | is_offering b : OfferingSteps.step ulid (base s) b → cases b = cases (base s) → s' = set_base b s → istep s s'
  | is_elsewhere : elsewhere s s' → istep s s'.

Lemma istep_advance s s' : istep s s' → advance ulid s s'.
Proof.
  destruct 1 as [| | | | | | | | | | | | | | | | | | | | | | |b Hb Hc ->|[]].
  24:{ split; [|exists []; by rewrite app_nil_r|by apply rtc_once].
       unfold wf, skeleton. simpl. by rewrite Hc. }
  24:{ apply advance_frame; [|done]. unfold skeleton. congruence. }
  - by eapply createDraftIntake_advance.
  - by eapply createStaffCase_advance.
  - by eapply submitInitialCase_advance.
  - by eapply publishInformationRequest_advance.
  - by eapply expireInformationRequest_advance.
  - by eapply withdrawInformationRequest_advance.
  - by eapply resubmit_advance.
  - by eapply recordFounderDecision_advance.
  - by eapply reviewEvidence_advance.
  - by eapply closeCase_advance.
  - by eapply assignPartner_advance.
  - by eapply transitionToPostIpo_advance.
  - by eapply recordLegalStructuring_advance.
  - by eapply recordAppraisal_advance.
  - by eapply postCaseMessage_advance.
  - by eapply insertReversal_advance.
  - by eapply claimApproval_advance.
  - by eapply runReversalExecution_advance.
  - by eapply recordExecutionError_advance.
  - by eapply accept_advance.
  - by eapply represent_write_advance.
  - by eapply delete_write_advance.
  - by eapply room_write_advance.
Qed.

(** The refinement: every step is at most one step of the abstract machine, for every case. *)
Lemma istep_refines s s' : wf s → own_revision s → istep s s' → refines s s'.
Proof.
  intros W Hown [].
  - by eapply createDraftIntake_refines.
  - by eapply createStaffCase_refines.
  - by eapply submitInitialCase_refines.
  - by eapply publishInformationRequest_refines.
  - by eapply expireInformationRequest_refines.
  - by eapply withdrawInformationRequest_refines.
  - by eapply resubmit_refines.
  - by eapply recordFounderDecision_refines.
  - eapply same_refines. by eapply reviewEvidence_same.
  - by eapply closeCase_refines.
  - by eapply assignPartner_refines.
  - by eapply transitionToPostIpo_refines.
  - by eapply recordLegalStructuring_refines.
  - by eapply recordAppraisal_refines.
  - eapply same_refines. by eapply postCaseMessage_same.
  - eapply same_refines. by eapply insertReversal_same.
  - eapply same_refines. by eapply claimApproval_same.
  - by eapply runReversalExecution_refines.
  - eapply same_refines. by eapply recordExecutionError_same.
  - eapply same_refines. by eapply accept_same.
  - eapply same_refines. by eapply represent_write_same.
  - eapply same_refines. by eapply delete_write_same.
  - eapply same_refines. by eapply room_write_same.
  - subst. apply same_refines. unfold same_view, erased. simpl. split_and!; congruence.
  - destruct H. apply same_refines. unfold same_view, erased. split_and!; congruence.
Qed.

End WithUlid.
End IntakeMachine.
