(* ===== verification/IntakeInv.v ===== *)
(** The invariants of an intake case, by induction over the abstract machine of
    [IntakeMachine], and the states the whole system reaches. *)

From S2P Require Import Prelude JsString Currency DateTime IntakePolicy Db OfferingPolicy OfferingRepo OfferingFacts OfferingInv IntakeDb IntakeRepo IntakeReversal IntakeLedger IntakeMachine.

Module IntakeInv.
Import IntakePolicy IntakeDb IntakeRepo IntakeReversal IntakeLedger IntakeMachine.

(** ** The invariant of one case *)

Definition published_count (rq : list (string * RequestStatus)) : nat :=
  length (List.filter (λ q, bool_decide (q.2 = published)) rq).

(** An information request is open exactly while the case waits for the applicant; a case
    withdrawn while waiting keeps its request open. *)
Definition requests_match (st : Stage) (n : nat) : Prop :=
  match st with
  | waiting_on_applicant => n = 1%nat
  | withdrawn => (n <= 1)%nat
  | _ => n = 0%nat
  end.

Definition approved_stage (st : Stage) : bool :=
  match st with pre_offering_open | post_ipo_structuring | approved_for_final_offering => true | _ => false end.
Definition review_stage (st : Stage) : bool :=
  match st with draft | submitted | waiting_on_applicant => true | _ => false end.

(** The columns that go with a stage. *)
Record columns_ok (c : IntakeCase.t) : Prop := {
  col_withdrawn : is_set (IntakeCase.withdrawnAt (IntakeCase.review c)) = bool_decide (IntakeCase.stage c = withdrawn);
  col_expired : is_set (IntakeCase.expiredAt (IntakeCase.review c)) = bool_decide (IntakeCase.stage c = expired);
  col_rejected : is_set (IntakeCase.rejectedAt (IntakeCase.review c)) = bool_decide (IntakeCase.stage c = rejected);
  col_reopen : IntakeCase.canReopen (IntakeCase.review c) = false;
  col_approved : approved_stage (IntakeCase.stage c) = true →
    is_set (IntakeCase.approvedAt (IntakeCase.review c)) = true ∧ is_set (IntakeCase.ipoEndAt c) = true ∧
    ∃ v, IntakeCase.ipoValueEur (IntakeCase.ipo c) = Some v ∧ 0 < v;
  col_review : review_stage (IntakeCase.stage c) = true →
    IntakeCase.approvedAt (IntakeCase.review c) = None ∧ IntakeCase.ipoEndAt c = None ∧
    IntakeCase.ipoValueEur (IntakeCase.ipo c) = None;
  col_partner : IntakeCase.stage c = approved_for_final_offering →
    is_set (IntakeCase.legalStructuringCompletedAt (IntakeCase.partner c)) = true ∧
    is_set (IntakeCase.appraisalCompletedAt (IntakeCase.partner c)) = true }.

Record case_ok (c : IntakeCase.t) (rq : list (string * RequestStatus)) (rv : list (string * Z)) : Prop := {
  co_columns : columns_ok c;
  co_requests : requests_match (IntakeCase.stage c) (published_count rq);
  co_numbers : map snd rv = upto (Z.of_nat (length rv));
  co_ids : List.NoDup (map fst rv);
  co_current : IntakeCase.currentSubmissionRevisionId c = fst <$> last rv;
  co_submitted : IntakeCase.stage c ≠ draft → IntakeCase.stage c ≠ withdrawn → rv ≠ [] }.

Definition cinv (v : cview) : Prop :=
  match v_case v with
  | None => v = mkView None [] []
  | Some c => case_ok c (v_requests v) (v_revisions v)
  end.

Lemma count_snoc rq rid : published_count (rq ++ [(rid, published)]) = S (published_count rq).
Proof. unfold published_count. rewrite List.filter_app, length_app. simpl. lia. Qed.

Lemma count_resolve q st rq : st ≠ published → published_count rq = 1%nat → In (q, published) rq →
  published_count (resolve_view q st rq) = 0%nat.
Proof.
  intros Hst H1 Hin. unfold published_count in *.
  rewrite filter_nil; [done|]. intros [i st'] Hr. simpl. apply bool_decide_eq_false_2. intros ->.
  apply in_update_where in Hr as ([i0 st0] & H0 & E). simpl in E. case_bool_decide; [congruence|]. injection E as <- <-.
  assert (In (q, published) (List.filter (λ q, bool_decide (q.2 = published)) rq)) as A by (by apply filter_In).
  assert (In (i, published) (List.filter (λ q, bool_decide (q.2 = published)) rq)) as B by (by apply filter_In).
  destruct (List.filter _ rq) as [|x [|y l]]; [done| |done]. destruct A as [->|[]], B as [[= ->]|[]]. done.
Qed.

Lemma upto_length {A} (rv : list A) : upto (Z.of_nat (length rv)) ++ [Z.of_nat (length rv) + 1] =
  upto (Z.of_nat (S (length rv))).
Proof. rewrite <- upto_succ by lia. f_equal. lia. Qed.

Lemma numbers_snoc (rv : list (string * Z)) rid n : map snd rv = upto (Z.of_nat (length rv)) → n = Z.of_nat (length rv) →
  map snd (rv ++ [(rid, n + 1)]) = upto (Z.of_nat (length (rv ++ [(rid, n + 1)]))).
Proof.
  intros H ->. rewrite map_app, H, length_app. simpl. rewrite upto_length. f_equal. lia.
Qed.

(** The revision a case points to is the last, so its number is the number of revisions. *)
Lemma current_number (rv : list (string * Z)) r n : List.NoDup (map fst rv) → map snd rv = upto (Z.of_nat (length rv)) →
  Some r = fst <$> last rv → In (r, n) rv → n = Z.of_nat (length rv).
Proof.
  intros Hnd Hnum Hlast Hin. destruct rv as [|x rv0] using rev_ind; [done|].
  rewrite last_snoc in Hlast. injection Hlast as ->. rewrite length_app, map_app in *. simpl in *.
  assert (x = (x.1, n)) as Ex.
  { apply (NoDup_map_inj_in fst (rv0 ++ [x])); [by rewrite map_app | apply in_app_iff; simpl; auto | done | done]. }
  replace (Z.of_nat (length rv0 + 1)) with (Z.of_nat (length rv0) + 1) in Hnum by lia.
  rewrite upto_succ in Hnum by lia. apply app_inj_tail in Hnum as [_ Hn]. rewrite Ex in Hn. simpl in Hn. lia.
Qed.

#[local] Hint Extern 1 (_ = _) => congruence : core.

Lemma case_ok_stage c c' rq rv : case_ok c rq rv → columns_ok c' →
  IntakeCase.currentSubmissionRevisionId c' = IntakeCase.currentSubmissionRevisionId c →
  requests_match (IntakeCase.stage c') (published_count rq) → rv ≠ [] ∨ IntakeCase.stage c' = withdrawn →
  case_ok c' rq rv.
Proof. intros [] Hc Hr Hn Hrv. split; try done; [congruence|]. intros _ Hw. by destruct Hrv. Qed.

Lemma revisions_some c rq rv : case_ok c rq rv → IntakeCase.currentSubmissionRevisionId c ≠ None → rv ≠ [].
Proof. intros [] H ->. by rewrite co_current0 in H. Qed.

(** The columns after an update, from the columns before and the stage. *)
Ltac columns :=
  match goal with
  | H : columns_ok ?c, E : IntakeCase.stage ?c = _ |- columns_ok _ =>
      let Hw := fresh in let He := fresh in let Hr := fresh in let Ho := fresh in let Ha := fresh in
      let Hv := fresh in let Hp := fresh in
      destruct H as [Hw He Hr Ho Ha Hv Hp]; rewrite E in *; unfold IntakeCase.ipoEndAt in *;
      split; simpl; try done; try (by intros _; apply Ha); try (by intros _; apply Hv); try (by intros; discriminate); auto
  end.

Lemma executor_cases cmd c at_ f : executor (command_text cmd) at_ = Some f →
  (cmd, IntakeCase.stage c) ∈ [(return_to_draft, submitted); (reopen_pre_offering, pre_offering_open);
     (reopen_structuring, post_ipo_structuring); (reopen_final_offering_review, approved_for_final_offering)] →
  columns_ok c → columns_ok (f c) ∧
  IntakeCase.currentSubmissionRevisionId (f c) = IntakeCase.currentSubmissionRevisionId c ∧
  IntakeCase.stage (f c) ∈ [draft; submitted; pre_offering_open; post_ipo_structuring].
Proof.
  intros Hf Hin Hc. rewrite list_elem_of_In in Hin. 
  destruct Hin as [[= <- E]|[[= <- E]|[[= <- E]|[[= <- E]|[]]]]]; symmetry in E; injection Hf as <-;
    (split; [columns | split; [done | rewrite list_elem_of_In; simpl; tauto]]).
Qed.

Lemma submit_inv c rid at_ rq0 rq rv n : case_ok c rq0 rv → columns_ok (set_submitted rid at_ c) →
  n = Z.of_nat (length rv) → ¬ In rid (map fst rv) → published_count rq = 0%nat →
  case_ok (set_submitted rid at_ c) rq (rv ++ [(rid, n + 1)]).
Proof.
  intros [] Hc Hn Hnew Hq. split; try done.
  - by apply numbers_snoc.
  - rewrite map_app. by apply NoDup_snoc.
  - by rewrite last_snoc.
  - intros _ _. by destruct rv.
Qed.

Lemma columns_partner c p at_ : columns_ok c → partner_step (IntakeCase.partner c) p →
  columns_ok (IntakeCase.set_partner p (IntakeCase.set_stage (IntakeCase.stage c) at_ c)).
Proof.
  intros [] [H1 H2]. split; simpl; try done. intros Hst. destruct (col_partner0 Hst). rewrite H1, H2 by done. done.
Qed.

Lemma cstep_inv v v' : cinv v → cstep v v' → cinv v'.
Proof.
  unfold cinv. intros Hv Hs.
  destruct Hs as [k p a at_|k p a at_ rid|c rid at_ rq rv Hst Hrev|c rid at_ rq rv Hst Hrev Hnone
    |c q n rid r at_ rq rv Hst Hin Hrev Hrv Hnew|c q at_ rq rv Hst Hin|c q at_ rq rv Hst Hin
    |c d e v n b at_ rq rv Hst Hrev Hd Hc|c code n rn b at_ rq rv Hg|c rn b at_ rq rv Hg|c at_ rq rv Hst
    |c p at_ rq rv Hst Hp|c p at_ rq rv Hst Hp Hl Ha|c cmd at_ f rq rv Hin Hf]; simpl in *.
  1: { split; simpl; try done; first [by split | by constructor]. }
  1: { split; simpl; try done; first [by split | repeat constructor; by intros []]. }
  all: pose proof (co_columns _ _ _ Hv) as Hcol; pose proof (co_requests _ _ _ Hv) as Hq;
    pose proof (co_current _ _ _ Hv) as Hcur; try rewrite Hst in Hq; simpl in Hq.
  - rewrite Hrev in Hcur. assert (rv = []) as -> by (destruct rv using rev_ind; [done|by rewrite last_snoc in Hcur]).
    apply (submit_inv _ _ _ rq _ [] 0); try done; [columns | by intros []].
  - split; simpl; try apply Hv; [columns | rewrite count_snoc; lia|]. intros _ _. by eapply revisions_some.
  - eapply submit_inv; [exact Hv|columns| |done|by apply count_resolve].
    eapply current_number; [apply Hv|apply Hv|by rewrite <- Hcur|done].
  - split; simpl; try apply Hv; [columns | by apply count_resolve|]. intros _ _. apply (co_submitted _ _ _ Hv); by rewrite Hst.
  - split; simpl; try apply Hv; [columns | by apply count_resolve|]. intros _ _. apply (co_submitted _ _ _ Hv); by rewrite Hst.
  - apply (case_ok_stage c); simpl; try done; [columns; by intros _; eauto | left; by eapply revisions_some].
  - apply (case_ok_stage c); simpl; try done; [|by destruct Hg as [[Hst _]|Hst]; rewrite Hst in Hq|left].
    + destruct Hg as [[Hst _]|Hst]; columns.
    + destruct Hg as [[_ Hg]|Hst]; [by eapply revisions_some|]. apply (co_submitted _ _ _ Hv); by rewrite Hst.
  - apply (case_ok_stage c); simpl; try done; [| |by right].
    + rewrite list_elem_of_In in Hg. destruct Hg as [Hst|[Hst|[Hst|[Hst|[]]]]]; symmetry in Hst; columns.
    + rewrite list_elem_of_In in Hg. destruct Hg as [Hst|[Hst|[Hst|[Hst|[]]]]]; rewrite <- Hst in Hq; simpl in Hq; lia.
  - apply (case_ok_stage c); simpl; try done; [columns|left]. apply (co_submitted _ _ _ Hv); by rewrite Hst.
  - apply (case_ok_stage c); simpl; try done; [by apply columns_partner|]. left.
    apply (co_submitted _ _ _ Hv); by destruct Hst as [-> | ->].
  - apply (case_ok_stage c); simpl; try done; [columns|left]. apply (co_submitted _ _ _ Hv); by rewrite Hst.
  - destruct (executor_cases _ _ _ _ Hf Hin Hcol) as (Hc' & Hr & Hs').
    assert (rv ≠ [] ∧ published_count rq = 0%nat) as [Hne H0].
    { rewrite list_elem_of_In in Hin.
      destruct Hin as [[= <- E]|[[= <- E]|[[= <- E]|[[= <- E]|[]]]]]; rewrite <- E in Hq;
        (split; [apply (co_submitted _ _ _ Hv); by rewrite <- E | done]). }
    apply (case_ok_stage c); try done; [|by left]. rewrite H0, list_elem_of_In in *.
    by destruct Hs' as [<-|[<-|[<-|[<-|[]]]]].
Qed.

(** ** Reachable states *)

Record no_cases (s : intake) : Prop := {
  nc_cases : cases (base s) = []; nc_requests : requests s = []; nc_revisions : revisions s = [];
  nc_events : caseEvents s = []; nc_operations : operations s = [] }.

Definition good (s : intake) : Prop := wf s ∧ ∀ k, cinv (case_view k s).

Lemma no_cases_good s : no_cases s → good s.
Proof.
  intros [H1 H2 H3 H4 H5]. split.
  - unfold wf, skeleton. rewrite H1, H2, H3, H4, H5. split; simpl; try done; constructor.
  - intros k. unfold case_view, get_case, find_case. by rewrite H1, H2, H3.
Qed.

Lemma good_own s : good s → own_revision s.
Proof.
  intros [W H] c r Hc Hr. destruct (current_revision_in _ _ _ Hr) as [Hin Hcur].
  assert (get_case (IntakeCase.id c) s = Some c) as Hg.
  { apply (owned_get _ (IntakeCase.applicantAccountId c)); [done|]. unfold owned_case.
    destruct (find_row _ _) as [c'|] eqn:E.
    - apply find_row_Some in E as [Hc' E]. boolify. f_equal.
      pose proof (ok_cases _ W) as N. rewrite case_keys in N. by apply (NoDup_map_inj_in _ _ _ _ N).
    - rewrite find_row_None in E. specialize (E c Hc). rewrite !bool_decide_eq_true_2 in E by done. done. }
  specialize (H (IntakeCase.id c)). unfold cinv, case_view in H. rewrite Hg in H. simpl in H.
  pose proof (co_current _ _ _ H) as Hl. simpl in Hl. rewrite Hcur in Hl.
  destruct (last _) as [[x n]|] eqn:El; [|done]. simpl in Hl. injection Hl as <-.
  apply last_Some_elem_of, list_elem_of_In, in_map_iff in El as (r' & [= E _] & [Hr' Hk]%filter_In).
  pose proof (ok_revisions _ W) as N. unfold skeleton in N. simpl in N. rewrite map_map in N. simpl in N.
  rewrite (NoDup_map_inj_in Revision.id _ r' r N Hr' Hin) in Hk by done. unfold by_id in Hk. by boolify.
Qed.

Section WithUlid.
Context (ulid : nat → string) (jobId : nat → option string).
Notation istep := (istep ulid jobId).

Lemma istep_good s s' : good s → istep s s' → good s'.
Proof.
  intros G H. split; [by apply (adv_wf _ _ _ (istep_advance _ _ _ _ H)), G|].
  intros k. destruct (istep_refines _ _ _ _ (proj1 G) (good_own _ G) H k) as [->|Hs]; [apply G|].
  eapply cstep_inv; [apply G | exact Hs].
Qed.

Lemma isteps_good s s' : good s → rtc istep s s' → good s'.
Proof. intros G H. induction H as [|s1 s2 s3 H1 _ IH]; [done|]. by apply IH, (istep_good s1). Qed.

(** From a database with no case in it. *)
Definition ireachable (s : intake) : Prop := ∃ s0, no_cases s0 ∧ rtc istep s0 s.

Lemma ireachable_good s : ireachable s → good s.
Proof. intros (s0 & H0 & H). eapply isteps_good; [by apply no_cases_good | done]. Qed.

Lemma ireachable_steps s s' : ireachable s → rtc istep s s' → ireachable s'.
Proof. intros (s0 & H0 & H) H'. exists s0. split; [done | by etrans]. Qed.

Lemma good_case s k c : good s → get_case k s = Some c →
  case_ok (IntakeCase.set_sequence 0 c) (v_requests (case_view k s)) (v_revisions (case_view k s)).
Proof. intros [_ G] H. specialize (G k). unfold cinv in G. unfold case_view in *. by rewrite H in G. Qed.

(** What a run does to one case is a run of the abstract machine. *)
Lemma isteps_view s s' k : good s → rtc istep s s' → rtc cstep (case_view k s) (case_view k s').
Proof.
  intros G H. induction H as [|s1 s2 s3 H1 _ IH]; [done|].
  etrans; [|by apply IH, (istep_good s1)].
  destruct (istep_refines _ _ _ _ (proj1 G) (good_own _ G) H1 k) as [->|Hs]; [done | by apply rtc_once].
Qed.

End WithUlid.
End IntakeInv.
