(* ===== verification/IntakeDemo.v ===== *)
(** A concrete case driven through its whole life, with the branches on which the properties of
    the intake module are instantiated. *)

From S2P Require Import Prelude JsString Currency DateTime IntakePolicy Db OfferingPolicy OfferingRepo OfferingFacts OfferingInv OfferingDemo IntakeDb IntakeRepo IntakeReversal IntakeLedger IntakeMachine IntakeInv.

Module IntakeDemo.
Import IntakePolicy IntakeDb IntakeRepo IntakeReversal IntakeMachine IntakeInv.

Definition ulid : nat → string := OfferingDemo.demo_ulid.
Definition jobId (n : nat) : option string := Some (String.append "job_" (ulid n)).

Definition irun {A} (t : txn intake A) (s : intake) : intake :=
  match t s with Ok (_, s') => s' | Err _ => s end.

Lemma irun_ok {A} (t : txn intake A) s : is_ok (t s) = true → ∃ a, t s = Ok (a, irun t s).
Proof. unfold irun. destruct (t s) as [[a s']|]; simpl; [eauto | done]. Qed.

Lemma irun_some {A} (t : txn intake (option A)) s :
  match t s with Ok (Some _, _) => true | _ => false end = true → ∃ a, t s = Ok (Some a, irun t s).
Proof. unfold irun. destruct (t s) as [[[a|] s']|]; simpl; [eauto | done..]. Qed.

Definition i0 : intake :=
  mkIntake (OfferingInv.empty_db (map OfferingDemo.person ["owner"; "staff"; "founder"; "lawyer"; "appraiser"])
     [KycEligibility.mk "owner" "eligible" None (Some 10000000000)] [] [])
    [] [] [] [] [] [] [] [] []
    [Organization.mk "practice_1" "Lex" "BG" Organization.active] [Organization.mk "firm_1" "Val" "BG" Organization.active]
    [("intake.minimum_property_value_eur", JObj [("amount", JStr "100000.00"); ("currency", JStr "EUR")]);
     ("intake.applicant_response_window_business_days", JObj [("business_days", JNum 10)]);
     ("intake.information_request_reminder_business_days", JObj [("business_days", JArr [JNum 5; JNum 8])])] [].

Definition flat : PropertyInput :=
  mkPropertyInput "BG" (Some "Sofia") None None None None "150000.00" false
    (mkDetails (Some "apartment") (Some 8250) (Some 2) (Some 1) None None None None None) [mkRoomInput "bedroom" 1400].
Definition papers : list SubmissionDocumentInput :=
  map (λ t, mkDocument t "ref" None) requiredInitialEvidenceTypes.
Definition submission : SubmitInitialCaseInput := mkSubmit "owner" "case_1" "trace" [] papers.

(** ** The whole life *)

Definition create_input := mkCreateDraft "owner" "trace" flat.
Definition ask_input := mkPublishRequest "staff" "case_1" "trace" "Which floor?" 3000 864003000.
Definition decision_input := mkFounderDecision (approve 30 2592005000 "100000.00") "founder" "case_1" "trace" "ok" 5000.
Definition assign_input := mkAssignPartner "case_1" (Some "practice_1") (Some "firm_1") "staff" "trace" 7000.
Definition legal_input := mkRecordLegal "case_1" (Some ["deed"]) (Some true) "lawyer" "trace_l" 8000.
Definition appraisal_input := mkRecordAppraisal "case_1" (Some "152000.00") (Some ["report"]) (Some true) "appraiser" "trace_a" 9000.

Definition i1 := irun (createDraftIntake ulid create_input 1000) i0.
Definition i2 := irun (submitInitialCase ulid submission 2000) i1.
Definition i3 := irun (publishInformationRequest ulid ask_input 3000) i2.
Definition rfi : string := match published_request "case_1" i3 with Some r => InformationRequest.id r | None => "" end.
Definition i4 := irun (resubmitAfterInformationRequest ulid submission rfi 4000 4000) i3.
Definition i5 := irun (recordFounderDecision ulid jobId decision_input 5000) i4.
Definition i6 := irun (transitionToPostIpoStructuring ulid "case_1" "trace_p" 6000) i5.
Definition i7 := irun (assignPartnerOrganization ulid assign_input) i6.
Definition i8 := irun (recordLegalStructuring ulid legal_input) i7.
Definition i9 := irun (recordAppraisal ulid appraisal_input) i8.

(** ** Branches *)

Definition ask_back (command : string) (st : Stage) (n : Z) (key : string) : RequestReversalInput :=
  mkRequestReversal "case_1" command "staff" "trace" key st n "operator_input_error" "by mistake".

(** The transaction the service makes in state [s] for a correction. *)
Definition correct (i : RequestReversalInput) (t : Z) (s : intake) : txn intake Operation.t :=
  match getIntakeReversalSnapshot (rq_caseId i) s, parse_command (rq_command i) with
  | Some snap, Some cmd =>
      match getReversalAction snap cmd with
      | Some action =>
          if bool_decide (stage snap = rq_expectedStage i) && (workflowEventSequence snap =? rq_expectedWorkflowEventSequence i)
          then insertReversalOperation ulid (reversal_request i snap cmd action) t
          else tthrow reversalConflictError
      | None => tthrow reversalNotAllowedError
      end
  | _, _ => tthrow case_not_found
  end.

Definition last_operation (s : intake) : string := match last (operations s) with Some o => Operation.id o | None => "" end.
Definition execute_input (s : intake) (actor : string) (t : Z) : ExecuteReversalInput :=
  mkExecute "case_1" (last_operation s) actor "trace" t.

(** sent back to draft after its submission *)
Definition b3 := irun (correct (ask_back "return_to_draft" submitted 2 "key") 3000 i2) i2.
Definition b4 := irun (runReversalExecution ulid (execute_input b3 "staff" 3000)) b3.

(** withdrawn while it waits for the applicant *)
Definition withdraw_input (t : Z) := mkCloseCase outcome_withdrawn "staff" "case_1" "trace" "owner left" t.
Definition w4 := irun (closeCase ulid (withdraw_input 4000)) i3.

(** approved, with its offering opened by the handoff; then reopened by two people *)
Definition open_input := OfferingRepo.mkOpenOffering "case_1" "prop_0" "100000.00" "trace" 5500 5500 true.
Definition o6 := set_base (OfferingDemo.run (OfferingRepo.openOfferingForApprovedCase ulid open_input) (base i5)) i5.
Definition o7 := irun (correct (ask_back "reopen_pre_offering" pre_offering_open 6 "key") 7000 o6) o6.
Definition o8 := irun (claimApproval (last_operation o7) "founder" 8000) o7.
Definition o9 := irun (runReversalExecution ulid (execute_input o8 "founder" 8000)) o8.

(** closed while its offering is open *)
Definition x7 := irun (closeCase ulid (withdraw_input 7000)) o6.

(** ** The states are reachable *)

Lemma correct_step i t s : is_ok (correct i t s s) = true → istep ulid jobId s (irun (correct i t s) s).
Proof.
  intros (o & H)%irun_ok. remember (irun _ _) as s' eqn:E. clear E. unfold correct in H.
  inv_tx H. boolify. by eapply is_request.
Qed.

(** [demo_istep c] closes [istep s (irun t s)] for the constructor [c] of transaction [t]. *)
Ltac demo_istep c :=
  lazymatch goal with
  | |- istep _ _ ?s ?s' =>
      let H := fresh in let a := fresh in
      lazymatch eval red in s' with
      | irun ?t ?s0 => destruct (irun_ok t s0 ltac:(vm_compute; reflexivity)) as [a H]; eapply c; exact H
      end
  end.

Lemma step_i1 : istep ulid jobId i0 i1.
Proof. demo_istep is_draft. Qed.
Lemma step_i2 : istep ulid jobId i1 i2.
Proof. demo_istep is_submit. Qed.
Lemma step_i3 : istep ulid jobId i2 i3.
Proof. demo_istep is_publish. Qed.
Lemma step_i4 : istep ulid jobId i3 i4.
Proof. demo_istep is_resubmit. Qed.
Lemma step_i5 : istep ulid jobId i4 i5.
Proof. demo_istep is_decide. Qed.
Lemma step_i6 : istep ulid jobId i5 i6.
Proof. demo_istep is_structure. Qed.
Lemma step_i7 : istep ulid jobId i6 i7.
Proof. demo_istep is_assign. Qed.
Lemma step_i8 : istep ulid jobId i7 i8.
Proof. demo_istep is_legal. Qed.
Lemma step_i9 : istep ulid jobId i8 i9.
Proof. demo_istep is_appraisal. Qed.
Lemma step_b3 : istep ulid jobId i2 b3.
Proof. apply correct_step. vm_compute. reflexivity. Qed.
Lemma step_b4 : istep ulid jobId b3 b4.
Proof. demo_istep is_run. Qed.
Lemma step_w4 : istep ulid jobId i3 w4.
Proof. demo_istep is_close. Qed.
Lemma step_o7 : istep ulid jobId o6 o7.
Proof. apply correct_step. vm_compute. reflexivity. Qed.
Lemma step_o8 : istep ulid jobId o7 o8.
Proof. demo_istep is_claim. Qed.
Lemma step_o9 : istep ulid jobId o8 o9.
Proof. demo_istep is_run. Qed.
Lemma step_x7 : istep ulid jobId o6 x7.
Proof. demo_istep is_close. Qed.

Lemma step_o6 : istep ulid jobId i5 o6.
Proof.
  destruct (OfferingDemo.run_ok (OfferingRepo.openOfferingForApprovedCase ulid open_input) (base i5)
    ltac:(vm_compute; reflexivity)) as [a H].
  eapply is_offering; [eapply OfferingSteps.st_open; exact H | vm_compute; reflexivity | reflexivity].
Qed.

Lemma reach_i0 : ireachable ulid jobId i0.
Proof. exists i0. split; [by split | apply rtc_refl]. Qed.

Lemma reach_next s s' : ireachable ulid jobId s → istep ulid jobId s s' → ireachable ulid jobId s'.
Proof. intros R H. eapply ireachable_steps; [exact R | by apply rtc_once]. Qed.

Lemma reach_i2 : ireachable ulid jobId i2.
Proof. exact (reach_next _ _ (reach_next _ _ reach_i0 step_i1) step_i2). Qed.
Lemma reach_i3 : ireachable ulid jobId i3.
Proof. exact (reach_next _ _ reach_i2 step_i3). Qed.
Lemma reach_i5 : ireachable ulid jobId i5.
Proof. exact (reach_next _ _ (reach_next _ _ reach_i3 step_i4) step_i5). Qed.
Lemma reach_i8 : ireachable ulid jobId i8.
Proof. exact (reach_next _ _ (reach_next _ _ (reach_next _ _ reach_i5 step_i6) step_i7) step_i8). Qed.
Lemma reach_b4 : ireachable ulid jobId b4.
Proof. exact (reach_next _ _ (reach_next _ _ reach_i2 step_b3) step_b4). Qed.
Lemma reach_w4 : ireachable ulid jobId w4.
Proof. exact (reach_next _ _ reach_i3 step_w4). Qed.
Lemma reach_o6 : ireachable ulid jobId o6.
Proof. exact (reach_next _ _ reach_i5 step_o6). Qed.
Lemma reach_o9 : ireachable ulid jobId o9.
Proof. exact (reach_next _ _ (reach_next _ _ (reach_next _ _ reach_o6 step_o7) step_o8) step_o9). Qed.

End IntakeDemo.
