(* ===== verification/IntakeProps.v ===== *)
(** What holds of intake cases over every interleaving of the intake transactions, the offering
    module and the other writers ([IntakeMachine.istep]). *)

From S2P Require Import Prelude JsString Currency DateTime IntakePolicy Db OfferingPolicy OfferingRepo OfferingFacts OfferingInv IntakeDb IntakeRepo IntakeReversal IntakeLedger IntakeMachine IntakeInv IntakeDemo.

Module IntakeProps.
Import Currency IntakePolicy IntakeDb IntakeRepo IntakeReversal IntakeLedger IntakeMachine IntakeInv.

(** ** The stage graph *)

Definition stage_edges : list (Stage * Stage) :=
  [(draft, submitted); (submitted, waiting_on_applicant); (waiting_on_applicant, submitted);
   (waiting_on_applicant, expired); (submitted, pre_offering_open); (submitted, rejected);
   (pre_offering_open, rejected); (draft, withdrawn); (submitted, withdrawn); (waiting_on_applicant, withdrawn);
   (pre_offering_open, withdrawn); (pre_offering_open, post_ipo_structuring);
   (post_ipo_structuring, approved_for_final_offering);
   (** corrections *)
   (submitted, draft); (pre_offering_open, submitted); (post_ipo_structuring, pre_offering_open);
   (approved_for_final_offering, post_ipo_structuring)].

Definition same_identity (c c' : IntakeCase.t) : Prop :=
  IntakeCase.id c' = IntakeCase.id c ∧ IntakeCase.propertyId c' = IntakeCase.propertyId c ∧
  IntakeCase.applicantAccountId c' = IntakeCase.applicantAccountId c ∧ IntakeCase.createdAt c' = IntakeCase.createdAt c.

Definition moves (c c' : IntakeCase.t) : Prop :=
  same_identity c c' ∧
  (IntakeCase.stage c' = IntakeCase.stage c ∨ In (IntakeCase.stage c, IntakeCase.stage c') stage_edges).

#[global] Instance same_identity_pre : PreOrder same_identity.
Proof.
  split; [by intros c | intros c1 c2 c3 (A & B & C & D) (E & F & G & H)]. unfold same_identity. split_and!; congruence.
Qed.

Lemma executor_moves cmd c at_ f : executor (command_text cmd) at_ = Some f →
  (cmd, IntakeCase.stage c) ∈ [(return_to_draft, submitted); (reopen_pre_offering, pre_offering_open);
     (reopen_structuring, post_ipo_structuring); (reopen_final_offering_review, approved_for_final_offering)] →
  moves c (f c).
Proof.
  intros Hf Hin. rewrite list_elem_of_In in Hin.
  destruct Hin as [[= <- E]|[[= <- E]|[[= <- E]|[[= <- E]|[]]]]]; injection Hf as <-; unfold moves; rewrite <- E;
    (split; [done | right; simpl; tauto]).
Qed.

Lemma cstep_moves v v' c : cstep v v' → v_case v = Some c → ∃ c', v_case v' = Some c' ∧ moves c c'.
Proof.
  destruct 1; simpl; try done; intros [= <-]; (eexists; split; [done|]);
    try (by eapply executor_moves); (split; [done|]); simpl;
    try (match goal with E : IntakeCase.stage _ = _ |- _ => rewrite E; simpl; tauto end).
  - destruct H as [[E _]|E]; rewrite E; simpl; tauto.
  - rewrite list_elem_of_In in H. destruct H as [<-|[<-|[<-|[<-|[]]]]]; simpl; tauto.
  - by left.
Qed.

Lemma view_case k s : v_case (case_view k s) = IntakeCase.set_sequence 0 <$> get_case k s.
Proof. done. Qed.

Lemma view_case_some k s c : v_case (case_view k s) = Some c → ∃ c', get_case k s = Some c' ∧ c = IntakeCase.set_sequence 0 c'.
Proof. rewrite view_case. destruct (get_case k s); [|done]. intros [= <-]. eauto. Qed.

(** A terminal case makes no step. *)
Lemma terminal_case_stuck v v' c : v_case v = Some c → terminal_stage (IntakeCase.stage c) = true → ¬ cstep v v'.
Proof.
  intros Hc Ht Hs. destruct Hs; simpl in Hc; simplify_eq;
    try (match goal with E : IntakeCase.stage c = _ |- _ => by rewrite E in Ht end).
  - destruct H as [[E _]|E]; by rewrite E in Ht.
  - rewrite list_elem_of_In in H. by destruct H as [E|[E|[E|[E|[]]]]]; rewrite <- E in Ht.
  - destruct H as [E|E]; by rewrite E in Ht.
  - rewrite list_elem_of_In in H. by destruct H as [[= _ E]|[[= _ E]|[[= _ E]|[[= _ E]|[]]]]]; rewrite <- E in Ht.
Qed.

Lemma terminal_rtc v v' c : rtc cstep v v' → v_case v = Some c → terminal_stage (IntakeCase.stage c) = true → v' = v.
Proof. destruct 1 as [|v1 v2 v3 H _]; [done|]. intros Hc Ht. by destruct (terminal_case_stuck _ _ _ Hc Ht H). Qed.

(** A draft that already has a revision can only be withdrawn. *)
Lemma stuck_draft_step v v' c r : cstep v v' → v_case v = Some c → IntakeCase.stage c = draft →
  IntakeCase.currentSubmissionRevisionId c = Some r →
  ∃ rn b at_, v_case v' = Some (set_withdrawn rn b at_ c).
Proof.
  intros Hs Hc Ht Hr. destruct Hs; simpl in Hc; simplify_eq;
    try (match goal with E : IntakeCase.stage c = _ |- _ => by rewrite E in Ht end).
  - destruct H as [[E _]|E]; by rewrite E in Ht.
  - simpl. eauto.
  - destruct H as [E|E]; by rewrite E in Ht.
  - rewrite list_elem_of_In in H. by destruct H as [[= _ E]|[[= _ E]|[[= _ E]|[[= _ E]|[]]]]]; rewrite <- E in Ht.
Qed.

Lemma stuck_draft_rtc v v' c r : rtc cstep v v' → v_case v = Some c → IntakeCase.stage c = draft →
  IntakeCase.currentSubmissionRevisionId c = Some r →
  ∃ c', v_case v' = Some c' ∧ (c' = c ∨ IntakeCase.stage c' = withdrawn).
Proof.
  intros H Hc Hst Hr. destruct H as [|v1 v2 v3 H1 H]; [eauto|].
  destruct (stuck_draft_step _ _ _ _ H1 Hc Hst Hr) as (rn & b & at_ & Hv2).
  rewrite (terminal_rtc _ _ _ H Hv2 eq_refl). eauto.
Qed.

Section WithUlid.
Context (ulid : nat → string) (jobId : nat → option string).
Notation istep := (istep ulid jobId).
Notation ireachable := (ireachable ulid jobId).

(** C5: Every step of the system - an intake transaction, a transaction on the documents of a case
    (as a whole, or only its writes where it reads without a lock), an offering step, a write of
    another module - is nothing or one step of the abstract case machine, for what the machine sees
    of every case: its columns but the event counter, its requests and its revisions.  The one-off
    command-line backfill of old events is not a step. *)
Theorem intake_refines_machine s s' k :
  ireachable s → istep s s' → case_view k s' = case_view k s ∨ cstep (case_view k s) (case_view k s').
Proof.
  intros R H. pose proof (ireachable_good _ _ _ R) as G. exact (istep_refines _ _ _ _ (proj1 G) (good_own _ G) H k).
Qed.

(** A case never disappears; its identity, property, applicant and creation time never change;
    its stage stays or moves along an edge of the workflow graph. *)
Theorem intake_stage_graph s s' k c :
  ireachable s → istep s s' → get_case k s = Some c →
  ∃ c', get_case k s' = Some c' ∧ same_identity c c' ∧
    (IntakeCase.stage c' = IntakeCase.stage c ∨ In (IntakeCase.stage c, IntakeCase.stage c') stage_edges).
Proof.
  intros R H Hc. pose proof (ireachable_good _ _ _ R) as G.
  assert (v_case (case_view k s) = Some (IntakeCase.set_sequence 0 c)) as Hv by (by rewrite view_case, Hc).
  destruct (istep_refines _ _ _ _ (proj1 G) (good_own _ G) H k) as [E|Hs].
  - rewrite <- E in Hv. apply view_case_some in Hv as (c' & Hc' & [= E1 E2 E3 E4 _ _ _ _ E5 _]).
    exists c'. unfold same_identity. split_and!; auto.
  - destruct (cstep_moves _ _ _ Hs Hv) as (v' & Hv' & Hid & Hst).
    apply view_case_some in Hv' as (c' & Hc' & ->). exists c'. by split_and!.
Qed.

(** A rejected, withdrawn or expired case is never written again: the row is the same but for
    the counter of the event ledger, and so are its requests and revisions. *)
Theorem terminal_cases_are_final s s' k c :
  ireachable s → rtc istep s s' → get_case k s = Some c → terminal_stage (IntakeCase.stage c) = true →
  case_view k s' = case_view k s.
Proof.
  intros R H Hc Ht. pose proof (ireachable_good _ _ _ R) as G.
  eapply (terminal_rtc _ _ (IntakeCase.set_sequence 0 c)); [by eapply isteps_view | by rewrite view_case, Hc | done].
Qed.

(** A case sent back to draft keeps the revision it was submitted with, and submission asks for
    a case without one: whatever happens next, the case stays as it is or is withdrawn. *)
Theorem returned_to_draft_is_stuck s s' k c r :
  ireachable s → rtc istep s s' → get_case k s = Some c → IntakeCase.stage c = draft →
  IntakeCase.currentSubmissionRevisionId c = Some r →
  ∃ c', get_case k s' = Some c' ∧
    (IntakeCase.set_sequence 0 c' = IntakeCase.set_sequence 0 c ∨ IntakeCase.stage c' = withdrawn).
Proof.
  intros R H Hc Hst Hr. pose proof (ireachable_good _ _ _ R) as G.
  destruct (stuck_draft_rtc _ _ (IntakeCase.set_sequence 0 c) r (isteps_view _ _ _ _ k G H)) as (v' & Hv & Hd);
    [by rewrite view_case, Hc | done..|].
  apply view_case_some in Hv as (c' & Hc' & ->). exists c'. by split.
Qed.

(** Exactly one information request of a case is open while it waits for the applicant, at most
    one if it was withdrawn, none otherwise. *)
Theorem one_open_information_request s k c :
  ireachable s → get_case k s = Some c →
  requests_match (IntakeCase.stage c)
    (length (List.filter (published_of_case k) (requests s))).
Proof.
  intros R Hc. pose proof (co_requests _ _ _ (good_case _ _ _ (ireachable_good _ _ _ R) Hc)) as H.
  unfold published_count, case_view in H. simpl in H.
  replace (length (List.filter (published_of_case k) (requests s))) with
    (length (List.filter (λ q, bool_decide (q.2 = published))
       (map request_view (List.filter (by_id InformationRequest.caseId k) (requests s))))); [done|].
  clear. induction (requests s) as [|r l IH]; [done|]. cbn [List.filter map].
  assert (published_of_case k r = by_id InformationRequest.caseId k r && is_published r) as -> by done.
  destruct (by_id InformationRequest.caseId k r); [|exact IH]. cbn [List.filter map andb].
  change (bool_decide ((request_view r).2 = published)) with (is_published r).
  destruct (is_published r); simpl; by rewrite IH.
Qed.

(** The revisions of a case are numbered 1, 2, ... in the order they were submitted, the case
    points to the last, and every case that is not a draft or withdrawn has one. *)
Theorem revisions_are_numbered s k c :
  ireachable s → get_case k s = Some c →
  let rs := List.filter (by_id Revision.caseId k) (revisions s) in
  map Revision.revisionNumber rs = upto (Z.of_nat (length rs)) ∧
  IntakeCase.currentSubmissionRevisionId c = Revision.id <$> last rs ∧
  (IntakeCase.stage c ≠ draft → IntakeCase.stage c ≠ withdrawn → rs ≠ []).
Proof.
  intros R Hc rs. destruct (good_case _ _ _ (ireachable_good _ _ _ R) Hc) as [_ _ Hn _ Hl Hs].
  simpl in *. fold rs in Hn, Hl, Hs. rewrite map_map, length_map in Hn. rewrite fmap_last in Hl.
  split_and!; [done| |].
  - rewrite Hl. by destruct (last rs).
  - intros H1 H2 E. rewrite E in Hs. by apply Hs.
Qed.

(** C39: The columns of a case agree with its stage: each closing timestamp is set exactly in its
    closing stage; in the stages after approval the approval time, the IPO deadline and a positive
    IPO value are set, and in the stages of review, before approval or after a correction has
    reopened it, all three are unset (the IPO period in days is not one of them: reopening leaves
    it); and a case approved for final offering has both partners' completions. *)
Theorem case_columns_match_stage s k c :
  ireachable s → get_case k s = Some c → columns_ok c.
Proof.
  intros R Hc. by destruct (co_columns _ _ _ (good_case _ _ _ (ireachable_good _ _ _ R) Hc)).
Qed.

(** C6: The ledger of a case is numbered 1 to [workflow_event_sequence] without a gap or a repeat,
    every event belongs to a case, no event key is used twice and no event is reversed twice. *)
Theorem event_ledger_is_complete s k c :
  ireachable s → get_case k s = Some c →
  map CaseEvent.eventSequence (events_of_case k (caseEvents s)) = upto (IntakeCase.workflowEventSequence c) ∧
  List.NoDup (map CaseEvent.eventKey (caseEvents s)) ∧
  List.NoDup (omap CaseEvent.reversalOfEventId (caseEvents s)) ∧
  ∀ e, In e (caseEvents s) → get_case (CaseEvent.caseId e) s ≠ None.
Proof.
  intros R Hc. pose proof (ireachable_good _ _ _ R) as [W _]. split_and!; [|apply W..|].
  - by apply (ok_numbers _ W), get_case_key.
  - intros e He Hn. pose proof (ok_event_case _ W e He) as Hin. rewrite case_keys in Hin.
    apply in_map_iff in Hin as (c' & E & Hc'). unfold get_case, find_case in Hn. rewrite find_row_None in Hn.
    specialize (Hn c' Hc'). unfold by_id in Hn. by boolify.
Qed.

(** The ledger is append-only. *)
Theorem event_ledger_grows s s' :
  rtc istep s s' → ∃ new, caseEvents s' = caseEvents s ++ new.
Proof.
  induction 1 as [s|s s1 s2 H1 _ (n2 & IH)]; [exists []; by rewrite app_nil_r|].
  destruct (adv_events _ _ _ (istep_advance _ _ _ _ H1)) as (n1 & E). exists (n1 ++ n2). by rewrite IH, E, app_assoc.
Qed.

(** Whatever intake does to the shared tables is a run of the offering machine: everything proved
    of reachable offering databases holds of the database under the intake module. *)
Theorem intake_runs_are_offering_runs s s' :
  OfferingSteps.reachable ulid (base s) → rtc istep s s' → OfferingSteps.reachable ulid (base s').
Proof.
  intros (a & k & c & w & H) Hs. exists a, k, c, w. etrans; [exact H|]. clear H.
  induction Hs as [|s s1 s2 H1 _ IH]; [done|]. etrans; [|exact IH].
  apply (adv_base _ _ _ (istep_advance _ _ _ _ H1)).
Qed.

(** ** Partners *)

Lemma legal_view i s d s' : recordLegalStructuring ulid i s = Ok (d, s') → d ≠ None →
  ∃ c, get_case (rl_caseId i) s = Some c ∧ IntakeCase.stage c = post_ipo_structuring ∧
    v_case (case_view (rl_caseId i) s') = Some ((legal_row i c).2 (IntakeCase.set_sequence 0 c)).
Proof.
  intros H Hd. unfold recordLegalStructuring, legal_row in H. cbv beta iota zeta in H. inv_tx H; [|done].
  boolify. eexists. split_and!; [done..|].
  apply audit_both_same in Htx2. apply event_same in Htx1. apply audit_same in Htx0.
  rewrite (same_view_eq _ _ _ Htx2), (same_view_eq _ _ _ Htx1), (same_view_eq _ _ _ Htx0).
  rewrite (case_update_view _ _ _ _ Htx) by (intros c; unfold set_completion; by destruct (_ && _)).
  unfold only. rewrite decide_True by done. unfold case_view. simpl. by rewrite E.
Qed.

Lemma appraisal_view i s d s' : recordAppraisal ulid i s = Ok (d, s') → d ≠ None →
  ∃ c cents, get_case (ra_caseId i) s = Some c ∧ IntakeCase.stage c = post_ipo_structuring ∧
    match ra_appraisalValueOpinionEur i with None => cents = None | Some v => ∃ n, toCents v = Ok n ∧ cents = Some n end ∧
    v_case (case_view (ra_caseId i) s') = Some ((appraisal_row i cents c).2 (IntakeCase.set_sequence 0 c)).
Proof.
  intros H Hd. unfold recordAppraisal, appraisal_row in H. cbv beta iota zeta in H. inv_tx H; [|done].
  assert (s0 = s ∧ match ra_appraisalValueOpinionEur i with None => a = None | Some v => ∃ n, toCents v = Ok n ∧ a = Some n end)
    as [-> Ha] by (destruct (ra_appraisalValueOpinionEur i); inv_tx Htx; eauto).
  boolify. eexists _, a. split_and!; [done..|].
  apply audit_both_same in Htx3. apply event_same in Htx2. apply audit_same in Htx1.
  rewrite (same_view_eq _ _ _ Htx3), (same_view_eq _ _ _ Htx2), (same_view_eq _ _ _ Htx1).
  rewrite (case_update_view _ _ _ _ Htx0) by (intros c; unfold set_completion; by destruct (_ && _)).
  unfold only. rewrite decide_True by done. unfold case_view. simpl. by rewrite E.
Qed.

(** What the two partners have written: everything but the times of the last touch. *)
Definition writeback (c : IntakeCase.t) :=
  let p := IntakeCase.partner c in
  (IntakeCase.stage c, IntakeCase.legalDocumentRefs p, IntakeCase.legalStructuringCompletedAt p,
   IntakeCase.appraisalValueOpinionEur p, IntakeCase.appraisalDocumentRefs p, IntakeCase.appraisalCompletedAt p).

Lemma writeback_completion both at_ p c : writeback (set_completion both at_ p c) =
  (if both then approved_for_final_offering else IntakeCase.stage c, IntakeCase.legalDocumentRefs p,
   IntakeCase.legalStructuringCompletedAt p, IntakeCase.appraisalValueOpinionEur p, IntakeCase.appraisalDocumentRefs p,
   IntakeCase.appraisalCompletedAt p).
Proof. by destruct both. Qed.

(** A writeback that does not move the stage leaves exactly its own columns. *)
Lemma completion_pending both at_ p c : IntakeCase.stage (set_completion both at_ p c) = post_ipo_structuring →
  IntakeCase.partner (set_completion both at_ p c) = p.
Proof. by destruct both. Qed.

(** The two partners may finish in either order: the stage and both partners' columns end the
    same, the case moving on as the second of them completes. *)
Theorem partner_writebacks_commute l a s d1 s1 d2 s2 d3 s3 d4 s4 :
  rl_caseId l = ra_caseId a →
  recordLegalStructuring ulid l s = Ok (Some d1, s1) → recordAppraisal ulid a s1 = Ok (Some d2, s2) →
  recordAppraisal ulid a s = Ok (Some d3, s3) → recordLegalStructuring ulid l s3 = Ok (Some d4, s4) →
  writeback <$> get_case (rl_caseId l) s2 = writeback <$> get_case (rl_caseId l) s4.
Proof.
  intros Ek H1 H2 H3 H4.
  destruct (legal_view _ _ _ _ H1) as (c & Hc & _ & V1); [done|].
  destruct (appraisal_view _ _ _ _ H2) as (c1 & n1 & Hc1 & Hst1 & Hn1 & V2); [done|].
  destruct (appraisal_view _ _ _ _ H3) as (c0 & n3 & Hc3 & _ & Hn3 & V3); [done|].
  destruct (legal_view _ _ _ _ H4) as (c4 & Hc4 & Hst4 & V4); [done|].
  rewrite <- Ek in *. assert (c0 = c) as -> by congruence.
  assert (n3 = n1) as -> by (destruct (ra_appraisalValueOpinionEur a);
    [destruct Hn1 as (? & ? & ->), Hn3 as (? & ? & ->)|]; congruence).
  apply view_case_some in V2 as (x2 & -> & E2). apply view_case_some in V4 as (x4 & -> & E4). simpl. f_equal.
  change (writeback (IntakeCase.set_sequence 0 x2) = writeback (IntakeCase.set_sequence 0 x4)). rewrite <- E2, <- E4.
  rewrite view_case, Hc1 in V1. injection V1 as V1. rewrite view_case, Hc4 in V3. injection V3 as V3.
  assert (IntakeCase.partner c1 = IntakeCase.partner (IntakeCase.set_sequence 0 c1)) as P1 by done.
  assert (IntakeCase.partner c4 = IntakeCase.partner (IntakeCase.set_sequence 0 c4)) as P4 by done.
  rewrite V1 in P1. rewrite V3 in P4. unfold legal_row, appraisal_row in *. cbn [fst snd] in *.
  rewrite completion_pending in P1 by (rewrite <- V1; exact Hst1).
  rewrite completion_pending in P4 by (rewrite <- V3; exact Hst4).
  rewrite !writeback_completion, P1, P4. change (IntakeCase.stage (IntakeCase.set_sequence 0 c1)) with (IntakeCase.stage c1).
  change (IntakeCase.stage (IntakeCase.set_sequence 0 c4)) with (IntakeCase.stage c4). rewrite Hst1, Hst4.
  change (IntakeCase.partner (IntakeCase.set_sequence 0 c1)) with (IntakeCase.partner c1). rewrite P1.
  change (IntakeCase.partner (IntakeCase.set_sequence 0 c4)) with (IntakeCase.partner c4). rewrite P4. simpl.
  reflexivity.
Qed.

(** ** Closing *)

Definition same_offerings (s s' : intake) : Prop := offerings (base s') = offerings (base s).
#[global] Instance same_offerings_pre : PreOrder same_offerings.
Proof. split; [by intros s | intros s1 s2 s3; unfold same_offerings; congruence]. Qed.

Lemma audit_offerings a act k ch t : tx_rel same_offerings (audit ulid a act k ch t).
Proof.
  unfold audit. walk_tx; [|by apply tx_rel_write]. intros s x s' [_ ->]%fresh_id_ok. done.
Qed.

Lemma event_offerings i : tx_rel same_offerings (event ulid i).
Proof.
  unfold event, appendIntakeCaseEvent. walk_tx;
    intros s0 x s' (c & _ & _ & Hb & _)%append_wf; unfold same_offerings; by rewrite Hb.
Qed.

(** Closing a case ends it - nothing else, the handoff of its offering included, can move it
    again - but leaves every offering as it was: an offering opened for the case stays open for
    reservations, and publishing its final terms queues a handoff that can only throw. *)
Theorem closing_leaves_offering_open i s r s' tr t :
  closeCase ulid i s = Ok (Some r, s') →
  offerings (base s') = offerings (base s) ∧
  ∃ e, transitionToPostIpoStructuring ulid (cc_caseId i) tr t s' = Err e.
Proof.
  intros H. assert (∃ a, a = Some r) as (a & Ea) by eauto. rewrite <- Ea in H.
  unfold closeCase in H. inv_tx H; [|done]. boolify.
  pose proof (audit_same _ _ _ _ _ _ _ _ _ Htx0) as A1. pose proof (event_same _ _ _ _ _ Htx1) as A2.
  split.
  - apply event_offerings in Htx1. apply audit_offerings in Htx0. rewrite Htx1, Htx0.
    unfold case_update in Htx. inv_ok Htx. by injection Htx as <-.
  - assert (v_case (case_view (cc_caseId i) s2) = Some (close_row i (IntakeCase.set_sequence 0 t0))) as Hv.
    { rewrite (same_view_eq _ _ _ A2), (same_view_eq _ _ _ A1).
      rewrite (case_update_view _ _ _ _ Htx) by (unfold close_row; by destruct (cc_outcome i)).
      unfold only. rewrite decide_True by done. unfold case_view. simpl. by rewrite E. }
    apply view_case_some in Hv as (c' & Hc' & Ec). unfold transitionToPostIpoStructuring, tbind, tread. rewrite Hc'.
    assert (IntakeCase.stage c' = closure_stage (cc_outcome i)) as ->.
    { change (IntakeCase.stage (IntakeCase.set_sequence 0 c') = closure_stage (cc_outcome i)). rewrite <- Ec.
      unfold close_row. by destruct (cc_outcome i). }
    destruct (cc_outcome i); by eexists.
Qed.

(** ** The offering module never writes a case *)

(** The transactions of the offering module, as they act on the shared tables. *)
Inductive offering_transaction (s s' : db) : Prop :=
  | ot_open i a : OfferingRepo.openOfferingForApprovedCase ulid i s = Ok (a, s') → offering_transaction s s'
  | ot_create i a : OfferingRepo.createReservation ulid i s = Ok (a, s') → offering_transaction s s'
  | ot_money i a : OfferingRepo.recordMoneyEvent ulid i s = Ok (a, s') → offering_transaction s s'
  | ot_expire k tr t a : OfferingRepo.expireReservation ulid k tr t s = Ok (a, s') → offering_transaction s s'
  | ot_publish i a : OfferingRepo.publishFinalOfferingTerms ulid i s = Ok (a, s') → offering_transaction s s'
  | ot_reconfirm k b tr t a : OfferingRepo.reconfirmReservation ulid k b tr t s = Ok (a, s') → offering_transaction s s'
  | ot_commit k tr t a : OfferingRepo.commitOfferingFinalization ulid k tr t s = Ok (a, s') → offering_transaction s s'
  | ot_classify i a : OfferingRepo.classifyMateriality ulid i s = Ok (a, s') → offering_transaction s s'
  | ot_pack i a : OfferingRepo.publishDisclosurePack ulid i s = Ok (a, s') → offering_transaction s s'.

Lemma commit_loop_cases t p rows : ∀ s n m s', OfferingRepo.commit_loop ulid t p rows s = Ok (n, m, s') → cases s' = cases s.
Proof.
  induction rows as [|[r w] rows IH]; intros s n m s' H; simpl in H; [by injection H as <- <- <-|].
  inv_ok H; destruct_and?; repeat match goal with p : _ * _ |- _ => destruct p end; simplify_eq;
    repeat match goal with
    | E : OfferingRepo.commit_loop _ _ _ _ _ = _ |- _ => apply IH in E; rewrite E; clear E
    | E : position_create _ _ = Ok _ |- _ => apply OfferingFacts.position_create_inv in E as (-> & ? & ?)
    | E : money_event_create _ _ = Ok _ |- _ => apply OfferingFacts.money_event_create_inv in E as (-> & ? & ? & ?)
    end; done.
Qed.

Lemma new_documents_cases docs : ∀ s ds s', OfferingRepo.new_documents ulid docs s = (ds, s') → cases s' = cases s.
Proof.
  induction docs as [|[ty ref] docs IH]; intros s ds s' H; simpl in H; [by injection H as <- <-|].
  destruct (OfferingRepo.new_documents ulid docs _) as [rest s1] eqn:E. injection H as <- <-. by apply IH in E.
Qed.

Lemma offering_transaction_cases s s' : offering_transaction s s' → cases s' = cases s.
Proof.
  destruct 1 as [i a H|i a H|i a H|k tr t a H|i a H|k b tr t a H|k tr t a H|i a H|i a H].
  - unfold OfferingRepo.openOfferingForApprovedCase in H. cbn [fresh] in H.
    inv_ok H; simplify_eq; OfferingFacts.inv_creates; by simplify_eq.
  - unfold OfferingRepo.createReservation in H. cbn [fresh] in H.
    inv_ok H; simplify_eq; OfferingFacts.inv_creates; by simplify_eq.
  - unfold OfferingRepo.recordMoneyEvent in H. cbn [fresh] in H.
    inv_ok H; simplify_eq; OfferingFacts.inv_creates; by simplify_eq.
  - unfold OfferingRepo.expireReservation in H. cbn [fresh] in H.
    inv_ok H; simplify_eq; OfferingFacts.inv_creates; by simplify_eq.
  - unfold OfferingRepo.publishFinalOfferingTerms in H. cbn [fresh] in H.
    inv_ok H; simplify_eq; try done;
      match goal with E : OfferingRepo.publish_loop _ _ _ _ = _ |- _ =>
        apply OfferingFacts.publish_loop_ok in E as ((_ & _ & Hc & _) & _) end; by destruct (bool_decide (_ = [])).
  - unfold OfferingRepo.reconfirmReservation in H. cbn [fresh] in H. inv_ok H; by simplify_eq.
  - unfold OfferingRepo.commitOfferingFinalization in H. cbn [fresh] in H.
    inv_ok H; simplify_eq; try done;
      match goal with E : OfferingRepo.commit_loop _ _ _ _ _ = _ |- _ => by apply commit_loop_cases in E end.
  - unfold OfferingRepo.classifyMateriality in H. cbn [fresh] in H.
    inv_ok H; simplify_eq; try done;
      destruct (OfferingPolicy.materialityResetTriggered _); simplify_eq; simpl; by rewrite ?OfferingFacts.reset_loop_eq.
  - unfold OfferingRepo.publishDisclosurePack in H. cbn [fresh] in H.
    inv_ok H; simplify_eq; try done; OfferingFacts.inv_creates; simpl;
      match goal with E : OfferingRepo.new_documents _ _ _ = _ |- _ => apply new_documents_cases in E; rewrite E end;
      by destruct (OfferingRepo.max_version _).
Qed.

(** Every transaction of the offering module is a step of the whole system. *)
Lemma offering_transaction_step s b : offering_transaction (base s) b → istep s (set_base b s).
Proof.
  intros H. eapply is_offering; [|by apply offering_transaction_cases|done].
  destruct H; [by eapply OfferingSteps.st_open|by eapply OfferingSteps.st_create| |by eapply OfferingSteps.st_expire
    |by eapply OfferingSteps.st_publish|by eapply OfferingSteps.st_reconfirm|by eapply OfferingSteps.st_commit
    |by eapply OfferingSteps.st_classify|by eapply OfferingSteps.st_pack].
  destruct a. by eapply OfferingSteps.st_money.
Qed.

End WithUlid.
(** ** Instances *)

Notation demo := (ireachable IntakeDemo.ulid IntakeDemo.jobId).

Lemma intake_refines_machine_witness :
  demo IntakeDemo.i3 ∧
  (case_view "case_1" IntakeDemo.i4 = case_view "case_1" IntakeDemo.i3 ∨
   cstep (case_view "case_1" IntakeDemo.i3) (case_view "case_1" IntakeDemo.i4)).
Proof.
  split; [exact IntakeDemo.reach_i3|].
  exact (intake_refines_machine _ _ _ _ "case_1" IntakeDemo.reach_i3 IntakeDemo.step_i4).
Defined.

Definition row (k : string) (s : intake) : IntakeCase.t :=
  default (IntakeCase.created "" "" "" 0) (get_case k s).

Lemma intake_stage_graph_witness :
  demo IntakeDemo.i8 ∧ IntakeCase.stage (row "case_1" IntakeDemo.i8) = post_ipo_structuring ∧
  ∃ c', get_case "case_1" IntakeDemo.i9 = Some c' ∧ same_identity (row "case_1" IntakeDemo.i8) c' ∧
    (IntakeCase.stage c' = IntakeCase.stage (row "case_1" IntakeDemo.i8) ∨
     In (IntakeCase.stage (row "case_1" IntakeDemo.i8), IntakeCase.stage c') stage_edges).
Proof.
  split; [exact IntakeDemo.reach_i8|]. split; [vm_compute; reflexivity|].
  apply (intake_stage_graph _ _ _ _ "case_1" (row "case_1" IntakeDemo.i8) IntakeDemo.reach_i8 IntakeDemo.step_i9).
  vm_compute. reflexivity.
Defined.

Lemma terminal_cases_are_final_witness :
  demo IntakeDemo.w4 ∧ IntakeCase.stage (row "case_1" IntakeDemo.w4) = withdrawn ∧
  case_view "case_1" IntakeDemo.w4 = case_view "case_1" IntakeDemo.w4.
Proof.
  split; [exact IntakeDemo.reach_w4|]. split; [vm_compute; reflexivity|].
  apply (terminal_cases_are_final _ _ _ _ "case_1" (row "case_1" IntakeDemo.w4) IntakeDemo.reach_w4 (rtc_refl _ _));
    vm_compute; reflexivity.
Defined.

Lemma returned_to_draft_is_stuck_witness :
  demo IntakeDemo.b4 ∧ IntakeCase.stage (row "case_1" IntakeDemo.b4) = draft ∧
  ∃ c', get_case "case_1" IntakeDemo.b4 = Some c' ∧
    (IntakeCase.set_sequence 0 c' = IntakeCase.set_sequence 0 (row "case_1" IntakeDemo.b4) ∨ IntakeCase.stage c' = withdrawn).
Proof.
  split; [exact IntakeDemo.reach_b4|]. split; [vm_compute; reflexivity|].
  apply (returned_to_draft_is_stuck _ _ _ _ "case_1" (row "case_1" IntakeDemo.b4) "rev_5" IntakeDemo.reach_b4 (rtc_refl _ _));
    vm_compute; reflexivity.
Defined.

Lemma one_open_information_request_witness :
  demo IntakeDemo.i3 ∧ length (List.filter (published_of_case "case_1") (requests IntakeDemo.i3)) = 1%nat.
Proof.
  split; [exact IntakeDemo.reach_i3|].
  apply (one_open_information_request _ _ _ "case_1" (row "case_1" IntakeDemo.i3) IntakeDemo.reach_i3).
  vm_compute. reflexivity.
Defined.

Lemma revisions_are_numbered_witness :
  demo IntakeDemo.i5 ∧
  map Revision.revisionNumber (List.filter (by_id Revision.caseId "case_1") (revisions IntakeDemo.i5)) = [1; 2] ∧
  let rs := List.filter (by_id Revision.caseId "case_1") (revisions IntakeDemo.i5) in
  map Revision.revisionNumber rs = upto (Z.of_nat (length rs)) ∧
  IntakeCase.currentSubmissionRevisionId (row "case_1" IntakeDemo.i5) = Revision.id <$> last rs ∧
  (IntakeCase.stage (row "case_1" IntakeDemo.i5) ≠ draft → IntakeCase.stage (row "case_1" IntakeDemo.i5) ≠ withdrawn → rs ≠ []).
Proof.
  split; [exact IntakeDemo.reach_i5|]. split; [vm_compute; reflexivity|].
  apply (revisions_are_numbered _ _ _ "case_1" (row "case_1" IntakeDemo.i5) IntakeDemo.reach_i5).
  vm_compute. reflexivity.
Defined.

Lemma case_columns_match_stage_witness : demo IntakeDemo.w4 ∧ columns_ok (row "case_1" IntakeDemo.w4).
Proof.
  split; [exact IntakeDemo.reach_w4|].
  apply (case_columns_match_stage _ _ _ "case_1" (row "case_1" IntakeDemo.w4) IntakeDemo.reach_w4).
  vm_compute. reflexivity.
Defined.

Lemma event_ledger_is_complete_witness :
  demo IntakeDemo.o9 ∧ IntakeCase.workflowEventSequence (row "case_1" IntakeDemo.o9) = 8 ∧
  map CaseEvent.eventSequence (events_of_case "case_1" (caseEvents IntakeDemo.o9)) =
    upto (IntakeCase.workflowEventSequence (row "case_1" IntakeDemo.o9)) ∧
  List.NoDup (map CaseEvent.eventKey (caseEvents IntakeDemo.o9)) ∧
  List.NoDup (omap CaseEvent.reversalOfEventId (caseEvents IntakeDemo.o9)) ∧
  ∀ e, In e (caseEvents IntakeDemo.o9) → get_case (CaseEvent.caseId e) IntakeDemo.o9 ≠ None.
Proof.
  split; [exact IntakeDemo.reach_o9|]. split; [vm_compute; reflexivity|].
  apply (event_ledger_is_complete _ _ _ "case_1" (row "case_1" IntakeDemo.o9) IntakeDemo.reach_o9).
  vm_compute. reflexivity.
Defined.

Lemma event_ledger_grows_witness :
  ∃ new, caseEvents IntakeDemo.i4 = caseEvents IntakeDemo.i3 ++ new.
Proof. exact (event_ledger_grows _ _ _ _ (rtc_once _ _ IntakeDemo.step_i4)). Defined.

Lemma intake_runs_are_offering_runs_witness :
  OfferingSteps.reachable IntakeDemo.ulid (base IntakeDemo.i0) ∧ OfferingSteps.reachable IntakeDemo.ulid (base IntakeDemo.i1).
Proof.
  assert (OfferingSteps.reachable IntakeDemo.ulid (base IntakeDemo.i0)) as H by (eexists _, _, _, _; apply rtc_refl).
  split; [exact H|].
  exact (intake_runs_are_offering_runs _ _ _ _ H (rtc_once _ _ IntakeDemo.step_i1)).
Defined.

Lemma partner_writebacks_commute_witness :
  let l := IntakeDemo.legal_input in
  let a := IntakeDemo.appraisal_input in
  let other := IntakeDemo.irun (recordAppraisal IntakeDemo.ulid a) IntakeDemo.i7 in
  IntakeCase.stage (row "case_1" IntakeDemo.i9) = approved_for_final_offering ∧
  writeback <$> get_case (rl_caseId l) IntakeDemo.i9 =
    writeback <$> get_case (rl_caseId l) (IntakeDemo.irun (recordLegalStructuring IntakeDemo.ulid l) other).
Proof.
  intros l a other. split; [vm_compute; reflexivity|].
  destruct (IntakeDemo.irun_some (recordLegalStructuring IntakeDemo.ulid l) IntakeDemo.i7 ltac:(vm_compute; reflexivity)) as [d1 H1].
  destruct (IntakeDemo.irun_some (recordAppraisal IntakeDemo.ulid a) IntakeDemo.i8 ltac:(vm_compute; reflexivity)) as [d2 H2].
  destruct (IntakeDemo.irun_some (recordAppraisal IntakeDemo.ulid a) IntakeDemo.i7 ltac:(vm_compute; reflexivity)) as [d3 H3].
  destruct (IntakeDemo.irun_some (recordLegalStructuring IntakeDemo.ulid l) other ltac:(vm_compute; reflexivity)) as [d4 H4].
  exact (partner_writebacks_commute IntakeDemo.ulid l a IntakeDemo.i7 d1 IntakeDemo.i8 d2 IntakeDemo.i9 d3 other d4
    (IntakeDemo.irun (recordLegalStructuring IntakeDemo.ulid l) other) eq_refl H1 H2 H3 H4).
Defined.

Lemma closing_leaves_offering_open_witness :
  map Offering.status (offerings (base IntakeDemo.o6)) = [Db.pre_offering] ∧
  offerings (base IntakeDemo.x7) = offerings (base IntakeDemo.o6) ∧
  ∃ e, transitionToPostIpoStructuring IntakeDemo.ulid "case_1" "trace" 9000 IntakeDemo.x7 = Err e.
Proof.
  split; [vm_compute; reflexivity|].
  destruct (IntakeDemo.irun_some (closeCase IntakeDemo.ulid (IntakeDemo.withdraw_input 7000)) IntakeDemo.o6
    ltac:(vm_compute; reflexivity)) as [r H].
  exact (closing_leaves_offering_open IntakeDemo.ulid (IntakeDemo.withdraw_input 7000) IntakeDemo.o6 r IntakeDemo.x7 "trace" 9000 H).
Defined.

End IntakeProps.
