(* ===== verification/IntakeOps.v ===== *)
(** Reversal operations: who may approve one, what its execution can do, and the command the
    policy offers and no executor carries out. *)

From S2P Require Import Prelude JsString Currency DateTime IntakePolicy Db OfferingPolicy OfferingRepo OfferingInv IntakeDb IntakeRepo IntakeReversal IntakeLedger IntakeMachine IntakeInv IntakeDemo.

Module IntakeOps.
Import IntakePolicy IntakeDb IntakeRepo IntakeReversal IntakeLedger IntakeMachine IntakeInv.

(** ** Who wrote the operations *)

Definition same_operations (s s' : intake) : Prop := operations s' = operations s.
#[global] Instance same_operations_pre : PreOrder same_operations.
Proof. split; [by intros s | intros s1 s2 s3; unfold same_operations; congruence]. Qed.

Section WithUlid.
Context (ulid : nat → string) (jobId : nat → option string).

Ltac ops_prim :=
  first [ by apply tx_rel_write
        | apply tx_rel_prim; let H := fresh in intros ? ? H;
          unfold property_create, room_create, case_create, case_update, revision_create, evidence_create,
            evidence_update, request_create, request_update, thread_create, message_create, event_create, DocumentTx.document_create in H;
          inv_ok H; by injection H as <- ].
Ltac ops := walk_tx; try ops_prim.

Lemma fresh_id_ops p : tx_rel same_operations (fresh_id ulid p).
Proof. intros s a s' [_ ->]%fresh_id_ok. done. Qed.
#[local] Hint Resolve fresh_id_ops : vista.
Lemma audit_ops a act k ch t : tx_rel same_operations (audit ulid a act k ch t).
Proof. unfold audit. ops. Qed.
Lemma event_ops i : tx_rel same_operations (event ulid i).
Proof. unfold event, appendIntakeCaseEvent, appendWithWorkflow, next_sequence. ops. Qed.
Lemma enqueue_ops q d tr : tx_rel same_operations (enqueue jobId q d tr).
Proof. unfold enqueue. ops. Qed.
Lemma suspend_ops c o : tx_rel same_operations (suspend_offering c o).
Proof. unfold suspend_offering. ops. Qed.
#[local] Hint Resolve audit_ops event_ops enqueue_ops suspend_ops : vista.
Lemma create_evidence_ops k r d t : tx_rel same_operations (create_evidence ulid k r d t).
Proof. unfold create_evidence. ops. Qed.
Lemma create_property_ops k p la lo : tx_rel same_operations (create_property ulid k p la lo).
Proof. unfold create_property. ops. Qed.
Lemma audit_both_ops b k tr t : tx_rel same_operations (audit_both_complete ulid b k tr t).
Proof. unfold audit_both_complete. ops. Qed.
#[local] Hint Resolve create_evidence_ops create_property_ops audit_both_ops : vista.

(** The steps that write an operation; no other does. *)
Inductive writes_operations (s s' : intake) : Prop :=
  | wo_none : operations s' = operations s → writes_operations s s'
  | wo_request r snap cmd action t o :
      getReversalAction snap cmd = Some action →
      insertReversalOperation ulid (reversal_request r snap cmd action) t s = Ok (o, s') → writes_operations s s'
  | wo_claim k a t b : claimApproval k a t s = Ok (b, s') → writes_operations s s'
  | wo_run i o : runReversalExecution ulid i s = Ok (o, s') → writes_operations s s'
  | wo_record i u : recordExecutionError ulid i s = Ok (u, s') → writes_operations s s'.

Lemma istep_operations s s' : istep ulid jobId s s' → writes_operations s s'.
Proof.
  assert (∀ A (t : txn intake A) a, t s = Ok (a, s') → tx_rel same_operations t → writes_operations s s') as Q.
  { intros A t a H Ht. apply wo_none. exact (Ht _ _ _ H). }
  destruct 1; try (eapply Q; [eassumption|];
    unfold createDraftIntake, createStaffCase, submitInitialCase, publishInformationRequest, expireInformationRequest,
      withdrawInformationRequest, resubmitAfterInformationRequest, recordFounderDecision, reviewEvidence, closeCase,
      assignPartnerOrganization, transitionToPostIpoStructuring, recordLegalStructuring, recordAppraisal,
      postCaseMessage, legal_row, appraisal_row, DocumentTx.accept_tx, DocumentTx.represent_write, DocumentTx.delete_write,
      DocumentTx.room_write; cbv beta iota zeta; by ops).
  - by eapply wo_request.
  - by eapply wo_claim.
  - by eapply wo_run.
  - by eapply wo_record.
  - subst. by apply wo_none.
  - apply wo_none. by destruct H.
Qed.

(** ** The two-person rule *)

(** the commands whose action asks for a second approval *)
Definition needs_second (command : string) : bool :=
  existsb (λ m, bool_decide (command_text m.1.1.1 = command) && m.2) moves_back.

Lemma needs_second_move cmd from_ to_ b : In (cmd, from_, to_, b) moves_back → needs_second (command_text cmd) = b.
Proof. intros [[= <- <- <- <-]|[[= <- <- <- <-]|[[= <- <- <- <-]|[[= <- <- <- <-]|[[= <- <- <- <-]|[]]]]]]; done. Qed.

Definition authorised (o : Operation.t) : Prop :=
  needs_second (Operation.command o) = false ∨
  ∃ b, Operation.approvedByAccountId o = Some b ∧ b ≠ Operation.requestedByAccountId o.

Definition operation_ok (o : Operation.t) : Prop :=
  Operation.status o ∈ [pending_approval; failed; cancelled] ∨ authorised o.

Definition operations_ok (s : intake) : Prop := ∀ o, In o (operations s) → operation_ok o.

Lemma update_operations_ok p f s : operations_ok s →
  (∀ o, In o (operations s) → p o = true → operation_ok (f o)) → operations_ok (update_operations p f s).
Proof.
  intros H Hf o Ho. apply in_update_where in Ho as (o0 & Hin & ->). destruct (p o0) eqn:E; auto.
Qed.

Lemma fail_ok c d t o : operation_ok (Operation.fail c d t o).
Proof. left. rewrite list_elem_of_In. simpl. tauto. Qed.

Lemma same_operations_ok s s' : same_operations s s' → operations_ok s → operations_ok s'.
Proof. unfold same_operations, operations_ok. by intros ->. Qed.

Lemma failReversal_ok o a t c d s r s' :
  failReversalOperation ulid o a t c d s = Ok (r, s') → operations_ok s → operations_ok s'.
Proof.
  unfold failReversalOperation. intros H Hs. inv_tx H; try done;
    (eapply same_operations_ok; [eapply audit_ops; eassumption|]; apply update_operations_ok; [done|]; intros; apply fail_ok).
Qed.

Lemma insertReversal_ok r snap cmd action t o s s' : getReversalAction snap cmd = Some action →
  insertReversalOperation ulid (reversal_request r snap cmd action) t s = Ok (o, s') → operations_ok s → operations_ok s'.
Proof.
  intros Ha H Hs. unfold insertReversalOperation in H. inv_tx H; try done.
  eapply same_operations_ok; [eapply event_ops; eassumption|]. eapply same_operations_ok; [eapply audit_ops; eassumption|].
  apply fresh_id_ops in Htx. unfold operation_create in Htx0. inv_ok Htx0. injection Htx0 as <-.
  intros q Hq. simpl in Hq. apply in_app_iff in Hq as [Hq|[<-|[]]]; [by apply Hs; rewrite <- Htx|].
  apply reversal_action_move, needs_second_move in Ha. unfold operation_ok, authorised. simpl.
  rewrite Ha. destruct (requiresSecondApproval action); [left|by right; left]. rewrite list_elem_of_In. simpl. tauto.
Qed.

Lemma claimApproval_ok k a t b s s' : claimApproval k a t s = Ok (b, s') → operations_ok s → operations_ok s'.
Proof.
  unfold claimApproval. intros H Hs. inv_tx H; try done. apply update_operations_ok; [done|].
  intros o Ho Hp. unfold approvable in Hp. boolify. right. right. exists a. by split.
Qed.

Lemma runnable_authorised s o : operations_ok s → In o (operations s) → Operation.status o ∈ [requested; approved] →
  authorised o.
Proof.
  intros Hs Ho Hst. destruct (Hs o Ho) as [H|H]; [|done]. rewrite list_elem_of_In in *.
  destruct Hst as [E|[E|[]]]; rewrite <- E in H; by destruct H as [|[|[|[]]]].
Qed.

Lemma unique_operation s o o' : wf s → In o (operations s) → In o' (operations s) →
  Operation.id o = Operation.id o' → o = o'.
Proof. intros W. apply NoDup_map_inj_in. apply (ok_operations _ W). Qed.

Lemma start_ok s o t : wf s → operations_ok s → In o (operations s) → Operation.status o ∈ [requested; approved] →
  let s1 := update_operations (by_id Operation.id (Operation.id o)) (Operation.start t) s in
  operations_ok s1 ∧ ∀ q, In q (operations s1) → Operation.id q = Operation.id o → authorised q.
Proof.
  intros W Hs Ho Hst s1. pose proof (runnable_authorised _ _ Hs Ho Hst) as Ha. split.
  - apply update_operations_ok; [done|]. intros q Hq Hid. unfold by_id in Hid. boolify.
    rewrite (unique_operation _ _ _ W Hq Ho Hid). by right.
  - intros q Hq Hid. apply in_update_where in Hq as (q0 & Hq0 & ->). unfold by_id in *.
    case_bool_decide as E; [by rewrite (unique_operation _ _ _ W Hq0 Ho E)|done].
Qed.

Lemma runReversalExecution_ok i s r s' : wf s → runReversalExecution ulid i s = Ok (r, s') → operations_ok s → operations_ok s'.
Proof.
  intros W H Hs. unfold runReversalExecution in H. inv_tx H; try done; try (by eapply failReversal_ok).
  all: apply find_operation_in in E as (Hin & Hid & Hk); boolify;
    match goal with Hst : Operation.status _ ∈ _ |- _ =>
      destruct (start_ok _ _ (ex_completedAt i) W Hs Hin Hst) as [Hs1 Hau] end.
  - assert (operations s3 = operations (update_operations (by_id Operation.id (Operation.id t)) (Operation.start (ex_completedAt i)) s)) as Eo.
    { apply event_ops in Htx2. apply audit_ops in Htx1. apply suspend_ops in Htx.
      unfold case_update in Htx0. inv_ok Htx0. injection Htx0 as <-. unfold same_operations in *. simpl in *. congruence. }
    apply update_operations_ok.
    + intros q. rewrite Eo. apply Hs1.
    + intros q. rewrite Eo. unfold by_id. intros Hq Hid'. boolify. by right; apply (Hau q).
  - by eapply failReversal_ok.
Qed.

Lemma istep_operations_ok s s' : good s → istep ulid jobId s s' → operations_ok s → operations_ok s'.
Proof.
  intros [W _] H Hs. destruct (istep_operations _ _ H) as [E|r snap cmd action t o Ha Hi|k a t b Hc|i o Hr|i u Hr].
  - by eapply same_operations_ok.
  - by eapply insertReversal_ok.
  - by eapply claimApproval_ok.
  - by eapply runReversalExecution_ok.
  - unfold recordExecutionError in Hr. inv_tx Hr; try done. by eapply failReversal_ok.
Qed.

Lemma ireachable_operations s : ireachable ulid jobId s → operations_ok s.
Proof.
  intros (s0 & H0 & H). assert (good s0 ∧ operations_ok s0) as Hg.
  { split; [by apply no_cases_good|]. intros o Ho. by rewrite (nc_operations _ H0) in Ho. }
  clear H0. induction H as [|s1 s2 s3 H1 _ IH]; [apply Hg|]. apply IH.
  destruct Hg. split; [by eapply istep_good | by eapply istep_operations_ok].
Qed.

(** C26: A correction that needs a second approval is approved, executed or completed only with the
    approval of an account other than the one that requested it. *)
Theorem two_person_corrections s o :
  ireachable ulid jobId s → In o (operations s) → needs_second (Operation.command o) = true →
  Operation.status o ∈ [approved; executing; completed] →
  ∃ approver, Operation.approvedByAccountId o = Some approver ∧ approver ≠ Operation.requestedByAccountId o.
Proof.
  intros R Ho Hn Hst. destruct (ireachable_operations _ R o Ho) as [H|[H|H]]; [|congruence|done].
  rewrite list_elem_of_In in *. destruct Hst as [E|[E|[E|[]]]]; rewrite <- E in H; by destruct H as [|[|[|[]]]].
Qed.

(** ** The command without an executor *)

Lemma failed_update o s c d t : wf s → In o (operations s) → failable (Operation.id o) o = true →
  ∃ o', find_row (by_id Operation.id (Operation.id o))
          (operations (update_operations (failable (Operation.id o)) (Operation.fail c d t) s)) = Some o' ∧
    Operation.status o' = failed ∧ Operation.failureCode o' = Some c.
Proof.
  intros W Ho Hf. simpl. rewrite find_row_update_where by done.
  destruct (find_row _ (operations s)) as [q|] eqn:E.
  - apply find_row_Some in E as [Hq Hid]. unfold by_id in Hid. boolify.
    rewrite (unique_operation _ _ _ W Hq Ho Hid). simpl. rewrite Hf. eauto.
  - rewrite find_row_None in E. specialize (E o Ho). by rewrite by_id_eq in E.
Qed.

Lemma failReversal_fails o q a t c d s r s' : wf s → In q (operations s) → Operation.id q = Operation.id o →
  failable (Operation.id o) q = true → failReversalOperation ulid o a t c d s = Ok (r, s') →
  ∃ o', r = Some o' ∧ Operation.status o' = failed ∧ Operation.failureCode o' = Some c.
Proof.
  intros W Hq Hid Hf H. unfold failReversalOperation in H. inv_tx H.
  - boolify. rewrite exists_row_false in E. by rewrite (E q Hq) in Hf.
  - apply audit_ops in Htx. rewrite Htx in E0. rewrite <- Hid in *.
    destruct (failed_update q s c d t W Hq Hf) as (o' & E' & Hst & Hc).
    rewrite E0 in E'. injection E' as <-. eauto.
Qed.

Lemma requested_failable o : Operation.status o = requested → failable (Operation.id o) o = true.
Proof. intros E. unfold failable. by rewrite E, !bool_decide_eq_true_2 by (done || by repeat constructor). Qed.

Lemma update_operations_wf p f s : (∀ o, Operation.id (f o) = Operation.id o) → wf s → wf (update_operations p f s).
Proof. intros Hf. apply (adv_wf ulid). by eapply (update_operations_advance ulid p f Hf s tt), twrite_ok. Qed.

(** Executing the command only ever marks the operation failed. *)
Lemma run_withdraw_fails i o s r s' : wf s → find_operation (ex_caseId i) (ex_operationId i) s = Some o →
  get_case (ex_caseId i) s ≠ None →
  Operation.command o = command_text withdraw_information_request → Operation.status o = requested →
  runReversalExecution ulid i s = Ok (r, s') → ∃ o', r = Some o' ∧ Operation.status o' = failed.
Proof.
  intros W Ho Hcase Hc Hst H. pose proof (find_operation_in _ _ _ _ Ho) as (Hin & Hid & _).
  assert (∀ c d, failReversalOperation ulid o (ex_actorAccountId i) (ex_completedAt i) c d s = Ok (r, s') →
    ∃ o', r = Some o' ∧ Operation.status o' = failed) as Hfail.
  { intros c d Hf. apply (failReversal_fails o o) in Hf as (o' & ? & ? & _); eauto using requested_failable. }
  unfold runReversalExecution in H. inv_tx H; rewrite Ho in *; simplify_eq; eauto.
  - match goal with Hs : negb (bool_decide (Operation.status _ ∈ _)) = true |- _ => rewrite Hst in Hs end. done.
  - match goal with He : executor _ _ = Some _ |- _ => by rewrite Hc in He end.
  - set (s1 := update_operations _ _ s) in *.
    assert (wf s1) as W1 by (by apply update_operations_wf).
    eapply (failReversal_fails o (Operation.start (ex_completedAt i) o)) in H as (o' & ? & ? & _); try done; eauto.
    + apply in_update_where. exists o. by rewrite by_id_eq.
    + unfold failable. by rewrite !bool_decide_eq_true_2 by (done || by repeat constructor).
Qed.

Lemma insertReversal_row i t s o s' : wf s → insertReversalOperation ulid i t s = Ok (o, s') →
  wf s' ∧ In o (operations s') ∧ (∃ k, o = operation_row k i t) ∧ get_case (cv_caseId i) s' ≠ None.
Proof.
  intros W H. split; [by eapply (adv_wf ulid), W; eapply insertReversal_advance|].
  pose proof (insertReversal_same _ _ _ _ _ _ H) as V. unfold insertReversalOperation in H. inv_tx H.
  split_and!.
  - apply event_ops in Htx2. apply audit_ops in Htx1. rewrite Htx2, Htx1. unfold operation_create in Htx0.
    inv_ok Htx0. injection Htx0 as <-. apply in_app_iff. by right; left.
  - by eexists.
  - apply (same_view_eq (cv_caseId i)) in V. unfold case_view in V. rewrite E in V. injection V as V _ _.
    intros Hn. by rewrite Hn in V.
Qed.

Lemma find_operation_found s o : wf s → In o (operations s) →
  find_operation (Operation.caseId o) (Operation.id o) s = Some o.
Proof.
  intros W Ho. unfold find_operation. destruct (find_row _ _) as [q|] eqn:E.
  - apply find_row_Some in E as [Hq E]. boolify. f_equal. by apply (unique_operation s).
  - rewrite find_row_None in E. specialize (E o Ho). by rewrite !bool_decide_eq_true_2 in E.
Qed.

Lemma mapRepositoryConflict_ok {A} (m : io intake A) s a s' : mapRepositoryConflict m s = (Ok a, s') → m s = (Ok a, s').
Proof. unfold mapRepositoryConflict, iocatch. destruct (m s) as [[x|e] s1]; [done|]. by case_bool_decide. Qed.

Lemma execute_ok i s r s' : executeReversalOperation ulid i s = (Ok r, s') → runReversalExecution ulid i s = Ok (r, s').
Proof.
  unfold executeReversalOperation, iocatch. destruct (transaction _ s) as [[x|e] s1] eqn:E.
  - intros [= -> ->]. by apply transaction_ok.
  - intros H. apply iobind_ok in H as (b & s2 & _ & H). by apply throw_ok in H.
Qed.

Lemma create_fresh i t s o s' : find_row (same_operation_key (cv_caseId i) (cv_idempotencyKey i)) (operations s) = None →
  createReversalOperation ulid i t s = (Ok o, s') → insertReversalOperation ulid i t s = Ok (o, s').
Proof. unfold createReversalOperation. intros Hk H. inv_io H. rewrite Hk in H. by apply transaction_ok. Qed.

(** The preview offers to withdraw the information request of a case that waits for its
    applicant, and the request for it is accepted and recorded, but with a new idempotency key
    it never succeeds: its execution knows no such command and the operation ends failed. *)
Theorem withdraw_correction_never_succeeds i now s o s' :
  ireachable ulid jobId s → rq_command i = command_text withdraw_information_request →
  find_row (same_operation_key (rq_caseId i) (rq_idempotencyKey i)) (operations s) = None →
  requestIntakeReversal ulid i now s ≠ (Ok o, s').
Proof.
  intros R Hc Hk H. pose proof (ireachable_good _ _ _ R) as [W _]. unfold requestIntakeReversal in H. rewrite Hc in H.
  change (parse_command _) with (Some withdraw_information_request) in H. cbv iota in H.
  destruct (bool_decide _); [|by inv_io H]. inv_io H.
  destruct (getIntakeReversalSnapshot _ s) as [snap|]; [|by inv_io H].
  destruct (_ || _); [by inv_io H|]. destruct (getReversalAction snap _) as [action|] eqn:Ea; [|by inv_io H].
  inv_io H. apply mapRepositoryConflict_ok, create_fresh in Hio; [|done].
  destruct (insertReversal_row _ _ _ _ _ W Hio) as (W1 & Ho & (k & ->) & Hcase).
  pose proof (reversal_action_move _ _ _ Ea) as Hm. apply needs_second_move in Hm.
  change (needs_second _) with false in Hm. simpl in H. rewrite <- Hm in H. simpl in H. inv_io H.
  apply mapRepositoryConflict_ok, execute_ok in Hio0.
  eapply run_withdraw_fails in Hio0 as (o' & -> & Hst); [|done|by apply (find_operation_found _ _ W1 Ho)|done|done|simpl; by rewrite <- Hm].
  simpl in H. unfold requireNotFailed in H. rewrite Hst in H. done.
Qed.

End WithUlid.

(** ** Instances *)

Lemma two_person_corrections_witness :
  ∃ o, last (operations IntakeDemo.o9) = Some o ∧ Operation.status o = completed ∧
    ∃ approver, Operation.approvedByAccountId o = Some approver ∧ approver ≠ Operation.requestedByAccountId o.
Proof.
  destruct (last (operations IntakeDemo.o9)) as [o|] eqn:E; [|vm_compute in E; discriminate E].
  exists o. split; [reflexivity|]. assert (In o (operations IntakeDemo.o9)) as Hin.
  { vm_compute in E. injection E as <-. vm_compute. left. reflexivity. }
  vm_compute in E. injection E as <-. split; [reflexivity|].
  apply (two_person_corrections _ _ _ _ IntakeDemo.reach_o9 Hin); [vm_compute; reflexivity|].
  right. right. left.
Defined.

Lemma withdraw_correction_never_succeeds_witness :
  let i := IntakeDemo.ask_back (command_text withdraw_information_request) waiting_on_applicant 3 "key" in
  (command <$> default [] (match (getIntakeReversalPreview "case_1" IntakeDemo.i3).1 with Ok (_, l) => Some l | Err _ => None end)) =
    [withdraw_information_request] ∧
  (requestIntakeReversal IntakeDemo.ulid i 4000 IntakeDemo.i3).1 = Err reversalNotAllowedError ∧
  ∀ o s', requestIntakeReversal IntakeDemo.ulid i 4000 IntakeDemo.i3 ≠ (Ok o, s').
Proof.
  intros i. split; [vm_compute; reflexivity|]. split; [vm_compute; reflexivity|]. intros o s'.
  apply (withdraw_correction_never_succeeds _ _ i 4000 IntakeDemo.i3 o s' IntakeDemo.reach_i3); vm_compute; reflexivity.
Defined.

End IntakeOps.
