(* ===== verification/IntakeReads.v ===== *)
(** The reads of prisma-intake.repository.ts and of prisma-partner-organization.repository.ts,
    and the writes of the latter.  Dates stay numbers and enumerations stay constructors: the
    CHECKs of the tables keep the stored texts inside the enumerations the services parse. *)

From S2P Require Import Prelude JsString Currency DateTime IntakePolicy Db OfferingPolicy OfferingRepo IntakeDb IntakeRepo IntakeReversal Paging.

Module IntakeReads.
Import Currency IntakePolicy IntakeDb IntakeRepo IntakeReversal.

(** ** Settings *)

Definition field (k : string) (j : json) : option json :=
  match j with JObj l => snd <$> find_row (λ kv, bool_decide (kv.1 = k)) l | _ => None end.

Definition setting (k : string) (s : intake) : result json :=
  match find_row (λ kv, bool_decide (kv.1 = k)) (settings s) with
  | Some kv => Ok kv.2
  | None => Err (Thrown (String.append "Missing setting " k))
  end.

(** propertyFloorSettingSchema *)
Definition parse_floor (j : json) : result string :=
  match field "amount" j, field "currency" j with
  | Some (JStr amount), Some (JStr "EUR") => if currency_format amount then Ok amount else Err ZodError
  | _, _ => Err ZodError
  end.

Definition business_day_count (j : json) : option Z :=
  match j with JNum n => if (1 <=? n) && (n <=? 60) then Some n else None | _ => None end.

(** responseWindowSettingSchema *)
Definition parse_window (j : json) : result Z :=
  match field "business_days" j ≫= business_day_count with Some n => Ok n | None => Err ZodError end.

(** reminderDaysSettingSchema *)
Definition parse_reminder_days (j : json) : result (list Z) :=
  match field "business_days" j with
  | Some (JArr l) =>
      match mapM business_day_count l with
      | Some (n :: ns) => Ok (n :: ns)
      | _ => Err ZodError
      end
  | _ => Err ZodError
  end.

Definition getMinimumPropertyValueEur (s : intake) : result string :=
  let! v := setting "intake.minimum_property_value_eur" s in parse_floor v.

Definition getApplicantResponseWindowBusinessDays (s : intake) : result Z :=
  let! v := setting "intake.applicant_response_window_business_days" s in parse_window v.

Definition getInformationRequestReminderBusinessDays (s : intake) : result (list Z) :=
  let! v := setting "intake.information_request_reminder_business_days" s in parse_reminder_days v.

(** ** Prerequisites *)

Record IntakePrerequisites := mkPrerequisites {
  pq_eligibilityState : string; pq_proofOfAddressCurrentUntil : option Z; pq_minimumPropertyValueEur : string }.

Definition getIntakePrerequisites (accountId : string) (s : intake) : result IntakePrerequisites :=
  let eligibility := find_kyc accountId (base s) in
  let! minimum := getMinimumPropertyValueEur s in
  Ok (mkPrerequisites (match eligibility with Some k => KycEligibility.eligibilityState k | None => "not_started" end)
        (eligibility ≫= KycEligibility.proofOfAddressCurrentUntil) minimum).

(** ** Cases *)

Definition case_key (c : IntakeCase.t) : Z * string := (IntakeCase.createdAt c, IntakeCase.id c).
Definition owned_key (c : OwnedIntakeCase) : Z * string := (oc_createdAt c, oc_caseId c).
Definition partner_key (c : PartnerCaseDetail) : Z * string := owned_key (pc_owned c).

Definition applicant_is (accountId : string) (c : IntakeCase.t) : bool :=
  bool_decide (IntakeCase.applicantAccountId c = accountId).

Definition listOwnedCases (accountId : string) (s : intake) (limit : nat) (after : option (Z * string))
    : list OwnedIntakeCase :=
  map (toOwnedCase s) (findMany case_key (applicant_is accountId) (cases (base s)) limit after).

Definition stage_matches (stage : option Stage) (c : IntakeCase.t) : bool :=
  opt_ok (λ st, bool_decide (IntakeCase.stage c = st)) stage.

Definition listCasesForOperations (stage : option Stage) (s : intake) (limit : nat) (after : option (Z * string))
    : list OwnedIntakeCase :=
  map (toOwnedCase s) (findMany case_key (stage_matches stage) (cases (base s)) limit after).

Inductive PartnerRole := legal_partner | appraisal_partner.
#[global] Instance PartnerRole_eq_dec : EqDecision PartnerRole.
Proof. solve_decision. Defined.

Definition assigned_to (role : PartnerRole) (organizationId : string) (c : IntakeCase.t) : bool :=
  bool_decide (match role with
               | legal_partner => IntakeCase.legalPracticeId (IntakeCase.partner c)
               | appraisal_partner => IntakeCase.appraisalFirmId (IntakeCase.partner c)
               end = Some organizationId) &&
  bool_decide (IntakeCase.stage c ∈ [post_ipo_structuring; approved_for_final_offering]).

Definition listCasesForPartner (role : PartnerRole) (organizationId : string) (s : intake) (limit : nat)
    (after : option (Z * string)) : list PartnerCaseDetail :=
  map (toPartnerCaseDetail s) (findMany case_key (assigned_to role organizationId) (cases (base s)) limit after).

Definition getOwnedCase (accountId caseId : string) (s : intake) : option OwnedIntakeCase :=
  toOwnedCase s <$> owned_case caseId accountId s.

Definition getCaseForPartner (caseId : string) (s : intake) : option PartnerCaseDetail :=
  toPartnerCaseDetail s <$> get_case caseId s.

Record CasePartnerAssignment := mkAssignment {
  pa_stage : Stage; pa_legalPracticeId : option string; pa_appraisalFirmId : option string }.

Definition getCasePartnerAssignment (caseId : string) (s : intake) : option CasePartnerAssignment :=
  (λ c, mkAssignment (IntakeCase.stage c) (IntakeCase.legalPracticeId (IntakeCase.partner c))
          (IntakeCase.appraisalFirmId (IntakeCase.partner c))) <$> get_case caseId s.

(** ** The operations view of one case *)

Record LinkedOffering := mkLinked {
  lo_offeringId : string; lo_status : OfferingStatus; lo_finalOfferingPublishedAt : option Z }.

Record SubmissionDetail := mkSubmissionDetail {
  sb_revisionId : string; sb_revisionNumber : Z; sb_submittedAt : Z; sb_submittedByAccountId : string;
  sb_submissionData : list (string * json); sb_evidence : list Evidence.t }.

Record OperationsCaseDetail := mkOperationsCase {
  od_owned : OwnedIntakeCase; od_applicantAccountId : string;
  od_review : IntakeCase.review_data; od_ipoPeriodDays : option Z; od_ipoEndAt : option Z;
  od_ipoValueEur : option string; od_legalPracticeId : option string; od_appraisalFirmId : option string;
  od_offering : option LinkedOffering; od_submission : option SubmissionDetail;
  od_informationRequests : list InformationRequestRecord }.

Definition offering_key (o : Offering.t) : Z * string := (Offering.createdAt o, Offering.id o).

(** [pivs: orderBy id desc, take 1], then [offerings: orderBy createdAt desc, id desc, take 1] *)
Definition linked_offering (caseId : string) (b : db) : option Offering.t :=
  latest_piv caseId b ≫= λ p,
    head (findMany offering_key (by_id Offering.pivId (Piv.id p)) (offerings b) 1 None).

Definition evidence_before (a b : Evidence.t) : bool :=
  String.ltb (Evidence.documentType a) (Evidence.documentType b) ||
  (String.eqb (Evidence.documentType a) (Evidence.documentType b) && String.ltb (Evidence.id a) (Evidence.id b)).

Definition evidence_of (revisionId : string) (s : intake) : list Evidence.t :=
  order_by evidence_before (List.filter (by_id Evidence.submissionRevisionId revisionId) (evidence s)).

Definition request_key (r : InformationRequest.t) : Z * string :=
  (InformationRequest.proposedAt r, InformationRequest.id r).

(** [informationRequests: orderBy proposedAt desc, id desc] *)
Definition requests_of (caseId : string) (keep : InformationRequest.t → bool) (s : intake) : list InformationRequest.t :=
  found request_key (λ r, by_id InformationRequest.caseId caseId r && keep r) (requests s).

Definition submission_detail (s : intake) (r : Revision.t) : SubmissionDetail :=
  mkSubmissionDetail (Revision.id r) (Revision.revisionNumber r) (Revision.submittedAt r)
    (Revision.submittedByAccountId r) (Revision.submissionData r) (evidence_of (Revision.id r) s).

Definition toOperationsCase (s : intake) (c : IntakeCase.t) : OperationsCaseDetail :=
  mkOperationsCase (toOwnedCase s c) (IntakeCase.applicantAccountId c) (IntakeCase.review c)
    (IntakeCase.ipoPeriodDays (IntakeCase.ipo c)) (IntakeCase.ipo_endAt (IntakeCase.ipo c))
    (numeric2_text <$> IntakeCase.ipoValueEur (IntakeCase.ipo c))
    (IntakeCase.legalPracticeId (IntakeCase.partner c)) (IntakeCase.appraisalFirmId (IntakeCase.partner c))
    ((λ o, mkLinked (Offering.id o) (Offering.status o) (Offering.finalOfferingPublishedAt o)) <$>
       linked_offering (IntakeCase.id c) (base s))
    (submission_detail s <$> current_revision s c)
    (map toInformationRequest (requests_of (IntakeCase.id c) (λ _, true) s)).

Definition getCaseForOperations (caseId : string) (s : intake) : option OperationsCaseDetail :=
  toOperationsCase s <$> get_case caseId s.

(** ** Information requests *)

(** The applicant's request rows for the timers: [case.applicant.protectedContactEmail]. *)
Definition for_timer (s : intake) (r : InformationRequest.t) : option PublishedInformationRequestForTimer :=
  match InformationRequest.publishedAt r, InformationRequest.dueAt r, get_case (InformationRequest.caseId r) s with
  | Some publishedAt, Some dueAt, Some c =>
      match find_account (IntakeCase.applicantAccountId c) (base s) with
      | Some a => Some (mkForTimer (InformationRequest.id r) (InformationRequest.caseId r) (IntakeCase.applicantAccountId c)
                          (Account.contactEmail a) publishedAt dueAt)
      | None => None
      end
  | _, _, _ => None
  end.

Definition listPublishedInformationRequestsForTimers (s : intake) : list PublishedInformationRequestForTimer :=
  omap (for_timer s) (List.filter is_published (requests s)).

Definition getPublishedInformationRequestForTimer (caseId requestId : string) (s : intake)
    : option PublishedInformationRequestForTimer :=
  find_row (λ r, request_of_case caseId requestId r && is_published r) (requests s) ≫= for_timer s.

Definition getOwnedInformationRequest (accountId caseId requestId : string) (s : intake) : option InformationRequestRecord :=
  find_row (λ r, request_of_case caseId requestId r &&
                 match get_case (InformationRequest.caseId r) s with Some c => applicant_is accountId c | None => false end)
    (requests s)
    ≫= λ r, Some (toInformationRequest r).

Definition listOwnedInformationRequests (accountId caseId : string) (s : intake) : option (list InformationRequestRecord) :=
  (λ _, map toInformationRequest (requests_of caseId (λ r, is_set (InformationRequest.publishedAt r)) s))
    <$> owned_case caseId accountId s.

(** ** The history *)

Definition event_key (e : CaseEvent.t) : Z * string := (CaseEvent.occurredAt e, CaseEvent.id e).

(** [take: limit + 1] tells whether there is a next page. *)
Definition listIntakeCaseHistory (caseId : string) (s : intake) (limit : nat) (after : option (Z * string))
    : bool * list CaseEvent.t :=
  let events := findMany event_key (by_id CaseEvent.caseId caseId) (caseEvents s) (limit + 1) after in
  let hasNextPage := (limit <? length events)%nat in
  (hasNextPage, if hasNextPage then take limit events else events).

(** ** Partner organizations *)

Inductive OrganizationKind := legal_practice | appraisal_firm.
#[global] Instance OrganizationKind_eq_dec : EqDecision OrganizationKind.
Proof. solve_decision. Defined.

Definition kind_text (k : OrganizationKind) : string :=
  match k with legal_practice => "legal_practice" | appraisal_firm => "appraisal_firm" end.

Definition organizations (k : OrganizationKind) (s : intake) : list Organization.t :=
  match k with legal_practice => practices s | appraisal_firm => firms s end.

Definition set_organization_rows (k : OrganizationKind) (l : list Organization.t) (s : intake) : intake :=
  match k with legal_practice => set_practices l s | appraisal_firm => set_firms l s end.

(** getLegalPracticeById, getAppraisalFirmById *)
Definition getOrganizationById (k : OrganizationKind) (id_ : string) (s : intake) : option Organization.t :=
  find_row (by_id Organization.id id_) (organizations k s).

Definition name_before (a b : Organization.t) : bool := String.ltb (Organization.name a) (Organization.name b).

(** listLegalPractices, listAppraisalFirms *)
Definition listOrganizations (k : OrganizationKind) (s : intake) : list Organization.t :=
  order_by name_before (organizations k s).

Definition organization_create (k : OrganizationKind) (o : Organization.t) (s : intake) : result intake :=
  if exists_row (by_id Organization.id (Organization.id o)) (organizations k s)
  then violation (String.append (kind_text k) "s_pkey")
  else Ok (set_organization_rows k (organizations k s ++ [o]) s).

Section WithUlid.
Context (ulid : nat → string).

Definition organization_audit (k : OrganizationKind) (actor action id_ : string) (changes : list (string * json)) (at_ : Z)
    : txn intake unit :=
  do! auditId := fresh_id ulid "audit_" in
  twrite (λ s, set_base (audit_create (AuditLog.mk auditId (Some actor) action (kind_text k) id_ changes at_) (base s)) s).

(** createLegalPractice, createAppraisalFirm *)
Definition createOrganization (k : OrganizationKind) (name countryCode actorAccountId traceId : string) (createdAt : Z)
    : txn intake Organization.t :=
  do! id_ := fresh_id ulid (String.append (kind_text k) "_") in
  let o := Organization.mk id_ name countryCode Organization.active in
  do! _ := tprim (organization_create k o) in
  do! _ := organization_audit k actorAccountId (String.append "intake." (String.append (kind_text k) "_created")) id_
    [("trace_id", JStr traceId); ("name", JStr name); ("country_code", JStr countryCode)] createdAt in
  tret o.

Definition organization_status_text (st : Organization.Status) : string :=
  match st with Organization.active => "active" | Organization.suspended => "suspended" end.

(** updateLegalPracticeStatus, updateAppraisalFirmStatus *)
Definition updateOrganizationStatus (k : OrganizationKind) (id_ : string) (st : Organization.Status)
    (actorAccountId traceId : string) (updatedAt : Z) : txn intake (option Organization.t) :=
  do! existing := tread (getOrganizationById k id_) in
  match existing with
  | None => tret None
  | Some existing =>
      do! _ := twrite (λ s, set_organization_rows k
        (update_where (by_id Organization.id id_) (Organization.set_status st) (organizations k s)) s) in
      do! _ := organization_audit k actorAccountId (String.append "intake." (String.append (kind_text k) "_status_updated"))
        id_ [("trace_id", JStr traceId); ("previous_status", JStr (organization_status_text (Organization.status existing)));
             ("new_status", JStr (organization_status_text st))] updatedAt in
      tret (Some (Organization.set_status st existing))
  end.

(** The repository writes each of these out once per table; the practices are the [legal_practice]
    instances of the four definitions above, the firms these. *)
Definition createAppraisalFirm := createOrganization appraisal_firm.
Definition listAppraisalFirms := listOrganizations appraisal_firm.
Definition getAppraisalFirmById := getOrganizationById appraisal_firm.
Definition updateAppraisalFirmStatus := updateOrganizationStatus appraisal_firm.

End WithUlid.
End IntakeReads.
