(* ===== verification/IntakeServices.v ===== *)
(** The application services of src/src/modules/intake/application/ over the repository:
    entry, submission and response of the applicant; the staff's review actions and their manual
    overrides; the timers; the partners' lists and writebacks; messages; partner organizations.

    A service reads, evaluates the policy on what it read, calls one transaction that checks
    again under the lock, and turns the conflict of a lost race into its own 409.  Answers are
    the records the responses are rendered from; labels and ISO texts are left out.  [now] is
    the service's clock, [at_] the clock of the transaction's own [new Date()]. *)

From Stdlib Require Import Ascii.
From S2P Require Import Prelude JsString Currency DateTime IntakePolicy Db OfferingPolicy OfferingRepo OfferingServices IntakeDb IntakeRepo IntakeReversal Paging IntakeReads.

Module IntakeServices.
Import JsString DateTime IntakePolicy IntakeDb IntakeRepo IntakeReversal IntakeReads.
Import OfferingServices (JobRunSummary, mkSummary, js_checked, js_acted).

(** ** Shared *)

Definition moneyToCents (value : string) : result Z :=
  match split "."%char value with
  | euros :: cents :: _ =>
      let! e := BigInt euros in
      let! c := BigInt cents in
      Ok (e * 100 + c)
  | _ => Err (Thrown "Invalid money value")
  end.

(** [catch (error) { if (error instanceof From) throw to; throw error; }] *)
Definition mapping {A} (from to : error) (m : io intake A) : io intake A :=
  iocatch m (λ e, throw (if bool_decide (e = from) then to else e)).

(** [if (x === null) throw e] *)
Definition found_or {S A} (e : error) (o : option A) : io S A := match o with Some a => ret a | None => throw e end.

Definition read {A} (f : intake → A) : io intake A := query (λ s, Ok (f s)).

Definition reviewConflictError : error := AppError "intake.review_transition_conflict" 409 [].
Definition case_submission_conflict : error := AppError "intake.case_submission_conflict" 409 [].
Definition responseConflictError : error := AppError "intake.information_request_response_conflict" 409 [].
Definition propertyValueBelowMinimumError : error :=
  AppError "intake.property_value_below_minimum" 422 ["property.owner_declared_value_eur"].

Definition submissionPolicyError (r : SubmissionRefusal) : error :=
  match r with
  | missing_evidence missing => AppError "intake.required_evidence_missing" 422 missing
  | duplicate_evidence => AppError "intake.duplicate_evidence_type" 422 []
  | _ => case_submission_conflict
  end.

Definition resubmissionError (r : SubmissionRefusal) : error :=
  match r with
  | missing_evidence _ => AppError "intake.required_evidence_missing" 422 []
  | duplicate_evidence => AppError "intake.duplicate_evidence_type" 422 []
  | _ => responseConflictError
  end.

Definition entry_reason (r : EntryRefusal) : string :=
  match r with
  | kyc_not_eligible => "kyc_not_eligible"
  | proof_of_address_required => "proof_of_address_required"
  | terms_not_accepted => "terms_not_accepted"
  | one_title_required => "one_title_required"
  | residential_only => "residential_only"
  | property_value_below_minimum => "property_value_below_minimum"
  end.

Definition intakePolicyError (r : EntryRefusal) : error :=
  match r with
  | kyc_not_eligible => AppError "identity.kyc_required" 403 []
  | proof_of_address_required => AppError "identity.proof_of_address_required" 403 []
  | terms_not_accepted => AppError "intake.terms_required" 422 []
  | one_title_required => AppError "intake.one_title_required" 422 []
  | residential_only => AppError "intake.residential_only" 422 []
  | property_value_below_minimum => propertyValueBelowMinimumError
  end.

(** 403 for the identity prerequisites, 422 for the rest *)
Definition recheck_status (r : EntryRefusal) : Z :=
  match r with kyc_not_eligible | proof_of_address_required => 403 | _ => 422 end.
Definition intakeRecheckError (r : EntryRefusal) : error :=
  AppError (String.append "intake.submission_" (entry_reason r)) (recheck_status r) [].
Definition resubmissionRecheckError (r : EntryRefusal) : error :=
  AppError (String.append "intake.resubmission_" (entry_reason r)) (recheck_status r) [].

(** ** CreateDraftIntakeService *)

Record CreateDraftBody := mkDraftBody {
  dby_intakeTermsAccepted : bool; dby_oneTitleConfirmed : bool; dby_propertyType : string; dby_property : PropertyInput }.

(** [{ ...data, [k]: v }] *)
Definition spread (data : list (string * json)) (k : string) (v : json) : list (string * json) :=
  if existsb (λ kv, bool_decide (kv.1 = k)) data
  then map (λ kv, if bool_decide (kv.1 = k) then (k, v) else kv) data
  else data ++ [(k, v)].

Definition attestations (at_ : Z) : json :=
  JObj [("intake_terms_accepted", JBool true); ("one_title_confirmed", JBool true); ("accepted_at", JDate at_)].

Section WithUlid.
Context (ulid : nat → string) (jobId : nat → option string).

Definition CreateDraftIntake_execute (accountId traceId : string) (body : CreateDraftBody) (now at_ : Z)
    : io intake CreatedDraftIntake :=
  await prerequisites := query (getIntakePrerequisites accountId) in
  await declared := lift (moneyToCents (pi_ownerDeclaredValueEur (dby_property body))) in
  await minimum := lift (moneyToCents (pq_minimumPropertyValueEur prerequisites)) in
  match evaluateIntakeEntry
          (mkEntry (pq_eligibilityState prerequisites) (pq_proofOfAddressCurrentUntil prerequisites) now declared minimum
             (dby_intakeTermsAccepted body) (dby_oneTitleConfirmed body) (dby_propertyType body)) with
  | Some refusal => throw (intakePolicyError refusal)
  | None => transaction (createDraftIntake ulid (mkCreateDraft accountId traceId (dby_property body)) at_)
  end.

(** ** SubmitInitialCaseService *)

Record SubmitBody := mkSubmitBody {
  sbb_intakeTermsAccepted : bool; sbb_oneTitleConfirmed : bool; sbb_submissionData : list (string * json);
  sbb_documents : list SubmissionDocumentInput }.

(** The entry policy evaluated again on the stored case. *)
Definition recheck_entry (c : OwnedIntakeCase) (prerequisites : IntakePrerequisites) (body : SubmitBody) (now : Z)
    : result (option EntryRefusal) :=
  match oc_property c with
  | None => Err (Thrown "TypeError")
  | Some p =>
      let! declared := moneyToCents (op_ownerDeclaredValueEur p) in
      let! minimum := moneyToCents (pq_minimumPropertyValueEur prerequisites) in
      Ok (evaluateIntakeEntry
            (mkEntry (pq_eligibilityState prerequisites) (pq_proofOfAddressCurrentUntil prerequisites) now declared minimum
               (sbb_intakeTermsAccepted body) (sbb_oneTitleConfirmed body) "residential"))
  end.

Definition SubmitInitialCase_execute (accountId caseId traceId : string) (body : SubmitBody) (now at_ : Z)
    : io intake SubmittedCase :=
  await intakeCase := read (getOwnedCase accountId caseId) in
  await prerequisites := query (getIntakePrerequisites accountId) in
  await intakeCase := found_or case_not_found intakeCase in
  match evaluateInitialCaseSubmission (oc_stage intakeCase) (is_set (oc_currentRevision intakeCase))
          (map sd_documentType (sbb_documents body)) with
  | Some refusal => throw (submissionPolicyError refusal)
  | None =>
      await refusal := lift (recheck_entry intakeCase prerequisites body now) in
      match refusal with
      | Some refusal => throw (intakeRecheckError refusal)
      | None =>
          mapping CaseSubmissionConflictError case_submission_conflict
            (await result := transaction (submitInitialCase ulid
               (mkSubmit accountId caseId traceId (spread (sbb_submissionData body) "attestations" (attestations now))
                  (sbb_documents body)) at_) in
             found_or case_not_found result)
      end
  end.

(** ** respond-to-information-request.service.ts *)

Definition ListOwnInformationRequests_execute (accountId caseId : string) : io intake (list InformationRequestRecord) :=
  await requests := read (listOwnedInformationRequests accountId caseId) in
  await requests := found_or case_not_found requests in
  if forallb (λ r, is_set (rr_publishedAt r) && is_set (rr_dueAt r)) requests then ret requests
  else throw (Thrown "Applicant-visible information request is not published").

Definition RespondToInformationRequest_execute (accountId caseId requestId traceId : string) (body : SubmitBody)
    (now at_ : Z) : io intake SubmittedCase :=
  await intakeCase := read (getOwnedCase accountId caseId) in
  await request := read (getOwnedInformationRequest accountId caseId requestId) in
  await prerequisites := query (getIntakePrerequisites accountId) in
  await intakeCase := found_or case_not_found intakeCase in
  await request := found_or case_not_found request in
  match evaluateCaseResubmission (oc_stage intakeCase) (is_set (oc_currentRevision intakeCase)) (rr_status request)
          (map sd_documentType (sbb_documents body)) with
  | Some refusal => throw (resubmissionError refusal)
  | None =>
      await refusal := lift (recheck_entry intakeCase prerequisites body now) in
      match refusal with
      | Some refusal => throw (resubmissionRecheckError refusal)
      | None =>
          mapping CaseReviewConflictError responseConflictError
            (await result := transaction (resubmitAfterInformationRequest ulid
               (mkSubmit accountId caseId traceId
                  (spread (spread (sbb_submissionData body) "attestations" (attestations now))
                     "response_to_information_request_id" (JStr requestId))
                  (sbb_documents body)) requestId now at_) in
             found_or case_not_found result)
      end
  end.

(** ** operations-case.service.ts *)

Definition GetCaseForOperations_execute (caseId : string) : io intake OperationsCaseDetail :=
  await intakeCase := read (getCaseForOperations caseId) in
  found_or case_not_found intakeCase.

Definition request_is_published (r : InformationRequestRecord) : bool := bool_decide (rr_status r = published).

Definition PublishInformationRequest_execute (accountId caseId traceId requestBody : string) (now at_ : Z)
    : io intake InformationRequestRecord :=
  await intakeCase := read (getCaseForOperations caseId) in
  await responseWindowDays := query getApplicantResponseWindowBusinessDays in
  await intakeCase := found_or case_not_found intakeCase in
  match evaluateInformationRequestPublication (oc_stage (od_owned intakeCase))
          (is_set (oc_currentRevision (od_owned intakeCase)))
          (existsb request_is_published (od_informationRequests intakeCase)) with
  | Some _ => throw reviewConflictError
  | None =>
      await dueAt := lift (addBusinessDays now responseWindowDays) in
      mapping CaseReviewConflictError reviewConflictError
        (await request := transaction (publishInformationRequest ulid
           (mkPublishRequest accountId caseId traceId requestBody now dueAt) at_) in
         found_or case_not_found request)
  end.

Definition request_named (requestId : string) (r : InformationRequestRecord) : bool :=
  bool_decide (rr_requestId r = requestId).

Definition WithdrawInformationRequest_execute (accountId caseId requestId traceId : string)
    (founderReviewNotes : option string) (now : Z) : io intake WithdrawnInformationRequest :=
  await intakeCase := read (getCaseForOperations caseId) in
  await intakeCase := found_or case_not_found intakeCase in
  await request := found_or case_not_found (find_row (request_named requestId) (od_informationRequests intakeCase)) in
  if negb (canWithdrawInformationRequest (oc_stage (od_owned intakeCase)) (rr_status request))
  then throw reviewConflictError
  else
    mapping CaseReviewConflictError reviewConflictError
      (await result := transaction (withdrawInformationRequest ulid
         (mkWithdrawRequest accountId caseId requestId traceId founderReviewNotes now)) in
       found_or case_not_found result).

(** [setUTCDate(getUTCDate() + days)] *)
Definition addCalendarDays (start days : Z) : Z := setUTCDate (getUTCDate start + days) start.

Inductive FounderDecisionBody :=
  | body_approve (founderReviewNotes : string) (ipoPeriodDays : Z) (ipoValueEur : string)
  | body_reject (founderReviewNotes rejectionReasonCode rejectionNotes : string).

Definition founder_decision (accountId caseId traceId : string) (body : FounderDecisionBody) (now : Z)
    : FounderDecisionInput :=
  match body with
  | body_approve notes days value =>
      mkFounderDecision (approve days (addCalendarDays now days) value) accountId caseId traceId notes now
  | body_reject notes code rejectionNotes =>
      mkFounderDecision (reject code rejectionNotes) accountId caseId traceId notes now
  end.

Definition RecordFounderDecision_execute (accountId caseId traceId : string) (body : FounderDecisionBody) (now at_ : Z)
    : io intake RecordedFounderDecision :=
  await intakeCase := read (getCaseForOperations caseId) in
  await intakeCase := found_or case_not_found intakeCase in
  if negb (canRecordFounderDecision (oc_stage (od_owned intakeCase)) (is_set (oc_currentRevision (od_owned intakeCase))))
  then throw reviewConflictError
  else
    mapping CaseReviewConflictError reviewConflictError
      (await recorded := transaction (recordFounderDecision ulid jobId
         (founder_decision accountId caseId traceId body now) at_) in
       found_or case_not_found recorded).

Definition evidence_not_found : error := AppError "intake.evidence_not_found" 404 [].
Definition evidence_case_mismatch : error := AppError "intake.evidence_case_mismatch" 409 [].

Definition ReviewEvidence_execute (accountId caseId evidenceId traceId : string) (status : EvidenceStatus)
    (reviewNotes : option string) (now at_ : Z) : io intake ReviewedEvidence :=
  mapping EvidenceCaseMismatchError evidence_case_mismatch
    (mapping EvidenceNotFoundError evidence_not_found
       (transaction (reviewEvidence ulid
          (mkReviewEvidence accountId caseId evidenceId traceId status reviewNotes now) at_))).

Definition closure_outcome (o : Closure) : CaseClosureOutcome :=
  match o with outcome_withdrawn => close_withdrawn | outcome_rejected _ _ => close_rejected end.

Definition CloseCase_execute (accountId caseId traceId founderReviewNotes : string) (outcome : Closure) (now : Z)
    : io intake ClosedCase :=
  await intakeCase := read (getCaseForOperations caseId) in
  await intakeCase := found_or case_not_found intakeCase in
  if negb (canCloseCase (oc_stage (od_owned intakeCase)) (closure_outcome outcome)) then throw reviewConflictError
  else
    mapping CaseReviewConflictError reviewConflictError
      (await result := transaction (closeCase ulid
         (mkCloseCase outcome accountId caseId traceId founderReviewNotes now)) in
       found_or case_not_found result).

(** The floor of the property value, checked alone for a case staff take. *)
Definition above_floor (declared : string) : io intake unit :=
  await minimum := query getMinimumPropertyValueEur in
  await declared := lift (moneyToCents declared) in
  await minimum := lift (moneyToCents minimum) in
  if declared <? minimum then throw propertyValueBelowMinimumError else ret tt.

Definition staff_attestations (at_ : Z) : list (string * json) :=
  [("attestations", JObj [("intake_terms_accepted", JBool true); ("one_title_confirmed", JBool true);
                          ("accepted_at", JDate at_); ("staff_created", JBool true)])].

Definition CreateStaffIntakeCase_execute (applicantAccountId staffAccountId traceId : string) (property : PropertyInput)
    (documents : list SubmissionDocumentInput) (now at_ : Z) : io intake CreatedStaffCase :=
  match evaluateInitialCaseSubmission draft false (map sd_documentType documents) with
  | Some refusal => throw (submissionPolicyError refusal)
  | None =>
      await _ := above_floor (pi_ownerDeclaredValueEur property) in
      mapping ApplicantAccountNotFoundError (AppError "intake.applicant_account_not_found" 404 [])
        (transaction (createStaffCase ulid
           (mkCreateStaff applicantAccountId staffAccountId traceId property (staff_attestations now) documents) at_))
  end.

(** A staff draft carries no coordinates. *)
Definition without_coordinates (p : PropertyInput) : PropertyInput :=
  mkPropertyInput (pi_countryCode p) (pi_city p) (pi_addressLine p) (pi_landRegistryReference p) None None
    (pi_ownerDeclaredValueEur p) (pi_hasExistingEncumbrance p) (pi_details p) (pi_rooms p).

Definition CreateStaffDraftCase_execute (applicantAccountId traceId : string) (property : PropertyInput) (at_ : Z)
    : io intake CreatedDraftIntake :=
  await _ := above_floor (pi_ownerDeclaredValueEur property) in
  transaction (createDraftIntake ulid (mkCreateDraft applicantAccountId traceId (without_coordinates property)) at_).

Definition SubmitStaffDraftCase_execute (caseId traceId : string) (submissionData : list (string * json))
    (documents : list SubmissionDocumentInput) (at_ : Z) : io intake SubmittedCase :=
  await detail := read (getCaseForOperations caseId) in
  await detail := found_or case_not_found detail in
  await result := transaction (submitInitialCase ulid
    (mkSubmit (od_applicantAccountId detail) caseId traceId submissionData documents) at_) in
  found_or (AppError "intake.case_not_submittable" 409 []) result.

Definition organization_error (k : OrganizationKind) (suffix : string) (status : Z) : error :=
  AppError (String.append "intake." (String.append (kind_text k) suffix)) status [].

(** The organization named by the body, when it names one, must exist and be active. *)
Definition check_organization (k : OrganizationKind) (id_ : option string) : io intake unit :=
  match id_ with
  | None => ret tt
  | Some id_ =>
      await organization := read (getOrganizationById k id_) in
      await organization := found_or (organization_error k "_not_found" 404) organization in
      if negb (bool_decide (Organization.status organization = Organization.active))
      then throw (organization_error k "_not_active" 409)
      else ret tt
  end.

Definition AssignPartnerOrganization_execute (caseId actorAccountId traceId : string)
    (legalPracticeId appraisalFirmId : option string) (now : Z) : io intake AssignedPartnerOrganization :=
  await assignment := read (getCasePartnerAssignment caseId) in
  await assignment := found_or case_not_found assignment in
  if negb (canAssignPartnerOrganization (pa_stage assignment)) then throw reviewConflictError
  else
    await _ := check_organization legal_practice legalPracticeId in
    await _ := check_organization appraisal_firm appraisalFirmId in
    mapping CaseReviewConflictError reviewConflictError
      (await assigned := transaction (assignPartnerOrganization ulid
         (mkAssignPartner caseId legalPracticeId appraisalFirmId actorAccountId traceId now)) in
       found_or case_not_found assigned).

(** resolvePublishedInformationRequestOrThrow: a missing request is a 404, one in another
    state a 409. *)
Definition resolvePublishedInformationRequestOrThrow (caseId requestId : string)
    : io intake PublishedInformationRequestForTimer :=
  await request := read (getPublishedInformationRequestForTimer caseId requestId) in
  match request with
  | Some request => ret request
  | None =>
      await intakeCase := read (getCaseForOperations caseId) in
      await intakeCase := found_or case_not_found intakeCase in
      if existsb (request_named requestId) (od_informationRequests intakeCase) then throw reviewConflictError
      else throw case_not_found
  end.

Definition ForceExpireInformationRequest_execute (accountId caseId requestId traceId reason : string) (now : Z)
    : io intake unit :=
  await _ := resolvePublishedInformationRequestOrThrow caseId requestId in
  await ok := transaction (expireInformationRequest ulid
    (mkExpireRequest requestId caseId traceId now (Some (reason, accountId)))) in
  if ok : bool then ret tt else throw reviewConflictError.

(** RetryPostIpoStructuringHandoffService, with the job's payload schema: both texts are
    trimmed and must not be empty. *)
Definition handoff_payload (caseId traceId : string) : result (string * string) :=
  let c := JsString.trim caseId in
  let t := JsString.trim traceId in
  if bool_decide (c = "") || bool_decide (t = "") then Err ZodError else Ok (c, t).

Definition TransitionCaseToPostIpoStructuring_execute (caseId traceId : string) (now : Z) : io intake (string * Stage) :=
  await payload := lift (handoff_payload caseId traceId) in
  transaction (transitionToPostIpoStructuring ulid payload.1 payload.2 now).

Definition post_ipo_handoff_not_ready : error := AppError "intake.post_ipo_handoff_not_ready" 409 [].

Definition RetryPostIpoStructuringHandoff_execute (caseId traceId : string) (now : Z) : io intake (string * Stage) :=
  await intakeCase := read (getCaseForOperations caseId) in
  await intakeCase := found_or case_not_found intakeCase in
  match od_offering intakeCase ≫= lo_finalOfferingPublishedAt with
  | None => throw post_ipo_handoff_not_ready
  | Some _ => TransitionCaseToPostIpoStructuring_execute caseId traceId now
  end.

(** ** case-timer.service.ts: the expiry sweep *)

Definition expire_one (now : Z) (traceId : string) (acted : nat) (request : PublishedInformationRequestForTimer)
    : io intake nat :=
  if negb (isInformationRequestOverdue (ft_dueAt request) now) then ret acted
  else
    await ok := transaction (expireInformationRequest ulid
      (mkExpireRequest (ft_requestId request) (ft_caseId request) traceId now None)) in
    ret (if ok : bool then S acted else acted).

Definition ExpireOverdueInformationRequests_execute (traceId : string) (now : Z) : io intake JobRunSummary :=
  await requests := read listPublishedInformationRequestsForTimers in
  await acted := iofold (expire_one now traceId) 0%nat requests in
  ret (mkSummary (length requests) acted).

(** ** partner-case.service.ts *)

Definition RecordLegalStructuring_execute (caseId actorAccountId traceId : string) (legalDocumentRefs : option (list string))
    (markCompleted : option bool) (now : Z) : io intake PartnerCaseDetail :=
  await assignment := read (getCasePartnerAssignment caseId) in
  await assignment := found_or case_not_found assignment in
  if negb (canRecordPartnerWriteback (pa_stage assignment)) then throw reviewConflictError
  else
    mapping CaseReviewConflictError reviewConflictError
      (await recorded := transaction (recordLegalStructuring ulid
         (mkRecordLegal caseId legalDocumentRefs markCompleted actorAccountId traceId now)) in
       found_or case_not_found recorded).

Definition RecordAppraisal_execute (caseId actorAccountId traceId : string) (appraisalValueOpinionEur : option string)
    (appraisalDocumentRefs : option (list string)) (markCompleted : option bool) (now : Z) : io intake PartnerCaseDetail :=
  await assignment := read (getCasePartnerAssignment caseId) in
  await assignment := found_or case_not_found assignment in
  if negb (canRecordPartnerWriteback (pa_stage assignment)) then throw reviewConflictError
  else
    mapping CaseReviewConflictError reviewConflictError
      (await recorded := transaction (recordAppraisal ulid
         (mkRecordAppraisal caseId appraisalValueOpinionEur appraisalDocumentRefs markCompleted actorAccountId traceId now)) in
       found_or case_not_found recorded).

(** ** case-message.service.ts *)

Definition ListOwnCaseMessages_execute (accountId caseId : string) : io intake (list CaseMessageRecord) :=
  await intakeCase := read (getOwnedCase accountId caseId) in
  await _ := found_or case_not_found intakeCase in
  read (listCaseMessages caseId applicant_lane).

Definition PostOwnCaseMessage_execute (accountId caseId body : string) (now : Z) : io intake CaseMessageRecord :=
  await intakeCase := read (getOwnedCase accountId caseId) in
  await _ := found_or case_not_found intakeCase in
  await message := transaction (postCaseMessage ulid caseId applicant_lane accountId body now) in
  found_or case_not_found message.

Definition ListCaseMessagesForOperations_execute (caseId : string) (lane : ThreadLane) : io intake (list CaseMessageRecord) :=
  await intakeCase := read (getCaseForOperations caseId) in
  await _ := found_or case_not_found intakeCase in
  read (listCaseMessages caseId lane).

Definition PostCaseMessageForOperations_execute (accountId caseId : string) (lane : ThreadLane) (body : string) (now : Z)
    : io intake CaseMessageRecord :=
  await intakeCase := read (getCaseForOperations caseId) in
  await _ := found_or case_not_found intakeCase in
  await message := transaction (postCaseMessage ulid caseId lane accountId body now) in
  found_or case_not_found message.

(** ** partner-organization.service.ts *)

Definition CreateOrganization_execute (k : OrganizationKind) (name countryCode actorAccountId traceId : string) (now : Z)
    : io intake Organization.t :=
  transaction (createOrganization ulid k name countryCode actorAccountId traceId now).

Definition ListOrganizations_execute (k : OrganizationKind) : io intake (list Organization.t) :=
  read (listOrganizations k).

Definition UpdateOrganizationStatus_execute (k : OrganizationKind) (id_ : string) (st : Organization.Status)
    (actorAccountId traceId : string) (now : Z) : io intake Organization.t :=
  await organization := transaction (updateOrganizationStatus ulid k id_ st actorAccountId traceId now) in
  found_or (organization_error k "_not_found" 404) organization.

Definition CreateAppraisalFirm_execute := CreateOrganization_execute appraisal_firm.
Definition ListAppraisalFirms_execute := ListOrganizations_execute appraisal_firm.
Definition UpdateAppraisalFirmStatus_execute := UpdateOrganizationStatus_execute appraisal_firm.

End WithUlid.

(** ** Lists *)

Definition ListOwnCases_execute (accountId : string) (limit : nat) (after : option (Z * string))
    : io intake (Page OwnedIntakeCase (Z * string)) :=
  await rows := read (λ s, listOwnedCases accountId s (limit + 1) after) in
  ret (paginate owned_key id limit rows).

Definition GetOwnCase_execute (accountId caseId : string) : io intake OwnedIntakeCase :=
  await intakeCase := read (getOwnedCase accountId caseId) in
  found_or case_not_found intakeCase.

Definition ListCasesForOperations_execute (stage : option Stage) (limit : nat) (after : option (Z * string))
    : io intake (Page OwnedIntakeCase (Z * string)) :=
  await rows := read (λ s, listCasesForOperations stage s (limit + 1) after) in
  ret (paginate owned_key id limit rows).

(** [accounts.getActivePartnerOrganizationId] is read by the account module: the active
    assignment of the account for the role, or null. *)
Definition ListCasesForPartner_execute (role : PartnerRole) (organizationId : option string) (limit : nat)
    (after : option (Z * string)) : io intake (Page PartnerCaseDetail (Z * string)) :=
  match organizationId with
  | None => ret (mkPage [] None)
  | Some organizationId =>
      await rows := read (λ s, listCasesForPartner role organizationId s (limit + 1) after) in
      ret (paginate partner_key id limit rows)
  end.

Definition GetCaseForPartner_execute (caseId : string) : io intake PartnerCaseDetail :=
  await intakeCase := read (getCaseForPartner caseId) in
  found_or case_not_found intakeCase.

(** chooseRepresentativePhoto *)
Definition chooseRepresentativePhoto (room : RoomDetail) : option string :=
  match find_row (λ p, bool_decide (Some (ph_documentId p) = rm_preferredPhotoId room)) (rm_photos room) with
  | Some p => Some (ph_documentId p)
  | None => ph_documentId <$> head (rm_photos room)
  end.

(** GetIntakeCaseHistoryService *)
Definition GetIntakeCaseHistory_execute (caseId : string) (limit : nat) (after : option (Z * string))
    : io intake (Page CaseEvent.t (Z * string)) :=
  await snapshot := read (get_case caseId) in
  await _ := found_or case_not_found snapshot in
  await page := read (λ s, listIntakeCaseHistory caseId s limit after) in
  ret (mkPage page.2 (if page.1 : bool then event_key <$> last page.2 else None)).

(** GetPartnerCaseHistoryService *)
Definition visible_types (role : PartnerRole) : list string :=
  ["partner_assignment_changed"; "case_post_ipo_structuring_started"; "case_approved_for_final_offering";
   "handoff_queued"; "handoff_started"; "handoff_succeeded"] ++
  match role with
  | legal_partner => ["legal_structuring_updated"; "legal_execution_requested"; "legal_execution_confirmed";
                      "legal_execution_completed"; "legal_execution_failed"]
  | appraisal_partner => ["appraisal_updated"]
  end.

Definition visible (role : PartnerRole) (e : CaseEvent.t) : bool :=
  bool_decide (CaseEvent.eventType e ∈ visible_types role).

Definition GetPartnerCaseHistory_execute (role : PartnerRole) (caseId : string) (limit : nat) (after : option (Z * string))
    : io intake (Page CaseEvent.t (Z * string)) :=
  await page := read (λ s, listIntakeCaseHistory caseId s (Nat.min (limit + 20) 100) after) in
  let events := take limit (List.filter (visible role) page.2) in
  ret (mkPage events (if page.1 : bool then event_key <$> last events else None)).

(** ** Reminders: the database and the e-mails accepted for delivery, oldest first *)

Record mailbox := mkMailbox { mb_intake : intake; mb_sent : list (string * Z) }.

Section Mail.
(** The SMTP sender accepts a reminder for an address or throws. *)
Context (deliver : string → result unit).

Definition sendApplicantResponseReminderEmail (to : string) (dueAt : Z) : io mailbox unit := λ s,
  match deliver to with
  | Ok _ => (Ok tt, mkMailbox (mb_intake s) (mb_sent s ++ [(to, dueAt)]))
  | Err e => (Err e, s)
  end.

Definition remind_one (today : Z) (reminderBusinessDays : list Z) (acted : nat) (request : PublishedInformationRequestForTimer)
    : io mailbox nat :=
  match ft_applicantContactEmail request with
  | None => ret acted
  | Some to =>
      await due := lift (isApplicantReminderDue (ft_publishedAt request) today reminderBusinessDays) in
      if due : bool
      then await _ := sendApplicantResponseReminderEmail to (ft_dueAt request) in ret (S acted)
      else ret acted
  end.

Definition SendApplicantResponseReminders_execute (today : Z) : io mailbox JobRunSummary :=
  await requests := query (λ s, Ok (listPublishedInformationRequestsForTimers (mb_intake s))) in
  await days := query (λ s, getInformationRequestReminderBusinessDays (mb_intake s)) in
  await acted := iofold (remind_one today days) 0%nat requests in
  ret (mkSummary (length requests) acted).

(** A computation that reads the database alone. *)
Definition on_intake {A} (m : io intake A) : io mailbox A := λ s,
  let '(r, i) := m (mb_intake s) in (r, mkMailbox i (mb_sent s)).

Definition applicant_contact_email_missing : error := AppError "intake.applicant_contact_email_missing" 409 [].

Definition SendManualReminder_execute (caseId requestId : string) : io mailbox PublishedInformationRequestForTimer :=
  await request := on_intake (resolvePublishedInformationRequestOrThrow caseId requestId) in
  await to := found_or applicant_contact_email_missing (ft_applicantContactEmail request) in
  await _ := sendApplicantResponseReminderEmail to (ft_dueAt request) in
  ret request.

End Mail.
End IntakeServices.
