(* ===== verification/IntakeApi.v ===== *)
(** The intake services as one interface: a call names a service and its arguments, [serve]
    runs it, and whatever it answers, what it did to the database is a run of the intake
    transactions ([IntakeMachine.istep]).  The invariants proved of those runs hold behind
    every call. *)

From S2P Require Import Prelude JsString Currency DateTime IntakePolicy Db OfferingPolicy OfferingRepo OfferingFacts OfferingInv IntakeDb IntakeRepo IntakeReversal IntakeLedger IntakeMachine IntakeInv IntakeDemo Paging IntakeReads IntakeServices.

Module IntakeApi.
Import IntakePolicy IntakeDb IntakeRepo IntakeReversal IntakeMachine IntakeInv IntakeReads IntakeServices.

Inductive Call :=
  | CreateDraftIntake (accountId traceId : string) (body : CreateDraftBody) (now at_ : Z)
  | SubmitInitialCase (accountId caseId traceId : string) (body : SubmitBody) (now at_ : Z)
  | RespondToInformationRequest (accountId caseId requestId traceId : string) (body : SubmitBody) (now at_ : Z)
  | PublishInformationRequest (accountId caseId traceId requestBody : string) (now at_ : Z)
  | WithdrawInformationRequest (accountId caseId requestId traceId : string) (notes : option string) (now : Z)
  | RecordFounderDecision (accountId caseId traceId : string) (body : FounderDecisionBody) (now at_ : Z)
  | ReviewEvidence (accountId caseId evidenceId traceId : string) (status : EvidenceStatus) (notes : option string)
      (now at_ : Z)
  | CloseCase (accountId caseId traceId notes : string) (outcome : Closure) (now : Z)
  | CreateStaffIntakeCase (applicantAccountId staffAccountId traceId : string) (property : PropertyInput)
      (documents : list SubmissionDocumentInput) (now at_ : Z)
  | CreateStaffDraftCase (applicantAccountId traceId : string) (property : PropertyInput) (at_ : Z)
  | SubmitStaffDraftCase (caseId traceId : string) (data : list (string * json))
      (documents : list SubmissionDocumentInput) (at_ : Z)
  | AssignPartnerOrganization (caseId actorAccountId traceId : string) (practice firm : option string) (now : Z)
  | ForceExpireInformationRequest (accountId caseId requestId traceId reason : string) (now : Z)
  | RetryPostIpoStructuringHandoff (caseId traceId : string) (now : Z)
  | TransitionCaseToPostIpoStructuring (caseId traceId : string) (now : Z)
  | ExpireOverdueInformationRequests (traceId : string) (now : Z)
  | RecordLegalStructuring (caseId actorAccountId traceId : string) (refs : option (list string)) (mark : option bool)
      (now : Z)
  | RecordAppraisal (caseId actorAccountId traceId : string) (value : option string) (refs : option (list string))
      (mark : option bool) (now : Z)
  | PostOwnCaseMessage (accountId caseId body : string) (now : Z)
  | PostCaseMessageForOperations (accountId caseId : string) (lane : ThreadLane) (body : string) (now : Z)
  | CreateOrganization (k : OrganizationKind) (name countryCode actorAccountId traceId : string) (now : Z)
  | UpdateOrganizationStatus (k : OrganizationKind) (id_ : string) (st : Organization.Status)
      (actorAccountId traceId : string) (now : Z)
  | RequestIntakeReversal (i : RequestReversalInput) (now : Z)
  | ApproveIntakeReversal (caseId operationId accountId traceId : string) (now : Z).

Section WithUlid.
Context (ulid : nat → string) (jobId : nat → option string).
Notation istep := (istep ulid jobId).
Notation steps := (rtc istep).

Definition answered {A} (m : io intake A) : io intake unit := await _ := m in ret tt.

Definition serve (c : Call) : io intake unit :=
  match c with
  | CreateDraftIntake a tr b now t => answered (CreateDraftIntake_execute ulid a tr b now t)
  | SubmitInitialCase a k tr b now t => answered (SubmitInitialCase_execute ulid a k tr b now t)
  | RespondToInformationRequest a k q tr b now t => answered (RespondToInformationRequest_execute ulid a k q tr b now t)
  | PublishInformationRequest a k tr b now t => answered (PublishInformationRequest_execute ulid a k tr b now t)
  | WithdrawInformationRequest a k q tr n now => answered (WithdrawInformationRequest_execute ulid a k q tr n now)
  | RecordFounderDecision a k tr b now t => answered (RecordFounderDecision_execute ulid jobId a k tr b now t)
  | ReviewEvidence a k e tr st n now t => answered (ReviewEvidence_execute ulid a k e tr st n now t)
  | CloseCase a k tr n o now => answered (CloseCase_execute ulid a k tr n o now)
  | CreateStaffIntakeCase a st tr p d now t => answered (CreateStaffIntakeCase_execute ulid a st tr p d now t)
  | CreateStaffDraftCase a tr p t => answered (CreateStaffDraftCase_execute ulid a tr p t)
  | SubmitStaffDraftCase k tr d docs t => answered (SubmitStaffDraftCase_execute ulid k tr d docs t)
  | AssignPartnerOrganization k a tr p f now => answered (AssignPartnerOrganization_execute ulid k a tr p f now)
  | ForceExpireInformationRequest a k q tr r now => ForceExpireInformationRequest_execute ulid a k q tr r now
  | RetryPostIpoStructuringHandoff k tr now => answered (RetryPostIpoStructuringHandoff_execute ulid k tr now)
  | TransitionCaseToPostIpoStructuring k tr now => answered (TransitionCaseToPostIpoStructuring_execute ulid k tr now)
  | ExpireOverdueInformationRequests tr now => answered (ExpireOverdueInformationRequests_execute ulid tr now)
  | RecordLegalStructuring k a tr r m now => answered (RecordLegalStructuring_execute ulid k a tr r m now)
  | RecordAppraisal k a tr v r m now => answered (RecordAppraisal_execute ulid k a tr v r m now)
  | PostOwnCaseMessage a k b now => answered (PostOwnCaseMessage_execute ulid a k b now)
  | PostCaseMessageForOperations a k l b now => answered (PostCaseMessageForOperations_execute ulid a k l b now)
  | CreateOrganization k n c a tr now => answered (CreateOrganization_execute ulid k n c a tr now)
  | UpdateOrganizationStatus k i st a tr now => answered (UpdateOrganizationStatus_execute ulid k i st a tr now)
  | RequestIntakeReversal i now => answered (requestIntakeReversal ulid i now)
  | ApproveIntakeReversal k o a tr now => answered (approveIntakeReversal ulid k o a tr now)
  end.

(** Calls in the order they are served. *)
Definition serve_all (cs : list Call) (s : intake) : intake := foldl (λ s c, (serve c s).2) s cs.

(** ** What a service does to the database *)

Lemma io_steps {A} (t : txn intake A) : (∀ s a s', t s = Ok (a, s') → istep s s') → io_rel steps (transaction t).
Proof. intros H. apply io_rel_transaction; [apply _|]. intros. eapply rtc_once, H. done. Qed.

(** [walk] reduces [io_rel steps m] to its transactions. *)
Ltac walk := repeat first
  [ apply io_rel_ret; apply _ | apply io_rel_throw; apply _ | apply io_rel_lift; apply _ | apply io_rel_query; apply _
  | apply io_rel_catch; [apply _| |intros ?] | apply io_rel_bind; [apply _| |intros ?]
  | apply io_rel_fold; [apply _|intros ? ?]
  | match goal with |- io_rel _ (match ?x with _ => _ end) => destruct x end
  | match goal with |- io_rel _ (if ?x then _ else _) => destruct x end ].

#[local] Instance elsewhere_pre : PreOrder elsewhere.
Proof.
  split; [by repeat split|]. intros s1 s2 s3 [(A & B & C & D & E)] [(A' & B' & C' & D' & E')].
  split; unfold IntakeLedger.quiet; split_and?; congruence.
Qed.

Lemma audit_elsewhere k a act i ch t : tx_rel elsewhere (organization_audit ulid k a act i ch t).
Proof.
  unfold organization_audit. walk_tx; [|apply tx_rel_write; intros s; by repeat split].
  by intros s x s' [-> ->]%IntakeLedger.fresh_id_ok.
Qed.

Lemma createOrganization_elsewhere k n c a tr t : tx_rel elsewhere (createOrganization ulid k n c a tr t).
Proof.
  unfold createOrganization. walk_tx; [|apply tx_rel_prim; unfold organization_create|apply audit_elsewhere].
  - by intros s x s' [-> ->]%IntakeLedger.fresh_id_ok.
  - intros s s' H. inv_ok H. injection H as <-. by destruct k; repeat split.
Qed.

Lemma updateOrganization_elsewhere k i st a tr t : tx_rel elsewhere (updateOrganizationStatus ulid k i st a tr t).
Proof.
  unfold updateOrganizationStatus. walk_tx; [|apply audit_elsewhere].
  apply tx_rel_write. intros s. by destruct k; repeat split.
Qed.

Lemma request_reversal_steps i now : io_rel steps (requestIntakeReversal ulid i now).
Proof.
  unfold requestIntakeReversal, mapRepositoryConflict, createReversalOperation.
  destruct (parse_command _) as [cmd|] eqn:Ec; [|walk]. destruct (bool_decide _); [|walk].
  apply io_rel_bind; [apply _|walk|intros [snap|]]; [|walk].
  destruct (negb _ || _) eqn:Es; [walk|]. boolify. destruct (getReversalAction snap cmd) as [action|] eqn:Ea; [|walk].
  walk; apply io_steps; intros s o s' Ho; first [by eapply is_request | by eapply is_run | by eapply is_record_error].
Qed.

Lemma approve_reversal_steps k o a tr now : io_rel steps (approveIntakeReversal ulid k o a tr now).
Proof.
  unfold approveIntakeReversal, mapRepositoryConflict, approveReversalOperation.
  walk; apply io_steps; intros s b s' H; first [by eapply is_claim | by eapply is_run | by eapply is_record_error].
Qed.

(** Every call is a run of the transactions. *)
Lemma call_steps c : io_rel steps (serve c).
Proof.
  destruct c; simpl; unfold answered;
    try (apply io_rel_bind; [apply _| |intros ?; apply io_rel_ret; apply _]);
    try apply request_reversal_steps; try apply approve_reversal_steps;
    unfold CreateDraftIntake_execute, SubmitInitialCase_execute, RespondToInformationRequest_execute,
      PublishInformationRequest_execute, WithdrawInformationRequest_execute, RecordFounderDecision_execute,
      ReviewEvidence_execute, CloseCase_execute, CreateStaffIntakeCase_execute, CreateStaffDraftCase_execute,
      SubmitStaffDraftCase_execute, AssignPartnerOrganization_execute, ForceExpireInformationRequest_execute,
      RetryPostIpoStructuringHandoff_execute, TransitionCaseToPostIpoStructuring_execute,
      ExpireOverdueInformationRequests_execute, expire_one, RecordLegalStructuring_execute, RecordAppraisal_execute,
      PostOwnCaseMessage_execute, PostCaseMessageForOperations_execute, CreateOrganization_execute,
      UpdateOrganizationStatus_execute, mapping, found_or, read, check_organization, above_floor,
      resolvePublishedInformationRequestOrThrow, found_or, read; walk;
    apply io_steps; intros ? ? ? ?;
    first [ by eapply is_draft | by eapply is_submit | by eapply is_resubmit | by eapply is_publish
          | by eapply is_withdraw_request | by eapply is_decide | by eapply is_review | by eapply is_close
          | by eapply is_staff | by eapply is_assign | by eapply is_expire | by eapply is_structure
          | by eapply is_legal | by eapply is_appraisal | by eapply is_message
          | by eapply is_elsewhere, createOrganization_elsewhere | by eapply is_elsewhere, updateOrganization_elsewhere ].
Qed.

Lemma serve_all_steps cs : ∀ s, steps s (serve_all cs s).
Proof.
  induction cs as [|c cs IH]; intros s; simpl; [done|]. etrans; [apply (call_steps c s)|]. apply IH.
Qed.

End WithUlid.
End IntakeApi.
