(* ===== verification/IntakeSweep.v ===== *)
(** ExpireOverdueInformationRequestsService, end to end: in a database whose rows satisfy their
    constraints, the sweep never throws, expires every overdue request of a waiting case together
    with the case, and touches no other request and no other case. *)

From S2P Require Import Prelude JsString Currency DateTime IntakePolicy Db OfferingPolicy OfferingRepo OfferingServices OfferingInv OfferingDemo IntakeDb IntakeRepo IntakeReversal IntakeLedger IntakeMachine IntakeInv IntakeDemo Paging IntakeReads IntakeServices.

Module IntakeSweep.
Import IntakePolicy IntakeDb IntakeRepo IntakeLedger IntakeMachine IntakeInv IntakeReads IntakeServices.
Import OfferingServices (JobRunSummary, mkSummary, js_checked, js_acted).

Section WithUlid.
Context (ulid : nat → string) (ulid_fresh : Inj eq eq ulid).

(** What the database guarantees of the rows it holds, and that the next ULIDs are new. *)
Record storable (s : intake) : Prop := {
  st_cases : ∀ c, In c (cases (base s)) → case_row_ok s c = true;
  st_applicants : ∀ c, In c (cases (base s)) → account_exists (IntakeCase.applicantAccountId c) s = true;
  st_requests : ∀ r, In r (requests s) → request_row_ok r = true;
  st_events : ∀ n, (ulids (base s) <= n)%nat → ¬ In (String.append "evt_" (ulid n)) (map CaseEvent.id (caseEvents s)) }.

(** ** One transaction *)

Lemma append_prefix_inj p a b : String.append p a = String.append p b → a = b.
Proof. induction p as [|c p IH]; simpl; [done|]. by intros [= ->%IH]. Qed.

Definition expire_event (i : ExpireInformationRequestInput) : AppendIntakeCaseEventInput :=
  let actor := snd <$> er_manualOverride i in
  with_resource "information_request" (er_requestId i) (with_stages waiting_on_applicant expired
    (event_input (er_caseId i)
       (key_of ["case"; er_caseId i; "information-request"; er_requestId i; "expired"]) "case_expired"
       (if is_set actor then staff else system) actor (er_traceId i)
       [("manual_override", JBool (is_set (er_manualOverride i)))] (er_expiredAt i))).

(** The next number of a case is free. *)
Lemma next_number_free s c : wf s → In c (cases (base s)) →
  exists_row (λ q, bool_decide (CaseEvent.caseId q = IntakeCase.id c) &&
                   (CaseEvent.eventSequence q =? IntakeCase.workflowEventSequence c + 1)) (caseEvents s) = false.
Proof.
  intros W Hc. apply exists_row_false. intros q Hq. destruct (bool_decide _) eqn:E; [|done]. simpl. boolify.
  apply Z.eqb_neq. intros En.
  destruct (ok_numbers _ W (IntakeCase.id c) (IntakeCase.workflowEventSequence c)) as [Hn Hl].
  { by apply (in_map IntakeLedger.case_key) in Hc. }
  assert (In (CaseEvent.eventSequence q) (upto (IntakeCase.workflowEventSequence c))) as Hin.
  { rewrite <- Hl. apply in_map. apply filter_In. split; [done|]. rewrite <- E. apply by_id_eq. }
  unfold upto in Hin. apply in_map_iff in Hin as (m & Em & [_ Hm]%in_seq). lia.
Qed.

(** An event without audit or reversal reference, accepted by every constraint. *)
Lemma event_create_ok e s :
  exists_row (by_id CaseEvent.id (CaseEvent.id e)) (caseEvents s) = false →
  exists_row (by_id CaseEvent.eventKey (CaseEvent.eventKey e)) (caseEvents s) = false →
  exists_row (λ q, bool_decide (CaseEvent.caseId q = CaseEvent.caseId e) &&
                   (CaseEvent.eventSequence q =? CaseEvent.eventSequence e)) (caseEvents s) = false →
  CaseEvent.sourceAuditLogId e = None → CaseEvent.reversalOfEventId e = None → CaseEvent.eventSource e = "live" →
  0 < CaseEvent.eventSequence e → 0 ≤ CaseEvent.workflowVersion e →
  (CaseEvent.actorType e = system → CaseEvent.actorAccountId e = None) → transition_ok e = true →
  exists_row (by_id IntakeCase.id (CaseEvent.caseId e)) (cases (base s)) = true →
  opt_ok (λ a, account_exists a s) (CaseEvent.actorAccountId e) = true →
  event_create e s = Ok (set_caseEvents (caseEvents s ++ [e]) s).
Proof.
  intros H1 H2 H3 H4 H5 H6 H7 H8 H9 H10 H11 H12. unfold event_create, reversal_ok.
  rewrite H1, H2, H3, H4, H5, H6, H10, H11, H12. apply Z.ltb_lt in H7. apply Z.leb_le in H8. rewrite H7, H8. simpl.
  replace (bool_decide (CaseEvent.actorType e = system) && is_set (CaseEvent.actorAccountId e)) with false; [done|].
  case_bool_decide; [by rewrite H9 | done].
Qed.

Lemma not_in_row {A} (id : A → string) k l : ¬ In k (map id l) → exists_row (by_id id k) l = false.
Proof.
  intros H. apply exists_row_false. intros x Hx. apply by_id_ne. intros <-. apply H. by apply in_map.
Qed.

Lemma in_row {A} (id : A → string) k l : In k (map id l) → exists_row (by_id id k) l = true.
Proof. intros (x & <- & Hx)%in_map_iff. apply exists_row_true. exists x. split; [done|]. apply by_id_eq. Qed.

(** An event of a known case, by the system or a known account, is appended. *)
Lemma append_ok i w v s c : wf s → storable s → get_case (ev_caseId i) s = Some c →
  ¬ In (ev_eventKey i) (map CaseEvent.eventKey (caseEvents s)) →
  ev_sourceAuditLogId i = None → ev_reversalOfEventId i = None → ev_eventSource i = None → 0 ≤ v →
  (ev_actorType i = system → ev_actorAccountId i = None) →
  opt_ok (λ a, account_exists a s) (ev_actorAccountId i) = true →
  (∀ id_ n, transition_ok (event_row id_ n w v i) = true) →
  ∃ e s', appendWithWorkflow ulid i w v s = Ok (e, s') ∧ e = String.append "evt_" (ulid (ulids (base s))).
Proof.
  intros W St Hc Hkey Hsrc Hrev Hes Hv Hsys Hact Htr. destruct (get_case_in _ _ _ Hc) as [Hin Hid].
  set (n := IntakeCase.workflowEventSequence c + 1).
  set (s1 := update_case (ev_caseId i) (IntakeCase.set_sequence n) s).
  set (s2 := set_base (set_ulids (S (ulids (base s))) (base s1)) s1).
  set (e := String.append "evt_" (ulid (ulids (base s)))).
  exists e, (set_caseEvents (caseEvents s2 ++ [event_row e n w v i]) s2). split; [|done].
  assert (event_create (event_row e n w v i) s2 = Ok (set_caseEvents (caseEvents s2 ++ [event_row e n w v i]) s2)) as E.
  { apply event_create_ok; simpl; try done.
    - by apply not_in_row, St.
    - by apply not_in_row.
    - rewrite <- Hid. by apply next_number_free.
    - by rewrite Hes.
    - destruct (ok_numbers _ W _ _ (get_case_key _ _ _ Hc)). lia.
    - apply in_row. rewrite map_update_where by done. rewrite <- Hid. by apply in_map. }
  apply tbind_ok. exists n, s1. split.
  { apply tbind_ok. exists (Some c), s. by rewrite <- Hc. }
  apply tbind_ok. exists e, s2. split; [done|]. apply tbind_ok. eexists tt, _. by split; [apply tprim_ok|].
Qed.

(** Rows are judged without the counter of the ledger, against the accounts, the organizations
    and the revisions. *)
Lemma case_row_erased s c : case_row_ok s (IntakeCase.set_sequence 0 c) = case_row_ok s c.
Proof. done. Qed.

Record same_rows (s s' : intake) : Prop := {
  sr_accounts : accounts (base s') = accounts (base s); sr_practices : practices s' = practices s;
  sr_firms : firms s' = firms s; sr_revisions : revisions s' = revisions s }.

Lemma case_row_frame s s' c : same_rows s s' → case_row_ok s' c = case_row_ok s c.
Proof. intros [H1 H2 H3 H4]. unfold case_row_ok, account_exists. by rewrite H1, H2, H3, H4. Qed.

#[local] Instance same_rows_pre : PreOrder same_rows.
Proof. split; [by repeat split|]. intros s1 s2 s3 [] []. split; congruence. Qed.

Lemma append_rows i w v : tx_rel same_rows (appendWithWorkflow ulid i w v).
Proof.
  unfold appendWithWorkflow, next_sequence. walk_tx.
  - apply tx_rel_write. by repeat split.
  - by intros s x s' [-> ->]%fresh_id_ok.
  - apply tx_rel_prim. intros s s' H. unfold event_create in H. inv_ok H. injection H as <-. by repeat split.
Qed.

Definition ids_new (s : intake) : Prop :=
  ∀ n, (ulids (base s) <= n)%nat → ¬ In (String.append "evt_" (ulid n)) (map CaseEvent.id (caseEvents s)).

Lemma storable_frame s s' f : storable s → same_rows s s' → ids_new s' →
  erased s' = map f (erased s) →
  (∀ c, case_row_ok s c = true → case_row_ok s (f c) = true) →
  (∀ c, IntakeCase.applicantAccountId (f c) = IntakeCase.applicantAccountId c) →
  (∀ r, In r (requests s') → request_row_ok r = true) → storable s'.
Proof.
  intros [H1 H2 H3 H4] R I E Hf Ha Hr.
  assert (∀ c, In c (cases (base s')) → ∃ c0, In c0 (cases (base s)) ∧
    IntakeCase.set_sequence 0 c = f (IntakeCase.set_sequence 0 c0)) as K.
  { intros c Hc. apply (in_map (IntakeCase.set_sequence 0)) in Hc. fold (erased s') in Hc. rewrite E in Hc.
    apply in_map_iff in Hc as (x & <- & (c0 & <- & H0)%in_map_iff). eauto. }
  split; try done.
  - intros c (c0 & H0 & Ec)%K. rewrite <- case_row_erased, Ec, (case_row_frame s s') by done. apply Hf. by rewrite case_row_erased, H1.
  - intros c (c0 & H0 & Ec)%K. unfold account_exists. rewrite (sr_accounts _ _ R).
    replace (IntakeCase.applicantAccountId c) with (IntakeCase.applicantAccountId (IntakeCase.set_sequence 0 c)) by done.
    rewrite Ec, Ha. by apply (H2 c0).
Qed.

Lemma map_id_eq {A} (l : list A) : map (λ x, x) l = l.
Proof. by induction l as [|x l IH]; simpl; rewrite ?IH. Qed.

(** ** The transaction *)

(** Appending the event of an expiry changes no row a constraint looks at. *)
Lemma expire_event_ok i s c : wf s → storable s → er_manualOverride i = None → get_case (er_caseId i) s = Some c →
  ∃ s', event ulid (expire_event i) s = Ok (tt, s') ∧ storable s' ∧ erased s' = erased s ∧ requests s' = requests s.
Proof.
  intros W St Hm Hc. unfold event, appendIntakeCaseEvent.
  destruct (find_row (by_id CaseEvent.eventKey (ev_eventKey (expire_event i))) (caseEvents s)) as [q|] eqn:Eq.
  { exists s. split_and!; try done. unfold tbind, tread, tret. by rewrite Eq. }
  assert (¬ In (ev_eventKey (expire_event i)) (map CaseEvent.eventKey (caseEvents s))) as Hk.
  { intros (x & Ex & Hx)%in_map_iff. rewrite find_row_None in Eq. specialize (Eq x Hx). by rewrite <- Ex, by_id_eq in Eq. }
  destruct (append_ok (expire_event i) (wf_type (getIntakeWorkflowForStage expired)) 1 s c) as (e & s' & H & He);
    try done; [by simpl; rewrite Hm..|].
  exists s'. pose proof (append_same _ _ _ _ _ _ _ H) as (A & B & C).
  destruct (append_wf _ _ _ _ _ _ _ H) as (c' & _ & Hev & Hb & _). split_and!; try done.
  - unfold tbind, tread, tret. rewrite Eq. 
    change (ev_toStage (expire_event i)) with (Some expired). change (workflowVersion (expire_event i)) with 1.
    cbv beta iota. by rewrite H.
  - apply (storable_frame s s' (λ x, x)); try done; [by eapply append_rows| |by rewrite map_id_eq|by rewrite B; apply St].
    intros n Hn. rewrite Hev, map_app, in_app_iff, Hb in *. simpl in *. intros [Hin|[E|[]]].
    + eapply (st_events _ St n); [lia|done].
    + rewrite He in E. apply append_prefix_inj, ulid_fresh in E. lia.
Qed.


Lemma audit_ok actor act k ch t s : wf s → storable s →
  ∃ s', audit ulid actor act k ch t s = Ok (tt, s') ∧ wf s' ∧ storable s' ∧ erased s' = erased s ∧ requests s' = requests s.
Proof.
  intros W St. eexists. split; [reflexivity|]. split; [exact W|]. split; [|done].
  apply (storable_frame s _ (λ x, x)); try done; [|by rewrite map_id_eq|apply St].
  intros n Hn. simpl in *. apply St. lia.
Qed.

Definition expired_request (at_ : Z) : InformationRequest.t → InformationRequest.t :=
  InformationRequest.resolve request_expired at_ resolution_expired None.

Definition expire_case (k : string) (at_ : Z) (c : IntakeCase.t) : IntakeCase.t :=
  if by_id IntakeCase.id k c then set_expired at_ c else c.

Lemma expired_row r at_ : request_row_ok r = true → is_published r = true →
  request_row_ok (expired_request at_ r) = true ∧ InformationRequest.resolvingRevisionId (expired_request at_ r) = None.
Proof.
  unfold is_published, request_row_ok. intros H Hp. boolify. rewrite Hp in *. simpl in *. boolify.
  destruct (InformationRequest.resolvingRevisionId r); [done|]. split; [|done].
  rewrite !andb_true_iff. auto.
Qed.

Lemma request_by_id k rid s r : wf s → case_request k rid s = Some r →
  find_row (by_id InformationRequest.id rid) (requests s) = Some r ∧ InformationRequest.caseId r = k ∧
  InformationRequest.id r = rid ∧ In r (requests s).
Proof.
  intros W [Hin H]%find_row_Some. unfold request_of_case in H. boolify. split_and!; try done.
  destruct (find_row _ _) as [r'|] eqn:E.
  - apply find_row_Some in E as [Hr' E]. unfold by_id in E. boolify. f_equal.
    pose proof (ok_requests _ W) as N. unfold skeleton in N. simpl in N. rewrite map_map in N.
    apply (NoDup_map_inj_in InformationRequest.id _ _ _ N); congruence || done.
  - rewrite find_row_None in E. specialize (E r Hin). subst. by rewrite by_id_eq in E.
Qed.

Lemma erased_update k f s : (∀ c, IntakeCase.set_sequence 0 (f c) = f (IntakeCase.set_sequence 0 c)) →
  erased (update_case k f s) = map (λ c, if by_id IntakeCase.id k c then f c else c) (erased s).
Proof.
  intros H. unfold erased, update_case, update_where. simpl. rewrite !map_map. apply map_ext. intros c.
  replace (by_id IntakeCase.id k (IntakeCase.set_sequence 0 c)) with (by_id IntakeCase.id k c) by done.
  by destruct (by_id _ _ _).
Qed.

Lemma expire_case_find k k0 at_ l :
  find_row (by_id IntakeCase.id k) (map (expire_case k0 at_) l) = expire_case k0 at_ <$> find_row (by_id IntakeCase.id k) l.
Proof. apply find_row_map. intros c. unfold expire_case. by destruct (by_id IntakeCase.id k0 c). Qed.

(** An awaited request expires, with its case. *)
Lemma expire_ok i s c : wf s → storable s → er_manualOverride i = None → get_case (er_caseId i) s = Some c →
  awaiting_answer c (case_request (er_caseId i) (er_requestId i) s) = true →
  ∃ s', expireInformationRequest ulid i s = Ok (true, s') ∧ storable s' ∧
    requests s' = update_where (by_id InformationRequest.id (er_requestId i)) (expired_request (er_expiredAt i)) (requests s) ∧
    erased s' = map (expire_case (er_caseId i) (er_expiredAt i)) (erased s).
Proof.
  intros W St Hm Hc Haw. unfold awaiting_answer in Haw. destruct (case_request _ _ s) as [r|] eqn:Er; [|by boolify].
  boolify. destruct (request_by_id _ _ _ _ W Er) as (Hr & Hrk & Hrid & Hrin).
  destruct (get_case_in _ _ _ Hc) as [Hcin Hid]. destruct (expired_row r (er_expiredAt i)) as [Hok Hrev]; [by apply St|done|].
  set (s1 := set_requests (update_where (by_id InformationRequest.id (er_requestId i)) (expired_request (er_expiredAt i)) (requests s)) s).
  set (s2 := update_case (er_caseId i) (set_expired (er_expiredAt i)) s1).
  assert (request_update (er_requestId i) (expired_request (er_expiredAt i)) s = Ok s1) as H1.
  { unfold request_update. by rewrite Hr, Hok, Hrev. }
  assert (case_update (er_caseId i) (set_expired (er_expiredAt i)) s1 = Ok s2) as H2.
  { unfold case_update. change (get_case (er_caseId i) s1) with (get_case (er_caseId i) s). rewrite Hc.
    replace (case_row_ok s1 _) with (case_row_ok s c) by done. by rewrite (st_cases _ St). }
  assert (erased s2 = map (expire_case (er_caseId i) (er_expiredAt i)) (erased s)) as E2.
  { exact (erased_update (er_caseId i) (set_expired (er_expiredAt i)) s1 (λ _, eq_refl)). }
  assert (storable s2) as St2.
  { apply (storable_frame s s2 (expire_case (er_caseId i) (er_expiredAt i))); try done.
    - exact (st_events _ St).
    - intros c0. unfold expire_case. by destruct (by_id _ _ c0).
    - intros c0. unfold expire_case. by destruct (by_id _ _ c0).
    - intros q (q0 & Hq & ->)%in_update_where. destruct (by_id _ _ q0) eqn:Eq; [|by apply St]. unfold by_id in Eq. boolify.
      assert (q0 = r) as ->; [|done]. apply (NoDup_map_inj_in InformationRequest.id (requests s)); try done; [|congruence].
      pose proof (ok_requests _ W) as N. unfold skeleton in N. simpl in N. by rewrite map_map in N. }
  assert (wf s2) as W2.
  { apply (adv_wf ulid s); [|done]. etrans.
    - apply (request_update_advance ulid (er_requestId i) (expired_request (er_expiredAt i)) ltac:(done) s tt s1).
      by apply tprim_ok.
    - apply (case_update_advance ulid (er_caseId i) (set_expired (er_expiredAt i)) ltac:(done) s1 tt s2). by apply tprim_ok. }
  destruct (audit_ok None "intake.information_request_expired" (er_caseId i)
    [("trace_id", JStr (er_traceId i)); ("request_id", JStr (er_requestId i));
     ("previous_stage", JStr "waiting_on_applicant"); ("new_stage", JStr "expired")] (er_expiredAt i) s2 W2 St2)
    as (s3 & H3 & W3 & St3 & E3 & R3).
  assert (∃ c3, get_case (er_caseId i) s3 = Some c3) as (c3 & Hc3).
  { pose proof (erased_case (er_caseId i) s3) as Ec. rewrite E3, E2, expire_case_find, erased_case, Hc in Ec. simpl in Ec.
    destruct (get_case (er_caseId i) s3); [by eexists | done]. }
  destruct (expire_event_ok i s3 c3 W3 St3 Hm Hc3) as (s4 & H4 & St4 & E4 & R4).
  exists s4. split_and!; [|done|by rewrite R4, R3|].
  - unfold expireInformationRequest. do 2 (apply tbind_ok; eexists _, _; split; [reflexivity|]; rewrite ?Hc, ?Er; cbv beta iota).
    unfold awaiting_answer. rewrite bool_decide_eq_true_2 by done. rewrite H0. simpl andb. cbv beta iota zeta.
    rewrite Hm. apply tbind_ok. exists tt, s1. split; [by apply tprim_ok|]. apply tbind_ok. exists tt, s2. split; [by apply tprim_ok|].
    apply tbind_ok. exists tt, s3. split; [done|]. apply tbind_ok. exists tt, s4. split; [|done].
    unfold expire_event in H4. by rewrite Hm in H4.
  - by rewrite E4, E3.
Qed.


(** ** The loop *)

Definition waiting (s : intake) (k : string) : bool :=
  match get_case k s with Some c => bool_decide (IntakeCase.stage c = waiting_on_applicant) | None => false end.

(** the timer row [f] asks to expire [r] *)
Definition asks (now : Z) (r : InformationRequest.t) (f : PublishedInformationRequestForTimer) : bool :=
  isInformationRequestOverdue (ft_dueAt f) now && bool_decide (ft_requestId f = InformationRequest.id r) &&
  bool_decide (ft_caseId f = InformationRequest.caseId r).

Definition hit (now : Z) (l : list PublishedInformationRequestForTimer) (s : intake) (r : InformationRequest.t) : bool :=
  existsb (asks now r) l && is_published r && waiting s (InformationRequest.caseId r).

Definition hit_case now l s (k : string) : bool :=
  existsb (λ r, hit now l s r && bool_decide (InformationRequest.caseId r = k)) (requests s).

Lemma waiting_erased s k : waiting s k =
  match find_row (by_id IntakeCase.id k) (erased s) with
  | Some c => bool_decide (IntakeCase.stage c = waiting_on_applicant) | None => false end.
Proof. unfold waiting. rewrite erased_case. by destruct (get_case k s). Qed.

(** A waiting case has one published request. *)
Lemma one_published s k r r' : good s → waiting s k = true → In r (requests s) → In r' (requests s) →
  InformationRequest.caseId r = k → InformationRequest.caseId r' = k → is_published r = true → is_published r' = true →
  InformationRequest.id r = InformationRequest.id r'.
Proof.
  intros G Hw Hr Hr' Hk Hk' Hp Hp'. unfold waiting in Hw. destruct (get_case k s) as [c|] eqn:Hc; [|done]. boolify.
  pose proof (co_requests _ _ _ (good_case s k c G Hc)) as Hn. simpl in Hn. rewrite Hw in Hn. simpl in Hn.
  unfold published_count in Hn.
  assert (∀ q, In q (requests s) → InformationRequest.caseId q = k → is_published q = true →
    In (InformationRequest.id q, published)
      (List.filter (λ q, bool_decide (q.2 = published)) (v_requests (case_view k s)))) as K.
  { intros q Hq Hqk Hqp. apply filter_In. split; [|done]. unfold case_view. simpl. apply in_map_iff. exists q.
    unfold is_published in Hqp. boolify. unfold request_view. rewrite Hqp. split; [done|].
    apply filter_In. split; [done|]. rewrite <- Hqk. apply by_id_eq. }
  pose proof (K r Hr Hk Hp) as A. pose proof (K r' Hr' Hk' Hp') as B.
  destruct (List.filter _ _) as [|x [|]]; [done| |done]. destruct A as [->|[]], B as [[= E]|[]]. by symmetry.
Qed.

Lemma unique_request s r r' : wf s → In r (requests s) → In r' (requests s) →
  InformationRequest.id r = InformationRequest.id r' → r = r'.
Proof.
  intros W. pose proof (ok_requests _ W) as N. unfold skeleton in N. simpl in N. rewrite map_map in N.
  by apply (NoDup_map_inj_in InformationRequest.id).
Qed.

Lemma case_request_of s r : wf s → In r (requests s) →
  case_request (InformationRequest.caseId r) (InformationRequest.id r) s = Some r.
Proof.
  intros W Hr. unfold case_request. destruct (find_row _ _) as [q|] eqn:E.
  - apply find_row_Some in E as [Hq E]. unfold request_of_case in E. boolify. f_equal. by apply (unique_request s).
  - rewrite find_row_None in E. specialize (E r Hr). unfold request_of_case in E.
    rewrite !bool_decide_eq_true_2 in E by done. done.
Qed.

Lemma existsb_ext_in {A} (p q : A → bool) l : (∀ x, In x l → p x = q x) → existsb p l = existsb q l.
Proof. induction l as [|x l IH]; simpl; [done|]. intros H. by rewrite H, IH by auto. Qed.

Lemma existsb_map {A B} (h : A → B) (p : B → bool) l : existsb p (map h l) = existsb (λ x, p (h x)) l.
Proof. induction l as [|x l IH]; simpl; [done|]. by rewrite IH. Qed.

Lemma existsb_none {A} (p : A → bool) l : (∀ x, In x l → p x = false) → existsb p l = false.
Proof. induction l as [|x l IH]; simpl; [done|]. intros H. by rewrite H, IH by auto. Qed.

(** What the loop leaves of the rows it started from. *)
Record swept (now : Z) (l : list PublishedInformationRequestForTimer) (s s' : intake) (n : nat) : Prop := {
  sw_requests : requests s' = map (λ r, if hit now l s r then expired_request now r else r) (requests s);
  sw_cases : ∀ k, find_row (by_id IntakeCase.id k) (erased s') =
    (λ c, if hit_case now l s k then set_expired now c else c) <$> find_row (by_id IntakeCase.id k) (erased s);
  sw_acted : n = length (List.filter (hit now l s) (requests s)) }.

Lemma swept_nil now s : swept now [] s s 0.
Proof.
  split; simpl.
  - by rewrite map_id_eq.
  - intros k. replace (hit_case now [] s k) with false; [by destruct (find_row _ _)|].
    symmetry. unfold hit_case. by induction (requests s).
  - by induction (requests s).
Qed.

Lemma swept_ext now l l' s s' n : (∀ r, In r (requests s) → hit now l s r = hit now l' s r) →
  swept now l s s' n → swept now l' s s' n.
Proof.
  intros H [H1 H2 H3]. split.
  - rewrite H1. apply map_ext_in. intros r Hr. by rewrite H.
  - intros k. rewrite H2. replace (hit_case now l' s k) with (hit_case now l s k); [done|].
    unfold hit_case. apply existsb_ext_in. intros r Hr. by rewrite H.
  - rewrite H3. f_equal. apply filter_ext_in. intros r Hr. by rewrite H.
Qed.

Lemma count_remove {A} (id : A → string) (p : A → bool) l x : List.NoDup (map id l) → In x l → p x = true →
  length (List.filter p l) = S (length (List.filter (λ r, p r && negb (bool_decide (id r = id x))) l)).
Proof.
  induction l as [|y l IH]; simpl; [done|]. rewrite List.NoDup_cons_iff. intros [Hy Hl] [->|Hx] Hp.
  - rewrite Hp, bool_decide_eq_true_2 by done. simpl. f_equal. f_equal. apply filter_ext_in. intros z Hz.
    rewrite bool_decide_eq_false_2; [by rewrite andb_true_r|]. intros E. apply Hy. rewrite <- E. by apply in_map.
  - rewrite (bool_decide_eq_false_2 (id y = id x)).
    + rewrite andb_true_r. destruct (p y); simpl; by rewrite IH.
    + intros E. apply Hy. rewrite E. by apply in_map.
Qed.

Section Step.
Context (now : Z) (f : PublishedInformationRequestForTimer) (s s1 : intake) (r0 : InformationRequest.t).
Context (G : good s) (Hin : In r0 (requests s)) (Hrid : InformationRequest.id r0 = ft_requestId f)
  (Hk : InformationRequest.caseId r0 = ft_caseId f) (Hpub : is_published r0 = true)
  (Hw : waiting s (ft_caseId f) = true) (Hover : isInformationRequestOverdue (ft_dueAt f) now = true)
  (Hreq : requests s1 = update_where (by_id InformationRequest.id (ft_requestId f)) (expired_request now) (requests s))
  (Her : erased s1 = map (expire_case (ft_caseId f) now) (erased s)).

Definition step_row (r : InformationRequest.t) : InformationRequest.t :=
  if by_id InformationRequest.id (ft_requestId f) r then expired_request now r else r.

Lemma waiting_after k : waiting s1 k = waiting s k && negb (bool_decide (k = ft_caseId f)).
Proof.
  rewrite !waiting_erased, Her, expire_case_find. destruct (find_row _ (erased s)) as [c|] eqn:E; [|done]. simpl.
  apply find_row_Some in E as [_ E]. unfold expire_case, by_id in *. boolify. subst k.
  destruct (bool_decide (IntakeCase.id c = ft_caseId f)); simpl; [by rewrite andb_false_r|by rewrite andb_true_r].
Qed.

Lemma hit_head : hit now (f :: []) s r0 = true ∧ ∀ l, hit now (f :: l) s r0 = true.
Proof.
  assert (asks now r0 f = true) as A by (unfold asks; by rewrite Hover, !bool_decide_eq_true_2).
  split; [|intros l]; unfold hit; simpl; by rewrite A, Hpub, Hk, Hw.
Qed.

Lemma hit_after l r : In r (requests s) →
  hit now l s1 (step_row r) = hit now (f :: l) s r && negb (bool_decide (InformationRequest.id r = InformationRequest.id r0)).
Proof.
  intros Hr. unfold step_row, by_id. rewrite Hrid. case_bool_decide as E; simpl.
  - rewrite andb_false_r. unfold hit, is_published. simpl. by rewrite andb_false_r.
  - rewrite andb_true_r. unfold hit. rewrite waiting_after. simpl.
    replace (asks now r f) with false by (unfold asks; rewrite (bool_decide_eq_false_2 (ft_requestId f = _)) by congruence; by rewrite andb_false_r).
    simpl. case_bool_decide as Ek; simpl; [|by rewrite andb_true_r]. rewrite andb_false_r.
    destruct (is_published r) eqn:Ep; [|by rewrite !andb_false_r].
    destruct E. rewrite <- Hrid. eapply one_published; [exact G|exact Hw|..]; try done; congruence.
Qed.

Lemma request_of_step r : In r (requests s) → InformationRequest.id r = ft_requestId f → r = r0.
Proof. intros Hr E. apply (unique_request s); [apply G|done..|congruence]. Qed.

(** The case of the expired request is hit once; the other cases are as before. *)
Lemma hit_case_after l k :
  hit_case now l s1 k = hit_case now (f :: l) s k && negb (bool_decide (k = ft_caseId f)).
Proof.
  transitivity (existsb (λ r, hit now (f :: l) s r && negb (bool_decide (InformationRequest.id r = InformationRequest.id r0)) &&
                              bool_decide (InformationRequest.caseId r = k)) (requests s)).
  { unfold hit_case. rewrite Hreq. unfold update_where. rewrite existsb_map. apply existsb_ext_in. intros r Hr.
    fold (step_row r). rewrite hit_after by done. f_equal. unfold step_row. by destruct (by_id _ _ r). }
  case_bool_decide as Ek; simpl; rewrite ?andb_true_r, ?andb_false_r.
  - apply existsb_none. intros r Hr.
    destruct (hit now (f :: l) s r) eqn:Eh; [|done]. case_bool_decide as E1; [done|]. case_bool_decide as E2; [|done].
    destruct E1. unfold hit in Eh. boolify. eapply one_published; [exact G|exact Hw|..]; try done; congruence.
  - apply existsb_ext_in. intros r Hr. case_bool_decide as E1; [|by rewrite andb_true_r].
    rewrite (request_of_step r Hr) by congruence. rewrite bool_decide_eq_false_2 by congruence. by rewrite !andb_false_r.
Qed.

Lemma hit_case_head l : hit_case now (f :: l) s (ft_caseId f) = true.
Proof.
  apply existsb_exists. exists r0. destruct hit_head as [_ Hhd]. by rewrite Hhd, bool_decide_eq_true_2.
Qed.

Lemma swept_step l s' n : swept now l s1 s' n → swept now (f :: l) s s' (S n).
Proof.
  intros [H1 H2 H3]. destruct hit_head as [_ Hhd]. split.
  - rewrite H1, Hreq. unfold update_where. rewrite map_map. apply map_ext_in. intros r Hr. fold (step_row r).
    rewrite hit_after by done. unfold step_row, by_id. rewrite Hrid. case_bool_decide as E.
    + by rewrite (request_of_step r Hr E), Hhd.
    + by rewrite andb_true_r.
  - intros k. rewrite H2, Her, expire_case_find, hit_case_after. destruct (find_row _ (erased s)) as [c|] eqn:Ec; [|done].
    simpl. f_equal. apply find_row_Some in Ec as [_ Ec]. unfold expire_case, by_id in Ec |- *. boolify. rewrite Ec.
    case_bool_decide as Ek; simpl; [by rewrite Ek, hit_case_head, andb_false_r | by rewrite andb_true_r].
  - rewrite H3, Hreq. rewrite (count_remove InformationRequest.id (hit now (f :: l) s) (requests s) r0); try done.
    + unfold update_where. rewrite filter_map, length_map. f_equal. f_equal. apply filter_ext_in. intros r Hr.
      by apply hit_after.
    + pose proof (ok_requests _ (proj1 G)) as N. unfold skeleton in N. simpl in N. by rewrite map_map in N.
Qed.

End Step.

(** A timer row that expires nothing: not overdue, or its case no longer waits for it. *)
Lemma hit_skip now f l s : wf s →
  (isInformationRequestOverdue (ft_dueAt f) now = false ∨
   (∀ c, get_case (ft_caseId f) s = Some c → awaiting_answer c (case_request (ft_caseId f) (ft_requestId f) s) = false)) →
  ∀ r, In r (requests s) → hit now l s r = hit now (f :: l) s r.
Proof.
  intros W H r Hr. unfold hit. simpl. destruct (asks now r f) eqn:A; [|done]. simpl. unfold asks in A. boolify.
  destruct H as [H|H]; [congruence|]. unfold waiting.
  replace (ft_caseId f) with (InformationRequest.caseId r) in H by done.
  replace (ft_requestId f) with (InformationRequest.id r) in H by done. rewrite case_request_of in H by done.
  destruct (get_case _ s) as [c|]; [|by rewrite !andb_false_r]. specialize (H c eq_refl). unfold awaiting_answer in H.
  destruct (bool_decide (IntakeCase.stage c = _)), (is_published r); simpl in *; rewrite ?andb_false_r; done.
Qed.

Lemma iofold_cons {S A B} (f : A → B → io S A) acc x xs (s : S) a s1 :
  f acc x s = (Ok a, s1) → iofold f acc (x :: xs) s = iofold f a xs s1.
Proof. intros H. simpl. unfold iobind. by rewrite H. Qed.

Lemma awaited k rid s :
  (∃ c, get_case k s = Some c ∧ awaiting_answer c (case_request k rid s) = true) ∨
  (∀ c, get_case k s = Some c → awaiting_answer c (case_request k rid s) = false).
Proof.
  destruct (get_case k s) as [c|]; [|by right]. destruct (awaiting_answer c (case_request k rid s)) eqn:E; [by left; eauto|].
  right. by intros c' [= <-].
Qed.

Lemma expire_noop i s :
  (∀ c, get_case (er_caseId i) s = Some c → awaiting_answer c (case_request (er_caseId i) (er_requestId i) s) = false) →
  expireInformationRequest ulid i s = Ok (false, s).
Proof.
  intros H. unfold expireInformationRequest, tbind, tread. destruct (get_case _ s) as [c|]; [|done]. by rewrite H.
Qed.

Lemma sweep_loop (jobId : nat → option string) now tr l : ∀ s acted, good s → storable s →
  ∃ n s', iofold (expire_one ulid now tr) acted l s = (Ok (acted + n)%nat, s') ∧ swept now l s s' n.
Proof.
  induction l as [|f l IH]; intros s acted G St.
  { exists 0%nat, s. rewrite Nat.add_0_r. split; [done | apply swept_nil]. }
  set (i := mkExpireRequest (ft_requestId f) (ft_caseId f) tr now None).
  destruct (isInformationRequestOverdue (ft_dueAt f) now) eqn:Ho;
    [destruct (awaited (ft_caseId f) (ft_requestId f) s) as [(c & Hc & Ha)|Ha]|].
  - destruct (expire_ok i s c (proj1 G) St eq_refl Hc Ha) as (s1 & H1 & St1 & R1 & E1).
    assert (good s1) as G1 by (by eapply (istep_good ulid jobId s), is_expire).
    destruct (IH s1 (S acted) G1 St1) as (n & s' & Hf & Hs). exists (S n), s'.
    rewrite (iofold_cons _ _ _ _ _ (S acted) s1), Hf.
    2: { unfold expire_one. rewrite Ho. simpl. unfold iobind, transaction. fold i. by rewrite H1. }
    split; [do 2 f_equal; lia|].
    unfold awaiting_answer in Ha. destruct (case_request _ _ s) as [r|] eqn:Er; [|by boolify]. boolify.
    destruct (request_by_id _ _ _ _ (proj1 G) Er) as (_ & Hk & Hid & Hin).
    eapply (swept_step now f s s1 r); try done. unfold waiting. rewrite Hc. by apply bool_decide_eq_true_2.
  - destruct (IH s acted G St) as (n & s' & Hf & Hs). exists n, s'. rewrite (iofold_cons _ _ _ _ _ acted s), Hf.
    2: { unfold expire_one. rewrite Ho. simpl. unfold iobind, transaction. fold i. by rewrite (expire_noop i). }
    split; [done|]. eapply swept_ext; [|exact Hs]. apply hit_skip; [apply G | by right].
  - destruct (IH s acted G St) as (n & s' & Hf & Hs). exists n, s'. rewrite (iofold_cons _ _ _ _ _ acted s), Hf.
    2: { unfold expire_one. by rewrite Ho. }
    split; [done|]. eapply swept_ext; [|exact Hs]. apply hit_skip; [apply G | by left].
Qed.

(** ** The service *)

(** A published request past its due date whose case still waits for the applicant. *)
Definition overdue_request (now : Z) (s : intake) (r : InformationRequest.t) : bool :=
  is_published r && match InformationRequest.dueAt r with Some d => isInformationRequestOverdue d now | None => false end &&
  waiting s (InformationRequest.caseId r).

Lemma for_timer_some s r : wf s → storable s → In r (requests s) → is_published r = true →
  ∃ f, for_timer s r = Some f ∧ ft_requestId f = InformationRequest.id r ∧ ft_caseId f = InformationRequest.caseId r ∧
    InformationRequest.dueAt r = Some (ft_dueAt f).
Proof.
  intros W St Hr Hp. pose proof (st_requests _ St r Hr) as Hok. unfold request_row_ok, is_published in *. boolify.
  rewrite Hp in *. simpl in *. boolify.
  destruct (InformationRequest.publishedAt r) as [pa|] eqn:Epa; [|done].
  destruct (InformationRequest.dueAt r) as [da|] eqn:Eda; [|done].
  pose proof (ok_request_case _ W (IntakeLedger.request_key r)) as Hcase.
  rewrite case_keys in Hcase. unfold for_timer. rewrite Epa, Eda.
  destruct (get_case (InformationRequest.caseId r) s) as [c|] eqn:Hc.
  - destruct (get_case_in _ _ _ Hc) as [Hin _]. pose proof (st_applicants _ St c Hin) as Ha.
    unfold account_exists in Ha. apply exists_row_true in Ha as (a & Ha & Ea).
    destruct (find_account _ _) as [a'|] eqn:Ef; [by eexists|]. unfold find_account in Ef. rewrite find_row_None in Ef.
    specialize (Ef a Ha). unfold by_id in *. by rewrite Ea in Ef.
  - exfalso. unfold get_case, find_case in Hc. rewrite find_row_None in Hc.
    assert (In (InformationRequest.caseId r) (map IntakeCase.id (cases (base s)))) as (c & Ec & Hin)%in_map_iff.
    { apply Hcase. by apply (in_map IntakeLedger.request_key) in Hr. }
    specialize (Hc c Hin). unfold by_id in Hc. by rewrite Ec, bool_decide_eq_true_2 in Hc.
Qed.

Lemma omap_all {A B} (f : A → option B) l : (∀ x, In x l → is_Some (f x)) → length (omap f l) = length l.
Proof.
  induction l as [|x l IH]; [done|]. intros H. destruct (H x (or_introl eq_refl)) as [y Hy].
  change (omap f (x :: l)) with (match f x with Some y => y :: omap f l | None => omap f l end). rewrite Hy. simpl.
  f_equal. apply IH. intros z Hz. apply H. by right.
Qed.

Lemma hit_overdue now s r : wf s → storable s → In r (requests s) →
  hit now (listPublishedInformationRequestsForTimers s) s r = overdue_request now s r.
Proof.
  intros W St Hr. unfold hit, overdue_request. destruct (is_published r) eqn:Hp; [|by rewrite andb_false_r].
  rewrite andb_true_r. simpl. f_equal. destruct (for_timer_some s r W St Hr Hp) as (f & Hf & Hid & Hk & Hd). rewrite Hd.
  apply eq_true_iff_eq. rewrite existsb_exists. split.
  - intros (g & Hg & Ha). unfold listPublishedInformationRequestsForTimers in Hg.
    apply list_elem_of_In, list_elem_of_omap in Hg as (q & [Hq Hqp]%list_elem_of_In%filter_In & Eg).
    destruct (for_timer_some s q W St Hq Hqp) as (g' & Eg' & Hid' & _). assert (g' = g) as -> by congruence.
    unfold asks in Ha. boolify. rewrite (unique_request s q r W Hq Hr) in Eg by congruence. congruence.
  - intros Ho. exists f. split.
    + apply list_elem_of_In, list_elem_of_omap. exists r. split; [|done]. by apply list_elem_of_In, filter_In.
    + unfold asks. by rewrite Ho, !bool_decide_eq_true_2.
Qed.

(** C25: In a database whose rows satisfy their constraints, the expiry sweep answers the number of
    published requests and of those it expired; it expires exactly the published requests that
    are past their due date on a case still waiting for the applicant, each with its case, and
    changes nothing else of any case or request but the event counter. *)
Theorem expiry_sweep_expires_overdue (jobId : nat → option string) traceId now s :
  good s → storable s →
  ∃ s', ExpireOverdueInformationRequests_execute ulid traceId now s =
      (Ok (mkSummary (length (List.filter is_published (requests s)))
             (length (List.filter (overdue_request now s) (requests s)))), s') ∧
    requests s' = map (λ r, if overdue_request now s r then expired_request now r else r) (requests s) ∧
    ∀ k c, get_case k s = Some c → ∃ c', get_case k s' = Some c' ∧
      IntakeCase.set_sequence 0 c' = IntakeCase.set_sequence 0
        (if existsb (λ r, overdue_request now s r && bool_decide (InformationRequest.caseId r = k)) (requests s)
         then set_expired now c else c).
Proof.
  intros G St. set (l := listPublishedInformationRequestsForTimers s). pose proof (proj1 G) as W.
  destruct (sweep_loop jobId now traceId l s 0 G St) as (n & s' & Hf & [H1 H2 H3]). exists s'. split_and!.
  - unfold ExpireOverdueInformationRequests_execute, read, query, iobind. fold l. rewrite Hf. unfold ret. simpl.
    do 3 f_equal.
    + apply omap_all. intros r [Hr Hp]%filter_In. destruct (for_timer_some s r W St Hr Hp) as (f & -> & _). by eexists.
    + rewrite H3. f_equal. apply filter_ext_in. intros r Hr. by apply hit_overdue.
  - rewrite H1. apply map_ext_in. intros r Hr. unfold l. by rewrite hit_overdue.
  - intros k c Hc. specialize (H2 k). rewrite !erased_case, Hc in H2. simpl in H2.
    destruct (get_case k s') as [c'|]; [|done]. exists c'. split; [done|]. injection H2 as H2. rewrite H2.
    assert (hit_case now l s k =
      existsb (λ r, overdue_request now s r && bool_decide (InformationRequest.caseId r = k)) (requests s)) as ->.
    { apply existsb_ext_in. intros r Hr. unfold l. by rewrite hit_overdue. }
    by destruct (existsb _ _).
Qed.

End WithUlid.
(** ** An instance *)

Import IntakeDemo.

#[global] Instance demo_ulid_inj : Inj eq eq ulid.
Proof. intros a b. apply OfferingDemo.demo_ulid_injective. Qed.

(** [storable], decided on a concrete state. *)
Definition storable_b (s : intake) : bool :=
  forallb (λ c, case_row_ok s c && account_exists (IntakeCase.applicantAccountId c) s) (cases (base s)) &&
  forallb request_row_ok (requests s) &&
  forallb (λ e, existsb (λ n, bool_decide (CaseEvent.id e = String.append "evt_" (ulid n))) (seq 0 (ulids (base s))))
    (caseEvents s).

Lemma storable_check s : storable_b s = true → storable ulid s.
Proof.
  unfold storable_b. intros H. boolify. rewrite !forallb_forall in *. split; auto.
  - intros c Hc. specialize (H c Hc). by boolify.
  - intros c Hc. specialize (H c Hc). by boolify.
  - intros n Hn (e & E & He)%in_map_iff. specialize (H0 e He). apply existsb_exists in H0 as (m & [_ Hm]%in_seq & Em).
    boolify. rewrite E in Em. apply append_prefix_inj, demo_ulid_inj in Em. lia.
Qed.

(** The applicant of the demonstration case does not answer in time. *)
Lemma expiry_sweep_expires_overdue_witness :
  ∃ s', ExpireOverdueInformationRequests_execute ulid "trace" 864003001 i3 = (Ok (mkSummary 1 1), s') ∧
    requests s' = map (λ r, if overdue_request 864003001 i3 r then expired_request 864003001 r else r) (requests i3).
Proof.
  destruct (expiry_sweep_expires_overdue ulid _ jobId "trace" 864003001 i3) as (s' & H & Hr & _).
  - apply (ireachable_good ulid jobId), reach_i3.
  - apply storable_check. vm_compute. reflexivity.
  - exists s'. split; [|exact Hr]. rewrite H. vm_compute. reflexivity.
Defined.

End IntakeSweep.
