(* ===== verification/IntakeServiceProps.v ===== *)
(** What the intake services promise their callers: runs of the API are runs of the case
    machine, the applicant's entry gate, the completeness of the paged lists; and where an answer
    falls short of what it says. *)

From S2P Require Import Prelude JsString Currency DateTime IntakePolicy Db OfferingPolicy OfferingRepo OfferingServices OfferingFacts OfferingInv IntakeDb IntakeRepo IntakeReversal IntakeLedger IntakeMachine IntakeInv IntakeDemo Paging IntakeReads IntakeServices IntakeApi.

Module IntakeServiceProps.
Import IntakePolicy IntakeDb IntakeRepo IntakeReversal IntakeLedger IntakeMachine IntakeInv IntakeReads IntakeServices IntakeApi.
Import OfferingServices (mkSummary).

(** ** The API and the case machine *)

(** Any sequence of calls of the intake services - applicant, staff, partner, timer, handoff
    and correction - whatever each answers, is for every case a run of the abstract case
    machine, and keeps the invariant of every case and of the event ledger. *)
Theorem api_runs_are_case_runs ulid jobId cs s k :
  good s →
  rtc cstep (case_view k s) (case_view k (serve_all ulid jobId cs s)) ∧ good (serve_all ulid jobId cs s).
Proof.
  intros G. pose proof (serve_all_steps ulid jobId cs s) as H.
  split; [by apply (isteps_view ulid jobId) | by apply (isteps_good ulid jobId s)].
Qed.

Definition demo_body : SubmitBody := mkSubmitBody true true [("note", JStr "x")] IntakeDemo.papers.

Definition demo_calls : list Call :=
  [CreateDraftIntake "owner" "trace" (mkDraftBody true true "residential" IntakeDemo.flat) 1000 1000;
   SubmitInitialCase "owner" "case_1" "trace" demo_body 2000 2000;
   PublishInformationRequest "staff" "case_1" "trace" "Which floor?" 3000 3000;
   CloseCase "staff" "case_9" "trace" "no such case" outcome_withdrawn 3500].

Lemma api_runs_are_case_runs_witness :
  (IntakeCase.stage <$> get_case "case_1" (serve_all IntakeDemo.ulid IntakeDemo.jobId demo_calls IntakeDemo.i0))
    = Some waiting_on_applicant ∧
  rtc cstep (case_view "case_1" IntakeDemo.i0)
    (case_view "case_1" (serve_all IntakeDemo.ulid IntakeDemo.jobId demo_calls IntakeDemo.i0)).
Proof.
  split; [vm_compute; reflexivity|].
  exact (proj1 (api_runs_are_case_runs IntakeDemo.ulid IntakeDemo.jobId demo_calls IntakeDemo.i0 "case_1"
    (ireachable_good IntakeDemo.ulid IntakeDemo.jobId _ IntakeDemo.reach_i0))).
Defined.

(** ** The entry gate *)

(** KYC eligible, proof of address current, declared value at or above the floor in force. *)
Definition entitled (s : intake) (accountId : string) (now : Z) (declared : string) : Prop :=
  ∃ kyc until floor d m, find_kyc accountId (base s) = Some kyc ∧ KycEligibility.eligibilityState kyc = "eligible" ∧
    KycEligibility.proofOfAddressCurrentUntil kyc = Some until ∧ now < until ∧
    getMinimumPropertyValueEur s = Ok floor ∧ moneyToCents declared = Ok d ∧ moneyToCents floor = Ok m ∧ m ≤ d.

Definition complete_evidence (docs : list SubmissionDocumentInput) : Prop :=
  NoDup (map sd_documentType docs) ∧ ∀ t, t ∈ requiredInitialEvidenceTypes → t ∈ map sd_documentType docs.

Lemma entry_allowed i : evaluateIntakeEntry i = None →
  eligibilityState i = "eligible" ∧ (∃ u, proofOfAddressCurrentUntil i = Some u ∧ now i < u) ∧
  intakeTermsAccepted i = true ∧ oneTitleConfirmed i = true ∧ propertyType i = "residential" ∧
  minimumValueCents i ≤ declaredValueCents i.
Proof.
  unfold evaluateIntakeEntry. intros H.
  repeat match type of H with (if ?b then _ else _) = _ => destruct b eqn:?; [done|] end. boolify.
  destruct (proofOfAddressCurrentUntil i) as [u|]; simpl in *; [|congruence]. boolify. split_and!; try done. eauto.
Qed.

Lemma remove_dups_short {A} `{EqDecision A} (l : list A) : (length (remove_dups l) <= length l)%nat.
Proof. induction l as [|x l IH]; simpl; [done|]. case_decide; simpl; lia. Qed.

Lemma remove_dups_length {A} `{EqDecision A} (l : list A) : length (remove_dups l) = length l → NoDup l.
Proof.
  induction l as [|x l IH]; simpl; [constructor|]. pose proof (remove_dups_short l). case_decide; simpl; [lia|].
  intros [= E]. constructor; auto.
Qed.

Lemma evidence_allowed docs : evaluateRequiredEvidence (map sd_documentType docs) = None → complete_evidence docs.
Proof.
  unfold evaluateRequiredEvidence. destruct (Nat.eqb _ _) eqn:E; cbn [negb]; [|done]. apply Nat.eqb_eq in E.
  set (missing := List.filter _ requiredInitialEvidenceTypes). destruct missing as [|m l] eqn:F; [|done]. intros _. split; [by apply remove_dups_length|].
  intros t Ht. destruct (decide (t ∈ map sd_documentType docs)) as [|Hn]; [done|].
  assert (In t missing) as X.
  { apply filter_In. split; [by apply list_elem_of_In|]. by rewrite bool_decide_eq_false_2. }
  by rewrite F in X.
Qed.

(** the entry policy's answer, from the prerequisites read *)
Lemma entitled_intro s a now declared pq d m t o pt :
  getIntakePrerequisites a s = Ok pq → moneyToCents declared = Ok d → moneyToCents (pq_minimumPropertyValueEur pq) = Ok m →
  evaluateIntakeEntry (mkEntry (pq_eligibilityState pq) (pq_proofOfAddressCurrentUntil pq) now d m t o pt) = None →
  entitled s a now declared ∧ t = true ∧ o = true ∧ pt = "residential".
Proof.
  intros Hp Hd Hm (He & (u & Hu & Hn) & Ht & Ho & Hr & Hv)%entry_allowed. simpl in *. split; [|done].
  unfold getIntakePrerequisites in Hp. apply rbind_ok in Hp as (fl & Hf & [= <-]). simpl in *.
  destruct (find_kyc a (base s)) as [kyc|] eqn:Ek; [|done]. simpl in *. unfold entitled. naive_solver.
Qed.

Lemma recheck_ok s a c pq body now : getIntakePrerequisites a s = Ok pq → recheck_entry c pq body now = Ok None →
  ∃ p, oc_property c = Some p ∧ entitled s a now (op_ownerDeclaredValueEur p) ∧
    sbb_intakeTermsAccepted body = true ∧ sbb_oneTitleConfirmed body = true.
Proof.
  intros Hp H. unfold recheck_entry in H. destruct (oc_property c) as [p|]; [|done]. apply rbind_ok in H as (d & Hd & H).
  apply rbind_ok in H as (m & Hm & [= H]).
  destruct (entitled_intro s a now (op_ownerDeclaredValueEur p) pq d m _ _ _ Hp Hd Hm H) as (? & ? & ? & _). eauto.
Qed.

(** What an [io] that changed the state went through. *)
Lemma bind_query {S A B} (f : S → result A) (k : A → io S B) s :
  (iobind (query f) k s).2 ≠ s → ∃ a, f s = Ok a ∧ (k a s).2 ≠ s.
Proof. unfold iobind, query. destruct (f s) as [a|e]; [eauto | done]. Qed.

Lemma bind_lift {S A B} (m : result A) (k : A → io S B) s :
  (iobind (lift m) k s).2 ≠ s → ∃ a, m = Ok a ∧ (k a s).2 ≠ s.
Proof. unfold iobind, lift. destruct m as [a|e]; [eauto | done]. Qed.

Lemma bind_found {S A B} e (o : option A) (k : A → io S B) s :
  (iobind (found_or e o) k s).2 ≠ s → ∃ a, o = Some a ∧ (k a s).2 ≠ s.
Proof. unfold iobind, found_or, ret, throw. destruct o as [a|]; [eauto | done]. Qed.

Ltac through H :=
  repeat first
    [ apply bind_query in H; let a := fresh "a" in let E := fresh "E" in destruct H as (a & E & H)
    | apply bind_lift in H; let a := fresh "a" in let E := fresh "E" in destruct H as (a & E & H)
    | apply bind_found in H; let a := fresh "a" in let E := fresh "E" in destruct H as (a & E & H) ].

(** An applicant creates a draft, submits it or answers an information request only with KYC
    eligible, proof of address current, the declared value at or above the floor in force and the
    terms accepted; a submission needs, besides, the case to be theirs and every required
    document exactly once, and an answer the request to be open.  Otherwise the database is
    left as it was. *)
Theorem applicant_entry_gate ulid a k q tr b body now t s :
  ((CreateDraftIntake_execute ulid a tr b now t s).2 ≠ s →
     entitled s a now (pi_ownerDeclaredValueEur (dby_property b)) ∧
     dby_intakeTermsAccepted b = true ∧ dby_oneTitleConfirmed b = true ∧ dby_propertyType b = "residential") ∧
  ((SubmitInitialCase_execute ulid a k tr body now t s).2 ≠ s →
     ∃ c p, getOwnedCase a k s = Some c ∧ oc_stage c = draft ∧ oc_currentRevision c = None ∧ oc_property c = Some p ∧
       entitled s a now (op_ownerDeclaredValueEur p) ∧ complete_evidence (sbb_documents body) ∧
       sbb_intakeTermsAccepted body = true ∧ sbb_oneTitleConfirmed body = true) ∧
  ((RespondToInformationRequest_execute ulid a k q tr body now t s).2 ≠ s →
     ∃ c r p, getOwnedCase a k s = Some c ∧ oc_stage c = waiting_on_applicant ∧ oc_property c = Some p ∧
       getOwnedInformationRequest a k q s = Some r ∧ rr_status r = published ∧
       entitled s a now (op_ownerDeclaredValueEur p) ∧ complete_evidence (sbb_documents body) ∧
       sbb_intakeTermsAccepted body = true ∧ sbb_oneTitleConfirmed body = true).
Proof.
  split_and!; intros H.
  - unfold CreateDraftIntake_execute in H. through H.
    destruct (evaluateIntakeEntry _) eqn:Ev in H; [done|]. by eapply entitled_intro in Ev as (? & ? & ? & ?).
  - unfold SubmitInitialCase_execute, read in H. through H. injection E as E. subst a0.
    destruct (evaluateInitialCaseSubmission _ _ _) eqn:Es in H; [done|]. through H. destruct a0 as [|]; [done|].
    destruct (recheck_ok _ _ _ _ _ _ E0 E) as (p & Hp & Hen & Ht & Ho).
    unfold evaluateInitialCaseSubmission in Es. destruct (negb _) eqn:Est in Es; [done|]. boolify.
    destruct (is_set (oc_currentRevision a2)) eqn:Er; [done|]. apply is_set_false in Er.
    exists a2, p. split_and!; try done; by apply evidence_allowed.
  - unfold RespondToInformationRequest_execute, read in H. through H. simplify_eq.
    destruct (evaluateCaseResubmission _ _ _ _) eqn:Es in H; [done|]. through H. destruct a0 as [|]; [done|].
    destruct (recheck_ok _ _ _ _ _ _ E1 E2) as (p & Hp & Hen & Ht & Ho).
    unfold evaluateCaseResubmission in Es. destruct (_ || _) eqn:Est in Es; [done|].
    destruct (negb _) eqn:Erq in Es; [done|]. boolify.
    exists a3, a4, p. split_and!; try done; by apply evidence_allowed.
Qed.

Lemma applicant_entry_gate_witness :
  entitled IntakeDemo.i0 "owner" 1000 "150000.00" ∧
  ∃ c, getOwnedCase "owner" "case_1" IntakeDemo.i1 = Some c ∧ oc_stage c = draft.
Proof.
  pose (b := mkDraftBody true true "residential" IntakeDemo.flat).
  destruct (applicant_entry_gate IntakeDemo.ulid "owner" "case_1" "" "trace" b demo_body 1000 1000 IntakeDemo.i0)
    as (H & _ & _).
  destruct (applicant_entry_gate IntakeDemo.ulid "owner" "case_1" "" "trace" b demo_body 2000 2000 IntakeDemo.i1)
    as (_ & H' & _).
  split.
  - apply H. intros E. apply (f_equal (λ s, length (cases (base s)))) in E. vm_compute in E. discriminate.
  - destruct H' as (c & p & Hc & Hs & _); [|by exists c].
    intros E. apply (f_equal (λ s, length (revisions s))) in E. vm_compute in E. discriminate.
Defined.

(** ** The lists *)

Lemma case_keys_nodup s : wf s → List.NoDup (map IntakeReads.case_key (cases (base s))).
Proof.
  intros W. pose proof (ok_cases _ W) as N. rewrite case_keys in N. apply (NoDup_map_inv snd). by rewrite map_map.
Qed.

Lemma found_length {A K} `{!KeyOrder K} (key : A → K) p l : (length (found key p l) <= length l)%nat.
Proof.
  unfold found. rewrite order_by_length. apply filter_length_le.
Qed.

Lemma paged {A B} (key : A → Z * string) (kb : B → Z * string) (project : A → B) where_ rows limit fuel :
  List.NoDup (map key rows) → (∀ r, kb (project r) = key r) → (1 <= limit)%nat → (length rows < fuel)%nat →
  walk fuel (λ after, paginate kb id limit (map project (findMany key where_ rows (limit + 1) after))) None =
    Some (map project (found key where_ rows)).
Proof.
  intros Hnd Hk Hl Hf. pose proof (findMany_keyset key project kb where_ rows Hnd Hk) as Q.
  rewrite <- (map_id (map project _)).
  apply (walk_all (λ limit after, map project (findMany key where_ rows limit after)) kb
           (map project (found key where_ rows)) id limit Hl fuel).
  rewrite length_map. pose proof (found_length key where_ rows). lia.
Qed.

(** C40: Following [next_cursor] from the first page, the applicant's, the operations' and the
    partner's case lists each show every matching case exactly once, newest first, in finitely
    many pages; reading a page changes nothing. *)
Theorem case_lists_are_complete s limit fuel accountId stage role organizationId :
  good s → (1 <= limit)%nat → (length (cases (base s)) < fuel)%nat →
  (∃ page, (∀ after, ListOwnCases_execute accountId limit after s = (Ok (page after), s)) ∧
     walk fuel page None = Some (map (toOwnedCase s) (found IntakeReads.case_key (applicant_is accountId) (cases (base s))))) ∧
  (∃ page, (∀ after, ListCasesForOperations_execute stage limit after s = (Ok (page after), s)) ∧
     walk fuel page None = Some (map (toOwnedCase s) (found IntakeReads.case_key (stage_matches stage) (cases (base s))))) ∧
  (∃ page, (∀ after, ListCasesForPartner_execute role (Some organizationId) limit after s = (Ok (page after), s)) ∧
     walk fuel page None =
       Some (map (toPartnerCaseDetail s) (found IntakeReads.case_key (assigned_to role organizationId) (cases (base s))))).
Proof.
  intros [W _] Hl Hf. pose proof (case_keys_nodup s W) as Hnd.
  split_and!; (eexists; split; [intros after; reflexivity|]); by apply paged.
Qed.

Lemma case_lists_are_complete_witness :
  ∃ page, (∀ after, ListOwnCases_execute "owner" 1 after IntakeDemo.i5 = (Ok (page after), IntakeDemo.i5)) ∧
    ∃ c, walk 2 page None = Some [c] ∧ oc_caseId c = "case_1".
Proof.
  destruct (case_lists_are_complete IntakeDemo.i5 1 2 "owner" None legal_partner "practice_1") as ((page & Hp & Hw) & _).
  - apply (ireachable_good IntakeDemo.ulid IntakeDemo.jobId), IntakeDemo.reach_i5.
  - lia.
  - vm_compute. lia.
  - exists page. split; [exact Hp|]. eexists. rewrite Hw. split; vm_compute; reflexivity.
Defined.

(** ** The history *)

Definition history (caseId : string) (s : intake) : list CaseEvent.t :=
  found event_key (by_id CaseEvent.caseId caseId) (caseEvents s).

Lemma event_keys_nodup s : wf s → List.NoDup (map event_key (caseEvents s)).
Proof. intros W. pose proof (ok_events _ W) as N. apply (NoDup_map_inv snd). by rewrite map_map. Qed.

(** The history of a case, page by page, is its whole event ledger, newest first; without the
    case it is a 404. *)
Theorem case_history_is_complete s limit fuel caseId :
  good s → (1 <= limit)%nat → (length (caseEvents s) < fuel)%nat →
  match get_case caseId s with
  | None => ∀ after, GetIntakeCaseHistory_execute caseId limit after s = (Err case_not_found, s)
  | Some _ =>
      ∃ page, (∀ after, GetIntakeCaseHistory_execute caseId limit after s = (Ok (page after), s)) ∧
        walk fuel page None = Some (history caseId s)
  end.
Proof.
  intros [W _] Hl Hf. destruct (get_case caseId s) as [c|] eqn:Hc.
  - exists (λ after, paginate event_key id limit
      (map id (findMany event_key (by_id CaseEvent.caseId caseId) (caseEvents s) (limit + 1) after))). split.
    + intros after. unfold GetIntakeCaseHistory_execute, read, query, iobind, found_or, ret. rewrite Hc.
      unfold listIntakeCaseHistory, paginate. simpl. by rewrite !map_id.
    + rewrite (paged event_key event_key id); try done; [by rewrite map_id | by apply event_keys_nodup].
  - intros after. unfold GetIntakeCaseHistory_execute, read, query, iobind, found_or, ret. by rewrite Hc.
Qed.

Lemma case_history_is_complete_witness :
  ∃ page, (∀ after, GetIntakeCaseHistory_execute "case_1" 2 after IntakeDemo.i3 = (Ok (page after), IntakeDemo.i3)) ∧
    (map CaseEvent.eventType <$> walk 9 page None) =
      Some ["case_information_requested"; "case_submitted"; "case_created"].
Proof.
  pose proof (case_history_is_complete IntakeDemo.i3 2 9 "case_1"
    (ireachable_good IntakeDemo.ulid IntakeDemo.jobId _ IntakeDemo.reach_i3) ltac:(lia) ltac:(vm_compute; lia)) as H.
  destruct (get_case "case_1" IntakeDemo.i3) as [c|] eqn:E; [|vm_compute in E; discriminate].
  destruct H as (page & Hp & Hw). exists page. split; [exact Hp|]. rewrite Hw. vm_compute. reflexivity.
Defined.

Lemma history_page caseId s limit : wf s → (length (history caseId s) <= limit)%nat →
  listIntakeCaseHistory caseId s limit None = (false, history caseId s).
Proof.
  intros W Hle. unfold listIntakeCaseHistory. rewrite findMany_after by by apply event_keys_nodup.
  fold (history caseId s). rewrite (forallb_filter_id _ (history caseId s)) by by apply forallb_forall.
  rewrite take_ge by lia. by replace (limit <? length (history caseId s))%nat with false by (symmetry; apply Nat.ltb_ge; lia).
Qed.

(** The partner's history reads one page of all events and cuts the visible ones to the limit,
    but answers a cursor only when more events were left unread: a case with at most [limit + 20]
    events shows its newest [limit] visible events and no cursor, so the older visible ones can
    never be fetched. *)
Theorem partner_history_drops_events role caseId limit s :
  good s → (limit <= 80)%nat → (length (history caseId s) <= limit + 20)%nat →
  (limit < length (List.filter (visible role) (history caseId s)))%nat →
  GetPartnerCaseHistory_execute role caseId limit None s =
    (Ok (mkPage (take limit (List.filter (visible role) (history caseId s))) None), s) ∧
  ∃ e, In e (history caseId s) ∧ visible role e = true ∧
    ¬ In e (take limit (List.filter (visible role) (history caseId s))).
Proof.
  intros [W _] H80 Hle Hlt. split.
  - unfold GetPartnerCaseHistory_execute, read, query, iobind, ret. rewrite Nat.min_l by lia.
    by rewrite history_page.
  - set (v := List.filter (visible role) (history caseId s)) in *.
    assert (List.NoDup v) as Hv.
    { apply List.NoDup_filter. unfold history. apply (NoDup_map_inv event_key).
      apply (ordered_nodup event_key), ordered_order_by, NoDup_map_filter, event_keys_nodup, W. }
    destruct (drop limit v) as [|e rest] eqn:Ed.
    { apply (f_equal length) in Ed. rewrite length_drop in Ed. simpl in Ed. lia. }
    assert (In e v) as He. { rewrite <- (take_drop limit v), Ed. apply in_app_iff. simpl. auto. }
    exists e. apply filter_In in He as [He1 He2]. split_and!; try done.
    intros Hin. rewrite <- (take_drop limit v), Ed in Hv. apply List.NoDup_remove_2 in Hv. apply Hv, in_app_iff. by left.
Qed.

Lemma partner_history_drops_events_witness :
  (map CaseEvent.eventType <$> match (GetPartnerCaseHistory_execute legal_partner "case_1" 1 None IntakeDemo.i8).1 with
     | Ok p => Some (page_data p) | Err _ => None end) = Some ["legal_structuring_updated"] ∧
  ∃ e, In e (history "case_1" IntakeDemo.i8) ∧ visible legal_partner e = true ∧
    ¬ In e (take 1 (List.filter (visible legal_partner) (history "case_1" IntakeDemo.i8))).
Proof.
  destruct (partner_history_drops_events legal_partner "case_1" 1 IntakeDemo.i8
    (ireachable_good IntakeDemo.ulid IntakeDemo.jobId _ IntakeDemo.reach_i8) ltac:(lia) ltac:(vm_compute; lia)
    ltac:(vm_compute; lia)) as [H He].
  split; [rewrite H; vm_compute; reflexivity | exact He].
Defined.

(** ** Reminders *)

(** A case withdrawn while it waited keeps its request published, and the reminder job looks at
    the request alone: there is a reachable database with a withdrawn case whose applicant is
    still reminded to answer. *)
Theorem closed_case_is_still_reminded :
  ∃ s today, ireachable IntakeDemo.ulid IntakeDemo.jobId s ∧
    (IntakeCase.stage <$> get_case "case_1" s) = Some withdrawn ∧
    ∃ to dueAt, SendApplicantResponseReminders_execute (λ _, Ok tt) today (mkMailbox s []) =
      (Ok (mkSummary 1 1), mkMailbox s [(to, dueAt)]).
Proof.
  exists IntakeDemo.w4, (3000 + 7 * 86400000). split_and!; [apply IntakeDemo.reach_w4 | vm_compute; reflexivity |].
  eexists _, _. vm_compute. reflexivity.
Qed.

(** ** Staff drafts *)

Lemma get_owned k s c : wf s → get_case k s = Some c → owned_case k (IntakeCase.applicantAccountId c) s = Some c.
Proof.
  intros W Hc. destruct (get_case_in _ _ _ Hc) as [Hin Hid]. unfold owned_case.
  destruct (find_row _ _) as [c'|] eqn:E.
  - apply find_row_Some in E as [Hc' E]. boolify. f_equal.
    pose proof (ok_cases _ W) as N. rewrite case_keys in N. apply (NoDup_map_inj_in _ _ _ _ N); congruence || done.
  - rewrite find_row_None in E. specialize (E c Hin). by rewrite !bool_decide_eq_true_2 in E.
Qed.

(** The repository throws no answer of the API: only its own errors and the database's. *)
Definition tx_raw {A} (t : txn intake A) : Prop := ∀ s e, t s = Err e → ∃ m, e = Thrown m.

Lemma tx_raw_bind {A B} (m : txn intake A) (f : A → txn intake B) : tx_raw m → (∀ a, tx_raw (f a)) → tx_raw (tbind m f).
Proof.
  intros Hm Hf s e. unfold tbind. destruct (m s) as [[a s1]|e1] eqn:E; intros H; [by apply (Hf a s1)|].
  injection H as <-. by apply (Hm s).
Qed.

Lemma tx_raw_each {B} (f : B → txn intake unit) xs : (∀ x, tx_raw (f x)) → tx_raw (teach f xs).
Proof. intros Hf. induction xs as [|x xs IH]; simpl; [by intros s e|]. by apply tx_raw_bind. Qed.

Lemma tx_raw_prim (f : intake → result intake) : (∀ s e, f s = Err e → ∃ m, e = Thrown m) → tx_raw (tprim f).
Proof. intros H s e. unfold tprim. destruct (f s) eqn:E; intros F; [done|]. injection F as <-. by eapply H. Qed.

Ltac raw := repeat first
  [ by intros ? ? [= <-]; eexists | by intros ? ? [=]
  | apply tx_raw_bind; [|intros ?] | apply tx_raw_each; intros ?
  | apply tx_raw_prim; intros ? ? H; unfold revision_create, evidence_create, case_update, event_create, violation, P2025 in H
  | match goal with H : (if ?b then _ else _) = Err _ |- _ => destruct b end
  | match goal with H : match ?b with _ => _ end = Err _ |- _ => destruct b end
  | match goal with H : Err _ = Err _ |- _ => injection H as <-; by eexists | H : Ok _ = Err _ |- _ => discriminate H end
  | match goal with |- tx_raw (if ?b then _ else _) => destruct b end
  | match goal with |- tx_raw (match ?b with _ => _ end) => destruct b end ].

Lemma submitInitialCase_raw ulid i t : tx_raw (submitInitialCase ulid i t).
Proof.
  unfold submitInitialCase, create_evidence, audit, event, appendIntakeCaseEvent, appendWithWorkflow, next_sequence. raw.
Qed.

(** Submitting a staff draft that was already submitted answers the repository's own
    CaseSubmissionConflictError, which no handler maps: the 409 the service means for it,
    intake.case_not_submittable, is answered for no case at all. *)
Theorem staff_submission_conflict_unmapped ulid k tr data docs t s :
  good s →
  (SubmitStaffDraftCase_execute ulid k tr data docs t s).1 ≠ Err (AppError "intake.case_not_submittable" 409 []) ∧
  ∀ c, get_case k s = Some c → IntakeCase.stage c ≠ draft ∨ is_set (IntakeCase.currentSubmissionRevisionId c) = true →
    SubmitStaffDraftCase_execute ulid k tr data docs t s = (Err CaseSubmissionConflictError, s).
Proof.
  intros [W _]. unfold SubmitStaffDraftCase_execute, read, query, iobind, getCaseForOperations, found_or, ret, throw, transaction.
  destruct (get_case k s) as [c|] eqn:Hc; [|by split]. simpl. pose proof (get_owned k s c W Hc) as Ho. split.
  - destruct (submitInitialCase _ _ _ s) as [[[r|] s']|e] eqn:Es; [done| |].
    + unfold submitInitialCase, tbind at 1, tread in Es. simpl in Es. rewrite Ho in Es. destruct (_ || _); [done|].
      by inv_tx Es.
    + apply submitInitialCase_raw in Es as [m ->]. done.
  - intros c' [= <-] Hbad. unfold submitInitialCase, tbind at 1, tread. simpl. rewrite Ho. simpl.
    replace (_ || _) with true; [done|]. symmetry. apply orb_true_iff.
    destruct Hbad as [Hs|Hs]; [left|right; done]. by rewrite bool_decide_eq_false_2.
Qed.

Lemma staff_submission_conflict_unmapped_witness :
  SubmitStaffDraftCase_execute IntakeDemo.ulid "case_1" "trace" [] [] 9 IntakeDemo.i2 =
    (Err CaseSubmissionConflictError, IntakeDemo.i2).
Proof.
  destruct (staff_submission_conflict_unmapped IntakeDemo.ulid "case_1" "trace" [] [] 9 IntakeDemo.i2
    (ireachable_good IntakeDemo.ulid IntakeDemo.jobId _ IntakeDemo.reach_i2)) as [_ H].
  destruct (get_case "case_1" IntakeDemo.i2) as [c|] eqn:E; [|vm_compute in E; discriminate].
  apply (H c eq_refl). left. vm_compute in E. injection E as <-. discriminate.
Defined.

End IntakeServiceProps.
