(* ===== verification/CaseDocuments.v ===== *)
(** The documents of a case: upload, room photos, their deletion, and reading them back
    (src/src/modules/intake/application/upload-case-document.service.ts and get-case-document.service.ts, with objectKey of
    src/src/infrastructure/storage/storage-buckets.ts).

    The bucket is a map from keys to contents.  The malware scanner, the image library, SHA-256 and the storage client's
    failures are arguments; the random document id is an argument too. *)

From Stdlib Require Import Ascii String.
From stdpp Require Import gmap strings.
From S2P Require Import Prelude JsString JsBuffer Currency IntakePolicy Db IntakeDb IntakeRepo IntakeLedger IntakeDemo.

Module CaseDocuments.
Import JsString JsBuffer IntakePolicy IntakeDb IntakeRepo DocumentTx.

#[local] Arguments String.append !_ _ /.

Record store := mkStore { st_db : intake; st_objects : gmap string string }.

(** ** Constants and errors *)

Definition MAX_BYTES : Z := 100 * 1024 * 1024.
Definition ALLOWED : list string :=
  ["application/pdf"; "image/jpeg"; "image/png"; "image/webp";
   "application/vnd.openxmlformats-officedocument.wordprocessingml.document";
   "application/vnd.openxmlformats-officedocument.spreadsheetml.sheet"].
Definition ALLOWED_DOCUMENT_TYPES : list string := submissionEvidenceTypes ++ ["room_photo"].

Definition document_type_unsupported : error := AppError "intake.document_type_unsupported" 422 [].
Definition document_mime_unsupported : error := AppError "intake.document_mime_unsupported" 422 [].
Definition room_id_required : error := AppError "intake.room_id_required" 422 [].
Definition room_id_unexpected : error := AppError "intake.room_id_unexpected" 422 [].
Definition upload_case_not_found : error := AppError "intake.case_not_found" 404 [].
Definition revision_not_found : error := AppError "intake.revision_not_found" 404 [].
Definition document_too_large : error := AppError "intake.document_too_large" 413 [].
Definition document_empty : error := AppError "intake.document_empty" 422 [].
Definition invalid_image : error := AppError "intake.invalid_image" 422 [].
Definition document_scanner_unavailable : error := AppError "intake.document_scanner_unavailable" 503 [].
Definition document_malware_detected : error := AppError "intake.document_malware_detected" 422 [].
Definition case_document_not_found : error := AppError "intake.document_not_found" 404 [].
Definition image_dimensions_too_large : error := AppError "intake.image_dimensions_too_large" 422 [].

(** ** objectKey *)

Definition key_start (c : ascii) : bool := let k := char_code c in ((97 <=? k) && (k <=? 122)) || is_digit c.
Definition key_char (c : ascii) : bool :=
  let k := char_code c in key_start c || (k =? 47) || (k =? 95) || (k =? 45).

(** [/^[a-z0-9][a-z0-9/_-]{0,511}$/] *)
Definition key_format (key : string) : bool :=
  match key with
  | String c r => key_start c && string_forallb key_char r && (String.length r <=? 511)%nat
  | EmptyString => false
  end.

Definition objectKey (area subjectId : string) (revision : option Z) (documentId : string) : result string :=
  let key := String.concat "/" ([area; subjectId] ++
    match revision with Some n => [String.append "revisions/" (BigInt_toString n)] | None => [] end ++ [documentId]) in
  if negb (key_format key) || includes ".." key then Err (Thrown "Invalid object key components") else Ok key.

(** ** Images *)

(** [subarray(a, b).toString("ascii")] *)
Definition ascii_part (a b : nat) (s : string) : string := to_ascii (slice0 (b - a) (slice_from a s)).

Definition hasSupportedImageSignature (content contentType : string) : bool :=
  if bool_decide (contentType = "image/jpeg") then
    (3 <? String.length content)%nat && bool_decide (bytes (slice0 3 content) = [255; 216; 255])
  else if bool_decide (contentType = "image/png") then bool_decide (bytes (slice0 8 content) = [137; 80; 78; 71; 13; 10; 26; 10])
  else if bool_decide (contentType = "image/webp") then
    bool_decide (ascii_part 0 4 content = "RIFF") && bool_decide (ascii_part 8 12 content = "WEBP")
  else false.

(** What the image library makes of the bytes: the dimensions and, scaled to fit, the JPEG. *)
Definition MAX_IMAGE_PIXELS : Z := 40000000.
Definition createThumbnail (decode : string → option (Z * Z * string)) (content : string) : result string :=
  match decode content with
  | None => Err invalid_image
  | Some (width, height, jpeg) => if MAX_IMAGE_PIXELS <? width * height then Err image_dimensions_too_large else Ok jpeg
  end.

(** The body, chunk by chunk: its size and content. *)
Fixpoint read_body (size : Z) (content : string) (chunks : list string) : result (Z * string) :=
  match chunks with
  | [] => Ok (size, content)
  | b :: chunks =>
      let size := size + Z.of_nat (String.length b) in
      if MAX_BYTES <? size then Err document_too_large else read_body size (String.append content b) chunks
  end.

(** ** The services *)

Section WithUlid.
Context (ulid : nat → string).
Notation setRepresentative := (setRepresentative ulid).
Notation represent_write := (represent_write ulid).
Notation deletePhoto_tx := (deletePhoto_tx ulid).
Notation delete_write := (delete_write ulid).
Notation deleteRoom_tx := (deleteRoom_tx ulid).
Notation room_write := (room_write ulid).
Notation accept_tx := (accept_tx ulid).

(** [put_ok] and [delete_ok]: whether the storage takes a command on that key *)
Context (bucket : string) (scan : string → result bool) (decode : string → option (Z * Z * string)) (sha256 : string → string).
Context (put_ok delete_ok : string → bool).

Definition on_db {A} (t : txn intake A) : io store A := λ w,
  match t (st_db w) with Ok (a, s) => (Ok a, mkStore s (st_objects w)) | Err e => (Err e, w) end.

Definition put (key content : string) : io store unit := λ w,
  if put_ok key then (Ok tt, mkStore (st_db w) (<[key := content]> (st_objects w))) else (Err (Thrown "S3"), w).

(** [DeleteObjectCommand(...).catch(() => undefined)] *)
Definition discard (key : string) (w : store) : store :=
  if delete_ok key then mkStore (st_db w) (delete key (st_objects w)) else w.

Definition discard_all (keys : list string) : io store unit := λ w, (Ok tt, foldl (λ w k, discard k w) w keys).

Definition deletePhoto (caseId roomId documentId actor : string) (traceId reason : option string) (now : Z) : io store unit :=
  await documents := on_db (deletePhoto_tx caseId roomId documentId actor traceId reason now) in
  match documents with None => ret tt | Some keys => discard_all keys end.

Definition deleteRoom (caseId roomId actor : string) (traceId reason : option string) (now : Z) : io store unit :=
  await keys := on_db (deleteRoom_tx caseId roomId actor traceId reason now) in discard_all keys.

(** The checks before the body is read. *)
Definition check_type (i : UploadInput) : result unit :=
  let photo := bool_decide (up_documentType i = "room_photo") in
  if negb (bool_decide (up_documentType i ∈ ALLOWED_DOCUMENT_TYPES)) then Err document_type_unsupported
  else if negb (bool_decide (up_contentType i ∈ ALLOWED)) then Err document_mime_unsupported
  else if photo && negb (bool_decide (up_contentType i ∈ ["image/jpeg"; "image/png"; "image/webp"])) then Err document_mime_unsupported
  else if photo && negb (is_set (up_roomId i)) then Err room_id_required
  else if negb photo && is_set (up_roomId i) then Err room_id_unexpected
  else Ok tt.

Definition check_place (i : UploadInput) (s : intake) : result unit :=
  match get_case (up_caseId i) s with
  | None => Err upload_case_not_found
  | Some c =>
      match find_row (λ r, bool_decide (Revision.caseId r = up_caseId i) && (Revision.revisionNumber r =? up_revisionNumber i)) (revisions s) with
      | None => Err revision_not_found
      | Some revision =>
          if negb (bool_decide (IntakeCase.currentSubmissionRevisionId c = Some (Revision.id revision))) then Err revision_not_found
          else match up_roomId i with
               | None => Ok tt
               | Some r =>
                   match find_room (up_caseId i) r s with
                   | None => Err room_not_found
                   | Some _ => if (MAX_ROOM_PHOTOS <=? photo_count (up_caseId i) r s)%nat then Err room_photo_limit_reached else Ok tt
                   end
               end
      end
  end.

Definition scan_clean (content : string) : result unit :=
  match scan content with
  | Err _ => Err document_scanner_unavailable
  | Ok true => Err document_malware_detected
  | Ok false => Ok tt
  end.

(** [catch (error) { ...delete the thumbnail, if its key is known, and the object...; throw error }] *)
Definition undo {A} (keys : list string) (m : io store A) : io store A :=
  iocatch m (λ e, await _ := discard_all keys in throw e).

Definition execute (documentId : string) (now : Z) (i : UploadInput) : io store StoredDocument.t :=
  await _ := lift (check_type i) in
  await _ := query (λ w, check_place i (st_db w)) in
  await body := lift (read_body 0 EmptyString (up_body i)) in
  let '(size, content) := body in
  if size =? 0 then throw document_empty
  else if bool_decide (up_documentType i = "room_photo") && negb (hasSupportedImageSignature content (up_contentType i)) then throw invalid_image
  else
  await key := lift (objectKey "intake" (up_caseId i) (Some (up_revisionNumber i)) documentId) in
  await _ := lift (scan_clean content) in
  await _ := put key content in
  let document := upload_row bucket i documentId key (sha256 content) size now in
  if bool_decide (up_documentType i = "room_photo") then
    await thumbnail := undo [key] (lift (createThumbnail decode content)) in
    await thumbnailRef := undo [key] (lift (objectKey "intake" (up_caseId i) (Some (up_revisionNumber i)) (String.append documentId "-thumbnail"))) in
    undo [thumbnailRef; key]
      (await _ := put thumbnailRef thumbnail in
       await _ := on_db (accept_tx i document
         (Some (thumbnail_row bucket i documentId thumbnailRef (sha256 thumbnail) (Z.of_nat (String.length thumbnail)) now)) now) in
       ret document)
  else
    undo [key] (await _ := on_db (accept_tx i document None now) in ret document).

(** *** GetCaseDocumentService *)

Definition readable (caseId : string) (d : StoredDocument.t) : bool :=
  bool_decide (StoredDocument.caseId d = Some caseId) && bool_decide (StoredDocument.bucket d = bucket) && accepted_document d.

(** A key without an object makes the storage client throw; an object that is there has a body. *)
Definition GetCaseDocument_execute (caseId documentRef : string) (w : store) : result (string * string * Z) :=
  match find_row (λ d, readable caseId d && bool_decide (StoredDocument.objectKey d = documentRef)) (documents (st_db w)) with
  | None => Err case_document_not_found
  | Some d =>
      match st_objects w !! StoredDocument.objectKey d with
      | None => Err (Thrown "NoSuchKey")
      | Some content => Ok (content, StoredDocument.contentType d, StoredDocument.sizeBytes d)
      end
  end.

Definition created_before (a b : StoredDocument.t) : bool := StoredDocument.createdAt a <? StoredDocument.createdAt b.

Definition GetCaseDocument_list (caseId : string) (documentType roomId : option string) (w : store) : list StoredDocument.t :=
  order_by created_before
    (List.filter (λ d, readable caseId d && negb (is_set (StoredDocument.variantType d)) &&
                       opt_ok (λ t, bool_decide (StoredDocument.documentType d = t)) documentType &&
                       opt_ok (λ r, bool_decide (StoredDocument.roomId d = Some r)) roomId) (documents (st_db w))).

(** ** Room photos over time *)

(** The tables a case event does not touch. *)
Lemma event_frame i s s' : IntakeRepo.event ulid i s = Ok (tt, s') → documents s' = documents s ∧ rooms s' = rooms s.
Proof.
  unfold IntakeRepo.event, appendIntakeCaseEvent. intros H. apply tbind_ok in H as (k & s1 & H & H1). apply tret_ok in H1 as [_ ->].
  assert (∀ i w v, appendWithWorkflow ulid i w v s = Ok (k, s1) → documents s1 = documents s ∧ rooms s1 = rooms s) as Happ.
  { clear H. intros i0 w v H. unfold appendWithWorkflow, next_sequence, fresh_id in H.
    apply tbind_ok in H as (n & s2 & H2 & H). apply tbind_ok in H2 as (c & s3 & H3 & H2). apply tread_ok in H3 as [-> ->].
    destruct (get_case _ s) as [c|]; [|by apply tthrow_ok in H2]. apply tbind_ok in H2 as (u & s4 & H4 & H2). apply twrite_ok in H4 as ->.
    apply tret_ok in H2 as [-> ->]. apply tbind_ok in H as (e & s5 & H5 & H).
    destruct (fresh ulid "evt_" _) as [k' b'] eqn:Ef in H5. injection H5 as <- <-. apply tbind_ok in H as (u' & s6 & H6 & H).
    apply tret_ok in H as [_ ->]. apply tprim_ok in H6. unfold event_create in H6. inv_ok H6; injection H6 as <-; done. }
  apply tbind_ok in H as (ex & s2 & H2 & H). apply tread_ok in H2 as [-> ->].
  destruct (find_row _ _); [by apply tret_ok in H as [_ ->]|].
  destruct (match ev_toStage i with Some st => Some st | None => ev_fromStage i end); [by eapply Happ|].
  apply tbind_ok in H as (c & s2 & H2 & H). apply tread_ok in H2 as [-> ->]. destruct (get_case _ s); [by eapply Happ | by apply tthrow_ok in H].
Qed.

Lemma audit_frame actor action k changes at_ s s' : IntakeDb.audit ulid actor action k changes at_ s = Ok (tt, s') →
  documents s' = documents s ∧ rooms s' = rooms s.
Proof.
  unfold IntakeDb.audit, fresh_id. intros H. apply tbind_ok in H as (a & s1 & H1 & H). destruct (fresh ulid "audit_" _) as [k' b'].
  injection H1 as <- <-. by apply twrite_ok in H as ->.
Qed.

Inductive photo_step : intake → intake → Prop :=
  | ps_upload i documentId key sum size thumbnail now s s' :
      (∀ t, thumbnail = Some t → ∃ k sum n, t = thumbnail_row bucket i documentId k sum n now) →
      accept_tx i (upload_row bucket i documentId key sum size now) thumbnail now s = Ok (tt, s') → photo_step s s'
  | ps_represent caseId roomId documentId actor trace now s s' :
      setRepresentative caseId roomId documentId actor trace now s = Ok (tt, s') → photo_step s s'
  | ps_delete caseId roomId documentId actor trace reason now r s s' :
      deletePhoto_tx caseId roomId documentId actor trace reason now s = Ok (r, s') → photo_step s s'
  | ps_room caseId roomId actor trace reason now r s s' :
      deleteRoom_tx caseId roomId actor trace reason now s = Ok (r, s') → photo_step s s'
  | ps_other new s s' : documents s' = documents s → rooms s' = rooms s ++ new →
      (∀ r, In r new → PropertyRoom.preferredPhotoId r = None) → photo_step s s'.

Record photos_ok (s : intake) : Prop := {
  po_ids : List.NoDup (map StoredDocument.id (documents s));
  po_limit : ∀ c r, (photo_count c r s <= MAX_ROOM_PHOTOS)%nat;
  po_originals : ∀ d, In d (documents s) → StoredDocument.documentType d = "room_photo" → StoredDocument.sourceDocumentId d = None;
  po_preferred : ∀ r p, In r (rooms s) → PropertyRoom.preferredPhotoId r = Some p →
    ∃ c d, In d (documents s) ∧ StoredDocument.id d = p ∧ active_photo c (PropertyRoom.id r) d = true }.

Lemma photos_ok_frame s s' : documents s' = documents s → rooms s' = rooms s → photos_ok s → photos_ok s'.
Proof. intros E1 E2 []. constructor; unfold photo_count in *; rewrite ?E1, ?E2; done. Qed.

(** A new document that is no photo of a room, or of one with room for it. *)
Lemma photos_ok_create d s s' : photos_ok s → document_create d s = Ok s' →
  (∀ c r, active_photo c r d = true → (photo_count c r s < MAX_ROOM_PHOTOS)%nat) →
  (StoredDocument.documentType d = "room_photo" → StoredDocument.sourceDocumentId d = None) → photos_ok s'.
Proof.
  intros [H1 H2 H3 H4] H Hlim Hsrc. unfold document_create in H. destruct (exists_row _ _) eqn:Eid in H; [done|].
  inv_ok H; injection H as <-; (constructor; simpl;
    [rewrite map_app; apply NoDup_snoc; [done|]; intros (q & Eqid & Hq)%in_map_iff;
       pose proof (proj1 (exists_row_false _ _) Eid q Hq) as Hne; unfold by_id in Hne; simpl in *; by boolify
    |intros c r; unfold photo_count; simpl; rewrite List.filter_app, length_app; simpl; specialize (Hlim c r); specialize (H2 c r);
       unfold photo_count in *; destruct (active_photo c r d); simpl; [specialize (Hlim eq_refl)|]; lia
    |intros q [Hq|[<-|[]]]%in_app_iff; [by apply H3 | done]
    |intros r p Hr Hp; destruct (H4 r p Hr Hp) as (c & q & Hq & ?); exists c, q; split; [apply in_app_iff; by left | done]]).
Qed.

Lemma document_create_keeps d s s' : document_create d s = Ok s' → documents s' = documents s ++ [d] ∧ rooms s' = rooms s.
Proof. unfold document_create. intros H. inv_ok H; by injection H as <-. Qed.

Lemma accept_ok i documentId key sum size thumbnail now s s' :
  (∀ t, thumbnail = Some t → ∃ k sum n, t = thumbnail_row bucket i documentId k sum n now) →
  photos_ok s → accept_tx i (upload_row bucket i documentId key sum size now) thumbnail now s = Ok (tt, s') → photos_ok s'.
Proof.
  intros Ht P H. unfold DocumentTx.accept_tx in H. apply tbind_ok in H as (full & s0 & H0 & H). apply tread_ok in H0 as [-> ->].
  destruct (match up_roomId i with Some r => _ | None => false end) eqn:Efull; [by apply tthrow_ok in H|].
  apply tbind_ok in H as (u & s1 & H1 & H). apply tprim_ok in H1.
  assert (photos_ok s1) as P1.
  { eapply photos_ok_create; [exact P | exact H1 | | done]. intros c r Ha.
    unfold active_photo in Ha. apply andb_true_iff in Ha as [[[Ec Er]%andb_true_iff _]%andb_true_iff _]. apply bool_decide_eq_true in Ec, Er.
    cbn [upload_row StoredDocument.caseId StoredDocument.roomId] in Ec, Er. injection Ec as <-. rewrite Er in Efull. by apply Nat.leb_gt in Efull. }
  apply tbind_ok in H as (u' & s2 & H2 & H).
  assert (photos_ok s2) as P2.
  { destruct (up_actorAccountId i); [|apply tret_ok in H2 as [_ ->]; done]. destruct u'. apply event_frame in H2 as [E1 E2].
    by eapply photos_ok_frame. }
  destruct thumbnail as [t|]; [|by apply tret_ok in H as [_ ->]]. apply tprim_ok in H. destruct (Ht t eq_refl) as (k & sm & n & ->).
  eapply photos_ok_create; [exact P2 | exact H | | done]. intros c r Ha. unfold active_photo in Ha. simpl in Ha. boolify. done.
Qed.

Lemma find_photo_Some c r k s d : find_photo c r k s = Some d → In d (documents s) ∧ StoredDocument.id d = k ∧ active_photo c r d = true.
Proof. unfold find_photo. intros [Hin H]%find_row_Some. apply andb_true_iff in H as [H1 H2]. by boolify. Qed.

Lemma represent_ok caseId roomId documentId actor trace now s s' : photos_ok s →
  setRepresentative caseId roomId documentId actor trace now s = Ok (tt, s') → photos_ok s'.
Proof.
  intros P H. unfold DocumentTx.setRepresentative in H. apply tbind_ok in H as ([] & s0 & Hc & H). unfold represent_check in Hc.
  apply tbind_ok in Hc as (ph & s3 & H0 & Hc). apply tread_ok in H0 as [-> ->].
  destruct (find_photo _ _ _ s) as [d|] eqn:Ed; [|by apply tthrow_ok in Hc]. apply find_photo_Some in Ed as (Hd & Hk & Ha).
  apply tbind_ok in Hc as (room & s3 & H0 & Hc). apply tread_ok in H0 as [-> ->]. destruct (find_room _ _ s); [|by apply tthrow_ok in Hc].
  apply tret_ok in Hc as [_ ->]. unfold DocumentTx.represent_write in H.
  apply tbind_ok in H as (u & s1 & H1 & H). apply twrite_ok in H1 as ->. apply tbind_ok in H as ([] & s2 & H2 & H).
  apply audit_frame in H2 as [E1 E2]. apply event_frame in H as [E3 E4].
  eapply photos_ok_frame; [etrans; [exact E3 | exact E1] | etrans; [exact E4 | exact E2] |]. destruct P as [P1 P2 P3 P4]. constructor; simpl; [done..|].
  intros r p (r0 & Er & Hr0)%in_map_iff Hp. unfold by_id in Er. case_bool_decide as E; subst r; [|by apply P4].
  simpl in *. injection Hp as <-. exists caseId, d. rewrite E. done.
Qed.

(** Marking documents deleted removes them from every count. *)
Lemma update_count (q p : StoredDocument.t → bool) f l : (∀ d, q d = true → p (f d) = false) →
  (length (List.filter p (update_where q f l)) <= length (List.filter p l))%nat.
Proof.
  intros H. induction l as [|d l IH]; [done|]. rewrite update_where_cons. cbn [List.filter].
  destruct (q d) eqn:E; [rewrite H by done|]; destruct (p d); simpl; lia.
Qed.

Lemma deleted_inactive c r v d : active_photo c r (StoredDocument.set_deleted v d) = false.
Proof. unfold active_photo, accepted_document. simpl. by rewrite !andb_false_r. Qed.

Lemma delete_ok_step caseId roomId documentId actor trace reason now res s s' : photos_ok s →
  deletePhoto_tx caseId roomId documentId actor trace reason now s = Ok (res, s') → photos_ok s'.
Proof.
  intros P H. unfold DocumentTx.deletePhoto_tx in H. apply tbind_ok in H as (ks & s0 & Hc & H). unfold delete_check in Hc.
  apply tbind_ok in Hc as (ph & s3 & H0 & Hc). apply tread_ok in H0 as [-> ->].
  destruct (find_photo _ _ _ s) as [d|] eqn:Ed; [|by apply tret_ok in Hc as [-> ->]; apply tret_ok in H as [_ ->]].
  apply find_photo_Some in Ed as (Hd & Hk & Ha). apply tread_ok in Hc as [-> ->].
  apply tbind_ok in H as ([] & s4 & Hw & H). apply tret_ok in H as [_ ->]. unfold DocumentTx.delete_write in Hw.
  apply tbind_ok in Hw as (u & s1 & H1 & H). apply twrite_ok in H1 as ->.
  apply tbind_ok in H as (u1 & s2 & H2 & H). apply twrite_ok in H2 as ->. apply tbind_ok in H as ([] & s3 & H3 & H4).
  apply audit_frame in H3 as [E1 E2]. apply event_frame in H4 as [E3 E4].
  eapply photos_ok_frame; [etrans; [exact E3 | exact E1] | etrans; [exact E4 | exact E2] |]. destruct P as [P1 P2 P3 P4]. constructor; simpl.
  - by rewrite map_update_where.
  - intros c r. etrans; [|apply (P2 c r)]. unfold photo_count. simpl. apply update_count. intros. apply deleted_inactive.
  - intros q (q0 & Eq & Hq0)%in_map_iff. destruct (photo_or_variant documentId q0); subst q; simpl; by apply P3.
  - intros r p (r0 & Er & Hr0)%in_map_iff Hp. destruct (bool_decide (PropertyRoom.id r0 = roomId) && _) eqn:Eb; subst r; [done|].
    destruct (P4 r0 p Hr0 Hp) as (c & q & Hq & Hqid & Hact). exists c, q. split; [|done]. apply in_map_iff. exists q. split; [|done].
    destruct (photo_or_variant documentId q) eqn:Ev; [exfalso|done]. unfold photo_or_variant in Ev. apply andb_true_iff in Ev as [Ev _].
    pose proof Hact as Hact'. unfold active_photo in Hact'. boolify. apply orb_true_iff in Ev as [Ev|Ev]; boolify.
    + assert (q = d) as -> by (eapply NoDup_map_inj_in; [exact P1|done..|congruence]). unfold active_photo in Ha. boolify.
      rewrite bool_decide_eq_true_2, bool_decide_eq_true_2 in Eb by congruence. done.
    + rewrite P3 in Ev by done. done.
Qed.

Lemma without_room_inactive c r d : active_photo c r (StoredDocument.without_room d) = false.
Proof. unfold active_photo. cbn [StoredDocument.roomId StoredDocument.without_room]. by rewrite (bool_decide_eq_false_2 (None = Some r)), andb_false_r. Qed.

Lemma room_ok_step caseId roomId actor trace reason now res s s' : photos_ok s →
  deleteRoom_tx caseId roomId actor trace reason now s = Ok (res, s') → photos_ok s'.
Proof.
  intros P H. unfold DocumentTx.deleteRoom_tx in H. apply tbind_ok in H as ([[room keys] n] & s0 & Hc & H). unfold room_check in Hc.
  apply tbind_ok in Hc as (rm & s3 & H0 & Hc). apply tread_ok in H0 as [-> ->].
  destruct (find_room _ _ s) as [room'|]; [|by apply tthrow_ok in Hc]. apply tread_ok in Hc as [[= -> -> ->] ->].
  apply tbind_ok in H as ([] & s5 & Hw & H). apply tret_ok in H as [_ ->]. unfold DocumentTx.room_write in Hw.
  apply tbind_ok in Hw as (u & s1 & H1 & H). apply twrite_ok in H1 as ->. apply tbind_ok in H as (u1 & s2 & H2 & H). apply twrite_ok in H2 as ->.
  apply tbind_ok in H as (u2 & s3 & H3 & H). apply twrite_ok in H3 as ->. cbv zeta in H. apply tbind_ok in H as ([] & s4 & H4 & H5).
  apply audit_frame in H4 as [E1 E2]. apply event_frame in H5 as [E3 E4].
  eapply photos_ok_frame; [etrans; [exact E3 | exact E1] | etrans; [exact E4 | exact E2] |]. destruct P as [P1 P2 P3 P4]. constructor; simpl.
  - by rewrite !map_update_where.
  - intros c r. etrans; [|apply (P2 c r)]. unfold photo_count. simpl. etrans; apply update_count; intros; [apply without_room_inactive | apply deleted_inactive].
  - intros q (q1 & Eq & (q0 & Eq0 & Hq0)%in_map_iff)%in_map_iff.
    assert (StoredDocument.documentType q = StoredDocument.documentType q0 ∧ StoredDocument.sourceDocumentId q = StoredDocument.sourceDocumentId q0) as [-> ->]
      by (subst q q1; by destruct (in_room _ q0 && _), (in_room _ _)). by apply P3.
  - intros r p [Hr Hne]%filter_In Hp. boolify. destruct (P4 r p Hr Hp) as (c & q & Hq & Hqid & Hact). exists c, q. split; [|done].
    assert (in_room roomId q = false) as Hout.
    { unfold active_photo in Hact. unfold in_room. boolify. apply bool_decide_eq_false. congruence. }
    apply in_map_iff. exists q. rewrite Hout. split; [done|]. apply in_map_iff. exists q. by rewrite Hout.
Qed.

Lemma photo_step_ok s s' : photos_ok s → photo_step s s' → photos_ok s'.
Proof.
  intros P H. destruct H as [i k key sum size th now s s' Ht H|c r k a tr now s s' H|c r k a tr rs now res s s' H|c r a tr rs now res s s' H|new s s' E1 E2 Hn].
  - by eapply accept_ok.
  - by eapply represent_ok.
  - by eapply delete_ok_step.
  - by eapply room_ok_step.
  - destruct P as [P1 P2 P3 P4]. constructor; unfold photo_count in *; rewrite ?E1; [done..|]. intros r p Hr Hp. rewrite E2 in Hr.
    apply in_app_iff in Hr as [Hr|Hr]; [by apply P4|]. rewrite Hn in Hp; done.
Qed.

Lemma discard_all_db keys w : st_db (foldl (λ w k, discard k w) w keys) = st_db w.
Proof. revert w. induction keys as [|k keys IH]; intros w; simpl; [done|]. rewrite IH. unfold discard. by destruct (delete_ok k). Qed.

Lemma undo_db {A} keys (m : io store A) (R : intake → intake → Prop) w :
  R (st_db w) (st_db (m w).2) → R (st_db w) (st_db (undo keys m w).2).
Proof. unfold undo, iocatch. destruct (m w) as [[a|e] w']; simpl; [done|]. by rewrite discard_all_db. Qed.

(** What a service does to the tables is one step, or nothing. *)
Definition same_or_step (s s' : intake) : Prop := s' = s ∨ photo_step s s'.

Lemma on_db_step {A} (t : txn intake A) w : (∀ a s', t (st_db w) = Ok (a, s') → photo_step (st_db w) s') → same_or_step (st_db w) (st_db (on_db t w).2).
Proof. intros H. unfold on_db. destruct (t (st_db w)) as [[a s']|e]; [right; simpl; by eapply H | by left]. Qed.

Lemma accept_step i documentId key sum size thumbnail now w (d : StoredDocument.t) :
  (∀ t, thumbnail = Some t → ∃ k sum n, t = thumbnail_row bucket i documentId k sum n now) →
  same_or_step (st_db w) (st_db ((await _ := on_db (accept_tx i (upload_row bucket i documentId key sum size now) thumbnail now) in ret d) w).2).
Proof.
  intros Ht. pose proof (on_db_step (accept_tx i (upload_row bucket i documentId key sum size now) thumbnail now) w) as H.
  unfold iobind. destruct (on_db _ w) as [[[]|e] w']; simpl in *; apply H; intros [] s' E; by eapply ps_upload.
Qed.

Lemma execute_step documentId now i w : same_or_step (st_db w) (st_db (execute documentId now i w).2).
Proof.
  unfold execute, iobind at 1 2 3, lift at 1 2, query. destruct (check_type i); [|by left]. destruct (check_place i _); [|by left].
  destruct (read_body _ _ _) as [[size content]|]; [|by left]. destruct (size =? 0); [by left|]. destruct (_ && _); [by left|].
  unfold iobind at 1, lift at 1. destruct (objectKey _ _ _ _) as [key|]; [|by left]. unfold iobind at 1, lift at 1.
  destruct (scan_clean content); [|by left]. unfold iobind at 1, put at 1. destruct (put_ok key); [|by left].
  set (w1 := mkStore _ _). change (st_db w) with (st_db w1). destruct (bool_decide _).
  - unfold iobind at 1. unfold undo at 1, iocatch at 1, lift at 1. destruct (createThumbnail _ _) as [th|]; [|left; exact (discard_all_db [key] w1)].
    unfold iobind at 1. unfold undo at 1, iocatch at 1, lift at 1. destruct (objectKey _ _ _ _) as [ref|]; [|left; exact (discard_all_db [key] w1)].
    apply undo_db. unfold iobind at 1, put. destruct (put_ok ref); [|by left]. set (w2 := mkStore _ _). change (st_db w1) with (st_db w2).
    apply accept_step. intros t [= <-]. by do 3 eexists.
  - apply undo_db. apply accept_step. done.
Qed.

Lemma deletePhoto_step caseId roomId documentId actor trace reason now w :
  same_or_step (st_db w) (st_db (deletePhoto caseId roomId documentId actor trace reason now w).2).
Proof.
  unfold deletePhoto, iobind. pose proof (on_db_step (deletePhoto_tx caseId roomId documentId actor trace reason now) w) as H.
  destruct (on_db _ w) as [[[keys|]|e] w']; simpl in *; rewrite ?discard_all_db; apply H; intros a s' E; by eapply ps_delete.
Qed.

Lemma deleteRoom_step caseId roomId actor trace reason now w :
  same_or_step (st_db w) (st_db (deleteRoom caseId roomId actor trace reason now w).2).
Proof.
  unfold deleteRoom, iobind. pose proof (on_db_step (deleteRoom_tx caseId roomId actor trace reason now) w) as H.
  destruct (on_db _ w) as [[keys|e] w']; simpl in *; rewrite ?discard_all_db; apply H; intros a s' E; by eapply ps_room.
Qed.

(** As long as the transactions run one after another, a room never has more than five photos and the photo that represents
    a room is one of its own that is accepted and not deleted; what each service does to the tables is one such transaction or
    nothing. *)
Theorem room_photos_stay_consistent s0 s :
  documents s0 = [] → (∀ r, In r (rooms s0) → PropertyRoom.preferredPhotoId r = None) → rtc photo_step s0 s →
  photos_ok s ∧
  ∀ w, st_db w = s →
    (∀ documentId now i, same_or_step s (st_db (execute documentId now i w).2)) ∧
    (∀ c r k a tr rs now, same_or_step s (st_db (deletePhoto c r k a tr rs now w).2)) ∧
    (∀ c r a tr rs now, same_or_step s (st_db (deleteRoom c r a tr rs now w).2)).
Proof.
  intros Hd Hr H. split.
  - assert (photos_ok s0) as P.
    { constructor; unfold photo_count; rewrite ?Hd; simpl; [constructor | intros; lia | done |]. intros r p Hin Hp. by rewrite Hr in Hp. }
    clear Hd Hr. induction H as [|s0 s1 s2 H _ IH]; [done|]. apply IH. by eapply photo_step_ok.
  - intros w <-. split_and!; intros; [apply execute_step | apply deletePhoto_step | apply deleteRoom_step].
Qed.

(** ** The limit, whatever runs between a transaction's reads and its writes *)

(** The upload holds the lock on its room from its count to its commit.  Of the others only the writes are steps: they may
    come at any time after the reads that allowed them. *)
Inductive photo_phase : intake → intake → Prop :=
  | pp_upload i documentId key sum size thumbnail now s s' :
      (∀ t, thumbnail = Some t → ∃ k sum n, t = thumbnail_row bucket i documentId k sum n now) →
      accept_tx i (upload_row bucket i documentId key sum size now) thumbnail now s = Ok (tt, s') → photo_phase s s'
  | pp_represent caseId roomId documentId actor trace now s s' :
      represent_write caseId roomId documentId actor trace now s = Ok (tt, s') → photo_phase s s'
  | pp_delete caseId roomId documentId actor trace reason now s s' :
      delete_write caseId roomId documentId actor trace reason now s = Ok (tt, s') → photo_phase s s'
  | pp_room caseId roomId actor trace reason room n now s s' :
      room_write caseId roomId actor trace reason room n now s = Ok (tt, s') → photo_phase s s'
  | pp_other s s' : documents s' = documents s → photo_phase s s'.

Lemma accept_documents i d thumbnail now s s' : accept_tx i d thumbnail now s = Ok (tt, s') →
  documents s' = documents s ++ d :: match thumbnail with Some t => [t] | None => [] end.
Proof.
  intros H. unfold DocumentTx.accept_tx in H. apply tbind_ok in H as (full & s0 & H0 & H). apply tread_ok in H0 as [-> ->].
  destruct (match up_roomId i with Some r => _ | None => false end); [by apply tthrow_ok in H|].
  apply tbind_ok in H as (u & s1 & H1 & H). apply tprim_ok in H1. apply document_create_keeps in H1 as [E1 _].
  apply tbind_ok in H as ([] & s2 & H2 & H). assert (documents s2 = documents s1) as E2.
  { destruct (up_actorAccountId i); [by apply event_frame in H2 as [? _] | by apply tret_ok in H2 as [_ ->]]. }
  destruct thumbnail as [t|].
  - apply tprim_ok in H. apply document_create_keeps in H as [-> _]. by rewrite E2, E1, <- app_assoc.
  - apply tret_ok in H as [_ ->]. by rewrite E2, E1.
Qed.

Definition within_limit (s : intake) : Prop := ∀ c r, (photo_count c r s <= MAX_ROOM_PHOTOS)%nat.

Definition no_more_photos (s s' : intake) : Prop := ∀ c r, (photo_count c r s' <= photo_count c r s)%nat.

Lemma same_documents_no_more s s' : documents s' = documents s → no_more_photos s s'.
Proof. intros E c r. unfold photo_count. by rewrite E. Qed.

Lemma delete_write_no_more caseId roomId documentId actor trace reason now s s' :
  delete_write caseId roomId documentId actor trace reason now s = Ok (tt, s') → no_more_photos s s'.
Proof.
  unfold DocumentTx.delete_write. intros (u & s1 & H1%twrite_ok & H)%tbind_ok c r. subst s1.
  apply tbind_ok in H as (u1 & s2 & H2%twrite_ok & H). subst s2. apply tbind_ok in H as ([] & s3 & [E1 _]%audit_frame & [E2 _]%event_frame).
  unfold photo_count. rewrite E2, E1. simpl. apply update_count. intros. apply deleted_inactive.
Qed.

Lemma room_write_no_more caseId roomId actor trace reason room n now s s' :
  room_write caseId roomId actor trace reason room n now s = Ok (tt, s') → no_more_photos s s'.
Proof.
  unfold DocumentTx.room_write. intros (u & s1 & H1%twrite_ok & H)%tbind_ok c r. subst s1.
  apply tbind_ok in H as (u1 & s2 & H2%twrite_ok & H). subst s2. apply tbind_ok in H as (u2 & s3 & H3%twrite_ok & H). subst s3.
  cbv zeta in H. apply tbind_ok in H as ([] & s4 & [E1 _]%audit_frame & [E2 _]%event_frame).
  unfold photo_count. rewrite E2, E1. simpl. etrans; apply update_count; intros; [apply without_room_inactive | apply deleted_inactive].
Qed.

Lemma represent_write_no_more caseId roomId documentId actor trace now s s' :
  represent_write caseId roomId documentId actor trace now s = Ok (tt, s') → no_more_photos s s'.
Proof.
  unfold DocumentTx.represent_write. intros (u & s1 & H1%twrite_ok & H)%tbind_ok. subst s1.
  apply tbind_ok in H as ([] & s2 & [E1 _]%audit_frame & [E2 _]%event_frame).
  apply same_documents_no_more. by rewrite E2, E1.
Qed.

(** The thumbnail is not a photo of the room; the document is one more, and there was room for it. *)
Lemma accept_within_limit i documentId key sum size thumbnail now s s' :
  (∀ t, thumbnail = Some t → ∃ k sum n, t = thumbnail_row bucket i documentId k sum n now) →
  within_limit s → accept_tx i (upload_row bucket i documentId key sum size now) thumbnail now s = Ok (tt, s') → within_limit s'.
Proof.
  intros Ht P H c r. pose proof (accept_documents _ _ _ _ _ _ H) as E. specialize (P c r).
  assert (∀ r', up_roomId i = Some r' → (photo_count (up_caseId i) r' s < MAX_ROOM_PHOTOS)%nat) as Hfull.
  { intros r' Er. unfold DocumentTx.accept_tx in H. apply tbind_ok in H as (full & s0 & H0 & H). apply tread_ok in H0 as [-> ->].
    rewrite Er in H. destruct (_ <=? _)%nat eqn:Ef in H; [by apply tthrow_ok in H|]. by apply Nat.leb_gt in Ef. }
  clear H. unfold photo_count in *. rewrite E, List.filter_app, length_app. cbn [List.filter].
  assert (List.filter (active_photo c r) match thumbnail with Some t => [t] | None => [] end = []) as ->.
  { destruct thumbnail as [t|]; [|done]. destruct (Ht t eq_refl) as (k & sm & n & ->). simpl. unfold active_photo. simpl.
    by rewrite andb_false_r. }
  destruct (active_photo c r (upload_row _ _ _ _ _ _ _)) eqn:Ea; cbn [length]; [|lia].
  unfold active_photo in Ea. apply andb_true_iff in Ea as [[[Ec Er]%andb_true_iff _]%andb_true_iff _]. apply bool_decide_eq_true in Ec, Er.
  cbn [upload_row StoredDocument.caseId StoredDocument.roomId] in Ec, Er. injection Ec as <-. specialize (Hfull r Er). lia.
Qed.

Lemma photo_phase_limit s s' : photo_phase s s' → within_limit s → within_limit s'.
Proof.
  assert (∀ a b, no_more_photos a b → within_limit a → within_limit b) as Hle.
  { intros a b H P c r. specialize (H c r). specialize (P c r). lia. }
  intros [i k key sum size th now a b Ht H|c r k ac tr now a b H|c r k ac tr rs now a b H|c r ac tr rs room n now a b H|a b H] P.
  - by eapply accept_within_limit.
  - eapply Hle; [by eapply represent_write_no_more|done].
  - eapply Hle; [by eapply delete_write_no_more|done].
  - eapply Hle; [by eapply room_write_no_more|done].
  - eapply Hle; [by apply same_documents_no_more|done].
Qed.

(** C32: a room never has more than five photos that are accepted and not deleted, however uploads run together with each
    other and with the transactions that choose a representative photo, delete a photo or remove a room, even when other
    transactions commit between the reads of one of those (which take no lock) and its writes. *)
Theorem room_photo_limit_holds s0 s caseId roomId :
  documents s0 = [] → rtc photo_phase s0 s →
  (length (List.filter (λ d, bool_decide (StoredDocument.caseId d = Some caseId) && bool_decide (StoredDocument.roomId d = Some roomId) &&
             bool_decide (StoredDocument.documentType d = "room_photo") && accepted_document d) (documents s)) <= 5)%nat.
Proof.
  intros Hd H. assert (within_limit s0) as P by (intros c r; unfold photo_count; rewrite Hd; simpl; lia).
  assert (within_limit s) as Q; [|exact (Q caseId roomId)].
  clear Hd. induction H as [|s0 s1 s2 H _ IH]; [done|]. apply IH. by eapply photo_phase_limit.
Qed.

(** ** All or nothing *)

Lemma append_assoc_body size content chunks n c : read_body size content chunks = Ok (n, c) → size = Z.of_nat (String.length content) →
  c = String.append content (String.concat "" chunks) ∧ n = Z.of_nat (String.length c) ∧ (size ≤ MAX_BYTES → n ≤ MAX_BYTES).
Proof.
  revert size content. induction chunks as [|b chunks IH]; intros size content H Hs; cbn [read_body] in H.
  - injection H as <- <-. simpl. by rewrite append_empty_r.
  - destruct (_ <? _) eqn:E; [done|]. boolify. apply IH in H as (-> & Hn & Hle); [|rewrite length_append, Nat2Z.inj_add; lia].
    split_and!; [|done|intros _; by apply Hle]. rewrite append_assoc. f_equal. destruct chunks as [|b' chunks]; [simpl; by rewrite append_empty_r | done].
Qed.

Definition unused (w : store) (key : string) : Prop :=
  st_objects w !! key = None ∧ ∀ d, In d (documents (st_db w)) → StoredDocument.objectKey d ≠ key.

Lemma objectKey_length a c n k key : objectKey a c n k = Ok key → ∀ sfx key', objectKey a c n (String.append k sfx) = Ok key' →
  String.length key' = (String.length key + String.length sfx)%nat.
Proof.
  unfold objectKey. intros H sfx key' H'. destruct (_ || _) in H; [done|]. destruct (_ || _) in H'; [done|]. injection H as <-. injection H' as <-.
  destruct n; simpl; rewrite ?length_append; simpl; rewrite ?length_append; simpl; rewrite ?length_append; simpl; rewrite ?length_append; simpl; lia.
Qed.

(** The document is read back from the row just appended. *)
Lemma read_back i documentId key sum size now content rest w objects s' :
  unused w key → objects !! key = Some content →
  documents s' = documents (st_db w) ++ upload_row bucket i documentId key sum size now :: rest →
  GetCaseDocument_execute (up_caseId i) key (mkStore s' objects) = Ok (content, up_contentType i, size).
Proof.
  intros [_ Hu] Ho Ed. unfold GetCaseDocument_execute, find_row. cbn [st_db]. rewrite Ed, List.filter_app.
  assert (List.filter (λ d, readable (up_caseId i) d && bool_decide (StoredDocument.objectKey d = key)) (documents (st_db w)) = []) as ->.
  { apply filter_nil. intros d Hd. rewrite (bool_decide_eq_false_2 (_ = key)) by by apply Hu. apply andb_false_r. }
  cbn [app List.filter]. unfold readable, accepted_document. cbn [upload_row StoredDocument.caseId StoredDocument.bucket StoredDocument.uploadStatus StoredDocument.objectKey].
  rewrite !bool_decide_eq_true_2 by done.
  change (is_set (StoredDocument.deletedAt (upload_row bucket i documentId key sum size now))) with false.
  cbn [andb negb head st_objects upload_row StoredDocument.objectKey]. by rewrite Ho.
Qed.

(** What a failed upload may leave in the bucket: an object under one of its own two keys whose deletion failed. *)
Definition leftover (documentId : string) (i : UploadInput) (key : string) : Prop :=
  delete_ok key = false ∧ ∃ sfx, (sfx = "" ∨ sfx = "-thumbnail") ∧
    objectKey "intake" (up_caseId i) (Some (up_revisionNumber i)) (String.append documentId sfx) = Ok key.

Definition untouched (documentId : string) (i : UploadInput) (w w' : store) : Prop :=
  st_db w' = st_db w ∧ ∀ key, st_objects w' !! key = st_objects w !! key ∨ leftover documentId i key.

Lemma discard_all_lookup keys : ∀ w,
  st_db (discard_all keys w).2 = st_db w ∧
  ∀ k, st_objects (discard_all keys w).2 !! k = st_objects w !! k ∨
       (In k keys ∧ delete_ok k = true ∧ st_objects (discard_all keys w).2 !! k = None).
Proof.
  simpl. induction keys as [|k0 keys IH]; intros w; simpl; [by split; [|left]|].
  destruct (IH (discard k0 w)) as [H1 H2]. split; [rewrite H1; unfold discard; by destruct (delete_ok k0)|].
  intros k. destruct (H2 k) as [->|(Hin & Hd & Hn)]; [|right; auto]. unfold discard.
  destruct (delete_ok k0) eqn:Ed; [|by left]. simpl. destruct (decide (k = k0)) as [->|Hne].
  - right. split_and!; [by left|done|apply lookup_delete_eq].
  - left. by apply lookup_delete_ne.
Qed.

(** Every deletion attempted happens, when it succeeds. *)
Lemma discard_all_gone keys : ∀ w k, In k keys → delete_ok k = true → st_objects (discard_all keys w).2 !! k = None.
Proof.
  simpl. induction keys as [|k0 keys IH]; intros w k Hin Hd; [done|]. simpl. destruct Hin as [->|Hin]; [|by apply IH].
  destruct (discard_all_lookup keys (discard k w)) as [_ H]. simpl in H. destruct (H k) as [->|(_ & _ & ->)]; [|done].
  unfold discard. rewrite Hd. apply lookup_delete_eq.
Qed.

(** Undoing an upload that has stored at most objects under fresh keys of its own. *)
Lemma undone documentId i w objects keys :
  (∀ k, In k keys → st_objects w !! k = None ∧ ∃ sfx, (sfx = "" ∨ sfx = "-thumbnail") ∧
     objectKey "intake" (up_caseId i) (Some (up_revisionNumber i)) (String.append documentId sfx) = Ok k) →
  (∀ k, objects !! k = st_objects w !! k ∨ In k keys) →
  untouched documentId i w (discard_all keys (mkStore (st_db w) objects)).2.
Proof.
  intros Hk Ho. destruct (discard_all_lookup keys (mkStore (st_db w) objects)) as [H1 H2]. split; [done|]. intros k.
  destruct (in_dec string_dec k keys) as [Hin|Hno].
  - destruct (Hk k Hin) as [Hn Hsfx]. destruct (delete_ok k) eqn:Ed; [left|by right]. rewrite Hn. by apply discard_all_gone.
  - left. destruct (H2 k) as [->|(Hin & _)]; [|done]. by destruct (Ho k).
Qed.

Lemma untouched_refl documentId i w : untouched documentId i w w.
Proof. split; [done|by left]. Qed.

(** C33: an upload that is refused at any point, by a check, by the malware scanner, by the storage or by the database, leaves
    the tables and every other object of the bucket as they were, and of its own two objects only those whose deletion failed
    (the clean-up is best effort); one that succeeds had a supported type, came for the current revision of an existing case,
    was at most 100 MB and found clean by the scanner, and reading the document back gives the bytes that were uploaded, with
    the type, the size and the checksum recorded for them.  Storage keys are lower-case and contain the case identifier, so
    only a case whose identifier has no upper-case letter gets as far as succeeding; the upper-case ULIDs the program
    generates are always refused (uploads_fail_for_ulid_cases). *)
Theorem upload_all_or_nothing documentId now i w :
  (∀ sfx key, (sfx = "" ∨ sfx = "-thumbnail") →
     objectKey "intake" (up_caseId i) (Some (up_revisionNumber i)) (String.append documentId sfx) = Ok key → unused w key) →
  match execute documentId now i w with
  | (Err _, w') =>
      st_db w' = st_db w ∧
      ∀ key, st_objects w' !! key = st_objects w !! key ∨
        delete_ok key = false ∧ ∃ sfx, (sfx = "" ∨ sfx = "-thumbnail") ∧
          objectKey "intake" (up_caseId i) (Some (up_revisionNumber i)) (String.append documentId sfx) = Ok key
  | (Ok d, w') =>
      let content := String.concat "" (up_body i) in
      check_type i = Ok tt ∧ check_place i (st_db w) = Ok tt ∧ scan content = Ok false ∧
      0 < Z.of_nat (String.length content) ≤ MAX_BYTES ∧ StoredDocument.sha256Checksum d = sha256 content ∧
      GetCaseDocument_execute (up_caseId i) (StoredDocument.objectKey d) w' =
        Ok (content, up_contentType i, Z.of_nat (String.length content))
  end.
Proof.
  intros Hfresh. fold (leftover documentId i). pose proof (untouched_refl documentId i w) as Hsame.
  unfold execute, iobind at 1 2 3, lift at 1 2, query. destruct (check_type i) as [[]|] eqn:Et; [|done].
  destruct (check_place i _) as [[]|] eqn:Ep; [|done]. destruct (read_body _ _ _) as [[size content]|] eqn:Eb; [|done].
  apply append_assoc_body in Eb as (Ec & Es & Hmax); [|done]. cbn [String.append] in Ec.
  destruct (size =? 0) eqn:Ez; [done|]. destruct (_ && _); [done|].
  unfold iobind at 1, lift at 1. destruct (objectKey _ _ _ documentId) as [key|] eqn:Ek; [|done]. unfold iobind at 1, lift at 1.
  destruct (scan_clean content) as [[]|] eqn:Escan; [|done]. unfold iobind at 1, put at 1. destruct (put_ok key); [|done].
  assert (objectKey "intake" (up_caseId i) (Some (up_revisionNumber i)) (String.append documentId "") = Ok key) as Ek0
    by (by rewrite append_empty_r).
  assert (unused w key) as Hu by (by apply (Hfresh ""); [left|]).
  assert (scan content = Ok false ∧ 0 < size) as [Hscan Hpos].
  { unfold scan_clean in Escan. destruct (scan content) as [[]|]; try done. split; [done|]. apply Z.eqb_neq in Ez. lia. }
  assert (∀ k x, <[key := x]> (st_objects w) !! k = st_objects w !! k ∨ In k [key]) as Hput.
  { intros k x. destruct (decide (k = key)) as [->|]; [right; by left|left; by apply lookup_insert_ne]. }
  assert (untouched documentId i w (discard_all [key] (mkStore (st_db w) (<[key := content]> (st_objects w)))).2) as Hone.
  { apply undone; [|intros k; apply Hput]. intros k [<-|[]]. split; [apply Hu|]. exists "". by split; [left|]. }
  destruct (bool_decide _).
  - unfold iobind at 1. unfold undo at 1, iocatch at 1, lift at 1. destruct (createThumbnail _ _) as [th|]; [|exact Hone].
    unfold iobind at 1. unfold undo at 1, iocatch at 1, lift at 1.
    destruct (objectKey _ _ _ (String.append documentId "-thumbnail")) as [ref|] eqn:Er; [|exact Hone].
    assert (unused w ref) as Hur by (by apply (Hfresh "-thumbnail"); [right|]).
    assert (key ≠ ref) as Hne.
    { intros ->. pose proof (objectKey_length _ _ _ _ _ Ek _ _ Er) as HL. simpl in HL. lia. }
    assert (∀ objects, (∀ k, objects !! k = st_objects w !! k ∨ In k [ref; key]) →
      untouched documentId i w (discard_all [ref; key] (mkStore (st_db w) objects)).2) as Hboth.
    { intros objects. apply undone. intros k [<-|[<-|[]]]; (split; [by apply Hu || apply Hur|]);
        [exists "-thumbnail"; by split; [right|] | exists ""; by split; [left|]]. }
    unfold undo, iocatch, iobind, put. destruct (put_ok ref).
    + unfold on_db. cbn [st_db st_objects]. destruct (accept_tx _ _ _ _ _) as [[[] s']|e] eqn:Ea.
      * simpl. subst content size. split_and!; try done; [by apply Hmax|]. eapply read_back; [exact Hu | | by eapply accept_documents].
        rewrite lookup_insert_ne by done. apply lookup_insert_eq.
      * apply Hboth. intros k. destruct (decide (k = ref)) as [->|]; [right; by left|]. rewrite lookup_insert_ne by done.
        destruct (Hput k content) as [?|Hin]; [by left | right; by right].
    + apply Hboth. intros k. destruct (Hput k content) as [?|Hin]; [by left | right; by right].
  - unfold undo, iocatch, iobind, on_db. cbn [st_db st_objects]. destruct (accept_tx _ _ _ _ _) as [[[] s']|e] eqn:Ea; [|exact Hone].
    simpl. subst content size. split_and!; try done; [by apply Hmax|]. eapply read_back; [exact Hu | | by eapply accept_documents].
    apply lookup_insert_eq.
Qed.

(** ** Object keys and case identifiers *)

Definition is_upper (c : ascii) : bool := let k := char_code c in (65 <=? k) && (k <=? 90).
Definition has_upper (s : string) : bool := negb (string_forallb (λ c, negb (is_upper c)) s).

Lemma key_char_not_upper c : key_char c = true → is_upper c = false.
Proof. unfold key_char, key_start, is_digit, is_upper. intros H. apply not_true_is_false. intros H'. boolify. lia. Qed.

Lemma upper_no_key a c n k key : has_upper c = true → objectKey a c n k ≠ Ok key.
Proof.
  intros Hu H. unfold objectKey in H. destruct (_ || _) eqn:E in H; [done|]. apply orb_false_iff in E as [E _]. apply negb_false_iff in E.
  assert (∀ t, key_format t = true → string_forallb key_char t = true) as Hall.
  { intros [|x t]; [done|]. cbn [key_format string_forallb]. intros H0. apply andb_true_iff in H0 as [H0 _]. apply andb_true_iff in H0 as [H0 H1].
    rewrite H1, andb_true_r. unfold key_char. by rewrite H0. }
  apply Hall in E. assert (string_forallb key_char c = true) as Ec.
  { destruct n; cbn [app String.concat] in E; rewrite !string_forallb_app in E; boolify; done. }
  unfold has_upper in Hu. apply negb_true_iff in Hu. rewrite (string_forallb_impl key_char _ c) in Hu; [done| |done].
  intros x Hx. by rewrite key_char_not_upper.
Qed.

(** The storage key of a document must be lower-case, and it contains the identifier of the case; for a case whose
    identifier has an upper-case letter, as every ULID the program generates does, no upload of any document is ever
    accepted: the request fails and stores nothing. *)
Theorem uploads_fail_for_ulid_cases documentId now i w :
  has_upper (up_caseId i) = true → ∃ e, execute documentId now i w = (Err e, w).
Proof.
  intros Hu. unfold execute, iobind at 1 2 3, lift at 1 2, query. destruct (check_type i); [|by eexists]. destruct (check_place i _); [|by eexists].
  destruct (read_body _ _ _) as [[size content]|]; [|by eexists]. destruct (size =? 0); [by eexists|]. destruct (_ && _); [by eexists|].
  unfold iobind at 1, lift at 1. destruct (objectKey _ _ _ documentId) as [key|] eqn:Ek; [|by eexists]. by apply upper_no_key in Ek.
Qed.

End WithUlid.

End CaseDocuments.

Module CaseDocumentsDemo.
Import JsBuffer IntakeDb IntakeRepo DocumentTx CaseDocuments IntakeDemo.

(** A scanner that finds everything clean, a decoder that reads every image, a checksum and a storage that never fails. *)
Definition clean (content : string) : result bool := Ok false.
Definition decode_any (content : string) : option (Z * Z * string) := Some (800, 600, "thumbnail").
Definition checksum (content : string) : string := JsString.BigInt_toString (Z.of_nat (String.length content)).
Definition works (key : string) : bool := true.

Notation upload := (execute ulid "vistablox-private" clean decode_any checksum works works).

Definition w0 : store := mkStore i2 ∅.
Definition room : string := default "" (PropertyRoom.id <$> head (rooms i2)).
Definition jpeg : string := of_bytes [255; 216; 255; 224; 1; 2; 3].
Definition photo_input : UploadInput :=
  mkUpload "case_1" "room_photo" 1 (Some room) [jpeg; "more"] "image/jpeg" "bedroom.jpg" (Some "staff") None.

Definition w1 : store := (upload "doc_a1" 100 photo_input w0).2.

Lemma upload_all_or_nothing_witness :
  GetCaseDocument_execute "vistablox-private" "case_1" "intake/case_1/revisions/1/doc_a1" w1 =
    Ok (String.append jpeg "more", "image/jpeg", 11).
Proof.
  assert (∀ sfx key, (sfx = "" ∨ sfx = "-thumbnail") → objectKey "intake" "case_1" (Some 1) (String.append "doc_a1" sfx) = Ok key → unused w0 key) as Hfresh.
  { intros sfx key _ _. split; [reflexivity|]. intros d Hd. vm_compute in Hd. destruct Hd. }
  pose proof (upload_all_or_nothing ulid "vistablox-private" clean decode_any checksum works works "doc_a1" 100 photo_input w0
    Hfresh) as H.
  destruct (upload "doc_a1" 100 photo_input w0) as [[d|e] w'] eqn:E; [|exfalso; vm_compute in E; discriminate E].
  destruct H as (_ & _ & _ & _ & _ & H). assert (w' = w1) as -> by (unfold w1; rewrite E; reflexivity).
  assert (StoredDocument.objectKey d = "intake/case_1/revisions/1/doc_a1") as Ek by (vm_compute in E; injection E as <-; reflexivity).
  rewrite Ek in H. exact H.
Defined.

Definition s2 : intake := irun (setRepresentative ulid "case_1" room "doc_a1" "staff" None 200) (st_db w1).

Lemma demo_upload : photo_step ulid "vistablox-private" (st_db w0) (st_db w1).
Proof.
  unfold w1.
  destruct (execute_step ulid "vistablox-private" clean decode_any checksum works works "doc_a1" 100 photo_input w0) as [E|H]; [|exact H].
  exfalso. apply (f_equal (λ s, length (documents s))) in E. vm_compute in E. discriminate E.
Qed.

Lemma demo_represent : photo_step ulid "vistablox-private" (st_db w1) s2.
Proof.
  destruct (setRepresentative ulid "case_1" room "doc_a1" "staff" None 200 (st_db w1)) as [[[] s']|e] eqn:E;
    [|exfalso; vm_compute in E; discriminate E].
  eapply ps_represent. unfold s2, irun. rewrite E. reflexivity.
Qed.

Lemma room_photos_stay_consistent_witness :
  map PropertyRoom.preferredPhotoId (rooms s2) = [Some "doc_a1"] ∧ photos_ok s2.
Proof.
  split; [vm_compute; reflexivity|].
  apply (room_photos_stay_consistent ulid "vistablox-private" clean decode_any checksum works works (st_db w0) s2).
  - vm_compute. reflexivity.
  - intros r Hr. vm_compute in Hr. destruct Hr as [<-|[]]. reflexivity.
  - eapply rtc_l; [exact demo_upload|]. eapply rtc_l; [exact demo_represent|]. apply rtc_refl.
Defined.

(** A photo of the room, and the room after its photo was deleted by one request and chosen by another. *)
Definition photo_row : StoredDocument.t := upload_row "vistablox-private" photo_input "doc_a1" "intake/case_1/revisions/1/doc_a1" "sum" 11 100.
Definition p1 : intake := irun (accept_tx ulid photo_input photo_row None 100) i2.
Definition p2 : intake := irun (deletePhoto_tx ulid "case_1" room "doc_a1" "staff" None None 200) p1.
Definition p3 : intake := irun (represent_write ulid "case_1" room "doc_a1" "staff" None 201) p2.

Lemma room_photo_limit_holds_witness :
  (length (List.filter (λ d, bool_decide (StoredDocument.caseId d = Some "case_1") && bool_decide (StoredDocument.roomId d = Some room) &&
             bool_decide (StoredDocument.documentType d = "room_photo") && accepted_document d) (documents p1)) <= 5)%nat ∧
  length (documents p1) = 1%nat.
Proof.
  split; [|vm_compute; reflexivity].
  apply (room_photo_limit_holds ulid "vistablox-private" i2 p1); [vm_compute; reflexivity|].
  apply rtc_once. destruct (accept_tx ulid photo_input photo_row None 100 i2) as [[[] s']|e] eqn:E; [|exfalso; vm_compute in E; discriminate E].
  assert (p1 = s') as -> by (unfold p1, irun; rewrite E; reflexivity).
  eapply (pp_upload ulid "vistablox-private" photo_input "doc_a1" _ "sum" 11 None 100); [done|exact E].
Defined.

(** The check of setRepresentative and its write are not under a lock: when another request deletes the photo in between,
    the room is left represented by a deleted photo. *)
Theorem representative_may_be_deleted :
  represent_check "case_1" room "doc_a1" p1 = Ok (tt, p1) ∧
  (∃ keys, deletePhoto_tx ulid "case_1" room "doc_a1" "staff" None None 200 p1 = Ok (Some keys, p2)) ∧
  represent_write ulid "case_1" room "doc_a1" "staff" None 201 p2 = Ok (tt, p3) ∧
  map PropertyRoom.preferredPhotoId (rooms p3) = [Some "doc_a1"] ∧ find_photo "case_1" room "doc_a1" p3 = None.
Proof.
  split; [vm_compute; reflexivity|]. split; [eexists; vm_compute; reflexivity|].
  split; [vm_compute; reflexivity|]. split; vm_compute; reflexivity.
Qed.

(** A case identifier as the program makes them. *)
Definition ulid_input : UploadInput :=
  mkUpload "case_01ARZ3NDEKTSV4RRFFQ69G5FAV" "registry_extract" 1 None ["%PDF-1.7"] "application/pdf" "extract.pdf" (Some "staff") None.

Lemma uploads_fail_for_ulid_cases_witness :
  ∃ e, upload "doc_a1" 100 ulid_input w0 = (Err e, w0).
Proof. apply (uploads_fail_for_ulid_cases ulid "vistablox-private" clean decode_any checksum works works). vm_compute. reflexivity. Defined.

End CaseDocumentsDemo.
