(* ===== verification/Activity.v ===== *)
(** What investors read: their reservations and current positions (src/src/modules/investor-activity), the public list of
    offerings and the disclosure documents of an offering (src/src/modules/offering), and their profile and preferences
    (src/src/modules/profile).  The lists page by the text cursors
    of [Cursor]. *)

From Stdlib Require Import Ascii String Sorted.
From S2P Require Import Prelude JsString Currency DateTime Paging IntakePolicy Db OfferingPolicy OfferingRepo OfferingInv OfferingDemo OfferingPacks OfferingServices Settlement Wallet IntakeDb Cursor.

Module Activity.
Import JsString Currency OfferingPolicy Cursor.

#[local] Arguments String.append !_ _ /.

(** ** Rows with their property *)

(** The property behind a PIV; every PIV has one, and every property is residential. *)
Definition piv_property (pivId : string) (s : intake) : option Property.t :=
  match find_row (by_id Piv.id pivId) (pivs (base s)) with
  | Some v => find_row (by_id Property.id (Piv.propertyId v)) (properties s)
  | None => None
  end.

Record InvestorPropertySummary := mkPropertySummary { ps_countryCode : string; ps_city : option string }.

Definition toPropertySummary (p : Property.t) : InvestorPropertySummary :=
  mkPropertySummary (Property.countryCode p) (Property.city p).

(** A required relation whose row is missing makes the query throw. *)
Definition required {A} (r : option A) : result A :=
  match r with Some a => Ok a | None => Err (Thrown "Inconsistent query result") end.

(** ** Reservations *)

Record LatestMoneyEvent := mkLatest {
  lm_capitalState : CapitalState.t; lm_amountEur : string; lm_amountEurc : option string; lm_recordedAt : Z }.

Record InvestorReservationRecord := mkReservationRecord {
  ir_reservationId : string; ir_offeringId : string; ir_offeringStatus : OfferingStatus; ir_amountEur : string;
  ir_reservationStage : ReservationStage.t; ir_packVersion : option string; ir_reconfirmedAt : option Z;
  ir_finalizedAt : option Z; ir_createdAt : Z; ir_latest : option LatestMoneyEvent; ir_property : InvestorPropertySummary }.

Definition reservation_key (r : Reservation.t) : Z * string := (Reservation.createdAt r, Reservation.id r).
Definition reservation_record_key (r : InvestorReservationRecord) : Z * string := (ir_createdAt r, ir_reservationId r).

Definition latest_summary (e : MoneyEvent.t) : LatestMoneyEvent :=
  mkLatest (MoneyEvent.capitalState e) (numeric2_text (MoneyEvent.amountEur e)) (fromEurcMicros <$> MoneyEvent.amountEurc e)
    (MoneyEvent.recordedAt e).

Definition reservation_record (s : intake) (r : Reservation.t) : result InvestorReservationRecord :=
  let! o := required (find_offering (Reservation.offeringId r) (base s)) in
  let! p := required (piv_property (Offering.pivId o) s) in
  Ok (mkReservationRecord (Reservation.id r) (Reservation.offeringId r) (Offering.status o) (numeric2_text (Reservation.amountEur r))
        (Reservation.stage r) (Reservation.disclosurePackVersionAtReservation r) (Reservation.reconfirmedAt r)
        (Reservation.finalizedAt r) (Reservation.createdAt r) (latest_summary <$> latest_money (Reservation.id r) (base s))
        (toPropertySummary p)).

Definition reservation_of (accountId : string) (r : Reservation.t) : bool := bool_decide (Reservation.accountId r = accountId).

Definition listReservations (accountId : string) (s : intake) (limit : nat) (after : option (Z * string)) :
    result (list InvestorReservationRecord) :=
  rmap (reservation_record s) (findMany reservation_key (reservation_of accountId) (reservations (base s)) limit after).

(** ** Positions *)

Record InvestorPositionRecord := mkPositionRecord {
  pr_positionId : string; pr_reservationId : option string; pr_offeringId : option string; pr_pivId : string;
  pr_unitCount : string; pr_costBasisEur : string; pr_positionStatus : PositionStatus; pr_activatedAt : option Z;
  pr_property : InvestorPropertySummary }.

Definition position_key (p : Position.t) : option Z * string := (Position.activatedAt p, Position.id p).
Definition position_record_key (p : InvestorPositionRecord) : option Z * string := (pr_activatedAt p, pr_positionId p).

Definition position_record (s : intake) (p : Position.t) : result InvestorPositionRecord :=
  let! property := required (piv_property (Position.pivId p) s) in
  Ok (mkPositionRecord (Position.id p) (Position.reservationId p)
        (match Position.reservationId p with
         | Some k => Reservation.offeringId <$> find_reservation k (base s)
         | None => None
         end)
        (Position.pivId p) (fromEurcMicros (Position.unitCount p)) (numeric2_text (Position.costBasisEur p)) (Position.status p)
        (Position.activatedAt p) (toPropertySummary property)).

(** [positionStatus: { in: ["pending_internal_settlement", "active"] }] *)
Definition is_current_position (p : Position.t) : bool :=
  match Position.status p with pending_internal_settlement | active => true | redeemed => false end.

Definition current_position_of (accountId : string) (p : Position.t) : bool :=
  bool_decide (Position.accountId p = accountId) && is_current_position p.

Definition listCurrentPositions (accountId : string) (s : intake) (limit : nat) (after : option (option Z * string)) :
    result (list InvestorPositionRecord) :=
  rmap (position_record s) (findMany position_key (current_position_of accountId) (positions (base s)) limit after).

Definition getSummary (accountId : string) (s : intake) : nat * nat :=
  match find_account accountId (base s) with
  | Some _ => (length (List.filter (reservation_of accountId) (reservations (base s))),
               length (List.filter (current_position_of accountId) (positions (base s))))
  | None => (0%nat, 0%nat)
  end.

(** ** Public offerings *)

Record PublicOfferingRecord := mkPublicOffering {
  po_id : string; po_status : OfferingStatus; po_targetRaiseEur : string; po_createdAt : Z; po_ipoEndAt : option Z;
  po_property : InvestorPropertySummary }.

Definition offering_key (o : Offering.t) : Z * string := (Offering.createdAt o, Offering.id o).
Definition public_record_key (o : PublicOfferingRecord) : Z * string := (po_createdAt o, po_id o).

Definition public_record (s : intake) (o : Offering.t) : result PublicOfferingRecord :=
  let! v := required (find_row (by_id Piv.id (Offering.pivId o)) (pivs (base s))) in
  let! c := required (find_case (Piv.caseId v) (base s)) in
  let! p := required (find_row (by_id Property.id (Piv.propertyId v)) (properties s)) in
  if negb (isPublicOfferingStatus (Offering.status o)) then Err (Thrown "Database returned an offering outside the public contract")
  else Ok (mkPublicOffering (Offering.id o) (Offering.status o) (numeric2_text (Offering.targetRaiseEur o)) (Offering.createdAt o)
             (IntakeCase.ipoEndAt c) (toPropertySummary p)).

Definition is_public (o : Offering.t) : bool := bool_decide (Offering.status o ∈ publicOfferingStatuses).

Definition listPublic (s : intake) (limit : nat) (after : option (Z * string)) : result (list PublicOfferingRecord) :=
  rmap (public_record s) (findMany offering_key is_public (offerings (base s)) limit after).

(** ** Responses *)

Definition text_or_null (t : option string) : json := match t with Some t => JStr t | None => JNull end.
Definition date_or_null (t : option Z) : json := match t with Some t => JDate t | None => JNull end.

Definition property_json (p : InvestorPropertySummary) : json :=
  JObj [("property_type", JStr "residential"); ("country_code", JStr (ps_countryCode p)); ("city", text_or_null (ps_city p))].

Definition OfferingStatus_text (st : OfferingStatus) : string :=
  match st with pre_offering => "pre_offering" | final_offering => "final_offering" | closed => "closed" end.
Definition ReservationStage_text (st : ReservationStage.t) : string :=
  match st with
  | ReservationStage.initiated => "initiated" | ReservationStage.awaiting_reconfirmation => "awaiting_reconfirmation"
  | ReservationStage.reconfirmed => "reconfirmed" | ReservationStage.finalized => "finalized"
  | ReservationStage.cancelled => "cancelled" | ReservationStage.lapsed => "lapsed"
  end.
Definition CapitalState_text (st : CapitalState.t) : string :=
  match st with
  | CapitalState.initiated => "initiated" | CapitalState.eurc_purchase_pending => "eurc_purchase_pending"
  | CapitalState.purchase_failed => "purchase_failed" | CapitalState.eurc_reserved => "eurc_reserved"
  | CapitalState.reconfirmation_pending => "reconfirmation_pending" | CapitalState.eurc_finalized => "eurc_finalized"
  | CapitalState.provider_disputed => "provider_disputed"
  end.
Definition PositionStatus_text (st : PositionStatus) : string :=
  match st with pending_internal_settlement => "pending_internal_settlement" | active => "active" | redeemed => "redeemed" end.

Definition latest_json (e : option LatestMoneyEvent) : json :=
  match e with
  | None => JNull
  | Some e => JObj [("state", JStr (CapitalState_text (lm_capitalState e))); ("amount_eur", JStr (lm_amountEur e));
                    ("amount_eurc", text_or_null (lm_amountEurc e)); ("recorded_at", JDate (lm_recordedAt e))]
  end.

Definition reservation_json (r : InvestorReservationRecord) : json :=
  JObj [("reservation_id", JStr (ir_reservationId r)); ("offering_id", JStr (ir_offeringId r));
        ("offering_status", JStr (OfferingStatus_text (ir_offeringStatus r))); ("amount_eur", JStr (ir_amountEur r));
        ("reservation_stage", JStr (ReservationStage_text (ir_reservationStage r)));
        ("disclosure_pack_version_at_reservation", text_or_null (ir_packVersion r));
        ("reconfirmed_at", date_or_null (ir_reconfirmedAt r)); ("reservation_finalized_at", date_or_null (ir_finalizedAt r));
        ("created_at", JDate (ir_createdAt r)); ("latest_capital_state", latest_json (ir_latest r)); ("property", property_json (ir_property r))].

Definition position_json (p : InvestorPositionRecord) : json :=
  JObj [("position_id", JStr (pr_positionId p)); ("reservation_id", text_or_null (pr_reservationId p));
        ("offering_id", text_or_null (pr_offeringId p)); ("piv_id", JStr (pr_pivId p)); ("unit_count", JStr (pr_unitCount p));
        ("cost_basis_eur", JStr (pr_costBasisEur p)); ("position_status", JStr (PositionStatus_text (pr_positionStatus p)));
        ("activated_at", date_or_null (pr_activatedAt p)); ("property", property_json (pr_property p))].

Definition offering_json (o : PublicOfferingRecord) : json :=
  JObj [("id", JStr (po_id o)); ("status", JStr (OfferingStatus_text (po_status o))); ("target_raise_eur", JStr (po_targetRaiseEur o));
        ("ipo_end_at", date_or_null (po_ipoEndAt o)); ("property", property_json (po_property o))].

(** ** The services *)

Section Services.
Context (iso_datetime : string → bool) (fallback : string → option Z).

(** A cursor whose Date is invalid makes the query throw. *)
Definition query_date (d : option Z) : result Z :=
  match d with Some t => Ok t | None => Err (Thrown "PrismaClientValidationError") end.

Definition dated (c : result (option Z * string)) : result (Z * string) :=
  let! c := c in let! t := query_date c.1 in Ok (t, c.2).

Definition position_dated (c : result (option (option Z) * string)) : result (option Z * string) :=
  let! c := c in
  match c.1 with
  | None => Ok (None, c.2)
  | Some d => let! t := query_date d in Ok (Some t, c.2)
  end.

(** [input.query.after === undefined ? undefined : decode(input.query.after)] *)
Definition decoded {K} (decode : string → result K) (after : option string) : result (option K) :=
  match after with None => Ok None | Some text => let! c := decode text in Ok (Some c) end.

Definition text_page {C K} (encode : K → string) (p : Page C K) : Page C string :=
  mkPage (page_data p) (encode <$> next_cursor p).

Definition ListInvestorReservations_execute (accountId : string) (limit : nat) (after : option string) (s : intake) :
    result (Page json string) :=
  let! after := decoded (λ text, dated (decodeReservationCursor iso_datetime fallback text)) after in
  let! rows := listReservations accountId s (limit + 1) after in
  Ok (text_page encodeReservationCursor (paginate reservation_record_key reservation_json limit rows)).

Definition ListInvestorCurrentPositions_execute (accountId : string) (limit : nat) (after : option string) (s : intake) :
    result (Page json string) :=
  let! after := decoded (λ text, position_dated (decodePositionCursor iso_datetime fallback text)) after in
  let! rows := listCurrentPositions accountId s (limit + 1) after in
  Ok (text_page encodePositionCursor (paginate position_record_key position_json limit rows)).

Definition ListPublicOfferings_execute (limit : nat) (after : option string) (s : intake) : result (Page json string) :=
  let! after := decoded (λ text, dated (decodeCaseCursor iso_datetime fallback text)) after in
  let! rows := listPublic s (limit + 1) after in
  Ok (text_page encodeCaseCursor (paginate public_record_key offering_json limit rows)).

(** ** Following the cursors *)

Section Pages.
Context {A B C K : Type} `{!KeyOrder K} (ka : A → K) (kb : B → K) (where_ : A → bool) (rows : list A) (record : A → result B)
  (respond : B → C) (enc : K → string) (dec : string → result K) (limit : nat).
Context (Hkey : ∀ a b, record a = Ok b → kb b = ka a).

(** The lines the three services share. *)
Definition list_page (after : option string) : result (Page C string) :=
  let! after := decoded dec after in
  let! l := rmap record (findMany ka where_ rows (limit + 1) after) in
  Ok (text_page enc (paginate kb respond limit l)).

Lemma rmap_Forall2 l l' : rmap record l = Ok l' ↔ Forall2 (λ a b, record a = Ok b) l l'.
Proof.
  revert l'. induction l as [|a l IH]; intros l'; simpl.
  - split; [intros [= <-]; constructor | by inversion 1].
  - split.
    + intros H. apply rbind_ok in H as (b & Hb & H). apply rbind_ok in H as (bs & Hbs & H). injection H as <-.
      constructor; [done | by apply IH].
    + inversion 1 as [|? b ? bs Hb Hbs]; subst. rewrite Hb. simpl. by rewrite (proj2 (IH bs) Hbs).
Qed.

Lemma Forall2_filter_keys (p : K → bool) l l' : Forall2 (λ a b, record a = Ok b) l l' →
  Forall2 (λ a b, record a = Ok b) (List.filter (λ a, p (ka a)) l) (List.filter (λ b, p (kb b)) l').
Proof. induction 1 as [|a b l l' Hab _ IH]; simpl; [done|]. rewrite (Hkey _ _ Hab). destruct (p (ka a)); [by constructor | done]. Qed.

Lemma ordered_records l l' : Forall2 (λ a b, record a = Ok b) l l' → ordered ka l → ordered kb l'.
Proof.
  induction 1 as [|a b l l' Hab Hl IH]; intros Ho; [constructor|]. apply StronglySorted_inv in Ho as [Ho Ha].
  constructor; [by apply IH|]. rewrite List.Forall_forall in *. intros b' Hb'. destruct (Forall2_In_r _ _ _ _ Hl Hb') as (a' & Ha' & E).
  unfold by_key. rewrite (Hkey _ _ Hab), (Hkey _ _ E). by apply Ha.
Qed.

Lemma in_take n (l : list B) b : In b (take n l) → In b l.
Proof. intros H. rewrite <- (take_drop n l). apply in_app_iff. by left. Qed.

Lemma paginate_cursor (l : list B) k : next_cursor (paginate kb respond limit l) = Some k → ∃ b, In b l ∧ kb b = k.
Proof.
  unfold paginate. simpl. destruct (_ <? _)%nat; [|done]. destruct (last (take limit l)) as [b|] eqn:E; [|done].
  intros [= <-]. exists b. split; [|done]. apply last_Some in E as [l' E]. apply (in_take limit). rewrite E, in_app_iff. right. by left.
Qed.

Lemma list_page_complete all fuel :
  List.NoDup (map ka rows) → rmap record (found ka where_ rows) = Ok all → (∀ b, In b all → dec (enc (kb b)) = Ok (kb b)) →
  (1 <= limit)%nat → (length all < fuel)%nat → walk_text fuel list_page None = Some (map respond all).
Proof.
  intros Hnd Hall Hdec Hl Hf. apply rmap_Forall2 in Hall.
  set (fetch := λ (n : nat) (after : option K), take n (List.filter (λ b, after_cursor after (kb b)) all)).
  assert (KeysetQuery fetch kb all) as Q.
  { split; [|done]. eapply ordered_records; [exact Hall|]. by apply ordered_order_by, NoDup_map_filter. }
  rewrite <- (walk_all fetch kb all respond limit Hl fuel Hf).
  refine (walk_text_walk enc (service_page fetch kb respond limit) list_page fuel _ None _); [|done].
  intros after Hafter. unfold list_page, service_page.
  assert (decoded dec (enc <$> after) = Ok after) as ->.
  { destruct after as [k|]; [|done]. simpl. destruct (Hafter k eq_refl) as (a & Ha). apply paginate_cursor in Ha as (b & Hb & <-).
    rewrite Hdec; [done|]. apply (in_take (limit + 1)) in Hb. by apply filter_In in Hb as [Hb _]. }
  simpl. rewrite findMany_after by done.
  assert (rmap record (take (limit + 1) (List.filter (λ r, after_cursor after (ka r)) (found ka where_ rows))) = Ok (fetch (limit + 1)%nat after)) as ->;
    [|done].
  apply rmap_Forall2, Forall2_take. by apply Forall2_filter_keys.
Qed.

End Pages.

(** *** The three lists *)

(** The foreign keys of the rows the lists join. *)
Definition has_piv (s : intake) (pivId : string) : bool := exists_row (by_id Piv.id pivId) (pivs (base s)).

Record foreign_keys (s : intake) : Prop := {
  reservation_offering : ∀ r, In r (reservations (base s)) → is_Some (find_offering (Reservation.offeringId r) (base s));
  offering_piv : ∀ o, In o (offerings (base s)) → is_Some (find_row (by_id Piv.id (Offering.pivId o)) (pivs (base s)));
  position_piv : ∀ p, In p (positions (base s)) → is_Some (find_row (by_id Piv.id (Position.pivId p)) (pivs (base s)));
  piv_case : ∀ v, In v (pivs (base s)) → is_Some (find_case (Piv.caseId v) (base s));
  piv_has_property : ∀ v, In v (pivs (base s)) → is_Some (find_row (by_id Property.id (Piv.propertyId v)) (properties s)) }.

Definition text_id (id : string) : Prop := is_ascii id = true ∧ id ≠ EmptyString.

(** Primary keys, and identifiers and timestamps as the program writes them. *)
Record listable (s : intake) : Prop := {
  reservation_ids : List.NoDup (map Reservation.id (reservations (base s)));
  position_ids : List.NoDup (map Position.id (positions (base s)));
  offering_ids : List.NoDup (map Offering.id (offerings (base s)));
  reservation_texts : ∀ r, In r (reservations (base s)) → JsDate.four_digit_year (Reservation.createdAt r) ∧ text_id (Reservation.id r);
  position_texts : ∀ p, In p (positions (base s)) →
    (∀ t, Position.activatedAt p = Some t → JsDate.four_digit_year t) ∧ text_id (Position.id p);
  offering_texts : ∀ o, In o (offerings (base s)) → JsDate.four_digit_year (Offering.createdAt o) ∧ text_id (Offering.id o) }.

Lemma piv_property_linked s pivId : foreign_keys s → is_Some (find_row (by_id Piv.id pivId) (pivs (base s))) → is_Some (piv_property pivId s).
Proof.
  intros F [v Hv]. unfold piv_property. rewrite Hv. apply find_row_Some in Hv as [Hin _]. by apply (piv_has_property s F).
Qed.

Lemma reservation_record_linked s r : foreign_keys s → In r (reservations (base s)) → ∃ x, reservation_record s r = Ok x.
Proof.
  intros F Hr. unfold reservation_record. destruct (reservation_offering s F r Hr) as [o Ho]. rewrite Ho. simpl.
  apply find_row_Some in Ho as [Ho _]. destruct (piv_property_linked s _ F (offering_piv s F o Ho)) as [p ->]. by eexists.
Qed.

Lemma position_record_linked s p : foreign_keys s → In p (positions (base s)) → ∃ x, position_record s p = Ok x.
Proof.
  intros F Hp. unfold position_record. destruct (piv_property_linked s _ F (position_piv s F p Hp)) as [x ->]. by eexists.
Qed.

Lemma public_record_linked s o : foreign_keys s → In o (offerings (base s)) → is_public o = true → ∃ x, public_record s o = Ok x.
Proof.
  intros F Ho Hp. unfold public_record. destruct (offering_piv s F o Ho) as [v Hv]. rewrite Hv. simpl.
  apply find_row_Some in Hv as [Hv _]. destruct (piv_case s F v Hv) as [c ->]. destruct (piv_has_property s F v Hv) as [p ->]. simpl.
  assert (isPublicOfferingStatus (Offering.status o) = true) as ->; [|by eexists].
  unfold is_public in Hp. unfold isPublicOfferingStatus. by destruct (Offering.status o).
Qed.

Lemma reservation_record_keeps s r x : reservation_record s r = Ok x → reservation_record_key x = reservation_key r.
Proof. unfold reservation_record. intros H. apply rbind_ok in H as (o & _ & H). apply rbind_ok in H as (p & _ & H). by injection H as <-. Qed.

Lemma position_record_keeps s p x : position_record s p = Ok x → position_record_key x = position_key p.
Proof. unfold position_record. intros H. apply rbind_ok in H as (q & _ & H). by injection H as <-. Qed.

Lemma public_record_keeps s o x : public_record s o = Ok x → public_record_key x = offering_key o.
Proof.
  unfold public_record. intros H. apply rbind_ok in H as (v & _ & H). apply rbind_ok in H as (c & _ & H). apply rbind_ok in H as (p & _ & H).
  destruct (negb _); [done|]. by injection H as <-.
Qed.

Lemma records_exist {A B} (record : A → result B) l : (∀ a, In a l → ∃ b, record a = Ok b) → ∃ l', rmap record l = Ok l'.
Proof.
  induction l as [|a l IH]; intros H; [by eexists|]. destruct (H a (or_introl eq_refl)) as [b Hb].
  destruct IH as [l' Hl']; [intros; apply H; by right|]. simpl. rewrite Hb, Hl'. by eexists.
Qed.

(** A complete list: the records of the matching rows in order, whichever way they are cut into pages. *)
Definition complete {A B C K} `{!KeyOrder K} (ka : A → K) (where_ : A → bool) (rows : list A) (record : A → result B) (respond : B → C)
    (pages : option string → result (Page C string)) (fuel : nat) : Prop :=
  ∃ l, rmap record (found ka where_ rows) = Ok l ∧ walk_text fuel pages None = Some (map respond l) ∧
    length l = length (List.filter where_ rows).

Lemma complete_list {A B C K} `{!KeyOrder K} (ka : A → K) (kb : B → K) where_ rows (record : A → result B) (respond : B → C) enc dec limit fuel :
  (∀ a b, record a = Ok b → kb b = ka a) → List.NoDup (map ka rows) → (∀ a, In a rows → where_ a = true → ∃ b, record a = Ok b) →
  (∀ a, In a rows → dec (enc (ka a)) = Ok (ka a)) → (1 <= limit)%nat → (length rows < fuel)%nat →
  complete ka where_ rows record respond (list_page ka kb where_ rows record respond enc dec limit) fuel.
Proof.
  intros Hkey Hnd Hrec Hdec Hl Hf.
  assert (∀ a, In a (found ka where_ rows) → In a rows ∧ where_ a = true) as Hfound.
  { intros a Ha. unfold found in Ha. rewrite in_order_by in Ha. by apply filter_In in Ha. }
  destruct (records_exist record (found ka where_ rows)) as [l Hall]; [intros a [? ?]%Hfound; by apply Hrec|].
  exists l. split; [done|]. pose proof Hall as F. apply rmap_Forall2 in F.
  assert (length l = length (List.filter where_ rows)) as Elen.
  { rewrite <- (Forall2_length _ _ _ F). unfold found. apply order_by_length. }
  split; [|done]. apply list_page_complete; [done..| |done|].
  - intros b Hb. destruct (Forall2_In_r _ _ _ _ F Hb) as (a & Ha & E). rewrite (Hkey _ _ E). apply Hdec. by apply Hfound.
  - rewrite Elen. pose proof (filter_length_le where_ rows). lia.
Qed.

(** C34: following [next_cursor] from the first page, an investor sees every reservation of theirs once, newest first, and
    every position that is pending or active once, the latest activated first and those not yet activated last; anyone sees
    every open offering once, newest first.  The pages are cut by the text of the cursors, and the two counts of the
    investor's summary are the numbers of rows the two lists show. *)
Theorem investor_lists_are_complete s accountId limit fuel :
  (∀ t, JsDate.four_digit_year t → iso_datetime (DateTime.toISOString t) = true) → foreign_keys s → listable s → (1 <= limit)%nat →
  (length (reservations (base s)) < fuel)%nat → (length (positions (base s)) < fuel)%nat → (length (offerings (base s)) < fuel)%nat →
  complete reservation_key (reservation_of accountId) (reservations (base s)) (reservation_record s) reservation_json
    (λ after, ListInvestorReservations_execute accountId limit after s) fuel ∧
  complete position_key (current_position_of accountId) (positions (base s)) (position_record s) position_json
    (λ after, ListInvestorCurrentPositions_execute accountId limit after s) fuel ∧
  complete offering_key is_public (offerings (base s)) (public_record s) offering_json
    (λ after, ListPublicOfferings_execute limit after s) fuel ∧
  (is_Some (find_account accountId (base s)) → getSummary accountId s =
     (length (List.filter (reservation_of accountId) (reservations (base s))),
      length (List.filter (current_position_of accountId) (positions (base s))))).
Proof.
  intros Hiso F L Hl H1 H2 H3. split_and!.
  - apply (complete_list _ reservation_record_key); [apply reservation_record_keeps | | | | done..].
    + apply (NoDup_map_inv snd). rewrite map_map. exact (reservation_ids s L).
    + intros r Hr _. by apply reservation_record_linked.
    + intros r Hr. destruct (reservation_texts s L r Hr) as (Ht & Ha & Hn). unfold dated, reservation_key.
      by rewrite decodes_reservation.
  - apply (complete_list _ position_record_key); [apply position_record_keeps | | | | done..].
    + apply (NoDup_map_inv snd). rewrite map_map. exact (position_ids s L).
    + intros p Hp _. by apply position_record_linked.
    + intros p Hp. destruct (position_texts s L p Hp) as (Ht & Ha & Hn). unfold position_dated, position_key.
      rewrite decodes_position by done. by destruct (Position.activatedAt p).
  - apply (complete_list _ public_record_key); [apply public_record_keeps | | | | done..].
    + apply (NoDup_map_inv snd). rewrite map_map. exact (offering_ids s L).
    + intros o Ho Hp. by apply public_record_linked.
    + intros o Ho. destruct (offering_texts s L o Ho) as (Ht & Ha & Hn). unfold dated, offering_key. by rewrite decodes_case.
  - intros [x Hx]. unfold getSummary. by rewrite Hx.
Qed.

End Services.

End Activity.

Module ActivityDemo.
Import Cursor Activity OfferingDemo.

Definition demo_property : Property.t :=
  Property.mk "property_1" "DE" (Some "Berlin") None None None None 10000000 false (mkDetails None None None None None None None None None).

Definition demo_state : intake := mkIntake d9 [demo_property] [] [] [] [] [] [] [] [] [] [] [] [].

Lemma demo_foreign_keys : foreign_keys demo_state.
Proof.
  constructor; intros x Hx; vm_compute in Hx; repeat (destruct Hx as [<-|Hx]; [vm_compute; by eexists|]); destruct Hx.
Qed.

Definition year_check (t : Z) : bool := (0 <=? DateTime.getUTCFullYear t) && (DateTime.getUTCFullYear t <=? 9999).
Definition id_check (id : string) : bool := is_ascii id && negb (bool_decide (id = EmptyString)).

Lemma year_check_ok t : year_check t = true → JsDate.four_digit_year t.
Proof. unfold year_check, JsDate.four_digit_year. intros H. boolify. lia. Qed.

Lemma id_check_ok id : id_check id = true → text_id id.
Proof. unfold id_check, text_id. intros [H1 H2]%andb_true_iff. boolify. done. Qed.

Lemma ids_check (l : list string) : bool_decide (NoDup l) = true → List.NoDup l.
Proof. intros H. apply bool_decide_eq_true in H. by apply NoDup_ListNoDup. Qed.

Lemma demo_listable : listable demo_state.
Proof.
  constructor; [apply ids_check; vm_compute; reflexivity.. | | |].
  - assert (forallb (λ r, year_check (Reservation.createdAt r) && id_check (Reservation.id r)) (reservations (base demo_state)) = true) as H
      by (vm_compute; reflexivity).
    rewrite forallb_forall in H. intros r [H1 H2]%H%andb_true_iff. split; [by apply year_check_ok | by apply id_check_ok].
  - assert (forallb (λ p, match Position.activatedAt p with Some t => year_check t | None => true end && id_check (Position.id p))
      (positions (base demo_state)) = true) as H by (vm_compute; reflexivity).
    rewrite forallb_forall in H. intros p [H1 H2]%H%andb_true_iff. split; [|by apply id_check_ok]. intros t E. rewrite E in H1. by apply year_check_ok.
  - assert (forallb (λ o, year_check (Offering.createdAt o) && id_check (Offering.id o)) (offerings (base demo_state)) = true) as H
      by (vm_compute; reflexivity).
    rewrite forallb_forall in H. intros o [H1 H2]%H%andb_true_iff. split; [by apply year_check_ok | by apply id_check_ok].
Qed.

Lemma investor_lists_are_complete_witness :
  let page := λ after, ListInvestorReservations_execute documented_iso_datetime (λ _, None) "alice" 1 after demo_state in
  ∃ l, walk_text 4 page None = Some (map reservation_json l) ∧ map ir_reservationId l = ["r_alice"].
Proof.
  assert (∀ t, JsDate.four_digit_year t → documented_iso_datetime (DateTime.toISOString t) = true) as Hiso.
  { intros t Ht. unfold documented_iso_datetime. rewrite JsDate.iso_utc_toISOString by exact Ht. reflexivity. }
  destruct (investor_lists_are_complete documented_iso_datetime (λ _, None) demo_state "alice" 1 4 Hiso demo_foreign_keys demo_listable)
    as ((l & Hl & Hw & _) & _); [vm_compute; lia..|].
  exists l. split; [exact Hw|]. vm_compute in Hl. injection Hl as <-. reflexivity.
Defined.

End ActivityDemo.

(** ** Disclosure documents (getAccessibleDocument and download-disclosure-document.service.ts) *)

Module Documents.
Import JsString OfferingRepo OfferingInv OfferingSteps OfferingPacks.

#[local] Arguments String.append !_ _ /.

Record AccessibleDocument := mkAccessible { ad_reference : string; ad_type : DisclosureDocumentType; ad_version : Z }.

(** The account reserved in this offering while [version] was the current pack. *)
Definition reserved_on (accountId offeringId version : string) (s : db) : bool :=
  exists_row (λ r, bool_decide (Reservation.offeringId r = offeringId) && bool_decide (Reservation.accountId r = accountId) &&
                   bool_decide (Reservation.disclosurePackVersionAtReservation r = Some version)) (reservations s).

Definition pack_accessible (accountId offeringId : string) (s : db) (p : DisclosurePack.t) : bool :=
  bool_decide (DisclosurePack.offeringId p = offeringId) &&
  ((DisclosurePack.isCurrent p && bool_decide (DisclosurePack.supersededAt p = None)) ||
   reserved_on accountId (DisclosurePack.offeringId p) (BigInt_toString (DisclosurePack.version p)) s).

Definition accessible_documents (accountId offeringId documentId : string) (s : db) : list AccessibleDocument :=
  flat_map (λ p, map (λ d, mkAccessible (DisclosurePack.documentRef d) (DisclosurePack.documentType d) (DisclosurePack.version p))
                   (List.filter (λ d, bool_decide (DisclosurePack.documentId d = documentId)) (DisclosurePack.documents p)))
    (List.filter (pack_accessible accountId offeringId s) (disclosurePacks s)).

Definition getAccessibleDocument (accountId offeringId documentId : string) (s : db) : option AccessibleDocument :=
  head (accessible_documents accountId offeringId documentId s).

Definition document_not_found : error := AppError "offering.document_not_found" 404 [].
Definition document_storage_inconsistent : error := AppError "offering.document_storage_inconsistent" 503 [].

(** [value.replace(/[^A-Za-z0-9._-]+/g, "-")]; [inside] is a run that has its dash already.  The document types are ASCII, on
    which NFKD changes nothing. *)
Definition is_safe (c : ascii) : bool :=
  let k := char_code c in
  ((65 <=? k) && (k <=? 90)) || ((97 <=? k) && (k <=? 122)) || is_digit c || (k =? 46) || (k =? 95) || (k =? 45).

Fixpoint dash_runs (inside : bool) (s : string) : string :=
  match s with
  | EmptyString => EmptyString
  | String c s => if is_safe c then String c (dash_runs false s)
                  else if inside then dash_runs true s else String "-" (dash_runs true s)
  end.

Fixpoint strip_leading (s : string) : string :=
  match s with String c r => if bool_decide (c = "-"%char) then strip_leading r else s | EmptyString => EmptyString end.

Fixpoint strip_trailing (s : string) : string :=
  match s with
  | EmptyString => EmptyString
  | String c s => match strip_trailing s with
                  | EmptyString => if bool_decide (c = "-"%char) then EmptyString else String c EmptyString
                  | s' => String c s'
                  end
  end.

Definition toSafeFileName (value : string) : string :=
  match slice0 100 (strip_trailing (strip_leading (dash_runs false value))) with
  | EmptyString => "disclosure-document"
  | s => s
  end.

(** What the store answers for a reference: the file name it kept, if any, and the content. *)
Definition Store := string → result (option (option string * string)).

Definition DownloadDisclosureDocument_execute (store : Store) (accountId offeringId documentId : string) (s : db) :
    result (string * string) :=
  match getAccessibleDocument accountId offeringId documentId s with
  | None => Err document_not_found
  | Some d =>
      let! stored := store (ad_reference d) in
      match stored with
      | None => Err document_storage_inconsistent
      | Some (fileName, content) =>
          Ok (default (String.append (toSafeFileName (documentType_text (ad_type d)))
                         (String.append "-v" (BigInt_toString (ad_version d)))) fileName, content)
      end
  end.

(** *** Who can read what *)

Lemma in_accessible accountId offeringId documentId s d :
  In d (accessible_documents accountId offeringId documentId s) ↔
  ∃ p doc, In p (disclosurePacks s) ∧ pack_accessible accountId offeringId s p = true ∧ In doc (DisclosurePack.documents p) ∧
    DisclosurePack.documentId doc = documentId ∧
    d = mkAccessible (DisclosurePack.documentRef doc) (DisclosurePack.documentType doc) (DisclosurePack.version p).
Proof.
  unfold accessible_documents. rewrite in_flat_map. split.
  - intros (p & [Hp Ha]%filter_In & (doc & <- & [Hd Hid]%filter_In)%in_map_iff). boolify. by exists p, doc.
  - intros (p & doc & Hp & Ha & Hd & Hid & ->). exists p. split; [by apply filter_In|]. apply in_map_iff. exists doc. split; [done|].
    apply filter_In. split; [done|]. by apply bool_decide_eq_true.
Qed.

Lemma accessible_found accountId offeringId documentId s :
  is_Some (getAccessibleDocument accountId offeringId documentId s) ↔ ∃ d, In d (accessible_documents accountId offeringId documentId s).
Proof.
  unfold getAccessibleDocument. destruct (accessible_documents _ _ _ s) as [|d l]; simpl.
  - split; [by intros [? ?] | by intros [? []]].
  - split; [intros _; exists d; by left | by eexists].
Qed.

Lemma reserved_on_row accountId offeringId version s :
  reserved_on accountId offeringId version s = true ↔
  ∃ r, In r (reservations s) ∧ Reservation.offeringId r = offeringId ∧ Reservation.accountId r = accountId ∧
    Reservation.disclosurePackVersionAtReservation r = Some version.
Proof.
  unfold reserved_on. rewrite exists_row_true. split.
  - intros (r & Hr & H). boolify. naive_solver.
  - intros (r & Hr & H1 & H2 & H3). exists r. split; [done|]. by rewrite !bool_decide_eq_true_2.
Qed.

(** C37: a disclosure document an investor is handed belongs to the offering asked for, and to its current pack or to the
    version that was current when this investor reserved; and a document of the version an investor reserved under stays
    readable to that investor whatever happens to the offering afterwards, later packs, cancellation and closing
    included. *)
Theorem reserved_documents_stay_readable ulid s s' p doc r documentId :
  reachable ulid s → rtc (step ulid) s s' →
  In p (disclosurePacks s) → In doc (DisclosurePack.documents p) → DisclosurePack.documentId doc = documentId →
  In r (reservations s) → Reservation.offeringId r = DisclosurePack.offeringId p →
  Reservation.disclosurePackVersionAtReservation r = Some (BigInt_toString (DisclosurePack.version p)) →
  is_Some (getAccessibleDocument (Reservation.accountId r) (DisclosurePack.offeringId p) documentId s') ∧
  (∀ accountId offeringId d, getAccessibleDocument accountId offeringId documentId s' = Some d →
     ∃ q doc, In q (disclosurePacks s') ∧ In doc (DisclosurePack.documents q) ∧ DisclosurePack.documentId doc = documentId ∧
       DisclosurePack.documentRef doc = ad_reference d ∧ DisclosurePack.offeringId q = offeringId ∧
       (current_pack offeringId s' = Some q ∨
        ∃ r, In r (reservations s') ∧ Reservation.accountId r = accountId ∧ Reservation.offeringId r = offeringId ∧
          Reservation.disclosurePackVersionAtReservation r = Some (BigInt_toString (DisclosurePack.version q)))).
Proof.
  intros Hreach Hsteps Hp Hdoc Hid Hr Hoff Hver. pose proof (reachable_wf ulid s Hreach) as W. split.
  - apply accessible_found. destruct (steps_pack_kept ulid s s' p W Hsteps Hp) as (p' & Hp' & _ & Eo & Ev & Ed).
    destruct (steps_row ulid s s' r W Hsteps Hr) as (r' & Hr' & _ & Eo' & Ea & _ & _ & Ev' & _).
    eexists. apply in_accessible. exists p', doc. rewrite Ed. split_and!; [done| |done..]. unfold pack_accessible.
    rewrite Eo, Ev, bool_decide_eq_true_2 by done. simpl. apply orb_true_iff. right. apply reserved_on_row. exists r'.
    split_and!; congruence.
  - intros accountId offeringId d Hd.
    assert (In d (accessible_documents accountId offeringId documentId s')) as Hin.
    { unfold getAccessibleDocument in Hd. destruct (accessible_documents _ _ _ s'); simplify_eq/=. by left. }
    apply in_accessible in Hin as (q & doc' & Hq & Ha & Hd' & Hid' & ->). exists q, doc'.
    unfold pack_accessible in Ha. apply andb_true_iff in Ha as [Ho Ha]. boolify. split_and!; try done.
    apply orb_true_iff in Ha as [Ha|Ha].
    + left. assert (reachable ulid s') as Hreach'.
      { destruct Hreach as (a & k & c & w & H0). exists a, k, c, w. by etrans. }
      apply current_is_only; [by apply (reachable_packs ulid) | done |]. unfold is_current_pack. rewrite bool_decide_eq_true_2 by done. done.
    + right. apply reserved_on_row in Ha as (r' & ? & ? & ? & ?). exists r'. split_and!; congruence.
Qed.

(** Two packs: alice reserved under the first. *)
Definition superseding : db := OfferingDemo.run (publishDisclosurePack OfferingDemo.demo_ulid (OfferingDemo.pack_input 6500)) OfferingDemo.d6.

Lemma superseding_step : step OfferingDemo.demo_ulid OfferingDemo.d6 superseding.
Proof. OfferingDemo.demo_step st_pack. Qed.

Definition first_pack : DisclosurePack.t := default (DisclosurePack.mk "" "" 0 0 None false []) (head (disclosurePacks OfferingDemo.d6)).
Definition first_document : DisclosurePack.document := default (DisclosurePack.mkDocument "" ecsp_kiis "" false) (head (DisclosurePack.documents first_pack)).
Definition first_reservation : Reservation.t :=
  default (Reservation.mk "" "" "" None 0 ReservationStage.initiated None None None 0) (head (reservations OfferingDemo.d6)).

Lemma reserved_documents_stay_readable_witness :
  is_Some (current_pack "offering_1" superseding) ∧ current_pack "offering_1" superseding ≠ Some first_pack ∧
  is_Some (getAccessibleDocument "alice" "offering_1" (DisclosurePack.documentId first_document) superseding).
Proof.
  split; [vm_compute; by eexists|]. split; [vm_compute; discriminate|].
  refine (proj1 (reserved_documents_stay_readable OfferingDemo.demo_ulid OfferingDemo.d6 superseding first_pack first_document first_reservation
    (DisclosurePack.documentId first_document) OfferingDemo.reachable_d6 (rtc_once _ _ superseding_step) _ _ eq_refl _ _ _)).
  - vm_compute. left. reflexivity.
  - vm_compute. left. reflexivity.
  - vm_compute. left. reflexivity.
  - vm_compute. reflexivity.
  - vm_compute. reflexivity.
Defined.

End Documents.

(** ** The profile (src/src/modules/profile) *)

Module Profile.
Import Currency OfferingPolicy OfferingServices Activity.

Definition investor_profile_not_found : error := AppError "investor_profile.not_found" 404 [].

Record Preferences := mkPreferences {
  dealAlertsEmail : bool; statementsEmail : bool; marketingEmail : bool; locale : string; timezone : string }.
Definition defaultAccountPreferences : Preferences := mkPreferences true true false "en-US" "UTC".

Record PreferencesPatch := mkPatch {
  pt_dealAlertsEmail : option bool; pt_statementsEmail : option bool; pt_marketingEmail : option bool; pt_locale : option string;
  pt_timezone : option string }.

Definition patched (patch : PreferencesPatch) (p : Preferences) : Preferences :=
  mkPreferences (default (dealAlertsEmail p) (pt_dealAlertsEmail patch)) (default (statementsEmail p) (pt_statementsEmail patch))
    (default (marketingEmail p) (pt_marketingEmail patch)) (default (locale p) (pt_locale patch)) (default (timezone p) (pt_timezone patch)).

(** account.account_preferences, at most one row per account *)
Definition preferences_table := list (string * Preferences).

Definition find_preferences (accountId : string) (t : preferences_table) : option Preferences :=
  snd <$> find_row (λ r, bool_decide (r.1 = accountId)) t.

(** [accountPreferences.upsert] *)
Definition update_preferences (accountId : string) (patch : PreferencesPatch) (t : preferences_table) : Preferences * preferences_table :=
  match find_preferences accountId t with
  | Some p => (patched patch p, update_where (λ r, bool_decide (r.1 = accountId)) (λ r, (r.1, patched patch r.2)) t)
  | None => let p := patched patch defaultAccountPreferences in (p, t ++ [(accountId, p)])
  end.

Record KycSnapshot := mkSnapshot {
  ks_diditReference : option string; ks_providerStatus : option string; ks_eligibilityState : string;
  ks_residenceCountryCode : option string; ks_taxResidenceCountryCode : option string; ks_proofOfAddressStatus : string;
  ks_proofOfAddressCurrentUntil : option Z; ks_lastVerifiedAt : option Z; ks_renewalDueAt : option Z }.

Record ProfileRecord := mkProfile {
  pf_accountId : string; pf_accountStatus : AccountStatus; pf_contactEmail : option string; pf_createdAt : Z;
  pf_loginMethods : list (LoginMethod * Z); pf_kyc : option KycSnapshot; pf_walletStatus : option (Z * option Z);
  pf_activitySummary : nat * nat; pf_preferences : Preferences; pf_pendingClosureRequest : option (option string * Z) }.

(** The columns and readers that the tables of this development do not hold: when the account was created and each method
    linked (the methods are listed in that order), the identity module's snapshot, a pending closure request and the
    provider's display profile. *)
Section Readers.
Context (createdAt : string → Z) (linkedAt : string → LoginMethod → Z).
Context (getEligibilitySnapshot : string → option KycSnapshot) (getPending : string → option (option string * Z)).
Context (displayProfile : string → result (option (string * string * string * Z))).

Definition get (accountId : string) (prefs : preferences_table) (s : intake) : option ProfileRecord :=
  match find_account accountId (base s) with
  | None => None
  | Some a =>
      Some (mkProfile (Account.id a) (Account.status a) (Account.contactEmail a) (createdAt accountId)
              (map (λ m, (m, linkedAt accountId m)) (Account.loginMethods a)) (getEligibilitySnapshot accountId)
              (Wallet.getStatus accountId (base s)) (getSummary accountId s)
              (default defaultAccountPreferences (find_preferences accountId prefs)) (getPending accountId))
  end.

Definition proofOfAddressStatus (k : option KycSnapshot) (now : Z) : string :=
  match k with
  | None => "not_started"
  | Some k => if bool_decide (ks_proofOfAddressStatus k = "current") &&
                 match ks_proofOfAddressCurrentUntil k with Some u => u <=? now | None => false end
              then "expired" else ks_proofOfAddressStatus k
  end.

Definition investmentEligible (p : ProfileRecord) (now : Z) : bool :=
  let has m := existsb (λ x, bool_decide (x.1 = m)) (pf_loginMethods p) in
  bool_decide (pf_accountStatus p = acc_active) &&
  match pf_kyc p with
  | Some k => bool_decide (ks_eligibilityState k = "eligible") && match ks_renewalDueAt k with Some due => now <? due | None => false end
  | None => false
  end && has device_key && (has google || has apple).

Inductive WalletState := not_registered | pending | registered.
Definition wallet_state (w : option (Z * option Z)) : WalletState :=
  match w with None => not_registered | Some (_, None) => pending | Some (_, Some _) => registered end.

Record ProfileView := mkProfileView {
  pv_record : ProfileRecord; pv_displayProfile : option (string * string * string * Z);
  pv_registrationMethod : list bool; pv_eligibilityState : string; pv_proofOfAddressStatus : string; pv_investmentEligible : bool;
  pv_paymentAccountReady : bool; pv_payoutAccountVerified : bool; pv_wallet : WalletState }.

(** The response; the fields copied from the record are left in it. *)
Definition GetProfile_execute (accountId : string) (now : Z) (prefs : preferences_table) (s : intake) : result ProfileView :=
  match get accountId prefs s with
  | None => Err investor_profile_not_found
  | Some p =>
      let! shown := displayProfile accountId in
      Ok (mkProfileView p shown (imap (λ i _, bool_decide (i = 0%nat)) (pf_loginMethods p))
            (match pf_kyc p with Some k => ks_eligibilityState k | None => "not_started" end) (proofOfAddressStatus (pf_kyc p) now)
            (investmentEligible p now) (bool_decide (is_Some (pf_walletStatus p)))
            (match pf_walletStatus p with Some (_, Some _) => true | _ => false end) (wallet_state (pf_walletStatus p)))
  end.

Lemma existsb_methods (ms : list LoginMethod) (f : LoginMethod → Z) m :
  existsb (λ x : LoginMethod * Z, bool_decide (x.1 = m)) (map (λ m, (m, f m)) ms) = existsb (λ x, bool_decide (x = m)) ms.
Proof. induction ms as [|x ms IH]; simpl; [done|]. by rewrite IH. Qed.

(** The profile and an offering's page tell an investor the same: whether they may invest, whether their payment account
    is ready and whether their payout wallet is verified, read at the same time from the same tables; so whenever an offering
    says it can be reserved, the profile says the investor is eligible and the payment account ready. *)
Theorem profile_and_offering_agree accountId offeringId now funding prefs s view p :
  (∀ a, (λ k, (ks_eligibilityState k, ks_renewalDueAt k)) <$> getEligibilitySnapshot a =
        (λ k, (KycEligibility.eligibilityState k, KycEligibility.renewalDueAt k)) <$> find_kyc a (base s)) →
  GetInvestorOffering_execute now funding offeringId accountId (base s) = (Ok view, base s) →
  GetProfile_execute accountId now prefs s = Ok p →
  pv_investmentEligible p = vw_investmentEligible view ∧ pv_paymentAccountReady p = vw_paymentAccountReady view ∧
  pv_payoutAccountVerified p = vw_payoutAccountVerified view ∧
  (vw_available view = true → pv_investmentEligible p = true ∧ pv_paymentAccountReady p = true).
Proof.
  intros Hkyc Hv Hp. unfold GetProfile_execute, get in Hp. destruct (find_account accountId (base s)) as [a|] eqn:Ea; [|done].
  apply rbind_ok in Hp as (shown & _ & Hp). injection Hp as <-. simpl.
  unfold GetInvestorOffering_execute, iobind, query, lift in Hv. destruct (getInvestorDetail offeringId accountId (base s)) as [[d|]|] eqn:Ed; [|done..].
  destruct (subtractCurrencyFloorZero _ _) as [rem|]; [|done]. injection Hv as <-. unfold getInvestorDetail in Ed.
  destruct (find_offering _ _); [|done]. rewrite Ea in Ed. apply rbind_ok in Ed as (r & _ & Ed). apply rbind_ok in Ed as (f & _ & Ed). injection Ed as <-.
  assert (investmentEligible (mkProfile (Account.id a) (Account.status a) (Account.contactEmail a) (createdAt accountId)
            (map (λ m, (m, linkedAt accountId m)) (Account.loginMethods a)) (getEligibilitySnapshot accountId)
            (Wallet.getStatus accountId (base s)) (getSummary accountId s)
            (default defaultAccountPreferences (find_preferences accountId prefs)) (getPending accountId)) now =
          isInvestmentEligible (Account.status a) (isKycCurrent (KycEligibility.eligibilityState <$> find_kyc accountId (base s))
            (find_kyc accountId (base s) ≫= KycEligibility.renewalDueAt) now) (isLoginMethodsComplete (Account.loginMethods a))) as He.
  { unfold investmentEligible, isInvestmentEligible, isKycCurrent, isLoginMethodsComplete. cbn [pf_loginMethods pf_accountStatus pf_kyc].
    rewrite !existsb_methods, <- !andb_assoc. f_equal. specialize (Hkyc accountId).
    destruct (getEligibilitySnapshot accountId) as [k|], (find_kyc accountId (base s)) as [k'|]; simpl in *; try done.
    injection Hkyc as -> ->. rewrite (bool_decide_ext (Some (KycEligibility.eligibilityState k') = Some "eligible")
      (KycEligibility.eligibilityState k' = "eligible")) by (split; congruence). by rewrite !andb_assoc. }
  assert (bool_decide (is_Some (Wallet.getStatus accountId (base s))) = negb (bool_decide (WalletRegistration.walletAddress <$> find_wallet accountId (base s) = None))) as Hw.
  { unfold Wallet.getStatus, Wallet.findByAccountId, find_wallet. by destruct (find_row _ _). }
  simpl. rewrite He, Hw. split_and!; [done..| |].
  - unfold Wallet.getStatus, Wallet.findByAccountId, find_wallet. destruct (find_row _ _) as [w|]; [|done]. simpl. by destruct (WalletRegistration.registeredAt w).
  - intros Hav. apply Nat.eqb_eq, length_zero_iff_nil in Hav. apply computeReservationBlockers_nil in Hav. simpl in Hav. destruct_and!.
    split; [|done]. unfold isInvestmentEligible. by rewrite bool_decide_eq_true_2, andb_true_iff.
Qed.

End Readers.

End Profile.

Module ProfileDemo.
Import OfferingServices Activity Profile OfferingDemo.

Definition state : intake := mkIntake d6 [ActivityDemo.demo_property] [] [] [] [] [] [] [] [] [] [] [] [].

(** The identity module's snapshot, from the same rows. *)
Definition snapshot (a : string) : option KycSnapshot :=
  (λ k, mkSnapshot None None (KycEligibility.eligibilityState k) None None "not_started" None None (KycEligibility.renewalDueAt k)) <$>
    find_kyc a (base state).

Definition shown (a : string) : result (option (string * string * string * Z)) := Ok None.

Lemma profile_and_offering_agree_witness :
  let p := GetProfile_execute (λ _, 0) (λ _ _, 0) snapshot (λ _, None) shown "alice" 6500 [] state in
  ∃ view profile, GetInvestorOffering_execute 6500 true "offering_1" "alice" (base state) = (Ok view, base state) ∧ p = Ok profile ∧
    pv_investmentEligible profile = vw_investmentEligible view.
Proof.
  intros p. destruct (GetInvestorOffering_execute 6500 true "offering_1" "alice" (base state)) as [[view|e] s'] eqn:Ev;
    [|exfalso; vm_compute in Ev; discriminate Ev].
  destruct p as [profile|e] eqn:Ep; [|exfalso; vm_compute in Ep; discriminate Ep].
  assert (s' = base state) as -> by (apply (f_equal snd) in Ev; vm_compute in Ev; vm_compute; symmetry; exact Ev).
  exists view, profile. split; [reflexivity|]. split; [reflexivity|].
  refine (proj1 (profile_and_offering_agree (λ _, 0) (λ _ _, 0) snapshot (λ _, None) shown "alice" "offering_1" 6500 true [] state view profile _ Ev Ep)).
  intros a. unfold snapshot. destruct (find_kyc a (base state)); reflexivity.
Defined.

End ProfileDemo.
