(* ===== verification/OpsReadiness.v ===== *)
(** Operations readiness: operations-readiness.policy.ts over the snapshot of
    prisma-intake.repository.ts's getOperationsReadiness, and GetOperationsReadinessService.

    Amounts reach the policy as texts and are summed as JavaScript numbers ([JsNumber]).
    Dates stay numbers, as in the rest of the library: [iso] only prints them. *)

From Stdlib Require Import Ascii.
From S2P Require Import Prelude JsString Currency IntakePolicy Db IntakeDb DateTime OfferingPolicy OfferingRepo IntakeRepo IntakeReversal Paging IntakeReads IntakeServices JsNumber.

(** src/src/modules/intake/presentation/intake-labels.ts: the label tables the intake answers
    carry beside their codes, and the fallback for a code no table knows. *)

Module IntakeLabels.
Import JsString.

Definition table := list (string * string).

Definition intakeStageLabels : table :=
  [("draft", "Draft"); ("submitted", "Submitted"); ("waiting_on_applicant", "Waiting on applicant");
   ("pre_offering_open", "Pre-offering open"); ("post_ipo_structuring", "Post-IPO structuring");
   ("approved_for_final_offering", "Approved for final offering"); ("rejected", "Rejected");
   ("withdrawn", "Withdrawn"); ("expired", "Expired")].

Definition intakeActionLabels : table :=
  [("review_evidence", "Review evidence"); ("request_information", "Request information");
   ("record_founder_decision", "Record founder decision"); ("assign_partner", "Assign partner");
   ("publish_disclosure_pack", "Publish disclosure pack");
   ("publish_final_offering_terms", "Publish final offering terms");
   ("retry_post_ipo_handoff", "Retry post-IPO handoff"); ("close_case", "Close case")].

Definition intakeBlockerLabels : table :=
  [("case_terminal", "Case is terminal"); ("submission_missing", "Submission missing");
   ("evidence_missing", "Evidence missing"); ("evidence_pending_review", "Evidence pending review");
   ("evidence_rejected", "Evidence rejected"); ("evidence_mandatory_missing", "Mandatory evidence missing");
   ("founder_decision_missing", "Founder decision missing");
   ("partner_assignment_missing", "Partner assignment missing");
   ("legal_structuring_incomplete", "Legal structuring incomplete"); ("appraisal_incomplete", "Appraisal incomplete");
   ("offering_missing", "Offering missing"); ("disclosure_pack_missing", "Disclosure pack missing");
   ("disclosure_pack_incomplete", "Disclosure pack incomplete");
   ("funding_target_not_reached", "Funding target not reached");
   ("offering_final_terms_already_published", "Final offering terms already published");
   ("ipo_period_expired", "IPO period expired"); ("post_ipo_handoff_pending", "Post-IPO handoff pending")].

Definition intakeSeverityLabels : table := [("blocking", "Blocking"); ("warning", "Warning")].

Definition intakeDocumentTypeLabels : table :=
  [("ownership_declaration", "Ownership declaration"); ("property_facts_sheet", "Property facts sheet");
   ("encumbrance_declaration", "Encumbrance declaration"); ("photo_set", "Property photo set");
   ("room_photo", "Room photo")].

Definition disclosureDocumentTypeLabels : table :=
  [("ecsp_kiis", "ECSP KIIS"); ("priips_kid", "PRIIPs KID"); ("final_offer_summary", "Final offer summary");
   ("final_terms_sheet", "Final terms sheet");
   ("issuer_offeror_structure_sheet", "Issuer and offeror structure sheet");
   ("investor_rights_payout_waterfall_summary", "Investor rights and payout waterfall summary");
   ("risk_factors_summary", "Risk factors summary"); ("property_appraisal_summary", "Property appraisal summary");
   ("fees_costs_tax_liquidity_summary", "Fees, costs, tax and liquidity summary");
   ("withdrawal_cancellation_supplement_rights_notice", "Withdrawal and cancellation rights notice");
   ("full_prospectus", "Full prospectus")].

Definition offeringStatusLabels : table :=
  [("pre_offering", "Pre-offering"); ("final_offering", "Final offering"); ("closed", "Closed")].

Definition reservationStageLabels : table :=
  [("initiated", "Initiated"); ("awaiting_reconfirmation", "Awaiting reconfirmation"); ("reconfirmed", "Reconfirmed");
   ("finalized", "Finalized"); ("cancelled", "Cancelled"); ("lapsed", "Lapsed")].

(** [/[-_]+/g] replaced by one space *)
Fixpoint spaced (in_run : bool) (s : string) : string :=
  match s with
  | EmptyString => EmptyString
  | String c s =>
      if bool_decide (c = "-"%char) || bool_decide (c = "_"%char)
      then if in_run then spaced true s else String " "%char (spaced true s)
      else String c (spaced false s)
  end.

Definition is_lower (c : ascii) : bool := (97 <=? char_code c) && (char_code c <=? 122).
Definition is_word (c : ascii) : bool :=
  is_digit c || is_lower c || ((65 <=? char_code c) && (char_code c <=? 90)) || (char_code c =? 95).
Definition toUpperCase (c : ascii) : ascii :=
  if is_lower c then ascii_of_N (N_of_ascii c - 32) else c.

(** [/\b\w/g] in upper case: a word character after none *)
Fixpoint capitalized (after_word : bool) (s : string) : string :=
  match s with
  | EmptyString => EmptyString
  | String c s => String (if is_word c && negb after_word then toUpperCase c else c) (capitalized (is_word c) s)
  end.

Definition humanizeUnknownCode (value : string) : string := capitalized false (spaced false (trim value)).

Definition displayLabel (value : string) (labels : table) : string :=
  match find_row (λ kv, bool_decide (kv.1 = value)) labels with
  | Some kv => kv.2
  | None => humanizeUnknownCode value
  end.

Definition labelsFor (values : list string) (labels : table) : list string :=
  map (λ value, displayLabel value labels) values.

Definition reservation_stage_text (st : ReservationStage.t) : string :=
  match st with
  | ReservationStage.initiated => "initiated"
  | ReservationStage.awaiting_reconfirmation => "awaiting_reconfirmation"
  | ReservationStage.reconfirmed => "reconfirmed"
  | ReservationStage.finalized => "finalized"
  | ReservationStage.cancelled => "cancelled"
  | ReservationStage.lapsed => "lapsed"
  end.

End IntakeLabels.

Module OpsReadiness.
Import Currency IntakePolicy OfferingPolicy IntakeDb IntakeRepo IntakeReversal IntakeReads IntakeServices IntakeLabels.
Import JsNumber (number, plus, minus, times, divided, less, equal, zero, of_Z, Number, toFixed2, Math_max, Math_min).

(** ** The snapshot *)

Record FounderSnapshot := mkFounder {
  fo_reviewedByAccountId : option string; fo_approvedAt : option Z; fo_rejectedAt : option Z;
  fo_ipoPeriodDays : option Z; fo_ipoValueEur : option string; fo_ipoEndAt : option Z }.

Record PackSnapshot := mkPackSnapshot {
  pk_id : string; pk_version : Z; pk_publishedAt : Z; pk_documentTypes : list string }.

Record ReservationSnapshot := mkReservationSnapshot {
  rs_stage : string; rs_amountEur : string; rs_latestCapitalState : option CapitalState.t;
  rs_latestAmountEur : option string }.

Record OfferingSnapshot := mkOfferingSnapshot {
  of_offeringId : string; of_status : OfferingStatus; of_minimumRaiseEur : string; of_targetRaiseEur : string;
  of_finalOfferingPublishedAt : option Z; of_platformRightsEndAt : option Z; of_effectiveRightsEndAt : option Z;
  of_disclosurePack : option PackSnapshot; of_reservations : list ReservationSnapshot }.

Record Snapshot := mkSnapshot {
  sn_caseId : string; sn_stage : Stage;
  sn_submission : option (Z * list (string * EvidenceStatus));
  sn_legalPracticeId : option string; sn_legalStructuringCompletedAt : option Z;
  sn_appraisalFirmId : option string; sn_appraisalCompletedAt : option Z;
  sn_founder : FounderSnapshot; sn_offering : option OfferingSnapshot }.

(** ** getOperationsReadiness *)

(** [disclosurePacks: where isCurrent and not superseded, orderBy version desc, id desc, take 1] *)
Definition pack_after (a b : DisclosurePack.t) : bool :=
  (DisclosurePack.version b <? DisclosurePack.version a) ||
  ((DisclosurePack.version a =? DisclosurePack.version b) &&
   String.ltb (DisclosurePack.id b) (DisclosurePack.id a)).

Definition latest_pack (offeringId : string) (b : db) : option DisclosurePack.t :=
  head (order_by pack_after (List.filter (is_current_pack offeringId) (disclosurePacks b))).

Definition pack_snapshot (p : DisclosurePack.t) : PackSnapshot :=
  mkPackSnapshot (DisclosurePack.id p) (DisclosurePack.version p) (DisclosurePack.publishedAt p)
    (map (λ d, OfferingRepo.documentType_text (DisclosurePack.documentType d)) (DisclosurePack.documents p)).

Definition reservation_snapshot (b : db) (r : Reservation.t) : ReservationSnapshot :=
  let latest := latest_money (Reservation.id r) b in
  mkReservationSnapshot (reservation_stage_text (Reservation.stage r)) (numeric2_text (Reservation.amountEur r))
    (MoneyEvent.capitalState <$> latest) ((λ e, numeric2_text (MoneyEvent.amountEur e)) <$> latest).

Definition offering_snapshot (b : db) (o : Offering.t) : OfferingSnapshot :=
  mkOfferingSnapshot (Offering.id o) (Offering.status o) (numeric2_text (Offering.minimumRaiseEur o))
    (numeric2_text (Offering.targetRaiseEur o)) (Offering.finalOfferingPublishedAt o)
    (Offering.platformRightsEndAt o) (Offering.effectiveRightsEndAt o)
    (pack_snapshot <$> latest_pack (Offering.id o) b)
    (map (reservation_snapshot b) (List.filter (OfferingRepo.of_offering (Offering.id o)) (reservations b))).

Definition submission_snapshot (s : intake) (r : Revision.t) : Z * list (string * EvidenceStatus) :=
  (Revision.revisionNumber r,
   map (λ e, (Evidence.documentType e, Evidence.status e))
     (List.filter (by_id Evidence.submissionRevisionId (Revision.id r)) (evidence s))).

Definition case_snapshot (s : intake) (c : IntakeCase.t) : Snapshot :=
  let review := IntakeCase.review c in
  let ipo := IntakeCase.ipo c in
  let partner := IntakeCase.partner c in
  mkSnapshot (IntakeCase.id c) (IntakeCase.stage c)
    (submission_snapshot s <$> current_revision s c)
    (IntakeCase.legalPracticeId partner) (IntakeCase.legalStructuringCompletedAt partner)
    (IntakeCase.appraisalFirmId partner) (IntakeCase.appraisalCompletedAt partner)
    (mkFounder (IntakeCase.reviewedByAccountId review) (IntakeCase.approvedAt review) (IntakeCase.rejectedAt review)
       (IntakeCase.ipoPeriodDays ipo) (numeric2_text <$> IntakeCase.ipoValueEur ipo) (IntakeCase.ipo_endAt ipo))
    (offering_snapshot (base s) <$> linked_offering (IntakeCase.id c) (base s)).

Definition getOperationsReadiness (caseId : string) (s : intake) : option Snapshot :=
  case_snapshot s <$> get_case caseId s.

(** ** The policy: actions and blockers *)

Inductive Action :=
  | review_evidence | request_information | record_founder_decision | assign_partner
  | publish_disclosure_pack | publish_final_offering_terms | retry_post_ipo_handoff | close_case.
#[global] Instance Action_eq_dec : EqDecision Action.
Proof. solve_decision. Defined.

Definition readinessActions : list Action :=
  [review_evidence; request_information; record_founder_decision; assign_partner; publish_disclosure_pack;
   publish_final_offering_terms; retry_post_ipo_handoff; close_case].

Definition action_text (a : Action) : string :=
  match a with
  | review_evidence => "review_evidence"
  | request_information => "request_information"
  | record_founder_decision => "record_founder_decision"
  | assign_partner => "assign_partner"
  | publish_disclosure_pack => "publish_disclosure_pack"
  | publish_final_offering_terms => "publish_final_offering_terms"
  | retry_post_ipo_handoff => "retry_post_ipo_handoff"
  | close_case => "close_case"
  end.

Inductive Code :=
  | case_terminal | submission_missing | evidence_missing | evidence_pending_review | evidence_was_rejected
  | evidence_mandatory_missing | founder_decision_missing | partner_assignment_missing
  | legal_structuring_incomplete | appraisal_incomplete | offering_missing | disclosure_pack_missing
  | disclosure_pack_incomplete | funding_target_not_reached | offering_final_terms_already_published
  | ipo_period_expired | post_ipo_handoff_pending.
#[global] Instance Code_eq_dec : EqDecision Code.
Proof. solve_decision. Defined.

Definition code_text (c : Code) : string :=
  match c with
  | case_terminal => "case_terminal"
  | submission_missing => "submission_missing"
  | evidence_missing => "evidence_missing"
  | evidence_pending_review => "evidence_pending_review"
  | evidence_was_rejected => "evidence_rejected"
  | evidence_mandatory_missing => "evidence_mandatory_missing"
  | founder_decision_missing => "founder_decision_missing"
  | partner_assignment_missing => "partner_assignment_missing"
  | legal_structuring_incomplete => "legal_structuring_incomplete"
  | appraisal_incomplete => "appraisal_incomplete"
  | offering_missing => "offering_missing"
  | disclosure_pack_missing => "disclosure_pack_missing"
  | disclosure_pack_incomplete => "disclosure_pack_incomplete"
  | funding_target_not_reached => "funding_target_not_reached"
  | offering_final_terms_already_published => "offering_final_terms_already_published"
  | ipo_period_expired => "ipo_period_expired"
  | post_ipo_handoff_pending => "post_ipo_handoff_pending"
  end.

Inductive Severity := blocking | warning.
#[global] Instance Severity_eq_dec : EqDecision Severity.
Proof. solve_decision. Defined.

Definition severity_text (s : Severity) : string := match s with blocking => "blocking" | warning => "warning" end.

Record Blocker := mkBlocker {
  bk_code : Code; bk_severity : Severity; bk_blocks : list Action; bk_message : string;
  bk_metadata : option (string * json) }.

Definition requiredEvidence : list string :=
  ["ownership_declaration"; "property_facts_sheet"; "encumbrance_declaration"; "photo_set"].

Definition requiredDisclosure : list string :=
  ["ecsp_kiis"; "priips_kid"; "final_offer_summary"; "final_terms_sheet"; "issuer_offeror_structure_sheet";
   "investor_rights_payout_waterfall_summary"; "risk_factors_summary"; "property_appraisal_summary";
   "fees_costs_tax_liquidity_summary"; "withdrawal_cancellation_supplement_rights_notice"; "full_prospectus"].

Definition includes (l : list string) (x : string) : bool := existsb (String.eqb x) l.

Section Evaluate.
Context (snapshot : Snapshot) (now : Z).

Definition evidence_list : list (string * EvidenceStatus) :=
  match sn_submission snapshot with Some sub => sub.2 | None => [] end.

(** [[...new Set(types)].sort()] *)
Definition presentEvidence : list string :=
  order_by String.ltb
    (foldr (λ t seen, t :: List.filter (λ u, negb (String.eqb t u)) seen) [] (map fst evidence_list)).

Definition missingEvidence : list string :=
  List.filter (λ t, negb (includes presentEvidence t)) requiredEvidence.

Definition with_status (st : EvidenceStatus) : list (string * EvidenceStatus) :=
  List.filter (λ e, bool_decide (e.2 = st)) evidence_list.
Definition count (st : EvidenceStatus) : nat := length (with_status st).

Definition disclosure_pack : option PackSnapshot := sn_offering snapshot ≫= of_disclosurePack.
Definition packTypes : list string := match disclosure_pack with Some p => pk_documentTypes p | None => [] end.
Definition missingDisclosure : list string :=
  List.filter (λ t, negb (includes packTypes t)) requiredDisclosure.

Definition reservation_list : list ReservationSnapshot :=
  match sn_offering snapshot with Some o => of_reservations o | None => [] end.

Definition is_reserved (r : ReservationSnapshot) : bool := negb (includes ["cancelled"; "lapsed"] (rs_stage r)).
Definition is_funded (r : ReservationSnapshot) : bool := isReservationFunded (rs_latestCapitalState r).

(** [.reduce((n, r) => n + Number(amount(r)), 0)] *)
Definition total (amount : ReservationSnapshot → number) (l : list ReservationSnapshot) : number :=
  fold_left (λ n r, plus n (amount r)) l zero.

Definition reserved : number := total (λ r, Number (rs_amountEur r)) (List.filter is_reserved reservation_list).

(** [Number(r.latestAmountEur ?? 0)] *)
Definition latest_amount (r : ReservationSnapshot) : number :=
  match rs_latestAmountEur r with Some t => Number t | None => zero end.
Definition funded : number := total latest_amount (List.filter is_funded reservation_list).

Definition target : number :=
  match sn_offering snapshot with Some o => Number (of_targetRaiseEur o) | None => zero end.

Definition terminal : bool := bool_decide (sn_stage snapshot ∈ [rejected; withdrawn; expired]).

Definition handoffPending : bool :=
  bool_decide (sn_stage snapshot = pre_offering_open) &&
  is_set (sn_offering snapshot ≫= of_finalOfferingPublishedAt).

Definition structuring : bool :=
  bool_decide (sn_stage snapshot ∈ [post_ipo_structuring; approved_for_final_offering]).

Definition add (guard : bool) (code : Code) (severity : Severity) (blocks : list Action) (message : string)
    (metadata : option (string * json)) : list Blocker :=
  push_if guard (mkBlocker code severity blocks message metadata).

Definition case_blockers : list Blocker :=
  add terminal case_terminal blocking readinessActions "This case has reached a terminal stage." None ++
  add (negb (is_set (sn_submission snapshot))) submission_missing blocking
    [record_founder_decision; request_information] "The case has no current submission." None ++
  add (negb (bool_decide (missingEvidence = []))) evidence_missing warning []
    "Required evidence documents are missing."
    (Some ("missing_document_types", JArr (map JStr missingEvidence))) ++
  add (negb (count evidence_pending =? 0)%nat) evidence_pending_review warning []
    "Some evidence documents are awaiting review." None ++
  add (negb (count evidence_rejected =? 0)%nat) evidence_was_rejected warning []
    "Some evidence documents were rejected." None ++
  add (negb (count mandatory_missing =? 0)%nat) evidence_mandatory_missing warning []
    "Some mandatory evidence was marked missing." None ++
  add (negb (is_set (fo_approvedAt (sn_founder snapshot))) && negb (is_set (fo_rejectedAt (sn_founder snapshot))))
    founder_decision_missing blocking [publish_disclosure_pack; publish_final_offering_terms]
    "A founder decision has not been recorded." None.

Definition has_offering : bool := is_set (sn_offering snapshot).

Definition offering_blockers : list Blocker :=
  add (negb has_offering) offering_missing blocking [publish_disclosure_pack; publish_final_offering_terms]
    "No offering is linked to this case." None ++
  add (has_offering && negb (is_set disclosure_pack)) disclosure_pack_missing blocking
    [publish_final_offering_terms] "No current disclosure pack exists." None ++
  add (is_set disclosure_pack && negb (bool_decide (missingDisclosure = []))) disclosure_pack_incomplete blocking
    [publish_final_offering_terms] "The current disclosure pack is incomplete."
    (Some ("missing_document_types", JArr (map JStr missingDisclosure))) ++
  add (has_offering && less funded target) funding_target_not_reached blocking [publish_final_offering_terms]
    "The offering has not reached its full funded target."
    (Some ("shortfall_eur", JStr (toFixed2 (minus target funded)))) ++
  add (is_set (sn_offering snapshot ≫= of_finalOfferingPublishedAt)) offering_final_terms_already_published blocking
    [publish_final_offering_terms; publish_disclosure_pack] "Final offering terms have already been published." None ++
  add (match fo_ipoEndAt (sn_founder snapshot) with Some e => e <? now | None => false end && less funded target)
    ipo_period_expired blocking [publish_final_offering_terms] "The IPO period has expired." None ++
  add handoffPending post_ipo_handoff_pending blocking [assign_partner]
    "The post-IPO structuring handoff is pending." None.

Definition structuring_blockers : list Blocker :=
  if structuring then
    add (negb (is_set (sn_legalPracticeId snapshot)) || negb (is_set (sn_appraisalFirmId snapshot)))
      partner_assignment_missing blocking [] "Legal and appraisal partners must both be assigned." None ++
    add (negb (is_set (sn_legalStructuringCompletedAt snapshot))) legal_structuring_incomplete blocking []
      "Legal structuring is incomplete." None ++
    add (negb (is_set (sn_appraisalCompletedAt snapshot))) appraisal_incomplete blocking []
      "Appraisal is incomplete." None
  else [].

Definition blockers : list Blocker := case_blockers ++ offering_blockers ++ structuring_blockers.

Definition blocked : list Action :=
  List.concat (map bk_blocks (List.filter (λ b, bool_decide (bk_severity b = blocking)) blockers)).

Definition offering_is_pre : bool :=
  match sn_offering snapshot with Some o => bool_decide (of_status o = pre_offering) | None => false end.

Definition actions : list Action :=
  if terminal then []
  else
    [review_evidence] ++
    (if bool_decide (sn_stage snapshot = submitted) && is_set (sn_submission snapshot)
     then [request_information; record_founder_decision] else []) ++
    push_if structuring assign_partner ++
    push_if offering_is_pre publish_disclosure_pack ++
    push_if offering_is_pre publish_final_offering_terms ++
    push_if handoffPending retry_post_ipo_handoff ++
    push_if (bool_decide (sn_stage snapshot ∈ [draft; submitted; waiting_on_applicant; pre_offering_open])) close_case.

Definition allowed : list Action := List.filter (λ a, negb (bool_decide (a ∈ blocked))) actions.

End Evaluate.

(** ** The answer *)

Record EvidenceData := mkEvidenceData {
  ed_submission_present : bool; ed_revision_number : option Z;
  ed_required : list string; ed_required_labels : list string;
  ed_present : list string; ed_present_labels : list string;
  ed_missing : list string; ed_missing_labels : list string;
  ed_accepted : nat; ed_pending : nat; ed_rejected : nat; ed_mandatory_missing : nat; ed_complete : bool;
  ed_rejected_documents : list string; ed_rejected_labels : list string }.

Record PartnerData := mkPartnerData {
  pd_legal_practice_id : option string; pd_legal_structuring_completed_at : option Z;
  pd_appraisal_firm_id : option string; pd_appraisal_completed_at : option Z;
  pd_assignment_complete : bool; pd_structuring_complete : bool }.

Record PackData := mkPackData {
  pkd_current_pack_id : string; pkd_version : Z; pkd_published_at : Z;
  pkd_present : list string; pkd_present_labels : list string;
  pkd_missing : list string; pkd_missing_labels : list string; pkd_complete : bool }.

Record FundingData := mkFundingData {
  fd_target_raise_eur : string; fd_reserved_eur : string; fd_funded_eur : string; fd_remaining_eur : string;
  fd_funded_percent : number; fd_reservation_counts : list (string * nat);
  fd_reservation_stage_labels : list (string * string); fd_funded_reservation_count : nat }.

Record BlockerData := mkBlockerData {
  bd_blocker : Blocker; bd_code_label : string; bd_severity_label : string; bd_blocks_action_labels : list string }.

Record Readiness := mkReadiness {
  rd_case_id : string; rd_stage : Stage; rd_stage_label : string;
  rd_linked_offering : option (OfferingSnapshot * string * option Z);
  rd_evidence : EvidenceData; rd_partner_assignments : PartnerData;
  rd_founder_status : string; rd_founder_status_label : string; rd_founder : FounderSnapshot;
  rd_disclosure_pack : option PackData; rd_funding : option FundingData;
  rd_allowed_next_actions : list Action; rd_allowed_next_action_labels : list string;
  rd_blockers : list BlockerData; rd_evaluated_at : Z }.

Definition evidence_data (sn : Snapshot) : EvidenceData :=
  let rejected_documents := map fst (with_status sn evidence_rejected) in
  mkEvidenceData (is_set (sn_submission sn)) (fst <$> sn_submission sn)
    requiredEvidence (labelsFor requiredEvidence intakeDocumentTypeLabels)
    (presentEvidence sn) (labelsFor (presentEvidence sn) intakeDocumentTypeLabels)
    (missingEvidence sn) (labelsFor (missingEvidence sn) intakeDocumentTypeLabels)
    (count sn evidence_accepted) (count sn evidence_pending) (count sn evidence_rejected)
    (count sn mandatory_missing) (bool_decide (missingEvidence sn = []))
    rejected_documents (labelsFor rejected_documents intakeDocumentTypeLabels).

Definition partner_data (sn : Snapshot) : PartnerData :=
  mkPartnerData (sn_legalPracticeId sn) (sn_legalStructuringCompletedAt sn)
    (sn_appraisalFirmId sn) (sn_appraisalCompletedAt sn)
    (is_set (sn_legalPracticeId sn) && is_set (sn_appraisalFirmId sn))
    (is_set (sn_legalStructuringCompletedAt sn) && is_set (sn_appraisalCompletedAt sn)).

Definition founder_status (f : FounderSnapshot) : string :=
  if is_set (fo_approvedAt f) then "approved" else if is_set (fo_rejectedAt f) then "rejected" else "pending".

(** [packTypes.sort()] sorts in place, so the labels follow the sorted order. *)
Definition pack_data (sn : Snapshot) (p : PackSnapshot) : PackData :=
  let sorted := order_by String.ltb (pk_documentTypes p) in
  mkPackData (pk_id p) (pk_version p) (pk_publishedAt p) sorted (labelsFor sorted disclosureDocumentTypeLabels)
    (missingDisclosure sn) (labelsFor (missingDisclosure sn) disclosureDocumentTypeLabels)
    (bool_decide (missingDisclosure sn = [])).

Definition countedStages : list string :=
  ["initiated"; "awaiting_reconfirmation"; "reconfirmed"; "finalized"; "cancelled"; "lapsed"].

Definition funded_percent (sn : Snapshot) : number :=
  if equal (target sn) zero then zero
  else Number (toFixed2 (Math_min (of_Z 100) (times (divided (funded sn) (target sn)) (of_Z 100)))).

Definition funding_data (sn : Snapshot) (o : OfferingSnapshot) : FundingData :=
  mkFundingData (of_targetRaiseEur o) (toFixed2 (reserved sn)) (toFixed2 (funded sn))
    (toFixed2 (Math_max zero (minus (target sn) (funded sn)))) (funded_percent sn)
    (map (λ st, (st, length (List.filter (λ r, String.eqb (rs_stage r) st) (of_reservations o)))) countedStages)
    (map (λ st, (st, displayLabel st reservationStageLabels)) countedStages)
    (length (List.filter is_funded (of_reservations o))).

Definition blocker_data (b : Blocker) : BlockerData :=
  mkBlockerData b (displayLabel (code_text (bk_code b)) intakeBlockerLabels)
    (displayLabel (severity_text (bk_severity b)) intakeSeverityLabels)
    (labelsFor (map action_text (bk_blocks b)) intakeActionLabels).

Definition evaluateOperationsReadiness (sn : Snapshot) (now : Z) : Readiness :=
  mkReadiness (sn_caseId sn) (sn_stage sn) (displayLabel (stage_text (sn_stage sn)) intakeStageLabels)
    ((λ o, (o, displayLabel (offering_status_text (of_status o)) offeringStatusLabels, fo_ipoEndAt (sn_founder sn)))
       <$> sn_offering sn)
    (evidence_data sn) (partner_data sn)
    (founder_status (sn_founder sn))
    (displayLabel (founder_status (sn_founder sn))
       [("pending", "Pending"); ("approved", "Approved"); ("rejected", "Rejected")])
    (sn_founder sn)
    (pack_data sn <$> disclosure_pack sn) (funding_data sn <$> sn_offering sn)
    (allowed sn now) (labelsFor (map action_text (allowed sn now)) intakeActionLabels)
    (map blocker_data (blockers sn now)) now.

Definition GetOperationsReadiness_execute (caseId : string) (now : Z) : io intake Readiness :=
  await snapshot := read (getOperationsReadiness caseId) in
  await snapshot := found_or case_not_found snapshot in
  ret (evaluateOperationsReadiness snapshot now).

End OpsReadiness.
