(* ===== verification/OpsReadinessProps.v ===== *)
(** What operations readiness tells the staff, against what the services then do: the offered
    actions are those the services accept, the funding figures are exact on whole euros, and not
    beyond. *)

From S2P Require Import Prelude JsString Currency DateTime IntakePolicy Db OfferingPolicy OfferingRepo OfferingFacts OfferingInv OfferingPacks OfferingDemo IntakeDb IntakeRepo IntakeReversal IntakeLedger IntakeMachine IntakeInv IntakeDemo IntakeProps Paging IntakeReads IntakeServices JsNumber OpsReadiness.

Module OpsReadinessProps.
Import Currency IntakePolicy OfferingPolicy IntakeDb IntakeRepo IntakeReversal IntakeLedger IntakeMachine IntakeInv IntakeReads IntakeServices OpsReadiness.
Import JsNumber (number, plus, minus, less, zero, Number, toFixed2, of_cents, exactly, small).

(** ** The blocked actions *)

Definition blocks_of (l : list Blocker) : list Action :=
  List.concat (map bk_blocks (List.filter (λ b, bool_decide (bk_severity b = blocking)) l)).

Lemma blocks_of_app l1 l2 : blocks_of (l1 ++ l2) = blocks_of l1 ++ blocks_of l2.
Proof. unfold blocks_of. by rewrite List.filter_app, map_app, concat_app. Qed.

Lemma blocks_of_add g c acts m md : blocks_of (add g c blocking acts m md) = if g then acts else [].
Proof. destruct g; [|done]. unfold blocks_of. simpl. by rewrite app_nil_r. Qed.

Lemma blocks_of_warning g c acts m md : blocks_of (add g c warning acts m md) = [].
Proof. by destruct g. Qed.

Lemma in_if {A} (g : bool) (l : list A) x : In x (if g then l else []) ↔ g = true ∧ In x l.
Proof. destruct g; naive_solver. Qed.

Lemma blocked_eq sn now : ∀ a, In a (blocked sn now) ↔
  terminal sn = true ∧ In a readinessActions ∨
  is_set (sn_submission sn) = false ∧ In a [record_founder_decision; request_information] ∨
  is_set (fo_approvedAt (sn_founder sn)) || is_set (fo_rejectedAt (sn_founder sn)) = false ∧
    In a [publish_disclosure_pack; publish_final_offering_terms] ∨
  has_offering sn = false ∧ In a [publish_disclosure_pack; publish_final_offering_terms] ∨
  (has_offering sn && negb (is_set (disclosure_pack sn)) = true ∨
   is_set (disclosure_pack sn) && negb (bool_decide (missingDisclosure sn = [])) = true ∨
   has_offering sn && less (funded sn) (target sn) = true ∨
   match fo_ipoEndAt (sn_founder sn) with Some e => e <? now | None => false end && less (funded sn) (target sn) = true) ∧
    a = publish_final_offering_terms ∨
  is_set (sn_offering sn ≫= of_finalOfferingPublishedAt) = true ∧
    In a [publish_final_offering_terms; publish_disclosure_pack] ∨
  handoffPending sn = true ∧ a = assign_partner.
Proof.
  intros a. change (blocked sn now) with (blocks_of (blockers sn now)).
  unfold blockers, case_blockers, offering_blockers, structuring_blockers.
  assert (∀ g c1 m1 c2 m2 c3 m3 g1 g2 g3, blocks_of (if g : bool
    then add g1 c1 blocking [] m1 None ++ add g2 c2 blocking [] m2 None ++ add g3 c3 blocking [] m3 None else []) = [])
    as Hs by (intros [] ? ? ? ? ? ? [] [] []; done).
  rewrite !blocks_of_app, !blocks_of_add, !blocks_of_warning, Hs, !in_app_iff, !in_if. simpl.
  rewrite !negb_true_iff, andb_true_iff, !negb_true_iff, orb_false_iff. intuition congruence.
Qed.

Lemma in_allowed sn now a : In a (allowed sn now) ↔ In a (actions sn) ∧ ¬ In a (blocked sn now).
Proof.
  unfold allowed. rewrite filter_In, negb_true_iff, bool_decide_eq_false, list_elem_of_In. done.
Qed.

Lemma in_push_if {A} b (x y : A) : In y (push_if b x) ↔ b = true ∧ y = x.
Proof. destruct b; simpl; naive_solver. Qed.

(** [split_blocked H] leaves the conditions under which the action in [H : In a (blocked sn now)]
    is blocked. *)
Ltac split_blocked H :=
  apply blocked_eq in H; cbn [In readinessActions] in H;
  repeat match type of H with
  | _ ∨ _ => destruct H as [H|H]
  | _ ∧ _ => let H' := fresh in destruct H as [H' H]
  end; try discriminate; try contradiction.

Lemma blocked_close sn now : In close_case (blocked sn now) → terminal sn = true.
Proof. intros H. by split_blocked H. Qed.

Lemma blocked_request sn now : In request_information (blocked sn now) →
  terminal sn = true ∨ is_set (sn_submission sn) = false.
Proof. intros H. split_blocked H; auto. Qed.

Lemma blocked_decision sn now : In record_founder_decision (blocked sn now) →
  terminal sn = true ∨ is_set (sn_submission sn) = false.
Proof. intros H. split_blocked H; auto. Qed.

Lemma blocked_assign sn now : In assign_partner (blocked sn now) → terminal sn = true ∨ handoffPending sn = true.
Proof. intros H. split_blocked H; auto. Qed.

Lemma blocked_retry sn now : In retry_post_ipo_handoff (blocked sn now) → terminal sn = true.
Proof. intros H. by split_blocked H. Qed.

Lemma blocked_review sn now : In review_evidence (blocked sn now) → terminal sn = true.
Proof. intros H. by split_blocked H. Qed.

(** The action is offered under [g], which blocks nothing of it. *)
Lemma in_actions sn a : In a (actions sn) ↔ terminal sn = false ∧
  (a = review_evidence ∨
   bool_decide (sn_stage sn = submitted) && is_set (sn_submission sn) = true ∧
     (a = request_information ∨ a = record_founder_decision) ∨
   structuring sn = true ∧ a = assign_partner ∨
   offering_is_pre sn = true ∧ (a = publish_disclosure_pack ∨ a = publish_final_offering_terms) ∨
   handoffPending sn = true ∧ a = retry_post_ipo_handoff ∨
   canCloseCase (sn_stage sn) close_withdrawn = true ∧ a = close_case).
Proof.
  unfold actions. destruct (terminal sn); [naive_solver|]. cbn [app In].
  rewrite !in_app_iff, !in_push_if, in_if.
  assert (bool_decide (sn_stage sn ∈ [draft; submitted; waiting_on_applicant; pre_offering_open]) =
          canCloseCase (sn_stage sn) close_withdrawn) as -> by (by destruct (sn_stage sn)).
  cbn [In]. naive_solver.
Qed.

Lemma stage_not_terminal sn : terminal sn = true → canCloseCase (sn_stage sn) close_withdrawn = false ∧
  canAssignPartnerOrganization (sn_stage sn) = false ∧ sn_stage sn ≠ submitted ∧ sn_stage sn ≠ pre_offering_open.
Proof. unfold terminal. by destruct (sn_stage sn). Qed.

Lemma handoff_stage sn : handoffPending sn = true → sn_stage sn = pre_offering_open.
Proof. unfold handoffPending. intros [H _]%andb_true_iff. by boolify. Qed.

Lemma structuring_assign sn : structuring sn = canAssignPartnerOrganization (sn_stage sn).
Proof. unfold structuring. by destruct (sn_stage sn). Qed.

Lemma alive sn : canCloseCase (sn_stage sn) close_withdrawn = true ∨ canAssignPartnerOrganization (sn_stage sn) = true ∨
  sn_stage sn = submitted ∨ sn_stage sn = pre_offering_open → terminal sn = false.
Proof.
  intros H. destruct (terminal sn) eqn:T; [|done].
  destruct (stage_not_terminal _ T) as (? & ? & ? & ?). destruct H as [H|[H|[H|H]]]; congruence.
Qed.

(** The guard under which an action is pushed. *)
Ltac offered_guard :=
  let H := fresh in intros [[_ H] _];
  repeat match type of H with
  | _ ∨ _ => destruct H as [H|H]
  | _ ∧ _ => let H' := fresh in destruct H as [H' H]
  end; first [done | subst; discriminate | tauto].

Lemma offered_close sn now : In close_case (allowed sn now) ↔ canCloseCase (sn_stage sn) close_withdrawn = true.
Proof.
  rewrite in_allowed, in_actions. split; [by offered_guard|]. intros H. pose proof (alive sn (or_introl H)).
  split; [tauto|]. intros B%blocked_close. congruence.
Qed.

Lemma offered_assign sn now : In assign_partner (allowed sn now) ↔ canAssignPartnerOrganization (sn_stage sn) = true.
Proof.
  rewrite in_allowed, in_actions, structuring_assign. split; [by offered_guard|]. intros H.
  pose proof (alive sn (or_intror (or_introl H))) as T. split; [tauto|].
  intros [B|B%handoff_stage]%blocked_assign; [congruence|]. by rewrite B in H.
Qed.

Definition under_review (sn : Snapshot) : bool := canRecordFounderDecision (sn_stage sn) (is_set (sn_submission sn)).

Lemma offered_review sn now a : a = request_information ∨ a = record_founder_decision →
  In a (allowed sn now) ↔ under_review sn = true.
Proof.
  intros Ha. unfold under_review, canRecordFounderDecision. rewrite in_allowed, in_actions.
  split; [destruct Ha as [-> | ->]; by offered_guard|].
  intros H. assert (sn_stage sn = submitted ∧ is_set (sn_submission sn) = true) as [Hs Hr]
    by (apply andb_true_iff in H as [? ?]; by boolify).
  pose proof (alive sn (or_intror (or_intror (or_introl Hs)))) as T. split; [tauto|].
  intros B. assert (terminal sn = true ∨ is_set (sn_submission sn) = false) as []; [|congruence..].
  destruct Ha as [-> | ->]; [by eapply blocked_request | by eapply blocked_decision].
Qed.

Lemma offered_retry sn now : In retry_post_ipo_handoff (allowed sn now) ↔ handoffPending sn = true.
Proof.
  rewrite in_allowed, in_actions. split; [by offered_guard|]. intros H.
  pose proof (alive sn (or_intror (or_intror (or_intror (handoff_stage _ H))))) as T. split; [tauto|].
  intros B%blocked_retry. congruence.
Qed.

Lemma offered_nothing sn now : allowed sn now = [] ↔ terminal sn = true.
Proof.
  split; intros H.
  - destruct (terminal sn) eqn:T; [done|].
    assert (In review_evidence (allowed sn now)) as Hr; [|by rewrite H in Hr].
    apply in_allowed. rewrite in_actions. split; [tauto|]. intros B%blocked_review. congruence.
  - unfold allowed, actions. by rewrite H.
Qed.

(** ** Errors that are not a refusal *)

(** What a service can still run into that is not its answer to the state of the case: a row that is gone, a violated
    constraint, a setting that is missing or malformed, a malformed amount, duration or payload. *)
Definition incident (message : string) : bool :=
  bool_decide (message ∈ ["P2025"; "ZodError"; "SyntaxError"; "Business-day duration must be a positive integer"; "out of fuel"]) ||
  existsb (λ p, String.prefix p message) ["intake_cases_check"; "intake_case_events_"; "information_requests_"; "Missing setting "].

(** No error answer at all: every one of them is an AppError. *)
Definition no_refusal (e : error) : Prop := match e with Thrown m => incident m = true | AppError _ _ _ => False end.

Ltac constraint_errors :=
  intros ? ? H; repeat (case_match; try discriminate H);
  injection H as <-; reflexivity.

(** What a transaction can return. *)
Definition tx_returns {S A} (P : A → Prop) (t : txn S A) : Prop := ∀ s a s', t s = Ok (a, s') → P a.

Lemma returns_bind {S A B} (P : B → Prop) (m : txn S A) (f : A → txn S B) :
  (∀ a, tx_returns P (f a)) → tx_returns P (tbind m f).
Proof. intros H s b s' (a & s1 & _ & H1)%tbind_ok. by eapply H. Qed.

Lemma returns_ret {S A} (P : A → Prop) (a : A) : P a → tx_returns P (@tret S A a).
Proof. by intros H s b s' [= <- _]. Qed.

Lemma returns_throw {S A} (P : A → Prop) e : tx_returns P (@tthrow S A e).
Proof. by intros s b s'. Qed.

Ltac walk_returns := repeat first [apply returns_throw | apply returns_ret; done | apply returns_bind; intros ? | case_match].

(** What is left of the transaction does not answer [None]. *)
Ltac found_here :=
  lazymatch goal with
  | |- ?t ?s ≠ _ =>
      let X := fresh in assert (tx_returns (λ a, a ≠ None) t) as X by walk_returns;
      let E := fresh in intros E; by apply (X _ _ _ E)
  end.

Section Errors.
Context (ulid : nat → string) (jobId : nat → option string).

Lemma case_update_errs k f : tx_errs no_refusal (tprim (case_update k f)).
Proof. apply tx_errs_prim. unfold case_update, P2025, violation. constraint_errors. Qed.

Lemma request_create_errs r : tx_errs no_refusal (tprim (request_create r)).
Proof. apply tx_errs_prim. unfold request_create, violation. constraint_errors. Qed.

Lemma event_create_errs e : tx_errs no_refusal (tprim (event_create e)).
Proof. apply tx_errs_prim. unfold event_create, violation. constraint_errors. Qed.

Lemma fresh_id_errs p : tx_errs no_refusal (fresh_id ulid p).
Proof. intros s e H. discriminate H. Qed.

Lemma audit_errs a act k ch t : tx_errs no_refusal (audit ulid a act k ch t).
Proof. unfold audit. walk_errs. apply fresh_id_errs. Qed.

Lemma enqueue_errs q d t : tx_errs no_refusal (enqueue jobId q d t).
Proof. unfold enqueue. walk_errs. Qed.

Lemma next_sequence_errs k : tx_errs no_refusal (next_sequence k).
Proof. unfold next_sequence. walk_errs. by apply tx_errs_throw. Qed.

#[local] Hint Resolve case_update_errs request_create_errs event_create_errs fresh_id_errs audit_errs enqueue_errs
  next_sequence_errs : vista.

Lemma event_errs i : tx_errs no_refusal (event ulid i).
Proof. unfold event, appendIntakeCaseEvent, appendWithWorkflow. walk_errs. by apply tx_errs_throw. Qed.

#[local] Hint Resolve event_errs : vista.

Lemma toCents_errs v e : toCents v = Err e → no_refusal e.
Proof.
  unfold toCents, JsString.BigInt. destruct (split_point _ _) as [a b]. simpl.
  repeat (case_match; simpl; try discriminate); intros [= <-]; reflexivity.
Qed.

(** ** The transactions, in a state their guards let through *)

Lemma bind_read {A B} (f : intake → A) (g : A → txn intake B) s : tbind (tread f) g s = g (f s) s.
Proof. done. Qed.

(** What is left of the transaction throws no refusal in any state. *)
Ltac errs_here :=
  lazymatch goal with
  | |- ?t ?s = Err ?e → _ =>
      let X := fresh in assert (tx_errs no_refusal t) as X by walk_errs; exact (X s e)
  end.

Lemma closeCase_found input s c s' : get_case (cc_caseId input) s = Some c → closeCase ulid input s ≠ Ok (None, s').
Proof.
  intros Hc. unfold closeCase. rewrite bind_read, Hc. found_here.
Qed.

Lemma assign_found input s c s' : get_case (ap_caseId input) s = Some c → assignPartnerOrganization ulid input s ≠ Ok (None, s').
Proof.
  intros Hc. unfold assignPartnerOrganization. rewrite bind_read, Hc. found_here.
Qed.

Lemma decision_found input t s c s' : get_case (fd_caseId input) s = Some c → recordFounderDecision ulid jobId input t s ≠ Ok (None, s').
Proof.
  intros Hc. unfold recordFounderDecision. rewrite bind_read, Hc. found_here.
Qed.

Lemma publish_found input t s c s' : get_case (pr_caseId input) s = Some c → publishInformationRequest ulid input t s ≠ Ok (None, s').
Proof.
  intros Hc. unfold publishInformationRequest. rewrite bind_read, Hc, bind_read. found_here.
Qed.

Lemma closeCase_errs input s c e : get_case (cc_caseId input) s = Some c →
  IntakeCase.stage c ∈ closable_from (cc_outcome input) → closeCase ulid input s = Err e → no_refusal e.
Proof.
  intros Hc Hs. unfold closeCase. rewrite bind_read, Hc, bool_decide_eq_true_2 by done. cbn [negb]. errs_here.
Qed.

Lemma assign_errs input s c e : get_case (ap_caseId input) s = Some c →
  canAssignPartnerOrganization (IntakeCase.stage c) = true → assignPartnerOrganization ulid input s = Err e → no_refusal e.
Proof.
  intros Hc Hs. unfold assignPartnerOrganization. rewrite bind_read, Hc.
  assert (negb (bool_decide (IntakeCase.stage c = post_ipo_structuring)) &&
          negb (bool_decide (IntakeCase.stage c = approved_for_final_offering)) = false) as ->
    by (by destruct (IntakeCase.stage c)).
  errs_here.
Qed.

Lemma decide_row_errs d s e : @tlift intake _ (decide_row d) s = Err e → no_refusal e.
Proof.
  apply tx_errs_lift. intros e'. unfold decide_row. destruct (fd_decision d); [|done].
  destruct (toCents _) eqn:E; simpl; [done|]. intros [= <-]. by eapply toCents_errs.
Qed.

Lemma decision_errs input t s c e : get_case (fd_caseId input) s = Some c → IntakeCase.stage c = submitted →
  is_set (IntakeCase.currentSubmissionRevisionId c) = true →
  recordFounderDecision ulid jobId input t s = Err e → no_refusal e.
Proof.
  intros Hc Hs Hr. unfold recordFounderDecision. rewrite bind_read, Hc, bool_decide_eq_true_2 by done.
  destruct (IntakeCase.currentSubmissionRevisionId c); [|done].
  assert (tx_errs no_refusal (@tlift intake _ (decide_row input))) by (intros ? ?; apply decide_row_errs).
  errs_here.
Qed.

Lemma publish_errs input t s c e : get_case (pr_caseId input) s = Some c → IntakeCase.stage c = submitted →
  is_set (IntakeCase.currentSubmissionRevisionId c) = true → published_request (pr_caseId input) s = None →
  publishInformationRequest ulid input t s = Err e → no_refusal e.
Proof.
  intros Hc Hs Hr Hp. unfold publishInformationRequest.
  rewrite bind_read, Hc, bind_read, Hp, bool_decide_eq_true_2, Hr by done. cbn [negb orb is_set]. errs_here.
Qed.

Lemma structure_errs k tr t s c e : get_case k s = Some c → IntakeCase.stage c = pre_offering_open →
  transitionToPostIpoStructuring ulid k tr t s = Err e → no_refusal e.
Proof. intros Hc Hs. unfold transitionToPostIpoStructuring. rewrite bind_read, Hc, Hs. errs_here. Qed.

(** ** The services *)

(** The service succeeds, unless one of the incidents above interrupts it. *)
Definition accepted {A} (m : io intake A) (s : intake) : Prop :=
  match fst (m s) with Ok _ => True | Err e => no_refusal e end.

Lemma accepted_mapping {A} (t : txn intake (option A)) s : (∀ s', t s ≠ Ok (None, s')) → (∀ e, t s = Err e → no_refusal e) →
  accepted (mapping CaseReviewConflictError reviewConflictError
    (await x := transaction t in found_or case_not_found x)) s.
Proof.
  intros Hn H. unfold accepted, mapping, iocatch, iobind, transaction. destruct (t s) as [[[a|] s']|e] eqn:E; simpl.
  - done.
  - by destruct (Hn s').
  - specialize (H e eq_refl). case_bool_decide as Eq; [by subst e|]. exact H.
Qed.

(** An offered action is accepted; any other is refused and changes nothing. *)
Definition agrees {A} (offered : Prop) (m : io intake A) (s : intake) : Prop :=
  (offered → accepted m s) ∧ (¬ offered → ∃ e, m s = (Err e, s)).

Lemma close_agrees k s c a tr n outcome t : get_case k s = Some c →
  agrees (canCloseCase (IntakeCase.stage c) (closure_outcome outcome) = true) (CloseCase_execute ulid a k tr n outcome t) s.
Proof.
  intros Hc. unfold CloseCase_execute, read, query, found_or, getCaseForOperations. split.
  - intros H. unfold accepted, iobind at 1 2. rewrite Hc. cbn -[canCloseCase mapping]. rewrite H. cbn [negb].
    apply accepted_mapping; [intros s'; by apply (closeCase_found _ _ c)|]. intros e. apply (closeCase_errs _ _ c); [done|].
    apply (bool_decide_eq_true_1 _). revert H. simpl. by destruct (IntakeCase.stage c), outcome.
  - intros H%not_true_is_false. exists reviewConflictError. unfold iobind at 1 2. rewrite Hc.
    cbn -[canCloseCase mapping]. by rewrite H.
Qed.

(** The organization the request names, if it names one, exists and is active. *)
Definition named_active (k : OrganizationKind) (o : option string) (s : intake) : Prop :=
  ∀ i, o = Some i → ∃ g, getOrganizationById k i s = Some g ∧ Organization.status g = Organization.active.

Lemma check_accepted k o s : named_active k o s → accepted (check_organization k o) s ∧ snd (check_organization k o s) = s.
Proof.
  intros H. unfold accepted, check_organization. destruct o as [i|]; [|done]. destruct (H i eq_refl) as (g & Hg & Ha).
  unfold iobind, read, query, found_or. rewrite Hg. simpl. by rewrite bool_decide_eq_true_2.
Qed.

(** A check, then the rest. *)
Lemma accepted_seq {A} (m : io intake unit) (n : io intake A) s :
  accepted m s → snd (m s) = s → accepted n s → accepted (await _ := m in n) s.
Proof.
  unfold accepted, iobind. destruct (m s) as [[]  s1]; simpl; [by intros _ -> | done].
Qed.

Lemma assign_agrees k s c a tr l f t : get_case k s = Some c →
  named_active legal_practice l s → named_active appraisal_firm f s →
  agrees (canAssignPartnerOrganization (IntakeCase.stage c) = true) (AssignPartnerOrganization_execute ulid k a tr l f t) s.
Proof.
  intros Hc Hl Hf. unfold AssignPartnerOrganization_execute, getCasePartnerAssignment. split.
  - intros H. unfold accepted, iobind at 1 2, read, query, found_or at 1. rewrite Hc.
    cbn -[canAssignPartnerOrganization mapping iobind]. rewrite H. cbn [negb].
    destruct (check_accepted legal_practice l s Hl). apply accepted_seq; [done..|].
    destruct (check_accepted appraisal_firm f s Hf). apply accepted_seq; [done..|].
    apply accepted_mapping; [intros s'; by apply (assign_found _ _ c)|]. intros e. by apply (assign_errs _ _ c).
  - intros H%not_true_is_false. exists reviewConflictError. unfold iobind at 1 2, read, query, found_or at 1. rewrite Hc.
    cbn -[canAssignPartnerOrganization mapping iobind]. by rewrite H.
Qed.

Lemma revision_set s c : is_set (current_revision s c) = true → is_set (IntakeCase.currentSubmissionRevisionId c) = true.
Proof. unfold current_revision. by destruct (IntakeCase.currentSubmissionRevisionId c). Qed.

Lemma decision_agrees k s c a tr b t1 t2 : get_case k s = Some c →
  agrees (canRecordFounderDecision (IntakeCase.stage c) (is_set (current_revision s c)) = true)
    (RecordFounderDecision_execute ulid jobId a k tr b t1 t2) s.
Proof.
  intros Hc. unfold RecordFounderDecision_execute, getCaseForOperations.
  assert (is_set (oc_currentRevision (toOwnedCase s c)) = is_set (current_revision s c)) as E
    by (simpl; by destruct (current_revision s c)).
  split.
  - intros H. unfold accepted, iobind at 1 2, read, query, found_or at 1. rewrite Hc.
    cbn -[canRecordFounderDecision mapping iobind toOwnedCase]. rewrite E.
    change (oc_stage (toOwnedCase s c)) with (IntakeCase.stage c). rewrite H. cbn [negb].
    apply andb_true_iff in H as [Hs Hr]. boolify.
    apply accepted_mapping; [intros s'; apply (decision_found _ _ _ c); by destruct b|]. intros e.
    apply (decision_errs _ _ _ c); [by destruct b | done | by apply (revision_set s)].
  - intros H%not_true_is_false. exists reviewConflictError. unfold iobind at 1 2, read, query, found_or at 1. rewrite Hc.
    cbn -[canRecordFounderDecision mapping iobind toOwnedCase]. rewrite E.
    change (oc_stage (toOwnedCase s c)) with (IntakeCase.stage c). by rewrite H.
Qed.

(** A submitted case has no open request. *)
Lemma no_open_request k s c : good s → get_case k s = Some c → IntakeCase.stage c = submitted →
  ∀ r, In r (requests s) → InformationRequest.caseId r = k → is_published r = false.
Proof.
  intros G Hc Hs r Hr Hk. pose proof (co_requests _ _ _ (good_case _ _ _ G Hc)) as H. simpl in H. rewrite Hs in H.
  unfold requests_match, published_count in H. apply length_zero_iff_nil in H.
  destruct (is_published r) eqn:E; [|done].
  assert (In (request_view r) (List.filter (λ q, bool_decide (q.2 = published))
    (map request_view (List.filter (by_id InformationRequest.caseId k) (requests s))))) as X; [|by rewrite H in X].
  apply filter_In. split; [|done]. apply in_map, filter_In. split; [done|]. rewrite <- Hk. apply by_id_eq.
Qed.

Lemma window_errs s e : getApplicantResponseWindowBusinessDays s = Err e → no_refusal e.
Proof.
  unfold getApplicantResponseWindowBusinessDays, setting, parse_window. destruct (find_row _ _) as [kv|]; simpl.
  - destruct (_ ≫= _); [done|]. by intros [= <-].
  - by intros [= <-].
Qed.

Lemma business_days_errs a b e : addBusinessDays a b = Err e → no_refusal e.
Proof. unfold addBusinessDays. by repeat (case_match; try done); intros [= <-]. Qed.

Lemma agrees_eq {A} o (m m' : io intake A) s : m s = m' s → agrees o m' s → agrees o m s.
Proof. unfold agrees, accepted. by intros ->. Qed.

Lemma accepted_lift {A B} (x : result A) (m : A → io intake B) s :
  (∀ e, x = Err e → no_refusal e) → (∀ a, accepted (m a) s) → accepted (await a := lift x in m a) s.
Proof. intros He Ha. unfold accepted, iobind, lift. destruct x as [a|e]; [apply Ha | by apply He]. Qed.

Lemma request_agrees k s c a tr b t1 t2 : good s → get_case k s = Some c →
  agrees (canRecordFounderDecision (IntakeCase.stage c) (is_set (current_revision s c)) = true)
    (PublishInformationRequest_execute ulid a k tr b t1 t2) s.
Proof.
  intros G Hc.
  destruct (getApplicantResponseWindowBusinessDays s) as [days|e] eqn:Ew.
  2:{ assert (PublishInformationRequest_execute ulid a k tr b t1 t2 s = (Err e, s)) as E
        by (unfold PublishInformationRequest_execute, iobind, read, query; simpl; by rewrite Ew).
      split; [intros _; unfold accepted; rewrite E; by apply (window_errs s) | intros _; by exists e]. }
  set (open_ := existsb request_is_published (od_informationRequests (toOperationsCase s c))).
  eapply agrees_eq.
  { unfold PublishInformationRequest_execute, getCaseForOperations.
    unfold iobind at 1, read, query at 1. rewrite Hc. cbn [fmap option_fmap option_map].
    unfold iobind at 1, query at 1. rewrite Ew. unfold iobind at 1, found_or at 1. cbn [ret].
    reflexivity. }
  fold open_. change (oc_stage (od_owned (toOperationsCase s c))) with (IntakeCase.stage c).
  assert (is_set (oc_currentRevision (od_owned (toOperationsCase s c))) = is_set (current_revision s c)) as ->
    by (simpl; by destruct (current_revision s c)).
  unfold canRecordFounderDecision, evaluateInformationRequestPublication.
  destruct (bool_decide (IntakeCase.stage c = submitted)) eqn:Es; [|split; [done|by exists reviewConflictError]].
  destruct (is_set (current_revision s c)) eqn:Er; [|split; [done|by exists reviewConflictError]].
  boolify. pose proof (no_open_request _ _ _ G Hc Es) as No.
  assert (open_ = false) as ->.
  { apply not_true_is_false. intros (r & (q & <- & Hq)%in_map_iff & Hp)%existsb_exists.
    unfold requests_of, found in Hq. apply in_order_by, filter_In in Hq as [Hq [Hk _]%andb_true_iff].
    unfold by_id in Hk. boolify. destruct (get_case_in _ _ _ Hc) as [_ Hid]. pose proof (No q Hq (eq_trans Hk Hid)) as Hn. unfold is_published in Hn.
    unfold request_is_published in Hp. simpl in Hp. congruence. }
  split; [intros _ | done]. cbn [negb]. apply accepted_lift; [apply business_days_errs|]. intros due.
  apply accepted_mapping; [intros s'; by apply (publish_found _ _ _ c)|]. intros e. apply (publish_errs _ _ _ c); try done; [by apply (revision_set s)|].
  apply find_row_None. intros r Hr. unfold published_of_case. simpl.
  case_bool_decide; [|done]. simpl. by apply No.
Qed.

Lemma retry_accepted k tr t s c : get_case k s = Some c → IntakeCase.stage c = pre_offering_open →
  is_set (linked_offering (IntakeCase.id c) (base s) ≫= Offering.finalOfferingPublishedAt) = true →
  JsString.trim k = k → accepted (RetryPostIpoStructuringHandoff_execute ulid k tr t) s.
Proof.
  intros Hc Hs Hp Hk. unfold RetryPostIpoStructuringHandoff_execute, getCaseForOperations.
  unfold accepted, iobind at 1 2, read, query, found_or. rewrite Hc. cbn [fmap option_fmap option_map ret od_offering toOperationsCase].
  destruct (linked_offering _ _) as [o|]; [|done]. simpl in Hp |- *. destruct (Offering.finalOfferingPublishedAt o); [|done].
  unfold TransitionCaseToPostIpoStructuring_execute, handoff_payload. rewrite Hk.
  unfold iobind, lift. destruct (_ || _); simpl; [done|]. unfold transaction.
  destruct (transitionToPostIpoStructuring _ _ _ _ _) as [[? ?]|e] eqn:E; [done|]. simpl.
  by apply (structure_errs _ _ _ _ _ _ Hc Hs E).
Qed.

End Errors.

(** ** Funding, on whole euros *)

Lemma sum_exact es : ∀ acc, 0 ≤ acc → Forall (λ x, 0 ≤ x) es → small (acc + sumZ es) →
  fold_left (λ n a, plus n (of_cents a)) (map (Z.mul 100) es) (exactly acc) = exactly (acc + sumZ es).
Proof.
  induction es as [|e es IH]; intros acc Ha Hf Hs; simpl in *; [by rewrite Z.add_0_r|].
  apply Forall_cons_1 in Hf as [He Hf]. pose proof (sumZ_nonneg es Hf).
  assert (small e) by (unfold small in *; lia).
  rewrite JsNumber.of_cents_euros, JsNumber.plus_exact by (try done; unfold small in *; lia).
  rewrite IH by (try done; try lia; by rewrite <- Z.add_assoc). f_equal. lia.
Qed.

(** The readiness sum runs over the rows publishFinalOfferingTerms sums. *)
Lemma funded_rows_total b off : (∀ e, In e (moneyEvents b) → 0 < MoneyEvent.amountEur e) → ∀ acc,
  fold_left (λ n r, plus n (latest_amount r))
    (List.filter is_funded (map (reservation_snapshot b) (List.filter (OfferingRepo.of_offering off) (reservations b)))) acc =
  fold_left (λ n a, plus n (of_cents a)) (OfferingRepo.funded_rows off b) acc.
Proof.
  intros Hm. unfold OfferingRepo.funded_rows.
  induction (List.filter (OfferingRepo.of_offering off) (reservations b)) as [|r l IH]; intros acc; [done|].
  cbn [map List.filter omap list_omap]. unfold is_funded at 1, reservation_snapshot at 1. cbn [rs_latestCapitalState].
  destruct (latest_money (Reservation.id r) b) as [e|] eqn:El; cbn [fmap option_fmap option_map]; [|exact (IH acc)].
  destruct (isReservationFunded (Some (MoneyEvent.capitalState e))) eqn:Ef; [|exact (IH acc)].
  cbn [fold_left]. unfold latest_amount at 2, reservation_snapshot at 2. rewrite El. cbn.
  rewrite JsNumber.Number_numeric2; [apply IH|]. apply Z.lt_le_incl, Hm.
  by apply OfferingSteps.latest_money_in in El as [? _].
Qed.

Lemma funded_rows_of_positive b off : (∀ e, In e (moneyEvents b) → 0 < MoneyEvent.amountEur e) →
  Forall (λ x, 0 ≤ x) (OfferingRepo.funded_rows off b).
Proof.
  intros Hm. apply List.Forall_forall. intros x Hx. unfold OfferingRepo.funded_rows in Hx.
  apply list_elem_of_In, list_elem_of_omap in Hx as (r & _ & Hx).
  destruct (latest_money _ b) as [e|] eqn:El; [|done]. apply OfferingSteps.latest_money_in in El as [El _].
  destruct (isReservationFunded _); [|done]. injection Hx as <-. apply Hm in El. lia.
Qed.

(** ** The linked offering and its pack *)

Lemma in_sorted {A} (f : A → A → bool) y l : In y (order_by f l) ↔ In y l.
Proof.
  assert (∀ x l, In y (insert_by f x l) ↔ y = x ∨ In y l) as Hi.
  { intros x l'. induction l' as [|z l' IH]; simpl; [naive_solver|]. destruct (f z x); simpl; rewrite ?IH; naive_solver. }
  induction l as [|x l IH]; simpl; [done|]. rewrite Hi, IH. naive_solver.
Qed.

Lemma linked_offering_in k b o : linked_offering k b = Some o →
  In o (offerings b) ∧ ∃ p, In p (pivs b) ∧ Piv.id p = Offering.pivId o ∧ Piv.caseId p = k.
Proof.
  unfold linked_offering, latest_piv. intros (p & Hp & Ho)%bind_Some.
  apply head_Some_elem_of, list_elem_of_In, in_sorted, filter_In in Hp as [Hp Hk].
  apply head_Some_elem_of in Ho. unfold findMany in Ho.
  apply (subseteq_take 1), list_elem_of_In, in_sorted, filter_In in Ho as [Ho Hi%andb_true_iff].
  destruct Hi as [Hi _]. unfold by_id in *. boolify. eauto.
Qed.

Lemma find_offering_in b o : List.NoDup (map Offering.id (offerings b)) → In o (offerings b) →
  find_offering (Offering.id o) b = Some o.
Proof.
  intros N Ho. unfold find_offering. destruct (find_row _ (offerings b)) as [q|] eqn:E.
  - apply find_row_Some in E as [Hq E]. unfold id_is in E. boolify. f_equal. by apply (NoDup_map_inj_in _ _ _ _ N).
  - rewrite find_row_None in E. specialize (E o Ho). unfold id_is in E. by rewrite bool_decide_eq_true_2 in E.
Qed.

Lemma latest_pack_current off b : OfferingPacks.packs_ok b → latest_pack off b = current_pack off b.
Proof.
  intros P. unfold latest_pack, current_pack, find_row. rewrite OfferingPacks.filter_current.
  destruct (OfferingPacks.history_current off 0 (OfferingPacks.packs_of off b)) as [[_ ->]|(l0 & c & _ & -> & _)]; [apply P| |done..].
  intros p Hp. apply filter_In in Hp. tauto.
Qed.

Lemma documentType_text_inj a b : OfferingRepo.documentType_text a = OfferingRepo.documentType_text b → a = b.
Proof. destruct a, b; (done || discriminate). Qed.

Lemma requiredDisclosure_all : requiredDisclosure = map OfferingRepo.documentType_text disclosureDocumentTypes.
Proof. done. Qed.

Lemma missing_none l : List.filter (λ t, negb (includes (map OfferingRepo.documentType_text l) t)) requiredDisclosure = [] ↔
  isCompleteDisclosurePack l = true.
Proof.
  rewrite requiredDisclosure_all. unfold isCompleteDisclosurePack. rewrite forallb_forall. split.
  - intros H d Hd. destruct (existsb _ l) eqn:E; [done|].
    assert (In (OfferingRepo.documentType_text d) []) as []. rewrite <- H. apply filter_In. split; [by apply in_map|].
    apply negb_true_iff, not_true_is_false. intros (t & (d' & <- & Hd')%in_map_iff & Ht)%existsb_exists.
    apply String.eqb_eq, documentType_text_inj in Ht as ->.
    apply not_true_iff_false in E. apply E, existsb_exists. exists d'. split; [done|]. by apply bool_decide_eq_true_2.
  - intros H. apply filter_nil. intros t (d & <- & Hd)%in_map_iff. apply negb_false_iff, existsb_exists.
    specialize (H d Hd). apply existsb_exists in H as (d' & Hd' & E). boolify. subst d'.
    exists (OfferingRepo.documentType_text d). split; [by apply in_map | apply String.eqb_refl].
Qed.


Lemma pack_complete s c o : OfferingPacks.packs_ok (base s) → linked_offering (IntakeCase.id c) (base s) = Some o →
  is_set (disclosure_pack (case_snapshot s c)) = true → missingDisclosure (case_snapshot s c) = [] →
  isCompleteDisclosurePack (OfferingRepo.current_document_types (Offering.id o) (base s)) = true.
Proof.
  intros P Hl Hpk Hmd.
  assert (disclosure_pack (case_snapshot s c) = pack_snapshot <$> current_pack (Offering.id o) (base s)) as E.
  { unfold disclosure_pack, case_snapshot. cbn [sn_offering]. rewrite Hl. simpl. by rewrite (latest_pack_current _ _ P). }
  unfold missingDisclosure, packTypes in Hmd. rewrite E in Hmd, Hpk. unfold OfferingRepo.current_document_types.
  destruct (current_pack (Offering.id o) (base s)) as [pk|]; [|done].
  apply missing_none. rewrite map_map. exact Hmd.
Qed.

(** ** What the blockers say *)

Definition codes (l : list Blocker) : list Code := map bk_code l.

Lemma codes_add g c sev acts m md : codes (add g c sev acts m md) = push_if g c.
Proof. by destruct g. Qed.

Lemma codes_app l1 l2 : codes (l1 ++ l2) = codes l1 ++ codes l2.
Proof. apply map_app. Qed.

Lemma funding_code sn now : In funding_target_not_reached (codes (blockers sn now)) ↔
  has_offering sn && less (funded sn) (target sn) = true.
Proof.
  unfold blockers, case_blockers, offering_blockers, structuring_blockers.
  rewrite !codes_app, !codes_add, !in_app_iff, !in_push_if.
  split; [|intros H; right; left; do 3 right; left; by split].
  destruct (structuring sn); [rewrite !codes_app, !codes_add, !in_app_iff, !in_push_if|];
  intros H; repeat match type of H with
  | _ ∨ _ => destruct H as [H|H]
  | _ ∧ _ => let H' := fresh in destruct H as [H' H]
  end; try discriminate; done.
Qed.

Lemma offered_final_terms sn now : In publish_final_offering_terms (allowed sn now) →
  offering_is_pre sn = true ∧ is_set (sn_offering sn ≫= of_finalOfferingPublishedAt) = false ∧
  is_set (disclosure_pack sn) = true ∧ missingDisclosure sn = [] ∧ less (funded sn) (target sn) = false.
Proof.
  rewrite in_allowed, in_actions. intros [[_ Ha] Hb].
  assert (offering_is_pre sn = true) as Hpre by naive_solver.
  assert (has_offering sn = true) as Ho by (unfold has_offering, offering_is_pre in *; by destruct (sn_offering sn)).
  rewrite blocked_eq in Hb. rewrite Ho in Hb. split; [done|].
  assert (∀ b, (b = true → False) → b = false) as F by (by intros []; naive_solver).
  split_and!.
  - apply F. intros E. apply Hb. do 5 right. left. split; [done|]. by left.
  - destruct (is_set (disclosure_pack sn)) eqn:E; [done|]. exfalso. apply Hb. do 4 right. left. split; [by left|done].
  - destruct (bool_decide (missingDisclosure sn = [])) eqn:E; [by boolify|]. exfalso.
    destruct (is_set (disclosure_pack sn)) eqn:E2; apply Hb; do 4 right; left; split; try done; tauto.
  - apply F. intros E. apply Hb. do 4 right. left. split; [|done]. do 2 right. left. by rewrite E.
Qed.

(** The target and every payment are whole euros, and their sums stay below 2^53 euros. *)
Record whole_euros (o : Offering.t) (b : db) (t : Z) (es : list Z) : Prop := {
  we_target : Offering.targetRaiseEur o = 100 * t;
  we_target_small : small t;
  we_rows : OfferingRepo.funded_rows (Offering.id o) b = map (Z.mul 100) es;
  we_sum_small : small (sumZ es) }.

Lemma funding_exact s c o t es : OfferingInv.wf (base s) → linked_offering (IntakeCase.id c) (base s) = Some o →
  whole_euros o (base s) t es →
  funded (case_snapshot s c) = exactly (sumZ es) ∧ target (case_snapshot s c) = exactly t.
Proof.
  intros W Hl [Ht Hts Hr Hs].
  pose proof (funded_rows_of_positive (base s) (Offering.id o) (OfferingInv.wf_money _ W)) as Hn. rewrite Hr in Hn.
  unfold funded, target, total, reservation_list. simpl. rewrite Hl. simpl.
  rewrite (funded_rows_total _ _ (OfferingInv.wf_money _ W)), Hr. split.
  - apply (sum_exact es 0); [done| |done]. clear -Hn. induction es; constructor; inversion Hn; [lia | auto].
  - rewrite Ht, JsNumber.Number_numeric2 by (unfold small in Hts; lia). by apply JsNumber.of_cents_euros.
Qed.

Section Theorems.
Context (ulid : nat → string) (jobId : nat → option string).
Notation ireachable := (ireachable ulid jobId).

Lemma readiness_of s k now r s' : GetOperationsReadiness_execute k now s = (Ok r, s') →
  ∃ c, get_case k s = Some c ∧ r = evaluateOperationsReadiness (case_snapshot s c) now ∧ s' = s.
Proof.
  unfold GetOperationsReadiness_execute, getOperationsReadiness, read, query, found_or, iobind.
  destruct (get_case k s) as [c|]; simpl; [|done]. intros [= <- <-]. by exists c.
Qed.

(** C19: The readiness answer tells the truth about what the services will do: asking for it changes
    nothing, and it offers no action exactly for a terminal case.  Withdrawing the case (what the
    closing action offers; rejecting it by closing is for an open pre-offering only), assigning
    existing, active partners, deciding and asking for information succeed when it offers them and are
    refused, with nothing written, when it does not; an offered retry of the post-IPO handoff
    succeeds.  To succeed is to return, unless a database constraint, a missing setting or a
    malformed amount, duration or payload interrupts the service: no error answer is possible. *)
Theorem offered_actions_are_accepted s k now r s' :
  ireachable s → JsString.trim k = k → GetOperationsReadiness_execute k now s = (Ok r, s') →
  let offered a := In a (rd_allowed_next_actions r) in
  s' = s ∧
  (rd_allowed_next_actions r = [] ↔ rd_stage r ∈ [rejected; withdrawn; expired]) ∧
  (∀ a tr n t, agrees (offered close_case) (CloseCase_execute ulid a k tr n outcome_withdrawn t) s) ∧
  (∀ a tr n x y t, agrees (rd_stage r = pre_offering_open) (CloseCase_execute ulid a k tr n (outcome_rejected x y) t) s) ∧
  (∀ a tr p f t, named_active legal_practice p s → named_active appraisal_firm f s →
     agrees (offered assign_partner) (AssignPartnerOrganization_execute ulid k a tr p f t) s) ∧
  (∀ a tr b t1 t2, agrees (offered record_founder_decision) (RecordFounderDecision_execute ulid jobId a k tr b t1 t2) s) ∧
  (∀ a tr b t1 t2, agrees (offered request_information) (PublishInformationRequest_execute ulid a k tr b t1 t2) s) ∧
  (offered retry_post_ipo_handoff → ∀ tr t, accepted (RetryPostIpoStructuringHandoff_execute ulid k tr t) s).
Proof.
  intros R Hk H offered. pose proof (ireachable_good _ _ _ R) as G.
  apply readiness_of in H as (c & Hc & -> & ->).
  unfold offered, evaluateOperationsReadiness. cbn [rd_allowed_next_actions rd_stage].
  set (sn := case_snapshot s c).
  assert (∀ A (P Q : Prop) (m : io intake A), (P ↔ Q) → agrees Q m s → agrees P m s) as Hw
    by (unfold agrees; intros A P Q m HPQ; rewrite HPQ; done).
  assert (under_review sn = canRecordFounderDecision (IntakeCase.stage c) (is_set (current_revision s c))) as Er
    by (unfold under_review; simpl; by destruct (current_revision s c)).
  split_and!; [done|..].
  - rewrite offered_nothing. unfold terminal. apply bool_decide_eq_true.
  - intros. eapply Hw; [apply offered_close | by apply (close_agrees ulid _ _ c _ _ _ outcome_withdrawn)].
  - intros. eapply Hw; [|by apply (close_agrees ulid _ _ c _ _ _ (outcome_rejected x y))]. simpl. by destruct (IntakeCase.stage c).
  - intros. eapply Hw; [apply offered_assign | by apply assign_agrees].
  - intros. eapply Hw; [apply offered_review; tauto | rewrite Er; by apply decision_agrees].
  - intros. eapply Hw; [apply offered_review; tauto | rewrite Er; by apply request_agrees].
  - intros Hp%offered_retry tr t. unfold handoffPending in Hp. apply andb_true_iff in Hp as [Hs Hp]. boolify.
    apply (retry_accepted _ _ _ _ _ c); try done. simpl in Hp. by destruct (linked_offering _ _).
Qed.

(** On whole euros the readiness answer is exact: it prints the sum of the paid reservations to
    the cent, reports that the target is not reached exactly when publishFinalOfferingTerms
    would, and whenever it offers the publication of the final terms the transaction does not
    refuse it. *)
Theorem readiness_exact_on_whole_euros s k now r s' c o t es :
  OfferingInv.wf (base s) → OfferingPacks.packs_ok (base s) →
  GetOperationsReadiness_execute k now s = (Ok r, s') → get_case k s = Some c →
  linked_offering (IntakeCase.id c) (base s) = Some o → whole_euros o (base s) t es →
  (∃ f, rd_funding r = Some f ∧ fd_funded_eur f = numeric2_text (sumZ (OfferingRepo.funded_rows (Offering.id o) (base s)))) ∧
  (In funding_target_not_reached (codes (map bd_blocker (rd_blockers r))) ↔
   canPublishFinalOfferingTerms pre_offering None (numeric2_text (Offering.targetRaiseEur o))
     (coalesce_sum_text (OfferingRepo.funded_rows (Offering.id o) (base s))) = Ok false) ∧
  (In publish_final_offering_terms (rd_allowed_next_actions r) →
   ∀ input refusal b', OfferingRepo.pi_offeringId input = Offering.id o →
     OfferingRepo.publishFinalOfferingTerms ulid input (base s) ≠ Ok (inr refusal, b')).
Proof.
  intros W P H Hc Hl We. apply readiness_of in H as (c' & Hc' & -> & ->).
  assert (c' = c) as -> by congruence. destruct (funding_exact _ _ _ _ _ W Hl We) as [Hf Ht].
  destruct We as [Et Hts Er Hs]. set (sn := case_snapshot s c) in *.
  pose proof (funded_rows_of_positive (base s) (Offering.id o) (OfferingInv.wf_money _ W)) as Hn.
  assert (sumZ (OfferingRepo.funded_rows (Offering.id o) (base s)) = 100 * sumZ es) as Esum.
  { rewrite Er. clear. induction es as [|e es IH]; simpl; [done|]. rewrite IH. lia. }
  assert (less (funded sn) (target sn) = (sumZ es <? t)) as Eless by (by rewrite Hf, Ht, JsNumber.less_exact).
  assert (0 ≤ t) as Ht0 by (unfold small in Hts; lia).
  split_and!.
  - exists (funding_data sn (offering_snapshot (base s) o)). split; [unfold sn; simpl; by rewrite Hl|].
    simpl. by rewrite Hf, Esum, JsNumber.toFixed2_exact.
  - simpl. rewrite map_map. simpl. rewrite map_id, funding_code, Eless.
    rewrite canPublish_cents by (done || (rewrite Et; lia)). rewrite !bool_decide_eq_true_2, Esum, Et by done.
    assert (has_offering sn = true) as -> by (unfold has_offering, sn; simpl; by rewrite Hl). simpl.
    rewrite Z.ltb_lt. split; [intros; f_equal; lia | intros [= E]; lia].
  - simpl. intros Ha. apply offered_final_terms in Ha as (Hpre & Hpub & Hpk & Hmd & Hlt).
    intros input refusal b' Hi. unfold OfferingRepo.publishFinalOfferingTerms.
    destruct (linked_offering_in _ _ _ Hl) as (Hin & p & Hp & Hpid & _).
    unfold OfferingRepo.find_offering_with_piv. rewrite Hi, (find_offering_in _ _ (OfferingInv.wf_offering_ids _ W) Hin).
    destruct (find_row _ (pivs (base s))) as [p'|] eqn:Ep.
    2:{ rewrite find_row_None in Ep. specialize (Ep p Hp). unfold id_is in Ep. by rewrite bool_decide_eq_true_2 in Ep. }
    assert (Offering.status o = pre_offering) as Est
      by (unfold offering_is_pre, sn in Hpre; simpl in Hpre; rewrite Hl in Hpre; simpl in Hpre; by boolify).
    assert (Offering.finalOfferingPublishedAt o = None) as Epub
      by (unfold sn in Hpub; simpl in Hpub; rewrite Hl in Hpub; simpl in Hpub; by destruct (Offering.finalOfferingPublishedAt o)).
    rewrite Est, Epub, canPublish_cents by (done || (rewrite Et; lia)). rewrite Eless in Hlt.
    rewrite !bool_decide_eq_true_2, Esum, Et by done.
    assert (100 * t <=? 100 * sumZ es = true) as -> by lia. cbn [negb andb rbind].
    assert (isCompleteDisclosurePack (OfferingRepo.current_document_types (Offering.id o) (base s)) = true) as Hcp.
    { apply (pack_complete s c o); done. }
    rewrite Hcp. cbn [negb]. destruct (OfferingRepo.publish_loop _ _ _ _) as [[[ids n] b1]|e]; [|done].
    cbn [rbind fresh]. discriminate.
Qed.

End Theorems.
(** ** Two funded offerings *)

Definition base_run {A} (t : txn db A) (s : intake) : intake := set_base (OfferingDemo.run t (base s)) s.

Definition demo_offering : string := "offering_26".

Definition pay (rid account amount : string) (t : Z) (s : intake) : intake :=
  base_run (OfferingRepo.recordMoneyEvent IntakeDemo.ulid (OfferingDemo.paid rid amount (t + 1)))
    (base_run (OfferingRepo.createReservation IntakeDemo.ulid
       (OfferingRepo.mkCreateReservationInput rid demo_offering account None amount (Some "1") "trace" t)) s).

Definition pack_all (s : intake) : intake :=
  base_run (OfferingRepo.publishDisclosurePack IntakeDemo.ulid
    (OfferingRepo.mkPublishPackInput demo_offering "founder" (map (λ d, (d, "ref")) disclosureDocumentTypes) "trace" 9000)) s.

Definition final_terms := OfferingRepo.mkPublishInput demo_offering "founder" "ok" "trace" 10000.

(** 60000.00 + 40000.00, and 44899.74 + 34344.31 + 20755.95: both exactly 100000.00 *)
Definition paid_in_euros : intake :=
  pack_all (pay "r_2" "lawyer" "40000.00" 7000 (pay "r_1" "staff" "60000.00" 6000 IntakeDemo.o6)).
Definition paid_in_cents : intake :=
  pack_all (pay "r_3" "appraiser" "20755.95" 8000
    (pay "r_2" "lawyer" "34344.31" 7000 (pay "r_1" "staff" "44899.74" 6000 IntakeDemo.o6))).

Notation demo := (ireachable IntakeDemo.ulid IntakeDemo.jobId).

Definition sound (b : db) : Prop := OfferingInv.wf b ∧ OfferingPacks.packs_ok b.

Lemma sound_step b b' : sound b → OfferingSteps.step IntakeDemo.ulid b b' → sound b'.
Proof.
  intros [W P] H. split; [|by eapply OfferingPacks.step_packs].
  eapply OfferingInv.effect_wf; [done|]. by eapply OfferingSteps.step_effect.
Qed.

Lemma sound_empty b : reservations b = [] → offerings b = [] → moneyEvents b = [] → disclosurePacks b = [] → sound b.
Proof.
  intros E1 E2 E3 E4. split; split; unfold OfferingPacks.packs_of; rewrite ?E1, ?E2, ?E3, ?E4; try done; try constructor.
Qed.

Definition settled (s : intake) : Prop := demo s ∧ sound (base s).

Lemma demo_base {A} (t : txn db A) s : settled s →
  (∀ b a, t (base s) = Ok (a, b) → OfferingSteps.step IntakeDemo.ulid (base s) b ∧ cases b = cases (base s)) →
  is_ok (t (base s)) = true → settled (base_run t s).
Proof.
  intros [R W] Ht Hok. destruct (OfferingDemo.run_ok t (base s) Hok) as [a H].
  destruct (Ht _ _ H) as [H1 H2]. split; [|exact (sound_step _ _ W H1)].
  eapply IntakeDemo.reach_next; [exact R|]. by eapply is_offering.
Qed.

Ltac demo_base ot st :=
  let b := fresh in let a := fresh in let H := fresh in
  intros b a H; split;
  [ try destruct a; by eapply st | eapply IntakeProps.offering_transaction_cases, ot, H ].

Lemma settled_opened : settled IntakeDemo.o6.
Proof.
  apply (demo_base (OfferingRepo.openOfferingForApprovedCase IntakeDemo.ulid IntakeDemo.open_input) IntakeDemo.i5).
  - split; [exact IntakeDemo.reach_i5 | apply sound_empty; vm_compute; reflexivity].
  - demo_base IntakeProps.ot_open OfferingSteps.st_open.
  - vm_compute. reflexivity.
Qed.

Lemma settled_pay rid account amount t s : settled s →
  is_ok (OfferingRepo.createReservation IntakeDemo.ulid
    (OfferingRepo.mkCreateReservationInput rid demo_offering account None amount (Some "1") "trace" t) (base s)) = true →
  is_ok (OfferingRepo.recordMoneyEvent IntakeDemo.ulid (OfferingDemo.paid rid amount (t + 1))
    (base (base_run (OfferingRepo.createReservation IntakeDemo.ulid
       (OfferingRepo.mkCreateReservationInput rid demo_offering account None amount (Some "1") "trace" t)) s))) = true →
  settled (pay rid account amount t s).
Proof.
  intros R H1 H2. unfold pay. apply demo_base; [apply demo_base; [done| |done]| |done].
  - demo_base IntakeProps.ot_create OfferingSteps.st_create.
  - demo_base IntakeProps.ot_money OfferingSteps.st_money.
Qed.

Lemma settled_pack s : settled s →
  is_ok (OfferingRepo.publishDisclosurePack IntakeDemo.ulid
    (OfferingRepo.mkPublishPackInput demo_offering "founder" (map (λ d, (d, "ref")) disclosureDocumentTypes) "trace" 9000) (base s)) = true →
  settled (pack_all s).
Proof.
  intros R H. unfold pack_all. apply demo_base; [done| |done]. demo_base IntakeProps.ot_pack OfferingSteps.st_pack.
Qed.

Lemma settled_in_cents : settled paid_in_cents.
Proof.
  apply settled_pack; [|vm_compute; reflexivity].
  do 3 (apply settled_pay; [|vm_compute; reflexivity..]). exact settled_opened.
Qed.

Lemma settled_in_euros : settled paid_in_euros.
Proof.
  apply settled_pack; [|vm_compute; reflexivity].
  do 2 (apply settled_pay; [|vm_compute; reflexivity..]). exact settled_opened.
Qed.

(** The readiness answer can contradict the database it is read from: in a reachable state where
    the paid reservations add up to the target to the cent and the final terms can be published,
    the sum of doubles falls short of it, so the answer reports the target as not reached, with a
    shortfall of "0.00", and does not offer the publication. *)
Theorem full_funding_reported_short :
  demo paid_in_cents ∧
  sumZ (OfferingRepo.funded_rows demo_offering (base paid_in_cents)) = 10000000 ∧
  (∃ terms b, OfferingRepo.publishFinalOfferingTerms IntakeDemo.ulid final_terms (base paid_in_cents) = Ok (inl terms, b)) ∧
  ∃ r, GetOperationsReadiness_execute "case_1" 10000 paid_in_cents = (Ok r, paid_in_cents) ∧
    ¬ In publish_final_offering_terms (rd_allowed_next_actions r) ∧
    ∃ b, In b (map bd_blocker (rd_blockers r)) ∧ bk_code b = funding_target_not_reached ∧
      bk_metadata b = Some ("shortfall_eur", JStr "0.00").
Proof.
  split; [exact (proj1 settled_in_cents)|]. split; [vm_compute; reflexivity|]. split.
  - destruct (OfferingRepo.publishFinalOfferingTerms IntakeDemo.ulid final_terms (base paid_in_cents))
      as [[[terms|c] b]|e] eqn:E; [by exists terms, b | |]; exfalso;
      assert (match OfferingRepo.publishFinalOfferingTerms IntakeDemo.ulid final_terms (base paid_in_cents) with
              | Ok (inl _, _) => true | _ => false end = true) as X by (vm_compute; reflexivity); by rewrite E in X.
  - set (r := evaluateOperationsReadiness (case_snapshot paid_in_cents (IntakeProps.row "case_1" paid_in_cents)) 10000).
    exists r. split; [|split].
    + unfold GetOperationsReadiness_execute, getOperationsReadiness, iobind, read, query, found_or.
      assert (get_case "case_1" paid_in_cents = Some (IntakeProps.row "case_1" paid_in_cents)) as -> by (vm_compute; reflexivity).
      done.
    + assert (rd_allowed_next_actions r = [review_evidence; publish_disclosure_pack; close_case]) as ->
        by (vm_compute; reflexivity). simpl. naive_solver.
    + assert (map bd_blocker (rd_blockers r) =
        [mkBlocker evidence_pending_review warning [] "Some evidence documents are awaiting review." None;
         mkBlocker funding_target_not_reached blocking [publish_final_offering_terms]
           "The offering has not reached its full funded target." (Some ("shortfall_eur", JStr "0.00"))]) as ->
        by (vm_compute; reflexivity).
      eexists. split; [right; left; reflexivity | done].
Qed.

(** ** Instances *)

Definition readiness_in (s : intake) : Readiness :=
  evaluateOperationsReadiness (case_snapshot s (IntakeProps.row "case_1" s)) 10000.

Lemma readiness_runs s : get_case "case_1" s = Some (IntakeProps.row "case_1" s) →
  GetOperationsReadiness_execute "case_1" 10000 s = (Ok (readiness_in s), s).
Proof.
  intros H. unfold GetOperationsReadiness_execute, getOperationsReadiness, iobind, read, query, found_or. by rewrite H.
Qed.

Lemma offered_actions_are_accepted_witness :
  demo IntakeDemo.i2 ∧
  In record_founder_decision (rd_allowed_next_actions (readiness_in IntakeDemo.i2)) ∧
  accepted (RecordFounderDecision_execute IntakeDemo.ulid IntakeDemo.jobId "founder" "case_1" "trace"
    (body_approve "ok" 30 "100000.00") 10000 10000) IntakeDemo.i2.
Proof.
  split; [exact IntakeDemo.reach_i2|].
  assert (In record_founder_decision (rd_allowed_next_actions (readiness_in IntakeDemo.i2))) as Ho
    by (vm_compute; tauto).
  split; [exact Ho|].
  destruct (offered_actions_are_accepted IntakeDemo.ulid IntakeDemo.jobId IntakeDemo.i2 "case_1" 10000
    (readiness_in IntakeDemo.i2) IntakeDemo.i2 IntakeDemo.reach_i2 ltac:(vm_compute; reflexivity)
    (readiness_runs IntakeDemo.i2 ltac:(vm_compute; reflexivity))) as (_ & _ & _ & _ & _ & H & _).
  exact (proj1 (H _ _ _ _ _) Ho).
Defined.

Lemma readiness_exact_on_whole_euros_witness :
  In publish_final_offering_terms (rd_allowed_next_actions (readiness_in paid_in_euros)) ∧
  ∀ refusal b', OfferingRepo.publishFinalOfferingTerms IntakeDemo.ulid final_terms (base paid_in_euros) ≠ Ok (inr refusal, b').
Proof.
  assert (In publish_final_offering_terms (rd_allowed_next_actions (readiness_in paid_in_euros))) as Ho
    by (vm_compute; tauto).
  split; [exact Ho|].
  set (o := default (OfferingRepo.new_offering "" "" 0 0) (linked_offering "case_1" (base paid_in_euros))).
  destruct (readiness_exact_on_whole_euros IntakeDemo.ulid paid_in_euros "case_1" 10000 (readiness_in paid_in_euros)
    paid_in_euros (IntakeProps.row "case_1" paid_in_euros) o 100000 [60000; 40000]
    (proj1 (proj2 settled_in_euros)) (proj2 (proj2 settled_in_euros))
    (readiness_runs paid_in_euros ltac:(vm_compute; reflexivity)) ltac:(vm_compute; reflexivity) ltac:(vm_compute; reflexivity)
    ltac:(split; vm_compute; first [reflexivity | split; (reflexivity || discriminate)])) as (_ & _ & H).
  intros refusal b'. exact (H Ho final_terms refusal b' ltac:(vm_compute; reflexivity)).
Defined.

End OpsReadinessProps.
