(* ===== verification/IntakeWorkflow.v ===== *)
(** get-intake-workflow.service.ts over prisma-intake.repository.ts's getIntakeWorkflowSnapshot:
    the staff's workflow view of one case, composed with the readiness service.  Dates stay
    numbers; the label tables are kept. *)

From S2P Require Import Prelude JsString Currency DateTime IntakePolicy Db OfferingPolicy OfferingRepo IntakeDb IntakeRepo IntakeReversal IntakeLedger IntakeMachine IntakeInv IntakeDemo IntakeProps Paging IntakeReads IntakeServices JsNumber OpsReadiness OpsReadinessProps.

Module IntakeWorkflow.
Import Currency IntakePolicy IntakeDb IntakeRepo IntakeReversal IntakeLedger IntakeMachine IntakeInv IntakeReads IntakeServices IntakeLabels OpsReadiness OpsReadinessProps.

(** ** The snapshot *)

Record RequestSummary := mkRequestSummary {
  qs_requestId : string; qs_status : RequestStatus; qs_publishedAt : option Z; qs_dueAt : option Z; qs_resolvedAt : option Z }.

Record WorkflowOffering := mkWorkflowOffering {
  wo_offeringId : string; wo_status : OfferingStatus; wo_targetRaiseEur : string; wo_finalOfferingPublishedAt : option Z }.

Record IntakeWorkflowSnapshot := mkWorkflowSnapshot {
  ws_caseId : string; ws_stage : Stage; ws_createdAt : Z; ws_updatedAt : Z; ws_currentRevisionNumber : option Z;
  ws_founder : FounderSnapshot; ws_rejectionReasonCode : option string;
  ws_legalPracticeId : option string; ws_appraisalFirmId : option string;
  ws_legalStructuringCompletedAt : option Z; ws_appraisalCompletedAt : option Z;
  ws_postIpoStructuringCompletedAt : option Z; ws_offering : option WorkflowOffering;
  ws_informationRequests : list RequestSummary }.

Definition request_summary (r : InformationRequest.t) : RequestSummary :=
  mkRequestSummary (InformationRequest.id r) (InformationRequest.status r) (InformationRequest.publishedAt r)
    (InformationRequest.dueAt r) (InformationRequest.resolvedAt r).

Definition workflow_offering (o : Offering.t) : WorkflowOffering :=
  mkWorkflowOffering (Offering.id o) (Offering.status o) (numeric2_text (Offering.targetRaiseEur o))
    (Offering.finalOfferingPublishedAt o).

Definition workflow_snapshot (s : intake) (c : IntakeCase.t) : IntakeWorkflowSnapshot :=
  let review := IntakeCase.review c in
  let ipo := IntakeCase.ipo c in
  let partner := IntakeCase.partner c in
  mkWorkflowSnapshot (IntakeCase.id c) (IntakeCase.stage c) (IntakeCase.createdAt c) (IntakeCase.updatedAt c)
    (Revision.revisionNumber <$> current_revision s c)
    (mkFounder (IntakeCase.reviewedByAccountId review) (IntakeCase.approvedAt review) (IntakeCase.rejectedAt review)
       (IntakeCase.ipoPeriodDays ipo) (numeric2_text <$> IntakeCase.ipoValueEur ipo) (IntakeCase.ipo_endAt ipo))
    (IntakeCase.rejectionReasonCode review)
    (IntakeCase.legalPracticeId partner) (IntakeCase.appraisalFirmId partner)
    (IntakeCase.legalStructuringCompletedAt partner) (IntakeCase.appraisalCompletedAt partner)
    (IntakeCase.postIpoStructuringCompletedAt partner)
    (workflow_offering <$> linked_offering (IntakeCase.id c) (base s))
    (map request_summary (requests_of (IntakeCase.id c) (λ _, true) s)).

Definition getIntakeWorkflowSnapshot (caseId : string) (s : intake) : option IntakeWorkflowSnapshot :=
  workflow_snapshot s <$> get_case caseId s.

(** ** The view *)

(** The part of the view that depends on the workflow. *)
Inductive WorkflowDetails :=
  | details_ipo (reviewedByAccountId : option string) (approvedAt ipoPeriodDays ipoEndAt : option Z)
      (ipoValueEur : option string) (offering : option WorkflowOffering)
  | details_structuring (legalPracticeId appraisalFirmId : option string)
      (legalCompletedAt appraisalCompletedAt completedAt : option Z)
  | details_terminal (rejectedAt : option Z) (rejectionReasonCode : option string)
  | no_details.

Record WorkflowState := mkWorkflowState {
  wst_current_revision_number : option Z; wst_active_information_request : option RequestSummary;
  wst_information_request_count : nat; wst_workflow_type : WorkflowType; wst_details : WorkflowDetails }.

Definition workflowState (sn : IntakeWorkflowSnapshot) (workflowType : WorkflowType) : WorkflowState :=
  let founder := ws_founder sn in
  mkWorkflowState (ws_currentRevisionNumber sn)
    (find_row (λ r, bool_decide (qs_status r = published)) (ws_informationRequests sn))
    (length (ws_informationRequests sn)) workflowType
    match workflowType with
    | IntakePolicy.ipo | IntakePolicy.final_offering =>
        details_ipo (fo_reviewedByAccountId founder) (fo_approvedAt founder) (fo_ipoPeriodDays founder)
          (fo_ipoEndAt founder) (fo_ipoValueEur founder) (ws_offering sn)
    | wf_post_ipo_structuring =>
        details_structuring (ws_legalPracticeId sn) (ws_appraisalFirmId sn) (ws_legalStructuringCompletedAt sn)
          (ws_appraisalCompletedAt sn) (ws_postIpoStructuringCompletedAt sn)
    | IntakePolicy.terminal => details_terminal (fo_rejectedAt founder) (ws_rejectionReasonCode sn)
    | _ => no_details
    end.

Record WorkflowView := mkWorkflowView {
  wv_case_id : string; wv_stage : Stage; wv_stage_label : string; wv_workflow_type : WorkflowType;
  wv_workflow_version : Z; wv_terminal : bool; wv_stage_sequence : list (Stage * string);
  wv_created_at : Z; wv_updated_at : Z; wv_workflow : WorkflowState;
  wv_allowed_actions : list Action; wv_allowed_action_labels : list string; wv_blockers : list BlockerData }.

Definition intakeCaseStageValues : list Stage :=
  [draft; submitted; waiting_on_applicant; pre_offering_open; post_ipo_structuring; approved_for_final_offering;
   rejected; withdrawn; expired].

(** [actionLabels[action] ?? action]; the table is the one of the readiness answer. *)
Definition action_label (action : Action) : string :=
  match find_row (λ kv, bool_decide (kv.1 = action_text action)) intakeActionLabels with
  | Some kv => kv.2
  | None => action_text action
  end.

Definition workflow_view (snapshot : IntakeWorkflowSnapshot) (readiness : option Readiness) : WorkflowView :=
  let workflow := getIntakeWorkflowForStage (ws_stage snapshot) in
  let allowed := match readiness with Some r => rd_allowed_next_actions r | None => [] end in
  mkWorkflowView (ws_caseId snapshot) (ws_stage snapshot) (wf_label workflow) (wf_type workflow) 1 (wf_terminal workflow)
    (map (λ stage, (stage, wf_label (getIntakeWorkflowForStage stage))) intakeCaseStageValues)
    (ws_createdAt snapshot) (ws_updatedAt snapshot) (workflowState snapshot (wf_type workflow))
    allowed (map action_label allowed)
    (match readiness with Some r => rd_blockers r | None => [] end).

(** [readiness] says whether the service was built with the readiness service. *)
Definition GetIntakeWorkflow_execute (readiness : bool) (caseId : string) (now : Z) : io intake WorkflowView :=
  await snapshot := read (getIntakeWorkflowSnapshot caseId) in
  await snapshot := found_or case_not_found snapshot in
  if readiness
  then await r := GetOperationsReadiness_execute caseId now in ret (workflow_view snapshot (Some r))
  else ret (workflow_view snapshot None).

(** ** Properties *)

(** The requests of the view are those of the case. *)
Lemma view_requests s c : ∀ q, In q (ws_informationRequests (workflow_snapshot s c)) ↔
  ∃ r, q = request_summary r ∧ In r (requests s) ∧ InformationRequest.caseId r = IntakeCase.id c.
Proof.
  intros q. simpl. unfold requests_of, found. rewrite in_map_iff. split.
  - intros (r & <- & [Hr [Hk _]%andb_true_iff]%in_order_by%filter_In). unfold by_id in Hk. boolify. eauto.
  - intros (r & -> & Hr & Hk). exists r. split; [done|]. apply in_order_by, filter_In. split; [done|].
    rewrite <- Hk, by_id_eq. done.
Qed.

Lemma view_of s k now v s' : GetIntakeWorkflow_execute true k now s = (Ok v, s') →
  ∃ c, get_case k s = Some c ∧ s' = s ∧
    v = workflow_view (workflow_snapshot s c) (Some (evaluateOperationsReadiness (case_snapshot s c) now)).
Proof.
  unfold GetIntakeWorkflow_execute, getIntakeWorkflowSnapshot, iobind at 1 2, read, query, found_or.
  destruct (get_case k s) as [c|] eqn:Hc; simpl; [|done].
  unfold iobind. destruct (GetOperationsReadiness_execute k now s) as [[r|e] s1] eqn:Er; [|done].
  apply readiness_of in Er as (c' & Hc' & -> & ->). rewrite Hc in Hc'. injection Hc' as <-.
  intros [= <- <-]. by exists c.
Qed.

Section Theorems.
Context (ulid : nat → string) (jobId : nat → option string).

(** The workflow view of a case is consistent with the case: asking for it changes nothing; it
    calls the case terminal exactly when it offers no action; every action it offers is listed
    with the label of its code; and the information request it shows as active is the one that is
    published, which exists while the case waits for the applicant and, of the live stages, only
    then. *)
Theorem workflow_view_is_consistent s k now v s' :
  ireachable ulid jobId s → GetIntakeWorkflow_execute true k now s = (Ok v, s') →
  s' = s ∧
  (wv_terminal v = true ↔ wv_allowed_actions v = []) ∧
  wv_allowed_action_labels v = labelsFor (map action_text (wv_allowed_actions v)) intakeActionLabels ∧
  (∀ q, wst_active_information_request (wv_workflow v) = Some q →
     ∃ r, q = request_summary r ∧ In r (requests s) ∧ InformationRequest.caseId r = k ∧ is_published r = true) ∧
  (wv_stage v = waiting_on_applicant → is_set (wst_active_information_request (wv_workflow v)) = true) ∧
  (wv_stage v ≠ waiting_on_applicant → wv_stage v ≠ withdrawn →
     wst_active_information_request (wv_workflow v) = None).
Proof.
  intros R H. apply view_of in H as (c & Hc & -> & ->). pose proof (ireachable_good _ _ _ R) as G.
  destruct (get_case_in _ _ _ Hc) as [_ Hid].
  pose proof (co_requests _ _ _ (good_case _ _ _ G Hc)) as Hm. simpl in Hm.
  unfold published_count in Hm.
  set (rq := List.filter (by_id InformationRequest.caseId k) (requests s)) in Hm.
  assert (∀ q, In q (ws_informationRequests (workflow_snapshot s c)) ↔ ∃ r, q = request_summary r ∧ In r rq) as Hq.
  { intros q. rewrite view_requests, Hid. unfold rq. split.
    - intros (r & -> & Hr & Hk). exists r. split; [done|]. apply filter_In. split; [done|]. rewrite <- Hk. apply by_id_eq.
    - intros (r & -> & [Hr Hk]%filter_In). unfold by_id in Hk. boolify. eauto. }
  set (open_ := λ q : RequestSummary, bool_decide (qs_status q = published)).
  assert (∀ r, open_ (request_summary r) = bool_decide ((request_view r).2 = published)) as Ho by done.
  split; [done|]. cbn [workflow_view wv_terminal wv_allowed_actions wv_allowed_action_labels wv_workflow wv_stage
    workflowState wst_active_information_request ws_stage].
  change (ws_stage (workflow_snapshot s c)) with (IntakeCase.stage c). fold open_.
  split_and!.
  - cbn [rd_allowed_next_actions evaluateOperationsReadiness]. rewrite offered_nothing. unfold OpsReadiness.terminal.
    simpl. by destruct (IntakeCase.stage c).
  - unfold labelsFor. rewrite map_map. apply map_ext. by intros [].
  - intros q [Hin Hp]%find_row_Some. apply Hq in Hin as (r & -> & [Hr Hk]%filter_In). unfold by_id in Hk. boolify. eauto.
  - intros E. rewrite E in Hm. unfold requests_match in Hm.
    destruct (find_row open_ _) eqn:Ef; [done|]. rewrite find_row_None in Ef.
    destruct (List.filter _ (map request_view rq)) as [|p l] eqn:El; [done|].
    assert (In p (List.filter (λ q, bool_decide (q.2 = published)) (map request_view rq))) as Hp by (rewrite El; by left).
    apply filter_In in Hp as [(r & <- & Hr)%in_map_iff Hp].
    specialize (Ef (request_summary r)). rewrite Ho, Hp in Ef. discriminate Ef. apply Hq. eauto.
  - intros E1 E2. apply find_row_None. intros q (r & -> & Hr)%Hq. rewrite Ho.
    assert (length (List.filter (λ q, bool_decide (q.2 = published)) (map request_view rq)) = 0%nat) as Hz
      by (revert Hm E1 E2; by destruct (IntakeCase.stage c)).
    apply length_zero_iff_nil in Hz. destruct (bool_decide _) eqn:Ep; [|done].
    assert (In (request_view r) (List.filter (λ q, bool_decide (q.2 = published)) (map request_view rq))) as X
      by (apply filter_In; split; [by apply in_map | done]).
    by rewrite Hz in X.
Qed.

End Theorems.

Definition view_in (s : intake) : WorkflowView :=
  workflow_view (workflow_snapshot s (IntakeProps.row "case_1" s)) (Some (readiness_in s)).

Lemma view_runs s : get_case "case_1" s = Some (IntakeProps.row "case_1" s) →
  GetIntakeWorkflow_execute true "case_1" 10000 s = (Ok (view_in s), s).
Proof.
  intros Hc. unfold GetIntakeWorkflow_execute, getIntakeWorkflowSnapshot, iobind at 1 2, read, query, found_or.
  rewrite Hc. cbn [fmap option_fmap option_map ret]. unfold iobind. by rewrite (readiness_runs s Hc).
Qed.

Lemma workflow_view_is_consistent_witness :
  ireachable IntakeDemo.ulid IntakeDemo.jobId IntakeDemo.i3 ∧ wv_stage (view_in IntakeDemo.i3) = waiting_on_applicant ∧
  is_set (wst_active_information_request (wv_workflow (view_in IntakeDemo.i3))) = true.
Proof.
  split; [exact IntakeDemo.reach_i3|]. split; [vm_compute; reflexivity|].
  destruct (workflow_view_is_consistent IntakeDemo.ulid IntakeDemo.jobId IntakeDemo.i3 "case_1" 10000
    (view_in IntakeDemo.i3) IntakeDemo.i3 IntakeDemo.reach_i3
    (view_runs IntakeDemo.i3 ltac:(vm_compute; reflexivity))) as (_ & _ & _ & _ & H & _).
  apply H. vm_compute. reflexivity.
Defined.

End IntakeWorkflow.
