(* ===== verification/KycGate.v ===== *)
(** The gates of the platform against the identity module: whoever reserves, or enters a property, was
    approved by Didit.

    The offering and intake modules read the same table [KycRepo] keeps, through two columns each. *)

From Stdlib Require Import String.
From stdpp Require Import gmap.
From S2P Require Import Prelude JsString Currency DateTime IntakePolicy Db OfferingPolicy OfferingRepo OfferingInv OfferingDemo OfferingServices OfferingServiceProps KycPolicy KycRepo KycServices KycMachine KycProps KycEvents IntakeDb IntakeRepo IntakeDemo IntakeServices IntakeServiceProps.

Module KycGate.
Import KycPolicy KycRepo KycProps OfferingPolicy OfferingServiceProps OfferingServices IntakeServices IntakeServiceProps.

(** A row of the table as [Db] keeps it. *)
Definition project (r : Kyc.t) : KycEligibility.t :=
  KycEligibility.mk (Kyc.accountId r) (state_text (Kyc.state r)) (Kyc.renewalDueAt (Kyc.base r))
    (Kyc.poaCurrentUntil (Kyc.poa r)).

(** The database holds the table of this state. *)
Definition shares (s : identity) (d : db) : Prop := kycEligibility d = map project (rows s).

Lemma find_row_projected {A B} (g : A → B) (p : B → bool) (l : list A) :
  find_row p (map g l) = g <$> find_row (λ x, p (g x)) l.
Proof.
  unfold find_row. induction l as [|x l IH]; [done|]. simpl. by destruct (p (g x)).
Qed.

Lemma shares_find s d a k : shares s d → find_kyc a d = Some k →
  ∃ r, In r (rows s) ∧ Kyc.accountId r = a ∧ k = project r.
Proof.
  intros E H. unfold find_kyc in H. rewrite E, find_row_projected in H.
  destruct (find_row _ (rows s)) as [r|] eqn:Er; [|done]. injection H as <-.
  apply find_row_Some in Er as [Hin Ha]. unfold id_is in Ha. boolify. by exists r.
Qed.

Lemma state_text_eligible st : state_text st = "eligible" → st = eligible.
Proof. by destruct st. Qed.

(** What the offering page knows of an account's verification. *)
Lemma detail_kyc off acc d detail : getInvestorDetail off acc d = Ok (Some detail) →
  dt_kycEligibilityState detail = KycEligibility.eligibilityState <$> find_kyc acc d ∧
  dt_kycRenewalDueAt detail = find_kyc acc d ≫= KycEligibility.renewalDueAt.
Proof.
  unfold getInvestorDetail. destruct (find_offering off d), (find_account acc d); try done.
  intros (? & _ & H)%rbind_ok. apply rbind_ok in H as (? & _ & [= <-]). done.
Qed.

(** A reservation that is granted found its account's verification current. *)
Lemma reservation_needs_kyc ulid session url opts now at_ off acc amount key tr d resp s' :
  CreateReservation_execute ulid session url opts now at_ off acc amount key tr d = (Ok resp, s') →
  ∃ k due, find_kyc acc d = Some k ∧ KycEligibility.eligibilityState k = "eligible" ∧
    KycEligibility.renewalDueAt k = Some due ∧ now < due.
Proof.
  intros E. unfold CreateReservation_execute in E. inv_io E. destruct a as [detail|]; [|by apply throw_ok in E].
  inv_io E. destruct (0 <? _) eqn:Eb in E; [by apply throw_ok in E|]. clear E.
  assert (computeReservationBlockers (blocker_input detail now (op_fundingRailAvailable opts) a) = []) as Hb.
  { destruct (computeReservationBlockers _); [done|]. simpl in Eb. boolify. lia. }
  apply computeReservationBlockers_nil in Hb as (_ & Hk & _). simpl in Hk.
  apply detail_kyc in Hio as [Hs Hd]. rewrite Hs, Hd in Hk. unfold isKycCurrent in Hk.
  destruct (find_kyc acc d) as [k|]; [|done]. simpl in Hk.
  destruct (KycEligibility.renewalDueAt k) as [due|] eqn:Edue; [|by rewrite andb_false_r in Hk].
  apply andb_true_iff in Hk as [Hk%bool_decide_eq_true_1 Hn%Z.ltb_lt]. injection Hk as Hk. by exists k, due.
Qed.

Section Gate.
Context (answers : string → DiditDecisionSummary → Prop) (ulid : nat → string).

(** The account's verification, as the identity module recorded it. *)
Definition verified_account (s : identity) (a : string) (r : Kyc.t) : Prop :=
  In r (rows s) ∧ Kyc.accountId r = a ∧ Kyc.state r = eligible ∧ approved_by_didit answers r.

Lemma gate_row s d a k : KycProps.reachable answers ulid s → shares s d → find_kyc a d = Some k →
  KycEligibility.eligibilityState k = "eligible" →
  ∃ r, verified_account s a r ∧ k = project r ∧ (∀ u, KycEligibility.proofOfAddressCurrentUntil k = Some u → address_proved answers u).
Proof.
  intros R Hsh Hf He. destruct (shares_find _ _ _ _ Hsh Hf) as (r & Hin & Ha & ->).
  apply state_text_eligible in He. destruct (tk_rows _ _ (reachable_ok _ _ _ R) r Hin) as [_ Hap _ Hpoa _].
  exists r. split; [by split; [|split; [|auto]] | done].
Qed.

(** C8: The gates hold across modules.  On any database that shares the identity module's table, in any state
    that module can reach: a reservation is granted only to an account Didit approved, within the 24 months of its
    verification, 12 if its row is flagged for manual review; and a property is entered only by an account Didit approved whose
    proof of address Didit approved too, and which is still current. *)
Theorem verified_at_the_gates s d i u session url opts now at_ off acc amount key tr b :
  KycProps.reachable answers ulid s → shares s d → shares s (IntakeDb.base i) →
  (∀ resp d', CreateReservation_execute u session url opts now at_ off acc amount key tr d = (Ok resp, d') →
     ∃ r t, verified_account s acc r ∧ Kyc.lastVerifiedAt (Kyc.base r) = Some t ∧
       now < months_after (if Kyc.everRequiredManualReview (Kyc.base r) then 12 else 24) t) ∧
  ((CreateDraftIntake_execute u acc tr b now at_ i).2 ≠ i →
     ∃ r until, verified_account s acc r ∧ Kyc.poaCurrentUntil (Kyc.poa r) = Some until ∧ now < until ∧ address_proved answers until).
Proof.
  intros R Hd Hi. split.
  - intros resp d' H. destruct (reservation_needs_kyc _ _ _ _ _ _ _ _ _ _ _ _ _ _ H) as (k & due & Hf & He & Hdue & Hn).
    destruct (gate_row _ _ _ _ R Hd Hf He) as (r & Hv & -> & _). simpl in Hdue.
    pose proof Hv as (_ & _ & _ & ref & dd & t & _ & _ & _ & _ & _ & _ & Hl & Hr).
    exists r, t. rewrite Hr in Hdue. injection Hdue as <-. done.
  - intros H. unfold CreateDraftIntake_execute in H. through H.
    destruct (IntakePolicy.evaluateIntakeEntry _) eqn:Ev in H; [done|].
    eapply entitled_intro in Ev as (Hen & _); [|done..]. destruct Hen as (k & until & fl & x & y & Hf & He & Hp & Hn & _).
    destruct (gate_row _ _ _ _ R Hi Hf He) as (r & Hv & -> & Hpoa). exists r, until. auto.
Qed.

End Gate.

(** A reservation of alice's after her verification. *)
Definition set_kycEligibility (v : list KycEligibility.t) (s : db) : db :=
  mkDb (accounts s) v (cases s) (pivs s) (offerings s) (reservations s) (moneyEvents s) (disclosurePacks s)
    (materialityRecords s) (positions s) (walletRegistrations s) (auditLog s) (jobs s) (ulids s) (pivTokenIdSeq s).

Definition open_db : db := set_kycEligibility (map project (rows KycDemo.k2)) d1p.

Lemma verified_at_the_gates_witness :
  ∃ r t, verified_account KycDemo.answers KycDemo.k2 "alice" r ∧ Kyc.lastVerifiedAt (Kyc.base r) = Some t ∧
    3000 < months_after (if Kyc.everRequiredManualReview (Kyc.base r) then 12 else 24) t.
Proof.
  destruct (CreateReservation_execute OfferingDemo.demo_ulid demo_session demo_url demo_options 3000 3001
              "offering_1" "alice" "60.00" (Some "k1") "trace" open_db) as [[resp|e] s'] eqn:E.
  2:{ exfalso. vm_compute in E. discriminate E. }
  apply (proj1 (verified_at_the_gates KycDemo.answers OfferingDemo.demo_ulid KycDemo.k2 open_db
    (IntakeDb.set_base open_db IntakeDemo.i0) OfferingDemo.demo_ulid demo_session demo_url demo_options 3000 3001
    "offering_1" "alice" "60.00" (Some "k1") "trace" (mkDraftBody true true "residential" IntakeDemo.flat)
    KycDemo.reach_k2 eq_refl eq_refl) resp s' E).
Defined.

End KycGate.
