(* ===== verification/AuthDb.v ===== *)
(** The tables of the auth module: the rows of src/prisma/schema/auth.prisma that the customer
    side reads and writes, Better Auth's own user and session tables, and the operations of Better
    Auth's internal adapter the module relies on.

    The audit log, the identifiers and the investment tables are those of [Db]. *)

From Stdlib Require Import String.
From S2P Require Import Prelude JsString DateTime IntakePolicy Db.

Module AuthDb.

(** ** Rows *)

Module Acct.
Record t := mk {
  id : string; betterAuthUserId : string; protectedContactEmail : option string; status : AccountStatus;
  createdAt : Z; updatedAt : Z }.
Definition set_status (st : AccountStatus) (at_ : Z) (a : t) : t :=
  mk (id a) (betterAuthUserId a) (protectedContactEmail a) st (createdAt a) at_.
End Acct.

Module StaffRole.
Record t := mk {
  id : string; accountId : string; role : string; legalPracticeId : option string; appraisalFirmId : option string;
  grantedAt : Z; revokedAt : option Z }.
End StaffRole.

Module Login.
Record t := mk {
  id : string; accountId : string; methodType : LoginMethod; providerSubject : string; linkedAt : Z;
  linkedViaFreshAuth : bool }.
End Login.

Module DeviceStatus.
Inductive t := active | revoked.
#[global] Instance eq_dec : EqDecision t.
Proof. solve_decision. Defined.
End DeviceStatus.

Module Device.
Record t := mk {
  deviceId : string; accountId : string; betterAuthUserId : string; dpopJkt : string; bioJkt : string;
  biometricPublicJwk : json; platform : string; attestationMetadata : json; status : DeviceStatus.t;
  revokedAt : option Z; revocationReason : option string; createdAt : Z; lastSeenAt : Z }.
Definition set_revoked (at_ : Z) (reason : string) (d : t) : t :=
  mk (deviceId d) (accountId d) (betterAuthUserId d) (dpopJkt d) (bioJkt d) (biometricPublicJwk d) (platform d)
    (attestationMetadata d) DeviceStatus.revoked (Some at_) (Some reason) (createdAt d) (lastSeenAt d).
Definition set_lastSeenAt (at_ : Z) (d : t) : t :=
  mk (deviceId d) (accountId d) (betterAuthUserId d) (dpopJkt d) (bioJkt d) (biometricPublicJwk d) (platform d)
    (attestationMetadata d) (status d) (revokedAt d) (revocationReason d) (createdAt d) at_.
Definition is_active (d : t) : bool := bool_decide (status d = DeviceStatus.active).
End Device.

Module Challenge.
Record t := mk {
  challenge : string; purpose : string; dpopJkt : string; deviceId : option string; expiresAt : Z;
  consumedAt : option Z }.
Definition set_consumedAt (at_ : Z) (c : t) : t :=
  mk (challenge c) (purpose c) (dpopJkt c) (deviceId c) (expiresAt c) (Some at_).
End Challenge.

Module ReplacementCode.
Record t := mk {
  id : string; accountId : string; sessionId : option string; codeHash : string; expiresAt : Z;
  attemptsUsed : Z; consumedAt : option Z; createdAt : Z }.
Definition set_consumedAt (at_ : Z) (c : t) : t :=
  mk (id c) (accountId c) (sessionId c) (codeHash c) (expiresAt c) (attemptsUsed c) (Some at_) (createdAt c).
Definition count_attempt (c : t) : t :=
  mk (id c) (accountId c) (sessionId c) (codeHash c) (expiresAt c) (attemptsUsed c + 1) (consumedAt c) (createdAt c).
End ReplacementCode.

Module RecoveryStatus.
Inductive t := open | approved | rejected | completed.
#[global] Instance eq_dec : EqDecision t.
Proof. solve_decision. Defined.
End RecoveryStatus.

Module RecoveryCase.
Record t := mk {
  id : string; accountId : string; status : RecoveryStatus.t; freshDiditVerificationRef : option string;
  reviewedByPrimary : option string; reviewedBySecondary : option string; cooldownEndsAt : option Z;
  createdAt : Z; resolvedAt : option Z }.
End RecoveryCase.

Module ClosureStatus.
Inductive t := pending | approved | rejected | cancelled.
#[global] Instance eq_dec : EqDecision t.
Proof. solve_decision. Defined.
End ClosureStatus.

Module ClosureRequest.
Record t := mk {
  id : string; accountId : string; status : ClosureStatus.t; reason : option string; requestedAt : Z;
  resolvedAt : option Z; resolvedBy : option string; resolutionNote : option string }.
End ClosureRequest.

(** auth_user: the columns the module reads. *)
Module User.
Record t := mk {
  id : string; email : string; name : option string; population : string; disabledAt : option Z;
  recoveryRequiredAt : option Z }.
Definition set_recoveryRequiredAt (v : option Z) (u : t) : t :=
  mk (id u) (email u) (name u) (population u) (disabledAt u) v.
End User.

(** auth_session *)
Module BaSession.
Record t := mk {
  id : string; token : string; userId : string; dpopJkt : option string; authenticationLevel : string;
  createdAt : Z; updatedAt : Z; expiresAt : Z }.
#[global] Instance eq_dec : EqDecision t.
Proof. solve_decision. Defined.
End BaSession.

(** auth.sessions, the mirror of auth_session kept for display *)
Module MirrorSession.
Record t := mk {
  id : string; accountId : string; channel : string; status : string; betterAuthUserId : string;
  betterAuthSessionId : option string; authMethodAtLogin : string; createdAt : Z; lastSeenAt : Z; idleExpiresAt : Z;
  absoluteExpiresAt : Z; lastFreshAuthAt : option Z; deviceLabel : option string; userAgentHash : option string;
  revokedAt : option Z; revocationReason : option string }.
Definition set_activity (seenAt : Z) (idle : option Z) (m : t) : t :=
  mk (id m) (accountId m) (channel m) (status m) (betterAuthUserId m) (betterAuthSessionId m) (authMethodAtLogin m)
    (createdAt m) seenAt (default (idleExpiresAt m) idle) (absoluteExpiresAt m) (lastFreshAuthAt m) (deviceLabel m)
    (userAgentHash m) (revokedAt m) (revocationReason m).
Definition set_revoked (at_ : Z) (reason : string) (m : t) : t :=
  mk (id m) (accountId m) (channel m) "revoked" (betterAuthUserId m) (betterAuthSessionId m) (authMethodAtLogin m)
    (createdAt m) (lastSeenAt m) (idleExpiresAt m) (absoluteExpiresAt m) (lastFreshAuthAt m) (deviceLabel m)
    (userAgentHash m) (Some at_) (Some reason).
End MirrorSession.

Record auth := mkAuth {
  abase : db;
  accts : list Acct.t;
  staffRoles : list StaffRole.t;
  logins : list Login.t;
  devices : list Device.t;
  challenges : list Challenge.t;
  codes : list ReplacementCode.t;
  recoveries : list RecoveryCase.t;
  closures : list ClosureRequest.t;
  users : list User.t;
  sessions : list BaSession.t;
  mirror : list MirrorSession.t }.

Definition set_abase v s := mkAuth v (accts s) (staffRoles s) (logins s) (devices s) (challenges s) (codes s) (recoveries s) (closures s) (users s) (sessions s) (mirror s).
Definition set_accts v s := mkAuth (abase s) v (staffRoles s) (logins s) (devices s) (challenges s) (codes s) (recoveries s) (closures s) (users s) (sessions s) (mirror s).
Definition set_staffRoles v s := mkAuth (abase s) (accts s) v (logins s) (devices s) (challenges s) (codes s) (recoveries s) (closures s) (users s) (sessions s) (mirror s).
Definition set_logins v s := mkAuth (abase s) (accts s) (staffRoles s) v (devices s) (challenges s) (codes s) (recoveries s) (closures s) (users s) (sessions s) (mirror s).
Definition set_devices v s := mkAuth (abase s) (accts s) (staffRoles s) (logins s) v (challenges s) (codes s) (recoveries s) (closures s) (users s) (sessions s) (mirror s).
Definition set_challenges v s := mkAuth (abase s) (accts s) (staffRoles s) (logins s) (devices s) v (codes s) (recoveries s) (closures s) (users s) (sessions s) (mirror s).
Definition set_codes v s := mkAuth (abase s) (accts s) (staffRoles s) (logins s) (devices s) (challenges s) v (recoveries s) (closures s) (users s) (sessions s) (mirror s).
Definition set_recoveries v s := mkAuth (abase s) (accts s) (staffRoles s) (logins s) (devices s) (challenges s) (codes s) v (closures s) (users s) (sessions s) (mirror s).
Definition set_closures v s := mkAuth (abase s) (accts s) (staffRoles s) (logins s) (devices s) (challenges s) (codes s) (recoveries s) v (users s) (sessions s) (mirror s).
Definition set_users v s := mkAuth (abase s) (accts s) (staffRoles s) (logins s) (devices s) (challenges s) (codes s) (recoveries s) (closures s) v (sessions s) (mirror s).
Definition set_sessions v s := mkAuth (abase s) (accts s) (staffRoles s) (logins s) (devices s) (challenges s) (codes s) (recoveries s) (closures s) (users s) v (mirror s).
Definition set_mirror v s := mkAuth (abase s) (accts s) (staffRoles s) (logins s) (devices s) (challenges s) (codes s) (recoveries s) (closures s) (users s) (sessions s) v.

(** ** Better Auth's internal adapter

    Third-party code: its operations are parameters, with the documented behaviour the module relies on. *)

Class InternalAdapter := {
  findUserById : string → list User.t → option User.t;
  updateUser : string → (User.t → User.t) → list User.t → list User.t;
  listSessions : string → list BaSession.t → list BaSession.t;
  deleteSession : string → list BaSession.t → list BaSession.t;
  deleteUserSessions : string → list BaSession.t → list BaSession.t }.

Class InternalAdapterLaws (A : InternalAdapter) : Prop := {
  findUserById_spec u l : findUserById u l = find_row (by_id User.id u) l;
  updateUser_spec u f l : updateUser u f l = update_where (by_id User.id u) f l;
  listSessions_spec u l x : In x (listSessions u l) ↔ In x l ∧ BaSession.userId x = u;
  deleteSession_spec k l x : In x (deleteSession k l) ↔ In x l ∧ BaSession.token x ≠ k;
  deleteUserSessions_spec u l x : In x (deleteUserSessions u l) ↔ In x l ∧ BaSession.userId x ≠ u }.

(** ** Shared steps *)

Section WithUlid.
Context (ulid : nat → string).

Definition fresh_id (prefix : string) : txn auth string := λ s,
  let '(k, b) := fresh ulid prefix (abase s) in Ok (k, set_abase b s).

(** [auditLog.create] *)
Definition audit (actor : option string) (action resourceType resourceId : string) (changes : list (string * json))
    (at_ : Z) : txn auth unit :=
  do! k := fresh_id "audit_" in
  twrite (λ s, set_abase (audit_create (AuditLog.mk k actor action resourceType resourceId changes at_) (abase s)) s).

End WithUlid.

(** What a call of another system did: it threw, or it was made.  [fault call] is the error the named
    call throws, if it does. *)
Definition attempt {A} (fault : string → option error) (call : string) (m : io auth A) : io auth A :=
  match fault call with Some e => throw e | None => m end.

Definition no_faults : string → option error := λ _, None.

Definition find_acct (k : string) (s : auth) : option Acct.t := find_row (by_id Acct.id k) (accts s).

(** PrismaAccountRepository.findByBetterAuthUserId *)
Definition findByBetterAuthUserId (userId : string) (s : auth) : option Acct.t :=
  find_row (by_id Acct.betterAuthUserId userId) (accts s).

(** [staffRoles: { where: { revokedAt: null }, take: 1 }] is not empty *)
Definition has_active_role (accountId : string) (s : auth) : bool :=
  exists_row (λ r, bool_decide (StaffRole.accountId r = accountId) && bool_decide (StaffRole.revokedAt r = None)) (staffRoles s).

(** [account.update] of a row, which throws when there is none *)
Definition update_acct (k : string) (f : Acct.t → Acct.t) : txn auth unit := tprim (λ s,
  if exists_row (by_id Acct.id k) (accts s) then Ok (set_accts (update_where (by_id Acct.id k) f (accts s)) s)
  else Err (Thrown "P2025")).

Definition read {A} (f : auth → A) : io auth A := query (λ s, Ok (f s)).

(** Running a call for its outcome, thrown or not. *)
Definition outcome {A} (m : io auth A) : io auth (result A) := λ s, (Ok (m s).1, (m s).2).

(** A direct write outside a transaction. *)
Definition write (f : auth → auth) : io auth unit := λ s, (Ok tt, f s).

(** *** What the shared steps do *)

(** They write nothing but the shared tables. *)
Definition only_base (s s' : auth) : Prop := ∃ b, s' = set_abase b s.

#[export] Instance only_base_preorder : PreOrder only_base.
Proof.
  split.
  - intros s. exists (abase s). by destruct s.
  - intros s1 s2 s3 [b ->] [b' ->]. by exists b'.
Qed.

Lemma new_id_ok ulid p s k s' : fresh_id ulid p s = Ok (k, s') →
  k = String.append p (ulid (ulids (abase s))) ∧ s' = set_abase (set_ulids (S (ulids (abase s))) (abase s)) s.
Proof. unfold fresh_id, fresh. by intros [= <- <-]. Qed.

Lemma audit_base ulid actor action rt ri ch at_ : tx_rel only_base (audit ulid actor action rt ri ch at_).
Proof.
  intros s a s' H. unfold audit in H. inv_tx H. apply new_id_ok in Htx as [-> ->]. by eexists.
Qed.

Lemma update_acct_ok k f s a s' : update_acct k f s = Ok (a, s') →
  (∃ x, In x (accts s) ∧ Acct.id x = k) ∧ s' = set_accts (update_where (by_id Acct.id k) f (accts s)) s.
Proof.
  unfold update_acct. intros H%tprim_ok. destruct (exists_row _ _) eqn:E; [|done]. injection H as <-. split; [|done].
  apply existsb_exists in E as (x & Hx & Ek). exists x. unfold by_id in Ek. boolify. done.
Qed.

(** ** The administrator of customer identities (better-auth-customer-account-administrator.ts) *)

Definition customer_account_target_invalid : error := AppError "authentication.customer_account_target_invalid" 409 [].

Definition assertCustomerUser (user : option User.t) : result User.t :=
  match user with
  | Some u => if bool_decide (User.population u = "staff_partner") then Err customer_account_target_invalid else Ok u
  | None => Err customer_account_target_invalid
  end.

Section Administrator.
Context `{A : InternalAdapter} (fault : string → option error).

Definition find_customer (userId : string) : io auth User.t :=
  await user := attempt fault "findUserById" (read (λ s, findUserById userId (users s))) in
  lift (assertCustomerUser user).

Definition end_sessions (userId : string) : io auth unit :=
  attempt fault "deleteUserSessions" (write (λ s, set_sessions (deleteUserSessions userId (sessions s)) s)).

Definition revokeAllSessions (userId : string) (now : Z) : io auth unit :=
  await _ := find_customer userId in
  await _ := attempt fault "updateUser"
    (write (λ s, set_users (updateUser userId (User.set_recoveryRequiredAt (Some now)) (users s)) s)) in
  end_sessions userId.

Record SessionCounts := mkSessionCounts { revokedSessionCount : nat; deviceSessionCount : nat }.

Definition revokeSessionsForRecoveryCompletion (userId : string) : io auth SessionCounts :=
  await _ := find_customer userId in
  await found := attempt fault "listSessions" (read (λ s, listSessions userId (sessions s))) in
  let device := List.filter (λ x, bool_decide (BaSession.authenticationLevel x = "device_biometric")) found in
  await _ := end_sessions userId in
  ret (mkSessionCounts (length found) (length device)).

Definition clearRecoveryRequired (userId : string) : io auth unit :=
  await _ := find_customer userId in
  attempt fault "clearRecoveryRequired"
    (write (λ s, set_users (updateUser userId (User.set_recoveryRequiredAt None) (users s)) s)).

End Administrator.

End AuthDb.
