(* ===== verification/AuthRecovery.v ===== *)
(** Recovery of a locked-out customer and closure of an account: the repositories
    (prisma-account-recovery.repository.ts, prisma-account-closure.repository.ts) and the services
    (account-recovery.service.ts, account-closure.service.ts) of src/src/modules/auth. *)

From Stdlib Require Import String.
From S2P Require Import Prelude JsString Currency DateTime IntakePolicy Db AuthDb.

Module AuthRecovery.
Import AuthDb.

(** ** Inputs and results *)

Inductive RecoveryCorroborationCategory := recent_deposit | recent_investment | last_login | other_policy_approved.

Definition category_text (c : RecoveryCorroborationCategory) : string :=
  match c with
  | recent_deposit => "recent_deposit" | recent_investment => "recent_investment"
  | last_login => "last_login" | other_policy_approved => "other_policy_approved"
  end.

Inductive Decision := decide_approved | decide_rejected.
#[global] Instance Decision_eq_dec : EqDecision Decision.
Proof. solve_decision. Defined.

Definition decision_text (d : Decision) : string :=
  match d with decide_approved => "approved" | decide_rejected => "rejected" end.

Record RecoveryCaseTarget := mkRecoveryTarget {
  rt_accountId : string; rt_betterAuthUserId : string; rt_status : AccountStatus; rt_contactEmail : option string;
  rt_isStaff : bool }.

Record RecoveryCorroborationFacts := mkFacts {
  lastDeposit : option (string * Z); lastReservation : option (string * Z); lastLogin : option (string * Z) }.

Record RevokedDevices := mkRevokedDevices { revokedDeviceIds : list string; removedLoginMethodCount : nat }.

(** ** The recovery repository *)

Definition RECOVERY_DEVICE_REVOCATION_REASON : string := "account_recovery".

Definition case_is (k : string) (st : RecoveryStatus.t) (c : RecoveryCase.t) : bool :=
  by_id RecoveryCase.id k c && bool_decide (RecoveryCase.status c = st).

Definition findTargetForRecovery (accountId : string) (s : auth) : option RecoveryCaseTarget :=
  (λ a, mkRecoveryTarget (Acct.id a) (Acct.betterAuthUserId a) (Acct.status a) (Acct.protectedContactEmail a)
          (has_active_role accountId s)) <$> find_acct accountId s.

(** [orderBy: { createdAt: "desc" }]: the first row of the sorted list *)
Definition newest {A} (time : A → Z) (l : list A) : option A := head (order_by (λ x y, time y <? time x) l).

Definition findOpenCaseForAccount (accountId : string) (s : auth) : option RecoveryCase.t :=
  newest RecoveryCase.createdAt
    (List.filter (λ c, bool_decide (RecoveryCase.accountId c = accountId) &&
                       bool_decide (RecoveryCase.status c = RecoveryStatus.open)) (recoveries s)).

Definition findCase (caseId : string) (s : auth) : option RecoveryCase.t :=
  find_row (by_id RecoveryCase.id caseId) (recoveries s).

Definition countOpenCasesBefore (cutoff : Z) (s : auth) : nat :=
  length (List.filter (λ c, bool_decide (RecoveryCase.status c = RecoveryStatus.open) && (RecoveryCase.createdAt c <? cutoff))
            (recoveries s)).

(** The CHECK account_recovery_distinct_reviewers *)
Definition reviewers_ok (c : RecoveryCase.t) : bool :=
  match RecoveryCase.reviewedByPrimary c, RecoveryCase.reviewedBySecondary c with
  | Some p, Some q => negb (String.eqb p q)
  | _, _ => true
  end.

(** [accountRecoveryCase.updateMany] whose WHERE names a case, then the row it left, read back. *)
Definition update_case (p : RecoveryCase.t → bool) (f : RecoveryCase.t → RecoveryCase.t) : txn auth (option RecoveryCase.t) := λ s,
  match find_row p (recoveries s) with
  | None => Ok (None, s)
  | Some c =>
      if negb (reviewers_ok (f c)) then violation "account_recovery_distinct_reviewers"
      else Ok (Some (f c), set_recoveries (update_where p f (recoveries s)) s)
  end.

Section WithUlid.
Context (ulid : nat → string).

Definition openCase (accountId actor traceId : string) (openedAt : Z) : txn auth RecoveryCase.t :=
  do! k := fresh_id ulid "recovery_case_" in
  let created := RecoveryCase.mk k accountId RecoveryStatus.open None None None None openedAt None in
  do! _ := tprim (λ s,
    if exists_row (by_id RecoveryCase.id k) (recoveries s) then violation "account_recovery_cases_pkey"
    else Ok (set_recoveries (recoveries s ++ [created]) s)) in
  do! _ := update_acct accountId (Acct.set_status recovery_review openedAt) in
  do! _ := audit ulid (Some actor) "authentication.account_recovery_case_opened" "account_recovery_case" k
             [("trace_id", JStr traceId); ("account_id", JStr accountId)] openedAt in
  tret created.

Definition with_didit (ref : string) (c : RecoveryCase.t) : RecoveryCase.t :=
  RecoveryCase.mk (RecoveryCase.id c) (RecoveryCase.accountId c) (RecoveryCase.status c) (Some ref)
    (RecoveryCase.reviewedByPrimary c) (RecoveryCase.reviewedBySecondary c) (RecoveryCase.cooldownEndsAt c)
    (RecoveryCase.createdAt c) (RecoveryCase.resolvedAt c).

Definition recordDiditSession (caseId ref actor traceId : string) (recordedAt : Z) : txn auth (option RecoveryCase.t) :=
  do! updated := update_case (case_is caseId RecoveryStatus.open) (with_didit ref) in
  match updated with
  | None => tret None
  | Some c =>
      do! _ := audit ulid (Some actor) "authentication.account_recovery_didit_session_created" "account_recovery_case" caseId
                 [("trace_id", JStr traceId); ("didit_reference", JStr ref)] recordedAt in
      tret (Some c)
  end.

Definition with_primary (reviewer : string) (c : RecoveryCase.t) : RecoveryCase.t :=
  RecoveryCase.mk (RecoveryCase.id c) (RecoveryCase.accountId c) (RecoveryCase.status c) (RecoveryCase.freshDiditVerificationRef c)
    (Some reviewer) (RecoveryCase.reviewedBySecondary c) (RecoveryCase.cooldownEndsAt c)
    (RecoveryCase.createdAt c) (RecoveryCase.resolvedAt c).

Definition awaits_primary (caseId : string) (c : RecoveryCase.t) : bool :=
  case_is caseId RecoveryStatus.open c && bool_decide (RecoveryCase.reviewedByPrimary c = None) &&
  negb (bool_decide (RecoveryCase.freshDiditVerificationRef c = None)).

Definition recordPrimaryReview (caseId reviewer : string) (category : RecoveryCorroborationCategory) (traceId : string)
    (reviewedAt : Z) : txn auth (option RecoveryCase.t) :=
  do! updated := update_case (awaits_primary caseId) (with_primary reviewer) in
  match updated with
  | None => tret None
  | Some c =>
      do! _ := audit ulid (Some reviewer) "authentication.account_recovery_primary_review_recorded" "account_recovery_case" caseId
                 [("trace_id", JStr traceId); ("corroboration_category", JStr (category_text category))] reviewedAt in
      tret (Some c)
  end.

Definition decided (d : Decision) (reviewer : string) (at_ : Z) (c : RecoveryCase.t) : RecoveryCase.t :=
  RecoveryCase.mk (RecoveryCase.id c) (RecoveryCase.accountId c)
    (match d with decide_approved => RecoveryStatus.approved | decide_rejected => RecoveryStatus.rejected end)
    (RecoveryCase.freshDiditVerificationRef c) (RecoveryCase.reviewedByPrimary c) (Some reviewer)
    (RecoveryCase.cooldownEndsAt c) (RecoveryCase.createdAt c) (Some at_).

(** [reviewedByPrimary: { not: null }, NOT: { reviewedByPrimary: reviewer }] *)
Definition awaits_decision (caseId reviewer : string) (c : RecoveryCase.t) : bool :=
  case_is caseId RecoveryStatus.open c &&
  match RecoveryCase.reviewedByPrimary c with Some p => negb (String.eqb p reviewer) | None => false end.

Definition json_opt (v : option string) : json := match v with Some v => JStr v | None => JNull end.

Definition decideCase (caseId reviewer : string) (d : Decision) (reason traceId : string) (decidedAt : Z)
    : txn auth (option RecoveryCase.t) :=
  do! updated := update_case (awaits_decision caseId reviewer) (decided d reviewer decidedAt) in
  match updated with
  | None => tret None
  | Some c =>
      do! _ := audit ulid (Some reviewer) (String.append "authentication.account_recovery_case_" (decision_text d))
                 "account_recovery_case" caseId
                 [("trace_id", JStr traceId); ("reason", JStr reason);
                  ("primary_reviewer_account_id", json_opt (RecoveryCase.reviewedByPrimary c))] decidedAt in
      tret (Some c)
  end.

Definition completed_case (cooldownEndsAt : Z) (c : RecoveryCase.t) : RecoveryCase.t :=
  RecoveryCase.mk (RecoveryCase.id c) (RecoveryCase.accountId c) RecoveryStatus.completed
    (RecoveryCase.freshDiditVerificationRef c) (RecoveryCase.reviewedByPrimary c) (RecoveryCase.reviewedBySecondary c)
    (Some cooldownEndsAt) (RecoveryCase.createdAt c) (RecoveryCase.resolvedAt c).

Definition completeCase (caseId actor traceId : string) (completedAt cooldownEndsAt : Z) : txn auth (option RecoveryCase.t) :=
  do! updated := update_case (case_is caseId RecoveryStatus.approved) (completed_case cooldownEndsAt) in
  match updated with
  | None => tret None
  | Some c =>
      do! _ := update_acct (RecoveryCase.accountId c) (Acct.set_status acc_active completedAt) in
      do! _ := audit ulid (Some actor) "authentication.account_recovery_completed" "account_recovery_case" caseId
                 [("trace_id", JStr traceId); ("cooldown_ends_at", JDate cooldownEndsAt)] completedAt in
      tret (Some c)
  end.

Definition active_device_of (accountId : string) (d : Device.t) : bool :=
  bool_decide (Device.accountId d = accountId) && Device.is_active d.

Definition device_key_of (accountId : string) (m : Login.t) : bool :=
  bool_decide (Login.accountId m = accountId) && bool_decide (Login.methodType m = device_key).

(** One audit row per revoked device. *)
Definition audit_revoked (actor : string) (changes : list (string * json)) (at_ : Z) (ids : list string) : txn auth unit :=
  teach (λ d, audit ulid (Some actor) "authentication.device_revoked" "device" d changes at_) ids.

(** Revoking the active devices of an account and removing its device_key login methods, as recovery
    and device replacement both do it. *)
Definition revoke_devices (accountId reason : string) (at_ : Z) : txn auth RevokedDevices :=
  do! found := tread (λ s, order_by (λ a b, Device.createdAt a <? Device.createdAt b)
                             (List.filter (active_device_of accountId) (devices s))) in
  let ids := map Device.deviceId found in
  do! _ := twrite (λ s, set_devices
             (update_where (λ d, bool_decide (Device.deviceId d ∈ ids) && Device.is_active d)
                (Device.set_revoked at_ reason) (devices s)) s) in
  do! removed := tread (λ s, length (List.filter (device_key_of accountId) (logins s))) in
  do! _ := twrite (λ s, set_logins (List.filter (λ m, negb (device_key_of accountId m)) (logins s)) s) in
  tret (mkRevokedDevices ids removed).

Definition audit_removed (actor accountId : string) (changes : list (string * json)) (removed : nat) (at_ : Z) : txn auth unit :=
  if (0 <? removed)%nat
  then audit ulid (Some actor) "authentication.login_method_removed" "account" accountId changes at_
  else tret tt.

(** The devices are read without a lock and written in the same transaction: this is the transaction run alone. *)
Definition revokeDevicesForRecovery (caseId accountId actor traceId : string) (revokedAt : Z) : txn auth RevokedDevices :=
  do! r := revoke_devices accountId RECOVERY_DEVICE_REVOCATION_REASON revokedAt in
  do! _ := audit_revoked actor
    [("trace_id", JStr traceId); ("account_id", JStr accountId); ("recovery_case_id", JStr caseId);
     ("reason", JStr RECOVERY_DEVICE_REVOCATION_REASON)] revokedAt (revokedDeviceIds r) in
  do! _ := audit_removed actor accountId
    [("trace_id", JStr traceId); ("recovery_case_id", JStr caseId); ("method_type", JStr "device_key");
     ("removed_count", JNum (Z.of_nat (removedLoginMethodCount r))); ("reason", JStr RECOVERY_DEVICE_REVOCATION_REASON)]
    (removedLoginMethodCount r) revokedAt in
  tret r.

Definition recordRecoveryAuditEvent (caseId actor traceId action : string) (changes : list (string * json)) (at_ : Z)
    : txn auth unit :=
  audit ulid (Some actor) action "account_recovery_case" caseId (("trace_id", JStr traceId) :: changes) at_.

(** [orderBy: { cooldownEndsAt: "desc" }] over the completed cases whose cooldown has not ended *)
Definition getActiveCooldown (accountId : string) (now : Z) (s : auth) : option Z :=
  newest id (omap (λ c, if bool_decide (RecoveryCase.accountId c = accountId) &&
                             bool_decide (RecoveryCase.status c = RecoveryStatus.completed)
                          then match RecoveryCase.cooldownEndsAt c with
                               | Some e => if now <? e then Some e else None
                               | None => None
                               end
                          else None) (recoveries s)).

Definition getCorroborationFacts (accountId : string) (s : auth) : RecoveryCorroborationFacts :=
  let owned := λ r, bool_decide (Reservation.accountId r = accountId) in
  let mine := List.filter owned (reservations (abase s)) in
  let paid := List.filter (λ e, bool_decide (MoneyEvent.reservationId e ∈ map Reservation.id mine)) (moneyEvents (abase s)) in
  let logged := List.filter (λ m, bool_decide (MirrorSession.accountId m = accountId)) (mirror s) in
  mkFacts
    ((λ e, (Currency.numeric2_text (MoneyEvent.amountEur e), MoneyEvent.recordedAt e)) <$> newest MoneyEvent.recordedAt paid)
    ((λ r, (Currency.numeric2_text (Reservation.amountEur r), Reservation.createdAt r)) <$> newest Reservation.createdAt mine)
    ((λ m, (MirrorSession.authMethodAtLogin m, MirrorSession.createdAt m)) <$> newest MirrorSession.createdAt logged).

(** ** The closure repository *)

Definition closure_pending (p : ClosureRequest.t → bool) (r : ClosureRequest.t) : bool :=
  p r && bool_decide (ClosureRequest.status r = ClosureStatus.pending).

Definition closure_of (accountId : string) (r : ClosureRequest.t) : bool := bool_decide (ClosureRequest.accountId r = accountId).

Definition findPendingForAccount (accountId : string) (s : auth) : option ClosureRequest.t :=
  find_row (closure_pending (closure_of accountId)) (closures s).

Definition getPending (accountId : string) (s : auth) : option (option string * Z) :=
  (λ r, (ClosureRequest.reason r, ClosureRequest.requestedAt r)) <$> findPendingForAccount accountId s.

Definition findRequest (requestId : string) (s : auth) : option ClosureRequest.t :=
  find_row (by_id ClosureRequest.id requestId) (closures s).

Definition listPending (s : auth) : list ClosureRequest.t :=
  order_by (λ a b, ClosureRequest.requestedAt a <? ClosureRequest.requestedAt b)
    (List.filter (closure_pending (λ _, true)) (closures s)).

Definition create_closure (accountId : string) (reason : option string) (requestedAt : Z) : txn auth ClosureRequest.t :=
  do! k := fresh_id ulid "closure_request_" in
  let created := ClosureRequest.mk k accountId ClosureStatus.pending reason requestedAt None None None in
  do! _ := tprim (λ s,
    if exists_row (by_id ClosureRequest.id k) (closures s) then violation "account_closure_requests_pkey"
    else if negb (exists_row (by_id Acct.id accountId) (accts s)) then violation "account_closure_requests_account_id_fkey"
    else Ok (set_closures (closures s ++ [created]) s)) in
  tret created.

Definition resolve_closure (st : ClosureStatus.t) (by_ note : option string) (at_ : Z) (r : ClosureRequest.t) : ClosureRequest.t :=
  ClosureRequest.mk (ClosureRequest.id r) (ClosureRequest.accountId r) st (ClosureRequest.reason r)
    (ClosureRequest.requestedAt r) (Some at_) by_ note.

(** [accountClosureRequest.updateMany] whose WHERE names a request, then the row it left *)
Definition update_closure (p : ClosureRequest.t → bool) (f : ClosureRequest.t → ClosureRequest.t)
    : txn auth (option ClosureRequest.t) := λ s,
  match find_row p (closures s) with
  | None => Ok (None, s)
  | Some r => Ok (Some (f r), set_closures (update_where p f (closures s)) s)
  end.

Definition cancel_closure (requestId accountId : string) (cancelledAt : Z) : txn auth (option ClosureRequest.t) :=
  update_closure (closure_pending (λ r, by_id ClosureRequest.id requestId r && closure_of accountId r))
    (λ r, resolve_closure ClosureStatus.cancelled (ClosureRequest.resolvedBy r) (ClosureRequest.resolutionNote r) cancelledAt r).

Definition decide_closure (requestId reviewer : string) (d : Decision) (note : option string) (decidedAt : Z)
    : txn auth (option ClosureRequest.t) :=
  do! updated := update_closure (closure_pending (by_id ClosureRequest.id requestId))
    (resolve_closure (match d with decide_approved => ClosureStatus.approved | decide_rejected => ClosureStatus.rejected end)
       (Some reviewer) note decidedAt) in
  match updated with
  | None => tret None
  | Some r =>
      do! _ := match d with
               | decide_approved => update_acct (ClosureRequest.accountId r) (Acct.set_status suspended_restricted decidedAt)
               | decide_rejected => tret tt
               end in
      do! _ := audit ulid (Some reviewer)
                 (match d with
                  | decide_approved => "authentication.customer_account_closed"
                  | decide_rejected => "authentication.customer_closure_request_rejected"
                  end) "account" (ClosureRequest.accountId r)
                 [("closure_request_id", JStr (ClosureRequest.id r)); ("note", json_opt note)] decidedAt in
      tret (Some r)
  end.

End WithUlid.

End AuthRecovery.

(** The recovery and closure services (src/src/modules/auth/application/staff/account-recovery.service.ts,
    application/shared/account-closure.service.ts).

    Each reading of the clock is an argument.  Calls of other systems (Better Auth, Didit, the
    mail server, and the writes between which a completion can stop) go through [attempt], which makes the
    named call throw. *)

Module AuthServices.
Import AuthDb AuthRecovery.

Definition RECOVERY_COOLDOWN_HOURS : Z := 72.

(** ** Errors *)

Definition targetNotFoundError : error := AppError "authentication.account_recovery_target_not_found" 404 [].
Definition targetIsStaffError : error := AppError "authentication.account_recovery_target_is_staff" 409 [].
Definition targetNotActiveError : error := AppError "authentication.account_recovery_target_not_active" 409 [].
Definition caseAlreadyOpenError : error := AppError "authentication.account_recovery_case_already_open" 409 [].
Definition caseNotOpenError : error := AppError "authentication.account_recovery_case_not_open" 409 [].
Definition caseNotFoundError : error := AppError "authentication.account_recovery_case_not_found" 404 [].
Definition primaryReviewUnavailableError : error := AppError "authentication.account_recovery_primary_review_unavailable" 409 [].
Definition sameReviewerError : error := AppError "authentication.account_recovery_same_reviewer" 409 [].
Definition decisionUnavailableError : error := AppError "authentication.account_recovery_decision_unavailable" 409 [].
Definition caseNotApprovedError : error := AppError "authentication.account_recovery_case_not_approved" 409 [].
Definition completion_delivery_failed : error := AppError "authentication.account_recovery_completion_delivery_failed" 503 [].
Definition completion_failed : error := AppError "authentication.account_recovery_completion_failed" 503 [].

Definition closure_target_not_found : error := AppError "account_closure.target_not_found" 404 [].
Definition closure_target_not_active : error := AppError "account_closure.target_not_active" 409 [].
Definition requestAlreadyPendingError : error := AppError "account_closure.request_already_pending" 409 [].
Definition noPendingRequestError : error := AppError "account_closure.no_pending_request" 404 [].
Definition requestNotPendingError : error := AppError "account_closure.request_not_pending" 409 [].

Section Services.
Context `{A : InternalAdapter} (ulid : nat → string) (fault : string → option error).

(** [try { await call } catch {}] *)
Definition best_effort (m : io auth unit) : io auth unit := iocatch m (λ _, ret tt).

(** Handing a message to the mail server changes nothing here. *)
Definition send (call : string) : io auth unit := attempt fault call (ret tt).

Definition send_to (contact : option string) (call : string) : io auth unit :=
  match contact with None => ret tt | Some _ => best_effort (send call) end.

Definition OpenAccountRecoveryCase_execute (accountId actor traceId : string) (openedAt now : Z) : io auth RecoveryCase.t :=
  await target := read (findTargetForRecovery accountId) in
  match target with
  | None => throw targetNotFoundError
  | Some target =>
    if rt_isStaff target then throw targetIsStaffError
    else if negb (bool_decide (rt_status target = acc_active)) then throw targetNotActiveError
    else
    await existing := read (findOpenCaseForAccount accountId) in
    match existing with
    | Some _ => throw caseAlreadyOpenError
    | None =>
      await _ := revokeAllSessions fault (rt_betterAuthUserId target) now in
      await created := transaction (openCase ulid accountId actor traceId openedAt) in
      await _ := send_to (rt_contactEmail target) "sendAccountRecoveryCaseOpenedEmail" in
      ret created
    end
  end.

(** [session] is what Didit answers: the session's id and the address to verify at. *)
Definition CreateRecoveryDiditSession_execute (session : result (string * string)) (caseId actor traceId : string) (now : Z)
    : io auth (string * RecoveryCase.t) :=
  await existing := read (findCase caseId) in
  match existing with
  | Some c =>
      if negb (bool_decide (RecoveryCase.status c = RecoveryStatus.open)) then throw caseNotOpenError
      else
      await (sessionId, verificationUrl) := lift session in
      await updated := transaction (recordDiditSession ulid caseId sessionId actor traceId now) in
      match updated with None => throw caseNotOpenError | Some c => ret (verificationUrl, c) end
  | None => throw caseNotOpenError
  end.

(** [getDecision] is Didit's answer about a session: its status. *)
Definition GetAccountRecoveryCase_execute (getDecision : string → result string) (caseId : string)
    : io auth (RecoveryCase.t * option string * RecoveryCorroborationFacts) :=
  await existing := read (findCase caseId) in
  match existing with
  | None => throw caseNotFoundError
  | Some c =>
      await status := match RecoveryCase.freshDiditVerificationRef c with
                      | None => ret None
                      | Some ref => await st := lift (getDecision ref) in ret (Some st)
                      end in
      await facts := read (getCorroborationFacts (RecoveryCase.accountId c)) in
      ret (c, status, facts)
  end.

Definition RecordPrimaryRecoveryReview_execute (caseId actor traceId : string) (category : RecoveryCorroborationCategory)
    (now : Z) : io auth RecoveryCase.t :=
  await updated := transaction (recordPrimaryReview ulid caseId actor category traceId now) in
  match updated with None => throw primaryReviewUnavailableError | Some c => ret c end.

Definition DecideAccountRecoveryCase_execute (caseId actor traceId : string) (d : Decision) (reason : string) (now : Z)
    : io auth RecoveryCase.t :=
  await existing := read (findCase caseId) in
  match existing with
  | None => throw caseNotFoundError
  | Some c =>
      if bool_decide (RecoveryCase.reviewedByPrimary c = Some actor) then throw sameReviewerError
      else
      await updated := transaction (decideCase ulid caseId actor d reason traceId now) in
      match updated with
      | None => throw decisionUnavailableError
      | Some c =>
          await target := read (findTargetForRecovery (RecoveryCase.accountId c)) in
          await _ := send_to (target ≫= rt_contactEmail)
            (match d with
             | decide_approved => "sendAccountRecoveryApprovedEmail"
             | decide_rejected => "sendAccountRecoveryRejectedEmail"
             end) in
          ret c
      end
  end.

(** *** Completion *)

Definition record_step (caseId actor traceId action : string) (changes : list (string * json)) (at_ : Z) : io auth unit :=
  attempt fault action (transaction (recordRecoveryAuditEvent ulid caseId actor traceId action changes at_)).

Definition endCustomerDeviceAccess (caseId accountId userId actor traceId : string) (at_ : Z) : io auth unit :=
  iocatch
    (await devices := attempt fault "revokeDevicesForRecovery"
       (transaction (revokeDevicesForRecovery ulid caseId accountId actor traceId at_)) in
     await sessions := revokeSessionsForRecoveryCompletion fault userId in
     await _ := record_step caseId actor traceId "authentication.account_recovery_sessions_revoked"
       [("account_id", JStr accountId);
        ("revoked_device_count", JNum (Z.of_nat (length (revokedDeviceIds devices))));
        ("revoked_session_count", JNum (Z.of_nat (revokedSessionCount sessions)));
        ("revoked_device_session_count", JNum (Z.of_nat (deviceSessionCount sessions)))] at_ in
     await _ := clearRecoveryRequired fault userId in
     record_step caseId actor traceId "authentication.account_recovery_restriction_cleared" [("account_id", JStr accountId)] at_)
    (λ _, throw completion_failed).

Definition notifyCustomer (caseId actor traceId : string) (contact : option string) (at_ : Z) : io auth unit :=
  await outcome := match contact with
                   | None => ret "no_contact_email"
                   | Some _ => iocatch (await _ := send "sendAccountRecoveryCompletedEmail" in ret "sent") (λ _, ret "failed")
                   end in
  best_effort (record_step caseId actor traceId "authentication.account_recovery_reenrolment_notice"
                 [("outcome", JStr outcome)] at_).

(** The link to a staff passkey replacement is Better Auth's: only whether it could be sent matters here. *)
Definition sendRecoveryCompletionEmail (userId : string) : io auth unit :=
  await _ := find_customer fault userId in send "sendPasskeyRecoveryEmail".

Definition CompleteAccountRecovery_execute (caseId actor traceId : string) (completedAt : Z) : io auth RecoveryCase.t :=
  await existing := read (findCase caseId) in
  match existing with
  | Some c =>
    if negb (bool_decide (RecoveryCase.status c = RecoveryStatus.approved)) then throw caseNotApprovedError
    else
    await target := read (findTargetForRecovery (RecoveryCase.accountId c)) in
    match target with
    | None => throw caseNotApprovedError
    | Some target =>
      let cooldownEndsAt := completedAt + RECOVERY_COOLDOWN_HOURS * 60 * 60 * 1000 in
      await _ :=
        if rt_isStaff target
        then iocatch (sendRecoveryCompletionEmail (rt_betterAuthUserId target)) (λ _, throw completion_delivery_failed)
        else endCustomerDeviceAccess caseId (rt_accountId target) (rt_betterAuthUserId target) actor traceId completedAt in
      await updated := attempt fault "completeCase"
        (transaction (completeCase ulid caseId actor traceId completedAt cooldownEndsAt)) in
      match updated with
      | None => throw caseNotApprovedError
      | Some c =>
          await _ :=
            if rt_isStaff target then send_to (rt_contactEmail target) "sendAccountRecoveryCompletedEmail"
            else notifyCustomer caseId actor traceId (rt_contactEmail target) completedAt in
          ret c
      end
    end
  | None => throw caseNotApprovedError
  end.

(** ** Closure *)

Definition RequestAccountClosure_execute (accountId : string) (reason : option string) (now : Z) : io auth ClosureRequest.t :=
  await target := read (find_acct accountId) in
  match target with
  | None => throw closure_target_not_found
  | Some target =>
      if negb (bool_decide (Acct.status target = acc_active)) then throw closure_target_not_active
      else
      await existing := read (findPendingForAccount accountId) in
      match existing with
      | Some _ => throw requestAlreadyPendingError
      | None => transaction (create_closure ulid accountId reason now)
      end
  end.

Definition CancelAccountClosure_execute (accountId : string) (now : Z) : io auth ClosureRequest.t :=
  await pending := read (findPendingForAccount accountId) in
  match pending with
  | None => throw noPendingRequestError
  | Some p =>
      await cancelled := transaction (cancel_closure (ClosureRequest.id p) accountId now) in
      match cancelled with None => throw noPendingRequestError | Some r => ret r end
  end.

Definition ListPendingAccountClosureRequests_execute : io auth (list ClosureRequest.t) := read listPending.

Definition DecideAccountClosureRequest_execute (requestId reviewer : string) (d : Decision) (note : option string)
    (now decidedAt : Z) : io auth ClosureRequest.t :=
  await request := read (findRequest requestId) in
  match request with
  | Some r =>
      if negb (bool_decide (ClosureRequest.status r = ClosureStatus.pending)) then throw requestNotPendingError
      else
      await _ := match d with
                 | decide_rejected => ret tt
                 | decide_approved =>
                     await target := read (find_acct (ClosureRequest.accountId r)) in
                     match target with
                     | None => throw closure_target_not_found
                     | Some t => revokeAllSessions fault (Acct.betterAuthUserId t) now
                     end
                 end in
      await decided := transaction (decide_closure ulid requestId reviewer d note decidedAt) in
      match decided with None => throw requestNotPendingError | Some r => ret r end
  | None => throw requestNotPendingError
  end.

End Services.

End AuthServices.
