(* ===== verification/AuthDevice.v ===== *)
(** Devices: challenges, enrolment, login and self-service replacement
    (src/src/modules/auth/repository/customer/prisma-device*.repository.ts and
    application/customer/device-*.service.ts, device-auth-jws-verifier.ts).

    [now] of a repository call is the database's clock; a service's own clock is a separate argument.  The JOSE
    library, the decoding of a JWS header and the Android attestation are parameters. *)

From Stdlib Require Import Ascii String.
From S2P Require Import Prelude JsString DateTime IntakePolicy Db AuthDb AuthRecovery.

Module AuthDevice.
Import AuthDb AuthRecovery.

(** ** domain/mobile-platform.policy.ts, domain/device-challenge-replay.ts *)

Definition MOBILE_PLATFORMS : list string := ["android"; "ios"].
Definition ANDROID_ONLY_MOBILE_PLATFORM_POLICY : list string := ["android"].
Definition isMobilePlatform (v : string) : bool := bool_decide (v ∈ MOBILE_PLATFORMS).
Definition isMobilePlatformSupported (platform : string) (supported : list string) : bool := bool_decide (platform ∈ supported).
Definition mobileAuthPlatformFlags (supported : list string) : bool * bool :=
  (isMobilePlatformSupported "android" supported, isMobilePlatformSupported "ios" supported).

Definition CHALLENGE_REPLAY_WINDOW_MS : Z := 120000.
Definition ENROLMENT_INSERT_DEADLINE_MS : Z := 60000.

(** ** Errors (device-auth-errors.ts, device-auth-jws-verifier.ts) *)

Definition DeviceChallengeExpiredError : error := AppError "DEVICE_CHALLENGE_EXPIRED" 400 [].
Definition DeviceChallengeReplayedError : error := AppError "DEVICE_CHALLENGE_REPLAYED" 400 [].
Definition DeviceAlreadyEnrolledError : error := AppError "DEVICE_ALREADY_ENROLLED" 409 [].
Definition MobilePlatformUnsupportedError : error := AppError "MOBILE_PLATFORM_NOT_SUPPORTED" 400 [].
Definition DeviceLoginFailedError : error := AppError "DEVICE_LOGIN_FAILED" 401 [].
Definition DeviceJwsInvalidError (reason : string) : error := AppError "DEVICE_JWS_INVALID" 400 [reason].
Definition DeviceChallengePurposeMismatchError : error := AppError "DEVICE_CHALLENGE_PURPOSE_MISMATCH" 400 [].
Definition DeviceJwsDpopMismatchError : error := AppError "DEVICE_JWS_INVALID" 400 ["dpop_jkt"].

Definition isDeviceAuthJwsVerificationError (e : error) : bool :=
  match e with
  | AppError code _ _ => bool_decide (code ∈ ["DEVICE_JWS_INVALID"; "DEVICE_CHALLENGE_PURPOSE_MISMATCH"])
  | Thrown _ => false
  end.

(** ** Challenges (prisma-device-challenge.repository.ts) *)

Record ChallengeKey := mkChallengeKey { ck_challenge : string; ck_purpose : string; ck_dpopJkt : string; ck_deviceId : option string }.

(** [challenge = AND purpose = AND dpop_jkt =], and [AND device_id IS NOT DISTINCT FROM] *)
Definition key_matches (k : ChallengeKey) (c : Challenge.t) : bool :=
  bool_decide (Challenge.challenge c = ck_challenge k) && bool_decide (Challenge.purpose c = ck_purpose k) &&
  bool_decide (Challenge.dpopJkt c = ck_dpopJkt k).
Definition challenge_matches (k : ChallengeKey) (c : Challenge.t) : bool :=
  key_matches k c && bool_decide (Challenge.deviceId c = ck_deviceId k).

Definition issue (k : ChallengeKey) (ttlSeconds now : Z) : txn auth Z :=
  let expiresAt := now + ttlSeconds * 1000 in
  do! _ := tprim (λ s,
    if exists_row (by_id Challenge.challenge (ck_challenge k)) (challenges s) then violation "device_challenges_pkey"
    else Ok (set_challenges (challenges s ++
      [Challenge.mk (ck_challenge k) (ck_purpose k) (ck_dpopJkt k) (ck_deviceId k) expiresAt None]) s)) in
  tret expiresAt.

Definition consumable (k : ChallengeKey) (now : Z) (c : Challenge.t) : bool :=
  challenge_matches k c && bool_decide (Challenge.consumedAt c = None) && (now <? Challenge.expiresAt c).

Definition consume (k : ChallengeKey) (now : Z) : txn auth bool := λ s,
  if exists_row (consumable k now) (challenges s)
  then Ok (true, set_challenges (update_where (consumable k now) (Challenge.set_consumedAt now) (challenges s)) s)
  else Ok (false, s).

(** [consumed_at >=], false on NULL *)
Definition consumed_since (t : Z) (c : Challenge.t) : bool :=
  match Challenge.consumedAt c with Some u => t <=? u | None => false end.

Definition wasConsumedWithinReplayWindow (k : ChallengeKey) (now : Z) (s : auth) : bool :=
  exists_row (λ c, challenge_matches k c && consumed_since (now - CHALLENGE_REPLAY_WINDOW_MS) c) (challenges s).

Definition prunable (now : Z) (c : Challenge.t) : bool := Challenge.expiresAt c <? now - CHALLENGE_REPLAY_WINDOW_MS.

Definition pruneExpired (now : Z) : txn auth nat :=
  do! n := tread (λ s, length (List.filter (prunable now) (challenges s))) in
  do! _ := twrite (λ s, set_challenges (List.filter (λ c, negb (prunable now c)) (challenges s)) s) in
  tret n.

(** ** Devices (prisma-device.repository.ts) *)

Definition same_active_key (d e : Device.t) : bool :=
  Device.is_active e && bool_decide (Device.dpopJkt e = Device.dpopJkt d).

Definition device_create (d : Device.t) (s : auth) : result auth :=
  if exists_row (by_id Device.deviceId (Device.deviceId d)) (devices s) then violation "devices_pkey"
  else if exists_row (active_device_of (Device.accountId d)) (devices s) then violation "devices_one_active_per_account"
  else if exists_row (same_active_key d) (devices s) then violation "devices_dpop_jkt_active_key"
  else if negb (exists_row (by_id Acct.id (Device.accountId d)) (accts s)) then violation "devices_account_id_fkey"
  else Ok (set_devices (devices s ++ [d]) s).

Definition login_create (m : Login.t) (s : auth) : result auth :=
  if exists_row (by_id Login.id (Login.id m)) (logins s) then violation "login_methods_pkey"
  else if exists_row (λ n, bool_decide (Login.methodType n = Login.methodType m) &&
                           bool_decide (Login.providerSubject n = Login.providerSubject m)) (logins s)
       then violation "login_methods_method_type_provider_subject_key"
  else Ok (set_logins (logins s ++ [m]) s).

Definition relink (subject : string) (at_ : Z) (m : Login.t) : Login.t :=
  Login.mk (Login.id m) (Login.accountId m) (Login.methodType m) subject at_ true.

(** [loginMethod.upsert] on (accountId, methodType) *)
Definition upsert_device_key (fresh_login accountId deviceId : string) (at_ : Z) (s : auth) : result auth :=
  if exists_row (device_key_of accountId) (logins s)
  then Ok (set_logins (update_where (device_key_of accountId) (relink deviceId at_) (logins s)) s)
  else login_create (Login.mk fresh_login accountId device_key deviceId at_ true) s.

Record NewDevice := mkNewDevice {
  nd_accountId : string; nd_betterAuthUserId : string; nd_dpopJkt : string; nd_bioJkt : string;
  nd_biometricPublicJwk : json; nd_platform : string; nd_attestationMetadata : json; nd_consumed : ChallengeKey }.

(** The insert deadline: the row of the consumed challenge, locked until the transaction ends *)
Definition fresh_consumption (k : ChallengeKey) (now : Z) (c : Challenge.t) : bool :=
  key_matches k c &&
  match Challenge.consumedAt c with Some u => now - ENROLMENT_INSERT_DEADLINE_MS <? u | None => false end.

Definition within_deadline (k : ChallengeKey) (now : Z) (s : auth) : bool :=
  exists_row (fresh_consumption k now) (challenges s).

Section Repo.
Context (ulid : nat → string).

(** What the transaction writes once the deadline has been checked. *)
Definition insert_device (i : NewDevice) (now : Z) : txn auth Device.t :=
  do! k := fresh_id ulid "device_" in
  let d := Device.mk k (nd_accountId i) (nd_betterAuthUserId i) (nd_dpopJkt i) (nd_bioJkt i) (nd_biometricPublicJwk i)
             (nd_platform i) (nd_attestationMetadata i) DeviceStatus.active None None now now in
  do! _ := tprim (device_create d) in
  do! l := fresh_id ulid "login_" in
  do! _ := tprim (upsert_device_key l (nd_accountId i) k now) in
  tret d.

(** P2002 on either unique index of active devices *)
Definition already_enrolled (e : error) : error :=
  match e with
  | Thrown c => if bool_decide (c ∈ ["devices_one_active_per_account"; "devices_dpop_jkt_active_key"])
                then DeviceAlreadyEnrolledError else e
  | _ => e
  end.

Definition create_device (i : NewDevice) (now : Z) : txn auth Device.t := λ s,
  match (do! fresh := tread (within_deadline (nd_consumed i) now) in
         if negb fresh then tthrow DeviceChallengeExpiredError else insert_device i now) s with
  | Ok r => Ok r
  | Err e => Err (already_enrolled e)
  end.

Definition findByDeviceId (k : string) (s : auth) : option Device.t := find_row (by_id Device.deviceId k) (devices s).
Definition findByDpopJkt (jkt : string) (s : auth) : option Device.t :=
  find_row (λ d, bool_decide (Device.dpopJkt d = jkt) && Device.is_active d) (devices s).
(** [orderBy: { createdAt: "asc" }] *)
Definition findActiveDeviceForAccount (accountId : string) (s : auth) : option Device.t :=
  head (order_by (λ a b, Device.createdAt a <? Device.createdAt b) (List.filter (active_device_of accountId) (devices s))).

Definition touchLastSeen (k : string) (at_ : Z) : txn auth unit := tprim (λ s,
  if exists_row (by_id Device.deviceId k) (devices s)
  then Ok (set_devices (update_where (by_id Device.deviceId k) (Device.set_lastSeenAt at_) (devices s)) s)
  else Err (Thrown "P2025")).

Definition delete_device (k : string) : txn auth unit :=
  do! _ := twrite (λ s, set_logins (List.filter (λ m,
             negb (bool_decide (Login.methodType m = device_key) && bool_decide (Login.providerSubject m = k))) (logins s)) s) in
  twrite (λ s, set_devices (List.filter (λ d, negb (by_id Device.deviceId k d)) (devices s)) s).

End Repo.

(** *** What a registration writes *)

Definition login_rows (accountId deviceId login : string) (at_ : Z) (l : list Login.t) : list Login.t :=
  if exists_row (device_key_of accountId) l then update_where (device_key_of accountId) (relink deviceId at_) l
  else l ++ [Login.mk login accountId device_key deviceId at_ true].

Definition registrable (d : Device.t) (l : list Device.t) : Prop :=
  (∀ e, In e l → Device.deviceId e ≠ Device.deviceId d) ∧
  (∀ e, In e l → active_device_of (Device.accountId d) e = false) ∧
  (∀ e, In e l → Device.is_active e = true → Device.dpopJkt e ≠ Device.dpopJkt d).

Lemma insert_device_ok ulid i t s d s' : insert_device ulid i t s = Ok (d, s') →
  ∃ k b login, d = Device.mk k (nd_accountId i) (nd_betterAuthUserId i) (nd_dpopJkt i) (nd_bioJkt i) (nd_biometricPublicJwk i)
                     (nd_platform i) (nd_attestationMetadata i) DeviceStatus.active None None t t ∧
    registrable d (devices s) ∧
    s' = set_logins (login_rows (nd_accountId i) k login t (logins s)) (set_devices (devices s ++ [d]) (set_abase b s)).
Proof.
  intros H. unfold insert_device in H. inv_tx H. apply new_id_ok in Htx as [_ ->]. apply new_id_ok in Htx1 as [_ ->].
  unfold device_create in Htx0. destruct (exists_row _ _) eqn:E1 in Htx0; [done|].
  destruct (exists_row _ _) eqn:E2 in Htx0; [done|]. destruct (exists_row _ _) eqn:E3 in Htx0; [done|].
  destruct (negb _) in Htx0; [done|]. injection Htx0 as <-.
  rewrite exists_row_false in E1, E2, E3. simpl in *.
  set (d := Device.mk _ _ _ _ _ _ _ _ _ _ _ _ _) in *. exists a.
  assert (registrable d (devices s)) as Hreg.
  { split; [|split]; [|done|].
    - intros e He E. specialize (E1 e He). unfold by_id in E1. by boolify.
    - intros e He Ha E. specialize (E3 e He). unfold same_active_key in E3. rewrite Ha in E3. simpl in E3. boolify. done. }
  unfold upsert_device_key in Htx2. simpl in Htx2. unfold login_rows.
  destruct (exists_row (device_key_of _) (logins s)) eqn:El.
  - injection Htx2 as <-. eexists _, "". by split.
  - unfold login_create in Htx2. destruct (exists_row _ _) in Htx2; [done|]. destruct (exists_row _ _) in Htx2; [done|].
    injection Htx2 as <-. eexists _, _. by split.
Qed.

Lemma create_device_ok ulid i t s d s' : create_device ulid i t s = Ok (d, s') →
  within_deadline (nd_consumed i) t s = true ∧ insert_device ulid i t s = Ok (d, s').
Proof.
  unfold create_device. destruct (tbind _ _ s) as [[a s1]|e] eqn:E; [|done]. intros [= <- <-].
  inv_tx E. apply negb_false_iff in E0. done.
Qed.

(** ** device-auth-jws-verifier.ts *)

Definition IAT_WINDOW_SECONDS : Z := 60.
Definition JWS_TYP : string := "vistablox-device-auth+jwt".

Definition field (k : string) (l : list (string * json)) : option json :=
  snd <$> find_row (λ kv, bool_decide (kv.1 = k)) l.
Definition text_field (k : string) (l : list (string * json)) : option string :=
  match field k l with Some (JStr v) => Some v | _ => None end.

Definition isPublicP256Jwk (v : option json) : bool :=
  match v with
  | Some (JObj l) =>
      bool_decide (text_field "kty" l = Some "EC") && bool_decide (text_field "crv" l = Some "P-256") &&
      negb (bool_decide (text_field "x" l = None)) && negb (bool_decide (text_field "y" l = None)) &&
      match field "d" l with Some _ => false | None => true end
  | _ => false
  end.

Record DeviceAuthJwsClaims := mkClaims {
  jc_bioJkt : string; jc_purpose : string; jc_challenge : string; jc_deviceId : option string; jc_jwk : option json }.

Record JwsExpectation := mkExpectation {
  je_purpose : string; je_challenge : string; je_deviceId : option string; je_deviceIdClaimOptional : bool;
  je_storedPublicJwk : option json; je_dpopJkt : option string }.

(** The library and decoding the verifier calls: [jh_header] is the parsed header of the first part, [jh_thumbprint]
    calculateJwkThumbprint, [jh_verify] the payload when the signature of the token verifies under a key. *)
Record Jose := mkJose {
  jh_header : string → option json; jh_thumbprint : json → string; jh_verify : string → json → option (list (string * json)) }.

Section Jws.
Context (J : Jose).

Definition check_header (jws : string) : result (list (string * json)) :=
  match JsString.split "."%char jws with
  | [p0; _; _] =>
      match jh_header J p0 with
      | Some (JObj h) =>
          if negb (bool_decide (text_field "typ" h = Some JWS_TYP)) then Err (DeviceJwsInvalidError "unexpected typ")
          else if negb (bool_decide (text_field "alg" h = Some "ES256")) then Err (DeviceJwsInvalidError "unsupported alg")
          else match text_field "kid" h with
               | Some (String _ _) => Ok h
               | _ => Err (DeviceJwsInvalidError "missing kid")
               end
      | Some (JArr _) => Err (DeviceJwsInvalidError "unexpected typ")
      | _ => Err (DeviceJwsInvalidError "malformed protected header")
      end
  | _ => Err (DeviceJwsInvalidError "malformed JWS")
  end.

Definition verification_key (h : list (string * json)) (isEnrolDevice : bool) (stored : option json) : result json :=
  if isEnrolDevice then
    match field "jwk" h with
    | Some k => if isPublicP256Jwk (Some k) then Ok k else Err (DeviceJwsInvalidError "embedded jwk")
    | None => Err (DeviceJwsInvalidError "embedded jwk")
    end
  else
    match field "jwk" h, stored with
    | Some _, _ => Err (DeviceJwsInvalidError "jwk must not be embedded")
    | None, None => Err (DeviceJwsInvalidError "no stored key")
    | None, Some k => Ok k
    end.

Definition check_payload (x : JwsExpectation) (isEnrolDevice : bool) (now : Z) (payload : list (string * json)) : result unit :=
  if negb (bool_decide (text_field "purpose" payload = Some (je_purpose x))) then Err DeviceChallengePurposeMismatchError
  else if negb (bool_decide (text_field "challenge" payload = Some (je_challenge x)))
    then Err (DeviceJwsInvalidError "challenge mismatch")
  else
  let! _ := match field "iat" payload with
            | Some (JNum iat) => if IAT_WINDOW_SECONDS <? Z.abs (now / 1000 - iat)
                                 then Err (DeviceJwsInvalidError "iat outside the allowed window") else Ok tt
            | _ => Err (DeviceJwsInvalidError "iat outside the allowed window")
            end in
  let! _ := match je_deviceId x with
            | None => Ok tt
            | Some expected =>
                let omitted := negb (bool_decide (is_Some (field "device_id" payload))) in
                if negb (omitted && je_deviceIdClaimOptional x) &&
                   negb (bool_decide (text_field "device_id" payload = Some expected))
                then Err (DeviceJwsInvalidError "device_id mismatch") else Ok tt
            end in
  if isEnrolDevice && negb (bool_decide (is_Some (text_field "dpop_jkt" payload)) &&
                            bool_decide (text_field "dpop_jkt" payload = je_dpopJkt x))
  then Err DeviceJwsDpopMismatchError else Ok tt.

Definition verifyDeviceAuthJws (jws0 : string) (x : JwsExpectation) (now : Z) : result DeviceAuthJwsClaims :=
  let jws := JsString.trim jws0 in
  let! h := check_header jws in
  let isEnrolDevice := bool_decide (je_purpose x = "enrol-device") in
  let! key := verification_key h isEnrolDevice (je_storedPublicJwk x) in
  let bioJkt := jh_thumbprint J key in
  if negb (bool_decide (text_field "kid" h = Some bioJkt)) then Err (DeviceJwsInvalidError "kid does not match")
  else
  match jh_verify J jws key with
  | None => Err (DeviceJwsInvalidError "signature verification failed")
  | Some payload =>
      let! _ := check_payload x isEnrolDevice now payload in
      Ok (mkClaims bioJkt (je_purpose x) (je_challenge x) (text_field "device_id" payload)
            (if isEnrolDevice then Some key else None))
  end.

End Jws.

End AuthDevice.
