(* ===== verification/AuthSessions.v ===== *)
(** Device sessions: how long they live, which are fresh, and which one a phone keeps
    (src/src/modules/auth/domain/device-session-lifetime.ts, fresh-authentication.ts,
    device-session-supersede.ts and the code that applies them).

    A session row's timestamps are columns that are never null, so they are read as they are. *)

From Stdlib Require Import String.
From S2P Require Import Prelude JsString DateTime Paging IntakePolicy Db AuthDb.

Module AuthSessions.
Import Paging AuthDb.

(** ** Lifetime *)

Definition DEVICE_SESSION_IDLE_TIMEOUT_MS : Z := 5 * 60 * 1000.
Definition DEVICE_SESSION_ABSOLUTE_LIFETIME_MS : Z := 30 * 60 * 1000.
Definition DEVICE_SESSION_AUTHENTICATION_LEVEL : string := "device_biometric".

Inductive DeviceSessionExpiryReason := idle_timeout | absolute_lifetime.

Inductive DeviceSessionLifetimeVerdict :=
  | verdict_active (idleExpiresAt absoluteExpiresAt : Z)
  | verdict_expired (reason : DeviceSessionExpiryReason).

Definition deviceSessionAbsoluteExpiresAt (createdAt : Z) : Z := createdAt + DEVICE_SESSION_ABSOLUTE_LIFETIME_MS.

Definition evaluateDeviceSessionLifetime (createdAt lastActivityAt now : Z) : DeviceSessionLifetimeVerdict :=
  let absoluteExpiresAt := deviceSessionAbsoluteExpiresAt createdAt in
  if absoluteExpiresAt <=? now then verdict_expired absolute_lifetime
  else
  let lastActivity := Z.max lastActivityAt createdAt in
  let idleExpiry := lastActivity + DEVICE_SESSION_IDLE_TIMEOUT_MS in
  if idleExpiry <=? now then verdict_expired idle_timeout
  else verdict_active (Z.min idleExpiry absoluteExpiresAt) absoluteExpiresAt.

(** The wrapped findSession of better-auth-device-session-lifetime.plugin.ts: a device session past a limit is
    handed on as expired, any other as it is. *)
Definition with_expiresAt (v : Z) (x : BaSession.t) : BaSession.t :=
  BaSession.mk (BaSession.id x) (BaSession.token x) (BaSession.userId x) (BaSession.dpopJkt x)
    (BaSession.authenticationLevel x) (BaSession.createdAt x) (BaSession.updatedAt x) v.

Definition is_device_session (x : BaSession.t) : bool :=
  bool_decide (BaSession.authenticationLevel x = DEVICE_SESSION_AUTHENTICATION_LEVEL).

Definition session_verdict (x : BaSession.t) (now : Z) : DeviceSessionLifetimeVerdict :=
  evaluateDeviceSessionLifetime (BaSession.createdAt x) (BaSession.updatedAt x) now.

Definition applyDeviceSessionLimits (found : option BaSession.t) (now : Z) : option BaSession.t :=
  match found with
  | Some x =>
      if negb (is_device_session x) then found
      else match session_verdict x now with
           | verdict_active _ _ => found
           | verdict_expired _ => Some (with_expiresAt (Z.min (BaSession.expiresAt x) (now - 1)) x)
           end
  | None => None
  end.

(** [session.update.before]: whether a write may go through *)
Definition allows_update (writes_expiresAt : bool) (current : option BaSession.t) : bool :=
  match current with
  | Some x => negb (writes_expiresAt && is_device_session x)
  | None => true
  end.

(** BetterAuthSessionResolver.recordActivity of a device session: the UPDATE of auth_session *)
Definition records_activity (sessionId : string) (now : Z) (x : BaSession.t) : bool :=
  by_id BaSession.id sessionId x && is_device_session x &&
  (now - DEVICE_SESSION_ABSOLUTE_LIFETIME_MS <? BaSession.createdAt x) &&
  (now - DEVICE_SESSION_IDLE_TIMEOUT_MS <? BaSession.updatedAt x).

Definition touch (now : Z) (x : BaSession.t) : BaSession.t :=
  BaSession.mk (BaSession.id x) (BaSession.token x) (BaSession.userId x) (BaSession.dpopJkt x)
    (BaSession.authenticationLevel x) (BaSession.createdAt x) (Z.max (BaSession.updatedAt x) now) (BaSession.expiresAt x).

Definition recordActivity (sessionId : string) (now : Z) (l : list BaSession.t) : list BaSession.t :=
  update_where (records_activity sessionId now) (touch now) l.

(** ** Fresh authentication *)

Definition FRESH_AUTH_WINDOW_MS : Z := 5 * 60 * 1000.

Record FreshAuthenticationSubject := mkSubject {
  fs_population : string; fs_authenticationLevel : option string; fs_sessionCreatedAt : option Z }.

Definition isFreshDeviceSession (x : FreshAuthenticationSubject) (now : Z) : bool :=
  bool_decide (fs_population x = "customer") &&
  bool_decide (fs_authenticationLevel x = Some "device_biometric") &&
  match fs_sessionCreatedAt x with Some t => now - FRESH_AUTH_WINDOW_MS <=? t | None => false end.

(** ** Superseding earlier sessions of a phone *)

Definition isBoundToDpopKey (x : BaSession.t) (jkt : string) : bool := bool_decide (BaSession.dpopJkt x = Some jkt).

Definition hasExpired (expiresAt now : Z) : bool := expiresAt <=? now.

(** later createdAt, or the same and a greater id *)
Definition isNewer (a b : BaSession.t) : bool :=
  if negb (BaSession.createdAt a =? BaSession.createdAt b) then BaSession.createdAt b <? BaSession.createdAt a
  else String.ltb (BaSession.id b) (BaSession.id a).

Definition candidate (jkt : string) (now : Z) (x : BaSession.t) : bool :=
  is_device_session x && isBoundToDpopKey x jkt && negb (hasExpired (BaSession.expiresAt x) now).

Definition sessionsToSupersede (l : list BaSession.t) (jkt : string) (now : Z) : list BaSession.t :=
  let candidates := List.filter (candidate jkt now) l in
  match candidates with
  | [] | [_] => []
  | c :: rest =>
      let newest := foldl (λ kept x, if isNewer x kept then x else kept) c rest in
      List.filter (λ x, negb (bool_decide (x = newest))) candidates
  end.

(** *** The order *)

(** It is the order of the (createdAt, id) pairs. *)
Definition age (x : BaSession.t) : Z * string := (BaSession.createdAt x, BaSession.id x).

Lemma isNewer_age a b : isNewer a b = newest_first (age a) (age b).
Proof.
  unfold isNewer, newest_first, age. simpl. rewrite (Z.eqb_sym (BaSession.createdAt b)).
  destruct (Z.eqb_spec (BaSession.createdAt a) (BaSession.createdAt b)) as [E|E]; simpl; [|by rewrite orb_false_r].
  by rewrite E, Z.ltb_irrefl.
Qed.

Lemma isNewer_irrefl a : isNewer a a = false.
Proof. rewrite isNewer_age. apply newest_first_irrefl. Qed.

Lemma isNewer_trans a b c : isNewer a b = true → isNewer b c = true → isNewer a c = true.
Proof. rewrite !isNewer_age. apply newest_first_trans. Qed.

Lemma isNewer_total a b : BaSession.id a ≠ BaSession.id b → isNewer a b = true ∨ isNewer b a = true.
Proof.
  intros Hne. rewrite !isNewer_age. destruct (newest_first (age a) (age b)) eqn:E; [by left|].
  destruct (newest_first (age b) (age a)) eqn:E'; [by right|]. by injection (newest_first_total (age a) (age b) E E') as _ ?.
Qed.

Lemma not_newer_trans a b c : isNewer a b = false → isNewer b c = false → isNewer a c = false.
Proof.
  intros H1 H2. destruct (isNewer a c) eqn:E; [|done]. destruct (isNewer b a) eqn:E'.
  - by rewrite (isNewer_trans b a c E' E) in H2.
  - rewrite isNewer_age in *. assert (age a = age b) as Eab by (by apply newest_first_total). congruence.
Qed.

Definition newer_of (kept x : BaSession.t) : BaSession.t := if isNewer x kept then x else kept.

(** The session the reduction keeps is one of the candidates, and none is newer. *)
Lemma newest_spec c l : let m := foldl newer_of c l in In m (c :: l) ∧ ∀ x, In x (c :: l) → isNewer x m = false.
Proof.
  revert c. induction l as [|y l IH]; intros c; simpl.
  - split; [by left|]. intros x [<-|[]]. apply isNewer_irrefl.
  - destruct (IH (newer_of c y)) as [Hin Hmax]. set (m := foldl newer_of (newer_of c y) l) in *. clearbody m.
    pose proof (Hmax _ (or_introl eq_refl)) as Hk.
    assert (isNewer c (newer_of c y) = false ∧ isNewer y (newer_of c y) = false) as [H1 H2].
    { unfold newer_of. destruct (isNewer y c) eqn:E; (split; [|by rewrite ?isNewer_irrefl]); [|apply isNewer_irrefl].
      destruct (isNewer c y) eqn:E'; [|done]. by rewrite <- (isNewer_irrefl y), (isNewer_trans y c y). }
    split.
    + destruct Hin as [<-|Hin]; [|by right; right]. unfold newer_of. destruct (isNewer y c); [by right; left | by left].
    + intros x [<-|[<-|Hx]]; [by eapply not_newer_trans.. | by apply Hmax; right].
Qed.

Definition distinct_ids (l : list BaSession.t) : Prop :=
  ∀ x y, In x l → In y l → BaSession.id x = BaSession.id y → x = y.

(** Exactly the candidates that are older than another candidate are superseded. *)
Lemma superseded_iff l jkt now x : distinct_ids l →
  In x (sessionsToSupersede l jkt now) ↔
  In x l ∧ candidate jkt now x = true ∧ ∃ y, In y l ∧ candidate jkt now y = true ∧ isNewer y x = true.
Proof.
  intros Hd. unfold sessionsToSupersede.
  assert (∀ z, In z (List.filter (candidate jkt now) l) ↔ In z l ∧ candidate jkt now z = true) as Hf by (intros z; apply filter_In).
  destruct (List.filter (candidate jkt now) l) as [|c [|c2 rest]] eqn:E.
  - split; [done|]. intros (Hx & Hc & _). by apply (Hf x).
  - split; [done|]. intros (Hx & Hc & y & Hy & Hcy & Hn).
    assert (x = c) as -> by (destruct (proj2 (Hf x)) as [|[]]; done).
    assert (y = c) as -> by (destruct (proj2 (Hf y)) as [|[]]; done). by rewrite isNewer_irrefl in Hn.
  - change (foldl _ c (c2 :: rest)) with (foldl newer_of c (c2 :: rest)).
    destruct (newest_spec c (c2 :: rest)) as [Hmin Hmax]. set (m := foldl newer_of c (c2 :: rest)) in *. clearbody m.
    rewrite filter_In, negb_true_iff, bool_decide_eq_false. split.
    + intros [Hx Hne]. pose proof (proj1 (Hf x) Hx) as [Hxl Hxc]. pose proof (proj1 (Hf m) Hmin) as [Hml Hmc].
      split; [done|]. split; [done|]. exists m. split; [done|]. split; [done|].
      destruct (isNewer_total x m) as [H|H]; [|by rewrite Hmax in H|done].
      intros Eid. by apply Hne, Hd.
    + intros (Hx & Hxc & y & Hy & Hyc & Hn). split; [by apply Hf|]. intros ->.
      rewrite (Hmax y) in Hn; [done | by apply Hf].
Qed.

End AuthSessions.
