(* ===== verification/AuthCeremonies.v ===== *)
(** Overlapping device ceremonies of one phone.

    Each successful enrolment or login creates a session and then revokes the earlier sessions of the same
    phone: it lists the user's sessions, picks those to supersede and deletes them one by one
    ([supersedeEarlierDeviceSessions] of better-auth-device-auth.plugin.ts).  Several ceremonies may overlap: the
    steps below interleave freely, and a listing or a deletion may fail, which is only logged.  A ceremony that fails
    once its session exists discards that session ([discardCeremonySession]), and a session may be signed out or
    revoked by the user at any time. *)

From Stdlib Require Import String.
From stdpp Require Import gmap.
From S2P Require Import Prelude JsString DateTime Paging IntakePolicy Db AuthDb AuthSessions.

Module AuthCeremonies.
Import AuthDb AuthSessions.

Inductive phase := created | revoking (tokens : list string) | finished.
Record ceremony := mkCeremony { made : BaSession.t; progress : phase }.

(** The session table, the ceremonies of one phone by the id of the session each created, and the ids of the sessions
    that were discarded by their own ceremony or signed out. *)
Record phone := mkPhone { live : list BaSession.t; ceremonies : gmap string ceremony; ended : gset string }.

Section Ceremonies.
Context `{A : InternalAdapter} `{!InternalAdapterLaws A} (user jkt : string).

(** A live device session of this user on this phone. *)
Definition mine (x : BaSession.t) : Prop :=
  BaSession.userId x = user ∧ BaSession.dpopJkt x = Some jkt ∧ is_device_session x = true.

(** What a ceremony decides to revoke from the sessions it sees. *)
Definition superseded_now (now : Z) (l : list BaSession.t) : list string :=
  map BaSession.token (sessionsToSupersede (listSessions user l) jkt now).

Definition keys_ok (l : list BaSession.t) : Prop :=
  distinct_ids l ∧ ∀ x y, In x l → In y l → BaSession.token x = BaSession.token y → x = y.

Definition begun (p : phone) (x : BaSession.t) : Prop := ∃ ph, ceremonies p !! BaSession.id x = Some (mkCeremony x ph).

(** [faults] says whether calls may fail.  A discard ([ps_discard]) follows a failure of the ceremony between creating
    its session and superseding the earlier ones; its deletion is best-effort too ([ps_discard_fails]). *)
Inductive phone_step (faults : bool) : phone → phone → Prop :=
  | ps_create x l cs e : mine x → keys_ok (l ++ [x]) → cs !! BaSession.id x = None →
      (∀ y, begun (mkPhone l cs e) y → BaSession.token y ≠ BaSession.token x) → ¬ In x l →
      phone_step faults (mkPhone l cs e) (mkPhone (l ++ [x]) (<[BaSession.id x := mkCeremony x created]> cs) e)
  | ps_discard x l cs e : cs !! BaSession.id x = Some (mkCeremony x created) →
      phone_step faults (mkPhone l cs e)
        (mkPhone (deleteSession (BaSession.token x) l) (<[BaSession.id x := mkCeremony x finished]> cs)
           ({[BaSession.id x]} ∪ e))
  | ps_list x now l cs e : cs !! BaSession.id x = Some (mkCeremony x created) →
      (∀ y, begun (mkPhone l cs e) y → now < BaSession.expiresAt y) →
      phone_step faults (mkPhone l cs e)
        (mkPhone l (<[BaSession.id x := mkCeremony x (revoking (superseded_now now l))]> cs) e)
  | ps_delete x k ks l cs e : cs !! BaSession.id x = Some (mkCeremony x (revoking (k :: ks))) →
      phone_step faults (mkPhone l cs e)
        (mkPhone (deleteSession k l) (<[BaSession.id x := mkCeremony x (revoking ks)]> cs) e)
  | ps_done x l cs e : cs !! BaSession.id x = Some (mkCeremony x (revoking [])) →
      phone_step faults (mkPhone l cs e) (mkPhone l (<[BaSession.id x := mkCeremony x finished]> cs) e)
  | ps_signout x ph l cs e : cs !! BaSession.id x = Some (mkCeremony x ph) →
      phone_step faults (mkPhone l cs e)
        (mkPhone (deleteSession (BaSession.token x) l) cs ({[BaSession.id x]} ∪ e))
  | ps_discard_fails x l cs e : faults = true → cs !! BaSession.id x = Some (mkCeremony x created) →
      phone_step faults (mkPhone l cs e)
        (mkPhone l (<[BaSession.id x := mkCeremony x finished]> cs) ({[BaSession.id x]} ∪ e))
  | ps_list_fails x l cs e : faults = true → cs !! BaSession.id x = Some (mkCeremony x created) →
      phone_step faults (mkPhone l cs e) (mkPhone l (<[BaSession.id x := mkCeremony x finished]> cs) e)
  | ps_delete_fails x k ks l cs e : faults = true → cs !! BaSession.id x = Some (mkCeremony x (revoking (k :: ks))) →
      phone_step faults (mkPhone l cs e) (mkPhone l (<[BaSession.id x := mkCeremony x (revoking ks)]> cs) e)
  | ps_others l l' cs e : keys_ok l' → (∀ x, mine x → In x l' ↔ In x l) →
      phone_step faults (mkPhone l cs e) (mkPhone l' cs e).

(** The phone starts with no session of its own. *)
Definition reached (faults : bool) (p : phone) : Prop :=
  ∃ l, keys_ok l ∧ (∀ x, mine x → ¬ In x l) ∧ rtc (phone_step faults) (mkPhone l ∅ ∅) p.

Definition newest_begun (p : phone) (x : BaSession.t) : Prop :=
  begun p x ∧ ∀ y, begun p y → isNewer y x = false.

Definition outdated (p : phone) (x : BaSession.t) : Prop := begun p x ∧ ∃ y, begun p y ∧ isNewer y x = true.

Definition pending (p : phone) (k : string) : Prop := ∃ i x ks, ceremonies p !! i = Some (mkCeremony x (revoking ks)) ∧ k ∈ ks.

Definition listed (p : phone) (x : BaSession.t) : Prop :=
  ∃ ph, ceremonies p !! BaSession.id x = Some (mkCeremony x ph) ∧ ph ≠ created.

(** A session goes only when a newer one was begun or it was ended; of two live sessions whose ceremonies have both
    listed, the older is about to be revoked. *)
Record phone_ok (faults : bool) (p : phone) : Prop := {
  po_keys : keys_ok (live p);
  po_id : ∀ i c, ceremonies p !! i = Some c → BaSession.id (made c) = i;
  po_tokens : ∀ x y, begun p x → begun p y → BaSession.token x = BaSession.token y → x = y;
  po_mine : ∀ x, begun p x → mine x;
  po_live : ∀ x, In x (live p) → mine x → begun p x;
  po_pending : ∀ k, pending p k → ∃ x, outdated p x ∧ BaSession.token x = k;
  po_gone : ∀ x, begun p x → ¬ In x (live p) → outdated p x ∨ BaSession.id x ∈ ended p;
  po_listed : faults = false → ∀ x y, listed p x → listed p y → In x (live p) → In y (live p) →
    isNewer y x = true → pending p (BaSession.token x) }.

(** ** The invariant is kept *)

(** A ceremony that moves on is still the ceremony of its session. *)
Lemma begun_progress l l' cs e e' x ph ph' y : cs !! BaSession.id x = Some (mkCeremony x ph) →
  begun (mkPhone l' (<[BaSession.id x := mkCeremony x ph']> cs) e') y ↔ begun (mkPhone l cs e) y.
Proof.
  intros E. unfold begun. simpl. destruct (decide (BaSession.id y = BaSession.id x)) as [Ey|Hne].
  - rewrite Ey, lookup_insert_eq, E. split; intros [q [= <- _]]; eauto.
  - by rewrite lookup_insert_ne.
Qed.

Lemma outdated_progress l l' cs e e' x ph ph' y : cs !! BaSession.id x = Some (mkCeremony x ph) →
  outdated (mkPhone l' (<[BaSession.id x := mkCeremony x ph']> cs) e') y ↔ outdated (mkPhone l cs e) y.
Proof. intros E. unfold outdated. by setoid_rewrite (begun_progress l l' cs e e' x ph ph' _ E). Qed.

Lemma outdated_mono p p' x : (∀ y, begun p y → begun p' y) → outdated p x → outdated p' x.
Proof. intros H (Hx & y & Hy & Hn). split; [by apply H|]. exists y. auto. Qed.

(** Some begun session is the newest, at or above any given one. *)
Lemma newest_exists faults p x : phone_ok faults p → begun p x →
  ∃ m, newest_begun p m ∧ (m = x ∨ isNewer m x = true).
Proof.
  intros Hok Hx. pose (l := map made (map_to_list (ceremonies p)).*2).
  assert (∀ y, In y l ↔ begun p y) as Hl.
  { intros y. unfold l. rewrite in_map_iff. split.
    - intros (c & <- & Hc). apply list_elem_of_In, list_elem_of_fmap in Hc as ((i & c') & -> & Hc). simpl.
      apply elem_of_map_to_list in Hc. exists (progress c'). rewrite (po_id _ _ Hok i c' Hc). by destruct c'.
    - intros [ph E]. exists (mkCeremony y ph). split; [done|]. apply list_elem_of_In, list_elem_of_fmap.
      exists (BaSession.id y, mkCeremony y ph). split; [done|]. by apply elem_of_map_to_list. }
  destruct (newest_spec x l) as [Hin Hmax]. set (m := foldl newer_of x l) in *. clearbody m.
  assert (begun p m) as Hm by (destruct Hin as [<-|Hin]; [done | by apply Hl]).
  exists m. split; [split; [done | intros y Hy; apply Hmax; right; by apply Hl]|].
  destruct (decide (BaSession.id m = BaSession.id x)) as [Eid|Hne].
  - left. destruct Hm as [q Em], Hx as [q' Ex]. congruence.
  - right. destruct (isNewer_total m x Hne) as [H|H]; [done|]. rewrite Hmax in H; [done | by left].
Qed.

Lemma newest_live faults p m : phone_ok faults p → newest_begun p m → In m (live p) ∨ BaSession.id m ∈ ended p.
Proof.
  intros Hok [Hm Hmax]. destruct (in_dec (λ a b, decide (a = b)) m (live p)) as [H|H]; [by left|].
  destruct (po_gone _ _ Hok m Hm H) as [(_ & y & Hy & Hn)|H']; [by rewrite (Hmax y Hy) in Hn | by right].
Qed.

Lemma candidate_mine now x : candidate jkt now x = true → BaSession.userId x = user → mine x.
Proof. unfold candidate, isBoundToDpopKey. intros H Hu. boolify. by split. Qed.

Lemma mine_candidate now x : mine x → now < BaSession.expiresAt x → candidate jkt now x = true.
Proof.
  intros (_ & Hj & Hd) Hn. unfold candidate, isBoundToDpopKey, hasExpired. rewrite Hd, bool_decide_eq_true_2 by done. simpl.
  rewrite negb_true_iff. by apply Z.leb_gt.
Qed.

Lemma listed_ids l : distinct_ids l → distinct_ids (listSessions user l).
Proof. intros H x y [Hx _]%listSessions_spec [Hy _]%listSessions_spec. by apply H. Qed.

(** A listing revokes every session of the phone it sees next to a newer one. *)
Lemma superseded_now_finds faults p now x y : phone_ok faults p → (∀ z, begun p z → now < BaSession.expiresAt z) →
  begun p x → begun p y → In x (live p) → In y (live p) → isNewer y x = true →
  BaSession.token x ∈ superseded_now now (live p).
Proof.
  intros Hok Hexp Hx Hy Hxl Hyl Hn. unfold superseded_now. apply list_elem_of_In, in_map_iff. exists x. split; [done|].
  apply superseded_iff; [apply listed_ids, (po_keys _ _ Hok)|].
  pose proof (po_mine _ _ Hok x Hx) as Hmx. pose proof (po_mine _ _ Hok y Hy) as Hmy.
  split; [apply listSessions_spec; split; [done | apply Hmx]|]. split; [by apply mine_candidate, Hexp|].
  exists y. split; [apply listSessions_spec; split; [done | apply Hmy]|]. split; [by apply mine_candidate, Hexp | done].
Qed.

Lemma superseded_outdated faults p now k : phone_ok faults p → k ∈ superseded_now now (live p) →
  ∃ x, outdated p x ∧ BaSession.token x = k.
Proof.
  intros Hok Hk. unfold superseded_now in Hk. apply list_elem_of_In, in_map_iff in Hk as (x & Ek & Hx).
  apply superseded_iff in Hx as (Hxl & Hxc & y & Hyl & Hyc & Hn); [|apply listed_ids, (po_keys _ _ Hok)].
  apply listSessions_spec in Hxl as [Hxl Hxu], Hyl as [Hyl Hyu]. exists x. split; [|done].
  split; [|exists y; split; [|done]]; apply (po_live _ _ Hok); try done; by eapply candidate_mine.
Qed.

(** A ceremony moves on, and the table loses at most outdated and ended sessions. *)
Lemma ok_progress faults l l' cs e e' x ph ph' : let p := mkPhone l cs e in
  let p' := mkPhone l' (<[BaSession.id x := mkCeremony x ph']> cs) e' in
  phone_ok faults p → cs !! BaSession.id x = Some (mkCeremony x ph) →
  keys_ok l' → (∀ y, In y l' → In y l) → e ⊆ e' →
  (∀ y, begun p y → In y l → ¬ In y l' → outdated p y ∨ BaSession.id y ∈ e') →
  (∀ k ks, ph' = revoking ks → k ∈ ks → ∃ y, outdated p y ∧ BaSession.token y = k) →
  (faults = false → ∀ a b, listed p' a → listed p' b → In a l' → In b l' → isNewer b a = true →
   pending p' (BaSession.token a)) →
  phone_ok faults p'.
Proof.
  intros p p' Hok Ex Hk Hsub He Hgone Hpend Hlist.
  pose proof (λ y, begun_progress l l' cs e e' x ph ph' y Ex) as HB. fold p p' in HB.
  pose proof (λ y, outdated_progress l l' cs e e' x ph ph' y Ex) as HO. fold p p' in HO.
  split; try done.
  - intros i c. simpl. destruct (decide (i = BaSession.id x)) as [->|Hne].
    + rewrite lookup_insert_eq. by intros [= <-].
    + rewrite lookup_insert_ne by done. apply (po_id _ _ Hok).
  - intros a b. rewrite !HB. apply (po_tokens _ _ Hok).
  - intros y. rewrite HB. apply (po_mine _ _ Hok).
  - intros y Hy Hm. apply HB, (po_live _ _ Hok); [by apply Hsub | done].
  - intros k (i & y & ks & E & Hin). simpl in E. setoid_rewrite HO. destruct (decide (i = BaSession.id x)) as [->|Hne].
    + rewrite lookup_insert_eq in E. injection E as <- ->. by eapply Hpend.
    + rewrite lookup_insert_ne in E by done. apply (po_pending _ _ Hok). by exists i, y, ks.
  - intros y Hy Hn. rewrite HO. rewrite HB in Hy. destruct (in_dec (λ a b, decide (a = b)) y l) as [H|H]; [by apply Hgone|].
    destruct (po_gone _ _ Hok y Hy H) as [H'|H']; [by left | right; by apply He].
Qed.

(** Other ceremonies' pending revocations stay pending. *)
Lemma pending_keep l l' cs e e' x ph ph' k : cs !! BaSession.id x = Some (mkCeremony x ph) →
  (∀ ks, ph = revoking ks → k ∈ ks → ∃ ks', ph' = revoking ks' ∧ k ∈ ks') →
  pending (mkPhone l cs e) k → pending (mkPhone l' (<[BaSession.id x := mkCeremony x ph']> cs) e') k.
Proof.
  intros E H (i & y & ks & Ei & Hk). simpl in *. destruct (decide (i = BaSession.id x)) as [->|Hne].
  - rewrite E in Ei. injection Ei as <- ->. destruct (H ks eq_refl Hk) as (ks' & -> & Hk').
    exists (BaSession.id x), x, ks'. simpl. by rewrite lookup_insert_eq.
  - exists i, y, ks. simpl. by rewrite lookup_insert_ne.
Qed.

Lemma listed_other l l' cs e e' x ph ph' y : cs !! BaSession.id x = Some (mkCeremony x ph) → (ph ≠ created ∨ y ≠ x) →
  listed (mkPhone l' (<[BaSession.id x := mkCeremony x ph']> cs) e') y → listed (mkPhone l cs e) y.
Proof.
  intros E Hph (q & Eq & Hq). simpl in Eq. unfold listed. simpl. destruct (decide (BaSession.id y = BaSession.id x)) as [Ey|Hne].
  - rewrite Ey, lookup_insert_eq in Eq. injection Eq as <- _. destruct Hph; [eauto | done].
  - rewrite lookup_insert_ne in Eq by done. eauto.
Qed.

(** Deleting the session of a ceremony removes that session only. *)
Lemma deleted_is_own faults p x y : phone_ok faults p → begun p x → begun p y → In y (live p) →
  ¬ In y (deleteSession (BaSession.token x) (live p)) → y = x.
Proof.
  intros Hok Hx Hy Hyl Hn. destruct (decide (BaSession.token y = BaSession.token x)) as [E|Hne].
  - by apply (po_tokens _ _ Hok).
  - destruct Hn. by apply deleteSession_spec.
Qed.

Lemma listed_begun p x : listed p x → begun p x.
Proof. intros (ph & E & _). by exists ph. Qed.

Lemma ok_create faults x l cs e : phone_ok faults (mkPhone l cs e) → mine x → keys_ok (l ++ [x]) → cs !! BaSession.id x = None →
  (∀ y, begun (mkPhone l cs e) y → BaSession.token y ≠ BaSession.token x) →
  phone_ok faults (mkPhone (l ++ [x]) (<[BaSession.id x := mkCeremony x created]> cs) e).
Proof.
  intros Hok Hm Hk Hn Ht. set (p := mkPhone l cs e) in *. set (p' := mkPhone _ _ e).
  assert (∀ y, begun p' y ↔ y = x ∨ begun p y) as HB.
  { intros y. unfold begun. simpl. destruct (decide (BaSession.id y = BaSession.id x)) as [Ey|Hne].
    - rewrite Ey, lookup_insert_eq, Hn. naive_solver.
    - rewrite lookup_insert_ne by done. naive_solver. }
  assert (∀ y, outdated p y → outdated p' y) as HO by (intros y; apply outdated_mono; intros z Hz; apply HB; by right).
  assert (∀ k, pending p' k ↔ pending p k) as HP.
  { intros k. unfold pending. simpl. split; intros (i & y & ks & E & Hin); exists i, y, ks; split; try done.
    - destruct (decide (i = BaSession.id x)) as [->|Hne]; [by rewrite lookup_insert_eq in E | by rewrite lookup_insert_ne in E].
    - rewrite lookup_insert_ne; [done|]. intros <-. by rewrite Hn in E. }
  assert (∀ y, listed p' y → listed p y ∧ y ≠ x) as HL.
  { intros y (ph & E & Hph). simpl in E. destruct (decide (BaSession.id y = BaSession.id x)) as [Ey|Hne].
    - rewrite Ey, lookup_insert_eq in E. by injection E as _ <-.
    - rewrite lookup_insert_ne in E by done. split; [by exists ph | by intros ->]. }
  split; simpl.
  - done.
  - intros i c. destruct (decide (i = BaSession.id x)) as [->|Hne].
    + rewrite lookup_insert_eq. by intros [= <-].
    + rewrite lookup_insert_ne by done. apply (po_id _ _ Hok).
  - intros a b [->|Ha]%HB [->|Hb]%HB E; [done | by destruct (Ht b Hb) | by destruct (Ht a Ha) | by apply (po_tokens _ _ Hok)].
  - intros y [->|Hy]%HB; [done | by apply (po_mine _ _ Hok)].
  - intros y [Hy|[<-|[]]]%in_app_iff Hmy; apply HB; [right; by apply (po_live _ _ Hok) | by left].
  - intros k Hp%HP. destruct (po_pending _ _ Hok k Hp) as (y & Hy & Ey). exists y. auto.
  - intros y [->|Hy]%HB Hny; [destruct Hny; apply in_app_iff; right; by left|].
    destruct (po_gone _ _ Hok y Hy) as [H|H]; [|left; by apply HO | by right].
    intros H. apply Hny, in_app_iff. by left.
  - intros Hf a b [Ha Hax]%HL [Hb Hbx]%HL Hal Hbl Hnew. apply HP, (po_listed _ _ Hok Hf a b Ha Hb); try done.
    + by apply in_app_iff in Hal as [H|[<-|[]]].
    + by apply in_app_iff in Hbl as [H|[<-|[]]].
Qed.

Lemma keys_delete k l : keys_ok l → keys_ok (deleteSession k l).
Proof.
  intros [H1 H2]. split; intros x y [Hx _]%deleteSession_spec [Hy _]%deleteSession_spec; [by apply H1 | by apply H2].
Qed.

(** A session ended by its own ceremony, or signed out. *)
Lemma ok_discard faults x l cs e : phone_ok faults (mkPhone l cs e) → cs !! BaSession.id x = Some (mkCeremony x created) →
  phone_ok faults (mkPhone (deleteSession (BaSession.token x) l) (<[BaSession.id x := mkCeremony x finished]> cs)
                     ({[BaSession.id x]} ∪ e)).
Proof.
  intros Hok Ex. assert (begun (mkPhone l cs e) x) as Hx by (by exists created).
  eapply (ok_progress faults l _ cs e _ x created); try done.
  - apply keys_delete, (po_keys _ _ Hok).
  - by intros y [Hy _]%deleteSession_spec.
  - set_solver.
  - intros y Hy Hyl Hyn. right. rewrite (deleted_is_own faults (mkPhone l cs e) x y Hok Hx Hy Hyl Hyn). set_solver.
  - intros Hf a b Ha Hb [Hal Hat]%deleteSession_spec [Hbl Hbt]%deleteSession_spec Hnew.
    apply (listed_other l _ cs e _ x created finished a Ex) in Ha; [|right; by intros ->].
    apply (listed_other l _ cs e _ x created finished b Ex) in Hb; [|right; by intros ->].
    eapply pending_keep; [done| |by apply (po_listed _ _ Hok Hf a b Ha Hb)]. done.
Qed.

Lemma ok_signout faults x ph l cs e : phone_ok faults (mkPhone l cs e) → cs !! BaSession.id x = Some (mkCeremony x ph) →
  phone_ok faults (mkPhone (deleteSession (BaSession.token x) l) cs ({[BaSession.id x]} ∪ e)).
Proof.
  intros Hok Ex. assert (begun (mkPhone l cs e) x) as Hx by (by exists ph).
  rewrite <- (insert_id cs _ _ Ex).
  eapply (ok_progress faults l _ cs e _ x ph); try done.
  - apply keys_delete, (po_keys _ _ Hok).
  - by intros y [Hy _]%deleteSession_spec.
  - set_solver.
  - intros y Hy Hyl Hyn. right. rewrite (deleted_is_own faults (mkPhone l cs e) x y Hok Hx Hy Hyl Hyn). set_solver.
  - intros k ks -> Hin. apply (po_pending _ _ Hok). by exists (BaSession.id x), x, ks.
  - intros Hf a b Ha Hb [Hal _]%deleteSession_spec [Hbl _]%deleteSession_spec Hnew. rewrite insert_id in * by done.
    by apply (po_listed _ _ Hok Hf a b).
Qed.

Lemma ok_list faults x now l cs e : phone_ok faults (mkPhone l cs e) → cs !! BaSession.id x = Some (mkCeremony x created) →
  (∀ y, begun (mkPhone l cs e) y → now < BaSession.expiresAt y) →
  phone_ok faults (mkPhone l (<[BaSession.id x := mkCeremony x (revoking (superseded_now now l))]> cs) e).
Proof.
  intros Hok Ex Hexp. pose proof (po_keys _ _ Hok) as Hkeys. eapply (ok_progress faults l l cs e e x created); try done.
  - intros k ks [= <-] Hk. exact (superseded_outdated faults (mkPhone l cs e) now k Hok Hk).
  - intros Hf a b Ha Hb Hal Hbl Hnew. pose proof (λ y, proj1 (begun_progress l l cs e e x _ (revoking (superseded_now now l)) y Ex)) as HB.
    exists (BaSession.id x), x, (superseded_now now l). simpl. rewrite lookup_insert_eq. split; [done|].
    apply (superseded_now_finds faults (mkPhone l cs e) now a b); try done; by eapply HB, listed_begun.
Qed.

Lemma ok_delete faults x k ks l cs e : phone_ok faults (mkPhone l cs e) →
  cs !! BaSession.id x = Some (mkCeremony x (revoking (k :: ks))) →
  phone_ok faults (mkPhone (deleteSession k l) (<[BaSession.id x := mkCeremony x (revoking ks)]> cs) e).
Proof.
  intros Hok Ex. eapply (ok_progress faults l _ cs e e x (revoking (k :: ks))); try done.
  - apply keys_delete, (po_keys _ _ Hok).
  - by intros y [Hy _]%deleteSession_spec.
  - intros y Hy Hyl Hyn. left.
    destruct (po_pending _ _ Hok k) as (z & Hz & Ez); [by exists (BaSession.id x), x, (k :: ks); split; [|left]|].
    subst k. by rewrite (deleted_is_own faults (mkPhone l cs e) z y Hok (proj1 Hz) Hy Hyl Hyn).
  - intros k' ks' [= <-] Hin. apply (po_pending _ _ Hok). exists (BaSession.id x), x, (k :: ks). split; [done | by right].
  - intros Hf a b Ha Hb [Hal Hak]%deleteSession_spec [Hbl _]%deleteSession_spec Hnew.
    eapply listed_other in Ha; [|done|by left]. eapply listed_other in Hb; [|done|by left].
    eapply pending_keep; [done| |by apply (po_listed _ _ Hok Hf a b)]. intros ks' [= <-] [E|Hin]%elem_of_cons; [done | eauto].
Qed.

Lemma phone_step_ok faults p p' : phone_step faults p p' → phone_ok faults p → phone_ok faults p'.
Proof.
  intros Hs Hok. destruct Hs as [x l cs e Hm Hk Hn Ht Hx|x l cs e Ex|x now l cs e Ex Hexp|x k ks l cs e Ex|x l cs e Ex
    |x ph l cs e Ex|x l cs e Hf Ex|x l cs e Hf Ex|x k ks l cs e Hf Ex|l l' cs e Hk Hmine].
  - by apply ok_create.
  - by apply ok_discard.
  - by apply ok_list.
  - by apply ok_delete.
  - eapply (ok_progress faults l l cs e e x (revoking [])); try done; [apply (po_keys _ _ Hok)|].
    intros Hf a b Ha Hb Hal Hbl Hnew. eapply listed_other in Ha; [|done|by left]. eapply listed_other in Hb; [|done|by left].
    eapply pending_keep; [done| |by apply (po_listed _ _ Hok Hf a b)]. by intros ks' [= <-] Hin%elem_of_nil.
  - by eapply ok_signout.
  - eapply (ok_progress faults l l cs e _ x created); try done; [apply (po_keys _ _ Hok) | set_solver | by rewrite Hf].
  - eapply (ok_progress faults l l cs e e x created); try done; [apply (po_keys _ _ Hok) | by rewrite Hf].
  - eapply (ok_progress faults l l cs e e x (revoking (k :: ks))); try done; [apply (po_keys _ _ Hok) | | by rewrite Hf].
    intros k' ks' [= <-] Hin. apply (po_pending _ _ Hok). exists (BaSession.id x), x, (k :: ks). split; [done | by right].
  - destruct Hok as [H1 H2 H3 H4 H5 H6 H7 H8]. split; simpl in *; try done.
    + intros x Hx Hmx. apply (H5 x); [by apply Hmine | done].
    + intros x Hx Hnx. apply (H7 x); [done|]. intros H. apply Hnx, Hmine; [by apply H4 | done].
    + intros Hf x y Hx Hy Hxl Hyl Hnew. apply (H8 Hf x y Hx Hy); try done; apply Hmine; try done; by apply H4, listed_begun.
Qed.

Lemma reached_ok faults p : reached faults p → phone_ok faults p.
Proof.
  intros (l & Hk & Hn & H).
  assert (phone_ok faults (mkPhone l ∅ ∅)) as H0.
  { assert (∀ x, ¬ begun (mkPhone l ∅ ∅) x) as Hb by (intros x [ph E]; simpl in E; by rewrite lookup_empty in E).
    split; simpl; try done; try (intros x ?; by destruct (Hb x)).
    - intros x y Hx. by destruct (Hb x).
    - intros x Hx Hm. by destruct (Hn x Hm).
    - intros k (i & y & ks & E & _). simpl in E. by rewrite lookup_empty in E.
    - intros _ x y Hx. by destruct (Hb x (listed_begun _ _ Hx)). }
  clear Hk Hn. induction H as [|a b c Hab _ IH]; [done|]. apply IH. by eapply phone_step_ok.
Qed.

Definition all_over (p : phone) : Prop := ∀ i c, ceremonies p !! i = Some c → progress c = finished.

(** Once all ceremonies are over, no live session is older than another live one. *)
Lemma over_not_older p x y : phone_ok false p → all_over p → begun p x → begun p y → In x (live p) → In y (live p) →
  isNewer y x = false.
Proof.
  intros Hok Hdone Hx Hy Hxl Hyl. destruct (isNewer y x) eqn:E; [|done]. exfalso.
  assert (∀ z, begun p z → listed p z) as HL.
  { intros z [ph Ez]. exists ph. split; [done|]. specialize (Hdone _ _ Ez). simpl in Hdone. by rewrite Hdone. }
  destruct (po_listed _ _ Hok eq_refl x y (HL x Hx) (HL y Hy) Hxl Hyl E) as (i & c & ks & Ei & _).
  by specialize (Hdone _ _ Ei).
Qed.

(** C23: One session per phone.  Ceremonies of one phone interleave freely: each creates a session and then either lists
    the user's sessions and revokes the superseded ones one at a time, or fails and discards its own; sessions may be
    signed out meanwhile.  Whatever calls fail, the newest session ever created on the phone is gone only if its own
    ceremony discarded it or it was signed out: superseding never removes it.  When no listing and no deletion failed and
    all ceremonies are over, at most one session of the phone is left, and it is the newest if none was discarded or
    signed out.  The run is one in which no session of the phone has expired when a ceremony lists, and in which session
    rows are not refreshed. *)
Theorem one_session_per_phone faults p : reached faults p →
  (∀ x, newest_begun p x → In x (live p) ∨ BaSession.id x ∈ ended p) ∧
  (faults = false → all_over p →
   (∀ x y, mine x → mine y → In x (live p) → In y (live p) → x = y) ∧
   (ended p = ∅ → ∀ x, mine x → In x (live p) ↔ newest_begun p x)).
Proof.
  intros Hok%reached_ok. split; [intros x; by eapply newest_live|].
  intros -> Hdone. split.
  - intros x y Hmx Hmy Hx Hy. pose proof (po_live _ _ Hok x Hx Hmx) as Bx. pose proof (po_live _ _ Hok y Hy Hmy) as By.
    apply (proj1 (po_keys _ _ Hok)); [done..|]. destruct (decide (BaSession.id x = BaSession.id y)) as [|Hne]; [done|].
    destruct (isNewer_total x y Hne) as [H|H]; by rewrite (over_not_older p) in H.
  - intros He x Hm. assert (∀ m, newest_begun p m → In m (live p)) as HN.
    { intros m Hn. destruct (newest_live _ _ _ Hok Hn) as [H|H]; [done | set_solver]. }
    split; [|apply HN]. intros Hl. pose proof (po_live _ _ Hok x Hl Hm) as Hx.
    destruct (newest_exists _ _ x Hok Hx) as (m & Hm' & [->|H]); [done|].
    rewrite (over_not_older p) in H; try done; [apply Hm' | by apply HN].
Qed.

End Ceremonies.
End AuthCeremonies.
