(* ===== verification/AuthEnrol.v ===== *)
(** Enrolling a device and signing in with it: the services of
    src/src/modules/auth/application/customer and the endpoints of
    infrastructure/customer/better-auth-device-auth.plugin.ts that call them.

    The attestation checks, the verified DPoP proof, and Better Auth's session lookup and creation are arguments: what
    they answered.  Each database statement reads the database's clock; a service reads its own. *)

From Stdlib Require Import String.
From S2P Require Import Prelude JsString DateTime IntakePolicy Db AuthDb AuthRecovery AuthDevice AuthSessions.

Module AuthEnrol.
Import AuthDb AuthRecovery AuthDevice AuthSessions.

Definition ENROL_PURPOSE : string := "enrol-device".
Definition LOGIN_PURPOSE : string := "login".
Definition ENROL_CHALLENGE_TTL_SECONDS : Z := 300.
Definition LOGIN_CHALLENGE_TTL_SECONDS : Z := 120.

Section Services.
Context (ulid : nat → string) (J : Jose) (supportedPlatforms : list string).

(** ** Challenges (device-challenge-issuance.service.ts); [challenge] is the random value *)

Definition IssueDeviceChallenge_execute (challenge purpose dpopJkt : string) (deviceId : option string) (ttl now : Z)
    : io auth (string * Z) :=
  await expiresAt := transaction (issue (mkChallengeKey challenge purpose dpopJkt deviceId) ttl now) in
  ret (challenge, expiresAt).

Definition issueLoginChallenge (challenge dpopJkt : string) (deviceId : option string) (ttl now : Z) : io auth (string * Z) :=
  await keysDevice := read (findByDpopJkt dpopJkt) in
  IssueDeviceChallenge_execute challenge LOGIN_PURPOSE dpopJkt
    (match keysDevice with Some d => Some (Device.deviceId d) | None => deviceId end) ttl now.

(** ** Enrolment (device-enrolment.service.ts) *)

Record EnrolDeviceInput := mkEnrolInput {
  ei_accountId : string; ei_betterAuthUserId : string; ei_dpopJkt : string; ei_challenge : string; ei_jws : string;
  ei_platform : string; ei_attestationMetadata : json }.

(** The database's clock at each statement, and the service's. *)
Record EnrolClocks := mkEnrolClocks { t_consume : Z; t_window : Z; t_service : Z; t_insert : Z }.

Definition enrol_key (i : EnrolDeviceInput) : ChallengeKey :=
  mkChallengeKey (ei_challenge i) ENROL_PURPOSE (ei_dpopJkt i) None.

Definition throwForUnusableChallenge (i : EnrolDeviceInput) (t : Z) : io auth Device.t :=
  await recentlyUsed := read (wasConsumedWithinReplayWindow (enrol_key i) t) in
  if recentlyUsed then throw DeviceChallengeReplayedError
  else
  await byKey := read (findByDpopJkt (ei_dpopJkt i)) in
  await registered := match byKey with
                      | Some d => ret (Some d)
                      | None => read (findActiveDeviceForAccount (ei_accountId i))
                      end in
  match registered with
  | Some _ => throw DeviceAlreadyEnrolledError
  | None => throw DeviceChallengeExpiredError
  end.

Definition enrol_expectation (i : EnrolDeviceInput) : JwsExpectation :=
  mkExpectation ENROL_PURPOSE (ei_challenge i) None false None (Some (ei_dpopJkt i)).

Definition new_device (i : EnrolDeviceInput) (c : DeviceAuthJwsClaims) : NewDevice :=
  mkNewDevice (ei_accountId i) (ei_betterAuthUserId i) (ei_dpopJkt i) (jc_bioJkt c) (default JNull (jc_jwk c))
    (ei_platform i) (ei_attestationMetadata i) (enrol_key i).

(** [attest] is what verifyAndroidKeyAttestation and verifyPlayIntegrityToken decide for the biometric key. *)
Definition EnrolDevice_execute (attest : string → result unit) (i : EnrolDeviceInput) (t : EnrolClocks) : io auth Device.t :=
  if negb (isMobilePlatform (ei_platform i)) || negb (isMobilePlatformSupported (ei_platform i) supportedPlatforms)
  then throw MobilePlatformUnsupportedError
  else
  await existing := read (findActiveDeviceForAccount (ei_accountId i)) in
  match existing with
  | Some _ => throw DeviceAlreadyEnrolledError
  | None =>
    await consumed := transaction (consume (enrol_key i) (t_consume t)) in
    if negb consumed then throwForUnusableChallenge i (t_window t)
    else
    await claims := lift (verifyDeviceAuthJws J (ei_jws i) (enrol_expectation i) (t_service t)) in
    await already := read (findByDpopJkt (ei_dpopJkt i)) in
    match already with
    | Some _ => throw DeviceAlreadyEnrolledError
    | None =>
        await _ := lift (attest (jc_bioJkt claims)) in
        transaction (create_device ulid (new_device i claims) (t_insert t))
    end
  end.

Definition rollback_enrolment (deviceId : string) : io auth unit := transaction (delete_device deviceId).

(** ** Login (device-login.service.ts) *)

Definition login_key (dpopJkt challenge deviceId : string) : ChallengeKey :=
  mkChallengeKey challenge LOGIN_PURPOSE dpopJkt (Some deviceId).

Definition LoginDevice_execute (deviceId : option string) (dpopJkt challenge jws : string) (t : EnrolClocks) : io auth Device.t :=
  await found := read (findByDpopJkt dpopJkt) in
  match found with
  | None => throw DeviceLoginFailedError
  | Some d =>
    if negb (Device.is_active d) || match deviceId with Some k => negb (String.eqb k (Device.deviceId d)) | None => false end
    then throw DeviceLoginFailedError
    else if negb (isMobilePlatform (Device.platform d)) || negb (isMobilePlatformSupported (Device.platform d) supportedPlatforms)
    then throw MobilePlatformUnsupportedError
    else
    let k := login_key dpopJkt challenge (Device.deviceId d) in
    await consumed := transaction (consume k (t_consume t)) in
    if negb consumed then
      await recentlyUsed := read (wasConsumedWithinReplayWindow k (t_window t)) in
      throw (if recentlyUsed then DeviceChallengeReplayedError else DeviceChallengeExpiredError)
    else
    await _ := iocatch
      (lift (verifyDeviceAuthJws J jws
               (mkExpectation LOGIN_PURPOSE challenge (Some (Device.deviceId d)) true (Some (Device.biometricPublicJwk d)) None)
               (t_service t)))
      (λ e, throw (if isDeviceAuthJwsVerificationError e then DeviceLoginFailedError else e)) in
    await _ := transaction (touchLastSeen (Device.deviceId d) (t_service t)) in
    ret d
  end.

End Services.

(** ** The ceremonies (better-auth-device-auth.plugin.ts) *)

Definition accountRestricted : error := AppError "ACCOUNT_RESTRICTED" 403 [].
Definition pending_session_required : error := AppError "DEVICE_JWS_INVALID" 400 ["pending_session"].
Definition session_not_bound : error := AppError "DEVICE_JWS_INVALID" 400 ["unbound"].
Definition account_mapping_missing : error := AppError "device.account_mapping_missing" 500 [].
Definition session_creation_failed : error := AppError "device.session_creation_failed" 500 [].

Section Ceremonies.
Context `{A : InternalAdapter} (ulid : nat → string) (J : Jose) (supportedPlatforms : list string)
  (fault : string → option error).

Definition drop_session (token : string) : io auth unit :=
  attempt fault "deleteSession" (write (λ s, set_sessions (deleteSession token (sessions s)) s)).

(** [.catch(log)] *)
Definition logged (m : io auth unit) : io auth unit := iocatch m (λ _, ret tt).

Definition discardCeremonySession (token : option string) : io auth unit :=
  match token with None => ret tt | Some k => logged (drop_session k) end.

(** [createSession] answers the row it inserted, or null. *)
Definition createSession (created : option BaSession.t) : io auth BaSession.t :=
  await _ := attempt fault "createSession" (ret tt) in
  match created with
  | None => throw session_creation_failed
  | Some x => await _ := write (λ s, set_sessions (sessions s ++ [x]) s) in ret x
  end.

Definition supersedeEarlierDeviceSessions (userId jkt : string) (now : Z) : io auth unit :=
  iocatch
    (await found := attempt fault "listSessions" (read (λ s, listSessions userId (sessions s))) in
     await _ := iofold (λ _ x, logged (drop_session (BaSession.token x))) tt (sessionsToSupersede found jkt now) in ret tt)
    (λ _, ret tt).

Record DeviceAnswer := mkDeviceAnswer { da_deviceId : string; da_session : BaSession.t }.

(** What the enrolment does once its device is registered: [Ok] with the session, or the error after the
    compensation. *)
Definition finish_enrolment (pendingToken userId jkt : string) (created : option BaSession.t) (now : Z) (d : Device.t)
    : io auth DeviceAnswer :=
  await session := outcome (createSession created) in
  match session with
  | Err e => await _ := logged (rollback_enrolment (Device.deviceId d)) in throw e
  | Ok x =>
      iocatch
        (await _ := attempt fault "setSessionCookie" (ret tt) in
         await _ := drop_session pendingToken in
         await _ := supersedeEarlierDeviceSessions userId jkt now in
         ret (mkDeviceAnswer (Device.deviceId d) x))
        (λ e,
         await _ := discardCeremonySession (Some (BaSession.token x)) in
         await _ := logged (rollback_enrolment (Device.deviceId d)) in
         throw e)
  end.

(** [current] is the session of the request; [proof] the DPoP check against the key it is bound to. *)
Definition enrolVerify (current : option BaSession.t) (proof : string → result unit) (attest : string → result unit)
    (body : EnrolDeviceInput) (created : option BaSession.t) (t : EnrolClocks) : io auth DeviceAnswer :=
  match current with
  | None => throw pending_session_required
  | Some x =>
    if negb (bool_decide (BaSession.authenticationLevel x = "oauth_pending")) then throw pending_session_required
    else match BaSession.dpopJkt x with
    | None => throw session_not_bound
    | Some jkt =>
      await _ := lift (proof jkt) in
      await account := read (findByBetterAuthUserId (BaSession.userId x)) in
      match account with
      | None => throw account_mapping_missing
      | Some account =>
        if negb (bool_decide (Acct.status account = acc_active)) then throw accountRestricted
        else
        let i := mkEnrolInput (Acct.id account) (BaSession.userId x) jkt (ei_challenge body) (ei_jws body) (ei_platform body)
                   (ei_attestationMetadata body) in
        await d := EnrolDevice_execute ulid J supportedPlatforms attest i t in
        finish_enrolment (BaSession.token x) (BaSession.userId x) jkt created (t_service t) d
      end
    end
  end.

(** [jkt] is the key of the verified proof. *)
Definition loginVerify (jkt : result string) (deviceId : option string) (challenge jws : string)
    (created : option BaSession.t) (t : EnrolClocks) : io auth DeviceAnswer :=
  await jkt := lift jkt in
  await d := LoginDevice_execute J supportedPlatforms deviceId jkt challenge jws t in
  await account := read (findByBetterAuthUserId (Device.betterAuthUserId d)) in
  match account with
  | Some account =>
      if negb (bool_decide (Acct.status account = acc_active)) then throw accountRestricted
      else
      await x := createSession created in
      iocatch
        (await user := attempt fault "findUserById" (read (λ s, findUserById (Device.betterAuthUserId d) (users s))) in
         match user with
         | None => throw account_mapping_missing
         | Some _ =>
             await _ := attempt fault "setSessionCookie" (ret tt) in
             await _ := supersedeEarlierDeviceSessions (Device.betterAuthUserId d) jkt (t_service t) in
             ret (mkDeviceAnswer (Device.deviceId d) x)
         end)
        (λ e, await _ := discardCeremonySession (Some (BaSession.token x)) in throw e)
  | None => throw accountRestricted
  end.

End Ceremonies.

End AuthEnrol.
