(* ===== verification/AuthReplay.v ===== *)
(** Single-use challenges under concurrency: when an enrolment is told its challenge expired, nothing
    can still register a device with it (the invariant of domain/device-challenge-replay.ts).

    A device is registered by a transaction that first checks the insert deadline, locking the challenge row,
    and commits later; Prisma rolls a transaction back after 10 seconds.  Between the two, other requests consume
    challenges, read and prune them.  All times are the database's clock, which only moves forward. *)

From Stdlib Require Import Ascii String.
From S2P Require Import Prelude JsString DateTime IntakePolicy Db AuthDb AuthRecovery AuthDevice AuthEnrol.

Module AuthReplay.
Import AuthDb AuthRecovery AuthDevice AuthEnrol.

(** [{ timeout: 10_000 }] of PrismaDeviceRepository.create *)
Definition TRANSACTION_TIMEOUT_MS : Z := 10000.

(** A registration past its deadline check, when it was checked. *)
Record inflight := mkInflight { if_device : NewDevice; if_checked : Z }.

(** [issued] and [registered] are the history: the challenges ever issued and, for each registration, the
    challenge that was consumed for it. *)
Record world := mkWorld {
  tables : auth; clock : Z; running : list inflight; issued : list string; registered : list (string * string) }.

(** The challenge rows that a running registration holds. *)
Definition locked (w : world) (c : Challenge.t) : bool :=
  existsb (λ e, key_matches (nd_consumed (if_device e)) c) (running w).

Section World.
Context (ulid : nat → string).

Inductive world_step : world → world → Prop :=
  | ws_tick w t : clock w ≤ t → world_step w (mkWorld (tables w) t (running w) (issued w) (registered w))
  | ws_issue w k ttl e s' : ¬ In (ck_challenge k) (issued w) → (ck_purpose k = ENROL_PURPOSE → ck_deviceId k = None) →
      issue k ttl (clock w) (tables w) = Ok (e, s') →
      world_step w (mkWorld s' (clock w) (running w) (ck_challenge k :: issued w) (registered w))
  | ws_consume w k b s' : consume k (clock w) (tables w) = Ok (b, s') →
      world_step w (mkWorld s' (clock w) (running w) (issued w) (registered w))
  | ws_check w i : ck_purpose (nd_consumed i) = ENROL_PURPOSE → within_deadline (nd_consumed i) (clock w) (tables w) = true →
      world_step w (mkWorld (tables w) (clock w) (mkInflight i (clock w) :: running w) (issued w) (registered w))
  | ws_commit w e rest d s' : running w = e :: rest → clock w < if_checked e + TRANSACTION_TIMEOUT_MS →
      insert_device ulid (if_device e) (clock w) (tables w) = Ok (d, s') →
      world_step w (mkWorld s' (clock w) rest (issued w)
        ((ck_challenge (nd_consumed (if_device e)), Device.deviceId d) :: registered w))
  | ws_abort w e rest : running w = e :: rest →
      world_step w (mkWorld (tables w) (clock w) rest (issued w) (registered w))
  | ws_turn w l : Permutation (running w) l →
      world_step w (mkWorld (tables w) (clock w) l (issued w) (registered w))
  | ws_prune w : world_step w (mkWorld
      (set_challenges (List.filter (λ c, negb (prunable (clock w) c) || locked w c) (challenges (tables w))) (tables w))
      (clock w) (running w) (issued w) (registered w))
  | ws_others w s' : challenges s' = challenges (tables w) →
      world_step w (mkWorld s' (clock w) (running w) (issued w) (registered w)).

(** A database that has issued nothing yet. *)
Definition starts (w : world) : Prop := challenges (tables w) = [] ∧ running w = [] ∧ issued w = [].

Record world_ok (w : world) : Prop := {
  wo_issued : ∀ c, In c (challenges (tables w)) → In (Challenge.challenge c) (issued w);
  wo_unique : ∀ c c', In c (challenges (tables w)) → In c' (challenges (tables w)) →
    Challenge.challenge c = Challenge.challenge c' → c = c';
  wo_consumed : ∀ c u, In c (challenges (tables w)) → Challenge.consumedAt c = Some u → u < Challenge.expiresAt c ∧ u ≤ clock w;
  wo_enrol : ∀ c, In c (challenges (tables w)) → Challenge.purpose c = ENROL_PURPOSE → Challenge.deviceId c = None;
  wo_running : ∀ e, In e (running w) → if_checked e ≤ clock w ∧ ck_purpose (nd_consumed (if_device e)) = ENROL_PURPOSE ∧
    ∃ c u, In c (challenges (tables w)) ∧ key_matches (nd_consumed (if_device e)) c = true ∧ Challenge.consumedAt c = Some u ∧
      if_checked e - ENROLMENT_INSERT_DEADLINE_MS < u }.

(** No enrolment can use the challenge any more. *)
Definition dead (k : string) (w : world) : Prop :=
  In k (issued w) ∧ ∀ c, In c (challenges (tables w)) → Challenge.challenge c = k → Challenge.purpose c = ENROL_PURPOSE →
    match Challenge.consumedAt c with
    | None => Challenge.expiresAt c ≤ clock w
    | Some u => u < clock w - CHALLENGE_REPLAY_WINDOW_MS
    end.

(** ** What each statement does to the challenges *)

Lemma issue_rows k ttl t s e s' : issue k ttl t s = Ok (e, s') →
  challenges s' = challenges s ++ [Challenge.mk (ck_challenge k) (ck_purpose k) (ck_dpopJkt k) (ck_deviceId k) (t + ttl * 1000) None].
Proof.
  intros H. unfold issue in H. inv_tx H. destruct (exists_row _ _); [done|]. by injection Htx as <-.
Qed.

Lemma consume_rows k t s b s' : consume k t s = Ok (b, s') →
  challenges s' = update_where (consumable k t) (Challenge.set_consumedAt t) (challenges s).
Proof.
  unfold consume. destruct (exists_row _ _) eqn:E; intros [= <- <-]; [done|]. unfold update_where.
  symmetry. rewrite <- (map_id (challenges s)) at 2. apply map_ext_in. intros c Hc.
  rewrite exists_row_false in E. by rewrite (E c Hc).
Qed.

Lemma insert_rows i t s d s' : insert_device ulid i t s = Ok (d, s') → challenges s' = challenges s.
Proof. intros (k & b & login & _ & _ & ->)%insert_device_ok. done. Qed.

(** ** The invariant is kept *)

(** Every step keeps the rows it does not add, up to the time of their consumption. *)
Definition same_key (c c' : Challenge.t) : Prop :=
  Challenge.challenge c = Challenge.challenge c' ∧ Challenge.purpose c = Challenge.purpose c' ∧
  Challenge.dpopJkt c = Challenge.dpopJkt c' ∧ Challenge.deviceId c = Challenge.deviceId c' ∧
  Challenge.expiresAt c = Challenge.expiresAt c'.

Lemma consume_row k t c c' : c' = (if consumable k t c then Challenge.set_consumedAt t c else c) →
  same_key c' c ∧
  (Challenge.consumedAt c' = Challenge.consumedAt c ∨
   Challenge.consumedAt c = None ∧ Challenge.consumedAt c' = Some t ∧ t < Challenge.expiresAt c).
Proof.
  intros ->. destruct (consumable k t c) eqn:E; [|split; [by repeat split | by left]].
  unfold consumable in E. boolify. split; [by repeat split|]. by right.
Qed.

Lemma key_matches_same k c c' : same_key c c' → key_matches k c = key_matches k c'.
Proof. intros (H1 & H2 & H3 & _). unfold key_matches. by rewrite H1, H2, H3. Qed.

Lemma world_step_ok w w' : world_step w w' → world_ok w → world_ok w'.
Proof.
  intros Hs [Hi Hu Hc He Hr].
  destruct Hs as [w t Ht|w k ttl e s' Hf Hp H|w k b s' H|w i Hp H|w e rest d s' Er Hlt H|w e rest Er|w l Hl|w|w s' H].
  - split; try done; simpl.
    + intros c u Hin E. destruct (Hc c u Hin E). split; [done | lia].
    + intros e Hin. destruct (Hr e Hin) as (H1 & H2). split; [lia | done].
  - apply issue_rows in H. split; simpl; rewrite H.
    + intros c [Hin|[<-|[]]]%in_app_iff; [right; by apply Hi | by left].
    + intros c c' [Hin|[<-|[]]]%in_app_iff [Hin'|[<-|[]]]%in_app_iff E; [by apply Hu| | |done]; simpl in E; destruct Hf.
      * rewrite <- E. by apply Hi.
      * rewrite E. by apply Hi.
    + intros c u [Hin|[<-|[]]]%in_app_iff E; [by apply Hc | done].
    + intros c [Hin|[<-|[]]]%in_app_iff E; [by apply He | by apply Hp].
    + intros e' Hin. destruct (Hr e' Hin) as (H1 & H2 & c & u & Hc' & Hm). split; [done|]. split; [done|].
      exists c, u. rewrite in_app_iff. tauto.
  - apply consume_rows in H. split; simpl; rewrite H; setoid_rewrite in_update_where.
    + intros c (c0 & Hin & E). apply consume_row in E as [(-> & _) _]. by apply Hi.
    + intros c c' (c0 & Hin & E) (c1 & Hin' & E') Ek. assert (c0 = c1) as ->; [|congruence].
      pose proof (consume_row _ _ _ _ E) as [(K & _) _]. pose proof (consume_row _ _ _ _ E') as [(K' & _) _].
      apply Hu; [done..|congruence].
    + intros c u (c0 & Hin & E) Eu. apply consume_row in E as [(_ & _ & _ & _ & Ex) [Es|(En & Es & Hlt)]].
      * rewrite Ex. apply (Hc c0); [done|congruence].
      * rewrite Ex. assert (u = clock w) as -> by congruence. split; [done | lia].
    + intros c (c0 & Hin & E) Ep. apply consume_row in E as [(_ & E2 & _ & E4 & _) _]. rewrite E4. apply He; [done|congruence].
    + intros e Hin. destruct (Hr e Hin) as (H1 & H2 & c & u & Hc' & Hm & Ec & Hlt). split; [done|]. split; [done|].
      exists c, u. split; [exists c; split; [done|]|done].
      destruct (consumable k (clock w) c) eqn:E; [|done]. unfold consumable in E. boolify. congruence.
  - split; try done; simpl. intros e [<-|Hin]; [|by apply Hr]. simpl. split; [lia|]. split; [done|].
    apply exists_row_true in H as (c & Hin & Hm). unfold fresh_consumption in Hm.
    destruct (Challenge.consumedAt c) as [u|] eqn:E; [|by rewrite andb_false_r in Hm]. boolify. by exists c, u.
  - apply insert_rows in H. split; simpl; rewrite ?H; try done. intros e' Hin. apply Hr. rewrite Er. by right.
  - split; simpl; try done. intros e' Hin. apply Hr. rewrite Er. by right.
  - split; simpl; try done. intros e' Hin. apply Hr. by rewrite Hl.
  - split; simpl; setoid_rewrite filter_In.
    + intros c [Hin _]. by apply Hi.
    + intros c c' [Hin _] [Hin' _]. by apply Hu.
    + intros c u [Hin _]. by apply Hc.
    + intros c [Hin _]. by apply He.
    + intros e Hin. destruct (Hr e Hin) as (H1 & H2 & c & u & Hc' & Hm & Hrest). split; [done|]. split; [done|].
      exists c, u. split; [|done]. split; [done|]. rewrite orb_true_iff. right. apply existsb_exists. by exists e.
  - split; simpl; rewrite ?H; done.
Qed.

Lemma runs_ok w w' : rtc world_step w w' → world_ok w → world_ok w'.
Proof. induction 1 as [|a b c Hab _ IH]; intros Hw; [done|]. by eapply IH, world_step_ok. Qed.

Lemma starts_ok w : starts w → world_ok w.
Proof. intros (H1 & H2 & H3). by split; rewrite ?H1, ?H2. Qed.

(** ** A dead challenge stays dead *)

Lemma dead_not_registered k w e : world_ok w → dead k w → In e (running w) → ck_challenge (nd_consumed (if_device e)) = k →
  if_checked e + TRANSACTION_TIMEOUT_MS ≤ clock w.
Proof.
  intros Hok [_ Hd] He Ek. destruct (wo_running _ Hok e He) as (_ & Hp & c & u & Hin & Hm & Ec & Hlt).
  unfold key_matches in Hm. boolify. specialize (Hd c Hin). rewrite Ec in Hd.
  unfold CHALLENGE_REPLAY_WINDOW_MS, TRANSACTION_TIMEOUT_MS, ENROLMENT_INSERT_DEADLINE_MS in *.
  assert (u < clock w - 120000) by (apply Hd; congruence). lia.
Qed.

Lemma dead_step k w w' : world_step w w' → world_ok w → dead k w → dead k w' ∧
  (∀ d, In (k, d) (registered w') → In (k, d) (registered w)).
Proof.
  intros Hs Hok Hd. pose proof Hd as [Hi Hrow].
  destruct Hs as [w t Ht|w k' ttl e s' Hf Hp H|w k' b s' H|w i Hp H|w e rest d s' Er Hlt H|w e rest Er|w l Hl|w|w s' H];
    (split; [split|]); simpl; try done.
  - intros c Hin E Ep. specialize (Hrow c Hin E Ep). destruct (Challenge.consumedAt c); lia.
  - by right.
  - apply issue_rows in H. rewrite H. intros c [Hin|[<-|[]]]%in_app_iff E Ep; [by apply Hrow|]. simpl in E. by subst k.
  - apply consume_rows in H. rewrite H. intros c. rewrite in_update_where. intros (c0 & Hin & E) Ek Ep.
    destruct (consumable k' (clock w) c0) eqn:Eb; subst c; [|by apply Hrow]. simpl in *.
    specialize (Hrow c0 Hin Ek Ep). unfold consumable in Eb. boolify.
    match goal with En : Challenge.consumedAt c0 = None |- _ => rewrite En in Hrow end. lia.
  - apply insert_rows in H. rewrite H. apply Hrow.
  - intros d0 [[= Ek _]|Hin]; [|done]. exfalso.
    pose proof (dead_not_registered k w e Hok Hd ltac:(rewrite Er; by left) Ek). lia.
  - intros c [Hin _]%filter_In. by apply Hrow.
  - rewrite H. apply Hrow.
Qed.

Lemma dead_runs k w w' : rtc world_step w w' → world_ok w → dead k w → ∀ d, In (k, d) (registered w') → In (k, d) (registered w).
Proof.
  induction 1 as [|a b c Hab _ IH]; intros Hok Hd d Hin; [done|].
  destruct (dead_step k a b Hab Hok Hd) as [Hd' Hreg]. apply Hreg, IH; [by eapply world_step_ok | done | done].
Qed.

Lemma runs_clock w w' : rtc world_step w w' → clock w ≤ clock w' ∧ (∀ k, In k (issued w) → In k (issued w')).
Proof.
  induction 1 as [|a b c Hab _ IH]; [split; [lia | done]|]. destruct IH as [H1 H2].
  destruct Hab; simpl in *; (split; [lia|]); auto.
Qed.

(** The challenge belongs to a key, and what is left of it cannot be consumed after [t]. *)
Definition spent (k jkt : string) (t : Z) (w : world) : Prop :=
  ∀ c, In c (challenges (tables w)) → Challenge.challenge c = k → Challenge.purpose c = ENROL_PURPOSE →
    Challenge.dpopJkt c = jkt ∧ (Challenge.consumedAt c = None → Challenge.expiresAt c ≤ t).

Lemma spent_step k jkt t w w' : world_step w w' → In k (issued w) → spent k jkt t w → spent k jkt t w'.
Proof.
  intros Hs Hi Hsp.
  destruct Hs as [w t' Ht'|w k' ttl e s' Hf Hp H|w k' b s' H|w i Hp H|w e rest d s' Er Hlt H|w e rest Er|w l Hl|w|w s' H];
    unfold spent in *; simpl; try done.
  - apply issue_rows in H. rewrite H. intros c [Hin|[<-|[]]]%in_app_iff E; [by apply Hsp|]. simpl in E. by subst k.
  - apply consume_rows in H. rewrite H. intros c. rewrite in_update_where. intros (c0 & Hin & E) Ek Ep.
    destruct (consumable k' (clock w) c0); subst c; [|by apply Hsp]. simpl in *. split; [by apply (Hsp c0) | done].
  - apply insert_rows in H. rewrite H. apply Hsp.
  - intros c [Hin _]%filter_In. by apply Hsp.
  - rewrite H. apply Hsp.
Qed.

Lemma spent_runs k jkt t w w' : rtc world_step w w' → In k (issued w) → spent k jkt t w → spent k jkt t w'.
Proof.
  induction 1 as [|a b c Hab _ IH]; intros Hi Hsp; [done|].
  destruct (runs_clock a b) as [_ Hi']; [by apply rtc_once|]. apply IH; [by apply Hi' | by eapply spent_step].
Qed.

(** The database refuses the challenge: it is spent. *)
Lemma refused_spent k w s : world_ok w → ck_purpose k = ENROL_PURPOSE → ck_deviceId k = None →
  (∀ c, In c (challenges (tables w)) → Challenge.challenge c = ck_challenge k → Challenge.dpopJkt c = ck_dpopJkt k) →
  consume k (clock w) (tables w) = Ok (false, s) → spent (ck_challenge k) (ck_dpopJkt k) (clock w) w.
Proof.
  intros Hok Hp Hd Hj Hc c Hin Ec Epc. split; [by apply Hj|]. intros En. unfold consume in Hc.
  destruct (exists_row _ _) eqn:E; [done|]. rewrite exists_row_false in E. specialize (E c Hin).
  unfold consumable, challenge_matches, key_matches in E. rewrite En, Ec, Epc, Hp, (Hj c Hin Ec), (wo_enrol _ Hok c Hin Epc), Hd in E.
  rewrite !bool_decide_eq_true_2 in E by done. simpl in E. by apply Z.ltb_ge in E.
Qed.

Lemma expired_answer i t s : (throwForUnusableChallenge i t s).1 = Err DeviceChallengeExpiredError →
  wasConsumedWithinReplayWindow (enrol_key i) t s = false.
Proof.
  unfold throwForUnusableChallenge, iobind, read, query. by destruct (wasConsumedWithinReplayWindow _ _ _).
Qed.

(** C14: The invariant of the replay window.  The database refuses an enrolment's challenge, issued to the request's
    key, and the request is later told that it expired: then nothing registers a device with that challenge from
    that answer on, whatever else runs and however long a registration was held up. *)
Theorem expired_challenge_registers_nothing w0 w1 w2 w3 i s : starts w0 →
  rtc world_step w0 w1 → rtc world_step w1 w2 → rtc world_step w2 w3 →
  In (ei_challenge i) (issued w1) →
  (∀ c, In c (challenges (tables w1)) → Challenge.challenge c = ei_challenge i → Challenge.dpopJkt c = ei_dpopJkt i) →
  consume (enrol_key i) (clock w1) (tables w1) = Ok (false, s) →
  (throwForUnusableChallenge i (clock w2) (tables w2)).1 = Err DeviceChallengeExpiredError →
  ∀ d, In (ei_challenge i, d) (registered w3) → In (ei_challenge i, d) (registered w2).
Proof.
  intros H0 H01 H12 H23 Hi Hj Hc He%expired_answer.
  pose proof (runs_ok _ _ H01 (starts_ok _ H0)) as Hok1. pose proof (runs_ok _ _ H12 Hok1) as Hok2.
  pose proof (refused_spent (enrol_key i) w1 s Hok1 eq_refl eq_refl Hj Hc) as Hsp.
  apply (spent_runs _ _ _ _ _ H12 Hi) in Hsp. destruct (runs_clock _ _ H12) as [Hclk Hiss].
  apply (dead_runs _ _ _ H23 Hok2). split; [by apply Hiss|]. intros c Hin Ec Ep.
  destruct (Hsp c Hin Ec Ep) as [Hjc Hn]. destruct (Challenge.consumedAt c) as [u|] eqn:Eu; [|specialize (Hn eq_refl); lia].
  unfold wasConsumedWithinReplayWindow in He. rewrite exists_row_false in He. specialize (He c Hin).
  unfold challenge_matches, key_matches, consumed_since in He. rewrite Ec, Ep, Hjc, (wo_enrol _ Hok2 c Hin Ep), Eu in He. simpl in He.
  rewrite !bool_decide_eq_true_2 in He by done. simpl in He. by apply Z.leb_gt in He.
Qed.

End World.
End AuthReplay.

(** Self-service device replacement: prisma-device-replacement.repository.ts and
    device-replacement.service.ts of src/src/modules/auth.

    The random code and the hash are arguments: [hash] stands for SHA-256. *)

Module AuthReplace.
Import AuthDb AuthRecovery.

Definition DEVICE_REPLACEMENT_REVOCATION_REASON : string := "device_replacement".

Record DeviceReplacementConfig := mkReplacementConfig {
  codeTtlMs : Z; maxAttempts : Z; cooldownMs : Z; requestWindowMs : Z; maxRequestsPerWindow : Z }.

Record DeviceReplacementTarget := mkReplacementTarget { rp_contactEmail : option string; rp_isStaff : bool }.

(** ** The repository *)

Definition code_of (accountId : string) (c : ReplacementCode.t) : bool := bool_decide (ReplacementCode.accountId c = accountId).
Definition unspent (c : ReplacementCode.t) : bool := bool_decide (ReplacementCode.consumedAt c = None).

Definition findReplacementTarget (accountId : string) (s : auth) : option DeviceReplacementTarget :=
  (λ a, mkReplacementTarget (Acct.protectedContactEmail a) (has_active_role accountId s)) <$> find_acct accountId s.

Definition findPendingForAccount (accountId : string) (now : Z) (s : auth) : option ReplacementCode.t :=
  newest ReplacementCode.createdAt
    (List.filter (λ c, code_of accountId c && unspent c && (now <? ReplacementCode.expiresAt c)) (codes s)).

Definition countCreatedSince (accountId : string) (since : Z) (s : auth) : Z :=
  Z.of_nat (length (List.filter (λ c, code_of accountId c && (since <=? ReplacementCode.createdAt c)) (codes s))).

Definition findLastConsumedAt (accountId : string) (s : auth) : option Z :=
  newest id (omap (λ c, if code_of accountId c then ReplacementCode.consumedAt c else None) (codes s)).

Section WithUlid.
Context (ulid : nat → string).

(** [created_at] is the database's default, now() *)
Definition create_code (accountId : string) (sessionId : option string) (codeHash : string) (expiresAt now : Z)
    : txn auth ReplacementCode.t :=
  do! k := fresh_id ulid "device_replacement_code_" in
  let created := ReplacementCode.mk k accountId sessionId codeHash expiresAt 0 None now in
  do! _ := tprim (λ s,
    if exists_row (by_id ReplacementCode.id k) (codes s) then violation "device_replacement_codes_pkey"
    else if negb (exists_row (by_id Acct.id accountId) (accts s)) then violation "device_replacement_codes_account_id_fkey"
    else Ok (set_codes (codes s ++ [created]) s)) in
  tret created.

Definition countable (codeId : string) (now : Z) (c : ReplacementCode.t) : bool :=
  by_id ReplacementCode.id codeId c && unspent c && (now <? ReplacementCode.expiresAt c).

Definition incrementAttempts (codeId : string) (now : Z) : txn auth (option ReplacementCode.t) := λ s,
  if exists_row (countable codeId now) (codes s)
  then let s' := set_codes (update_where (countable codeId now) ReplacementCode.count_attempt (codes s)) s in
       Ok (find_row (by_id ReplacementCode.id codeId) (codes s'), s')
  else Ok (None, s).

(** The atomic gate: hash, expiry, single use and the attempt cap, all in one WHERE *)
Definition spendable (codeId codeHash : string) (cap now : Z) (c : ReplacementCode.t) : bool :=
  by_id ReplacementCode.id codeId c && bool_decide (ReplacementCode.codeHash c = codeHash) && unspent c &&
  (now <? ReplacementCode.expiresAt c) && (ReplacementCode.attemptsUsed c <? cap).

Definition spend (codeId codeHash : string) (cap now : Z) : txn auth nat := λ s,
  Ok (length (List.filter (spendable codeId codeHash cap now) (codes s)),
      set_codes (update_where (spendable codeId codeHash cap now) (ReplacementCode.set_consumedAt now) (codes s)) s).

(** The code is spent by one conditional update; the devices are read without a lock: this is the transaction run alone. *)
Definition consumeAndReplace (codeId codeHash : string) (now cap : Z) (accountId actor traceId : string)
    : txn auth (option RevokedDevices) :=
  do! count := spend codeId codeHash cap now in
  if (count =? 0)%nat then tret None
  else
  do! r := revoke_devices accountId DEVICE_REPLACEMENT_REVOCATION_REASON now in
  do! _ := audit_revoked ulid actor
    [("trace_id", JStr traceId); ("account_id", JStr accountId); ("reason", JStr DEVICE_REPLACEMENT_REVOCATION_REASON)]
    now (revokedDeviceIds r) in
  do! _ := audit_removed ulid actor accountId
    [("trace_id", JStr traceId); ("method_type", JStr "device_key");
     ("removed_count", JNum (Z.of_nat (removedLoginMethodCount r))); ("reason", JStr DEVICE_REPLACEMENT_REVOCATION_REASON)]
    (removedLoginMethodCount r) now in
  do! _ := audit ulid (Some actor) "authentication.device_replacement_completed" "account" accountId
    [("trace_id", JStr traceId); ("account_id", JStr accountId);
     ("revoked_device_count", JNum (Z.of_nat (length (revokedDeviceIds r))))] now in
  tret (Some r).

Definition revokePendingForAccount (accountId : string) (now : Z) : txn auth unit :=
  twrite (λ s, set_codes (update_where (λ c, code_of accountId c && unspent c) (ReplacementCode.set_consumedAt now) (codes s)) s).

(** recordAuditEvent *)
Definition record_replacement_event (actor traceId action resourceId : string) (changes : list (string * json)) (at_ : Z)
    : txn auth unit :=
  audit ulid (Some actor) action "account" resourceId (("trace_id", JStr traceId) :: changes) at_.

End WithUlid.

(** ** The services *)

Definition replacementTargetNotFoundError : error := AppError "authentication.device_replacement_target_not_found" 404 [].
Definition replacementTargetIsStaffError : error := AppError "authentication.device_replacement_target_is_staff" 409 [].
Definition replacementCooldownError : error := AppError "authentication.device_replacement_cooldown" 409 [].
Definition replacementRequestRateLimitedError : error := AppError "authentication.device_replacement_request_rate_limited" 429 [].
Definition replacementCodeInvalidError : error := AppError "authentication.device_replacement_code_invalid" 400 [].

Definition CODE_LENGTH : nat := 6.

(** [randomInt(0, 10 ** 6)], as the text of the code *)
Definition generateCode (random : Z) : string := JsString.padStart CODE_LENGTH "0"%char (JsString.BigInt_toString random).

Section Services.
Context (ulid : nat → string) (hash : string → string) (config : DeviceReplacementConfig) (fault : string → option error).

(** The code goes to the mail server; it is also the answer here, so that it can be followed. *)
Definition RequestDeviceReplacement_execute (accountId sessionId traceId : string) (random now : Z) : io auth (option string) :=
  await target := read (findReplacementTarget accountId) in
  match target with
  | None => throw replacementTargetNotFoundError
  | Some target =>
    if rp_isStaff target then throw replacementTargetIsStaffError
    else match rp_contactEmail target with
    | None =>
        await _ := transaction (record_replacement_event ulid accountId traceId "authentication.device_replacement_unavailable"
          accountId [("account_id", JStr accountId); ("reason", JStr "no_bound_email")] now) in
        ret None
    | Some _ =>
        await lastReplacement := read (findLastConsumedAt accountId) in
        if match lastReplacement with Some t => now - t <? cooldownMs config | None => false end then throw replacementCooldownError
        else
        await recentRequests := read (countCreatedSince accountId (now - requestWindowMs config)) in
        if maxRequestsPerWindow config <=? recentRequests then throw replacementRequestRateLimitedError
        else
        let code := generateCode random in
        let expiresAt := now + codeTtlMs config in
        await _ := transaction (revokePendingForAccount accountId now) in
        await _ := transaction (create_code ulid accountId (Some sessionId) (hash code) expiresAt now) in
        await _ := transaction (record_replacement_event ulid accountId traceId "authentication.device_replacement_requested"
          accountId [("account_id", JStr accountId); ("expires_at", JDate expiresAt)] now) in
        await _ := iocatch (attempt fault "sendDeviceReplacementCodeEmail" (ret tt)) (λ _, ret tt) in
        ret (Some code)
    end
  end.

Definition VerifyDeviceReplacement_execute (accountId sessionId code traceId : string) (now : Z) : io auth unit :=
  await target := read (findReplacementTarget accountId) in
  match target with
  | None => throw replacementTargetNotFoundError
  | Some target =>
    if rp_isStaff target then throw replacementTargetIsStaffError
    else
    await pending := read (findPendingForAccount accountId now) in
    match pending with
    | None => throw replacementCodeInvalidError
    | Some p =>
      if match ReplacementCode.sessionId p with Some k => negb (String.eqb k sessionId) | None => false end
      then throw replacementCodeInvalidError
      else if negb (String.eqb (hash code) (ReplacementCode.codeHash p)) then
        await _ := transaction (incrementAttempts (ReplacementCode.id p) now) in
        throw replacementCodeInvalidError
      else
      await replaced := transaction (consumeAndReplace ulid (ReplacementCode.id p) (ReplacementCode.codeHash p) now
                                       (maxAttempts config) accountId accountId traceId) in
      match replaced with None => throw replacementCodeInvalidError | Some _ => ret tt end
    end
  end.

End Services.

End AuthReplace.
