(* ===== verification/AuthMachine.v ===== *)
(** The auth module as a state machine: its committed transactions, what each writes, and the
    services as sequences of them. *)

From Stdlib Require Import String.
From S2P Require Import Prelude JsString DateTime IntakePolicy Db AuthDb AuthRecovery AuthDevice AuthSessions AuthEnrol AuthReplay.

Create HintDb auth_runs.

Module AuthMachine.
Import AuthDb AuthRecovery AuthDevice AuthEnrol AuthReplace AuthServices.

(** ** What the transactions write *)

Lemma audits_base ulid actor changes at_ ids : tx_rel only_base (audit_revoked ulid actor changes at_ ids).
Proof. apply tx_rel_each; [exact _|]. intros d. apply audit_base. Qed.

Lemma removed_base ulid actor a changes n at_ : tx_rel only_base (audit_removed ulid actor a changes n at_).
Proof. unfold audit_removed. destruct (0 <? n)%nat; [apply audit_base | apply tx_rel_ret; exact _]. Qed.

(** The devices and login methods after a revocation. *)
Definition revocation (accountId reason : string) (at_ : Z) (s : auth) : auth :=
  let ids := map Device.deviceId (order_by (λ a b, Device.createdAt a <? Device.createdAt b)
               (List.filter (active_device_of accountId) (devices s))) in
  set_logins (List.filter (λ m, negb (device_key_of accountId m)) (logins s))
    (set_devices (update_where (λ d, bool_decide (Device.deviceId d ∈ ids) && Device.is_active d)
                    (Device.set_revoked at_ reason) (devices s)) s).

Lemma revoke_devices_ok a reason at_ s r s' : revoke_devices a reason at_ s = Ok (r, s') → s' = revocation a reason at_ s.
Proof. intros H. unfold revoke_devices in H. inv_tx H. done. Qed.

Lemma revoke_recovery_ok ulid caseId a actor tr at_ s r s' : revokeDevicesForRecovery ulid caseId a actor tr at_ s = Ok (r, s') →
  ∃ b, s' = set_abase b (revocation a RECOVERY_DEVICE_REVOCATION_REASON at_ s).
Proof.
  intros H. unfold revokeDevicesForRecovery in H. inv_tx H. apply revoke_devices_ok in Htx as ->.
  apply audits_base in Htx0 as [b ->]. apply removed_base in Htx1 as [b' ->]. by exists b'.
Qed.

Lemma replace_ok ulid k h now cap a actor tr s r s' : consumeAndReplace ulid k h now cap a actor tr s = Ok (Some r, s') →
  exists_row (spendable k h cap now) (codes s) = true ∧
  ∃ b, s' = set_abase b (revocation a DEVICE_REPLACEMENT_REVOCATION_REASON now
              (set_codes (update_where (spendable k h cap now) (ReplacementCode.set_consumedAt now) (codes s)) s)).
Proof.
  intros H. unfold consumeAndReplace in H. apply tbind_ok in H as (n & s1 & Hs & H). cbv beta in H.
  injection Hs as <- <-. destruct (_ =? 0)%nat eqn:En in H; [by apply tret_ok in H as [? _]|]. inv_tx H.
  apply revoke_devices_ok in Htx as ->. apply audits_base in Htx0 as [b ->]. apply removed_base in Htx1 as [b' ->].
  apply audit_base in Htx2 as [b2 ->]. apply tret_ok in H as [_ ->]. split; [|by exists b2].
  apply Nat.eqb_neq in En. apply exists_row_true. destruct (List.filter _ _) as [|x l] eqn:E; [done|].
  exists x. apply filter_In. rewrite E. by left.
Qed.

Lemma update_case_ok p f s o s' : update_case p f s = Ok (o, s') →
  match o with
  | None => s' = s ∧ ∀ c, In c (recoveries s) → p c = false
  | Some c' => ∃ c, find_row p (recoveries s) = Some c ∧ c' = f c ∧ reviewers_ok (f c) = true ∧
      s' = set_recoveries (update_where p f (recoveries s)) s
  end.
Proof.
  unfold update_case. destruct (find_row p (recoveries s)) as [c|] eqn:E.
  - destruct (reviewers_ok (f c)) eqn:Er; [|done]. intros [= <- <-]. by exists c.
  - intros [= <- <-]. split; [done|]. by apply find_row_None.
Qed.

Lemma open_ok ulid a actor tr at_ s c s' : openCase ulid a actor tr at_ s = Ok (c, s') →
  (∀ x, In x (recoveries s) → RecoveryCase.id x ≠ RecoveryCase.id c) ∧
  c = RecoveryCase.mk (RecoveryCase.id c) a RecoveryStatus.open None None None None at_ None ∧
  ∃ b, s' = set_abase b (set_accts (update_where (by_id Acct.id a) (Acct.set_status recovery_review at_) (accts s))
              (set_recoveries (recoveries s ++ [c]) s)).
Proof.
  intros H. unfold openCase in H. inv_tx H. apply new_id_ok in Htx as [_ ->]. simpl in Htx0.
  destruct (exists_row _ _) eqn:E in Htx0; [done|]. injection Htx0 as <-. apply update_acct_ok in Htx1 as [_ ->].
  apply audit_base in Htx2 as [b ->]. split; [|by split; [|exists b]].
  rewrite exists_row_false in E. intros x Hx Ex. specialize (E x Hx). unfold by_id in E. boolify. done.
Qed.

(** A write of a case row, audited. *)
Lemma didit_ok ulid k ref actor tr at_ s c s' : recordDiditSession ulid k ref actor tr at_ s = Ok (Some c, s') →
  ∃ b, s' = set_abase b (set_recoveries (update_where (case_is k RecoveryStatus.open) (with_didit ref) (recoveries s)) s).
Proof.
  intros H. unfold recordDiditSession in H. apply tbind_ok in H as (o & s1 & Hu & H). apply update_case_ok in Hu.
  destruct o as [c0|]; [|by inv_tx H]. destruct Hu as (c1 & _ & _ & _ & ->). inv_tx H. apply tret_ok in H as [_ ->].
  apply audit_base in Htx as [b ->]. by exists b.
Qed.

Lemma primary_ok ulid k who cat tr at_ s c s' : recordPrimaryReview ulid k who cat tr at_ s = Ok (Some c, s') →
  ∃ b, s' = set_abase b (set_recoveries (update_where (awaits_primary k) (with_primary who) (recoveries s)) s).
Proof.
  intros H. unfold recordPrimaryReview in H. apply tbind_ok in H as (o & s1 & Hu & H). apply update_case_ok in Hu.
  destruct o as [c0|]; [|by inv_tx H]. destruct Hu as (c1 & _ & _ & _ & ->). inv_tx H. apply tret_ok in H as [_ ->].
  apply audit_base in Htx as [b ->]. by exists b.
Qed.

Lemma decide_ok ulid k who d reason tr at_ s c s' : decideCase ulid k who d reason tr at_ s = Ok (Some c, s') →
  ∃ b, s' = set_abase b (set_recoveries (update_where (awaits_decision k who) (decided d who at_) (recoveries s)) s).
Proof.
  intros H. unfold decideCase in H. apply tbind_ok in H as (o & s1 & Hu & H). apply update_case_ok in Hu.
  destruct o as [c0|]; [|by inv_tx H]. destruct Hu as (c1 & _ & _ & _ & ->). inv_tx H. apply tret_ok in H as [_ ->].
  apply audit_base in Htx as [b ->]. by exists b.
Qed.

Lemma complete_ok ulid k actor tr at_ cd s c s' : completeCase ulid k actor tr at_ cd s = Ok (Some c, s') →
  ∃ c0 b, find_row (case_is k RecoveryStatus.approved) (recoveries s) = Some c0 ∧ c = completed_case cd c0 ∧
    s' = set_abase b (set_accts (update_where (by_id Acct.id (RecoveryCase.accountId c0)) (Acct.set_status acc_active at_) (accts s))
           (set_recoveries (update_where (case_is k RecoveryStatus.approved) (completed_case cd) (recoveries s)) s)).
Proof.
  intros H. unfold completeCase in H. apply tbind_ok in H as (o & s1 & Hu & H). apply update_case_ok in Hu.
  destruct o as [c1|]; [|by inv_tx H]. destruct Hu as (c0 & Hf & -> & _ & ->). inv_tx H.
  apply tret_ok in H as [[= ->] ->].
  apply update_acct_ok in Htx as [_ ->]. apply audit_base in Htx0 as [b ->]. by exists c0, b.
Qed.

Lemma none_same ulid s s' :
  (∀ k ref actor tr at_, recordDiditSession ulid k ref actor tr at_ s = Ok (None, s') → s' = s) ∧
  (∀ k who cat tr at_, recordPrimaryReview ulid k who cat tr at_ s = Ok (None, s') → s' = s) ∧
  (∀ k who d reason tr at_, decideCase ulid k who d reason tr at_ s = Ok (None, s') → s' = s) ∧
  (∀ k actor tr at_ cd, completeCase ulid k actor tr at_ cd s = Ok (None, s') → s' = s).
Proof.
  split; [|split; [|split]]; intros *;
    unfold recordDiditSession, recordPrimaryReview, decideCase, completeCase;
    intros (o & s1 & Hu & H)%tbind_ok; apply update_case_ok in Hu;
    (destruct o as [c|]; [by inv_tx H; apply tret_ok in H as [? _] | apply tret_ok in H as [_ ->]; by destruct Hu]).
Qed.

(** ** The machine *)

Inductive auth_step (s : auth) : auth → Prop :=
  | st_base b : auth_step s (set_abase b s)
  | st_users v : auth_step s (set_users v s)
  | st_sessions v : auth_step s (set_sessions v s)
  | st_challenges v : auth_step s (set_challenges v s)
  | st_open c at_ : (∀ x, In x (recoveries s) → RecoveryCase.id x ≠ RecoveryCase.id c) →
      c = RecoveryCase.mk (RecoveryCase.id c) (RecoveryCase.accountId c) RecoveryStatus.open None None None None at_ None →
      auth_step s (set_accts (update_where (by_id Acct.id (RecoveryCase.accountId c)) (Acct.set_status recovery_review at_) (accts s))
                     (set_recoveries (recoveries s ++ [c]) s))
  | st_didit k ref : auth_step s (set_recoveries (update_where (case_is k RecoveryStatus.open) (with_didit ref) (recoveries s)) s)
  | st_primary k who : auth_step s (set_recoveries (update_where (awaits_primary k) (with_primary who) (recoveries s)) s)
  | st_decide k who d at_ :
      auth_step s (set_recoveries (update_where (awaits_decision k who) (decided d who at_) (recoveries s)) s)
  | st_complete k c at_ cd : find_row (case_is k RecoveryStatus.approved) (recoveries s) = Some c →
      auth_step s (set_accts (update_where (by_id Acct.id (RecoveryCase.accountId c)) (Acct.set_status acc_active at_) (accts s))
        (set_recoveries (update_where (case_is k RecoveryStatus.approved) (completed_case cd) (recoveries s)) s))
  | st_ask_closure r : ClosureRequest.status r = ClosureStatus.pending → auth_step s (set_closures (closures s ++ [r]) s)
  | st_resolve_closure p st by_ note at_ : st ≠ ClosureStatus.pending → st ≠ ClosureStatus.approved →
      auth_step s (set_closures (update_where (closure_pending p) (λ r, resolve_closure st (by_ r) (note r) at_ r) (closures s)) s)
  | st_close k r who note at_ : find_row (closure_pending (by_id ClosureRequest.id k)) (closures s) = Some r →
      auth_step s (set_accts (update_where (by_id Acct.id (ClosureRequest.accountId r)) (Acct.set_status suspended_restricted at_) (accts s))
        (set_closures (update_where (closure_pending (by_id ClosureRequest.id k))
           (resolve_closure ClosureStatus.approved (Some who) note at_) (closures s)) s))
  | st_register d login : Device.is_active d = true → registrable d (devices s) →
      auth_step s (set_logins (login_rows (Device.accountId d) (Device.deviceId d) login (Device.createdAt d) (logins s))
                     (set_devices (devices s ++ [d]) s))
  | st_revoke a reason at_ : auth_step s (revocation a reason at_ s)
  | st_touch k at_ : auth_step s (set_devices (update_where (by_id Device.deviceId k) (Device.set_lastSeenAt at_) (devices s)) s)
  | st_delete k : auth_step s
      (set_devices (List.filter (λ d, negb (by_id Device.deviceId k d)) (devices s))
        (set_logins (List.filter (λ m, negb (bool_decide (Login.methodType m = device_key) &&
                                             bool_decide (Login.providerSubject m = k))) (logins s)) s))
  | st_code c : ReplacementCode.consumedAt c = None → ReplacementCode.attemptsUsed c = 0 →
      (∀ x, In x (codes s) → ReplacementCode.id x ≠ ReplacementCode.id c) → auth_step s (set_codes (codes s ++ [c]) s)
  | st_attempt k now : auth_step s (set_codes (update_where (countable k now) ReplacementCode.count_attempt (codes s)) s)
  | st_spend p now : (∀ c, p c = true → unspent c = true) →
      auth_step s (set_codes (update_where p (ReplacementCode.set_consumedAt now) (codes s)) s).

Notation auth_run := (rtc auth_step).

Lemma base_run s s' : only_base s s' → auth_run s s'.
Proof. intros [b ->]. apply rtc_once. constructor. Qed.

(** [finish b] ends a run with the audit rows. *)
Ltac finish := eapply rtc_r; [|apply st_base].

Section Runs.
Context (ulid : nat → string).

Lemma openCase_run a actor tr at_ : tx_rel auth_run (openCase ulid a actor tr at_).
Proof.
  intros s c s' (Hf & Hc & b & ->)%open_ok. finish. apply rtc_once.
  assert (RecoveryCase.accountId c = a) as <- by (by rewrite Hc). by apply st_open.
Qed.

Lemma didit_run k ref actor tr at_ : tx_rel auth_run (recordDiditSession ulid k ref actor tr at_).
Proof.
  intros s [c|] s' H; [apply didit_ok in H as [b ->]; finish; apply rtc_once; constructor|].
  by apply (proj1 (none_same ulid s s')) in H as ->.
Qed.

Lemma primary_run k who cat tr at_ : tx_rel auth_run (recordPrimaryReview ulid k who cat tr at_).
Proof.
  intros s [c|] s' H; [apply primary_ok in H as [b ->]; finish; apply rtc_once; constructor|].
  by apply (proj1 (proj2 (none_same ulid s s'))) in H as ->.
Qed.

Lemma decide_run k who d reason tr at_ : tx_rel auth_run (decideCase ulid k who d reason tr at_).
Proof.
  intros s [c|] s' H; [apply decide_ok in H as [b ->]; finish; apply rtc_once; constructor|].
  by apply (proj1 (proj2 (proj2 (none_same ulid s s')))) in H as ->.
Qed.

Lemma complete_run k actor tr at_ cd : tx_rel auth_run (completeCase ulid k actor tr at_ cd).
Proof.
  intros s [c|] s' H; [apply complete_ok in H as (c0 & b & Hf & _ & ->); finish; apply rtc_once; by constructor|].
  by apply (proj2 (proj2 (proj2 (none_same ulid s s')))) in H as ->.
Qed.

Lemma revoke_run caseId a actor tr at_ : tx_rel auth_run (revokeDevicesForRecovery ulid caseId a actor tr at_).
Proof. intros s r s' [b ->]%revoke_recovery_ok. finish. apply rtc_once. constructor. Qed.

Lemma event_run caseId actor tr action ch at_ : tx_rel auth_run (recordRecoveryAuditEvent ulid caseId actor tr action ch at_).
Proof. intros s a s' H%audit_base. by apply base_run. Qed.

Lemma ask_closure_run a reason at_ : tx_rel auth_run (create_closure ulid a reason at_).
Proof.
  intros s r s' H. unfold create_closure in H. inv_tx H. apply new_id_ok in Htx as [_ ->].
  destruct (exists_row _ _) in Htx0; [done|]. destruct (negb _) in Htx0; [done|]. injection Htx0 as <-.
  eapply rtc_l; [apply st_base|]. apply rtc_once. by apply (st_ask_closure (set_abase _ s)).
Qed.

Lemma cancel_closure_run k a at_ : tx_rel auth_run (cancel_closure k a at_).
Proof.
  intros s r s'. unfold cancel_closure, update_closure. destruct (find_row _ _); intros [= <- <-]; [|done].
  apply rtc_once. by apply (st_resolve_closure s _ ClosureStatus.cancelled ClosureRequest.resolvedBy ClosureRequest.resolutionNote).
Qed.

Lemma decide_closure_run k who d note at_ : tx_rel auth_run (decide_closure ulid k who d note at_).
Proof.
  intros s r s' H. unfold decide_closure in H. apply tbind_ok in H as (o & s1 & Hu & H). unfold update_closure in Hu.
  destruct (find_row _ _) as [r0|] eqn:E; injection Hu as <- <-; [|by apply tret_ok in H as [_ ->]].
  inv_tx H. apply audit_base in Htx0 as [b ->]. finish. destruct d.
  - apply update_acct_ok in Htx as [_ ->]. apply rtc_once. by apply (st_close s k r0).
  - apply tret_ok in Htx as [_ ->]. apply rtc_once.
    by apply (st_resolve_closure s _ ClosureStatus.rejected (λ _, Some who) (λ _, note)).
Qed.

Lemma register_run i t : tx_rel auth_run (create_device ulid i t).
Proof.
  intros s d s' [_ (k & b & login & Hd & Hreg & ->)%insert_device_ok]%create_device_ok.
  eapply rtc_l; [apply (st_base _ b)|]. apply rtc_once.
  pose proof (st_register (set_abase b s) d login) as Hs. rewrite Hd in Hs at 3 4 5. apply Hs; [by rewrite Hd | done].
Qed.

Lemma issue_run k ttl t : tx_rel auth_run (issue k ttl t).
Proof.
  intros s e s' H. unfold issue in H. inv_tx H. destruct (exists_row _ _); [done|]. injection Htx as <-.
  apply rtc_once. constructor.
Qed.

Lemma consume_run k t : tx_rel auth_run (consume k t).
Proof. intros s b s'. unfold consume. destruct (exists_row _ _); intros [= <- <-]; [apply rtc_once; constructor | done]. Qed.

Lemma prune_run t : tx_rel auth_run (pruneExpired t).
Proof. intros s n s' H. unfold pruneExpired in H. inv_tx H. apply rtc_once. constructor. Qed.

Lemma touch_run k at_ : tx_rel auth_run (touchLastSeen k at_).
Proof.
  intros s a s' H. unfold touchLastSeen in H. apply tprim_ok in H. destruct (exists_row _ _); [|done]. injection H as <-. apply rtc_once. constructor.
Qed.

Lemma delete_run k : tx_rel auth_run (delete_device k).
Proof. intros s a s' H. unfold delete_device in H. inv_tx H. apply rtc_once, (st_delete s). Qed.

Lemma code_run a sid h e t : tx_rel auth_run (create_code ulid a sid h e t).
Proof.
  intros s c s' H. unfold create_code in H. inv_tx H. apply new_id_ok in Htx as [_ ->].
  destruct (exists_row _ _) eqn:E in Htx0; [done|]. destruct (negb _) in Htx0; [done|]. injection Htx0 as <-.
  eapply rtc_l; [apply st_base|]. apply rtc_once. apply (st_code (set_abase _ s)); [done..|].
  rewrite exists_row_false in E. intros x Hx Ex. specialize (E x Hx). unfold by_id in E. boolify. done.
Qed.

Lemma attempt_run k t : tx_rel auth_run (incrementAttempts k t).
Proof. intros s a s'. unfold incrementAttempts. destruct (exists_row _ _); intros [= <- <-]; [apply rtc_once; constructor | done]. Qed.

Lemma spendable_unspent k h cap now c : spendable k h cap now c = true → unspent c = true.
Proof. unfold spendable. intros H. apply andb_true_iff in H as [[[_ H]%andb_true_iff _]%andb_true_iff _]. done. Qed.

Lemma replace_run k h now cap a actor tr : tx_rel auth_run (consumeAndReplace ulid k h now cap a actor tr).
Proof.
  intros s [r|] s' H.
  - apply replace_ok in H as (_ & b & ->). finish. eapply rtc_l; [apply (st_spend s), (spendable_unspent k h cap now)|].
    apply rtc_once. constructor.
  - unfold consumeAndReplace in H. apply tbind_ok in H as (n & s1 & Hs & H). injection Hs as <- <-.
    destruct (_ =? 0)%nat; [|by inv_tx H; apply tret_ok in H as [? _]]. apply tret_ok in H as [_ ->].
    apply rtc_once, st_spend, spendable_unspent.
Qed.

Lemma supersede_codes_run a now : tx_rel auth_run (revokePendingForAccount a now).
Proof. intros s u s' H. unfold revokePendingForAccount in H. apply twrite_ok in H as ->. apply rtc_once, st_spend. intros c H. boolify. done. Qed.

Lemma replacement_event_run actor tr action ri ch at_ : tx_rel auth_run (record_replacement_event ulid actor tr action ri ch at_).
Proof. intros s a s' H%audit_base. by apply base_run. Qed.

End Runs.

#[export] Hint Resolve openCase_run didit_run primary_run decide_run complete_run revoke_run event_run ask_closure_run
  cancel_closure_run decide_closure_run register_run issue_run consume_run prune_run touch_run delete_run code_run
  attempt_run replace_run supersede_codes_run replacement_event_run : auth_runs.

Lemma write_run f : (∀ s, auth_step s (f s)) → io_rel auth_run (write f).
Proof. intros H s. apply rtc_once, H. Qed.

Lemma attempt_io {A} fault call (m : io auth A) : io_rel auth_run m → io_rel auth_run (attempt fault call m).
Proof. intros H. unfold attempt. destruct (fault call); [by intros s | done]. Qed.

Lemma commit_run {A} (t : txn auth A) : tx_rel auth_run t → io_rel auth_run (transaction t).
Proof. intros H. apply io_rel_transaction; [exact _ | exact H]. Qed.

Lemma outcome_io {A} (m : io auth A) : io_rel auth_run m → io_rel auth_run (outcome m).
Proof. intros H s. apply H. Qed.

(** [walk_auth] reduces [io_rel auth_run m] to its transactions, splitting every test. *)
Ltac walk_auth :=
  repeat match goal with
  | |- io_rel _ (ret _) => apply io_rel_ret; exact _
  | |- io_rel _ (throw _) => apply io_rel_throw; exact _
  | |- io_rel _ (lift _) => apply io_rel_lift; exact _
  | |- io_rel _ (read _) => apply io_rel_query; exact _
  | |- io_rel _ (attempt _ _ _) => apply attempt_io
  | |- io_rel _ (outcome _) => apply outcome_io
  | |- io_rel _ (write _) => apply write_run; intros ?; constructor
  | |- io_rel _ (iobind _ _) => apply io_rel_bind; [exact _ | | intros ?]
  | |- io_rel _ (iocatch _ _) => apply io_rel_catch; [exact _ | | intros ?]
  | |- io_rel _ (iofold _ _ _) => apply io_rel_fold; [exact _ | intros ? ?]
  | |- io_rel _ (if ?b then _ else _) => destruct b eqn:?
  | |- io_rel _ (match ?m with _ => _ end) => destruct m eqn:?
  | |- io_rel _ (transaction _) => apply commit_run; solve [eauto with auth_runs]
  end.

End AuthMachine.
