(* ===== verification/AuthProps.v ===== *)
(** What the auth module guarantees, in every state its transactions can reach. *)

From Stdlib Require Import String.
From S2P Require Import Prelude JsString DateTime IntakePolicy Db AuthDb AuthRecovery AuthDevice AuthSessions AuthEnrol AuthReplay AuthMachine.

Module AuthProps.
Import AuthDb AuthRecovery AuthDevice AuthEnrol AuthReplace AuthServices AuthMachine.

(** ** The services are runs of the machine *)

Section Runs.
Context `{A : InternalAdapter} (ulid : nat → string) (fault : string → option error).

Lemma recovery_runs a actor tr k d reason cat at_ now session getDecision :
  io_rel auth_run (OpenAccountRecoveryCase_execute ulid fault a actor tr at_ now) ∧
  io_rel auth_run (CreateRecoveryDiditSession_execute ulid session k actor tr now) ∧
  io_rel auth_run (GetAccountRecoveryCase_execute getDecision k) ∧
  io_rel auth_run (RecordPrimaryRecoveryReview_execute ulid k actor tr cat now) ∧
  io_rel auth_run (DecideAccountRecoveryCase_execute ulid fault k actor tr d reason now) ∧
  io_rel auth_run (CompleteAccountRecovery_execute ulid fault k actor tr at_).
Proof.
  split; [|split; [|split; [|split; [|split]]]];
    unfold OpenAccountRecoveryCase_execute, CreateRecoveryDiditSession_execute, GetAccountRecoveryCase_execute,
      RecordPrimaryRecoveryReview_execute, DecideAccountRecoveryCase_execute, CompleteAccountRecovery_execute,
      endCustomerDeviceAccess, notifyCustomer, sendRecoveryCompletionEmail, record_step, send_to, best_effort, send,
      revokeAllSessions, revokeSessionsForRecoveryCompletion, clearRecoveryRequired, end_sessions, find_customer; walk_auth.
Qed.

Lemma closure_runs a reason k who d note now at_ :
  io_rel auth_run (RequestAccountClosure_execute ulid a reason now) ∧
  io_rel auth_run (CancelAccountClosure_execute a now) ∧
  io_rel auth_run (DecideAccountClosureRequest_execute ulid fault k who d note now at_).
Proof.
  split; [|split]; unfold RequestAccountClosure_execute, CancelAccountClosure_execute, DecideAccountClosureRequest_execute,
    revokeAllSessions, end_sessions, find_customer; walk_auth.
Qed.

Lemma device_runs J plats attest i t current proof created jkt deviceId challenge jws :
  io_rel auth_run (EnrolDevice_execute ulid J plats attest i t) ∧
  io_rel auth_run (enrolVerify ulid J plats fault current proof attest i created t) ∧
  io_rel auth_run (loginVerify J plats fault jkt deviceId challenge jws created t).
Proof.
  split; [|split]; unfold enrolVerify, loginVerify, EnrolDevice_execute, LoginDevice_execute, throwForUnusableChallenge,
    finish_enrolment, createSession, supersedeEarlierDeviceSessions, discardCeremonySession, rollback_enrolment, logged,
    drop_session; walk_auth.
Qed.

Lemma replacement_runs hash config a sid tr code random now :
  io_rel auth_run (RequestDeviceReplacement_execute ulid hash config fault a sid tr random now) ∧
  io_rel auth_run (VerifyDeviceReplacement_execute ulid hash config a sid code tr now).
Proof. split; unfold RequestDeviceReplacement_execute, VerifyDeviceReplacement_execute; walk_auth. Qed.

Lemma challenge_runs challenge purpose jkt deviceId ttl now :
  io_rel auth_run (IssueDeviceChallenge_execute challenge purpose jkt deviceId ttl now) ∧
  io_rel auth_run (issueLoginChallenge challenge jkt deviceId ttl now) ∧
  io_rel auth_run (transaction (pruneExpired now)).
Proof. split; [|split]; unfold issueLoginChallenge, IssueDeviceChallenge_execute; walk_auth. Qed.

End Runs.

(** ** Devices and login methods *)

Definition is_device_key (m : Login.t) : Prop := Login.methodType m = device_key.

Record devices_ok (s : auth) : Prop := {
  dk_id : ∀ d e, In d (devices s) → In e (devices s) → Device.deviceId d = Device.deviceId e → d = e;
  dk_one : ∀ d e, In d (devices s) → In e (devices s) → Device.is_active d = true → Device.is_active e = true →
    Device.accountId d = Device.accountId e → d = e;
  dk_key : ∀ d e, In d (devices s) → In e (devices s) → Device.is_active d = true → Device.is_active e = true →
    Device.dpopJkt d = Device.dpopJkt e → d = e;
  dk_login : ∀ m, In m (logins s) → is_device_key m → ∃ d, In d (devices s) ∧ Device.is_active d = true ∧
    Device.deviceId d = Login.providerSubject m ∧ Device.accountId d = Login.accountId m;
  dk_device : ∀ d, In d (devices s) → Device.is_active d = true → ∃ m, In m (logins s) ∧ is_device_key m ∧
    Login.providerSubject m = Device.deviceId d ∧ Login.accountId m = Device.accountId d }.

(** The rows of an account's devices that the revocation picks are its active ones. *)
Definition picked (a : string) (s : auth) (d : Device.t) : bool :=
  bool_decide (Device.deviceId d ∈ map Device.deviceId (order_by (λ a b, Device.createdAt a <? Device.createdAt b)
    (List.filter (active_device_of a) (devices s)))) && Device.is_active d.

Lemma picked_iff a s d : devices_ok s → In d (devices s) → picked a s d = active_device_of a d.
Proof.
  intros Hok Hin. apply eq_true_iff_eq. unfold picked. rewrite andb_true_iff, bool_decide_eq_true, list_elem_of_In, in_map_iff.
  setoid_rewrite elem_order_by. setoid_rewrite filter_In. split.
  - intros [(e & E & He & Ha) _]. by rewrite (dk_id _ Hok d e Hin He).
  - intros H. split; [by exists d|]. unfold active_device_of in H. by apply andb_true_iff in H as [_ H].
Qed.

Lemma active_device_of_true a d : active_device_of a d = true ↔ Device.accountId d = a ∧ Device.is_active d = true.
Proof. unfold active_device_of. by rewrite andb_true_iff, bool_decide_eq_true. Qed.

Lemma device_key_of_true a m : device_key_of a m = true ↔ Login.accountId m = a ∧ is_device_key m.
Proof. unfold device_key_of, is_device_key. by rewrite andb_true_iff, !bool_decide_eq_true. Qed.

(** A device that is still active after a revocation belongs to another account. *)
Lemma revocation_devices a reason at_ s d : devices_ok s → In d (devices (revocation a reason at_ s)) →
  ∃ d0, In d0 (devices s) ∧ Device.deviceId d = Device.deviceId d0 ∧
    (active_device_of a d0 = true ∧ Device.is_active d = false ∨ active_device_of a d0 = false ∧ d = d0).
Proof.
  intros Hok. simpl. rewrite in_update_where. intros (d0 & Hin & ->). exists d0. split; [done|].
  change (bool_decide _ && _) with (picked a s d0). rewrite (picked_iff _ _ _ Hok Hin). destruct (active_device_of a d0); auto.
Qed.

Lemma revocation_keeps a reason at_ s d : devices_ok s → In d (devices s) → active_device_of a d = false →
  In d (devices (revocation a reason at_ s)).
Proof.
  intros Hok Hin Hn. simpl. apply in_update_where. exists d. split; [done|].
  change (bool_decide _ && _) with (picked a s d). by rewrite (picked_iff _ _ _ Hok Hin), Hn.
Qed.

Lemma revocation_ok a reason at_ s : devices_ok s → devices_ok (revocation a reason at_ s).
Proof.
  intros Hok. assert (∀ d, In d (devices (revocation a reason at_ s)) → Device.is_active d = true →
    In d (devices s) ∧ Device.accountId d ≠ a) as Hact.
  { intros d (d0 & Hin & _ & [[_ Hd]|[Hn ->]])%revocation_devices Hd'; [congruence | | done]. split; [done|].
    intros Ea. by rewrite (proj2 (active_device_of_true a d0)) in Hn. }
  split.
  - simpl. intros d e. rewrite !in_update_where. intros (d0 & Hd0 & Ed) (e0 & He0 & Ee) E.
    assert (d0 = e0) as <-; [|congruence]. apply (dk_id _ Hok); [done..|].
    rewrite Ed, Ee in E. by destruct (_ && _), (_ && _) in E.
  - intros d e Hd He Ad Ae. apply (dk_one _ Hok); try done; by apply Hact.
  - intros d e Hd He Ad Ae. apply (dk_key _ Hok); try done; by apply Hact.
  - simpl. intros m [Hm Hk]%filter_In Hdk. destruct (dk_login _ Hok m Hm Hdk) as (d & Hd & Ad & Es & Ea).
    exists d. split; [|done]. apply (revocation_keeps a reason at_ s d Hok Hd).
    apply not_true_is_false. intros [E _]%active_device_of_true.
    apply negb_true_iff in Hk. rewrite (proj2 (device_key_of_true a m)) in Hk; [done|]. by split; [congruence|].
  - intros d Hd Ad. destruct (Hact d Hd Ad) as [Hin Hne]. destruct (dk_device _ Hok d Hin Ad) as (m & Hm & Hk & Es & Ea).
    exists m. split; [|done]. simpl. apply filter_In. split; [done|]. apply negb_true_iff, not_true_is_false.
    intros [E _]%device_key_of_true. congruence.
Qed.

(** Registering a device of an account that has none. *)
Lemma register_ok d login s : devices_ok s → Device.is_active d = true → registrable d (devices s) →
  devices_ok (set_logins (login_rows (Device.accountId d) (Device.deviceId d) login (Device.createdAt d) (logins s))
                (set_devices (devices s ++ [d]) s)).
Proof.
  intros Hok Ha (Hid & Hacc & Hkey).
  assert (login_rows (Device.accountId d) (Device.deviceId d) login (Device.createdAt d) (logins s) =
          logins s ++ [Login.mk login (Device.accountId d) device_key (Device.deviceId d) (Device.createdAt d) true]) as ->.
  { unfold login_rows. destruct (exists_row _ _) eqn:E; [exfalso|done].
    apply exists_row_true in E as (m & Hm & [Em Hk]%device_key_of_true).
    destruct (dk_login _ Hok m Hm Hk) as (e & He & Ae & _ & Ea). specialize (Hacc e He).
    rewrite (proj2 (active_device_of_true _ _)) in Hacc; [done|]. by split; [congruence|]. }
  assert (∀ e, In e (devices s) → Device.is_active e = true → Device.accountId e ≠ Device.accountId d) as Hacc'.
  { intros e He Ae E. specialize (Hacc e He). by rewrite (proj2 (active_device_of_true _ _)) in Hacc. }
  split; simpl; setoid_rewrite in_app_iff; simpl.
  - intros x y [Hx|[<-|[]]] [Hy|[<-|[]]] E; [by apply (dk_id _ Hok) | by destruct (Hid x Hx) | by destruct (Hid y Hy) | done].
  - intros x y [Hx|[<-|[]]] [Hy|[<-|[]]] Ax Ay E;
      [by apply (dk_one _ Hok) | by destruct (Hacc' x Hx Ax) | by destruct (Hacc' y Hy Ay) | done].
  - intros x y [Hx|[<-|[]]] [Hy|[<-|[]]] Ax Ay E;
      [by apply (dk_key _ Hok) | by destruct (Hkey x Hx Ax) | by destruct (Hkey y Hy Ay) | done].
  - intros m [Hm|[<-|[]]] Hk; [|by exists d; auto]. destruct (dk_login _ Hok m Hm Hk) as (e & He & Hrest). exists e. auto.
  - intros e [He|[<-|[]]] Ae; [|eexists; split; [by right; left | done]].
    destruct (dk_device _ Hok e He Ae) as (m & Hm & Hrest). exists m. auto.
Qed.

Lemma touch_ok k at_ s : devices_ok s →
  devices_ok (set_devices (update_where (by_id Device.deviceId k) (Device.set_lastSeenAt at_) (devices s)) s).
Proof.
  intros Hok. pose (f := λ d, if by_id Device.deviceId k d then Device.set_lastSeenAt at_ d else d).
  assert (∀ d, Device.deviceId (f d) = Device.deviceId d ∧ Device.accountId (f d) = Device.accountId d ∧
    Device.dpopJkt (f d) = Device.dpopJkt d ∧ Device.is_active (f d) = Device.is_active d) as Hf.
  { intros d. unfold f. by destruct (by_id Device.deviceId k d). }
  assert (∀ d, In d (update_where (by_id Device.deviceId k) (Device.set_lastSeenAt at_) (devices s)) ↔
    ∃ d0, In d0 (devices s) ∧ d = f d0) as Hin by (intros d; apply in_update_where).
  split; simpl; setoid_rewrite Hin.
  - intros x y (x0 & Hx & ->) (y0 & Hy & ->) E. f_equal. apply (dk_id _ Hok); [done..|].
    by destruct (Hf x0) as (<- & _), (Hf y0) as (<- & _).
  - intros x y (x0 & Hx & ->) (y0 & Hy & ->). destruct (Hf x0) as (_ & -> & _ & ->), (Hf y0) as (_ & -> & _ & ->).
    intros Ax Ay E. f_equal. by apply (dk_one _ Hok).
  - intros x y (x0 & Hx & ->) (y0 & Hy & ->). destruct (Hf x0) as (_ & _ & -> & ->), (Hf y0) as (_ & _ & -> & ->).
    intros Ax Ay E. f_equal. by apply (dk_key _ Hok).
  - intros m Hm Hk. destruct (dk_login _ Hok m Hm Hk) as (e & He & Ae & Es & Ea). exists (f e).
    destruct (Hf e) as (-> & -> & _ & ->). split; [by exists e | done].
  - intros x (x0 & Hx & ->). destruct (Hf x0) as (-> & -> & _ & ->). by apply (dk_device _ Hok).
Qed.

Lemma delete_ok k s : devices_ok s → devices_ok
  (set_devices (List.filter (λ d, negb (by_id Device.deviceId k d)) (devices s))
     (set_logins (List.filter (λ m, negb (bool_decide (Login.methodType m = device_key) &&
                                          bool_decide (Login.providerSubject m = k))) (logins s)) s)).
Proof.
  intros Hok.
  assert (∀ d, negb (by_id Device.deviceId k d) = true ↔ Device.deviceId d ≠ k) as Hd.
  { intros d. unfold by_id. by rewrite negb_true_iff, bool_decide_eq_false. }
  assert (∀ m, is_device_key m → negb (bool_decide (Login.methodType m = device_key) && bool_decide (Login.providerSubject m = k)) = true
    ↔ Login.providerSubject m ≠ k) as Hm.
  { intros m Hk. rewrite (bool_decide_eq_true_2 _ Hk). simpl. by rewrite negb_true_iff, bool_decide_eq_false. }
  split; simpl; setoid_rewrite filter_In.
  - intros x y [Hx _] [Hy _]. by apply (dk_id _ Hok).
  - intros x y [Hx _] [Hy _]. by apply (dk_one _ Hok).
  - intros x y [Hx _] [Hy _]. by apply (dk_key _ Hok).
  - intros m [Hin Hn] Hk. apply (Hm m Hk) in Hn. destruct (dk_login _ Hok m Hin Hk) as (e & He & Ae & Es & Ea).
    exists e. rewrite Hd. by rewrite Es.
  - intros d [Hin Hn] Ad. apply Hd in Hn. destruct (dk_device _ Hok d Hin Ad) as (m & Hmin & Hk & Es & Ea).
    exists m. rewrite Hm by done. by rewrite Es.
Qed.

(** Only four kinds of step touch devices. *)
Lemma devices_same s s' : devices s' = devices s → logins s' = logins s → devices_ok s → devices_ok s'.
Proof. intros E1 E2 [H1 H2 H3 H4 H5]. split; rewrite ?E1, ?E2; done. Qed.

Lemma step_devices_ok s s' : auth_step s s' → devices_ok s → devices_ok s'.
Proof.
  intros Hs. destruct Hs; try (by apply devices_same); intros Hok;
    [by apply register_ok | by apply revocation_ok | by apply touch_ok | by apply delete_ok].
Qed.

(** ** Reachable states *)

(** Before the first device, recovery, closure or replacement. *)
Definition initial (s : auth) : Prop :=
  devices s = [] ∧ (∀ m, In m (logins s) → ¬ is_device_key m) ∧ recoveries s = [] ∧ closures s = [] ∧ codes s = [].

Definition reachable (s : auth) : Prop := ∃ s0, initial s0 ∧ auth_run s0 s.

(** A property of the initial states that every step keeps holds of every reachable state. *)
Lemma reachable_ind (P : auth → Prop) : (∀ s, initial s → P s) → (∀ s s', auth_step s s' → P s → P s') →
  ∀ s, reachable s → P s.
Proof. intros H0 Hs s (s0 & Hi & H). apply H0 in Hi. induction H as [|a b c Hab _ IH]; [done|]. by eapply IH, Hs. Qed.

Lemma reachable_devices s : reachable s → devices_ok s.
Proof.
  apply reachable_ind; [|exact step_devices_ok]. intros s0 (H1 & H2 & _).
  split; rewrite ?H1; try done. intros m Hm Hk. by destruct (H2 m Hm).
Qed.

(** When requests run one after another, the login methods tell the truth about devices: in every state that enrolments, logins, recoveries, replacements
    and their failures can reach, an account has a device_key login method exactly while it has an active device,
    which the method names; it has one active device at most; and no two active devices share a DPoP key.  Recovery and
    replacement read the devices without a lock before they delete the login methods, so an enrolment that commits in
    between is outside this statement. *)
Theorem login_methods_match_devices s : reachable s →
  (∀ a, (∃ m, In m (logins s) ∧ device_key_of a m = true) ↔ (∃ d, In d (devices s) ∧ active_device_of a d = true)) ∧
  (∀ a m d, In m (logins s) → device_key_of a m = true → In d (devices s) → active_device_of a d = true →
     Login.providerSubject m = Device.deviceId d) ∧
  (∀ d e, In d (devices s) → In e (devices s) → Device.is_active d = true → Device.is_active e = true →
     Device.accountId d = Device.accountId e ∨ Device.dpopJkt d = Device.dpopJkt e → d = e).
Proof.
  intros Hok%reachable_devices. split; [|split].
  - intros a. setoid_rewrite device_key_of_true. setoid_rewrite active_device_of_true. split.
    + intros (m & Hm & <- & Hk). destruct (dk_login _ Hok m Hm Hk) as (d & Hd & Ad & _ & Ea). by exists d.
    + intros (d & Hd & <- & Ad). destruct (dk_device _ Hok d Hd Ad) as (m & Hm & Hk & _ & Ea). by exists m.
  - intros a m d Hm [Em Hk]%device_key_of_true Hd [Ed Ad]%active_device_of_true.
    destruct (dk_login _ Hok m Hm Hk) as (e & He & Ae & <- & Ea). f_equal. apply (dk_one _ Hok); [done..|congruence].
  - intros d e Hd He Ad Ae [E|E]; [by apply (dk_one _ Hok) | by apply (dk_key _ Hok)].
Qed.

End AuthProps.

(** Recovery: who can end a lockout, what a completed recovery leaves behind, and that a failed
    completion can be retried. *)

Module AuthRecoveryProps.
Import AuthDb AuthRecovery AuthDevice AuthEnrol AuthServices AuthMachine AuthProps.

(** ** The cases *)

(** Two different people have looked at the case, with a fresh verification on file. *)
Definition two_reviewers (c : RecoveryCase.t) : Prop :=
  ∃ p q ref t, RecoveryCase.reviewedByPrimary c = Some p ∧ RecoveryCase.reviewedBySecondary c = Some q ∧ p ≠ q ∧
    RecoveryCase.freshDiditVerificationRef c = Some ref ∧ RecoveryCase.resolvedAt c = Some t.

Definition case_ok (c : RecoveryCase.t) : Prop :=
  match RecoveryCase.status c with
  | RecoveryStatus.open => RecoveryCase.reviewedBySecondary c = None ∧ RecoveryCase.resolvedAt c = None ∧
      RecoveryCase.cooldownEndsAt c = None ∧
      (RecoveryCase.reviewedByPrimary c ≠ None → RecoveryCase.freshDiditVerificationRef c ≠ None)
  | RecoveryStatus.approved | RecoveryStatus.rejected => two_reviewers c ∧ RecoveryCase.cooldownEndsAt c = None
  | RecoveryStatus.completed => two_reviewers c ∧ RecoveryCase.cooldownEndsAt c ≠ None
  end.

Record cases_ok (s : auth) : Prop := {
  co_id : ∀ c c', In c (recoveries s) → In c' (recoveries s) → RecoveryCase.id c = RecoveryCase.id c' → c = c';
  co_case : ∀ c, In c (recoveries s) → case_ok c }.

Lemma case_is_true k st c : case_is k st c = true ↔ RecoveryCase.id c = k ∧ RecoveryCase.status c = st.
Proof. unfold case_is, by_id. by rewrite andb_true_iff, !bool_decide_eq_true. Qed.

Lemma cases_update p f s : cases_ok s → (∀ c, RecoveryCase.id (f c) = RecoveryCase.id c) →
  (∀ c, In c (recoveries s) → p c = true → case_ok c → case_ok (f c)) →
  cases_ok (set_recoveries (update_where p f (recoveries s)) s).
Proof.
  intros [Hid Hc] Hf Hp. split; simpl; setoid_rewrite in_update_where.
  - intros c c' (x & Hx & ->) (y & Hy & ->) E. assert (x = y) as ->; [|done]. apply Hid; [done..|].
    destruct (p x), (p y); rewrite ?Hf in E; done.
  - intros c (x & Hx & ->). destruct (p x) eqn:E; auto.
Qed.

Lemma cases_same s s' : recoveries s' = recoveries s → cases_ok s → cases_ok s'.
Proof. intros E [H1 H2]. split; rewrite ?E; done. Qed.

Lemma step_cases_ok s s' : auth_step s s' → cases_ok s → cases_ok s'.
Proof.
  intros Hs. destruct Hs as [b|v|v|v|c at_ Hf Hc|k ref|k who|k who d at_|k c at_ cd Hf|r|p st by_ note at_|k r who note at_ Hf
    |d login|a reason at_|k at_|k|c|k now|p now]; try (by apply cases_same); intros Hok.
  - destruct Hok as [Hid Hco]. split; simpl; setoid_rewrite in_app_iff; simpl.
    + intros x y [Hx|[<-|[]]] [Hy|[<-|[]]] E; [by apply Hid | by destruct (Hf x Hx) | by destruct (Hf y Hy) | done].
    + intros x [Hx|[<-|[]]]; [by apply Hco|]. by rewrite Hc.
  - apply cases_update; [done..|]. intros c Hin [_ Hst]%case_is_true. unfold case_ok. simpl. rewrite Hst.
    by intros (H1 & H2 & H3 & _).
  - apply cases_update; [done..|]. intros c Hin H. unfold awaits_primary in H.
    apply andb_true_iff in H as [[[_ Hst]%case_is_true _]%andb_true_iff Hd]. unfold case_ok. simpl. rewrite Hst.
    intros (H1 & H2 & H3 & _). boolify. done.
  - apply cases_update; [done..|]. intros c Hin H. unfold awaits_decision in H. apply andb_true_iff in H as [[_ Hst]%case_is_true Hp].
    destruct (RecoveryCase.reviewedByPrimary c) as [p|] eqn:Ep; [|done]. apply negb_true_iff, String.eqb_neq in Hp.
    unfold case_ok. rewrite Hst. intros (H1 & H2 & H3 & H4). rewrite Ep in H4.
    destruct (RecoveryCase.freshDiditVerificationRef c) as [ref|] eqn:Er; [|by destruct H4].
    assert (two_reviewers (decided d who at_ c)) as Ht by (exists p, who, ref, at_; simpl; by rewrite Ep, Er).
    destruct d; simpl; by rewrite H3.
  - apply (cases_same (set_recoveries (update_where (case_is k RecoveryStatus.approved) (completed_case cd) (recoveries s)) s)); [done|].
    apply cases_update; [done..|]. intros x Hin [_ Hst]%case_is_true. unfold case_ok. rewrite Hst. simpl. by intros [Ht _].
Qed.

Lemma reachable_cases s : reachable s → cases_ok s.
Proof. apply reachable_ind; [|exact step_cases_ok]. intros s0 (_ & _ & H & _). by split; rewrite H. Qed.

(** ** Lockouts *)

Definition status_of (a : string) (s : auth) : option AccountStatus := Acct.status <$> find_acct a s.

Lemma find_acct_update k f a s : (∀ x, Acct.id (f x) = Acct.id x) →
  find_row (by_id Acct.id a) (update_where (by_id Acct.id k) f (accts s)) =
  (λ x, if by_id Acct.id k x then f x else x) <$> find_acct a s.
Proof. intros H. apply find_row_update_where. intros r _. unfold by_id. by rewrite H. Qed.

Lemma status_set k st at_ a s s' : accts s' = update_where (by_id Acct.id k) (Acct.set_status st at_) (accts s) →
  status_of a s' = if bool_decide (a = k) then (λ _, st) <$> find_acct a s else status_of a s.
Proof.
  intros E. unfold status_of. replace (find_acct a s') with ((λ x, if by_id Acct.id k x then Acct.set_status st at_ x else x) <$> find_acct a s).
  2:{ symmetry. unfold find_acct at 1. rewrite E. by apply find_acct_update. }
  destruct (find_acct a s) as [x|] eqn:Ex; [|by case_bool_decide]. simpl.
  apply find_row_Some in Ex as [_ Ea]. unfold by_id in *. apply bool_decide_eq_true in Ea. rewrite Ea. by case_bool_decide.
Qed.

(** Completed cases stay, and the only step that makes an account active completes an approved case of it. *)
Definition completed_in (s : auth) (c : RecoveryCase.t) : Prop :=
  In c (recoveries s) ∧ RecoveryCase.status c = RecoveryStatus.completed.

Lemma completed_stays s s' c : auth_step s s' → completed_in s c → completed_in s' c.
Proof.
  intros Hs [Hin Hst]. destruct Hs; try done; simpl; (split; [|done]); simpl; try (by apply in_app_iff; left).
  all: apply in_update_where; exists c; split; [done|].
  - destruct (case_is _ _ _) eqn:E; [|done]. apply case_is_true in E as [_ E]. congruence.
  - unfold awaits_primary. destruct (case_is _ _ c) eqn:E; [|done]. apply case_is_true in E as [_ E]. congruence.
  - unfold awaits_decision. destruct (case_is _ _ c) eqn:E; [|done]. apply case_is_true in E as [_ E]. congruence.
  - destruct (case_is _ _ _) eqn:E; [|done]. apply case_is_true in E as [_ E]. congruence.
Qed.

Lemma run_completed s s' c : auth_run s s' → completed_in s c → completed_in s' c.
Proof. induction 1 as [|x y z Hxy _ IH]; intros H; [done|]. by eapply IH, completed_stays. Qed.

Lemma step_reactivates s s' a : auth_step s s' → status_of a s ≠ Some acc_active → status_of a s' = Some acc_active →
  ∃ c cd, In c (recoveries s) ∧ RecoveryCase.status c = RecoveryStatus.approved ∧ RecoveryCase.accountId c = a ∧
    completed_in s' (completed_case cd c).
Proof.
  intros Hs Hn Ha. destruct Hs as [b|v|v|v|c at_ Hf Hc|k ref|k who|k who d at_|k c at_ cd Hf|r|p st by_ note at_|k r who note at_ Hf
    |d login|a0 reason at_|k at_|k|c|k now|p now]; try done.
  - erewrite status_set in Ha by reflexivity. destruct (bool_decide _); [by destruct (find_acct a s) | done].
  - erewrite status_set in Ha by reflexivity. case_bool_decide as E; [|done]. clear Ha.
    pose proof (find_row_Some _ _ _ Hf) as [Hin [Ek Est]%case_is_true]. exists c, cd. split; [done|]. split; [done|]. split; [done|].
    split; [|done]. simpl. apply in_update_where. exists c. split; [done|].
    by rewrite (proj2 (case_is_true _ _ _) (conj Ek Est)).
  - erewrite status_set in Ha by reflexivity. destruct (bool_decide _); [by destruct (find_acct a s) | done].
Qed.

(** C15: Only a reviewed recovery ends a lockout.  Whatever runs, an account that was locked out or restricted and is active
    again has had a recovery case completed in between, and on that case two different people decided, the second
    after the first, with a fresh identity verification on file, and a cooldown was set. *)
Theorem lockout_ends_by_two_reviewers s s' a : reachable s → auth_run s s' →
  status_of a s ≠ Some acc_active → status_of a s' = Some acc_active →
  ∃ c, In c (recoveries s') ∧ RecoveryCase.accountId c = a ∧ RecoveryCase.status c = RecoveryStatus.completed ∧
    two_reviewers c ∧ RecoveryCase.cooldownEndsAt c ≠ None ∧ ¬ In c (recoveries s).
Proof.
  intros R H Hn Ha. induction H as [s|s1 s2 s3 H12 H23 IH]; [done|].
  assert (reachable s2) as R2 by (destruct R as (s0 & Hi & H0); exists s0; split; [done | by eapply rtc_r]).
  destruct (decide (status_of a s2 = Some acc_active)) as [E|E].
  - destruct (step_reactivates s1 s2 a H12 Hn E) as (c & cd & Hin & Hst & Hac & Hc).
    pose proof (run_completed _ _ _ H23 Hc) as [Hin3 Hst3]. exists (completed_case cd c). split; [done|]. split; [done|].
    split; [done|]. destruct Hc as [Hin2 _]. pose proof (co_case _ (reachable_cases _ R2) _ Hin2) as [Ht Hcd].
    split; [done|]. split; [done|]. intros Hin1.
    pose proof (co_id _ (reachable_cases _ R) _ _ Hin1 Hin eq_refl) as Heq. rewrite <- Heq in Hst. done.
  - destruct (IH R2 E Ha) as (c & Hin & Hac & Hst & Ht & Hcd & Hnew). exists c. repeat (split; [done|]).
    intros Hin1. apply Hnew, (completed_stays s1 s2 c H12). by split.
Qed.

(** ** Completion *)

Section Completion.
Context `{A : InternalAdapter} `{!InternalAdapterLaws A} (ulid : nat → string).

(** The case can be completed: it is approved, and its account is a customer's. *)
Record ready (k : string) (c : RecoveryCase.t) (acct : Acct.t) (s : auth) : Prop := {
  rd_devices : devices_ok s; rd_cases : cases_ok s;
  rd_case : findCase k s = Some c; rd_status : RecoveryCase.status c = RecoveryStatus.approved;
  rd_acct : find_acct (RecoveryCase.accountId c) s = Some acct;
  rd_role : has_active_role (RecoveryCase.accountId c) s = false;
  rd_user : ∃ u, findUserById (Acct.betterAuthUserId acct) (users s) = Some u ∧ User.population u ≠ "staff_partner" }.

(** What the steps before the completion leave as it was. *)
Definition keeps (uid : string) (s s' : auth) : Prop :=
  recoveries s' = recoveries s ∧ accts s' = accts s ∧ staffRoles s' = staffRoles s ∧
  User.population <$> findUserById uid (users s') = User.population <$> findUserById uid (users s).

#[local] Instance keeps_preorder uid : PreOrder (keeps uid).
Proof.
  split; [by intros s|]. intros x y z (H1 & H2 & H3 & H4) (K1 & K2 & K3 & K4). unfold keeps. by rewrite K1, K2, K3, K4.
Qed.

Lemma update_population uid v f l : (∀ u, User.population (f u) = User.population u) → (∀ u, User.id (f u) = User.id u) →
  User.population <$> findUserById uid (updateUser v f l) = User.population <$> findUserById uid l.
Proof.
  intros Hf Hid. rewrite !findUserById_spec, updateUser_spec, find_row_update_where by (intros r _; unfold by_id; by rewrite Hid).
  destruct (find_row _ l) as [u|]; [|done]. simpl. by destruct (by_id User.id v u); rewrite ?Hf.
Qed.

Lemma ready_keeps k c acct s s' : ready k c acct s → auth_run s s' → keeps (Acct.betterAuthUserId acct) s s' → ready k c acct s'.
Proof.
  intros [Hd Hc Hk Hst Ha Hr (u & Hu & Hp)] Hrun (K1 & K2 & K3 & K4).
  assert (devices_ok s' ∧ cases_ok s') as [Hd' Hc'].
  { clear -Hrun Hd Hc. induction Hrun as [|x y z Hxy _ IH]; [done|].
    apply IH; [by eapply step_devices_ok | by eapply step_cases_ok]. }
  split; try done.
  - unfold findCase. by rewrite K1.
  - unfold find_acct. by rewrite K2.
  - unfold has_active_role. by rewrite K3.
  - rewrite Hu in K4. simpl in K4. destruct (findUserById _ (users s')) as [u'|]; [|done]. exists u'.
    injection K4 as E. by rewrite E.
Qed.

Ltac walk_keeps :=
  repeat match goal with
  | |- io_rel _ (ret _) => apply io_rel_ret; exact _
  | |- io_rel _ (throw _) => apply io_rel_throw; exact _
  | |- io_rel _ (lift _) => apply io_rel_lift; exact _
  | |- io_rel _ (read _) => apply io_rel_query; exact _
  | |- io_rel _ (attempt ?f ?n _) => unfold attempt at 1; destruct (f n)
  | |- io_rel _ (iobind _ _) => apply io_rel_bind; [exact _ | | intros ?]
  | |- io_rel _ (iocatch _ _) => apply io_rel_catch; [exact _ | | intros ?]
  | |- io_rel _ (transaction _) => apply io_rel_transaction; [exact _|]
  end.

Lemma base_keeps uid s s' : only_base s s' → keeps uid s s'.
Proof. intros [b ->]. done. Qed.

Lemma ending_keeps fault k a uid actor tr at_ : io_rel (keeps uid) (endCustomerDeviceAccess ulid fault k a uid actor tr at_).
Proof.
  unfold endCustomerDeviceAccess, revokeSessionsForRecoveryCompletion, clearRecoveryRequired, end_sessions, find_customer, record_step.
  walk_keeps; try (by intros s); intros s.
  - by intros r s' [b ->]%revoke_recovery_ok.
  - by intros x s' H%audit_base; apply base_keeps.
  - simpl. unfold keeps. simpl. by rewrite update_population.
  - by intros x s' H%audit_base; apply base_keeps.
Qed.

(** What a completed recovery leaves. *)
Record recovered (k a uid : string) (at_ : Z) (s : auth) : Prop := {
  rv_devices : ∀ d, In d (devices s) → active_device_of a d = false;
  rv_logins : ∀ m, In m (logins s) → device_key_of a m = false;
  rv_sessions : ∀ x, In x (sessions s) → BaSession.userId x ≠ uid;
  rv_user : ∃ u, findUserById uid (users s) = Some u ∧ User.recoveryRequiredAt u = None;
  rv_status : status_of a s = Some acc_active;
  rv_case : ∃ c, findCase k s = Some c ∧ RecoveryCase.status c = RecoveryStatus.completed ∧ RecoveryCase.accountId c = a ∧
    RecoveryCase.cooldownEndsAt c = Some (at_ + RECOVERY_COOLDOWN_HOURS * 60 * 60 * 1000) }.

(** The first four, which the end of device access brings about. *)
Record access_ended (a uid : string) (s : auth) : Prop := {
  ae_devices : ∀ d, In d (devices s) → active_device_of a d = false;
  ae_logins : ∀ m, In m (logins s) → device_key_of a m = false;
  ae_sessions : ∀ x, In x (sessions s) → BaSession.userId x ≠ uid;
  ae_user : ∃ u, findUserById uid (users s) = Some u ∧ User.recoveryRequiredAt u = None }.

Lemma attempt_ok {B} fault call (m : io auth B) s b s' : attempt fault call m s = (Ok b, s') → m s = (Ok b, s').
Proof. unfold attempt. by destruct (fault call). Qed.

Lemma catch_ok {B} (m : io auth B) e s b s' : iocatch m (λ _, throw e) s = (Ok b, s') → m s = (Ok b, s').
Proof. unfold iocatch. by destruct (m s) as [[x|x] s1]. Qed.

Lemma revocation_ends a reason at_ s : devices_ok s →
  (∀ d, In d (devices (revocation a reason at_ s)) → active_device_of a d = false) ∧
  (∀ m, In m (logins (revocation a reason at_ s)) → device_key_of a m = false).
Proof.
  intros Hok. split.
  - intros d (d0 & Hin & _ & [[_ Hd]|[Hn ->]])%revocation_devices; [|done..]. unfold active_device_of. by rewrite Hd, andb_false_r.
  - simpl. by intros m [_ H%negb_true_iff]%filter_In.
Qed.

Lemma find_cleared uid l u : findUserById uid l = Some u →
  ∃ u', findUserById uid (updateUser uid (User.set_recoveryRequiredAt None) l) = Some u' ∧ User.recoveryRequiredAt u' = None.
Proof.
  rewrite !findUserById_spec, updateUser_spec, find_row_update_where by done. intros Hu. rewrite Hu. simpl.
  apply find_row_Some in Hu as [_ Hu]. rewrite Hu. eauto.
Qed.

Lemma find_customer_ok fault uid s u s' : find_customer fault uid s = (Ok u, s') →
  s' = s ∧ findUserById uid (users s) = Some u.
Proof.
  intros H. unfold find_customer in H. inv_io H. apply attempt_ok, query_ok in Hio as [[= <-] ->]. split; [done|].
  unfold assertCustomerUser in H. destruct (findUserById _ _) as [x|]; [|done]. case_bool_decide; [done|]. by injection H as <-.
Qed.

Lemma sessions_ended fault uid s n s' : revokeSessionsForRecoveryCompletion fault uid s = (Ok n, s') →
  s' = set_sessions (deleteUserSessions uid (sessions s)) s.
Proof.
  intros H. unfold revokeSessionsForRecoveryCompletion in H. inv_io H. apply find_customer_ok in Hio as [-> _].
  apply attempt_ok, query_ok in Hio0 as [_ ->]. apply attempt_ok in Hio1. by injection Hio1 as _ <-.
Qed.

Lemma flag_cleared fault uid s s' : clearRecoveryRequired fault uid s = (Ok tt, s') →
  (∃ u, findUserById uid (users s) = Some u) ∧
  s' = set_users (updateUser uid (User.set_recoveryRequiredAt None) (users s)) s.
Proof.
  intros H. unfold clearRecoveryRequired in H. inv_io H. apply find_customer_ok in Hio as [-> Hu].
  apply attempt_ok in H. injection H as <-. by split; [eauto|].
Qed.

Lemma step_recorded fault k actor tr action ch at_ s x s' : record_step ulid fault k actor tr action ch at_ s = (Ok x, s') → only_base s s'.
Proof. intros H. by apply attempt_ok, transaction_ok, audit_base in H. Qed.

Lemma ending_ok fault k a uid actor tr at_ s s' : devices_ok s →
  endCustomerDeviceAccess ulid fault k a uid actor tr at_ s = (Ok tt, s') → access_ended a uid s'.
Proof.
  intros Hok H. apply catch_ok in H. inv_io H. apply attempt_ok, transaction_ok, revoke_recovery_ok in Hio as [b ->].
  apply sessions_ended in Hio0 as ->. apply step_recorded in Hio1 as [b1 ->]. destruct a3. apply flag_cleared in Hio2 as [[u Hu] ->].
  apply step_recorded in H as [b2 ->]. destruct (revocation_ends a RECOVERY_DEVICE_REVOCATION_REASON at_ s Hok) as [H1 H2].
  split; simpl; [exact H1 | exact H2 | | by eapply find_cleared].
  by intros x [_ Hx]%deleteUserSessions_spec.
Qed.

(** The completing transaction succeeds on a case that is ready. *)
Lemma complete_total k c acct s actor tr at_ cd : ready k c acct s →
  ∃ s', completeCase ulid k actor tr at_ cd s = Ok (Some (completed_case cd c), s').
Proof.
  intros [_ Hc Hk Hst Ha _ _]. pose proof (find_row_Some _ _ _ Hk) as [Hin Hid].
  assert (find_row (case_is k RecoveryStatus.approved) (recoveries s) = Some c) as Hf.
  { destruct (find_row _ (recoveries s)) as [x|] eqn:E.
    - apply find_row_Some in E as [Hx [Ex _]%case_is_true]. f_equal. apply (co_id _ Hc); [done..|]. unfold by_id in Hid. by boolify; congruence.
    - eapply find_row_None in E; [|exact Hin]. unfold case_is in E. by rewrite Hid, Hst, bool_decide_eq_true_2 in E. }
  pose proof (co_case _ Hc c Hin) as Hco. unfold case_ok in Hco. rewrite Hst in Hco. destruct Hco as [(p & q & ref & t & Hp & Hq & Hne & _) _].
  unfold completeCase, tbind, update_case. rewrite Hf. unfold reviewers_ok. simpl. rewrite Hp, Hq.
  rewrite (proj2 (String.eqb_neq p q) Hne). simpl. unfold update_acct, tprim. simpl.
  pose proof (find_row_Some _ _ _ Ha) as [Hina Hida]. rewrite (proj2 (exists_row_true _ _)) by eauto. simpl. eauto.
Qed.

Lemma complete_effect k c acct s actor tr at_ cd c' s' : ready k c acct s →
  access_ended (RecoveryCase.accountId c) (Acct.betterAuthUserId acct) s →
  completeCase ulid k actor tr at_ cd s = Ok (Some c', s') → cd = at_ + RECOVERY_COOLDOWN_HOURS * 60 * 60 * 1000 →
  recovered k (RecoveryCase.accountId c) (Acct.betterAuthUserId acct) at_ s'.
Proof.
  intros Hr [A1 A2 A3 A4] H Hcd. apply complete_ok in H as (c0 & b & Hf & -> & ->).
  pose proof (find_row_Some _ _ _ Hf) as [Hin0 [Hid0 Hst0]%case_is_true].
  pose proof (find_row_Some _ _ _ (rd_case _ _ _ _ Hr)) as [Hin Hid].
  assert (c0 = c) as ->. { apply (co_id _ (rd_cases _ _ _ _ Hr)); [done..|]. unfold by_id in Hid. boolify. congruence. }
  split; simpl; try done.
  - erewrite status_set by reflexivity. rewrite bool_decide_eq_true_2 by done. change (find_acct _ _) with (find_acct (RecoveryCase.accountId c) s).
    by rewrite (rd_acct _ _ _ _ Hr).
  - exists (completed_case cd c). split; [|by rewrite Hcd]. unfold findCase. simpl.
    rewrite find_row_update_where by done. pose proof (rd_case _ _ _ _ Hr) as Hk. unfold findCase in Hk. rewrite Hk. simpl.
    by rewrite (proj2 (case_is_true _ _ _) (conj Hid0 Hst0)).
Qed.

(** *** Completion succeeds when nothing throws *)

Lemma audit_total actor action rt ri ch at_ s : ∃ s', audit ulid actor action rt ri ch at_ s = Ok (tt, s').
Proof. unfold audit, tbind, fresh_id, fresh, twrite. simpl. eauto. Qed.

Lemma audits_total actor ch at_ ids s : ∃ s', audit_revoked ulid actor ch at_ ids s = Ok (tt, s').
Proof.
  revert s. induction ids as [|d ids IH]; intros s; simpl; [unfold audit_revoked, teach, tret; eauto|].
  destruct (audit_total (Some actor) "authentication.device_revoked" "device" d ch at_ s) as [s1 H1]. destruct (IH s1) as [s2 H2].
  exists s2. unfold audit_revoked in *. simpl. unfold tbind. by rewrite H1.
Qed.

Lemma revoke_total k a actor tr at_ s : ∃ r s', revokeDevicesForRecovery ulid k a actor tr at_ s = Ok (r, s').
Proof.
  unfold revokeDevicesForRecovery. setoid_rewrite tbind_ok.
  destruct (revoke_devices a RECOVERY_DEVICE_REVOCATION_REASON at_ s) as [[r s1]|e] eqn:E; [|by unfold revoke_devices, tbind, tread, twrite, tret in E].
  edestruct audits_total as [s2 H2]. edestruct (audit_total (Some actor) "authentication.login_method_removed" "account" a) as [s3 H3].
  destruct (0 <? removedLoginMethodCount r)%nat eqn:En.
  - exists r, s3. exists r, s1. split; [done|]. apply tbind_ok. exists tt, s2. split; [exact H2|]. apply tbind_ok. exists tt, s3.
    split; [|done]. unfold audit_removed. rewrite En. exact H3.
  - exists r, s2. exists r, s1. split; [done|]. apply tbind_ok. exists tt, s2. split; [exact H2|]. apply tbind_ok. exists tt, s2.
    split; [|done]. unfold audit_removed. by rewrite En.
Qed.

Lemma record_total k actor tr action ch at_ s : ∃ s', record_step ulid no_faults k actor tr action ch at_ s = (Ok tt, s').
Proof.
  unfold record_step, attempt, no_faults, transaction, recordRecoveryAuditEvent.
  edestruct audit_total as [s' H]. rewrite H. eauto.
Qed.

Lemma customer_total uid s u : findUserById uid (users s) = Some u → User.population u ≠ "staff_partner" →
  find_customer no_faults uid s = (Ok u, s).
Proof.
  intros Hu Hp. unfold find_customer, attempt, no_faults, iobind, read, query, lift. rewrite Hu. simpl.
  by rewrite bool_decide_eq_false_2.
Qed.

(** One call after the other. *)
Lemma bind_total {B} (m : io auth B) (f : B → io auth unit) s b s1 : m s = (Ok b, s1) →
  (∃ s', f b s1 = (Ok tt, s')) → ∃ s', iobind m f s = (Ok tt, s').
Proof. intros H [s' H']. exists s'. unfold iobind. by rewrite H. Qed.

Lemma ending_total k a uid actor tr at_ s u : findUserById uid (users s) = Some u → User.population u ≠ "staff_partner" →
  ∃ s', endCustomerDeviceAccess ulid no_faults k a uid actor tr at_ s = (Ok tt, s').
Proof.
  intros Hu Hp. assert (∀ x, users x = users s → find_customer no_faults uid x = (Ok u, x)) as Hc.
  { intros x Ex. apply customer_total; [by rewrite Ex | done]. }
  unfold endCustomerDeviceAccess. match goal with |- ∃ s', iocatch ?m _ s = _ => assert (∃ s', m s = (Ok tt, s')) as [s' H] end.
  2:{ exists s'. unfold iocatch. by rewrite H. }
  destruct (revoke_total k a actor tr at_ s) as (r & s1 & H1). pose proof (revoke_recovery_ok _ _ _ _ _ _ _ _ _ H1) as [b1 E1].
  eapply bind_total; [unfold attempt; simpl; unfold transaction; by rewrite H1|].
  eapply bind_total; [unfold revokeSessionsForRecoveryCompletion, iobind; rewrite Hc by (by rewrite E1); reflexivity|].
  edestruct (record_total k actor tr "authentication.account_recovery_sessions_revoked") as [s3 H3].
  pose proof (step_recorded _ _ _ _ _ _ _ _ _ _ H3) as [b3 E3]. eapply bind_total; [exact H3|].
  eapply bind_total; [unfold clearRecoveryRequired, iobind; rewrite Hc by (rewrite E3; simpl; by rewrite E1); reflexivity|].
  apply record_total.
Qed.

(** *** The notice *)

Lemma record_cases fault k actor tr action ch at_ s : only_base s (record_step ulid fault k actor tr action ch at_ s).2.
Proof.
  unfold record_step, attempt. destruct (fault action); [done|]. unfold transaction, recordRecoveryAuditEvent.
  destruct (audit _ _ _ _ _ _ _ s) as [[x s']|e] eqn:E; [by apply audit_base in E | done].
Qed.

Lemma notify_ok fault k actor tr contact at_ s :
  ∃ s', notifyCustomer ulid fault k actor tr contact at_ s = (Ok tt, s') ∧ only_base s s'.
Proof.
  unfold notifyCustomer.
  assert (∃ o, (match contact with
                | None => ret "no_contact_email"
                | Some _ => iocatch (await _ := send fault "sendAccountRecoveryCompletedEmail" in ret "sent") (λ _, ret "failed")
                end) s = (Ok o, s)) as [o Ho].
  { destruct contact; [|by eexists]. unfold iocatch, iobind, send, attempt. destruct (fault _); by eexists. }
  unfold iobind at 1. rewrite Ho. unfold best_effort, iocatch.
  pose proof (record_cases fault k actor tr "authentication.account_recovery_reenrolment_notice" [("outcome", JStr o)] at_ s) as Hb.
  destruct (record_step _ _ _ _ _ _ _ _ s) as [[[]|e] s1]; simpl in *; eauto.
Qed.

Lemma recovered_base k a uid at_ s s' : only_base s s' → recovered k a uid at_ s → recovered k a uid at_ s'.
Proof. intros [b ->] [H1 H2 H3 H4 H5 H6]. by split. Qed.

(** What completing a ready case does, call by call. *)
Lemma complete_unfold fault k c acct actor tr at_ s : ready k c acct s →
  CompleteAccountRecovery_execute ulid fault k actor tr at_ s =
  (await _ := endCustomerDeviceAccess ulid fault k (RecoveryCase.accountId c) (Acct.betterAuthUserId acct) actor tr at_ in
   await updated := attempt fault "completeCase"
     (transaction (completeCase ulid k actor tr at_ (at_ + RECOVERY_COOLDOWN_HOURS * 60 * 60 * 1000))) in
   match updated with
   | None => throw caseNotApprovedError
   | Some c' => await _ := notifyCustomer ulid fault k actor tr (Acct.protectedContactEmail acct) at_ in ret c'
   end) s.
Proof.
  intros [_ _ Hk Hst Ha Hr _]. unfold CompleteAccountRecovery_execute, iobind at 1, read, query. rewrite Hk, bool_decide_eq_true_2 by done.
  simpl. unfold iobind at 1. unfold findTargetForRecovery. rewrite Ha, Hr. simpl.
  assert (Acct.id acct = RecoveryCase.accountId c) as ->; [|done].
  apply find_row_Some in Ha as [_ Ha]. unfold by_id in Ha. by boolify.
Qed.

Lemma ending_run fault k a uid actor tr at_ : io_rel auth_run (endCustomerDeviceAccess ulid fault k a uid actor tr at_).
Proof.
  unfold endCustomerDeviceAccess, revokeSessionsForRecoveryCompletion, clearRecoveryRequired, end_sessions, find_customer, record_step.
  walk_auth.
Qed.

Definition completed_well (k : string) (c : RecoveryCase.t) (acct : Acct.t) (at_ : Z) (out : result RecoveryCase.t * auth) : Prop :=
  is_ok out.1 = true ∧ recovered k (RecoveryCase.accountId c) (Acct.betterAuthUserId acct) at_ out.2.

Lemma complete_from fault k c acct actor tr at_ s1 s2 : ready k c acct s1 → auth_run s1 s2 →
  endCustomerDeviceAccess ulid fault k (RecoveryCase.accountId c) (Acct.betterAuthUserId acct) actor tr at_ s1 = (Ok tt, s2) →
  fault "completeCase" = None → completed_well k c acct at_ (CompleteAccountRecovery_execute ulid fault k actor tr at_ s1).
Proof.
  intros Hr Hrun He Hf. pose proof (ending_keeps fault k (RecoveryCase.accountId c) (Acct.betterAuthUserId acct) actor tr at_ s1) as Hk.
  rewrite He in Hk. simpl in Hk. pose proof (ready_keeps _ _ _ _ _ Hr Hrun Hk) as Hr2.
  destruct (complete_total k c acct s2 actor tr at_ (at_ + RECOVERY_COOLDOWN_HOURS * 60 * 60 * 1000) Hr2) as [s3 H3].
  pose proof (complete_effect _ _ _ _ _ _ _ _ _ _ Hr2 (ending_ok _ _ _ _ _ _ _ _ _ (rd_devices _ _ _ _ Hr) He) H3 eq_refl) as Hrec.
  destruct (notify_ok fault k actor tr (Acct.protectedContactEmail acct) at_ s3) as (s4 & H4 & Hb).
  rewrite (complete_unfold _ _ _ _ _ _ _ _ Hr). unfold iobind at 1. rewrite He. unfold iobind at 1, attempt. rewrite Hf.
  unfold transaction. rewrite H3. unfold iobind. rewrite H4. split; [done|]. by eapply recovered_base.
Qed.

(** Completing a recovery is all or nothing for the customer's access, and can be retried.  Whatever call of the
    completion of an approved case throws, either it answers, and the customer has no active device, no device
    login method and no session left, can sign in again, is active and cools down for 72 hours; or it throws, the
    case is still approved and the account still as it was, and running it again, by anyone and at any time, answers
    and brings the same about. *)
Theorem recovery_completion_can_be_retried fault k c acct actor tr at_ s : ready k c acct s →
  let out := CompleteAccountRecovery_execute ulid fault k actor tr at_ s in
  completed_well k c acct at_ out ∨
  is_ok out.1 = false ∧ findCase k out.2 = Some c ∧ find_acct (RecoveryCase.accountId c) out.2 = Some acct ∧
  ∀ actor' tr' at', completed_well k c acct at' (CompleteAccountRecovery_execute ulid no_faults k actor' tr' at' out.2).
Proof.
  intros Hr out. pose proof (ending_run fault k (RecoveryCase.accountId c) (Acct.betterAuthUserId acct) actor tr at_ s) as Hrun.
  pose proof (ending_keeps fault k (RecoveryCase.accountId c) (Acct.betterAuthUserId acct) actor tr at_ s) as Hk.
  assert (∀ s', auth_run s s' → keeps (Acct.betterAuthUserId acct) s s' → ∀ actor' tr' at',
    completed_well k c acct at' (CompleteAccountRecovery_execute ulid no_faults k actor' tr' at' s')) as Hretry.
  { intros s' Hrun' Hk' actor' tr' at'. pose proof (ready_keeps _ _ _ _ _ Hr Hrun' Hk') as Hr'.
    destruct (rd_user _ _ _ _ Hr') as (u & Hu & Hp).
    destruct (ending_total k (RecoveryCase.accountId c) (Acct.betterAuthUserId acct) actor' tr' at' s' u Hu Hp) as [s2 H2].
    pose proof (ending_run no_faults k (RecoveryCase.accountId c) (Acct.betterAuthUserId acct) actor' tr' at' s') as Hrun2.
    rewrite H2 in Hrun2. by apply (complete_from _ _ _ _ _ _ _ _ _ Hr' Hrun2 H2). }
  destruct (endCustomerDeviceAccess ulid fault k (RecoveryCase.accountId c) (Acct.betterAuthUserId acct) actor tr at_ s)
    as [[[]|e] s2] eqn:He; simpl in *.
  - destruct (fault "completeCase") as [e|] eqn:Hf; [|left; by apply (complete_from _ _ _ _ _ _ _ _ _ Hr Hrun He)]. right.
    assert (out = (Err e, s2)) as ->.
    { unfold out. rewrite (complete_unfold _ _ _ _ _ _ _ _ Hr). unfold iobind at 1. rewrite He. unfold iobind at 1, attempt. by rewrite Hf. }
    pose proof (ready_keeps _ _ _ _ _ Hr Hrun Hk) as [_ _ K1 _ K2 _ _]. simpl. auto.
  - right. assert (out = (Err e, s2)) as ->.
    { unfold out. rewrite (complete_unfold _ _ _ _ _ _ _ _ Hr). unfold iobind at 1. by rewrite He. }
    pose proof (ready_keeps _ _ _ _ _ Hr Hrun Hk) as [_ _ K1 _ K2 _ _]. simpl. auto.
Qed.

End Completion.

End AuthRecoveryProps.
