(* ===== verification/AuthDemo.v ===== *)
(** A customer who enrols a phone, loses it, replaces it and is recovered: concrete runs of the auth
    services on which the claims apply, and the runs behind the findings. *)

From Stdlib Require Import String.
From stdpp Require Import gmap.
From S2P Require Import Prelude JsString DateTime IntakePolicy Db OfferingInv OfferingDemo AuthDb AuthRecovery AuthDevice AuthSessions AuthCeremonies AuthEnrol AuthReplay AuthMachine AuthProps.

Module AuthDemo.
Import AuthDb AuthRecovery AuthDevice AuthEnrol AuthReplay AuthReplace AuthServices AuthMachine AuthProps AuthRecoveryProps.

Notation ulid := OfferingDemo.demo_ulid.

(** ** The adapter over plain tables *)

#[local] Instance tables_adapter : InternalAdapter := {
  findUserById u l := find_row (by_id User.id u) l;
  updateUser u f l := update_where (by_id User.id u) f l;
  listSessions u l := List.filter (by_id BaSession.userId u) l;
  deleteSession k l := List.filter (λ x, negb (by_id BaSession.token k x)) l;
  deleteUserSessions u l := List.filter (λ x, negb (by_id BaSession.userId u x)) l }.

#[local] Instance tables_laws : InternalAdapterLaws tables_adapter.
Proof.
  split; [done..| | |]; intros; simpl; rewrite filter_In, ?negb_true_iff; unfold by_id;
    by rewrite ?bool_decide_eq_true, ?bool_decide_eq_false.
Qed.

(** ** A phone is enrolled *)

Definition jwk : json := JObj [("kty", JStr "EC"); ("crv", JStr "P-256"); ("x", JStr "x"); ("y", JStr "y")].

(** A device that signs what it is asked to. *)
Definition signer : Jose := mkJose
  (λ _, Some (JObj [("typ", JStr JWS_TYP); ("alg", JStr "ES256"); ("kid", JStr "bio"); ("jwk", jwk)]))
  (λ _, "bio")
  (λ _ _, Some [("purpose", JStr ENROL_PURPOSE); ("challenge", JStr "chal"); ("iat", JNum 2); ("dpop_jkt", JStr "phone")]).

Definition a0 : auth := mkAuth (OfferingInv.empty_db [] [] [] [])
  [Acct.mk "alice" "u_alice" (Some "alice@example.com") acc_active 0 0]
  [] [Login.mk "login_0" "alice" google "sub" 0 true] [] [] [] [] []
  [User.mk "u_alice" "alice@example.com" None "customer" None None]
  [BaSession.mk "s0" "t0" "u_alice" (Some "phone") "oauth_pending" 0 0 900000] [].

Definition pending_session : option BaSession.t := head (sessions a0).

Definition device_session (id_ : string) (at_ : Z) : BaSession.t :=
  BaSession.mk id_ (String.append "t_" id_) "u_alice" (Some "phone") "device_biometric" at_ at_ (at_ + 1800000).

Definition enrol_input : EnrolDeviceInput := mkEnrolInput "" "" "" "chal" "h.p.s" "android" JNull.

Definition a1 : auth := (IssueDeviceChallenge_execute "chal" ENROL_PURPOSE "phone" None 300 1000 a0).2.
Definition a2 : auth := (enrolVerify ulid signer ["android"] no_faults pending_session (λ _, Ok tt) (λ _, Ok tt) enrol_input
  (Some (device_session "s1" 2000)) (mkEnrolClocks 2000 2000 2000 2000) a1).2.

Lemma reach_a0 : reachable a0.
Proof.
  exists a0. split; [|done]. split; [done|]. split; [|done].
  intros m [<-|[]] H. discriminate H.
Qed.

Lemma reach_auth {A} (m : io auth A) s : reachable s → io_rel auth_run m → reachable (m s).2.
Proof. intros (s0 & Hi & H) Hm. exists s0. split; [done|]. etrans; [done | apply Hm]. Qed.

Lemma reach_a1 : reachable a1.
Proof. exact (reach_auth _ a0 reach_a0 (proj1 (challenge_runs _ _ _ _ _ _))). Qed.

Lemma reach_a2 : reachable a2.
Proof. exact (reach_auth _ a1 reach_a1 (proj1 (proj2 (device_runs _ _ _ _ _ _ _ _ _ _ (Ok "") None "" "")))). Qed.

Example enrolled : map (λ d, (Device.accountId d, Device.dpopJkt d)) (devices a2) = [("alice", "phone")] ∧
  map BaSession.id (sessions a2) = ["s1"].
Proof. split; vm_compute; reflexivity. Qed.

Lemma login_methods_match_devices_witness : ∃ m d, In m (logins a2) ∧ In d (devices a2) ∧
  device_key_of "alice" m = true ∧ Login.providerSubject m = Device.deviceId d.
Proof.
  destruct (login_methods_match_devices a2 reach_a2) as (Hiff & Hsame & _).
  destruct (devices a2) as [|d l] eqn:E; [vm_compute in E; discriminate E|].
  assert (active_device_of "alice" d = true) as Ha by (vm_compute in E; injection E as <- _; vm_compute; reflexivity).
  destruct (proj2 (Hiff "alice") (ex_intro _ d (conj (or_introl eq_refl) Ha))) as (m & Hm & Hk).
  exists m, d. split; [exact Hm|]. split; [left; reflexivity|]. split; [exact Hk|].
  exact (Hsame "alice" m d Hm Hk (or_introl eq_refl) Ha).
Defined.

(** ** Two ceremonies of one phone overlap *)

Import AuthCeremonies.

Definition x1 : BaSession.t := device_session "s1" 2000.
Definition x2 : BaSession.t := device_session "s2" 3000.

(** Both create their sessions, the later one lists first, and each deletes what it saw. *)
Definition p2 : phone := mkPhone [x1; x2] (<["s2" := mkCeremony x2 created]> (<["s1" := mkCeremony x1 created]> ∅)) ∅.
Definition p4 : phone := mkPhone [x1; x2]
  (<["s1" := mkCeremony x1 (revoking ["t_s1"])]> (<["s2" := mkCeremony x2 (revoking ["t_s1"])]> (ceremonies p2))) ∅.
Definition p6 : phone := mkPhone [x2]
  (<["s1" := mkCeremony x1 (revoking [])]> (<["s2" := mkCeremony x2 (revoking [])]> (ceremonies p4))) ∅.
Definition p8 : phone := mkPhone [x2]
  (<["s1" := mkCeremony x1 finished]> (<["s2" := mkCeremony x2 finished]> (ceremonies p6))) ∅.

Lemma keys_two l : l = [] ∨ l = [x1] ∨ l = [x1; x2] → keys_ok l.
Proof.
  intros Hl. split.
  - unfold AuthSessions.distinct_ids. intros x y Hx Hy. destruct Hl as [-> | [-> | ->]]; simpl in *;
      destruct_or?; subst; done.
  - intros x y Hx Hy. destruct Hl as [-> | [-> | ->]]; simpl in *; destruct_or?; subst; done.
Qed.

Lemma begun_empty y l : ¬ begun (mkPhone l ∅ ∅) y.
Proof. intros [ph H]. simpl in H. by rewrite lookup_empty in H. Qed.

Lemma begun_two y l cs x ph : begun (mkPhone l (<[BaSession.id x := mkCeremony x ph]> cs) ∅) y → y = x ∨ begun (mkPhone l cs ∅) y.
Proof.
  intros [q H]. simpl in H. apply lookup_insert_Some in H as [[_ [= <- _]]|[_ H]]; [by left|]. right. by exists q.
Qed.

Lemma reached_p2 : rtc (phone_step "u_alice" "phone" false) (mkPhone [] ∅ ∅) p2.
Proof.
  eapply rtc_l; [|eapply rtc_l; [|reflexivity]].
  - apply (ps_create "u_alice" "phone" false x1 [] ∅ ∅); [by repeat split | by apply keys_two; auto | done | | by intros []].
    intros y []%begun_empty.
  - apply (ps_create "u_alice" "phone" false x2 [x1] _ ∅); [by repeat split | by apply keys_two; auto | done | |].
    + intros y [-> | []%begun_empty]%begun_two. done.
    + intros [H|[]]. discriminate H.
Qed.

Lemma begun_p2 y now l : begun (mkPhone l (ceremonies p2) ∅) y → now < 1800000 → now < BaSession.expiresAt y.
Proof. intros [-> | [-> | []%begun_empty]%(begun_two y l _ x1)]%(begun_two y l _ x2) Hn; simpl; lia. Qed.

Lemma reached_p8 : reached "u_alice" "phone" false p8.
Proof.
  exists []. split; [apply keys_two; auto|]. split; [by intros x _ []|]. etrans; [exact reached_p2|].
  eapply rtc_l; [|eapply rtc_l; [|eapply rtc_l; [|eapply rtc_l; [|eapply rtc_l; [|eapply rtc_l; [|reflexivity]]]]]].
  - apply (ps_list "u_alice" "phone" false x2 4000 [x1; x2]); [reflexivity|]. intros y Hy. by apply (begun_p2 y _ [x1; x2]).
  - apply (ps_list "u_alice" "phone" false x1 4000 [x1; x2]); [reflexivity|].
    intros y [-> | Hy]%(begun_two y [x1; x2] _ x2); [done|]. by apply (begun_p2 y _ [x1; x2]).
  - apply (ps_delete "u_alice" "phone" false x2 "t_s1" [] [x1; x2]). reflexivity.
  - apply (ps_delete "u_alice" "phone" false x1 "t_s1" [] [x2]). reflexivity.
  - apply (ps_done "u_alice" "phone" false x2 [x2]). reflexivity.
  - apply (ps_done "u_alice" "phone" false x1 [x2]). reflexivity.
Qed.

(** The later ceremony then fails and discards its session: the earlier one had already given way. *)
Definition q4 : phone := mkPhone [x1; x2] (<["s1" := mkCeremony x1 (revoking ["t_s1"])]> (ceremonies p2)) ∅.
Definition q6 : phone := mkPhone []
  (<["s2" := mkCeremony x2 finished]> (<["s1" := mkCeremony x1 (revoking [])]> (ceremonies q4))) ({["s2"]} ∪ ∅).

Lemma reached_q6 : reached "u_alice" "phone" false q6.
Proof.
  exists []. split; [apply keys_two; auto|]. split; [by intros x _ []|]. etrans; [exact reached_p2|].
  eapply rtc_l; [|eapply rtc_l; [|eapply rtc_l; [|reflexivity]]].
  - apply (ps_list "u_alice" "phone" false x1 4000 [x1; x2]); [reflexivity|]. intros y Hy. by apply (begun_p2 y _ [x1; x2]).
  - apply (ps_delete "u_alice" "phone" false x1 "t_s1" [] [x1; x2]). reflexivity.
  - refine (ps_discard "u_alice" "phone" false x2 [x2] (<["s1" := mkCeremony x1 (revoking [])]> (ceremonies q4)) ∅ _). reflexivity.
Qed.

Lemma one_session_per_phone_witness : newest_begun p8 x2 ∧ ¬ newest_begun p8 x1 ∧
  (newest_begun q6 x2 → In x2 (live q6) ∨ BaSession.id x2 ∈ ended q6).
Proof.
  assert (∀ x, mine "u_alice" "phone" x → In x (live p8) ↔ newest_begun p8 x) as H.
  { refine (proj2 (proj2 (one_session_per_phone "u_alice" "phone" false p8 reached_p8) eq_refl _) eq_refl).
    intros i c H. unfold p8, p6, p4, p2, ceremonies in H.
    apply lookup_insert_Some in H as [[_ <-]|[H1 H]]; [reflexivity|].
    apply lookup_insert_Some in H as [[_ <-]|[H2 H]]; [reflexivity|].
    do 6 (apply lookup_insert_Some in H as [[? _]|[_ H]]; [contradiction|]).
    rewrite lookup_empty in H. discriminate H. }
  split; [apply H; [by repeat split | by left]|].
  split; [rewrite <- H by (by repeat split); intros [E|[]]; discriminate E|].
  apply (proj1 (one_session_per_phone "u_alice" "phone" false q6 reached_q6)).
Defined.

(** ** A slow enrolment *)

Definition slow : NewDevice := mkNewDevice "alice" "u_alice" "phone" "bio" jwk "android" JNull (mkChallengeKey "chal" ENROL_PURPOSE "phone" None).
Definition slow_input : EnrolDeviceInput := mkEnrolInput "alice" "u_alice" "phone" "chal" "h.p.s" "android" JNull.
Definition consumed_tables : auth := (transaction (consume (enrol_key slow_input) 2000) a1).2.

Definition w0 : world := mkWorld a0 1000 [] [] [].
Definition w1 : world := mkWorld consumed_tables 2000 [mkInflight slow 2000] ["chal"] [].
Definition w2 : world := mkWorld consumed_tables 200000 [mkInflight slow 2000] ["chal"] [].
Definition w3 : world := mkWorld consumed_tables 200000 [] ["chal"] [].

Lemma expired_challenge_registers_nothing_witness :
  (throwForUnusableChallenge slow_input 200000 consumed_tables).1 = Err DeviceChallengeExpiredError ∧
  ∀ d, In ("chal", d) (registered w3) → In ("chal", d) (registered w2).
Proof.
  split; [vm_compute; reflexivity|].
  apply (expired_challenge_registers_nothing ulid w0 w1 w2 w3 slow_input consumed_tables).
  - split; [|split]; reflexivity.
  - eapply rtc_l; [apply (ws_issue ulid w0 (enrol_key slow_input) 300 301000 a1); [intros [] | reflexivity | vm_compute; reflexivity]|].
    eapply rtc_l; [apply (ws_tick ulid _ 2000); vm_compute; discriminate|].
    eapply rtc_l; [apply (ws_consume ulid _ (enrol_key slow_input) true consumed_tables); vm_compute; reflexivity|].
    eapply rtc_l; [apply (ws_check ulid _ slow); vm_compute; reflexivity|]. apply rtc_refl.
  - eapply rtc_l; [apply (ws_tick ulid w1 200000); vm_compute; discriminate|]. apply rtc_refl.
  - eapply rtc_l; [apply (ws_abort ulid w2 (mkInflight slow 2000) []); reflexivity|]. apply rtc_refl.
  - left. reflexivity.
  - intros c Hc _. vm_compute in Hc. destruct Hc as [<-|[]]. reflexivity.
  - vm_compute. reflexivity.
  - vm_compute. reflexivity.
Defined.

(** ** The phone is lost and the account recovered *)

Definition open_recovery (t : Z) := OpenAccountRecoveryCase_execute ulid no_faults "alice" "staff_1" "trace" t t.
Definition a3 : auth := (open_recovery 10000 a2).2.
Definition case_id : string := from_option RecoveryCase.id "" (head (recoveries a3)).

(** The recovery of case [k], up to the second reviewer's approval. *)
Definition approve (k : string) (t : Z) (s : auth) : auth :=
  let s1 := (CreateRecoveryDiditSession_execute ulid (Ok ("didit_1", "https://verify")) k "staff_1" "trace" t s).2 in
  let s2 := (RecordPrimaryRecoveryReview_execute ulid k "staff_1" "trace" last_login t s1).2 in
  (DecideAccountRecoveryCase_execute ulid no_faults k "staff_2" "trace" decide_approved "matches" t s2).2.

Definition complete (k : string) (t : Z) := CompleteAccountRecovery_execute ulid no_faults k "staff_1" "trace" t.

Lemma reach_approve k t s : reachable s → reachable (approve k t s).
Proof.
  intros H. unfold approve.
  apply reach_auth; [apply reach_auth; [apply reach_auth; [exact H|]|]|];
    destruct (recovery_runs ulid no_faults "" "staff_1" "trace" k decide_approved "" last_login t t (Ok ("didit_1", "https://verify"))
                (λ _, Ok "")) as (_ & H2 & _ & H4 & _); [exact H2 | exact H4 |].
  apply (recovery_runs ulid no_faults "" "staff_2" "trace" k decide_approved "matches" last_login t t (Ok ("", "")) (λ _, Ok "")).
Qed.

Lemma complete_runs k t : io_rel auth_run (complete k t).
Proof. apply (recovery_runs ulid no_faults "" "staff_1" "trace" k decide_approved "" last_login t t (Ok ("", "")) (λ _, Ok "")). Qed.

Lemma reach_a3 : reachable a3.
Proof.
  apply reach_auth; [exact reach_a2|].
  apply (recovery_runs ulid no_faults "alice" "staff_1" "trace" "" decide_approved "" last_login 10000 10000 (Ok ("", "")) (λ _, Ok "")).
Qed.

Definition a4 : auth := approve case_id 20000 a3.
Definition a5 : auth := (complete case_id 30000 a4).2.

Lemma lockout_ends_by_two_reviewers_witness : ∃ c, In c (recoveries a5) ∧ RecoveryCase.accountId c = "alice" ∧
  RecoveryCase.status c = RecoveryStatus.completed ∧ two_reviewers c.
Proof.
  destruct (lockout_ends_by_two_reviewers a4 a5 "alice") as (c & H1 & H2 & H3 & H4 & _).
  - apply reach_approve, reach_a3.
  - exact (complete_runs case_id 30000 a4).
  - vm_compute. discriminate.
  - vm_compute. reflexivity.
  - exists c. split; [exact H1|]. split; [exact H2|]. split; [exact H3 | exact H4].
Defined.

(** Better Auth is down when the sessions are to be deleted. *)
Definition sessions_down : string → option error := λ call, if String.eqb call "deleteUserSessions" then Some (Thrown "down") else None.

Lemma ready_a4 : ∃ c acct, ready case_id c acct a4.
Proof.
  destruct (findCase case_id a4) as [c|] eqn:E; [|vm_compute in E; discriminate E].
  destruct (find_acct "alice" a4) as [acct|] eqn:Ea; [|vm_compute in Ea; discriminate Ea].
  pose proof (reach_approve case_id 20000 a3 reach_a3) as R.
  exists c, acct. constructor.
  - by apply reachable_devices.
  - by apply reachable_cases.
  - done.
  - vm_compute in E. by injection E as <-.
  - vm_compute in E. injection E as <-. done.
  - vm_compute in E. injection E as <-. vm_compute. reflexivity.
  - vm_compute in Ea. injection Ea as <-. eexists. split; [vm_compute; reflexivity|]. vm_compute. discriminate.
Qed.

Lemma recovery_completion_can_be_retried_witness :
  let out := CompleteAccountRecovery_execute ulid sessions_down case_id "staff_1" "trace" 30000 a4 in
  out.1 = Err completion_failed ∧ is_ok (complete case_id 40000 out.2).1 = true.
Proof.
  destruct ready_a4 as (c & acct & Hr).
  destruct (recovery_completion_can_be_retried ulid sessions_down case_id c acct "staff_1" "trace" 30000 a4 Hr) as [H|(H1 & _ & _ & H4)].
  - destruct H as [H _]. vm_compute in H. discriminate H.
  - split; [vm_compute; reflexivity|]. exact (proj1 (H4 "staff_1" "trace" 40000)).
Defined.

(** ** Findings *)

(** A customer asks to close the account and is then locked out; the closure is approved while the recovery is under way.
    Completing the recovery activates the closed account, whose closure stays approved. *)
Theorem recovery_reopens_closed_account :
  let status s := Acct.status <$> find_acct "alice" s in
  let s1 := (RequestAccountClosure_execute ulid "alice" (Some "leaving") 5000 a2).2 in
  let s2 := (open_recovery 10000 s1).2 in
  let k := from_option RecoveryCase.id "" (head (recoveries s2)) in
  let r := from_option ClosureRequest.id "" (head (closures s2)) in
  let s3 := (DecideAccountClosureRequest_execute ulid no_faults r "staff_3" decide_approved None 15000 15000 s2).2 in
  let s4 := approve k 20000 s3 in
  let s5 := (complete k 30000 s4).2 in
  status s3 = Some suspended_restricted ∧ status s5 = Some acc_active ∧
  map ClosureRequest.status (closures s5) = [ClosureStatus.approved].
Proof. split; [|split]; vm_compute; reflexivity. Qed.

Definition day : Z := 86400000.
Definition replacement_config := mkReplacementConfig 600000 5 day day 3.
Definition ask (random t : Z) :=
  RequestDeviceReplacement_execute ulid (λ c, c) replacement_config no_faults "alice" "s1" "trace" random t.

(** A customer who lost the first e-mail asks for a second code, then a third: the third request is refused by the cooldown
    after a completed replacement, though no code was ever entered and the device is still active. *)
Theorem superseded_code_starts_cooldown :
  let s1 := (ask 1 10000 a2).2 in
  let s2 := (ask 2 20000 s1).2 in
  (ask 2 20000 s1).1 = Ok (Some "000002") ∧ (ask 3 30000 s2).1 = Err replacementCooldownError ∧
  existsb (active_device_of "alice") (devices s2) = true ∧ map ReplacementCode.attemptsUsed (codes s2) = [0; 0].
Proof. split; [|split; [|split]]; vm_compute; reflexivity. Qed.

End AuthDemo.
