(* ===== verification/Attestation.v ===== *)
(** The attestation of an Android device key: application/customer/android-attestation-verifier.ts,
    infrastructure/customer/http-android-attestation-revocation-list.ts, domain/device-binding.ts and the mapping of a
    Play Integrity answer in google-play-integrity.decoder.ts (src/src/modules/auth).

    Parsing a certificate, checking a signature, exporting a key and parsing BER are libraries: parameters.  A parsed
    ASN.1 value is asn1js's node, by class: Sequence and Set are Constructed nodes of the universal class, and an
    Enumerated is an Integer.  [valueDec] is the number the library reads for a node. *)

From Stdlib Require Import Ascii String.
From S2P Require Import Prelude JsString JsBuffer DateTime IntakePolicy Db AuthDb AuthRecovery AuthDevice AuthSessions AuthEnrol OfferingDemo AuthDemo.

Module Attestation.
Import JsBuffer AuthDb AuthDevice AuthEnrol.

(** ** Constants *)

Definition KEY_DESCRIPTION_OID : string := "1.3.6.1.4.1.11129.2.1.17".
Definition MINIMUM_ATTESTATION_VERSION : Z := 3.
Definition TAG_PURPOSE : Z := 1.
Definition TAG_ALGORITHM : Z := 2.
Definition TAG_DIGEST : Z := 5.
Definition TAG_EC_CURVE : Z := 10.
Definition TAG_NO_AUTH_REQUIRED : Z := 503.
Definition TAG_USER_AUTH_TYPE : Z := 504.
Definition TAG_AUTH_TIMEOUT : Z := 505.
Definition TAG_ALLOW_WHILE_ON_BODY : Z := 506.
Definition TAG_UNLOCKED_DEVICE_REQUIRED : Z := 509.
Definition TAG_ORIGIN : Z := 702.
Definition TAG_ROOT_OF_TRUST : Z := 704.
Definition TAG_ATTESTATION_APPLICATION_ID : Z := 709.
Definition AUTH_TYPE_PASSWORD_BIT : Z := 1.
Definition AUTH_TYPE_FINGERPRINT_BIT : Z := 2.
Definition HARDWARE_SECURITY_LEVELS : list Z := [1; 2].
Definition KM_PURPOSE_SIGN : Z := 2.
Definition KM_ALGORITHM_EC : Z := 3.
Definition KM_EC_CURVE_P256 : Z := 1.
Definition KM_DIGEST_SHA_2_256 : Z := 4.
Definition KM_ORIGIN_GENERATED : Z := 0.
Definition VERIFIED_BOOT_STATE_VERIFIED : Z := 0.

Definition AndroidAttestationInvalidError (reason : string) : error := AppError "ATTESTATION_INVALID" 400 [reason].
Definition AndroidAttestationChallengeMismatchError : error := AppError "ATTESTATION_CHALLENGE_MISMATCH" 400 [].

Definition isAndroidAttestationError (e : error) : bool :=
  match e with
  | AppError code _ _ => bool_decide (code ∈ ["ATTESTATION_INVALID"; "ATTESTATION_CHALLENGE_MISMATCH"])
  | Thrown _ => false
  end.

#[local] Notation refuse reason := (Err (AndroidAttestationInvalidError reason)).

(** ** The libraries *)

Inductive asn1 :=
  | Sequence (value : list asn1)
  | ASet (value : list asn1)
  | Constructed (tagClass tagNumber : Z) (value : list asn1)
  | AInteger (valueDec : Z)
  | Enumerated (valueDec : Z)
  | OctetString (valueHexView : string)
  | ABoolean (value : bool)
  | OtherNode.

(** What the verifier reads of an X509Certificate; [basicConstraints] is (ca, pathLength). *)
Record Certificate := mkCertificate {
  notBefore : Z; notAfter : Z; issuerName : string; subjectName : string; rawData : string; serialNumber : string;
  basicConstraints : option (bool * option Z); keyUsages : option Z; getExtension : string → option string }.

(** [parseX509] and [fromBER] answer [None] where the library throws or reports offset -1; [exportJwk] where the export
    of the key throws; [signatureValid c issuer now] is c.verify with the issuer's key. *)
Record CertLibrary := mkCertLibrary {
  parseX509 : string → option Certificate; signatureValid : Certificate → Certificate → Z → result bool;
  exportJwk : Certificate → option json; fromBER : string → option asn1; keyCertSign : Z; sha256 : string → string }.

(** ** The revocation list *)

Definition CACHE_TTL_MS : Z := 24 * 60 * 60 * 1000.
Definition FAIL_CLOSED_AFTER_MS : Z := 72 * 60 * 60 * 1000.

Record RevocationCache := mkCache { revokedSerials : option (list string); fetchedAt : option Z }.

(** The clock read by refreshIfStale, the list the endpoint would serve ([None]: unreachable, an error status or a body
    that is no list), the clock read after fetching and the one read by isRevoked.  Calls that find a refresh under way
    share it, and so read the cache it leaves. *)
Record Lookup := mkLookup { lk_now : Z; lk_served : option (list string); lk_fetched : Z; lk_check : Z }.

Definition refresh (k : Lookup) (s : RevocationCache) : RevocationCache :=
  match lk_served k with
  | Some entries => mkCache (Some (map JsString.toLowerCase entries)) (Some (lk_fetched k))
  | None => s
  end.

Definition refreshIfStale (k : Lookup) (s : RevocationCache) : RevocationCache :=
  match fetchedAt s with
  | Some t => if lk_now k - t <? CACHE_TTL_MS then s else refresh k s
  | None => refresh k s
  end.

Definition isRevoked (k : Lookup) (certificateSerialHex : string) : io RevocationCache bool := λ s,
  let s := refreshIfStale k s in
  (Ok match revokedSerials s, fetchedAt s with
      | Some serials, Some t =>
          if FAIL_CLOSED_AFTER_MS <? lk_check k - t then true
          else bool_decide (JsString.toLowerCase certificateSerialHex ∈ serials)
      | _, _ => true
      end, s).

(** ** Text of serials and digests *)

Definition is_hex_char (c : ascii) : bool := bool_decide (is_Some (JsString.digit_value 16 c)).

Fixpoint hex_only (s : string) : string :=
  match s with EmptyString => EmptyString | String c s => if is_hex_char c then String c (hex_only s) else hex_only s end.

Definition normalizeCertDigest (value : string) : string := JsString.toLowerCase (hex_only value).

Definition normalizeSerialHex (serialHex : string) : result string :=
  let! n := JsString.BigInt (String.append "0x" serialHex) in Ok (toString16 n).

(** ** ASN.1 readers *)

Definition readEnumerated (node : option asn1) : result Z :=
  match node with Some (Enumerated v) => Ok v | _ => refuse "expected an ENUMERATED field" end.

Definition readInteger (node : option asn1) : result Z :=
  match node with Some (AInteger v) | Some (Enumerated v) => Ok v | _ => refuse "expected an INTEGER field" end.

Definition readIntegerSet (node : asn1) : result (list Z) :=
  match node with ASet items => rmap (λ item, readInteger (Some item)) items | _ => refuse "expected a SET OF INTEGER field" end.

Definition readOctetString (node : option asn1) : result string :=
  match node with Some (OctetString v) => Ok v | _ => refuse "expected an OCTET STRING field" end.

Record RootOfTrust := mkRootOfTrust { deviceLocked : bool; verifiedBootState : Z }.

Definition parseRootOfTrust (node : asn1) : result RootOfTrust :=
  match node with
  | Sequence (_ :: deviceLockedNode :: verifiedBootStateNode :: _) =>
      match deviceLockedNode with
      | ABoolean locked => let! state := readEnumerated (Some verifiedBootStateNode) in Ok (mkRootOfTrust locked state)
      | _ => refuse "malformed root of trust: deviceLocked"
      end
  | _ => refuse "malformed root of trust"
  end.

Record AuthorizationList := mkAuthorizationList {
  purpose : option (list Z); algorithm : option Z; digest : option (list Z); ecCurve : option Z; noAuthRequired : bool;
  userAuthType : option Z; authTimeout : option Z; allowWhileOnBody : bool; unlockedDeviceRequired : bool;
  origin : option Z; rootOfTrust : option RootOfTrust; attestationApplicationId : option string }.

Definition no_authorizations : AuthorizationList :=
  mkAuthorizationList None None None None false None None false false None None None.

(** One entry of an authorization list: [inner] is the first value inside its tag. *)
Definition read_entry (a : AuthorizationList) (entry : asn1) : result AuthorizationList :=
  match entry with
  | Constructed tagClass tagNumber value =>
      if negb (tagClass =? 3) then Ok a else
      let 'mkAuthorizationList pu al di ec na ua at_ ab ud o rt ai := a in
      if tagNumber =? TAG_NO_AUTH_REQUIRED then Ok (mkAuthorizationList pu al di ec true ua at_ ab ud o rt ai)
      else if tagNumber =? TAG_ALLOW_WHILE_ON_BODY then Ok (mkAuthorizationList pu al di ec na ua at_ true ud o rt ai)
      else if tagNumber =? TAG_UNLOCKED_DEVICE_REQUIRED then Ok (mkAuthorizationList pu al di ec na ua at_ ab true o rt ai)
      else match head value with
      | None => Ok a
      | Some inner =>
          if tagNumber =? TAG_PURPOSE then
            let! v := readIntegerSet inner in Ok (mkAuthorizationList (Some v) al di ec na ua at_ ab ud o rt ai)
          else if tagNumber =? TAG_ALGORITHM then
            let! v := readInteger (Some inner) in Ok (mkAuthorizationList pu (Some v) di ec na ua at_ ab ud o rt ai)
          else if tagNumber =? TAG_DIGEST then
            let! v := readIntegerSet inner in Ok (mkAuthorizationList pu al (Some v) ec na ua at_ ab ud o rt ai)
          else if tagNumber =? TAG_EC_CURVE then
            let! v := readInteger (Some inner) in Ok (mkAuthorizationList pu al di (Some v) na ua at_ ab ud o rt ai)
          else if tagNumber =? TAG_USER_AUTH_TYPE then
            let! v := readInteger (Some inner) in Ok (mkAuthorizationList pu al di ec na (Some v) at_ ab ud o rt ai)
          else if tagNumber =? TAG_AUTH_TIMEOUT then
            let! v := readInteger (Some inner) in Ok (mkAuthorizationList pu al di ec na ua (Some v) ab ud o rt ai)
          else if tagNumber =? TAG_ORIGIN then
            let! v := readInteger (Some inner) in Ok (mkAuthorizationList pu al di ec na ua at_ ab ud (Some v) rt ai)
          else if tagNumber =? TAG_ROOT_OF_TRUST then
            let! v := parseRootOfTrust inner in Ok (mkAuthorizationList pu al di ec na ua at_ ab ud o (Some v) ai)
          else if tagNumber =? TAG_ATTESTATION_APPLICATION_ID then
            let! v := readOctetString (Some inner) in Ok (mkAuthorizationList pu al di ec na ua at_ ab ud o rt (Some v))
          else Ok a
      end
  | _ => Ok a
  end.

Fixpoint read_entries (a : AuthorizationList) (entries : list asn1) : result AuthorizationList :=
  match entries with
  | [] => Ok a
  | entry :: entries => let! a' := read_entry a entry in read_entries a' entries
  end.

Definition parseAuthorizationList (node : option asn1) : result AuthorizationList :=
  match node with
  | Some (Sequence entries) => read_entries no_authorizations entries
  | _ => refuse "malformed authorization list"
  end.

Record KeyDescription := mkKeyDescription {
  attestationVersion : Z; attestationSecurityLevel : Z; keymasterVersion : Z; keymasterSecurityLevel : Z;
  attestationChallenge : string; softwareEnforced : AuthorizationList; teeEnforced : AuthorizationList }.

(** What the injected verdict decoder answers. *)
Record Verdict := mkVerdict {
  requestHash : option string; appRecognitionVerdict : string; deviceRecognitionVerdicts : list string;
  certificateSha256Digests : list string }.

(** The payload of Google's answer; each part may be missing. *)
Record IntegrityPayload := mkPayload {
  ip_requestHash : option string; ip_appRecognitionVerdict : option string; ip_certificateSha256Digest : option (list string);
  ip_deviceRecognitionVerdict : option (list string) }.

Definition base64DigestToHex (base64Digest : string) : string := to_hex (from_base64 base64Digest).

Definition verdict_of (payload : IntegrityPayload) : Verdict :=
  mkVerdict (ip_requestHash payload) (default "UNKNOWN" (ip_appRecognitionVerdict payload))
    (default [] (ip_deviceRecognitionVerdict payload)) (map base64DigestToHex (default [] (ip_certificateSha256Digest payload))).

Inductive PlayIntegrityPolicy := disabled | relaxed | strict.
#[global] Instance PlayIntegrityPolicy_eq_dec : EqDecision PlayIntegrityPolicy.
Proof. solve_decision. Defined.

Section Verifier.
Context (J : Jose) (L : CertLibrary).

Definition computeDeviceBinding (challenge bioJkt : string) : string :=
  base64url (sha256 L (String.append challenge (String "." bioJkt))).

Definition parseCertificate (base64Der : string) : result Certificate :=
  match parseX509 L base64Der with Some c => Ok c | None => refuse "malformed certificate in the chain" end.

(** A certificate that signed another one, [i] certificates above the leaf's. *)
Definition check_issuer (i : Z) (issuer : Certificate) : result unit :=
  match basicConstraints issuer with
  | Some (true, pathLength) =>
      match keyUsages issuer with
      | Some usages =>
          if Z.land usages (keyCertSign L) =? 0 then refuse "issuer lacks the keyCertSign key usage"
          else match pathLength with
               | Some n => if n <? i then refuse "path length" else Ok tt
               | None => Ok tt
               end
      | None => refuse "issuer lacks the keyCertSign key usage"
      end
  | _ => refuse "issuer is not marked as a CA"
  end.

Fixpoint verifyChainOfTrust (i : Z) (chain pinnedRoots : list Certificate) (now : Z) : result unit :=
  match chain with
  | [] => Ok tt
  | certificate :: rest =>
      if (now <? notBefore certificate) || (notAfter certificate <? now) then refuse "expired or not yet valid"
      else match rest with
      | issuer :: _ =>
          if negb (bool_decide (issuerName certificate = subjectName issuer)) then refuse "issuer name"
          else
          let! valid := signatureValid L certificate issuer now in
          if negb valid then refuse "chain signature verification failed"
          else
          let! _ := check_issuer i issuer in
          verifyChainOfTrust (i + 1) rest pinnedRoots now
      | [] =>
          if negb (existsb (λ root, bool_decide (rawData root = rawData certificate)) pinnedRoots)
          then refuse "chain does not terminate at a pinned root" else Ok tt
      end
  end.

Definition verifyLeafKeyMatches (leaf : Certificate) (expectedBioJkt : string) : result unit :=
  match exportJwk L leaf with
  | None => refuse "attested key is not an exportable EC P-256 public key"
  | Some jwk => if negb (bool_decide (jh_thumbprint J jwk = expectedBioJkt)) then refuse "attested key does not match" else Ok tt
  end.

(** [looks i] are the circumstances of the [i]th lookup. *)
Fixpoint verifyNotRevoked (looks : nat → Lookup) (i : nat) (chain : list Certificate) : io RevocationCache unit :=
  match chain with
  | [] => ret tt
  | certificate :: rest =>
      await serial := lift (normalizeSerialHex (serialNumber certificate)) in
      await revoked := isRevoked (looks i) serial in
      if revoked then throw (AndroidAttestationInvalidError "a certificate in the chain is revoked")
      else verifyNotRevoked looks (S i) rest
  end.

Definition extractKeyDescription (leaf : Certificate) : result KeyDescription :=
  match getExtension leaf KEY_DESCRIPTION_OID with
  | None => refuse "no key-attestation extension present"
  | Some value =>
      match fromBER L value with
      | Some (Sequence fields) =>
          if (length fields <? 8)%nat then refuse "key-attestation extension is missing fields"
          else
          let! av := readInteger (fields !! 0%nat) in
          let! asl := readEnumerated (fields !! 1%nat) in
          let! kv := readInteger (fields !! 2%nat) in
          let! ksl := readEnumerated (fields !! 3%nat) in
          let! ch := readOctetString (fields !! 4%nat) in
          let! sw := parseAuthorizationList (fields !! 6%nat) in
          let! tee := parseAuthorizationList (fields !! 7%nat) in
          Ok (mkKeyDescription av asl kv ksl ch sw tee)
      | _ => refuse "malformed key-attestation extension"
      end
  end.

(** Package names are compared as their UTF-8 bytes. *)
Definition package_name (packageInfo : asn1) : result string :=
  match packageInfo with
  | Sequence (name :: _) => readOctetString (Some name)
  | _ => refuse "malformed attestationApplicationId package info"
  end.

Definition parseAttestationApplicationId (raw : string) : result (list string * list string) :=
  match fromBER L raw with
  | Some (Sequence (ASet packageInfos :: ASet signatureDigests :: _)) =>
      let! packageNames := rmap package_name packageInfos in
      let! digests := rmap (λ d, let! v := readOctetString (Some d) in Ok (to_hex v)) signatureDigests in
      Ok (packageNames, digests)
  | _ => refuse "malformed attestationApplicationId"
  end.

Definition on_allowlist (certDigestAllowlist digests : list string) : bool :=
  existsb (λ d, bool_decide (normalizeCertDigest d ∈ map normalizeCertDigest certDigestAllowlist)) digests.

(** The checks of verifyAndroidKeyAttestation on the parsed description, in their order. *)
Definition check_description (k : KeyDescription) (challenge : string) (certDigestAllowlist : list string) : result unit :=
  let tee := teeEnforced k in let sw := softwareEnforced k in
  if (attestationVersion k <? MINIMUM_ATTESTATION_VERSION) || (keymasterVersion k <? MINIMUM_ATTESTATION_VERSION)
  then refuse "attestation version is below the minimum"
  else if negb (bool_decide (attestationSecurityLevel k ∈ HARDWARE_SECURITY_LEVELS)) ||
          negb (bool_decide (keymasterSecurityLevel k ∈ HARDWARE_SECURITY_LEVELS))
  then refuse "key is not hardware-backed"
  else if negb (bool_decide (to_ascii (attestationChallenge k) = challenge)) then Err AndroidAttestationChallengeMismatchError
  else if noAuthRequired tee || noAuthRequired sw then refuse "key requires no authentication to use"
  else match userAuthType tee with
  | None => refuse "no user-authentication requirement attested"
  | Some userAuthType =>
  if negb (Z.land userAuthType AUTH_TYPE_PASSWORD_BIT =? 0) then refuse "key accepts device-credential authentication"
  else if Z.land userAuthType AUTH_TYPE_FINGERPRINT_BIT =? 0 then refuse "key does not require biometric authentication"
  else if match authTimeout tee with Some t => negb (t =? 0) | None => false end then refuse "not on every use"
  else if allowWhileOnBody tee || allowWhileOnBody sw then refuse "key is usable while on-body"
  else if negb (unlockedDeviceRequired tee) && negb (unlockedDeviceRequired sw) then refuse "device need not be unlocked"
  else if negb (bool_decide (origin tee = Some KM_ORIGIN_GENERATED)) then refuse "key was not generated on-device"
  else if negb (bool_decide (purpose tee = Some [KM_PURPOSE_SIGN])) then refuse "key purpose is not SIGN-only"
  else if negb (bool_decide (algorithm tee = Some KM_ALGORITHM_EC)) then refuse "key algorithm is not EC"
  else if negb (bool_decide (ecCurve tee = Some KM_EC_CURVE_P256)) then refuse "key curve is not P-256"
  else if negb match digest tee with Some d => bool_decide (KM_DIGEST_SHA_2_256 ∈ d) | None => false end
  then refuse "key does not attest SHA-256 as an allowed digest"
  else match rootOfTrust tee with
  | None => refuse "no hardware-enforced root of trust attested"
  | Some root =>
  if negb (deviceLocked root) then refuse "the device's bootloader is unlocked"
  else if negb (verifiedBootState root =? VERIFIED_BOOT_STATE_VERIFIED) then refuse "verified boot state is not Verified"
  else match (match attestationApplicationId sw with Some a => Some a | None => attestationApplicationId tee end) with
  | None => refuse "no attestationApplicationId present"
  | Some applicationId =>
      let! (packageNames, signatureDigests) := parseAttestationApplicationId applicationId in
      if negb (bool_decide ("com.vistablox.app" ∈ packageNames)) then refuse "attested package name is not com.vistablox.app"
      else if negb (on_allowlist certDigestAllowlist signatureDigests) then refuse "app signing certificate is not on the allowlist"
      else Ok tt
  end end end.

Record AndroidKeyAttestationInput := mkAttestationInput {
  certificateChain : list string; pinnedRootCertificates : list string; certDigestAllowlist : list string;
  at_challenge : string; at_bioJkt : string; at_now : Z }.

Definition verifyAndroidKeyAttestation (looks : nat → Lookup) (i : AndroidKeyAttestationInput) : io RevocationCache unit :=
  if bool_decide (certificateChain i = []) then throw (AndroidAttestationInvalidError "empty certificate chain")
  else if bool_decide (pinnedRootCertificates i = []) then throw (AndroidAttestationInvalidError "no pinned roots")
  else
  await chain := lift (rmap parseCertificate (certificateChain i)) in
  await roots := lift (rmap parseCertificate (pinnedRootCertificates i)) in
  await _ := lift (verifyChainOfTrust 0 chain roots (at_now i)) in
  await _ := verifyNotRevoked looks 0 chain in
  match chain with
  | [] => throw (Thrown "TypeError")
  | leaf :: _ =>
      await _ := lift (verifyLeafKeyMatches leaf (at_bioJkt i)) in
      await keyDescription := lift (extractKeyDescription leaf) in
      lift (check_description keyDescription (at_challenge i) (certDigestAllowlist i))
  end.

Definition accepted_app_verdicts (policy : PlayIntegrityPolicy) : list string :=
  if bool_decide (policy = relaxed) then ["PLAY_RECOGNIZED"; "UNRECOGNIZED_VERSION"] else ["PLAY_RECOGNIZED"].

Definition verifyPlayIntegrityToken (policy : PlayIntegrityPolicy) (token : option string) (challenge bioJkt : string)
    (allowlist : list string) (decode : string → option Verdict) : result unit :=
  if bool_decide (policy = disabled) then Ok tt
  else match token with
  | None => refuse "integrity_token is required by the current policy"
  | Some token =>
      match decode token with
      | None => refuse "Play Integrity token could not be decoded"
      | Some v =>
          if negb (bool_decide (requestHash v = Some (computeDeviceBinding challenge bioJkt))) then refuse "requestHash"
          else if negb (bool_decide (appRecognitionVerdict v ∈ accepted_app_verdicts policy)) then refuse "app recognition verdict"
          else if negb (bool_decide ("MEETS_DEVICE_INTEGRITY" ∈ deviceRecognitionVerdicts v)) then refuse "device recognition verdict"
          else if negb (on_allowlist allowlist (certificateSha256Digests v)) then refuse "certificate digest"
          else Ok tt
      end
  end.

(** AndroidAttestationConfig and what an enrolment carries beside it *)
Record AndroidAttestationConfig := mkAndroidConfig {
  ac_policy : PlayIntegrityPolicy; ac_pinnedRootCertificates : list string; ac_certDigestAllowlist : list string;
  ac_playIntegrityDecoder : option (string → option Verdict) }.

Definition verifyPlayIntegrity (android : AndroidAttestationConfig) (token : option string) (challenge bioJkt : string) : result unit :=
  match ac_playIntegrityDecoder android with
  | None => if negb (bool_decide (ac_policy android = disabled)) then refuse "no decoder is configured"
            else verifyPlayIntegrityToken (ac_policy android) token challenge bioJkt (ac_certDigestAllowlist android) (λ _, None)
  | Some decode => verifyPlayIntegrityToken (ac_policy android) token challenge bioJkt (ac_certDigestAllowlist android) decode
  end.

(** The attestation half of EnrolDeviceService.execute, for the biometric key the JWS was signed with *)
Definition attest_key (android : AndroidAttestationConfig) (looks : nat → Lookup) (chain : list string) (token : option string)
    (challenge : string) (now : Z) (cache : RevocationCache) (bioJkt : string) : result unit :=
  let! _ := (verifyAndroidKeyAttestation looks (mkAttestationInput chain (ac_pinnedRootCertificates android)
               (ac_certDigestAllowlist android) challenge bioJkt now) cache).1 in
  verifyPlayIntegrity android token challenge bioJkt.

End Verifier.

(** ** Authorization lists

    The reader keeps, for each tag, the value of its last entry; a flag is set by any entry. *)

Definition tagged (tag : Z) (entry : asn1) : option (list asn1) :=
  match entry with Constructed c n value => if (c =? 3) && (n =? tag) then Some value else None | _ => None end.

Definition carries (tag : Z) (entries : list asn1) : bool := existsb (λ e, bool_decide (is_Some (tagged tag e))) entries.

Definition inner (tag : Z) (entry : asn1) : option asn1 := tagged tag entry ≫= head.

Fixpoint last_inner (tag : Z) (entries : list asn1) : option asn1 :=
  match entries with
  | [] => None
  | e :: entries => match last_inner tag entries with Some x => Some x | None => inner tag e end
  end.

(** [f] is what [read] gives on [node], or what it was. *)
Definition set_from {V} (read : asn1 → result V) (node : option asn1) (before after : option V) : Prop :=
  match node with Some x => ∃ v, read x = Ok v ∧ after = Some v | None => after = before end.

Lemma read_entries_field {V} (f : AuthorizationList → option V) tag read :
  (∀ a e a', read_entry a e = Ok a' → set_from read (inner tag e) (f a) (f a')) →
  ∀ l a a', read_entries a l = Ok a' → set_from read (last_inner tag l) (f a) (f a').
Proof.
  intros Hstep l. induction l as [|e l IH]; intros a a' H; cbn [read_entries last_inner] in *; [by injection H as <-|].
  apply rbind_ok in H as (a1 & H1 & H2). apply IH in H2. apply Hstep in H1. unfold set_from in *.
  destruct (last_inner tag l); [done|]. rewrite H2. done.
Qed.

Lemma read_entries_flag (f : AuthorizationList → bool) tag :
  (∀ a e a', read_entry a e = Ok a' → f a' = f a || bool_decide (is_Some (tagged tag e))) →
  ∀ l a a', read_entries a l = Ok a' → f a' = f a || carries tag l.
Proof.
  intros Hstep l. induction l as [|e l IH]; intros a a' H; cbn [read_entries] in *; [injection H as <-; by rewrite orb_false_r|].
  apply rbind_ok in H as (a1 & H1 & H2). rewrite (IH _ _ H2), (Hstep _ _ _ H1). unfold carries. simpl. by rewrite orb_assoc.
Qed.

(** One entry changes the field of its tag and no other. *)
Ltac entry_step :=
  let a := fresh "a" in let e := fresh "e" in let a' := fresh "a'" in let H := fresh "H" in
  intros a e a' H; unfold inner, tagged, set_from; destruct e as [| |c n value| | | | |]; simpl in H;
  try (injection H as <-; simpl; rewrite ?orb_false_r; reflexivity);
  destruct (c =? 3); simpl in H; [|injection H as <-; simpl; rewrite ?orb_false_r; reflexivity];
  destruct a; simpl in *;
  repeat match type of H with
  | (if ?x =? ?t then _ else _) = _ => let E := fresh "E" in destruct (Z.eqb_spec x t) as [E|E]; [subst x; simpl|]
  | match head ?v with _ => _ end = _ => destruct (head v) eqn:?
  | rbind _ _ = Ok _ => apply rbind_ok in H as (? & ? & H)
  | Ok _ = Ok _ => injection H as <-
  end; simpl; rewrite ?orb_false_r, ?orb_true_r;
  try match goal with |- context [if ?n =? ?t then _ else _] => destruct (Z.eqb_spec n t); simpl; try done end;
  repeat match goal with E : head _ = _ |- _ => rewrite E end; rewrite ?orb_false_r; eauto.

Lemma authorization_flags l a : read_entries no_authorizations l = Ok a →
  noAuthRequired a = carries TAG_NO_AUTH_REQUIRED l ∧ allowWhileOnBody a = carries TAG_ALLOW_WHILE_ON_BODY l ∧
  unlockedDeviceRequired a = carries TAG_UNLOCKED_DEVICE_REQUIRED l.
Proof.
  intros H. split; [|split].
  - refine (read_entries_flag noAuthRequired TAG_NO_AUTH_REQUIRED _ _ _ _ H). entry_step.
  - refine (read_entries_flag allowWhileOnBody TAG_ALLOW_WHILE_ON_BODY _ _ _ _ H). entry_step.
  - refine (read_entries_flag unlockedDeviceRequired TAG_UNLOCKED_DEVICE_REQUIRED _ _ _ _ H). entry_step.
Qed.

Definition read_number (node : asn1) : result Z := readInteger (Some node).
Definition read_octets (node : asn1) : result string := readOctetString (Some node).

Lemma authorization_fields l a : read_entries no_authorizations l = Ok a →
  set_from readIntegerSet (last_inner TAG_PURPOSE l) None (purpose a) ∧
  set_from read_number (last_inner TAG_ALGORITHM l) None (algorithm a) ∧
  set_from readIntegerSet (last_inner TAG_DIGEST l) None (digest a) ∧
  set_from read_number (last_inner TAG_EC_CURVE l) None (ecCurve a) ∧
  set_from read_number (last_inner TAG_USER_AUTH_TYPE l) None (userAuthType a) ∧
  set_from read_number (last_inner TAG_AUTH_TIMEOUT l) None (authTimeout a) ∧
  set_from read_number (last_inner TAG_ORIGIN l) None (origin a) ∧
  set_from parseRootOfTrust (last_inner TAG_ROOT_OF_TRUST l) None (rootOfTrust a) ∧
  set_from read_octets (last_inner TAG_ATTESTATION_APPLICATION_ID l) None (attestationApplicationId a).
Proof.
  intros H. repeat split.
  - refine (read_entries_field purpose TAG_PURPOSE _ _ _ _ _ H). entry_step.
  - refine (read_entries_field algorithm TAG_ALGORITHM _ _ _ _ _ H). entry_step.
  - refine (read_entries_field digest TAG_DIGEST _ _ _ _ _ H). entry_step.
  - refine (read_entries_field ecCurve TAG_EC_CURVE _ _ _ _ _ H). entry_step.
  - refine (read_entries_field userAuthType TAG_USER_AUTH_TYPE _ _ _ _ _ H). entry_step.
  - refine (read_entries_field authTimeout TAG_AUTH_TIMEOUT _ _ _ _ _ H). entry_step.
  - refine (read_entries_field origin TAG_ORIGIN _ _ _ _ _ H). entry_step.
  - refine (read_entries_field rootOfTrust TAG_ROOT_OF_TRUST _ _ _ _ _ H). entry_step.
  - refine (read_entries_field attestationApplicationId TAG_ATTESTATION_APPLICATION_ID _ _ _ _ _ H). entry_step.
Qed.

(** [node] is there and reads as [v]. *)
Definition reads {V} (read : asn1 → result V) (node : option asn1) (v : V) : Prop := ∃ x, node = Some x ∧ read x = Ok v.

Lemma set_from_reads {V} (read : asn1 → result V) node v : set_from read node None (Some v) → reads read node v.
Proof. destruct node as [x|]; simpl; [|done]. intros (w & Hr & [= ->]). by exists x. Qed.

(** ** The policy, on the raw lists

    What an accepted key's hardware list [te] and software list [se] say: a key of this device, made for signing on
    P-256, that only a fingerprint releases, each time, on a locked and verified system. *)
Record released_by_fingerprint (se te : list asn1) : Prop := {
  no_free_use : carries TAG_NO_AUTH_REQUIRED te = false ∧ carries TAG_NO_AUTH_REQUIRED se = false;
  no_body_use : carries TAG_ALLOW_WHILE_ON_BODY te = false ∧ carries TAG_ALLOW_WHILE_ON_BODY se = false;
  unlocked : carries TAG_UNLOCKED_DEVICE_REQUIRED te = true ∨ carries TAG_UNLOCKED_DEVICE_REQUIRED se = true;
  fingerprint_only : ∃ v, reads read_number (last_inner TAG_USER_AUTH_TYPE te) v ∧ Z.testbit v 0 = false ∧ Z.testbit v 1 = true;
  each_use : last_inner TAG_AUTH_TIMEOUT te = None ∨ reads read_number (last_inner TAG_AUTH_TIMEOUT te) 0;
  generated : reads read_number (last_inner TAG_ORIGIN te) KM_ORIGIN_GENERATED;
  sign_only : reads readIntegerSet (last_inner TAG_PURPOSE te) [KM_PURPOSE_SIGN];
  elliptic : reads read_number (last_inner TAG_ALGORITHM te) KM_ALGORITHM_EC;
  p256 : reads read_number (last_inner TAG_EC_CURVE te) KM_EC_CURVE_P256;
  sha_256 : ∃ d, reads readIntegerSet (last_inner TAG_DIGEST te) d ∧ KM_DIGEST_SHA_2_256 ∈ d;
  verified_boot : reads parseRootOfTrust (last_inner TAG_ROOT_OF_TRUST te) (mkRootOfTrust true VERIFIED_BOOT_STATE_VERIFIED) }.

Lemma land_1_testbit v : Z.land v AUTH_TYPE_PASSWORD_BIT = 0 → Z.testbit v 0 = false.
Proof. intros H. apply (f_equal (λ x, Z.testbit x 0)) in H. rewrite Z.land_spec, Z.bits_0 in H. by rewrite andb_true_r in H. Qed.

Lemma land_2_testbit v : Z.land v AUTH_TYPE_FINGERPRINT_BIT ≠ 0 → Z.testbit v 1 = true.
Proof.
  intros H. destruct (Z.testbit v 1) eqn:E; [done|]. destruct H. apply Z.bits_inj'. intros n Hn.
  rewrite Z.land_spec, Z.bits_0. change AUTH_TYPE_FINGERPRINT_BIT with (2 ^ 1). rewrite Z.pow2_bits_eqb by lia.
  destruct (Z.eqb_spec 1 n) as [<-|]; [by rewrite E | by rewrite andb_false_r].
Qed.

Section Soundness.
Context (J : Jose) (L : CertLibrary).

(** The application is on the allowlist: the software list names it, or else the hardware list. *)
Definition our_application (allow : list string) (se te : list asn1) : Prop :=
  ∃ raw names digests d,
    reads read_octets (match last_inner TAG_ATTESTATION_APPLICATION_ID se with
                       | Some x => Some x | None => last_inner TAG_ATTESTATION_APPLICATION_ID te end) raw ∧
    parseAttestationApplicationId L raw = Ok (names, digests) ∧ In "com.vistablox.app" names ∧
    In d digests ∧ In (normalizeCertDigest d) (map normalizeCertDigest allow).

Lemma check_description_sound k challenge allow se te :
  read_entries no_authorizations se = Ok (softwareEnforced k) → read_entries no_authorizations te = Ok (teeEnforced k) →
  check_description L k challenge allow = Ok tt →
  (3 ≤ attestationVersion k ∧ 3 ≤ keymasterVersion k) ∧
  (attestationSecurityLevel k ∈ HARDWARE_SECURITY_LEVELS ∧ keymasterSecurityLevel k ∈ HARDWARE_SECURITY_LEVELS) ∧
  to_ascii (attestationChallenge k) = challenge ∧ released_by_fingerprint se te ∧ our_application allow se te.
Proof.
  intros Hse Hte H. pose proof (authorization_flags _ _ Hse) as (Fs1 & Fs2 & Fs3). pose proof (authorization_flags _ _ Hte) as (Ft1 & Ft2 & Ft3).
  pose proof (authorization_fields _ _ Hse) as (_ & _ & _ & _ & _ & _ & _ & _ & As).
  pose proof (authorization_fields _ _ Hte) as (Tpu & Tal & Tdi & Tec & Tua & Tat & Tor & Trt & Ta).
  unfold check_description in H. rewrite Fs1, Fs2, Fs3, Ft1, Ft2, Ft3 in H. inv_ok H. boolify. subst.
  repeat match goal with E : ?f (teeEnforced k) = Some _ |- _ => rewrite E in * end.
  repeat match goal with X : set_from _ _ None (Some _) |- _ => apply set_from_reads in X end.
  split; [unfold MINIMUM_ATTESTATION_VERSION in *; lia|]. split; [done|]. split; [done|]. split.
  - constructor; try done.
    + destruct (carries TAG_UNLOCKED_DEVICE_REQUIRED te), (carries TAG_UNLOCKED_DEVICE_REQUIRED se); naive_solver.
    + eexists. split; [eassumption|]. by split; [apply land_1_testbit | apply land_2_testbit].
    + destruct (last_inner TAG_AUTH_TIMEOUT te) as [x|]; [right|by left]. destruct Tat as (v & Hv & E). rewrite E in *. boolify. subst.
      by exists x.
    + destruct (digest (teeEnforced k)); [|done]. boolify. apply set_from_reads in Tdi. by eexists.
    + destruct Trt as (x & -> & Hx). exists x. split; [done|]. rewrite Hx. destruct r; simpl in *. by subst.
  - unfold on_allowlist in *. match goal with E : existsb _ _ = true |- _ => apply existsb_exists in E as (d & Hd & Hin) end.
    boolify. rewrite list_elem_of_In in Hin.
    match goal with E : _ ∈ ?names |- _ => rewrite list_elem_of_In in E end.
    eexists _, _, _, d. split; [|by eauto].
    destruct (last_inner TAG_ATTESTATION_APPLICATION_ID se) as [x|]; simpl in As.
    + destruct As as (v & Hv & Ev). rewrite Ev in *. simplify_eq. by exists x.
    + rewrite As in *. match goal with E : attestationApplicationId _ = Some _ |- _ => rewrite E in Ta end. by apply set_from_reads.
Qed.

(** ** The chain

    What holds of a certificate [k] places above the leaf and of the one above it. *)
Definition may_issue (k : Z) (issuer : Certificate) : Prop :=
  ∃ pathLength usages, basicConstraints issuer = Some (true, pathLength) ∧ keyUsages issuer = Some usages ∧
    Z.land usages (keyCertSign L) ≠ 0 ∧ ∀ n, pathLength = Some n → k ≤ n.

Definition link (roots : list Certificate) (now k : Z) (c : Certificate) (above : option Certificate) : Prop :=
  notBefore c ≤ now ≤ notAfter c ∧
  match above with
  | Some issuer => issuerName c = subjectName issuer ∧ signatureValid L c issuer now = Ok true ∧ may_issue k issuer
  | None => ∃ root, In root roots ∧ rawData root = rawData c
  end.

Lemma check_issuer_iff k issuer : check_issuer L k issuer = Ok tt ↔ may_issue k issuer.
Proof.
  unfold check_issuer, may_issue. split.
  - destruct (basicConstraints issuer) as [[[] pl]|]; [|done..]. destruct (keyUsages issuer) as [u|]; [|done].
    destruct (Z.land _ _ =? 0) eqn:Eu; [done|]. intros H. exists pl, u. apply Z.eqb_neq in Eu. repeat split; try done.
    intros n ->. destruct (n <? k) eqn:En; [done|]. lia.
  - intros (pl & u & -> & -> & Hu & Hn). apply Z.eqb_neq in Hu. rewrite Hu. destruct pl as [n|]; [|done].
    specialize (Hn n eq_refl). by replace (n <? k) with false by lia.
Qed.

(** The loop accepts exactly the chains whose every certificate is linked to the next and whose last is pinned. *)
Lemma verifyChainOfTrust_iff roots now chain : ∀ i,
  verifyChainOfTrust L i chain roots now = Ok tt ↔
  ∀ k c, chain !! k = Some c → link roots now (i + Z.of_nat k) c (chain !! S k).
Proof.
  induction chain as [|c rest IH]; intros i; [by split|]. split.
  - intros H. simpl in H. destruct (_ || _) eqn:Et; [done|]. boolify. intros [|k] c' Hk; simpl in *.
    + injection Hk as <-. split; [lia|]. rewrite Z.add_0_r. destruct rest as [|issuer rest]; simpl.
      * destruct (existsb _ roots) eqn:Ep; [|done]. apply existsb_exists in Ep as (r & Hr & E). boolify. eauto.
      * inv_ok H. boolify. subst. destruct a0. split; [done|]. split; [done|]. by apply check_issuer_iff.
    + destruct rest as [|issuer rest]; [done|]. inv_ok H. destruct a0. apply (IH (i + 1)) with (k := k) in Hk; [|done].
      replace (i + Z.of_nat (S k)) with (i + 1 + Z.of_nat k) by lia. exact Hk.
  - intros H. pose proof (H 0%nat c eq_refl) as [Ht Hl]. rewrite Z.add_0_r in Hl. cbn [verifyChainOfTrust].
    replace ((now <? notBefore c) || (notAfter c <? now)) with false by (symmetry; apply orb_false_iff; lia).
    destruct rest as [|issuer rest]; simpl in Hl.
    + destruct Hl as (r & Hr & E). replace (existsb _ roots) with true; [done|]. symmetry. apply existsb_exists. exists r.
      split; [done|]. by apply bool_decide_eq_true.
    + destruct Hl as (En & Es & Hm). rewrite bool_decide_eq_true_2 by done. simpl. rewrite Es. simpl.
      apply check_issuer_iff in Hm. rewrite Hm. simpl. apply IH. intros k c' Hk. specialize (H (S k) c' Hk).
      replace (i + 1 + Z.of_nat k) with (i + Z.of_nat (S k)) by lia. exact H.
Qed.

(** ** Acceptance *)

(** The chain leads from a key with thumbprint [bioJkt], attested for [challenge] under the policy above, to a pinned root. *)
Definition attested (chain : list string) (android : AndroidAttestationConfig) (challenge bioJkt : string) (now : Z) : Prop :=
  ∃ certs roots, rmap (parseCertificate L) chain = Ok certs ∧
    rmap (parseCertificate L) (ac_pinnedRootCertificates android) = Ok roots ∧
    (∀ k c, certs !! k = Some c → link roots now (Z.of_nat k) c (certs !! S k)) ∧
    ∃ leaf jwk value fields se te v w, head certs = Some leaf ∧
      (exportJwk L leaf = Some jwk ∧ jh_thumbprint J jwk = bioJkt) ∧
      getExtension leaf KEY_DESCRIPTION_OID = Some value ∧ fromBER L value = Some (Sequence fields) ∧
      fields !! 6%nat = Some (Sequence se) ∧ fields !! 7%nat = Some (Sequence te) ∧
      (fields !! 1%nat = Some (Enumerated v) ∧ v ∈ HARDWARE_SECURITY_LEVELS) ∧
      (fields !! 4%nat = Some (OctetString w) ∧ to_ascii w = challenge) ∧
      released_by_fingerprint se te ∧ our_application (ac_certDigestAllowlist android) se te.

Lemma extractKeyDescription_ok leaf k : extractKeyDescription L leaf = Ok k →
  ∃ value fields se te, getExtension leaf KEY_DESCRIPTION_OID = Some value ∧ fromBER L value = Some (Sequence fields) ∧
    fields !! 6%nat = Some (Sequence se) ∧ fields !! 7%nat = Some (Sequence te) ∧
    fields !! 1%nat = Some (Enumerated (attestationSecurityLevel k)) ∧
    fields !! 4%nat = Some (OctetString (attestationChallenge k)) ∧
    read_entries no_authorizations se = Ok (softwareEnforced k) ∧ read_entries no_authorizations te = Ok (teeEnforced k).
Proof.
  unfold extractKeyDescription. intros H.
  destruct (getExtension leaf KEY_DESCRIPTION_OID) as [value|]; [|done].
  destruct (fromBER L value) as [[fields| | | | | | |]|] eqn:Eb; try done. destruct (_ <? 8)%nat; [done|].
  apply rbind_ok in H as (av & _ & H). apply rbind_ok in H as (asl & H1 & H). apply rbind_ok in H as (kv & _ & H).
  apply rbind_ok in H as (ksl & _ & H). apply rbind_ok in H as (ch & H4 & H). apply rbind_ok in H as (sw & H6 & H).
  apply rbind_ok in H as (tee & H7 & H). injection H as <-. unfold readEnumerated in H1. unfold readOctetString in H4.
  unfold parseAuthorizationList in H6, H7. inv_ok H1. inv_ok H4. inv_ok H6. inv_ok H7. simplify_eq. eexists _, _, _, _. simpl. by repeat split.
Qed.

Lemma attest_key_sound android looks chain token challenge now cache bioJkt :
  attest_key J L android looks chain token challenge now cache bioJkt = Ok tt → attested chain android challenge bioJkt now.
Proof.
  unfold attest_key. intros H. apply rbind_ok in H as ([] & H & _).
  destruct (verifyAndroidKeyAttestation J L looks _ cache) as [r cache'] eqn:E. simpl in H. subst r.
  unfold verifyAndroidKeyAttestation in E. simpl in E. case_bool_decide; [done|]. case_bool_decide; [done|].
  inv_io E. destruct a as [|leaf rest] eqn:Ec; [by apply throw_ok in E|]. inv_io E.
  destruct a1. pose proof (proj1 (verifyChainOfTrust_iff _ _ _ _) Hio1) as Hlink. destruct a3. unfold verifyLeafKeyMatches in Hio3. inv_ok Hio3.
  apply extractKeyDescription_ok in Hio4 as (value & fields & se & te & ? & ? & ? & ? & ? & ? & Hse & Hte).
  eapply check_description_sound in E as (_ & (? & _) & ? & ? & ?); [|eassumption..]. boolify.
  eexists (leaf :: rest), _. split; [done|]. split; [done|]. split; [done|].
  eexists leaf, _, value, fields, se, te, _, _. split; [done|]. repeat (split; [by eauto|]). done.
Qed.

(** C16: whoever enrols a device proves that its biometric key lives in attested hardware. When EnrolDeviceService registers
    a device, the submitted chain parses, every certificate of it is valid now and signed by the next, each signer is a CA
    with keyCertSign within its path length, the last is byte for byte a pinned root; the leaf's key is the registered
    biometric key; and the leaf attests for this challenge, in hardware, a P-256 signing key generated on a locked and
    verified device for our application, released by a fingerprint for each use and by nothing else. *)
Theorem enrolled_keys_are_attested ulid platforms android looks chain token now cache i clocks s d s' :
  EnrolDevice_execute ulid J platforms (attest_key J L android looks chain token (ei_challenge i) now cache) i clocks s = (Ok d, s') →
  attested chain android (ei_challenge i) (Device.bioJkt d) now ∧ In d (devices s').
Proof.
  unfold EnrolDevice_execute. intros H. destruct (_ || _); [done|]. inv_io H. destruct (findActiveDeviceForAccount _ s); [done|].
  inv_io H. destruct (negb a).
  { exfalso. unfold throwForUnusableChallenge in H. inv_io H. destruct (wasConsumedWithinReplayWindow _ _ _); [done|]. inv_io H.
    by destruct a0. }
  inv_io H. destruct (findByDpopJkt _ _); [done|]. inv_io H. destruct a1. apply attest_key_sound in Hio1.
  apply transaction_ok, create_device_ok in H as [_ H]. apply insert_device_ok in H as (k & b & l & -> & _ & ->). simpl. split; [done|].
  apply in_app_iff. right. by left.
Qed.

(** ** Revocation *)

Lemma trim_unspaced t : JsString.string_forallb (λ c, negb (JsString.is_space c)) t = true → JsString.trim t = t.
Proof.
  unfold JsString.trim. intros H.
  assert (JsString.trim_start t = t) as -> by (destruct t; simpl in *; [done|]; boolify; by case_match).
  induction t as [|c t IH]; simpl in *; [done|]. boolify. rewrite IH by done. destruct t; [|done]. by case_match.
Qed.

Lemma hex_not_space c v : JsString.digit_value 16 c = Some v → JsString.is_space c = false.
Proof.
  unfold JsString.digit_value, JsString.is_space. intros H. destruct (_ && _) eqn:E1 in H; [boolify; lia|].
  destruct (_ && _) eqn:E2 in H; [boolify; lia|]. destruct (_ && _) eqn:E3 in H; [boolify; lia|]. discriminate H.
Qed.

Lemma parse_digits_unspaced t : ∀ acc n, JsString.parse_digits 16 acc t = Some n →
  JsString.string_forallb (λ c, negb (JsString.is_space c)) t = true.
Proof.
  induction t as [|c t IH]; intros acc n H; simpl in *; [done|]. destruct (JsString.digit_value 16 c) eqn:E; [|done].
  by rewrite (hex_not_space _ _ E), (IH _ _ H).
Qed.

(** Any hexadecimal text of a serial number becomes the text the list carries. *)
Lemma normalizeSerialHex_value t n : JsString.parse_nonempty 16 t = Some n → normalizeSerialHex t = Ok (toString16 n).
Proof.
  intros H. unfold normalizeSerialHex, JsString.BigInt. change (String.append "0x" t) with (String "0" (String "x" t)).
  rewrite trim_unspaced.
  - cbn -[JsString.parse_nonempty toString16]. by rewrite H.
  - simpl. destruct t; [done|]. by eapply parse_digits_unspaced.
Qed.

Definition empty_cache : RevocationCache := mkCache None None.

(** The cache is empty or what one of the lookups was served. *)
Definition served_by (P : Lookup → Prop) (s : RevocationCache) : Prop :=
  s = empty_cache ∨ ∃ k entries, P k ∧ lk_served k = Some entries ∧
    s = mkCache (Some (map JsString.toLowerCase entries)) (Some (lk_fetched k)).

Lemma refresh_served (P : Lookup → Prop) k s : P k → served_by P s → served_by P (refreshIfStale k s).
Proof.
  intros Hk Hs. assert (served_by P (refresh k s)) as Hr.
  { unfold refresh. destruct (lk_served k) eqn:E; [right; eauto | done]. }
  unfold refreshIfStale. destruct (fetchedAt s); [by destruct (_ <? _) | done].
Qed.

Lemma run_served (P : Lookup → Prop) ks : Forall P ks → ∀ s, served_by P s → served_by P (foldl (λ s k, refreshIfStale k s) s ks).
Proof. induction 1; intros s Hs; simpl; [done|]. by apply IHForall, refresh_served. Qed.

Section Effect.
Context (P : Lookup → Prop) (serial T : Z)
  (Hlisted : ∀ k entries, P k → lk_served k = Some entries → T ≤ lk_fetched k → In (toString16 serial) entries).

Lemma listed_is_revoked k s : P k → served_by P s → T + FAIL_CLOSED_AFTER_MS < lk_check k →
  (isRevoked k (toString16 serial) s).1 = Ok true.
Proof.
  intros Hk Hs Ht. unfold isRevoked. simpl.
  destruct (refresh_served P k s Hk Hs) as [->|(k' & entries & Hk' & Hserved & ->)]; [done|]. simpl.
  destruct (_ <? _) eqn:E; [done|]. boolify. f_equal. apply bool_decide_eq_true, list_elem_of_In, in_map.
  eapply Hlisted; [done|done|lia].
Qed.

Lemma revoked_chain_refused looks : (∀ n, P (looks n) ∧ T + FAIL_CLOSED_AFTER_MS < lk_check (looks n)) →
  ∀ chain c n s, In c chain → JsString.parse_nonempty 16 (serialNumber c) = Some serial → served_by P s →
  (verifyNotRevoked looks n chain s).1 ≠ Ok tt.
Proof.
  intros Hl chain. induction chain as [|c' rest IH]; intros c n s Hin Hc Hs H; [done|]. simpl in H.
  destruct (verifyNotRevoked looks n (c' :: rest) s) as [r s'] eqn:E; cbn [verifyNotRevoked] in E.
  unfold iobind in H. simpl in H. destruct (normalizeSerialHex (serialNumber c')) as [t|e] eqn:En; simpl in H; [|done].
  destruct Hin as [->|Hin].
  - rewrite (normalizeSerialHex_value _ _ Hc) in En. injection En as <-. destruct (Hl n) as [HP Ht].
    pose proof (listed_is_revoked _ s HP Hs Ht) as Hr. unfold isRevoked in Hr. simpl in Hr. injection Hr as Hr.
    rewrite Hr in H. done.
  - destruct (match revokedSerials _ with Some _ => _ | None => _ end) in H; [done|].
    by eapply (IH c (S n) (refreshIfStale (looks n) s)); [..|apply refresh_served; [apply Hl|]|].
Qed.

End Effect.

(** C31: once Google's list carries a serial, no chain with that certificate is accepted 72 hours later, whatever was cached
    and whether or not the list could be fetched since: if every list served from time T on carries the serial of a
    certificate of the chain, an attestation checked after T + 72 h is refused, after any number of earlier lookups. *)
Theorem revocation_takes_effect ks looks i certs c serial T :
  rmap (parseCertificate L) (certificateChain i) = Ok certs → In c certs →
  JsString.parse_nonempty 16 (serialNumber c) = Some serial →
  (∀ k entries, In k ks ∨ (∃ n, k = looks n) → lk_served k = Some entries → T ≤ lk_fetched k → In (toString16 serial) entries) →
  (∀ n, T + FAIL_CLOSED_AFTER_MS < lk_check (looks n)) →
  (verifyAndroidKeyAttestation J L looks i (foldl (λ s k, refreshIfStale k s) empty_cache ks)).1 ≠ Ok tt.
Proof.
  intros Hp Hc Hser Hlisted Ht. set (P := λ k, In k ks ∨ ∃ n, k = looks n).
  assert (served_by P (foldl (λ s k, refreshIfStale k s) empty_cache ks)) as Hs.
  { apply run_served; [|by left]. apply List.Forall_forall. by left. }
  revert Hs. generalize (foldl (λ s k, refreshIfStale k s) empty_cache ks). intros s Hs H.
  destruct (verifyAndroidKeyAttestation J L looks i s) as [r s'] eqn:E. simpl in H. subst r.
  unfold verifyAndroidKeyAttestation in E. case_bool_decide; [done|]. case_bool_decide; [done|]. inv_io E.
  assert (a = certs) as -> by congruence. eapply (revoked_chain_refused P serial T Hlisted looks); [|exact Hc|done|exact Hs|].
  - intros n. split; [right; by exists n | apply Ht].
  - by rewrite Hio2, (match a2 with tt => eq_refl end : a2 = tt).
Qed.

End Soundness.

End Attestation.

(** A phone with a genuine key: the theorems above at a concrete enrolment, and at one with a revoked certificate. *)

Module AttestationDemo.
Import JsBuffer AuthDb AuthDevice AuthEnrol Attestation.

Definition tag (n : Z) (x : asn1) : asn1 := Constructed 3 n [x].
Definition hardware_list : list asn1 :=
  [tag 1 (ASet [AInteger 2]); tag 2 (AInteger 3); tag 5 (ASet [AInteger 4]); tag 10 (AInteger 1); tag 504 (AInteger 2);
   tag 702 (AInteger 0); tag 704 (Sequence [OctetString "key"; ABoolean true; Enumerated 0; OctetString "hash"])].
Definition software_list : list asn1 := [tag 509 OtherNode; tag 709 (OctetString "app")].
Definition description : asn1 :=
  Sequence [AInteger 200; Enumerated 1; AInteger 200; Enumerated 1; OctetString "chal"; OctetString ""; Sequence software_list;
            Sequence hardware_list].
Definition application : asn1 :=
  Sequence [ASet [Sequence [OctetString "com.vistablox.app"; AInteger 1]]; ASet [OctetString "k"]].

Definition cert (name issuer serial : string) (ca : option (bool * option Z)) (ext : option string) : Certificate :=
  mkCertificate 0 1000000 issuer name name serial ca (Some 32) (λ _, ext).
Definition leaf : Certificate := cert "leaf" "ca" "01" None (Some "description").
Definition issuer : Certificate := cert "ca" "root" "0ABC" (Some (true, Some 0)) None.
Definition root : Certificate := cert "root" "root" "02" (Some (true, None)) None.

Definition library : CertLibrary := mkCertLibrary
  (λ t, if String.eqb t "leaf" then Some leaf else if String.eqb t "ca" then Some issuer
        else if String.eqb t "root" then Some root else None)
  (λ c i _, Ok (String.eqb (issuerName c) (subjectName i))) (λ _, Some AuthDemo.jwk)
  (λ v, if String.eqb v "description" then Some description else if String.eqb v "app" then Some application else None) 32 (λ t, t).

Definition config : AndroidAttestationConfig := mkAndroidConfig disabled ["root"] ["6B"] None.
Definition served (at_ : Z) (entries : list string) : Lookup := mkLookup at_ (Some entries) at_ at_.

Definition clocks : EnrolClocks := mkEnrolClocks 2000 2000 2000 2100.
Definition enrol := EnrolDevice_execute OfferingDemo.demo_ulid AuthDemo.signer ["android"]
  (attest_key AuthDemo.signer library config (λ _, served 2050 []) ["leaf"; "ca"; "root"] None "chal" 2050 empty_cache)
  AuthDemo.slow_input clocks AuthDemo.a1.

Lemma enrolled_keys_are_attested_witness :
  let d := match enrol.1 with Ok d => d | Err _ => Device.mk "" "" "" "" "" JNull "" JNull DeviceStatus.active None None 0 0 end in
  attested AuthDemo.signer library ["leaf"; "ca"; "root"] config "chal" (Device.bioJkt d) 2050 ∧ In d (devices enrol.2).
Proof.
  apply (enrolled_keys_are_attested AuthDemo.signer library OfferingDemo.demo_ulid ["android"] config (λ _, served 2050 [])
    ["leaf"; "ca"; "root"] None 2050 empty_cache AuthDemo.slow_input clocks AuthDemo.a1). vm_compute. reflexivity.
Defined.

(** The intermediate's serial 0ABC is listed as abc from time 5000 on; three days later the list cannot be fetched. *)
Definition day : Z := 86400000.
Definition unreachable (at_ : Z) : Lookup := mkLookup at_ None at_ at_.
Definition late_input : AndroidKeyAttestationInput :=
  mkAttestationInput ["leaf"; "ca"; "root"] ["root"] ["6B"] "chal" "bio" 2050.

Lemma revocation_takes_effect_witness :
  (verifyAndroidKeyAttestation AuthDemo.signer library (λ _, unreachable (4 * day)) late_input
     (foldl (λ s k, refreshIfStale k s) empty_cache [served 1000 []; served (2 * day) ["abc"]])).1 ≠ Ok tt.
Proof.
  apply (revocation_takes_effect AuthDemo.signer library [served 1000 []; served (2 * day) ["abc"]] (λ _, unreachable (4 * day))
    late_input [leaf; issuer; root] issuer 2748 5000).
  - reflexivity.
  - right. by left.
  - reflexivity.
  - intros k entries [[<-|[<-|[]]]|[n ->]]; simpl; intros [= <-] Ht; [lia | by left].
  - intros n. vm_compute. reflexivity.
Defined.

End AttestationDemo.
