(* ===== verification/Dpop.v ===== *)
(** Proof of possession of a device key: the proof verifier
    (src/src/modules/auth/application/shared/dpop-proof-verifier.ts), the replay table
    (repository/shared/prisma-dpop-replay.repository.ts) and the helpers that bind a session to a
    key when it is created (infrastructure/shared/dpop-session-creation.ts,
    better-auth-dpop.plugin.ts).

    The four DPoP errors are kept as the 401 every caller turns them into; the WWW-Authenticate
    header it carries and the log lines are left out.  Numbers of a JSON text are whole. *)

From Stdlib Require Import Ascii String.
From S2P Require Import Prelude JsString DateTime IntakePolicy Db AuthDb AuthDevice AuthSessions.

Module Dpop.
Import AuthDb AuthDevice AuthSessions.

(** ** Errors *)

Definition DpopProofMissingError : error := AppError "DPOP_PROOF_MISSING" 401 [].
Definition DpopProofInvalidError (reason : string) : error := AppError "DPOP_PROOF_INVALID" 401 [reason].
Definition DpopReplayError : error := AppError "DPOP_REPLAY" 401 [].
Definition DpopKeyMismatchError : error := AppError "DPOP_KEY_MISMATCH" 401 [].

(** ** The URL a proof is for *)

(** What [new URL(...)] reads of the configured base URL. *)
Record Url := mkUrl { protocol : string; hostname : string; port : string }.

(** [text.split(/[?#]/, 1)[0]] *)
Fixpoint before_query (s : string) : string :=
  match s with
  | EmptyString => EmptyString
  | String c s => if bool_decide (c = "?"%char) || bool_decide (c = "#"%char) then EmptyString else String c (before_query s)
  end.

Definition is_default_port (base : Url) : bool :=
  bool_decide (port base = "") ||
  (bool_decide (protocol base = "https:") && bool_decide (port base = "443")) ||
  (bool_decide (protocol base = "http:") && bool_decide (port base = "80")).

Definition buildHtu (base : Url) (rawPathWithMaybeQuery : string) : string :=
  let path := before_query rawPathWithMaybeQuery in
  let host := if is_default_port base then JsString.toLowerCase (hostname base)
              else (JsString.toLowerCase (hostname base) ++ ":" ++ port base)%string in
  (protocol base ++ "//" ++ host ++ path)%string.

(** ** The verifier *)

Record DpopProofClaims := mkClaims { cl_jkt : string; cl_jti : string }.

Record ProofInput := mkProofInput {
  pi_header : option string; pi_method : string; pi_url : string; pi_bearerToken : option string }.

(** The libraries the verifier calls: [dj_header] is the parsed protected header of a proof's first part,
    [dj_verify] what jwtVerify answers with the embedded key at a time, [dj_thumbprint] calculateJwkThumbprint and
    [dj_ath] the base64url SHA-256 of a text. *)
Record DpopJose := mkDpopJose {
  dj_header : string → option json;
  dj_verify : Z → string → option (list (string * json));
  dj_thumbprint : json → string;
  dj_ath : string → string }.

Definition IAT_WINDOW_SECONDS : Z := 60.

(** [/^[A-Za-z0-9_-]{16,64}$/] *)
Definition is_base64url (c : ascii) : bool :=
  let k := JsString.char_code c in
  JsString.is_digit c || ((65 <=? k) && (k <=? 90)) || ((97 <=? k) && (k <=? 122)) || (k =? 95) || (k =? 45).
Definition JTI_PATTERN (s : string) : bool :=
  ((16 <=? String.length s) && (String.length s <=? 64))%nat && JsString.string_forallb is_base64url s.

Section Verifier.
Context (J : DpopJose).

(** The protected header, up to its key *)
Definition check_proof_header (header : string) : result json :=
  match JsString.split "."%char header with
  | [p0; _; _] =>
      match dj_header J p0 with
      | Some (JObj h) =>
          if negb (bool_decide (text_field "typ" h = Some "dpop+jwt")) then Err (DpopProofInvalidError "unexpected typ")
          else if negb (bool_decide (text_field "alg" h = Some "ES256")) then Err (DpopProofInvalidError "unsupported alg")
          else match field "jwk" h with
               | Some jwk => if isPublicP256Jwk (Some jwk) then Ok jwk else Err (DpopProofInvalidError "jwk")
               | None => Err (DpopProofInvalidError "jwk")
               end
      | Some (JArr _) => Err (DpopProofInvalidError "unexpected typ")
      | _ => Err (DpopProofInvalidError "malformed protected header")
      end
  | _ => Err (DpopProofInvalidError "malformed proof")
  end.

Definition check_proof_claims (i : ProofInput) (now : Z) (payload : list (string * json)) : result string :=
  if negb (bool_decide (text_field "htm" payload = Some (JsString.toUpperCase (pi_method i))))
    then Err (DpopProofInvalidError "htm mismatch")
  else if negb (bool_decide (text_field "htu" payload = Some (pi_url i))) then Err (DpopProofInvalidError "htu mismatch")
  else
  let! _ := match field "iat" payload with
            | Some (JNum iat) => if IAT_WINDOW_SECONDS <? Z.abs (now / 1000 - iat)
                                 then Err (DpopProofInvalidError "iat outside the allowed window") else Ok tt
            | _ => Err (DpopProofInvalidError "iat outside the allowed window")
            end in
  match text_field "jti" payload with
  | Some jti =>
      if negb (JTI_PATTERN jti) then Err (DpopProofInvalidError "invalid jti")
      else match pi_bearerToken i with
           | None => Ok jti
           | Some bearer => if negb (bool_decide (text_field "ath" payload = Some (dj_ath J bearer)))
                            then Err (DpopProofInvalidError "ath mismatch") else Ok jti
           end
  | None => Err (DpopProofInvalidError "invalid jti")
  end.

Definition verifyDpopProof (i : ProofInput) (now : Z) : result DpopProofClaims :=
  match JsString.trim <$> pi_header i with
  | None | Some EmptyString => Err DpopProofMissingError
  | Some header =>
      let! jwk := check_proof_header header in
      match dj_verify J now header with
      | None => Err (DpopProofInvalidError "signature verification failed")
      | Some payload =>
          let! jti := check_proof_claims i now payload in
          Ok (mkClaims (dj_thumbprint J jwk) jti)
      end
  end.

End Verifier.

(** ** The replay table *)

Module Replay.
Record t := mk { jkt : string; jti : string; expiresAt : Z }.
Definition is_for (k i : string) (r : t) : bool := bool_decide (jkt r = k) && bool_decide (jti r = i).
End Replay.

(** What a request to the API sees: the auth tables, the replay table, and the claims already verified for a
    request in progress (the WeakMap dpopClaimsByRequest). *)
Record gate := mkGate {
  g_auth : auth; g_replays : list Replay.t; g_verified : list (nat * DpopProofClaims) }.

Definition set_auth (v : auth) (g : gate) : gate := mkGate v (g_replays g) (g_verified g).
Definition set_replays (v : list Replay.t) (g : gate) : gate := mkGate (g_auth g) v (g_verified g).
Definition set_verified (v : list (nat * DpopProofClaims)) (g : gate) : gate := mkGate (g_auth g) (g_replays g) v.

(** INSERT ... ON CONFLICT DO NOTHING *)
Definition recordProof (jkt jti : string) (expiresAt : Z) : io gate bool := λ g,
  if exists_row (Replay.is_for jkt jti) (g_replays g) then (Ok false, g)
  else (Ok true, set_replays (Replay.mk jkt jti expiresAt :: g_replays g) g).

Definition pruneExpiredReplays (now : Z) : io gate nat := λ g,
  let expired := λ r, Replay.expiresAt r <? now in
  (Ok (length (List.filter expired (g_replays g))),
   set_replays (List.filter (λ r, negb (expired r)) (g_replays g)) g).

Record DpopOptions := mkDpopOptions {
  baseUrl : Url; replayWindowSeconds : option Z; phase1CutoverAt : option Z }.

Definition replay_window (o : option Z) : Z := default 120 o.

(** recordProof with the expiry of a window that starts at [now] *)
Definition record_for_window (window : option Z) (claims : DpopProofClaims) (now : Z) : io gate bool :=
  recordProof (cl_jkt claims) (cl_jti claims) (now + replay_window window * 1000).

Definition isPreCutover (cutover : option Z) (sessionCreatedAt : Z) : bool :=
  match cutover with None => true | Some c => sessionCreatedAt <? c end.

(** A computation whose failure is caught and dropped. *)
Definition attempted {A} (m : result A) : option A := match m with Ok a => Some a | Err _ => None end.

(** The two readings of the clock on the way of a proof. *)
Record Moments := mkMoments { at_verify : Z; at_record : Z }.

(** ** A proof on a request that has a session *)

Inductive DpopSessionDecision := pass | bind (jkt : string).

Section Decide.
Context (J : DpopJose).

Definition decideDpopForSession (i : ProofInput) (boundJkt : option string) (sessionCreatedAt : Z) (cutover window : option Z)
    (onVerified : DpopProofClaims → io gate unit) (at_ : Moments) : io gate DpopSessionDecision :=
  match boundJkt with
  | Some bound =>
      await claims := lift (verifyDpopProof J i (at_verify at_)) in
      if negb (bool_decide (cl_jkt claims = bound)) then throw DpopKeyMismatchError
      else
      await accepted := record_for_window window claims (at_record at_) in
      if negb accepted then throw DpopReplayError
      else await _ := onVerified claims in ret pass
  | None =>
      match pi_header i with
      | None => ret pass
      | Some _ =>
          match attempted (verifyDpopProof J i (at_verify at_)) with
          | None => ret pass
          | Some claims =>
              if negb (isPreCutover cutover sessionCreatedAt) then throw DpopKeyMismatchError
              else
              await accepted := record_for_window window claims (at_record at_) in
              if negb accepted then ret pass
              else await _ := onVerified claims in ret (bind (cl_jkt claims))
          end
      end
  end.

End Decide.

(** ** Sessions that are being created *)

(** The Fetch request of a Better Auth call: which call it is, and what of it a proof covers *)
Record FetchRequest := mkFetch { fr_id : nat; fr_method : string; fr_pathname : string }.
Record FetchHeaders := mkFetchHeaders { fh_dpop : option string; fh_authorization : option string }.
Record DpopCreationContext := mkContext { cx_headers : option FetchHeaders; cx_request : option FetchRequest }.

(** [slice(0, 7).toLowerCase() === "bearer " ? slice(7) : undefined] *)
Definition bearer_of (authorization : option string) : option string :=
  match authorization with
  | Some h => if bool_decide (JsString.toLowerCase (JsString.slice0 7 h) = "bearer ") then Some (JsString.slice_from 7 h) else None
  | None => None
  end.

Definition isSessionUpgradeCeremonyPath (path : option string) : bool :=
  bool_decide (path = Some "/passkey/verify-authentication") ||
  bool_decide (path = Some "/passkey/verify-registration") ||
  bool_decide (path = Some "/device/enrol/verify") ||
  bool_decide (path = Some "/device/login/verify").

Definition rememberVerifiedDpopProof (request : nat) (claims : DpopProofClaims) : io gate unit := λ g,
  (Ok tt, set_verified ((request, claims) :: g_verified g) g).

Definition verified_claims (request : nat) (g : gate) : option DpopProofClaims :=
  snd <$> find_row (λ kv, Nat.eqb kv.1 request) (g_verified g).

Section Creation.
Context (J : DpopJose).

Definition fetch_proof (o : DpopOptions) (r : FetchRequest) (h : option string) (bearer : option string) : ProofInput :=
  mkProofInput h (fr_method r) (buildHtu (baseUrl o) (fr_pathname r)) bearer.

Definition tryBindDpopAtCreation (context : option DpopCreationContext) (dpop : option DpopOptions) (at_ : Moments) :
    io gate (option string) := λ g,
  match dpop, context with
  | None, _ => (Ok None, g)
  | Some o, None => (Ok None, g)
  | Some o, Some cx =>
      match cx_request cx ≫= λ r, verified_claims (fr_id r) g with
      | Some claims => (Ok (Some (cl_jkt claims)), g)
      | None =>
          match cx_headers cx, cx_request cx with
          | Some hs, Some r =>
              match fh_dpop hs with
              | None => (Ok None, g)
              | Some header =>
                  match attempted (verifyDpopProof J (fetch_proof o r (Some header) (bearer_of (fh_authorization hs))) (at_verify at_)) with
                  | None => (Ok None, g)
                  | Some claims =>
                      (await accepted := record_for_window (replayWindowSeconds o) claims (at_record at_) in
                       ret (if accepted : bool then Some (cl_jkt claims) else None)) g
                  end
              end
          | _, _ => (Ok None, g)
          end
      end
  end.

Definition verifyAndCacheDpopProof (cx : DpopCreationContext) (dpop : option DpopOptions) (ignoreAuthorizationHeader : bool)
    (at_ : Moments) : io gate DpopProofClaims :=
  let header := cx_headers cx ≫= fh_dpop in
  let authHeader := if ignoreAuthorizationHeader then None else cx_headers cx ≫= fh_authorization in
  match dpop, cx_request cx with
  | Some o, Some r =>
      await claims := lift (verifyDpopProof J (fetch_proof o r header (bearer_of authHeader)) (at_verify at_)) in
      await accepted := record_for_window (replayWindowSeconds o) claims (at_record at_) in
      if negb accepted then throw DpopReplayError
      else
      await _ := rememberVerifiedDpopProof (fr_id r) claims in
      ret claims
  | _, _ => throw DpopProofMissingError
  end.

Definition requireDpopProofForSessionCreation := verifyAndCacheDpopProof.

Definition assertDpopKeyMatchesPendingSession (cx : DpopCreationContext) (boundJkt : string) (dpop : option DpopOptions)
    (at_ : Moments) : io gate unit :=
  await claims := verifyAndCacheDpopProof cx dpop false at_ in
  if negb (bool_decide (cl_jkt claims = boundJkt)) then throw DpopKeyMismatchError else ret tt.

Definition resolvePendingSessionDpopKey (cx : DpopCreationContext) (boundJkt : option string) (sessionCreatedAt : Z)
    (dpop : option DpopOptions) (at_ : Moments) : io gate unit :=
  match dpop with
  | None => ret tt
  | Some o =>
      match boundJkt with
      | Some k => assertDpopKeyMatchesPendingSession cx k dpop at_
      | None =>
          match cx_headers cx ≫= fh_dpop with
          | None => ret tt
          | Some _ => λ g,
              match requireDpopProofForSessionCreation cx dpop false at_ g with
              | (Err _, g') => (Ok tt, g')
              | (Ok _, g') =>
                  if negb (isPreCutover (phase1CutoverAt o) sessionCreatedAt) then (Err DpopKeyMismatchError, g') else (Ok tt, g')
              end
          end
      end
  end.

(** The before-hook of the DPoP plugin on an /api/auth call, [current] being the session getSessionForHook found and
    [updateSession] the internal adapter's write of a session's key. *)
Definition dpop_before_hook (updateSession : string → string → list BaSession.t → list BaSession.t) (o : DpopOptions)
    (path : option string) (r : FetchRequest) (hs : option FetchHeaders) (current : option BaSession.t) (at_ : Moments) :
    io gate unit :=
  if isSessionUpgradeCeremonyPath path then ret tt
  else match current with
       | None => ret tt
       | Some x =>
           await decision := decideDpopForSession J (fetch_proof o r (hs ≫= fh_dpop) (bearer_of (hs ≫= fh_authorization)))
             (BaSession.dpopJkt x) (BaSession.createdAt x) (phase1CutoverAt o) (replayWindowSeconds o)
             (rememberVerifiedDpopProof (fr_id r)) at_ in
           match decision with
           | pass => ret tt
           | bind jkt => λ g,
               (Ok tt, set_auth (set_sessions (updateSession (BaSession.token x) jkt (sessions (g_auth g))) (g_auth g)) g)
           end
       end.

End Creation.

End Dpop.
