(* ===== verification/AuthPaths.v ===== *)
(** Which /api/auth paths are let through (src/src/modules/auth/domain/disabled-auth-routes.ts,
    api/shared/reject-disabled-auth.ts, infrastructure/shared/better-auth-disabled-routes.plugin.ts).

    The guard judges the request target as it arrived; the router behind it routes on the pathname of the URL that its
    node adapter builds from the target and from the Host and X-Forwarded-Proto headers, and the plugin judges that pathname
    once more.  [url_pathname] is a path as the URL standard parses it: dot segments, also percent-encoded, are resolved, a
    backslash is a slash, tabs and line breaks are dropped and characters outside the path set are encoded. *)

From Stdlib Require Import Ascii String.
From S2P Require Import Prelude JsString Db Dpop.

Module AuthPaths.
Import JsString Dpop.

(** ** disabled-auth-routes.ts *)

Definition AUTH_BASE_PATH : string := "/api/auth".

Definition is_alnum (c : ascii) : bool :=
  let k := char_code c in is_digit c || ((65 <=? k) && (k <=? 90)) || ((97 <=? k) && (k <=? 122)).

(** [A-Za-z0-9._~-] *)
Definition is_unreserved (c : ascii) : bool :=
  is_alnum c || bool_decide (c = "."%char) || bool_decide (c = "_"%char) || bool_decide (c = "~"%char) || bool_decide (c = "-"%char).

Definition nonempty (s : string) : bool := match s with EmptyString => false | _ => true end.

Definition CANONICAL_SEGMENT (s : string) : bool := nonempty s && string_forallb is_unreserved s.
Definition DOTS_ONLY (s : string) : bool := nonempty s && string_forallb (λ c, bool_decide (c = "."%char)) s.

(** What follows a prefix, if the text starts with it *)
Fixpoint after_prefix (p s : string) : option string :=
  match p, s with
  | EmptyString, _ => Some s
  | String a p, String b s => if bool_decide (a = b) then after_prefix p s else None
  | _, EmptyString => None
  end.

Definition isCanonicalAuthPath (pathname : string) : bool :=
  match after_prefix (AUTH_BASE_PATH ++ "/")%string pathname with
  | None => false
  | Some rest => forallb (λ segment, CANONICAL_SEGMENT segment && negb (DOTS_ONLY segment)) (split "/"%char rest)
  end.

Definition is_slash (c : ascii) : bool := bool_decide (c = "/"%char).

(** A prefix and then any number of slashes *)
Definition matches_with_slashes (p path : string) : bool :=
  match after_prefix p path with Some rest => string_forallb is_slash rest | None => false end.
(** A prefix and then a slash or the end *)
Definition matches_prefix (p path : string) : bool :=
  match after_prefix p path with Some EmptyString => true | Some (String c _) => is_slash c | None => false end.

Definition CREDENTIAL_EMAIL_PATH (path : string) : bool :=
  matches_with_slashes "/api/auth/sign-in/email" path || matches_with_slashes "/api/auth/sign-up/email" path.
Definition EMAIL_OTP_PATH (path : string) : bool :=
  matches_prefix "/api/auth/email-otp" path || matches_prefix "/api/auth/sign-in/email-otp" path.
Definition PASSKEY_DELETE_PATH : string → bool := matches_with_slashes "/api/auth/passkey/delete-passkey".
Definition EXPO_AUTHORIZATION_PROXY_PATH : string → bool := matches_with_slashes "/api/auth/expo-authorization-proxy".

Definition isDisabledAuthPath (pathname : string) : bool :=
  let path := toLowerCase pathname in
  includes "password" path || CREDENTIAL_EMAIL_PATH path || EMAIL_OTP_PATH path || PASSKEY_DELETE_PATH path ||
  EXPO_AUTHORIZATION_PROXY_PATH path.

Definition isAuthPathAllowed (rawPathname : string) : bool := isCanonicalAuthPath rawPathname && negb (isDisabledAuthPath rawPathname).

(** ** The two layers *)

Definition pathOf (target : string) : string := before_query target.

Definition rejectDisabledAuthRoutes (url : string) : result unit :=
  if negb (isAuthPathAllowed (pathOf url)) then Err (AppError "resource.not_found" 404 []) else Ok tt.

(** The plugin's onRequest on the pathname the router is about to use: a 404, or on to the router *)
Definition disabled_routes_onRequest (pathname : string) : result unit :=
  if negb (isDisabledAuthPath pathname) then Ok tt else Err (AppError "Not Found" 404 []).

(** ** The URL standard's pathname *)

Definition is_separator (c : ascii) : bool := is_slash c || bool_decide (c = "\"%char).
Definition is_dropped (c : ascii) : bool := let k := char_code c in (k =? 9) || (k =? 10) || (k =? 13).

Fixpoint drop_breaks (s : string) : string :=
  match s with EmptyString => EmptyString | String c s => if is_dropped c then drop_breaks s else String c (drop_breaks s) end.

Fixpoint url_segments (s : string) : list string :=
  match s with
  | EmptyString => [EmptyString]
  | String c s =>
      if is_separator c then EmptyString :: url_segments s
      else match url_segments s with p :: ps => String c p :: ps | [] => [String c EmptyString] end
  end.

Definition is_single_dot (s : string) : bool := bool_decide (toLowerCase s ∈ ["."; "%2e"]).
Definition is_double_dot (s : string) : bool := bool_decide (toLowerCase s ∈ [".."; ".%2e"; "%2e."; "%2e%2e"]).

(** Characters a path keeps; [encode] stands for the percent-encoding of another *)
Definition path_char (c : ascii) : bool :=
  let k := char_code c in (33 <=? k) && (k <=? 126) && negb (bool_decide (k ∈ [34; 35; 60; 62; 63; 94; 96; 123; 125])).

Section Url.
Context (encode : ascii → string).

Fixpoint encoded (s : string) : string :=
  match s with EmptyString => EmptyString | String c s => ((if path_char c then String c EmptyString else encode c) ++ encoded s)%string end.

(** The path so far, the last segment first *)
Fixpoint resolve_dots (path : list string) (segments : list string) : list string :=
  match segments with
  | [] => path
  | seg :: rest =>
      let last := match rest with [] => true | _ => false end in
      if is_double_dot seg then resolve_dots (if last then "" :: tail path else tail path) rest
      else if is_single_dot seg then resolve_dots (if last then "" :: path else path) rest
      else resolve_dots (encoded seg :: path) rest
  end.

Fixpoint join (segments : list string) : string :=
  match segments with [] => "" | [s] => s | s :: rest => (s ++ String "/"%char (join rest))%string end.

(** Of a path that starts with a separator *)
Definition url_pathname (path : string) : string :=
  match drop_breaks path with
  | String c s => if is_separator c then String "/"%char (join (rev (resolve_dots [] (url_segments s))))
                  else String "/"%char (join (rev (resolve_dots [] (url_segments (String c s)))))
  | EmptyString => "/"
  end.

(** ** A canonical path is its own pathname *)

Lemma char_in_forallb (p q : ascii → bool) s : (∀ c, p c = true → q c = true) → string_forallb p s = true → string_forallb q s = true.
Proof. intros H. induction s as [|c s IH]; simpl; [done|]. intros [? ?]%andb_true_iff. rewrite H by done. by apply IH. Qed.

(** The characters of canonical paths, checked one by one. *)
Definition plain (c : ascii) : bool := path_char c && negb (is_dropped c) && negb (bool_decide (c = "\"%char)) && negb (bool_decide (c = "%"%char)).

Lemma all_ascii (p : ascii → bool) : forallb (λ n, p (ascii_of_nat n)) (seq 0 256) = true → ∀ c, p c = true.
Proof.
  intros H c. rewrite forallb_forall in H. rewrite <-(ascii_nat_embedding c). apply H. apply in_seq.
  pose proof (nat_ascii_bounded c). lia.
Qed.

Lemma unreserved_plain c : is_unreserved c || is_slash c = true → plain c = true.
Proof.
  pose proof (all_ascii (λ c, negb (is_unreserved c || is_slash c) || plain c)) as H.
  specialize (H ltac:(vm_compute; reflexivity) c). simpl in H. intros E. by rewrite E in H.
Qed.

Lemma drop_breaks_plain s : string_forallb plain s = true → drop_breaks s = s.
Proof.
  induction s as [|c s IH]; simpl; [done|]. intros [H Hs]%andb_true_iff. unfold plain in H.
  destruct (is_dropped c); [by rewrite andb_false_r in H|]. by rewrite IH.
Qed.

Lemma url_segments_plain s : string_forallb plain s = true → url_segments s = split "/"%char s.
Proof.
  induction s as [|c s IH]; simpl; [done|]. intros [H Hs]%andb_true_iff. rewrite IH by done.
  unfold is_separator, is_slash. unfold plain in H. destruct (bool_decide (c = "\"%char)); [by rewrite andb_false_r in H|].
  rewrite orb_false_r. by destruct (bool_decide (c = "/"%char)).
Qed.

Lemma encoded_plain s : string_forallb plain s = true → encoded s = s.
Proof.
  induction s as [|c s IH]; simpl; [done|]. intros [H Hs]%andb_true_iff. rewrite IH by done.
  unfold plain in H. by destruct (path_char c).
Qed.

Lemma split_nonempty c s : split c s ≠ [].
Proof. destruct s as [|a s]; simpl; [done|]. by repeat case_match. Qed.

Lemma join_split s : join (split "/"%char s) = s.
Proof.
  induction s as [|c s IH]; [done|]. simpl. case_bool_decide as E.
  - subst c. destruct (split "/"%char s) eqn:Es; [by apply split_nonempty in Es|]. simpl. simpl in IH. by rewrite <-IH.
  - destruct (split "/"%char s) as [|p ps] eqn:Es; [by apply split_nonempty in Es|].
    rewrite <-IH. by destruct ps.
Qed.

Lemma split_forallb (p : ascii → bool) c s : string_forallb p s = true → forallb (string_forallb p) (split c s) = true.
Proof.
  induction s as [|a s IH]; simpl; [done|]. intros [H Hs]%andb_true_iff. specialize (IH Hs).
  case_bool_decide; [done|]. destruct (split c s); simpl in *; [by rewrite H|].
  apply andb_true_iff in IH as [-> ->]. by rewrite H.
Qed.

Lemma forallb_lower (p : ascii → bool) s : (∀ c, p (lower c) = p c) → string_forallb p (toLowerCase s) = string_forallb p s.
Proof. intros H. induction s as [|c s IH]; simpl; [done|]. by rewrite H, IH. Qed.

Definition is_dot (c : ascii) : bool := bool_decide (c = "."%char).
Definition not_percent (c : ascii) : bool := negb (bool_decide (c = "%"%char)).

Lemma lower_dot c : is_dot (lower c) = is_dot c.
Proof. apply eqb_prop. apply (all_ascii (λ c, eqb (is_dot (lower c)) (is_dot c))). vm_compute. reflexivity. Qed.
Lemma lower_percent c : not_percent (lower c) = not_percent c.
Proof. apply eqb_prop. apply (all_ascii (λ c, eqb (not_percent (lower c)) (not_percent c))). vm_compute. reflexivity. Qed.

(** Without percent signs, the segments the URL parser takes for dots are dots. *)
Lemma dot_segment s : string_forallb plain s = true → is_single_dot s || is_double_dot s = true → DOTS_ONLY s = true.
Proof.
  intros Hp H. assert (string_forallb not_percent (toLowerCase s) = true) as Hn.
  { rewrite forallb_lower by apply lower_percent. eapply char_in_forallb; [|exact Hp]. intros c Hc. unfold plain in Hc.
    by apply andb_true_iff in Hc as [_ ?]. }
  unfold DOTS_ONLY. fold is_dot. rewrite <-(forallb_lower is_dot) by apply lower_dot.
  assert (toLowerCase s = "." ∨ toLowerCase s = "..") as E.
  { unfold is_single_dot, is_double_dot in H. apply orb_true_iff in H. rewrite !bool_decide_eq_true, !elem_of_cons, !elem_of_nil in H.
    destruct H as [[H|[H|[]]]|[H|[H|[H|[H|[]]]]]]; auto; rewrite H in Hn; discriminate Hn. }
  destruct s; destruct E as [E|E]; try discriminate E; by rewrite E.
Qed.

Definition good_segment (s : string) : Prop := string_forallb plain s = true ∧ DOTS_ONLY s = false.

Lemma resolve_dots_good segments path : Forall good_segment segments → resolve_dots path segments = rev segments ++ path.
Proof.
  intros H. revert path. induction H as [|seg rest [Hp Hd] _ IH]; intros path; [done|]. cbn [resolve_dots rev].
  pose proof (dot_segment seg Hp) as Hdot.
  destruct (is_double_dot seg), (is_single_dot seg); try (rewrite Hdot in Hd by done; discriminate Hd).
  rewrite encoded_plain by done. rewrite IH. by rewrite <-app_assoc.
Qed.

Lemma after_prefix_spec p s rest : after_prefix p s = Some rest → s = (p ++ rest)%string.
Proof.
  revert s. induction p as [|a p IH]; intros s; simpl; [by intros [= ->]|]. destruct s as [|b s]; [done|].
  case_bool_decide as E; [|done]. intros H%IH. by subst.
Qed.

Lemma split_chars (p : ascii → bool) s : forallb (string_forallb p) (split "/"%char s) = true →
  string_forallb (λ c, p c || is_slash c) s = true.
Proof.
  induction s as [|c s IH]; simpl; [done|]. unfold is_slash. case_bool_decide as E.
  - simpl. intros H. rewrite orb_true_r. by apply IH.
  - destruct (split "/"%char s) as [|q qs] eqn:Es; [by apply split_nonempty in Es|]. simpl. rewrite orb_false_r.
    intros [[-> Hq]%andb_true_iff Hqs]%andb_true_iff. simpl. apply IH. simpl. by rewrite Hq.
Qed.

Lemma canonical_pathname path : isCanonicalAuthPath path = true → url_pathname path = path.
Proof.
  unfold isCanonicalAuthPath. destruct (after_prefix _ path) as [rest|] eqn:E; [|done]. intros H.
  apply after_prefix_spec in E. subst path.
  assert (∀ seg, In seg (split "/"%char rest) → good_segment seg ∧ string_forallb is_unreserved seg = true) as Hseg.
  { intros seg Hs. rewrite forallb_forall in H. specialize (H seg Hs). unfold CANONICAL_SEGMENT in H. boolify.
    split; [split; [|done]|done]. eapply char_in_forallb; [|eassumption]. intros c Hc. apply unreserved_plain. by rewrite Hc. }
  assert (string_forallb plain rest = true) as Hr.
  { apply (char_in_forallb (λ c, is_unreserved c || is_slash c)); [apply unreserved_plain|]. apply split_chars.
    apply forallb_forall. intros seg Hs. by apply Hseg. }
  change ((AUTH_BASE_PATH ++ "/") ++ rest)%string with (String "/"%char ("api/auth/" ++ rest)%string).
  assert (string_forallb plain (String "/"%char ("api/auth/" ++ rest)%string) = true) as Hb by exact Hr.
  unfold url_pathname. rewrite drop_breaks_plain by exact Hb.
  change (is_separator "/"%char) with true. cbv iota. rewrite url_segments_plain by exact Hr. rewrite resolve_dots_good.
  - rewrite app_nil_r, rev_involutive. by rewrite join_split.
  - cbn. repeat (constructor; [by split|]). apply Forall_forall. intros seg Hs. by apply Hseg, list_elem_of_In.
Qed.

End Url.

(** ** The two layers together *)

Lemma after_prefix_app p s : after_prefix p (p ++ s)%string = Some s.
Proof. induction p as [|a p IH]; simpl; [done|]. by rewrite bool_decide_eq_true_2. Qed.

(** The endpoints that are switched off, in any letter case and with any trailing slashes; those of the one-time codes with
    everything below them; and every path that speaks of passwords. *)
Definition switched_off (pathname : string) : Prop :=
  let path := toLowerCase pathname in
  (∃ e slashes, In e ["/api/auth/sign-in/email"; "/api/auth/sign-up/email"; "/api/auth/passkey/delete-passkey";
                      "/api/auth/expo-authorization-proxy"] ∧
     string_forallb is_slash slashes = true ∧ path = (e ++ slashes)%string) ∨
  (∃ e rest, In e ["/api/auth/email-otp"; "/api/auth/sign-in/email-otp"] ∧
     (path = e ∨ path = (e ++ String "/"%char rest)%string)) ∨
  includes "password" path = true.

Lemma switched_off_disabled path : switched_off path → isDisabledAuthPath path = true.
Proof.
  unfold switched_off, isDisabledAuthPath, CREDENTIAL_EMAIL_PATH, EMAIL_OTP_PATH, PASSKEY_DELETE_PATH, EXPO_AUTHORIZATION_PROXY_PATH.
  set (p := toLowerCase path). intros [(e & sl & He & Hs & ->)|[(e & r & He & Hp)|Hw]]; [| |by rewrite Hw].
  - assert (matches_with_slashes e (e ++ sl)%string = true) as H by (unfold matches_with_slashes; by rewrite after_prefix_app).
    destruct He as [<-|[<-|[<-|[<-|[]]]]]; rewrite H; by rewrite ?orb_true_r.
  - assert (matches_prefix e p = true) as H.
    { unfold matches_prefix. destruct Hp as [->| ->]; [|by rewrite after_prefix_app].
      pose proof (after_prefix_app e "") as E. rewrite append_empty_r in E. by rewrite E. }
    destruct He as [<-|[<-|[]]]; rewrite H; by rewrite ?orb_true_r.
Qed.

Section Layers.
(** What the node adapter of the router makes of a request: [H] are its headers, [routed h target] the pathname of the URL it
    builds from the target and the Host and X-Forwarded-Proto headers, if it builds one.  With ordinary headers ([ordinary]:
    a host name and a scheme) that is the pathname of the target; other headers can move it anywhere. *)
Context (encode : ascii → string) {H : Type} (routed : H → string → option string) (ordinary : H → Prop).
Hypothesis ordinary_routed : ∀ h target, ordinary h → isCanonicalAuthPath (pathOf target) = true →
  routed h target = Some (url_pathname encode (pathOf target)).

(** The guard in front of Better Auth judges the target, the plugin inside it the pathname that is about to be routed. *)
Definition auth_request (h : H) (target : string) : result string :=
  let! _ := rejectDisabledAuthRoutes target in
  match routed h target with
  | None => Err (Thrown "TypeError: Invalid URL")
  | Some pathname => let! _ := disabled_routes_onRequest pathname in Ok pathname
  end.

(** C13: no request reaches a switched-off endpoint, whatever its target and its headers: the pathname that is routed,
    whichever way the headers bend it, is none of them in any letter case or with trailing slashes.  With ordinary headers a
    request is routed exactly when its target's path is canonical and not switched off, and then under that very path: the
    guard in front judges what is routed. *)
Theorem guard_judges_the_routed_path h target :
  (∀ pathname, auth_request h target = Ok pathname → routed h target = Some pathname ∧ ¬ switched_off pathname) ∧
  (ordinary h → ∀ pathname, auth_request h target = Ok pathname ↔
     pathname = pathOf target ∧ isCanonicalAuthPath pathname = true ∧ isDisabledAuthPath pathname = false).
Proof.
  unfold auth_request, rejectDisabledAuthRoutes, disabled_routes_onRequest, isAuthPathAllowed. split.
  - intros p E. destruct (negb (_ && _)) in E; [done|]. simpl in E. destruct (routed h target) as [q|]; [|done].
    destruct (isDisabledAuthPath q) eqn:Ed; [done|]. injection E as <-. split; [done|].
    intros Hs%switched_off_disabled. congruence.
  - intros Ho p. destruct (isCanonicalAuthPath (pathOf target)) eqn:Ec; simpl.
    2:{ split; [done|]. intros (-> & Hc & _). congruence. }
    destruct (isDisabledAuthPath (pathOf target)) eqn:Ed; simpl.
    { split; [done|]. intros (-> & _ & Hd). congruence. }
    rewrite (ordinary_routed _ _ Ho Ec), canonical_pathname by done. rewrite Ed. simpl.
    split; [intros [= <-]; done | by intros (-> & _)].
Qed.

End Layers.

(** Encoded by a percent sign and two digits, as far as the examples need. *)
Definition percent (c : ascii) : string := if bool_decide (c = " "%char) then "%20" else "%25".

(** An adapter that builds http://host + target and parses it: the path starts at the first separator. *)
Definition ends_authority (c : ascii) : bool := is_separator c || bool_decide (c = "?"%char) || bool_decide (c = "#"%char).

Fixpoint after_authority (s : string) : string :=
  match s with
  | EmptyString => EmptyString
  | String c r => if ends_authority c then s else after_authority r
  end.

Definition demo_routed (host target : string) : option string :=
  match after_authority (host ++ target)%string with
  | String c r => Some (if is_separator c then url_pathname percent (pathOf (String c r)) else "/")
  | EmptyString => Some "/"
  end.

Definition demo_ordinary (host : string) : Prop := string_forallb (λ c, negb (ends_authority c)) host = true.

Lemma demo_ordinary_routed h target : demo_ordinary h → isCanonicalAuthPath (pathOf target) = true →
  demo_routed h target = Some (url_pathname percent (pathOf target)).
Proof.
  unfold demo_ordinary, demo_routed. intros Hh Hc. assert (∃ r, target = String "/"%char r) as [r ->].
  { destruct target as [|c r]; [done|]. exists r. f_equal. unfold isCanonicalAuthPath in Hc.
    destruct (after_prefix _ _) as [rest|] eqn:E in Hc; [|done]. apply after_prefix_spec in E. unfold pathOf in E.
    revert E. simpl. by repeat case_match; intros [= ? _]. }
  induction h as [|c h IH]; simpl; [done|]. simpl in Hh. apply andb_true_iff in Hh as [Hn Hh].
  destruct (ends_authority c); [done|]. by apply IH.
Qed.

Lemma guard_judges_the_routed_path_witness :
  auth_request demo_routed "api.vistablox.eu" "/api/auth/passkey/update-passkey?id=1" = Ok "/api/auth/passkey/update-passkey" ∧
  ¬ switched_off "/api/auth/passkey/update-passkey".
Proof.
  destruct (guard_judges_the_routed_path percent demo_routed demo_ordinary demo_ordinary_routed "api.vistablox.eu"
    "/api/auth/passkey/update-passkey?id=1") as [H1 H2].
  assert (auth_request demo_routed "api.vistablox.eu" "/api/auth/passkey/update-passkey?id=1" =
    Ok "/api/auth/passkey/update-passkey") as E by (apply H2; [reflexivity|]; split; [reflexivity|]; split; vm_compute; reflexivity).
  split; [exact E|]. exact (proj2 (H1 _ E)).
Defined.

(** The Host the source names: it takes a harmless target past the guard in front, and the plugin refuses it. *)
Example forged_host :
  rejectDisabledAuthRoutes "/api/auth/get-session" = Ok tt ∧
  demo_routed "x/api/auth/passkey/delete-passkey?" "/api/auth/get-session" = Some "/api/auth/passkey/delete-passkey" ∧
  auth_request demo_routed "x/api/auth/passkey/delete-passkey?" "/api/auth/get-session" = Err (AppError "Not Found" 404 []).
Proof. split; [|split]; vm_compute; reflexivity. Qed.

(** The spelling the source names: it is routed as the disabled endpoint, and refused. *)
Example encoded_dots :
  url_pathname percent "/api/auth/x/%2e%2e/passkey/delete-passkey" = "/api/auth/passkey/delete-passkey" ∧
  rejectDisabledAuthRoutes "/api/auth/x/%2e%2e/passkey/delete-passkey" = Err (AppError "resource.not_found" 404 []).
Proof. split; vm_compute; reflexivity. Qed.

End AuthPaths.
