(* ===== verification/Gateway.v ===== *)
(** The way into the /v1 API: who a request is (better-auth-session.resolver.ts with the hooks of
    better-auth-device-session-lifetime.plugin.ts), the proof it has to carry and the account it acts for
    (api/shared/require-authentication.ts, api/customer/require-dpop-only.ts), and the guards behind it
    (require-fresh-authentication.ts, require-staff-role.ts).

    Better Auth's getSession and findSession are parameters. *)

From Stdlib Require Import Ascii String.
From S2P Require Import Prelude JsString DateTime IntakePolicy Db AuthDb AuthDevice AuthSessions Dpop.

Module Gateway.
Import AuthDb AuthSessions Dpop.

(** ** Requests *)

Inductive HeaderValue := absent | one (v : string) | many (vs : list string).

Record Request := mkRequest {
  rq_method : string; rq_originalUrl : string; rq_dpop : HeaderValue; rq_authorization : option string;
  rq_cookie : option string }.

Definition readDpopHeader (r : Request) : option string := match rq_dpop r with one v => Some v | _ => None end.
Definition readBearerToken (r : Request) : option string := bearer_of (rq_authorization r).

(** ** Better Auth's session reads *)

Record Found := mkFound { f_session : BaSession.t; f_user : User.t }.

(** What a get-session call did: its answer, the session it put on the request context, and the rows it left. *)
Record SessionRead := mkSessionRead { sr_returned : option Found; sr_stored : option Found; sr_rows : list BaSession.t }.

Class SessionApi := {
  findSession : string → auth → option Found;
  getSession : (string → option Found) → Request → Z → list BaSession.t → SessionRead }.

(** The columns Better Auth's refresh of a session leaves alone *)
Definition same_session (x y : BaSession.t) : Prop :=
  BaSession.id x = BaSession.id y ∧ BaSession.token x = BaSession.token y ∧ BaSession.userId x = BaSession.userId y ∧
  BaSession.dpopJkt x = BaSession.dpopJkt y ∧ BaSession.authenticationLevel x = BaSession.authenticationLevel y ∧
  BaSession.createdAt x = BaSession.createdAt y.

(** Documented behaviour: findSession answers a stored session with its user; getSession answers a session the lookup
    it is given found and that has not expired by then, and apart from ending sessions it only refreshes the times of one whose
    refresh is not skipped, as the device plugin asks for the sessions it limits. *)
Class SessionApiLaws (A : SessionApi) : Prop := {
  findSession_spec tok s f : findSession tok s = Some f →
    In (f_session f) (sessions s) ∧ In (f_user f) (users s) ∧ BaSession.token (f_session f) = tok ∧
    User.id (f_user f) = BaSession.userId (f_session f);
  getSession_stored find r t l f : sr_stored (getSession find r t l) = Some f → ∃ tok, find tok = Some f;
  getSession_returned find r t l f : sr_returned (getSession find r t l) = Some f →
    ∃ f0, sr_stored (getSession find r t l) = Some f0 ∧ f_user f = f_user f0 ∧
      same_session (f_session f) (f_session f0) ∧ t ≤ BaSession.expiresAt (f_session f0);
  getSession_rows find r t l x : In x (sr_rows (getSession find r t l)) →
    ∃ y, In y l ∧ same_session x y ∧ (is_device_session y = true → x = y) }.

Section Resolver.
Context `{A : SessionApi} `{I : InternalAdapter}.

(** The wrapped findSession *)
Definition limited (found : option Found) (now : Z) : option Found :=
  match found with
  | Some f => (λ x, mkFound x (f_user f)) <$> applyDeviceSessionLimits (Some (f_session f)) now
  | None => None
  end.

Definition reauthRequiredError : error := AppError "REAUTH_REQUIRED" 401 [].

(** The after-hook on /get-session *)
Definition get_session_after (r : SessionRead) (now : Z) : io gate (option Found) :=
  match sr_stored r with
  | Some f =>
      if negb (is_device_session (f_session f)) then ret (sr_returned r)
      else
      match session_verdict (f_session f) now, sr_returned r with
      | verdict_active _ _, Some _ => ret (sr_returned r)
      | _, _ => λ g,
          (Err reauthRequiredError,
           set_auth (set_sessions (deleteSession (BaSession.token (f_session f)) (sessions (g_auth g))) (g_auth g)) g)
      end
  | None => ret (sr_returned r)
  end.

Definition get_session (rq : Request) (now : Z) : io gate (option Found) := λ g,
  let s := g_auth g in
  let r := getSession (λ tok, limited (findSession tok s) now) rq now (sessions s) in
  get_session_after r now (set_auth (set_sessions (sr_rows r) s) g).

Record AuthenticatedIdentity := mkIdentity {
  betterAuthUserId : string; providerSessionId : string; population : string; dpopJkt : option string;
  sessionCreatedAt : Z; authenticationLevel : string }.

Definition level_accepted (allowPendingOAuth : bool) (level : string) : bool :=
  bool_decide (level = "staff_passkey") || bool_decide (level = DEVICE_SESSION_AUTHENTICATION_LEVEL) ||
  (allowPendingOAuth && bool_decide (level = "oauth_pending")).

Definition identify (allowPendingOAuth : bool) (f : Found) : option AuthenticatedIdentity :=
  if negb (bool_decide (User.disabledAt (f_user f) = None)) || negb (bool_decide (User.recoveryRequiredAt (f_user f) = None))
  then None
  else if negb (level_accepted allowPendingOAuth (BaSession.authenticationLevel (f_session f))) then None
  else Some (mkIdentity (User.id (f_user f)) (BaSession.id (f_session f))
               (if bool_decide (User.population (f_user f) = "staff_partner") then "staff_partner" else "customer")
               (BaSession.dpopJkt (f_session f)) (BaSession.createdAt (f_session f))
               (BaSession.authenticationLevel (f_session f))).

Definition resolve (allowPendingOAuth : bool) (rq : Request) (now : Z) : io gate (option AuthenticatedIdentity) :=
  await found := get_session rq now in
  ret (found ≫= identify allowPendingOAuth).

(** UPDATE auth_session SET dpopJkt WHERE id *)
Definition set_key (jkt : string) (x : BaSession.t) : BaSession.t :=
  BaSession.mk (BaSession.id x) (BaSession.token x) (BaSession.userId x) (Some jkt)
    (BaSession.authenticationLevel x) (BaSession.createdAt x) (BaSession.updatedAt x) (BaSession.expiresAt x).

Definition bindDpopKey (providerSessionId jkt : string) : io gate unit := λ g,
  let s := g_auth g in
  (Ok tt, set_auth (set_sessions (update_where (by_id BaSession.id providerSessionId) (set_key jkt) (sessions s)) s) g).

(** PrismaSessionMirror.recordActivity *)
Definition mirror_recordActivity (betterAuthSessionId : string) (seenAt : Z) (idleExpiresAt : option Z) (s : auth) : auth :=
  set_mirror (update_where
    (λ m, bool_decide (MirrorSession.betterAuthSessionId m = Some betterAuthSessionId) && bool_decide (MirrorSession.revokedAt m = None))
    (MirrorSession.set_activity seenAt idleExpiresAt) (mirror s)) s.

(** What may go wrong on the way of one request: the limiter's refusal, a failing activity write, a failing mirror. *)
Record Weather := mkWeather { w_limiter : option error; w_activity : bool; w_mirror : bool }.

Definition write_mirror (w : Weather) (f : auth → auth) : io gate unit := λ g,
  (Ok tt, if w_mirror w then g else set_auth (f (g_auth g)) g).

Definition resolver_recordActivity (w : Weather) (x : AuthenticatedIdentity) (now : Z) : io gate unit :=
  if negb (bool_decide (authenticationLevel x = DEVICE_SESSION_AUTHENTICATION_LEVEL))
  then write_mirror w (mirror_recordActivity (providerSessionId x) now None)
  else if w_activity w then throw (Thrown "auth_session") else λ g,
  let s := g_auth g in
  let updated := exists_row (records_activity (providerSessionId x) now) (sessions s) in
  let g' := set_auth (set_sessions (recordActivity (providerSessionId x) now (sessions s)) s) g in
  if negb updated then (Ok tt, g')
  else match evaluateDeviceSessionLifetime (sessionCreatedAt x) now now with
       | verdict_active idleExpiresAt _ => write_mirror w (mirror_recordActivity (providerSessionId x) now (Some idleExpiresAt)) g'
       | verdict_expired _ => (Ok tt, g')
       end.

End Resolver.

(** ** requireAuthentication *)

Definition authentication_required : error := AppError "authentication.required" 401 [].
Definition account_mapping_missing : error := AppError "account.mapping_missing" 500 [].
Definition account_restricted : error := AppError "account.restricted" 403 [].

Record AuthContext := mkAuthContext {
  cx_accountId : string; cx_providerSessionId : string; cx_population : string; cx_sessionCreatedAt : Z;
  cx_authenticationLevel : string }.

(** The readings of the clock along a request *)
Record RequestMoments := mkRequestMoments { at_lookup : Z; at_proof : Moments; at_activity : Z }.

Section Middleware.
Context (J : DpopJose) `{A : SessionApi} `{I : InternalAdapter}.

Definition request_proof (o : DpopOptions) (rq : Request) : ProofInput :=
  mkProofInput (readDpopHeader rq) (rq_method rq) (buildHtu (baseUrl o) (rq_originalUrl rq)) (readBearerToken rq).

Definition enforceBoundSessionProof (rq : Request) (boundJkt : string) (dpop : option DpopOptions) (at_ : Moments) : io gate unit :=
  match dpop with
  | None => throw DpopProofMissingError
  | Some o =>
      await claims := lift (verifyDpopProof J (request_proof o rq) (at_verify at_)) in
      if negb (bool_decide (cl_jkt claims = boundJkt)) then throw DpopKeyMismatchError
      else
      await accepted := record_for_window (replayWindowSeconds o) claims (at_record at_) in
      if negb accepted then throw DpopReplayError else ret tt
  end.

Definition maybeBindUnboundSession (rq : Request) (x : AuthenticatedIdentity) (dpop : option DpopOptions) (at_ : Moments) : io gate unit :=
  match dpop, readDpopHeader rq with
  | Some o, Some _ =>
      match attempted (verifyDpopProof J (request_proof o rq) (at_verify at_)) with
      | None => ret tt
      | Some claims =>
          if negb (isPreCutover (phase1CutoverAt o) (sessionCreatedAt x)) then throw DpopKeyMismatchError
          else
          await accepted := record_for_window (replayWindowSeconds o) claims (at_record at_) in
          if negb accepted then ret tt else bindDpopKey (providerSessionId x) (cl_jkt claims)
      end
  | _, _ => ret tt
  end.

(** What the request must carry, by the session it has *)
Definition check_binding (rq : Request) (x : AuthenticatedIdentity) (dpop : option DpopOptions) (at_ : Moments) : io gate unit :=
  match dpopJkt x with
  | Some k => enforceBoundSessionProof rq k dpop at_
  | None => maybeBindUnboundSession rq x dpop at_
  end.

Definition active_account (x : AuthenticatedIdentity) : io gate Acct.t := λ g,
  match findByBetterAuthUserId (betterAuthUserId x) (g_auth g) with
  | None => (Err account_mapping_missing, g)
  | Some a => if negb (bool_decide (Acct.status a = acc_active)) then (Err account_restricted, g) else (Ok a, g)
  end.

Definition requireAuthentication (allowPendingOAuth : bool) (dpop : option DpopOptions) (w : Weather) (rq : Request)
    (at_ : RequestMoments) : io gate AuthContext :=
  await identity := resolve allowPendingOAuth rq (at_lookup at_) in
  match identity with
  | None => throw authentication_required
  | Some x =>
      await _ := check_binding rq x dpop (at_proof at_) in
      await account := active_account x in
      match w_limiter w with
      | Some e => throw e
      | None =>
          await _ := iocatch (resolver_recordActivity w x (at_activity at_)) (λ _, ret tt) in
          ret (mkAuthContext (Acct.id account) (providerSessionId x) (population x) (sessionCreatedAt x) (authenticationLevel x))
      end
  end.

(** ** requireDpopOnly *)

Definition first_value (h : HeaderValue) : option string :=
  match h with absent => None | one v => Some v | many vs => head vs end.

(** The key of the proof, kept as [response.locals.dpopJkt] *)
Definition requireDpopOnly (o : DpopOptions) (recordReplays : option bool) (rq : Request) (at_ : Moments) : io gate string :=
  await claims := lift (verifyDpopProof J
    (mkProofInput (first_value (rq_dpop rq)) (rq_method rq) (buildHtu (baseUrl o) (rq_originalUrl rq)) None) (at_verify at_)) in
  if bool_decide (recordReplays = Some false) then ret (cl_jkt claims)
  else
  await accepted := record_for_window (replayWindowSeconds o) claims (at_record at_) in
  if negb accepted then throw DpopReplayError else ret (cl_jkt claims).

End Middleware.

(** ** The guards behind it *)

Definition fresh_auth_required : error := AppError "authentication.fresh_auth_required" 403 [].
Definition missingContextError : error := AppError "authentication.context_missing" 500 [].
Definition staffForbiddenError : error := AppError "authorization.forbidden" 403 [].
Definition staff_mfa_required : error := AppError "authentication.staff_mfa_required" 403 [].

(** PrismaCustomerSessionRepository.hasFreshAuthentication *)
Definition hasFreshAuthentication (accountId providerSessionId : string) (freshAfter : Z) (s : auth) : bool :=
  exists_row (λ m, bool_decide (MirrorSession.accountId m = accountId) &&
    bool_decide (MirrorSession.betterAuthSessionId m = Some providerSessionId) &&
    bool_decide (MirrorSession.status m = "active") &&
    match MirrorSession.lastFreshAuthAt m with Some t => freshAfter <=? t | None => false end) (mirror s).

Definition requireFreshAuthentication (context : option AuthContext) (now : Z) (s : auth) : result unit :=
  match context with
  | None => Err fresh_auth_required
  | Some c =>
      if isFreshDeviceSession (mkSubject (cx_population c) (Some (cx_authenticationLevel c)) (Some (cx_sessionCreatedAt c))) now
      then Ok tt
      else if negb (hasFreshAuthentication (cx_accountId c) (cx_providerSessionId c) (now - FRESH_AUTH_WINDOW_MS) s)
      then Err fresh_auth_required else Ok tt
  end.

(** PrismaAccountRepository.hasActiveStaffRole and hasAnyActiveStaffRole *)
Definition hasActiveStaffRole (accountId role : string) (s : auth) : bool :=
  exists_row (λ r, bool_decide (StaffRole.accountId r = accountId) && bool_decide (StaffRole.role r = role) &&
                   bool_decide (StaffRole.revokedAt r = None)) (staffRoles s).
Definition hasAnyActiveStaffRole (accountId : string) (s : auth) : bool := has_active_role accountId s.

Definition getActivePartnerOrganizationId (accountId role : string) (s : auth) : option string :=
  find_row (λ r, bool_decide (StaffRole.accountId r = accountId) && bool_decide (StaffRole.role r = role) &&
                 bool_decide (StaffRole.revokedAt r = None)) (staffRoles s) ≫=
  (λ r, if bool_decide (role = "legal_partner") then StaffRole.legalPracticeId r else StaffRole.appraisalFirmId r).

Definition staff_guard (holds : AuthContext → bool) (context : option AuthContext) : result unit :=
  match context with
  | None => Err missingContextError
  | Some c => if bool_decide (cx_population c = "staff_partner") && holds c then Ok tt else Err staffForbiddenError
  end.

Definition requireAdminOperations (context : option AuthContext) (s : auth) : result unit :=
  staff_guard (λ c, hasActiveStaffRole (cx_accountId c) "admin_operations" s) context.
Definition requirePartnerRole (role : string) (context : option AuthContext) (s : auth) : result unit :=
  staff_guard (λ c, hasActiveStaffRole (cx_accountId c) role s) context.
Definition requireLegalPartner := requirePartnerRole "legal_partner".
Definition requireAppraisalPartner := requirePartnerRole "appraisal_partner".
Definition requireStaffIdentity (context : option AuthContext) (s : auth) : result unit :=
  staff_guard (λ c, hasAnyActiveStaffRole (cx_accountId c) s) context.

End Gateway.
