(* ===== verification/DpopReplay.v ===== *)
(** Replays of a proof: every use of a DPoP proof by the API as one machine with the clock and the hourly
    pruning of the replay table.

    A proof is its key, its identifier and the time it states.  A window of the replay table that exceeds 121
    seconds by the longest time between a proof's verification and its insertion, and by the skew of the pruning
    worker's clock, lets no proof be accepted twice; the window of 120 seconds does not. *)

From Stdlib Require Import Ascii String.
From S2P Require Import Prelude JsString DateTime IntakePolicy Db AuthDb AuthDevice AuthSessions Dpop Gateway.

Module DpopReplay.
Import AuthDb AuthDevice AuthSessions Dpop Gateway.

(** ** What a verified proof states *)

(** The time a proof states *)
Definition proof_iat (J : DpopJose) (i : ProofInput) (now : Z) : option Z :=
  header ← JsString.trim <$> pi_header i;
  payload ← dj_verify J now header;
  match field "iat" payload with Some (JNum n) => Some n | _ => None end.

Lemma check_proof_claims_ok J i now payload jti : check_proof_claims J i now payload = Ok jti →
  text_field "htm" payload = Some (JsString.toUpperCase (pi_method i)) ∧ text_field "htu" payload = Some (pi_url i) ∧
  (∃ iat, field "iat" payload = Some (JNum iat) ∧ Z.abs (now / 1000 - iat) ≤ IAT_WINDOW_SECONDS) ∧
  text_field "jti" payload = Some jti ∧ JTI_PATTERN jti = true ∧
  (∀ bearer, pi_bearerToken i = Some bearer → text_field "ath" payload = Some (dj_ath J bearer)).
Proof.
  unfold check_proof_claims. intros H. inv_ok H; boolify; simplify_eq/=; repeat split; try done.
  all: try (inv_ok E1; boolify; by eexists).
  by intros b [= <-].
Qed.

Lemma check_proof_header_ok J header jwk : check_proof_header J header = Ok jwk →
  ∃ p0 p1 p2 h, JsString.split "."%char header = [p0; p1; p2] ∧ dj_header J p0 = Some (JObj h) ∧
    text_field "typ" h = Some "dpop+jwt" ∧ text_field "alg" h = Some "ES256" ∧ field "jwk" h = Some jwk ∧
    isPublicP256Jwk (Some jwk) = true.
Proof.
  unfold check_proof_header. intros H. inv_ok H; boolify; simplify_eq/=. do 4 eexists. done.
Qed.

(** Everything an accepted proof is checked for. *)
Lemma verifyDpopProof_ok J i now c : verifyDpopProof J i now = Ok c →
  ∃ header jwk payload iat,
    JsString.trim <$> pi_header i = Some header ∧ check_proof_header J header = Ok jwk ∧
    dj_verify J now header = Some payload ∧ cl_jkt c = dj_thumbprint J jwk ∧
    text_field "jti" payload = Some (cl_jti c) ∧ JTI_PATTERN (cl_jti c) = true ∧
    text_field "htm" payload = Some (JsString.toUpperCase (pi_method i)) ∧ text_field "htu" payload = Some (pi_url i) ∧
    (∀ bearer, pi_bearerToken i = Some bearer → text_field "ath" payload = Some (dj_ath J bearer)) ∧
    field "iat" payload = Some (JNum iat) ∧ Z.abs (now / 1000 - iat) ≤ IAT_WINDOW_SECONDS.
Proof.
  unfold verifyDpopProof. destruct (JsString.trim <$> pi_header i) as [[|ch header]|]; [done| |done].
  intros H. inv_ok H; simplify_eq/=.
  apply check_proof_claims_ok in E1 as (? & ? & (iat & ? & ?) & ? & ? & ?).
  exists (String ch header). do 3 eexists. repeat split; done.
Qed.

Lemma proof_iat_window J i now c : verifyDpopProof J i now = Ok c →
  ∃ iat, proof_iat J i now = Some iat ∧ 1000 * (iat - 60) ≤ now < 1000 * (iat + 61).
Proof.
  intros (header & jwk & payload & iat & Hh & _ & Hp & _ & _ & _ & _ & _ & _ & Hi & Ha)%verifyDpopProof_ok.
  exists iat. unfold proof_iat. rewrite Hh. simpl. rewrite Hp. simpl. rewrite Hi. split; [done|].
  unfold IAT_WINDOW_SECONDS in Ha. pose proof (Z.mul_div_le now 1000). pose proof (Z.mul_succ_div_gt now 1000). lia.
Qed.

(** ** What a computation does to the replay table *)

Definition keeps_replays {A} (m : io gate A) : Prop := ∀ g, g_replays (m g).2 = g_replays g.

(** Nothing, or the one proof it verified is inserted for the window. *)
Definition records (J : DpopJose) (W : Z) (i : ProofInput) (at_ : Moments) (rs rs' : list Replay.t) : Prop :=
  rs' = rs ∨ ∃ c, verifyDpopProof J i (at_verify at_) = Ok c ∧
    exists_row (Replay.is_for (cl_jkt c) (cl_jti c)) rs = false ∧
    rs' = Replay.mk (cl_jkt c) (cl_jti c) (at_record at_ + W * 1000) :: rs.

(** The one proof it verified is inserted. *)
Definition inserts (J : DpopJose) (W : Z) (i : ProofInput) (at_ : Moments) (rs rs' : list Replay.t) : Prop :=
  ∃ c, verifyDpopProof J i (at_verify at_) = Ok c ∧ exists_row (Replay.is_for (cl_jkt c) (cl_jti c)) rs = false ∧
    rs' = Replay.mk (cl_jkt c) (cl_jti c) (at_record at_ + W * 1000) :: rs.

(** A decision that rests on the proof: a bound session passes, or an unbound one is bound. *)
Definition rests_on_proof (bound : option string) (decision : result DpopSessionDecision) : bool :=
  match bound, decision with
  | Some _, Ok _ => true
  | None, Ok (bind _) => true
  | _, _ => false
  end.

Definition records_one {A} (J : DpopJose) (W : Z) (i : ProofInput) (at_ : Moments) (m : io gate A) : Prop :=
  ∀ g, records J W i at_ (g_replays g) (g_replays (m g).2).

Section Shape.
Context (J : DpopJose) (W : Z) (i : ProofInput) (at_ : Moments).

Lemma keeps_ret {A} (a : A) : keeps_replays (ret a).
Proof. done. Qed.
Lemma keeps_throw {A} e : keeps_replays (@throw gate A e).
Proof. done. Qed.
Lemma keeps_lift {A} (m : result A) : keeps_replays (lift m).
Proof. done. Qed.

Lemma keeps_bind {A B} (m : io gate A) (f : A → io gate B) :
  keeps_replays m → (∀ a, keeps_replays (f a)) → keeps_replays (iobind m f).
Proof.
  intros Hm Hf g. unfold iobind. specialize (Hm g). destruct (m g) as [[a|e] g']; simpl in *; [by rewrite Hf | done].
Qed.

Lemma keeps_catch {A} (m : io gate A) (h : error → io gate A) :
  keeps_replays m → (∀ e, keeps_replays (h e)) → keeps_replays (iocatch m h).
Proof.
  intros Hm Hf g. unfold iocatch. specialize (Hm g). destruct (m g) as [[a|e] g']; simpl in *; [done | by rewrite Hf].
Qed.

Lemma records_keeps {A} (m : io gate A) : keeps_replays m → records_one J W i at_ m.
Proof. intros H g. left. apply H. Qed.

Lemma records_before {A B} (m : io gate A) (f : A → io gate B) :
  keeps_replays m → (∀ a, records_one J W i at_ (f a)) → records_one J W i at_ (iobind m f).
Proof.
  intros Hm Hf g. unfold iobind. specialize (Hm g).
  destruct (m g) as [[a|e] g'] eqn:E; simpl in *; [rewrite <-Hm; apply Hf | by left].
Qed.

Lemma records_after {A B} (m : io gate A) (f : A → io gate B) :
  records_one J W i at_ m → (∀ a, keeps_replays (f a)) → records_one J W i at_ (iobind m f).
Proof.
  intros Hm Hf g. unfold iobind. specialize (Hm g).
  destruct (m g) as [[a|e] g'] eqn:E; simpl in *; [by rewrite Hf | done].
Qed.

Lemma record_for_window_records window c :
  replay_window window = W → verifyDpopProof J i (at_verify at_) = Ok c →
  records_one J W i at_ (record_for_window window c (at_record at_)).
Proof.
  intros <- Hv g. unfold record_for_window, recordProof. destruct (exists_row _ _) eqn:E; simpl; [by left|].
  right. by exists c.
Qed.

(** Verifying and then recording, with anything that keeps the table around it. *)
Lemma verified_records {A} (f : DpopProofClaims → io gate A) :
  (∀ c, verifyDpopProof J i (at_verify at_) = Ok c → records_one J W i at_ (f c)) →
  records_one J W i at_ (await c := lift (verifyDpopProof J i (at_verify at_)) in f c).
Proof.
  intros Hf g. unfold iobind, lift. destruct (verifyDpopProof J i (at_verify at_)) as [c|e]; simpl; [by apply Hf | by left].
Qed.

Lemma attempted_records {A} (no : io gate A) (f : DpopProofClaims → io gate A) :
  keeps_replays no → (∀ c, verifyDpopProof J i (at_verify at_) = Ok c → records_one J W i at_ (f c)) →
  records_one J W i at_ (match attempted (verifyDpopProof J i (at_verify at_)) with Some c => f c | None => no end).
Proof.
  intros Hn Hf. destruct (verifyDpopProof J i (at_verify at_)) as [c|e]; simpl; [by apply Hf | by apply records_keeps].
Qed.

End Shape.

#[export] Hint Resolve keeps_ret keeps_throw keeps_lift keeps_bind keeps_catch : replays.
#[export] Hint Resolve records_keeps records_after record_for_window_records : replays.

(** ** The uses of a proof *)

Section Uses.
Context (J : DpopJose) (W : Z).

Lemma remember_keeps r c : keeps_replays (rememberVerifiedDpopProof r c).
Proof. done. Qed.

Lemma bind_key_keeps k jkt : keeps_replays (bindDpopKey k jkt).
Proof. done. Qed.

#[local] Hint Resolve remember_keeps bind_key_keeps : replays.

Ltac walk_records :=
  repeat match goal with
  | |- records_one _ _ _ _ (if ?b then _ else _) => destruct b
  | |- keeps_replays (if ?b then _ else _) => destruct b
  end; eauto with replays.

Lemma decide_records i bound created cutover window onVerified at_ :
  replay_window window = W → (∀ c, keeps_replays (onVerified c)) →
  records_one J W i at_ (decideDpopForSession J i bound created cutover window onVerified at_).
Proof.
  intros HW Ho. unfold decideDpopForSession. destruct bound as [k|].
  - apply verified_records. intros c Hc. walk_records. apply records_after; [eauto with replays|]. intros a. walk_records.
  - destruct (pi_header i); [|eauto with replays]. apply attempted_records; [eauto with replays|].
    intros c Hc. walk_records. apply records_after; [eauto with replays|]. intros a. walk_records.
Qed.

Lemma verify_and_cache_records cx o r ignore at_ : cx_request cx = Some r → replay_window (replayWindowSeconds o) = W →
  records_one J W (fetch_proof o r (cx_headers cx ≫= fh_dpop)
      (bearer_of (if ignore : bool then None else cx_headers cx ≫= fh_authorization))) at_
    (verifyAndCacheDpopProof J cx (Some o) ignore at_).
Proof.
  intros Hr HW. unfold verifyAndCacheDpopProof. rewrite Hr. apply verified_records. intros c Hc.
  apply records_after; [eauto with replays|]. intros a. walk_records.
Qed.

Lemma dpop_only_records o rr rq at_ : replay_window (replayWindowSeconds o) = W →
  records_one J W (mkProofInput (first_value (rq_dpop rq)) (rq_method rq) (buildHtu (baseUrl o) (rq_originalUrl rq)) None) at_
    (requireDpopOnly J o rr rq at_).
Proof.
  intros HW. unfold requireDpopOnly. apply verified_records. intros c Hc. walk_records.
  apply records_after; [eauto with replays|]. intros a. walk_records.
Qed.

Lemma check_binding_records rq x o at_ : replay_window (replayWindowSeconds o) = W →
  records_one J W (request_proof o rq) at_ (check_binding J rq x (Some o) at_).
Proof.
  intros HW. unfold check_binding. destruct (dpopJkt x) as [k|].
  - unfold enforceBoundSessionProof. apply verified_records. intros c Hc. walk_records.
    apply records_after; [eauto with replays|]. intros a. walk_records.
  - unfold maybeBindUnboundSession. destruct (readDpopHeader rq); [|eauto with replays].
    apply attempted_records; [eauto with replays|]. intros c Hc. walk_records.
    apply records_after; [eauto with replays|]. intros a. walk_records.
Qed.

Context `{A : SessionApi} `{I : InternalAdapter}.

Lemma resolve_keeps allow rq t : keeps_replays (resolve allow rq t).
Proof.
  apply keeps_bind; [|eauto with replays]. intros g. unfold get_session, get_session_after.
  repeat case_match; done.
Qed.

Lemma record_activity_keeps w x t : keeps_replays (resolver_recordActivity w x t).
Proof.
  intros g. unfold resolver_recordActivity, write_mirror. repeat case_match; simplify_eq/=; try done; by destruct (w_mirror w).
Qed.

Lemma active_account_keeps x : keeps_replays (active_account x).
Proof. intros g. unfold active_account. by repeat case_match. Qed.

Lemma authentication_records allow o w rq at_ : replay_window (replayWindowSeconds o) = W →
  records_one J W (request_proof o rq) (at_proof at_) (requireAuthentication J allow (Some o) w rq at_).
Proof.
  intros HW. unfold requireAuthentication. apply records_before; [apply resolve_keeps|]. intros [x|]; [|eauto with replays].
  apply records_after; [by apply check_binding_records|]. intros []. apply keeps_bind; [apply active_account_keeps|].
  intros a. destruct (w_limiter w); [eauto with replays|].
  apply keeps_bind; [|eauto with replays]. apply keeps_catch; [apply record_activity_keeps | eauto with replays].
Qed.

Lemma try_bind_records cx o r at_ : cx_request cx = Some r → replay_window (replayWindowSeconds o) = W →
  records_one J W (fetch_proof o r (cx_headers cx ≫= fh_dpop) (bearer_of (cx_headers cx ≫= fh_authorization))) at_
    (tryBindDpopAtCreation J (Some cx) (Some o) at_).
Proof.
  intros Hr HW g. unfold tryBindDpopAtCreation. rewrite Hr. simpl.
  destruct (verified_claims (fr_id r) g); [by left|]. destruct (cx_headers cx) as [hs|]; [|by left]. simpl.
  destruct (fh_dpop hs) as [h|]; [|by left]. simpl.
  destruct (verifyDpopProof _ _ _) as [c|e] eqn:Hc; [|by left]. simpl.
  apply (records_after J W _ at_ (record_for_window (replayWindowSeconds o) c (at_record at_))); eauto with replays.
Qed.

Lemma resolve_pending_records cx bound created o r at_ : cx_request cx = Some r → replay_window (replayWindowSeconds o) = W →
  records_one J W (fetch_proof o r (cx_headers cx ≫= fh_dpop) (bearer_of (cx_headers cx ≫= fh_authorization))) at_
    (resolvePendingSessionDpopKey J cx bound created (Some o) at_).
Proof.
  intros Hr HW. pose proof (verify_and_cache_records cx o r false at_ Hr HW) as Hv.
  unfold resolvePendingSessionDpopKey. destruct bound as [k|].
  - apply records_after; [done|]. intros c. walk_records.
  - destruct (cx_headers cx ≫= fh_dpop); [|eauto with replays]. intros g. specialize (Hv g).
    unfold requireDpopProofForSessionCreation. destruct (verifyAndCacheDpopProof _ _ _ _ _ g) as [[c|e] g']; [|done].
    by destruct (negb _).
Qed.

Lemma hook_records upd o path r hs current at_ : replay_window (replayWindowSeconds o) = W →
  records_one J W (fetch_proof o r (hs ≫= fh_dpop) (bearer_of (hs ≫= fh_authorization))) at_
    (dpop_before_hook J upd o path r hs current at_).
Proof.
  intros HW. unfold dpop_before_hook. destruct (isSessionUpgradeCeremonyPath path); [eauto with replays|].
  destruct current as [x|]; [|eauto with replays].
  apply records_after; [apply decide_records; [done | intros; apply remember_keeps]|]. intros [|k]; done.
Qed.

(** *** Success means that the proof was recorded *)

Lemma record_inserts i at_ window c g g' : replay_window window = W → verifyDpopProof J i (at_verify at_) = Ok c →
  record_for_window window c (at_record at_) g = (Ok true, g') → inserts J W i at_ (g_replays g) (g_replays g').
Proof.
  intros <- Hv. unfold record_for_window, recordProof. destruct (exists_row _ _) eqn:E; [done|]. intros [= <-]. by exists c.
Qed.

Lemma enforce_inserts rq k o at_ g g' : replay_window (replayWindowSeconds o) = W →
  enforceBoundSessionProof J rq k (Some o) at_ g = (Ok tt, g') → inserts J W (request_proof o rq) at_ (g_replays g) (g_replays g').
Proof.
  intros HW (c & g1 & [Hv ->]%lift_ok & H)%iobind_ok. destruct (negb _) in H; [done|].
  apply iobind_ok in H as ([] & g2 & Hr & H); [|done]. apply ret_ok in H as [_ ->]. by eapply record_inserts.
Qed.

Lemma after_binding_keeps w x at_ : keeps_replays
  (await account := active_account x in
   match w_limiter w with
   | Some e => throw e
   | None =>
       await _ := iocatch (resolver_recordActivity w x at_) (λ _, ret tt) in
       ret (mkAuthContext (Acct.id account) (providerSessionId x) (population x) (sessionCreatedAt x) (authenticationLevel x))
   end).
Proof.
  apply keeps_bind; [apply active_account_keeps|].
  intros a. destruct (w_limiter w); [eauto with replays|].
  apply keeps_bind; [|eauto with replays]. apply keeps_catch; [apply record_activity_keeps | eauto with replays].
Qed.

Lemma authentication_inserts allow o w rq lookup at_ activity g : replay_window (replayWindowSeconds o) = W →
  match (resolve allow rq lookup g).1, (requireAuthentication J allow (Some o) w rq (mkRequestMoments lookup at_ activity) g).1 with
  | Ok (Some x), Ok _ => match dpopJkt x with Some _ => true | None => false end
  | _, _ => false
  end = true →
  inserts J W (request_proof o rq) at_ (g_replays g)
    (g_replays (requireAuthentication J allow (Some o) w rq (mkRequestMoments lookup at_ activity) g).2).
Proof.
  intros HW H. pose proof (resolve_keeps allow rq lookup g) as Hk.
  destruct (requireAuthentication J allow (Some o) w rq _ g) as [[c|e] g'] eqn:E; [|by destruct (resolve allow rq lookup g).1 as [[]|]].
  apply iobind_ok in E as (x & g1 & Hres & E). simpl in Hres. rewrite Hres in *. simpl in *.
  destruct x as [x|]; [|done]. destruct (dpopJkt x) as [k|] eqn:Ek; [|done].
  apply iobind_ok in E as ([] & g2 & Hb & E). unfold check_binding in Hb. rewrite Ek in Hb.
  pose proof (after_binding_keeps w x activity g2) as Ha. rewrite E in Ha. simpl in Ha. rewrite Ha, <- Hk.
  by eapply enforce_inserts.
Qed.

Lemma dpop_only_inserts o rr rq at_ g : replay_window (replayWindowSeconds o) = W →
  negb (bool_decide (rr = Some false)) = true →
  match (requireDpopOnly J o rr rq at_ g).1 with Ok _ => true | Err _ => false end = true →
  inserts J W (mkProofInput (first_value (rq_dpop rq)) (rq_method rq) (buildHtu (baseUrl o) (rq_originalUrl rq)) None) at_
    (g_replays g) (g_replays (requireDpopOnly J o rr rq at_ g).2).
Proof.
  intros HW Hn H. destruct (requireDpopOnly J o rr rq at_ g) as [[k|e] g'] eqn:E; [|done].
  apply iobind_ok in E as (c & g1 & [Hv ->]%lift_ok & E). apply negb_true_iff in Hn. rewrite Hn in E.
  apply iobind_ok in E as ([] & g2 & Hr & E); [|done]. apply ret_ok in E as [_ ->]. by eapply record_inserts.
Qed.

Lemma verify_and_cache_ok cx o ignore at_ g c g' : replay_window (replayWindowSeconds o) = W →
  verifyAndCacheDpopProof J cx (Some o) ignore at_ g = (Ok c, g') →
  ∃ r, cx_request cx = Some r ∧
    inserts J W (fetch_proof o r (cx_headers cx ≫= fh_dpop) (bearer_of (if ignore then None else cx_headers cx ≫= fh_authorization))) at_
      (g_replays g) (g_replays g').
Proof.
  intros HW. unfold verifyAndCacheDpopProof. destruct (cx_request cx) as [r|]; [|done]. intros E. exists r. split; [done|].
  apply iobind_ok in E as (c1 & g1 & [Hv ->]%lift_ok & E). apply iobind_ok in E as ([] & g2 & Hr & E); [|done].
  apply iobind_ok in E as ([] & g3 & [= <-] & E). apply ret_ok in E as [_ ->].
  exact (record_inserts _ _ _ _ _ _ HW Hv Hr).
Qed.

Lemma decide_inserts i bound created cutover window onVerified at_ g : replay_window window = W → (∀ c, keeps_replays (onVerified c)) →
  rests_on_proof bound (decideDpopForSession J i bound created cutover window onVerified at_ g).1 = true →
  inserts J W i at_ (g_replays g) (g_replays (decideDpopForSession J i bound created cutover window onVerified at_ g).2).
Proof.
  intros HW Ho H. destruct (decideDpopForSession J i bound created cutover window onVerified at_ g) as [[d|e] g'] eqn:E; [|by destruct bound].
  assert (∀ c g0 g1 d0, (await _ := onVerified c in ret d0) g0 = (Ok d, g1) → g_replays g1 = g_replays g0) as Hk.
  { intros c g0 g1 d0 E0. assert (keeps_replays (await _ := onVerified c in ret d0)) as K by eauto with replays.
    specialize (K g0). by rewrite E0 in K. }
  unfold decideDpopForSession in E. simpl. destruct bound as [k|].
  - apply iobind_ok in E as (c & g1 & [Hv ->]%lift_ok & E). destruct (negb _) in E; [done|].
    apply iobind_ok in E as ([] & g2 & Hr & E); [|done]. rewrite (Hk _ _ _ _ E). by eapply record_inserts.
  - destruct d as [|k]; [done|]. destruct (pi_header i); [|by apply ret_ok in E as [? _]].
    destruct (verifyDpopProof J i (at_verify at_)) as [c|e] eqn:Hv; simpl in E; [|by apply ret_ok in E as [? _]].
    destruct (negb _) in E; [done|]. apply iobind_ok in E as ([] & g2 & Hr & E); simpl in E; [|by apply ret_ok in E as [? _]].
    rewrite (Hk _ _ _ _ E). by eapply record_inserts.
Qed.

Lemma hook_inserts upd o path r hs current at_ g : replay_window (replayWindowSeconds o) = W →
  negb (isSessionUpgradeCeremonyPath path) = true →
  match current with
  | None => false
  | Some x =>
      rests_on_proof (BaSession.dpopJkt x)
        (decideDpopForSession J (fetch_proof o r (hs ≫= fh_dpop) (bearer_of (hs ≫= fh_authorization)))
           (BaSession.dpopJkt x) (BaSession.createdAt x) (phase1CutoverAt o) (replayWindowSeconds o)
           (rememberVerifiedDpopProof (fr_id r)) at_ g).1
  end = true →
  inserts J W (fetch_proof o r (hs ≫= fh_dpop) (bearer_of (hs ≫= fh_authorization))) at_ (g_replays g)
    (g_replays (dpop_before_hook J upd o path r hs current at_ g).2).
Proof.
  intros HW Hn H. unfold dpop_before_hook. apply negb_true_iff in Hn. rewrite Hn. destruct current as [x|]; [|done].
  pose proof (decide_inserts _ _ _ _ _ _ _ _ HW (remember_keeps (fr_id r)) H) as Hi. unfold iobind.
  destruct (decideDpopForSession _ _ _ _ _ _ _ _ g) as [[d|e] g1]; simpl in *; [|by destruct (BaSession.dpopJkt x)].
  by destruct d.
Qed.

Lemma try_bind_inserts cx o at_ g : replay_window (replayWindowSeconds o) = W →
  match cx_request cx ≫= λ r, verified_claims (fr_id r) g, (tryBindDpopAtCreation J (Some cx) (Some o) at_ g).1 with
  | None, Ok (Some _) => true
  | _, _ => false
  end = true →
  ∃ r, cx_request cx = Some r ∧
    inserts J W (fetch_proof o r (cx_headers cx ≫= fh_dpop) (bearer_of (cx_headers cx ≫= fh_authorization))) at_
      (g_replays g) (g_replays (tryBindDpopAtCreation J (Some cx) (Some o) at_ g).2).
Proof.
  intros HW H. unfold tryBindDpopAtCreation in *. destruct (cx_request cx ≫= _) eqn:Eq; [done|].
  destruct (cx_headers cx) as [hs|]; [|done]. destruct (cx_request cx) as [r|]; [|done]. exists r. split; [done|]. simpl.
  destruct (fh_dpop hs) as [h|]; [|done]. destruct (verifyDpopProof _ _ _) as [c|] eqn:Hv in *; [|done]. simpl in *.
  unfold iobind in *. destruct (record_for_window _ c _ g) as [[[]|e] g'] eqn:Er; try done. simpl. by eapply record_inserts.
Qed.

Lemma pending_inserts cx k created o at_ g : replay_window (replayWindowSeconds o) = W →
  match (resolvePendingSessionDpopKey J cx (Some k) created (Some o) at_ g).1 with Ok _ => true | Err _ => false end = true →
  ∃ r, cx_request cx = Some r ∧
    inserts J W (fetch_proof o r (cx_headers cx ≫= fh_dpop) (bearer_of (cx_headers cx ≫= fh_authorization))) at_
      (g_replays g) (g_replays (resolvePendingSessionDpopKey J cx (Some k) created (Some o) at_ g).2).
Proof.
  intros HW H. destruct (resolvePendingSessionDpopKey J cx (Some k) created (Some o) at_ g) as [[[]|e] g'] eqn:E; [|done].
  unfold resolvePendingSessionDpopKey, assertDpopKeyMatchesPendingSession in E.
  apply iobind_ok in E as (c & g1 & Hv & E). destruct (negb _) in E; [done|]. apply ret_ok in E as [_ ->].
  by eapply verify_and_cache_ok in Hv.
Qed.

End Uses.

(** ** The machine *)

(** The ways a request uses a proof *)
Inductive proof_use :=
  | product_request (allowPendingOAuth : bool) (w : Weather) (rq : Request) (lookup activity : Z)
  | unauthenticated_request (recordReplays : option bool) (rq : Request)
  | auth_call (path : option string) (r : FetchRequest) (hs : option FetchHeaders) (current : option BaSession.t)
  | session_creation (cx : DpopCreationContext)
  | ceremony (cx : DpopCreationContext) (ignoreAuthorizationHeader : bool)
  | pending_session (cx : DpopCreationContext) (boundJkt : option string) (createdAt : Z).

Section Machine.
Context (J : DpopJose) `{A : SessionApi} `{I : InternalAdapter} (updateSession : string → string → list BaSession.t → list BaSession.t).

Definition run_use (o : DpopOptions) (u : proof_use) (at_ : Moments) (g : gate) : gate :=
  match u with
  | product_request allow w rq lookup activity => (requireAuthentication J allow (Some o) w rq (mkRequestMoments lookup at_ activity) g).2
  | unauthenticated_request rr rq => (requireDpopOnly J o rr rq at_ g).2
  | auth_call path r hs current => (dpop_before_hook J updateSession o path r hs current at_ g).2
  | session_creation cx => (tryBindDpopAtCreation J (Some cx) (Some o) at_ g).2
  | ceremony cx ignore => (requireDpopProofForSessionCreation J cx (Some o) ignore at_ g).2
  | pending_session cx bound created => (resolvePendingSessionDpopKey J cx bound created (Some o) at_ g).2
  end.

Definition context_proof (o : DpopOptions) (cx : DpopCreationContext) (ignore : bool) : option ProofInput :=
  (λ r, fetch_proof o r (cx_headers cx ≫= fh_dpop) (bearer_of (if ignore then None else cx_headers cx ≫= fh_authorization))) <$>
  cx_request cx.

(** The proof a use is about *)
Definition use_proof (o : DpopOptions) (u : proof_use) : option ProofInput :=
  match u with
  | product_request _ _ rq _ _ => Some (request_proof o rq)
  | unauthenticated_request _ rq =>
      Some (mkProofInput (first_value (rq_dpop rq)) (rq_method rq) (buildHtu (baseUrl o) (rq_originalUrl rq)) None)
  | auth_call _ r hs _ => Some (fetch_proof o r (hs ≫= fh_dpop) (bearer_of (hs ≫= fh_authorization)))
  | session_creation cx => context_proof o cx false
  | ceremony cx ignore => context_proof o cx ignore
  | pending_session cx _ _ => context_proof o cx false
  end.

(** A proof: its key, its identifier and the time it states *)
Definition proof := (string * string * Z)%type.

(** Whether a use goes through on the strength of its proof: a product request with a session bound to a key; a request
    behind the proof alone, unless its route leaves the recording to the ceremony it calls (/enrol/verify and
    /login/verify); a call of Better Auth with a bound session, or one that binds the proof's key to its session; a session
    created with the proof's key; a ceremony.  A session without a key passes with any proof or none, and claims verified
    earlier in the same request are not a use of their own. *)
Definition relies (o : DpopOptions) (u : proof_use) (at_ : Moments) (g : gate) : bool :=
  match u with
  | product_request allow w rq lookup activity =>
      match (resolve allow rq lookup g).1, (requireAuthentication J allow (Some o) w rq (mkRequestMoments lookup at_ activity) g).1 with
      | Ok (Some x), Ok _ => match dpopJkt x with Some _ => true | None => false end
      | _, _ => false
      end
  | unauthenticated_request rr rq =>
      negb (bool_decide (rr = Some false)) && match (requireDpopOnly J o rr rq at_ g).1 with Ok _ => true | Err _ => false end
  | auth_call path r hs current =>
      negb (isSessionUpgradeCeremonyPath path) &&
      match current with
      | None => false
      | Some x =>
          rests_on_proof (BaSession.dpopJkt x)
        (decideDpopForSession J (fetch_proof o r (hs ≫= fh_dpop) (bearer_of (hs ≫= fh_authorization)))
           (BaSession.dpopJkt x) (BaSession.createdAt x) (phase1CutoverAt o) (replayWindowSeconds o)
           (rememberVerifiedDpopProof (fr_id r)) at_ g).1
      end
  | session_creation cx =>
      match cx_request cx ≫= λ r, verified_claims (fr_id r) g, (tryBindDpopAtCreation J (Some cx) (Some o) at_ g).1 with
      | None, Ok (Some _) => true
      | _, _ => false
      end
  | ceremony cx ignore =>
      match (requireDpopProofForSessionCreation J cx (Some o) ignore at_ g).1 with Ok _ => true | Err _ => false end
  | pending_session cx bound created =>
      match bound with
      | Some _ => match (resolvePendingSessionDpopKey J cx bound created (Some o) at_ g).1 with Ok _ => true | Err _ => false end
      | None => false
      end
  end.

(** The proof a use goes through on *)
Definition accepted_proof (o : DpopOptions) (u : proof_use) (at_ : Moments) (g : gate) : list proof :=
  if relies o u at_ g then
    match use_proof o u with
    | Some i =>
        match verifyDpopProof J i (at_verify at_), proof_iat J i (at_verify at_) with
        | Ok c, Some iat => [(cl_jkt c, cl_jti c, iat)]
        | _, _ => []
        end
    | None => []
    end
  else [].

Record world := mkWorld { clock : Z; at_gate : gate; accepted : list proof }.

(** [W] is the window in seconds, [D] the longest time in milliseconds from a proof's verification to its insertion
    and [K] the skew of the worker's clock. *)
Inductive step (W D K : Z) : world → world → Prop :=
  | step_time w t : clock w ≤ t → step W D K w (mkWorld t (at_gate w) (accepted w))
  | step_use w o u at_ :
      replay_window (replayWindowSeconds o) = W →
      at_verify at_ ≤ at_record at_ → at_record at_ ≤ clock w → clock w ≤ at_verify at_ + D →
      let g' := run_use o u at_ (at_gate w) in
      step W D K w (mkWorld (clock w) g' (accepted_proof o u at_ (at_gate w) ++ accepted w))
  | step_prune w now : now ≤ clock w + K →
      step W D K w (mkWorld (clock w) (pruneExpiredReplays now (at_gate w)).2 (accepted w)).

Lemma run_use_records o u at_ g W : replay_window (replayWindowSeconds o) = W →
  match use_proof o u with
  | Some i => records J W i at_ (g_replays g) (g_replays (run_use o u at_ g))
  | None => g_replays (run_use o u at_ g) = g_replays g
  end.
Proof.
  intros HW.
  destruct u as [allow w rq lookup activity|rr rq|path r hs current|cx|cx ignore|cx bound created]; unfold use_proof, run_use.
  - by apply (authentication_records J W allow o w rq (mkRequestMoments lookup at_ activity)).
  - by apply dpop_only_records.
  - by apply hook_records.
  - unfold context_proof. destruct (cx_request cx) as [r|] eqn:Hr; cbn; [by apply (try_bind_records J W cx o r at_ Hr HW g)|].
    unfold tryBindDpopAtCreation. rewrite Hr. simpl. by destruct (cx_headers cx).
  - unfold context_proof. destruct (cx_request cx) as [r|] eqn:Hr; cbn; [by apply (verify_and_cache_records J W cx o r ignore at_ Hr HW g)|].
    unfold requireDpopProofForSessionCreation, verifyAndCacheDpopProof. by rewrite Hr.
  - unfold context_proof. destruct (cx_request cx) as [r|] eqn:Hr; cbn; [by apply (resolve_pending_records J W cx bound created o r at_ Hr HW g)|].
    unfold resolvePendingSessionDpopKey, assertDpopKeyMatchesPendingSession, requireDpopProofForSessionCreation, verifyAndCacheDpopProof.
    rewrite Hr. destruct bound; [done|]. by destruct (cx_headers cx ≫= fh_dpop).
Qed.

(** A use that goes through on its proof has recorded it. *)
Lemma relies_inserts o u at_ g W : replay_window (replayWindowSeconds o) = W → relies o u at_ g = true →
  ∃ i, use_proof o u = Some i ∧ inserts J W i at_ (g_replays g) (g_replays (run_use o u at_ g)).
Proof.
  intros HW.
  destruct u as [allow w rq lookup activity|rr rq|path r hs current|cx|cx ignore|cx bound created]; unfold relies, use_proof, run_use.
  - intros Hr. eexists; split; [reflexivity|]. by eapply (authentication_inserts J W).
  - intros [Hn Hr]%andb_true_iff. eexists; split; [reflexivity|]. by eapply (dpop_only_inserts J W).
  - intros [Hn Hr]%andb_true_iff. eexists; split; [reflexivity|]. by eapply (hook_inserts J W).
  - intros Hr. apply (try_bind_inserts J W) in Hr as (r & Er & Hr); [|done]. unfold context_proof. rewrite Er. by eexists.
  - destruct (requireDpopProofForSessionCreation _ _ _ _ _ g) as [[c|e] g'] eqn:E; [|done]. intros _.
    apply (verify_and_cache_ok J W) in E as (r & Er & Hr); [|done]. unfold context_proof. rewrite Er. by eexists.
  - destruct bound as [k|]; [|done]. intros Hr. apply (pending_inserts J W) in Hr as (r & Er & Hr); [|done].
    unfold context_proof. rewrite Er. by eexists.
Qed.

(** The earliest expiry a row of a proof may carry *)
Definition kept_until (W : Z) (p : proof) : Z := 1000 * (p.2 - 60) + W * 1000.

(** Either the row of an accepted proof is still there, or it is too late for the proof to verify. *)
Definition covered (W K t : Z) (rs : list Replay.t) (p : proof) : Prop :=
  (∃ r, In r rs ∧ Replay.is_for p.1.1 p.1.2 r = true ∧ kept_until W p ≤ Replay.expiresAt r) ∨ kept_until W p - K < t.

Definition safe (W K : Z) (w : world) : Prop :=
  List.NoDup (accepted w) ∧ ∀ p, In p (accepted w) → covered W K (clock w) (g_replays (at_gate w)) p.

Lemma covered_mono W K t t' rs rs' p : t ≤ t' → (∀ r, In r rs → In r rs') → covered W K t rs p → covered W K t' rs' p.
Proof. intros Ht Hr [(r & H & ? & ?)|H]; [left; exists r; auto | right; lia]. Qed.

Lemma covered_pruned W K t rs now p : now ≤ t + K → covered W K t rs p →
  covered W K t (List.filter (λ r, negb (Replay.expiresAt r <? now)) rs) p.
Proof.
  intros Hn [(r & H & Hf & He)|H]; [|by right]. destruct (Z.ltb_spec (Replay.expiresAt r) now).
  - right. lia.
  - left. exists r. rewrite filter_In. repeat split; try done. apply negb_true_iff. by apply Z.ltb_ge.
Qed.

(** What a use adds to the accepted proofs. *)
Lemma accepted_proof_cases o u at_ g W : replay_window (replayWindowSeconds o) = W →
  let g' := run_use o u at_ g in
  accepted_proof o u at_ g = [] ∧ (∀ r, In r (g_replays g) → In r (g_replays g')) ∨
  ∃ c iat, accepted_proof o u at_ g = [(cl_jkt c, cl_jti c, iat)] ∧
    1000 * (iat - 60) ≤ at_verify at_ < 1000 * (iat + 61) ∧
    exists_row (Replay.is_for (cl_jkt c) (cl_jti c)) (g_replays g) = false ∧
    g_replays g' = Replay.mk (cl_jkt c) (cl_jti c) (at_record at_ + W * 1000) :: g_replays g.
Proof.
  intros HW g'. unfold accepted_proof. destruct (relies o u at_ g) eqn:Hr.
  - right. destruct (relies_inserts o u at_ g W HW Hr) as (i & -> & c & Hv & He & Hg).
    destruct (proof_iat_window J i _ c Hv) as (iat & Hi & Hw). exists c, iat. by rewrite Hv, Hi.
  - left. split; [done|]. pose proof (run_use_records o u at_ g W HW) as H. fold g' in H. intros r Hin.
    destruct (use_proof o u); [|by rewrite H]. destruct H as [->|(c & _ & _ & ->)]; [done | by right].
Qed.

Lemma step_safe W D K w w' : 121000 + D + K ≤ W * 1000 → step W D K w w' → safe W K w → safe W K w'.
Proof.
  intros HW Hs [Hn Hc]. destruct Hs as [w t Ht|w o u at_ Ho H1 H2 H3 g'|w now Hp]; simpl.
  - split; [done|]. intros p Hi. eapply covered_mono; [exact Ht| |by apply Hc]; auto.
  - pose proof (accepted_proof_cases o u at_ (at_gate w) W Ho) as Ha. cbv zeta in Ha. fold g' in Ha.
    destruct Ha as [[-> Hr]|(c & iat & -> & Hi & He & Hr)].
    + split; [done|]. simpl. intros p Hp. eapply covered_mono; [reflexivity|exact Hr|by apply Hc].
    + split; simpl.
      * constructor; [|done]. intros Hin. apply Hc in Hin as [(r & Hin & Hf & _)|Hlt].
        -- rewrite exists_row_false in He. specialize (He r Hin). simpl in Hf. congruence.
        -- unfold kept_until in Hlt. simpl in Hlt. lia.
      * rewrite Hr. intros p [<-|Hp].
        -- left. eexists. split; [by left|]. unfold Replay.is_for, kept_until. simpl. rewrite !bool_decide_true by done.
           split; [done|lia].
        -- eapply covered_mono; [reflexivity| |by apply Hc]. by right.
  - split; [done|]. intros p Hi. simpl. apply covered_pruned; [done | by apply Hc].
Qed.

End Machine.

End DpopReplay.

(** The replay window, on every run and on a concrete one. *)

Module DpopProps.
Import AuthDb AuthDevice AuthSessions Dpop Gateway DpopReplay.

(** C11: with a replay window that exceeds 121 seconds by the longest time between a proof's verification and its
    insertion and by the skew of the pruning clock, no two requests go through on the same proof, by whatever routes they come
    and however the pruning of the replay table falls between them: product requests with a session bound to a key, requests
    behind a proof alone, calls of Better Auth with a bound session or that bind one, sessions created with the proof's key
    and the ceremonies.  Not counted are the middleware of /enrol/verify and /login/verify, which checks the proof and leaves
    recording it to the ceremony behind it, and sessions without a key, which pass with any proof or none. *)
Theorem proof_accepted_once (J : DpopJose) `{A : SessionApi} `{I : InternalAdapter} upd (W D K t0 : Z) g w :
  121000 + D + K ≤ W * 1000 → rtc (step J upd W D K) (mkWorld t0 g []) w → List.NoDup (accepted w).
Proof.
  intros HW Hr. assert (safe W K (mkWorld t0 g [])) as H0 by (split; [constructor | done]).
  cut (safe W K w); [by intros [? _]|]. induction Hr as [|w1 w2 w3 Hs _ IH]; [done|].
  apply IH. by eapply step_safe.
Qed.

(** ** A device and its proof *)

Definition jwk : json := JObj [("kty", JStr "EC"); ("crv", JStr "P-256"); ("x", JStr "X"); ("y", JStr "Y")].
Definition jti : string := "0123456789abcdef".
Definition payload : list (string * json) :=
  [("htm", JStr "POST"); ("htu", JStr "https://api.example/v1/device/challenge"); ("iat", JNum 3540); ("jti", JStr jti)].

Definition jose : DpopJose := mkDpopJose
  (λ p, if bool_decide (p = "h") then Some (JObj [("typ", JStr "dpop+jwt"); ("alg", JStr "ES256"); ("jwk", jwk)]) else None)
  (λ _ p, if bool_decide (p = "h.p.s") then Some payload else None)
  (λ _, "thumbprint") (λ _, "hash").

#[local] Instance api : SessionApi := {| findSession := λ _ _, None; getSession := λ _ _ _ l, mkSessionRead None None l |}.
#[local] Instance adapter : InternalAdapter := {|
  findUserById := λ _ _, None; updateUser := λ _ _ l, l; listSessions := λ _ _, []; deleteSession := λ _ l, l;
  deleteUserSessions := λ _ l, l |}.

Definition no_update (token jkt : string) (l : list BaSession.t) : list BaSession.t := l.
Definition request : Request := mkRequest "post" "/v1/device/challenge?x=1" (one " h.p.s ") (Some "Bearer t") None.
Definition options (window : option Z) : DpopOptions := mkDpopOptions (mkUrl "https:" "API.example" "443") window None.
Definition empty_db : auth := mkAuth (mkDb [] [] [] [] [] [] [] [] [] [] [] [] [] 0 0) [] [] [] [] [] [] [] [] [] [] [].
Definition start : world := mkWorld 3480050 (mkGate empty_db [] []) [].

(** The proof is presented on arrival at [t]. *)
Definition present (window : option Z) (t : Z) (w : world) : world :=
  let at_ := mkMoments t t in
  let u := unauthenticated_request None request in
  let g' := run_use jose no_update (options window) u at_ (at_gate w) in
  mkWorld t g' (accepted_proof jose (options window) u at_ (at_gate w) ++ accepted w).

Lemma present_step window W D K t w : replay_window window = W → clock w = t → 0 ≤ D →
  step jose no_update W D K w (present window t w).
Proof.
  intros HW <- HD. unfold present. apply (step_use jose no_update W D K w (options window)); simpl; [done|lia|lia|lia].
Qed.

Definition later (t : Z) (w : world) : world := mkWorld t (at_gate w) (accepted w).
Definition prune (w : world) : world := mkWorld (clock w) (pruneExpiredReplays (clock w) (at_gate w)).2 (accepted w).

(** Two minutes after the first presentation the table is pruned, and the proof comes again. *)
Definition twice (window : option Z) : world :=
  present window 3600500 (later 3600500 (prune (later 3600100 (present window 3480050 start)))).

Lemma twice_runs window W D K : replay_window window = W → 0 ≤ D → 0 ≤ K → rtc (step jose no_update W D K) start (twice window).
Proof.
  intros HW HD HK. unfold twice. repeat (eapply rtc_r; [|first
    [ apply present_step; [done | reflexivity | done]
    | apply (step_time jose no_update W D K _ 3600500); vm_compute; discriminate
    | apply (step_time jose no_update W D K _ 3600100); vm_compute; discriminate
    | apply (step_prune jose no_update W D K); lia ]]). apply rtc_refl.
Qed.

Lemma proof_accepted_once_witness :
  accepted (twice (Some 122)) = [("thumbprint", jti, 3540)] ∧ List.NoDup (accepted (twice (Some 122))).
Proof.
  split; [vm_compute; reflexivity|].
  refine (proof_accepted_once jose no_update 122 500 500 3480050 (mkGate empty_db [] []) (twice (Some 122)) _ _);
    [vm_compute; discriminate | apply twice_runs; [reflexivity | lia | lia]].
Defined.

(** The window every caller falls back to, 120 seconds, has no such margin: a proof dated a minute ahead is
    accepted, its row is pruned two minutes later, and the proof is accepted once more while it still verifies, with no
    delay between verification and insertion and one clock. *)
Theorem default_window_admits_replay :
  rtc (step jose no_update (replay_window None) 0 0) start (twice None) ∧
  accepted (twice None) = [("thumbprint", jti, 3540); ("thumbprint", jti, 3540)].
Proof. split; [by apply twice_runs | vm_compute; reflexivity]. Qed.

End DpopProps.
