(* ===== verification/GatewayProps.v ===== *)
(** What the way into the API guarantees: of one admitted request, and of a device session over any number of them. *)

From Stdlib Require Import Ascii String.
From S2P Require Import Prelude JsString DateTime IntakePolicy Db AuthDb AuthDevice AuthSessions Dpop Gateway DpopReplay AuthDemo.

Module GatewayProps.
Import AuthDb AuthSessions Dpop Gateway DpopReplay.

(** ** Device sessions past a limit *)

(** A device session within both limits. *)
Definition within_limits (x : BaSession.t) (t : Z) : Prop :=
  t < BaSession.createdAt x + DEVICE_SESSION_ABSOLUTE_LIFETIME_MS ∧
  t < Z.max (BaSession.updatedAt x) (BaSession.createdAt x) + DEVICE_SESSION_IDLE_TIMEOUT_MS.

Lemma verdict_active_iff x t : (∃ i a, session_verdict x t = verdict_active i a) ↔ within_limits x t.
Proof.
  unfold session_verdict, evaluateDeviceSessionLifetime, deviceSessionAbsoluteExpiresAt, within_limits.
  repeat case_match; boolify; split; try (intros (? & ? & [=])); try lia; try (by eauto); intros; lia.
Qed.

Lemma same_session_device x y : same_session x y → is_device_session x = is_device_session y.
Proof. intros (_ & _ & _ & _ & H & _). unfold is_device_session. by rewrite H. Qed.

(** The lookup answers a device session past a limit as expired already. *)
Lemma limited_live found t f : limited found t = Some f → t ≤ BaSession.expiresAt (f_session f) →
  found = Some f ∧ (is_device_session (f_session f) = true → within_limits (f_session f) t).
Proof.
  destruct found as [[x u]|]; simpl; [|done]. unfold applyDeviceSessionLimits.
  destruct (is_device_session x) eqn:Ed; simpl.
  - destruct (session_verdict x t) eqn:Ev; simpl; intros [= <-]; simpl.
    + intros _. split; [done|]. intros _. apply verdict_active_iff. eauto.
    + lia.
  - intros [= <-] _. split; [done|]. simpl. congruence.
Qed.

Section Admission.
Context (J : DpopJose) `{A : SessionApi} `{!SessionApiLaws A} `{I : InternalAdapter}.

Lemma get_session_ok rq t g f g' : get_session rq t g = (Ok (Some f), g') →
  ∃ x, In x (sessions (g_auth g)) ∧ In (f_user f) (users (g_auth g)) ∧ same_session (f_session f) x ∧
    User.id (f_user f) = BaSession.userId x ∧ (is_device_session x = true → within_limits x t) ∧
    g' = set_auth (set_sessions (sr_rows (getSession (λ tok, limited (findSession tok (g_auth g)) t) rq t (sessions (g_auth g)))) (g_auth g)) g.
Proof.
  unfold get_session. set (r := getSession _ _ _ _). intros H.
  assert (sr_returned r = Some f ∧ g' = set_auth (set_sessions (sr_rows r) (g_auth g)) g) as [Hr ->].
  { unfold get_session_after, ret in H. repeat case_match; simplify_eq/=; done. }
  destruct (getSession_returned _ _ _ _ _ Hr) as (f0 & Hs & Hu & Hsame & Hlive).
  destruct (getSession_stored _ _ _ _ _ Hs) as (tok & Hf). apply limited_live in Hf as [Hf Hd]; [|done].
  apply findSession_spec in Hf as (Hx & Hus & _ & Hid). exists (f_session f0). rewrite Hu. done.
Qed.

(** Identity of a resolved request *)
Lemma resolve_ok allow rq t g x g' : resolve allow rq t g = (Ok (Some x), g') →
  ∃ row u, In row (sessions (g_auth g)) ∧ In u (users (g_auth g)) ∧
    User.id u = BaSession.userId row ∧ User.disabledAt u = None ∧ User.recoveryRequiredAt u = None ∧
    betterAuthUserId x = User.id u ∧ providerSessionId x = BaSession.id row ∧ dpopJkt x = BaSession.dpopJkt row ∧
    sessionCreatedAt x = BaSession.createdAt row ∧ authenticationLevel x = BaSession.authenticationLevel row ∧
    level_accepted allow (authenticationLevel x) = true ∧ (is_device_session row = true → within_limits row t) ∧
    ∃ rows, g' = set_auth (set_sessions rows (g_auth g)) g.
Proof.
  unfold resolve. intros H. apply iobind_ok in H as (found & g1 & Hg & H). apply ret_ok in H as [Hx ->].
  destruct found as [f|]; [|done]. simpl in Hx. symmetry in Hx.
  apply get_session_ok in Hg as (row & H1 & H2 & (S1 & S2 & S3 & S4 & S5 & S6) & H3 & H4 & ->).
  unfold identify in Hx. destruct (negb _ || negb _) eqn:Eu; [done|].
  destruct (negb (level_accepted _ _)) eqn:El; [done|]. simplify_eq/=. boolify.
  exists row, (f_user f). split_and!; try done; try congruence; by eexists.
Qed.

(** A bound session is let on only with an unused proof of its key, which is then used. *)
Lemma enforce_ok rq k dpop at_ g v g' : enforceBoundSessionProof J rq k dpop at_ g = (Ok v, g') →
  ∃ o c, dpop = Some o ∧ verifyDpopProof J (request_proof o rq) (at_verify at_) = Ok c ∧ cl_jkt c = k ∧
    exists_row (Replay.is_for k (cl_jti c)) (g_replays g) = false ∧
    g' = set_replays (Replay.mk k (cl_jti c) (at_record at_ + replay_window (replayWindowSeconds o) * 1000) :: g_replays g) g.
Proof.
  unfold enforceBoundSessionProof. destruct dpop as [o|]; [|done]. intros H. inv_io H.
  destruct (negb _) eqn:Ek; [done|]. boolify. inv_io H.
  unfold record_for_window, recordProof in Hio0. destruct (exists_row _ _) eqn:Ee; simplify_eq/=.
  exists o, a. repeat split; try done. all: by inv_io H.
Qed.

Lemma check_binding_auth rq x dpop at_ g : ∃ rows, g_auth (check_binding J rq x dpop at_ g).2 = set_sessions rows (g_auth g).
Proof.
  assert (g_auth g = set_sessions (sessions (g_auth g)) (g_auth g)) as Hid by (by destruct (g_auth g)).
  unfold check_binding, enforceBoundSessionProof, maybeBindUnboundSession, record_for_window, recordProof, bindDpopKey, iobind, lift, throw.
  repeat case_match; simplify_eq/=; by eexists.
Qed.

Lemma active_account_ok x g a g' : active_account x g = (Ok a, g') →
  g' = g ∧ In a (accts (g_auth g)) ∧ Acct.betterAuthUserId a = betterAuthUserId x ∧ Acct.status a = acc_active.
Proof.
  unfold active_account. destruct (findByBetterAuthUserId _ _) as [b|] eqn:E; [|done].
  destruct (negb _) eqn:Es; [done|]. intros [= -> ->]. boolify.
  unfold findByBetterAuthUserId in E. apply find_row_Some in E as [Hi Hk]. unfold by_id in Hk. boolify. done.
Qed.

(** The parts of an admission. *)
Lemma authentication_ok allow dpop w rq at_ g c g' : requireAuthentication J allow dpop w rq at_ g = (Ok c, g') →
  ∃ x a g1 g2, resolve allow rq (at_lookup at_) g = (Ok (Some x), g1) ∧
    check_binding J rq x dpop (at_proof at_) g1 = (Ok tt, g2) ∧ active_account x g2 = (Ok a, g2) ∧
    g' = (iocatch (resolver_recordActivity w x (at_activity at_)) (λ _, ret tt) g2).2 ∧
    c = mkAuthContext (Acct.id a) (providerSessionId x) (population x) (sessionCreatedAt x) (authenticationLevel x).
Proof.
  unfold requireAuthentication. intros H. apply iobind_ok in H as ([x|] & g1 & Hr & H); [|by apply throw_ok in H].
  apply iobind_ok in H as ([] & g2 & Hb & H). apply iobind_ok in H as (a & g3 & Ha & H).
  destruct (active_account_ok _ _ _ _ Ha) as [-> _]. destruct (w_limiter w); [by apply throw_ok in H|].
  apply iobind_ok in H as (u & g4 & Hrec & H). apply ret_ok in H as [-> ->].
  exists x, a, g1, g2. repeat split; try done. by rewrite Hrec.
Qed.

(** The account an admission is for *)
Lemma admitted_account allow dpop w rq at_ g c g' : requireAuthentication J allow dpop w rq at_ g = (Ok c, g') →
  ∃ a, In a (accts (g_auth g)) ∧ Acct.id a = cx_accountId c ∧ Acct.status a = acc_active.
Proof.
  intros (x & a & g1 & g2 & Hr & Hb & Ha & _ & ->)%authentication_ok.
  apply resolve_ok in Hr as (_ & _ & _ & _ & _ & _ & _ & _ & _ & _ & _ & _ & _ & _ & rows & ->).
  apply active_account_ok in Ha as (_ & Hin & _ & Hst).
  pose proof (check_binding_auth rq x dpop (at_proof at_) (set_auth (set_sessions rows (g_auth g)) g)) as [rows' Hrows].
  rewrite Hb in Hrows. simpl in Hrows. rewrite Hrows in Hin. by exists a.
Qed.

(** C9: a request to a product endpoint is let through only for a session that is stored and within its limits, of a
    user who is neither disabled nor in recovery, for that user's own active account; and when the session is bound to a device
    key, only with a proof signed by that key for this method, URL and bearer token which had not been used, and which
    has been used from then on. *)
Theorem admitted_requests_are_authenticated allow dpop w rq at_ g c g' :
  requireAuthentication J allow dpop w rq at_ g = (Ok c, g') →
  ∃ x u a,
    In x (sessions (g_auth g)) ∧ In u (users (g_auth g)) ∧ In a (accts (g_auth g)) ∧
    BaSession.id x = cx_providerSessionId c ∧ BaSession.userId x = User.id u ∧
    User.disabledAt u = None ∧ User.recoveryRequiredAt u = None ∧
    Acct.betterAuthUserId a = User.id u ∧ Acct.id a = cx_accountId c ∧ Acct.status a = acc_active ∧
    level_accepted allow (BaSession.authenticationLevel x) = true ∧
    (is_device_session x = true → within_limits x (at_lookup at_)) ∧
    ∀ k, BaSession.dpopJkt x = Some k → ∃ o cl,
      dpop = Some o ∧ verifyDpopProof J (request_proof o rq) (at_verify (at_proof at_)) = Ok cl ∧ cl_jkt cl = k ∧
      exists_row (Replay.is_for k (cl_jti cl)) (g_replays g) = false ∧
      exists_row (Replay.is_for k (cl_jti cl)) (g_replays g') = true.
Proof.
  intros (x & a & g1 & g2 & Hr & Hb & Ha & -> & ->)%authentication_ok.
  apply resolve_ok in Hr as (row & u & H1 & H2 & H3 & H4 & H5 & H6 & H7 & H8 & H9 & H10 & H11 & H12 & rows & ->).
  apply active_account_ok in Ha as (_ & Hin & Hau & Hst).
  pose proof (check_binding_auth rq x dpop (at_proof at_) (set_auth (set_sessions rows (g_auth g)) g)) as [rows' Hrows].
  rewrite Hb in Hrows. simpl in Hrows. rewrite Hrows in Hin. simpl in Hin.
  exists row, u, a. split_and!; try done; try congruence.
  intros k Hk. unfold check_binding in Hb. rewrite H8, Hk in Hb.
  apply enforce_ok in Hb as (o & cl & -> & Hv & Hkk & Hno & ->). exists o, cl. repeat split; try done.
  assert (keeps_replays (iocatch (resolver_recordActivity w x (at_activity at_)) (λ _, ret tt))) as Hkeep
    by (apply keeps_catch; [apply record_activity_keeps | intros; apply keeps_ret]).
  rewrite Hkeep. simpl. unfold Replay.is_for. simpl. by rewrite !bool_decide_true by done.
Qed.

End Admission.

(** ** Over any number of requests *)

(** Every device session of [l'] is one of [l] with its times. *)
Definition same_times (x y : BaSession.t) : Prop :=
  BaSession.id x = BaSession.id y ∧ is_device_session x = is_device_session y ∧
  BaSession.createdAt x = BaSession.createdAt y ∧ BaSession.updatedAt x = BaSession.updatedAt y.
Definition times_kept (l l' : list BaSession.t) : Prop :=
  ∀ x, In x l' → is_device_session x = true → ∃ y, In y l ∧ same_times x y.

#[local] Instance same_times_equiv : Equivalence same_times.
Proof. split; [by intros x | intros x y (? & ? & ? & ?); done | intros x y z (? & ? & ? & ?) (? & ? & ? & ?)]. repeat split; congruence. Qed.

#[local] Instance times_kept_preorder : PreOrder times_kept.
Proof.
  split; [by intros l x Hx _; exists x|].
  intros l1 l2 l3 H12 H23 x Hx Hd. destruct (H23 x Hx Hd) as (y & Hy & Hxy).
  destruct (H12 y Hy) as (z & Hz & Hyz); [by destruct Hxy as (_ & <- & _)|]. exists z. split; [done|]. by etrans.
Qed.

Lemma times_kept_update (p : BaSession.t → bool) f l : (∀ x, same_times (f x) x) → times_kept l (update_where p f l).
Proof.
  intros Hf x Hx _. apply in_update_where in Hx as (y & Hy & ->). exists y. split; [done|]. by destruct (p y).
Qed.

(** The admissions so far, the newest first. *)
Record Admission := mkAdmission { ad_context : AuthContext; ad_lookup : Z; ad_activity : Z }.
Record life := mkLife { l_gate : gate; admissions : list Admission }.

Section Life.
Context (J : DpopJose) `{A : SessionApi} `{!SessionApiLaws A} `{I : InternalAdapter} `{!InternalAdapterLaws I}.

Definition rows (g : gate) : list BaSession.t := sessions (g_auth g).

Definition admission (m : result AuthContext) (at_ : RequestMoments) : list Admission :=
  match m with Ok c => [mkAdmission c (at_lookup at_) (at_activity at_)] | Err _ => [] end.

(** A product request, another read of a session, or anything else that ends sessions, opens new ones (whose last
    activity is their creation, as the factory stores it) or writes other tables. *)
Inductive life_step : life → life → Prop :=
  | life_request l allow dpop w rq at_ :
      let r := requireAuthentication J allow dpop w rq at_ (l_gate l) in
      life_step l (mkLife r.2 (admission r.1 at_ ++ admissions l))
  | life_lookup l rq t : life_step l (mkLife (get_session rq t (l_gate l)).2 (admissions l))
  | life_other l g : (∀ x, In x (rows g) → In x (rows (l_gate l)) ∨ BaSession.updatedAt x ≤ BaSession.createdAt x) →
      life_step l (mkLife g (admissions l)).

Lemma get_session_times rq t g : times_kept (rows g) (rows (get_session rq t g).2).
Proof.
  unfold get_session. set (r := getSession _ _ _ _).
  assert (times_kept (rows g) (sr_rows r)) as Hr.
  { intros x Hx Hd. destruct (getSession_rows _ _ _ _ _ Hx) as (y & Hy & Hs & He). exists y. split; [done|].
    rewrite He; [done|]. rewrite <-Hd. symmetry. by apply same_session_device. }
  unfold get_session_after, rows, ret in *. repeat case_match; simplify_eq/=; try done.
  all: intros x Hx Hd; apply deleteSession_spec in Hx as [Hx _]; by apply Hr.
Qed.

Lemma set_key_times k x : same_times (set_key k x) x.
Proof. done. Qed.

Lemma check_binding_times rq x dpop at_ g : times_kept (rows g) (rows (check_binding J rq x dpop at_ g).2).
Proof.
  unfold check_binding, enforceBoundSessionProof, maybeBindUnboundSession, record_for_window, recordProof, bindDpopKey, iobind, lift, throw, rows.
  repeat case_match; simplify_eq/=; try done. all: apply times_kept_update; intros; apply set_key_times.
Qed.

(** What a device session's activity is accounted for by *)
Definition accounted (l : list Admission) (x : BaSession.t) : Prop :=
  BaSession.updatedAt x ≤ BaSession.createdAt x ∨
  ∃ e, In e l ∧ cx_providerSessionId (ad_context e) = BaSession.id x ∧ BaSession.updatedAt x ≤ ad_activity e.

Definition all_accounted (l : list Admission) (xs : list BaSession.t) : Prop :=
  ∀ x, In x xs → is_device_session x = true → accounted l x.

Lemma accounted_kept l xs xs' : times_kept xs xs' → all_accounted l xs → all_accounted l xs'.
Proof.
  intros Hk Ha x Hx Hd. destruct (Hk x Hx Hd) as (y & Hy & Hi & Hdd & Hc & Hu). unfold accounted. rewrite Hi, Hc, Hu.
  apply Ha; [done | congruence].
Qed.

Lemma accounted_more l l' xs : (∀ e, In e l → In e l') → all_accounted l xs → all_accounted l' xs.
Proof. intros Hl Ha x Hx Hd. destruct (Ha x Hx Hd) as [H|(e & He & H)]; [by left | right; exists e; auto]. Qed.

(** The activity write moves the sessions of the admission it is for, to its time. *)
Lemma activity_accounted w x t g c lk l : cx_providerSessionId c = providerSessionId x → all_accounted l (rows g) →
  all_accounted (mkAdmission c lk t :: l) (rows (iocatch (resolver_recordActivity w x t) (λ _, ret tt) g).2).
Proof.
  intros Hc Ha. assert (all_accounted (mkAdmission c lk t :: l) (rows g)) as Ha'
    by (eapply accounted_more; [|exact Ha]; by right).
  assert (all_accounted (mkAdmission c lk t :: l) (recordActivity (providerSessionId x) t (rows g))) as Hr.
  { intros y Hy Hd. apply in_update_where in Hy as (z & Hz & ->). destruct (records_activity _ _ z) eqn:E; [|by apply Ha'].
    unfold records_activity, by_id in E. boolify. destruct (Z.le_gt_cases t (BaSession.updatedAt z)).
    - destruct (Ha' z Hz) as [Hu|(e & He & Hi & Hu)]; [done| |]; unfold accounted; simpl; rewrite Z.max_l by lia; eauto.
    - right. eexists. split; [by left|]. simpl. rewrite Z.max_r by lia. split; [congruence | lia]. }
  unfold iocatch, resolver_recordActivity, write_mirror, throw, ret, rows in *. repeat case_match; simplify_eq/=; try done.
  all: by destruct (w_mirror w).
Qed.

(** What is shown of an admission, given the earlier ones. *)
Definition bounded (earlier : list Admission) (e : Admission) : Prop :=
  let created := cx_sessionCreatedAt (ad_context e) in
  ad_lookup e < created + DEVICE_SESSION_ABSOLUTE_LIFETIME_MS ∧
  (ad_lookup e < created + DEVICE_SESSION_IDLE_TIMEOUT_MS ∨
   ∃ e', In e' earlier ∧ cx_providerSessionId (ad_context e') = cx_providerSessionId (ad_context e) ∧
         ad_lookup e < ad_activity e' + DEVICE_SESSION_IDLE_TIMEOUT_MS).

Definition is_device_admission (e : Admission) : Prop :=
  cx_authenticationLevel (ad_context e) = DEVICE_SESSION_AUTHENTICATION_LEVEL.

Fixpoint all_bounded (l : list Admission) : Prop :=
  match l with
  | [] => True
  | e :: earlier => (is_device_admission e → bounded earlier e) ∧ all_bounded earlier
  end.

Definition life_ok (l : life) : Prop := all_accounted (admissions l) (rows (l_gate l)) ∧ all_bounded (admissions l).

Lemma request_bounded allow dpop w rq at_ g c g' l : all_accounted l (rows g) →
  requireAuthentication J allow dpop w rq at_ g = (Ok c, g') →
  is_device_admission (mkAdmission c (at_lookup at_) (at_activity at_)) → bounded l (mkAdmission c (at_lookup at_) (at_activity at_)).
Proof.
  intros Ha (x & a & g1 & g2 & Hr & _ & _ & _ & ->)%authentication_ok Hd.
  apply resolve_ok in Hr as (row & u & H1 & _ & _ & _ & _ & _ & H7 & _ & H9 & H10 & _ & H12 & _).
  assert (is_device_session row = true) as Hrow
    by (unfold is_device_session; apply bool_decide_eq_true_2; rewrite <-H10; apply Hd).
  destruct (H12 Hrow) as [Habs Hidle]. split; [by simpl; rewrite H9|]. simpl. rewrite H7, H9.
  destruct (Ha row H1 Hrow) as [Hu|(e & He & Hi & Hu)].
  - left. rewrite Z.max_r in Hidle by done. done.
  - destruct (Z.le_gt_cases (BaSession.updatedAt row) (BaSession.createdAt row)).
    + left. rewrite Z.max_r in Hidle by done. done.
    + right. exists e. repeat split; try done. rewrite Z.max_l in Hidle by lia. lia.
Qed.

(** A refused request moves no session's activity. *)
Lemma refused_times allow dpop w rq at_ g e g' : requireAuthentication J allow dpop w rq at_ g = (Err e, g') →
  times_kept (rows g) (rows g').
Proof.
  unfold requireAuthentication, iobind, throw. intros H. pose proof (get_session_times rq (at_lookup at_) g) as H0.
  assert (rows (resolve allow rq (at_lookup at_) g).2 = rows (get_session rq (at_lookup at_) g).2) as Hr
    by (unfold resolve, iobind, ret; by destruct (get_session _ _ g) as [[?|?] ?]).
  rewrite <-Hr in H0. destruct (resolve _ _ _ g) as [[[x|]|e1] g1]; simpl in *; [|by injection H as <- <-|by injection H as <- <-].
  pose proof (check_binding_times rq x dpop (at_proof at_) g1) as H1.
  destruct (check_binding _ _ _ _ _ g1) as [[[]|e2] g2]; simpl in *; [|simplify_eq; by etrans].
  unfold active_account, throw, ret, iocatch in H. repeat case_match; simplify_eq/=; by etrans.
Qed.

Lemma life_step_ok l l' : life_step l l' → life_ok l → life_ok l'.
Proof.
  intros Hs [Ha Hb]. destruct Hs as [l allow dpop w rq at_ r|l rq t|l g Hg].
  - subst r. destruct (requireAuthentication J allow dpop w rq at_ (l_gate l)) as [[c|e] g'] eqn:E; simpl.
    + split; [|split; [by eapply request_bounded | done]].
      pose proof E as (x & a & g1 & g2 & Hr & Hbind & _ & -> & ->)%authentication_ok.
      apply activity_accounted; [done|]. eapply accounted_kept; [|exact Ha].
      pose proof (get_session_times rq (at_lookup at_) (l_gate l)) as H0.
      pose proof (check_binding_times rq x dpop (at_proof at_) g1) as H1. rewrite Hbind in H1. etrans; [|exact H1].
      unfold resolve in Hr. apply iobind_ok in Hr as (f & g3 & Hr & Hret). apply ret_ok in Hret as [_ ->]. by rewrite Hr in H0.
    + split; [|done]. eapply accounted_kept; [|exact Ha].
      by eapply refused_times.
  - split; [|done]. eapply accounted_kept; [apply get_session_times | exact Ha].
  - split; [|done]. intros x Hx Hd. destruct (Hg x Hx) as [Hx'|Hu]; [by apply Ha | by left].
Qed.

(** C21: over any number of requests, by any clients and with anything else happening to the sessions, a device
    session is admitted only in the 30 minutes from its creation, and only within five minutes of its creation or of the
    activity of an earlier admitted request of the same session. *)
Theorem device_sessions_time_out g l : (∀ x, In x (rows g) → BaSession.updatedAt x ≤ BaSession.createdAt x) →
  rtc life_step (mkLife g []) l →
  ∀ later e earlier, admissions l = later ++ e :: earlier → is_device_admission e → bounded earlier e.
Proof.
  intros H0 Hr. assert (life_ok (mkLife g [])) as Hok by (split; [intros x Hx _; left; auto | done]).
  assert (life_ok l) as [_ Hb] by (clear H0; induction Hr as [|l1 l2 l3 Hs _ IH]; [done|]; apply IH; by eapply life_step_ok).
  revert Hb. generalize (admissions l). clear. intros adm Hb later. revert adm Hb.
  induction later as [|e0 later IH]; intros adm Hb e earlier -> Hd; destruct Hb as [He Hb]; [by apply He | by eapply IH].
Qed.

End Life.

End GatewayProps.

(** A phone's requests through the gateway: the parameters of [Gateway] as tables, and the theorems of [GatewayProps]
    at concrete requests. *)

Module GatewayDemo.
Import AuthDb AuthSessions Dpop Gateway GatewayProps.

(** Better Auth over the tables: the bearer token is the session's token. *)
Definition table_find (tok : string) (s : auth) : option Found :=
  x ← find_row (by_id BaSession.token tok) (sessions s);
  u ← find_row (by_id User.id (BaSession.userId x)) (users s);
  Some (mkFound x u).

Definition table_get (find : string → option Found) (r : Request) (t : Z) (l : list BaSession.t) : SessionRead :=
  match readBearerToken r ≫= find with
  | None => mkSessionRead None None l
  | Some f =>
      if t <=? BaSession.expiresAt (f_session f) then mkSessionRead (Some f) (Some f) l
      else mkSessionRead None (Some f) (List.filter (λ x, negb (by_id BaSession.token (BaSession.token (f_session f)) x)) l)
  end.

#[local] Instance tables_api : SessionApi := {| findSession := table_find; getSession := table_get |}.

#[local] Instance tables_api_laws : SessionApiLaws tables_api.
Proof.
  split; cbn; unfold table_find, table_get.
  - intros tok s f H. destruct (find_row _ (sessions s)) as [x|] eqn:E; [|done]. simpl in H.
    destruct (find_row _ (users s)) as [u|] eqn:E'; [|done]. simpl in H. injection H as <-. simpl.
    apply find_row_Some in E as [? ?], E' as [? ?]. unfold by_id in *. boolify. done.
  - intros find r t l f. destruct (readBearerToken r) as [tok|]; simpl; [|done].
    destruct (find tok) as [f0|] eqn:E; [|done]. destruct (t <=? _); simpl; intros [= <-]; eauto.
  - intros find r t l f. destruct (readBearerToken r ≫= find) as [f0|]; [|done].
    destruct (Z.leb_spec t (BaSession.expiresAt (f_session f0))); simpl; [|done]. intros [= <-]. by exists f0.
  - intros find r t l x. destruct (readBearerToken r ≫= find) as [f0|]; simpl; [destruct (t <=? _); simpl|];
      rewrite ?filter_In; intros H; exists x; repeat split; try done; by destruct H.
Qed.

#[local] Existing Instances AuthDemo.tables_adapter AuthDemo.tables_laws.

(** A customer's phone, its key, and a session created at the start of the day *)
Definition user : User.t := User.mk "user_1" "ada@example.com" None "customer" None None.
Definition account : Acct.t := Acct.mk "acct_1" "user_1" None acc_active 0 0.
Definition session : BaSession.t := BaSession.mk "sid_1" "tok" "user_1" (Some "thumbprint") "device_biometric" 0 0 1800000.
Definition tables : auth :=
  set_sessions [session] (set_users [user] (set_accts [account] DpopProps.empty_db)).
Definition gate0 : gate := mkGate tables [] [].

(** Its two proofs for GET /v1/me *)
Definition signed (iat : Z) (jti : string) : list (string * json) :=
  [("htm", JStr "GET"); ("htu", JStr "https://api.example/v1/me"); ("iat", JNum iat); ("jti", JStr jti); ("ath", JStr "hash")].
Definition J0 : DpopJose := mkDpopJose (dj_header DpopProps.jose)
  (λ _ p, if bool_decide (p = "h.p.s") then Some (signed 100 "0123456789abcdef")
          else if bool_decide (p = "h.q.s") then Some (signed 390 "fedcba9876543210") else None)
  (λ _, "thumbprint") (λ _, "hash").

Definition options : option DpopOptions := Some (DpopProps.options None).
Definition fine : Weather := mkWeather None false false.
Definition with_proof (p : string) : Request := mkRequest "get" "/v1/me" (one p) (Some "Bearer tok") None.
Definition me : Request := with_proof "h.p.s".
Definition at_ (t : Z) : RequestMoments := mkRequestMoments t (mkMoments t t) t.

Example admitted : (requireAuthentication J0 false options fine me (at_ 100000) gate0).1 =
  Ok (mkAuthContext "acct_1" "sid_1" "customer" 0 "device_biometric").
Proof. vm_compute. reflexivity. Qed.

(** The same proof again, and no proof *)
Example replayed : (requireAuthentication J0 false options fine me (at_ 100500)
    (requireAuthentication J0 false options fine me (at_ 100000) gate0).2).1 = Err DpopReplayError.
Proof. vm_compute. reflexivity. Qed.

Example idle : (requireAuthentication J0 false options fine me (at_ 300000) gate0).1 = Err reauthRequiredError.
Proof. vm_compute. reflexivity. Qed.

Lemma admitted_requests_are_authenticated_witness :
  ∃ x, In x (sessions tables) ∧ BaSession.id x = "sid_1" ∧ within_limits x 100000.
Proof.
  destruct (admitted_requests_are_authenticated J0 false options fine me (at_ 100000) gate0
    (mkAuthContext "acct_1" "sid_1" "customer" 0 "device_biometric")
    (requireAuthentication J0 false options fine me (at_ 100000) gate0).2) as (x & u & a & H1 & H2 & H3 & H4 & H5);
    [vm_compute; reflexivity|].
  exists x. split; [exact H1|]. split; [exact H4|].
  destruct H5 as (_ & _ & _ & _ & _ & _ & _ & Hl & _). apply Hl.
  destruct H1 as [<-|[]]. vm_compute. reflexivity.
Defined.

(** One request after 100 seconds, and one 290 seconds after it. *)
Definition run_me (p : string) (t : Z) (l : life) : life :=
  let r := requireAuthentication J0 false options fine (with_proof p) (at_ t) (l_gate l) in
  mkLife r.2 (admission r.1 (at_ t) ++ admissions l).
Definition two_requests : life := run_me "h.q.s" 390000 (run_me "h.p.s" 100000 (mkLife gate0 [])).

Definition context : AuthContext := mkAuthContext "acct_1" "sid_1" "customer" 0 "device_biometric".

Lemma device_sessions_time_out_witness :
  admissions two_requests = [mkAdmission context 390000 390000; mkAdmission context 100000 100000] ∧
  bounded [mkAdmission context 100000 100000] (mkAdmission context 390000 390000).
Proof.
  split; [vm_compute; reflexivity|].
  apply (device_sessions_time_out J0 gate0 two_requests) with (later := []).
  - intros x [<-|[]]. vm_compute. discriminate.
  - unfold two_requests. eapply rtc_r; [eapply rtc_r; [apply rtc_refl|]|]; unfold run_me; apply life_request.
  - vm_compute. reflexivity.
  - reflexivity.
Defined.

End GatewayDemo.
