(* ===== verification/Staff.v ===== *)
(** Staff and partner accounts: the tables of invitations, passkeys and verified sessions, and the repositories
    over them (src/src/modules/auth/repository/staff/prisma-staff-invitation.repository.ts,
    prisma-staff-bootstrap.repository.ts, prisma-staff-account-lifecycle.repository.ts,
    prisma-staff-webauthn.repository.ts).

    Accounts, role assignments, users and sessions are those of [AuthDb].  The advisory lock and the row locks of
    the bootstrap serialise it with the transactions it could race with; a transaction of the model is atomic. *)

From Stdlib Require Import Ascii String.
From S2P Require Import Prelude JsString DateTime IntakePolicy Db AuthDb Gateway.

Module Staff.
Import AuthDb Gateway.

(** ** Rows *)

Module Invitation.
Record t := mk {
  id : string; email : string; displayName : string; role : string; legalPracticeId : option string;
  appraisalFirmId : option string; tokenHash : string; invitedByAccountId : option string; issuedVia : string;
  acceptedAccountId : option string; claimId : option string; claimedAt : option Z; expiresAt : Z;
  acceptedAt : option Z; revokedAt : option Z; createdAt : Z }.
Definition set_revokedAt (at_ : Z) (i : t) : t :=
  mk (id i) (email i) (displayName i) (role i) (legalPracticeId i) (appraisalFirmId i) (tokenHash i) (invitedByAccountId i)
    (issuedVia i) (acceptedAccountId i) (claimId i) (claimedAt i) (expiresAt i) (acceptedAt i) (Some at_) (createdAt i).
Definition set_claim (c : option string) (at_ : option Z) (i : t) : t :=
  mk (id i) (email i) (displayName i) (role i) (legalPracticeId i) (appraisalFirmId i) (tokenHash i) (invitedByAccountId i)
    (issuedVia i) (acceptedAccountId i) c at_ (expiresAt i) (acceptedAt i) (revokedAt i) (createdAt i).
Definition set_accepted (account : string) (at_ : Z) (i : t) : t :=
  mk (id i) (email i) (displayName i) (role i) (legalPracticeId i) (appraisalFirmId i) (tokenHash i) (invitedByAccountId i)
    (issuedVia i) (Some account) None None (expiresAt i) (Some at_) (revokedAt i) (createdAt i).
(** Neither accepted nor revoked *)
Definition is_open (i : t) : bool := bool_decide (acceptedAt i = None) && bool_decide (revokedAt i = None).
End Invitation.

Module Credential.
Record t := mk {
  id : string; accountId : string; publicKey : string; counter : Z; deviceType : string; backedUp : bool;
  transports : list string; label : option string; createdAt : Z; lastUsedAt : option Z }.
Definition set_used (c : Z) (dt : string) (b : bool) (at_ : Z) (x : t) : t :=
  mk (id x) (accountId x) (publicKey x) c dt b (transports x) (label x) (createdAt x) (Some at_).
End Credential.

Module WebAuthnChallenge.
Record t := mk {
  id : string; accountId : string; providerSessionId : string; purpose : string; challenge : string;
  credentialLabel : option string; expiresAt : Z; usedAt : option Z; createdAt : Z }.
Definition set_usedAt (at_ : Z) (c : t) : t :=
  mk (id c) (accountId c) (providerSessionId c) (purpose c) (challenge c) (credentialLabel c) (expiresAt c) (Some at_) (createdAt c).
End WebAuthnChallenge.

Module SessionMfa.
Record t := mk { providerSessionId : string; accountId : string; credentialId : string; verifiedAt : Z }.
End SessionMfa.

Record staff := mkStaff {
  s_auth : auth; invitations : list Invitation.t; credentials : list Credential.t;
  wchallenges : list WebAuthnChallenge.t; mfa : list SessionMfa.t }.

Definition set_s_auth v s := mkStaff v (invitations s) (credentials s) (wchallenges s) (mfa s).
Definition set_invitations v s := mkStaff (s_auth s) v (credentials s) (wchallenges s) (mfa s).
Definition set_credentials v s := mkStaff (s_auth s) (invitations s) v (wchallenges s) (mfa s).
Definition set_wchallenges v s := mkStaff (s_auth s) (invitations s) (credentials s) v (mfa s).
Definition set_mfa v s := mkStaff (s_auth s) (invitations s) (credentials s) (wchallenges s) v.

(** A step on the tables of [AuthDb] *)
Definition on_auth {A} (t : txn auth A) : txn staff A := λ s,
  match t (s_auth s) with Ok (a, x) => Ok (a, set_s_auth x s) | Err e => Err e end.

(** ** Constraints *)

Definition role_scope_ok (role : string) (practice firm : option string) : bool :=
  (bool_decide (role = "legal_partner") && bool_decide (is_Some practice) && bool_decide (firm = None)) ||
  (bool_decide (role = "appraisal_partner") && bool_decide (is_Some firm) && bool_decide (practice = None)) ||
  (bool_decide (role = "admin_operations") && bool_decide (practice = None) && bool_decide (firm = None)).

Definition issued_via_ok (i : Invitation.t) : bool :=
  (bool_decide (Invitation.issuedVia i = "staff") && bool_decide (is_Some (Invitation.invitedByAccountId i))) ||
  (bool_decide (Invitation.issuedVia i = "cli_bootstrap") && bool_decide (Invitation.invitedByAccountId i = None) &&
   bool_decide (Invitation.role i = "admin_operations")).

Definition is_bootstrap (i : Invitation.t) : bool := bool_decide (Invitation.issuedVia i = "cli_bootstrap").

(** The unique indexes an open invitation is in: its token, one open one per email, one open bootstrap *)
Definition invitation_conflict (i j : Invitation.t) : bool :=
  bool_decide (Invitation.tokenHash i = Invitation.tokenHash j) ||
  (Invitation.is_open i && Invitation.is_open j &&
   (bool_decide (Invitation.email i = Invitation.email j) || (is_bootstrap i && is_bootstrap j))).

(** [staffInvitation.create] *)
Definition invitation_create (i : Invitation.t) (s : staff) : result staff :=
  if negb (bool_decide (Invitation.email i = JsString.toLowerCase (Invitation.email i)) &&
           (Invitation.createdAt i <? Invitation.expiresAt i) &&
           role_scope_ok (Invitation.role i) (Invitation.legalPracticeId i) (Invitation.appraisalFirmId i) && issued_via_ok i)
  then Err (Thrown "23514")
  else if exists_row (invitation_conflict i) (invitations s) then Err (Thrown "P2002")
  else Ok (set_invitations (invitations s ++ [i]) s).

(** ** prisma-staff-invitation.repository.ts *)

Record StaffInvitationRecord := mkInvitationRecord {
  ir_invitationId : string; ir_email : string; ir_displayName : string; ir_role : string;
  ir_legalPracticeId : option string; ir_appraisalFirmId : option string; ir_tokenHash : string;
  ir_claimId : option string; ir_expiresAt : Z }.

Definition known_role (role : string) : bool := bool_decide (role ∈ ["admin_operations"; "legal_partner"; "appraisal_partner"]).

Definition toRecord (i : Invitation.t) : result StaffInvitationRecord :=
  if negb (known_role (Invitation.role i)) then Err (Thrown "Unknown staff invitation role")
  else Ok (mkInvitationRecord (Invitation.id i) (Invitation.email i) (Invitation.displayName i) (Invitation.role i)
             (Invitation.legalPracticeId i) (Invitation.appraisalFirmId i) (Invitation.tokenHash i) (Invitation.claimId i)
             (Invitation.expiresAt i)).

Definition opt_str (v : option string) : json := match v with Some v => JStr v | None => JNull end.

Section Repositories.
Context (ulid : nat → string).

Definition staff_id (prefix : string) : txn staff string := on_auth (fresh_id ulid prefix).
Definition staff_audit (actor : option string) (action resourceType resourceId : string) (changes : list (string * json)) (at_ : Z) :
    txn staff unit :=
  on_auth (audit ulid actor action resourceType resourceId changes at_).

Record NewInvitation := mkNewInvitation {
  ni_email : string; ni_displayName : string; ni_role : string; ni_legalPracticeId : option string;
  ni_appraisalFirmId : option string; ni_tokenHash : string; ni_createdAt : Z; ni_expiresAt : Z }.

Definition new_invitation (k : string) (i : NewInvitation) (by_ : option string) (via : string) : Invitation.t :=
  Invitation.mk k (ni_email i) (ni_displayName i) (ni_role i) (ni_legalPracticeId i) (ni_appraisalFirmId i) (ni_tokenHash i)
    by_ via None None None (ni_expiresAt i) None None (ni_createdAt i).

Definition createInvitation (i : NewInvitation) (invitedBy trace : string) : txn staff StaffInvitationRecord :=
  do! _ := twrite (λ s, set_invitations (update_where
    (λ x, bool_decide (Invitation.email x = ni_email i) && Invitation.is_open x) (Invitation.set_revokedAt (ni_createdAt i)) (invitations s)) s) in
  do! k := staff_id "invite_" in
  let row := new_invitation k i (Some invitedBy) "staff" in
  do! _ := tprim (invitation_create row) in
  do! _ := staff_audit (Some invitedBy) "authentication.staff_invitation_issued" "staff_invitation" k
    [("trace_id", JStr trace); ("role", JStr (ni_role i)); ("legal_practice_id", opt_str (ni_legalPracticeId i));
     ("appraisal_firm_id", opt_str (ni_appraisalFirmId i)); ("expires_at", JDate (ni_expiresAt i))] (ni_createdAt i) in
  tlift (toRecord row).

Definition revokeInvitation (invitationId actor trace reason : string) (revokedAt : Z) : txn staff unit :=
  let hit := λ x, bool_decide (Invitation.id x = invitationId) && Invitation.is_open x in
  do! n := tread (λ s, length (List.filter hit (invitations s))) in
  do! _ := twrite (λ s, set_invitations (update_where hit (Invitation.set_revokedAt revokedAt) (invitations s)) s) in
  if negb (Nat.eqb n 1) then tret tt
  else staff_audit (Some actor) "authentication.staff_invitation_revoked" "staff_invitation" invitationId
         [("trace_id", JStr trace); ("reason", JStr reason)] revokedAt.

Definition claimable (tokenHash : string) (claimedAt staleBefore : Z) (x : Invitation.t) : bool :=
  bool_decide (Invitation.tokenHash x = tokenHash) && Invitation.is_open x && (claimedAt <? Invitation.expiresAt x) &&
  (bool_decide (Invitation.claimId x = None) ||
   match Invitation.claimedAt x with Some t => t <? staleBefore | None => false end).

Definition claimInvitation (tokenHash claimId : string) (claimedAt staleBefore : Z) : txn staff (option StaffInvitationRecord) :=
  do! n := tread (λ s, length (List.filter (claimable tokenHash claimedAt staleBefore) (invitations s))) in
  do! _ := twrite (λ s, set_invitations (update_where (claimable tokenHash claimedAt staleBefore)
    (Invitation.set_claim (Some claimId) (Some claimedAt)) (invitations s)) s) in
  if negb (Nat.eqb n 1) then tret None
  else
  do! row := tread (λ s, find_row (by_id Invitation.tokenHash tokenHash) (invitations s)) in
  match row with
  | None => tthrow (Thrown "P2025")
  | Some i => do! r := tlift (toRecord i) in tret (Some r)
  end.

Definition claimed_by (invitationId claimId : string) (x : Invitation.t) : bool :=
  bool_decide (Invitation.id x = invitationId) && bool_decide (Invitation.claimId x = Some claimId) && Invitation.is_open x.

Definition releaseClaim (invitationId claimId : string) : txn staff unit :=
  twrite (λ s, set_invitations (update_where (claimed_by invitationId claimId) (Invitation.set_claim None None) (invitations s)) s).

(** [acceptedAccountId] is unique *)
Definition accept_update (invitationId claimId account : string) (at_ : Z) (s : staff) : result staff :=
  if exists_row (claimed_by invitationId claimId) (invitations s) &&
     exists_row (λ x, bool_decide (Invitation.acceptedAccountId x = Some account)) (invitations s)
  then Err (Thrown "P2002")
  else Ok (set_invitations (update_where (claimed_by invitationId claimId) (Invitation.set_accepted account at_) (invitations s)) s).

Definition role_create (role account : string) (practice firm : option string) (at_ : Z) : txn staff StaffRole.t :=
  do! k := staff_id "role_" in
  let row := StaffRole.mk k account role practice firm at_ None in
  do! _ := twrite (λ s, set_s_auth (set_staffRoles (staffRoles (s_auth s) ++ [row]) (s_auth s)) s) in
  tret row.

Definition completeAcceptance (invitationId claimId betterAuthUserId trace : string) (acceptedAt : Z) : txn staff (option string) :=
  do! found := tread (λ s, find_row (λ x, claimed_by invitationId claimId x && (acceptedAt <? Invitation.expiresAt x)) (invitations s)) in
  match found with
  | None => tret None
  | Some invitation =>
      do! account := tread (λ s, findByBetterAuthUserId betterAuthUserId (s_auth s)) in
      match account with
      | None => tthrow (Thrown "Invited Better Auth user has no VistaBlox account mapping")
      | Some a =>
          do! _ := role_create (Invitation.role invitation) (Acct.id a) (Invitation.legalPracticeId invitation)
            (Invitation.appraisalFirmId invitation) acceptedAt in
          do! n := tread (λ s, length (List.filter (claimed_by invitationId claimId) (invitations s))) in
          do! _ := tprim (accept_update invitationId claimId (Acct.id a) acceptedAt) in
          if negb (Nat.eqb n 1) then tthrow (Thrown "Staff invitation changed during acceptance")
          else
          do! _ := staff_audit (Some (Acct.id a)) "authentication.staff_invitation_accepted" "staff_invitation" invitationId
            [("trace_id", JStr trace); ("role", JStr (Invitation.role invitation))] acceptedAt in
          tret (Some (Acct.id a))
      end
  end.

(** ** prisma-staff-bootstrap.repository.ts *)

(** An active account with an unrevoked admin_operations assignment *)
Definition activeAdminWhere (s : auth) (a : Acct.t) : bool :=
  bool_decide (Acct.status a = acc_active) && hasActiveStaffRole (Acct.id a) "admin_operations" s.

Record StaffBootstrapCounts := mkBootstrapCounts {
  activeStaffAccounts : nat; activeAdminOperationsHolders : nat; pendingBootstrapInvitations : nat }.

Definition countBootstrapState (now : Z) (s : staff) : StaffBootstrapCounts :=
  let a := s_auth s in
  mkBootstrapCounts
    (length (List.filter (λ x, bool_decide (Acct.status x = acc_active) && hasAnyActiveStaffRole (Acct.id x) a) (accts a)))
    (length (List.filter (activeAdminWhere a) (accts a)))
    (length (List.filter (λ i, is_bootstrap i && Invitation.is_open i && (now <? Invitation.expiresAt i)) (invitations s))).

Inductive StaffBootstrapIssueResult :=
  | admin_exists
  | bootstrap_issued (invitationId : string) (expiresAt : Z) (replacedPendingBootstrapInvitations revokedInvitations : nat).

(** The open invitations a bootstrap may revoke *)
Definition bootstrap_live (email : string) (x : Invitation.t) : bool :=
  Invitation.is_open x && (is_bootstrap x || bool_decide (Invitation.email x = email)).

Definition revoke_for_bootstrap (trace : string) (createdAt : Z) (x : Invitation.t) : txn staff unit :=
  do! _ := twrite (λ s, set_invitations (update_where (by_id Invitation.id (Invitation.id x)) (Invitation.set_revokedAt createdAt) (invitations s)) s) in
  staff_audit None "authentication.staff_invitation_revoked" "staff_invitation" (Invitation.id x)
    [("trace_id", JStr trace); ("reason", JStr (if is_bootstrap x then "bootstrap_reissued" else "superseded_by_bootstrap"))] createdAt.

Definition issueBootstrapInvitation (email displayName tokenHash trace : string) (createdAt expiresAt : Z) : txn staff StaffBootstrapIssueResult :=
  do! live := tread (λ s, List.filter (bootstrap_live email) (invitations s)) in
  do! admins := tread (λ s, length (List.filter (activeAdminWhere (s_auth s)) (accts (s_auth s)))) in
  if Nat.ltb 0 admins then tret admin_exists
  else
  let replaced := length (List.filter (λ x, is_bootstrap x && (createdAt <? Invitation.expiresAt x)) live) in
  do! _ := teach (revoke_for_bootstrap trace createdAt) live in
  do! k := staff_id "invite_" in
  let i := mkNewInvitation email displayName "admin_operations" None None tokenHash createdAt expiresAt in
  do! _ := tprim (invitation_create (new_invitation k i None "cli_bootstrap")) in
  do! _ := staff_audit None "authentication.staff_bootstrap_invitation_issued" "staff_invitation" k
    [("trace_id", JStr trace); ("email", JStr email); ("role", JStr "admin_operations"); ("issued_via", JStr "cli_bootstrap");
     ("expires_at", JDate expiresAt); ("revoked_invitation_count", JNum (Z.of_nat (length live)))] createdAt in
  tret (bootstrap_issued k expiresAt replaced (length live)).

(** ** prisma-staff-account-lifecycle.repository.ts *)

Record StaffAccountLifecycleTarget := mkTarget {
  tg_accountId : string; tg_betterAuthUserId : string; tg_status : AccountStatus; tg_hasActiveStaffRole : bool }.

Definition findTarget (accountId : string) (s : staff) : option StaffAccountLifecycleTarget :=
  (λ a, mkTarget (Acct.id a) (Acct.betterAuthUserId a) (Acct.status a) (has_active_role (Acct.id a) (s_auth s))) <$>
  find_acct accountId (s_auth s).

(** [staffWebAuthnCredential.deleteMany] of an account, which a verified session that refers to one of them restricts *)
Definition delete_credentials (accountId : string) (s : staff) : result staff :=
  let gone := λ c, bool_decide (Credential.accountId c = accountId) in
  if existsb (λ c, gone c && exists_row (λ m, bool_decide (SessionMfa.credentialId m = Credential.id c)) (mfa s)) (credentials s)
  then Err (Thrown "P2003")
  else Ok (set_credentials (List.filter (λ c, negb (gone c)) (credentials s)) s).

(** The passkeys of an account are revoked: how many there were *)
Definition revoke_passkeys (accountId : string) : txn staff nat :=
  do! _ := twrite (λ s, set_mfa (List.filter (λ m, negb (bool_decide (SessionMfa.accountId m = accountId))) (mfa s)) s) in
  do! _ := twrite (λ s, set_wchallenges (List.filter (λ c, negb (bool_decide (WebAuthnChallenge.accountId c = accountId))) (wchallenges s)) s) in
  do! n := tread (λ s, length (List.filter (λ c, bool_decide (Credential.accountId c = accountId)) (credentials s))) in
  do! _ := tprim (delete_credentials accountId) in
  tret n.

Definition prepareRecovery (accountId actor trace : string) (preparedAt : Z) : txn staff bool :=
  do! target := tread (λ s, find_row (λ a, bool_decide (Acct.id a = accountId) && bool_decide (Acct.status a = acc_active) &&
    has_active_role (Acct.id a) (s_auth s)) (accts (s_auth s))) in
  match target with
  | None => tret false
  | Some _ =>
      do! n := revoke_passkeys accountId in
      do! _ := staff_audit (Some actor) "authentication.staff_account_recovery_started" "account" accountId
        [("trace_id", JStr trace); ("webauthn_credentials_revoked", JNum (Z.of_nat n)); ("webauthn_reenrollment_required", JBool true)]
        preparedAt in
      tret true
  end.

Definition recordRecoveryDeliveryFailure (accountId actor trace : string) (failedAt : Z) : txn staff unit :=
  staff_audit (Some actor) "authentication.staff_account_recovery_delivery_failed" "account" accountId [("trace_id", JStr trace)] failedAt.

Definition revoke_role_row (at_ : Z) (r : StaffRole.t) : StaffRole.t :=
  StaffRole.mk (StaffRole.id r) (StaffRole.accountId r) (StaffRole.role r) (StaffRole.legalPracticeId r)
    (StaffRole.appraisalFirmId r) (StaffRole.grantedAt r) (Some at_).

Definition active_role_of (accountId : string) (r : StaffRole.t) : bool :=
  bool_decide (StaffRole.accountId r = accountId) && bool_decide (StaffRole.revokedAt r = None).

Definition update_roles (p : StaffRole.t → bool) (at_ : Z) (s : staff) : staff :=
  set_s_auth (set_staffRoles (update_where p (revoke_role_row at_) (staffRoles (s_auth s))) (s_auth s)) s.

Definition completeOffboarding (accountId actor trace reason : string) (completedAt : Z) : txn staff unit :=
  do! n := revoke_passkeys accountId in
  do! roles := tread (λ s, length (List.filter (active_role_of accountId) (staffRoles (s_auth s)))) in
  do! _ := twrite (update_roles (active_role_of accountId) completedAt) in
  do! _ := on_auth (update_acct accountId (Acct.set_status suspended_restricted completedAt)) in
  staff_audit (Some actor) "authentication.staff_account_offboarded" "account" accountId
    [("trace_id", JStr trace); ("reason", JStr reason); ("active_roles_revoked", JNum (Z.of_nat roles));
     ("webauthn_credentials_revoked", JNum (Z.of_nat n))] completedAt.

Record StaffAccountRosterEntry := mkRosterEntry {
  re_accountId : string; re_email : option string; re_status : AccountStatus; re_roles : list StaffRole.t }.

Definition listStaffAccounts (s : staff) : list StaffAccountRosterEntry :=
  let a := s_auth s in
  let of_account x := List.filter (λ r, bool_decide (StaffRole.accountId r = Acct.id x)) (staffRoles a) in
  map (λ x, mkRosterEntry (Acct.id x) (Acct.protectedContactEmail x) (Acct.status x)
              (order_by (λ r q, StaffRole.grantedAt q <? StaffRole.grantedAt r) (of_account x)))
    (order_by (λ x y, Acct.createdAt x <? Acct.createdAt y)
       (List.filter (λ x, negb (bool_decide (of_account x = []))) (accts a))).

Definition hasActiveRole (accountId role : string) (s : staff) : bool := hasActiveStaffRole accountId role (s_auth s).

Definition grantRole (accountId role : string) (practice firm : option string) (actor trace : string) (grantedAt : Z) : txn staff StaffRole.t :=
  do! row := role_create role accountId practice firm grantedAt in
  do! _ := staff_audit (Some actor) "authentication.staff_role_granted" "account" accountId
    [("trace_id", JStr trace); ("assignment_id", JStr (StaffRole.id row)); ("role", JStr role);
     ("legal_practice_id", opt_str practice); ("appraisal_firm_id", opt_str firm)] grantedAt in
  tret row.

Definition revokeRole (accountId assignmentId actor trace : string) (revokedAt : Z) : txn staff (option StaffRole.t) :=
  let hit := λ r, bool_decide (StaffRole.id r = assignmentId) && active_role_of accountId r in
  do! n := tread (λ s, length (List.filter hit (staffRoles (s_auth s)))) in
  do! _ := twrite (update_roles hit revokedAt) in
  if Nat.eqb n 0 then tret None
  else
  do! row := tread (λ s, find_row (by_id StaffRole.id assignmentId) (staffRoles (s_auth s))) in
  match row with
  | None => tthrow (Thrown "P2025")
  | Some r =>
      do! _ := staff_audit (Some actor) "authentication.staff_role_revoked" "account" accountId
        [("trace_id", JStr trace); ("assignment_id", JStr (StaffRole.id r)); ("role", JStr (StaffRole.role r))] revokedAt in
      tret (Some r)
  end.

(** ** prisma-staff-webauthn.repository.ts *)

(** toCredential: a counter a JavaScript number holds exactly, a known device type *)
Definition toCredential (c : Credential.t) : result Credential.t :=
  if (9007199254740991 <? Credential.counter c) || (Credential.counter c <? 0)
  then Err (Thrown "Stored WebAuthn counter is outside the supported range")
  else if negb (bool_decide (Credential.deviceType c ∈ ["singleDevice"; "multiDevice"])) then Err (Thrown "Unknown WebAuthn device type")
  else Ok c.

(** Ascending by creation time, then id *)
Definition listCredentials (accountId : string) (s : staff) : result (list Credential.t) :=
  rmap toCredential (order_by
    (λ x y, (Credential.createdAt x <? Credential.createdAt y) ||
            ((Credential.createdAt x =? Credential.createdAt y) && String.ltb (Credential.id x) (Credential.id y)))
    (List.filter (λ c, bool_decide (Credential.accountId c = accountId)) (credentials s))).

Definition findCredential (accountId credentialId : string) (s : staff) : result (option Credential.t) :=
  match find_row (λ c, bool_decide (Credential.id c = credentialId) && bool_decide (Credential.accountId c = accountId)) (credentials s) with
  | None => Ok None
  | Some c => let! c := toCredential c in Ok (Some c)
  end.

Definition isSessionVerified (accountId providerSessionId : string) (s : staff) : bool :=
  exists_row (λ m, bool_decide (MirrorSession.accountId m = accountId) &&
    bool_decide (MirrorSession.betterAuthSessionId m = Some providerSessionId) &&
    bool_decide (MirrorSession.status m = "active") && bool_decide (MirrorSession.authMethodAtLogin m = "staff_passkey"))
    (mirror (s_auth s)) ||
  exists_row (λ m, bool_decide (SessionMfa.accountId m = accountId) && bool_decide (SessionMfa.providerSessionId m = providerSessionId)) (mfa s).

(** The session a challenge belongs to *)
Record ChallengeOwner := mkOwner { ow_accountId : string; ow_providerSessionId : string; ow_purpose : string }.

Definition owned (o : ChallengeOwner) (c : WebAuthnChallenge.t) : bool :=
  bool_decide (WebAuthnChallenge.accountId c = ow_accountId o) &&
  bool_decide (WebAuthnChallenge.providerSessionId c = ow_providerSessionId o) &&
  bool_decide (WebAuthnChallenge.purpose c = ow_purpose o) && bool_decide (WebAuthnChallenge.usedAt c = None).

Definition usable (o : ChallengeOwner) (challengeId : string) (now : Z) (c : WebAuthnChallenge.t) : bool :=
  bool_decide (WebAuthnChallenge.id c = challengeId) && owned o c && (now <? WebAuthnChallenge.expiresAt c).

Definition challenge_create (c : WebAuthnChallenge.t) (s : staff) : result staff :=
  if exists_row (by_id WebAuthnChallenge.challenge (WebAuthnChallenge.challenge c)) (wchallenges s) then Err (Thrown "P2002")
  else Ok (set_wchallenges (wchallenges s ++ [c]) s).

Definition replaceChallenge (o : ChallengeOwner) (challenge : string) (label : option string) (createdAt expiresAt : Z) :
    txn staff WebAuthnChallenge.t :=
  do! _ := twrite (λ s, set_wchallenges (update_where (owned o) (WebAuthnChallenge.set_usedAt createdAt) (wchallenges s)) s) in
  do! k := staff_id "wch_" in
  let row := WebAuthnChallenge.mk k (ow_accountId o) (ow_providerSessionId o) (ow_purpose o) challenge label expiresAt None createdAt in
  do! _ := tprim (challenge_create row) in
  tret row.

Definition getActiveChallenge (o : ChallengeOwner) (challengeId : string) (now : Z) (s : staff) : option WebAuthnChallenge.t :=
  find_row (usable o challengeId now) (wchallenges s).

(** The guarded UPDATE of usedAt: whether it found its one row *)
Definition consume_challenge (o : ChallengeOwner) (challengeId : string) (now : Z) : txn staff bool :=
  do! n := tread (λ s, length (List.filter (usable o challengeId now) (wchallenges s))) in
  do! _ := twrite (λ s, set_wchallenges (update_where (usable o challengeId now) (WebAuthnChallenge.set_usedAt now) (wchallenges s)) s) in
  tret (Nat.eqb n 1).

Definition failChallenge (o : ChallengeOwner) (challengeId trace reason : string) (failedAt : Z) : txn staff bool :=
  do! consumed := consume_challenge o challengeId failedAt in
  if negb consumed then tret false
  else
  do! _ := staff_audit (Some (ow_accountId o)) "authentication.staff_webauthn_challenge_failed" "session" (ow_providerSessionId o)
    [("trace_id", JStr trace); ("challenge_purpose", JStr (ow_purpose o)); ("reason", JStr reason)] failedAt in
  tret true.

Definition credential_create (c : Credential.t) (s : staff) : result staff :=
  if exists_row (by_id Credential.id (Credential.id c)) (credentials s) then Err (Thrown "P2002")
  else Ok (set_credentials (credentials s ++ [c]) s).

(** [staffSessionMfa.upsert] by its session *)
Definition mfa_upsert (m : SessionMfa.t) (s : staff) : staff :=
  let same := by_id SessionMfa.providerSessionId (SessionMfa.providerSessionId m) in
  set_mfa (if exists_row same (mfa s) then update_where same (λ _, m) (mfa s) else mfa s ++ [m]) s.

Record VerifiedRegistration := mkVerifiedRegistration {
  vr_credentialId : string; vr_publicKey : string; vr_counter : Z; vr_deviceType : string; vr_backedUp : bool;
  vr_transports : list string }.

Definition completeRegistration (challengeId accountId providerSessionId trace : string) (v : VerifiedRegistration) (completedAt : Z) :
    txn staff bool :=
  do! consumed := consume_challenge (mkOwner accountId providerSessionId "registration") challengeId completedAt in
  if negb consumed then tret false
  else
  do! ch := tread (λ s, find_row (by_id WebAuthnChallenge.id challengeId) (wchallenges s)) in
  match ch with
  | None => tthrow (Thrown "P2025")
  | Some c =>
      do! _ := tprim (credential_create (Credential.mk (vr_credentialId v) accountId (vr_publicKey v) (vr_counter v)
        (vr_deviceType v) (vr_backedUp v) (vr_transports v) (WebAuthnChallenge.credentialLabel c) completedAt None)) in
      do! _ := twrite (mfa_upsert (SessionMfa.mk providerSessionId accountId (vr_credentialId v) completedAt)) in
      do! _ := staff_audit (Some accountId) "authentication.staff_webauthn_credential_registered" "account" accountId
        [("trace_id", JStr trace); ("credential_id", JStr (vr_credentialId v)); ("provider_session_id", JStr providerSessionId);
         ("device_type", JStr (vr_deviceType v)); ("backed_up", JBool (vr_backedUp v))] completedAt in
      tret true
  end.

Record VerifiedAuthentication := mkVerifiedAuthentication { va_newCounter : Z; va_deviceType : string; va_backedUp : bool }.

Definition completeAuthentication (challengeId accountId providerSessionId trace credentialId : string) (expectedCounter : Z)
    (v : VerifiedAuthentication) (completedAt : Z) : txn staff bool :=
  do! consumed := consume_challenge (mkOwner accountId providerSessionId "authentication") challengeId completedAt in
  if negb consumed then tret false
  else
  let hit := λ c, bool_decide (Credential.id c = credentialId) && bool_decide (Credential.accountId c = accountId) &&
                  (Credential.counter c =? expectedCounter) in
  do! n := tread (λ s, length (List.filter hit (credentials s))) in
  do! _ := twrite (λ s, set_credentials (update_where hit
    (Credential.set_used (va_newCounter v) (va_deviceType v) (va_backedUp v) completedAt) (credentials s)) s) in
  if negb (Nat.eqb n 1) then tthrow (Thrown "WebAuthn credential changed during authentication")
  else
  do! _ := twrite (mfa_upsert (SessionMfa.mk providerSessionId accountId credentialId completedAt)) in
  do! _ := staff_audit (Some accountId) "authentication.staff_webauthn_challenge_succeeded" "session" providerSessionId
    [("trace_id", JStr trace); ("credential_id", JStr credentialId)] completedAt in
  tret true.

End Repositories.

End Staff.
