(* ===== verification/StaffServices.v ===== *)
(** The services over the staff repositories (src/src/modules/auth/application/staff/staff-account-lifecycle.service.ts,
    staff-invitation.service.ts, staff-bootstrap.service.ts, staff-webauthn.service.ts), the Better Auth adapters they call
    (infrastructure/staff/better-auth-staff-account-administrator.ts, better-auth-staff-identity.provider.ts) and the guard
    on new sessions (better-auth-staff-account-guard.plugin.ts).

    Better Auth, the mail transport and the WebAuthn library are parameters; [fault] says which of their calls throw. *)

From Stdlib Require Import Ascii String.
From S2P Require Import Prelude JsString DateTime IntakePolicy Db AuthDb Gateway Staff.

Module StaffServices.
Import AuthDb Gateway Staff.

(** ** Errors *)

Definition staff_account_self_action_forbidden : error := AppError "authentication.staff_account_self_action_forbidden" 403 [].
Definition unavailableTargetError : error := AppError "authentication.staff_account_target_unavailable" 409 [].
Definition staffRoleAlreadyGrantedError : error := AppError "authentication.staff_role_already_granted" 409 [].
Definition staff_recovery_delivery_failed : error := AppError "authentication.staff_recovery_delivery_failed" 503 [].
Definition staff_invitation_delivery_failed : error := AppError "authentication.staff_invitation_delivery_failed" 503 [].
Definition unavailableInvitationError : error := AppError "authentication.staff_invitation_unavailable" 409 [].
Definition emailUnavailableError : error := AppError "authentication.staff_invitation_email_unavailable" 409 [].
Definition staff_identity_invalid : error := AppError "authentication.staff_identity_invalid" 422 [].
Definition staff_identity_creation_failed : error := AppError "authentication.staff_identity_creation_failed" 503 [].
Definition staff_account_target_invalid : error := AppError "authentication.staff_account_target_invalid" 409 [].
Definition staff_account_disabled : error := AppError "authentication.staff_account_disabled" 409 [].
Definition invalidChallengeError : error := AppError "authentication.webauthn_challenge_invalid" 409 [].
Definition verificationFailedError : error := AppError "authentication.webauthn_verification_failed" 401 [].
Definition enrollmentRequiredError : error := AppError "authentication.staff_webauthn_enrollment_required" 409 [].

(** ** Effects *)

Definition in_auth {A} (m : io auth A) : io staff A := λ s, let '(r, x) := m (s_auth s) in (r, set_s_auth x s).
Definition look {A} (f : staff → A) : io staff A := query (λ s, Ok (f s)).
(** A call that has no effect on the tables *)
Definition external (fault : string → option error) (call : string) : io staff unit :=
  match fault call with Some e => throw e | None => ret tt end.

Definition rejectSelfAction (accountId actor : string) : io staff unit :=
  if negb (bool_decide (accountId = actor)) then ret tt else throw staff_account_self_action_forbidden.

(** ** better-auth-staff-account-administrator.ts *)

Definition assertStaffUser (user : option User.t) : result User.t :=
  match user with
  | Some u => if negb (bool_decide (User.population u = "staff_partner")) then Err staff_account_target_invalid else Ok u
  | None => Err staff_account_target_invalid
  end.

Definition assertActiveStaffUser (user : option User.t) : result User.t :=
  let! u := assertStaffUser user in
  if negb (bool_decide (User.disabledAt u = None)) then Err staff_account_disabled else Ok u.

Definition set_disabledAt (at_ : Z) (u : User.t) : User.t :=
  User.mk (User.id u) (User.email u) (User.name u) (User.population u) (Some at_) (User.recoveryRequiredAt u).

Section Services.
Context (ulid : nat → string) `{I : InternalAdapter} (fault : string → option error).

Definition user_of (userId : string) : io staff (option User.t) :=
  in_auth (attempt fault "findUserById" (read (λ s, findUserById userId (users s)))).

Definition admin_prepareRecovery (userId : string) (recoveryRequiredAt : Z) : io staff unit :=
  await user := user_of userId in
  await _ := lift (assertActiveStaffUser user) in
  in_auth (await _ := attempt fault "updateUser"
             (write (λ s, set_users (updateUser userId (User.set_recoveryRequiredAt (Some recoveryRequiredAt)) (users s)) s)) in
           end_sessions fault userId).

Definition admin_sendRecoveryEmail (userId : string) : io staff unit :=
  await user := user_of userId in
  await _ := lift (assertActiveStaffUser user) in
  await _ := external fault "createVerificationValue" in
  external fault "sendPasskeyRecoveryEmail".

Definition disableAndRevoke (userId : string) (disabledAt : Z) : io staff unit :=
  await user := user_of userId in
  await u := lift (assertStaffUser user) in
  await _ := (if bool_decide (User.disabledAt u = None)
              then in_auth (attempt fault "updateUser" (write (λ s, set_users (updateUser userId (set_disabledAt disabledAt) (users s)) s)))
              else ret tt) in
  in_auth (end_sessions fault userId).

(** ** staff-account-lifecycle.service.ts *)

Definition target_available (t : option StaffAccountLifecycleTarget) : result StaffAccountLifecycleTarget :=
  match t with
  | Some t => if negb (bool_decide (tg_status t = acc_active)) || negb (tg_hasActiveStaffRole t) then Err unavailableTargetError else Ok t
  | None => Err unavailableTargetError
  end.

Definition RecoverStaffAccount_execute (accountId actor trace : string) (preparedAt failedAt : Z) : io staff unit :=
  await _ := rejectSelfAction accountId actor in
  await t := look (findTarget accountId) in
  await target := lift (target_available t) in
  await _ := admin_prepareRecovery (tg_betterAuthUserId target) preparedAt in
  await prepared := transaction (prepareRecovery ulid (tg_accountId target) actor trace preparedAt) in
  if negb prepared then throw unavailableTargetError
  else iocatch (admin_sendRecoveryEmail (tg_betterAuthUserId target)) (λ _,
         await _ := transaction (recordRecoveryDeliveryFailure ulid (tg_accountId target) actor trace failedAt) in
         throw staff_recovery_delivery_failed).

Definition OffboardStaffAccount_execute (accountId actor trace reason : string) (completedAt : Z) : io staff unit :=
  await _ := rejectSelfAction accountId actor in
  await t := look (findTarget accountId) in
  match t with
  | None => throw unavailableTargetError
  | Some target =>
      await _ := disableAndRevoke (tg_betterAuthUserId target) completedAt in
      transaction (completeOffboarding ulid (tg_accountId target) actor trace reason completedAt)
  end.

Definition ListStaffAccounts_execute : io staff (list StaffAccountRosterEntry) := look listStaffAccounts.

(** The reads of a grant, before its write *)
Definition grant_checks (accountId role : string) (s : staff) : result unit :=
  let! _ := target_available (findTarget accountId s) in
  if hasActiveRole accountId role s then Err staffRoleAlreadyGrantedError else Ok tt.

Definition GrantStaffRole_execute (accountId role : string) (practice firm : option string) (actor trace : string) (grantedAt : Z) :
    io staff StaffRole.t :=
  await _ := rejectSelfAction accountId actor in
  await _ := query (grant_checks accountId role) in
  transaction (grantRole ulid accountId role practice firm actor trace grantedAt).

Definition RevokeStaffRole_execute (accountId assignmentId actor trace : string) (revokedAt : Z) : io staff unit :=
  await _ := rejectSelfAction accountId actor in
  await revoked := transaction (revokeRole ulid accountId assignmentId actor trace revokedAt) in
  match revoked with None => throw unavailableTargetError | Some _ => ret tt end.

(** ** Staff identities and invitations *)

Definition STAFF_INVITATION_LIFETIME_MS : Z := 72 * 60 * 60 * 1000.
Definition abandonedClaimLifetimeMs : Z := 10 * 60 * 1000.

(** Better Auth's lookup by email, its user creation with the hooks it fires, and SHA-256 *)
Context (findUserByEmail : string → list User.t → option User.t) (createUser : string → string → io staff unit)
  (hashToken : string → string).

Definition assertEmailAvailable (email : string) : io staff unit :=
  await existing := look (λ s, findUserByEmail email (users (s_auth s))) in
  match existing with Some _ => throw emailUnavailableError | None => ret tt end.

(** normalizeBetterAuthCreationError: a 4xx is the invitee's, anything else the service's *)
Definition normalizeBetterAuthCreationError (e : error) : error :=
  match e with
  | AppError _ status _ => if (400 <=? status) && (status <? 500) then staff_identity_invalid else staff_identity_creation_failed
  | Thrown _ => staff_identity_creation_failed
  end.

Definition createOrResolveInvitedStaff (email displayName : string) : io staff string :=
  await existing := look (λ s, findUserByEmail email (users (s_auth s))) in
  match existing with
  | Some u =>
      if negb (bool_decide (User.population u = "staff_partner")) then throw emailUnavailableError
      else await _ := external fault "createVerificationValue" in ret (User.id u)
  | None =>
      await _ := iocatch (createUser email displayName) (λ e, throw (normalizeBetterAuthCreationError e)) in
      await created := look (λ s, findUserByEmail email (users (s_auth s))) in
      match created with
      | Some u =>
          if negb (bool_decide (User.population u = "staff_partner"))
          then throw (Thrown "Better Auth did not create the invited staff identity")
          else await _ := external fault "createVerificationValue" in ret (User.id u)
      | None => throw (Thrown "Better Auth did not create the invited staff identity")
      end
  end.

Definition normalized_email (email : string) : string := JsString.toLowerCase (JsString.trim email).

Definition IssueStaffInvitation_execute (actor trace email displayName role : string) (practice firm : option string) (rawToken : string)
    (createdAt revokedAt : Z) : io staff StaffInvitationRecord :=
  let email := normalized_email email in
  await _ := assertEmailAvailable email in
  await invitation := transaction (createInvitation ulid
    (mkNewInvitation email displayName role practice firm (hashToken rawToken) createdAt (createdAt + STAFF_INVITATION_LIFETIME_MS))
    actor trace) in
  await _ := iocatch (external fault "sendInvitationEmail") (λ _,
    await _ := transaction (revokeInvitation ulid (ir_invitationId invitation) actor trace "delivery_failed" revokedAt) in
    throw staff_invitation_delivery_failed) in
  ret invitation.

Definition AcceptStaffInvitation_execute (token trace claimId : string) (claimedAt acceptedAt : Z) : io staff string :=
  await found := transaction (claimInvitation (hashToken token) claimId claimedAt (claimedAt - abandonedClaimLifetimeMs)) in
  match found with
  | None => throw unavailableInvitationError
  | Some invitation =>
      iocatch
        (await userId := createOrResolveInvitedStaff (ir_email invitation) (ir_displayName invitation) in
         await accepted := transaction (completeAcceptance ulid (ir_invitationId invitation) claimId userId trace acceptedAt) in
         match accepted with None => throw unavailableInvitationError | Some account => ret account end)
        (λ e, await _ := transaction (releaseClaim (ir_invitationId invitation) claimId) in throw e)
  end.

(** ** staff-bootstrap.service.ts *)

Inductive BootstrapFirstAdminResult :=
  | refused_admin_exists
  | issued (invitationId email : string) (expiresAt : Z) (replaced revoked : nat) (delivered : bool).

Definition BootstrapFirstAdmin_check (now : Z) : io staff StaffBootstrapCounts := look (countBootstrapState now).

Definition BootstrapFirstAdmin_issue (email displayName trace rawToken : string) (now createdAt : Z) : io staff BootstrapFirstAdminResult :=
  let email := normalized_email email in
  let displayName := JsString.trim displayName in
  await before := look (countBootstrapState now) in
  if Nat.ltb 0 (activeAdminOperationsHolders before) then ret refused_admin_exists
  else
  await _ := assertEmailAvailable email in
  await r := transaction (issueBootstrapInvitation ulid email displayName (hashToken rawToken) trace createdAt
    (createdAt + STAFF_INVITATION_LIFETIME_MS)) in
  match r with
  | admin_exists => ret refused_admin_exists
  | bootstrap_issued k expiresAt replaced revoked =>
      await delivered := iocatch (await _ := external fault "sendInvitationEmail" in ret true) (λ _, ret false) in
      ret (issued k email expiresAt replaced revoked delivered)
  end.

(** ** staff-webauthn.service.ts *)

Definition challengeLifetimeMs : Z := 5 * 60 * 1000.

(** The ceremony: the challenges it generates, and its verifications ([None] when one answers null or throws) *)
Context {response : Type} (response_id : response → string)
  (verifyRegistration : response → string → option VerifiedRegistration)
  (verifyAuthentication : response → string → Credential.t → option VerifiedAuthentication).

Definition requireVerifiedSessionForAdditionalCredential (accountId providerSessionId : string) (count : nat) : io staff unit :=
  await verified := look (isSessionVerified accountId providerSessionId) in
  if Nat.ltb 0 count && negb verified then throw staff_mfa_required else ret tt.

Definition startRegistration (accountId providerSessionId : string) (label : option string) (challenge : string) (now : Z) :
    io staff WebAuthnChallenge.t :=
  await found := query (listCredentials accountId) in
  await _ := requireVerifiedSessionForAdditionalCredential accountId providerSessionId (length found) in
  transaction (replaceChallenge ulid (mkOwner accountId providerSessionId "registration") challenge label now (now + challengeLifetimeMs)).

Definition finishRegistration (accountId providerSessionId trace challengeId : string) (r : response) (now : Z) : io staff string :=
  let owner := mkOwner accountId providerSessionId "registration" in
  await challenge := look (getActiveChallenge owner challengeId now) in
  await found := query (listCredentials accountId) in
  match challenge with
  | None => throw invalidChallengeError
  | Some c =>
      await _ := requireVerifiedSessionForAdditionalCredential accountId providerSessionId (length found) in
      match verifyRegistration r (WebAuthnChallenge.challenge c) with
      | None =>
          await _ := transaction (failChallenge ulid owner (WebAuthnChallenge.id c) trace "verification_failed" now) in
          throw verificationFailedError
      | Some v =>
          await completed := transaction (completeRegistration ulid (WebAuthnChallenge.id c) accountId providerSessionId trace v now) in
          if negb completed then throw invalidChallengeError else ret (vr_credentialId v)
      end
  end.

Definition startAuthentication (accountId providerSessionId challenge : string) (now : Z) : io staff WebAuthnChallenge.t :=
  await found := query (listCredentials accountId) in
  match found with
  | [] => throw enrollmentRequiredError
  | _ => transaction (replaceChallenge ulid (mkOwner accountId providerSessionId "authentication") challenge None now (now + challengeLifetimeMs))
  end.

Definition finishAuthentication (accountId providerSessionId trace challengeId : string) (r : response) (now : Z) : io staff string :=
  let owner := mkOwner accountId providerSessionId "authentication" in
  await challenge := look (getActiveChallenge owner challengeId now) in
  await credential := query (findCredential accountId (response_id r)) in
  match challenge with
  | None => throw invalidChallengeError
  | Some c =>
      let failed reason :=
        await _ := transaction (failChallenge ulid owner (WebAuthnChallenge.id c) trace reason now) in
        throw verificationFailedError in
      match credential with
      | None => failed "credential_not_found"
      | Some k =>
          match verifyAuthentication r (WebAuthnChallenge.challenge c) k with
          | None => failed "verification_failed"
          | Some v =>
              await completed := transaction (completeAuthentication ulid (WebAuthnChallenge.id c) accountId providerSessionId trace
                (Credential.id k) (Credential.counter k) v now) in
              if negb completed then throw invalidChallengeError else ret (Credential.id k)
          end
      end
  end.

End Services.

(** requireStaffWebAuthn *)
Definition requireStaffWebAuthn (context : option AuthContext) (s : staff) : result unit :=
  match context with
  | None => Err missingContextError
  | Some c => if negb (isSessionVerified (cx_accountId c) (cx_providerSessionId c) s) then Err staff_mfa_required else Ok tt
  end.

(** ** better-auth-staff-account-guard.plugin.ts *)

Definition isStaffPasskeyPath (path : option string) : bool :=
  bool_decide (path = Some "/passkey/verify-authentication") || bool_decide (path = Some "/passkey/verify-registration").
Definition isRecoveryCompletionPath (path : option string) : bool := bool_decide (path = Some "/passkey/verify-registration").
Definition isOAuthSignInCompletionPath (path : option string) : bool :=
  bool_decide (path = Some "/callback/google") || bool_decide (path = Some "/callback/apple") || bool_decide (path = Some "/sign-in/social").

Definition has {A} (f : User.t → option A) (user : option User.t) : bool := match user with Some u => bool_decide (is_Some (f u)) | None => false end.

(** [session.create.before]: [context] is the endpoint's path, if the session is created inside one, [user] what findUserById
    answers and [emailVerified] that user's flag *)
Definition session_create_before (context : option (option string)) (user : option User.t) (emailVerified : bool) : result unit :=
  match context with
  | None => Err (AppError "SESSION_CONTEXT_REQUIRED" 403 [])
  | Some path =>
      if isOAuthSignInCompletionPath path && negb (bool_decide (is_Some user) && emailVerified) then Err (AppError "OAUTH_EMAIL_NOT_VERIFIED" 403 [])
      else if has User.disabledAt user then Err (AppError "STAFF_ACCOUNT_DISABLED" 403 [])
      else if has User.recoveryRequiredAt user && negb (isRecoveryCompletionPath path) then Err (AppError "STAFF_ACCOUNT_RECOVERY_REQUIRED" 403 [])
      else if match user with Some u => bool_decide (User.population u = "staff_partner") | None => false end && negb (isStaffPasskeyPath path)
      then Err (AppError "STAFF_PASSKEY_REQUIRED" 403 [])
      else Ok tt
  end.

End StaffServices.
