(* ===== verification/StaffProps.v ===== *)
(** What the staff services guarantee: an administrator always remains, an offboarded account is locked out at
    every gate, an invitation is accepted at most once and every role assignment is audited. *)

From Stdlib Require Import Ascii String.
From S2P Require Import Prelude JsString DateTime IntakePolicy Db AuthDb AuthDevice AuthSessions Dpop Gateway DpopReplay GatewayProps Staff StaffServices.

Module StaffProps.
Import AuthDb Gateway Staff StaffServices.

(** ** Steps that leave an account's standing alone *)

(** The account row and the role assignments of [k] are still there. *)
Definition keeps_standing (k : string) (s s' : staff) : Prop :=
  (∀ a, In a (accts (s_auth s)) → Acct.id a = k → In a (accts (s_auth s'))) ∧
  (∀ r, In r (staffRoles (s_auth s)) → StaffRole.accountId r = k → In r (staffRoles (s_auth s'))).

#[export] Instance keeps_standing_preorder k : PreOrder (keeps_standing k).
Proof. split; [by intros s | intros s1 s2 s3 [] []; split; eauto]. Qed.

Lemma keeps_same k s s' : accts (s_auth s') = accts (s_auth s) → staffRoles (s_auth s') = staffRoles (s_auth s) → keeps_standing k s s'.
Proof. intros H1 H2. split; [by rewrite H1 | by rewrite H2]. Qed.

Lemma on_auth_ok {A} (t : txn auth A) s a s' : on_auth t s = Ok (a, s') ↔ ∃ x, t (s_auth s) = Ok (a, x) ∧ s' = set_s_auth x s.
Proof. unfold on_auth. destruct (t (s_auth s)) as [[b x]|e]; naive_solver. Qed.

Lemma staff_audit_ok ulid actor act rt ri ch at_ s a s' : staff_audit ulid actor act rt ri ch at_ s = Ok (a, s') →
  ∃ b, s' = set_s_auth (set_abase b (s_auth s)) s ∧
    auditLog b = auditLog (abase (s_auth s)) ++
      [AuditLog.mk (String.append "audit_" (ulid (ulids (abase (s_auth s))))) actor act rt ri ch at_] ∧
    ulids b = S (ulids (abase (s_auth s))).
Proof.
  unfold staff_audit. rewrite on_auth_ok. intros (x & H & ->). unfold audit in H. inv_tx H.
  apply new_id_ok in Htx as [-> ->]. eexists. repeat split.
Qed.

Lemma staff_id_ok ulid p s k s' : staff_id ulid p s = Ok (k, s') →
  k = String.append p (ulid (ulids (abase (s_auth s)))) ∧
  s' = set_s_auth (set_abase (set_ulids (S (ulids (abase (s_auth s)))) (abase (s_auth s))) (s_auth s)) s.
Proof. unfold staff_id. rewrite on_auth_ok. intros (x & H & ->). by apply new_id_ok in H as [-> ->]. Qed.

Section Standing.
Context (ulid : nat → string) (k : string).

Lemma audit_standing actor act rt ri ch at_ : tx_rel (keeps_standing k) (staff_audit ulid actor act rt ri ch at_).
Proof. intros s a s' (b & -> & _)%staff_audit_ok. by apply keeps_same. Qed.

Lemma id_standing p : tx_rel (keeps_standing k) (staff_id ulid p).
Proof. intros s a s' [_ ->]%staff_id_ok. by apply keeps_same. Qed.

Lemma write_standing f : (∀ s, s_auth (f s) = s_auth s) → tx_rel (keeps_standing k) (twrite f).
Proof. intros H. apply tx_rel_write. intros s. by apply keeps_same; rewrite H. Qed.

Lemma role_create_standing role account p f at_ : tx_rel (keeps_standing k) (role_create ulid role account p f at_).
Proof.
  unfold role_create. apply tx_rel_bind; [exact _ | apply id_standing | intros x]. apply tx_rel_bind; [exact _ | | intros; apply tx_rel_ret; exact _].
  apply tx_rel_write. intros s. split; [done|]. intros r Hr _. simpl. apply in_app_iff. by left.
Qed.

Lemma passkeys_standing account : tx_rel (keeps_standing k) (revoke_passkeys account).
Proof.
  unfold revoke_passkeys. walk_tx; try by apply write_standing.
  apply tx_rel_prim. intros s s'. unfold delete_credentials. destruct (existsb _ _); [done|]. intros [= <-]. by apply keeps_same.
Qed.

Lemma update_roles_standing p at_ : (∀ r, p r = true → StaffRole.accountId r ≠ k) → tx_rel (keeps_standing k) (twrite (update_roles p at_)).
Proof.
  intros Hp. apply tx_rel_write. intros s. split; [done|]. intros r Hr Hk. apply in_update_where. exists r. split; [done|].
  destruct (p r) eqn:E; [|done]. by apply Hp in E.
Qed.

Lemma update_acct_standing account f : account ≠ k → tx_rel (keeps_standing k) (on_auth (update_acct account f)).
Proof.
  intros Hne s a s' (x & H & ->)%on_auth_ok. apply update_acct_ok in H as [_ ->]. split; [|done].
  intros b Hb Hk. apply in_update_where. exists b. split; [done|]. unfold by_id. rewrite bool_decide_false; [done|]. congruence.
Qed.

Lemma active_role_of_ne account r : account ≠ k → active_role_of account r = true → StaffRole.accountId r ≠ k.
Proof. unfold active_role_of. intros Hne H. boolify. congruence. Qed.

Lemma offboarding_standing account actor trace reason t : account ≠ k → tx_rel (keeps_standing k) (completeOffboarding ulid account actor trace reason t).
Proof.
  intros Hne. unfold completeOffboarding. apply tx_rel_bind; [exact _ | apply passkeys_standing | intros n].
  apply tx_rel_bind; [exact _ | apply tx_rel_read; exact _ | intros r].
  apply tx_rel_bind; [exact _ | apply update_roles_standing; intros x; by apply active_role_of_ne | intros _].
  apply tx_rel_bind; [exact _ | by apply update_acct_standing | intros _]. apply audit_standing.
Qed.

Lemma grant_standing account role p f actor trace t : tx_rel (keeps_standing k) (grantRole ulid account role p f actor trace t).
Proof.
  unfold grantRole. apply tx_rel_bind; [exact _ | apply role_create_standing | intros r].
  apply tx_rel_bind; [exact _ | apply audit_standing | intros; apply tx_rel_ret; exact _].
Qed.

Lemma revoke_standing account asg actor trace t : account ≠ k → tx_rel (keeps_standing k) (revokeRole ulid account asg actor trace t).
Proof.
  intros Hne. unfold revokeRole. apply tx_rel_bind; [exact _ | apply tx_rel_read; exact _ | intros n].
  apply tx_rel_bind; [exact _ | apply update_roles_standing | intros _].
  { intros r [_ H]%andb_true_iff. by eapply active_role_of_ne. }
  destruct (Nat.eqb n 0); [apply tx_rel_ret; exact _|]. apply tx_rel_bind; [exact _ | apply tx_rel_read; exact _ | intros [r|]; [|apply tx_rel_throw]].
  apply tx_rel_bind; [exact _ | apply audit_standing | intros; apply tx_rel_ret; exact _].
Qed.

Lemma prepare_standing account actor trace t : tx_rel (keeps_standing k) (prepareRecovery ulid account actor trace t).
Proof.
  unfold prepareRecovery. apply tx_rel_bind; [exact _ | apply tx_rel_read; exact _ | intros [x|]; [|apply tx_rel_ret; exact _]].
  apply tx_rel_bind; [exact _ | apply passkeys_standing | intros n].
  apply tx_rel_bind; [exact _ | apply audit_standing | intros; apply tx_rel_ret; exact _].
Qed.

Lemma tx_standing {A} (t : txn staff A) : tx_rel (keeps_standing k) t → io_rel (keeps_standing k) (transaction t).
Proof. intros H. apply io_rel_transaction; [exact _|]. apply H. Qed.

Context `{I : InternalAdapter} (fault : string → option error).

Lemma in_auth_standing {A} (m : io auth A) :
  (∀ x, accts (m x).2 = accts x ∧ staffRoles (m x).2 = staffRoles x) → io_rel (keeps_standing k) (in_auth m).
Proof.
  intros H s. unfold in_auth. specialize (H (s_auth s)). destruct (m (s_auth s)) as [r x]; simpl in *. destruct H; by apply keeps_same.
Qed.

Lemma user_of_standing u : io_rel (keeps_standing k) (user_of fault u).
Proof. apply in_auth_standing. intros x. unfold attempt. by destruct (fault _). Qed.

Lemma disable_standing u t : io_rel (keeps_standing k) (disableAndRevoke fault u t).
Proof.
  unfold disableAndRevoke. apply io_rel_bind; [exact _ | apply user_of_standing | intros o].
  apply io_rel_bind; [exact _ | apply io_rel_lift; exact _ | intros v].
  apply io_rel_bind; [exact _ | destruct (bool_decide _); [|apply io_rel_ret; exact _] | intros _];
    apply in_auth_standing; intros x; unfold end_sessions, attempt; by destruct (fault _).
Qed.

Lemma prepare_user_standing u t : io_rel (keeps_standing k) (admin_prepareRecovery fault u t).
Proof.
  unfold admin_prepareRecovery. apply io_rel_bind; [exact _ | apply user_of_standing | intros o].
  apply io_rel_bind; [exact _ | apply io_rel_lift; exact _ | intros v].
  apply in_auth_standing. intros x. unfold iobind, end_sessions, attempt, throw, write. by repeat case_match; simplify_eq/=.
Qed.

Lemma send_standing u : io_rel (keeps_standing k) (admin_sendRecoveryEmail fault u).
Proof.
  unfold admin_sendRecoveryEmail, external. apply io_rel_bind; [exact _ | apply user_of_standing | intros o].
  apply io_rel_bind; [exact _ | apply io_rel_lift; exact _ | intros v].
  apply io_rel_bind; [exact _ | | intros _]; destruct (fault _); (apply io_rel_throw || apply io_rel_ret); exact _.
Qed.

End Standing.

(** ** An administrator remains *)

Definition is_admin (k : string) (s : staff) : Prop :=
  ∃ a, In a (accts (s_auth s)) ∧ Acct.id a = k ∧ activeAdminWhere (s_auth s) a = true.

Lemma standing_admin k s s' : keeps_standing k s s' → is_admin k s → is_admin k s'.
Proof.
  intros [Ha Hr] (a & Hin & Hid & Had). exists a. split; [by apply Ha|]. split; [done|]. unfold activeAdminWhere in *. boolify.
  rewrite bool_decide_true by done. simpl. unfold hasActiveStaffRole in *. apply exists_row_true in H0 as (r & Hin' & Hp).
  apply exists_row_true. exists r. split; [|done]. apply Hr; [done|]. boolify. congruence.
Qed.

Section Requests.
Context (ulid : nat → string) `{I : InternalAdapter} (fault : string → option error).

(** A request of an administrator to the staff-account endpoints, up to the state it leaves, error or not. *)
Inductive lifecycle_request (actor : string) : io staff unit → Prop :=
  | req_recover account trace t1 t2 : lifecycle_request actor (RecoverStaffAccount_execute ulid fault account actor trace t1 t2)
  | req_offboard account trace reason t : lifecycle_request actor (OffboardStaffAccount_execute ulid fault account actor trace reason t)
  | req_grant account role p f trace t :
      lifecycle_request actor (await _ := GrantStaffRole_execute ulid account role p f actor trace t in ret tt)
  | req_revoke account asg trace t : lifecycle_request actor (RevokeStaffRole_execute ulid account asg actor trace t).

Lemma self_standing k actor account {A} (m : io staff A) :
  k = actor → (account ≠ actor → io_rel (keeps_standing k) m) → io_rel (keeps_standing k) (await _ := rejectSelfAction account actor in m).
Proof.
  intros -> Hm. unfold rejectSelfAction. case_bool_decide as E; simpl; intros s.
  - done.
  - unfold iobind, ret. by apply Hm.
Qed.

Lemma request_standing actor m : lifecycle_request actor m → io_rel (keeps_standing actor) m.
Proof.
  destruct 1.
  - apply self_standing; [done|]. intros Hne. apply io_rel_bind; [exact _ | apply io_rel_query; exact _ | intros o].
    apply io_rel_bind_ok; [exact _ | apply io_rel_lift; exact _ | intros tg ? ? _].
    apply io_rel_bind; [exact _ | apply prepare_user_standing | intros _].
    apply io_rel_bind; [exact _ | apply tx_standing, prepare_standing | intros b].
    destruct b; simpl; [|apply io_rel_throw; exact _].
    apply io_rel_catch; [exact _ | apply send_standing | intros e].
    apply io_rel_bind; [exact _ | apply tx_standing, audit_standing | intros; apply io_rel_throw; exact _].
  - apply self_standing; [done|]. intros Hne s. unfold iobind, look, query.
    destruct (findTarget account s) as [tg|] eqn:Ht; [|done].
    assert (tg_accountId tg = account) as Hid.
    { unfold findTarget in Ht. destruct (find_acct account (s_auth s)) as [a|] eqn:Ea; [|done]. simpl in Ht. injection Ht as <-. simpl.
      unfold find_acct in Ea. apply find_row_Some in Ea as [_ Hb]. unfold by_id in Hb. by boolify. }
    pose proof (disable_standing actor fault (tg_betterAuthUserId tg) t s) as H1.
    destruct (disableAndRevoke fault (tg_betterAuthUserId tg) t s) as [[v|e] s1]; simpl in *; [|done].
    etrans; [exact H1|]. apply tx_standing, offboarding_standing. by rewrite Hid.
  - apply io_rel_bind; [exact _ | | intros; apply io_rel_ret; exact _]. apply self_standing; [done|]. intros Hne.
    apply io_rel_bind; [exact _ | apply io_rel_query; exact _ | intros _]. apply tx_standing, grant_standing.
  - apply self_standing; [done|]. intros Hne.
    apply io_rel_bind; [exact _ | by apply tx_standing, revoke_standing | intros [r|]; [apply io_rel_ret|apply io_rel_throw]; exact _].
Qed.

(** Requests one after the other, each made by someone who is an administrator when it is made. *)
Definition admin_step (s s' : staff) : Prop :=
  ∃ actor m, is_admin actor s ∧ lifecycle_request actor m ∧ s' = (m s).2.

(** When requests run one after another, whatever administrators do to each other's accounts (recovery, offboarding, granting and revoking roles, with
    any of the calls failing on the way), someone holds an active administrator role on an active account after every request.  Nothing locks or counts the
    administrators, so two who offboard each other at the same time are outside this statement. *)
Theorem an_administrator_remains s s' : (∃ k, is_admin k s) → rtc admin_step s s' → ∃ k, is_admin k s'.
Proof.
  intros H0 Hr. revert H0. induction Hr as [|s1 s2 s3 (actor & m & Ha & Hm & ->) _ IH]; [done|]. intros _. apply IH.
  exists actor. eapply standing_admin; [|exact Ha]. by apply request_standing.
Qed.

End Requests.

(** ** Invitations and roles *)

Definition ACCEPTED : string := "authentication.staff_invitation_accepted".
Definition GRANTED : string := "authentication.staff_role_granted".

Definition audits (s : staff) : list AuditLog.t := auditLog (abase (s_auth s)).
Definition next (s : staff) : nat := ulids (abase (s_auth s)).
Definition roles (s : staff) : list StaffRole.t := staffRoles (s_auth s).

Definition accepts (k : string) (a : AuditLog.t) : bool := bool_decide (AuditLog.action a = ACCEPTED) && bool_decide (AuditLog.resourceId a = k).
Definition gives_role (a : AuditLog.t) : bool := bool_decide (AuditLog.action a = ACCEPTED) || bool_decide (AuditLog.action a = GRANTED).

Definition count {A} (p : A → bool) (l : list A) : nat := length (List.filter p l).

Lemma count_app {A} (p : A → bool) l1 l2 : count p (l1 ++ l2) = (count p l1 + count p l2)%nat.
Proof. unfold count. by rewrite List.filter_app, length_app. Qed.

Lemma count_none {A} (p : A → bool) l : (∀ x, In x l → p x = false) → count p l = 0%nat.
Proof. intros H. unfold count. by rewrite filter_nil. Qed.

(** What is recorded of an invitation *)
Definition standing (i : Invitation.t) : string * option Z := (Invitation.id i, Invitation.acceptedAt i).

(** A step that accepts no invitation, grants no role and adds neither. *)
Definition quiet (s s' : staff) : Prop :=
  (∃ l, audits s' = audits s ++ l ∧ ∀ a, In a l → gives_role a = false) ∧
  map standing (invitations s') = map standing (invitations s) ∧ length (roles s') = length (roles s) ∧ (next s ≤ next s')%nat.

#[export] Instance quiet_preorder : PreOrder quiet.
Proof.
  split.
  - intros s. split; [exists []; split; [by rewrite app_nil_r | by intros]|]. done.
  - intros s1 s2 s3 ((l & Hl & Hp) & Hi & Hr & Hn) ((l' & Hl' & Hp') & Hi' & Hr' & Hn'). split.
    + exists (l ++ l'). split; [by rewrite Hl', Hl, app_assoc|]. intros a [?|?]%in_app_iff; auto.
    + repeat split; try congruence. lia.
Qed.

Lemma quiet_same s s' : abase (s_auth s') = abase (s_auth s) → length (roles s') = length (roles s) →
  map standing (invitations s') = map standing (invitations s) → quiet s s'.
Proof.
  intros Hb Hr Hi. split; [exists []; unfold audits; rewrite Hb, app_nil_r; split; [done | by intros]|]. unfold next. by rewrite Hb.
Qed.

Section Quiet.
Context (ulid : nat → string).

Lemma audit_quiet actor act rt ri ch at_ : act ≠ ACCEPTED → act ≠ GRANTED → tx_rel quiet (staff_audit ulid actor act rt ri ch at_).
Proof.
  intros Ha Hg s a s' (b & -> & Hl & Hu)%staff_audit_ok. split; [|repeat split; unfold next; simpl; lia].
  eexists. split; [exact Hl|]. intros x [<-|[]]. unfold gives_role. simpl. by rewrite !bool_decide_false.
Qed.

Lemma id_quiet p : tx_rel quiet (staff_id ulid p).
Proof.
  intros s a s' [_ ->]%staff_id_ok. split; [exists []; split; [by rewrite app_nil_r | by intros]|]. repeat split. unfold next. simpl. lia.
Qed.

Lemma write_quiet f : (∀ s, s_auth (f s) = s_auth s) → (∀ s, map standing (invitations (f s)) = map standing (invitations s)) →
  tx_rel quiet (twrite f).
Proof. intros H Hi. apply tx_rel_write. intros s. apply quiet_same; unfold roles; by rewrite ?H. Qed.

Lemma set_invitations_quiet p f : (∀ i, p i = true → standing (f i) = standing i) →
  tx_rel quiet (twrite (λ s, set_invitations (update_where p f (invitations s)) s)).
Proof. intros H. apply write_quiet; [done|]. intros s. simpl. by apply map_update_where. Qed.

Lemma update_roles_quiet p at_ : tx_rel quiet (twrite (update_roles p at_)).
Proof. apply tx_rel_write. intros s. apply quiet_same; [done| |done]. unfold roles. simpl. apply update_where_length. Qed.

Lemma update_acct_quiet k f : tx_rel quiet (on_auth (update_acct k f)).
Proof. intros s a s' (x & H & ->)%on_auth_ok. apply update_acct_ok in H as [_ ->]. by apply quiet_same. Qed.

#[local] Ltac quiet_audit := apply audit_quiet; discriminate.

#[local] Hint Resolve id_quiet update_roles_quiet update_acct_quiet : vista.

Lemma passkeys_quiet account : tx_rel quiet (revoke_passkeys account).
Proof.
  unfold revoke_passkeys. walk_tx; try by apply write_quiet.
  apply tx_rel_prim. intros s s'. unfold delete_credentials. destruct (existsb _ _); [done|]. intros [= <-]. by apply quiet_same.
Qed.
#[local] Hint Resolve passkeys_quiet : vista.

Lemma challenge_create_quiet c : tx_rel quiet (tprim (challenge_create c)).
Proof. apply tx_rel_prim. intros s s'. unfold challenge_create. destruct (exists_row _ _); [done|]. intros [= <-]. by apply quiet_same. Qed.
Lemma credential_create_quiet c : tx_rel quiet (tprim (credential_create c)).
Proof. apply tx_rel_prim. intros s s'. unfold credential_create. destruct (exists_row _ _); [done|]. intros [= <-]. by apply quiet_same. Qed.
Lemma consume_quiet o k t : tx_rel quiet (consume_challenge o k t).
Proof. unfold consume_challenge. walk_tx. by apply write_quiet. Qed.
Lemma mfa_quiet m : tx_rel quiet (twrite (mfa_upsert m)).
Proof. by apply write_quiet. Qed.
#[local] Hint Resolve challenge_create_quiet credential_create_quiet consume_quiet mfa_quiet : vista.

Lemma revokeInvitation_quiet k actor trace reason t : tx_rel quiet (revokeInvitation ulid k actor trace reason t).
Proof. unfold revokeInvitation. walk_tx; try quiet_audit. by apply set_invitations_quiet. Qed.
Lemma claimInvitation_quiet h c t st : tx_rel quiet (claimInvitation h c t st).
Proof. unfold claimInvitation. walk_tx. by apply set_invitations_quiet. Qed.
Lemma releaseClaim_quiet k c : tx_rel quiet (releaseClaim k c).
Proof. by apply set_invitations_quiet. Qed.
Lemma prepareRecovery_quiet account actor trace t : tx_rel quiet (prepareRecovery ulid account actor trace t).
Proof. unfold prepareRecovery. walk_tx; quiet_audit. Qed.
Lemma offboarding_quiet account actor trace reason t : tx_rel quiet (completeOffboarding ulid account actor trace reason t).
Proof. unfold completeOffboarding. walk_tx; quiet_audit. Qed.
Lemma revokeRole_quiet account asg actor trace t : tx_rel quiet (revokeRole ulid account asg actor trace t).
Proof. unfold revokeRole. walk_tx; quiet_audit. Qed.
Lemma replaceChallenge_quiet o ch l t e : tx_rel quiet (replaceChallenge ulid o ch l t e).
Proof. unfold replaceChallenge. walk_tx. by apply write_quiet. Qed.
Lemma failChallenge_quiet o k trace reason t : tx_rel quiet (failChallenge ulid o k trace reason t).
Proof. unfold failChallenge. walk_tx; quiet_audit. Qed.
Lemma completeRegistration_quiet c a p trace v t : tx_rel quiet (completeRegistration ulid c a p trace v t).
Proof. unfold completeRegistration. walk_tx; quiet_audit. Qed.
Lemma completeAuthentication_quiet c a p trace k n v t : tx_rel quiet (completeAuthentication ulid c a p trace k n v t).
Proof. unfold completeAuthentication. walk_tx; try quiet_audit. by apply write_quiet. Qed.
Lemma deliveryFailure_quiet a actor trace t : tx_rel quiet (recordRecoveryDeliveryFailure ulid a actor trace t).
Proof. quiet_audit. Qed.

End Quiet.

End StaffProps.
