(* ===== verification/StaffLedger.v ===== *)
(** Every run of the staff repositories' transactions, in any order and by any number of processes: an invitation
    is accepted at most once, and each role assignment is one audited acceptance or grant. *)

From Stdlib Require Import Ascii String.
From S2P Require Import Prelude JsString DateTime IntakePolicy Db AuthDb Gateway Staff StaffServices StaffProps.

Module StaffLedger.
Import AuthDb Gateway Staff StaffServices StaffProps.

Definition accepted_times (i : Invitation.t) : nat := match Invitation.acceptedAt i with Some _ => 1 | None => 0 end.

Section Ledger.
Context (ulid : nat → string) (ulid_inj : ∀ m n, ulid m = ulid n → m = n).

Definition issued_before (n : nat) (k : string) : Prop := ∃ m, (m < n)%nat ∧ k = String.append "invite_" (ulid m).

Record ledger (s : staff) : Prop := mkLedger {
  ledger_ids : List.NoDup (map Invitation.id (invitations s));
  ledger_issued : ∀ i, In i (invitations s) → issued_before (next s) (Invitation.id i);
  ledger_accepted : ∀ i, In i (invitations s) → count (accepts (Invitation.id i)) (audits s) = accepted_times i;
  ledger_known : ∀ a, In a (audits s) → AuditLog.action a = ACCEPTED → In (AuditLog.resourceId a) (map Invitation.id (invitations s));
  ledger_roles : length (roles s) = count gives_role (audits s) }.

(** The transactions, and anything else that leaves invitations and roles alone *)
Inductive staff_step : staff → staff → Prop :=
  | step_create i by_ trace s r s' : createInvitation ulid i by_ trace s = Ok (r, s') → staff_step s s'
  | step_revoke k actor trace reason t s r s' : revokeInvitation ulid k actor trace reason t s = Ok (r, s') → staff_step s s'
  | step_claim h c t st s r s' : claimInvitation h c t st s = Ok (r, s') → staff_step s s'
  | step_release k c s r s' : releaseClaim k c s = Ok (r, s') → staff_step s s'
  | step_accept k c u trace t s r s' : completeAcceptance ulid k c u trace t s = Ok (r, s') → staff_step s s'
  | step_bootstrap e d h trace t x s r s' : issueBootstrapInvitation ulid e d h trace t x s = Ok (r, s') → staff_step s s'
  | step_recover a actor trace t s r s' : prepareRecovery ulid a actor trace t s = Ok (r, s') → staff_step s s'
  | step_undelivered a actor trace t s r s' : recordRecoveryDeliveryFailure ulid a actor trace t s = Ok (r, s') → staff_step s s'
  | step_offboard a actor trace reason t s r s' : completeOffboarding ulid a actor trace reason t s = Ok (r, s') → staff_step s s'
  | step_grant a role p f actor trace t s r s' : grantRole ulid a role p f actor trace t s = Ok (r, s') → staff_step s s'
  | step_revoke_role a asg actor trace t s r s' : revokeRole ulid a asg actor trace t s = Ok (r, s') → staff_step s s'
  | step_challenge o ch l t e s r s' : replaceChallenge ulid o ch l t e s = Ok (r, s') → staff_step s s'
  | step_fail o k trace reason t s r s' : failChallenge ulid o k trace reason t s = Ok (r, s') → staff_step s s'
  | step_register c a p trace v t s r s' : completeRegistration ulid c a p trace v t s = Ok (r, s') → staff_step s s'
  | step_authenticate c a p trace k n v t s r s' : completeAuthentication ulid c a p trace k n v t s = Ok (r, s') → staff_step s s'
  | step_other s s' : quiet s s' → staff_step s s'.

Lemma standing_in l l' i : map standing l' = map standing l → In i l' → ∃ j, In j l ∧ standing j = standing i.
Proof. intros H Hi. assert (In (standing i) (map standing l)) as Hj by (rewrite <-H; by apply in_map). apply in_map_iff in Hj as (j & ? & ?). by exists j. Qed.

Lemma standing_ids l l' : map standing l' = map standing l → map Invitation.id l' = map Invitation.id l.
Proof. intros H. apply (f_equal (map fst)) in H. rewrite !map_map in H. exact H. Qed.

Lemma issued_mono n n' k : (n ≤ n')%nat → issued_before n k → issued_before n' k.
Proof. intros Hn (m & ? & ?). exists m. split; [lia|done]. Qed.

Lemma accepts_gives k a : accepts k a = true → gives_role a = true.
Proof. unfold accepts, gives_role. intros [-> _]%andb_true_iff. done. Qed.

Lemma quiet_ledger s s' : quiet s s' → ledger s → ledger s'.
Proof.
  intros ((l & Hl & Hq) & Hi & Hr & Hn) [L1 L2 L3 L4 L5].
  assert (∀ k, count (accepts k) l = 0%nat) as Hk.
  { intros k. apply count_none. intros a Ha. destruct (accepts k a) eqn:E; [|done]. apply accepts_gives in E. rewrite Hq in E; done. }
  split.
  - by rewrite (standing_ids _ _ Hi).
  - intros i Hin. destruct (standing_in _ _ _ Hi Hin) as (j & Hj & Es). injection Es as Ei _. rewrite <-Ei.
    eapply issued_mono; [exact Hn|]. by apply L2.
  - intros i Hin. destruct (standing_in _ _ _ Hi Hin) as (j & Hj & Es). injection Es as Ei Ea. rewrite <-Ei, Hl, count_app, Hk, Nat.add_0_r.
    rewrite L3 by done. unfold accepted_times. by rewrite Ea.
  - intros a Ha Hact. rewrite (standing_ids _ _ Hi). rewrite Hl in Ha. apply in_app_iff in Ha as [Ha|Ha]; [by apply L4|].
    specialize (Hq a Ha). unfold gives_role in Hq. by rewrite bool_decide_true in Hq.
  - rewrite Hr, L5, Hl, count_app, (count_none _ l) by done. lia.
Qed.

(** A new invitation, under an identifier no earlier one has *)
Lemma create_ledger row s s1 : ledger s → tprim (invitation_create row) s = Ok (tt, s1) →
  Invitation.acceptedAt row = None → (∃ n, (n < next s)%nat ∧ Invitation.id row = String.append "invite_" (ulid n) ∧
    ∀ i, In i (invitations s) → issued_before n (Invitation.id i)) → ledger s1.
Proof.
  intros [L1 L2 L3 L4 L5] H%tprim_ok Ha (n & Hn & Hid & Hfresh). unfold invitation_create in H.
  destruct (negb _); [done|]. destruct (exists_row _ _); [done|]. injection H as <-.
  assert (¬ In (Invitation.id row) (map Invitation.id (invitations s))) as Hnew.
  { intros (i & Ei & Hi)%in_map_iff. destruct (Hfresh i Hi) as (m & Hm & Em). rewrite Hid, Em in Ei. apply append_inj_l in Ei.
    apply ulid_inj in Ei. lia. }
  split; unfold audits, roles, next in *; simpl in *; rewrite ?map_app; simpl.
  - by apply NoDup_snoc.
  - intros i [Hi|[<-|[]]]%in_app_iff; [by apply L2|]. by exists n.
  - intros i [Hi|[<-|[]]]%in_app_iff; [by apply L3|]. unfold accepted_times. rewrite Ha. apply count_none.
    intros a Hin. unfold accepts. destruct (bool_decide (AuditLog.action a = ACCEPTED)) eqn:E; [|done]. simpl. boolify.
    apply bool_decide_eq_false_2. intros Er. apply Hnew. rewrite <-Er. by apply L4.
  - intros a Hin Hact. apply in_app_iff. left. by apply L4.
  - done.
Qed.

(** The identifier just drawn is new. *)
Lemma drawn_fresh s k s1 row : ledger s → staff_id ulid "invite_" s = Ok (k, s1) → Invitation.id row = k →
  ∃ n, (n < next s1)%nat ∧ Invitation.id row = String.append "invite_" (ulid n) ∧ ∀ i, In i (invitations s1) → issued_before n (Invitation.id i).
Proof.
  intros L [-> ->]%staff_id_ok ->. exists (next s). split; [unfold next; simpl; lia|]. split; [done|]. intros i Hi. by apply (ledger_issued s L).
Qed.

Lemma tx_ledger {A} (t : txn staff A) s a s' : tx_rel quiet t → t s = Ok (a, s') → ledger s → ledger s'.
Proof. intros Hq Ht. apply quiet_ledger. by eapply Hq. Qed.

Lemma draw_and_create s k s1 row s2 : ledger s → staff_id ulid "invite_" s = Ok (k, s1) → Invitation.id row = k →
  Invitation.acceptedAt row = None → tprim (invitation_create row) s1 = Ok (tt, s2) → ledger s2.
Proof.
  intros L Hk Hid Ha Hc. eapply create_ledger; [|exact Hc|done|by eapply drawn_fresh]. eapply tx_ledger; [|exact Hk|exact L]; apply id_quiet.
Qed.

Lemma createInvitation_ledger i by_ trace s r s' : ledger s → createInvitation ulid i by_ trace s = Ok (r, s') → ledger s'.
Proof.
  intros L H. unfold createInvitation in H. apply tbind_ok in H as (? & s1 & Hw & H). apply tbind_ok in H as (k & s2 & Hk & H).
  apply tbind_ok in H as ([] & s3 & Hc & H). apply tbind_ok in H as (? & s4 & Hau & H). apply tlift_ok in H as [_ ->].
  eapply tx_ledger; [|exact Hau|]; [apply audit_quiet; discriminate|]. eapply draw_and_create; [|exact Hk| | |exact Hc]; [|done|done].
  eapply tx_ledger; [|exact Hw|exact L]. by apply set_invitations_quiet.
Qed.

Lemma bootstrap_ledger e d h trace t x s r s' : ledger s → issueBootstrapInvitation ulid e d h trace t x s = Ok (r, s') → ledger s'.
Proof.
  intros L H. unfold issueBootstrapInvitation in H. apply tbind_ok in H as (live & s1 & [-> ->]%tread_ok & H).
  apply tbind_ok in H as (n & s1 & [-> ->]%tread_ok & H). destruct (Nat.ltb _ _); [by apply tret_ok in H as [_ ->]|].
  apply tbind_ok in H as (? & s2 & Hw & H). apply tbind_ok in H as (k & s3 & Hk & H).
  apply tbind_ok in H as ([] & s4 & Hc & H). apply tbind_ok in H as (? & s5 & Hau & H). apply tret_ok in H as [_ ->].
  eapply tx_ledger; [|exact Hau|]; [apply audit_quiet; discriminate|]. eapply draw_and_create; [|exact Hk| | |exact Hc]; [|done|done].
  eapply tx_ledger; [|exact Hw|exact L]. apply tx_rel_each; [exact _|]. intros i. unfold revoke_for_bootstrap.
  apply tx_rel_bind; [exact _|by apply set_invitations_quiet|intros _; apply audit_quiet; discriminate].
Qed.

(** A role, and the audit entry that accounts for it *)
Lemma role_and_audit role account p f t actor act rt ri ch at_ s row s1 v s2 :
  role_create ulid role account p f t s = Ok (row, s1) → staff_audit ulid actor act rt ri ch at_ s1 = Ok (v, s2) →
  length (roles s2) = S (length (roles s)) ∧ invitations s2 = invitations s ∧ (next s ≤ next s2)%nat ∧
  ∃ b, AuditLog.action b = act ∧ AuditLog.resourceId b = ri ∧ audits s2 = audits s ++ [b].
Proof.
  unfold role_create. intros H (b & -> & Hl & Hu)%staff_audit_ok. apply tbind_ok in H as (k & s0 & [-> ->]%staff_id_ok & H).
  apply tbind_ok in H as (? & s3 & ->%twrite_ok & [-> ->]%tret_ok). unfold roles, audits, next in *. simpl in *.
  rewrite length_app, Nat.add_1_r. repeat split; [lia|]. eexists. split; [|split; [|exact Hl]]; done.
Qed.

Lemma grantRole_ledger a role p f actor trace t s r s' : ledger s → grantRole ulid a role p f actor trace t s = Ok (r, s') → ledger s'.
Proof.
  intros [L1 L2 L3 L4 L5] H. unfold grantRole in H. apply tbind_ok in H as (row & s1 & Hc & H).
  apply tbind_ok in H as (v & s2 & Hau & [-> ->]%tret_ok).
  destruct (role_and_audit _ _ _ _ _ _ _ _ _ _ _ _ _ _ _ _ Hc Hau) as (Hr & Hi & Hn & b & Hact & _ & Hl).
  assert (∀ k, count (accepts k) [b] = 0%nat) as Hb.
  { intros k. apply count_none. intros x [<-|[]]. unfold accepts. rewrite Hact. done. }
  split; rewrite ?Hi, ?Hl; try done.
  - intros i Hin. eapply issued_mono; [exact Hn | by apply L2].
  - intros i Hin. rewrite count_app, Hb, Nat.add_0_r. by apply L3.
  - intros x [Hx|[<-|[]]]%in_app_iff Hxa; [by apply L4 | by rewrite Hact in Hxa].
  - rewrite Hr, L5, count_app. unfold count at 3. simpl. unfold gives_role at 3. rewrite Hact. simpl. lia.
Qed.

Lemma in_update_accepted k c account t l i : In i (update_where (claimed_by k c) (Invitation.set_accepted account t) l) →
  ∃ j, In j l ∧ Invitation.id i = Invitation.id j ∧
    (claimed_by k c j = true ∧ Invitation.acceptedAt i = Some t ∨ claimed_by k c j = false ∧ i = j).
Proof.
  intros (j & Hj & ->)%in_update_where. exists j. split; [done|]. destruct (claimed_by k c j) eqn:E; simpl; eauto.
Qed.

Lemma acceptance_ledger k c u trace t s r s' : ledger s → completeAcceptance ulid k c u trace t s = Ok (r, s') → ledger s'.
Proof.
  intros L H. unfold completeAcceptance in H. apply tbind_ok in H as (found & s1 & [Hf ->]%tread_ok & H).
  destruct found as [i0|]; [|by apply tret_ok in H as [_ ->]]. apply tbind_ok in H as (acct & s1 & [-> ->]%tread_ok & H).
  destruct (findByBetterAuthUserId u (s_auth s)) as [a|]; [|by apply tthrow_ok in H].
  apply tbind_ok in H as (row & s1 & Hc & H). apply tbind_ok in H as (n & s2 & [-> ->]%tread_ok & H).
  apply tbind_ok in H as ([] & s2 & Hu%tprim_ok & H). destruct (negb _); [by apply tthrow_ok in H|].
  apply tbind_ok in H as (v & s3 & Hau & [-> ->]%tret_ok).
  symmetry in Hf. apply find_row_Some in Hf as [Hi0 Hcl]. boolify.
  unfold accept_update in Hu. destruct (_ && _); [done|]. injection Hu as <-.
  destruct L as [L1 L2 L3 L4 L5]. unfold claimed_by in H. boolify.
  apply staff_audit_ok in Hau as (b & -> & Hl & Hn). unfold role_create in Hc.
  apply tbind_ok in Hc as (kk & s0 & [-> ->]%staff_id_ok & Hc). apply tbind_ok in Hc as (? & s4 & ->%twrite_ok & [-> ->]%tret_ok).
  unfold audits, roles, next in *. simpl in *.
  assert (∀ i j : Invitation.t, In j (invitations s) → claimed_by k c j = true → Invitation.id i = Invitation.id j → j = i0) as Huniq.
  { intros i j Hj Hcj _. unfold claimed_by in Hcj. boolify. apply (NoDup_map_inj_in _ _ _ _ L1); congruence. }
  split; unfold audits, roles, next; simpl.
  - rewrite (map_update_where Invitation.id) by done. done.
  - intros i (j & Hj & Ei & _)%in_update_accepted. rewrite Ei. eapply issued_mono; [|by apply L2]. lia.
  - intros i (j & Hj & Ei & Hcase)%in_update_accepted. rewrite Ei, Hl, count_app.
    assert (count (accepts (Invitation.id j)) (auditLog (abase (s_auth s))) = accepted_times j) as Hold by (by apply L3).
    rewrite Hold. destruct Hcase as [[Hcj Ha]|[Hcj ->]].
    + pose proof (Huniq i j Hj Hcj Ei) as ->. unfold accepted_times. rewrite Ha.
      assert (Invitation.acceptedAt i0 = None) as -> by (unfold claimed_by, Invitation.is_open in Hcj; boolify; done).
      unfold count, accepts. simpl. rewrite !bool_decide_true by done. done.
    + assert (Invitation.id j ≠ k) as Hne.
      { intros Ejk. assert (j = i0) as -> by (apply (NoDup_map_inj_in _ _ _ _ L1); congruence).
        unfold claimed_by in Hcj. rewrite !bool_decide_true in Hcj by done. simpl in Hcj. congruence. }
      unfold count, accepts. simpl. rewrite (bool_decide_false (k = Invitation.id j)) by congruence. simpl. lia.
  - intros y Hx Hact. rewrite (map_update_where Invitation.id) by done. rewrite Hl in Hx.
    apply in_app_iff in Hx as [Hx|[<-|[]]]; [by apply L4|]. simpl. apply in_map_iff. exists i0. by split.
  - rewrite length_app, L5, Hl, count_app. unfold count at 3, gives_role. simpl. lia.
Qed.

Lemma step_ledger s s' : staff_step s s' → ledger s → ledger s'.
Proof.
  intros Hs L. destruct Hs as [i by_ trace s r s' H|k actor trace reason t s r s' H|h c t st s r s' H|k c s r s' H|k c u trace t s r s' H
    |e d h trace t x s r s' H|a actor trace t s r s' H|a actor trace t s r s' H|a actor trace reason t s r s' H
    |a role p f actor trace t s r s' H|a asg actor trace t s r s' H|o ch l t e s r s' H|o k trace reason t s r s' H
    |c a p trace v t s r s' H|c a p trace k n v t s r s' H|s s' H];
    [by eapply createInvitation_ledger| | | |by eapply acceptance_ledger|by eapply bootstrap_ledger| | | |by eapply grantRole_ledger
    | | | | | |by eapply quiet_ledger];
    (eapply tx_ledger; [|exact H|exact L]).
  - apply revokeInvitation_quiet. - apply claimInvitation_quiet. - apply releaseClaim_quiet. - apply prepareRecovery_quiet.
  - apply deliveryFailure_quiet. - apply offboarding_quiet. - apply revokeRole_quiet. - apply replaceChallenge_quiet.
  - apply failChallenge_quiet. - apply completeRegistration_quiet. - apply completeAuthentication_quiet.
Qed.

(** Over any interleaving of the staff transactions, an invitation's acceptance is recorded exactly once if it was
    accepted and never otherwise, however many acceptances claim it, give it up or race for it; and the role assignments are
    exactly as many as the audited acceptances and grants. *)
Theorem invitations_accepted_once s s' : ledger s → rtc staff_step s s' →
  (∀ i, In i (invitations s') → count (accepts (Invitation.id i)) (audits s') = accepted_times i) ∧
  length (roles s') = count gives_role (audits s').
Proof.
  intros L Hr. assert (ledger s') as L' by (induction Hr as [|s1 s2 s3 Hs _ IH]; [done|]; apply IH; by eapply step_ledger).
  split; [apply L' | apply L'].
Qed.

End Ledger.

End StaffLedger.
