(* ===== verification/StaffOffboard.v ===== *)
(** Offboarding: it always completes, and it locks the account out of every gate. *)

From Stdlib Require Import Ascii String.
From S2P Require Import Prelude JsString DateTime IntakePolicy Db AuthDb AuthDevice AuthSessions Dpop Gateway DpopReplay GatewayProps Staff StaffServices StaffProps OfferingDemo AuthDemo StaffLedger.

Module StaffOffboard.
Import AuthDb Dpop Gateway GatewayProps Staff StaffServices StaffProps.

(** ** Verified sessions refer to passkeys of their own account *)

Record backed (s : staff) : Prop := mkBacked {
  backed_ids : List.NoDup (map Credential.id (credentials s));
  backed_mfa : ∀ m, In m (mfa s) → ∃ c, In c (credentials s) ∧ Credential.id c = SessionMfa.credentialId m ∧
    Credential.accountId c = SessionMfa.accountId m }.

(** The two columns a credential is never changed in *)
Definition owner (c : Credential.t) : string * string := (Credential.id c, Credential.accountId c).

(** Passkeys unchanged but for their counters, and no new verified session *)
Definition keeps_passkeys (s s' : staff) : Prop :=
  map owner (credentials s') = map owner (credentials s) ∧ ∀ m, In m (mfa s') → In m (mfa s).

#[export] Instance keeps_passkeys_preorder : PreOrder keeps_passkeys.
Proof. split; [by intros s | intros s1 s2 s3 [] []; split; [congruence | auto]]. Qed.

Lemma owner_in l l' c : map owner l' = map owner l → In c l → ∃ c', In c' l' ∧ owner c' = owner c.
Proof. intros H Hc. assert (In (owner c) (map owner l')) as Hin by (rewrite H; by apply in_map). apply in_map_iff in Hin as (c' & ? & ?). by exists c'. Qed.

Lemma keeps_backed s s' : keeps_passkeys s s' → backed s → backed s'.
Proof.
  intros [Hc Hm] [B1 B2]. split.
  - apply (f_equal (map fst)) in Hc. rewrite !map_map in Hc. by change (map Credential.id (credentials s') = map Credential.id (credentials s)) in Hc; rewrite Hc.
  - intros m Hin. destruct (B2 m (Hm m Hin)) as (c & Hci & H1 & H2). destruct (owner_in _ _ c Hc Hci) as (c' & Hc' & Ho).
    injection Ho as E1 E2. exists c'. split; [done|]. by rewrite E1, E2.
Qed.

Section Passkeys.
Context (ulid : nat → string).

Lemma passkeys_same s s' : credentials s' = credentials s → mfa s' = mfa s → keeps_passkeys s s'.
Proof. intros H1 H2. split; [by rewrite H1 | by rewrite H2]. Qed.

Lemma audit_passkeys actor act rt ri ch at_ : tx_rel keeps_passkeys (staff_audit ulid actor act rt ri ch at_).
Proof. intros s a s' (b & -> & _)%staff_audit_ok. by apply passkeys_same. Qed.

Lemma write_passkeys f : (∀ s, credentials (f s) = credentials s) → (∀ s, mfa (f s) = mfa s) → tx_rel keeps_passkeys (twrite f).
Proof. intros H1 H2. apply tx_rel_write. intros s. by apply passkeys_same. Qed.

Lemma consume_passkeys o k t : tx_rel keeps_passkeys (consume_challenge o k t).
Proof. unfold consume_challenge. walk_tx. by apply write_passkeys. Qed.

(** The account's passkeys and verified sessions are gone, and no constraint was in the way. *)
Lemma revoke_passkeys_total account s : backed s →
  ∃ n s', revoke_passkeys account s = Ok (n, s') ∧ s_auth s' = s_auth s ∧ invitations s' = invitations s ∧ backed s' ∧
    (∀ c, In c (credentials s') → Credential.accountId c ≠ account) ∧ (∀ m, In m (mfa s') → SessionMfa.accountId m ≠ account).
Proof.
  intros [B1 B2]. unfold revoke_passkeys. unfold tbind, twrite, tread, tprim, tret, delete_credentials. simpl.
  set (kept := List.filter (λ m, negb (bool_decide (SessionMfa.accountId m = account))) (mfa s)).
  assert (existsb (λ c, bool_decide (Credential.accountId c = account) &&
    exists_row (λ m, bool_decide (SessionMfa.credentialId m = Credential.id c)) kept) (credentials s) = false) as ->.
  { apply not_true_is_false. intros (c & Hc & H)%existsb_exists. boolify. apply exists_row_true in H0 as (m & Hm & Hid). boolify.
    unfold kept in Hm. apply filter_In in Hm as [Hm Hne]. boolify. destruct (B2 m Hm) as (c' & Hc' & E1 & E2).
    assert (c = c') as -> by (apply (NoDup_map_inj_in _ _ _ _ B1); congruence). congruence. }
  simpl. do 2 eexists. split; [reflexivity|]. simpl. split; [done|]. split; [done|]. split; [|split].
  - split; simpl.
    + by apply NoDup_map_filter.
    + intros m [Hm Hne]%filter_In. destruct (B2 m Hm) as (c & Hc & E1 & E2). exists c. split; [|done]. apply filter_In. split; [done|].
      boolify. apply negb_true_iff. apply bool_decide_eq_false_2. congruence.
  - intros c [_ Hne]%filter_In. by boolify.
  - intros m [_ Hne]%filter_In. by boolify.
Qed.

Lemma revoke_passkeys_backed account s n s' : backed s → revoke_passkeys account s = Ok (n, s') → backed s'.
Proof. intros B H. destruct (revoke_passkeys_total account s B) as (n' & s1 & H1 & _ & _ & B1 & _). rewrite H in H1. by injection H1 as -> ->. Qed.

(** A verified session is recorded for a passkey that is there. *)
Lemma upsert_backed m s : backed s → (∃ c, In c (credentials s) ∧ Credential.id c = SessionMfa.credentialId m ∧ Credential.accountId c = SessionMfa.accountId m) →
  backed (mfa_upsert m s).
Proof.
  intros [B1 B2] Hm. split; [done|]. unfold mfa_upsert. simpl. intros x. destruct (exists_row _ _).
  - intros (y & Hy & ->)%in_update_where. destruct (by_id _ _ y); auto.
  - intros [Hx|[<-|[]]]%in_app_iff; auto.
Qed.

Lemma registration_backed c a p trace v t s r s' : backed s → completeRegistration ulid c a p trace v t s = Ok (r, s') → backed s'.
Proof.
  intros B H. unfold completeRegistration in H. apply tbind_ok in H as (ok & s1 & H1 & H).
  apply consume_passkeys in H1. apply (keeps_backed _ _ H1) in B. destruct (negb ok); [by apply tret_ok in H as [_ ->]|].
  apply tbind_ok in H as (ch & s2 & [-> ->]%tread_ok & H). destruct (find_row _ (wchallenges s1)) as [w|]; [|by apply tthrow_ok in H].
  apply tbind_ok in H as ([] & s3 & Hc%tprim_ok & H). apply tbind_ok in H as (? & s4 & ->%twrite_ok & H).
  apply tbind_ok in H as (? & s5 & Hau & [_ ->]%tret_ok). apply audit_passkeys in Hau. apply (keeps_backed _ _ Hau).
  unfold credential_create in Hc. destruct (exists_row _ _) eqn:E; [done|]. injection Hc as <-.
  destruct B as [B1 B2]. apply upsert_backed.
  - split; simpl.
    + rewrite map_app. apply NoDup_snoc; [done|]. intros (y & Ex & Hx)%in_map_iff. rewrite exists_row_false in E. specialize (E y Hx).
      unfold by_id in E. simpl in *. by rewrite bool_decide_true in E.
    + intros m Hm. destruct (B2 m Hm) as (y & Hx & ?). exists y. split; [|done]. apply in_app_iff. by left.
  - eexists. split; [simpl; apply in_app_iff; right; by left|]. done.
Qed.

Lemma authentication_backed c a p trace k n v t s r s' : backed s → completeAuthentication ulid c a p trace k n v t s = Ok (r, s') → backed s'.
Proof.
  intros B H. unfold completeAuthentication in H. apply tbind_ok in H as (ok & s1 & H1 & H).
  apply consume_passkeys in H1. apply (keeps_backed _ _ H1) in B. destruct (negb ok); [by apply tret_ok in H as [_ ->]|].
  apply tbind_ok in H as (m & s2 & [-> ->]%tread_ok & H). apply tbind_ok in H as (? & s3 & ->%twrite_ok & H).
  destruct (negb _) eqn:En; [by apply tthrow_ok in H|]. apply tbind_ok in H as (? & s4 & ->%twrite_ok & H).
  apply tbind_ok in H as (? & s5 & Hau & [_ ->]%tret_ok). apply audit_passkeys in Hau. apply (keeps_backed _ _ Hau).
  set (hit := λ x, _ && _) in *. boolify. apply Nat.eqb_eq in En.
  destruct (List.filter hit (credentials s1)) as [|y l] eqn:Ef; [done|].
  assert (In y (List.filter hit (credentials s1))) as [Hx Hh]%filter_In by (rewrite Ef; by left).
  apply upsert_backed.
  - apply (keeps_backed s1); [|done]. split; [|done]. simpl. by apply map_update_where.
  - eexists. split; [simpl; apply in_update_where; exists y; split; [done|]; rewrite Hh; reflexivity|]. unfold hit in Hh. boolify. done.
Qed.

(** The transactions that write passkeys and verified sessions, and anything else, which may end sessions *)
Inductive passkey_step : staff → staff → Prop :=
  | pk_register c a p trace v t s r s' : completeRegistration ulid c a p trace v t s = Ok (r, s') → passkey_step s s'
  | pk_authenticate c a p trace k n v t s r s' : completeAuthentication ulid c a p trace k n v t s = Ok (r, s') → passkey_step s s'
  | pk_recover a actor trace t s r s' : prepareRecovery ulid a actor trace t s = Ok (r, s') → passkey_step s s'
  | pk_offboard a actor trace reason t s r s' : completeOffboarding ulid a actor trace reason t s = Ok (r, s') → passkey_step s s'
  | pk_other s s' : keeps_passkeys s s' → passkey_step s s'.

Lemma update_acct_passkeys k f : tx_rel keeps_passkeys (on_auth (update_acct k f)).
Proof. intros s a s' (x & _ & ->)%on_auth_ok. by apply passkeys_same. Qed.

Lemma passkey_step_backed s s' : passkey_step s s' → backed s → backed s'.
Proof.
  intros Hs B. destruct Hs as [c a p trace v t s r s' H|c a p trace k n v t s r s' H|a actor trace t s r s' H|a actor trace reason t s r s' H|s s' H].
  - by eapply registration_backed.
  - by eapply authentication_backed.
  - unfold prepareRecovery in H. apply tbind_ok in H as (tg & s1 & [-> ->]%tread_ok & H).
    destruct (find_row _ _); [|by apply tret_ok in H as [_ ->]]. apply tbind_ok in H as (n & s2 & Hr & H).
    apply tbind_ok in H as (? & s3 & Hau & [_ ->]%tret_ok). apply audit_passkeys in Hau. apply (keeps_backed _ _ Hau). by eapply revoke_passkeys_backed.
  - unfold completeOffboarding in H. apply tbind_ok in H as (n & s2 & Hr & H). apply tbind_ok in H as (m & s3 & [-> ->]%tread_ok & H).
    apply tbind_ok in H as (? & s4 & ->%twrite_ok & H). apply tbind_ok in H as (? & s5 & Hu & Hau).
    apply audit_passkeys in Hau. apply (keeps_backed _ _ Hau). apply update_acct_passkeys in Hu. apply (keeps_backed _ _ Hu).
    apply (keeps_backed s2); [by apply passkeys_same | by eapply revoke_passkeys_backed].
  - by eapply keeps_backed.
Qed.

(** ** The offboarding transaction *)

Lemma offboarding_total account actor trace reason t s : backed s → (∃ a, In a (accts (s_auth s)) ∧ Acct.id a = account) →
  ∃ s', completeOffboarding ulid account actor trace reason t s = Ok (tt, s').
Proof.
  intros B Ha. destruct (revoke_passkeys_total account s B) as (n & s1 & H1 & E1 & _).
  unfold completeOffboarding, tbind. rewrite H1. unfold tread, twrite. unfold on_auth, update_acct, tprim.
  simpl. rewrite E1. destruct Ha as (a & Ha & Hid).
  assert (exists_row (by_id Acct.id account) (accts (s_auth s)) = true) as ->.
  { apply exists_row_true. exists a. split; [done|]. unfold by_id. by apply bool_decide_eq_true_2. }
  simpl. unfold staff_audit, on_auth, audit, tbind, fresh_id. simpl. by eexists.
Qed.

Lemma offboarding_ok account actor trace reason t s v s' : completeOffboarding ulid account actor trace reason t s = Ok (v, s') → backed s →
  (∀ a, In a (accts (s_auth s')) → Acct.id a = account → Acct.status a = suspended_restricted) ∧
  has_active_role account (s_auth s') = false ∧ users (s_auth s') = users (s_auth s) ∧ sessions (s_auth s') = sessions (s_auth s) ∧
  (∀ c, In c (credentials s') → Credential.accountId c ≠ account) ∧ (∀ m, In m (mfa s') → SessionMfa.accountId m ≠ account).
Proof.
  intros H B. unfold completeOffboarding in H. apply tbind_ok in H as (n & s1 & Hr & H). apply tbind_ok in H as (m & s3 & [-> ->]%tread_ok & H).
  apply tbind_ok in H as (? & s4 & ->%twrite_ok & H). apply tbind_ok in H as (? & s5 & (y & [_ Hy]%update_acct_ok & ->)%on_auth_ok & Hau).
  apply staff_audit_ok in Hau as (b & -> & _). destruct (revoke_passkeys_total account s B) as (n' & s1' & Hr' & E1 & _ & _ & Hc & Hm).
  rewrite Hr in Hr'. injection Hr' as -> ->. subst y. simpl. rewrite E1. repeat split; try done.
  - intros a (y & _ & ->)%in_update_where. unfold by_id. case_bool_decide as E; [by simpl | by intros].
  - apply exists_row_false. intros r (q & _ & ->)%in_update_where. destruct (active_role_of account q) eqn:Eq; simpl.
    + by rewrite andb_false_r.
    + unfold active_role_of in Eq. done.
Qed.

End Passkeys.

(** ** The service *)

Section Offboard.
Context (ulid : nat → string) `{I : InternalAdapter} `{!InternalAdapterLaws I}.

Lemma findTarget_ok account s t : findTarget account s = Some t →
  ∃ a, In a (accts (s_auth s)) ∧ Acct.id a = account ∧ tg_accountId t = account ∧ tg_betterAuthUserId t = Acct.betterAuthUserId a.
Proof.
  unfold findTarget, find_acct. destruct (find_row _ _) as [a|] eqn:E; [|done]. intros [= <-]. apply find_row_Some in E as [Hi Hb].
  unfold by_id in Hb. boolify. by exists a.
Qed.

(** The user is disabled and without sessions; nothing else of the tables has changed. *)
Lemma disable_ok fault u t s v s' : disableAndRevoke fault u t s = (Ok v, s') →
  (∃ x, findUserById u (users (s_auth s')) = Some x ∧ is_Some (User.disabledAt x)) ∧
  (∀ y, In y (sessions (s_auth s')) → BaSession.userId y ≠ u) ∧
  credentials s' = credentials s ∧ mfa s' = mfa s ∧ accts (s_auth s') = accts (s_auth s).
Proof.
  unfold disableAndRevoke. intros H. apply iobind_ok in H as (o & s1 & Hu & H). apply iobind_ok in H as (x & s2 & [Hx ->]%lift_ok & H).
  apply iobind_ok in H as (w & s3 & Hd & H).
  unfold user_of, in_auth, attempt, read, query in Hu. destruct (fault "findUserById"); [done|]. injection Hu as <- <-.
  assert (s3 = set_s_auth (set_users (users (s_auth s3)) (s_auth s)) s ∧ ∃ x', findUserById u (users (s_auth s3)) = Some x' ∧ is_Some (User.disabledAt x'))
    as [E3 Hdis].
  { unfold assertStaffUser in Hx. simpl in Hx. destruct (findUserById u (users (s_auth s))) as [u0|] eqn:Ef; [|done].
    destruct (negb _); [done|]. injection Hx as ->. destruct (bool_decide (User.disabledAt x = None)) eqn:Ed.
    - unfold in_auth, attempt, write in Hd. destruct (fault "updateUser"); [done|]. injection Hd as <- <-. simpl. split; [by destruct s as [[]]|].
      rewrite findUserById_spec, updateUser_spec in *. rewrite find_row_update_where by done. rewrite Ef. simpl.
      apply find_row_Some in Ef as [_ ->]. eexists. split; [done|]. by eexists.
    - apply ret_ok in Hd as [_ ->]. simpl. split; [by destruct s as [[]]|]. exists x. split; [done|]. boolify. by destruct (User.disabledAt x). }
  unfold in_auth, end_sessions, attempt, write in H. destruct (fault "deleteUserSessions"); [done|]. injection H as <- <-. simpl.
  split; [done|]. split; [intros y Hy; by apply deleteUserSessions_spec in Hy as [_ ?]|]. rewrite E3. done.
Qed.

(** Offboarding a staff account always completes when Better Auth answers: the passkeys it deletes are never
    held back by a verified session that refers to them, whatever was registered, authenticated or recovered before. *)
Theorem offboarding_completes s0 s account actor trace reason t : backed s0 → rtc (passkey_step ulid) s0 s → account ≠ actor →
  (∃ tg u, findTarget account s = Some tg ∧ findUserById (tg_betterAuthUserId tg) (users (s_auth s)) = Some u ∧ User.population u = "staff_partner") →
  ∃ s', OffboardStaffAccount_execute ulid no_faults account actor trace reason t s = (Ok tt, s').
Proof.
  intros B0 Hr Hne (tg & u & Ht & Hu & Hp).
  assert (backed s) as B by (clear Ht Hu; induction Hr as [|x y z Hs _ IH]; [done|]; apply IH; by eapply passkey_step_backed).
  destruct (findTarget_ok _ _ _ Ht) as (a & Ha & Hid & Htg & _).
  unfold OffboardStaffAccount_execute, rejectSelfAction. rewrite bool_decide_false by done. simpl.
  unfold iobind at 1, ret at 1. unfold iobind at 1, look, query. rewrite Ht. unfold iobind at 1.
  assert (∃ s1, disableAndRevoke no_faults (tg_betterAuthUserId tg) t s = (Ok tt, s1)) as (s1 & H1).
  { unfold disableAndRevoke, user_of, in_auth, attempt, no_faults, read, query, iobind, lift, end_sessions, write, ret. simpl. rewrite Hu. simpl.
    rewrite bool_decide_true by done. simpl. by destruct (bool_decide _); eexists. }
  rewrite H1. apply disable_ok in H1 as (_ & _ & Hc & Hm & Hacc).
  destruct (offboarding_total ulid (tg_accountId tg) actor trace reason t s1) as (s2 & H2).
  - apply (keeps_backed s); [by apply passkeys_same | done].
  - rewrite Htg, Hacc. by exists a.
  - exists s2. unfold transaction. by rewrite H2.
Qed.

(** C12: once an offboarding has completed, the account gets in nowhere: no request is admitted for it, no session
    of its user is left and none can be created, it holds no role, and none of its passkeys or verified sessions remain. *)
Theorem offboarded_staff_are_locked_out `{A : SessionApi} `{!SessionApiLaws A} fault s s' account actor trace reason t : backed s →
  OffboardStaffAccount_execute ulid fault account actor trace reason t s = (Ok tt, s') →
  ∃ tg, findTarget account s = Some tg ∧
  (∀ J allow dpop w rq at_ g g' c, g_auth g = s_auth s' → requireAuthentication J allow dpop w rq at_ g = (Ok c, g') → cx_accountId c ≠ account) ∧
  (∀ x, In x (sessions (s_auth s')) → BaSession.userId x ≠ tg_betterAuthUserId tg) ∧
  (∀ path verified, session_create_before path (findUserById (tg_betterAuthUserId tg) (users (s_auth s'))) verified ≠ Ok tt) ∧
  hasAnyActiveStaffRole account (s_auth s') = false ∧
  (∀ c, In c (credentials s') → Credential.accountId c ≠ account) ∧ (∀ m, In m (mfa s') → SessionMfa.accountId m ≠ account).
Proof.
  intros B H. unfold OffboardStaffAccount_execute in H. apply iobind_ok in H as (? & s0 & Hself & H).
  unfold rejectSelfAction in Hself. destruct (negb _); [|done]. apply ret_ok in Hself as [_ ->].
  apply iobind_ok in H as (o & s0 & [Ho ->]%query_ok & H). injection Ho as <-. destruct (findTarget account s) as [tg|] eqn:Ht; [|done].
  exists tg. split; [done|]. destruct (findTarget_ok _ _ _ Ht) as (a & _ & _ & Htg & _).
  apply iobind_ok in H as (v & s1 & (Hdis & Hses & Hc & Hm & Hacc)%disable_ok & H%transaction_ok). rewrite Htg in H.
  apply offboarding_ok in H as (Hst & Hrole & Hus & Hse & Hcr & Hmf); [|apply (keeps_backed s); [by apply passkeys_same|done]].
  repeat split; try done.
  - intros J allow dpop w rq at_ g g' c Hg Hreq Heq. apply admitted_account in Hreq as (b & Hb & Hid & Hact); [|exact _].
    rewrite Hg in Hb. specialize (Hst b Hb). rewrite Hid in Hst. rewrite Hst in Hact by done. done.
  - by rewrite Hse.
  - intros path verified Hok. rewrite Hus in Hok. destruct Hdis as (y & Hx & Hd). rewrite Hx in Hok. unfold session_create_before in Hok.
    destruct path as [path|]; [|done]. simpl in Hok. rewrite (bool_decide_true (is_Some (User.disabledAt y))) in Hok by done.
    destruct (isOAuthSignInCompletionPath path && _); done.
Qed.

End Offboard.

End StaffOffboard.

(** Two administrators and a partner: concrete runs of the staff services on which the claims apply, and the two
    places where the roster surprises. *)

Module StaffDemo.
Import AuthDb Dpop Gateway GatewayProps Staff StaffServices StaffProps StaffLedger StaffOffboard.

#[local] Existing Instances AuthDemo.tables_adapter AuthDemo.tables_laws GatewayDemo.tables_api GatewayDemo.tables_api_laws.

Notation ulid := OfferingDemo.demo_ulid.

(** ** Roles that cannot be given back *)

Section Readmission.
Context (ulid' : nat → string) (fault : string → option error) (findUserByEmail : string → list User.t → option User.t)
  (hashToken : string → string).

(** A staff identity that holds no active role cannot get one: it is refused as the target of a grant, and its
    email as that of an invitation or of the bootstrap, because the identity exists; so the revocation of an account's
    last role cannot be taken back through the API. *)
Theorem last_revocation_is_final account email u s :
  hasAnyActiveStaffRole account (s_auth s) = false → findUserByEmail (normalized_email email) (users (s_auth s)) = Some u →
  (∀ role p f actor trace t, ∃ e, GrantStaffRole_execute ulid' account role p f actor trace t s = (Err e, s)) ∧
  (∀ actor trace name role p f token t1 t2,
     IssueStaffInvitation_execute ulid' fault findUserByEmail hashToken actor trace email name role p f token t1 t2 s = (Err emailUnavailableError, s)) ∧
  (∀ name trace token t1 t2 k e x n m d s',
     BootstrapFirstAdmin_issue ulid' fault findUserByEmail hashToken email name trace token t1 t2 s ≠ (Ok (issued k e x n m d), s')).
Proof.
  intros Hrole Hu. assert (∀ A (m : io staff A), (await _ := assertEmailAvailable findUserByEmail (normalized_email email) in m) s = (Err emailUnavailableError, s)) as Hmail.
  { intros A m. unfold assertEmailAvailable, iobind, look, query. by rewrite Hu. }
  split; [|split].
  - intros role p f actor trace t. unfold GrantStaffRole_execute, rejectSelfAction. destruct (negb _); [|by eexists].
    exists unavailableTargetError. unfold iobind, ret, query, grant_checks, findTarget, find_acct.
    destruct (find_row _ _) as [a|] eqn:E; simpl; [|done]. apply find_row_Some in E as [_ Hb]. unfold by_id in Hb. boolify. subst account.
    unfold hasAnyActiveStaffRole in Hrole. rewrite Hrole, orb_true_r. done.
  - intros. unfold IssueStaffInvitation_execute. apply Hmail.
  - intros. unfold BootstrapFirstAdmin_issue. unfold iobind at 1, look, query. destruct (Nat.ltb _ _); [done|]. rewrite Hmail. done.
Qed.

End Readmission.

(** ** The roster *)

Definition user (id_ email_ : string) : User.t := User.mk id_ email_ None "staff_partner" None None.
Definition admin_role (id_ account : string) : StaffRole.t := StaffRole.mk id_ account "admin_operations" None None 0 None.
Definition partner_role : StaffRole.t := StaffRole.mk "role_p" "acct_p" "legal_partner" (Some "practice") None 0 None.

Definition tables : auth :=
  set_staffRoles [admin_role "role_a" "acct_a"; admin_role "role_b" "acct_b"; partner_role]
  (set_users [user "user_a" "a@example.com"; user "user_b" "b@example.com"; user "user_p" "p@example.com"]
  (set_accts [Acct.mk "acct_a" "user_a" None acc_active 0 0; Acct.mk "acct_b" "user_b" None acc_active 0 0;
              Acct.mk "acct_p" "user_p" None acc_active 0 0]
  (set_sessions [BaSession.mk "sid_p" "tok_p" "user_p" None "staff_passkey" 0 0 9000000] DpopProps.empty_db))).

Definition s0 : staff := mkStaff tables []
  [Credential.mk "cred_p" "acct_p" "key" 0 "singleDevice" false [] None 0 None] [] [SessionMfa.mk "sid_p" "acct_p" "cred_p" 0].

Definition by_email (e : string) (l : list User.t) : option User.t := find_row (by_id User.email e) l.

(** The partner's only role is revoked *)
Definition revoked : staff := (RevokeStaffRole_execute ulid "acct_p" "role_p" "acct_a" "t" 10 s0).2.

Lemma last_revocation_is_final_witness :
  (RevokeStaffRole_execute ulid "acct_p" "role_p" "acct_a" "t" 10 s0).1 = Ok tt ∧
  ∃ e, GrantStaffRole_execute ulid "acct_p" "legal_partner" (Some "practice") None "acct_a" "t" 20 revoked = (Err e, revoked).
Proof.
  split; [vm_compute; reflexivity|].
  apply (proj1 (last_revocation_is_final ulid no_faults by_email (λ t, t) "acct_p" " P@example.com" (user "user_p" "p@example.com") revoked
    ltac:(vm_compute; reflexivity) ltac:(vm_compute; reflexivity))).
Defined.

(** Two administrators who grant the same role at the same time both pass the check that it is not held yet, and
    both assignments are stored; revoking one of them leaves the account with the role. *)
Theorem concurrent_grants_leave_two_assignments :
  let grant actor t := grantRole ulid "acct_p" "appraisal_partner" None (Some "firm") actor "t" t in
  grant_checks "acct_p" "appraisal_partner" s0 = Ok tt ∧
  ∃ r1 s1 r2 s2 r3 s3,
    grant "acct_a" 10 s0 = Ok (r1, s1) ∧ grant "acct_b" 11 s1 = Ok (r2, s2) ∧
    revokeRole ulid "acct_p" (StaffRole.id r1) "acct_a" "t" 20 s2 = Ok (Some r3, s3) ∧
    hasActiveRole "acct_p" "appraisal_partner" s3 = true.
Proof. intros grant. split; [vm_compute; reflexivity|]. do 6 eexists. repeat split; vm_compute; reflexivity. Qed.

(** ** Witnesses *)

Lemma an_administrator_remains_witness :
  let s1 := (OffboardStaffAccount_execute ulid no_faults "acct_b" "acct_a" "t" "security_action" 10 s0).2 in
  ∃ k, is_admin k s1.
Proof.
  intros s1. apply (an_administrator_remains ulid no_faults s0 s1).
  - exists "acct_a". eexists. split; [left; reflexivity|]. split; vm_compute; reflexivity.
  - apply rtc_once. exists "acct_a", (OffboardStaffAccount_execute ulid no_faults "acct_b" "acct_a" "t" "security_action" 10).
    split; [|split; [apply req_offboard | reflexivity]].
    eexists. split; [left; reflexivity|]. split; vm_compute; reflexivity.
Defined.

Definition empty_staff : staff := mkStaff DpopProps.empty_db [] [] [] [].

Lemma backed_s0 : backed s0.
Proof.
  split; [repeat constructor; intros [] |]. intros m [<-|[]]. eexists. split; [left; reflexivity|]. done.
Qed.

Lemma offboarding_completes_witness :
  ∃ s', OffboardStaffAccount_execute ulid no_faults "acct_p" "acct_a" "t" "partner_firm_notice" 10 s0 = (Ok tt, s').
Proof.
  apply (offboarding_completes ulid s0 s0); [apply backed_s0 | apply rtc_refl | discriminate |].
  do 2 eexists. split; [vm_compute; reflexivity|]. split; vm_compute; reflexivity.
Defined.

Definition offboarded : staff := (OffboardStaffAccount_execute ulid no_faults "acct_p" "acct_a" "t" "partner_firm_notice" 10 s0).2.

Lemma offboarded_staff_are_locked_out_witness : hasAnyActiveStaffRole "acct_p" tables = true ∧
  hasAnyActiveStaffRole "acct_p" (s_auth offboarded) = false.
Proof.
  split; [vm_compute; reflexivity|].
  destruct (offboarded_staff_are_locked_out ulid no_faults s0 offboarded "acct_p" "acct_a" "t" "partner_firm_notice" 10)
    as (tg & _ & _ & _ & _ & H & _); [apply backed_s0 | vm_compute; reflexivity | exact H].
Defined.

(** ** An invitation, from its issue to its acceptance *)

(** The invitee's user and account, as Better Auth's creation and its hook make them *)
Definition invited : staff → staff := λ s, set_s_auth
  (set_users (users (s_auth s) ++ [user "user_n" "n@example.com"])
  (set_accts (accts (s_auth s) ++ [Acct.mk "acct_n" "user_n" None acc_active 0 0]) (s_auth s))) s.

Definition invitation : NewInvitation := mkNewInvitation "n@example.com" "N" "admin_operations" None None "hash" 0 259200000.

Definition run {A} (t : txn staff A) (s : staff) : staff := match t s with Ok (_, s') => s' | Err _ => s end.

Definition issued_state : staff := run (createInvitation ulid invitation "acct_a" "t") empty_staff.
Definition claimed_state : staff := run (claimInvitation "hash" "claim" 1000 0) issued_state.
Definition accepted_state : staff :=
  run (completeAcceptance ulid (String.append "invite_" (ulid 0)) "claim" "user_n" "t" 2000) (invited claimed_state).

Lemma empty_ledger : ledger ulid empty_staff.
Proof. split; try done. constructor. Qed.

Lemma invitations_accepted_once_witness :
  map accepted_times (invitations accepted_state) = [1%nat] ∧ length (roles accepted_state) = count gives_role (audits accepted_state).
Proof.
  split; [vm_compute; reflexivity|].
  apply (invitations_accepted_once ulid OfferingDemo.demo_ulid_injective empty_staff accepted_state empty_ledger).
  apply (rtc_l _ _ issued_state); [eapply (step_create ulid invitation "acct_a" "t"); vm_compute; reflexivity|].
  apply (rtc_l _ _ claimed_state); [eapply (step_claim ulid "hash" "claim" 1000 0); vm_compute; reflexivity|].
  apply (rtc_l _ _ (invited claimed_state)).
  - apply step_other. split; [exists []; split; [vm_compute; reflexivity | intros ? []]|]. repeat split. apply Nat.le_refl.
  - apply rtc_once. eapply (step_accept ulid (String.append "invite_" (ulid 0)) "claim" "user_n" "t" 2000). vm_compute. reflexivity.
Defined.

End StaffDemo.
