(* ===== verification/AuthHooks.v ===== *)
(** What runs inside Better Auth: the provisioning of accounts
    (src/src/modules/account/application/account-provisioner.ts, repository/prisma-account.repository.ts), the
    session hook and the levels of better-auth.factory.ts, the audit plugin with its sink
    (better-auth-audit.plugin.ts, prisma-auth-audit-sink.ts), the session mirror (prisma-session-mirror.ts,
    domain/device-label.ts), the customer's own sessions (customer-session.service.ts,
    better-auth-session-revoker.ts), the fresh-authentication plugin and the unlinking of login methods with its
    registration guard.

    The audit rows with an event key are a table of their own, as pairs of key and row.  A request as a hook sees it
    is an [AuditContext]: its path, the headers and the body fields the hooks read, and the reasons a device
    ceremony recorded for the sessions it deletes.  The HMAC of an identifier is a parameter; [fault call] is the
    error the sink or the mirror throws, if it does. *)

From Stdlib Require Import String.
From S2P Require Import Prelude JsString DateTime Paging IntakePolicy Db OfferingInv OfferingDemo AuthDb AuthDevice AuthSessions AuthDemo Gateway.

Module AuthHooks.
Import JsString AuthDb AuthDevice AuthSessions Gateway.

(** ** State *)

(** auth_account: a linked Google or Apple identity *)
Module OAuthAccount.
Record t := mk { id : string; userId : string; providerId : string; createdAt : Z }.
End OAuthAccount.

Record hooked := mkHooked { hk_auth : auth; hk_accounts : list OAuthAccount.t; hk_events : list (string * AuditLog.t) }.
Definition set_auth v h := mkHooked v (hk_accounts h) (hk_events h).
Definition set_accounts v h := mkHooked (hk_auth h) v (hk_events h).
Definition set_events v h := mkHooked (hk_auth h) (hk_accounts h) v.

Definition on_auth {A} (m : io auth A) : io hooked A := λ h, let '(r, s) := m (hk_auth h) in (r, set_auth s h).

(** ** Accounts *)

Definition same_text (a b : string) : bool := bool_decide (toLowerCase a = toLowerCase b).

Definition created_first (a b : Acct.t) : bool := Acct.createdAt a <? Acct.createdAt b.

Definition findByEmail (email : string) (s : auth) : list (string * option string * AccountStatus) :=
  map (λ a, (Acct.id a, Acct.protectedContactEmail a, Acct.status a))
    (order_by created_first
       (List.filter (λ a, match Acct.protectedContactEmail a with Some e => same_text e email | None => false end) (accts s))).

Definition SearchAccountsByEmail_execute (email : string) (s : auth) : list (string * option string * AccountStatus) := findByEmail email s.

Definition set_contact (email : string) (a : Acct.t) : Acct.t :=
  Acct.mk (Acct.id a) (Acct.betterAuthUserId a) (Some email) (Acct.status a) (Acct.createdAt a) (Acct.updatedAt a).

Definition syncVerifiedContactEmail (userId email : string) : io auth unit := transaction (tprim (λ s,
  if exists_row (by_id Acct.betterAuthUserId userId) (accts s)
  then Ok (set_accts (update_where (by_id Acct.betterAuthUserId userId) (set_contact email) (accts s)) s)
  else Err (Thrown "P2025"))).

Record AuthUserSnapshot := mkSnapshot { us_id : string; us_email : string; us_emailVerified : bool; us_population : string }.

Definition toAuthUserSnapshot (u : User.t) (emailVerified : bool) : AuthUserSnapshot :=
  mkSnapshot (User.id u) (User.email u) emailVerified
    (if bool_decide (User.population u = "staff_partner") then "staff_partner" else "customer").

Definition onUserUpdated (u : AuthUserSnapshot) : io auth unit :=
  if negb (us_emailVerified u) then ret tt else syncVerifiedContactEmail (us_id u) (us_email u).

(** ** What the audit plugin reads of a request *)

Record AuditContext := mkAuditContext {
  ax_path : option string; ax_userAgent : option string; ax_traceId : option string; ax_eventId : option string;
  ax_provider : option string; ax_email : option string; ax_paramId : option string;
  (** per session token, why a device ceremony deletes that session *)
  ax_reasons : list (string * string) }.

Definition path_of (c : option AuditContext) : option string := c ≫= ax_path.

(** [header?.trim() || null] *)
Definition trimmed (header : option string) : option string :=
  header ≫= λ v, if bool_decide (trim v = EmptyString) then None else Some (trim v).

Definition readTraceId (c : option AuditContext) : option string := trimmed (c ≫= ax_traceId).
Definition readEventId (c : option AuditContext) : option string := trimmed (c ≫= ax_eventId).

Definition is_path (p : string) (path : option string) : bool := bool_decide (path = Some p).
Definition starts_with (p : string) (path : option string) : bool := match path with Some q => String.prefix p q | None => false end.

Definition isDeviceAuthPath (path : option string) : bool :=
  is_path "/device/enrol/verify" path || is_path "/device/login/verify" path.

Definition isPasskeyVerificationPath (path : option string) : bool :=
  is_path "/passkey/verify-authentication" path || is_path "/passkey/verify-registration" path.

Definition isLoginPath (path : option string) : bool :=
  isPasskeyVerificationPath path || is_path "/sign-in/social" path || starts_with "/callback/" path || isDeviceAuthPath path.

(** the plugin's own copy: any provider's callback *)
Definition isOAuthSignInCompletionPath (path : option string) : bool :=
  is_path "/sign-in/social" path || starts_with "/callback/" path.

Definition deviceCeremonyPurpose (path : option string) : list (string * json) :=
  if is_path "/device/enrol/verify" path then [("purpose", JStr "enrol-device")]
  else if is_path "/device/login/verify" path then [("purpose", JStr "login")] else [].

Definition sessionChannel (x : BaSession.t) : string :=
  if is_device_session x || bool_decide (is_Some (BaSession.dpopJkt x)) then "mobile" else "web".

Definition resolveLoginMethod (c : option AuditContext) (level : option string) : option string :=
  let path := path_of c in
  if isDeviceAuthPath path then Some "device_biometric"
  else if isPasskeyVerificationPath path then (if bool_decide (level = Some "staff_passkey") then Some "staff_passkey" else None)
  else if is_path "/sign-in/social" path then c ≫= ax_provider
  else if starts_with "/callback/" path
  then match c ≫= ax_paramId with Some k => Some k | None => slice_from 10 <$> path end
  else None.

Definition resolveLinkedMethod (c : option AuditContext) : option string :=
  if isPasskeyVerificationPath (path_of c) then Some "passkey" else resolveLoginMethod c None.

Definition isSupportedLoginMethod (value : string) : option LoginMethod :=
  if bool_decide (value = "passkey") then Some passkey
  else if bool_decide (value = "google") then Some google
  else if bool_decide (value = "apple") then Some apple else None.

Definition sessionRevocationReason (path : option string) : string :=
  if is_path "/sign-out" path then "sign_out"
  else if is_path "/revoke-session" path then "self_revoke_one"
  else if is_path "/revoke-sessions" path then "self_revoke_all"
  else if is_path "/revoke-other-sessions" path then "self_revoke_others"
  else if is_path "/get-session" path then "expired"
  else if is_path "/device/enrol/verify" path then "rotated"
  else "internal".

Definition ceremonySessionRevocationReason (c : option AuditContext) (token : string) : option string :=
  c ≫= λ c, snd <$> find_row (λ r, bool_decide (r.1 = token)) (ax_reasons c).

Definition revocationReason (x : BaSession.t) (c : option AuditContext) : string :=
  default (sessionRevocationReason (path_of c)) (ceremonySessionRevocationReason c (BaSession.token x)).

(** ** The label of a device (domain/device-label.ts)

    The patterns ignore case; a dot matches anything but a line break. *)

Fixpoint first_line (s : string) : string :=
  match s with
  | EmptyString => EmptyString
  | String c s => if (char_code c =? 10) || (char_code c =? 13) then EmptyString else String c (first_line s)
  end.

(** [/version\/.*safari\//i] on lower-cased text *)
Fixpoint safari_version (s : string) : bool :=
  (String.prefix "version/" s && includes "safari/" (first_line (slice_from 8 s))) ||
  match s with EmptyString => false | String _ s => safari_version s end.

Definition detectOperatingSystem (userAgent : string) : option string :=
  let ua := toLowerCase userAgent in
  if includes "iphone" ua || includes "ipad" ua then Some "iOS"
  else if includes "android" ua then Some "Android"
  else if includes "mac os x" ua then Some "macOS"
  else if includes "windows" ua then Some "Windows"
  else if includes "linux" ua then Some "Linux" else None.

Definition detectBrowser (userAgent : string) : option string :=
  let ua := toLowerCase userAgent in
  if includes "edg/" ua then Some "Edge"
  else if includes "chrome/" ua && negb (includes "chromium" ua) then Some "Chrome"
  else if includes "crios/" ua then Some "Chrome"
  else if includes "firefox/" ua then Some "Firefox"
  else if safari_version ua then Some "Safari" else None.

Definition deriveDeviceLabel (userAgent : option string) : option string :=
  userAgent ≫= λ ua,
  if bool_decide (trim ua = EmptyString) then None
  else match detectOperatingSystem ua, detectBrowser ua with
       | None, None => None
       | None, Some b => Some b
       | Some o, None => Some o
       | Some o, Some b => Some (b +:+ " on " +:+ o)
       end.

Section Hooks.
Context (ulid : nat → string).

(** [account.upsert] with an empty update *)
Definition provision (userId : string) (email : option string) (now : Z) : io auth (string * AccountStatus) := transaction (
  do! existing := tread (findByBetterAuthUserId userId) in
  match existing with
  | Some a => tret (Acct.id a, Acct.status a)
  | None =>
      do! k := fresh_id ulid "acct_" in
      do! _ := tprim (λ s,
        if exists_row (by_id Acct.id k) (accts s) then violation "accounts_pkey"
        else Ok (set_accts (accts s ++ [Acct.mk k userId email acc_active now now]) s)) in
      tret (k, acc_active)
  end).

Definition onUserCreated (u : AuthUserSnapshot) (now : Z) : io auth unit :=
  await _ := provision (us_id u) (if us_emailVerified u then Some (us_email u) else None) now in ret tt.

Definition method_of (accountId : string) (method : LoginMethod) (m : Login.t) : bool :=
  bool_decide (Login.accountId m = accountId) && bool_decide (Login.methodType m = method).

(** [findUniqueOrThrow] and [loginMethod.upsert] with an empty update: two statements *)
Definition recordLoginMethod (userId : string) (method : LoginMethod) (providerSubject : string) (linkedAt : Z) : io auth unit :=
  await account := query (λ s, match findByBetterAuthUserId userId s with Some a => Ok (Acct.id a) | None => Err (Thrown "P2025") end) in
  transaction (
    do! known := tread (λ s, exists_row (method_of account method) (logins s)) in
    if known then tret tt
    else
    do! k := fresh_id ulid "login_" in
    tprim (login_create (Login.mk k account method providerSubject linkedAt true))).

Definition onLoginMethodUsed (userId : string) (method : LoginMethod) (occurredAt : Z) : io auth unit :=
  recordLoginMethod userId method userId occurredAt.

(** ** The audit sink *)

Record AuthAuditEvent := mkAuditEvent {
  ev_eventKey : string; ev_action : string; ev_betterAuthUserId : option string; ev_accountId : option string;
  ev_attributeToSubject : bool; ev_resourceType : string; ev_resourceId : string; ev_changes : list (string * json);
  ev_occurredAt : Z }.

Definition resolveResource (e : AuthAuditEvent) (accountId : option string) : string * string :=
  match bool_decide (ev_resourceType e = "account"), accountId with
  | true, Some k => ("account", k)
  | true, None => ("better_auth_user", ev_resourceId e)
  | false, _ => (ev_resourceType e, ev_resourceId e)
  end.

Definition has_key (k : string) (h : hooked) : bool := exists_row (λ r, bool_decide (r.1 = k)) (hk_events h).

(** [auditLog.createMany] with skipDuplicates *)
Definition sink_record (e : AuthAuditEvent) : io hooked unit := λ h,
  let account := match ev_accountId e with
                 | Some k => Some k
                 | None => ev_betterAuthUserId e ≫= λ u, Acct.id <$> findByBetterAuthUserId u (hk_auth h)
                 end in
  let resource := resolveResource e account in
  let '(k, b) := fresh ulid "audit_" (abase (hk_auth h)) in
  let h1 := set_auth (set_abase b (hk_auth h)) h in
  let row := AuditLog.mk k (if ev_attributeToSubject e then account else None) (ev_action e) resource.1 resource.2
               (ev_changes e) (ev_occurredAt e) in
  (Ok tt, if has_key (ev_eventKey e) h then h1 else set_events (hk_events h ++ [(ev_eventKey e, row)]) h1).

(** ** The session mirror *)

Context (hashUserAgent hashIdentifier : string → string) (fault : string → option error).

(** [options.onError] only logs *)
Definition caught (call : string) (m : io hooked unit) : io hooked unit :=
  iocatch (match fault call with Some e => throw e | None => m end) (λ _, ret tt).

Definition record (e : AuthAuditEvent) : io hooked unit := caught "sink" (sink_record e).

Definition recordCreated (x : BaSession.t) (channel : string) (method userAgent : option string) (idleExpiresAt absoluteExpiresAt : Z)
    : io auth unit :=
  await account := query (λ s, Ok (findByBetterAuthUserId (BaSession.userId x) s)) in
  match account with
  | None => ret tt
  | Some a => transaction (
      do! k := fresh_id ulid "sess_" in
      tprim (λ s,
        if exists_row (by_id MirrorSession.id k) (mirror s) then violation "sessions_pkey"
        else Ok (set_mirror (mirror s ++ [MirrorSession.mk k (Acct.id a) channel "active" (BaSession.userId x) (Some (BaSession.id x))
               (default "unknown" method) (BaSession.createdAt x) (BaSession.createdAt x) idleExpiresAt absoluteExpiresAt
               (if bool_decide (method = Some "staff_passkey") then Some (BaSession.createdAt x) else None)
               (deriveDeviceLabel userAgent) (hashUserAgent <$> userAgent) None None]) s)))
  end.

Definition mirrors (sessionId : string) (m : MirrorSession.t) : bool :=
  bool_decide (MirrorSession.betterAuthSessionId m = Some sessionId) && bool_decide (MirrorSession.revokedAt m = None).

Definition recordRevoked (sessionId reason : string) (revokedAt : Z) : io auth unit :=
  write (λ s, set_mirror (update_where (mirrors sessionId) (MirrorSession.set_revoked revokedAt reason) (mirror s)) s).

Definition SESSION_IDLE_MINUTES : Z := 30.
Definition SESSION_ABSOLUTE_HOURS : Z := 12.

Definition idle_expiry (x : BaSession.t) : Z :=
  BaSession.createdAt x + (if is_device_session x then DEVICE_SESSION_IDLE_TIMEOUT_MS else SESSION_IDLE_MINUTES * 60000).
Definition absolute_expiry (x : BaSession.t) : Z :=
  if is_device_session x then deviceSessionAbsoluteExpiresAt (BaSession.createdAt x)
  else BaSession.createdAt x + SESSION_ABSOLUTE_HOURS * 60 * 60000.

Definition mirrorCreated (x : BaSession.t) (c : option AuditContext) (method : option string) : io hooked unit :=
  caught "mirror" (on_auth (recordCreated x (sessionChannel x) method (c ≫= ax_userAgent) (idle_expiry x) (absolute_expiry x))).

Definition mirrorRevoked (x : BaSession.t) (c : option AuditContext) (now : Z) : io hooked unit :=
  caught "mirror" (on_auth (recordRevoked (BaSession.id x) (revocationReason x c) now)).

(** ** The hooks of the audit plugin *)

Definition text_or_null (t : option string) : json := match t with Some t => JStr t | None => JNull end.

Definition created_key (sessionId : string) : string := "better_auth:session_created:" +:+ sessionId.
Definition revoked_key (sessionId : string) : string := "better_auth:session_revoked:" +:+ sessionId.

Definition user_create_after (u : User.t) (c : option AuditContext) (createdAt : Z) : io hooked unit :=
  record (mkAuditEvent ("better_auth:identity_created:" +:+ User.id u) "authentication.identity_created" (Some (User.id u)) None true
    "account" (User.id u)
    [("trace_id", text_or_null (readTraceId c)); ("authentication_method", text_or_null (resolveLoginMethod c None));
     ("population", JStr (if bool_decide (User.population u = "staff_partner") then "staff_partner" else "customer"))] createdAt).

(** What a login other than a device ceremony records: the method, and that it succeeded. *)
Definition login_recorded (x : BaSession.t) (c : option AuditContext) : io hooked unit :=
  await _ := match resolveLinkedMethod c ≫= isSupportedLoginMethod with
             | Some m => iocatch (on_auth (onLoginMethodUsed (BaSession.userId x) m (BaSession.createdAt x))) (λ _, ret tt)
             | None => ret tt
             end in
  let oauthPending := isOAuthSignInCompletionPath (path_of c) in
  record (mkAuditEvent
    ((if oauthPending then "better_auth:oauth_verified:" else "better_auth:login_succeeded:") +:+ BaSession.id x)
    (if oauthPending then "authentication.oauth_verified" else "authentication.login_succeeded")
    (Some (BaSession.userId x)) None true "account" (BaSession.userId x)
    [("trace_id", text_or_null (readTraceId c));
     ("authentication_method", text_or_null (resolveLoginMethod c (Some (BaSession.authenticationLevel x))));
     ("provider_session_id", JStr (BaSession.id x))] (BaSession.createdAt x)).

Definition session_create_after (x : BaSession.t) (c : option AuditContext) : io hooked unit :=
  let method := resolveLoginMethod c (Some (BaSession.authenticationLevel x)) in
  await _ := record (mkAuditEvent (created_key (BaSession.id x)) "authentication.session_created" (Some (BaSession.userId x)) None true
    "session" (BaSession.id x)
    [("trace_id", text_or_null (readTraceId c)); ("authentication_method", text_or_null method);
     ("source", JStr (default "internal" (path_of c)))] (BaSession.createdAt x)) in
  await _ := (if isLoginPath (path_of c) && negb (isDeviceAuthPath (path_of c)) then login_recorded x c else ret tt) in
  mirrorCreated x c method.

(** [t_mirror] and [t_event] are the two readings of the clock *)
Definition session_delete_after (x : BaSession.t) (c : option AuditContext) (t_mirror t_event : Z) : io hooked unit :=
  await _ := mirrorRevoked x c t_mirror in
  record (mkAuditEvent (revoked_key (BaSession.id x)) "authentication.session_revoked" (Some (BaSession.userId x)) None true
    "session" (BaSession.id x)
    [("trace_id", text_or_null (readTraceId c)); ("reason", JStr (revocationReason x c))] t_event).

(** The after hook of a login endpoint that answered: only the device ceremonies record their success here.
    [newSession] is the session the endpoint set, [deviceId] the device_id of its answer. *)
Definition recordDeviceCeremonySucceeded (c : option AuditContext) (newSession : option (string * string)) (deviceId : option string)
    (now : Z) : io hooked unit :=
  match newSession with
  | None => ret tt
  | Some (sessionId, userId) =>
      record (mkAuditEvent ("better_auth:login_succeeded:" +:+ sessionId) "authentication.login_succeeded" (Some userId) None true
        "account" userId
        ([("trace_id", text_or_null (readTraceId c)); ("authentication_method", JStr "device_biometric");
          ("provider_session_id", JStr sessionId); ("device_id", text_or_null deviceId)] ++ deviceCeremonyPurpose (path_of c)) now)
  end.

Record FailedIdentity := mkFailed { fi_betterAuthUserId : option string; fi_resourceId : string; fi_deviceId : option string }.

(** [sessionUser]: the user of the pending session an enrolment ran under; [verifiedJkt]: the key a device login
    proved; [findDevice]: the lookup of that key, which may throw; [findUser]: the user of an e-mail address. *)
Definition resolveFailedIdentity (c : option AuditContext) (sessionUser verifiedJkt : option string)
    (findDevice : string → result (option (string * string))) (findUser : string → result (option string)) : result FailedIdentity :=
  let path := path_of c in
  if is_path "/device/enrol/verify" path
  then Ok match sessionUser with Some u => mkFailed (Some u) u None | None => mkFailed None "login_unknown" None end
  else if is_path "/device/login/verify" path
  then Ok match verifiedJkt with
          | None => mkFailed None "login_unknown" None
          | Some jkt =>
              match findDevice jkt with
              | Ok (Some (u, d)) => mkFailed (Some u) u (Some d)
              | _ => mkFailed None ("login_dpop_" +:+ hashIdentifier jkt) None
              end
          end
  else match c ≫= ax_email with
       | Some e =>
           let email := toLowerCase (trim e) in
           let! found := findUser email in
           Ok match found with
              | Some u => mkFailed (Some u) u None
              | None => mkFailed None ("login_" +:+ hashIdentifier email) None
              end
       | None => Ok (mkFailed None "login_unknown" None)
       end.

(** [uuid] stands for randomUUID() *)
Definition login_failed (c : option AuditContext) (identity : result FailedIdentity) (failureCode : option string) (uuid : string)
    (now : Z) : io hooked unit :=
  match identity with Err _ => ret tt | Ok i =>
  record (mkAuditEvent ("better_auth:login_failed:" +:+ default uuid (readEventId c)) "authentication.login_failed"
    (fi_betterAuthUserId i) None false
    (match fi_betterAuthUserId i with None => "login_attempt" | Some _ => "account" end) (fi_resourceId i)
    ([("trace_id", text_or_null (readTraceId c)); ("authentication_method", text_or_null (resolveLoginMethod c None));
      ("failure_code", text_or_null failureCode)] ++ deviceCeremonyPurpose (path_of c) ++
     match fi_deviceId i with Some d => [("device_id", JStr d)] | None => [] end) now) end.

(** ** Users and sessions (better-auth.factory.ts)

    Better Auth's adapter writes the row, then the after hooks run; [plugins_first] says whether the plugin's hook
    runs before the factory's. *)

(** exactly the two configured providers *)
Definition completes_oauth (path : option string) : bool :=
  is_path "/callback/google" path || is_path "/callback/apple" path || is_path "/sign-in/social" path.

Definition OAUTH_EMAIL_NOT_VERIFIED : error := AppError "OAUTH_EMAIL_NOT_VERIFIED" 403 [].

Definition create_user (plugins_first : bool) (u : User.t) (emailVerified : bool) (c : option AuditContext) (now : Z) : io hooked unit :=
  if completes_oauth (path_of c) && negb emailVerified then throw OAUTH_EMAIL_NOT_VERIFIED
  else
  await _ := on_auth (write (λ s, set_users (users s ++ [u]) s)) in
  let provisioned := on_auth (onUserCreated (toAuthUserSnapshot u emailVerified) now) in
  if plugins_first
  then await _ := user_create_after u c now in provisioned
  else await _ := provisioned in user_create_after u c now.

Definition isStaffAuthUser (u : option User.t) : bool :=
  match u with Some u => bool_decide (User.population u = "staff_partner") | None => false end.

Definition resolveAuthenticationLevel (path : option string) (user : option User.t) : string :=
  if isStaffAuthUser user && isPasskeyVerificationPath path then "staff_passkey"
  else if completes_oauth path then "oauth_pending"
  else if isDeviceAuthPath path then "device_biometric"
  else "unassured".

(** [session.create.before]: the row that is inserted, from the row proposed and the key the request bound *)
Definition session_create_before (path : option string) (user : option User.t) (dpopJkt : option string) (x : BaSession.t) : BaSession.t :=
  let level := resolveAuthenticationLevel path user in
  let device := bool_decide (level = "device_biometric") in
  BaSession.mk (BaSession.id x) (BaSession.token x) (BaSession.userId x)
    (match dpopJkt with Some k => Some k | None => BaSession.dpopJkt x end) level (BaSession.createdAt x)
    (if device then BaSession.createdAt x else BaSession.updatedAt x)
    (if device then deviceSessionAbsoluteExpiresAt (BaSession.createdAt x) else BaSession.expiresAt x).

Context `{A : InternalAdapter}.

Definition open_session (x : BaSession.t) (dpopJkt : option string) (c : option AuditContext) : io hooked BaSession.t := λ h,
  let row := session_create_before (path_of c) (findUserById (BaSession.userId x) (users (hk_auth h))) dpopJkt x in
  (await _ := on_auth (write (λ s, set_sessions (sessions s ++ [row]) s)) in
   await _ := session_create_after row c in
   ret row) h.

Definition has_token (token : string) (x : BaSession.t) : bool := bool_decide (BaSession.token x = token).

(** The adapter deletes the rows of a token and runs the hook for each. *)
Definition end_session (token : string) (c : option AuditContext) (t_mirror t_event : Z) : io hooked unit := λ h,
  let gone := List.filter (has_token token) (sessions (hk_auth h)) in
  iofold (λ _ x, session_delete_after x c t_mirror t_event) tt gone
    (set_auth (set_sessions (deleteSession token (sessions (hk_auth h))) (hk_auth h)) h).

(** ** The customer's own sessions *)

(** Better Auth's endpoints for the caller the headers authenticate: parameters, with their documented behaviour. *)
Record SessionEndpoints := mkEndpoints {
  api_listSessions : string → Z → list BaSession.t → list BaSession.t;
  api_revokeSession : string → string → io hooked unit;
  api_revokeSessions : string → io hooked unit }.

Definition seen_later (a b : MirrorSession.t) : bool := MirrorSession.lastSeenAt b <? MirrorSession.lastSeenAt a.

Definition listForAccount (accountId : string) (s : auth) : list MirrorSession.t :=
  order_by seen_later (List.filter (λ m, bool_decide (MirrorSession.accountId m = accountId)) (mirror s)).

Definition ListOwnSessions_execute (accountId currentProviderSessionId : string) (s : auth) : list (MirrorSession.t * bool) :=
  map (λ m, (m, bool_decide (MirrorSession.betterAuthSessionId m = Some currentProviderSessionId))) (listForAccount accountId s).

Definition findOwnedProviderSessionId (accountId sessionId : string) (s : auth) : option string :=
  find_row (λ m, by_id MirrorSession.id sessionId m && bool_decide (MirrorSession.accountId m = accountId)) (mirror s)
    ≫= MirrorSession.betterAuthSessionId.

Definition session_not_found : error := AppError "resource.not_found" 404 [].

Definition revoke (api : SessionEndpoints) (caller providerSessionId : string) (now : Z) : io hooked unit :=
  await own := query (λ h, Ok (api_listSessions api caller now (sessions (hk_auth h)))) in
  match find_row (by_id BaSession.id providerSessionId) own with
  | None => ret tt
  | Some x => api_revokeSession api caller (BaSession.token x)
  end.

Definition RevokeOwnSession_execute (api : SessionEndpoints) (accountId caller sessionId : string) (now : Z) : io hooked unit :=
  await found := query (λ h, Ok (findOwnedProviderSessionId accountId sessionId (hk_auth h))) in
  match found with
  | None => throw session_not_found
  | Some providerSessionId => revoke api caller providerSessionId now
  end.

Definition RevokeAllOwnSessions_execute (api : SessionEndpoints) (caller : string) : io hooked unit := api_revokeSessions api caller.

Definition revokeByDpopKey (api : SessionEndpoints) (caller jkt : string) (now : Z) : io hooked nat :=
  await own := query (λ h, Ok (api_listSessions api caller now (sessions (hk_auth h)))) in
  let matches := List.filter (λ x, isBoundToDpopKey x jkt) own in
  await _ := iofold (λ _ x, api_revokeSession api caller (BaSession.token x)) tt matches in
  ret (length matches).

Definition RevokeDeviceSessions_execute (api : SessionEndpoints) (caller jkt : string) (now : Z) : io hooked nat := revokeByDpopKey api caller jkt now.

End Hooks.
(** A transaction of the customer tables that touches neither the sessions nor their mirror. *)
Definition aside (s s' : auth) : Prop :=
  sessions s' = sessions s ∧ mirror s' = mirror s ∧ (ulids (abase s) <= ulids (abase s'))%nat ∧
  ∀ u, is_Some (findByBetterAuthUserId u s) → is_Some (findByBetterAuthUserId u s').

#[export] Instance aside_preorder : PreOrder aside.
Proof. split; [by intros s|]. intros s1 s2 s3 (?&?&?&?) (?&?&?&?). repeat split; try congruence; try lia; auto. Qed.

Section Aside.
Context (ulid : nat → string).

Lemma login_method_aside u m t : io_rel aside (onLoginMethodUsed ulid u m t).
Proof.
  unfold onLoginMethodUsed, recordLoginMethod. apply io_rel_bind; [exact _|apply io_rel_query; exact _|]. intros account.
  apply io_rel_transaction; [exact _|]. intros s x s' H. inv_tx H; [done|].
  apply new_id_ok in Htx as [-> ->]. apply tprim_ok in H. unfold login_create in H.
  repeat (destruct (exists_row _ _) in H; [done|]). injection H as <-. repeat split; simpl; auto.
Qed.

Lemma provision_aside u e t : io_rel aside (provision ulid u e t).
Proof.
  unfold provision. apply io_rel_transaction; [exact _|]. intros s x s' H. inv_tx H; [done|].
  apply new_id_ok in Htx as [-> ->]. destruct (exists_row _ _) in Htx0; [done|]. injection Htx0 as <-. repeat split; simpl; auto. intros v. unfold findByBetterAuthUserId. simpl. rewrite find_row_app.
  destruct (find_row _ (accts s)); [done|]. by intros [].
Qed.

End Aside.

(** A sink or a mirror that fails never makes a sign-in or a sign-out fail, and the sessions are as Better Auth
    left them. *)
Lemma hooks_never_block ulid hashUserAgent fault x c t1 t2 h :
  (∃ h', session_create_after ulid hashUserAgent fault x c h = (Ok tt, h') ∧ sessions (hk_auth h') = sessions (hk_auth h)) ∧
  (∃ h', session_delete_after ulid fault x c t1 t2 h = (Ok tt, h') ∧ sessions (hk_auth h') = sessions (hk_auth h)).
Proof.
  assert (∀ e h, ∃ h', record ulid fault e h = (Ok tt, h') ∧ sessions (hk_auth h') = sessions (hk_auth h)) as Hrec.
  { intros e h1. unfold record, caught, iocatch. destruct (fault "sink"); [by exists h1|]. unfold sink_record. simpl.
    eexists. split; [done|]. by destruct (has_key _ h1). }
  assert (∀ (m : io auth unit) h, (∀ s, sessions (m s).2 = sessions s) → ∃ h', iocatch (on_auth m) (λ _, ret tt) h = (Ok tt, h') ∧
    sessions (hk_auth h') = sessions (hk_auth h)) as Hcatch.
  { intros m h1 Hm. unfold iocatch, on_auth. specialize (Hm (hk_auth h1)). destruct (m (hk_auth h1)) as [[[]|] s']; by eexists. }
  assert (∀ (m : io auth unit) h, (∀ s, sessions (m s).2 = sessions s) → ∃ h', caught fault "mirror" (on_auth m) h = (Ok tt, h') ∧
    sessions (hk_auth h') = sessions (hk_auth h)) as Hmir.
  { intros m h1 Hm. unfold caught. destruct (fault "mirror"); [by exists h1|]. by apply Hcatch. }
  split.
  - unfold session_create_after, iobind. match goal with |- context [record ulid fault ?e h] => destruct (Hrec e h) as (h1 & -> & <-) end.
    assert (∃ h2, (if isLoginPath (path_of c) && negb (isDeviceAuthPath (path_of c)) then login_recorded ulid fault x c else ret tt) h1
      = (Ok tt, h2) ∧ sessions (hk_auth h2) = sessions (hk_auth h1)) as (h2 & -> & <-).
    { destruct (_ && _); [|by exists h1]. unfold login_recorded, iobind. destruct (_ ≫= _) as [lm|]; [|apply Hrec].
      destruct (Hcatch (onLoginMethodUsed ulid (BaSession.userId x) lm (BaSession.createdAt x)) h1) as (h2 & -> & <-); [|apply Hrec].
      intros s. by destruct (login_method_aside ulid (BaSession.userId x) lm (BaSession.createdAt x) s) as (? & _). }
    apply Hmir. intros s. unfold recordCreated, iobind, query. destruct (findByBetterAuthUserId _ s); [|done].
    unfold transaction, tbind, fresh_id, fresh, tprim. simpl. by destruct (exists_row _ _).
  - unfold session_delete_after, mirrorRevoked, iobind.
    destruct (Hmir (recordRevoked (BaSession.id x) (revocationReason x c) t1) h) as (h1 & -> & <-); [done|]. apply Hrec.
Qed.

(** ** What the trail says of the sessions

    The hooks with a working sink and mirror, over every run of them. *)

Section Trail.
Context (ulid : nat → string) (ulid_inj : Inj eq eq ulid) (hashUserAgent : string → string).
Context `{A : InternalAdapter} `{!InternalAdapterLaws A}.

Notation record := (record ulid no_faults).
Notation session_create_after := (session_create_after ulid hashUserAgent no_faults).
Notation session_delete_after := (session_delete_after ulid no_faults).
Notation open_session := (open_session ulid hashUserAgent no_faults).
Notation end_session := (end_session ulid no_faults).

Definition event_keys (h : hooked) : list string := map fst (hk_events h).

Definition session_key (k : string) : Prop := ∃ i, k = created_key i ∨ k = revoked_key i.

(** Only the log, the identifiers and other tables change, and the new log rows have keys of [K]. *)
Record logs (K : string → Prop) (h h' : hooked) : Prop := {
  lo_sessions : sessions (hk_auth h') = sessions (hk_auth h);
  lo_mirror : mirror (hk_auth h') = mirror (hk_auth h);
  lo_accts : ∀ u, is_Some (findByBetterAuthUserId u (hk_auth h)) → is_Some (findByBetterAuthUserId u (hk_auth h'));
  lo_ulids : (ulids (abase (hk_auth h)) <= ulids (abase (hk_auth h')))%nat;
  lo_events : ∃ l, hk_events h' = hk_events h ++ l ∧ ∀ e, In e l → K e.1;
  lo_keys : List.NoDup (event_keys h) → List.NoDup (event_keys h') }.

#[local] Instance logs_preorder K : PreOrder (logs K).
Proof.
  split.
  - intros h. split; try done. exists []. by rewrite app_nil_r.
  - intros h1 h2 h3 [s1 m1 a1 u1 (l1 & E1 & K1) n1] [s2 m2 a2 u2 (l2 & E2 & K2) n2]. split; try congruence; try lia; try (by auto).
    exists (l1 ++ l2). rewrite E2, E1, app_assoc. split; [done|]. intros e [?|?]%in_app_iff; auto.
Qed.

Lemma has_key_keys k h : has_key k h = true ↔ In k (event_keys h).
Proof.
  unfold has_key, exists_row, event_keys. rewrite existsb_exists, in_map_iff. split.
  - intros (r & Hr & E). boolify. by exists r.
  - intros (r & E & Hr). exists r. by rewrite bool_decide_eq_true_2.
Qed.

Lemma record_events e h : ∃ row, AuditLog.changes row = ev_changes e ∧
  hk_events (record e h).2 = if has_key (ev_eventKey e) h then hk_events h else hk_events h ++ [(ev_eventKey e, row)].
Proof.
  unfold AuthHooks.record, caught, iocatch, no_faults, sink_record. eexists. split; [|destruct (has_key _ h); reflexivity]. done.
Qed.

Lemma record_logs K e : K (ev_eventKey e) → io_rel (logs K) (record e).
Proof.
  intros HK h. destruct (record_events e h) as (row & _ & E). split; [| | | |exists (if has_key (ev_eventKey e) h then [] else [(ev_eventKey e, row)])|].
  1-4: unfold AuthHooks.record, caught, iocatch, no_faults, sink_record; simpl; destruct (has_key _ h); simpl; try done; lia.
  - rewrite E. destruct (has_key _ h) eqn:Ek; simpl; [by rewrite app_nil_r|]. split; [done|]. by intros x [<-|[]].
  - unfold event_keys. rewrite E. destruct (has_key _ h) eqn:Ek; [done|]. rewrite map_app. intros Hn.
    apply List.NoDup_app; [done|repeat constructor; intros []|]. simpl. intros k Hk [<-|[]]. apply has_key_keys in Hk. congruence.
Qed.

Lemma on_auth_logs {B} K (m : io auth B) : io_rel aside m → io_rel (logs K) (on_auth m).
Proof.
  intros Hm h. unfold on_auth. specialize (Hm (hk_auth h)). destruct (m (hk_auth h)) as [r s']. destruct Hm as (?&?&?&?). simpl in *.
  split; try done. exists []. by rewrite app_nil_r.
Qed.

Definition other_key (k : string) : Prop := ¬ session_key k.

Ltac other_key := intros (? & [E|E]); discriminate E.

Lemma login_recorded_logs x c : io_rel (logs other_key) (login_recorded ulid no_faults x c).
Proof.
  unfold login_recorded. apply io_rel_bind; [exact _| |intros _].
  - destruct (_ ≫= _); [|apply io_rel_ret; exact _]. apply io_rel_catch; [exact _|apply on_auth_logs, login_method_aside|intros _; apply io_rel_ret; exact _].
  - apply record_logs. simpl. destruct (isOAuthSignInCompletionPath _); other_key.
Qed.

Lemma create_user_logs pf u v c now : io_rel (logs other_key) (create_user ulid no_faults pf u v c now).
Proof.
  unfold create_user. destruct (_ && _); [apply io_rel_throw; exact _|].
  assert (io_rel (logs other_key) (on_auth (onUserCreated ulid (toAuthUserSnapshot u v) now))) as Hp.
  { apply on_auth_logs. unfold onUserCreated. apply io_rel_bind; [exact _|apply provision_aside|intros; apply io_rel_ret; exact _]. }
  assert (io_rel (logs other_key) (user_create_after ulid no_faults u c now)) as Hu by (apply record_logs; other_key).
  apply io_rel_bind; [exact _|by apply on_auth_logs; intros s|intros _].
  destruct pf; apply io_rel_bind; try exact _; try done; by intros _.
Qed.

(** *** The invariant *)

(** The row of the mirror that stands for a live session *)
Record shows (x : BaSession.t) (m : MirrorSession.t) : Prop := {
  sh_session : MirrorSession.betterAuthSessionId m = Some (BaSession.id x);
  sh_live : MirrorSession.revokedAt m = None;
  sh_user : MirrorSession.betterAuthUserId m = BaSession.userId x;
  sh_created : MirrorSession.createdAt m = BaSession.createdAt x;
  sh_until : MirrorSession.absoluteExpiresAt m = absolute_expiry x;
  sh_device : is_device_session x = true → MirrorSession.absoluteExpiresAt m = BaSession.expiresAt x }.

(** A revoked row names the reason the log has for the end of its session. *)
Definition accounted_for (h : hooked) (m : MirrorSession.t) : Prop :=
  ∃ k r row, MirrorSession.betterAuthSessionId m = Some k ∧ MirrorSession.revocationReason m = Some r ∧
    MirrorSession.status m = "revoked" ∧ In (revoked_key k, row) (hk_events h) ∧ In ("reason", JStr r) (AuditLog.changes row).

(** [gone]: sessions that are deleted and whose hooks have still to run *)
Record trail_with (gone : list BaSession.t) (h : hooked) : Prop := {
  tw_ids : ∀ m, In m (mirror (hk_auth h)) → ∃ n, (n < ulids (abase (hk_auth h)))%nat ∧ MirrorSession.id m = "sess_" +:+ ulid n;
  tw_pk : List.NoDup (map MirrorSession.id (mirror (hk_auth h)));
  tw_live : ∀ x, In x (sessions (hk_auth h)) → ∃ m, In m (mirror (hk_auth h)) ∧ shows x m;
  tw_active : ∀ m, In m (mirror (hk_auth h)) → MirrorSession.revokedAt m = None →
    ∃ x, (In x (sessions (hk_auth h)) ∨ In x gone) ∧ MirrorSession.betterAuthSessionId m = Some (BaSession.id x);
  tw_one : List.NoDup (map MirrorSession.betterAuthSessionId (mirror (hk_auth h)));
  tw_created : ∀ m, In m (mirror (hk_auth h)) →
    ∃ k, MirrorSession.betterAuthSessionId m = Some k ∧ In (created_key k) (event_keys h);
  tw_revoked : ∀ m t, In m (mirror (hk_auth h)) → MirrorSession.revokedAt m = Some t → accounted_for h m;
  tw_open : ∀ m k, In m (mirror (hk_auth h)) → MirrorSession.revokedAt m = None → MirrorSession.betterAuthSessionId m = Some k →
    ¬ In (revoked_key k) (event_keys h);
  tw_order : ∀ k, In (revoked_key k) (event_keys h) → In (created_key k) (event_keys h);
  tw_keys : List.NoDup (event_keys h);
  tw_distinct : ∀ x y, In x (sessions (hk_auth h)) → In y (sessions (hk_auth h)) → BaSession.id x = BaSession.id y → x = y;
  tw_gone : ∀ x, In x gone → In (created_key (BaSession.id x)) (event_keys h) ∧
    ∀ y, In y (sessions (hk_auth h)) → BaSession.id y ≠ BaSession.id x }.

Lemma keys_grow K h h' k : logs K h h' → In k (event_keys h) → In k (event_keys h').
Proof. intros [_ _ _ _ (l & E & _) _] Hk. unfold event_keys. rewrite E, map_app, in_app_iff. by left. Qed.

Lemma session_keys_kept h h' k : logs other_key h h' → session_key k → In k (event_keys h') → In k (event_keys h).
Proof.
  intros [_ _ _ _ (l & E & Hl) _] Hk. unfold event_keys. rewrite E, map_app, in_app_iff. intros [?|(e & Ee & He)%in_map_iff]; [done|].
  exfalso. apply (Hl e He). by rewrite Ee.
Qed.

Lemma created_session k : session_key (created_key k).
Proof. by exists k; left. Qed.
Lemma revoked_session k : session_key (revoked_key k).
Proof. by exists k; right. Qed.

Lemma trail_logs gone h h' : logs other_key h h' → trail_with gone h → trail_with gone h'.
Proof.
  intros Hl [W1 Wp W2 W3 W4 W5 W6 W7 W8 W9 W10 W11]. pose proof Hl as [Hs Hm _ Hu (l & He & _) Hk].
  split; rewrite ?Hs, ?Hm; try done; try (by auto).
  - intros m (n & ? & ?)%W1. exists n. split; [lia|done].
  - intros m (k & ? & ?)%W5. exists k. split; [done|]. by eapply keys_grow.
  - intros m t Hin Ht. destruct (W6 m t Hin Ht) as (k & r & row & ? & ? & ? & Hr & ?). exists k, r, row. repeat split; try done.
    rewrite He. apply in_app_iff. by left.
  - intros m k Hin Hn Hb Hr. apply (W7 m k Hin Hn Hb). eapply session_keys_kept; eauto using revoked_session.
  - intros k Hr. eapply keys_grow; [exact Hl|]. apply W8. eapply session_keys_kept; eauto using revoked_session.
  - intros x Hx. destruct (W11 x Hx). split; [|done]. by eapply keys_grow.
Qed.

(** *** The end of a session *)

(** What the hook of a deletion does. *)
Lemma delete_after_effect x c t1 t2 h : ∃ row, let h' := (session_delete_after x c t1 t2 h).2 in
  sessions (hk_auth h') = sessions (hk_auth h) ∧
  mirror (hk_auth h') = update_where (mirrors (BaSession.id x)) (MirrorSession.set_revoked t1 (revocationReason x c)) (mirror (hk_auth h)) ∧
  (ulids (abase (hk_auth h)) <= ulids (abase (hk_auth h')))%nat ∧ In ("reason", JStr (revocationReason x c)) (AuditLog.changes row) ∧
  hk_events h' = (if has_key (revoked_key (BaSession.id x)) h then hk_events h else hk_events h ++ [(revoked_key (BaSession.id x), row)]).
Proof.
  set (e := mkAuditEvent (revoked_key (BaSession.id x)) "authentication.session_revoked" (Some (BaSession.userId x)) None true
    "session" (BaSession.id x)
    [("trace_id", text_or_null (readTraceId c)); ("reason", JStr (revocationReason x c))] t2).
  set (h1 := set_auth (set_mirror (update_where (mirrors (BaSession.id x)) (MirrorSession.set_revoked t1 (revocationReason x c))
    (mirror (hk_auth h))) (hk_auth h)) h).
  assert (session_delete_after x c t1 t2 h = record e h1) as -> by done.
  destruct (record_events e h1) as (row & Hc & He). destruct (record_logs (λ _, True) e I h1) as [Hs Hm _ Hu _ _].
  exists row. cbv zeta. repeat split; [by rewrite Hs|by rewrite Hm|exact Hu| |by rewrite He]. rewrite Hc. simpl. auto.
Qed.

Lemma mirrors_iff k m : mirrors k m = true ↔ MirrorSession.betterAuthSessionId m = Some k ∧ MirrorSession.revokedAt m = None.
Proof. unfold mirrors. rewrite andb_true_iff, !bool_decide_eq_true. done. Qed.

Lemma delete_after_keys x c t1 t2 h k :
  In k (event_keys (session_delete_after x c t1 t2 h).2) ↔ In k (event_keys h) ∨ k = revoked_key (BaSession.id x).
Proof.
  destruct (delete_after_effect x c t1 t2 h) as (row & _ & _ & _ & _ & He). unfold event_keys. rewrite He.
  destruct (has_key _ h) eqn:Ek.
  - apply has_key_keys in Ek. unfold event_keys in Ek. split; [by left|]. by intros [?| ->].
  - rewrite map_app, in_app_iff. simpl. naive_solver.
Qed.

Lemma trail_delete x gone c t1 t2 h : trail_with (x :: gone) h → trail_with gone (session_delete_after x c t1 t2 h).2.
Proof.
  intros [W1 Wp W2 W3 W4 W5 W6 W7 W8 W9 W10 W11]. destruct (W11 x (or_introl eq_refl)) as [Hx Hd].
  pose proof (delete_after_keys x c t1 t2 h) as Hk. destruct (delete_after_effect x c t1 t2 h) as (row & Hs & Hm & Hu & Hr & He).
  set (h' := (session_delete_after x c t1 t2 h).2) in *. set (f := MirrorSession.set_revoked t1 (revocationReason x c)) in *.
  assert (∀ e, In e (hk_events h) → In e (hk_events h')) as Hgrow.
  { intros e Hin. rewrite He. destruct (has_key _ h); [done|]. apply in_app_iff. by left. }
  split; rewrite ?Hs, ?Hm.
  - intros m (m0 & H0 & ->)%in_update_where. destruct (W1 m0 H0) as (n & ? & ?). exists n. split; [lia|]. by destruct (mirrors _ m0).
  - by rewrite map_update_where.
  - intros y Hy. destruct (W2 y Hy) as (m & Hin & Hsh). exists m. split; [|done]. apply in_update_where. exists m. split; [done|].
    destruct (mirrors (BaSession.id x) m) eqn:E; [|done]. apply mirrors_iff in E as [E _]. rewrite (sh_session _ _ Hsh) in E.
    injection E as E. by destruct (Hd y Hy).
  - intros m (m0 & H0 & ->)%in_update_where. destruct (mirrors _ m0) eqn:E; [done|]. intros Hn.
    destruct (W3 m0 H0 Hn) as (y & [Hy|[<-|Hy]] & Hb); [by exists y; auto| |by exists y; auto].
    exfalso. assert (mirrors (BaSession.id x) m0 = true) by (apply mirrors_iff; done). congruence.
  - rewrite map_update_where; [done|]. done.
  - intros m (m0 & H0 & ->)%in_update_where. destruct (W5 m0 H0) as (k & Hb & Hc). exists k. split; [by destruct (mirrors _ m0)|].
    apply Hk. by left.
  - intros m t (m0 & H0 & ->)%in_update_where. destruct (mirrors _ m0) eqn:E.
    + intros _. apply mirrors_iff in E as [Eb En]. exists (BaSession.id x), (revocationReason x c), row. repeat split; try done.
      rewrite He. destruct (has_key _ h) eqn:Ek; [|apply in_app_iff; right; by left].
      apply has_key_keys in Ek. by destruct (W7 m0 _ H0 En Eb).
    + intros Ht. destruct (W6 m0 t H0 Ht) as (k & r & rw & ? & ? & ? & ? & ?). exists k, r, rw. repeat split; auto.
  - intros m k (m0 & H0 & ->)%in_update_where. destruct (mirrors _ m0) eqn:E; [done|]. intros Hn Hb [Hin|Ek]%Hk; [by eapply W7|].
    apply append_inj_l in Ek. subst k. assert (mirrors (BaSession.id x) m0 = true) by (apply mirrors_iff; done). congruence.
  - intros k [Hin|Ek]%Hk; apply Hk; left; [by apply W8|]. apply append_inj_l in Ek. by subst k.
  - unfold event_keys. rewrite He. destruct (has_key _ h) eqn:Ek; [done|]. rewrite map_app. apply List.NoDup_app; [done|repeat constructor; intros []|].
    simpl. intros k Hin [<-|[]]. apply has_key_keys in Hin. congruence.
  - done.
  - intros y Hy. destruct (W11 y (or_intror Hy)) as [? ?]. split; [|done]. apply Hk. by left.
Qed.

Lemma delete_after_ok x c t1 t2 h : session_delete_after x c t1 t2 h = (Ok tt, (session_delete_after x c t1 t2 h).2).
Proof. reflexivity. Qed.

Lemma trail_delete_all c t1 t2 gone h : trail_with gone h →
  trail_with [] (iofold (λ _ x, session_delete_after x c t1 t2) tt gone h).2.
Proof.
  revert h. induction gone as [|x gone IH]; intros h W; [done|]. simpl. unfold iobind.
  rewrite delete_after_ok. by apply IH, trail_delete.
Qed.

Lemma trail_end token c t1 t2 h : trail_with [] h → trail_with [] (end_session token c t1 t2 h).2.
Proof.
  intros [W1 Wp W2 W3 W4 W5 W6 W7 W8 W9 W10 _]. unfold AuthHooks.end_session. apply trail_delete_all.
  assert (∀ x, In x (deleteSession token (sessions (hk_auth h))) ↔ In x (sessions (hk_auth h)) ∧ BaSession.token x ≠ token) as Hd
    by apply deleteSession_spec.
  split; simpl; try done.
  - intros x [Hx _]%Hd. by apply W2.
  - intros m Hm Hn. destruct (W3 m Hm Hn) as (x & [Hx|[]] & Hb). exists x. split; [|done].
    destruct (decide (BaSession.token x = token)) as [E|E]; [right; apply filter_In; split; [done|]; by apply bool_decide_eq_true_2|left; by apply Hd].
  - intros x y [Hx _]%Hd [Hy _]%Hd. by apply W10.
  - intros x [Hx Et]%filter_In. unfold has_token in Et. boolify. split.
    + destruct (W2 x Hx) as (m & Hm & Hsh). destruct (W5 m Hm) as (k & Hb & Hc). rewrite (sh_session _ _ Hsh) in Hb. by injection Hb as <-.
    + intros y [Hy Hty]%Hd E. assert (y = x) by (by apply W10). by subst.
Qed.

(** *** The start of a session *)

Lemma created_row_shows x user jkt path m :
  let row := session_create_before path user jkt x in
  MirrorSession.betterAuthSessionId m = Some (BaSession.id row) → MirrorSession.revokedAt m = None →
  MirrorSession.betterAuthUserId m = BaSession.userId row → MirrorSession.createdAt m = BaSession.createdAt row →
  MirrorSession.absoluteExpiresAt m = absolute_expiry row → shows row m.
Proof.
  intros row Hb Hn Hu Hc Ha. split; try done. intros Hd. rewrite Ha. unfold absolute_expiry. rewrite Hd.
  unfold is_device_session, row, session_create_before, DEVICE_SESSION_AUTHENTICATION_LEVEL in *. simpl in *. by rewrite Hd.
Qed.

(** [m] is the row the mirror writes for [x]. *)
Definition mirror_row (x : BaSession.t) (m : MirrorSession.t) : Prop :=
  MirrorSession.betterAuthSessionId m = Some (BaSession.id x) ∧ MirrorSession.revokedAt m = None ∧
  MirrorSession.betterAuthUserId m = BaSession.userId x ∧ MirrorSession.createdAt m = BaSession.createdAt x ∧
  MirrorSession.absoluteExpiresAt m = absolute_expiry x.

Lemma mirror_created_effect x c method h :
  (∀ m, In m (mirror (hk_auth h)) → ∃ n, (n < ulids (abase (hk_auth h)))%nat ∧ MirrorSession.id m = "sess_" +:+ ulid n) →
  is_Some (findByBetterAuthUserId (BaSession.userId x) (hk_auth h)) →
  let h' := (mirrorCreated ulid hashUserAgent no_faults x c method h).2 in ∃ m,
  mirror_row x m ∧ MirrorSession.id m = "sess_" +:+ ulid (ulids (abase (hk_auth h))) ∧
  sessions (hk_auth h') = sessions (hk_auth h) ∧ mirror (hk_auth h') = mirror (hk_auth h) ++ [m] ∧
  ulids (abase (hk_auth h')) = S (ulids (abase (hk_auth h))) ∧ hk_events h' = hk_events h.
Proof.
  intros Hids [a Ha]. unfold mirrorCreated, caught, iocatch, no_faults, on_auth, recordCreated, iobind, query. rewrite Ha. simpl.
  unfold transaction, tbind, fresh_id, fresh, tprim. simpl.
  destruct (exists_row _ (mirror (hk_auth h))) eqn:E; simpl.
  - exfalso. apply existsb_exists in E as (m & Hm & Ek). unfold by_id in Ek. boolify. destruct (Hids m Hm) as (n & Hn & Em).
    rewrite Em in Ek. apply append_inj_l, ulid_inj in Ek. lia.
  - eexists. by repeat split.
Qed.

Lemma create_after_effect x c h :
  (∀ m, In m (mirror (hk_auth h)) → ∃ n, (n < ulids (abase (hk_auth h)))%nat ∧ MirrorSession.id m = "sess_" +:+ ulid n) →
  is_Some (findByBetterAuthUserId (BaSession.userId x) (hk_auth h)) →
  let h' := (session_create_after x c h).2 in ∃ m n l,
  mirror_row x m ∧ (ulids (abase (hk_auth h)) <= n < ulids (abase (hk_auth h')))%nat ∧ MirrorSession.id m = "sess_" +:+ ulid n ∧
  (ulids (abase (hk_auth h)) <= ulids (abase (hk_auth h')))%nat ∧
  sessions (hk_auth h') = sessions (hk_auth h) ∧ mirror (hk_auth h') = mirror (hk_auth h) ++ [m] ∧
  hk_events h' = hk_events h ++ l ∧ (∀ e, In e l → e.1 = created_key (BaSession.id x) ∨ other_key e.1) ∧
  In (created_key (BaSession.id x)) (event_keys h') ∧ (List.NoDup (event_keys h) → List.NoDup (event_keys h')).
Proof.
  intros Hids Hacc.
  set (e := mkAuditEvent (created_key (BaSession.id x)) "authentication.session_created" (Some (BaSession.userId x)) None true
    "session" (BaSession.id x)
    [("trace_id", text_or_null (readTraceId c));
     ("authentication_method", text_or_null (resolveLoginMethod c (Some (BaSession.authenticationLevel x))));
     ("source", JStr (default "internal" (path_of c)))] (BaSession.createdAt x)).
  set (later := if isLoginPath (path_of c) && negb (isDeviceAuthPath (path_of c)) then login_recorded ulid no_faults x c else ret tt).
  set (K := λ k, k = created_key (BaSession.id x) ∨ other_key k).
  set (h1 := (record e h).2). set (h2 := (later h1).2).
  assert (logs K h h1) as L1 by (apply record_logs; by left).
  assert (logs other_key h1 h2) as L2.
  { subst h2 later. destruct (_ && _); [apply login_recorded_logs|apply (io_rel_ret (logs other_key))]. }
  assert (logs K h h2) as L.
  { etrans; [exact L1|]. destruct L2 as [? ? ? ? (l & E & Hl) ?]. split; try done. exists l. split; [done|]. intros z Hz. right. by apply Hl. }
  assert (∃ r2, later h1 = (Ok r2, h2)) as [r2 Er].
  { subst h2 later. destruct (_ && _); [|by exists tt]. exists tt. unfold login_recorded, iobind.
    destruct (_ ≫= _); [|done]. unfold iocatch. destruct (on_auth _ h1) as [[]]; done. }
  assert ((session_create_after x c h).2 = (mirrorCreated ulid hashUserAgent no_faults x c
    (resolveLoginMethod c (Some (BaSession.authenticationLevel x))) h2).2) as ->.
  { unfold AuthHooks.session_create_after. fold e later. unfold iobind.
    assert (record e h = (Ok tt, h1)) as -> by done. by rewrite Er. }
  destruct L as [Hs Hm Ha Hu (l & He & Hl) Hn].
  destruct (mirror_created_effect x c (resolveLoginMethod c (Some (BaSession.authenticationLevel x))) h2) as (m & Hrow & Hid & Ms & Mm & Mu & Me).
  { rewrite Hm. intros m (n & ? & ?)%Hids. exists n. split; [lia|done]. }
  { by apply Ha. }
  exists m, (ulids (abase (hk_auth h2))), l. unfold event_keys. rewrite Ms, Mm, Mu, Me, Hs, Hm. split_and!; try done; try lia.
  apply (keys_grow _ _ _ _ L2). unfold h1, event_keys. destruct (record_events e h) as (row & _ & ->).
  destruct (has_key _ h) eqn:Ek; [by apply has_key_keys in Ek|]. rewrite map_app, in_app_iff. right. by left.
Qed.

Lemma open_session_state x jkt c h :
  let row := session_create_before (path_of c) (findUserById (BaSession.userId x) (users (hk_auth h))) jkt x in
  (open_session x jkt c h).2 = (session_create_after row c (set_auth (set_sessions (sessions (hk_auth h) ++ [row]) (hk_auth h)) h)).2.
Proof.
  cbv zeta. unfold AuthHooks.open_session, iobind, on_auth, write.
  destruct (session_create_after _ c _) as [[] h']; done.
Qed.

Lemma trail_open x jkt c h : trail_with [] h → is_Some (findByBetterAuthUserId (BaSession.userId x) (hk_auth h)) →
  ¬ In (created_key (BaSession.id x)) (event_keys h) → trail_with [] (open_session x jkt c h).2.
Proof.
  intros [W1 Wp W2 W3 W4 W5 W6 W7 W8 W9 W10 _] Hacc Hfresh. rewrite open_session_state. cbv zeta.
  set (row := session_create_before _ _ jkt x). set (h0 := set_auth _ h).
  destruct (create_after_effect row c h0) as (m & n & l & Hrow & Hn & Hid & Hu & Hs & Hm & He & Hl & Hk & Hd); [exact W1|exact Hacc|].
  set (h' := (session_create_after row c h0).2) in *. simpl in Hs, Hm, He, Hd, Hu. change (ulids (abase (hk_auth h)) <= ulids (abase (hk_auth h')))%nat in Hu.
  assert (BaSession.id row = BaSession.id x) as Eid by done. destruct Hrow as (Rb & Rn & Ru & Rc & Ra).
  assert (∀ k, In k (event_keys h) → In k (event_keys h')) as Hgrow.
  { intros k Hin. unfold event_keys. rewrite He, map_app, in_app_iff. by left. }
  assert (∀ k, In (revoked_key k) (event_keys h') → In (revoked_key k) (event_keys h)) as Hrev.
  { intros k. unfold event_keys. rewrite He, map_app, in_app_iff. intros [?|(e & Ee & [E|E]%Hl)%in_map_iff]; [done| |].
    - rewrite Ee in E. discriminate E.
    - exfalso. apply E. rewrite Ee. apply revoked_session. }
  assert (¬ In (revoked_key (BaSession.id x)) (event_keys h)) as Hnr by (intros ?%W8; done).
  assert (∀ m0, In m0 (mirror (hk_auth h)) → MirrorSession.betterAuthSessionId m0 ≠ Some (BaSession.id x)) as Hnew.
  { intros m0 H0 E. destruct (W5 m0 H0) as (k & Hb & Hc). rewrite E in Hb. injection Hb as <-. done. }
  split; rewrite ?Hs, ?Hm.
  - intros m0 [(k & ? & ?)%W1|[<-|[]]]%in_app_iff; [exists k; split; [lia|done]|exists n; split; [lia|done]].
  - rewrite map_app. apply List.NoDup_app; [done|repeat constructor; intros []|]. simpl. intros b (m0 & Eb & H0)%in_map_iff [Em|[]].
    destruct (W1 m0 H0) as (k & Hlt & Ek). rewrite <- Em, Hid in Eb. rewrite Ek in Eb. apply append_inj_l, ulid_inj in Eb. simpl in Hn. lia.
  - intros y [(m0 & ? & ?)%W2|[<-|[]]]%in_app_iff.
    + exists m0. split; [|done]. apply in_app_iff. by left.
    + exists m. split; [apply in_app_iff; right; by left|]. by apply created_row_shows.
  - intros m0 [H0|[<-|[]]]%in_app_iff Hnone.
    + destruct (W3 m0 H0 Hnone) as (y & [Hy|[]] & Hb). exists y. split; [left; apply in_app_iff; by left|done].
    + exists row. split; [left; apply in_app_iff; right; by left|done].
  - rewrite map_app. apply List.NoDup_app; [done|repeat constructor; intros []|]. simpl. intros b (m0 & Eb & H0)%in_map_iff [Em|[]].
    apply (Hnew m0 H0). by rewrite Eb, <- Em, Rb.
  - intros m0 [(k & ? & ?)%W5|[<-|[]]]%in_app_iff; [exists k; by auto|]. exists (BaSession.id row). done.
  - intros m0 t [H0|[<-|[]]]%in_app_iff Ht; [|congruence]. destruct (W6 m0 t H0 Ht) as (k & r & rw & ? & ? & ? & ? & ?).
    exists k, r, rw. split_and!; try done. rewrite He. apply in_app_iff. by left.
  - intros m0 k [H0|[<-|[]]]%in_app_iff Hnone Hb Hr%Hrev; [by eapply W7|]. rewrite Rb in Hb. injection Hb as <-. done.
  - intros k Hr%Hrev. by apply Hgrow, W8.
  - by apply Hd.
  - assert (∀ y, In y (sessions (hk_auth h)) → BaSession.id y ≠ BaSession.id x) as Hy.
    { intros y (m0 & H0 & Hsh)%W2 E. apply (Hnew m0 H0). by rewrite (sh_session _ _ Hsh), E. }
    intros y z [H1|[<-|[]]]%in_app_iff [H2|[<-|[]]]%in_app_iff E; try done; [by apply W10| |].
    + exfalso. by apply (Hy y H1).
    + exfalso. by apply (Hy z H2).
  - by intros y [].
Qed.

(** *** Runs *)

(** A session row that is refreshed, or bound to a key: a device session keeps its end. *)
Definition same_session_row (x y : BaSession.t) : Prop :=
  BaSession.id y = BaSession.id x ∧ BaSession.token y = BaSession.token x ∧ BaSession.userId y = BaSession.userId x ∧
  BaSession.createdAt y = BaSession.createdAt x ∧ BaSession.authenticationLevel y = BaSession.authenticationLevel x ∧
  (is_device_session x = true → BaSession.expiresAt y = BaSession.expiresAt x).

(** The writes of the hooks succeed ([no_faults]; [hooks_never_block] covers the faulty case), and a session's row and
    its hook are one step. *)
Inductive trail_step (h : hooked) : hooked → Prop :=
  | st_user pf u v c now : trail_step h (create_user ulid no_faults pf u v c now h).2
  (** Better Auth gives a session an identifier that was never given, and the user's account is provisioned *)
  | st_open x jkt c : is_Some (findByBetterAuthUserId (BaSession.userId x) (hk_auth h)) →
      ¬ In (created_key (BaSession.id x)) (event_keys h) → trail_step h (open_session x jkt c h).2
  | st_end token c t1 t2 : trail_step h (end_session token c t1 t2 h).2
  | st_refresh f : (∀ x, same_session_row x (f x)) → trail_step h (set_auth (set_sessions (map f (sessions (hk_auth h))) (hk_auth h)) h)
  | st_activity k seen idle : trail_step h (set_auth (mirror_recordActivity k seen idle (hk_auth h)) h)
  | st_failed c i code uuid now : trail_step h (login_failed ulid no_faults c i code uuid now h).2
  | st_ceremony c x d now : trail_step h (recordDeviceCeremonySucceeded ulid no_faults c x d now h).2
  (** the rest of the customer's tables *)
  | st_aside s : aside (hk_auth h) s → trail_step h (set_auth s h).

Lemma trail_refresh f h : (∀ x, same_session_row x (f x)) → trail_with [] h →
  trail_with [] (set_auth (set_sessions (map f (sessions (hk_auth h))) (hk_auth h)) h).
Proof.
  intros Hf [W1 Wp W2 W3 W4 W5 W6 W7 W8 W9 W10 _]. split; simpl; try done.
  - intros y (x & <- & Hx)%in_map_iff. destruct (W2 x Hx) as (m & Hm & [S1 S2 S3 S4 S5 S6]). exists m. split; [done|].
    destruct (Hf x) as (Ei & Et & Eu & Ec & El & Ee). assert (is_device_session (f x) = is_device_session x) as Ed by (unfold is_device_session; by rewrite El).
    split; rewrite ?Ei, ?Eu, ?Ec; try done.
    + rewrite S5. unfold absolute_expiry. by rewrite Ed, Ec.
    + rewrite Ed. intros Hd. by rewrite Ee, S6.
  - intros m Hm Hn. destruct (W3 m Hm Hn) as (x & [Hx|[]] & Hb). exists (f x). split; [left; by apply in_map|]. by rewrite (proj1 (Hf x)).
  - intros y z (x & <- & Hx)%in_map_iff (x' & <- & Hx')%in_map_iff E. rewrite !(proj1 (Hf _)) in E. by rewrite (W10 x x').
Qed.

Lemma trail_activity k seen idle h : trail_with [] h → trail_with [] (set_auth (mirror_recordActivity k seen idle (hk_auth h)) h).
Proof.
  intros [W1 Wp W2 W3 W4 W5 W6 W7 W8 W9 W10 _]. set (f := MirrorSession.set_activity seen idle). unfold mirror_recordActivity. fold f.
  set (q := λ m, _). split; simpl; try done; fold q.
  - intros m (m0 & H0 & ->)%in_update_where. destruct (W1 m0 H0) as (n & ? & ?). exists n. by destruct (q m0).
  - by rewrite map_update_where.
  - intros x Hx. destruct (W2 x Hx) as (m & Hm & [S1 S2 S3 S4 S5 S6]). exists (if q m then f m else m).
    split; [apply in_update_where; by exists m|]. by destruct (q m).
  - intros m (m0 & H0 & ->)%in_update_where Hn. destruct (W3 m0 H0) as (x & Hx & Hb); [by destruct (q m0)|]. exists x. split; [done|]. by destruct (q m0).
  - by rewrite map_update_where.
  - intros m (m0 & H0 & ->)%in_update_where. destruct (W5 m0 H0) as (i & ? & ?). exists i. by destruct (q m0).
  - intros m t (m0 & H0 & ->)%in_update_where Ht. destruct (W6 m0 t H0) as (i & r & row & ? & ? & ? & ? & ?); [by destruct (q m0)|].
    exists i, r, row. by destruct (q m0).
  - intros m i (m0 & H0 & ->)%in_update_where Hn Hb. apply (W7 m0); by destruct (q m0).
Qed.

Lemma trail_aside s h : aside (hk_auth h) s → trail_with [] h → trail_with [] (set_auth s h).
Proof.
  intros (Hs & Hm & Hu & _) [W1 Wp W2 W3 W4 W5 W6 W7 W8 W9 W10 W11]. split; simpl; rewrite ?Hs, ?Hm; try done.
  intros m (n & ? & ?)%W1. exists n. split; [lia|done].
Qed.

Lemma trail_kept h h' : trail_step h h' → trail_with [] h → trail_with [] h'.
Proof.
  intros [pf u v c now|x jkt c Ha Hn|token c t1 t2|f Hf|k seen idle|c i code uuid now|c x d now|s Hs] W.
  - eapply trail_logs; [apply create_user_logs|done].
  - by apply trail_open.
  - by apply trail_end.
  - by apply trail_refresh.
  - by apply trail_activity.
  - eapply trail_logs; [|done]. unfold login_failed. destruct i as [i|]; [|done]. apply record_logs. other_key.
  - eapply trail_logs; [|done]. unfold recordDeviceCeremonySucceeded. destruct x as [[]|]; [|done]. apply record_logs. other_key.
  - by apply trail_aside.
Qed.

Lemma trail_start h : sessions (hk_auth h) = [] → mirror (hk_auth h) = [] → hk_events h = [] → trail_with [] h.
Proof. intros Hs Hm He. unfold event_keys. split; unfold event_keys; rewrite ?Hs, ?Hm, ?He; simpl; try done; constructor. Qed.

Lemma trail_run h h' : rtc trail_step h h' → trail_with [] h → trail_with [] h'.
Proof. induction 1 as [|h1 h2 h3 Hs _ IH]; [done|]. intros W. by eapply IH, trail_kept. Qed.

Lemma filter_key {R K : Type} `{EqDecision K} (f : R → K) l r : List.NoDup (map f l) → In r l →
  List.filter (λ x, bool_decide (f x = f r)) l = [r].
Proof.
  induction l as [|a l IH]; simpl; [done|]. intros [Ha Hl]%List.NoDup_cons_iff [->|Hr].
  - rewrite bool_decide_eq_true_2 by done. f_equal.
    destruct (List.filter _ l) as [|b k] eqn:E; [done|]. assert (In b (b :: k)) as Hb by (by left). rewrite <- E in Hb.
    apply filter_In in Hb as [Hb Eb]. boolify. exfalso. apply Ha. rewrite <- Eb. by apply in_map.
  - rewrite bool_decide_eq_false_2; [by apply IH|]. intros E. apply Ha. rewrite E. by apply in_map.
Qed.

(** C28: as long as the writes to the mirror and to the audit log succeed (the plugin swallows their failures), every
    session is opened for a provisioned account, and the after hook of a session runs before the next change to that
    session, the list of sessions a customer is shown tells the truth after any sequence of sign-ups, sign-ins,
    sign-outs, expiries, refreshes, device ceremonies and failed logins: a live session has exactly one row, not revoked
    and with the session's user, start and absolute end (for a device session the very end Better Auth enforces); a row
    that is not revoked stands for a live session; a revoked row names the reason the audit log has for the end of that
    session; every row's session has its creation in the log, and no event is logged twice. *)
Theorem session_list_is_truthful h0 h :
  sessions (hk_auth h0) = [] → mirror (hk_auth h0) = [] → hk_events h0 = [] → rtc trail_step h0 h →
  (∀ x, In x (sessions (hk_auth h)) → ∃ m,
     List.filter (λ m, bool_decide (MirrorSession.betterAuthSessionId m = Some (BaSession.id x))) (mirror (hk_auth h)) = [m] ∧ shows x m) ∧
  (∀ m, In m (mirror (hk_auth h)) →
     match MirrorSession.revokedAt m with
     | None => ∃ x, In x (sessions (hk_auth h)) ∧ MirrorSession.betterAuthSessionId m = Some (BaSession.id x)
     | Some _ => accounted_for h m
     end ∧ ∃ k, MirrorSession.betterAuthSessionId m = Some k ∧ In (created_key k) (event_keys h)) ∧
  List.NoDup (event_keys h).
Proof.
  intros Hs Hm He Hrun. pose proof (trail_run _ _ Hrun (trail_start _ Hs Hm He)) as W. split_and!; [| |apply W].
  - intros x (m & Hin & Hsh)%(tw_live _ _ W). exists m. split; [|done]. rewrite <- (sh_session _ _ Hsh). apply filter_key; [apply W|done].
  - intros m Hin. split; [|by apply W]. destruct (MirrorSession.revokedAt m) as [t|] eqn:Et; [by eapply (tw_revoked _ _ W)|].
    destruct (tw_active _ _ W m Hin Et) as (x & [Hx|[]] & Hb). by exists x.
Qed.

(** *** Ending a session from the list *)

(** What Better Auth documents of the endpoints: a caller is shown his unexpired sessions, and revoking one of them
    deletes it as a request to /revoke-session does. *)
Record EndpointLaws (api : SessionEndpoints) : Prop := {
  own_listed u now l x : In x (api_listSessions api u now l) ↔ In x l ∧ BaSession.userId x = u ∧ now < BaSession.expiresAt x;
  own_revoked u h x : In x (sessions (hk_auth h)) → BaSession.userId x = u → ∃ c t1 t2,
    ax_path c = Some "/revoke-session" ∧ ax_reasons c = [] ∧
    api_revokeSession api u (BaSession.token x) h = end_session (BaSession.token x) (Some c) t1 t2 h }.

Lemma delete_all_ok c t1 t2 gone h : ∃ h', iofold (λ _ x, session_delete_after x c t1 t2) tt gone h = (Ok tt, h') ∧
  sessions (hk_auth h') = sessions (hk_auth h).
Proof.
  revert h. induction gone as [|x gone IH]; intros h; [by exists h|]. simpl. unfold iobind. rewrite delete_after_ok.
  destruct (IH (session_delete_after x c t1 t2 h).2) as (h' & -> & Hs). exists h'. split; [done|]. rewrite Hs.
  by destruct (delete_after_effect x c t1 t2 h) as (? & ? & _).
Qed.

(** A revoked row is left alone. *)
Lemma revoked_row_kept c t1 t2 gone h m : In m (mirror (hk_auth h)) → MirrorSession.revokedAt m ≠ None →
  In m (mirror (hk_auth (iofold (λ _ x, session_delete_after x c t1 t2) tt gone h).2)).
Proof.
  intros Hin Hn. revert h Hin. induction gone as [|x gone IH]; intros h Hin; [done|]. simpl. unfold iobind. rewrite delete_after_ok. apply IH.
  destruct (delete_after_effect x c t1 t2 h) as (? & _ & -> & _). apply in_update_where. exists m. split; [done|].
  destruct (mirrors _ m) eqn:Em; [|done]. by apply mirrors_iff in Em as [_ ?].
Qed.

Lemma ended_row c t1 t2 gone h m : In m (mirror (hk_auth h)) → MirrorSession.revokedAt m = None →
  (∀ x, In x gone → revocationReason x c = sessionRevocationReason (path_of c)) →
  (∃ x, In x gone ∧ MirrorSession.betterAuthSessionId m = Some (BaSession.id x)) →
  In (MirrorSession.set_revoked t1 (sessionRevocationReason (path_of c)) m)
    (mirror (hk_auth (iofold (λ _ x, session_delete_after x c t1 t2) tt gone h).2)).
Proof.
  revert h. induction gone as [|x gone IH]; intros h Hin Hn Hr (y & Hy & Hb); [done|]. simpl. unfold iobind. rewrite delete_after_ok.
  destruct (delete_after_effect x c t1 t2 h) as (row & _ & Hm & _). rewrite (Hr x (or_introl eq_refl)) in Hm.
  destruct (mirrors (BaSession.id x) m) eqn:Em.
  - apply revoked_row_kept; [|done]. rewrite Hm. apply in_update_where. exists m. by rewrite Em.
  - apply IH; [rewrite Hm; apply in_update_where; exists m; by rewrite Em|done|by intros z Hz; apply Hr; right|].
    destruct Hy as [<-|Hy]; [|by exists y]. exfalso. assert (mirrors (BaSession.id x) m = true) by (by apply mirrors_iff). congruence.
Qed.

Lemma owned_row h account m x : trail_with [] h → In m (mirror (hk_auth h)) → shows x m →
  findOwnedProviderSessionId account (MirrorSession.id m) (hk_auth h) =
    if bool_decide (MirrorSession.accountId m = account) then Some (BaSession.id x) else None.
Proof.
  intros W Hin Hsh. unfold findOwnedProviderSessionId, by_id. destruct (find_row _ _) as [m'|] eqn:Ef.
  - apply find_row_Some in Ef as [Hm' Ef]. boolify. assert (m' = m) as -> by (eapply NoDup_map_inj_in; [apply W|done..]).
    rewrite bool_decide_eq_true_2 by done. simpl. by rewrite (sh_session _ _ Hsh).
  - simpl. case_bool_decide; [|done]. rewrite find_row_None in Ef. specialize (Ef m Hin). by rewrite !bool_decide_eq_true_2 in Ef.
Qed.

Lemma own_session_found api h x now : EndpointLaws api → trail_with [] h → In x (sessions (hk_auth h)) → now < BaSession.expiresAt x →
  find_row (by_id BaSession.id (BaSession.id x)) (api_listSessions api (BaSession.userId x) now (sessions (hk_auth h))) = Some x.
Proof.
  intros Hapi W Hx Hnow. unfold by_id. destruct (find_row _ _) as [y|] eqn:Ef.
  - apply find_row_Some in Ef as [Hy Ef]. boolify. apply (own_listed _ Hapi) in Hy as [Hy _]. f_equal. by apply (tw_distinct _ _ W).
  - rewrite find_row_None in Ef. specialize (Ef x). rewrite bool_decide_eq_true_2 in Ef by done.
    discriminate Ef. by apply (own_listed _ Hapi).
Qed.

(** A customer can end any of the live sessions he is shown: revoking the row of an unexpired session of his
    succeeds, deletes that session and marks the row revoked by him; a row of another account answers 404 and changes
    nothing. *)
Theorem listed_sessions_can_be_ended api account m x now h0 h :
  EndpointLaws api → sessions (hk_auth h0) = [] → mirror (hk_auth h0) = [] → hk_events h0 = [] → rtc trail_step h0 h →
  In m (mirror (hk_auth h)) → In x (sessions (hk_auth h)) → shows x m → now < BaSession.expiresAt x →
  if bool_decide (MirrorSession.accountId m = account)
  then ∃ h' t, RevokeOwnSession_execute api account (BaSession.userId x) (MirrorSession.id m) now h = (Ok tt, h') ∧
    (∀ y, In y (sessions (hk_auth h')) → BaSession.id y ≠ BaSession.id x) ∧
    In (MirrorSession.set_revoked t "self_revoke_one" m) (mirror (hk_auth h'))
  else RevokeOwnSession_execute api account (BaSession.userId x) (MirrorSession.id m) now h = (Err session_not_found, h).
Proof.
  intros Hapi Hs Hm He Hrun Hin Hx Hsh Hnow. pose proof (trail_run _ _ Hrun (trail_start _ Hs Hm He)) as W.
  unfold RevokeOwnSession_execute, iobind, query. rewrite (owned_row h account m x) by done.
  case_bool_decide as Ea; [|done]. unfold revoke, iobind, query. rewrite own_session_found by done.
  destruct (own_revoked _ Hapi (BaSession.userId x) h x Hx eq_refl) as (c & t1 & t2 & Hp & Hr & ->). unfold AuthHooks.end_session.
  set (gone := List.filter (has_token (BaSession.token x)) (sessions (hk_auth h))). set (h1 := set_auth _ h).
  destruct (delete_all_ok (Some c) t1 t2 gone h1) as (h' & E & Hs'). rewrite E. exists h', t1. split_and!; [done| |].
  - intros y. rewrite Hs'. simpl. rewrite deleteSession_spec. intros [Hy Ht] Ei. apply Ht. by rewrite (tw_distinct _ _ W y x).
  - pose proof (ended_row (Some c) t1 t2 gone h1 m) as Hend. unfold sessionRevocationReason, path_of in Hend. rewrite E in Hend.
    simpl in Hend. rewrite Hp in Hend. apply Hend; [done|apply Hsh| |].
    + intros z _. unfold revocationReason, ceremonySessionRevocationReason, sessionRevocationReason, path_of. simpl. by rewrite Hr, Hp.
    + exists x. split; [|apply Hsh]. apply filter_In. split; [done|]. by apply bool_decide_eq_true_2.
Qed.

End Trail.

End AuthHooks.

(** Linked sign-in methods: the fresh-authentication plugin, the guard of the method an account was registered with,
    and the service that unlinks one. *)
Module LoginMethods.
Import JsString AuthDb AuthSessions AuthHooks.

(** ** Fresh authentication inside Better Auth *)

Definition SENSITIVE_PATHS : list string := ["/unlink-account"; "/revoke-session"; "/revoke-sessions"; "/revoke-other-sessions"].

Definition FRESH_AUTHENTICATION_REQUIRED : error := AppError "FRESH_AUTHENTICATION_REQUIRED" 403 [].

(** [http]: the endpoint was reached by a request and not by a call of the server; [current]: the session the
    endpoint will see, with the population of its user *)
Definition fresh_authentication_hook (http : bool) (path : option string) (current : option (string * BaSession.t)) (now : Z) : result unit :=
  if http && existsb (λ p, is_path p path) SENSITIVE_PATHS
  then match current with
       | None => Ok tt
       | Some (population, x) =>
           if bool_decide (population = "staff_partner") then Ok tt
           else if isFreshDeviceSession (mkSubject "customer" (Some (BaSession.authenticationLevel x)) (Some (BaSession.createdAt x))) now
           then Ok tt else Err FRESH_AUTHENTICATION_REQUIRED
       end
  else Ok tt.

(** ** The signed bearer token of a hook (better-auth-hook-session.ts); [decodeURIComponent] may throw *)

Definition parseSignedBearerToken (decodeURIComponent : string → option string) (authorization : option string) : option string :=
  authorization ≫= λ a,
  if negb (bool_decide (toLowerCase (slice0 7 a) = "bearer ")) then None
  else let token := trim (slice_from 7 a) in
  if negb (includes "." token) then None
  else if includes "%" token then Some (default token (decodeURIComponent token)) else Some token.

(** ** Unlinking *)

(** [reduce]: the first of the accounts with the smallest creation date *)
Definition earlier (current : option OAuthAccount.t) (candidate : OAuthAccount.t) : option OAuthAccount.t :=
  match current with
  | None => Some candidate
  | Some a => if OAuthAccount.createdAt candidate <? OAuthAccount.createdAt a then Some candidate else current
  end.

Definition findRegistrationAccountId (accounts : list OAuthAccount.t) : option string := OAuthAccount.id <$> foldl earlier None accounts.

Definition REGISTRATION_LOGIN_METHOD_LOCKED : error := AppError "REGISTRATION_LOGIN_METHOD_LOCKED" 403 [].
Definition registration_login_method_locked : error := AppError "authentication.registration_login_method_locked" 409 [].
Definition login_method_not_linked : error := AppError "authentication.login_method_not_linked" 404 [].

(** Better Auth's accounts of a user and its /unlink-account: parameters, with their documented behaviour. *)
Class LinkedAccounts := {
  findAccounts : string → list OAuthAccount.t → list OAuthAccount.t;
  unlinkAccount : string → string → list OAuthAccount.t → result (list OAuthAccount.t) }.

Class LinkedAccountsLaws (L : LinkedAccounts) : Prop := {
  findAccounts_spec u l a : In a (findAccounts u l) ↔ In a l ∧ OAuthAccount.userId a = u;
  (** only the named account of the caller is removed, and only when it is not the last one *)
  unlinkAccount_spec u k l l' : unlinkAccount u k l = Ok l' →
    ∀ a, In a l' ↔ In a l ∧ ¬ (OAuthAccount.id a = k ∧ OAuthAccount.userId a = u) }.

Section Unlinking.
Context `{L : LinkedAccounts}.

(** the before hook; [caller]: the user of the session, if there is one *)
Definition registration_guard (accountId caller : option string) (l : list OAuthAccount.t) : result unit :=
  match accountId, caller with
  | Some k, Some u => if bool_decide (findRegistrationAccountId (findAccounts u l) = Some k) then Err REGISTRATION_LOGIN_METHOD_LOCKED else Ok tt
  | _, _ => Ok tt
  end.

(** The endpoint behind its hook, for an authenticated caller. *)
Definition unlink_endpoint (caller accountId : string) : io hooked unit := λ h,
  match registration_guard (Some accountId) (Some caller) (hk_accounts h) with
  | Err e => (Err e, h)
  | Ok _ => match unlinkAccount caller accountId (hk_accounts h) with
            | Err e => (Err e, h)
            | Ok l => (Ok tt, set_accounts l h)
            end
  end.

Definition code_is (code : string) (e : error) : bool := match e with AppError c _ _ => bool_decide (c = code) | Thrown _ => false end.

Inductive unlink_error := locked | not_linked | other (e : error).

(** BetterAuthLoginMethodUnlinker.unlink: what it throws, if it does *)
Definition unlink (method caller : string) : hooked → option unlink_error * hooked := λ h,
  match find_row (λ a, bool_decide (OAuthAccount.providerId a = method)) (findAccounts caller (hk_accounts h)) with
  | None => (Some not_linked, h)
  | Some a =>
      match unlink_endpoint caller (OAuthAccount.id a) h with
      | (Ok _, h') => (None, h')
      | (Err e, h') =>
          (Some (if code_is "REGISTRATION_LOGIN_METHOD_LOCKED" e || code_is "FAILED_TO_UNLINK_LAST_ACCOUNT" e then locked
                 else if code_is "ACCOUNT_NOT_FOUND" e then not_linked else other e), h')
      end
  end.

Definition UnlinkLoginMethod_execute (method caller : string) : io hooked unit := λ h,
  match unlink method caller h with
  | (None, h') => (Ok tt, h')
  | (Some locked, h') => (Err registration_login_method_locked, h')
  | (Some not_linked, h') => (Err login_method_not_linked, h')
  | (Some (other e), h') => (Err e, h')
  end.

Context `{!LinkedAccountsLaws L}.

(** Linking comes later than every account of the user; unlinking goes through the guard. *)
Inductive link_step (h : hooked) : hooked → Prop :=
  | ls_link a : (∀ b, In b (hk_accounts h) → OAuthAccount.userId b = OAuthAccount.userId a → OAuthAccount.createdAt b < OAuthAccount.createdAt a) →
      link_step h (set_accounts (hk_accounts h ++ [a]) h)
  | ls_unlink caller k : link_step h (unlink_endpoint caller k h).2
  | ls_service method caller : link_step h (UnlinkLoginMethod_execute method caller h).2
  | ls_rest s l : link_step h (set_auth s (set_events l h)).

(** [a] is linked, and every other account of its user was linked after it. *)
Definition registered_with (a : OAuthAccount.t) (l : list OAuthAccount.t) : Prop :=
  In a l ∧ ∀ b, In b l → OAuthAccount.userId b = OAuthAccount.userId a → b = a ∨ OAuthAccount.createdAt a < OAuthAccount.createdAt b.

Lemma earliest_found a l c : (∀ b, In b l → b = a ∨ OAuthAccount.createdAt a < OAuthAccount.createdAt b) →
  (c = Some a ∨ In a l ∧ match c with Some b => OAuthAccount.createdAt a < OAuthAccount.createdAt b | None => True end) →
  foldl earlier c l = Some a.
Proof.
  revert c. induction l as [|b l IH]; intros c Hl Hc; [by destruct Hc as [->|[[] _]]|]. simpl. apply IH; [by intros z Hz; apply Hl; right|].
  destruct (Hl b (or_introl eq_refl)) as [->|Hb]; destruct Hc as [->|[Hin Hc]]; unfold earlier.
  - left. by destruct (_ <? _).
  - left. destruct c as [d|]; [|done]. by rewrite (proj2 (Z.ltb_lt _ _)).
  - left. rewrite (proj2 (Z.ltb_ge _ _)); [done|lia].
  - right. assert (In a l) by (destruct Hin as [->|]; [lia|done]). split; [done|]. destruct c as [d|]; [|done]. by destruct (_ <? _).
Qed.

Lemma registration_found a l : registered_with a l → findRegistrationAccountId (findAccounts (OAuthAccount.userId a) l) = Some (OAuthAccount.id a).
Proof.
  intros [Hin Hmin]. unfold findRegistrationAccountId. rewrite (earliest_found a); [done| |].
  - intros b [Hb Eb]%findAccounts_spec. by apply Hmin.
  - right. split; [|done]. by apply findAccounts_spec.
Qed.

Lemma endpoint_keeps a caller k h : registered_with a (hk_accounts h) → registered_with a (hk_accounts (unlink_endpoint caller k h).2).
Proof.
  intros Ha. unfold unlink_endpoint. destruct (registration_guard _ _ _) as [[]|e] eqn:G; [|done].
  destruct (unlinkAccount caller k (hk_accounts h)) as [l|e] eqn:U; [|done]. simpl. pose proof (unlinkAccount_spec _ _ _ _ U) as Hl.
  split; [|intros b [Hb _]%Hl; by apply Ha]. apply Hl. split; [apply Ha|]. intros [<- <-]. unfold registration_guard in G.
  rewrite registration_found, bool_decide_eq_true_2 in G by done. done.
Qed.

Lemma unlink_state method caller h : (UnlinkLoginMethod_execute method caller h).2 = h ∨
  ∃ k, (UnlinkLoginMethod_execute method caller h).2 = (unlink_endpoint caller k h).2.
Proof.
  unfold UnlinkLoginMethod_execute, unlink. destruct (find_row _ _) as [a|]; [|by left]. right. exists (OAuthAccount.id a).
  destruct (unlink_endpoint caller (OAuthAccount.id a) h) as [[[]|e] h']; [done|]. repeat case_match; simplify_eq; done.
Qed.

(** C29: the sign-in method an account was registered with stays linked whatever is linked and unlinked afterwards,
    over HTTP or by the service: it is always the account the guard protects, and a customer who asks to unlink it
    gets 409 and changes nothing. *)
Theorem registration_method_is_kept a h h' : registered_with a (hk_accounts h) → rtc link_step h h' →
  In a (hk_accounts h') ∧ findRegistrationAccountId (findAccounts (OAuthAccount.userId a) (hk_accounts h')) = Some (OAuthAccount.id a) ∧
  (∀ method, find_row (λ b, bool_decide (OAuthAccount.providerId b = method)) (findAccounts (OAuthAccount.userId a) (hk_accounts h')) = Some a →
     UnlinkLoginMethod_execute method (OAuthAccount.userId a) h' = (Err registration_login_method_locked, h')).
Proof.
  intros Ha Hrun. assert (registered_with a (hk_accounts h')) as Ha'.
  { induction Hrun as [|h1 h2 h3 Hs _ IH]; [done|]. apply IH. destruct Hs as [b Hb|caller k|method caller|s l].
    - destruct Ha as [Hin Hmin]. split; simpl; [apply in_app_iff; by left|]. intros z [Hz|[<-|[]]]%in_app_iff E; [by apply Hmin|]. right. by apply Hb.
    - by apply endpoint_keeps.
    - destruct (unlink_state method caller h1) as [->|(k & ->)]; [done|by apply endpoint_keeps].
    - done. }
  split_and!; [apply Ha'|by apply registration_found|]. intros method E. unfold UnlinkLoginMethod_execute, unlink. rewrite E.
  unfold unlink_endpoint, registration_guard. by rewrite registration_found, bool_decide_eq_true_2.
Qed.

End Unlinking.
End LoginMethods.

(** A customer signs up with Google, signs in on her phone, looks at her sessions and ends one; links Apple and
    unlinks it again. *)
Module AuthHooksDemo.
Import AuthDb AuthSessions AuthHooks LoginMethods.
#[local] Existing Instances AuthDemo.tables_adapter AuthDemo.tables_laws.

Notation ulid := OfferingDemo.demo_ulid.
#[local] Instance demo_inj : Inj eq eq ulid.
Proof. intros a b. apply OfferingDemo.demo_ulid_injective. Qed.

Definition hash_agent (userAgent : string) : string := userAgent.
Definition at_path (p : string) : AuditContext :=
  mkAuditContext (Some p) (Some "Mozilla/5.0 (Linux; Android 14) Chrome/120.0") None None (Some "google") None None [].
Definition proposed (id_ : string) (at_ : Z) : BaSession.t :=
  BaSession.mk id_ (String.append "t_" id_) "u_alice" None "unassured" at_ at_ (at_ + 1800000).

Definition alice : User.t := User.mk "u_alice" "alice@example.com" None "customer" None None.
Definition h0 : hooked := mkHooked (mkAuth (OfferingInv.empty_db [] [] [] []) [] [] [] [] [] [] [] [] [] [] []) [] [].
Definition h1 : hooked := (create_user ulid no_faults true alice true (Some (at_path "/sign-in/social")) 0 h0).2.
Definition h2 : hooked := (open_session ulid hash_agent no_faults (proposed "s1" 10) None (Some (at_path "/sign-in/social")) h1).2.
Definition h3 : hooked := (open_session ulid hash_agent no_faults (proposed "s2" 20) (Some "phone") (Some (at_path "/device/login/verify")) h2).2.
Definition h4 : hooked := (end_session ulid no_faults "t_s1" (Some (at_path "/sign-out")) 30 30 h3).2.

Notation trail_step := (trail_step ulid hash_agent).

Lemma provisioned h : findByBetterAuthUserId "u_alice" (hk_auth h) ≠ None → is_Some (findByBetterAuthUserId "u_alice" (hk_auth h)).
Proof. destruct (findByBetterAuthUserId _ _); [by eexists|done]. Qed.

Lemma demo_fresh_key k h : has_key k h = false → ¬ In k (event_keys h).
Proof. intros E Hin%has_key_keys. congruence. Qed.

Lemma run_h3 : rtc trail_step h0 h3.
Proof.
  apply rtc_l with h1; [exact (st_user ulid hash_agent h0 true alice true (Some (at_path "/sign-in/social")) 0)|].
  apply rtc_l with h2.
  { apply (st_open ulid hash_agent h1 (proposed "s1" 10)); [apply provisioned; by vm_compute|apply demo_fresh_key; by vm_compute]. }
  apply rtc_once. apply (st_open ulid hash_agent h2 (proposed "s2" 20)); [apply provisioned; by vm_compute|apply demo_fresh_key; by vm_compute].
Qed.

Lemma run_h4 : rtc trail_step h0 h4.
Proof. apply rtc_r with h3; [apply run_h3|exact (st_end ulid hash_agent h3 "t_s1" (Some (at_path "/sign-out")) 30 30)]. Qed.

(** After the sign-out only the phone's session is live; its row ends when the session does. *)
Lemma session_list_is_truthful_witness :
  map BaSession.id (sessions (hk_auth h4)) = ["s2"] ∧
  map (λ m, (MirrorSession.betterAuthSessionId m, MirrorSession.revocationReason m, MirrorSession.channel m, MirrorSession.deviceLabel m))
    (mirror (hk_auth h4)) =
    [(Some "s1", Some "sign_out", "web", Some "Chrome on Android"); (Some "s2", None, "mobile", Some "Chrome on Android")] ∧
  (∀ x, In x (sessions (hk_auth h4)) → ∃ m,
     List.filter (λ m, bool_decide (MirrorSession.betterAuthSessionId m = Some (BaSession.id x))) (mirror (hk_auth h4)) = [m] ∧ shows x m) ∧
  List.NoDup (event_keys h4).
Proof.
  split; [vm_compute; reflexivity|]. split; [vm_compute; reflexivity|].
  destruct (session_list_is_truthful ulid demo_inj hash_agent h0 h4 eq_refl eq_refl eq_refl run_h4) as (H1 & _ & H3). split; [exact H1|exact H3].
Defined.

(** Better Auth's endpoints over the tables *)
Definition demo_api : SessionEndpoints := mkEndpoints
  (λ u now l, List.filter (λ x, by_id BaSession.userId u x && (now <? BaSession.expiresAt x)) l)
  (λ u token h, end_session ulid no_faults token (Some (at_path "/revoke-session")) 40 40 h)
  (λ u h, (Ok tt, h)).

Lemma demo_endpoints : EndpointLaws ulid demo_api.
Proof.
  split; simpl.
  - intros u now l x. rewrite filter_In, andb_true_iff, Z.ltb_lt. unfold by_id. by rewrite bool_decide_eq_true.
  - intros u h x _ _. by exists (at_path "/revoke-session"), 40, 40.
Qed.

Definition phone_session : BaSession.t := default (proposed "" 0) (find_row (by_id BaSession.id "s2") (sessions (hk_auth h3))).
Definition phone_row : MirrorSession.t :=
  default (MirrorSession.mk "" "" "" "" "" None "" 0 0 0 0 None None None None None)
    (find_row (λ m, bool_decide (MirrorSession.betterAuthSessionId m = Some "s2")) (mirror (hk_auth h3))).

Lemma listed_sessions_can_be_ended_witness :
  let account := MirrorSession.accountId phone_row in
  (∃ h' t, RevokeOwnSession_execute demo_api account "u_alice" (MirrorSession.id phone_row) 100 h3 = (Ok tt, h') ∧
    (∀ y, In y (sessions (hk_auth h')) → BaSession.id y ≠ "s2") ∧
    In (MirrorSession.set_revoked t "self_revoke_one" phone_row) (mirror (hk_auth h'))) ∧
  RevokeOwnSession_execute demo_api "acct_other" "u_alice" (MirrorSession.id phone_row) 100 h3 = (Err session_not_found, h3).
Proof.
  assert (In phone_row (mirror (hk_auth h3)) ∧ In phone_session (sessions (hk_auth h3)) ∧ shows phone_session phone_row) as (Hm & Hx & Hs).
  { split; [vm_compute; auto|]. split; [vm_compute; auto|]. split; vm_compute; reflexivity. }
  assert (100 < BaSession.expiresAt phone_session) as Ht by (vm_compute; reflexivity).
  split.
  - exact (listed_sessions_can_be_ended ulid demo_inj hash_agent demo_api (MirrorSession.accountId phone_row) phone_row phone_session 100 h0 h3
      demo_endpoints eq_refl eq_refl eq_refl run_h3 Hm Hx Hs Ht).
  - exact (listed_sessions_can_be_ended ulid demo_inj hash_agent demo_api "acct_other" phone_row phone_session 100 h0 h3
      demo_endpoints eq_refl eq_refl eq_refl run_h3 Hm Hx Hs Ht).
Defined.

(** ** Linked methods *)

#[local] Instance demo_accounts : LinkedAccounts := {
  findAccounts u l := List.filter (by_id OAuthAccount.userId u) l;
  unlinkAccount u k l :=
    if (length (List.filter (by_id OAuthAccount.userId u) l) <=? 1)%nat then Err (AppError "FAILED_TO_UNLINK_LAST_ACCOUNT" 400 [])
    else if negb (existsb (λ a, by_id OAuthAccount.id k a && by_id OAuthAccount.userId u a) l) then Err (AppError "ACCOUNT_NOT_FOUND" 400 [])
    else Ok (List.filter (λ a, negb (by_id OAuthAccount.id k a && by_id OAuthAccount.userId u a)) l) }.

#[local] Instance demo_accounts_laws : LinkedAccountsLaws demo_accounts.
Proof.
  split.
  - intros u l a. simpl. rewrite filter_In. unfold by_id. by rewrite bool_decide_eq_true.
  - intros u k l l'. simpl. destruct (_ <=? _)%nat; [done|]. destruct (negb _); [done|]. intros [= <-] a.
    rewrite filter_In, negb_true_iff, andb_false_iff. unfold by_id. rewrite !bool_decide_eq_false.
    destruct (decide (OAuthAccount.id a = k)), (decide (OAuthAccount.userId a = u)); naive_solver.
Qed.

Definition google_account : OAuthAccount.t := OAuthAccount.mk "oa_1" "u_alice" "google" 0.
Definition apple_account : OAuthAccount.t := OAuthAccount.mk "oa_2" "u_alice" "apple" 50.
Definition linked : hooked := set_accounts [google_account; apple_account] h4.
(** She has signed in with Apple, so the method is recorded; then she unlinks it. *)
Definition with_apple : hooked := (on_auth (onLoginMethodUsed ulid "u_alice" apple 60) linked).2.
Definition unlinked : hooked := (UnlinkLoginMethod_execute "apple" "u_alice" with_apple).2.

Lemma registration_method_is_kept_witness :
  In google_account (hk_accounts unlinked) ∧ hk_accounts unlinked = [google_account] ∧
  UnlinkLoginMethod_execute "google" "u_alice" unlinked = (Err registration_login_method_locked, unlinked) ∧
  UnlinkLoginMethod_execute "google" "u_alice" with_apple = (Err registration_login_method_locked, with_apple).
Proof.
  assert (registered_with google_account (hk_accounts with_apple)) as Ha.
  { split; [vm_compute; auto|]. vm_compute. intros b [<-|[<-|[]]] _; auto. }
  destruct (registration_method_is_kept google_account with_apple unlinked Ha (rtc_once _ _ (ls_service with_apple "apple" "u_alice"))) as (H1 & _ & H3).
  destruct (registration_method_is_kept google_account with_apple with_apple Ha (rtc_refl _ _)) as (_ & _ & H4).
  split; [exact H1|]. split; [vm_compute; reflexivity|]. split; [apply H3; vm_compute; reflexivity|apply H4; vm_compute; reflexivity].
Defined.

(** The unlinked method stays in auth.login_methods, from which the profile lists the linked methods. *)
Theorem unlinked_method_stays_recorded :
  UnlinkLoginMethod_execute "apple" "u_alice" with_apple = (Ok tt, unlinked) ∧
  map OAuthAccount.providerId (hk_accounts unlinked) = ["google"] ∧
  map Login.methodType (logins (hk_auth unlinked)) = [google; apple].
Proof. vm_compute. split_and!; reflexivity. Qed.

End AuthHooksDemo.
