(* ===== verification/Routes.v ===== *)
(** The surface of the API: which routes exist under which configuration, the guards in front of each, and what a
    request goes through before a handler sees it (src/src/app.ts, the routers under src/src/modules, and
    api/require-partner-case-assignment.ts of the intake module).

    A route is its method, its path below the mount point, its guards in order, whom its handler demands, the service
    it calls and the status of its success.  The request schemas, the payload of the answer and the headers the
    handlers set are left out.  How Express matches a path is a parameter; the guards are those of [Gateway], [Staff]
    and [AuthPaths]. *)

From Stdlib Require Import Ascii String.
From S2P Require Import Prelude JsString IntakePolicy Db IntakeDb IntakeReads AuthDb AuthSessions AuthPaths Dpop Gateway DpopReplay GatewayProps AuthDemo Staff StaffServices StaffOffboard OfferingDemo IntakeDemo RequestLog.

Module Routes.
Import IntakePolicy Db AuthDb AuthSessions Dpop Gateway Staff.

(** ** Guards and routes *)

Inductive guard :=
  | by_session                                  (* requireAuthentication *)
  | by_role (role : string)                     (* requireAdminOperations, requireLegalPartner, requireAppraisalPartner *)
  | by_staff_identity                           (* requireStaffIdentity *)
  | by_passkey                                  (* requireStaffWebAuthn *)
  | by_fresh_session                            (* requireFreshAuthentication *)
  | by_assignment (role : string)               (* requirePartnerCaseAssignment *)
  | by_dpop (recordReplays : option bool)       (* requireDpopOnly *)
  | by_rate (limiter : string)                  (* baseline, tightened, dpop_key *)
  | by_idempotency (endpoint : string)
  | by_auth_path.                               (* rejectDisabledAuthRoutes *)

#[global] Instance guard_eq_dec : EqDecision guard.
Proof. solve_decision. Defined.

(** What the first line of the handler demands: nothing, requireDpopJkt, requireAuthContext, or requireCustomerContext. *)
Inductive demand := anyone | with_key | authenticated | customers.

Record Route := mkRoute {
  rt_method : string; rt_path : string; rt_guards : list guard; rt_demand : demand; rt_service : string; rt_status : Z }.

Inductive Layer :=
  | Cors
  | JsonBody
  | Direct (r : Route)
  | Mount (prefix : string) (guards : list guard) (routes : list Route).

Definition when {A} (b : bool) (l : list A) : list A := if b then l else [].

Definition staffOnly : list guard := [by_session; by_role "admin_operations"; by_passkey].

(** A route of the staff, and one of the customers *)
Definition staff_route (method path : string) (d : demand) (service : string) (status : Z) : Route :=
  mkRoute method path staffOnly d service status.
Definition customer_route (method path : string) (d : demand) (service : string) (status : Z) : Route :=
  mkRoute method path [by_session] d service status.

(** ** The routers *)

Definition createHealthRouter : list Route :=
  [mkRoute "GET" "/live" [] anyone "live" 200; mkRoute "GET" "/ready" [] anyone "DatabaseProbe.check" 200].

Definition createOfferingRouter : list Route := [mkRoute "GET" "/" [] anyone "ListPublicOfferingsService" 200].

Definition createInvestorOfferingRouter (download create reconfirm fresh idempotency : bool) : list Route :=
  [customer_route "GET" "/:offering_id" customers "GetInvestorOfferingService" 200] ++
  when create [mkRoute "POST" "/:offering_id/reservations"
    ([by_session] ++ when fresh [by_fresh_session] ++ when idempotency [by_idempotency "offering.reservation.create"])
    customers "CreateReservationService" 201] ++
  when reconfirm [mkRoute "POST" "/:offering_id/reservations/:reservation_id/reconfirm"
    ([by_session] ++ when fresh [by_fresh_session] ++ when idempotency [by_idempotency "offering.reservation.reconfirm"])
    customers "ReconfirmReservationService" 200] ++
  when download [customer_route "GET" "/:offering_id/documents/:document_id/download" customers "DownloadDisclosureDocumentService" 200].

Definition createOfferingOperationsRouter (idempotency : bool) : list Route :=
  [mkRoute "POST" "/:offering_id/finalize" (staffOnly ++ when idempotency [by_idempotency "offering.finalize"]) authenticated "FinalizeOfferingService" 200;
   staff_route "POST" "/:offering_id/materiality-records" authenticated "ClassifyMaterialityService" 201;
   staff_route "POST" "/:offering_id/disclosure-packs" authenticated "PublishDisclosurePackService" 201].

Definition createProfileRouter : list Route :=
  [customer_route "GET" "/" customers "GetProfileService" 200;
   customer_route "PATCH" "/preferences" customers "UpdateAccountPreferencesService" 200].

Definition createLoginMethodsRouter : list Route :=
  [mkRoute "POST" "/:method_type/unlink" [by_session; by_fresh_session] authenticated "UnlinkLoginMethodService" 204].

Definition createAppConfigRouter : list Route := [mkRoute "GET" "/config" [by_dpop None] anyone "AppConfig" 200].

Definition createDeviceAuthRouter (deviceAuthRateLimiters : list guard) : list Route :=
  [mkRoute "POST" "/enrol/challenge" (by_dpop None :: deviceAuthRateLimiters) with_key "IssueDeviceChallengeService.execute" 200;
   mkRoute "POST" "/enrol/verify" (by_dpop (Some false) :: deviceAuthRateLimiters) anyone "enrolVerify" 200;
   mkRoute "POST" "/login/challenge" (by_dpop None :: deviceAuthRateLimiters) with_key "IssueDeviceChallengeService.issueLoginChallenge" 200;
   mkRoute "POST" "/login/verify" (by_dpop (Some false) :: deviceAuthRateLimiters) anyone "loginVerify" 200].

Definition createDeviceReplacementRouter : list Route :=
  [customer_route "POST" "/request" authenticated "RequestDeviceReplacementService" 202;
   customer_route "POST" "/verify" authenticated "VerifyDeviceReplacementService" 204].

Definition createWalletRouter (balances : bool) : list Route :=
  [customer_route "POST" "/" customers "RegisterWalletService" 201; customer_route "GET" "/" customers "GetWalletStatusService" 200] ++
  when balances [customer_route "GET" "/balance" customers "GetWalletBalanceService" 200] ++
  when balances [customer_route "POST" "/transfers" customers "RequestWalletTransferService" 200].

Definition createWalletOperationsRouter (reconcile : bool) : list Route :=
  [staff_route "GET" "/:account_id" anyone "GetWalletAccountForOperationsService" 200] ++
  when reconcile [staff_route "POST" "/:account_id/reconcile" authenticated "ReconcileWalletRegistrationService" 200].

Definition createInvestorActivityRouter : list Route :=
  [customer_route "GET" "/reservations" customers "ListInvestorReservationsService" 200;
   customer_route "GET" "/positions" customers "ListInvestorCurrentPositionsService" 200].

Definition createCustomerSessionRouter : list Route :=
  [customer_route "GET" "/" authenticated "ListOwnSessionsService" 200;
   mkRoute "POST" "/revoke-all" [by_session; by_fresh_session] authenticated "RevokeAllOwnSessionsService" 204;
   mkRoute "POST" "/:session_id/revoke" [by_session; by_fresh_session] authenticated "RevokeOwnSessionService" 204;
   mkRoute "POST" "/devices/:jkt/revoke" [by_session; by_fresh_session] authenticated "RevokeDeviceSessionsService" 200].

Definition createKycRouter : list Route :=
  [customer_route "GET" "/" customers "GetKycStatusService" 200;
   customer_route "POST" "/sessions" customers "StartKycSessionService" 201;
   customer_route "POST" "/proof-of-address/sessions" customers "StartProofOfAddressSessionService" 201].

Definition createKycOperationsRouter : list Route := [staff_route "GET" "/:account_id" anyone "GetKycAccountForOperationsService" 200].

Definition createDiditWebhookRouter : list Route := [mkRoute "POST" "/" [] anyone "ReceiveDiditWebhookService" 200].

Definition createPublicStaffInvitationRouter : list Route := [mkRoute "POST" "/accept" [] anyone "AcceptStaffInvitationService" 200].

Definition createInternalStaffInvitationRouter : list Route := [staff_route "POST" "/" authenticated "IssueStaffInvitationService" 201].

Definition createStaffAccountLifecycleRouter : list Route :=
  [staff_route "GET" "/" anyone "ListStaffAccountsService" 200;
   staff_route "POST" "/:account_id/roles" authenticated "GrantStaffRoleService" 201;
   staff_route "POST" "/:account_id/roles/:assignment_id/revoke" authenticated "RevokeStaffRoleService" 200;
   staff_route "POST" "/:account_id/recovery" authenticated "RecoverStaffAccountService" 202;
   staff_route "POST" "/:account_id/offboard" authenticated "OffboardStaffAccountService" 200].

Definition createAccountRecoveryRouter : list Route :=
  [staff_route "POST" "/" authenticated "OpenAccountRecoveryCaseService" 201;
   staff_route "GET" "/:case_id" anyone "GetAccountRecoveryCaseService" 200;
   staff_route "POST" "/:case_id/didit-sessions" authenticated "CreateRecoveryDiditSessionService" 201;
   staff_route "POST" "/:case_id/primary-review" authenticated "RecordPrimaryRecoveryReviewService" 200;
   staff_route "POST" "/:case_id/decision" authenticated "DecideAccountRecoveryCaseService" 200;
   staff_route "POST" "/:case_id/complete" authenticated "CompleteAccountRecoveryService" 202].

Definition createAccountClosureRouter : list Route :=
  [customer_route "POST" "/" customers "RequestAccountClosureService" 201;
   customer_route "POST" "/cancel" customers "CancelAccountClosureService" 200].

Definition createAccountClosureOperationsRouter : list Route :=
  [staff_route "GET" "/" anyone "ListPendingAccountClosureRequestsService" 200;
   staff_route "POST" "/:request_id/decision" authenticated "DecideAccountClosureRequestService" 200].

Definition createStaffWebAuthnRouter : list Route :=
  let staffSession := [by_session; by_staff_identity] in
  [mkRoute "POST" "/registration/options" staffSession authenticated "StaffWebAuthnService.startRegistration" 200;
   mkRoute "POST" "/registration/verify" staffSession authenticated "StaffWebAuthnService.finishRegistration" 200;
   mkRoute "POST" "/authentication/options" staffSession authenticated "StaffWebAuthnService.startAuthentication" 200;
   mkRoute "POST" "/authentication/verify" staffSession authenticated "StaffWebAuthnService.finishAuthentication" 200].

Definition createIntakeRouter : list Route :=
  [customer_route "POST" "/" authenticated "CreateDraftIntakeService" 201;
   customer_route "GET" "/" authenticated "ListOwnCasesService" 200;
   customer_route "GET" "/:case_id" authenticated "GetOwnCaseService" 200;
   customer_route "POST" "/:case_id/submit" authenticated "SubmitInitialCaseService" 200;
   customer_route "GET" "/:case_id/information-requests" authenticated "ListOwnInformationRequestsService" 200;
   customer_route "POST" "/:case_id/information-requests/:request_id/respond" authenticated "RespondToInformationRequestService" 201;
   customer_route "GET" "/:case_id/messages" authenticated "ListOwnCaseMessagesService" 200;
   customer_route "POST" "/:case_id/messages" authenticated "PostOwnCaseMessageService" 201].

Definition createAccountSearchRouter : list Route := [staff_route "GET" "/" anyone "SearchAccountsByEmailService" 200].

Definition reversal_commands : list string := ["return-to-draft"; "reopen-pre-offering"; "reopen-structuring"; "reopen-final-offering-review"].

(** app.ts always hands the workflow, history, correction and staff-draft services over *)
Definition createIntakeOperationsRouter (upload download assign : bool) : list Route :=
  [staff_route "GET" "/" anyone "ListCasesForOperationsService" 200;
   staff_route "POST" "/" authenticated "CreateStaffIntakeCaseService" 201;
   staff_route "POST" "/drafts" anyone "CreateStaffDraftCaseService" 201;
   staff_route "POST" "/:case_id/submit" anyone "SubmitStaffDraftCaseService" 200;
   staff_route "GET" "/:case_id" anyone "GetCaseForOperationsService" 200;
   staff_route "GET" "/:case_id/readiness" anyone "GetOperationsReadinessService" 200;
   staff_route "GET" "/:case_id/workflow" anyone "GetIntakeWorkflowService" 200;
   staff_route "GET" "/:case_id/history" anyone "GetIntakeCaseHistoryService" 200;
   staff_route "GET" "/:case_id/reversal-preview" anyone "GetIntakeReversalPreviewService" 200] ++
  map (λ c, staff_route "POST" (String.append "/:case_id/commands/" c) authenticated "RequestIntakeReversalService" 200) reversal_commands ++
  [staff_route "POST" "/:case_id/reversal-operations/:operation_id/approve" authenticated "ApproveIntakeReversalService" 200;
   staff_route "GET" "/:case_id/reversal-operations/:operation_id" anyone "GetIntakeReversalOperationService" 200] ++
  when upload
    [staff_route "POST" "/:case_id/documents" authenticated "UploadCaseDocumentService.execute" 201;
     staff_route "PATCH" "/:case_id/rooms/:room_id/representative-photo" authenticated "UploadCaseDocumentService.setRepresentative" 204;
     staff_route "DELETE" "/:case_id/rooms/:room_id" authenticated "UploadCaseDocumentService.deleteRoom" 204;
     staff_route "DELETE" "/:case_id/rooms/:room_id/photos/:document_id" authenticated "UploadCaseDocumentService.deletePhoto" 204] ++
  when download [staff_route "GET" "/:case_id/documents" anyone "GetCaseDocumentService" 200] ++
  [staff_route "POST" "/:case_id/information-requests" authenticated "PublishInformationRequestService" 201;
   staff_route "POST" "/:case_id/information-requests/:request_id/send-reminder" anyone "SendManualReminderService" 200;
   staff_route "POST" "/:case_id/information-requests/:request_id/force-expire" authenticated "ForceExpireInformationRequestService" 200;
   staff_route "POST" "/:case_id/information-requests/:request_id/withdraw" authenticated "WithdrawInformationRequestService" 200;
   staff_route "POST" "/:case_id/decisions" authenticated "RecordFounderDecisionService" 200;
   staff_route "POST" "/:case_id/close" authenticated "CloseCaseService" 200;
   staff_route "POST" "/:case_id/retry-post-ipo-handoff" anyone "RetryPostIpoStructuringHandoffService" 200;
   staff_route "PUT" "/:case_id/evidence/:evidence_id/review" authenticated "ReviewEvidenceService" 200] ++
  when assign [staff_route "POST" "/:case_id/partner-assignment" authenticated "AssignPartnerOrganizationService" 200] ++
  [staff_route "GET" "/:case_id/messages" anyone "ListCaseMessagesForOperationsService" 200;
   staff_route "POST" "/:case_id/messages" authenticated "PostCaseMessageForOperationsService" 201].

(** createLegalPracticeRouter and createAppraisalFirmRouter *)
Definition organization_router (id created listed updated : string) : list Route :=
  [staff_route "GET" "/" anyone listed 200; staff_route "POST" "/" authenticated created 201;
   staff_route "PATCH" (String.append "/:" (String.append id "/status")) authenticated updated 200].
Definition createLegalPracticeRouter : list Route :=
  organization_router "legal_practice_id" "CreateLegalPracticeService" "ListLegalPracticesService" "UpdateLegalPracticeStatusService".
Definition createAppraisalFirmRouter : list Route :=
  organization_router "appraisal_firm_id" "CreateAppraisalFirmService" "ListAppraisalFirmsService" "UpdateAppraisalFirmStatusService".

(** createLegalPartnerCaseRouter and createAppraisalPartnerCaseRouter *)
Definition partner_case_router (role recorded : string) : list Route :=
  let roleGated := [by_session; by_role role; by_passkey] in
  [mkRoute "GET" "/" roleGated authenticated "ListCasesForPartnerService" 200;
   mkRoute "GET" "/:case_id" (roleGated ++ [by_assignment role]) anyone "GetCaseForPartnerService" 200;
   mkRoute "GET" "/:case_id/history" (roleGated ++ [by_assignment role]) anyone "GetPartnerCaseHistoryService" 200;
   mkRoute "PATCH" "/:case_id" (roleGated ++ [by_assignment role]) authenticated recorded 200].
Definition createLegalPartnerCaseRouter : list Route := partner_case_router "legal_partner" "RecordLegalStructuringService".
Definition createAppraisalPartnerCaseRouter : list Route := partner_case_router "appraisal_partner" "RecordAppraisalService".

(** ** createApp *)

(** What is configured *)
Record AppDependencies := mkDependencies {
  d_rateLimitStore : bool; d_idempotencyStore : bool; d_appleTeamId : bool; d_androidFingerprints : bool; d_relatedOrigins : bool;
  d_authHandler : bool; d_protectedApi : bool; d_dpop : option DpopOptions; d_customerSessions : bool; d_disclosureDocuments : bool; d_reservations : bool;
  d_offeringOperations : bool; d_profile : bool; d_loginMethods : bool; d_deviceAuth : option Url; d_deviceReplacement : bool;
  d_wallet : bool; d_walletBalances : bool; d_walletReconciler : bool; d_investorActivity : bool; d_kyc : bool;
  d_staffInvitations : bool; d_staffAccountLifecycle : bool; d_accountRecovery : bool; d_accountClosure : bool;
  d_partnerOrganizations : bool; d_documentUpload : bool; d_documentDownload : bool }.

Definition tightened (d : AppDependencies) : list guard := when (d_rateLimitStore d) [by_rate "tightened"].
Definition deviceAuthRateLimiters (d : AppDependencies) : list guard :=
  tightened d ++ when (d_rateLimitStore d) [by_rate "dpop_key"].

Definition well_known (name : string) : Layer := Direct (mkRoute "GET" (String.append "/.well-known/" name) [] anyone name 200).

Definition public_layers (d : AppDependencies) : list Layer :=
  [Cors] ++ when (d_appleTeamId d) [well_known "apple-app-site-association"] ++
  when (d_androidFingerprints d) [well_known "assetlinks.json"] ++ when (d_relatedOrigins d) [well_known "webauthn"] ++
  when (d_authHandler d) [Direct (mkRoute "ALL" "/api/auth/*splat" (by_auth_path :: tightened d) anyone "Better Auth" 200)] ++
  [JsonBody; Mount "/health" [] createHealthRouter;
   Mount "/v1/offerings" (when (d_rateLimitStore d) [by_rate "baseline"]) createOfferingRouter].

Definition investor_layers (d : AppDependencies) : list Layer :=
  [Mount "/v1/offerings" [] (createInvestorOfferingRouter (d_disclosureDocuments d) (d_reservations d) (d_offeringOperations d)
     (d_customerSessions d) (d_idempotencyStore d))] ++
  when (d_offeringOperations d) [Mount "/internal/v1/offerings" [] (createOfferingOperationsRouter (d_idempotencyStore d))] ++
  when (d_profile d) [Mount "/v1/investor-profile" [] createProfileRouter] ++
  when (d_loginMethods d) [Mount "/v1/auth/login-methods" [] createLoginMethodsRouter].

Definition device_layers (d : AppDependencies) : list Layer :=
  when (bool_decide (is_Some (d_deviceAuth d)))
    [Mount "/v1/app" [] createAppConfigRouter; Mount "/v1/auth/mobile" [] (createDeviceAuthRouter (deviceAuthRateLimiters d))] ++
  when (d_deviceReplacement d) [Mount "/v1/auth/mobile/replacement" [] createDeviceReplacementRouter].

Definition account_layers (d : AppDependencies) : list Layer :=
  when (d_wallet d) [Mount "/v1/investor-profile/wallet" [] (createWalletRouter (d_walletBalances d));
                     Mount "/internal/v1/wallet-accounts" [] (createWalletOperationsRouter (d_walletReconciler d))] ++
  when (d_investorActivity d) [Mount "/v1/investor-profile" [] createInvestorActivityRouter] ++
  when (d_customerSessions d) [Mount "/v1/auth/sessions" [] createCustomerSessionRouter] ++
  when (d_kyc d) [Mount "/v1/kyc" [] createKycRouter; Mount "/internal/v1/kyc-accounts" [] createKycOperationsRouter;
                  Mount "/webhooks/didit" [] createDiditWebhookRouter].

Definition staff_layers (d : AppDependencies) : list Layer :=
  when (d_staffInvitations d) [Mount "/v1/auth/staff-invitations" (tightened d) createPublicStaffInvitationRouter;
                               Mount "/internal/v1/auth/staff-invitations" [] createInternalStaffInvitationRouter] ++
  when (d_staffAccountLifecycle d) [Mount "/internal/v1/auth/staff-accounts" [] createStaffAccountLifecycleRouter] ++
  when (d_accountRecovery d) [Mount "/internal/v1/account-recovery-cases" [] createAccountRecoveryRouter] ++
  when (d_accountClosure d) [Mount "/v1/auth/account-closure" [] createAccountClosureRouter;
                             Mount "/internal/v1/account-closure-requests" [] createAccountClosureOperationsRouter] ++
  [Mount "/internal/v1/auth/webauthn" (tightened d) createStaffWebAuthnRouter].

Definition intake_layers (d : AppDependencies) : list Layer :=
  [Mount "/v1/intake-cases" [] createIntakeRouter; Mount "/internal/v1/accounts" [] createAccountSearchRouter;
   Mount "/internal/v1/intake-cases" [] (createIntakeOperationsRouter (d_documentUpload d) (d_documentDownload d) (d_partnerOrganizations d))] ++
  when (d_partnerOrganizations d) [Mount "/internal/v1/legal-practices" [] createLegalPracticeRouter;
                                   Mount "/internal/v1/appraisal-firms" [] createAppraisalFirmRouter] ++
  [Mount "/internal/v1/legal-partner/cases" [] createLegalPartnerCaseRouter;
   Mount "/internal/v1/appraisal-partner/cases" [] createAppraisalPartnerCaseRouter].

Definition createApp (d : AppDependencies) : result (list Layer) :=
  if negb (d_protectedApi d) then Ok (public_layers d)
  else if d_loginMethods d && negb (d_customerSessions d)
  then Err (Thrown "protectedApi.loginMethods requires fresh-auth middleware to be constructed")
  else if bool_decide (is_Some (d_deviceAuth d)) && negb (bool_decide (is_Some (d_dpop d)))
  then Err (Thrown "protectedApi.deviceAuth requires protectedApi.dpop to also be configured")
  else Ok (public_layers d ++ investor_layers d ++ device_layers d ++ account_layers d ++ staff_layers d ++ intake_layers d).

(** ** A request on its way *)

Record platform := mkPlatform {
  pf_staff : staff; pf_replays : list Replay.t; pf_verified : list (nat * DpopProofClaims); pf_intake : IntakeDb.intake }.

Definition auth_of (p : platform) : auth := s_auth (pf_staff p).

(** The gateway's state inside the platform's *)
Definition in_gate {A} (m : io gate A) : io platform A := λ p,
  let '(r, g) := m (mkGate (auth_of p) (pf_replays p) (pf_verified p)) in
  (r, mkPlatform (set_s_auth (g_auth g) (pf_staff p)) (g_replays g) (g_verified g) (pf_intake p)).

(** response.locals *)
Record locals := mkLocals { lc_context : option AuthContext; lc_dpopJkt : option string }.

Definition no_locals : locals := mkLocals None None.

(** The surroundings of one request: the configuration of the resolver and of DPoP, what goes wrong, the readings of
    the clock, and what the limiters, the stored answers, CORS and the body parser make of it ([RateLimit],
    [Idempotency] and [RequestLog] are those). *)
Record Surroundings := mkSurroundings {
  e_allowPendingOAuth : bool; e_dpop : option DpopOptions; e_device : DpopOptions; e_weather : Weather; e_at : RequestMoments;
  e_proof : Moments; e_fresh : Z; e_limited : string → option error; e_stored : string → option (result unit);
  e_preflight : bool; e_body : option error }.

(** *** requirePartnerCaseAssignment *)

Definition PARTNER_ACCESSIBLE_STAGES : list Stage := [post_ipo_structuring; approved_for_final_offering].

Definition partnerCaseForbiddenError : error := AppError "authorization.forbidden" 403 [].

Definition requirePartnerCaseAssignment (role : string) (caseId : option string) (context : option AuthContext) (s : auth) (i : IntakeDb.intake) : result unit :=
  match context with
  | None => Err missingContextError
  | Some c =>
      let assignedOrganizationId := getActivePartnerOrganizationId (cx_accountId c) role s in
      let assignment := match caseId with
                        | Some k => if bool_decide (k = EmptyString) then None else IntakeReads.getCasePartnerAssignment k i
                        | None => None
                        end in
      match assignment, assignedOrganizationId with
      | Some a, Some o =>
          let caseOrganizationId := if bool_decide (role = "legal_partner") then IntakeReads.pa_legalPracticeId a else IntakeReads.pa_appraisalFirmId a in
          if bool_decide (caseOrganizationId = Some o) && bool_decide (IntakeReads.pa_stage a ∈ PARTNER_ACCESSIBLE_STAGES) then Ok tt
          else Err partnerCaseForbiddenError
      | _, _ => Err partnerCaseForbiddenError
      end
  end.

Section Serve.
Context (J : DpopJose) `{A : SessionApi} `{I : InternalAdapter}.
(** Express: whether a layer is mounted on the path of the request, and the parameters of a route that matches it *)
Context (mounted : string → Request → bool) (matched : string → string → string → Request → option (list (string * string))).

(** [None]: the request has been answered. *)
Definition check (c : result unit) (l : locals) : io platform (option locals) := λ p, (match c with Ok _ => Ok (Some l) | Err e => Err e end, p).

Definition run_guard (e : Surroundings) (rq : Request) (params : list (string * string)) (g : guard) (l : locals) : io platform (option locals) := λ p,
  match g with
  | by_session =>
      (await c := in_gate (requireAuthentication J (e_allowPendingOAuth e) (e_dpop e) (e_weather e) rq (e_at e)) in
       ret (Some (mkLocals (Some c) (lc_dpopJkt l)))) p
  | by_role r =>
      check (if bool_decide (r = "admin_operations") then requireAdminOperations (lc_context l) (auth_of p)
             else requirePartnerRole r (lc_context l) (auth_of p)) l p
  | by_staff_identity => check (requireStaffIdentity (lc_context l) (auth_of p)) l p
  | by_passkey => check (StaffServices.requireStaffWebAuthn (lc_context l) (pf_staff p)) l p
  | by_fresh_session => check (requireFreshAuthentication (lc_context l) (e_fresh e) (auth_of p)) l p
  | by_assignment r =>
      check (requirePartnerCaseAssignment r (snd <$> find_row (λ kv, bool_decide (kv.1 = "case_id")) params) (lc_context l) (auth_of p) (pf_intake p)) l p
  | by_dpop recordReplays =>
      (await jkt := in_gate (requireDpopOnly J (e_device e) recordReplays rq (e_proof e)) in
       ret (Some (mkLocals (lc_context l) (Some jkt)))) p
  | by_rate limiter => check (match e_limited e limiter with Some err => Err err | None => Ok tt end) l p
  | by_idempotency endpoint =>
      match e_stored e endpoint with None => (Ok (Some l), p) | Some (Ok _) => (Ok None, p) | Some (Err err) => (Err err, p) end
  | by_auth_path => check (AuthPaths.rejectDisabledAuthRoutes (rq_originalUrl rq)) l p
  end.

Fixpoint run_guards (e : Surroundings) (rq : Request) (params : list (string * string)) (gs : list guard) (l : locals) : io platform (option locals) :=
  match gs with
  | [] => ret (Some l)
  | g :: gs => await r := run_guard e rq params g l in match r with Some l => run_guards e rq params gs l | None => ret None end
  end.

Definition dpop_jkt_missing : error := AppError "internal.dpop_jkt_missing" 500 [].
Definition not_a_customer : error := AppError "authorization.forbidden" 403 [].

Definition meets (d : demand) (l : locals) : result unit :=
  match d, lc_context l with
  | anyone, _ => Ok tt
  | with_key, _ => if bool_decide (is_Some (lc_dpopJkt l)) then Ok tt else Err dpop_jkt_missing
  | _, None => Err missingContextError
  | authenticated, Some _ => Ok tt
  | customers, Some c => if bool_decide (cx_population c = "customer") then Ok tt else Err not_a_customer
  end.

(** [Handled]: the handler of the route goes on to its service. *)
Inductive outcome := Handled (mount : string) (r : Route) (l : locals) | Answered.

Definition resource_not_found : error := AppError "resource.not_found" 404 [].

Fixpoint find_route (mount : string) (routes : list Route) (rq : Request) : option (Route * list (string * string)) :=
  match routes with
  | [] => None
  | r :: routes => match matched mount (rt_method r) (rt_path r) rq with Some ps => Some (r, ps) | None => find_route mount routes rq end
  end.

(** The guards of a route, then the first line of its handler *)
Definition enter (e : Surroundings) (rq : Request) (mount : string) (r : Route) (ps : list (string * string)) (l : locals) : io platform outcome :=
  await o := run_guards e rq ps (rt_guards r) l in
  match o with
  | None => ret Answered
  | Some l => await _ := lift (meets (rt_demand r) l) in ret (Handled mount r l)
  end.

(** The layers in the order they were added; a layer none of whose routes matches hands the request on. *)
Fixpoint serve (e : Surroundings) (rq : Request) (layers : list Layer) (l : locals) : io platform outcome :=
  match layers with
  | [] => throw resource_not_found
  | Cors :: layers => if e_preflight e then ret Answered else serve e rq layers l
  | JsonBody :: layers => match e_body e with Some err => throw err | None => serve e rq layers l end
  | Direct r :: layers =>
      match matched "" (rt_method r) (rt_path r) rq with
      | Some ps => enter e rq "" r ps l
      | None => serve e rq layers l
      end
  | Mount m gs routes :: layers =>
      if negb (mounted m rq) then serve e rq layers l
      else
      await o := run_guards e rq [] gs l in
      match o with
      | None => ret Answered
      | Some l => match find_route m routes rq with Some (r, ps) => enter e rq m r ps l | None => serve e rq layers l end
      end
  end.

End Serve.

(** ** What each part of the surface is meant to be behind *)

Definition under (prefix mount : string) : bool := String.prefix prefix mount.

Definition WEBAUTHN : string := "/internal/v1/auth/webauthn".
Definition LEGAL_CASES : string := "/internal/v1/legal-partner/cases".
Definition APPRAISAL_CASES : string := "/internal/v1/appraisal-partner/cases".

(** The staff role a mount point of the internal API is for *)
Definition role_of (mount : string) : string :=
  if bool_decide (mount = LEGAL_CASES) then "legal_partner" else if bool_decide (mount = APPRAISAL_CASES) then "appraisal_partner" else "admin_operations".

(** The routes of one case of a partner *)
Definition case_of_partner (mount : string) (r : Route) : bool :=
  bool_decide (mount ∈ [LEGAL_CASES; APPRAISAL_CASES]) && String.prefix "/:case_id" (rt_path r).

(** What the customers' API serves without a session: the public list, the acceptance of an invitation, and, behind a DPoP
    proof, the configuration of the app and the device ceremonies. *)
Definition open_route (mount : string) (r : Route) : bool :=
  bool_decide (rt_service r ∈ ["ListPublicOfferingsService"; "AcceptStaffInvitationService"]) ||
  bool_decide (mount ∈ ["/v1/app"; "/v1/auth/mobile"]).

(** The actions that need a recent sign-in; the investment ones where sessions are managed ([d_customerSessions]) *)
Definition sensitive (managed : bool) (r : Route) : bool :=
  bool_decide (rt_service r ∈ ["UnlinkLoginMethodService"; "RevokeAllOwnSessionsService"; "RevokeOwnSessionService"; "RevokeDeviceSessionsService"]) ||
  (managed && bool_decide (rt_service r ∈ ["CreateReservationService"; "ReconfirmReservationService"])).

(** Guards that neither change anything nor add to the locals *)
Definition only_checks (g : guard) : bool := match g with by_session | by_dpop _ => false | _ => true end.

Definition required (managed : bool) (mount : string) (r : Route) : list guard :=
  when (under "/internal/" mount) (if bool_decide (mount = WEBAUTHN) then [by_staff_identity] else [by_role (role_of mount); by_passkey]) ++
  when (case_of_partner mount r) [by_assignment (role_of mount)] ++ when (sensitive managed r) [by_fresh_session].

Definition needs_session (mount : string) (r : Route) : bool := under "/internal/" mount || (under "/v1/" mount && negb (open_route mount r)).

Definition route_ok (managed : bool) (mount : string) (r : Route) : bool :=
  if needs_session mount r
  then match rt_guards r with
       | by_session :: gs => forallb only_checks gs && forallb (λ g, bool_decide (g ∈ gs)) (required managed mount r)
       | _ => false
       end
  else negb (sensitive managed r).

Definition layer_ok (managed : bool) (layer : Layer) : bool :=
  match layer with
  | Mount m gs routes => forallb only_checks gs && forallb (route_ok managed m) routes
  | Direct r => route_ok managed "" r
  | _ => true
  end.

Lemma when_ok {A} (f : A → bool) b l : forallb f l = true → forallb f (when b l) = true.
Proof. by destruct b. Qed.

(** Every configuration that starts mounts every route behind what is required of it. *)
Lemma layers_ok d layers : createApp d = Ok layers → forallb (layer_ok (d_customerSessions d)) layers = true.
Proof.
  unfold createApp. intros H.
  assert (Hp : ∀ b, forallb (layer_ok b) (public_layers d) = true).
  { intros b. unfold public_layers, tightened. rewrite !forallb_app, !andb_true_iff. split_and!; try apply when_ok; by destruct (d_rateLimitStore d), b. }
  destruct (negb (d_protectedApi d)); [by simplify_eq|]. destruct (d_loginMethods d && _); [done|]. destruct (bool_decide _ && _); [done|].
  assert (E : layers = public_layers d ++ investor_layers d ++ device_layers d ++ account_layers d ++ staff_layers d ++ intake_layers d) by congruence.
  rewrite E, !forallb_app, Hp. clear E Hp H. rewrite andb_true_l.
  unfold investor_layers, device_layers, account_layers, staff_layers, intake_layers, deviceAuthRateLimiters, tightened. rewrite !forallb_app, !andb_true_iff.
  split_and!; try apply when_ok; try (by destruct (d_rateLimitStore d), (d_customerSessions d)).
  - destruct (d_disclosureDocuments d), (d_reservations d), (d_offeringOperations d), (d_customerSessions d), (d_idempotencyStore d); reflexivity.
  - destruct (d_customerSessions d), (d_idempotencyStore d); reflexivity.
  - destruct (d_customerSessions d), (d_walletBalances d), (d_walletReconciler d); reflexivity.
  - destruct (d_customerSessions d), (d_documentUpload d), (d_documentDownload d), (d_partnerOrganizations d); reflexivity.
Qed.

Section Guarded.
Context (J : DpopJose) `{A : SessionApi} `{!SessionApiLaws A} `{I : InternalAdapter}.
Context (mounted : string → Request → bool) (matched : string → string → string → Request → option (list (string * string))).
Implicit Types (e : Surroundings) (p : platform) (l : locals).

Notation run_guard := (run_guard J).
Notation run_guards := (run_guards J).
Notation enter := (enter J).

Lemma check_ok c l p l' p' : check c l p = (Ok (Some l'), p') → c = Ok tt ∧ l' = l ∧ p' = p.
Proof. unfold check. destruct c as [[]|]; intros; by simplify_eq. Qed.

(** A check that lets a request on leaves everything as it was. *)
Lemma only_checks_ok e rq ps g l p l' p' : only_checks g = true → run_guard e rq ps g l p = (Ok (Some l'), p') → l' = l ∧ p' = p.
Proof.
  destruct g; try done; intros _ H; unfold Routes.run_guard in H; try (by apply check_ok in H as (_ & -> & ->)).
  destruct (e_stored e endpoint) as [[]|]; by simplify_eq.
Qed.

Lemma run_checks_ok e rq ps gs l p l' p' : forallb only_checks gs = true → run_guards e rq ps gs l p = (Ok (Some l'), p') →
  l' = l ∧ p' = p ∧ ∀ g, g ∈ gs → run_guard e rq ps g l p = (Ok (Some l), p).
Proof.
  revert l p. induction gs as [|g gs IH]; intros l p; cbn [forallb Routes.run_guards]; intros Hc H.
  - apply ret_ok in H as [[= ->] ->]. split_and!; [done|done|]. set_solver.
  - apply andb_true_iff in Hc as [Hg Hgs]. apply iobind_ok in H as ([l1|] & p1 & H1 & H); [|by apply ret_ok in H as [[=] _]].
    destruct (only_checks_ok _ _ _ _ _ _ _ _ Hg H1) as [-> ->]. destruct (IH _ _ Hgs H) as (-> & -> & Hall).
    split_and!; [done|done|]. intros g' [->|?]%elem_of_cons; auto.
Qed.

(** A session, then checks: the context is the one the gateway admitted, and every check holds of it in the end. *)
Lemma session_then_checks e rq ps gs l p l' p' : forallb only_checks gs = true → run_guards e rq ps (by_session :: gs) l p = (Ok (Some l'), p') →
  ∃ c, lc_context l' = Some c ∧
    in_gate (requireAuthentication J (e_allowPendingOAuth e) (e_dpop e) (e_weather e) rq (e_at e)) p = (Ok c, p') ∧
    ∀ g, g ∈ gs → run_guard e rq ps g l' p' = (Ok (Some l'), p').
Proof.
  intros Hc H. cbn [Routes.run_guards] in H. apply iobind_ok in H as ([l1|] & p1 & H1 & H); [|by apply ret_ok in H as [[=] _]].
  unfold Routes.run_guard in H1. apply iobind_ok in H1 as (c & p2 & H2 & [[= ->] ->]%ret_ok).
  destruct (run_checks_ok _ _ _ _ _ _ _ _ Hc H) as (-> & -> & Hall). by exists c.
Qed.

(** A handler that is reached belongs to a route of a layer, and the layers passed on the way changed nothing. *)
Lemma serve_handled b e rq layers l p m r l' p' : forallb (layer_ok b) layers = true →
  serve J mounted matched e rq layers l p = (Ok (Handled m r l'), p') →
  route_ok b m r = true ∧ ∃ ps, matched m (rt_method r) (rt_path r) rq = Some ps ∧ enter e rq m r ps l p = (Ok (Handled m r l'), p').
Proof.
  assert (Hfind : ∀ m routes r ps, find_route matched m routes rq = Some (r, ps) → In r routes ∧ matched m (rt_method r) (rt_path r) rq = Some ps).
  { intros m0 routes. induction routes as [|r0 routes IH]; intros r1 ps; simpl; [done|]. destruct (matched _ _ _ _) eqn:E.
    - intros [= -> ->]. split; [by left|done].
    - intros [? ?]%IH. split; [by right|done]. }
  assert (Henter : ∀ m0 r0 ps, enter e rq m0 r0 ps l p = (Ok (Handled m r l'), p') → m0 = m ∧ r0 = r).
  { intros m0 r0 ps H. unfold Routes.enter in H. apply iobind_ok in H as ([l1|] & p1 & _ & H); [|by apply ret_ok in H as [[=] _]].
    apply iobind_ok in H as (u & p2 & _ & [[= -> -> ->] _]%ret_ok). done. }
  induction layers as [|layer layers IH]; cbn [forallb serve]; [done|]. intros [Hl Hls]%andb_true_iff. destruct layer as [| |r0|m0 gs routes].
  - destruct (e_preflight e); [by intros [[=] _]%ret_ok|auto].
  - destruct (e_body e); [done|auto].
  - destruct (matched "" _ _ rq) as [ps|] eqn:E; [|auto]. intros H. destruct (Henter _ _ _ H) as [<- <-]. split; [done|by exists ps].
  - simpl in Hl. apply andb_true_iff in Hl as [Hgs Hroutes]. destruct (mounted m0 rq); [|auto]. simpl.
    intros H. apply iobind_ok in H as ([l1|] & p1 & H1 & H); [|by apply ret_ok in H as [[=] _]].
    destruct (run_checks_ok _ _ _ _ _ _ _ _ Hgs H1) as (-> & -> & _).
    destruct (find_route matched m0 routes rq) as [[r0 ps]|] eqn:Ef; [|auto]. destruct (Henter _ _ _ H) as [<- <-].
    apply Hfind in Ef as [Hin Hm]. split; [|by exists ps]. rewrite forallb_forall in Hroutes. by apply Hroutes.
Qed.

Lemma enter_ok e rq m r ps l p l' p' : enter e rq m r ps l p = (Ok (Handled m r l'), p') →
  run_guards e rq ps (rt_guards r) l p = (Ok (Some l'), p') ∧ meets (rt_demand r) l' = Ok tt.
Proof.
  unfold Routes.enter. intros H. apply iobind_ok in H as ([l1|] & p1 & H1 & H); [|by apply ret_ok in H as [[=] _]].
  apply iobind_ok in H as ([] & p2 & [H2 ->]%lift_ok & [[= ->] ->]%ret_ok). done.
Qed.

(** *** What the guards mean *)

Lemma in_gate_ok {B} (m : io gate B) p v p' : in_gate m p = (Ok v, p') →
  ∃ g, m (mkGate (auth_of p) (pf_replays p) (pf_verified p)) = (Ok v, g) ∧ pf_intake p' = pf_intake p.
Proof. unfold in_gate. destruct (m _) as [r g]. intros [= -> <-]. by exists g. Qed.

Lemma admission e rq p c p' :
  in_gate (requireAuthentication J (e_allowPendingOAuth e) (e_dpop e) (e_weather e) rq (e_at e)) p = (Ok c, p') →
  ∃ x a, In x (sessions (auth_of p)) ∧ BaSession.id x = cx_providerSessionId c ∧
    (is_device_session x = true → GatewayProps.within_limits x (at_lookup (e_at e))) ∧
    In a (accts (auth_of p)) ∧ Acct.betterAuthUserId a = BaSession.userId x ∧ Acct.id a = cx_accountId c ∧ Acct.status a = acc_active.
Proof.
  intros (g & H & _)%in_gate_ok. pose proof (GatewayProps.authentication_ok _ _ _ _ _ _ _ _ _ H) as (x & a & g1 & g2 & Hr & Hb & Ha & _ & ->).
  apply GatewayProps.resolve_ok in Hr as (row & u & H1 & H2 & H3 & _ & _ & H4 & H5 & _ & _ & _ & _ & H6 & rows & ->).
  apply GatewayProps.active_account_ok in Ha as (_ & Hin & Hu & Hst).
  match type of Hb with check_binding _ _ _ _ _ ?g0 = _ =>
    pose proof (GatewayProps.check_binding_auth J rq x (e_dpop e) (at_proof (e_at e)) g0) as [rows' Hrows] end.
  rewrite Hb in Hrows. simpl in Hrows. rewrite Hrows in Hin. simpl in *.
  exists row, a. split_and!; try done; congruence.
Qed.

Lemma role_passed e rq ps r l p : run_guard e rq ps (by_role r) l p = (Ok (Some l), p) →
  ∃ c, lc_context l = Some c ∧ cx_population c = "staff_partner" ∧ hasActiveStaffRole (cx_accountId c) r (auth_of p) = true.
Proof.
  unfold Routes.run_guard. intros (H & _)%check_ok. destruct (bool_decide (r = _)) eqn:Er; boolify; subst;
    unfold requireAdminOperations, requirePartnerRole, staff_guard in H; destruct (lc_context l) as [c|]; try done;
    destruct (_ && _) eqn:E; try done; boolify; by exists c.
Qed.

Lemma identity_passed e rq ps l p : run_guard e rq ps by_staff_identity l p = (Ok (Some l), p) →
  ∃ c, lc_context l = Some c ∧ cx_population c = "staff_partner" ∧ hasAnyActiveStaffRole (cx_accountId c) (auth_of p) = true.
Proof.
  unfold Routes.run_guard. intros (H & _)%check_ok. unfold requireStaffIdentity, staff_guard in H. destruct (lc_context l) as [c|]; [|done].
  destruct (_ && _) eqn:E; [|done]. boolify. by exists c.
Qed.

Lemma passkey_passed e rq ps l p c : run_guard e rq ps by_passkey l p = (Ok (Some l), p) → lc_context l = Some c →
  isSessionVerified (cx_accountId c) (cx_providerSessionId c) (pf_staff p) = true.
Proof.
  unfold Routes.run_guard. intros (H & _)%check_ok Hc. unfold StaffServices.requireStaffWebAuthn in H. rewrite Hc in H.
  destruct (isSessionVerified _ _ _); done.
Qed.

Definition assigned (role : string) (c : AuthContext) (k : string) (p : platform) : Prop :=
  ∃ a o, IntakeReads.getCasePartnerAssignment k (pf_intake p) = Some a ∧ IntakeReads.pa_stage a ∈ PARTNER_ACCESSIBLE_STAGES ∧
    getActivePartnerOrganizationId (cx_accountId c) role (auth_of p) = Some o ∧
    (if bool_decide (role = "legal_partner") then IntakeReads.pa_legalPracticeId a else IntakeReads.pa_appraisalFirmId a) = Some o.

Definition case_id (ps : list (string * string)) : option string := snd <$> find_row (λ kv, bool_decide (kv.1 = "case_id")) ps.

Lemma assignment_passed e rq ps role l p c : run_guard e rq ps (by_assignment role) l p = (Ok (Some l), p) → lc_context l = Some c →
  ∃ k, case_id ps = Some k ∧ assigned role c k p.
Proof.
  unfold Routes.run_guard. intros (H & _)%check_ok Hc. unfold requirePartnerCaseAssignment in H. rewrite Hc in H. fold (case_id ps) in H. cbv zeta in H.
  destruct (case_id ps) as [k|]; [|done]. exists k. split; [done|]. destruct (bool_decide (k = _)); [done|].
  destruct (IntakeReads.getCasePartnerAssignment _ _) as [a|] eqn:Ea; [|done]. destruct (getActivePartnerOrganizationId _ _ _) as [o|] eqn:Eo; [|done].
  destruct (_ && _) eqn:E; [|done]. boolify. by exists a, o.
Qed.

(** C10: a handler only sees a request that has been through what its place in the API demands, in every
    configuration the application starts in and however paths are matched: below /internal the caller is an active staff
    account with a live session, the role of that part of the API and a verified passkey (the passkey ceremonies themselves: any
    staff role); a partner reaches a case only when it is assigned to the partner's own organization and open to partners;
    below /v1 everything but the public list, GET /v1/app/config, the acceptance of an invitation and the device ceremonies
    needs a live session of an active account; revoking sessions and unlinking need a fresh sign-in, and so does
    investing when the application is configured with customer sessions; and what is meant for customers is reached by
    customers only. *)
Theorem handlers_are_behind_their_guards d layers e rq p m r l p' :
  createApp d = Ok layers → serve J mounted matched e rq layers no_locals p = (Ok (Handled m r l), p') →
  (needs_session m r = true → ∃ c x a, lc_context l = Some c ∧ In x (sessions (auth_of p)) ∧ BaSession.id x = cx_providerSessionId c ∧
     (is_device_session x = true → GatewayProps.within_limits x (at_lookup (e_at e))) ∧
     In a (accts (auth_of p)) ∧ Acct.betterAuthUserId a = BaSession.userId x ∧ Acct.id a = cx_accountId c ∧ Acct.status a = acc_active) ∧
  (under "/internal/" m = true → ∃ c, lc_context l = Some c ∧ cx_population c = "staff_partner" ∧
     if bool_decide (m = WEBAUTHN) then hasAnyActiveStaffRole (cx_accountId c) (auth_of p') = true
     else hasActiveStaffRole (cx_accountId c) (role_of m) (auth_of p') = true ∧
          isSessionVerified (cx_accountId c) (cx_providerSessionId c) (pf_staff p') = true) ∧
  (case_of_partner m r = true → ∃ c ps k, lc_context l = Some c ∧ matched m (rt_method r) (rt_path r) rq = Some ps ∧ case_id ps = Some k ∧
     assigned (role_of m) c k p') ∧
  (sensitive (d_customerSessions d) r = true → requireFreshAuthentication (lc_context l) (e_fresh e) (auth_of p') = Ok tt) ∧
  (rt_demand r = customers → ∃ c, lc_context l = Some c ∧ cx_population c = "customer").
Proof.
  intros Happ%layers_ok Hs. destruct (serve_handled _ _ _ _ _ _ _ _ _ _ Happ Hs) as (Hok & ps & Hm & [Hg Hd]%enter_ok). clear Hs Happ.
  unfold route_ok in Hok. destruct (needs_session m r) eqn:En.
  - destruct (rt_guards r) as [|[] gs]; try done. apply andb_true_iff in Hok as [Hc Hreq]. rewrite forallb_forall in Hreq.
    destruct (session_then_checks _ _ _ _ _ _ _ _ Hc Hg) as (c & Ec & Ha & Hall).
    assert (Hpass : ∀ g, In g (required (d_customerSessions d) m r) → run_guard e rq ps g l p' = (Ok (Some l), p')).
    { intros g Hin. apply Hall. specialize (Hreq g Hin). by boolify. }
    unfold required in Hpass. split_and!.
    + intros _. destruct (admission _ _ _ _ _ Ha) as (x & a & H). by exists c, x, a.
    + intros Hu. rewrite Hu in Hpass. destruct (bool_decide (m = WEBAUTHN)).
      * apply (identity_passed e rq ps). apply Hpass. by left.
      * destruct (role_passed e rq ps (role_of m) l p') as (c' & Ec' & Hpop & Hr); [apply Hpass; by left|]. exists c'. split_and!; try done.
        apply (passkey_passed e rq ps l); [apply Hpass; right; by left|done].
    + intros Hp. rewrite Hp in Hpass. destruct (assignment_passed e rq ps (role_of m) l p' c) as (k & Hk & Has); [|done|by exists c, ps, k].
      apply Hpass. apply in_app_iff. right. by left.
    + intros Hf. rewrite Hf in Hpass. assert (Hr : run_guard e rq ps by_fresh_session l p' = (Ok (Some l), p')).
      { apply Hpass. rewrite !in_app_iff. right. right. by left. }
      by apply check_ok in Hr as (? & _).
    + intros E. rewrite E in Hd. unfold meets in Hd. rewrite Ec in Hd. destruct (bool_decide _) eqn:Ep; [|done]. boolify. by exists c.
  - unfold needs_session in En. apply orb_false_iff in En as [Hi _]. apply negb_true_iff in Hok. split_and!; try done; try congruence.
    + intros Hp. unfold case_of_partner in Hp. apply andb_true_iff in Hp as [Hp _]. boolify. apply list_elem_of_In in Hp. by destruct Hp as [<-|[<-|[]]].
    + intros E. rewrite E in Hd. unfold meets in Hd. destruct (lc_context l) as [c|]; [|done]. destruct (bool_decide _) eqn:Ep; [|done]. boolify. by exists c.
Qed.

End Guarded.

End Routes.

(** A partner on the way to a case, with paths matched segment by segment. *)
Module RoutesDemo.
Import JsString AuthDb Dpop Gateway Staff Routes.

#[local] Existing Instances AuthDemo.tables_adapter GatewayDemo.tables_api GatewayDemo.tables_api_laws.

(** [:name] stands for one segment, [*name] for the rest. *)
Fixpoint match_segments (pattern path : list string) : option (list (string * string)) :=
  match pattern, path with
  | [], [] => Some []
  | String ":" x :: pattern, s :: path =>
      if bool_decide (s = EmptyString) then None else (λ ps, (x, s) :: ps) <$> match_segments pattern path
  | String "*" x :: _, _ :: _ => Some []
  | a :: pattern, s :: path => if bool_decide (a = s) then match_segments pattern path else None
  | _, _ => None
  end.

Definition segments (p : string) : list string := List.filter (λ s, negb (bool_decide (s = EmptyString))) (split "/" p).
Definition path_segments (rq : Request) : list string := segments (before_query (rq_originalUrl rq)).

Definition seg_mounted (prefix : string) (rq : Request) : bool :=
  bool_decide (take (length (segments prefix)) (path_segments rq) = segments prefix).

Definition seg_matched (mount method pattern : string) (rq : Request) : option (list (string * string)) :=
  if bool_decide (method = "ALL") || bool_decide (method = rq_method rq) then match_segments (segments mount ++ segments pattern) (path_segments rq) else None.

(** ** No route hides another *)

Definition everything : AppDependencies :=
  mkDependencies true true true true true true true (Some (DpopProps.options None)) true true true true true true (Some (mkUrl "https:" "api.example" "443"))
    true true true true true true true true true true true true true.

(** A path of the route: each parameter is filled in by a segment that is no literal of the API. *)
Definition sample (mount pattern : string) : string :=
  String "/" (RequestLog.RequestLog.join "/" (map (λ s, match s with String ":" x => String.append "some-" x | String "*" _ => "rest" | _ => s end)
    (segments mount ++ segments pattern))).

Definition asked (method url : string) (token : string) : Request := mkRequest method url absent (Some (String.append "Bearer " token)) None.

(** The route a path ends at, guards aside *)
Fixpoint routed (layers : list Layer) (rq : Request) : option (string * Route) :=
  match layers with
  | [] => None
  | Direct r :: layers => match seg_matched "" (rt_method r) (rt_path r) rq with Some _ => Some ("", r) | None => routed layers rq end
  | Mount m _ routes :: layers =>
      match (if seg_mounted m rq then find_route seg_matched m routes rq else None) with Some (r, _) => Some (m, r) | None => routed layers rq end
  | _ :: layers => routed layers rq
  end.

Definition all_routes (layers : list Layer) : list (string * Route) :=
  flat_map (λ y, match y with Direct r => [("", r)] | Mount m _ routes => map (pair m) routes | _ => [] end) layers.

(** Every route of the full configuration is reached by its own path: none is hidden by one added before it. *)
Example no_route_is_hidden :
  match createApp everything with
  | Ok layers =>
      length (all_routes layers) = 116%nat ∧
      forallb (λ mr, match routed layers (asked (rt_method mr.2) (sample mr.1 (rt_path mr.2)) "t") with
                     | Some (m, r) => bool_decide (m = mr.1) && bool_decide (rt_path r = rt_path mr.2) && bool_decide (rt_method r = rt_method mr.2)
                     | None => false
                     end) (all_routes layers) = true
  | Err _ => False
  end.
Proof. vm_compute. split; reflexivity. Qed.

(** ** The partner's request *)

Definition roster : staff := mkStaff
  (set_staffRoles [StaffRole.mk "role_p" "acct_p" "legal_partner" (Some "practice_1") None 0 None] StaffDemo.tables) []
  [Credential.mk "cred_p" "acct_p" "key" 0 "singleDevice" false [] None 0 None] [] [SessionMfa.mk "sid_p" "acct_p" "cred_p" 0].
Definition p0 : platform := mkPlatform roster [] [] IntakeDemo.i7.

Definition calm : Surroundings := mkSurroundings false (Some (DpopProps.options None)) (DpopProps.options None) GatewayDemo.fine
  (GatewayDemo.at_ 100000) (mkMoments 100000 100000) 100000 (λ _, None) (λ _, None) false None.

Definition answer (rq : Request) : result outcome :=
  match createApp everything with Ok layers => (serve GatewayDemo.J0 seg_mounted seg_matched calm rq layers no_locals p0).1 | Err e => Err e end.

(** The assigned case is shown; another case, the operations API and an unknown path are not. *)
Example partner_requests :
  match answer (asked "GET" "/internal/v1/legal-partner/cases/case_1" "tok_p") with Ok (Handled _ r _) => rt_service r | _ => "" end = "GetCaseForPartnerService" ∧
  answer (asked "GET" "/internal/v1/legal-partner/cases/case_2" "tok_p") = Err partnerCaseForbiddenError ∧
  answer (asked "GET" "/internal/v1/intake-cases/case_1" "tok_p") = Err staffForbiddenError ∧
  answer (asked "GET" "/internal/v1/legal-partner/cases/case_1" "nobody") = Err authentication_required ∧
  answer (asked "GET" "/internal/v1/nothing" "tok_p") = Err resource_not_found.
Proof. vm_compute. repeat split. Qed.

Definition full_app : list Layer := match createApp everything with Ok layers => layers | Err _ => [] end.
Definition case_request : Request := asked "GET" "/internal/v1/legal-partner/cases/case_1" "tok_p".
Definition case_route : Route := mkRoute "GET" "/:case_id" [by_session; by_role "legal_partner"; by_passkey; by_assignment "legal_partner"] anyone "GetCaseForPartnerService" 200.
Definition partner_context : AuthContext := mkAuthContext "acct_p" "sid_p" "staff_partner" 0 "staff_passkey".
Notation served := (serve GatewayDemo.J0 seg_mounted seg_matched calm case_request full_app no_locals p0).

Lemma answered_with {B C} (q : B * C) v : q.1 = v → q = (v, q.2).
Proof. destruct q. by intros <-. Qed.

Lemma handlers_are_behind_their_guards_witness :
  served.1 = Ok (Handled LEGAL_CASES case_route (mkLocals (Some partner_context) None)) ∧
  hasActiveStaffRole "acct_p" "legal_partner" (auth_of served.2) = true ∧ assigned "legal_partner" partner_context "case_1" served.2.
Proof.
  assert (H : served.1 = Ok (Handled LEGAL_CASES case_route (mkLocals (Some partner_context) None))) by (vm_compute; reflexivity).
  split; [exact H|].
  destruct (handlers_are_behind_their_guards GatewayDemo.J0 seg_mounted seg_matched everything full_app calm case_request p0
    LEGAL_CASES case_route (mkLocals (Some partner_context) None) served.2) as (_ & Hr & Hc & _).
  - vm_compute. reflexivity.
  - exact (answered_with _ _ H).
  - split.
    + destruct (Hr eq_refl) as (c & [= <-] & _ & Hrole & _). exact Hrole.
    + destruct (Hc eq_refl) as (c & ps & k & [= <-] & Eps & Ek & Has).
      assert (ps = [("case_id", "case_1")]) as -> by (vm_compute in Eps; congruence). injection Ek as <-. exact Has.
Defined.

End RoutesDemo.
